(* ===== verification/_CoqProject ===== *)
-Q . S2P
Prelude.v
Ring.v
Io.v
Bus.v
MsgQueue.v
BootFs.v
SmbusTarget.v
Cm2Dm.v
VUart.v
Dvfs.v
Throttler.v
Noc.v
Harvesting.v
VfCurve.v
NocTranslation.v
ClockControl.v
Pll.v
PcieLog.v
Occp.v
I2c.v
Regulator.v
Telemetry.v
Dma.v
GddrCal.v
Jtag.v
JtagEmul.v
Gddr.v
VUartHost.v
Noc2Axi.v
NocDma.v
Pldm.v
PldmShell.v
PldmResponder.v
SpiEeprom.v
Thermal.v
Dmc.v
DmcFaults.v
DmcFan.v
