(* ===== verification/Prelude.v ===== *)
(** * Verification of the Tenstorrent system firmware

    The firmware runs on two processors of a Blackhole board.  The chip's ARC
    core (the SMC, sources in [lib/tenstorrent/bh_arc]) brings the chip up, runs
    its clock, voltage and throttling loops and answers messages of the host.
    The board controller (the DMC, [app/dmc] and [lib/tenstorrent/bh_chip])
    powers and resets chips and polls each of them over SMBus.  Both boot from a
    flash laid out as a boot file system and log through a virtual UART in
    memory shared with the host.  All paths below are relative to [src/].

    ** Files

    Shared:
    - [Prelude]: C integers, [sys/util.h] bit macros, tables with checked
      indices, loops with an exit value, and the tactics and hints shared by all
      files.  [Ring]: entries between two counters of a ring buffer.
    - [Io]: programs over memory-mapped registers as a state monad that records
      every access.  [Bus]: the same against any hardware, a class [RegBus] of
      reads and writes that may have effects of their own; the drivers' theorems
      are proved for every instance that keeps the laws of the part.

    Messages and storage:
    - [MsgQueue]: [lib/tenstorrent/fw_common/msgqueue.c].  State: one
      [message_queue] per host queue (header words, four request and four
      response slots) and a [handler_table].  [process_message_queues] is the
      firmware's pass, [queue_request_push] and [queue_response_pop] the host's
      side; the rest of the firmware is the type [W] handlers act on.
    - [BootFs]: [lib/tenstorrent/boot_fs/tt_boot_fs.c].  Mounting, adding,
      finding, reading and listing files, over the class [Flash].
    - [GddrCal]: [bh_arc/gddr_cal.c].  The DRAM calibration table in two flash
      banks; every flash operation may fail or lose power part-way.
    - [Gddr]: [bh_arc/gddr.c].  Bring-up, training, memory tests, reset and power
      messages of the DRAM controllers, over the class [Mrisc] of their firmware.
    - [SpiEeprom]: [bh_arc/spi_eeprom.c].  Messages by which the host reads, writes,
      locks and unlocks the flash, which may fail at any operation.
    - [SmbusTarget]: [drivers/smbus/target/smbus_target.c].  State:
      [smbus_target_data]; one function per bus callback, [bus_step] the
      transition of the engine on one bus event.
    - [Cm2Dm]: [bh_arc/cm2dm_msg.c], the command table of [bh_arc/smbus_target.c]
      (which instantiates [SmbusTarget]), and the controller's polling in
      [bh_chip/bh_chip.c] and [app/dmc/src/main.c].  State: [Cm2DmMsgState] on
      the chip, [dmc] on the controller, and a [link] that may lose transfers.
    - [Dmc]: the controller's main loop, [app/dmc/src/main.c] with [bh_chip/bh_chip.c],
      [strapping.c] and [jtag_bootrom/reset.c].  State: [chip] per chip and the [world]
      around it; interrupts fall between any two steps.  [DmcFaults]: how faults are
      served; [DmcFan]: the speed of the fan.
    - [VUart]: [include/tenstorrent/uart_tt_virt.h] and
      [drivers/serial/uart_tt_virt.c].  State: the shared descriptor [tt_vuart]
      with its two byte rings, and the driver's data around it.
    - [VUartHost]: [scripts/tooling/vuart.c], the host's end of it, and the loop of
      [console.c].  State: the same descriptor, and the handles a session holds.
    - [PcieLog]: [bh_arc/tt_pcie_log.c].  The log back end that frames messages
      and hands batches to a buffer of the host.
    - [Occp]: [lib/tenstorrent/occp], [drivers/misc/tt_smc_remoteproc],
      [tt_mimir_remote_boot].  The protocol that loads and starts other chiplets,
      over the class [Chiplet] of the far side.
    - [Telemetry]: [fw_common/telemetry.c], [bh_arc/telemetry_bh.c],
      [telemetry_internal.c].  The table of tagged values the host reads.

    Clocks, voltages and power:
    - [Dvfs]: [bh_arc/aiclk_ppm.c], [voltage.c], [dvfs.c].  State: arbiters,
      target and current clock ([AiclkPPM]), counters, voltage arbiters;
      [DVFSChange] is one pass and returns the clock and regulator commands in
      the order they are given.
    - [Throttler]: [bh_arc/throttler.c].  State: the power, current, temperature
      and doppler controllers, the 1000-entry power history, the kernel
      throttler.  [CalculateThrottlers] is one pass; the arbiter values it sets
      are the [updates] of [DVFSChange].
    - [Thermal]: [bh_arc/cat.c], the monitor that shuts the board down and the
      thermal trip of the memory, and [fan_ctrl.c]; both report by [Cm2Dm].
    - [VfCurve]: [bh_arc/vf_curve.c].  The curve [Dvfs] has as a parameter.
    - [ClockControl]: [drivers/clock_control/clock_control_tt_bh.c], the PLL
      driver, and [Pll]: [bh_arc/pll.c], the sequences at start-up, with the DVFS
      commands of [Dvfs] carried out by the driver.
    - [I2c]: [bh_arc/dw_apb_i2c.c]; [Regulator]: [bh_arc/regulator.c], its tables
      and [avs.c], on top of it.

    Chip structure and data movement:
    - [Noc]: [bh_arc/noc.c].  Physical and ring coordinates of the 17 by 12 grid.
    - [Harvesting]: [bh_arc/harvesting.c], [functional_efuse.c].  From fuses and
      firmware table to the masks of tiles in use ([TileEnable]).
    - [NocTranslation]: [bh_arc/noc_init.c].  Takes the tiles in use, computes the
      coordinate tables and programs them into the interfaces of all tiles.
    - [Noc2Axi]: [bh_arc/noc2axi.c], the windows through which the ARC reaches
      tiles, and the accesses of [gddr.c] made through them; [NocDma]:
      [drivers/dma/dma_tt_bh_noc.c], the tiles' own DMA, on top of it.
    - [Jtag]: [drivers/jtag/jtag_bitbang.c] and [lib/tenstorrent/jtag_bootrom] against
      any port that behaves as IEEE 1149.1 says; [JtagEmul]: against the emulator
      [jtag_emul.c].
    - [Dma]: [drivers/dma/dma_arc_hs.c] against a class of engines, and
      [bh_arc/spi_flash_buf.c], which loads images through it.
    - [Pldm]: [drivers/pmci/pldm/pldm_pdr.c] and [pldm_platform.c], the repository of
      sensor records and the messages about it; [PldmShell]: [tt_pldm_oem.c], shell
      commands over PLDM; [PldmResponder]: [pldm_base.c] and
      [pldm_mctp_responder.c], which serve them, with the vendor's handler as an
      interface ([pldm_oem_handler_driver_api], [OemLaws]) that the shell implements.
      libpldm is the classes [LibPldm], [PldmCodec] and [PldmBaseCodec].

    ** What the theorems show

    - C1, C2, C3: a pass over the message queues refines an
      abstract queue of requests and responses, loses and duplicates nothing
      under every interleaving with the host, and ends for any pointers the host
      may write.
    - C4, C5, C6: whatever fails in a write and whenever power is lost, the next start
      reads a whole calibration table, the last one acknowledged or a later one, if its reads work
      ([transient_read_loses_update] otherwise); the entries that a boot changes are settings that trained and
      passed the memory test; no memory controller starts before everything it needs is in place.
    - C7: bus accesses by toggling the pins of a JTAG port are exactly their
      sequences of scans.
    - C16, C17: if the voltage suffices for the clock and none is forced, clock and
      voltage move so that it keeps sufficing, as far as the regulator's limits let it, where the VF curve is
      monotone; also within the driver's single steps of the divider.
    - C18, C19, C20: every posted message is sent, in a bounded number
      of polls and handled exactly once although
      acknowledgements get lost; the engine is memory safe with the chip's own
      command table.
    - C21: no bus trace makes
      the engine access memory out of bounds, however ill-formed, unless it opens
      a zero-length block or a second block in one transaction (a zero-length
      block does: [zero_length_block_overruns]).
    - C22: an added file is found and read back.
    - C8, C23: the virtual UART's tx ring is a bounded queue,
      for ever if its capacity divides [2^32] and else until a counter wraps (the condition is needed:
      [wrap_overwrites_unread]); between the driver and the host's console nothing is lost, doubled or
      reordered under the same condition, without loopback and bytes 0xFF ([getc_loses_ff]).
    - C26, C27: DMA transfers copy exactly what was asked for, at any
      pace of the engines: of the ARC's engine in interrupt mode when it is quiet, of the tiles' because the
      driver waits for each step before it goes on.
    - C28, C29: harvesting
      enables exactly the tiles that its rules leave, for whatever the fuses say, and none that failed a test it
      looks at ([gddr3_failure_ignored]); after programming the translation each tile's logical identifier
      leads to that tile, on the second ring except for the first two rows ([row_0_astray_on_ring_1]).
    - C32, C33: invariants of the throttlers under every sequence of
      their entry points, and critical throttling.
    - C12, C13, C37: a write to the flash does what it says or loses one sector; only a host that
      checked what the board requires can change the flash (by requests that do not wrap around, [csm_check_wraps]);
      what is written is read back.
    - C30, C31, C38: the memory's thermal trip fires exactly for heat that lasts; the calibrated
      monitor trips within a window around the limit; the fan runs as fast as the curves ask for at the averages of
      the readings, or as it is forced to.
    - C14, C15: the board controller serves every trip, watchdog and PERST by a
      reset and leaves no bus cancelled, however interrupts fall (except PERST in the second half of a pass that
      makes resets there, [perst_cancels_for_good]); the fan is at full speed from a fault until its chip asks for less.
    - C34: no sequence of calls, at rates above zero that fit the divider
      ([rate_zero_stops_pll], [fbdiv_loop_diverges]), disturbs a PLL in use but by single steps of
      its divider.
    - C35: what the host gets is a sequence of whole entries in order, if the buffers it
      offers can be used as the firmware uses them ([odd_size_overruns], [window_wraps]).
    - C36: transfers over I2C always return.
    - C11, C25: a controller reads back exactly the records of
      the sensors, in parts of any size, and every request has the answer that fits.
    - C10, C24, C39: shell commands over PLDM behave as a mailbox
      of one job, in every order of requests and work; the context keeps its type;
      a command that is accepted is run once, and its output can be fetched whole.
    - C9, C40: every message that is accepted is answered, in
      order and once, and no response is too long to be sent.

    Each file also proves what it needs of its own parts and theorems beside these
    (block transactions over SMBus, the ring coordinates as bijections, images
    loaded by DMA or OCCP, the frame of telemetry updates, lookup by tag, the
    search on the VF curve, AVS words, ...) and, as closed computations or general theorems, where the code departs from
    its intent.

    ** Conventions

    Unsigned C integers are [Z], wrapped by [wrap] where the source may leave the
    width.  [float]s are exact rationals: nothing is claimed about rounding.  What
    C leaves undefined (an index outside an array, a null call, a division by
    zero) is [None], so a theorem with a [Some] result excludes it.  Sensors,
    timers, fuses, flash, CRC and PEC functions belong to other code and are
    arguments or classes with the documented laws; each class has an instance on
    which the witnesses compute.  Commands to hardware are returned as lists of
    events, or as the trace of register accesses, in the order of the calls.

    Loops are structural, or [loop] of this file with fuel.  The fuel is
    part of a theorem's statement or fixed where a bound is known: eight
    rounds per message queue (a ring pointer takes eight values), twelve for the
    frequency search (it halves a range of at most 2000 MHz), 65536 for the steps
    of a 16-bit divider; the theorems on these functions say that they return, so
    the fuel is enough.  Where the code polls hardware the fuel is an argument, and
    the theorems say how much is needed in terms of the hardware's delays or the
    code's time-outs.

    ** Not modelled

    Register sequences of bring-up (PCIe, Ethernet, SERDES, reset),
    sensor and UART drivers, firmware images, Zephyr's glue (work queues,
    devicetree, logging), the Grendel chip, host scripts and tests: they are
    hardware protocols without state of their own in the sources.  Next in line:
    power domains and ASIC state, Tensix tiles and Ethernet bring-up. *)
From stdpp Require Import prelude list numbers.
From Stdlib Require Import ZArith Lia Znumtheory.

Open Scope Z_scope.

(** * Machine integers

    A C unsigned integer of width [w] is a [Z] in [[0, 2^w)]; every arithmetic
    operation of the source that may leave that range is followed by [wrap]. *)
Definition wrap (w z : Z) : Z := z mod 2 ^ w.

Definition in_width (w z : Z) : Prop := 0 <= z < 2 ^ w.

Declare Scope cint_scope.
Delimit Scope cint_scope with C.
Notation "'u8' z" := (wrap 8 z) (at level 9, z at level 9) : cint_scope.
Notation "'u16' z" := (wrap 16 z) (at level 9, z at level 9) : cint_scope.
Notation "'u32' z" := (wrap 32 z) (at level 9, z at level 9) : cint_scope.
Notation "'u64' z" := (wrap 64 z) (at level 9, z at level 9) : cint_scope.
Open Scope cint_scope.

Definition UINT8_MAX : Z := 255.
Definition UINT16_MAX : Z := 65535.
Definition UINT32_MAX : Z := 4294967295.

(** * Zephyr's [sys/util.h] bit macros *)
Definition BIT (n : Z) : Z := Z.shiftl 1 n.
Definition BIT_MASK (n : Z) : Z := Z.ones n.
Definition GENMASK (h l : Z) : Z := Z.shiftl (Z.ones (h - l + 1)) l.
Definition IS_BIT_SET (v n : Z) : bool := Z.testbit v n.
Definition WRITE_BIT (v n : Z) (b : bool) : Z := if b then Z.setbit v n else Z.clearbit v n.
Definition LSB_GET (v : Z) : Z := Z.land v (- v).
Definition LOG2 (v : Z) : Z := Z.log2 v.
Definition FIELD_GET (mask v : Z) : Z := Z.land v mask / LSB_GET mask.

Fixpoint popcount_pos (p : positive) : Z :=
  match p with
  | xH => 1
  | xO q => popcount_pos q
  | xI q => 1 + popcount_pos q
  end.

Definition POPCOUNT (v : Z) : Z :=
  match v with Zpos p => popcount_pos p | _ => 0 end.

(** [MIN], [MAX] and [CLAMP] on integers.  [CLAMP(x, lo, hi)] is
    [(x <= lo) ? lo : MIN(x, hi)]. *)
Definition CLAMP (x lo hi : Z) : Z := if x <=? lo then lo else Z.min x hi.

(** * C arrays

    An array is a list; an access outside of it is undefined behaviour in C
    and [None] here, so that memory safety is a property of the model and not
    of the way it reads lists. *)
Definition zget {A} (l : list A) (i : Z) : option A :=
  if i <? 0 then None else l !! Z.to_nat i.

Definition zset {A} (l : list A) (i : Z) (x : A) : option (list A) :=
  if (0 <=? i) && (i <? Z.of_nat (length l)) then Some (<[Z.to_nat i := x]> l) else None.

(** [memcpy] of [src] into an array at [off]. *)
Definition memcpy_at {A} (dst : list A) (off : Z) (src : list A) : option (list A) :=
  if (0 <=? off) && (off + Z.of_nat (length src) <=? Z.of_nat (length dst))
  then Some (take (Z.to_nat off) dst ++ src ++ drop (Z.to_nat off + length src) dst)
  else None.

(** * Byte order: [sys_get_le16/32], [sys_put_le16/32] and [memcpy] of words *)
Fixpoint le_bytes (n : nat) (v : Z) : list Z :=
  match n with
  | O => []
  | S n => v mod 256 :: le_bytes n (v / 256)
  end.

Fixpoint le_value (bs : list Z) : Z :=
  match bs with
  | [] => 0
  | b :: bs => b + 256 * le_value bs
  end.

(** * Error numbers (the C library's [errno.h]) *)
Definition EIO : Z := 5.
Definition E2BIG : Z := 7.
Definition ENXIO : Z := 6.
Definition ENOENT : Z := 2.
Definition ENOMEM : Z := 12.
Definition EBUSY : Z := 16.
Definition ENODEV : Z := 19.
Definition EINVAL : Z := 22.
Definition ERANGE : Z := 34.
Definition ENOSYS : Z := 88.
Definition ENOTSUP : Z := 134.
Definition EOPNOTSUPP : Z := 95.
Definition EBADMSG : Z := 77.
Definition EOVERFLOW : Z := 139.
Definition ETIMEDOUT : Z := 116.

(** * Lemmas and automation *)
Create HintDb fw.
Create Rewrite HintDb fwz.

(** Turns the boolean tests of the code into the propositions they decide. *)
Ltac zb :=
  repeat match goal with
  | H : (_ <? _) = true |- _ => apply Z.ltb_lt in H
  | H : (_ <? _) = false |- _ => apply Z.ltb_ge in H
  | H : (_ <=? _) = true |- _ => apply Z.leb_le in H
  | H : (_ <=? _) = false |- _ => apply Z.leb_gt in H
  | H : (_ =? _) = true |- _ => apply Z.eqb_eq in H
  | H : (_ =? _) = false |- _ => apply Z.eqb_neq in H
  | H : negb _ = true |- _ => apply negb_true_iff in H
  | H : negb _ = false |- _ => apply negb_false_iff in H
  | H : (_ && _) = true |- _ => apply andb_true_iff in H as [? ?]
  | H : (_ && _) = false |- _ => apply andb_false_iff in H as [?|?]
  | H : (_ || _) = true |- _ => apply orb_true_iff in H as [?|?]
  | H : (_ || _) = false |- _ => apply orb_false_iff in H as [? ?]
  | |- (_ <? _) = true => apply Z.ltb_lt
  | |- (_ <? _) = false => apply Z.ltb_ge
  | |- (_ <=? _) = true => apply Z.leb_le
  | |- (_ <=? _) = false => apply Z.leb_gt
  | |- (_ =? _) = true => apply Z.eqb_eq
  | |- (_ =? _) = false => apply Z.eqb_neq
  end.

Ltac zlia := zb; lia.

(** Case analysis on every test left in the goal. *)
Ltac zcases := repeat case_match; zb; simplify_eq/=; try done; try lia.

Lemma wrap_in_width w z : 0 <= w -> in_width w (wrap w z).
Proof. intros. apply Z.mod_pos_bound. by apply Z.pow_pos_nonneg. Qed.

Lemma wrap_id w z : in_width w z -> wrap w z = z.
Proof. intros. by apply Z.mod_small. Qed.

Lemma wrap_wrap w z : 0 <= w -> wrap w (wrap w z) = wrap w z.
Proof. intros. by apply wrap_id, wrap_in_width. Qed.

Lemma wrap_add_l w a b : wrap w (wrap w a + b) = wrap w (a + b).
Proof. apply Zplus_mod_idemp_l. Qed.

Lemma wrap_sub_l w a b : wrap w (wrap w a - b) = wrap w (a - b).
Proof. apply Zminus_mod_idemp_l. Qed.

Lemma wrap_sub_r w a b : wrap w (a - wrap w b) = wrap w (a - b).
Proof. apply Zminus_mod_idemp_r. Qed.

(** Reducing modulo a divisor of [2^w] forgets the wrap-around: this is what
    makes free-running 32-bit counters index a power-of-two ring. *)
Lemma wrap_mod_divide w z m :
  0 <= w -> 0 < m -> (m | 2 ^ w) -> (wrap w z) mod m = z mod m.
Proof.
  intros Hw Hm Hd. by apply Z.mod_mod_divide.
Qed.

Lemma CLAMP_range x lo hi : lo <= hi -> lo <= CLAMP x lo hi <= hi.
Proof. unfold CLAMP. case_match; lia. Qed.

Lemma CLAMP_id x lo hi : lo <= x <= hi -> CLAMP x lo hi = x.
Proof. unfold CLAMP. case_match; lia. Qed.

Section arrays.
Context {A : Type}.
Implicit Types (l : list A).

Lemma zget_nat l (i : nat) : zget l (Z.of_nat i) = l !! i.
Proof. unfold zget. case_match; [zlia | by rewrite Nat2Z.id]. Qed.

Lemma zget_Some_range l i x : zget l i = Some x -> 0 <= i < Z.of_nat (length l).
Proof.
  unfold zget. case_match; [done | intros ?%lookup_lt_Some; zlia].
Qed.

Lemma zget_is_Some l i : 0 <= i < Z.of_nat (length l) -> is_Some (zget l i).
Proof. intros. unfold zget. case_match; [zlia | apply lookup_lt_is_Some; zlia]. Qed.

Lemma zset_is_Some l i x : 0 <= i < Z.of_nat (length l) -> is_Some (zset l i x).
Proof. intros. unfold zset. case_match; [done | zlia]. Qed.

Lemma zset_Some l i x l' :
  zset l i x = Some l' <-> 0 <= i < Z.of_nat (length l) /\ l' = <[Z.to_nat i := x]> l.
Proof.
  unfold zset. case_match; split.
  - intros [= <-]. split; [zlia | done].
  - intros [_ ->]. done.
  - done.
  - intros [? _]. zlia.
Qed.

Lemma zset_length l i x l' : zset l i x = Some l' -> length l' = length l.
Proof. intros [_ ->]%zset_Some. apply length_insert. Qed.

Lemma zget_zset_eq l i x l' : zset l i x = Some l' -> zget l' i = Some x.
Proof.
  intros [? ->]%zset_Some. unfold zget. case_match; [zlia|].
  apply list_lookup_insert_eq. zlia.
Qed.

Lemma zget_zset_ne l i j x l' : zset l i x = Some l' -> i <> j -> zget l' j = zget l j.
Proof.
  intros [? ->]%zset_Some ?. unfold zget. case_match; [done|].
  apply list_lookup_insert_ne. zlia.
Qed.
Lemma memcpy_at_Some (dst : list A) off src :
  0 <= off -> off + Z.of_nat (length src) <= Z.of_nat (length dst) ->
  memcpy_at dst off src
  = Some (take (Z.to_nat off) dst ++ src ++ drop (Z.to_nat off + length src) dst).
Proof. intros. unfold memcpy_at. case_match; [done | zlia]. Qed.

Lemma memcpy_at_length (dst : list A) off src dst' :
  memcpy_at dst off src = Some dst' -> length dst' = length dst.
Proof.
  unfold memcpy_at. case_match; [|done]. intros [= <-]. zb.
  rewrite !length_app, length_take, length_drop. lia.
Qed.
Lemma memcpy_take (dst src dst' : list A) off :
  memcpy_at dst off src = Some dst' ->
  take (Z.to_nat off + length src) dst' = take (Z.to_nat off) dst ++ src.
Proof.
  unfold memcpy_at. case_match; [|done]. intros [= <-]. zb.
  rewrite app_assoc, take_app_length'; [done|]. rewrite length_app, length_take. lia.
Qed.
End arrays.

#[export] Hint Resolve wrap_in_width zset_length : fw.
#[export] Hint Rewrite @wrap_add_l @wrap_sub_l @wrap_sub_r : fwz.

(** ** Little-endian encoding *)
Definition is_byte (b : Z) : Prop := 0 <= b < 256.

Lemma le_bytes_length n v : length (le_bytes n v) = n.
Proof. revert v. induction n; intros; simpl; auto. Qed.

Lemma le_bytes_bytes n v : Forall is_byte (le_bytes n v).
Proof.
  revert v. induction n; intros v; simpl; constructor; [|done].
  apply Z.mod_pos_bound. lia.
Qed.

Lemma le_value_bytes n v : le_value (le_bytes n v) = v mod 2 ^ (8 * Z.of_nat n).
Proof.
  revert v. induction n as [|n IH]; intros v.
  - simpl. by rewrite Z.mod_1_r.
  - change (le_value (le_bytes (S n) v)) with (v mod 256 + 256 * le_value (le_bytes n (v / 256))).
    rewrite IH. replace (8 * Z.of_nat (S n)) with (8 + 8 * Z.of_nat n) by lia.
    rewrite Z.pow_add_r by lia. change (2 ^ 8) with 256.
    rewrite Z.rem_mul_r by lia. done.
Qed.

Lemma le_value_le_bytes n v : 0 <= v < 2 ^ (8 * Z.of_nat n) -> le_value (le_bytes n v) = v.
Proof. intros. rewrite le_value_bytes. by apply Z.mod_small. Qed.

Lemma slice_app {A} (a b c : list A) n k :
  n = length a -> k = length b -> take k (drop n (a ++ b ++ c)) = b.
Proof. intros -> ->. by rewrite drop_app_length, take_app_length. Qed.

Lemma le_bytes_value bs : Forall is_byte bs -> le_bytes (length bs) (le_value bs) = bs.
Proof.
  induction 1 as [|b bs Hb Hbs IH]; [done|]. unfold is_byte in Hb. simpl.
  rewrite (Z.mul_comm 256), Z.mod_add, Z.mod_small by lia.
  rewrite Z.div_add, (Z.div_small b) by lia. by rewrite Z.add_0_l, IH.
Qed.

Lemma le_value_range bs :
  Forall is_byte bs -> 0 <= le_value bs < 2 ^ (8 * Z.of_nat (length bs)).
Proof.
  intros H. rewrite <- (le_bytes_value bs H), le_value_bytes, le_bytes_length.
  apply Z.mod_pos_bound. apply Z.pow_pos_nonneg; lia.
Qed.

(** ** Lowest set bit *)
Lemma lsb_decomp v : 0 < v -> exists k q, 0 <= k /\ 0 <= q /\ v = 2 ^ k * (2 * q + 1).
Proof.
  intros Hv. assert (Hn : exists n : nat, (Z.to_nat v <= n)%nat) by eauto.
  destruct Hn as [n Hn]. revert v Hv Hn. induction n as [|n IH]; intros v Hv Hn; [lia|].
  destruct (Z.Even_or_Odd v) as [[h Hh]|[h Hh]].
  - destruct (IH h) as (k & q & Hk & Hq & He); [lia..|].
    exists (k + 1), q. split_and!; [lia..|]. rewrite Z.pow_add_r, Hh, He by lia. lia.
  - exists 0, h. split_and!; lia.
Qed.

Lemma testbit_shifted_odd k q i :
  0 <= k -> Z.testbit (2 ^ k * (2 * q + 1)) i =
    if i <? k then false else if i =? k then true else Z.testbit q (i - k - 1).
Proof.
  intros Hk. rewrite Z.mul_comm, Z.mul_pow2_bits by lia.
  destruct (Z.ltb_spec i k); [apply Z.testbit_neg_r; lia|].
  destruct (Z.eqb_spec i k) as [->|].
  - rewrite Z.sub_diag. apply Z.testbit_odd_0.
  - rewrite <- (Z.testbit_odd_succ q (i - k - 1)) by lia. f_equal. lia.
Qed.

(** [LSB_GET] keeps the lowest set bit, and [LOG2] of it is its position. *)
Lemma LOG2_LSB_GET v :
  0 < v -> 0 <= LOG2 (LSB_GET v) /\ Z.testbit v (LOG2 (LSB_GET v)) = true /\
           forall j, Z.testbit v j = true -> LOG2 (LSB_GET v) <= j.
Proof.
  intros Hv. destruct (lsb_decomp v Hv) as (k & q & Hk & Hq & ->).
  assert (Hl : LSB_GET (2 ^ k * (2 * q + 1)) = 2 ^ k).
  { unfold LSB_GET. apply Z.bits_inj'. intros i Hi.
    replace (- (2 ^ k * (2 * q + 1))) with (2 ^ k * (2 * (Z.lnot q) + 1))
      by (unfold Z.lnot; lia).
    rewrite Z.land_spec, !testbit_shifted_odd, Z.pow2_bits_eqb by lia.
    destruct (Z.ltb_spec i k); [symmetry; apply Z.eqb_neq; lia|].
    destruct (Z.eqb_spec i k) as [->|]; [by rewrite Z.eqb_refl|].
    rewrite Z.lnot_spec, andb_negb_r by lia. symmetry. apply Z.eqb_neq. lia. }
  unfold LOG2. rewrite Hl, Z.log2_pow2 by done. split_and!; [done| |].
  - rewrite testbit_shifted_odd by done. by rewrite Z.ltb_irrefl, Z.eqb_refl.
  - intros j. rewrite testbit_shifted_odd by done. destruct (Z.ltb_spec j k); [done | lia].
Qed.

Lemma testbit_GENMASK h l i :
  0 <= l <= h + 1 -> Z.testbit (GENMASK h l) i = (l <=? i) && (i <=? h).
Proof.
  intros Hl. unfold GENMASK. destruct (Z.leb_spec 0 i).
  - rewrite Z.shiftl_spec by lia. destruct (Z.leb_spec l i).
    + rewrite Z.testbit_ones by lia. cbn [andb].
      destruct (Z.leb_spec 0 (i - l)); [|lia]. cbn [andb].
      destruct (Z.ltb_spec (i - l) (h - l + 1)), (Z.leb_spec i h); (done || lia).
    + rewrite Z.testbit_neg_r by lia. done.
  - rewrite Z.testbit_neg_r by lia. destruct (Z.leb_spec l i); [lia | done].
Qed.

Lemma testbit_ex v : 0 < v -> exists i, Z.testbit v i = true.
Proof. intros Hv. exists (Z.log2 v). by apply Z.bit_log2. Qed.

(** ** Lists *)
Lemma fmap_seq_snoc {A} (f : nat -> A) n : f <$> seq 0 (S n) = (f <$> seq 0 n) ++ [f n].
Proof. by rewrite seq_S, fmap_app. Qed.

Lemma fmap_seq_cons {A} (f : nat -> A) n :
  f <$> seq 0 (S n) = f 0%nat :: ((λ i, f (S i)) <$> seq 0 n).
Proof. simpl. f_equal. rewrite <- fmap_S_seq, <- list_fmap_compose. done. Qed.

(** Iteration of a body that may stop: a C [while] loop with fuel.  The body
    returns [inl] to go round again and [inr] to leave. *)
Fixpoint loop {S R} (fuel : nat) (body : S -> S + R) (s : S) : S + R :=
  match fuel with
  | O => inl s
  | S fuel =>
      match body s with
      | inl s' => loop fuel body s'
      | inr r => inr r
      end
  end.
