(* ===== verification/Ring.v ===== *)
(** Ring buffers indexed by free-running counters.

    Both the host message queues (pointers wrapping at twice the queue size)
    and the virtual UART (32-bit up-counters) read slot [counter mod capacity].
    This file holds the one abstraction they share: the list of entries between
    two counters, and what advancing a counter or storing an entry does to it. *)
From S2P Require Import Prelude.
From stdpp Require Import prelude list numbers.
Open Scope Z_scope.

Section ring.
Context {A : Type} `{!Inhabited A} (cap : Z).
Implicit Types (buf : list A).

(** The [n] entries starting at counter [r]. *)
Definition ring_slice buf (r : Z) (n : nat) : list A :=
  (λ i : nat, buf !!! Z.to_nat ((r + Z.of_nat i) mod cap)) <$> seq 0 n.

Lemma ring_slice_length buf r n : length (ring_slice buf r n) = n.
Proof. unfold ring_slice. by rewrite length_fmap, length_seq. Qed.

Lemma ring_slice_cons buf r n :
  ring_slice buf r (S n) = buf !!! Z.to_nat (r mod cap) :: ring_slice buf (r + 1) n.
Proof.
  unfold ring_slice. rewrite fmap_seq_cons. f_equal.
  - do 2 f_equal. f_equal. lia.
  - apply list_fmap_ext. intros i x _. do 3 f_equal. lia.
Qed.

Context (Hcap : 0 < cap).

Lemma ring_index_inj r i j :
  0 <= i < cap -> 0 <= j < cap -> (r + i) mod cap = (r + j) mod cap -> i = j.
Proof.
  intros Hi Hj He.
  assert (Hd : (r + i - (r + j)) mod cap = 0) by (rewrite Zminus_mod, He, Z.sub_diag; done).
  replace (r + i - (r + j)) with (i - j) in Hd by lia.
  apply Z.mod_divide in Hd; [|lia]. destruct Hd as [k Hk].
  assert (k = 0) by nia. lia.
Qed.

(** A counter that wraps at a multiple of the capacity still names its slot. *)
Lemma ring_slice_mod M buf r n :
  (cap | M) -> 0 < M -> ring_slice buf (r mod M) n = ring_slice buf r n.
Proof.
  intros Hd HM. apply list_fmap_ext. intros i x _. do 2 f_equal.
  rewrite <- (Z.mod_mod_divide (r mod M + Z.of_nat x) M cap), Zplus_mod_idemp_l by done.
  by apply Z.mod_mod_divide.
Qed.

(** Storing at the slot after the last entry appends, as long as one is free. *)
Lemma ring_slice_snoc buf r n x :
  Z.of_nat n < cap -> length buf = Z.to_nat cap ->
  ring_slice (<[Z.to_nat ((r + Z.of_nat n) mod cap) := x]> buf) r (S n)
  = ring_slice buf r n ++ [x].
Proof.
  intros Hn Hl. unfold ring_slice. rewrite fmap_seq_snoc. f_equal.
  - apply list_fmap_ext. intros i j [-> Hi]%lookup_seq.
    apply list_lookup_total_insert_ne. intros He.
    pose proof (Z.mod_pos_bound (r + Z.of_nat n) cap Hcap).
    pose proof (Z.mod_pos_bound (r + Z.of_nat (0 + i)) cap Hcap).
    apply Z2Nat.inj in He; [|lia..]. apply ring_index_inj in He; lia.
  - f_equal. apply list_lookup_total_insert_eq. rewrite Hl.
    pose proof (Z.mod_pos_bound (r + Z.of_nat n) cap Hcap). lia.
Qed.
End ring.

(** The distance between two counters modulo [M] and how it moves. *)
Lemma mod_succ_dist M w r :
  0 < M -> (w - r) mod M < M - 1 -> ((w + 1) mod M - r) mod M = (w - r) mod M + 1.
Proof.
  intros HM Hlt. rewrite Zminus_mod_idemp_l.
  replace (w + 1 - r) with (w - r + 1) by lia. rewrite <- Zplus_mod_idemp_l.
  pose proof (Z.mod_pos_bound (w - r) M HM). rewrite Z.mod_small; lia.
Qed.

Lemma mod_pred_dist M w r :
  0 < M -> (w - r) mod M <> 0 -> (w - (r + 1) mod M) mod M = (w - r) mod M - 1.
Proof.
  intros HM Hnz. rewrite Zminus_mod_idemp_r.
  replace (w - (r + 1)) with (w - r - 1) by lia. rewrite <- Zminus_mod_idemp_l.
  pose proof (Z.mod_pos_bound (w - r) M HM). rewrite Z.mod_small; lia.
Qed.

Lemma mod_dist_zero M w r :
  0 <= w < M -> 0 <= r < M -> (w - r) mod M = 0 -> w = r.
Proof.
  intros Hw Hr H. apply Z.mod_divide in H; [|lia]. destruct H as [k Hk].
  assert (k = 0) by nia. lia.
Qed.
