(* ===== verification/Io.v ===== *)
(** Access to device registers.

    Drivers read and write memory-mapped registers, wait, and poll status
    registers whose value is up to the hardware. [IO A] is a computation with
    these effects: [mem] holds the registers that keep what was last written,
    [inputs] the values the hardware will give to successive polls (status
    registers and clocks, in the order they are read), [trace] the writes and
    delays so far. [None] means that the C code does not return a result: it has
    undefined behaviour, or it polls for something that never comes. *)
From stdpp Require Import prelude list numbers functions.
From Stdlib Require Import ZArith Lia.
From S2P Require Import Prelude.
Open Scope Z_scope.

(** * Bit fields of a register word *)
Definition field (v lo w : Z) : Z := Z.land (Z.shiftr v lo) (Z.ones w).
Definition set_field (v lo w x : Z) : Z :=
  Z.lor (Z.ldiff v (Z.shiftl (Z.ones w) lo)) (Z.shiftl (Z.land x (Z.ones w)) lo).

Lemma field_testbit v lo w i :
  0 <= lo -> 0 <= w -> 0 <= i -> Z.testbit (field v lo w) i = Z.testbit v (i + lo) && (i <? w).
Proof.
  intros. unfold field. rewrite Z.land_spec, Z.shiftr_spec by lia. f_equal.
  destruct (Z.ltb_spec i w).
  - apply Z.ones_spec_low. lia.
  - apply Z.ones_spec_high. lia.
Qed.

Lemma field_range v lo w : 0 <= w -> 0 <= field v lo w < 2 ^ w.
Proof.
  intros. unfold field. rewrite Z.land_ones by lia. apply Z.mod_pos_bound. lia.
Qed.

Lemma set_field_testbit v lo w x i :
  0 <= lo -> 0 <= w -> 0 <= i ->
  Z.testbit (set_field v lo w x) i
  = if (lo <=? i) && (i <? lo + w) then Z.testbit x (i - lo) else Z.testbit v i.
Proof.
  intros. unfold set_field. rewrite Z.lor_spec, Z.ldiff_spec, !Z.shiftl_spec by lia.
  destruct (Z.leb_spec lo i); cbn [andb]; cycle 1.
  { rewrite !(Z.testbit_neg_r _ (i - lo)) by lia. by rewrite andb_true_r, orb_false_r. }
  rewrite Z.land_spec. destruct (Z.ltb_spec i (lo + w)).
  - rewrite Z.ones_spec_low by lia. by rewrite andb_false_r, andb_true_r.
  - rewrite Z.ones_spec_high by lia. by rewrite andb_true_r, andb_false_r, orb_false_r.
Qed.

Lemma field_set_same v lo w x :
  0 <= lo -> 0 <= w -> 0 <= x < 2 ^ w -> field (set_field v lo w x) lo w = x.
Proof.
  intros ?? Hx. apply Z.bits_inj'. intros i Hi.
  rewrite field_testbit, set_field_testbit by lia.
  destruct (Z.leb_spec lo (i + lo)); [|lia]. replace (i + lo - lo) with i by lia.
  destruct (Z.ltb_spec (i + lo) (lo + w)), (Z.ltb_spec i w); try lia; cbn [andb].
  - by rewrite andb_true_r.
  - rewrite andb_false_r. symmetry. destruct (decide (x = 0)) as [->|]; [apply Z.bits_0|].
    apply Z.bits_above_log2; [lia|]. apply Z.log2_lt_pow2; [lia|]. eapply Z.lt_le_trans; [apply Hx|].
    apply Z.pow_le_mono_r; lia.
Qed.

Lemma field_set_other v lo w x lo' w' :
  0 <= lo -> 0 <= w -> 0 <= lo' -> 0 <= w' -> lo' + w' <= lo \/ lo + w <= lo' ->
  field (set_field v lo w x) lo' w' = field v lo' w'.
Proof.
  intros ???? Hd. apply Z.bits_inj'. intros i Hi.
  rewrite !field_testbit, set_field_testbit by lia.
  destruct (Z.ltb_spec i w'); [|by rewrite !andb_false_r].
  destruct (Z.leb_spec lo (i + lo')), (Z.ltb_spec (i + lo') (lo + w)); cbn [andb]; (done || lia).
Qed.

(** * Effects *)
Inductive io_event := Wr (addr val : Z) | Delay (ns : Z).
#[global] Instance io_event_eq_dec : EqDecision io_event.
Proof. solve_decision. Defined.

Record io := mk_io { mem : Z -> Z; inputs : list Z; trace : list io_event }.

Definition IO (A : Type) : Type := io -> option (A * io).
#[global] Instance IO_ret : MRet IO := λ A x s, Some (x, s).
#[global] Instance IO_bind : MBind IO := λ A B f m s,
  match m s with Some (x, s') => f x s' | None => None end.
Definition stuck {A} : IO A := λ _, None.

Definition ReadReg (a : Z) : IO Z := λ s, Some (mem s a, s).
Definition WriteReg (a v : Z) : IO unit := λ s,
  Some (tt, mk_io (<[a := v]> (mem s)) (inputs s) (trace s ++ [Wr a v])).
Definition delay_ns (ns : Z) : IO unit := λ s,
  Some (tt, mk_io (mem s) (inputs s) (trace s ++ [Delay ns])).
(** A poll: the hardware decides. *)
Definition poll : IO Z := λ s,
  match inputs s with
  | v :: vs => Some (v, mk_io (mem s) vs (trace s))
  | [] => None
  end.

(** A polling loop over the values the hardware supplies. *)
Definition polling {A} (f : list Z -> option (A * list Z)) : IO A := λ s,
  match f (inputs s) with
  | Some (x, vs) => Some (x, mk_io (mem s) vs (trace s))
  | None => None
  end.

Lemma IO_bind_unfold {A B} (m : IO A) (f : A -> IO B) s :
  (m ≫= f) s = match m s with Some (x, s') => f x s' | None => None end.
Proof. done. Qed.

Lemma IO_bind_Some {A B} (m : IO A) (f : A -> IO B) s y s'' :
  (m ≫= f) s = Some (y, s'') <-> exists x s', m s = Some (x, s') /\ f x s' = Some (y, s'').
Proof.
  rewrite IO_bind_unfold. destruct (m s) as [[x s']|]; split.
  - intros H. by exists x, s'.
  - intros (? & ? & [= <- <-] & H). done.
  - done.
  - intros (? & ? & ? & _). done.
Qed.

(** Register lookups through writes to other addresses. *)
Ltac mem_simpl :=
  repeat match goal with
  | |- context [(<[?a := ?v]> ?m) ?a] => rewrite (fn_lookup_insert m a v)
  | |- context [(<[?a := ?v]> ?m) ?b] => rewrite (fn_lookup_insert_ne m a b v) by lia
  end.

(** The register file after a list of events. *)
Definition ev_mem (m : Z -> Z) (e : io_event) : Z -> Z :=
  match e with Wr a v => <[a := v]> m | Delay _ => m end.

(** A computation whose writes account for its effect on memory. *)
Definition traced {A} (s : io) (r : option (A * io)) (es : list io_event) : Prop :=
  exists x s', r = Some (x, s') /\ trace s' = trace s ++ es /\ mem s' = foldl ev_mem (mem s) es.

(** ** Runs and their events *)
Definition runs {A} (m : IO A) (s : io) (es : list io_event) (x : A) (s' : io) : Prop :=
  m s = Some (x, s') /\ trace s' = trace s ++ es /\ mem s' = foldl ev_mem (mem s) es.

Lemma runs_ret {A} (x : A) s : runs (mret x) s [] x s.
Proof. unfold runs. by rewrite app_nil_r. Qed.

Lemma runs_bind {A B} (m : IO A) (f : A -> IO B) s es x s1 es' y s2 :
  runs m s es x s1 -> runs (f x) s1 es' y s2 -> runs (m ≫= f) s (es ++ es') y s2.
Proof.
  intros (H & Ht & Hm) (H' & Ht' & Hm'). unfold runs. rewrite IO_bind_unfold, H.
  split_and!; [done | by rewrite Ht', Ht, app_assoc | by rewrite Hm', Hm, foldl_app].
Qed.

Lemma runs_bind_inv {A B} (m : IO A) (f : A -> IO B) s y s2 :
  (m ≫= f) s = Some (y, s2) ->
  exists x s1, m s = Some (x, s1) /\ f x s1 = Some (y, s2).
Proof. apply IO_bind_Some. Qed.

Lemma runs_write a v s : runs (WriteReg a v) s [Wr a v] tt
  (mk_io (<[a := v]> (mem s)) (inputs s) (trace s ++ [Wr a v])).
Proof. done. Qed.

Lemma runs_delay n s : runs (delay_ns n) s [Delay n] tt
  (mk_io (mem s) (inputs s) (trace s ++ [Delay n])).
Proof. done. Qed.

Lemma runs_read a s : runs (ReadReg a) s [] (mem s a) s.
Proof. unfold runs. by rewrite app_nil_r. Qed.
#[export] Hint Resolve runs_ret runs_write runs_delay runs_read : fw.

(** Evaluates a straight-line computation. *)
Ltac io_simpl :=
  unfold mbind, IO_bind, mret, IO_ret, WriteReg, ReadReg, delay_ns in *;
  cbn beta iota zeta delta [mem inputs trace] in *.

(** All register files a list of events passes through. *)
Fixpoint mem_states (m : Z -> Z) (es : list io_event) : list (Z -> Z) :=
  m :: match es with
       | [] => []
       | e :: es => mem_states (ev_mem m e) es
       end.

(** One step of a computation that is known to return. *)
Lemma runs_step {A B} (m : IO A) (f : A -> IO B) s es x s1 es' y s2 :
  runs m s es x s1 ->
  (f x s1 = Some (y, s2) -> runs (f x) s1 es' y s2) ->
  (m ≫= f) s = Some (y, s2) -> runs (m ≫= f) s (es ++ es') y s2.
Proof.
  intros R Hf H. eapply runs_bind; [exact R|]. apply Hf.
  destruct R as (E & _ & _). by rewrite IO_bind_unfold, E in H.
Qed.

Lemma runs_then_ret {A B} (m : IO A) (y y' : B) s es x s1 s2 :
  runs m s es x s1 -> (m ≫= λ _, mret y) s = Some (y', s2) ->
  runs (m ≫= λ _, mret y) s es y' s2.
Proof.
  intros R H. rewrite <- (app_nil_r es). revert H. eapply runs_step; [exact R|].
  intros [= <- <-]. apply runs_ret.
Qed.
