(* ===== verification/Bus.v ===== *)
(** Programs on a register bus.

    A driver whose registers have effects on reads runs on any state with register
    accesses, a clock and delays: the class [RegBus]. [Dev W A] is a program on such
    a state; [None] means that it does not return: it polls for ever, or the C code
    has undefined behaviour. [wp] is total correctness. *)
From stdpp Require Import prelude list numbers functions.
From Stdlib Require Import ZArith Lia.
From S2P Require Import Prelude.
Open Scope Z_scope.

(** * Programs on a bus *)
Class RegBus (W : Type) := {
  bus_read : Z -> W -> Z * W;
  bus_write : Z -> Z -> W -> W;
  bus_uptime : W -> Z * W;
  bus_wait : Z -> W -> W;
}.
Definition Dev (W A : Type) : Type := W -> option (A * W).
#[global] Instance Dev_ret W : MRet (Dev W) := λ A x w, Some (x, w).
#[global] Instance Dev_bind W : MBind (Dev W) := λ A B f m w,
  match m w with Some (x, w') => f x w' | None => None end.

Section bus.
Context {W : Type} `{RegBus W}.
Definition ReadReg (a : Z) : Dev W Z := λ w, Some (bus_read a w).
Definition WriteReg (a v : Z) : Dev W unit := λ w, Some (tt, bus_write a v w).
Definition k_uptime_get : Dev W Z := λ w, Some (bus_uptime w).
Definition Wait (cycles : Z) : Dev W unit := λ w, Some (tt, bus_wait cycles w).
(** [do ... while]: the body says whether to leave the loop, and with what. *)
Fixpoint do_while {A} (fuel : nat) (body : Dev W (option A)) : Dev W A :=
  match fuel with
  | O => λ _, None
  | S fuel => r ← body; match r with Some x => mret x | None => do_while fuel body end
  end.
End bus.

(** Total correctness: the program returns, with [Q]. *)
Definition wp {W A} (m : Dev W A) (w : W) (Q : A -> W -> Prop) : Prop :=
  exists x w', m w = Some (x, w') /\ Q x w'.

Section wp.
Context {W : Type} `{RegBus W}.
Implicit Types (w : W).
Lemma wp_ret {A} (x : A) w (Q : A -> W -> Prop) : Q x w -> wp (mret x) w Q.
Proof. intros HQ. by exists x, w. Qed.
Lemma wp_bind {A B} (m : Dev W A) (f : A -> Dev W B) w (Q : B -> W -> Prop) :
  wp m w (λ x w', wp (f x) w' Q) -> wp (m ≫= f) w Q.
Proof.
  intros (x & w1 & E & y & w2 & E2 & HQ). exists y, w2. split; [|done].
  unfold mbind, Dev_bind. by rewrite E.
Qed.
Lemma wp_mono {A} (m : Dev W A) w (P Q : A -> W -> Prop) :
  wp m w P -> (forall x w', P x w' -> Q x w') -> wp m w Q.
Proof. intros (x & w1 & E & HP) HPQ. exists x, w1. auto. Qed.
Lemma wp_read a w (Q : Z -> W -> Prop) :
  (forall v w', bus_read a w = (v, w') -> Q v w') -> wp (ReadReg a) w Q.
Proof.
  intros HQ. unfold wp, ReadReg. destruct (bus_read a w) as [v w'] eqn:E. exists v, w'. auto.
Qed.
Lemma wp_write a v w (Q : unit -> W -> Prop) : Q tt (bus_write a v w) -> wp (WriteReg a v) w Q.
Proof. intros HQ. by exists tt, (bus_write a v w). Qed.
Lemma wp_wait n w (Q : unit -> W -> Prop) : Q tt (bus_wait n w) -> wp (Wait n) w Q.
Proof. intros HQ. by exists tt, (bus_wait n w). Qed.
Lemma wp_uptime w (Q : Z -> W -> Prop) :
  (forall t w', bus_uptime w = (t, w') -> Q t w') -> wp k_uptime_get w Q.
Proof.
  intros HQ. unfold wp, k_uptime_get. destruct (bus_uptime w) as [v w'] eqn:E. exists v, w'. auto.
Qed.
(** A loop whose body, as long as it stays in the loop, keeps [I] and decreases a
    measure. *)
Lemma wp_do_while {A} (body : Dev W (option A)) (I : W -> Prop) (mu : W -> nat) (Q : A -> W -> Prop) :
  (forall w, I w -> wp body w (λ r w', match r with
      | Some x => Q x w' | None => I w' /\ (mu w' < mu w)%nat end)) ->
  forall fuel w, I w -> (mu w < fuel)%nat -> wp (do_while fuel body) w Q.
Proof.
  intros Hb fuel. induction fuel as [|fuel IH]; intros w HI Hmu; [lia|]. cbn [do_while].
  apply wp_bind. eapply wp_mono; [by apply Hb|]. intros [x|] w' HP; [by apply wp_ret|].
  destruct HP. apply IH; [done | lia].
Qed.
End wp.
Ltac wp_step :=
  lazymatch goal with
  | |- wp (mret _) _ _ => apply wp_ret
  | |- wp (WriteReg _ _) _ _ => apply wp_write
  | |- wp (Wait _) _ _ => apply wp_wait
  | |- wp (mbind _ _) _ _ => apply wp_bind
  end.
