(* ===== verification/MsgQueue.v ===== *)
(** Host message queues: [lib/tenstorrent/fw_common/msgqueue.c] with the data
    types of [include/tenstorrent/msgqueue.h].

    A queue is a pair of four-entry rings in memory shared with the host:
    the host pushes requests and pops responses, the firmware pops requests,
    runs the handler registered for the command code and pushes the response.
    The rest of the firmware is a type [W] that handlers read and change. *)
From S2P Require Import Prelude Ring.
From stdpp Require Import prelude list numbers.
Open Scope Z_scope.

Definition NUM_MSG_QUEUES : Z := 4.
Definition MSG_QUEUE_SIZE : Z := 4.
Definition MSG_QUEUE_POINTER_WRAP : Z := 2 * MSG_QUEUE_SIZE.
Definition REQUEST_MSG_LEN : nat := 8.
Definition RESPONSE_MSG_LEN : nat := 8.
(** [CONFIG_TT_MSGQUEUE_NUM_MSG_CODES], at its Kconfig default. *)
Definition NUM_MSG_CODES : Z := 200.

Definition MSG_ERROR_REPLY : Z := 0xff.
Definition MESSAGE_QUEUE_STATUS_SCRATCH_ONLY : Z := 0xfe.
Definition TT_SMC_MSG_REPORT_SCRATCH_ONLY : Z := 0x16.
Definition TT_SMC_MSG_TEST : Z := 0x90.
Definition TT_SMC_MSG_SET_LAST_SERIAL : Z := 0xBE.

Definition POST_CODE_ARC_MSG_HANDLE_START : Z := 0x30.
Definition POST_CODE_ARG_MSG_QUEUE_START : Z := 0x31.
Definition POST_CODE_ARC_MSG_HANDLE_DONE : Z := 0x3F.

(** A message is its eight 32-bit words ([union request], [struct response]). *)
Abbreviation request := (list Z) (only parsing).
Abbreviation response := (list Z) (only parsing).

Definition data (d : list Z) (i : nat) : Z := default 0 (d !! i).
Definition set_data (d : list Z) (i : nat) (v : Z) : list Z := <[i := u32 v]> d.
Definition command_code (r : request) : Z := u8 (data r 0).
Definition zero_msg (n : nat) : list Z := replicate n 0.

Record message_queue_header := {
  request_queue_wptr : Z;
  response_queue_rptr : Z;
  request_queue_rptr : Z;
  response_queue_wptr : Z;
  last_serial : Z;
}.

Record message_queue := {
  header : message_queue_header;
  request_queue : list request;
  response_queue : list response;
}.

Definition with_header (q : message_queue) (h : message_queue_header) : message_queue :=
  {| header := h; request_queue := request_queue q; response_queue := response_queue q |}.

Definition set_last_serial (q : message_queue) (s : Z) : message_queue :=
  let h := header q in
  with_header q
    {| request_queue_wptr := request_queue_wptr h; response_queue_rptr := response_queue_rptr h;
       request_queue_rptr := request_queue_rptr h; response_queue_wptr := response_queue_wptr h;
       last_serial := s |}.

(** [ptr += 1; ptr %= MSG_QUEUE_POINTER_WRAP] on a [uint32_t]. *)
Definition advance_ptr (p : Z) : Z := u32 (p + 1) mod MSG_QUEUE_POINTER_WRAP.

Definition request_entry (q : message_queue) (ptr : Z) : request :=
  request_queue q !!! Z.to_nat (ptr mod MSG_QUEUE_SIZE).

Definition response_entry (q : message_queue) (ptr : Z) : response :=
  response_queue q !!! Z.to_nat (ptr mod MSG_QUEUE_SIZE).

(** ** Ring operations on one queue *)
Definition queue_request_push (q : message_queue) (r : request) : message_queue :=
  let h := header q in
  {| header :=
       {| request_queue_wptr := advance_ptr (request_queue_wptr h);
          response_queue_rptr := response_queue_rptr h;
          request_queue_rptr := request_queue_rptr h;
          response_queue_wptr := response_queue_wptr h; last_serial := last_serial h |};
     request_queue :=
       <[Z.to_nat (request_queue_wptr h mod MSG_QUEUE_SIZE) := r]> (request_queue q);
     response_queue := response_queue q |}.

Definition queue_request_pop (q : message_queue) : request * message_queue :=
  let h := header q in
  (request_entry q (request_queue_rptr h),
   with_header q
     {| request_queue_wptr := request_queue_wptr h; response_queue_rptr := response_queue_rptr h;
        request_queue_rptr := advance_ptr (request_queue_rptr h);
        response_queue_wptr := response_queue_wptr h; last_serial := last_serial h |}).

Definition queue_response_push (q : message_queue) (r : response) : message_queue :=
  let h := header q in
  {| header :=
       {| request_queue_wptr := request_queue_wptr h;
          response_queue_rptr := response_queue_rptr h;
          request_queue_rptr := request_queue_rptr h;
          response_queue_wptr := advance_ptr (response_queue_wptr h);
          last_serial := last_serial h |};
     request_queue := request_queue q;
     response_queue :=
       <[Z.to_nat (response_queue_wptr h mod MSG_QUEUE_SIZE) := r]> (response_queue q) |}.

Definition queue_response_pop (q : message_queue) : response * message_queue :=
  let h := header q in
  (response_entry q (response_queue_rptr h),
   with_header q
     {| request_queue_wptr := request_queue_wptr h;
        response_queue_rptr := advance_ptr (response_queue_rptr h);
        request_queue_rptr := request_queue_rptr h;
        response_queue_wptr := response_queue_wptr h; last_serial := last_serial h |}).

(** ** The exported operations, on the table of queues.  A pointer argument is
    an [option]: [None] is [NULL].  The result is the return code and the new
    table, with the message popped. *)
Definition msgqueue_request_push (qs : list message_queue) (id : Z) (r : option request)
  : Z * list message_queue :=
  if NUM_MSG_QUEUES <=? id then (-1, qs)
  else match r with
       | None => (-1, qs)
       | Some r => (0, alter (λ q, queue_request_push q r) (Z.to_nat id) qs)
       end.

Definition msgqueue_request_pop (qs : list message_queue) (id : Z) (out : option request)
  : Z * option request * list message_queue :=
  if NUM_MSG_QUEUES <=? id then (-1, out, qs)
  else match out, qs !! Z.to_nat id with
       | Some _, Some q =>
           let '(r, q') := queue_request_pop q in (0, Some r, <[Z.to_nat id := q']> qs)
       | _, _ => (-1, out, qs)
       end.

Definition msgqueue_response_push (qs : list message_queue) (id : Z) (r : option response)
  : Z * list message_queue :=
  if NUM_MSG_QUEUES <=? id then (-1, qs)
  else match r with
       | None => (-1, qs)
       | Some r => (0, alter (λ q, queue_response_push q r) (Z.to_nat id) qs)
       end.

Definition msgqueue_response_pop (qs : list message_queue) (id : Z) (out : option response)
  : Z * option response * list message_queue :=
  if NUM_MSG_QUEUES <=? id then (-1, out, qs)
  else match out, qs !! Z.to_nat id with
       | Some _, Some q =>
           let '(r, q') := queue_response_pop q in (0, Some r, <[Z.to_nat id := q']> qs)
       | _, _ => (-1, out, qs)
       end.

(** ** Message processing *)
Definition start_next_message (q : message_queue) : option (Z * Z) :=
  let request_wptr := request_queue_wptr (header q) in
  let request_rptr := request_queue_rptr (header q) in
  if request_wptr =? request_rptr then None
  else
    let response_wptr := response_queue_wptr (header q) in
    let response_rptr := response_queue_rptr (header q) in
    if u32 (response_wptr - response_rptr) mod MSG_QUEUE_POINTER_WRAP =? MSG_QUEUE_SIZE
    then None
    else if (MSG_QUEUE_POINTER_WRAP <=? request_wptr) || (MSG_QUEUE_POINTER_WRAP <=? request_rptr)
            || (MSG_QUEUE_POINTER_WRAP <=? response_wptr)
            || (MSG_QUEUE_POINTER_WRAP <=? request_rptr)
    then None
    else Some (request_rptr, response_wptr).

Definition command_writes_serial (r : request) : bool :=
  command_code r =? TT_SMC_MSG_SET_LAST_SERIAL.

Definition advance_serial (q : message_queue) (r : request) : message_queue :=
  if command_writes_serial r then q
  else set_last_serial q (u32 (last_serial (header q) + 1)).

Section handlers.
Context {W : Type}.

(** [msgqueue_request_handler_t]: reads the request, fills the response and
    returns an 8-bit exit code. *)
Definition handler := W -> request -> response -> W * response * Z.
(** [message_handlers[CONFIG_TT_MSGQUEUE_NUM_MSG_CODES]]; [None] is [NULL]. *)
Local Abbreviation handler_table := (list (option handler)).

Definition msgqueue_register_handler (hs : handler_table) (msg_code : Z) (h : handler)
  : handler_table :=
  if NUM_MSG_CODES <=? msg_code then hs else <[Z.to_nat msg_code := Some h]> hs.

(** [register_interrupt_handlers]: the items of the linker section, in order. *)
Definition register_interrupt_handlers (items : list (Z * handler)) (hs : handler_table)
  : handler_table :=
  foldl (λ hs it, msgqueue_register_handler hs it.1 it.2) hs items.

Definition process_l2_message_queue (hs : handler_table) (w : W) (req : request) (rsp : response)
  : W * response :=
  let msg_code := command_code req in
  let entry : option (option handler) :=
    if NUM_MSG_CODES <=? msg_code then None else hs !! Z.to_nat msg_code in
  match entry with
  | Some (Some h) =>
      let '(w', rsp', exit_code) := h w req rsp in
      (w', set_data rsp' 0 (Z.lor (data rsp' 0) (u8 exit_code)))
  | _ => (w, set_data rsp 0 MSG_ERROR_REPLY)
  end.

Definition handle_set_last_serial (q : message_queue) (req : request) : message_queue :=
  set_last_serial q (data req 1).

Definition handle_test (q : message_queue) (req : request) (rsp : response) : response :=
  let rsp := set_data rsp 0 0 in
  let rsp := set_data rsp 1 (data req 1 + 1) in
  set_data rsp 2 (last_serial (header q) + 1).

Definition report_scratch_only_message (rsp : response) : response :=
  set_data rsp 0 MESSAGE_QUEUE_STATUS_SCRATCH_ONLY.

Definition process_queued_message (hs : handler_table) (w : W) (q : message_queue)
    (req : request) (rsp : response) : W * message_queue * response :=
  let code := command_code req in
  if code =? TT_SMC_MSG_SET_LAST_SERIAL then (w, handle_set_last_serial q req, rsp)
  else if code =? TT_SMC_MSG_TEST then (w, q, handle_test q req rsp)
  else if code =? TT_SMC_MSG_REPORT_SCRATCH_ONLY then (w, q, report_scratch_only_message rsp)
  else let '(w', rsp') := process_l2_message_queue hs w req rsp in (w', q, rsp').

(** One turn of the [while] of [process_message_queue]. *)
Definition process_message_queue_body (hs : handler_table) (s : W * message_queue)
  : (W * message_queue) + (W * message_queue) :=
  let '(w, q) := s in
  match start_next_message q with
  | None => inr (w, q)
  | Some _ =>
      let '(req, q1) := queue_request_pop q in
      let '(w', q2, rsp) :=
        process_queued_message hs w q1 req (zero_msg RESPONSE_MSG_LEN) in
      let q3 := queue_response_push q2 rsp in
      inl (w', advance_serial q3 req)
  end.

(** Eight turns are enough: the read pointer takes eight values. *)
Definition process_message_queue (hs : handler_table) (w : W) (q : message_queue)
  : (W * message_queue) + (W * message_queue) :=
  loop 8 (process_message_queue_body hs) (w, q).

(** [process_message_queues]: every queue in turn, with the post codes written. *)
Fixpoint process_queues_from (hs : handler_table) (i : Z) (w : W) (qs : list message_queue)
  : option (W * list message_queue * list Z) :=
  match qs with
  | [] => Some (w, [], [])
  | q :: qs =>
      match process_message_queue hs w q with
      | inl _ => None
      | inr (w', q') =>
          match process_queues_from hs (i + 1) w' qs with
          | None => None
          | Some (w'', qs', codes) =>
              Some (w'', q' :: qs', (POST_CODE_ARG_MSG_QUEUE_START + i) :: codes)
          end
      end
  end.

Definition process_message_queues (hs : handler_table) (w : W) (qs : list message_queue)
  : option (W * list message_queue * list Z) :=
  match process_queues_from hs 0 w qs with
  | None => None
  | Some (w', qs', codes) =>
      Some (w', qs',
            POST_CODE_ARC_MSG_HANDLE_START :: codes ++ [POST_CODE_ARC_MSG_HANDLE_DONE])
  end.
End handlers.
Arguments handler : clear implicits.
Abbreviation handler_table W := (list (option (handler W))).

Definition zero_header : message_queue_header :=
  {| request_queue_wptr := 0; response_queue_rptr := 0; request_queue_rptr := 0;
     response_queue_wptr := 0; last_serial := 0 |}.

(** [prepare_msg_queue]: the four info words published to the host driver, the
    queues with their headers cleared, and the value written to the register
    [STATUS_MSG_Q_INFO_REG_ADDR]. [base] is [&message_queues] and [info] the
    address of [message_queue_info]. *)
Definition prepare_msg_queue (base info : Z) (qs : list message_queue)
  : list Z * list message_queue * Z :=
  ([u32 base; Z.lor MSG_QUEUE_SIZE (Z.shiftl NUM_MSG_QUEUES 8); 0; 0],
   (λ q, with_header q zero_header) <$> qs,
   u32 info).

(** * Abstract view

    A queue promises the host two bounded first-in first-out lists and a serial
    number; [requests] and [responses] read them out of the shared memory. *)
Definition request_count (q : message_queue) : nat :=
  Z.to_nat ((request_queue_wptr (header q) - request_queue_rptr (header q))
            mod MSG_QUEUE_POINTER_WRAP).
Definition response_count (q : message_queue) : nat :=
  Z.to_nat ((response_queue_wptr (header q) - response_queue_rptr (header q))
            mod MSG_QUEUE_POINTER_WRAP).

Definition requests (q : message_queue) : list request :=
  ring_slice MSG_QUEUE_SIZE (request_queue q) (request_queue_rptr (header q)) (request_count q).
Definition responses (q : message_queue) : list response :=
  ring_slice MSG_QUEUE_SIZE (response_queue q) (response_queue_rptr (header q))
    (response_count q).

Definition ptr_ok (p : Z) : Prop := 0 <= p < MSG_QUEUE_POINTER_WRAP.

Record wf_queue (q : message_queue) : Prop := {
  wf_req_wptr : ptr_ok (request_queue_wptr (header q));
  wf_req_rptr : ptr_ok (request_queue_rptr (header q));
  wf_rsp_wptr : ptr_ok (response_queue_wptr (header q));
  wf_rsp_rptr : ptr_ok (response_queue_rptr (header q));
  wf_req_buf : length (request_queue q) = 4%nat;
  wf_rsp_buf : length (response_queue q) = 4%nat;
  wf_req_count : (request_count q <= 4)%nat;
  wf_rsp_count : (response_count q <= 4)%nat;
}.

(** What one request means: the firmware state it leaves, the serial number
    after it and its response. *)
Definition spec_reply {W} (hs : handler_table W) (w : W) (serial : Z) (req : request)
  : W * Z * response :=
  let code := command_code req in
  let zeros := zero_msg RESPONSE_MSG_LEN in
  if code =? TT_SMC_MSG_SET_LAST_SERIAL then (w, data req 1, zeros)
  else if code =? TT_SMC_MSG_TEST then
    (w, u32 (serial + 1), [0; u32 (data req 1 + 1); u32 (serial + 1); 0; 0; 0; 0; 0])
  else if code =? TT_SMC_MSG_REPORT_SCRATCH_ONLY then
    (w, u32 (serial + 1), [MESSAGE_QUEUE_STATUS_SCRATCH_ONLY; 0; 0; 0; 0; 0; 0; 0])
  else let '(w', rsp) := process_l2_message_queue hs w req zeros in (w', u32 (serial + 1), rsp).

(** A batch of requests, in order. *)
Fixpoint spec_run {W} (hs : handler_table W) (w : W) (serial : Z) (reqs : list request)
  : W * Z * list response :=
  match reqs with
  | [] => (w, serial, [])
  | req :: reqs =>
      let '(w1, serial1, rsp) := spec_reply hs w serial req in
      let '(w2, serial2, rsps) := spec_run hs w1 serial1 reqs in
      (w2, serial2, rsp :: rsps)
  end.

(** Interleaving with the host.  A system state is the firmware state, one
    queue, and the history the host can see: what it sent and what it received.
    The host respects the ring protocol (it pushes when a request slot is free
    and pops when a response waits); the firmware takes one message at a time. *)
Record system (W : Type) := {
  sys_world : W;
  sys_queue : message_queue;
  sys_sent : list request;
  sys_received : list response;
}.
Arguments sys_world {W}.
Arguments sys_queue {W}.
Arguments sys_sent {W}.
Arguments sys_received {W}.

Inductive system_step {W} (hs : handler_table W) : system W -> system W -> Prop :=
| host_sends s req :
    (request_count (sys_queue s) < 4)%nat ->
    system_step hs s
      {| sys_world := sys_world s; sys_queue := queue_request_push (sys_queue s) req;
         sys_sent := sys_sent s ++ [req]; sys_received := sys_received s |}
| host_receives s rsp q' :
    (0 < response_count (sys_queue s))%nat ->
    queue_response_pop (sys_queue s) = (rsp, q') ->
    system_step hs s
      {| sys_world := sys_world s; sys_queue := q';
         sys_sent := sys_sent s; sys_received := sys_received s ++ [rsp] |}
| firmware_steps s w' q' :
    process_message_queue_body hs (sys_world s, sys_queue s) = inl (w', q') ->
    system_step hs s
      {| sys_world := w'; sys_queue := q';
         sys_sent := sys_sent s; sys_received := sys_received s |}.

(** * Ring lemmas *)
Lemma advance_ptr_ok p : ptr_ok p -> advance_ptr p = (p + 1) mod 8 /\ ptr_ok (advance_ptr p).
Proof.
  unfold ptr_ok, advance_ptr, MSG_QUEUE_POINTER_WRAP, MSG_QUEUE_SIZE. intros Hp.
  rewrite wrap_id by (unfold in_width; lia). split; [done|]. apply Z.mod_pos_bound. lia.
Qed.

Lemma advance_ptr_range p : ptr_ok (advance_ptr p).
Proof. apply Z.mod_pos_bound. done. Qed.

#[export] Hint Resolve advance_ptr_range : fw.

Ltac unfold_queue :=
  unfold request_count, response_count, requests, responses, request_count, response_count,
    with_header in *;
  change MSG_QUEUE_POINTER_WRAP with 8 in *; simpl in *.

(** A ring whose pointers are advanced one at a time: what [requests] and
    [responses] become. *)
Lemma ring_pop {A} `{!Inhabited A} (buf : list A) w r :
  ptr_ok r -> (w - r) mod 8 <> 0 ->
  ring_slice MSG_QUEUE_SIZE buf r (Z.to_nat ((w - r) mod 8))
  = buf !!! Z.to_nat (r mod MSG_QUEUE_SIZE)
    :: ring_slice MSG_QUEUE_SIZE buf (advance_ptr r) (Z.to_nat ((w - advance_ptr r) mod 8)).
Proof.
  intros Hr Hne. destruct (advance_ptr_ok r Hr) as [-> _].
  pose proof (Z.mod_pos_bound (w - r) 8).
  rewrite mod_pred_dist, ring_slice_mod by (done || (exists 2; done)).
  replace (Z.to_nat ((w - r) mod 8)) with (S (Z.to_nat ((w - r) mod 8 - 1))) by lia.
  apply ring_slice_cons.
Qed.

Lemma ring_push {A} `{!Inhabited A} (buf : list A) w r x :
  ptr_ok w -> length buf = 4%nat -> (w - r) mod 8 < 4 ->
  ring_slice MSG_QUEUE_SIZE (<[Z.to_nat (w mod MSG_QUEUE_SIZE) := x]> buf) r
    (Z.to_nat ((advance_ptr w - r) mod 8))
  = ring_slice MSG_QUEUE_SIZE buf r (Z.to_nat ((w - r) mod 8)) ++ [x].
Proof.
  intros Hw Hl Hlt. destruct (advance_ptr_ok w Hw) as [-> _].
  pose proof (Z.mod_pos_bound (w - r) 8).
  rewrite mod_succ_dist, Z2Nat.inj_add by lia. rewrite Nat.add_1_r.
  rewrite <- (ring_slice_snoc MSG_QUEUE_SIZE eq_refl buf r (Z.to_nat ((w - r) mod 8)) x) by
    (done || unfold MSG_QUEUE_SIZE; lia).
  do 3 f_equal. rewrite Z2Nat.id by lia.
  rewrite <- (Z.mod_mod_divide (r + (w - r) mod 8) 8 MSG_QUEUE_SIZE) by (exists 2; done).
  rewrite Zplus_mod_idemp_r, Zplus_minus. symmetry. apply Z.mod_mod_divide. by exists 2.
Qed.

(** * One message *)

(** The queue after its oldest request was answered with [rsp]. *)
Definition answered (q : message_queue) (serial : Z) (rsp : response) : message_queue :=
  let h := header q in
  {| header :=
       {| request_queue_wptr := request_queue_wptr h;
          response_queue_rptr := response_queue_rptr h;
          request_queue_rptr := advance_ptr (request_queue_rptr h);
          response_queue_wptr := advance_ptr (response_queue_wptr h);
          last_serial := serial |};
     request_queue := request_queue q;
     response_queue :=
       <[Z.to_nat (response_queue_wptr h mod MSG_QUEUE_SIZE) := rsp]> (response_queue q) |}.

Lemma process_body_some {W} (hs : handler_table W) w q p :
  start_next_message q = Some p ->
  process_message_queue_body hs (w, q) =
    let '(w', serial, rsp) :=
      spec_reply hs w (last_serial (header q))
        (request_entry q (request_queue_rptr (header q))) in
    inl (w', answered q serial rsp).
Proof.
  intros Hs. unfold process_message_queue_body. rewrite Hs.
  unfold spec_reply, process_queued_message, advance_serial, command_writes_serial. simpl.
  set (req := request_entry q _).
  destruct (command_code req =? TT_SMC_MSG_SET_LAST_SERIAL); [done|].
  destruct (command_code req =? TT_SMC_MSG_TEST); [done|].
  destruct (command_code req =? TT_SMC_MSG_REPORT_SCRATCH_ONLY); [done|].
  by destruct (process_l2_message_queue hs w req _) as [w' rsp].
Qed.

Lemma process_body_none {W} (hs : handler_table W) w q :
  start_next_message q = None -> process_message_queue_body hs (w, q) = inr (w, q).
Proof. intros Hs. unfold process_message_queue_body. by rewrite Hs. Qed.

Lemma count_range q : (request_count q < 8)%nat /\ (response_count q < 8)%nat.
Proof.
  unfold_queue.
  pose proof (Z.mod_pos_bound (request_queue_wptr (header q) - request_queue_rptr (header q)) 8).
  pose proof (Z.mod_pos_bound (response_queue_wptr (header q) - response_queue_rptr (header q)) 8).
  lia.
Qed.

(** On a well-formed queue the start test is the specification's guard. *)
Lemma start_next_message_wf q :
  wf_queue q ->
  start_next_message q =
    if decide (request_count q = 0%nat \/ response_count q = 4%nat) then None
    else Some (request_queue_rptr (header q), response_queue_wptr (header q)).
Proof.
  intros [Hw Hr Hw' Hr' _ _ _ _]. unfold start_next_message.
  assert (He : u32 (response_queue_wptr (header q) - response_queue_rptr (header q)) mod 8
               = Z.of_nat (response_count q)).
  { unfold_queue. rewrite wrap_mod_divide by (done || (exists (2 ^ 29); done)).
    rewrite Z2Nat.id; [done|]. apply Z.mod_pos_bound. done. }
  change MSG_QUEUE_POINTER_WRAP with 8. rewrite He.
  unfold ptr_ok in *. change MSG_QUEUE_POINTER_WRAP with 8 in *.
  destruct (Z.eqb_spec (request_queue_wptr (header q)) (request_queue_rptr (header q))) as [E|E].
  { rewrite decide_True; [done|]. left. unfold_queue. by rewrite E, Z.sub_diag. }
  assert (request_count q <> 0%nat).
  { unfold_queue. pose proof (Z.mod_pos_bound
      (request_queue_wptr (header q) - request_queue_rptr (header q)) 8).
    intros Hz. apply E, (mod_dist_zero 8); lia. }
  destruct (Z.eqb_spec (Z.of_nat (response_count q)) MSG_QUEUE_SIZE) as [E'|E'];
    unfold MSG_QUEUE_SIZE in E'; zcases.
Qed.

Lemma answered_wf q serial rsp :
  wf_queue q -> request_count q <> 0%nat -> response_count q <> 4%nat ->
  wf_queue (answered q serial rsp) /\
  request_entry q (request_queue_rptr (header q)) :: requests (answered q serial rsp)
    = requests q /\
  responses (answered q serial rsp) = responses q ++ [rsp].
Proof.
  intros Hwf Hreq Hrsp. destruct Hwf as [Hw Hr Hw' Hr' Hb Hb' Hc Hc'].
  pose proof (Z.mod_pos_bound (request_queue_wptr (header q) - request_queue_rptr (header q)) 8).
  pose proof (Z.mod_pos_bound (response_queue_wptr (header q) - response_queue_rptr (header q)) 8).
  assert (Hpop : request_entry q (request_queue_rptr (header q))
                 :: requests (answered q serial rsp) = requests q).
  { unfold_queue. symmetry. apply ring_pop; (done || lia). }
  assert (Hpush : responses (answered q serial rsp) = responses q ++ [rsp]).
  { unfold_queue. apply ring_push; (done || lia). }
  split; [|done]. constructor; simpl; auto with fw.
  - by rewrite length_insert.
  - apply (f_equal length) in Hpop. revert Hpop. unfold requests. simpl.
    rewrite !ring_slice_length. lia.
  - apply (f_equal length) in Hpush. revert Hpush. unfold responses. rewrite length_app.
    rewrite !ring_slice_length. simpl. lia.
Qed.

Lemma requests_length q : length (requests q) = request_count q.
Proof. apply ring_slice_length. Qed.

Lemma responses_length q : length (responses q) = response_count q.
Proof. apply ring_slice_length. Qed.

(** How many requests one call serves: all of them, or as many as there are
    free response slots. *)
Definition batch_size (q : message_queue) : nat :=
  Nat.min (request_count q) (4 - response_count q).

(** One turn of the loop on a well-formed queue. *)
Lemma process_body_wf {W} (hs : handler_table W) w q :
  wf_queue q ->
  (batch_size q = 0%nat /\ process_message_queue_body hs (w, q) = inr (w, q)) \/
  (exists req w' serial rsp q',
     process_message_queue_body hs (w, q) = inl (w', q') /\
     spec_reply hs w (last_serial (header q)) req = (w', serial, rsp) /\
     wf_queue q' /\ requests q = req :: requests q' /\
     responses q' = responses q ++ [rsp] /\ last_serial (header q') = serial /\
     (request_count q < 8)%nat /\ (response_count q < 4)%nat).
Proof.
  intros Hwf. pose proof (start_next_message_wf q Hwf) as Hs.
  pose proof (count_range q). pose proof (wf_rsp_count q Hwf).
  case_decide as Hd.
  - left. split; [unfold batch_size; lia | by apply process_body_none].
  - right. rewrite (process_body_some hs w q _ Hs).
    set (req := request_entry q _).
    destruct (spec_reply hs w (last_serial (header q)) req) as [[w' serial] rsp] eqn:Hr.
    destruct (answered_wf q serial rsp) as (Hwf' & Hreq & Hrsp); [done | lia..|].
    exists req, w', serial, rsp, (answered q serial rsp). split_and!; (done || lia).
Qed.

Lemma process_loop_wf {W} (hs : handler_table W) fuel w q :
  wf_queue q -> (request_count q < fuel)%nat ->
  exists w' q' outs,
    loop fuel (process_message_queue_body hs) (w, q) = inr (w', q') /\
    spec_run hs w (last_serial (header q)) (take (batch_size q) (requests q))
      = (w', last_serial (header q'), outs) /\
    wf_queue q' /\ requests q' = drop (batch_size q) (requests q) /\
    responses q' = responses q ++ outs.
Proof.
  revert w q. induction fuel as [|fuel IH]; intros w q Hwf Hf; [lia|]. cbn [loop].
  destruct (process_body_wf hs w q Hwf)
    as [[Hb ->] | (req & w1 & serial & rsp & q1 & -> & Hspec & Hwf1 & Hreq & Hrsp & Hser & Hc)].
  - exists w, q, []. rewrite Hb, app_nil_r. done.
  - pose proof (requests_length q) as Hl. pose proof (responses_length q) as Hl'.
    pose proof (requests_length q1) as Hl1. pose proof (responses_length q1) as Hl1'.
    rewrite Hreq in Hl. rewrite Hrsp, length_app in Hl1'. simpl in Hl, Hl1'.
    destruct (IH w1 q1 Hwf1) as (w' & q' & outs & Hloop & Hrun & Hwf' & Hreqs & Hrsps); [lia|].
    assert (Hbs : batch_size q = S (batch_size q1)) by (unfold batch_size; lia).
    exists w', q', (rsp :: outs). rewrite Hbs, Hreq.
    change (take (S ?n) (?x :: ?l)) with (x :: take n l). cbn [spec_run]. rewrite Hspec.
    rewrite <- Hser, Hrun, Hrsps, Hrsp, <- app_assoc. done.
Qed.

(** C1. [process_message_queue] refines the abstract queue: on a well-formed
    queue it returns, serving in order exactly the oldest
    [min (pending requests) (free response slots)] requests. Those requests
    leave the request list, their responses are appended to the response list,
    and the firmware state and serial number are those of running them one
    after the other through their handlers. *)
Theorem process_message_queue_refines {W} (hs : handler_table W) (w : W) (q : message_queue)
    (Hwf : wf_queue q) :
  exists w' q' outs,
    process_message_queue hs w q = inr (w', q') /\
    spec_run hs w (last_serial (header q)) (take (batch_size q) (requests q))
      = (w', last_serial (header q'), outs) /\
    wf_queue q' /\ requests q' = drop (batch_size q) (requests q) /\
    responses q' = responses q ++ outs.
Proof. apply process_loop_wf; [done|]. apply count_range. Qed.

(** A queue with one pending test message, and a table with no handler. *)
Definition empty_queue : message_queue :=
  {| header := zero_header; request_queue := replicate 4 (zero_msg REQUEST_MSG_LEN);
     response_queue := replicate 4 (zero_msg RESPONSE_MSG_LEN) |}.
Definition test_request : request := [TT_SMC_MSG_TEST; 41; 0; 0; 0; 0; 0; 0].
Definition no_handlers {W} : handler_table W := replicate 200 None.

Lemma wf_queue_push q r :
  wf_queue q -> (request_count q < 4)%nat ->
  wf_queue (queue_request_push q r) /\
  requests (queue_request_push q r) = requests q ++ [r] /\
  responses (queue_request_push q r) = responses q.
Proof.
  intros [Hw Hr Hw' Hr' Hb Hb' Hc Hc'] Hlt.
  pose proof (Z.mod_pos_bound (request_queue_wptr (header q) - request_queue_rptr (header q)) 8).
  assert (Hpush : requests (queue_request_push q r) = requests q ++ [r]).
  { unfold_queue. apply ring_push; (done || lia). }
  split_and!; [|done|done]. constructor; simpl; auto with fw.
  - by rewrite length_insert.
  - rewrite <- requests_length, Hpush, length_app, requests_length. simpl. lia.
Qed.

Lemma wf_queue_response_pop q rsp q' :
  wf_queue q -> (0 < response_count q)%nat -> queue_response_pop q = (rsp, q') ->
  wf_queue q' /\ requests q' = requests q /\ responses q = rsp :: responses q' /\
  last_serial (header q') = last_serial (header q).
Proof.
  intros [Hw Hr Hw' Hr' Hb Hb' Hc Hc'] Hlt [= <- <-].
  pose proof (Z.mod_pos_bound (response_queue_wptr (header q) - response_queue_rptr (header q)) 8).
  set (q' := with_header q _).
  assert (Hpop : responses q
      = response_entry q (response_queue_rptr (header q)) :: responses q').
  { subst q'. unfold_queue. apply ring_pop; (done || lia). }
  split_and!; [|done..]. constructor; simpl; auto with fw.
  apply (f_equal length) in Hpop. rewrite !responses_length in Hpop. simpl in Hpop.
  rewrite responses_length in Hpop. lia.
Qed.

Lemma empty_queue_wf : wf_queue empty_queue.
Proof. constructor; try done; vm_compute; lia. Qed.

Lemma process_message_queue_refines_witness :
  wf_queue (queue_request_push empty_queue test_request) /\
  exists w' q' outs,
    process_message_queue no_handlers tt (queue_request_push empty_queue test_request)
      = inr (w', q') /\
    spec_run no_handlers tt 0
      (take 1 (requests (queue_request_push empty_queue test_request)))
      = (w', last_serial (header q'), outs) /\
    wf_queue q' /\ requests q' = drop 1 [test_request] /\
    responses q' = [] ++ outs.
Proof.
  assert (Hwf : wf_queue (queue_request_push empty_queue test_request)).
  { apply wf_queue_push; [apply empty_queue_wf | vm_compute; lia]. }
  split; [exact Hwf|].
  exact (process_message_queue_refines no_handlers tt _ Hwf).
Defined.

(** * Arbitrary host pointers *)
Lemma process_loop_total {W} (hs : handler_table W) fuel w q :
  0 <= request_queue_wptr (header q) -> 0 <= request_queue_rptr (header q) ->
  (request_queue_wptr (header q) - request_queue_rptr (header q)) mod 8 < Z.of_nat fuel ->
  exists w' q',
    loop fuel (process_message_queue_body hs) (w, q) = inr (w', q') /\
    start_next_message q' = None /\
    request_queue_wptr (header q') = request_queue_wptr (header q) /\
    response_queue_rptr (header q') = response_queue_rptr (header q) /\
    request_queue q' = request_queue q /\
    length (response_queue q') = length (response_queue q).
Proof.
  revert w q. induction fuel as [|fuel IH]; intros w q Hw Hr Hf.
  { pose proof (Z.mod_pos_bound
      (request_queue_wptr (header q) - request_queue_rptr (header q)) 8). lia. }
  cbn [loop]. destruct (start_next_message q) as [p|] eqn:Hs.
  2: { rewrite process_body_none by done. exists w, q. done. }
  rewrite (process_body_some hs w q p Hs).
  destruct (spec_reply _ _ _ _) as [[w1 serial] rsp].
  assert (Hrange : ptr_ok (request_queue_rptr (header q)) /\
    ptr_ok (request_queue_wptr (header q)) /\
    request_queue_wptr (header q) <> request_queue_rptr (header q)).
  { unfold start_next_message, ptr_ok in *. zcases. }
  destruct Hrange as (Hpr & Hpw & Hne). destruct (advance_ptr_ok _ Hpr) as [Ha ?].
  assert (Hnz : (request_queue_wptr (header q) - request_queue_rptr (header q)) mod 8 <> 0).
  { intros Hz. apply Hne, (mod_dist_zero 8); done. }
  destruct (IH w1 (answered q serial rsp)) as (w' & q' & Hloop & Hrest); simpl.
  - done.
  - unfold ptr_ok in *. lia.
  - rewrite Ha, mod_pred_dist by done. lia.
  - exists w', q'. rewrite Hloop. simpl in Hrest. rewrite length_insert in Hrest. done.
Qed.

(** C3. Whatever values the host leaves in its pointers, [process_message_queue]
    terminates (at most eight turns), stops only because the start test fails,
    and never writes the words the host owns: its write pointer, its read
    pointer and the request ring. *)
Theorem process_message_queue_total {W} (hs : handler_table W) (w : W) (q : message_queue)
    (Hw : in_width 32 (request_queue_wptr (header q)))
    (Hr : in_width 32 (request_queue_rptr (header q))) :
  exists w' q',
    process_message_queue hs w q = inr (w', q') /\
    start_next_message q' = None /\
    request_queue_wptr (header q') = request_queue_wptr (header q) /\
    response_queue_rptr (header q') = response_queue_rptr (header q) /\
    request_queue q' = request_queue q /\
    length (response_queue q') = length (response_queue q).
Proof.
  apply process_loop_total; [apply Hw | apply Hr |].
  pose proof (Z.mod_pos_bound
    (request_queue_wptr (header q) - request_queue_rptr (header q)) 8). lia.
Qed.

(** Pointers a faulty host could leave: far outside the ring. *)
Definition rogue_queue : message_queue :=
  with_header empty_queue
    {| request_queue_wptr := 4294967295; response_queue_rptr := 77; request_queue_rptr := 3;
       response_queue_wptr := 2; last_serial := 5 |}.

Lemma process_message_queue_total_witness :
  exists w' q',
    process_message_queue (W := unit) no_handlers tt rogue_queue = inr (w', q') /\
    start_next_message q' = None /\
    request_queue_wptr (header q') = 4294967295 /\
    response_queue_rptr (header q') = 77 /\
    request_queue q' = request_queue rogue_queue /\
    length (response_queue q') = 4%nat.
Proof.
  apply (process_message_queue_total no_handlers tt rogue_queue); vm_compute; done.
Defined.

(** * Interleaving with the host *)
Definition fifo_inv {W} (hs : handler_table W) (w0 : W) (serial0 : Z) (s : system W) : Prop :=
  wf_queue (sys_queue s) /\
  exists served,
    sys_sent s = served ++ requests (sys_queue s) /\
    spec_run hs w0 serial0 served
      = (sys_world s, last_serial (header (sys_queue s)),
         sys_received s ++ responses (sys_queue s)).

Lemma spec_run_snoc {W} (hs : handler_table W) w serial reqs req w1 serial1 outs :
  spec_run hs w serial reqs = (w1, serial1, outs) ->
  spec_run hs w serial (reqs ++ [req]) =
    let '(w2, serial2, rsp) := spec_reply hs w1 serial1 req in (w2, serial2, outs ++ [rsp]).
Proof.
  revert w serial outs. induction reqs as [|r reqs IH]; intros w serial outs; simpl.
  - intros [= -> -> <-]. by destruct (spec_reply hs w1 serial1 req) as [[? ?] ?].
  - destruct (spec_reply hs w serial r) as [[w' serial'] rsp].
    destruct (spec_run hs w' serial' reqs) as [[w'' serial''] outs'] eqn:Hrun.
    intros [= -> -> <-]. rewrite (IH _ _ _ Hrun).
    by destruct (spec_reply hs w1 serial1 req) as [[? ?] ?].
Qed.

Lemma fifo_inv_step {W} (hs : handler_table W) w0 serial0 s s' :
  fifo_inv hs w0 serial0 s -> system_step hs s s' -> fifo_inv hs w0 serial0 s'.
Proof.
  intros [Hwf (served & Hsent & Hrun)] Hstep.
  destruct Hstep as [s req Hlt | s rsp q' Hlt Hpop | s w' q' Hbody]; unfold fifo_inv; simpl.
  - destruct (wf_queue_push (sys_queue s) req Hwf Hlt) as (? & -> & ->).
    split; [done|]. exists served. by rewrite Hsent, app_assoc.
  - destruct (wf_queue_response_pop _ _ _ Hwf Hlt Hpop) as (? & -> & Hrsp & ->).
    split; [done|]. exists served. rewrite <- app_assoc. simpl. by rewrite <- Hrsp.
  - destruct (process_body_wf hs (sys_world s) (sys_queue s) Hwf)
      as [[_ Hb] | (req & w1 & serial & rsp & q1 & Hb & Hspec & Hwf1 & Hreq & Hrsp & Hser & _)];
      rewrite Hb in Hbody; simplify_eq.
    split; [done|]. exists (served ++ [req]).
    rewrite <- app_assoc, (spec_run_snoc _ _ _ _ _ _ _ _ Hrun), Hspec. simpl.
    by rewrite <- Hreq, Hrsp, app_assoc.
Qed.

(** C2. Host and firmware may interleave in any order, one queue operation at a
    time. Starting from an empty well-formed queue, what the host has received,
    followed by what still waits in the response ring, is always exactly the
    list of responses to a prefix of what it sent, in the order it was sent; the
    remaining requests are the ones in the request ring. Nothing is lost,
    duplicated or reordered, and the serial number and the firmware state are
    those of the served prefix. *)
Theorem system_fifo {W} (hs : handler_table W) (s0 s : system W)
    (Hwf : wf_queue (sys_queue s0))
    (Hempty : requests (sys_queue s0) = [] /\ responses (sys_queue s0) = [])
    (Hhist : sys_sent s0 = [] /\ sys_received s0 = [])
    (Hsteps : rtc (system_step hs) s0 s) :
  wf_queue (sys_queue s) /\
  exists served,
    sys_sent s = served ++ requests (sys_queue s) /\
    spec_run hs (sys_world s0) (last_serial (header (sys_queue s0))) served
      = (sys_world s, last_serial (header (sys_queue s)),
         sys_received s ++ responses (sys_queue s)).
Proof.
  assert (H0 : fifo_inv hs (sys_world s0) (last_serial (header (sys_queue s0))) s0).
  { destruct Hempty as [Hq Hr], Hhist as [Hs Hr']. split; [done|]. exists [].
    by rewrite Hq, Hr, Hs, Hr'. }
  revert H0. generalize (sys_world s0) (last_serial (header (sys_queue s0))). intros w0 serial0 H0.
  clear Hwf Hempty Hhist. induction Hsteps; eauto using fifo_inv_step.
Qed.

Definition system0 : system unit :=
  {| sys_world := tt; sys_queue := empty_queue; sys_sent := []; sys_received := [] |}.
Definition system1 : system unit :=
  {| sys_world := tt; sys_queue := queue_request_push empty_queue test_request;
     sys_sent := [test_request]; sys_received := [] |}.

Lemma system_fifo_witness :
  wf_queue (sys_queue system1) /\
  exists served,
    sys_sent system1 = served ++ requests (sys_queue system1) /\
    spec_run no_handlers (sys_world system0) (last_serial (header (sys_queue system0))) served
      = (sys_world system1, last_serial (header (sys_queue system1)),
         sys_received system1 ++ responses (sys_queue system1)).
Proof.
  apply (system_fifo no_handlers system0 system1).
  - apply empty_queue_wf.
  - split; reflexivity.
  - split; reflexivity.
  - eapply rtc_l; [|apply rtc_refl]. apply (host_sends no_handlers system0 test_request).
    vm_compute. lia.
Defined.

(** * The response read pointer is never range-checked *)
Definition set_response_rptr (q : message_queue) (p : Z) : message_queue :=
  let h := header q in
  with_header q
    {| request_queue_wptr := request_queue_wptr h; response_queue_rptr := p;
       request_queue_rptr := request_queue_rptr h; response_queue_wptr := response_queue_wptr h;
       last_serial := last_serial h |}.

(** The last disjunct of the range test repeats [request_rptr] where the
    response read pointer was meant. The omission cannot be observed: replacing
    any 32-bit response read pointer by its value modulo the pointer wrap never
    changes which message is started. *)
Theorem start_next_message_rptr_mod (q : message_queue) (p : Z) :
  start_next_message (set_response_rptr q p) =
  start_next_message (set_response_rptr q (p mod MSG_QUEUE_POINTER_WRAP)).
Proof.
  unfold start_next_message. simpl.
  assert (He : u32 (response_queue_wptr (header q) - p) mod MSG_QUEUE_POINTER_WRAP
    = u32 (response_queue_wptr (header q) - p mod MSG_QUEUE_POINTER_WRAP)
        mod MSG_QUEUE_POINTER_WRAP).
  { rewrite !wrap_mod_divide by (done || (exists (2 ^ 29); done)).
    by rewrite Zminus_mod_idemp_r. }
  by rewrite He.
Qed.

(** * All queues *)
Lemma process_queues_from_drains {W} (hs : handler_table W) i w qs :
  Forall wf_queue qs ->
  exists w' qs',
    process_queues_from hs i w qs
      = Some (w', qs', (λ k, POST_CODE_ARG_MSG_QUEUE_START + i + Z.of_nat k)
                         <$> seq 0 (length qs)) /\
    Forall2 (λ q q', wf_queue q' /\ (requests q' = [] \/ length (responses q') = 4%nat) /\
                     responses q `prefix_of` responses q') qs qs'.
Proof.
  intros Hqs. revert i w. induction Hqs as [|q qs Hwf Hqs IH]; intros i w.
  { exists w, []. split; [done | constructor]. }
  destruct (process_loop_wf hs 8 w q Hwf) as (w1 & q1 & outs & Hl & Hrun & Hwf1 & Hreq & Hrsp);
    [apply count_range|].
  destruct (IH (i + 1) w1) as (w2 & qs2 & Heq & Hall).
  exists w2, (q1 :: qs2). split.
  - cbn [process_queues_from]. unfold process_message_queue. rewrite Hl, Heq.
    cbn [length]. rewrite fmap_seq_cons. do 2 f_equal.
    f_equal; [lia|]. apply list_fmap_ext. intros; lia.
  - constructor; [|done]. split_and!; [done| |rewrite Hrsp; by apply prefix_app_r].
    pose proof (requests_length q). pose proof (responses_length q).
    pose proof (wf_rsp_count q Hwf).
    assert (Ho : length outs = batch_size q).
    { rewrite <- (length_take_le (requests q) (batch_size q))
        by (unfold batch_size; lia).
      clear -Hrun. revert Hrun. generalize (take (batch_size q) (requests q)) w
        (last_serial (header q)). intros l. generalize (last_serial (header q1)).
      revert outs. induction l as [|r l IHl]; simpl; intros outs ser w' ser'.
      - intros [= _ _ <-]. done.
      - destruct (spec_reply hs w' ser' r) as [[? ?] ?].
        destruct (spec_run hs _ _ l) as [[? ?] ?] eqn:E. intros [= <- <- <-].
        simpl. f_equal. by eapply IHl. }
    destruct (decide (request_count q <= 4 - response_count q)%nat).
    + left. rewrite Hreq. apply drop_ge. unfold batch_size. lia.
    + right. rewrite Hrsp, length_app, Ho. unfold batch_size. lia.
Qed.

(** [process_message_queues] returns, walks the queues in order with their
    post codes, and leaves each of them drained: either no request is pending or
    all four response slots hold responses the host has not read. Responses that
    were already waiting are still there, first. *)
Theorem process_message_queues_drains {W} (hs : handler_table W) (w : W)
    (qs : list message_queue) (Hlen : length qs = 4%nat) (Hwf : Forall wf_queue qs) :
  exists w' qs',
    process_message_queues hs w qs = Some (w', qs', [0x30; 0x31; 0x32; 0x33; 0x34; 0x3F]) /\
    Forall2 (λ q q', wf_queue q' /\ (requests q' = [] \/ length (responses q') = 4%nat) /\
                     responses q `prefix_of` responses q') qs qs'.
Proof.
  destruct (process_queues_from_drains hs 0 w qs Hwf) as (w' & qs' & Heq & Hall).
  exists w', qs'. split; [|done]. unfold process_message_queues. rewrite Heq, Hlen. done.
Qed.

Lemma process_message_queues_drains_witness :
  let qs := replicate 4 (queue_request_push empty_queue test_request) in
  exists w' qs',
    process_message_queues (W := unit) no_handlers tt qs
      = Some (w', qs', [0x30; 0x31; 0x32; 0x33; 0x34; 0x3F]) /\
    Forall2 (λ q q', wf_queue q' /\ (requests q' = [] \/ length (responses q') = 4%nat) /\
                     responses q `prefix_of` responses q') qs qs'.
Proof.
  apply (process_message_queues_drains no_handlers tt); [reflexivity|].
  apply Forall_replicate, wf_queue_push; [apply empty_queue_wf | vm_compute; lia].
Defined.

(** * Dispatch *)
Lemma msgqueue_register_handler_length {W} (hs : handler_table W) code h :
  length (msgqueue_register_handler hs code h) = length hs.
Proof. unfold msgqueue_register_handler. case_match; [done | apply length_insert]. Qed.

Lemma register_lookup {W} (items : list (Z * handler W)) (hs : handler_table W) code :
  length hs = Z.to_nat NUM_MSG_CODES -> 0 <= code < NUM_MSG_CODES ->
  Forall (λ it, 0 <= it.1) items ->
  register_interrupt_handlers items hs !! Z.to_nat code =
    match list_find (λ it, it.1 = code) (rev items) with
    | Some (_, it) => Some (Some it.2)
    | None => hs !! Z.to_nat code
    end.
Proof.
  intros Hl Hc Hpos. unfold register_interrupt_handlers.
  assert (Hlen : forall its, length (foldl (λ hs it, msgqueue_register_handler hs it.1 it.2) hs its)
                 = Z.to_nat NUM_MSG_CODES).
  { intros its. revert hs Hl. induction its as [|it its IH]; intros hs Hl; [done|]. apply IH.
    by rewrite msgqueue_register_handler_length. }
  induction items as [|it items IH] using rev_ind; [done|].
  apply Forall_app in Hpos as [Hpos Hit]. pose proof (Forall_inv Hit) as Hit1. cbn in Hit1.
  rewrite foldl_snoc, rev_app_distr. cbn [rev app list_find].
  unfold msgqueue_register_handler at 1. destruct (Z.leb_spec NUM_MSG_CODES it.1).
  - rewrite decide_False by lia. etrans; [by apply IH|].
    by destruct (list_find _ (rev items)) as [[? ?]|].
  - destruct (decide (it.1 = code)) as [<-|Hne].
    + etrans; [apply list_lookup_insert_eq | done]. rewrite Hlen. lia.
    + etrans; [apply list_lookup_insert_ne; lia|]. etrans; [by apply IH|].
      by destruct (list_find _ (rev items)) as [[? ?]|].
Qed.

(** Dispatch after registration: starting from the empty table, a message
    whose code was registered runs the handler registered last for that code and
    ors the exit code into the first response word; a message whose code was
    never registered leaves the firmware state alone and answers
    [MSG_ERROR_REPLY]. *)
Theorem registered_dispatch {W} (items : list (Z * handler W)) (w : W) (req : request)
    (rsp : response) (Hpos : Forall (λ it, 0 <= it.1) items) :
  process_l2_message_queue (register_interrupt_handlers items no_handlers) w req rsp =
    match list_find (λ it, it.1 = command_code req) (rev items) with
    | Some (_, it) =>
        if NUM_MSG_CODES <=? command_code req then (w, set_data rsp 0 MSG_ERROR_REPLY)
        else let '(w', rsp', exit_code) := it.2 w req rsp in
             (w', set_data rsp' 0 (Z.lor (data rsp' 0) (u8 exit_code)))
    | None => (w, set_data rsp 0 MSG_ERROR_REPLY)
    end.
Proof.
  unfold process_l2_message_queue. cbv zeta.
  assert (Hc : 0 <= command_code req < 256) by (apply (wrap_in_width 8); done).
  destruct (Z.leb_spec NUM_MSG_CODES (command_code req)).
  { by destruct (list_find _ (rev items)) as [[? ?]|]. }
  rewrite register_lookup by (done || lia).
  destruct (list_find _ (rev items)) as [[? ?]|]; [done|].
  unfold no_handlers. rewrite lookup_replicate_2; [done|]. unfold NUM_MSG_CODES in *. lia.
Qed.

Definition echo_handler : handler unit := λ w req rsp, (w, set_data rsp 1 (data req 1), 7).

Lemma registered_dispatch_witness :
  process_l2_message_queue (register_interrupt_handlers [(0x21, echo_handler)] no_handlers)
    tt [0x21; 9; 0; 0; 0; 0; 0; 0] (zero_msg 8) = (tt, [7; 9; 0; 0; 0; 0; 0; 0]).
Proof.
  rewrite (registered_dispatch [(0x21, echo_handler)]); [reflexivity|].
  constructor; [vm_compute; discriminate | constructor].
Defined.
