(* ===== verification/BootFs.v ===== *)
(** The boot file system: [lib/tenstorrent/boot_fs/tt_boot_fs.c] with the types
    of [include/tenstorrent/tt_boot_fs.h].

    A flash device starts with a table of 32-byte file descriptors ended by a
    descriptor whose [invalid] bit is set (erased flash reads as ones); each
    descriptor names an image elsewhere on the device. The flash driver is not
    part of this code: it is the class [Flash], with the laws the file system
    relies on in [FlashLaws]. *)
From S2P Require Import Prelude.
From stdpp Require Import prelude list numbers.
Open Scope Z_scope.

Definition TT_BOOT_FS_FD_HEAD_ADDR : Z := 0x0.
Definition TT_BOOT_FS_SECURITY_BINARY_FD_ADDR : Z := 0x3FE0.
Definition TT_BOOT_FS_FAILOVER_HEAD_ADDR : Z := 0x4000.
Definition TT_BOOT_FS_IMAGE_TAG_SIZE : nat := 8.
(** [CONFIG_TT_BOOT_FS_IMAGE_COUNT_MAX] at its Kconfig default. *)
Definition IMAGE_COUNT_MAX : nat := 32.
Definition FD_SIZE : nat := 32.
Definition TT_BOOT_FS_OK : Z := 0.
Definition TT_BOOT_FS_ERR : Z := -1.

(** The file descriptor; [flags] and [security_flags] are the words of the
    unions, read through the bit fields below. *)
Record tt_boot_fs_fd := {
  spi_addr : Z;
  copy_dest : Z;
  flags : Z;
  data_crc : Z;
  security_flags : Z;
  image_tag : list Z;
  fd_crc : Z;
}.

Definition image_size (fd : tt_boot_fs_fd) : Z := Z.land (flags fd) (Z.ones 24).
Definition invalid (fd : tt_boot_fs_fd) : bool := Z.testbit (flags fd) 24.
Definition executable (fd : tt_boot_fs_fd) : bool := Z.testbit (flags fd) 25.
Definition signature_size (fd : tt_boot_fs_fd) : Z := Z.land (security_flags fd) (Z.ones 12).

(** The layout of the packed structure in memory. *)
Definition bytes_of_fd (fd : tt_boot_fs_fd) : list Z :=
  le_bytes 4 (spi_addr fd) ++ le_bytes 4 (copy_dest fd) ++ le_bytes 4 (flags fd) ++
  le_bytes 4 (data_crc fd) ++ le_bytes 4 (security_flags fd) ++ image_tag fd ++
  le_bytes 4 (fd_crc fd).

Definition word_at (bs : list Z) (off : nat) : Z := le_value (take 4 (drop off bs)).

Definition fd_of_bytes (bs : list Z) : tt_boot_fs_fd :=
  {| spi_addr := word_at bs 0; copy_dest := word_at bs 4; flags := word_at bs 8;
     data_crc := word_at bs 12; security_flags := word_at bs 16;
     image_tag := take TT_BOOT_FS_IMAGE_TAG_SIZE (drop 20 bs); fd_crc := word_at bs 28 |}.

(** The driver: a read gives a return code and the bytes left in the buffer. *)
Class Flash (F : Type) := {
  hal_read : F -> Z -> nat -> Z * list Z;
  hal_write : F -> Z -> list Z -> F;
}.

(** What the file system relies on: successful byte-addressed storage. *)
Class FlashLaws (F : Type) `{Flash F} := {
  flash_byte : F -> Z -> Z;
  flash_byte_range : forall f a, is_byte (flash_byte f a);
  hal_read_bytes : forall f a n,
    hal_read f a n = (0, (λ i : nat, flash_byte f (a + Z.of_nat i)) <$> seq 0 n);
  hal_write_bytes : forall f a bs x, Forall is_byte bs ->
    flash_byte (hal_write f a bs) x =
      (if decide (a <= x < a + Z.of_nat (length bs)) then bs !!! Z.to_nat (x - a)
       else flash_byte f x);
}.

(** ** Checksum *)

(** The buffer seen as little-endian words. *)
Fixpoint dwords (bs : list Z) : list Z :=
  match bs with
  | a :: b :: c :: d :: bs => le_value [a; b; c; d] :: dwords bs
  | _ => []
  end.

(** The [for] loop over [num_dwords]: the sum and the advanced pointer; [None]
    when it runs past the buffer. *)
Fixpoint cksum_loop (num_dwords : Z) (ws : list Z) (cksum : Z) : option (Z * list Z) :=
  if num_dwords <=? 0 then Some (cksum, ws)
  else match ws with
       | [] => None
       | w :: ws => cksum_loop (num_dwords - 1) ws (u32 (cksum + w))
       end.

(** [None] is an out-of-bounds read. The [__ASSERT] of the default case is
    compiled out, as it is in release builds. *)
Definition tt_boot_fs_cksum (cksum : Z) (data : option (list Z)) (num_bytes : Z) : option Z :=
  match data with
  | None => Some 0
  | Some data =>
      if num_bytes =? 0 then Some 0
      else
        let num_dwords := u32 (num_bytes / 4 - 1) in
        match cksum_loop num_dwords (dwords data) cksum with
        | None => None
        | Some (cksum, ws) =>
            if num_bytes mod 4 =? 0 then
              match ws with
              | [] => None
              | w :: _ => Some (u32 (cksum + w))
              end
            else Some cksum
        end
  end.

(** [true] is [TT_BOOT_FS_CHK_OK]. *)
Definition calculate_and_compare_checksum (data : list Z) (num_bytes expected : Z)
    (skip_checksum : bool) : option bool :=
  if skip_checksum then Some true
  else match tt_boot_fs_cksum 0 (Some data) num_bytes with
       | None => None
       | Some c => Some (c =? expected)
       end.

Definition fd_checksum_ok (fd : tt_boot_fs_fd) : option bool :=
  calculate_and_compare_checksum (bytes_of_fd fd) (Z.of_nat FD_SIZE - 4) (fd_crc fd) false.

(** ** The cached interface *)
Definition tt_boot_fs_next (last_fd_addr : Z) : Z := u32 (last_fd_addr + Z.of_nat FD_SIZE).

(** [boot_fs_cache]: the array of descriptors laid over the bytes read. *)
Fixpoint cache_of_bytes (n : nat) (bs : list Z) : list tt_boot_fs_fd :=
  match n with
  | O => []
  | S n => fd_of_bytes (take FD_SIZE bs) :: cache_of_bytes n (drop FD_SIZE bs)
  end.

(** The first descriptor of the cache that is valid, has the tag and passes its
    own checksum. *)
Fixpoint find_fd_by_tag (cache : list tt_boot_fs_fd) (tag : list Z) : option (option tt_boot_fs_fd) :=
  match cache with
  | [] => Some None
  | fd :: cache =>
      if invalid fd then find_fd_by_tag cache tag
      else if negb (bool_decide (image_tag fd = take TT_BOOT_FS_IMAGE_TAG_SIZE tag))
      then find_fd_by_tag cache tag
      else match fd_checksum_ok fd with
           | None => None
           | Some false => find_fd_by_tag cache tag
           | Some true => Some (Some fd)
           end
  end.

Section device.
Context {F : Type} `{!Flash F}.

Definition tt_boot_fs_load_cache (f : F) : list tt_boot_fs_fd :=
  cache_of_bytes IMAGE_COUNT_MAX
    (hal_read f TT_BOOT_FS_FD_HEAD_ADDR (IMAGE_COUNT_MAX * FD_SIZE)).2.

(** Mounting stores the callbacks (here the instance) and loads the cache. *)
Definition tt_boot_fs_mount (f : F) : Z * list tt_boot_fs_fd :=
  (TT_BOOT_FS_OK, tt_boot_fs_load_cache f).

Definition read_fd (f : F) (addr : Z) : tt_boot_fs_fd := fd_of_bytes (hal_read f addr FD_SIZE).2.

(** The [while] of [tt_boot_fs_add_file]: walk until an invalid descriptor. *)
Definition add_file_body (f : F) (curr_fd_addr : Z) : Z + Z :=
  if invalid (read_fd f curr_fd_addr) then inr curr_fd_addr
  else inl (tt_boot_fs_next curr_fd_addr).

(** [inl] when the walk does not end within the fuel. *)
Definition tt_boot_fs_add_file (fuel : nat) (f : F) (fd : tt_boot_fs_fd)
    (image_data_src : list Z) (isFailoverEntry isSecurityBinaryEntry : bool) : Z + (Z * F) :=
  let where_ : Z + Z :=
    if isFailoverEntry then inr TT_BOOT_FS_FAILOVER_HEAD_ADDR
    else if isSecurityBinaryEntry then inr TT_BOOT_FS_SECURITY_BINARY_FD_ADDR
    else loop fuel (add_file_body f) TT_BOOT_FS_FD_HEAD_ADDR in
  match where_ with
  | inl a => inl a
  | inr curr_fd_addr =>
      let f1 := hal_write f curr_fd_addr (bytes_of_fd fd) in
      let total_image_size := u32 (image_size fd + signature_size fd) in
      inr (TT_BOOT_FS_OK,
           hal_write f1 (spi_addr fd) (take (Z.to_nat total_image_size) image_data_src))
  end.

(** [tt_boot_fs_get_file]: a [NULL] argument is [None]. The result is the return
    code, the buffer and the file size; [None] is an out-of-bounds access. *)
Definition tt_boot_fs_get_file (fs : option (list tt_boot_fs_fd * F)) (tag buf : option (list Z))
    (buf_size : Z) (file_size : option Z) : option (Z * option (list Z) * option Z) :=
  match fs, tag, buf, file_size with
  | Some (cache, f), Some tag, Some b, Some _ =>
      match find_fd_by_tag cache tag with
      | None => None
      | Some None => Some (TT_BOOT_FS_ERR, buf, file_size)
      | Some (Some fd_data) =>
          if buf_size <? image_size fd_data then Some (TT_BOOT_FS_ERR, buf, file_size)
          else if Z.of_nat (length b) <? image_size fd_data then None
          else
            let n := Z.to_nat (image_size fd_data) in
            let b' := (hal_read f (spi_addr fd_data) n).2 ++ drop n b in
            match calculate_and_compare_checksum b' (image_size fd_data) (data_crc fd_data) false with
            | None => None
            | Some ok =>
                Some (if ok then TT_BOOT_FS_OK else TT_BOOT_FS_ERR, Some b',
                      Some (image_size fd_data))
            end
      end
  | _, _, _, _ => Some (TT_BOOT_FS_ERR, buf, file_size)
  end.

(** ** The device interface *)

(** 0: valid descriptor; 1: end of table; negative: error. *)
Definition read_and_validate_fd (f : F) (index : Z) : option (Z * tt_boot_fs_fd) :=
  let '(ret, bs) := hal_read f (TT_BOOT_FS_FD_HEAD_ADDR + index * Z.of_nat FD_SIZE) FD_SIZE in
  let fd := fd_of_bytes bs in
  if ret <? 0 then Some (- EIO, fd)
  else if invalid fd then Some (1, fd)
  else match calculate_and_compare_checksum bs (Z.of_nat FD_SIZE - 4) (fd_crc fd) false with
       | None => None
       | Some true => Some (0, fd)
       | Some false => Some (- ENXIO, fd)
       end.

(** One turn of the listing loop; the state is [i], [found] and the output
    array, the result the return value and the array. *)
Definition ls_body (f : F) (nfds offset : Z) (s : Z * Z * option (list tt_boot_fs_fd))
  : Z * Z * option (list tt_boot_fs_fd) + option (Z * option (list tt_boot_fs_fd)) :=
  let '(i, found, fds) := s in
  match read_and_validate_fd f i with
  | None => inr None
  | Some (ret, fd) =>
      if ret <? 0 then inr (Some (ret, fds))
      else if ret =? 1 then inr (Some (found, fds))
      else if offset <=? i then
        let stored :=
          match fds with
          | Some out =>
              if found <? nfds then
                match zset out found fd with Some out' => Some (Some out') | None => None end
              else Some fds
          | None => Some None
          end in
        match stored with
        | None => inr None
        | Some fds' =>
            if found + 1 =? nfds then inr (Some (found + 1, fds'))
            else inl (i + 1, found + 1, fds')
        end
      else inl (i + 1, found, fds)
  end.

(** [dev] is [None] for a null or unready device. *)
Definition tt_boot_fs_ls (fuel : nat) (dev : option F) (fds : option (list tt_boot_fs_fd))
    (nfds offset : Z)
  : Z * Z * option (list tt_boot_fs_fd) + option (Z * option (list tt_boot_fs_fd)) :=
  match dev with
  | None => inr (Some (- ENXIO, fds))
  | Some f =>
      if nfds =? 0 then inr (Some (0, fds)) else loop fuel (ls_body f nfds offset) (0, 0, fds)
  end.

(** [strncmp(a, b, n) == 0], for strings given with their terminator. *)
Fixpoint strncmp_eq (n : nat) (a b : list Z) : bool :=
  match n, a, b with
  | O, _, _ => true
  | S n, x :: a, y :: b => (x =? y) && ((x =? 0) || strncmp_eq n a b)
  | _, _, _ => false
  end.

(** The loop of [tt_boot_fs_find_fd_by_tag] from slot [i], [n] slots to go. *)
Fixpoint find_fd_loop (f : F) (tag : list Z) (i : Z) (n : nat) : option (Z * option tt_boot_fs_fd) :=
  match n with
  | O => Some (- ENOENT, None)
  | S n =>
      match read_and_validate_fd f i with
      | None => None
      | Some (ret, cur) =>
          if ret <? 0 then Some (ret, None)
          else if ret =? 1 then Some (- ENOENT, None)
          else if strncmp_eq TT_BOOT_FS_IMAGE_TAG_SIZE tag (image_tag cur) then Some (0, Some cur)
          else find_fd_loop f tag (i + 1) n
      end
  end.

Definition tt_boot_fs_find_fd_by_tag (flash_dev : option F) (tag : option (list Z))
  : option (Z * option tt_boot_fs_fd) :=
  match tag with
  | None => Some (- EINVAL, None)
  | Some tag =>
      match flash_dev with
      | None => Some (- ENXIO, None)
      | Some f => find_fd_loop f tag 0 IMAGE_COUNT_MAX
      end
  end.
End device.

(** * Descriptor layout *)
Record wf_fd (fd : tt_boot_fs_fd) : Prop := {
  wf_spi_addr : in_width 32 (spi_addr fd);
  wf_copy_dest : in_width 32 (copy_dest fd);
  wf_flags : in_width 32 (flags fd);
  wf_data_crc : in_width 32 (data_crc fd);
  wf_security_flags : in_width 32 (security_flags fd);
  wf_tag_length : length (image_tag fd) = TT_BOOT_FS_IMAGE_TAG_SIZE;
  wf_tag_bytes : Forall is_byte (image_tag fd);
  wf_fd_crc : in_width 32 (fd_crc fd);
}.

Lemma word_round v : in_width 32 v -> le_value (le_bytes 4 v) = v.
Proof. intros. rewrite le_value_bytes. by apply wrap_id. Qed.

Lemma bytes_of_fd_length fd : wf_fd fd -> length (bytes_of_fd fd) = FD_SIZE.
Proof.
  intros Hwf. unfold bytes_of_fd. rewrite !length_app, !le_bytes_length, (wf_tag_length fd Hwf).
  done.
Qed.

Lemma bytes_of_fd_bytes fd : wf_fd fd -> Forall is_byte (bytes_of_fd fd).
Proof.
  intros Hwf. unfold bytes_of_fd. rewrite !Forall_app.
  split_and!; auto using le_bytes_bytes, wf_tag_bytes.
Qed.

Lemma fd_of_bytes_of_fd fd : wf_fd fd -> fd_of_bytes (bytes_of_fd fd) = fd.
Proof.
  intros [H1 H2 H3 H4 H5 Ht Hb H6]. destruct fd as [a c fl d s tag crc]. simpl in *.
  do 8 (destruct tag as [|? tag]; [done|]). destruct tag; [|done].
  unfold fd_of_bytes, bytes_of_fd, word_at. cbn [spi_addr copy_dest flags data_crc security_flags image_tag fd_crc].
  cbn [le_bytes app drop take TT_BOOT_FS_IMAGE_TAG_SIZE].
  f_equal; apply (word_round _); done.
Qed.

(** * Checksum *)
Definition sum_words (ws : list Z) : Z := foldr Z.add 0 ws.

Lemma cksum_loop_sum (k : nat) ws c :
  in_width 32 c -> (k <= length ws)%nat ->
  cksum_loop (Z.of_nat k) ws c = Some (u32 (c + sum_words (take k ws)), drop k ws).
Proof.
  revert ws c. induction k as [|k IH]; intros ws c Hc Hk.
  - destruct ws; simpl; by rewrite Z.add_0_r, wrap_id.
  - destruct ws as [|w ws]; simpl in Hk; [lia|]. cbn [cksum_loop].
    destruct (Z.leb_spec (Z.of_nat (S k)) 0); [lia|].
    replace (Z.of_nat (S k) - 1) with (Z.of_nat k) by lia.
    rewrite IH by (lia || by apply wrap_in_width). cbn [take drop sum_words foldr].
    by rewrite wrap_add_l, Z.add_assoc.
Qed.

Lemma dwords_length (k : nat) bs : (4 * k <= length bs)%nat -> (k <= length (dwords bs))%nat.
Proof.
  revert bs. induction k as [|k IH]; intros bs Hl; [lia|].
  do 4 (destruct bs as [|? bs]; [simpl in Hl; lia|]). cbn [dwords length].
  apply le_n_S, IH. simpl in Hl. lia.
Qed.

Lemma sum_words_take_S k ws w :
  ws !! k = Some w -> sum_words (take (S k) ws) = sum_words (take k ws) + w.
Proof.
  revert k. induction ws as [|x ws IH]; intros [|k] Hk; simplify_eq/=; [lia|].
  cbn in IH. change (x + sum_words (take (S k) ws) = x + sum_words (take k ws) + w).
  rewrite (IH _ Hk). lia.
Qed.

Lemma cksum_whole_words (c : Z) (data : list Z) (k : nat) :
  in_width 32 c -> (0 < k)%nat -> (4 * k <= length data)%nat -> 4 * Z.of_nat k < 2 ^ 32 ->
  tt_boot_fs_cksum c (Some data) (4 * Z.of_nat k)
    = Some (u32 (c + sum_words (take k (dwords data)))).
Proof.
  intros Hc Hk Hl Hw. unfold tt_boot_fs_cksum.
  destruct (Z.eqb_spec (4 * Z.of_nat k) 0); [lia|].
  rewrite (Z.mul_comm 4), Z.div_mul, Z.mod_mul by lia.
  rewrite (wrap_id 32) by (unfold in_width; lia).
  destruct k as [|k]; [lia|]. replace (Z.of_nat (S k) - 1) with (Z.of_nat k) by lia.
  pose proof (dwords_length (S k) data Hl).
  rewrite cksum_loop_sum by (done || lia). rewrite Z.eqb_refl.
  destruct (lookup_lt_is_Some_2 (dwords data) k) as [w Hk']; [lia|].
  rewrite (drop_S _ w k Hk'), wrap_add_l, (sum_words_take_S _ _ w Hk'). f_equal. f_equal. lia.
Qed.

(** On a size that is a positive multiple of four, within the buffer, the
    unrolled checksum reads only inside the buffer and is the sum modulo [2^32]
    of the buffer's little-endian words, added to the seed. *)
Theorem tt_boot_fs_cksum_sum (c : Z) (data : list Z) (k : nat)
    (Hc : in_width 32 c) (Hk : (0 < k)%nat) (Hl : (4 * k <= length data)%nat)
    (Hw : 4 * Z.of_nat k < 2 ^ 32) :
  tt_boot_fs_cksum c (Some data) (4 * Z.of_nat k)
    = Some (u32 (c + sum_words (take k (dwords data)))).
Proof. by apply cksum_whole_words. Qed.

Lemma tt_boot_fs_cksum_sum_witness :
  tt_boot_fs_cksum 1 (Some [0; 0; 0; 1; 255; 255; 255; 255; 9]) (4 * Z.of_nat 2) = Some 16777216.
Proof.
  apply (tt_boot_fs_cksum_sum 1 [0; 0; 0; 1; 255; 255; 255; 255; 9] 2);
    [split; lia | lia | simpl; lia | lia].
Defined.

(** * Lookup in the cache *)
Definition fd_matches (tag : list Z) (fd : tt_boot_fs_fd) : Prop :=
  invalid fd = false /\ image_tag fd = take TT_BOOT_FS_IMAGE_TAG_SIZE tag /\
  u32 (sum_words (take 7 (dwords (bytes_of_fd fd)))) = fd_crc fd.

#[global] Instance fd_matches_dec tag fd : Decision (fd_matches tag fd).
Proof. unfold fd_matches. apply _. Defined.

Lemma fd_checksum_ok_sum fd :
  wf_fd fd ->
  fd_checksum_ok fd = Some (u32 (sum_words (take 7 (dwords (bytes_of_fd fd)))) =? fd_crc fd).
Proof.
  intros Hwf. unfold fd_checksum_ok, calculate_and_compare_checksum.
  change (Z.of_nat FD_SIZE - 4) with (4 * Z.of_nat 7).
  rewrite cksum_whole_words by (done || rewrite ?bytes_of_fd_length by done;
    unfold FD_SIZE; lia). done.
Qed.

Lemma find_fd_first cache tag :
  Forall wf_fd cache ->
  find_fd_by_tag cache tag = Some (snd <$> list_find (fd_matches tag) cache).
Proof.
  induction 1 as [|fd cache Hwf _ IH]; [done|]. cbn [find_fd_by_tag list_find].
  rewrite IH, (fd_checksum_ok_sum fd Hwf).
  assert (Hskip : snd <$> (prod_map S id <$> list_find (fd_matches tag) cache)
    = snd <$> list_find (fd_matches tag) cache)
    by (by destruct (list_find _ cache) as [[? ?]|]).
  destruct (decide (fd_matches tag fd)) as [(-> & Ht & Hs) | Hn].
  - by rewrite bool_decide_true, Hs, Z.eqb_refl by done.
  - rewrite Hskip. unfold fd_matches in Hn. destruct (invalid fd); [done|].
    case_bool_decide; [|done]. cbn [negb].
    destruct (Z.eqb_spec (u32 (sum_words (take 7 (dwords (bytes_of_fd fd))))) (fd_crc fd));
      [tauto | done].
Qed.

(** Looking a tag up in the cache never reads out of bounds and returns the
    first descriptor that is valid, carries that tag and whose stored checksum
    is the sum of its first seven words; it reports "not found" exactly when
    there is none. *)
Theorem find_fd_by_tag_first (cache : list tt_boot_fs_fd) (tag : list Z)
    (Hwf : Forall wf_fd cache) :
  find_fd_by_tag cache tag = Some (snd <$> list_find (fd_matches tag) cache).
Proof. by apply find_fd_first. Qed.

(** A descriptor for a four-byte image, with its checksums. *)
Definition sample_fd : tt_boot_fs_fd :=
  {| spi_addr := 0x10000; copy_dest := 0x20000; flags := 4; data_crc := 0x04030201;
     security_flags := 0; image_tag := [99; 109; 102; 119; 0; 0; 0; 0];
     fd_crc := 0x04030201 + 0x10000 + 0x20000 + 4 + le_value [99; 109; 102; 119] |}.

Lemma sample_fd_wf : wf_fd sample_fd.
Proof.
  constructor; try (split; vm_compute; congruence).
  repeat constructor; done.
Qed.

Lemma find_fd_by_tag_first_witness :
  find_fd_by_tag [sample_fd] (image_tag sample_fd) = Some (Some sample_fd).
Proof.
  rewrite (find_fd_by_tag_first [sample_fd] (image_tag sample_fd)); [reflexivity|].
  constructor; [apply sample_fd_wf | constructor].
Defined.

(** * Adding a file and reading it back *)
Section roundtrip.
Context {F : Type} `{!Flash F, !FlashLaws F}.
Implicit Types (f : F).

Definition flash_range f (a : Z) (n : nat) : list Z :=
  (λ i : nat, flash_byte f (a + Z.of_nat i)) <$> seq 0 n.

Lemma flash_range_length f a n : length (flash_range f a n) = n.
Proof. unfold flash_range. by rewrite length_fmap, length_seq. Qed.

Lemma flash_range_bytes f a n : Forall is_byte (flash_range f a n).
Proof.
  unfold flash_range. apply Forall_fmap, Forall_forall. intros. apply flash_byte_range.
Qed.

Lemma hal_read_range f a n : hal_read f a n = (0, flash_range f a n).
Proof. apply hal_read_bytes. Qed.

Lemma flash_range_take f a n k : (k <= n)%nat -> take k (flash_range f a n) = flash_range f a k.
Proof.
  intros Hk. unfold flash_range. rewrite <- fmap_take. f_equal.
  rewrite take_seq. f_equal. lia.
Qed.

Lemma flash_range_drop f a n k :
  (k <= n)%nat -> drop k (flash_range f a n) = flash_range f (a + Z.of_nat k) (n - k).
Proof.
  intros Hk. apply list_eq. intros i. unfold flash_range.
  rewrite lookup_drop, !list_lookup_fmap.
  destruct (decide (i < n - k)%nat).
  - rewrite !lookup_seq_lt by lia. simpl. f_equal. f_equal. lia.
  - rewrite !lookup_seq_ge by lia. done.
Qed.

Lemma flash_range_write_same f a bs :
  Forall is_byte bs -> flash_range (hal_write f a bs) a (length bs) = bs.
Proof.
  intros Hb. apply list_eq. intros i. unfold flash_range. rewrite list_lookup_fmap.
  destruct (decide (i < length bs)%nat).
  - rewrite lookup_seq_lt by lia. simpl. rewrite hal_write_bytes by done.
    rewrite decide_True by lia. replace (Z.to_nat _) with i by lia.
    symmetry. by apply list_lookup_lookup_total_lt.
  - rewrite lookup_seq_ge, lookup_ge_None_2 by lia. done.
Qed.

Lemma flash_range_write_other f a bs b n :
  Forall is_byte bs -> b + Z.of_nat n <= a \/ a + Z.of_nat (length bs) <= b ->
  flash_range (hal_write f a bs) b n = flash_range f b n.
Proof.
  intros Hb Hd. apply list_fmap_ext. intros i x [-> ?]%lookup_seq.
  rewrite hal_write_bytes by done. rewrite decide_False; [done | lia].
Qed.

(** The descriptor in slot [i] of the table. *)
Definition slot f (i : nat) : tt_boot_fs_fd :=
  fd_of_bytes (flash_range f (32 * Z.of_nat i) FD_SIZE).

Lemma cache_of_bytes_slots f n a m :
  (32 * n <= m)%nat ->
  cache_of_bytes n (flash_range f a m)
    = (λ i : nat, fd_of_bytes (flash_range f (a + 32 * Z.of_nat i) FD_SIZE)) <$> seq 0 n.
Proof.
  revert a m. induction n as [|n IH]; intros a m Hm; [done|].
  rewrite fmap_seq_cons. cbn [cache_of_bytes]. unfold FD_SIZE in *. f_equal.
  - rewrite flash_range_take by lia. do 2 f_equal. lia.
  - rewrite flash_range_drop, IH by lia. apply list_fmap_ext. intros i x _.
    do 2 f_equal. lia.
Qed.

Lemma load_cache_slots f : tt_boot_fs_load_cache f = slot f <$> seq 0 IMAGE_COUNT_MAX.
Proof.
  unfold tt_boot_fs_load_cache. rewrite hal_read_range.
  change ((?a, ?b).2) with b.
  rewrite cache_of_bytes_slots by (unfold IMAGE_COUNT_MAX, FD_SIZE; lia). done.
Qed.

Lemma read_fd_slot f i : read_fd f (32 * Z.of_nat i) = slot f i.
Proof. unfold read_fd. by rewrite hal_read_range. Qed.

(** The walk stops at the first invalid slot. *)
Lemma add_file_walk f (k : nat) :
  (k < IMAGE_COUNT_MAX)%nat ->
  (forall i, (i < k)%nat -> invalid (slot f i) = false) -> invalid (slot f k) = true ->
  loop (S k) (add_file_body f) TT_BOOT_FS_FD_HEAD_ADDR = inr (32 * Z.of_nat k).
Proof.
  intros Hk Hv Hi.
  assert (Hgen : forall d j, (j + d = k)%nat ->
    loop (S d) (add_file_body f) (32 * Z.of_nat j) = inr (32 * Z.of_nat k)).
  { induction d as [|d IH]; intros j Hj; cbn [loop]; unfold add_file_body at 1;
      rewrite read_fd_slot.
    - assert (j = k) as -> by lia. by rewrite Hi.
    - rewrite Hv by lia. unfold tt_boot_fs_next, FD_SIZE, IMAGE_COUNT_MAX in *.
      rewrite wrap_id by (unfold in_width; lia).
      replace (32 * Z.of_nat j + Z.of_nat 32) with (32 * Z.of_nat (S j)) by lia.
      apply IH. lia. }
  apply (Hgen k 0%nat). lia.
Qed.

Lemma fd_of_bytes_wf bs : length bs = FD_SIZE -> Forall is_byte bs -> wf_fd (fd_of_bytes bs).
Proof.
  intros Hl Hb.
  assert (Hw : forall n, (n + 4 <= FD_SIZE)%nat -> in_width 32 (word_at bs n)).
  { intros n Hn. unfold word_at.
    assert (Hlen : length (take 4 (drop n bs)) = 4%nat) by (rewrite length_take, length_drop; lia).
    pose proof (le_value_range (take 4 (drop n bs))) as Hr. rewrite Hlen in Hr.
    apply Hr. by apply Forall_take, Forall_drop. }
  unfold FD_SIZE in *. constructor; cbn; try (apply Hw; lia).
  - rewrite length_take, length_drop. unfold TT_BOOT_FS_IMAGE_TAG_SIZE. lia.
  - by apply Forall_take, Forall_drop.
Qed.

Lemma slot_wf f i : wf_fd (slot f i).
Proof. apply fd_of_bytes_wf; [apply flash_range_length | apply flash_range_bytes]. Qed.

(** What it means for [fd] to describe [image] correctly. *)
Record describes (fd : tt_boot_fs_fd) (image : list Z) : Prop := {
  d_wf : wf_fd fd;
  d_valid : invalid fd = false;
  d_fd_crc : fd_crc fd = u32 (sum_words (take 7 (dwords (bytes_of_fd fd))));
  d_bytes : Forall is_byte image;
  d_length : Z.of_nat (length image) = image_size fd + signature_size fd;
  d_words : exists k : nat, (0 < k)%nat /\ image_size fd = 4 * Z.of_nat k;
  d_data_crc : data_crc fd
    = u32 (sum_words (dwords (take (Z.to_nat (image_size fd)) image)));
}.

Lemma image_size_range fd : 0 <= image_size fd < 2 ^ 24.
Proof.
  unfold image_size. rewrite Z.land_ones by lia. by apply Z.mod_pos_bound.
Qed.

Lemma signature_size_range fd : 0 <= signature_size fd < 2 ^ 12.
Proof.
  unfold signature_size. rewrite Z.land_ones by lia. by apply Z.mod_pos_bound.
Qed.

Lemma dwords_app k l l' :
  length l = (4 * k)%nat -> take k (dwords (l ++ l')) = dwords l.
Proof.
  revert l. induction k as [|k IH]; intros l Hl; [by destruct l|].
  do 4 (destruct l as [|? l]; [simpl in Hl; lia|]). cbn [app dwords take].
  f_equal. apply IH. simpl in Hl. lia.
Qed.

(** Reading back an image that is on the device where the cache says it is. *)
Lemma get_file_ok cache f tag fd image buf size0 :
  Forall wf_fd cache -> describes fd image ->
  snd <$> list_find (fd_matches tag) cache = Some fd ->
  image_size fd <= Z.of_nat (length buf) ->
  flash_range f (spi_addr fd) (Z.to_nat (image_size fd))
    = take (Z.to_nat (image_size fd)) image ->
  tt_boot_fs_get_file (Some (cache, f)) (Some tag) (Some buf) (Z.of_nat (length buf)) (Some size0)
  = Some (TT_BOOT_FS_OK,
          Some (take (Z.to_nat (image_size fd)) image ++ drop (Z.to_nat (image_size fd)) buf),
          Some (image_size fd)).
Proof.
  intros Hc [Hwf _ _ Hb Hl (k & Hk & Hsz) Hcrc] Hfind Hbuf Hdev.
  pose proof (image_size_range fd). pose proof (signature_size_range fd).
  unfold tt_boot_fs_get_file. rewrite (find_fd_first cache tag Hc), Hfind.
  destruct (Z.ltb_spec (Z.of_nat (length buf)) (image_size fd)); [lia|].
  rewrite hal_read_range, Hdev. cbn [snd]. unfold calculate_and_compare_checksum.
  assert (Hlen : length (take (Z.to_nat (image_size fd)) image) = (4 * k)%nat)
    by (rewrite length_take; lia).
  set (n := Z.to_nat (image_size fd)) in *. rewrite Hsz at 1.
  rewrite cksum_whole_words; [| split; lia | done | rewrite length_app; lia | lia].
  rewrite (dwords_app k) by done. by rewrite Z.add_0_l, <- Hcrc, Z.eqb_refl.
Qed.

(** C22. Round trip. If the first free slot of the descriptor table is slot
    [k] of 32, the new descriptor is consistent with its image, its image lies
    behind the table and no earlier slot carries the same tag, then
    [tt_boot_fs_add_file] terminates, and after mounting, [tt_boot_fs_get_file]
    finds the tag, reports the image size and returns the image bytes at the
    front of the caller's buffer. *)
Theorem add_file_get_file (f : F) (k : nat) (fd : tt_boot_fs_fd) (image buf : list Z) (size0 : Z)
    (Hk : (k < IMAGE_COUNT_MAX)%nat)
    (Hused : forall i, (i < k)%nat ->
       invalid (slot f i) = false /\ image_tag (slot f i) <> image_tag fd)
    (Hfree : invalid (slot f k) = true)
    (Hd : describes fd image)
    (Hbehind : Z.of_nat (IMAGE_COUNT_MAX * FD_SIZE) <= spi_addr fd)
    (Hbuf : image_size fd <= Z.of_nat (length buf)) :
  exists f' cache,
    tt_boot_fs_add_file (S k) f fd image false false = inr (TT_BOOT_FS_OK, f') /\
    tt_boot_fs_mount f' = (TT_BOOT_FS_OK, cache) /\
    tt_boot_fs_get_file (Some (cache, f')) (Some (image_tag fd)) (Some buf)
        (Z.of_nat (length buf)) (Some size0)
      = Some (TT_BOOT_FS_OK,
              Some (take (Z.to_nat (image_size fd)) image
                    ++ drop (Z.to_nat (image_size fd)) buf),
              Some (image_size fd)).
Proof.
  pose proof (d_wf _ _ Hd) as Hwf. pose proof (d_bytes _ _ Hd) as Hb.
  pose proof (bytes_of_fd_length fd Hwf) as Hfl. pose proof (bytes_of_fd_bytes fd Hwf) as Hfb.
  pose proof (d_length _ _ Hd) as Hl.
  pose proof (image_size_range fd). pose proof (signature_size_range fd).
  set (f1 := hal_write f (32 * Z.of_nat k) (bytes_of_fd fd)).
  set (f' := hal_write f1 (spi_addr fd) image).
  unfold IMAGE_COUNT_MAX in *. unfold FD_SIZE in *.
  assert (Htable : forall i, (i < 32)%nat -> slot f' i = if decide (i = k) then fd else slot f i).
  { intros i Hi. unfold slot, f', FD_SIZE.
    rewrite flash_range_write_other by (done || lia). unfold f1. case_decide as Hik.
    - subst i. rewrite <- Hfl at 1. rewrite flash_range_write_same by done.
      by apply fd_of_bytes_of_fd.
    - by rewrite flash_range_write_other by (done || lia). }
  exists f', (tt_boot_fs_load_cache f'). split_and!; [|done|].
  - unfold tt_boot_fs_add_file.
    rewrite add_file_walk by (done || intros i Hi; by apply Hused).
    rewrite (wrap_id 32) by (unfold in_width; lia).
    rewrite take_ge by lia. done.
  - apply get_file_ok; try done.
    + rewrite load_cache_slots. apply Forall_fmap, Forall_forall. intros. apply slot_wf.
    + rewrite load_cache_slots. unfold IMAGE_COUNT_MAX.
      assert (Hfind : list_find (fd_matches (image_tag fd)) (slot f' <$> seq 0 32) = Some (k, fd)).
      { apply list_find_Some. split_and!.
        - rewrite list_lookup_fmap, lookup_seq_lt by done. simpl.
          by rewrite Htable, decide_True by done.
        - destruct Hd as [_ Hv Hcrc _ _ _ _]. split_and!; [done| |done].
          rewrite take_ge; [done|]. by rewrite (wf_tag_length fd Hwf).
        - intros j y Hj Hjk. rewrite list_lookup_fmap, lookup_seq_lt in Hj by lia.
          simpl in Hj. rewrite Htable, decide_False in Hj by lia. simplify_eq.
          intros (_ & Ht & _). destruct (Hused j) as [_ Hne]; [done|]. apply Hne.
          rewrite Ht. apply take_ge. by rewrite (wf_tag_length fd Hwf). }
      by rewrite Hfind.
    + unfold f'.
      rewrite <- (flash_range_take _ _ (length image)) by lia.
      by rewrite flash_range_write_same.
Qed.
End roundtrip.

(** Flash as a function from addresses to bytes: erased everywhere at first. *)
Definition ram_flash := Z -> Z.
#[global] Instance ram_flash_ops : Flash ram_flash := {|
  hal_read f a n := (0, (λ i : nat, u8 (f (a + Z.of_nat i))) <$> seq 0 n);
  hal_write f a bs := λ x,
    if decide (a <= x < a + Z.of_nat (length bs)) then bs !!! Z.to_nat (x - a) else f x;
|}.

#[global] Instance ram_flash_laws : FlashLaws ram_flash.
Proof.
  refine {| flash_byte (f : ram_flash) a := u8 (f a) |}.
  - intros f a. by apply (wrap_in_width 8).
  - done.
  - intros f a bs x Hb. simpl. case_decide; [|done]. apply wrap_id.
    rewrite Forall_lookup in Hb. apply (Hb (Z.to_nat (x - a))).
    apply list_lookup_lookup_total_lt. lia.
Defined.

Definition erased : ram_flash := λ _, 255.
Definition sample_image : list Z := [1; 2; 3; 4].

Lemma add_file_get_file_witness :
  exists f' cache,
    tt_boot_fs_add_file 1 erased sample_fd sample_image false false = inr (TT_BOOT_FS_OK, f') /\
    tt_boot_fs_mount f' = (TT_BOOT_FS_OK, cache) /\
    tt_boot_fs_get_file (Some (cache, f')) (Some (image_tag sample_fd)) (Some (replicate 6 0))
        (Z.of_nat (length (replicate 6 0))) (Some 0)
      = Some (TT_BOOT_FS_OK, Some (sample_image ++ [0; 0]), Some 4).
Proof.
  apply (add_file_get_file (F := ram_flash) erased 0 sample_fd sample_image (replicate 6 0) 0).
  - unfold IMAGE_COUNT_MAX. lia.
  - intros i Hi. lia.
  - vm_compute. reflexivity.
  - constructor; [apply sample_fd_wf | reflexivity | vm_compute; reflexivity
      | repeat constructor; vm_compute; congruence | reflexivity | | vm_compute; reflexivity].
    exists 1%nat. split; [lia | reflexivity].
  - vm_compute. congruence.
  - vm_compute. congruence.
Defined.

(** * Listing *)
Section listing.
Context {F : Type} `{!Flash F} (f : F) (table : list tt_boot_fs_fd).

(** [table] is the descriptors before the end-of-table sentinel. *)
Record is_table : Prop := {
  table_valid : forall i fd, table !! i = Some fd ->
    read_and_validate_fd f (Z.of_nat i) = Some (0, fd);
  table_end : exists fd, read_and_validate_fd f (Z.of_nat (length table)) = Some (1, fd);
}.
Context (Ht : is_table).

(** The caller's array with [sel] stored at its front. *)
Definition fill (sel : list tt_boot_fs_fd) (fds : option (list tt_boot_fs_fd))
  : option (list tt_boot_fs_fd) := (λ out, sel ++ drop (length sel) out) <$> fds.

Lemma fill_snoc (sel : list tt_boot_fs_fd) fd (out : list tt_boot_fs_fd) :
  (length sel < length out)%nat ->
  zset (sel ++ drop (length sel) out) (Z.of_nat (length sel)) fd
    = Some ((sel ++ [fd]) ++ drop (length (sel ++ [fd])) out).
Proof.
  intros Hl. apply zset_Some. split; [rewrite length_app, length_drop; lia|].
  rewrite Nat2Z.id.
  destruct (lookup_lt_is_Some_2 out (length sel) Hl) as [x Hx].
  rewrite (drop_S out x _ Hx), (length_app sel [fd]). cbn [length].
  rewrite insert_app_r_alt by lia. rewrite Nat.sub_diag. cbn.
  rewrite Nat.add_1_r, <- app_assoc. done.
Qed.

Lemma drop_take_S {A} (l : list A) (i n : nat) x :
  l !! i = Some x ->
  drop n (take (S i) l) = if decide (n <= i)%nat then drop n (take i l) ++ [x] else [].
Proof.
  intros Hx. pose proof (lookup_lt_Some _ _ _ Hx). case_decide.
  - rewrite (take_S_r _ _ _ Hx), drop_app, length_take.
    replace (n - i `min` length l)%nat with 0%nat by lia. done.
  - apply drop_ge. rewrite length_take. lia.
Qed.

Lemma ls_loop (nfds offset : nat) fds (d i : nat) :
  (match fds with Some out => nfds <= length out | None => True end)%nat ->
  (i + d = length table)%nat -> (length (drop offset (take i table)) < nfds)%nat ->
  loop (S d) (ls_body f (Z.of_nat nfds) (Z.of_nat offset))
    (Z.of_nat i, Z.of_nat (length (drop offset (take i table))),
     fill (drop offset (take i table)) fds)
  = inr (Some (Z.of_nat (length (take nfds (drop offset table))),
               fill (take nfds (drop offset table)) fds)).
Proof.
  intros Hout. revert i. induction d as [|d IH]; intros i Hd Hlt.
  - cbn [loop]. unfold ls_body. replace i with (length table) by lia.
    destruct (table_end Ht) as [fd ->]. simpl.
    rewrite firstn_all. replace i with (length table) in Hlt by lia.
    rewrite firstn_all in Hlt. rewrite (take_ge (drop offset table)) by lia. done.
  - destruct (lookup_lt_is_Some_2 table i) as [fd Hfd]; [lia|].
    specialize (IH (S i) ltac:(lia)). rewrite (drop_take_S _ _ _ _ Hfd) in IH.
    cbn [loop]. unfold ls_body at 1. rewrite (table_valid Ht _ _ Hfd). cbn -[Z.of_nat].
    set (sel := drop offset (take i table)) in *.
    destruct (Z.leb_spec (Z.of_nat offset) (Z.of_nat i)).
    + rewrite decide_True in IH by lia.
      assert (Hstore : match fill sel fds with
        | Some out => if Z.of_nat (length sel) <? Z.of_nat nfds then
            match zset out (Z.of_nat (length sel)) fd with
            | Some out' => Some (Some out') | None => None end else Some (fill sel fds)
        | None => Some None end = Some (fill (sel ++ [fd]) fds)).
      { destruct fds as [out|]; [|done]. cbn [fill fmap option_fmap option_map].
        destruct (Z.ltb_spec (Z.of_nat (length sel)) (Z.of_nat nfds)); [|lia].
        by rewrite fill_snoc by lia. }
      rewrite Hstore. rewrite length_app in IH. cbn [length] in IH.
      replace (Z.of_nat (length sel) + 1) with (Z.of_nat (length sel + 1)) by lia.
      destruct (Z.eqb_spec (Z.of_nat (length sel + 1)) (Z.of_nat nfds)) as [He|He].
      * assert (Hsel : take nfds (drop offset table) = sel ++ [fd]).
        { pose proof (drop_take_S table i offset fd Hfd) as Hs.
          rewrite decide_True in Hs by lia. fold sel in Hs. rewrite <- Hs.
          rewrite skipn_firstn_comm. f_equal.
          apply (f_equal length) in Hs. rewrite length_app, length_drop, length_take in Hs.
          cbn [length] in Hs. pose proof (lookup_lt_Some _ _ _ Hfd). lia. }
        rewrite Hsel, length_app. done.
      * replace (Z.of_nat i + 1) with (Z.of_nat (S i)) by lia. apply IH. lia.
    + rewrite decide_False in IH by lia.
      assert (Hnil : sel = []) by (apply drop_ge; rewrite length_take; lia).
      rewrite Hnil in Hlt |- *. replace (Z.of_nat i + 1) with (Z.of_nat (S i)) by lia.
      apply IH. done.
Qed.
End listing.

(** With a device whose table has [length table] descriptors before the
    sentinel and a non-zero [nfds], [tt_boot_fs_ls] terminates and returns
    exactly the descriptors numbered [offset .. offset + nfds - 1] that exist:
    it returns their number and, unless [fds] is [NULL], stores them at the
    front of the caller's array and touches nothing behind them. In particular
    [nfds] and [offset] do count when [fds] is [NULL]. *)
Theorem tt_boot_fs_ls_slice {F : Type} `{!Flash F} (f : F) (table : list tt_boot_fs_fd)
    (nfds offset : nat) (fds : option (list tt_boot_fs_fd))
    (Ht : is_table f table) (Hn : (0 < nfds)%nat)
    (Hout : match fds with Some out => (nfds <= length out)%nat | None => True end) :
  tt_boot_fs_ls (S (length table)) (Some f) fds (Z.of_nat nfds) (Z.of_nat offset)
  = inr (Some (Z.of_nat (length (take nfds (drop offset table))),
               fill (take nfds (drop offset table)) fds)).
Proof.
  unfold tt_boot_fs_ls. destruct (Z.eqb_spec (Z.of_nat nfds) 0); [lia|].
  pose proof (ls_loop f table Ht nfds offset fds (length table) 0 Hout) as Hl.
  rewrite take_0, drop_nil in Hl.
  assert (Hf : fill [] fds = fds) by (by destruct fds).
  rewrite Hf in Hl. by apply Hl.
Qed.

(** A device with one descriptor, listed without an output array. *)
Definition one_file : ram_flash := hal_write erased 0 (bytes_of_fd sample_fd).

Lemma tt_boot_fs_ls_slice_witness :
  tt_boot_fs_ls 2 (Some one_file) None 5 0 = inr (Some (1, None)) /\
  tt_boot_fs_ls 2 (Some one_file) None 5 1 = inr (Some (0, None)).
Proof.
  assert (Ht : is_table one_file [sample_fd]).
  { split.
    - intros [|[|i]] fd Hfd; simplify_eq/=. vm_compute. reflexivity.
    - eexists. vm_compute. reflexivity. }
  split.
  - apply (tt_boot_fs_ls_slice one_file [sample_fd] 5 0 None Ht); [lia | exact I].
  - apply (tt_boot_fs_ls_slice one_file [sample_fd] 5 1 None Ht); [lia | exact I].
Defined.
