(* ===== verification/SmbusTarget.v ===== *)
(** The SMBus target protocol engine: [drivers/smbus/target/smbus_target.c] with
    the types of [include/tenstorrent/smbus_target.h].

    The I2C controller calls back once per bus event: a write address phase, a
    received byte, a byte to send, a stop. The engine assembles SMBus commands
    from these events, checks the packet error code (PEC) and calls the handlers
    registered for the command. An access outside [received_data] or [send_data]
    and a call through a null handler are [None]. The PEC byte function is
    Zephyr's [crc8] and stays a parameter. *)
From S2P Require Import Prelude.
From stdpp Require Import prelude list numbers.
Open Scope Z_scope.

(** [CONFIG_SMBUS_MAX_MSG_SIZE] at its Kconfig default. *)
Definition SMBUS_MAX_MSG_SIZE : Z := 64.
Definition I2C_MSG_WRITE : Z := 0.
Definition I2C_MSG_READ : Z := 1.

Inductive smbus_state :=
  SMBUS_STATE_IDLE | SMBUS_STATE_CMD | SMBUS_STATE_RCV_DATA | SMBUS_STATE_RCV_PEC
| SMBUS_STATE_SEND_DATA | SMBUS_STATE_SEND_PEC | SMBUS_STATE_WAIT_IDLE.

Inductive smbus_trans_type :=
  SMBUS_TRANS_WRITE_BYTE | SMBUS_TRANS_READ_BYTE | SMBUS_TRANS_WRITE_WORD
| SMBUS_TRANS_READ_WORD | SMBUS_TRANS_WRITE_BLOCK | SMBUS_TRANS_READ_BLOCK
| SMBUS_TRANS_READ_WRITE_BLOCK.

#[global] Instance smbus_state_eq_dec : EqDecision smbus_state.
Proof. solve_decision. Defined.
#[global] Instance smbus_trans_type_eq_dec : EqDecision smbus_trans_type.
Proof. solve_decision. Defined.

Section target.
Context {W : Type} (crc8 : Z -> Z -> Z).

(** A receive handler sees the buffer and the size; a send handler may change
    the buffer and the size. Both return zero on success. *)
Definition smbus_rcv_handler := W -> list Z -> Z -> W * Z.
Definition smbus_send_handler := W -> list Z -> Z -> W * list Z * Z * Z.

Record smbus_cmd_def := {
  trans_type : smbus_trans_type;
  rcv_handler : option smbus_rcv_handler;
  send_handler : option smbus_send_handler;
  pec : bool;
}.

Record smbus_target_data := {
  address : Z;
  cmd_defs : list (option smbus_cmd_def);
  error_count : Z;
  state : smbus_state;
  command : Z;
  blocksize_r : Z;
  blocksize_w : Z;
  rcv_index : Z;
  send_index : Z;
  received_data : list Z;
  send_data : list Z;
}.
Implicit Types (d : smbus_target_data) (w : W).

Definition get_cmd_def d (cmd : Z) : option smbus_cmd_def := default None (zget (cmd_defs d) cmd).

Definition pec_crc_8 (crc data : Z) : Z := crc8 crc data.

Definition set_state d s :=
  {| address := address d; cmd_defs := cmd_defs d; error_count := error_count d; state := s;
     command := command d; blocksize_r := blocksize_r d; blocksize_w := blocksize_w d;
     rcv_index := rcv_index d; send_index := send_index d;
     received_data := received_data d; send_data := send_data d |}.

(** [SMBUS_LOG_ERR_RATELIMIT] followed by the move to the error state. *)
Definition log_error d :=
  {| address := address d; cmd_defs := cmd_defs d; error_count := u32 (error_count d + 1);
     state := SMBUS_STATE_WAIT_IDLE; command := command d; blocksize_r := blocksize_r d;
     blocksize_w := blocksize_w d; rcv_index := rcv_index d; send_index := send_index d;
     received_data := received_data d; send_data := send_data d |}.

Definition set_command d c :=
  {| address := address d; cmd_defs := cmd_defs d; error_count := error_count d;
     state := state d; command := c; blocksize_r := blocksize_r d; blocksize_w := blocksize_w d;
     rcv_index := rcv_index d; send_index := send_index d;
     received_data := received_data d; send_data := send_data d |}.

Definition set_blocksize_w d n :=
  {| address := address d; cmd_defs := cmd_defs d; error_count := error_count d;
     state := state d; command := command d; blocksize_r := blocksize_r d; blocksize_w := n;
     rcv_index := rcv_index d; send_index := send_index d;
     received_data := received_data d; send_data := send_data d |}.

Definition set_send d buf n :=
  {| address := address d; cmd_defs := cmd_defs d; error_count := error_count d;
     state := state d; command := command d; blocksize_r := n; blocksize_w := blocksize_w d;
     rcv_index := rcv_index d; send_index := send_index d;
     received_data := received_data d; send_data := buf |}.

(** [received_data[rcv_index++] = val]. *)
Definition store_received d (val : Z) : option smbus_target_data :=
  match zset (received_data d) (rcv_index d) val with
  | None => None
  | Some buf =>
      Some {| address := address d; cmd_defs := cmd_defs d; error_count := error_count d;
              state := state d; command := command d; blocksize_r := blocksize_r d;
              blocksize_w := blocksize_w d; rcv_index := u8 (rcv_index d + 1);
              send_index := send_index d; received_data := buf; send_data := send_data d |}
  end.

(** [*val = send_data[send_index++]]. *)
Definition next_send d : option (Z * smbus_target_data) :=
  match zget (send_data d) (send_index d) with
  | None => None
  | Some v =>
      Some (v, {| address := address d; cmd_defs := cmd_defs d; error_count := error_count d;
                  state := state d; command := command d; blocksize_r := blocksize_r d;
                  blocksize_w := blocksize_w d; rcv_index := rcv_index d;
                  send_index := u8 (send_index d + 1); received_data := received_data d;
                  send_data := send_data d |})
  end.

(** The [for] loops that fold the first [n] bytes of a buffer into the PEC. *)
Fixpoint pec_bytes (crc : Z) (buf : list Z) (n : nat) {struct n} : option Z :=
  match n, buf with
  | O, _ => Some crc
  | S n, [] => None
  | S n, b :: buf => pec_bytes (pec_crc_8 crc b) buf n
  end.

Definition call_rcv (c : smbus_cmd_def) w d : option (W * Z) :=
  match rcv_handler c with
  | None => None
  | Some h => Some (h w (received_data d) (blocksize_w d))
  end.

(** After a receive handler returned: back to [CMD] for the read half of a
    read-write block, otherwise wait for the stop; errors are counted. *)
Definition after_rcv (c : smbus_cmd_def) (ret : Z) d : smbus_target_data :=
  if (ret =? 0) && bool_decide (trans_type c = SMBUS_TRANS_READ_WRITE_BLOCK)
  then set_state d SMBUS_STATE_CMD
  else if negb (ret =? 0) then log_error d
  else set_state d SMBUS_STATE_WAIT_IDLE.

Definition write_idle w d (val : Z) : option (W * smbus_target_data * Z) :=
  let d := set_command d val in
  match get_cmd_def d val with
  | None => Some (w, log_error d, -1)
  | Some _ => Some (w, set_state d SMBUS_STATE_CMD, 0)
  end.

Definition write_cmd (c : smbus_cmd_def) w d (val : Z) : option (W * smbus_target_data * Z) :=
  match trans_type c with
  | SMBUS_TRANS_WRITE_BLOCK | SMBUS_TRANS_READ_WRITE_BLOCK =>
      let d := set_blocksize_w d val in
      if SMBUS_MAX_MSG_SIZE <? blocksize_w d then Some (w, log_error d, -1)
      else Some (w, set_state d SMBUS_STATE_RCV_DATA, 0)
  | SMBUS_TRANS_WRITE_BYTE =>
      match store_received (set_blocksize_w d 1) val with
      | None => None
      | Some d =>
          if pec c then Some (w, set_state d SMBUS_STATE_RCV_PEC, 0)
          else match call_rcv c w d with
               | None => None
               | Some (w, ret) => Some (w, set_state d SMBUS_STATE_WAIT_IDLE, ret)
               end
      end
  | SMBUS_TRANS_WRITE_WORD =>
      match store_received (set_blocksize_w d 2) val with
      | None => None
      | Some d => Some (w, set_state d SMBUS_STATE_RCV_DATA, 0)
      end
  | _ => Some (w, log_error d, -1)
  end.

Definition write_rcv_data (c : smbus_cmd_def) w d (val : Z) : option (W * smbus_target_data * Z) :=
  match store_received d val with
  | None => None
  | Some d =>
      if rcv_index d =? blocksize_w d then
        if pec c && negb (bool_decide (trans_type c = SMBUS_TRANS_READ_WRITE_BLOCK))
        then Some (w, set_state d SMBUS_STATE_RCV_PEC, 0)
        else match call_rcv c w d with
             | None => None
             | Some (w, ret) => Some (w, after_rcv c ret d, ret)
             end
      else Some (w, d, 0)
  end.

(** The PEC a write transaction must end with. *)
Definition expected_write_pec (c : smbus_cmd_def) d : option Z :=
  let p := pec_crc_8 0 (u8 (Z.lor (Z.shiftl (address d) 1) I2C_MSG_WRITE)) in
  let p := pec_crc_8 p (command d) in
  let p := if bool_decide (trans_type c = SMBUS_TRANS_WRITE_BLOCK)
           then pec_crc_8 p (blocksize_w d) else p in
  pec_bytes p (received_data d) (Z.to_nat (blocksize_w d)).

Definition write_rcv_pec (c : smbus_cmd_def) w d (val : Z) : option (W * smbus_target_data * Z) :=
  match expected_write_pec c d with
  | None => None
  | Some p =>
      if negb (p =? val) then Some (w, log_error d, -1)
      else match call_rcv c w d with
           | None => None
           | Some (w, ret) => Some (w, after_rcv c ret d, ret)
           end
  end.

Definition smbus_write_handler w d (val : Z) : option (W * smbus_target_data * Z) :=
  match state d with
  | SMBUS_STATE_IDLE => write_idle w d val
  | SMBUS_STATE_CMD =>
      match get_cmd_def d (command d) with None => None | Some c => write_cmd c w d val end
  | SMBUS_STATE_RCV_DATA =>
      match get_cmd_def d (command d) with None => None | Some c => write_rcv_data c w d val end
  | SMBUS_STATE_RCV_PEC =>
      match get_cmd_def d (command d) with None => None | Some c => write_rcv_pec c w d val end
  | _ => Some (w, log_error d, -1)
  end.

(** *** Read events: the result carries the byte given to the controller. *)
Definition after_send (c : smbus_cmd_def) d : smbus_target_data :=
  set_state d (if pec c then SMBUS_STATE_SEND_PEC else SMBUS_STATE_WAIT_IDLE).

Definition read_cmd (c : smbus_cmd_def) w d : option (W * smbus_target_data * Z * Z) :=
  let call :=
    match send_handler c with
    | None => None
    | Some h =>
        let '(w, buf, n, ret) := h w (send_data d) (blocksize_r d) in
        Some (w, set_send d buf (u8 n), ret)
    end in
  match trans_type c with
  | SMBUS_TRANS_READ_BLOCK | SMBUS_TRANS_READ_WRITE_BLOCK =>
      match call with
      | None => None
      | Some (w, d, ret) =>
          if negb (ret =? 0) then Some (w, log_error d, 0xFF, -1)
          else Some (w, set_state d SMBUS_STATE_SEND_DATA, blocksize_r d, 0)
      end
  | SMBUS_TRANS_READ_BYTE =>
      match call with
      | None => None
      | Some (w, d, ret) =>
          if negb (ret =? 0) then Some (w, log_error d, 0xFF, -1)
          else match next_send d with
               | None => None
               | Some (v, d) => Some (w, after_send c d, v, 0)
               end
      end
  | SMBUS_TRANS_READ_WORD =>
      match call with
      | None => None
      | Some (w, d, ret) =>
          if negb (ret =? 0) then Some (w, log_error d, 0xFF, -1)
          else match next_send d with
               | None => None
               | Some (v, d) => Some (w, set_state d SMBUS_STATE_SEND_DATA, v, 0)
               end
      end
  | _ => Some (w, log_error d, 0xFF, -1)
  end.

Definition read_send_data (c : smbus_cmd_def) w d : option (W * smbus_target_data * Z * Z) :=
  match next_send d with
  | None => None
  | Some (v, d) =>
      Some (w, if send_index d =? blocksize_r d then after_send c d else d, v, 0)
  end.

(** The PEC of a read transaction: the write half, the restart, the read half. *)
Definition send_pec (c : smbus_cmd_def) d : option Z :=
  let p := pec_crc_8 0 (u8 (Z.lor (Z.shiftl (address d) 1) I2C_MSG_WRITE)) in
  let p := pec_crc_8 p (command d) in
  let p := if bool_decide (trans_type c = SMBUS_TRANS_READ_WRITE_BLOCK)
           then pec_crc_8 p (blocksize_w d) else p in
  match pec_bytes p (received_data d) (Z.to_nat (rcv_index d)) with
  | None => None
  | Some p =>
      let p := pec_crc_8 p (u8 (Z.lor (Z.shiftl (address d) 1) I2C_MSG_READ)) in
      let p := if bool_decide (trans_type c = SMBUS_TRANS_READ_BLOCK)
                  || bool_decide (trans_type c = SMBUS_TRANS_READ_WRITE_BLOCK)
               then pec_crc_8 p (blocksize_r d) else p in
      pec_bytes p (send_data d) (Z.to_nat (blocksize_r d))
  end.

Definition smbus_read_handler w d : option (W * smbus_target_data * Z * Z) :=
  match state d with
  | SMBUS_STATE_CMD =>
      match get_cmd_def d (command d) with None => None | Some c => read_cmd c w d end
  | SMBUS_STATE_SEND_DATA =>
      match get_cmd_def d (command d) with None => None | Some c => read_send_data c w d end
  | SMBUS_STATE_SEND_PEC =>
      match get_cmd_def d (command d) with
      | None => None
      | Some c =>
          match send_pec c d with
          | None => None
          | Some p => Some (w, set_state d SMBUS_STATE_WAIT_IDLE, p, 0)
          end
      end
  | _ => Some (w, log_error d, 0xFF, -1)
  end.

Definition smbus_target_get_error_count (dev : option smbus_target_data) : Z :=
  match dev with None => 0 | Some d => u32 (error_count d) end.

Definition reset_state_machine d : smbus_target_data :=
  {| address := address d; cmd_defs := cmd_defs d; error_count := error_count d;
     state := SMBUS_STATE_IDLE; command := 0; blocksize_r := 0; blocksize_w := 0;
     rcv_index := 0; send_index := 0; received_data := received_data d;
     send_data := send_data d |}.

Definition smbus_stop_handler d : smbus_target_data * Z := (reset_state_machine d, 0).
Definition smbus_write_requested d : smbus_target_data * Z := (reset_state_machine d, 0).

Definition smbus_target_init (bus_ready : bool) (bus_addr : Z) d : smbus_target_data * Z :=
  if negb bus_ready then (d, - ENODEV)
  else
    ({| address := bus_addr; cmd_defs := cmd_defs d; error_count := 0; state := state d;
        command := command d; blocksize_r := blocksize_r d; blocksize_w := blocksize_w d;
        rcv_index := rcv_index d; send_index := send_index d;
        received_data := received_data d; send_data := send_data d |}, 0).

Definition set_cmd_defs d (t : list (option smbus_cmd_def)) :=
  {| address := address d; cmd_defs := t; error_count := error_count d; state := state d;
     command := command d; blocksize_r := blocksize_r d; blocksize_w := blocksize_w d;
     rcv_index := rcv_index d; send_index := send_index d;
     received_data := received_data d; send_data := send_data d |}.

Definition smbus_target_register_cmd (ready : bool) d (cmd_id : Z) (c : smbus_cmd_def)
  : smbus_target_data * Z :=
  if negb ready then (d, - ENODEV)
  else (set_cmd_defs d (<[Z.to_nat cmd_id := Some c]> (cmd_defs d)), 0).

Fixpoint register_cmds_loop (ready : bool) d (cmds : list (Z * smbus_cmd_def))
  : smbus_target_data * Z :=
  match cmds with
  | [] => (d, 0)
  | (cmd, def) :: cmds =>
      let '(d, rc) := smbus_target_register_cmd ready d cmd def in
      if rc <? 0 then (d, rc) else register_cmds_loop ready d cmds
  end.

Definition smbus_target_register_cmds (ready : bool) d
    (cmds : option (list (Z * smbus_cmd_def))) : smbus_target_data * Z :=
  match cmds with
  | None => (d, - EINVAL)
  | Some cmds => register_cmds_loop ready d cmds
  end.

(** ** Bus events *)
Inductive bus_event := ev_write_requested | ev_write (val : Z) | ev_read | ev_stop.

(** The callback the controller makes for an event, through
    [smbus_target_cb_impl]: new state, byte given to the bus, return code. *)
Definition bus_step (s : W * smbus_target_data) (e : bus_event)
  : option (W * smbus_target_data * option Z * Z) :=
  let '(w, d) := s in
  match e with
  | ev_write_requested =>
      let '(d, ret) := smbus_write_requested d in Some (w, d, None, ret)
  | ev_write val =>
      match smbus_write_handler w d val with
      | None => None
      | Some (w, d, ret) => Some (w, d, None, ret)
      end
  | ev_read =>
      match smbus_read_handler w d with
      | None => None
      | Some (w, d, v, ret) => Some (w, d, Some v, ret)
      end
  | ev_stop => let '(d, ret) := smbus_stop_handler d in Some (w, d, None, ret)
  end.

(** A sequence of events, with the bytes the bus read and the return codes. *)
Fixpoint bus_run (s : W * smbus_target_data) (es : list bus_event)
  : option (W * smbus_target_data * list (option Z * Z)) :=
  match es with
  | [] => Some (s.1, s.2, [])
  | e :: es =>
      match bus_step s e with
      | None => None
      | Some (w, d, v, ret) =>
          match bus_run (w, d) es with
          | None => None
          | Some (w', d', out) => Some (w', d', (v, ret) :: out)
          end
      end
  end.
End target.
Arguments smbus_cmd_def : clear implicits.
Arguments smbus_target_data : clear implicits.
Arguments smbus_rcv_handler : clear implicits.
Arguments smbus_send_handler : clear implicits.

(** * Transactions *)
Section transactions.
Context {W : Type} (crc8 : Z -> Z -> Z).
Implicit Types (d : smbus_target_data W) (w : W) (c : smbus_cmd_def W).

Lemma bus_run_app (s : W * smbus_target_data W) es es' :
  bus_run crc8 s (es ++ es') =
    match bus_run crc8 s es with
    | None => None
    | Some (w, d, out) =>
        match bus_run crc8 (w, d) es' with
        | None => None
        | Some (w', d', out') => Some (w', d', out ++ out')
        end
    end.
Proof.
  revert s. induction es as [|e es IH]; intros s; cbn [app bus_run].
  { destruct s as [w d]. simpl. by destruct (bus_run crc8 (w, d) es') as [[[? ?] ?]|]. }
  destruct (bus_step crc8 s e) as [[[[w d] v] ret]|]; [|done]. rewrite IH.
  destruct (bus_run crc8 (w, d) es) as [[[w1 d1] out]|]; [|done].
  by destruct (bus_run crc8 (w1, d1) es') as [[[? ?] ?]|].
Qed.

Lemma pec_bytes_app p l r n :
  n = length l -> pec_bytes crc8 p (l ++ r) n = Some (foldl crc8 p l).
Proof. intros ->. revert p. induction l as [|b l IH]; intros p; [done|]. apply IH. Qed.

(** The engine after [l] arrived at the front of the receive buffer. *)
Definition received d (l : list Z) : smbus_target_data W :=
  {| address := address d; cmd_defs := cmd_defs d; error_count := error_count d;
     state := state d; command := command d; blocksize_r := blocksize_r d;
     blocksize_w := blocksize_w d; rcv_index := Z.of_nat (length l); send_index := send_index d;
     received_data := l ++ drop (length l) (received_data d); send_data := send_data d |}.

Lemma zset_front {A} (l buf : list A) v :
  (length l < length buf)%nat ->
  zset (l ++ drop (length l) buf) (Z.of_nat (length l)) v
    = Some ((l ++ [v]) ++ drop (length (l ++ [v])) buf).
Proof.
  intros Hl. apply zset_Some. split; [rewrite length_app, length_drop; lia|].
  rewrite Nat2Z.id. destruct (lookup_lt_is_Some_2 buf (length l) Hl) as [x Hx].
  rewrite (drop_S buf x _ Hx), (length_app l [v]). cbn [length].
  rewrite insert_app_r_alt by lia. rewrite Nat.sub_diag. cbn.
  rewrite Nat.add_1_r, <- app_assoc. done.
Qed.

Lemma store_received_snoc d l v :
  length (received_data d) = 64%nat -> (length l < 64)%nat ->
  store_received (received d l) v = Some (received d (l ++ [v])).
Proof.
  intros Hb Hl. unfold store_received, received. simpl. rewrite zset_front by lia.
  rewrite wrap_id by (unfold in_width; lia). rewrite length_app. simpl.
  do 3 f_equal. lia.
Qed.

(** Data bytes before the last one are only stored. *)
Lemma rcv_fill w d c l :
  state d = SMBUS_STATE_RCV_DATA -> get_cmd_def d (command d) = Some c ->
  length (received_data d) = 64%nat -> Z.of_nat (length l) < blocksize_w d <= 64 ->
  bus_run crc8 (w, received d []) (ev_write <$> l)
    = Some (w, received d l, replicate (length l) (None, 0)).
Proof.
  intros Hs Hc Hb. induction l as [|v l IH] using rev_ind; intros Hl; [done|].
  rewrite length_app in *. cbn [length] in *. rewrite fmap_app, bus_run_app, IH by lia.
  cbn [fmap list_fmap bus_run bus_step]. unfold smbus_write_handler. cbn [state received].
  rewrite Hs. change (get_cmd_def (received d l) (command (received d l))) with
    (get_cmd_def d (command d)). rewrite Hc. unfold write_rcv_data.
  rewrite store_received_snoc by lia.
  destruct (Z.eqb_spec (rcv_index (received d (l ++ [v]))) (blocksize_w (received d (l ++ [v]))))
    as [He|_]; [simpl in He; rewrite length_app in He; simpl in He; lia|].
  rewrite Nat.add_comm. cbn [Nat.add]. by rewrite replicate_S_end.
Qed.

(** The bytes of a block write on the wire, up to the PEC. *)
Definition write_block_wire (addr cmd : Z) (dat : list Z) : list Z :=
  u8 (Z.lor (Z.shiftl addr 1) I2C_MSG_WRITE) :: cmd :: Z.of_nat (length dat) :: dat.

Definition write_block_events (cmd : Z) (dat : list Z) (p : Z) : list bus_event :=
  ev_write_requested :: ev_write cmd :: ev_write (Z.of_nat (length dat))
    :: (ev_write <$> dat) ++ [ev_write p].

(** Up to and including the last data byte. *)
Lemma write_block_data w d c cmd dat :
  get_cmd_def d cmd = Some c -> trans_type c = SMBUS_TRANS_WRITE_BLOCK -> pec c = true ->
  length (received_data d) = 64%nat -> (0 < length dat <= 64)%nat ->
  exists d1,
    bus_run crc8 (w, d) (ev_write_requested :: ev_write cmd :: ev_write (Z.of_nat (length dat))
                           :: (ev_write <$> dat))
      = Some (w, d1, replicate (3 + length dat) (None, 0)) /\
    d1 = set_state (received (set_blocksize_w (set_command (reset_state_machine d) cmd)
                      (Z.of_nat (length dat))) dat) SMBUS_STATE_RCV_PEC.
Proof.
  intros Hc Ht Hp Hb Hl. eexists. split; [|reflexivity].
  set (d0 := set_state (set_blocksize_w (set_command (reset_state_machine d) cmd)
                (Z.of_nat (length dat))) SMBUS_STATE_RCV_DATA).
  change (ev_write_requested :: ?a :: ?b :: ?l) with ([ev_write_requested; a; b] ++ l).
  rewrite bus_run_app.
  assert (Hstart : bus_run crc8 (w, d)
      [ev_write_requested; ev_write cmd; ev_write (Z.of_nat (length dat))]
      = Some (w, received d0 [], [(None, 0); (None, 0); (None, 0)])).
  { cbn [bus_run bus_step smbus_write_requested]. unfold smbus_write_handler at 1.
    cbn [state reset_state_machine]. unfold write_idle.
    change (get_cmd_def (set_command (reset_state_machine d) cmd) cmd) with (get_cmd_def d cmd).
    rewrite Hc. unfold smbus_write_handler. cbn [state set_state].
    change (get_cmd_def (set_state (set_command (reset_state_machine d) cmd) SMBUS_STATE_CMD)
      (command (set_state (set_command (reset_state_machine d) cmd) SMBUS_STATE_CMD)))
      with (get_cmd_def d cmd). rewrite Hc. unfold write_cmd. rewrite Ht.
    cbn [blocksize_w set_blocksize_w]. unfold SMBUS_MAX_MSG_SIZE.
    destruct (Z.ltb_spec 64 (Z.of_nat (length dat))); [lia|]. done. }
  rewrite Hstart. destruct dat as [|v dat _] using rev_ind; [simpl in Hl; lia|].
  rewrite length_app in *. cbn [length] in *. rewrite fmap_app, bus_run_app.
  assert (Hdc : get_cmd_def d0 (command d0) = Some c) by done.
  rewrite (rcv_fill w d0 c dat) by (done || (cbn -[Z.of_nat]; rewrite ?length_app; cbn; lia)).
  cbn [fmap list_fmap bus_run bus_step]. unfold smbus_write_handler.
  change (state (received d0 dat)) with SMBUS_STATE_RCV_DATA.
  change (get_cmd_def (received d0 dat) (command (received d0 dat))) with
    (get_cmd_def d0 (command d0)). rewrite Hdc. unfold write_rcv_data.
  rewrite store_received_snoc by (done || lia).
  change (blocksize_w (received d0 (dat ++ [v]))) with (Z.of_nat (length (dat ++ [v]))).
  change (rcv_index (received d0 (dat ++ [v]))) with (Z.of_nat (length (dat ++ [v]))).
  rewrite Z.eqb_refl, Hp, Ht. cbn [andb]. rewrite bool_decide_false by done. cbn [negb].
  unfold d0. rewrite length_app. cbn [fst snd app length Nat.add replicate].
  rewrite Nat.add_comm. cbn [Nat.add]. by rewrite replicate_S_end.
Qed.

(** A block write with PEC, of 1 to 64 bytes, to a registered command: the
    handler is called exactly when the last byte is the CRC of everything that
    was on the wire (address, command, length, data), and then it gets exactly
    those data bytes and that length; otherwise no handler runs, the error
    counter goes up by one and the byte is refused. Either way the engine waits
    for the stop. *)
Theorem write_block_transaction (w : W) (d : smbus_target_data W) (c : smbus_cmd_def W)
    (h : smbus_rcv_handler W) (cmd : Z) (dat : list Z) (p : Z)
    (Hc : get_cmd_def d cmd = Some c) (Ht : trans_type c = SMBUS_TRANS_WRITE_BLOCK)
    (Hp : pec c = true) (Hh : rcv_handler c = Some h)
    (Hb : length (received_data d) = 64%nat) (Hl : (0 < length dat <= 64)%nat) :
  exists d',
    bus_run crc8 (w, d) (write_block_events cmd dat p) =
      (if p =? foldl crc8 0 (write_block_wire (address d) cmd dat) then
         let '(w', ret) := h w (dat ++ drop (length dat) (received_data d))
                             (Z.of_nat (length dat)) in
         Some (w', d', replicate (3 + length dat) (None, 0) ++ [(None, ret)])
       else Some (w, d', replicate (3 + length dat) (None, 0) ++ [(None, -1)])) /\
    state d' = SMBUS_STATE_WAIT_IDLE /\
    (p <> foldl crc8 0 (write_block_wire (address d) cmd dat) ->
       error_count d' = u32 (error_count d + 1)).
Proof.
  unfold write_block_events. rewrite !app_comm_cons, bus_run_app.
  destruct (write_block_data w d c cmd dat Hc Ht Hp Hb Hl) as (d1 & -> & Hd1).
  assert (Hw : expected_write_pec crc8 c d1
      = Some (foldl crc8 0 (write_block_wire (address d) cmd dat))).
  { subst d1. unfold expected_write_pec. rewrite Ht, bool_decide_true by done. cbn -[Z.of_nat].
    rewrite Nat2Z.id. by apply pec_bytes_app. }
  assert (Hcall : call_rcv c w d1 = Some (h w (dat ++ drop (length dat) (received_data d))
                                            (Z.of_nat (length dat)))).
  { unfold call_rcv. rewrite Hh, Hd1. done. }
  assert (Hc1 : get_cmd_def d1 (command d1) = Some c) by (subst d1; done).
  assert (He1 : error_count d1 = error_count d) by (subst d1; done).
  cbn [bus_run bus_step]. unfold smbus_write_handler.
  replace (state d1) with SMBUS_STATE_RCV_PEC by (subst d1; done).
  rewrite Hc1. unfold write_rcv_pec. rewrite Hw, Hcall, (Z.eqb_sym _ p).
  destruct (Z.eqb_spec p (foldl crc8 0 (write_block_wire (address d) cmd dat))) as [Hpe|Hpe];
    cbn [negb].
  - destruct (h _ _ _) as [w' ret]. eexists. split; [reflexivity|]. split; [|done].
    cbn [snd]. unfold after_rcv. rewrite Ht. zcases.
  - eexists. split; [reflexivity|]. cbn. by rewrite He1.
Qed.

(** *** Block reads *)

(** The engine after [n] bytes of the send buffer were given to the bus. *)
Definition sent d (n : Z) : smbus_target_data W :=
  {| address := address d; cmd_defs := cmd_defs d; error_count := error_count d;
     state := state d; command := command d; blocksize_r := blocksize_r d;
     blocksize_w := blocksize_w d; rcv_index := rcv_index d; send_index := n;
     received_data := received_data d; send_data := send_data d |}.

Lemma next_send_nat d (n : nat) v :
  send_data d !! n = Some v -> (n < 64)%nat ->
  next_send (sent d (Z.of_nat n)) = Some (v, sent d (Z.of_nat (S n))).
Proof.
  intros Hv Hn. unfold next_send. cbn [send_data send_index sent]. rewrite zget_nat, Hv.
  rewrite wrap_id by (unfold in_width; lia). unfold sent. cbn. do 3 f_equal. lia.
Qed.

Lemma send_drain w d c (n : nat) :
  state d = SMBUS_STATE_SEND_DATA -> get_cmd_def d (command d) = Some c ->
  length (send_data d) = 64%nat -> Z.of_nat n < blocksize_r d <= 64 ->
  bus_run crc8 (w, sent d 0) (replicate n ev_read)
    = Some (w, sent d (Z.of_nat n), (λ v, (Some v, 0)) <$> take n (send_data d)).
Proof.
  intros Hs Hc Hb. induction n as [|n IH]; intros Hn; [done|].
  destruct (lookup_lt_is_Some_2 (send_data d) n) as [v Hv]; [lia|].
  rewrite replicate_S_end, bus_run_app, IH by lia. cbn [bus_run bus_step].
  unfold smbus_read_handler. cbn [state sent]. rewrite Hs.
  change (get_cmd_def (sent d (Z.of_nat n)) (command (sent d (Z.of_nat n)))) with
    (get_cmd_def d (command d)). rewrite Hc. unfold read_send_data.
  rewrite (next_send_nat d n v) by (done || lia).
  cbn [send_index blocksize_r sent]. destruct (Z.eqb_spec (Z.of_nat (S n)) (blocksize_r d)); [lia|].
  rewrite (take_S_r _ _ _ Hv), fmap_app. done.
Qed.

Definition read_block_wire (addr cmd : Z) (dat : list Z) : list Z :=
  u8 (Z.lor (Z.shiftl addr 1) I2C_MSG_WRITE) :: cmd
    :: u8 (Z.lor (Z.shiftl addr 1) I2C_MSG_READ) :: Z.of_nat (length dat) :: dat.

(** A block read with PEC: when the send handler succeeds with 1 to 64
    bytes, the controller reads the length, exactly those bytes, and the CRC of
    everything that was on the wire in both directions; no error is counted and
    the engine waits for the stop. *)
Theorem read_block_transaction (w : W) (d : smbus_target_data W) (c : smbus_cmd_def W)
    (h : smbus_send_handler W) (cmd : Z) (w' : W) (buf : list Z) (n : nat)
    (Hc : get_cmd_def d cmd = Some c) (Ht : trans_type c = SMBUS_TRANS_READ_BLOCK)
    (Hp : pec c = true) (Hh : send_handler c = Some h)
    (Hsend : h w (send_data d) 0 = (w', buf, Z.of_nat n, 0))
    (Hbuf : length buf = 64%nat) (Hn : (0 < n <= 64)%nat) :
  exists d',
    bus_run crc8 (w, d) (ev_write_requested :: ev_write cmd :: replicate (n + 2) ev_read)
      = Some (w', d', [(None, 0); (None, 0); (Some (Z.of_nat n), 0)]
                ++ ((λ v, (Some v, 0)) <$> take n buf)
                ++ [(Some (foldl crc8 0 (read_block_wire (address d) cmd (take n buf))), 0)]) /\
    state d' = SMBUS_STATE_WAIT_IDLE /\ error_count d' = error_count d.
Proof.
  set (d0 := set_state (set_send (set_command (reset_state_machine d) cmd) buf (Z.of_nat n))
               SMBUS_STATE_SEND_DATA).
  assert (Hc0 : get_cmd_def d0 (command d0) = Some c) by done.
  assert (Hstart : bus_run crc8 (w, d) [ev_write_requested; ev_write cmd; ev_read]
    = Some (w', sent d0 0, [(None, 0); (None, 0); (Some (Z.of_nat n), 0)])).
  { cbn [bus_run bus_step smbus_write_requested]. unfold smbus_write_handler.
    cbn [state reset_state_machine]. unfold write_idle.
    change (get_cmd_def (set_command (reset_state_machine d) cmd) cmd) with (get_cmd_def d cmd).
    rewrite Hc. unfold smbus_read_handler. cbn [state set_state].
    change (get_cmd_def (set_state (set_command (reset_state_machine d) cmd) SMBUS_STATE_CMD)
      (command (set_state (set_command (reset_state_machine d) cmd) SMBUS_STATE_CMD)))
      with (get_cmd_def d cmd). rewrite Hc. unfold read_cmd. rewrite Ht, Hh. cbn [set_state set_command reset_state_machine
        send_data blocksize_r]. rewrite Hsend, (wrap_id 8) by (unfold in_width; lia). done. }
  destruct n as [|n]; [lia|]. destruct (lookup_lt_is_Some_2 buf n) as [v Hv]; [lia|].
  replace (S n + 2)%nat with (1 + (n + 2))%nat by lia. rewrite replicate_add.
  change (ev_write_requested :: ev_write cmd :: replicate 1 ev_read ++ ?l) with
    ([ev_write_requested; ev_write cmd; ev_read] ++ l).
  rewrite bus_run_app, Hstart, replicate_add, bus_run_app.
  rewrite (send_drain w' d0 c n) by (done || (cbn -[Z.of_nat]; lia)).
  cbn [replicate bus_run bus_step]. unfold smbus_read_handler at 1. cbn [state sent].
  change (state d0) with SMBUS_STATE_SEND_DATA.
  change (get_cmd_def (sent d0 (Z.of_nat n)) (command (sent d0 (Z.of_nat n)))) with
    (get_cmd_def d0 (command d0)). rewrite Hc0. unfold read_send_data.
  rewrite (next_send_nat d0 n v) by (done || lia).
  change (blocksize_r (sent d0 (Z.of_nat (S n)))) with (Z.of_nat (S n)).
  change (send_index (sent d0 (Z.of_nat (S n)))) with (Z.of_nat (S n)).
  rewrite Z.eqb_refl. unfold after_send. rewrite Hp. unfold smbus_read_handler. cbn [state set_state].
  set (d1 := set_state (sent d0 (Z.of_nat (S n))) SMBUS_STATE_SEND_PEC).
  change (get_cmd_def d1 (command d1)) with (get_cmd_def d0 (command d0)). rewrite Hc0.
  assert (Hpec : send_pec crc8 c d1
    = Some (foldl crc8 0 (read_block_wire (address d) cmd (take (S n) buf)))).
  { unfold send_pec. rewrite Ht, bool_decide_false, bool_decide_true by done.
    subst d1 d0. cbn -[Z.of_nat take pec_bytes Z.to_nat]. rewrite Nat2Z.id.
    change (pec_bytes crc8 ?p (received_data d) (Z.to_nat 0)) with (Some p). cbv iota beta.
    rewrite <- (take_drop (S n) buf) at 1. rewrite pec_bytes_app by (rewrite length_take; lia).
    by rewrite length_take, Nat.min_l by lia. }
  rewrite Hpec. exists (set_state d1 SMBUS_STATE_WAIT_IDLE).
  split; [|split; reflexivity]. cbn [fst snd].
  change (send_data d0) with buf. set (crc := foldl crc8 0 _).
  rewrite (take_S_r _ _ _ Hv), fmap_app, <- !app_assoc. done.
Qed.
End transactions.

(** * Memory safety *)
Section safety.
Context {W : Type} (crc8 : Z -> Z -> Z).
Implicit Types (d : smbus_target_data W) (w : W) (c : smbus_cmd_def W).

Definition is_rw c : Prop := trans_type c = SMBUS_TRANS_READ_WRITE_BLOCK.
Definition receives c : Prop :=
  match trans_type c with
  | SMBUS_TRANS_WRITE_BYTE | SMBUS_TRANS_WRITE_WORD | SMBUS_TRANS_WRITE_BLOCK
  | SMBUS_TRANS_READ_WRITE_BLOCK => True
  | _ => False
  end.
Definition sends c : Prop :=
  match trans_type c with
  | SMBUS_TRANS_READ_BYTE | SMBUS_TRANS_READ_WORD | SMBUS_TRANS_READ_BLOCK
  | SMBUS_TRANS_READ_WRITE_BLOCK => True
  | _ => False
  end.

(** What the application promises of a registered command: the handlers its
    direction needs, and send handlers that stay in the buffer and announce a
    size that fits (two for a word). *)
Record cmd_ok c : Prop := {
  ok_rcv : receives c -> is_Some (rcv_handler c);
  ok_send : sends c -> exists h, send_handler c = Some h /\
    forall w buf n w' buf' n' ret, length buf = 64%nat -> h w buf n = (w', buf', n', ret) ->
      length buf' = 64%nat /\ (ret = 0 -> 1 <= u8 n' <= 64 /\
        (trans_type c = SMBUS_TRANS_READ_WORD -> 2 <= u8 n'));
}.

Definition state_ok d : Prop :=
  match state d with
  | SMBUS_STATE_IDLE => rcv_index d = 0 /\ send_index d = 0
  | SMBUS_STATE_CMD =>
      exists c, get_cmd_def d (command d) = Some c /\ 0 <= rcv_index d <= 64 /\
        send_index d = 0 /\ (rcv_index d = 0 \/ is_rw c)
  | SMBUS_STATE_RCV_DATA =>
      exists c, get_cmd_def d (command d) = Some c /\ receives c /\
        0 <= rcv_index d < blocksize_w d /\ blocksize_w d <= 64 /\ send_index d = 0
  | SMBUS_STATE_RCV_PEC =>
      exists c, get_cmd_def d (command d) = Some c /\ receives c /\
        0 <= rcv_index d <= 64 /\ 0 <= blocksize_w d <= 64 /\ send_index d = 0
  | SMBUS_STATE_SEND_DATA =>
      exists c, get_cmd_def d (command d) = Some c /\
        0 <= rcv_index d <= 64 /\ 0 <= send_index d < blocksize_r d /\ blocksize_r d <= 64
  | SMBUS_STATE_SEND_PEC =>
      exists c, get_cmd_def d (command d) = Some c /\
        0 <= rcv_index d <= 64 /\ 0 <= blocksize_r d <= 64
  | SMBUS_STATE_WAIT_IDLE => True
  end.

Record wf_target d : Prop := {
  wf_rcv_buf : length (received_data d) = 64%nat;
  wf_send_buf : length (send_data d) = 64%nat;
  wf_cmds : forall cmd c, get_cmd_def d cmd = Some c -> cmd_ok c;
  wf_state : state_ok d;
}.

(** The one thing asked of the bus master: it does not open a block with length
    zero, nor a second block in the same read-write transaction. *)
Definition polite d (e : bus_event) : Prop :=
  match e, state d with
  | ev_write val, SMBUS_STATE_CMD =>
      forall c, get_cmd_def d (command d) = Some c ->
        (trans_type c = SMBUS_TRANS_WRITE_BLOCK \/ is_rw c) -> 0 < val /\ rcv_index d = 0
  | _, _ => True
  end.

Lemma pec_bytes_is_Some p buf n : (n <= length buf)%nat -> is_Some (pec_bytes crc8 p buf n).
Proof.
  revert p buf. induction n as [|n IH]; intros p buf Hn; [done|].
  destruct buf as [|b buf]; simpl in Hn; [lia|]. apply IH. lia.
Qed.

Lemma store_received_ok d v :
  length (received_data d) = 64%nat -> 0 <= rcv_index d < 64 ->
  exists buf, store_received d v = Some
    {| address := address d; cmd_defs := cmd_defs d; error_count := error_count d;
       state := state d; command := command d; blocksize_r := blocksize_r d;
       blocksize_w := blocksize_w d; rcv_index := rcv_index d + 1;
       send_index := send_index d; received_data := buf; send_data := send_data d |} /\
    length buf = 64%nat.
Proof.
  intros Hl Hi. unfold store_received.
  destruct (zset_is_Some (received_data d) (rcv_index d) v) as [buf Hb]; [lia|].
  rewrite Hb. exists buf. rewrite (wrap_id 8) by (unfold in_width; lia).
  split; [done|]. by rewrite (zset_length _ _ _ _ Hb).
Qed.

Lemma next_send_ok d :
  length (send_data d) = 64%nat -> 0 <= send_index d < 64 ->
  exists v, next_send d = Some (v,
    {| address := address d; cmd_defs := cmd_defs d; error_count := error_count d;
       state := state d; command := command d; blocksize_r := blocksize_r d;
       blocksize_w := blocksize_w d; rcv_index := rcv_index d;
       send_index := send_index d + 1; received_data := received_data d;
       send_data := send_data d |}).
Proof.
  intros Hl Hi. unfold next_send.
  destruct (zget_is_Some (send_data d) (send_index d)) as [v Hv]; [lia|].
  rewrite Hv. exists v. by rewrite (wrap_id 8) by (unfold in_width; lia).
Qed.

Lemma call_rcv_ok c w d :
  cmd_ok c -> receives c -> exists w' ret, call_rcv c w d = Some (w', ret).
Proof.
  intros Hok Hr. unfold call_rcv. destruct (ok_rcv c Hok Hr) as [h ->].
  destruct (h w (received_data d) (blocksize_w d)) as [w' ret]. eauto.
Qed.

(** An error or a finished transaction leaves a well-formed engine. *)
Lemma wf_wait d s :
  length (received_data d) = 64%nat -> length (send_data d) = 64%nat ->
  (forall cmd c, get_cmd_def d cmd = Some c -> cmd_ok c) -> s = SMBUS_STATE_WAIT_IDLE ->
  wf_target (set_state d s) /\ wf_target (log_error d).
Proof. intros ??? ->. split; constructor; done. Qed.

Lemma after_rcv_wf c ret d :
  length (received_data d) = 64%nat -> length (send_data d) = 64%nat ->
  (forall cmd c, get_cmd_def d cmd = Some c -> cmd_ok c) ->
  get_cmd_def d (command d) = Some c -> 0 <= rcv_index d <= 64 -> send_index d = 0 ->
  wf_target (after_rcv c ret d).
Proof.
  intros Hr Hs Hok Hc Hi Hsi. unfold after_rcv.
  destruct (wf_wait d SMBUS_STATE_WAIT_IDLE Hr Hs Hok eq_refl) as [Hw He].
  destruct ((ret =? 0) && _) eqn:Hb; [|by case_match].
  apply andb_true_iff in Hb as [_ Hb%bool_decide_eq_true].
  constructor; try done. exists c. cbn. split_and!; try (done || lia). by right.
Qed.

Lemma write_cmd_safe c w d val :
  wf_target d -> state d = SMBUS_STATE_CMD -> get_cmd_def d (command d) = Some c ->
  polite d (ev_write val) -> exists w' d' ret, write_cmd c w d val = Some (w', d', ret) /\ wf_target d'.
Proof.
  intros [Hr Hs Hok Hst] Hstate Hc Hp. unfold state_ok in Hst. rewrite Hstate in Hst.
  destruct Hst as (c' & Hc' & Hi & Hsi & Hrw). assert (c' = c) as -> by congruence.
  unfold polite in Hp. rewrite Hstate in Hp. specialize (Hp c Hc).
  pose proof (Hok _ _ Hc) as Hcok.
  destruct (wf_wait d SMBUS_STATE_WAIT_IDLE Hr Hs Hok eq_refl) as [_ He].
  assert (Hblock : (trans_type c = SMBUS_TRANS_WRITE_BLOCK \/ is_rw c) ->
    exists w' d' ret,
      (let d := set_blocksize_w d val in
       if SMBUS_MAX_MSG_SIZE <? blocksize_w d then Some (w, log_error d, -1)
       else Some (w, set_state d SMBUS_STATE_RCV_DATA, 0)) = Some (w', d', ret) /\ wf_target d').
  { intros Hb. destruct (Hp Hb) as [Hv Hz]. cbn [blocksize_w set_blocksize_w].
    unfold SMBUS_MAX_MSG_SIZE. destruct (Z.ltb_spec 64 val); do 3 eexists; (split; [done|]).
    - constructor; done.
    - constructor; try done. exists c. cbn. split_and!; try done; try lia.
      destruct Hb as [Hb|Hb]; unfold receives, is_rw in *; by rewrite Hb. }
  unfold write_cmd. destruct (trans_type c) eqn:Ht; try (do 3 eexists; split; [done|]; done).
  - destruct Hrw as [Hz|Hrw]; [|unfold is_rw in Hrw; congruence].
    destruct (store_received_ok (set_blocksize_w d 1) val) as (buf & -> & Hbuf); [done|cbn; lia|].
    assert (Hrec : receives c) by (unfold receives; by rewrite Ht).
    destruct (pec c).
    + do 3 eexists. split; [done|]. constructor; try done. exists c. cbn.
      split_and!; (done || lia).
    + match goal with |- context [call_rcv c w ?dd] =>
        destruct (call_rcv_ok c w dd Hcok Hrec) as (w' & ret & ->) end.
      do 3 eexists. split; [done|]. constructor; done.
  - destruct Hrw as [Hz|Hrw]; [|unfold is_rw in Hrw; congruence].
    destruct (store_received_ok (set_blocksize_w d 2) val) as (buf & -> & Hbuf); [done|cbn; lia|].
    do 3 eexists. split; [done|]. constructor; try done. exists c. cbn.
    split_and!; try (done || lia). unfold receives; by rewrite Ht.
  - apply Hblock. by left.
  - apply Hblock. by right.
Qed.

Lemma write_rcv_data_safe c w d val :
  wf_target d -> state d = SMBUS_STATE_RCV_DATA -> get_cmd_def d (command d) = Some c ->
  exists w' d' ret, write_rcv_data c w d val = Some (w', d', ret) /\ wf_target d'.
Proof.
  intros [Hr Hs Hok Hst] Hstate Hc. unfold state_ok in Hst. rewrite Hstate in Hst.
  destruct Hst as (c' & Hc' & Hrec & Hi & Hbw & Hsi). assert (c' = c) as -> by congruence.
  unfold write_rcv_data.
  destruct (store_received_ok d val) as (buf & -> & Hbuf); [done|lia|]. cbn [rcv_index blocksize_w].
  set (d1 := {| address := _ |}).
  destruct (Z.eqb_spec (rcv_index d + 1) (blocksize_w d)).
  - case_match.
    + do 3 eexists. split; [done|]. constructor; try done. exists c. cbn.
      split_and!; (done || lia).
    + destruct (call_rcv_ok c w d1 (Hok _ _ Hc) Hrec) as (w' & ret & ->).
      do 3 eexists. split; [done|]. apply after_rcv_wf; cbn; (done || lia).
  - do 3 eexists. split; [done|]. constructor; try done. unfold state_ok. cbn. rewrite Hstate.
    exists c. split_and!; (done || lia).
Qed.

Lemma write_rcv_pec_safe c w d val :
  wf_target d -> state d = SMBUS_STATE_RCV_PEC -> get_cmd_def d (command d) = Some c ->
  exists w' d' ret, write_rcv_pec crc8 c w d val = Some (w', d', ret) /\ wf_target d'.
Proof.
  intros [Hr Hs Hok Hst] Hstate Hc. unfold state_ok in Hst. rewrite Hstate in Hst.
  destruct Hst as (c' & Hc' & Hrec & Hi & Hbw & Hsi). assert (c' = c) as -> by congruence.
  unfold write_rcv_pec, expected_write_pec.
  match goal with |- context [pec_bytes crc8 ?p ?b ?n] =>
    destruct (pec_bytes_is_Some p b n) as [x ->]; [rewrite Hr; lia|] end.
  case_match.
  - do 3 eexists. split; [done|]. constructor; done.
  - destruct (call_rcv_ok c w d (Hok _ _ Hc) Hrec) as (w' & ret & ->).
    do 3 eexists. split; [done|]. by apply after_rcv_wf.
Qed.

Lemma write_handler_safe w d val :
  wf_target d -> polite d (ev_write val) ->
  exists w' d' ret, smbus_write_handler crc8 w d val = Some (w', d', ret) /\ wf_target d'.
Proof.
  intros Hwf Hp. pose proof Hwf as [Hr Hs Hok Hst]. unfold smbus_write_handler.
  destruct (wf_wait d SMBUS_STATE_WAIT_IDLE Hr Hs Hok eq_refl) as [_ He].
  destruct (state d) eqn:Hstate; unfold state_ok in Hst; rewrite Hstate in Hst;
    try (do 3 eexists; split; [done|]; done).
  - unfold write_idle. case_match eqn:Hc; do 3 eexists; (split; [done|]).
    + constructor; try done. eexists. cbn. split; [exact Hc|]. split_and!; (lia || by left).
    + constructor; done.
  - destruct Hst as (c & Hc & _). rewrite Hc. by apply write_cmd_safe.
  - destruct Hst as (c & Hc & _). rewrite Hc. by apply write_rcv_data_safe.
  - destruct Hst as (c & Hc & _). rewrite Hc. by apply write_rcv_pec_safe.
Qed.

Lemma after_send_wf c d :
  length (received_data d) = 64%nat -> length (send_data d) = 64%nat ->
  (forall cmd c, get_cmd_def d cmd = Some c -> cmd_ok c) ->
  get_cmd_def d (command d) = Some c -> 0 <= rcv_index d <= 64 -> 0 <= blocksize_r d <= 64 ->
  wf_target (after_send c d).
Proof.
  intros Hr Hs Hok Hc Hi Hbr. unfold after_send. destruct (pec c); constructor; try done.
  exists c. done.
Qed.

Lemma read_cmd_safe c w d :
  wf_target d -> state d = SMBUS_STATE_CMD -> get_cmd_def d (command d) = Some c ->
  exists w' d' v ret, read_cmd c w d = Some (w', d', v, ret) /\ wf_target d'.
Proof.
  intros [Hr Hs Hok Hst] Hstate Hc. unfold state_ok in Hst. rewrite Hstate in Hst.
  destruct Hst as (c' & Hc' & Hi & Hsi & _). assert (c' = c) as -> by congruence.
  unfold read_cmd.
  assert (Hcall : sends c -> exists h w' buf n ret, send_handler c = Some h /\
    h w (send_data d) (blocksize_r d) = (w', buf, n, ret) /\ length buf = 64%nat /\
    (ret = 0 -> 1 <= u8 n <= 64 /\ (trans_type c = SMBUS_TRANS_READ_WORD -> 2 <= u8 n))).
  { intros Hsend. destruct (ok_send c (Hok _ _ Hc) Hsend) as (h & Hh & Hlaw).
    destruct (h w (send_data d) (blocksize_r d)) as [[[w' buf] n] ret] eqn:E.
    exists h, w', buf, n, ret. split_and!; try done; by eapply (Hlaw _ _ _ _ _ _ _ Hs E). }
  destruct (trans_type c) eqn:Ht; try (do 4 eexists; split; [done|]; by constructor);
    (destruct Hcall as (h & w' & buf & n & ret & -> & -> & Hbuf & Hsz);
       [by unfold sends; rewrite Ht|];
     destruct (Z.eqb_spec ret 0) as [Hret|Hret]; cbn [negb];
       [destruct (Hsz Hret) as [Hn Hn2] | do 4 eexists; split; [done|]; by constructor]).
  - destruct (next_send_ok (set_send d buf u8 n)) as [v ->]; [done|cbn; lia|].
    do 4 eexists. split; [done|]. apply after_send_wf; cbn; (done || lia).
  - specialize (Hn2 eq_refl).
    destruct (next_send_ok (set_send d buf u8 n)) as [v ->]; [done|cbn; lia|].
    do 4 eexists. split; [done|]. constructor; try done. exists c. cbn. split_and!; (done || lia).
  - do 4 eexists. split; [done|]. constructor; try done. exists c. cbn. split_and!; (done || lia).
  - do 4 eexists. split; [done|]. constructor; try done. exists c. cbn. split_and!; (done || lia).
Qed.

Lemma send_pec_is_Some c d :
  length (received_data d) = 64%nat -> length (send_data d) = 64%nat ->
  0 <= rcv_index d <= 64 -> 0 <= blocksize_r d <= 64 -> is_Some (send_pec crc8 c d).
Proof.
  intros Hr Hs Hi Hbr. unfold send_pec.
  match goal with |- context [pec_bytes crc8 ?p (received_data d) ?n] =>
    destruct (pec_bytes_is_Some p (received_data d) n) as [x ->]; [rewrite Hr; lia|] end.
  apply pec_bytes_is_Some. lia.
Qed.

Lemma read_handler_safe w d :
  wf_target d ->
  exists w' d' v ret, smbus_read_handler crc8 w d = Some (w', d', v, ret) /\ wf_target d'.
Proof.
  intros Hwf. pose proof Hwf as [Hr Hs Hok Hst]. unfold smbus_read_handler.
  destruct (state d) eqn:Hstate; unfold state_ok in Hst; rewrite Hstate in Hst;
    try (do 4 eexists; split; [done|]; by constructor).
  - destruct Hst as (c & Hc & _). rewrite Hc. by apply read_cmd_safe.
  - destruct Hst as (c & Hc & Hi & Hsi & Hbr). rewrite Hc. unfold read_send_data.
    destruct (next_send_ok d) as [v ->]; [done|lia|]. do 4 eexists. split; [done|].
    cbn [send_index blocksize_r]. set (d1 := {| address := _ |}).
    destruct (Z.eqb_spec (send_index d + 1) (blocksize_r d)).
    + apply after_send_wf; cbn; (done || lia).
    + constructor; try done. unfold state_ok. cbn. rewrite Hstate. exists c.
      split_and!; (done || lia).
  - destruct Hst as (c & Hc & Hi & Hbr). rewrite Hc.
    destruct (send_pec_is_Some c d Hr Hs Hi Hbr) as [p ->]. do 4 eexists.
    split; [done|]. by constructor.
Qed.

Lemma bus_step_safe w d e :
  wf_target d -> polite d e ->
  exists w' d' v ret, bus_step crc8 (w, d) e = Some (w', d', v, ret) /\ wf_target d'.
Proof.
  intros Hwf Hp. pose proof Hwf as [Hr Hs Hok _]. destruct e; cbn [bus_step].
  - do 4 eexists. split; [done|]. by constructor.
  - destruct (write_handler_safe w d val Hwf Hp) as (w' & d' & ret & -> & ?).
    do 4 eexists. split; done.
  - destruct (read_handler_safe w d Hwf) as (w' & d' & v & ret & -> & ?).
    do 4 eexists. split; done.
  - do 4 eexists. split; [done|]. by constructor.
Qed.

(** Every event of the sequence is polite in the state it meets. *)
Fixpoint polite_run (s : W * smbus_target_data W) (es : list bus_event) : Prop :=
  match es with
  | [] => True
  | e :: es =>
      polite s.2 e /\
      match bus_step crc8 s e with
      | None => True
      | Some (w, d, _, _) => polite_run (w, d) es
      end
  end.

Lemma bus_run_wf (w : W) (d : smbus_target_data W) (es : list bus_event) :
  wf_target d -> polite_run (w, d) es ->
  exists w' d' out,
    bus_run crc8 (w, d) es = Some (w', d', out) /\ wf_target d' /\ length out = length es.
Proof.
  revert w d. induction es as [|e es IH]; intros w d Hwf Hp.
  { by exists w, d, []. }
  destruct Hp as [He Hp]. cbn [bus_run].
  destruct (bus_step_safe w d e Hwf He) as (w1 & d1 & v & ret & Hstep & Hwf1).
  rewrite Hstep in Hp |- *. destruct (IH w1 d1 Hwf1 Hp) as (w' & d' & out & -> & ? & Hl).
  exists w', d', ((v, ret) :: out). split_and!; [done..|]. simpl. by rewrite Hl.
Qed.

(** C21. Memory safety. With well-behaved handlers and a master that never opens
    a zero-length block nor a second block inside one transaction, no sequence of
    bus events, however ill-formed otherwise, makes the engine access memory out
    of bounds or call a null handler, and its state stays well-formed. *)
Theorem bus_run_safe (w : W) (d : smbus_target_data W) (es : list bus_event)
    (Hwf : wf_target d) (Hp : polite_run (w, d) es) :
  exists w' d' out,
    bus_run crc8 (w, d) es = Some (w', d', out) /\ wf_target d' /\ length out = length es.
Proof. by apply bus_run_wf. Qed.
End safety.

(** * A concrete engine *)

(** Command 0x20 stores a block, command 0x21 reads two bytes back. *)
Definition demo_rcv : smbus_rcv_handler (list Z) := λ _ buf n, (take (Z.to_nat n) buf, 0).
Definition demo_send : smbus_send_handler (list Z) := λ w buf _, (w, 7 :: 9 :: drop 2 buf, 2, 0).
Definition demo_write_cmd : smbus_cmd_def (list Z) :=
  {| trans_type := SMBUS_TRANS_WRITE_BLOCK; rcv_handler := Some demo_rcv;
     send_handler := None; pec := true |}.
Definition demo_read_cmd : smbus_cmd_def (list Z) :=
  {| trans_type := SMBUS_TRANS_READ_BLOCK; rcv_handler := None;
     send_handler := Some demo_send; pec := true |}.
Definition demo_target : smbus_target_data (list Z) :=
  {| address := 0x66; cmd_defs := <[0x21%nat := Some demo_read_cmd]>
       (<[0x20%nat := Some demo_write_cmd]> (replicate 256 None));
     error_count := 0; state := SMBUS_STATE_IDLE; command := 0; blocksize_r := 0;
     blocksize_w := 0; rcv_index := 0; send_index := 0;
     received_data := replicate 64 0; send_data := replicate 64 0 |}.
(** Any byte function will do for the PEC here; this one is a sum. *)
Definition demo_crc (crc b : Z) : Z := u8 (crc + b).

Lemma write_block_transaction_witness :
  exists d',
    bus_run demo_crc ([], demo_target) (write_block_events 0x20 [5; 6] 249)
      = Some ([5; 6], d', replicate 5 (None, 0) ++ [(None, 0)]) /\
    state d' = SMBUS_STATE_WAIT_IDLE.
Proof.
  destruct (write_block_transaction demo_crc [] demo_target demo_write_cmd demo_rcv 0x20 [5; 6] 249)
    as (d' & Hrun & Hs & _); try reflexivity; [simpl; lia|].
  exists d'. split; [exact Hrun | exact Hs].
Defined.

Lemma read_block_transaction_witness :
  exists d',
    bus_run demo_crc ([], demo_target) (ev_write_requested :: ev_write 0x21 :: replicate 4 ev_read)
      = Some ([], d', [(None, 0); (None, 0); (Some 2, 0); (Some 7, 0); (Some 9, 0);
                       (Some 204, 0)]) /\
    state d' = SMBUS_STATE_WAIT_IDLE /\ error_count d' = 0.
Proof.
  exact (read_block_transaction demo_crc [] demo_target demo_read_cmd demo_send 0x21 []
    (7 :: 9 :: replicate 62 0) 2 eq_refl eq_refl eq_refl eq_refl eq_refl eq_refl
    ltac:(lia)).
Defined.

Lemma demo_target_cmds cmd c :
  get_cmd_def demo_target cmd = Some c -> c = demo_write_cmd \/ c = demo_read_cmd.
Proof.
  unfold get_cmd_def, zget. destruct (cmd <? 0); [done|]. cbn [cmd_defs demo_target].
  destruct (_ !! Z.to_nat cmd) as [[c'|]|] eqn:E; try done. intros [= ->].
  apply list_elem_of_lookup_2 in E. vm_compute in E.
  repeat (apply elem_of_cons in E as [E|E]; [try discriminate; simplify_eq; auto|]).
  by apply elem_of_nil in E.
Qed.

Lemma demo_target_wf : wf_target demo_target.
Proof.
  constructor; [done..| |done]. intros cmd c Hc.
  destruct (demo_target_cmds cmd c Hc) as [-> | ->]; constructor; try done.
  intros _. exists demo_send. split; [done|].
  intros w buf n w' buf' n' ret Hl [= <- <- <- <-]. split; [|by intros; split].
  do 2 (destruct buf; [done|]). done.
Qed.

Lemma bus_run_safe_witness :
  exists w' d' out,
    bus_run demo_crc ([], demo_target) [ev_read; ev_write_requested; ev_write 0x20; ev_write 200]
      = Some (w', d', out) /\ wf_target d' /\ length out = 4%nat.
Proof.
  apply (bus_run_safe demo_crc [] demo_target
    [ev_read; ev_write_requested; ev_write 0x20; ev_write 200] demo_target_wf).
  vm_compute. repeat split; auto; intros; reflexivity.
Defined.

(** The politeness condition is needed: the engine accepts a block write of
    announced length zero, and the 65 bytes that follow run over the end of the
    64-byte receive buffer. *)
Theorem zero_length_block_overruns :
  (exists w d out,
     bus_run demo_crc ([], demo_target)
       (ev_write_requested :: ev_write 0x20 :: ev_write 0 :: replicate 64 (ev_write 1))
       = Some (w, d, out) /\ Forall (λ o, o = (None, 0)) out /\
     state d = SMBUS_STATE_RCV_DATA /\ rcv_index d = 64) /\
  bus_run demo_crc ([], demo_target)
    (ev_write_requested :: ev_write 0x20 :: ev_write 0 :: replicate 65 (ev_write 1)) = None.
Proof.
  split; [|by vm_compute].
  do 3 eexists. split; [by vm_compute|]. split; [|by vm_compute].
  repeat constructor.
Qed.
