(* ===== verification/Cm2Dm.v ===== *)
(** Messages between the chip firmware and the board controller:
    [lib/tenstorrent/bh_arc/cm2dm_msg.c], the SMBus command table of
    [lib/tenstorrent/bh_arc/smbus_target.c] and the controller's side of the
    exchange in [lib/tenstorrent/bh_chip/bh_chip.c].

    The chip posts messages into one slot per message kind; the board controller
    polls over SMBus, gets one message at a time in round-robin order with a
    sequence number, and acknowledges it. Calls into other parts of the firmware
    (fan control, throttler, telemetry, ASIC state, timers, registers) are
    recorded in order in [calls]. *)
From S2P Require Import Prelude MsgQueue SmbusTarget.
From stdpp Require Import prelude list numbers.
Open Scope Z_scope.

Inductive Cm2DmMsgId :=
  kCm2DmMsgIdNull | kCm2DmMsgIdResetReq | kCm2DmMsgIdPing | kCm2DmMsgIdFanSpeedUpdate
| kCm2DmMsgIdReady | kCm2DmMsgIdAutoResetTimeoutUpdate | kCm2DmMsgTelemHeartbeatUpdate
| kCm2DmMsgIdForcedFanSpeedUpdate | kCm2DmMsgIdLedBlink | kCm2DmMsgIdGddrThermTrip.

Definition id_num (m : Cm2DmMsgId) : Z :=
  match m with
  | kCm2DmMsgIdNull => 0 | kCm2DmMsgIdResetReq => 1 | kCm2DmMsgIdPing => 2
  | kCm2DmMsgIdFanSpeedUpdate => 3 | kCm2DmMsgIdReady => 4
  | kCm2DmMsgIdAutoResetTimeoutUpdate => 5 | kCm2DmMsgTelemHeartbeatUpdate => 6
  | kCm2DmMsgIdForcedFanSpeedUpdate => 7 | kCm2DmMsgIdLedBlink => 8
  | kCm2DmMsgIdGddrThermTrip => 9
  end.
Definition kCm2DmMsgCount : Z := 10.

Definition kCm2DmResetLevelAsic : Z := 0.
Definition kCm2DmResetLevelDmc : Z := 3.
(** [CONFIG_TT_BH_ARC_WDT_FEED_INTERVAL] at its Kconfig default. *)
Definition WDT_FEED_INTERVAL : Z := 250.

Record cm2dmMessage := { msg_id : Z; seq_num : Z; mdata : Z }.
Definition zero_message : cm2dmMessage := {| msg_id := 0; seq_num := 0; mdata := 0 |}.
(** The packed structure: 6 bytes. *)
Definition message_bytes (m : cm2dmMessage) : list Z :=
  le_bytes 1 (msg_id m) ++ le_bytes 1 (seq_num m) ++ le_bytes 4 (mdata m).

Record Cm2DmMsgState := {
  pending_messages : Z;
  rr : Z; (* the field next_id_rr *)
  next_seq_num : Z;
  curr_msg_valid : bool;
  curr_msg : cm2dmMessage;
  next_msgs : list Z;
}.

(** ** The message slots *)

(** The two writes of [PostCm2DmMsg], in program order. *)
Definition post_write (s : Cm2DmMsgState) (m : Cm2DmMsgId) (data : Z) : Cm2DmMsgState :=
  {| pending_messages := pending_messages s; rr := rr s; next_seq_num := next_seq_num s;
     curr_msg_valid := curr_msg_valid s; curr_msg := curr_msg s;
     next_msgs := <[Z.to_nat (id_num m) := u32 data]> (next_msgs s) |}.

Definition post_set_bit (s : Cm2DmMsgState) (m : Cm2DmMsgId) : Cm2DmMsgState :=
  {| pending_messages := Z.setbit (pending_messages s) (id_num m); rr := rr s;
     next_seq_num := next_seq_num s; curr_msg_valid := curr_msg_valid s;
     curr_msg := curr_msg s; next_msgs := next_msgs s |}.

Definition PostCm2DmMsg (s : Cm2DmMsgState) (m : Cm2DmMsgId) (data : Z) : Cm2DmMsgState :=
  post_set_bit (post_write s m data) m.

(** [next_id_rr(pending)]: the chosen id and the new value of the field. *)
Definition next_id_rr (s : Cm2DmMsgState) (pending : Z) : Z * Z :=
  let hi_pending := Z.land pending (GENMASK 31 (rr s)) in
  let search_messages := if hi_pending =? 0 then pending else hi_pending in
  let next_message_id := LOG2 (LSB_GET search_messages) in
  (next_message_id, (next_message_id + 1) mod kCm2DmMsgCount).

(** The request handler up to [atomic_clear_bit], and from there on. *)
Definition req_pick (s : Cm2DmMsgState) : Z * Cm2DmMsgState :=
  let '(id, rr') := next_id_rr s (pending_messages s) in
  (id, {| pending_messages := Z.clearbit (pending_messages s) id; rr := rr';
          next_seq_num := next_seq_num s; curr_msg_valid := curr_msg_valid s;
          curr_msg := curr_msg s; next_msgs := next_msgs s |}).

Definition req_read (s : Cm2DmMsgState) (id : Z) : Cm2DmMsgState :=
  {| pending_messages := pending_messages s; rr := rr s;
     next_seq_num := u8 (next_seq_num s + 1); curr_msg_valid := true;
     curr_msg := {| msg_id := u8 id; seq_num := next_seq_num s;
                    mdata := default 0 (zget (next_msgs s) id) |};
     next_msgs := next_msgs s |}.

Definition req_message (s : Cm2DmMsgState) : Cm2DmMsgState :=
  if curr_msg_valid s then s
  else if pending_messages s =? 0 then s
  else let '(id, s1) := req_pick s in req_read s1 id.

Definition ack_message (s : Cm2DmMsgState) (id seq : Z) : Cm2DmMsgState * Z :=
  if curr_msg_valid s && (id =? msg_id (curr_msg s)) && (seq =? seq_num (curr_msg s))
  then ({| pending_messages := pending_messages s; rr := rr s; next_seq_num := next_seq_num s;
           curr_msg_valid := false; curr_msg := zero_message; next_msgs := next_msgs s |}, 0)
  else (s, -1).

(** ** The firmware around them *)
Inductive status_reg :=
  ARC_START_TIME | PERST_TO_DMFW_INIT_DONE | ARC_HANG_PC | PING_DMFW_DURATION.

Inductive call :=
  lock_down_for_reset | irq_disable (irq : Z) | start_reset_timer | AdjustDVFSTimer
| WriteReg (r : status_reg) (v : Z) | UpdateDmFwVersion (bl app : Z) | SetFanRPM (rpm : Z)
| DmcFanSpeedFeedback (speed : Z) | UpdateTelemetryThermTripCount (n : Z)
| set_asic_state (v : Z) | uart_poll_out (c : Z) | Dm2CmSetBoardPowerLimit_to (limit : Z).

Record smc := {
  cm2dm : Cm2DmMsgState;
  dmfw_ping_sem : Z;
  power : Z;
  telemetry_reg : Z;
  chip_reset_asic_called : bool;
  chip_reset_dmc_called : bool;
  reset_type : Z;
  fw_scratch : Z; (* the register STATUS_FW_SCRATCH *)
  calls : list call;
}.

Definition with_cm2dm (w : smc) (s : Cm2DmMsgState) : smc :=
  {| cm2dm := s; dmfw_ping_sem := dmfw_ping_sem w; power := power w;
     telemetry_reg := telemetry_reg w; chip_reset_asic_called := chip_reset_asic_called w;
     chip_reset_dmc_called := chip_reset_dmc_called w; reset_type := reset_type w;
     fw_scratch := fw_scratch w; calls := calls w |}.
Definition do_call (w : smc) (cs : list call) : smc :=
  {| cm2dm := cm2dm w; dmfw_ping_sem := dmfw_ping_sem w; power := power w;
     telemetry_reg := telemetry_reg w; chip_reset_asic_called := chip_reset_asic_called w;
     chip_reset_dmc_called := chip_reset_dmc_called w; reset_type := reset_type w;
     fw_scratch := fw_scratch w; calls := calls w ++ cs |}.
Definition with_ping (w : smc) (n : Z) : smc :=
  {| cm2dm := cm2dm w; dmfw_ping_sem := n; power := power w;
     telemetry_reg := telemetry_reg w; chip_reset_asic_called := chip_reset_asic_called w;
     chip_reset_dmc_called := chip_reset_dmc_called w; reset_type := reset_type w;
     fw_scratch := fw_scratch w; calls := calls w |}.
Definition with_power (w : smc) (p : Z) : smc :=
  {| cm2dm := cm2dm w; dmfw_ping_sem := dmfw_ping_sem w; power := p;
     telemetry_reg := telemetry_reg w; chip_reset_asic_called := chip_reset_asic_called w;
     chip_reset_dmc_called := chip_reset_dmc_called w; reset_type := reset_type w;
     fw_scratch := fw_scratch w; calls := calls w |}.
Definition with_telemetry_reg (w : smc) (t : Z) : smc :=
  {| cm2dm := cm2dm w; dmfw_ping_sem := dmfw_ping_sem w; power := power w;
     telemetry_reg := t; chip_reset_asic_called := chip_reset_asic_called w;
     chip_reset_dmc_called := chip_reset_dmc_called w; reset_type := reset_type w;
     fw_scratch := fw_scratch w; calls := calls w |}.
Definition with_resets (w : smc) (asic dmc : bool) : smc :=
  {| cm2dm := cm2dm w; dmfw_ping_sem := dmfw_ping_sem w; power := power w;
     telemetry_reg := telemetry_reg w; chip_reset_asic_called := asic;
     chip_reset_dmc_called := dmc; reset_type := reset_type w;
     fw_scratch := fw_scratch w; calls := calls w |}.
Definition with_reset_type (w : smc) (t : Z) : smc :=
  {| cm2dm := cm2dm w; dmfw_ping_sem := dmfw_ping_sem w; power := power w;
     telemetry_reg := telemetry_reg w; chip_reset_asic_called := chip_reset_asic_called w;
     chip_reset_dmc_called := chip_reset_dmc_called w; reset_type := t;
     fw_scratch := fw_scratch w; calls := calls w |}.
Definition with_scratch (w : smc) (v : Z) : smc :=
  {| cm2dm := cm2dm w; dmfw_ping_sem := dmfw_ping_sem w; power := power w;
     telemetry_reg := telemetry_reg w; chip_reset_asic_called := chip_reset_asic_called w;
     chip_reset_dmc_called := chip_reset_dmc_called w; reset_type := reset_type w;
     fw_scratch := u32 v; calls := calls w |}.

Definition post (w : smc) (m : Cm2DmMsgId) (data : Z) : smc :=
  with_cm2dm w (PostCm2DmMsg (cm2dm w) m data).

(** Accesses to the SMBus buffers, which hold 64 bytes. *)
Definition byte_at (buf : list Z) (i : nat) : Z := default 0 (buf !! i).
Definition sys_get_le16 (buf : list Z) : Z := le_value [byte_at buf 0; byte_at buf 1].
Definition le32_at (buf : list Z) (off : nat) : Z := le_value (take 4 (drop off buf)).
Definition overwrite (buf : list Z) (off : nat) (bs : list Z) : list Z :=
  take off buf ++ bs ++ drop (off + length bs) buf.

(** *** Requests to the board controller *)
Definition IssueChipReset (w : smc) (reset_level : Z) : smc :=
  let w := do_call w [lock_down_for_reset] in
  let w := with_resets w (chip_reset_asic_called w || (reset_level =? kCm2DmResetLevelAsic))
             (chip_reset_dmc_called w || (reset_level =? kCm2DmResetLevelDmc)) in
  post w kCm2DmMsgIdResetReq reset_level.

Definition ChipResetRequest (w : smc) (irq_num : Z) : smc :=
  IssueChipReset (do_call w [irq_disable irq_num]) kCm2DmResetLevelAsic.

Definition UpdateFanSpeedRequest (w : smc) (fan_speed : Z) : smc :=
  post w kCm2DmMsgIdFanSpeedUpdate fan_speed.
Definition UpdateForcedFanSpeedRequest (w : smc) (fan_speed : Z) : smc :=
  post w kCm2DmMsgIdForcedFanSpeedUpdate fan_speed.
Definition Dm2CmReadyRequest (w : smc) : smc := post w kCm2DmMsgIdReady 0.
Definition UpdateAutoResetTimeoutRequest (w : smc) (timeout : Z) : smc :=
  post w kCm2DmMsgIdAutoResetTimeoutUpdate timeout.
Definition UpdateTelemHeartbeatRequest (w : smc) (heartbeat : Z) : smc :=
  post w kCm2DmMsgTelemHeartbeatUpdate heartbeat.
Definition RequestLedBlink (w : smc) (blink_mode : Z) : smc :=
  post w kCm2DmMsgIdLedBlink blink_mode.
Definition ReportGddrThermTrip (w : smc) (reason : Z) : smc :=
  post w kCm2DmMsgIdGddrThermTrip reason.

Definition reset_request_handler (w : smc) : smc := IssueChipReset w (reset_type w).

(** *** Host messages *)
Definition reset_dm_handler : handler smc := λ w request rsp,
  let w := with_reset_type w (u8 (data request 1)) in
  if (reset_type w =? kCm2DmResetLevelAsic) || (reset_type w =? kCm2DmResetLevelDmc)
  then (do_call w [start_reset_timer], rsp, 0)
  else (w, rsp, reset_type w).

(** [responds] says whether the controller's answer gives the semaphore within
    the timeout, [elapsed] how long that took. *)
Definition ping_dm_handler (responds : bool) (elapsed : Z) : handler smc := λ w request rsp,
  let w := with_ping w 0 in
  let w := post w kCm2DmMsgIdPing (if u8 (data request 1) =? 0 then 0 else 1) in
  let w := do_call w [WriteReg PING_DMFW_DURATION (u32 elapsed)] in
  (w, set_data rsp 1 (if responds then 1 else 0), 0).

(** The watchdog driver: its answers to the three calls. *)
Record wdt_driver := {
  wdt_ready : bool;
  wdt_install_timeout : Z -> Z;
  wdt_setup : Z;
  wdt_disable : Z;
}.

Definition set_watchdog_timeout (drv : wdt_driver) : handler smc := λ w request rsp,
  let timeout_ms := data request 1 in
  if negb (wdt_ready drv) then (w, rsp, ENODEV)
  else if negb (timeout_ms =? 0) then
    if timeout_ms <=? WDT_FEED_INTERVAL then (w, rsp, ENOTSUP)
    else
      let ret := wdt_install_timeout drv timeout_ms in
      if ret <? 0 then (w, rsp, u8 (0 - ret)) else (w, rsp, u8 (0 - wdt_setup drv))
  else (w, rsp, u8 (0 - wdt_disable drv)).

(** *** SMBus handlers *)
Definition Cm2DmMsgReqSmbusHandler : smbus_send_handler smc := λ w buf _,
  let w := with_cm2dm w (req_message (cm2dm w)) in
  (w, overwrite buf 0 (message_bytes (curr_msg (cm2dm w))), 6, 0).

Definition Cm2DmMsgAckSmbusHandler : smbus_rcv_handler smc := λ w buf size,
  if negb (size =? 2) then (w, -1)
  else let '(s, ret) := ack_message (cm2dm w) (byte_at buf 0) (byte_at buf 1) in
       (with_cm2dm w s, ret).

Definition Dm2CmSendDataHandler : smbus_rcv_handler smc := λ w buf size,
  if negb (size =? 24) then (w, -1)
  else if le32_at buf 0 =? 0 then (w, -1)
  else
    (do_call w ([UpdateDmFwVersion (le32_at buf 4) (le32_at buf 8);
                 WriteReg ARC_START_TIME (le32_at buf 12);
                 WriteReg PERST_TO_DMFW_INIT_DONE (le32_at buf 16)]
                ++ (if le32_at buf 20 =? 0 then [] else [WriteReg ARC_HANG_PC (le32_at buf 20)])),
     0).

Definition Dm2CmPingHandler : smbus_rcv_handler smc := λ w buf size,
  if negb (size =? 2) then (w, -1)
  else if negb (sys_get_le16 buf =? 0xA5A5) then (w, -1)
  else (with_ping w 1, 0).

Definition Dm2CmPingV2 : smbus_send_handler smc := λ w buf _,
  (with_ping w 1, overwrite buf 0 [0xA5; 0xA5], 2, 0).

(** [additional] is [bh_chip_info_additional_board_power()]. *)
Definition Dm2CmSendPowerHandler (additional : Z) : smbus_rcv_handler smc := λ w buf size,
  if negb (size =? 2) then (w, -1)
  else (with_power (do_call w [AdjustDVFSTimer]) (u16 (sys_get_le16 buf + additional)), 0).

Definition GetInputPower (w : smc) : Z := power w.

Definition Dm2CmSendFanRPMHandler : smbus_rcv_handler smc := λ w buf size,
  if negb (size =? 2) then (w, -1) else (do_call w [SetFanRPM (sys_get_le16 buf)], 0).

Definition Dm2CmSendFanSpeedHandler : smbus_rcv_handler smc := λ w buf size,
  if negb (size =? 2) then (w, -1) else (do_call w [DmcFanSpeedFeedback (sys_get_le16 buf)], 0).

(** The limit is passed on to the throttler. *)
Definition Dm2CmSetBoardPowerLimit : smbus_rcv_handler smc := λ w buf size,
  if negb (size =? 2) then (w, -1)
  else (do_call w [Dm2CmSetBoardPowerLimit_to (sys_get_le16 buf)], 0).

Definition SMBusTelemRegHandler : smbus_rcv_handler smc := λ w buf size,
  if negb (size =? 1) then (w, -1) else (with_telemetry_reg w (byte_at buf 0), 0).

(** The telemetry table: which tags exist and their values. *)
Record telemetry := { GetTelemetryTagValid : Z -> bool; GetTelemetryTag : Z -> Z }.

Definition SMBusTelemDataHandler (t : telemetry) : smbus_send_handler smc := λ w buf _,
  let tag := telemetry_reg w in
  (w, overwrite buf 0 ((if GetTelemetryTagValid t tag then 0 else 1) :: 0 :: 0
                        :: le_bytes 4 (GetTelemetryTag t tag)), 7, 0).

Definition Dm2CmSendThermTripCountHandler : smbus_rcv_handler smc := λ w buf size,
  if negb (size =? 2) then (w, -1)
  else (do_call w [UpdateTelemetryThermTripCount (sys_get_le16 buf)], 0).

Definition Dm2CmWriteTelemetry : smbus_rcv_handler smc := λ w _ size,
  if negb (size =? 33) then (w, -1) else (w, 0).

(** The control word: bit 8 asks for an ASIC reset, bit 12 for an ASIC and
    board controller reset; the last byte is a CRC over the size and the rest. *)
Definition Dm2CmReadControlData (crc8 : Z -> Z -> Z) : smbus_send_handler smc := λ w buf _,
  let ctl_data := Z.lor (if chip_reset_asic_called w then BIT 8 else 0)
                        (if chip_reset_dmc_called w then BIT 12 else 0) in
  let body := replicate 11 0 ++ le_bytes 4 ctl_data ++ replicate 4 0 in
  let crc := foldl crc8 (crc8 0 20) body in
  (w, overwrite buf 0 (body ++ [crc]), 20, 0).

Definition Dm2CmDMCLogHandler : smbus_rcv_handler smc := λ w buf size,
  (do_call w (uart_poll_out <$> take (Z.to_nat size) buf), 0).

(** *** Register test handlers *)
Definition ReadByteTest : smbus_send_handler smc := λ w buf _,
  (w, overwrite buf 0 [Z.land (fw_scratch w) 0xFF], 1, 0).
Definition WriteByteTest : smbus_rcv_handler smc := λ w buf size,
  if negb (size =? 1) then (w, -1)
  else (with_scratch w (Z.lor (Z.shiftl size 16) (byte_at buf 0)), 0).
Definition ReadWordTest : smbus_send_handler smc := λ w buf _,
  (w, overwrite buf 0 [Z.land (fw_scratch w) 0xFF; Z.land (Z.shiftr (fw_scratch w) 8) 0xFF], 2, 0).
Definition WriteWordTest : smbus_rcv_handler smc := λ w buf size,
  if negb (size =? 2) then (w, -1)
  else (with_scratch w (Z.lor (Z.lor (Z.shiftl size 16) (Z.shiftl (byte_at buf 1) 8))
                          (byte_at buf 0)), 0).
Definition BlockReadTest : smbus_send_handler smc := λ w buf _,
  (w, overwrite buf 0 (le_bytes 4 (fw_scratch w)), 4, 0).
Definition BlockWriteTest : smbus_rcv_handler smc := λ w buf size,
  if negb (size =? 4) then (w, -1) else (with_scratch w (le32_at buf 0), 0).

Definition UpdateArcStateHandler : smbus_rcv_handler smc := λ w buf size,
  if negb (size =? 3) || negb (byte_at buf 1 =? 0xDE) || negb (byte_at buf 2 =? 0xAF)
  then (w, -1) else (do_call w [set_asic_state (byte_at buf 0)], 0).

(** *** The command codes ([include/tenstorrent/tt_smbus_regs.h]) *)
Inductive cmfw_smbus_cmd :=
  CMFW_SMBUS_TELEMETRY_READ | CMFW_SMBUS_TELEMETRY_WRITE | CMFW_SMBUS_UPDATE_ARC_STATE
| CMFW_SMBUS_REQ | CMFW_SMBUS_ACK | CMFW_SMBUS_DM_STATIC_INFO | CMFW_SMBUS_PING
| CMFW_SMBUS_FAN_SPEED | CMFW_SMBUS_FAN_RPM | CMFW_SMBUS_POWER_LIMIT
| CMFW_SMBUS_POWER_INSTANT | CMFW_SMBUS_TELEMETRY_READ_CRC
| CMFW_SMBUS_TELEMETRY_READ_CRC_DATA | CMFW_SMBUS_THERM_TRIP_COUNT | CMFW_SMBUS_DMC_LOG
| CMFW_SMBUS_PING_V2 | CMFW_SMBUS_TEST_READ | CMFW_SMBUS_TEST_WRITE
| CMFW_SMBUS_TEST_READ_WORD | CMFW_SMBUS_TEST_WRITE_WORD | CMFW_SMBUS_TEST_READ_BLOCK
| CMFW_SMBUS_TEST_WRITE_BLOCK | CMFW_SMBUS_TEST_WRITE_BLOCK_READ_BLOCK | CMFW_SMBUS_MSG_MAX.

Definition cmd_code (c : cmfw_smbus_cmd) : Z :=
  match c with
  | CMFW_SMBUS_TELEMETRY_READ => 0x02 | CMFW_SMBUS_TELEMETRY_WRITE => 0x03
  | CMFW_SMBUS_UPDATE_ARC_STATE => 0x04 | CMFW_SMBUS_REQ => 0x10 | CMFW_SMBUS_ACK => 0x11
  | CMFW_SMBUS_DM_STATIC_INFO => 0x20 | CMFW_SMBUS_PING => 0x21
  | CMFW_SMBUS_FAN_SPEED => 0x22 | CMFW_SMBUS_FAN_RPM => 0x23
  | CMFW_SMBUS_POWER_LIMIT => 0x24 | CMFW_SMBUS_POWER_INSTANT => 0x25
  | CMFW_SMBUS_TELEMETRY_READ_CRC => 0x26 | CMFW_SMBUS_TELEMETRY_READ_CRC_DATA => 0x27
  | CMFW_SMBUS_THERM_TRIP_COUNT => 0x28 | CMFW_SMBUS_DMC_LOG => 0x29
  | CMFW_SMBUS_PING_V2 => 0x2A | CMFW_SMBUS_TEST_READ => 0xD8
  | CMFW_SMBUS_TEST_WRITE => 0xD9 | CMFW_SMBUS_TEST_READ_WORD => 0xDA
  | CMFW_SMBUS_TEST_WRITE_WORD => 0xDB | CMFW_SMBUS_TEST_READ_BLOCK => 0xDC
  | CMFW_SMBUS_TEST_WRITE_BLOCK => 0xDD | CMFW_SMBUS_TEST_WRITE_BLOCK_READ_BLOCK => 0xDE
  | CMFW_SMBUS_MSG_MAX => 0xDF
  end.

(** *** The command table and its registration *)
Definition block_rd (cmd : cmfw_smbus_cmd) (p : bool) (h : smbus_send_handler smc) : Z * smbus_cmd_def smc :=
  (cmd_code cmd, {| trans_type := SMBUS_TRANS_READ_BLOCK; rcv_handler := None;
           send_handler := Some h; pec := p |}).
Definition block_wr (cmd : cmfw_smbus_cmd) (p : bool) (h : smbus_rcv_handler smc) : Z * smbus_cmd_def smc :=
  (cmd_code cmd, {| trans_type := SMBUS_TRANS_WRITE_BLOCK; rcv_handler := Some h;
           send_handler := None; pec := p |}).
Definition read_byte (cmd : cmfw_smbus_cmd) (p : bool) (h : smbus_send_handler smc) : Z * smbus_cmd_def smc :=
  (cmd_code cmd, {| trans_type := SMBUS_TRANS_READ_BYTE; rcv_handler := None;
           send_handler := Some h; pec := p |}).
Definition write_byte (cmd : cmfw_smbus_cmd) (p : bool) (h : smbus_rcv_handler smc) : Z * smbus_cmd_def smc :=
  (cmd_code cmd, {| trans_type := SMBUS_TRANS_WRITE_BYTE; rcv_handler := Some h;
           send_handler := None; pec := p |}).
Definition read_word (cmd : cmfw_smbus_cmd) (p : bool) (h : smbus_send_handler smc) : Z * smbus_cmd_def smc :=
  (cmd_code cmd, {| trans_type := SMBUS_TRANS_READ_WORD; rcv_handler := None;
           send_handler := Some h; pec := p |}).
Definition write_word (cmd : cmfw_smbus_cmd) (p : bool) (h : smbus_rcv_handler smc) : Z * smbus_cmd_def smc :=
  (cmd_code cmd, {| trans_type := SMBUS_TRANS_WRITE_WORD; rcv_handler := Some h;
           send_handler := None; pec := p |}).
Definition block_wr_block_rd (cmd : cmfw_smbus_cmd) (p : bool) (r : smbus_rcv_handler smc)
    (h : smbus_send_handler smc) : Z * smbus_cmd_def smc :=
  (cmd_code cmd, {| trans_type := SMBUS_TRANS_READ_WRITE_BLOCK; rcv_handler := Some r;
           send_handler := Some h; pec := p |}).

Section table.
Context (crc8 : Z -> Z -> Z) (t : telemetry) (additional : Z).

Definition smbus_cmds : list (Z * smbus_cmd_def smc) :=
  [block_rd CMFW_SMBUS_REQ true Cm2DmMsgReqSmbusHandler;
   write_word CMFW_SMBUS_ACK true Cm2DmMsgAckSmbusHandler;
   block_wr CMFW_SMBUS_UPDATE_ARC_STATE false UpdateArcStateHandler;
   block_wr CMFW_SMBUS_DM_STATIC_INFO true Dm2CmSendDataHandler;
   write_word CMFW_SMBUS_PING true Dm2CmPingHandler;
   write_word CMFW_SMBUS_FAN_SPEED true Dm2CmSendFanSpeedHandler;
   write_word CMFW_SMBUS_FAN_RPM true Dm2CmSendFanRPMHandler;
   block_wr_block_rd CMFW_SMBUS_TELEMETRY_READ false SMBusTelemRegHandler (SMBusTelemDataHandler t);
   block_wr_block_rd CMFW_SMBUS_TELEMETRY_WRITE false Dm2CmWriteTelemetry (Dm2CmReadControlData crc8);
   write_word CMFW_SMBUS_POWER_LIMIT true Dm2CmSetBoardPowerLimit;
   write_word CMFW_SMBUS_POWER_INSTANT true (Dm2CmSendPowerHandler additional);
   write_byte CMFW_SMBUS_TELEMETRY_READ_CRC true SMBusTelemRegHandler;
   block_rd CMFW_SMBUS_TELEMETRY_READ_CRC_DATA true (SMBusTelemDataHandler t);
   write_word CMFW_SMBUS_THERM_TRIP_COUNT true Dm2CmSendThermTripCountHandler;
   block_wr CMFW_SMBUS_DMC_LOG true Dm2CmDMCLogHandler;
   read_byte CMFW_SMBUS_TEST_READ true ReadByteTest;
   write_byte CMFW_SMBUS_TEST_WRITE true WriteByteTest;
   read_word CMFW_SMBUS_TEST_READ_WORD true ReadWordTest;
   write_word CMFW_SMBUS_TEST_WRITE_WORD true WriteWordTest;
   block_rd CMFW_SMBUS_TEST_READ_BLOCK true BlockReadTest;
   block_wr CMFW_SMBUS_TEST_WRITE_BLOCK true BlockWriteTest;
   block_wr_block_rd CMFW_SMBUS_TEST_WRITE_BLOCK_READ_BLOCK true BlockWriteTest BlockReadTest;
   read_word CMFW_SMBUS_PING_V2 true Dm2CmPingV2].

(** [InitSmbusTarget] on a ready device; [bus_ret] is what registering the
    driver with the I2C controller returned. *)
Definition InitSmbusTarget (ready : bool) (bus_ret : Z) (d : smbus_target_data smc)
  : smbus_target_data smc :=
  if negb ready then d
  else if bus_ret <? 0 then d
  else (smbus_target_register_cmds ready d (Some smbus_cmds)).1.
End table.

(** ** The board controller's side *)

(** What the bus does to one poll: whether the request reached the chip, whether
    the controller got its answer, and the same for the acknowledgement. An
    answer implies that the transaction reached the chip. *)
Record link := {
  req_reaches : bool;
  req_answered : bool;
  ack_reaches : bool;
  ack_answered : bool;
}.

Record cm2dmMessageRet := { rmsg : cm2dmMessage; ret : Z; ack_ret : Z }.

(** [bh_chip_get_cm2dm_message]: request, then acknowledge what was received.
    The chip state changes whenever a transaction reached it. *)
Definition bh_chip_get_cm2dm_message (l : link) (s : Cm2DmMsgState)
  : Cm2DmMsgState * cm2dmMessageRet :=
  let s1 := if req_reaches l then req_message s else s in
  if req_reaches l && req_answered l then
    let m := curr_msg s1 in
    if negb (msg_id m =? 0) then
      let '(s2, r) :=
        if ack_reaches l then ack_message s1 (msg_id m) (seq_num m) else (s1, - EIO) in
      (s2, {| rmsg := m; ret := 0; ack_ret := if ack_answered l then r else - EIO |})
    else (s1, {| rmsg := m; ret := 0; ack_ret := -1 |})
  else (s1, {| rmsg := zero_message; ret := - EIO; ack_ret := -1 |}).

(** [process_cm2dm_message] of [app/dmc/src/main.c]. [done_] is the list of
    messages handed to their processor; [stop] is the processor's result. *)
Record dmc := { last_seq_valid : bool; last_seq : Z; done_ : list cm2dmMessage }.

Definition process_one (stop : cm2dmMessage -> bool) (l : link) (s : Cm2DmMsgState) (c : dmc)
  : Cm2DmMsgState * dmc * bool :=
  let '(s, r) := bh_chip_get_cm2dm_message l s in
  if negb (ret r =? 0) then (s, c, true)
  else if msg_id (rmsg r) =? 0 then (s, c, true)
  else if last_seq_valid c && (last_seq c =? seq_num (rmsg r)) then (s, c, false)
  else
    let c := {| last_seq_valid := true; last_seq := seq_num (rmsg r); done_ := done_ c |} in
    if msg_id (rmsg r) <? kCm2DmMsgCount
    then (s, {| last_seq_valid := true; last_seq := last_seq c; done_ := done_ c ++ [rmsg r] |},
          stop (rmsg r))
    else (s, c, false).

Fixpoint process_loop (n : nat) (stop : cm2dmMessage -> bool) (ls : list link)
    (s : Cm2DmMsgState) (c : dmc) : Cm2DmMsgState * dmc :=
  match n, ls with
  | S n, l :: ls =>
      let '(s, c, brk) := process_one stop l s c in
      if brk then (s, c) else process_loop n stop ls s c
  | _, _ => (s, c)
  end.

Definition process_cm2dm_message (stop : cm2dmMessage -> bool) (ls : list link)
    (s : Cm2DmMsgState) (c : dmc) : Cm2DmMsgState * dmc :=
  process_loop (Z.to_nat kCm2DmMsgCount) stop ls s c.

(** * Round-robin choice *)
Record wf_msgs (s : Cm2DmMsgState) : Prop := {
  wf_pending_pos : 0 <= pending_messages s;
  wf_pending : forall i, Z.testbit (pending_messages s) i = true -> 1 <= i < kCm2DmMsgCount;
  wf_rr : 0 <= rr s < kCm2DmMsgCount;
  wf_seq : in_width 8 (next_seq_num s);
  wf_slots : length (next_msgs s) = Z.to_nat kCm2DmMsgCount;
  wf_curr : match curr_msg_valid s with
            | false => curr_msg s = zero_message
            | true => 1 <= msg_id (curr_msg s) < kCm2DmMsgCount /\
                      in_width 8 (seq_num (curr_msg s)) /\
                      next_seq_num s = u8 (seq_num (curr_msg s) + 1)
            end;
}.

(** How far slot [j] is from the front of the round-robin order. *)
Definition rr_distance (r j : Z) : Z := (j - r) mod kCm2DmMsgCount.

Lemma rr_distance_ge r j :
  0 <= r < 10 -> 0 <= j < 10 -> rr_distance r j = if j <? r then j - r + 10 else j - r.
Proof.
  intros Hr Hj. unfold rr_distance, kCm2DmMsgCount. destruct (Z.ltb_spec j r).
  - symmetry. apply (Z.mod_unique_pos _ _ (-1)); lia.
  - apply Z.mod_small. lia.
Qed.

Lemma next_id_rr_spec s pending :
  0 < pending -> (forall i, Z.testbit pending i = true -> 0 <= i < 10) -> 0 <= rr s < 10 ->
  exists id, next_id_rr s pending = (id, (id + 1) mod 10) /\
    Z.testbit pending id = true /\
    forall j, Z.testbit pending j = true -> rr_distance (rr s) id <= rr_distance (rr s) j.
Proof.
  intros Hp Hbits Hrr. unfold next_id_rr.
  set (hi := Z.land pending (GENMASK 31 (rr s))).
  assert (Hhi : forall i, Z.testbit hi i = Z.testbit pending i && ((rr s <=? i) && (i <=? 31))).
  { intros i. unfold hi. rewrite Z.land_spec, testbit_GENMASK by lia. done. }
  assert (Hhi0 : 0 <= hi) by (apply Z.land_nonneg; lia).
  eexists. split; [done|]. destruct (Z.eqb_spec hi 0) as [Hz|Hz].
  - destruct (LOG2_LSB_GET pending Hp) as (_ & Hset & Hmin). split; [done|]. intros j Hj.
    assert (Hlow : forall i, Z.testbit pending i = true -> i < rr s).
    { intros i Hi. pose proof (Hhi i) as Hb. rewrite Hz, Z.bits_0, Hi in Hb.
      pose proof (Hbits i Hi). destruct (Z.leb_spec (rr s) i), (Z.leb_spec i 31); (lia || discriminate Hb). }
    rewrite !rr_distance_ge by (lia || by apply Hbits).
    pose proof (Hlow _ Hset). pose proof (Hlow _ Hj). pose proof (Hmin _ Hj).
    zcases.
  - destruct (LOG2_LSB_GET hi) as (_ & Hset & Hmin); [lia|].
    pose proof (Hhi (LOG2 (LSB_GET hi))) as Hb. rewrite Hset in Hb. symmetry in Hb.
    apply andb_true_iff in Hb as [Hb1 Hb2]. split; [done|]. intros j Hj.
    pose proof (Hbits j Hj). rewrite !rr_distance_ge by (lia || by apply Hbits).
    pose proof (Hbits _ Hb1). pose proof (Hhi j) as Hjhi. rewrite Hj in Hjhi.
    destruct (Z.ltb_spec j (rr s)).
    + zcases.
    + assert (Z.testbit hi j = true) as Hj' by (rewrite Hjhi; zcases).
      pose proof (Hmin j Hj'). zcases.
Qed.

Lemma id_num_range m : 0 <= id_num m < 10.
Proof. by destruct m. Qed.

Lemma pending_nonzero s : wf_msgs s -> pending_messages s <> 0 -> 0 < pending_messages s.
Proof. intros Hwf ?. pose proof (wf_pending_pos s Hwf). lia. Qed.

(** What a request does when it has to choose a message. *)
Lemma req_message_new s :
  wf_msgs s -> curr_msg_valid s = false -> pending_messages s <> 0 ->
  exists id, Z.testbit (pending_messages s) id = true /\
    (forall j, Z.testbit (pending_messages s) j = true ->
       rr_distance (rr s) id <= rr_distance (rr s) j) /\
    req_message s =
      {| pending_messages := Z.clearbit (pending_messages s) id; rr := (id + 1) mod 10;
         next_seq_num := u8 (next_seq_num s + 1); curr_msg_valid := true;
         curr_msg := {| msg_id := id; seq_num := next_seq_num s;
                        mdata := default 0 (zget (next_msgs s) id) |};
         next_msgs := next_msgs s |}.
Proof.
  intros Hwf Hv Hp.
  destruct (next_id_rr_spec s (pending_messages s)) as (id & Hn & Hset & Hmin).
  - by apply pending_nonzero.
  - intros i Hi. pose proof (wf_pending s Hwf i Hi). unfold kCm2DmMsgCount in *. lia.
  - apply wf_rr; done.
  - exists id. split_and!; [done..|]. unfold req_message. rewrite Hv.
    destruct (Z.eqb_spec (pending_messages s) 0); [done|]. unfold req_pick. rewrite Hn.
    unfold req_read. cbn. rewrite (wrap_id 8 id); [done|].
    pose proof (wf_pending s Hwf id Hset). unfold in_width, kCm2DmMsgCount in *. lia.
Qed.

Lemma req_message_wf s : wf_msgs s -> wf_msgs (req_message s).
Proof.
  intros Hwf. destruct (curr_msg_valid s) eqn:Hv; [unfold req_message; by rewrite Hv|].
  destruct (decide (pending_messages s = 0)) as [Hp|Hp].
  { unfold req_message. by rewrite Hv, Hp. }
  destruct (req_message_new s Hwf Hv Hp) as (id & Hset & _ & ->).
  pose proof (wf_pending s Hwf id Hset). destruct Hwf as [H1 H2 H3 H4 H5 H6].
  constructor; cbn; try done.
  - apply Z.ldiff_nonneg. by left.
  - intros i. destruct (decide (i = id)) as [->|Hne].
    + rewrite Z.clearbit_eq; done.
    + rewrite Z.clearbit_neq by done. apply H2.
  - by apply (Z.mod_pos_bound (id + 1) 10).
  - by apply wrap_in_width.
Qed.

Lemma ack_message_wf s id seq : wf_msgs s -> wf_msgs (ack_message s id seq).1.
Proof.
  intros [H1 H2 H3 H4 H5 H6]. unfold ack_message. destruct (_ && _); by constructor.
Qed.

Lemma post_wf s m d : m <> kCm2DmMsgIdNull -> wf_msgs s -> wf_msgs (PostCm2DmMsg s m d).
Proof.
  intros Hm [H1 H2 H3 H4 H5 H6]. constructor; cbn; try done.
  - apply Z.lor_nonneg. split; [done|]. apply Z.shiftl_nonneg. lia.
  - intros i Hi. destruct (decide (i = id_num m)) as [->|Hne].
    + by destruct m.
    + rewrite Z.setbit_neq in Hi by (done || by destruct m). by apply H2.
  - by rewrite length_insert.
Qed.

(** One exchange without bus errors: request, then acknowledge the answer. *)
Definition serve (s : Cm2DmMsgState) : Z * Cm2DmMsgState :=
  let s1 := req_message s in
  (msg_id (curr_msg s1), (ack_message s1 (msg_id (curr_msg s1)) (seq_num (curr_msg s1))).1).

Definition post_all (s : Cm2DmMsgState) (ps : list (Cm2DmMsgId * Z)) : Cm2DmMsgState :=
  foldl (λ s p, PostCm2DmMsg s p.1 p.2) s ps.

Fixpoint serve_rounds (s : Cm2DmMsgState) (rounds : list (list (Cm2DmMsgId * Z))) : list Z :=
  match rounds with
  | [] => []
  | ps :: rounds => let '(id, s') := serve (post_all s ps) in id :: serve_rounds s' rounds
  end.

Lemma post_all_keeps ps s :
  Forall (λ p, p.1 <> kCm2DmMsgIdNull) ps -> wf_msgs s ->
  wf_msgs (post_all s ps) /\ rr (post_all s ps) = rr s /\
  curr_msg_valid (post_all s ps) = curr_msg_valid s /\
  forall j, 0 <= j -> Z.testbit (pending_messages s) j = true ->
    Z.testbit (pending_messages (post_all s ps)) j = true.
Proof.
  revert s. induction ps as [|p ps IH]; intros s Hps Hwf; [done|].
  apply Forall_cons_1 in Hps as [Hp Hps].
  destruct (IH (PostCm2DmMsg s p.1 p.2) Hps (post_wf s p.1 p.2 Hp Hwf)) as (Hw & Hr & Hv & Hb).
  split_and!; [exact Hw | exact Hr | exact Hv |]. intros j Hj Hset. apply Hb; [done|]. cbn.
  pose proof (id_num_range p.1).
  destruct (decide (id_num p.1 = j)) as [<-|]; [by rewrite Z.setbit_eq|].
  by rewrite Z.setbit_neq by lia.
Qed.

Lemma serve_rounds_bound (n : nat) s rounds (m : Z) :
  Forall (Forall (λ p, p.1 <> kCm2DmMsgIdNull)) rounds -> wf_msgs s ->
  curr_msg_valid s = false -> Z.testbit (pending_messages s) m = true ->
  rr_distance (rr s) m < Z.of_nat n -> (n <= length rounds)%nat -> m ∈ serve_rounds s rounds.
Proof.
  revert s rounds. induction n as [|n IH]; intros s rounds Hps Hwf Hv Hset Hd Hl.
  { pose proof (Z.mod_pos_bound (m - rr s) 10). unfold rr_distance, kCm2DmMsgCount in Hd. lia. }
  destruct rounds as [|ps rounds]; [simpl in Hl; lia|]. cbn [serve_rounds].
  apply Forall_cons_1 in Hps as [Hp Hps].
  destruct (post_all_keeps ps s Hp Hwf) as (Hwf1 & Hrr1 & Hv1 & Hb1).
  pose proof (wf_pending s Hwf m Hset) as Hm.
  specialize (Hb1 m ltac:(lia) Hset). set (s1 := post_all s ps) in *.
  destruct (req_message_new s1 Hwf1) as (id & Hid & Hmin & Hreq).
  { congruence. } { intros Hz. by rewrite Hz, Z.bits_0 in Hb1. }
  pose proof (wf_pending s1 Hwf1 id Hid) as Hidr. unfold serve. rewrite Hreq. cbn.
  destruct (decide (id = m)) as [->|Hne]; [apply list_elem_of_here|]. apply list_elem_of_further.
  unfold ack_message. cbn. rewrite !Z.eqb_refl. cbn. apply IH; try done; cbn.
  - pose proof (ack_message_wf _ id (next_seq_num s1) (req_message_wf _ Hwf1)) as Hw.
    rewrite Hreq in Hw. unfold ack_message in Hw. cbn in Hw. by rewrite !Z.eqb_refl in Hw.
  - by rewrite Z.clearbit_neq.
  - specialize (Hmin m Hb1). pose proof (wf_rr s Hwf) as Hr. unfold kCm2DmMsgCount in *.
    rewrite Hrr1 in Hmin. rewrite !rr_distance_ge in * by lia.
    destruct (decide (id = 9)) as [->|].
    + change ((9 + 1) mod 10) with 0. rewrite rr_distance_ge by lia. zcases.
    + rewrite (Z.mod_small (id + 1)) by lia. rewrite rr_distance_ge by lia. zcases.
  - simpl in Hl. lia.
Qed.

(** C19. No starvation: once a message kind is pending and no message is
    outstanding, it is handed to the board controller within ten exchanges,
    whatever other messages keep being posted in between. *)
Theorem round_robin_no_starvation (s : Cm2DmMsgState) (m : Cm2DmMsgId)
    (rounds : list (list (Cm2DmMsgId * Z)))
    (Hwf : wf_msgs s) (Hv : curr_msg_valid s = false)
    (Hset : Z.testbit (pending_messages s) (id_num m) = true)
    (Hposts : Forall (Forall (λ p, p.1 <> kCm2DmMsgIdNull)) rounds)
    (Hl : (10 <= length rounds)%nat) :
  id_num m ∈ serve_rounds s rounds.
Proof.
  apply (serve_rounds_bound 10); try done.
  by apply (Z.mod_pos_bound (id_num m - rr s) 10).
Qed.

Definition initial_msgs : Cm2DmMsgState :=
  {| pending_messages := 0; rr := 0; next_seq_num := 0; curr_msg_valid := false;
     curr_msg := zero_message; next_msgs := replicate 10 0 |}.

Lemma initial_msgs_wf : wf_msgs initial_msgs.
Proof. constructor; cbn; try done. intros i. by rewrite Z.bits_0. Qed.

Lemma round_robin_no_starvation_witness :
  9 ∈ serve_rounds (PostCm2DmMsg initial_msgs kCm2DmMsgIdGddrThermTrip 1)
        (replicate 10 [(kCm2DmMsgIdPing, 7); (kCm2DmMsgIdResetReq, 3)]).
Proof.
  apply (round_robin_no_starvation _ kCm2DmMsgIdGddrThermTrip).
  - apply post_wf; [done | apply initial_msgs_wf].
  - reflexivity.
  - reflexivity.
  - apply Forall_replicate. repeat constructor; discriminate.
  - simpl. lia.
Defined.

(** * Exactly-once processing over a lossy bus *)

(** The chip, the controller, and the history of messages the chip has issued. *)
Record exchange := { ex_chip : Cm2DmMsgState; ex_dmc : dmc; ex_issued : list cm2dmMessage }.

(** The message a poll makes the chip issue, if any. *)
Definition issued_by (l : link) (s : Cm2DmMsgState) : list cm2dmMessage :=
  if req_reaches l && negb (curr_msg_valid s) && negb (pending_messages s =? 0)
  then [curr_msg (req_message s)] else [].

Inductive exchange_step : exchange -> exchange -> Prop :=
| chip_posts x m d :
    m <> kCm2DmMsgIdNull ->
    exchange_step x {| ex_chip := PostCm2DmMsg (ex_chip x) m d; ex_dmc := ex_dmc x;
                       ex_issued := ex_issued x |}
| controller_polls x stop l s' c' brk :
    process_one stop l (ex_chip x) (ex_dmc x) = (s', c', brk) ->
    exchange_step x {| ex_chip := s'; ex_dmc := c';
                       ex_issued := ex_issued x ++ issued_by l (ex_chip x) |}.

(** Where the two ends agree about the outstanding message. *)
Definition agree (s : Cm2DmMsgState) (c : dmc) (outstanding : list cm2dmMessage) : Prop :=
  match curr_msg_valid s with
  | true =>
      (outstanding = [] /\ last_seq_valid c = true /\ last_seq c = seq_num (curr_msg s)) \/
      (outstanding = [curr_msg s] /\
       (last_seq_valid c = true -> u8 (last_seq c + 1) = seq_num (curr_msg s)))
  | false =>
      outstanding = [] /\ (last_seq_valid c = true -> u8 (last_seq c + 1) = next_seq_num s)
  end.

Definition exchange_inv (x : exchange) : Prop :=
  wf_msgs (ex_chip x) /\
  exists outstanding,
    ex_issued x = done_ (ex_dmc x) ++ outstanding /\
    agree (ex_chip x) (ex_dmc x) outstanding.

Lemma agree_outstanding s c out : agree s c out -> (length out <= 1)%nat.
Proof.
  unfold agree. destruct (curr_msg_valid s).
  - intros [[-> _] | [-> _]]; simpl; lia.
  - intros [-> _]. simpl. lia.
Qed.

Lemma u8_succ_ne a : in_width 8 a -> u8 (a + 1) <> a.
Proof.
  intros Ha He. unfold in_width, wrap in *. destruct (decide (a = 255)) as [->|]; [done|].
  rewrite Z.mod_small in He by (change (2 ^ 8) with 256 in *; lia). lia.
Qed.

(** The chip side of a request: what it issues and how agreement changes. *)
Lemma request_agree l s c outstanding :
  wf_msgs s -> agree s c outstanding ->
  let s1 := if req_reaches l then req_message s else s in
  wf_msgs s1 /\ agree s1 c (outstanding ++ issued_by l s) /\
  (req_reaches l = true -> curr_msg_valid s1 = false -> msg_id (curr_msg s1) = 0).
Proof.
  intros Hwf Hag. unfold issued_by. destruct (req_reaches l); cbn; [|by rewrite app_nil_r].
  split; [by apply req_message_wf|].
  destruct (curr_msg_valid s) eqn:Hv; cbn.
  { unfold req_message. rewrite Hv, app_nil_r. split; [done|]. by rewrite Hv. }
  destruct (Z.eqb_spec (pending_messages s) 0) as [Hp|Hp]; cbn.
  { assert (req_message s = s) as -> by (unfold req_message; by rewrite Hv, Hp).
    rewrite app_nil_r. split; [done|]. intros _ _. pose proof (wf_curr s Hwf) as Hc.
    rewrite Hv in Hc. by rewrite Hc. }
  destruct (req_message_new s Hwf Hv Hp) as (id & _ & _ & ->). unfold agree in *.
  rewrite Hv in Hag. destruct Hag as [-> Hs]. cbn. split; [by right | done].
Qed.

(** Acknowledging the current message. *)
Lemma ack_agree s c :
  wf_msgs s -> curr_msg_valid s = true -> agree s c [] ->
  agree (ack_message s (msg_id (curr_msg s)) (seq_num (curr_msg s))).1 c [].
Proof.
  intros Hwf Hv Hag. pose proof (wf_curr s Hwf) as Hc. rewrite Hv in Hc.
  destruct Hc as (_ & _ & Hn). unfold agree in Hag. rewrite Hv in Hag.
  unfold ack_message. rewrite Hv, !Z.eqb_refl. unfold agree. cbn.
  destruct Hag as [(_ & _ & Hl) | [? _]]; [|done]. split; [done|]. intros _. congruence.
Qed.

Lemma ack_agree_unseen s c :
  wf_msgs s -> agree s c [curr_msg s] ->
  curr_msg_valid s = true ->
  agree s {| last_seq_valid := true; last_seq := seq_num (curr_msg s);
             done_ := done_ c ++ [curr_msg s] |} [].
Proof. intros Hwf Hag Hv. unfold agree. rewrite Hv. by left. Qed.

Lemma process_one_inv stop l s c outstanding s' c' brk :
  wf_msgs s -> agree s c outstanding -> process_one stop l s c = (s', c', brk) ->
  wf_msgs s' /\ exists outstanding',
    done_ c ++ outstanding ++ issued_by l s = done_ c' ++ outstanding' /\
    agree s' c' outstanding'.
Proof.
  intros Hwf Hag. destruct (request_agree l s c outstanding Hwf Hag) as (Hwf1 & Hag1 & Hnull).
  unfold process_one, bh_chip_get_cm2dm_message.
  set (s1 := if req_reaches l then req_message s else s) in *.
  set (out := outstanding ++ issued_by l s) in *.
  destruct (req_reaches l && req_answered l) eqn:Hreq; cbn [ret].
  2: { intros [= <- <- <-]. eauto. }
  apply andb_true_iff in Hreq as [Hreach _].
  destruct (Z.eqb_spec (msg_id (curr_msg s1)) 0) as [Hz|Hz]; cbn [negb].
  { cbn. rewrite Hz. cbn. intros [= <- <- <-]. eauto. }
  destruct (curr_msg_valid s1) eqn:Hv; [|by specialize (Hnull Hreach eq_refl)].
  pose proof (wf_curr s1 Hwf1) as Hc. rewrite Hv in Hc. destruct Hc as (Hid & Hseq & Hnext).
  set (m := curr_msg s1) in *.
  (* Whether the acknowledgement arrives only decides between [s1] and the acked state. *)
  assert (Hack : exists s2 r, (if ack_reaches l then ack_message s1 (msg_id m) (seq_num m)
      else (s1, - EIO)) = (s2, r) /\ wf_msgs s2 /\ forall c2, agree s1 c2 [] -> agree s2 c2 []).
  { destruct (ack_reaches l); [|by exists s1, (- EIO)].
    pose proof (ack_message_wf s1 (msg_id m) (seq_num m) Hwf1) as Hw.
    pose proof (λ c2, ack_agree s1 c2 Hwf1 Hv) as Ha. fold m in Ha.
    destruct (ack_message s1 (msg_id m) (seq_num m)) as [s2 r]. eauto. }
  destruct Hack as (s2 & r & -> & Hwf2 & Hag2). cbn [ret rmsg Z.eqb negb].
  destruct (Z.eqb_spec (msg_id m) 0); [done|].
  unfold agree in Hag1. rewrite Hv in Hag1.
  destruct (last_seq_valid c && (last_seq c =? seq_num m)) eqn:Hdup.
  - apply andb_true_iff in Hdup as [Hlv Hls]. apply Z.eqb_eq in Hls.
    intros [= <- <- <-]. split; [done|]. exists [].
    destruct Hag1 as [(Ho & _ & _) | [_ Hs]].
    + rewrite Ho. split; [done|]. apply Hag2. unfold agree. rewrite Hv. by left.
    + specialize (Hs Hlv). rewrite Hls in Hs. by destruct (u8_succ_ne _ Hseq).
  - destruct (Z.ltb_spec (msg_id m) kCm2DmMsgCount); [|lia].
    intros [= <- <- <-]. split; [done|]. exists [].
    destruct Hag1 as [(_ & Hlv & Hls) | [Ho _]].
    + fold m in Hls. by rewrite Hlv, Hls, Z.eqb_refl in Hdup.
    + cbn. rewrite Ho, app_nil_r. split; [done|]. apply Hag2. unfold agree. rewrite Hv. by left.
Qed.

Lemma exchange_step_inv x x' : exchange_inv x -> exchange_step x x' -> exchange_inv x'.
Proof.
  intros [Hwf (out & Hi & Hag)] Hstep.
  destruct Hstep as [x m d Hm | x stop l s' c' brk Hp]; cbn.
  - split; [by apply post_wf|]. exists out. done.
  - destruct (process_one_inv _ _ _ _ _ _ _ _ Hwf Hag Hp) as (Hwf' & out' & He & Hag').
    split; [done|]. exists out'. cbn. by rewrite Hi, <- app_assoc.
Qed.

(** The controller's poll loop is a sequence of such steps. *)
Lemma process_loop_steps n stop ls s c iss :
  exists iss', rtc exchange_step
    {| ex_chip := s; ex_dmc := c; ex_issued := iss |}
    {| ex_chip := (process_loop n stop ls s c).1; ex_dmc := (process_loop n stop ls s c).2;
       ex_issued := iss' |}.
Proof.
  revert ls s c iss. induction n as [|n IH]; intros ls s c iss; [exists iss; apply rtc_refl|].
  destruct ls as [|l ls]; [exists iss; apply rtc_refl|]. cbn [process_loop].
  destruct (process_one stop l s c) as [[s1 c1] brk] eqn:Hp.
  pose proof (controller_polls {| ex_chip := s; ex_dmc := c; ex_issued := iss |}
    stop l s1 c1 brk Hp) as Hstep. cbn in Hstep.
  destruct brk; [eexists; by apply rtc_once|].
  destruct (IH ls s1 c1 (iss ++ issued_by l s)) as [iss' Hr].
  exists iss'. by eapply rtc_l.
Qed.

(** C18. Exactly-once delivery. However requests, answers and acknowledgements
    get lost on the bus, and whatever the chip posts in between, after every run
    of the controller's poll loop the messages it has processed are the messages
    the chip has issued, in order and without repetition, except possibly for the
    last one, which is still outstanding. *)
Theorem exactly_once (stop : cm2dmMessage -> bool) (ls : list link) (x0 x : exchange)
    (Hinit : wf_msgs (ex_chip x0) /\ curr_msg_valid (ex_chip x0) = false)
    (Hdmc : last_seq_valid (ex_dmc x0) = false)
    (Hnone : ex_issued x0 = [] /\ done_ (ex_dmc x0) = [])
    (Hsteps : rtc exchange_step x0 x) :
  exists x', rtc exchange_step x x' /\
    (ex_chip x', ex_dmc x') = process_cm2dm_message stop ls (ex_chip x) (ex_dmc x) /\
    exists outstanding,
      ex_issued x' = done_ (ex_dmc x') ++ outstanding /\ (length outstanding <= 1)%nat.
Proof.
  assert (H0 : exchange_inv x0).
  { destruct Hinit as [Hwf Hv], Hnone as [Hi Hd]. split; [done|]. exists [].
    rewrite Hi, Hd. split; [done|]. unfold agree. rewrite Hv, Hdmc. done. }
  destruct (process_loop_steps (Z.to_nat kCm2DmMsgCount) stop ls (ex_chip x) (ex_dmc x)
    (ex_issued x)) as [iss' Hr].
  assert (Hx : {| ex_chip := ex_chip x; ex_dmc := ex_dmc x; ex_issued := ex_issued x |} = x)
    by (by destruct x).
  rewrite Hx in Hr. eexists. split; [exact Hr|]. split.
  { cbn. symmetry. apply surjective_pairing. }
  assert (Hall : forall a b, rtc exchange_step a b -> exchange_inv a -> exchange_inv b).
  { intros a b. induction 1; eauto using exchange_step_inv. }
  assert (Hxr : rtc exchange_step x0 _) by (etrans; [exact Hsteps | exact Hr]).
  destruct (Hall _ _ Hxr H0) as [_ (out & Hi & Hag)].
  exists out. split; [done | by eapply agree_outstanding].
Qed.

(** Two messages; the first acknowledgement is lost, so the first message is
    seen twice and processed once. *)
Definition lossy : list link :=
  [{| req_reaches := true; req_answered := true; ack_reaches := false; ack_answered := false |};
   {| req_reaches := true; req_answered := true; ack_reaches := true; ack_answered := true |};
   {| req_reaches := true; req_answered := true; ack_reaches := true; ack_answered := true |}].
Definition exchange0 : exchange :=
  {| ex_chip := initial_msgs; ex_dmc := {| last_seq_valid := false; last_seq := 0; done_ := [] |};
     ex_issued := [] |}.
Definition exchange1 : exchange :=
  {| ex_chip := PostCm2DmMsg (PostCm2DmMsg initial_msgs kCm2DmMsgIdPing 1)
                  kCm2DmMsgIdFanSpeedUpdate 35;
     ex_dmc := ex_dmc exchange0; ex_issued := [] |}.

Lemma exactly_once_witness :
  done_ (process_cm2dm_message (λ _, false) lossy (ex_chip exchange1) (ex_dmc exchange1)).2
    = [{| msg_id := 2; seq_num := 0; mdata := 1 |}; {| msg_id := 3; seq_num := 1; mdata := 35 |}] /\
  exists x', rtc exchange_step exchange1 x' /\
    (ex_chip x', ex_dmc x')
      = process_cm2dm_message (λ _, false) lossy (ex_chip exchange1) (ex_dmc exchange1) /\
    exists outstanding,
      ex_issued x' = done_ (ex_dmc x') ++ outstanding /\ (length outstanding <= 1)%nat.
Proof.
  split; [reflexivity|].
  apply (exactly_once (λ _, false) lossy exchange0 exchange1).
  - split; [apply initial_msgs_wf | reflexivity].
  - reflexivity.
  - split; reflexivity.
  - eapply rtc_l; [apply (chip_posts exchange0 kCm2DmMsgIdPing 1); discriminate|].
    eapply rtc_l; [|apply rtc_refl].
    apply (chip_posts {| ex_chip := PostCm2DmMsg initial_msgs kCm2DmMsgIdPing 1;
      ex_dmc := ex_dmc exchange0; ex_issued := [] |} kCm2DmMsgIdFanSpeedUpdate 35). discriminate.
Defined.

(** * The final value is always sent *)

(** Posters and the request handler run concurrently, one shared access at a
    time: a poster writes the slot and then sets the bit; the handler clears the
    bit and then reads the slot. [inflight] are the posters between their two
    writes, [picked] the handler between its two accesses, [sent] what the
    handler has read, newest first, [written] the kinds posted so far. *)
Record conc := {
  cs : Cm2DmMsgState;
  inflight : list Cm2DmMsgId;
  picked : option Z;
  sent_ : list (Z * Z);
  written : list Cm2DmMsgId;
}.

Definition conc_write (x : conc) (m : Cm2DmMsgId) (d : Z) : conc :=
  {| cs := post_write (cs x) m d; inflight := m :: inflight x; picked := picked x;
     sent_ := sent_ x; written := m :: written x |}.
Definition conc_set (x : conc) (m : Cm2DmMsgId) (rest : list Cm2DmMsgId) : conc :=
  {| cs := post_set_bit (cs x) m; inflight := rest; picked := picked x;
     sent_ := sent_ x; written := written x |}.
Definition conc_pick (x : conc) : conc :=
  {| cs := (req_pick (cs x)).2; inflight := inflight x; picked := Some (req_pick (cs x)).1;
     sent_ := sent_ x; written := written x |}.
Definition conc_read (x : conc) (id : Z) : conc :=
  {| cs := req_read (cs x) id; inflight := inflight x; picked := None;
     sent_ := (id, mdata (curr_msg (req_read (cs x) id))) :: sent_ x; written := written x |}.
Definition conc_ack (x : conc) (id seq : Z) : conc :=
  {| cs := (ack_message (cs x) id seq).1; inflight := inflight x; picked := picked x;
     sent_ := sent_ x; written := written x |}.

Inductive conc_step : conc -> conc -> Prop :=
| c_write x m d : conc_step x (conc_write x m d)
| c_set x m l1 l2 : inflight x = l1 ++ m :: l2 -> conc_step x (conc_set x m (l1 ++ l2))
| c_pick x :
    picked x = None -> curr_msg_valid (cs x) = false -> pending_messages (cs x) <> 0 ->
    conc_step x (conc_pick x)
| c_read x id : picked x = Some id -> conc_step x (conc_read x id)
| c_ack x id seq : conc_step x (conc_ack x id seq).

Definition slot_value (s : Cm2DmMsgState) (m : Cm2DmMsgId) : Z :=
  default 0 (zget (next_msgs s) (id_num m)).
Definition last_sent (m : Cm2DmMsgId) (l : list (Z * Z)) : option Z :=
  (λ p : nat * (Z * Z), p.2.2) <$> list_find (λ p, p.1 = id_num m) l.

(** Every posted kind is announced, about to be announced, about to be read, or
    its current value is the last one that was sent. *)
Definition value_safe (x : conc) (m : Cm2DmMsgId) : Prop :=
  Z.testbit (pending_messages (cs x)) (id_num m) = true \/ m ∈ inflight x \/
  picked x = Some (id_num m) \/ last_sent m (sent_ x) = Some (slot_value (cs x) m).

#[global] Instance Cm2DmMsgId_eq_dec : EqDecision Cm2DmMsgId.
Proof. solve_decision. Defined.

Lemma id_num_inj m m' : id_num m = id_num m' -> m = m'.
Proof. by destruct m, m'. Qed.

Lemma value_safe_step x x' m :
  conc_step x x' -> (m ∈ written x -> value_safe x m) -> m ∈ written x' -> value_safe x' m.
Proof.
  intros Hstep IH Hm. pose proof (id_num_range m) as Hr.
  destruct Hstep as [x m' d | x m' l1 l2 Hi | x Hp Hv Hnz | x id Hp | x id seq];
    unfold value_safe, conc_write, conc_set, conc_pick, conc_read, conc_ack in *;
    cbn [cs inflight picked sent_ written] in *.
  - destruct (decide (m' = m)) as [->|Hne]; [right; left; apply list_elem_of_here|].
    apply elem_of_cons in Hm as [->|Hm]; [done|].
    destruct (IH Hm) as [H|[H|[H|H]]]; [by left | | by right; right; left | ].
    + right. left. by apply list_elem_of_further.
    + right. right. right. rewrite H. f_equal. unfold slot_value, zget. cbn.
      destruct (id_num m <? 0); [done|]. f_equal. symmetry. apply list_lookup_insert_ne.
      pose proof (id_num_range m'). intros He. apply Hne, id_num_inj, Z2Nat.inj; (done || lia).
  - pose proof (id_num_range m'). destruct (decide (m' = m)) as [->|Hne].
    + left. cbn. by rewrite Z.setbit_eq by lia.
    + destruct (IH Hm) as [H'|[H'|[H'|H']]]; [| |by right; right; left | by right; right; right].
      * left. cbn. rewrite Z.setbit_neq; [done | lia |]. intros He. by apply Hne, id_num_inj.
      * right. left. rewrite Hi in H'. apply elem_of_app. apply elem_of_app in H' as [H'|H'];
          [by left|]. apply elem_of_cons in H' as [->|H']; [done | by right].
  - unfold req_pick in *. destruct (next_id_rr _ _) as [id0 rr'] eqn:E. cbn [fst snd] in *.
    destruct (IH Hm) as [H'|[H'|[H'|H']]]; [|by right; left | congruence | by right; right; right].
    destruct (decide (id0 = id_num m)) as [->|Hne]; [by right; right; left|].
    left. cbn. by rewrite Z.clearbit_neq.
  - destruct (decide (id = id_num m)) as [->|Hne].
    + right. right. right. unfold last_sent. cbn. rewrite decide_True by done. done.
    + destruct (IH Hm) as [H'|[H'|[H'|H']]]; [by left | by right; left | congruence |].
      right. right. right. unfold last_sent in *. cbn. rewrite decide_False by done.
      change (slot_value (req_read (cs x) id) m) with (slot_value (cs x) m).
      rewrite <- H'. by destruct (list_find _ (sent_ x)) as [[? ?]|].
  - unfold ack_message. destruct (_ && _); cbn; auto.
Qed.

(** "We might send the same data twice, but we'll always send the final
    value": under every interleaving of posters, request handler and
    acknowledgements at the granularity of single shared accesses, once no post
    and no request is half done and nothing is pending, the last value sent for
    every posted message kind is the value its slot holds. *)
Theorem final_value_sent (x0 x : conc) (m : Cm2DmMsgId)
    (Hinit : written x0 = []) (Hsteps : rtc conc_step x0 x)
    (Hposted : m ∈ written x)
    (Hquiet : pending_messages (cs x) = 0 /\ inflight x = [] /\ picked x = None) :
  last_sent m (sent_ x) = Some (slot_value (cs x) m).
Proof.
  assert (Hall : forall a b, rtc conc_step a b -> (m ∈ written a -> value_safe a m) ->
                             m ∈ written b -> value_safe b m).
  { intros a b. induction 1 as [a|a b c Hab _ IH]; [done|]. intros Ha.
    apply IH. intros Hb. by apply (value_safe_step a b). }
  destruct Hquiet as (Hp & Hi & Hk).
  destruct (Hall x0 x Hsteps) as [H|[H|[H|H]]]; [| done | | | | done].
  - rewrite Hinit. by intros ?%elem_of_nil.
  - by rewrite Hp, Z.bits_0 in H.
  - rewrite Hi in H. by apply elem_of_nil in H.
  - by rewrite Hk in H.
Qed.

Definition conc0 : conc :=
  {| cs := initial_msgs; inflight := []; picked := None; sent_ := []; written := [] |}.

(** A second post overtakes the first request between its two accesses. *)
Definition conc_mid : conc :=
  conc_write (conc_pick (conc_set (conc_write conc0 kCm2DmMsgIdFanSpeedUpdate 50)
    kCm2DmMsgIdFanSpeedUpdate [])) kCm2DmMsgIdFanSpeedUpdate 60.
Definition conc_end : conc :=
  conc_read (conc_pick (conc_ack (conc_set (conc_read conc_mid 3)
    kCm2DmMsgIdFanSpeedUpdate []) 3 0)) 3.

Lemma conc_end_reachable : rtc conc_step conc0 conc_end.
Proof.
  assert (Hmid : rtc conc_step conc0 conc_mid).
  { eapply rtc_l; [apply c_write|].
    eapply rtc_l; [apply (c_set _ kCm2DmMsgIdFanSpeedUpdate [] []); reflexivity|].
    eapply rtc_l; [apply c_pick; [reflexivity | reflexivity | discriminate]|].
    eapply rtc_l; [apply c_write|]. apply rtc_refl. }
  etrans; [exact Hmid|].
  eapply rtc_l; [apply (c_read _ 3); reflexivity|].
  eapply rtc_l; [apply (c_set _ kCm2DmMsgIdFanSpeedUpdate [] []); reflexivity|].
  eapply rtc_l; [apply (c_ack _ 3 0)|].
  eapply rtc_l; [apply c_pick; [reflexivity | reflexivity | vm_compute; discriminate]|].
  eapply rtc_l; [apply (c_read _ 3); reflexivity|]. apply rtc_refl.
Qed.

Lemma final_value_sent_witness :
  sent_ conc_end = [(3, 60); (3, 60)] /\
  last_sent kCm2DmMsgIdFanSpeedUpdate (sent_ conc_end)
    = Some (slot_value (cs conc_end) kCm2DmMsgIdFanSpeedUpdate).
Proof.
  split; [reflexivity|].
  apply (final_value_sent conc0 conc_end); [reflexivity | apply conc_end_reachable | |].
  - apply list_elem_of_here.
  - split_and!; reflexivity.
Defined.

(** * The firmware's command table meets the engine's contract *)
Lemma overwrite_length (buf bs : list Z) :
  length buf = 64%nat -> (length bs <= 64)%nat -> length (overwrite buf 0 bs) = 64%nat.
Proof.
  intros Hb Hl. unfold overwrite. rewrite !length_app, length_take, length_drop. lia.
Qed.

(** Closes the obligations of [cmd_ok] for one table entry. *)
Ltac solve_cmd :=
  constructor; cbn; try (by intros []); try (by intros _; eexists);
  intros _; eexists; (split; [reflexivity|]);
  intros ???????? H; injection H as <- <- <- <-;
  (split; [apply overwrite_length; [done|]; cbn; rewrite ?length_app, ?le_bytes_length;
           vm_compute; lia
          | intros _; vm_compute; done]).

Section table_ok.
Context (crc8 : Z -> Z -> Z) (t : telemetry) (additional : Z).

Lemma smbus_cmds_ok : Forall (λ e : Z * smbus_cmd_def smc, cmd_ok e.2)
                        (smbus_cmds crc8 t additional).
Proof. repeat (constructor; [solve_cmd|]). constructor. Qed.

(** Registration only adds table entries. *)
Lemma register_cmds_loop_get ready (d : smbus_target_data smc) cmds cmd c :
  get_cmd_def (register_cmds_loop ready d cmds).1 cmd = Some c ->
  get_cmd_def d cmd = Some c \/ c ∈ cmds.*2.
Proof.
  revert d. induction cmds as [|[k def] cmds IH]; intros d; [by left|].
  cbn [register_cmds_loop]. destruct (smbus_target_register_cmd ready d k def) as [d1 rc] eqn:Hr.
  assert (Hd1 : get_cmd_def d1 cmd = Some c -> get_cmd_def d cmd = Some c \/ c = def).
  { unfold smbus_target_register_cmd in Hr. destruct (negb ready); simplify_eq; [by left|].
    unfold get_cmd_def, zget. cbn. destruct (cmd <? 0); [by left|]. cbn.
    destruct (decide (Z.to_nat cmd = Z.to_nat k /\ (Z.to_nat k < length (cmd_defs d))%nat))
      as [[-> Hlt]|Hn].
    - rewrite list_lookup_insert_eq by done. intros [= ->]. by right.
    - destruct (decide (Z.to_nat cmd = Z.to_nat k)) as [He|Hne].
      + rewrite list_insert_ge by lia. by left.
      + rewrite list_lookup_insert_ne by done. by left. }
  destruct (rc <? 0); [|intros Hg; destruct (IH d1 Hg) as [Hg'|Hin]].
  - cbn. intros Hg. destruct (Hd1 Hg) as [H0| ->]; [by left | right; left].
  - destruct (Hd1 Hg') as [H0| ->]; [by left | right; left].
  - right. by right.
Qed.

Lemma register_cmds_loop_rest ready (d : smbus_target_data smc) cmds :
  let d' := (register_cmds_loop ready d cmds).1 in
  received_data d' = received_data d /\ send_data d' = send_data d /\ state d' = state d /\
  rcv_index d' = rcv_index d /\ send_index d' = send_index d.
Proof.
  revert d. induction cmds as [|[k def] cmds IH]; intros d; [done|].
  cbn [register_cmds_loop]. unfold smbus_target_register_cmd. destruct ready; cbn [negb].
  - cbn. apply (IH (set_cmd_defs d _)).
  - cbn. done.
Qed.

(** C20. The SMBus engine of the chip firmware is memory safe: starting from the
    device's zero-initialised state, after [InitSmbusTarget] has registered the
    firmware's own command table, no polite sequence of bus events can make the
    engine or the handlers' buffers go out of bounds or call a null handler. *)
Theorem smc_engine_safe (w : smc) (ready : bool) (bus_ret : Z) (d : smbus_target_data smc)
    (es : list bus_event)
    (Hfresh : forall cmd, get_cmd_def d cmd = None)
    (Hidle : state d = SMBUS_STATE_IDLE /\ rcv_index d = 0 /\ send_index d = 0)
    (Hbufs : length (received_data d) = 64%nat /\ length (send_data d) = 64%nat)
    (Hp : polite_run crc8 (w, InitSmbusTarget crc8 t additional ready bus_ret d) es) :
  exists w' d' out,
    bus_run crc8 (w, InitSmbusTarget crc8 t additional ready bus_ret d) es = Some (w', d', out) /\
    wf_target d' /\ length out = length es.
Proof.
  apply bus_run_wf; [|done]. clear Hp.
  destruct Hidle as (Hs & Hr & Hsi), Hbufs as [Hrb Hsb].
  assert (Hd : wf_target d).
  { constructor; [done | done | by intros cmd c; rewrite Hfresh|]. unfold state_ok. by rewrite Hs. }
  unfold InitSmbusTarget. destruct ready; cbn [negb]; [|done]. destruct (bus_ret <? 0); [done|].
  unfold smbus_target_register_cmds.
  destruct (register_cmds_loop_rest true d (smbus_cmds crc8 t additional))
    as (E1 & E2 & E3 & E4 & E5).
  constructor; [by rewrite E1 | by rewrite E2 | |].
  - intros cmd c Hc. destruct (register_cmds_loop_get _ _ _ _ _ Hc) as [Hg|Hin].
    + by rewrite Hfresh in Hg.
    + apply list_elem_of_fmap in Hin as (e & -> & He).
      pose proof smbus_cmds_ok as Hok. rewrite Forall_forall in Hok. apply Hok. by apply list_elem_of_In.
  - unfold state_ok. rewrite E3, Hs, E4, E5. done.
Qed.
End table_ok.

Definition smc0 : smc :=
  {| cm2dm := initial_msgs; dmfw_ping_sem := 0; power := 0; telemetry_reg := 0;
     chip_reset_asic_called := false; chip_reset_dmc_called := false; reset_type := 0;
     fw_scratch := 0; calls := [] |}.
Definition fresh_target : smbus_target_data smc :=
  {| address := 0x0A; cmd_defs := replicate 256 None; error_count := 0;
     state := SMBUS_STATE_IDLE; command := 0; blocksize_r := 0; blocksize_w := 0;
     rcv_index := 0; send_index := 0; received_data := replicate 64 0;
     send_data := replicate 64 0 |}.
Definition no_telemetry : telemetry :=
  {| GetTelemetryTagValid _ := false; GetTelemetryTag _ := 0xFFFFFFFF |}.

Lemma smc_engine_safe_witness :
  exists w' d' out,
    bus_run demo_crc (smc0, InitSmbusTarget demo_crc no_telemetry 0 true 0 fresh_target)
      [ev_write_requested; ev_write 0x10; ev_read; ev_read; ev_stop] = Some (w', d', out) /\
    wf_target d' /\ length out = 5%nat.
Proof.
  apply (smc_engine_safe demo_crc no_telemetry 0 smc0 true 0 fresh_target
    [ev_write_requested; ev_write 0x10; ev_read; ev_read; ev_stop]).
  - intros cmd. unfold get_cmd_def, zget. destruct (cmd <? 0); [reflexivity|].
    change (cmd_defs fresh_target) with (@replicate (option (smbus_cmd_def smc)) 256 None).
    destruct (_ !! _) as [o|] eqn:E; [|reflexivity].
    apply lookup_replicate_1 in E as [-> _]. reflexivity.
  - split; [reflexivity | split; reflexivity].
  - split; reflexivity.
  - vm_compute. repeat split; auto.
Defined.
