(* ===== verification/VUart.v ===== *)
(** The virtual UART: the shared-memory rings of
    [include/tenstorrent/uart_tt_virt.h] and the driver
    [drivers/serial/uart_tt_virt.c] on top of them.

    Device and host share a descriptor with two byte rings, indexed by 32-bit
    counters that are only ever incremented and may wrap. An access outside
    [buf], or a remainder by a zero capacity, is [None]. The build without
    [CONFIG_UART_TT_VIRT_TX_BLOCK] is modelled (its Kconfig default). *)
From S2P Require Import Prelude Ring.
From stdpp Require Import prelude list numbers.
Open Scope Z_scope.

Inductive tt_vuart_role := TT_VUART_ROLE_DEVICE | TT_VUART_ROLE_HOST.

Record tt_vuart := {
  magic : Z;
  rx_cap : Z;
  rx_head : Z;
  rx_tail : Z;
  tx_cap : Z;
  tx_head : Z;
  tx_oflow : Z;
  tx_tail : Z;
  version : Z;
  buf : list Z;
}.
Implicit Types (v : tt_vuart).

Definition with_rx_head v x :=
  {| magic := magic v; rx_cap := rx_cap v; rx_head := x; rx_tail := rx_tail v;
     tx_cap := tx_cap v; tx_head := tx_head v; tx_oflow := tx_oflow v; tx_tail := tx_tail v;
     version := version v; buf := buf v |}.
Definition with_rx_tail v x :=
  {| magic := magic v; rx_cap := rx_cap v; rx_head := rx_head v; rx_tail := x;
     tx_cap := tx_cap v; tx_head := tx_head v; tx_oflow := tx_oflow v; tx_tail := tx_tail v;
     version := version v; buf := buf v |}.
Definition with_tx_head v x :=
  {| magic := magic v; rx_cap := rx_cap v; rx_head := rx_head v; rx_tail := rx_tail v;
     tx_cap := tx_cap v; tx_head := x; tx_oflow := tx_oflow v; tx_tail := tx_tail v;
     version := version v; buf := buf v |}.
Definition with_tx_tail v x :=
  {| magic := magic v; rx_cap := rx_cap v; rx_head := rx_head v; rx_tail := rx_tail v;
     tx_cap := tx_cap v; tx_head := tx_head v; tx_oflow := tx_oflow v; tx_tail := x;
     version := version v; buf := buf v |}.
Definition with_tx_oflow v x :=
  {| magic := magic v; rx_cap := rx_cap v; rx_head := rx_head v; rx_tail := rx_tail v;
     tx_cap := tx_cap v; tx_head := tx_head v; tx_oflow := x; tx_tail := tx_tail v;
     version := version v; buf := buf v |}.
Definition with_buf v b :=
  {| magic := magic v; rx_cap := rx_cap v; rx_head := rx_head v; rx_tail := rx_tail v;
     tx_cap := tx_cap v; tx_head := tx_head v; tx_oflow := tx_oflow v; tx_tail := tx_tail v;
     version := version v; buf := b |}.

Definition tt_vuart_inst v : Z := Z.shiftr (version v) 24.
Definition tt_vuart_buf_size (head tail : Z) : Z := u32 (tail - head).
Definition tt_vuart_buf_space (head tail cap : Z) : Z := u32 (cap - tt_vuart_buf_size head tail).
Definition tt_vuart_buf_empty (head tail : Z) : bool := tt_vuart_buf_size head tail =? 0.
Definition tt_vuart_buf_full (head tail cap : Z) : bool := tt_vuart_buf_size head tail =? cap.

(** The ring a role reads from: head, tail, capacity, offset of its buffer. *)
Definition in_ring v (role : tt_vuart_role) : Z * Z * Z * Z :=
  match role with
  | TT_VUART_ROLE_DEVICE => (rx_head v, rx_tail v, rx_cap v, tx_cap v)
  | TT_VUART_ROLE_HOST => (tx_head v, tx_tail v, tx_cap v, 0)
  end.
Definition out_ring v (role : tt_vuart_role) : Z * Z * Z * Z :=
  match role with
  | TT_VUART_ROLE_DEVICE => (tx_head v, tx_tail v, tx_cap v, 0)
  | TT_VUART_ROLE_HOST => (rx_head v, rx_tail v, rx_cap v, tx_cap v)
  end.
Definition set_in_head v (role : tt_vuart_role) x :=
  match role with TT_VUART_ROLE_DEVICE => with_rx_head v x | TT_VUART_ROLE_HOST => with_tx_head v x end.
Definition set_out_tail v (role : tt_vuart_role) x :=
  match role with TT_VUART_ROLE_DEVICE => with_tx_tail v x | TT_VUART_ROLE_HOST => with_rx_tail v x end.

(** [buf[offs + ctr % cap]]. *)
Definition ring_index (offs ctr cap : Z) : option Z :=
  if cap =? 0 then None else Some (u32 (offs + ctr mod cap)).
Definition buf_read v (offs ctr cap : Z) : option Z :=
  match ring_index offs ctr cap with None => None | Some i => zget (buf v) i end.
Definition buf_write v (offs ctr cap c : Z) : option tt_vuart :=
  match ring_index offs ctr cap with
  | None => None
  | Some i => match zset (buf v) i c with None => None | Some b => Some (with_buf v b) end
  end.

(** [tt_vuart_poll_in]: the result is the byte, or -1. Alone, the
    compare-and-exchange succeeds the first time round. *)
Definition tt_vuart_poll_in v (role : tt_vuart_role) : option (Z * tt_vuart) :=
  let '(head, tail, cap, offs) := in_ring v role in
  if tt_vuart_buf_empty head tail then Some (-1, v)
  else match buf_read v offs head cap with
       | None => None
       | Some ch => Some (ch, set_in_head v role (u32 (head + 1)))
       end.

Definition is_device (role : tt_vuart_role) : bool :=
  match role with TT_VUART_ROLE_DEVICE => true | TT_VUART_ROLE_HOST => false end.

Definition tt_vuart_poll_out v (out_char : Z) (role : tt_vuart_role) : option tt_vuart :=
  let '(head, tail, cap, offs) := out_ring v role in
  if is_device role && tt_vuart_buf_full head tail cap
  then Some (with_tx_oflow v (u32 (tx_oflow v + 1)))
  else match buf_write v offs tail cap out_char with
       | None => None
       | Some v' => Some (set_out_tail v' role (u32 (tail + 1)))
       end.

(** ** The driver *)
Record uart_config := { parity : Z; stop_bits : Z; data_bits : Z; flow_ctrl : Z }.
(** Zephyr's [uart.h] ranges. *)
Definition UART_CFG_PARITY_NONE : Z := 0.
Definition UART_CFG_PARITY_SPACE : Z := 4.
Definition UART_CFG_STOP_BITS_0_5 : Z := 0.
Definition UART_CFG_STOP_BITS_2 : Z := 3.
Definition UART_CFG_DATA_BITS_5 : Z := 0.
Definition UART_CFG_DATA_BITS_8 : Z := 3.
Definition UART_CFG_FLOW_CTRL_NONE : Z := 0.
Definition UART_CFG_FLOW_CTRL_RTS_CTS : Z := 1.

Record uart_tt_virt_config := {
  c_init_metadata : bool;
  c_loopback : bool;
  c_magic : Z;
  c_version : Z;
  c_rx_cap : Z;
  c_tx_cap : Z;
}.

Record uart_tt_virt_data := {
  cfg : uart_config;
  vuart : tt_vuart;
  err_flags : Z;
  err_irq_en : bool;
  rx_irq_en : bool;
  tx_irq_en : bool;
  irq_timer : bool; (* running *)
}.
Implicit Types (d : uart_tt_virt_data).

Definition with_cfg d c :=
  {| cfg := c; vuart := vuart d; err_flags := err_flags d; err_irq_en := err_irq_en d;
     rx_irq_en := rx_irq_en d; tx_irq_en := tx_irq_en d; irq_timer := irq_timer d |}.
Definition with_vuart d v :=
  {| cfg := cfg d; vuart := v; err_flags := err_flags d; err_irq_en := err_irq_en d;
     rx_irq_en := rx_irq_en d; tx_irq_en := tx_irq_en d; irq_timer := irq_timer d |}.
Definition with_irqs d (e r t timer : bool) :=
  {| cfg := cfg d; vuart := vuart d; err_flags := err_flags d; err_irq_en := e;
     rx_irq_en := r; tx_irq_en := t; irq_timer := timer |}.

Definition uart_tt_virt_config_get d (c : uart_config) : Z * uart_config * uart_tt_virt_data :=
  (0, c, with_cfg d c).

Definition uart_tt_virt_configure d (c : option uart_config) : Z * uart_tt_virt_data :=
  match c with
  | None => (- EINVAL, d)
  | Some c =>
      if negb ((UART_CFG_PARITY_NONE <=? parity c) && (parity c <=? UART_CFG_PARITY_SPACE))
      then (- EINVAL, d)
      else if negb ((UART_CFG_STOP_BITS_0_5 <=? stop_bits c)
                    && (stop_bits c <=? UART_CFG_STOP_BITS_2))
      then (- EINVAL, d)
      else if negb ((UART_CFG_DATA_BITS_5 <=? data_bits c)
                    && (data_bits c <=? UART_CFG_DATA_BITS_8))
      then (- EINVAL, d)
      else if negb ((UART_CFG_FLOW_CTRL_NONE <=? flow_ctrl c)
                    && (flow_ctrl c <=? UART_CFG_FLOW_CTRL_RTS_CTS))
      then (- EINVAL, d)
      else (0, with_cfg d c)
  end.

Definition uart_tt_virt_err_check d : Z := if err_flags d =? 0 then 0 else 1.

(** [(int)x] for a 32-bit unsigned value. *)
Definition to_int (x : Z) : Z := if x <? 2 ^ 31 then x else x - 2 ^ 32.

(** The loop of [poll_out] calls over the first bytes of [tx_data]. *)
Fixpoint poll_out_all v (bs : list Z) (role : tt_vuart_role) : option tt_vuart :=
  match bs with
  | [] => Some v
  | b :: bs =>
      match tt_vuart_poll_out v b role with
      | None => None
      | Some v => poll_out_all v bs role
      end
  end.

(** The loopback loop: the host end reads a byte and sends it back. *)
Fixpoint loopback_loop (n : nat) v : option tt_vuart :=
  match n with
  | O => Some v
  | S n =>
      match tt_vuart_poll_in v TT_VUART_ROLE_HOST with
      | None => None
      | Some (r, v) =>
          let ch := if r =? -1 then 255 else r in
          match tt_vuart_poll_out v ch TT_VUART_ROLE_HOST with
          | None => None
          | Some v => loopback_loop n v
          end
      end
  end.

Definition uart_tt_virt_fifo_fill (c : uart_tt_virt_config) d (tx_data : list Z) (size : Z)
  : option (Z * uart_tt_virt_data) :=
  let v := vuart d in
  let size := Z.min (to_int (tt_vuart_buf_space (tx_head v) (tx_tail v) (tx_cap v))) size in
  match poll_out_all v (take (Z.to_nat size) tx_data) TT_VUART_ROLE_DEVICE with
  | None => None
  | Some v1 =>
      if c_loopback c && (0 <? size) then
        let lim := Z.min size
                     (to_int (tt_vuart_buf_space (rx_head v1) (rx_tail v1) (rx_cap v1))) in
        match loopback_loop (Z.to_nat lim) v1 with
        | None => None
        | Some v2 => Some (size, with_vuart d v2)
        end
      else Some (size, with_vuart d v1)
  end.

(** The loop of [poll_in] calls: the bytes stored, oldest first. *)
Fixpoint poll_in_all (n : nat) v : option (list Z * tt_vuart) :=
  match n with
  | O => Some ([], v)
  | S n =>
      match tt_vuart_poll_in v TT_VUART_ROLE_DEVICE with
      | None => None
      | Some (ch, v) =>
          match poll_in_all n v with
          | None => None
          | Some (bs, v') => Some (ch :: bs, v')
          end
      end
  end.

Definition uart_tt_virt_fifo_read d (size : Z) : option (Z * list Z * uart_tt_virt_data) :=
  let v := vuart d in
  let size := Z.min size (to_int (tt_vuart_buf_size (rx_head v) (rx_tail v))) in
  match poll_in_all (Z.to_nat size) v with
  | None => None
  | Some (bs, v') => Some (size, bs, with_vuart d v')
  end.

Definition uart_tt_virt_irq_err_disable d :=
  with_irqs d false (rx_irq_en d) (tx_irq_en d)
    (if negb (rx_irq_en d || tx_irq_en d) then false else irq_timer d).
Definition uart_tt_virt_irq_err_enable d := with_irqs d true (rx_irq_en d) (tx_irq_en d) true.
Definition uart_tt_virt_irq_rx_disable d :=
  with_irqs d (err_irq_en d) false (tx_irq_en d)
    (if negb (tx_irq_en d || err_irq_en d) then false else irq_timer d).
Definition uart_tt_virt_irq_rx_enable d := with_irqs d (err_irq_en d) true (tx_irq_en d) true.
Definition uart_tt_virt_irq_tx_disable d :=
  with_irqs d (err_irq_en d) (rx_irq_en d) false
    (if negb (rx_irq_en d || err_irq_en d) then false else irq_timer d).
Definition uart_tt_virt_irq_tx_enable d := with_irqs d (err_irq_en d) (rx_irq_en d) true true.

Definition uart_tt_virt_irq_rx_ready d : Z :=
  if negb (rx_irq_en d) then 0
  else if tt_vuart_buf_empty (rx_head (vuart d)) (rx_tail (vuart d)) then 0 else 1.
Definition uart_tt_virt_irq_tx_complete d : bool :=
  tt_vuart_buf_empty (tx_head (vuart d)) (tx_tail (vuart d)).
Definition uart_tt_virt_irq_tx_ready d : Z :=
  if negb (tx_irq_en d) then 0
  else tt_vuart_buf_space (tx_head (vuart d)) (tx_tail (vuart d)) (tx_cap (vuart d)).
Definition uart_tt_virt_irq_is_pending d : bool :=
  negb (uart_tt_virt_irq_tx_ready d =? 0) || negb (uart_tt_virt_irq_rx_ready d =? 0).

(** The timer handler: call back while something is pending; [inl] when the
    callback keeps it pending beyond the fuel. *)
Definition uart_tt_virt_irq_handler (fuel : nat)
    (cb : option (uart_tt_virt_data -> uart_tt_virt_data)) d
  : uart_tt_virt_data + uart_tt_virt_data :=
  match cb with
  | None => inr d
  | Some cb => loop fuel (λ d, if uart_tt_virt_irq_is_pending d then inl (cb d) else inr d) d
  end.

Definition uart_tt_virt_poll_in d : option (Z * Z * uart_tt_virt_data) :=
  match tt_vuart_poll_in (vuart d) TT_VUART_ROLE_DEVICE with
  | None => None
  | Some (r, v) => Some (if r =? -1 then -1 else 0, r, with_vuart d v)
  end.
Definition uart_tt_virt_poll_out d (out_char : Z) : option uart_tt_virt_data :=
  match tt_vuart_poll_out (vuart d) out_char TT_VUART_ROLE_DEVICE with
  | None => None
  | Some v => Some (with_vuart d v)
  end.

(** [uart_tt_virt_adoptable]; [None] is the null descriptor. [same_place] is the
    comparison of the two addresses. *)
Definition uart_tt_virt_adoptable (c : uart_tt_virt_config) (same_place : bool)
    (v : option tt_vuart) : bool :=
  match v with
  | None => false
  | Some v => same_place && (magic v =? c_magic c) && (version v =? c_version c)
              && (rx_cap v =? c_rx_cap c) && (tx_cap v =? c_tx_cap c)
  end.

(** [uart_tt_virt_init] with memory [mem] at the configured place; [looked_up]
    says whether the previous stage published that same place. *)
Definition uart_tt_virt_init (c : uart_tt_virt_config) (looked_up : bool) (mem : tt_vuart) d
  : uart_tt_virt_data :=
  if c_init_metadata c
     || negb (uart_tt_virt_adoptable c looked_up (if looked_up then Some mem else None))
  then
    with_vuart d
      {| magic := c_magic c; rx_cap := c_rx_cap c; rx_head := 0; rx_tail := 0;
         tx_cap := c_tx_cap c; tx_head := 0; tx_oflow := 0; tx_tail := 0;
         version := c_version c; buf := buf mem |}
  else with_vuart d mem.

(** * Abstract view: two byte queues *)
Definition count (head tail : Z) : nat := Z.to_nat (tt_vuart_buf_size head tail).

Definition tx_queue v : list Z :=
  ring_slice (tx_cap v) (take (Z.to_nat (tx_cap v)) (buf v)) (tx_head v) (count (tx_head v) (tx_tail v)).
Definition rx_queue v : list Z :=
  ring_slice (rx_cap v) (drop (Z.to_nat (tx_cap v)) (buf v)) (rx_head v) (count (rx_head v) (rx_tail v)).

(** The counters of a ring whose capacity divides [2^32] may wrap. Others, like the 11228 and 7132 of
    the boards, may not: their tail has not wrapped past their head. *)
Definition unwrapped (cap h t : Z) : Prop := (cap | 2 ^ 32) \/ h <= t.
(** The tail may still advance by [n]. *)
Definition may_advance (cap t n : Z) : Prop := (cap | 2 ^ 32) \/ t + n < 2 ^ 32.
Record wf_vuart v : Prop := {
  wf_tx_cap : 0 < tx_cap v /\ unwrapped (tx_cap v) (tx_head v) (tx_tail v);
  wf_rx_cap : 0 < rx_cap v /\ unwrapped (rx_cap v) (rx_head v) (rx_tail v);
  wf_caps : tx_cap v + rx_cap v < 2 ^ 31;
  wf_len : Z.of_nat (length (buf v)) = tx_cap v + rx_cap v;
  wf_tx_ctr : in_width 32 (tx_head v) /\ in_width 32 (tx_tail v);
  wf_rx_ctr : in_width 32 (rx_head v) /\ in_width 32 (rx_tail v);
  wf_tx_size : tt_vuart_buf_size (tx_head v) (tx_tail v) <= tx_cap v;
  wf_rx_size : tt_vuart_buf_size (rx_head v) (rx_tail v) <= rx_cap v;
  wf_bytes : Forall is_byte (buf v);
}.

(** ** One ring *)
Section one_ring.
Context (cap : Z) (Hcap : 0 < cap).

Lemma size_range h t : 0 <= tt_vuart_buf_size h t < 2 ^ 32.
Proof. by apply Z.mod_pos_bound. Qed.

Lemma size_succ_tail h t :
  tt_vuart_buf_size h t < 2 ^ 32 - 1 ->
  tt_vuart_buf_size h (u32 (t + 1)) = tt_vuart_buf_size h t + 1.
Proof. intros H. by apply (mod_succ_dist (2 ^ 32)). Qed.

Lemma size_succ_head h t :
  tt_vuart_buf_size h t <> 0 ->
  tt_vuart_buf_size (u32 (h + 1)) t = tt_vuart_buf_size h t - 1.
Proof. intros H. by apply (mod_pred_dist (2 ^ 32)). Qed.

(** Advancing keeps the tail from wrapping past the head. *)
Lemma size_unwrapped h t : in_width 32 h -> in_width 32 t -> h <= t -> tt_vuart_buf_size h t = t - h.
Proof. intros Hh Ht Hle. apply wrap_id. unfold in_width in *. lia. Qed.
Lemma unwrapped_tail h t : in_width 32 h -> in_width 32 t -> unwrapped cap h t -> may_advance cap t 1 ->
  unwrapped cap h (u32 (t + 1)).
Proof.
  intros Hh Ht [Hd|Hle] [Hd'|Hlt]; try (by left). right. rewrite wrap_id; unfold in_width in *; lia.
Qed.
Lemma unwrapped_head h t n : in_width 32 h -> in_width 32 t -> unwrapped cap h t -> 0 <= n <= tt_vuart_buf_size h t ->
  unwrapped cap (u32 (h + n)) t.
Proof.
  intros Hh Ht [Hd|Hle] Hn; [by left|]. right. rewrite size_unwrapped in Hn by done.
  rewrite wrap_id; unfold in_width in *; lia.
Qed.

(** The slot of a counter that wrapped is the slot it would have had. *)
Lemma tail_slot h t : in_width 32 h -> in_width 32 t -> unwrapped cap h t -> t mod cap = (h + tt_vuart_buf_size h t) mod cap.
Proof.
  intros Hh Ht [Hdiv|Hle].
  - unfold tt_vuart_buf_size, wrap.
    rewrite <- (Z.mod_mod_divide (h + (t - h) mod 2 ^ 32) (2 ^ 32) cap) by done.
    rewrite Zplus_mod_idemp_r. replace (h + (t - h)) with t by lia.
    symmetry. by apply Z.mod_mod_divide.
  - rewrite size_unwrapped by done. f_equal. lia.
Qed.
(** So the entries from an advanced head on are those of the head as it would be. *)
Lemma head_slots (b : list Z) h t n m : in_width 32 h -> in_width 32 t -> unwrapped cap h t -> 0 <= n <= tt_vuart_buf_size h t ->
  ring_slice cap b (h + n) m = ring_slice cap b (u32 (h + n)) m.
Proof.
  intros Hh Ht [Hdiv|Hle] Hn; [by symmetry; apply (ring_slice_mod cap (2 ^ 32))|]. rewrite size_unwrapped in Hn by done.
  rewrite wrap_id; [done|]. unfold in_width in *. lia.
Qed.

Lemma ring_front (b : list Z) h t : in_width 32 h -> in_width 32 t -> unwrapped cap h t ->
  tt_vuart_buf_size h t <> 0 ->
  ring_slice cap b h (count h t)
    = b !!! Z.to_nat (h mod cap) :: ring_slice cap b (u32 (h + 1)) (count (u32 (h + 1)) t).
Proof.
  intros Hh Ht Hu Hne. pose proof (size_range h t). unfold count. rewrite (size_succ_head h t Hne).
  replace (Z.to_nat (tt_vuart_buf_size h t))
    with (S (Z.to_nat (tt_vuart_buf_size h t - 1))) by lia.
  rewrite ring_slice_cons. f_equal. apply (head_slots b h t 1); (done || lia).
Qed.

Lemma ring_store (b : list Z) h t c : in_width 32 h -> in_width 32 t -> unwrapped cap h t ->
  length b = Z.to_nat cap -> tt_vuart_buf_size h t < cap -> cap < 2 ^ 32 ->
  ring_slice cap (<[Z.to_nat (t mod cap) := c]> b) h (count h (u32 (t + 1)))
    = ring_slice cap b h (count h t) ++ [c].
Proof.
  intros Hh Ht Hu Hl Hs Hc. pose proof (size_range h t). unfold count. rewrite size_succ_tail by lia.
  replace (Z.to_nat (tt_vuart_buf_size h t + 1))
    with (S (Z.to_nat (tt_vuart_buf_size h t))) by lia.
  rewrite <- (ring_slice_snoc cap Hcap b h (Z.to_nat (tt_vuart_buf_size h t)) c) by (done || lia).
  rewrite Z2Nat.id by lia. by rewrite <- tail_slot.
Qed.

(** Storing at the tail slot without publishing is invisible. *)
Lemma ring_store_invisible (b : list Z) h t c : in_width 32 h -> in_width 32 t -> unwrapped cap h t ->
  length b = Z.to_nat cap -> tt_vuart_buf_size h t < cap ->
  ring_slice cap (<[Z.to_nat (t mod cap) := c]> b) h (count h t) = ring_slice cap b h (count h t).
Proof.
  intros Hh Ht Hu Hl Hs. pose proof (size_range h t). unfold ring_slice, count.
  apply list_fmap_ext. intros i j [-> Hi]%lookup_seq.
  apply list_lookup_total_insert_ne. intros He. rewrite (tail_slot h t) in He by done.
  pose proof (Z.mod_pos_bound (h + Z.of_nat (0 + i)) cap Hcap).
  pose proof (Z.mod_pos_bound (h + tt_vuart_buf_size h t) cap Hcap).
  apply Z2Nat.inj in He; [|lia..]. apply (ring_index_inj cap Hcap) in He; lia.
Qed.
End one_ring.

(** ** Accesses stay inside the buffer *)
Lemma ring_index_ok offs ctr cap :
  0 < cap -> 0 <= offs -> offs + cap <= 2 ^ 32 ->
  ring_index offs ctr cap = Some (offs + ctr mod cap).
Proof.
  intros Hc Ho Hs. unfold ring_index. destruct (Z.eqb_spec cap 0); [lia|].
  pose proof (Z.mod_pos_bound ctr cap Hc). f_equal. apply wrap_id. unfold in_width. lia.
Qed.

Lemma zget_split_l (b : list Z) (n : nat) i :
  0 <= i < Z.of_nat n -> (n <= length b)%nat -> zget b i = Some (take n b !!! Z.to_nat i).
Proof.
  intros Hi Hn. unfold zget. destruct (Z.ltb_spec i 0); [lia|].
  rewrite <- (lookup_take_lt b n) by lia. apply list_lookup_lookup_total_lt.
  rewrite length_take. lia.
Qed.

Lemma zget_split_r (b : list Z) (n : nat) i :
  0 <= i -> Z.of_nat n + i < Z.of_nat (length b) ->
  zget b (Z.of_nat n + i) = Some (drop n b !!! Z.to_nat i).
Proof.
  intros Hi Hn. unfold zget. destruct (Z.ltb_spec (Z.of_nat n + i) 0); [lia|].
  replace (Z.to_nat (Z.of_nat n + i)) with (n + Z.to_nat i)%nat by lia.
  rewrite <- lookup_drop. apply list_lookup_lookup_total_lt. rewrite length_drop. lia.
Qed.

(** ** What the poll operations do to the queues *)
Lemma poll_out_device v c :
  wf_vuart v -> is_byte c -> tt_vuart_buf_size (tx_head v) (tx_tail v) < tx_cap v -> may_advance (tx_cap v) (tx_tail v) 1 ->
  exists v', tt_vuart_poll_out v c TT_VUART_ROLE_DEVICE = Some v' /\ wf_vuart v' /\
    tx_queue v' = tx_queue v ++ [c] /\ rx_queue v' = rx_queue v /\ tx_oflow v' = tx_oflow v /\
    tx_cap v' = tx_cap v /\ rx_cap v' = rx_cap v /\ rx_head v' = rx_head v /\
    rx_tail v' = rx_tail v /\ tx_head v' = tx_head v /\ tx_tail v' = u32 (tx_tail v + 1).
Proof.
  intros [[Hc Hcd] [Hrc Hrd] Hcs Hl Htc Hrx Hts Hrs Hb] Hbyte Hlt Hadv.
  pose proof (Z.mod_pos_bound (tx_tail v) (tx_cap v) Hc).
  unfold tt_vuart_poll_out. cbn [out_ring is_device andb].
  unfold tt_vuart_buf_full. destruct (Z.eqb_spec (tt_vuart_buf_size (tx_head v) (tx_tail v)) (tx_cap v));
    [lia|]. unfold buf_write. rewrite ring_index_ok by lia. rewrite Z.add_0_l.
  destruct (zset_is_Some (buf v) (tx_tail v mod tx_cap v) c) as [b Hz]; [lia|]. rewrite Hz.
  apply zset_Some in Hz as [Hz ->]. eexists. split; [done|].
  set (v' := set_out_tail _ _ _).
  assert (Hq : tx_queue v' = tx_queue v ++ [c]).
  { unfold tx_queue, v'. cbn. rewrite take_insert_lt by lia.
    apply ring_store; try done; try apply Htc; [rewrite length_take|]; lia. }
  assert (Hr : rx_queue v' = rx_queue v).
  { unfold rx_queue, v'. cbn. rewrite drop_insert_lt by lia. done. }
  split_and!; try done. constructor; cbn; try done.
  - split; [done | by apply unwrapped_tail; try apply Htc].
  - by rewrite length_insert.
  - split; [apply Htc | by apply wrap_in_width].
  - rewrite size_succ_tail by lia. lia.
  - by apply Forall_insert.
Qed.

Lemma poll_out_device_full v c :
  tt_vuart_buf_size (tx_head v) (tx_tail v) = tx_cap v ->
  tt_vuart_poll_out v c TT_VUART_ROLE_DEVICE = Some (with_tx_oflow v (u32 (tx_oflow v + 1))).
Proof.
  intros He. unfold tt_vuart_poll_out. cbn [out_ring is_device andb]. unfold tt_vuart_buf_full.
  by rewrite He, Z.eqb_refl.
Qed.

Lemma poll_in_host v :
  wf_vuart v ->
  match tx_queue v with
  | [] => tt_vuart_poll_in v TT_VUART_ROLE_HOST = Some (-1, v)
  | c :: q => exists v', tt_vuart_poll_in v TT_VUART_ROLE_HOST = Some (c, v') /\ wf_vuart v' /\
      tx_queue v' = q /\ rx_queue v' = rx_queue v /\ is_byte c /\
      tx_cap v' = tx_cap v /\ rx_cap v' = rx_cap v /\ rx_head v' = rx_head v /\
      rx_tail v' = rx_tail v /\ tx_tail v' = tx_tail v
  end.
Proof.
  intros [[Hc Hcd] [Hrc Hrd] Hcs Hl Htc Hrx Hts Hrs Hb].
  pose proof (Z.mod_pos_bound (tx_head v) (tx_cap v) Hc).
  unfold tt_vuart_poll_in. cbn [in_ring]. unfold tt_vuart_buf_empty.
  destruct (Z.eqb_spec (tt_vuart_buf_size (tx_head v) (tx_tail v)) 0) as [He|He].
  { unfold tx_queue, count. rewrite He. done. }
  assert (Hq : tx_queue v = take (Z.to_nat (tx_cap v)) (buf v) !!! Z.to_nat (tx_head v mod tx_cap v)
    :: tx_queue (with_tx_head v (u32 (tx_head v + 1)))) by (by apply ring_front; try apply Htc).
  rewrite Hq. unfold buf_read. rewrite ring_index_ok by lia. rewrite Z.add_0_l.
  rewrite (zget_split_l _ (Z.to_nat (tx_cap v))) by lia.
  eexists. split; [done|]. split_and!; try done.
  - pose proof (size_range (tx_head v) (tx_tail v)). constructor; cbn; try done.
    + split; [done | apply unwrapped_head; (apply Htc || done || lia)].
    + split; [by apply wrap_in_width | apply Htc].
    + rewrite size_succ_head by done. lia.
  - apply (Forall_lookup_total_1 is_byte); [by apply Forall_take|]. rewrite length_take. lia.
Qed.

Lemma poll_out_host v c :
  wf_vuart v -> is_byte c -> tt_vuart_buf_size (rx_head v) (rx_tail v) < rx_cap v -> may_advance (rx_cap v) (rx_tail v) 1 ->
  exists v', tt_vuart_poll_out v c TT_VUART_ROLE_HOST = Some v' /\ wf_vuart v' /\
    rx_queue v' = rx_queue v ++ [c] /\ tx_queue v' = tx_queue v /\
    tx_cap v' = tx_cap v /\ rx_cap v' = rx_cap v /\ rx_head v' = rx_head v /\
    rx_tail v' = u32 (rx_tail v + 1) /\ tx_tail v' = tx_tail v.
Proof.
  intros [[Hc Hcd] [Hrc Hrd] Hcs Hl Htc Hrx Hts Hrs Hb] Hbyte Hlt Hadv.
  pose proof (Z.mod_pos_bound (rx_tail v) (rx_cap v) Hrc).
  unfold tt_vuart_poll_out. cbn [out_ring is_device andb].
  unfold buf_write. rewrite ring_index_ok by lia.
  destruct (zset_is_Some (buf v) (tx_cap v + rx_tail v mod rx_cap v) c) as [b Hz]; [lia|].
  rewrite Hz. apply zset_Some in Hz as [Hz ->]. eexists. split; [done|].
  set (v' := set_out_tail _ _ _).
  assert (Hidx : (Z.to_nat (tx_cap v + rx_tail v mod rx_cap v) - Z.to_nat (tx_cap v))%nat
                 = Z.to_nat (rx_tail v mod rx_cap v)) by lia.
  assert (Hq : rx_queue v' = rx_queue v ++ [c]).
  { unfold rx_queue, v'. cbn. rewrite drop_insert_ge, Hidx by lia.
    apply ring_store; try done; try apply Hrx; [rewrite length_drop|]; lia. }
  assert (Hr : tx_queue v' = tx_queue v).
  { unfold tx_queue, v'. cbn. rewrite take_insert_ge by lia. done. }
  split_and!; try done. constructor; cbn; try done.
  - split; [done | by apply unwrapped_tail; try apply Hrx].
  - by rewrite length_insert.
  - split; [apply Hrx | by apply wrap_in_width].
  - rewrite size_succ_tail by lia. lia.
  - by apply Forall_insert.
Qed.

Lemma poll_in_device v :
  wf_vuart v ->
  match rx_queue v with
  | [] => tt_vuart_poll_in v TT_VUART_ROLE_DEVICE = Some (-1, v)
  | c :: q => exists v', tt_vuart_poll_in v TT_VUART_ROLE_DEVICE = Some (c, v') /\ wf_vuart v' /\
      rx_queue v' = q /\ tx_queue v' = tx_queue v /\ rx_tail v' = rx_tail v /\ tx_tail v' = tx_tail v
  end.
Proof.
  intros [[Hc Hcd] [Hrc Hrd] Hcs Hl Htc Hrx Hts Hrs Hb].
  pose proof (Z.mod_pos_bound (rx_head v) (rx_cap v) Hrc).
  unfold tt_vuart_poll_in. cbn [in_ring]. unfold tt_vuart_buf_empty.
  destruct (Z.eqb_spec (tt_vuart_buf_size (rx_head v) (rx_tail v)) 0) as [He|He].
  { unfold rx_queue, count. rewrite He. done. }
  assert (Hq : rx_queue v = drop (Z.to_nat (tx_cap v)) (buf v) !!! Z.to_nat (rx_head v mod rx_cap v)
    :: rx_queue (with_rx_head v (u32 (rx_head v + 1)))) by (by apply ring_front; try apply Hrx).
  rewrite Hq. unfold buf_read. rewrite ring_index_ok by lia.
  assert (Hz : zget (buf v) (tx_cap v + rx_head v mod rx_cap v)
    = Some (drop (Z.to_nat (tx_cap v)) (buf v) !!! Z.to_nat (rx_head v mod rx_cap v))).
  { rewrite <- (Z2Nat.id (tx_cap v)) at 1 by lia. apply zget_split_r; lia. }
  pose proof (size_range (rx_head v) (rx_tail v)).
  rewrite Hz. eexists. split; [done|]. split_and!; try done. constructor; cbn; try done.
  - split; [done | apply unwrapped_head; (apply Hrx || done || lia)].
  - split; [by apply wrap_in_width | apply Hrx].
  - rewrite size_succ_head by done. lia.
Qed.

(** * Producer and consumer at the granularity of single accesses *)

(** The device inside [tt_vuart_poll_out] and the host inside
    [tt_vuart_poll_in], between their accesses to the shared descriptor. *)
Inductive producer := PIdle | PView (c h t : Z) | PStored (c t : Z).
Inductive consumer := CIdle | CView (h t : Z) | CGot (h ch : Z).

Record spsc := {
  sv : tt_vuart;
  prod_ : producer;
  cons_ : consumer;
  produced : list Z;
  consumed : list Z;
}.

Definition p_to (s : spsc) v p :=
  {| sv := v; prod_ := p; cons_ := cons_ s; produced := produced s; consumed := consumed s |}.
Definition c_to (s : spsc) v c :=
  {| sv := v; prod_ := prod_ s; cons_ := c; produced := produced s; consumed := consumed s |}.

Inductive spsc_step : spsc -> spsc -> Prop :=
| p_view s c :
    prod_ s = PIdle -> is_byte c ->
    spsc_step s (p_to s (sv s) (PView c (tx_head (sv s)) (tx_tail (sv s))))
| p_drop s c h t :
    prod_ s = PView c h t -> tt_vuart_buf_full h t (tx_cap (sv s)) = true ->
    spsc_step s (p_to s (with_tx_oflow (sv s) (u32 (tx_oflow (sv s) + 1))) PIdle)
| p_store s c h t v' :
    prod_ s = PView c h t -> tt_vuart_buf_full h t (tx_cap (sv s)) = false ->
    buf_write (sv s) 0 t (tx_cap (sv s)) c = Some v' ->
    spsc_step s (p_to s v' (PStored c t))
| p_publish s c t :
    prod_ s = PStored c t ->
    spsc_step s {| sv := with_tx_tail (sv s) (u32 (t + 1)); prod_ := PIdle; cons_ := cons_ s;
                   produced := produced s ++ [c]; consumed := consumed s |}
| c_view s :
    cons_ s = CIdle -> spsc_step s (c_to s (sv s) (CView (tx_head (sv s)) (tx_tail (sv s))))
| c_empty s h t :
    cons_ s = CView h t -> tt_vuart_buf_empty h t = true -> spsc_step s (c_to s (sv s) CIdle)
| c_read s h t ch :
    cons_ s = CView h t -> tt_vuart_buf_empty h t = false ->
    buf_read (sv s) 0 h (tx_cap (sv s)) = Some ch ->
    spsc_step s (c_to s (sv s) (CGot h ch))
| c_cas s h ch :
    cons_ s = CGot h ch -> tx_head (sv s) = h ->
    spsc_step s {| sv := with_tx_head (sv s) (u32 (h + 1)); prod_ := prod_ s; cons_ := CIdle;
                   produced := produced s; consumed := consumed s ++ [ch] |}
| c_retry s h ch :
    cons_ s = CGot h ch -> tx_head (sv s) <> h -> spsc_step s (c_to s (sv s) CIdle).

Definition prod_ok v p : Prop :=
  match p with
  | PIdle => True
  | PView c h t =>
      is_byte c /\ t = tx_tail v /\
      tt_vuart_buf_size (tx_head v) (tx_tail v) <= tt_vuart_buf_size h t <= tx_cap v
  | PStored c t =>
      is_byte c /\ t = tx_tail v /\ tt_vuart_buf_size (tx_head v) (tx_tail v) < tx_cap v /\
      take (Z.to_nat (tx_cap v)) (buf v) !! Z.to_nat (t mod tx_cap v) = Some c
  end.

Definition cons_ok v c : Prop :=
  match c with
  | CIdle => True
  | CView h t =>
      h = tx_head v /\ tt_vuart_buf_size h t <= tt_vuart_buf_size (tx_head v) (tx_tail v)
  | CGot h ch =>
      h = tx_head v /\ exists q, tx_queue v = ch :: q
  end.

Record spsc_inv (s : spsc) : Prop := {
  inv_wf : wf_vuart (sv s);
  inv_fifo : produced s = consumed s ++ tx_queue (sv s);
  inv_prod : prod_ok (sv s) (prod_ s);
  inv_cons : cons_ok (sv s) (cons_ s);
}.

(** The producer's store: invisible until the tail is published. *)
Lemma inv_store s c h t v' :
  spsc_inv s -> prod_ s = PView c h t -> tt_vuart_buf_full h t (tx_cap (sv s)) = false ->
  buf_write (sv s) 0 t (tx_cap (sv s)) c = Some v' -> spsc_inv (p_to s v' (PStored c t)).
Proof.
  intros [Hwf Hf Hp Hc] Hprod Hfull Hw. rewrite Hprod in Hp. destruct Hp as (Hb & -> & Hs).
  pose proof Hwf as [[Hcap Hcd] [Hrc Hrd] Hcs Hl Htc Hrx Hts Hrs Hby].
  unfold tt_vuart_buf_full in Hfull. zb.
  pose proof (Z.mod_pos_bound (tx_tail (sv s)) (tx_cap (sv s)) Hcap).
  unfold buf_write in Hw. rewrite ring_index_ok in Hw by lia. rewrite Z.add_0_l in Hw.
  destruct (zset _ _ _) as [b|] eqn:Hz; [|done]. injection Hw as <-.
  apply zset_Some in Hz as [Hz ->].
  set (slot := Z.to_nat (tx_tail (sv s) mod tx_cap (sv s))).
  assert (Hq : tx_queue (with_buf (sv s) (<[slot := c]> (buf (sv s)))) = tx_queue (sv s)).
  { unfold tx_queue. cbn. rewrite take_insert_lt by (subst slot; lia).
    apply ring_store_invisible; try done; try apply Htc; [rewrite length_take|]; lia. }
  constructor; cbn.
  - constructor; cbn; try done; [by rewrite length_insert | by apply Forall_insert].
  - by rewrite Hq.
  - split_and!; try done; [lia|]. rewrite take_insert_lt by (subst slot; lia).
    apply list_lookup_insert_eq. rewrite length_take. subst slot. lia.
  - unfold cons_ok in *. destruct (cons_ s); try done. by rewrite Hq.
Qed.

Lemma inv_publish s c t :
  spsc_inv s -> prod_ s = PStored c t -> may_advance (tx_cap (sv s)) (tx_tail (sv s)) 1 ->
  spsc_inv {| sv := with_tx_tail (sv s) (u32 (t + 1)); prod_ := PIdle; cons_ := cons_ s;
              produced := produced s ++ [c]; consumed := consumed s |}.
Proof.
  intros [Hwf Hf Hp Hc] Hprod Hadv. rewrite Hprod in Hp. destruct Hp as (Hb & -> & Hs & Hslot).
  pose proof Hwf as [[Hcap Hcd] [Hrc Hrd] Hcs Hl Htc Hrx Hts Hrs Hby].
  assert (Hq : tx_queue (with_tx_tail (sv s) (u32 (tx_tail (sv s) + 1))) = tx_queue (sv s) ++ [c]).
  { unfold tx_queue. cbn. rewrite <- ring_store; try done; try apply Htc; [|rewrite length_take; lia|lia].
    by rewrite list_insert_id. }
  constructor; cbn.
  - constructor; cbn; try done.
    + split; [done | by apply unwrapped_tail; try apply Htc].
    + split; [apply Htc | by apply wrap_in_width].
    + rewrite size_succ_tail by lia. lia.
  - by rewrite Hq, Hf, app_assoc.
  - done.
  - unfold cons_ok in *. destruct (cons_ s) as [|h t|h ch]; try done; cbn.
    + destruct Hc as [-> Hc]. split; [done|]. rewrite size_succ_tail by lia. lia.
    + destruct Hc as [-> [q Hc]]. split; [done|]. exists (q ++ [c]). by rewrite Hq, Hc.
Qed.

Lemma inv_read s h t ch :
  spsc_inv s -> cons_ s = CView h t -> tt_vuart_buf_empty h t = false ->
  buf_read (sv s) 0 h (tx_cap (sv s)) = Some ch -> spsc_inv (c_to s (sv s) (CGot h ch)).
Proof.
  intros [Hwf Hf Hp Hc] Hcons He Hr. rewrite Hcons in Hc. destruct Hc as [-> Hsz].
  constructor; cbn; try done. split; [done|].
  destruct Hwf as [[Hcap Hcd] [Hrc _] Hcs Hl Htc _ _ _ _]. unfold tt_vuart_buf_empty in He. zb.
  pose proof (size_range (tx_head (sv s)) t). pose proof (Z.mod_pos_bound (tx_head (sv s)) _ Hcap).
  unfold buf_read in Hr. rewrite ring_index_ok, Z.add_0_l in Hr by lia.
  rewrite (zget_split_l _ (Z.to_nat (tx_cap (sv s)))) in Hr by lia. injection Hr as <-.
  assert (Hne : tt_vuart_buf_size (tx_head (sv s)) (tx_tail (sv s)) <> 0).
  { pose proof (size_range (tx_head (sv s)) (tx_tail (sv s))). lia. }
  eexists. by apply ring_front; try apply Htc.
Qed.

Lemma inv_cas s h ch :
  spsc_inv s -> cons_ s = CGot h ch -> tx_head (sv s) = h ->
  spsc_inv {| sv := with_tx_head (sv s) (u32 (h + 1)); prod_ := prod_ s; cons_ := CIdle;
              produced := produced s; consumed := consumed s ++ [ch] |}.
Proof.
  intros [Hwf Hf Hp Hc] Hcons <-. rewrite Hcons in Hc. destruct Hc as [_ [q Hq]].
  pose proof Hwf as [[Hcap Hcd] [Hrc Hrd] Hcs Hl Htc Hrx Hts Hrs Hby].
  assert (Hne : tt_vuart_buf_size (tx_head (sv s)) (tx_tail (sv s)) <> 0).
  { intros He. unfold tx_queue, count in Hq. by rewrite He in Hq. }
  assert (Hrest : tx_queue (with_tx_head (sv s) (u32 (tx_head (sv s) + 1))) = q).
  { assert (Hfr := ring_front (tx_cap (sv s))
      (take (Z.to_nat (tx_cap (sv s))) (buf (sv s))) _ _ (proj1 Htc) (proj2 Htc) Hcd Hne).
    unfold tx_queue in Hq. rewrite Hfr in Hq. by injection Hq. }
  pose proof (size_range (tx_head (sv s)) (tx_tail (sv s))).
  constructor; cbn.
  - constructor; cbn; try done.
    + split; [done | apply unwrapped_head; (apply Htc || done || lia)].
    + split; [by apply wrap_in_width | apply Htc].
    + rewrite size_succ_head by done. lia.
  - by rewrite Hrest, Hf, Hq, <- app_assoc.
  - unfold prod_ok in *. destruct (prod_ s) as [|c h t|c t]; try done; cbn.
    + destruct Hp as (? & ? & ?). split_and!; try done; rewrite ?size_succ_head by done; lia.
    + destruct Hp as (? & ? & ? & ?). split_and!; try done.
      rewrite size_succ_head by done. lia.
  - done.
Qed.

Lemma spsc_inv_step s s' : spsc_inv s -> spsc_step s s' ->
  (length (produced s) < length (produced s') -> may_advance (tx_cap (sv s)) (tx_tail (sv s)) 1)%nat -> spsc_inv s'.
Proof.
  intros Hinv Hstep Hadv. destruct Hstep;
    try solve [eauto using inv_store, inv_read, inv_cas];
    try (apply inv_publish; [done..|]; apply Hadv; cbn; rewrite length_app; cbn; lia);
    destruct Hinv as [Hwf Hf Hp Hc]; constructor; cbn; try done.
  - split_and!; try done. apply wf_tx_size; done.
  - destruct Hwf. by constructor.
Qed.
(** The capacity stays, and the tail counts the bytes published. *)
Definition tail_counts (cap t0 : Z) (s : spsc) : Prop :=
  tx_cap (sv s) = cap /\ tx_tail (sv s) = u32 (t0 + Z.of_nat (length (produced s))).
Lemma tail_counts_step cap t0 s s' : spsc_inv s -> tail_counts cap t0 s -> spsc_step s s' -> tail_counts cap t0 s'.
Proof.
  intros Hinv [Hc Ht] Hstep. unfold tail_counts in *. destruct Hstep; cbn; try done.
  - unfold buf_write in *. repeat case_match; by simplify_eq.
  - rewrite length_app. cbn [length]. pose proof (inv_prod _ Hinv) as Hp.
    match goal with E : prod_ s = PStored _ _ |- _ => rewrite E in Hp end. destruct Hp as (_ & -> & _).
    split; [done|]. rewrite Ht. unfold wrap. rewrite Zplus_mod_idemp_l. f_equal. lia.
Qed.
Lemma produced_grows s s' : spsc_step s s' -> (length (produced s) <= length (produced s'))%nat.
Proof. destruct 1; cbn; rewrite ?length_app; lia. Qed.

(** C23. The device-to-host ring is a FIFO under every interleaving of one
    producer and one consumer, access by access, including stale views of the
    other side's counter: what the host has received, followed by what is in the ring, is always
    exactly what the device has published, in order. With a capacity that divides [2^32] this is so
    however often the counters wrap; with any other, like the 11228 and 7132 that boards configure,
    as long as the tail does not reach [2^32], that is for the first 4 GiB after the counters were
    reset. *)
Theorem vuart_ring_fifo (s0 s : spsc)
    (Hwf : wf_vuart (sv s0)) (Hidle : prod_ s0 = PIdle /\ cons_ s0 = CIdle)
    (Hempty : tx_queue (sv s0) = [] /\ produced s0 = [] /\ consumed s0 = [])
    (Hsteps : rtc spsc_step s0 s)
    (Hcount : may_advance (tx_cap (sv s0)) (tx_tail (sv s0)) (Z.of_nat (length (produced s)))) :
  produced s = consumed s ++ tx_queue (sv s) /\ wf_vuart (sv s).
Proof.
  enough (H : spsc_inv s /\ tail_counts (tx_cap (sv s0)) (tx_tail (sv s0)) s) by (destruct H as [[? ? _ _] _]; done).
  revert Hcount. revert s Hsteps. refine (rtc_ind_r (λ s, _ -> spsc_inv s /\ tail_counts _ _ s) s0 _ _).
  - intros _. destruct Hidle as [Hp Hc], Hempty as (Hq & Hpr & Hco). split.
    + constructor; [done | by rewrite Hq, Hpr, Hco | by rewrite Hp | by rewrite Hc].
    + split; [done|]. rewrite Hpr, Z.add_0_r. symmetry. apply wrap_id. apply (wf_tx_ctr _ Hwf).
  - intros s s' _ Hstep IH Hcount. pose proof (produced_grows _ _ Hstep). destruct IH as [Hinv Htc]; [destruct Hcount; [by left | right; lia]|].
    split; [|by eapply tail_counts_step]. eapply spsc_inv_step; [done..|]. intros Hlt.
    destruct Htc as [-> ->]. destruct Hcount as [Hd|Hlt']; [by left|right].
    pose proof (wf_tx_ctr _ Hwf) as [_ Hw]. unfold in_width in Hw. rewrite wrap_id; unfold in_width; lia.
Qed.

(** A small ring whose counters are about to wrap. *)
Definition small_vuart : tt_vuart :=
  {| magic := 0x775e21a1; rx_cap := 4; rx_head := 0; rx_tail := 0; tx_cap := 4;
     tx_head := 4294967295; tx_oflow := 0; tx_tail := 4294967295; version := 0;
     buf := replicate 8 0 |}.

Lemma small_vuart_wf : wf_vuart small_vuart.
Proof.
  constructor; cbn; unfold in_width; try lia.
  - split; [lia | left; by exists (2 ^ 30)].
  - split; [lia | left; by exists (2 ^ 30)].
  - by vm_compute.
  - by vm_compute.
  - by repeat constructor.
Qed.

Definition spsc0 : spsc :=
  {| sv := small_vuart; prod_ := PIdle; cons_ := CIdle; produced := []; consumed := [] |}.
Definition spsc3 : spsc :=
  {| sv := with_tx_tail (with_buf small_vuart (<[3%nat := 65]> (replicate 8 0))) 0;
     prod_ := PIdle; cons_ := CIdle; produced := [65]; consumed := [] |}.

Lemma spsc3_reachable : rtc spsc_step spsc0 spsc3.
Proof.
  eapply rtc_l; [apply (p_view _ 65); [reflexivity | split; lia]|].
  eapply rtc_l; [eapply p_store; reflexivity|].
  eapply rtc_l; [eapply p_publish; reflexivity|]. apply rtc_refl.
Qed.

Lemma vuart_ring_fifo_witness :
  produced spsc3 = consumed spsc3 ++ tx_queue (sv spsc3) /\ wf_vuart (sv spsc3).
Proof.
  apply (vuart_ring_fifo spsc0 spsc3).
  - apply small_vuart_wf.
  - split; reflexivity.
  - split_and!; reflexivity.
  - apply spsc3_reachable.
  - left. by exists (2 ^ 30).
Defined.

(** * Batches *)
Lemma tx_queue_length v :
  wf_vuart v -> tt_vuart_buf_size (tx_head v) (tx_tail v) = Z.of_nat (length (tx_queue v)).
Proof.
  intros _. unfold tx_queue. rewrite ring_slice_length. unfold count.
  pose proof (size_range (tx_head v) (tx_tail v)). lia.
Qed.

Lemma rx_queue_length v :
  wf_vuart v -> tt_vuart_buf_size (rx_head v) (rx_tail v) = Z.of_nat (length (rx_queue v)).
Proof.
  intros _. unfold rx_queue. rewrite ring_slice_length. unfold count.
  pose proof (size_range (rx_head v) (rx_tail v)). lia.
Qed.

Lemma to_int_space head tail cap :
  0 < cap < 2 ^ 31 -> tt_vuart_buf_size head tail <= cap ->
  to_int (tt_vuart_buf_space head tail cap) = cap - tt_vuart_buf_size head tail.
Proof.
  intros Hc Hs. pose proof (size_range head tail). unfold tt_vuart_buf_space.
  rewrite wrap_id by (unfold in_width; lia). unfold to_int.
  destruct (Z.ltb_spec (cap - tt_vuart_buf_size head tail) (2 ^ 31)); lia.
Qed.

Lemma may_advance_le cap t m n : may_advance cap t n -> m <= n -> may_advance cap t m.
Proof. intros [Hd|Hl] Hm; [by left | right; lia]. Qed.
Lemma may_advance_more cap t m n : in_width 32 t -> 0 <= m -> 0 <= n -> may_advance cap t (m + n) -> may_advance cap (u32 (t + m)) n.
Proof. intros Ht Hm Hn [Hd|Hl]; [by left | right]. unfold in_width in Ht. rewrite wrap_id; unfold in_width; lia. Qed.
Lemma poll_out_all_spec bs v :
  wf_vuart v -> Forall is_byte bs ->
  Z.of_nat (length (tx_queue v)) + Z.of_nat (length bs) <= tx_cap v ->
  may_advance (tx_cap v) (tx_tail v) (Z.of_nat (length bs)) ->
  exists v', poll_out_all v bs TT_VUART_ROLE_DEVICE = Some v' /\ wf_vuart v' /\
    tx_queue v' = tx_queue v ++ bs /\ rx_queue v' = rx_queue v /\ tx_oflow v' = tx_oflow v /\
    tx_cap v' = tx_cap v /\ rx_cap v' = rx_cap v /\ rx_tail v' = rx_tail v /\
    tx_tail v' = u32 (tx_tail v + Z.of_nat (length bs)).
Proof.
  intros Hwf Hb. revert v Hwf. induction Hb as [|b bs Hb Hbs IH]; intros v Hwf Hl Ha.
  { exists v. rewrite app_nil_r, Z.add_0_r. split_and!; try done. symmetry. apply wrap_id. apply (wf_tx_ctr _ Hwf). }
  cbn [length] in Hl, Ha. cbn [poll_out_all].
  destruct (poll_out_device v b Hwf Hb) as (v1 & -> & Hwf1 & Hq1 & Hr1 & Ho1 & Hc1 & Hrc1 & _ & Hrt1 & _ & Htt1).
  { rewrite tx_queue_length by done. lia. }
  { by eapply may_advance_le; [exact Ha | lia]. }
  destruct (IH v1 Hwf1) as (v' & -> & Hwf' & Hq & Hr & Ho & Hc & Hrc & Hrt & Htt).
  { rewrite Hq1, length_app, Hc1. cbn [length]. lia. }
  { rewrite Hc1, Htt1. apply may_advance_more; [apply (wf_tx_ctr _ Hwf) | lia | lia |]. by eapply may_advance_le; [exact Ha | lia]. }
  exists v'. rewrite Hq, Hq1, <- app_assoc. split_and!; try done; try congruence.
  rewrite Htt, Htt1. unfold wrap. rewrite Zplus_mod_idemp_l. f_equal. cbn [length]. lia.
Qed.

Lemma loopback_loop_spec n v :
  wf_vuart v -> (n <= length (tx_queue v))%nat ->
  Z.of_nat (length (rx_queue v)) + Z.of_nat n <= rx_cap v -> may_advance (rx_cap v) (rx_tail v) (Z.of_nat n) ->
  exists v', loopback_loop n v = Some v' /\ wf_vuart v' /\
    tx_queue v' = drop n (tx_queue v) /\ rx_queue v' = rx_queue v ++ take n (tx_queue v).
Proof.
  revert v. induction n as [|n IH]; intros v Hwf Hn Hl Ha.
  { exists v. by rewrite app_nil_r. }
  cbn [loopback_loop]. pose proof (poll_in_host v Hwf) as Hin.
  destruct (tx_queue v) as [|c q] eqn:Hq; cbn [length] in Hn; [lia|].
  destruct Hin as (v1 & -> & Hwf1 & Hq1 & Hr1 & Hb & Hc1 & Hrc1 & Hh1 & Ht1 & _).
  destruct (Z.eqb_spec c (-1)); [unfold is_byte in Hb; lia|].
  destruct (poll_out_host v1 c Hwf1 Hb) as (v2 & -> & Hwf2 & Hr2 & Hq2 & _ & Hrc2 & _ & Ht2 & _).
  { rewrite rx_queue_length by done. rewrite Hr1, Hrc1. lia. }
  { rewrite Hrc1, Ht1. by eapply may_advance_le; [exact Ha | lia]. }
  destruct (IH v2 Hwf2) as (v' & -> & Hwf' & Hq' & Hr').
  { rewrite Hq2, Hq1. lia. }
  { rewrite Hr2, length_app, Hr1, Hrc2, Hrc1. cbn [length]. lia. }
  { rewrite Hrc2, Hrc1, Ht2, Ht1. apply may_advance_more; [apply (wf_rx_ctr _ Hwf) | lia | lia |].
    by eapply may_advance_le; [exact Ha | lia]. }
  exists v'. rewrite Hq', Hr', Hr2, Hq2, Hq1, Hr1, <- app_assoc. done.
Qed.

Lemma poll_in_all_spec n v :
  wf_vuart v -> (n <= length (rx_queue v))%nat ->
  exists v', poll_in_all n v = Some (take n (rx_queue v), v') /\ wf_vuart v' /\
    rx_queue v' = drop n (rx_queue v) /\ tx_queue v' = tx_queue v /\ rx_tail v' = rx_tail v /\ tx_tail v' = tx_tail v.
Proof.
  revert v. induction n as [|n IH]; intros v Hwf Hn; [by exists v|].
  cbn [poll_in_all]. pose proof (poll_in_device v Hwf) as Hin.
  destruct (rx_queue v) as [|c q] eqn:Hq; cbn [length] in Hn; [lia|].
  destruct Hin as (v1 & -> & Hwf1 & Hq1 & Hr1 & Ht1 & Ht2).
  destruct (IH v1 Hwf1) as (v' & -> & Hwf' & Hq' & Hr' & Ht1' & Ht2'); [rewrite Hq1; lia|].
  exists v'. rewrite Hq1 in *. cbn [take drop]. split_and!; (done || congruence).
Qed.

(** The two driver calls in terms of the queues. *)
Lemma fifo_fill_ok c d bs :
  wf_vuart (vuart d) -> Forall is_byte bs ->
  may_advance (tx_cap (vuart d)) (tx_tail (vuart d)) (Z.of_nat (length bs)) ->
  (c_loopback c = true -> may_advance (rx_cap (vuart d)) (rx_tail (vuart d)) (Z.of_nat (length bs))) ->
  let n := Nat.min (Z.to_nat (tx_cap (vuart d)) - length (tx_queue (vuart d))) (length bs) in
  exists d', uart_tt_virt_fifo_fill c d bs (Z.of_nat (length bs)) = Some (Z.of_nat n, d') /\
    wf_vuart (vuart d') /\
    (c_loopback c = false ->
       tx_queue (vuart d') = tx_queue (vuart d) ++ take n bs /\
       rx_queue (vuart d') = rx_queue (vuart d) /\ tx_oflow (vuart d') = tx_oflow (vuart d) /\
       rx_tail (vuart d') = rx_tail (vuart d) /\ tx_tail (vuart d') = u32 (tx_tail (vuart d) + Z.of_nat n)) /\
    (c_loopback c = true ->
       let q := tx_queue (vuart d) ++ take n bs in
       let m := Nat.min n (Z.to_nat (rx_cap (vuart d)) - length (rx_queue (vuart d))) in
       tx_queue (vuart d') = drop m q /\ rx_queue (vuart d') = rx_queue (vuart d) ++ take m q).
Proof.
  intros Hwf Hb Ha Hal n. pose proof Hwf as [[Hcap Hcd] [Hrc Hrd] Hcs Hl Htc Hrx Hts Hrs _].
  pose proof (tx_queue_length _ Hwf) as Hql. pose proof (rx_queue_length _ Hwf) as Hrl.
  unfold uart_tt_virt_fifo_fill. rewrite to_int_space by lia.
  assert (Hn : Z.min (tx_cap (vuart d) - tt_vuart_buf_size (tx_head (vuart d)) (tx_tail (vuart d)))
    (Z.of_nat (length bs)) = Z.of_nat n) by lia.
  rewrite Hn, Nat2Z.id.
  destruct (poll_out_all_spec (take n bs) (vuart d) Hwf) as (v1 & -> & Hwf1 & Hq1 & Hr1 & Ho1 & Hc1 & Hrc1 & Hrt1 & Htt1).
  { by apply Forall_take. } { rewrite length_take. lia. } { eapply may_advance_le; [exact Ha|]. rewrite length_take. lia. }
  destruct (c_loopback c) eqn:Hlb; cbn [andb].
  2: { eexists. split; [done|]. split; [done|]. split; [|done]. intros _. split_and!; try done. cbn. rewrite Htt1, length_take. do 2 f_equal. lia. }
  destruct (Z.ltb_spec 0 (Z.of_nat n)).
  - pose proof Hwf1 as [_ _ Hcs1 _ _ _ _ Hrs1 _].
    pose proof (rx_queue_length _ Hwf1) as Hrl1. rewrite Hr1 in Hrl1.
    rewrite to_int_space by lia.
    destruct (loopback_loop_spec (Nat.min n (Z.to_nat (rx_cap (vuart d)) - length (rx_queue (vuart d)))) v1 Hwf1)
      as (v2 & Hv2 & Hwf2 & Hq2 & Hr2).
    { rewrite Hq1, length_app, length_take. lia. } { rewrite Hr1, Hrc1. lia. }
    { rewrite Hrc1, Hrt1. eapply may_advance_le; [by apply Hal | lia]. }
    replace (Z.to_nat _) with (Nat.min n (Z.to_nat (rx_cap (vuart d)) - length (rx_queue (vuart d)))) by lia.
    rewrite Hv2. eexists. split; [done|]. split_and!; try done. intros _.
    cbn. by rewrite Hq2, Hr2, Hq1, Hr1.
  - eexists. split; [done|]. split_and!; try done. intros _. cbn.
    assert (n = 0%nat) as -> by lia. cbn. rewrite app_nil_r. rewrite Hq1, Hr1. cbn.
    by rewrite !app_nil_r.
Qed.

Lemma fifo_read_ok d (size : nat) :
  wf_vuart (vuart d) ->
  let n := Nat.min size (length (rx_queue (vuart d))) in
  exists d', uart_tt_virt_fifo_read d (Z.of_nat size)
      = Some (Z.of_nat n, take n (rx_queue (vuart d)), d') /\
    wf_vuart (vuart d') /\ rx_queue (vuart d') = drop n (rx_queue (vuart d)) /\
    tx_queue (vuart d') = tx_queue (vuart d) /\ rx_tail (vuart d') = rx_tail (vuart d) /\
    tx_tail (vuart d') = tx_tail (vuart d).
Proof.
  intros Hwf n. pose proof (rx_queue_length _ Hwf) as Hrl.
  pose proof Hwf as [_ [Hrc _] Hcs _ _ _ _ Hrs _]. pose proof (wf_tx_cap _ Hwf) as [? _].
  unfold uart_tt_virt_fifo_read, to_int.
  destruct (Z.ltb_spec (tt_vuart_buf_size (rx_head (vuart d)) (rx_tail (vuart d))) (2 ^ 31)); [|lia].
  replace (Z.min _ _) with (Z.of_nat n) by lia. rewrite Nat2Z.id.
  destruct (poll_in_all_spec n (vuart d) Hwf) as (v' & -> & Hwf' & Hq & Hr); [lia|].
  eexists. split; [done|]. done.
Qed.

(** [uart_tt_virt_fifo_fill] without loopback accepts exactly the bytes the
    transmit ring has room for, appends them in order, reports their number, and
    never counts an overflow nor touches the receive ring. *)
Theorem fifo_fill_spec (c : uart_tt_virt_config) (d : uart_tt_virt_data) (bs : list Z)
    (Hwf : wf_vuart (vuart d)) (Hb : Forall is_byte bs) (Hlb : c_loopback c = false)
    (Hadv : may_advance (tx_cap (vuart d)) (tx_tail (vuart d)) (Z.of_nat (length bs))) :
  let n := Nat.min (Z.to_nat (tx_cap (vuart d)) - length (tx_queue (vuart d))) (length bs) in
  exists d', uart_tt_virt_fifo_fill c d bs (Z.of_nat (length bs)) = Some (Z.of_nat n, d') /\
    wf_vuart (vuart d') /\ tx_queue (vuart d') = tx_queue (vuart d) ++ take n bs /\
    rx_queue (vuart d') = rx_queue (vuart d) /\ tx_oflow (vuart d') = tx_oflow (vuart d).
Proof.
  intros n. destruct (fifo_fill_ok c d bs Hwf Hb Hadv) as (d' & He & Hwf' & Hq & _); [congruence|].
  destruct (Hq Hlb) as (? & ? & ? & _). by exists d'.
Qed.

(** Loopback round trip: with loopback configured and empty rings, data that
    fits in both rings and is written with [uart_tt_virt_fifo_fill] comes back
    from [uart_tt_virt_fifo_read] unchanged and in order, and both rings are
    empty again. *)
Theorem loopback_roundtrip (c : uart_tt_virt_config) (d : uart_tt_virt_data) (bs : list Z)
    (Hwf : wf_vuart (vuart d)) (Hb : Forall is_byte bs) (Hlb : c_loopback c = true)
    (Hempty : tx_queue (vuart d) = [] /\ rx_queue (vuart d) = [])
    (Hfits : Z.of_nat (length bs) <= tx_cap (vuart d) /\ Z.of_nat (length bs) <= rx_cap (vuart d))
    (Hadv : may_advance (tx_cap (vuart d)) (tx_tail (vuart d)) (Z.of_nat (length bs)) /\
            may_advance (rx_cap (vuart d)) (rx_tail (vuart d)) (Z.of_nat (length bs))) :
  exists d1 d2,
    uart_tt_virt_fifo_fill c d bs (Z.of_nat (length bs)) = Some (Z.of_nat (length bs), d1) /\
    uart_tt_virt_fifo_read d1 (Z.of_nat (length bs)) = Some (Z.of_nat (length bs), bs, d2) /\
    tx_queue (vuart d2) = [] /\ rx_queue (vuart d2) = [].
Proof.
  destruct Hempty as [Ht Hr], Hfits as [Hf1 Hf2].
  destruct (fifo_fill_ok c d bs Hwf Hb (proj1 Hadv) (λ _, proj2 Hadv)) as (d1 & He & Hwf1 & _ & Hq).
  specialize (Hq Hlb). cbn zeta in Hq. rewrite Ht, Hr in *. cbn [length app] in *.
  assert (Hn : Nat.min (Z.to_nat (tx_cap (vuart d)) - 0) (length bs) = length bs) by lia.
  assert (Hm : Nat.min (length bs) (Z.to_nat (rx_cap (vuart d)) - 0) = length bs) by lia.
  rewrite Hn in He. rewrite Hn, firstn_all, Hm, firstn_all, skipn_all in Hq.
  destruct Hq as [Hq1 Hr1].
  destruct (fifo_read_ok d1 (length bs) Hwf1) as (d2 & Hrd & Hwf2 & Hr2 & Ht2 & _).
  rewrite Hr1, Nat.min_id, firstn_all in Hrd. rewrite Hr1, Nat.min_id, skipn_all in Hr2.
  exists d1, d2. rewrite Ht2, Hq1. done.
Qed.

Definition small_data : uart_tt_virt_data :=
  {| cfg := {| parity := 0; stop_bits := 1; data_bits := 3; flow_ctrl := 0 |};
     vuart := small_vuart; err_flags := 0; err_irq_en := false; rx_irq_en := false;
     tx_irq_en := false; irq_timer := false |}.
Definition small_config (lb : bool) : uart_tt_virt_config :=
  {| c_init_metadata := true; c_loopback := lb; c_magic := 0x775e21a1; c_version := 0;
     c_rx_cap := 4; c_tx_cap := 4 |}.

Lemma fifo_fill_spec_witness :
  exists d', uart_tt_virt_fifo_fill (small_config false) small_data [1; 2; 3; 4; 5] 5
      = Some (4, d') /\
    wf_vuart (vuart d') /\ tx_queue (vuart d') = [1; 2; 3; 4] /\
    rx_queue (vuart d') = [] /\ tx_oflow (vuart d') = 0.
Proof.
  apply (fifo_fill_spec (small_config false) small_data [1; 2; 3; 4; 5]).
  - apply small_vuart_wf.
  - by repeat constructor.
  - reflexivity.
  - left. by exists (2 ^ 30).
Defined.

Lemma loopback_roundtrip_witness :
  exists d1 d2,
    uart_tt_virt_fifo_fill (small_config true) small_data [7; 8; 9] 3 = Some (3, d1) /\
    uart_tt_virt_fifo_read d1 3 = Some (3, [7; 8; 9], d2) /\
    tx_queue (vuart d2) = [] /\ rx_queue (vuart d2) = [].
Proof.
  apply (loopback_roundtrip (small_config true) small_data [7; 8; 9]).
  - apply small_vuart_wf.
  - by repeat constructor.
  - reflexivity.
  - split; reflexivity.
  - cbn. lia.
  - split; left; by exists (2 ^ 30).
Defined.

(** * A capacity that does not divide [2^32] *)

(** With the capacity 11228 that several board files configure, the ring
    breaks when its counters wrap: in a ring that holds 10280 unread bytes and is
    not full, the next byte the device sends lands in the slot of the oldest
    unread byte, and the host then reads the new byte in its place. *)
Theorem wrap_overwrites_unread (v : tt_vuart) (c : Z)
    (Hcap : tx_cap v = 11228) (Hrx : 0 <= rx_cap v < 2 ^ 31)
    (Hlen : Z.of_nat (length (buf v)) = tx_cap v + rx_cap v)
    (Hhead : tx_head v = 2 ^ 32 - 1) (Htail : tx_tail v = 10279) :
  tt_vuart_buf_size (tx_head v) (tx_tail v) = 10280 /\
  tt_vuart_buf_full (tx_head v) (tx_tail v) (tx_cap v) = false /\
  exists v1 v2, tt_vuart_poll_out v c TT_VUART_ROLE_DEVICE = Some v1 /\
    tt_vuart_poll_in v1 TT_VUART_ROLE_HOST = Some (c, v2).
Proof.
  rewrite Hcap, Hhead, Htail. split; [done|]. split; [done|].
  unfold tt_vuart_poll_out. cbn [out_ring is_device andb]. rewrite Hcap, Hhead, Htail.
  change (tt_vuart_buf_full (2 ^ 32 - 1) 10279 11228) with false. cbv iota.
  unfold buf_write. change (ring_index 0 10279 11228) with (Some 10279).
  destruct (zset_is_Some (buf v) 10279 c) as [b Hb]; [lia|]. rewrite Hb.
  eexists. eexists. split; [done|].
  unfold tt_vuart_poll_in. cbn [in_ring]. cbn [set_out_tail with_tx_tail with_buf tx_head tx_tail tx_cap].
  rewrite Hcap, Hhead. change (tt_vuart_buf_empty (2 ^ 32 - 1) (u32 (10279 + 1))) with false.
  cbv iota. unfold buf_read. change (ring_index 0 (2 ^ 32 - 1) 11228) with (Some 10279).
  cbv iota.
  cbn [buf with_tx_tail with_buf]. by rewrite (zget_zset_eq _ _ _ _ Hb).
Qed.

Lemma wrap_overwrites_unread_witness :
  let v := {| magic := 0; rx_cap := 1024; rx_head := 0; rx_tail := 0; tx_cap := 11228;
              tx_head := 2 ^ 32 - 1; tx_oflow := 0; tx_tail := 10279; version := 0;
              buf := replicate (Z.to_nat 12252) 0 |} in
  tt_vuart_buf_size (tx_head v) (tx_tail v) = 10280 /\
  tt_vuart_buf_full (tx_head v) (tx_tail v) (tx_cap v) = false /\
  exists v1 v2, tt_vuart_poll_out v 88 TT_VUART_ROLE_DEVICE = Some v1 /\
    tt_vuart_poll_in v1 TT_VUART_ROLE_HOST = Some (88, v2).
Proof.
  intros v. apply (wrap_overwrites_unread v 88); [reflexivity | cbn; lia | | reflexivity..].
  unfold v. cbn [buf tx_cap rx_cap]. rewrite length_replicate. reflexivity.
Defined.
