(* ===== verification/Dvfs.v ===== *)
(** Frequency and voltage control of the AI clock:
    [lib/tenstorrent/bh_arc/aiclk_ppm.c], [voltage.c] and [dvfs.c].

    Arbiters put upper and lower bounds on the clock; every pass of the loop
    computes a target frequency from them, asks the voltage arbiter for the
    voltage the VF curve demands, and moves clock and regulator in the order
    decrease, change voltage, increase. [float] values are rationals here: the
    code only compares, clamps and truncates them. The VF curve is a
    parameter of the section (the file on [vf_curve.c] instantiates it), and what
    the throttlers ask for in a pass is an argument of [DVFSChange]. *)
From S2P Require Import Prelude MsgQueue.
From stdpp Require Import prelude list numbers.
From Stdlib Require Import QArith Qround.
Open Scope Z_scope.

(** ** AI clock *)
Definition AICLK_FMAX_MAX : Z := 1400.
Definition AICLK_FMAX_MIN : Z := 800.
Definition AICLK_FMIN_MAX : Z := 1400.
Definition AICLK_FMIN_MIN : Z := 200.
Definition AICLK_RESET_SAFE_FREQ : Z := 250.

Inductive aiclk_arb_max :=
  aiclk_arb_max_fmax | aiclk_arb_max_tdp | aiclk_arb_max_fast_tdc | aiclk_arb_max_tdc
| aiclk_arb_max_thm | aiclk_arb_max_board_power | aiclk_arb_max_voltage
| aiclk_arb_max_gddr_thm | aiclk_arb_max_doppler_slow | aiclk_arb_max_doppler_critical
| aiclk_arb_max_host_fmax.
Definition aiclk_arb_max_count : Z := 11.
Definition max_index (a : aiclk_arb_max) : nat :=
  match a with
  | aiclk_arb_max_fmax => 0 | aiclk_arb_max_tdp => 1 | aiclk_arb_max_fast_tdc => 2
  | aiclk_arb_max_tdc => 3 | aiclk_arb_max_thm => 4 | aiclk_arb_max_board_power => 5
  | aiclk_arb_max_voltage => 6 | aiclk_arb_max_gddr_thm => 7
  | aiclk_arb_max_doppler_slow => 8 | aiclk_arb_max_doppler_critical => 9
  | aiclk_arb_max_host_fmax => 10
  end.

Inductive aiclk_arb_min := aiclk_arb_min_fmin | aiclk_arb_min_busy.
Definition aiclk_arb_min_count : Z := 2.
Definition min_index (a : aiclk_arb_min) : nat :=
  match a with aiclk_arb_min_fmin => 0 | aiclk_arb_min_busy => 1 end.

Inductive targ_freq_reason :=
  limit_reason_min_arb | limit_reason_max_arb | limit_reason_fmin | limit_reason_sweep
| limit_reason_forced.
Record aiclk_targ_freq_info := { reason : targ_freq_reason; arbiter : Z }.

Record AiclkArb := { enabled : bool; value : Q }.
Record AiclkPPM := {
  curr_freq : Z;
  targ_freq : Z;
  boot_freq : Z;
  fmax : Z;
  fmin : Z;
  host_requested_fmin : Z;
  forced_freq : Z;
  reset_safe : bool;
  sweep_en : Z;
  sweep_low : Z;
  sweep_high : Z;
  lim_arb_info : aiclk_targ_freq_info;
  arbiter_max : list AiclkArb;
  arbiter_min : list AiclkArb;
}.
Implicit Types (p : AiclkPPM).

Definition with_curr p x :=
  {| curr_freq := x; targ_freq := targ_freq p; boot_freq := boot_freq p; fmax := fmax p;
     fmin := fmin p; host_requested_fmin := host_requested_fmin p; forced_freq := forced_freq p;
     reset_safe := reset_safe p; sweep_en := sweep_en p; sweep_low := sweep_low p;
     sweep_high := sweep_high p; lim_arb_info := lim_arb_info p;
     arbiter_max := arbiter_max p; arbiter_min := arbiter_min p |}.
Definition with_targ p x i :=
  {| curr_freq := curr_freq p; targ_freq := x; boot_freq := boot_freq p; fmax := fmax p;
     fmin := fmin p; host_requested_fmin := host_requested_fmin p; forced_freq := forced_freq p;
     reset_safe := reset_safe p; sweep_en := sweep_en p; sweep_low := sweep_low p;
     sweep_high := sweep_high p; lim_arb_info := i;
     arbiter_max := arbiter_max p; arbiter_min := arbiter_min p |}.
Definition with_arbs p mx mn :=
  {| curr_freq := curr_freq p; targ_freq := targ_freq p; boot_freq := boot_freq p; fmax := fmax p;
     fmin := fmin p; host_requested_fmin := host_requested_fmin p; forced_freq := forced_freq p;
     reset_safe := reset_safe p; sweep_en := sweep_en p; sweep_low := sweep_low p;
     sweep_high := sweep_high p; lim_arb_info := lim_arb_info p;
     arbiter_max := mx; arbiter_min := mn |}.
Definition with_forced p x :=
  {| curr_freq := curr_freq p; targ_freq := targ_freq p; boot_freq := boot_freq p; fmax := fmax p;
     fmin := fmin p; host_requested_fmin := host_requested_fmin p; forced_freq := x;
     reset_safe := reset_safe p; sweep_en := sweep_en p; sweep_low := sweep_low p;
     sweep_high := sweep_high p; lim_arb_info := lim_arb_info p;
     arbiter_max := arbiter_max p; arbiter_min := arbiter_min p |}.
Definition with_reset_safe p x :=
  {| curr_freq := curr_freq p; targ_freq := targ_freq p; boot_freq := boot_freq p; fmax := fmax p;
     fmin := fmin p; host_requested_fmin := host_requested_fmin p; forced_freq := forced_freq p;
     reset_safe := x; sweep_en := sweep_en p; sweep_low := sweep_low p;
     sweep_high := sweep_high p; lim_arb_info := lim_arb_info p;
     arbiter_max := arbiter_max p; arbiter_min := arbiter_min p |}.
Definition with_sweep p en lo hi :=
  {| curr_freq := curr_freq p; targ_freq := targ_freq p; boot_freq := boot_freq p; fmax := fmax p;
     fmin := fmin p; host_requested_fmin := host_requested_fmin p; forced_freq := forced_freq p;
     reset_safe := reset_safe p; sweep_en := en; sweep_low := lo;
     sweep_high := hi; lim_arb_info := lim_arb_info p;
     arbiter_max := arbiter_max p; arbiter_min := arbiter_min p |}.
Definition with_host_fmin p x :=
  {| curr_freq := curr_freq p; targ_freq := targ_freq p; boot_freq := boot_freq p; fmax := fmax p;
     fmin := fmin p; host_requested_fmin := x; forced_freq := forced_freq p;
     reset_safe := reset_safe p; sweep_en := sweep_en p; sweep_low := sweep_low p;
     sweep_high := sweep_high p; lim_arb_info := lim_arb_info p;
     arbiter_max := arbiter_max p; arbiter_min := arbiter_min p |}.

(** [CLAMP] on [float], and the conversion of a non-negative [float] to
    [uint32_t]. *)
Definition QCLAMP (x : Q) (lo hi : Z) : Q :=
  if Qle_bool x (inject_Z lo) then inject_Z lo
  else if Qle_bool x (inject_Z hi) then x else inject_Z hi.
Definition to_u32 (x : Q) : Z := u32 (Qfloor x).

Definition set_value (l : list AiclkArb) (i : nat) (x : Q) : list AiclkArb :=
  alter (λ a, {| enabled := enabled a; value := x |}) i l.
Definition set_enabled (l : list AiclkArb) (i : nat) (b : bool) : list AiclkArb :=
  alter (λ a, {| enabled := b; value := value a |}) i l.

Definition SetAiclkArbMax p (a : aiclk_arb_max) (freq : Q) : AiclkPPM :=
  with_arbs p (set_value (arbiter_max p) (max_index a) (QCLAMP freq (fmin p) (fmax p)))
    (arbiter_min p).
Definition SetAiclkArbMin p (a : aiclk_arb_min) (freq : Q) : AiclkPPM :=
  with_arbs p (arbiter_max p)
    (set_value (arbiter_min p) (min_index a) (QCLAMP freq (fmin p) (fmax p))).
Definition EnableArbMax p (a : aiclk_arb_max) (b : bool) : AiclkPPM :=
  with_arbs p (set_enabled (arbiter_max p) (max_index a) b) (arbiter_min p).
Definition EnableArbMin p (a : aiclk_arb_min) (b : bool) : AiclkPPM :=
  with_arbs p (arbiter_max p) (set_enabled (arbiter_min p) (min_index a) b).

(** The loops over the arbiters: the effective value and the last arbiter that
    set it. *)
Fixpoint scan_min (i : Z) (l : list AiclkArb) (effective_min arb : Z) : Z * Z :=
  match l with
  | [] => (effective_min, arb)
  | a :: l =>
      if enabled a && Qle_bool (inject_Z effective_min) (value a)
      then scan_min (i + 1) l (to_u32 (value a)) i
      else scan_min (i + 1) l effective_min arb
  end.
Fixpoint scan_max (i : Z) (l : list AiclkArb) (effective_max arb : Z) : Z * Z :=
  match l with
  | [] => (effective_max, arb)
  | a :: l =>
      if enabled a && Qle_bool (value a) (inject_Z effective_max)
      then scan_max (i + 1) l (to_u32 (value a)) i
      else scan_max (i + 1) l effective_max arb
  end.
Definition get_aiclk_effective_arb_min p : Z * Z :=
  scan_min 0 (arbiter_min p) (fmin p) aiclk_arb_min_count.
Definition get_aiclk_effective_arb_max p : Z * Z :=
  scan_max 0 (arbiter_max p) (fmax p) aiclk_arb_max_count.

Fixpoint enabled_bitmask (i : Z) (l : list AiclkArb) (bitmask : Z) : Z :=
  match l with
  | [] => bitmask
  | a :: l => enabled_bitmask (i + 1) l (if enabled a then Z.lor bitmask (BIT i) else bitmask)
  end.
Definition get_enabled_arb_min_bitmask p : Z := enabled_bitmask 0 (arbiter_min p) 0.
Definition get_enabled_arb_max_bitmask p : Z := enabled_bitmask 0 (arbiter_max p) 0.

(** The counters of how often each arbiter limited the clock. *)
Record counters := { final_arbiter_count : list Z; frozen_mask : Z; overflow_mask : Z }.

Fixpoint count_loop (i : Z) (arbs : list AiclkArb) (targ : Z) (throttling busy : bool)
    (c : counters) : counters :=
  match arbs with
  | [] => c
  | a :: arbs =>
      let c' :=
        if enabled a && Qeq_bool (value a) (inject_Z targ) && throttling && busy
           && negb (Z.testbit (frozen_mask c) i)
        then
          let n := default 0 (zget (final_arbiter_count c) i) in
          if n <? UINT32_MAX
          then {| final_arbiter_count := <[Z.to_nat i := n + 1]> (final_arbiter_count c);
                  frozen_mask := frozen_mask c; overflow_mask := overflow_mask c |}
          else {| final_arbiter_count := final_arbiter_count c; frozen_mask := frozen_mask c;
                  overflow_mask := Z.lor (overflow_mask c) (BIT i) |}
        else c in
      count_loop (i + 1) arbs targ throttling busy c'
  end.

Definition effective_fmin_floor p : Z :=
  if 0 <? host_requested_fmin p then Z.max (fmin p) (host_requested_fmin p) else fmin p.

(** [CalculateTargAiclk]; [rand_] is what [rand()] returns. [None] is a division
    by zero in the sweep computation. *)
Definition CalculateTargAiclk (rand_ : Z) p (c : counters) : option (AiclkPPM * counters) :=
  let '(t0, min_arb) := get_aiclk_effective_arb_min p in
  let info := {| reason := limit_reason_min_arb; arbiter := min_arb |} in
  let '(max_arb_freq, max_arb) := get_aiclk_effective_arb_max p in
  let '(t1, info) :=
    if max_arb_freq <? t0
    then (max_arb_freq, {| reason := limit_reason_max_arb; arbiter := max_arb |})
    else (t0, info) in
  let throttling := negb (t1 =? fmax p) in
  let aiclk_busy :=
    match arbiter_min p !! min_index aiclk_arb_min_busy with
    | Some a => Qeq_bool (value a) (inject_Z (fmax p))
    | None => false
    end in
  let c' := count_loop 0 (arbiter_max p) t1 throttling aiclk_busy c in
  let '(t2, info) :=
    if t1 <? effective_fmin_floor p
    then (effective_fmin_floor p, {| reason := limit_reason_fmin; arbiter := 0 |})
    else (t1, info) in
  let swept :=
    if sweep_en p =? 1 then
      let range := u32 (sweep_high p - sweep_low p + 1) in
      if range =? 0 then None
      else Some (u32 (rand_ mod range + sweep_low p),
                 {| reason := limit_reason_sweep; arbiter := 0 |})
    else Some (t2, info) in
  match swept with
  | None => None
  | Some (t3, info) =>
      let '(t4, info) :=
        if negb (forced_freq p =? 0)
        then (forced_freq p, {| reason := limit_reason_forced; arbiter := 0 |})
        else (t3, info) in
      let t5 := if reset_safe p && (AICLK_RESET_SAFE_FREQ <? t4)
                then AICLK_RESET_SAFE_FREQ else t4 in
      Some (with_targ p t5 info, c')
  end.

(** What the clock driver and the regulator are told, in order. *)
Inductive hw_event := SetRate (freq : Z) | SetVcore (mv : Z) | SetVcorem (mv : Z).

Definition DecreaseAiclk p : AiclkPPM * list hw_event :=
  if targ_freq p <? curr_freq p
  then (with_curr p (targ_freq p), [SetRate (targ_freq p)]) else (p, []).
Definition IncreaseAiclk p : AiclkPPM * list hw_event :=
  if curr_freq p <? targ_freq p
  then (with_curr p (targ_freq p), [SetRate (targ_freq p)]) else (p, []).

Definition GetThrottlerArbMax p (a : aiclk_arb_max) : option Q :=
  value <$> (arbiter_max p !! max_index a).
Definition GetAiclkTarg p : Z := targ_freq p.
Definition GetAiclkFmin p : Z := fmin p.
Definition GetAiclkFmax p : Z := fmax p.
Definition get_targ_aiclk_info p : aiclk_targ_freq_info := lim_arb_info p.

(** ** Voltage *)
Definition VDD_BOOT : Z := 750.
Definition VDD_MAX_UPPER_LIMIT : Z := 900.
Definition VDD_MAX_LOWER_LIMIT : Z := 700.
Definition VDD_MIN_UPPER_LIMIT : Z := 900.
Definition VDD_MIN_LOWER_LIMIT : Z := 650.

Inductive VoltageRequestor := VoltageReqAiclk | VoltageReqL2CPU.
Definition req_index (r : VoltageRequestor) : nat :=
  match r with VoltageReqAiclk => 0 | VoltageReqL2CPU => 1 end.

Record VoltageArbiter := {
  curr_voltage : Z;
  targ_voltage : Z;
  vdd_min : Z;
  vdd_max : Z;
  forced_voltage : Z;
  req_voltage : list Z;
}.
Implicit Types (v : VoltageArbiter).

Definition with_volts v c t f r :=
  {| curr_voltage := c; targ_voltage := t; vdd_min := vdd_min v; vdd_max := vdd_max v;
     forced_voltage := f; req_voltage := r |}.

Definition VoltageChange v : VoltageArbiter * list hw_event :=
  if negb (targ_voltage v =? curr_voltage v)
  then (with_volts v (targ_voltage v) (targ_voltage v) (forced_voltage v) (req_voltage v),
        [SetVcore (targ_voltage v)])
  else (v, []).

Definition VoltageArbRequest v (r : VoltageRequestor) (voltage : Z) : VoltageArbiter :=
  with_volts v (curr_voltage v) (targ_voltage v) (forced_voltage v)
    (<[req_index r := CLAMP voltage (vdd_min v) (vdd_max v)]> (req_voltage v)).

Definition CalculateTargVoltage v : VoltageArbiter :=
  let t := foldl (λ t r, if t <? r then r else t) (vdd_min v) (req_voltage v) in
  let t := Z.min t (vdd_max v) in
  let t := if negb (forced_voltage v =? 0) then forced_voltage v else t in
  with_volts v (curr_voltage v) t (forced_voltage v) (req_voltage v).

(** The limits of the firmware table. *)
Record chip_limits := {
  asic_fmax : Z; asic_fmin : Z; vdd_max_limit : Z; vdd_min_limit : Z;
}.

Definition InitVoltagePPM (lim : chip_limits) : VoltageArbiter * list hw_event :=
  let vmin := CLAMP (vdd_min_limit lim) VDD_MIN_LOWER_LIMIT VDD_MIN_UPPER_LIMIT in
  let vmax := CLAMP (vdd_max_limit lim) VDD_MAX_LOWER_LIMIT VDD_MAX_UPPER_LIMIT in
  ({| curr_voltage := VDD_BOOT; targ_voltage := VDD_BOOT; vdd_min := vmin; vdd_max := vmax;
      forced_voltage := 0; req_voltage := [vmin; vmin] |},
   [SetVcore VDD_BOOT; SetVcorem 850]).

(** ** The control loop *)
Record dvfs := {
  ppm : AiclkPPM;
  stats : counters;
  volt : VoltageArbiter;
  dvfs_enabled : bool;
  last_msg_busy : bool;
}.

(** [CalculateThrottlers] sets and enables upper arbiters; [updates] is what it
    does to them in this pass. *)
Inductive arb_update :=
  SetMax (a : aiclk_arb_max) (freq : Q) | EnableMax (a : aiclk_arb_max) (b : bool).
Definition apply_update p (u : arb_update) : AiclkPPM :=
  match u with
  | SetMax a freq => SetAiclkArbMax p a freq
  | EnableMax a b => EnableArbMax p a b
  end.
Definition apply_updates p (updates : list arb_update) : AiclkPPM := foldl apply_update p updates.

Section loop.
Context (VFCurve : Z -> Q).

Definition DVFSChange (rand_ : Z) (updates : list arb_update) (s : dvfs)
  : option (dvfs * list hw_event) :=
  match CalculateTargAiclk rand_ (apply_updates (ppm s) updates) (stats s) with
  | None => None
  | Some (p1, c1) =>
      let aiclk_voltage := to_u32 (VFCurve (GetAiclkTarg p1)) in
      let v1 := CalculateTargVoltage (VoltageArbRequest (volt s) VoltageReqAiclk aiclk_voltage) in
      let '(p2, e1) := DecreaseAiclk p1 in
      let '(v2, e2) := VoltageChange v1 in
      let '(p3, e3) := IncreaseAiclk p2 in
      Some ({| ppm := p3; stats := c1; volt := v2; dvfs_enabled := dvfs_enabled s;
               last_msg_busy := last_msg_busy s |}, e1 ++ e2 ++ e3)
  end.

(** [GetMaxAiclkForVoltage]: one turn of the search on [(low, high)]. *)
Definition search_body (voltage : Z) (s : Z * Z) : Z * Z + Z :=
  let '(low_freq, high_freq) := s in
  if low_freq <? high_freq then
    let mid_freq := u32 (low_freq + high_freq) / 2 in
    if negb (Qle_bool (VFCurve mid_freq) (inject_Z voltage))
    then inl (low_freq, mid_freq) else inl (u32 (mid_freq + 1), high_freq)
  else inr (u32 (low_freq - 1)).
(** Twelve turns are enough for the at most 1201 frequencies in range. *)
Definition GetMaxAiclkForVoltage p (voltage : Z) : Z * Z + Z :=
  loop 12 (search_body voltage) (fmin p, u32 (fmax p + 1)).

Definition InitArbMaxVoltage p v : option AiclkPPM :=
  match GetMaxAiclkForVoltage p (vdd_max v) with
  | inl _ => None
  | inr f => Some (SetAiclkArbMax p aiclk_arb_max_voltage (inject_Z f))
  end.

(** [InitAiclkPPM] on the chip itself ([CONFIG_ARC], not the recovery image);
    [rate] is the clock driver's answer. *)
Definition InitAiclkPPM (lim : chip_limits) (rate : Z) p : AiclkPPM :=
  let fx := CLAMP (asic_fmax lim) AICLK_FMAX_MIN AICLK_FMAX_MAX in
  let fn := CLAMP (asic_fmin lim) AICLK_FMIN_MIN AICLK_FMIN_MAX in
  let p :=
    {| curr_freq := rate; targ_freq := rate; boot_freq := rate; fmax := fx; fmin := fn;
       host_requested_fmin := host_requested_fmin p; forced_freq := 0; reset_safe := false;
       sweep_en := 0; sweep_low := sweep_low p; sweep_high := sweep_high p;
       lim_arb_info := lim_arb_info p;
       arbiter_max := replicate 11 {| enabled := true; value := inject_Z fx |};
       arbiter_min := replicate 2 {| enabled := true; value := inject_Z fn |} |} in
  EnableArbMax p aiclk_arb_max_host_fmax false.

Definition with_ppm (s : dvfs) p : dvfs :=
  {| ppm := p; stats := stats s; volt := volt s; dvfs_enabled := dvfs_enabled s;
     last_msg_busy := last_msg_busy s |}.
Definition with_volt (s : dvfs) v : dvfs :=
  {| ppm := ppm s; stats := stats s; volt := v; dvfs_enabled := dvfs_enabled s;
     last_msg_busy := last_msg_busy s |}.
Definition with_stats (s : dvfs) c : dvfs :=
  {| ppm := ppm s; stats := c; volt := volt s; dvfs_enabled := dvfs_enabled s;
     last_msg_busy := last_msg_busy s |}.

(** Forcing: the return code, the state and the hardware events. *)
Definition ForceAiclk (rand_ : Z) updates (s : dvfs) (freq : Z)
  : option (Z * dvfs * list hw_event) :=
  if ((AICLK_FMAX_MAX <? freq) || (freq <? AICLK_FMIN_MIN)) && negb (freq =? 0)
  then Some (1, s, [])
  else if dvfs_enabled s then
    match DVFSChange rand_ updates (with_ppm s (with_forced (ppm s) freq)) with
    | None => None
    | Some (s', e) => Some (0, s', e)
    end
  else Some (0, s, [SetRate (if freq =? 0 then boot_freq (ppm s) else freq)]).

Definition SetAiclkResetSafe (rand_ : Z) updates (s : dvfs) (enable : bool)
  : option (dvfs * list hw_event) :=
  if Bool.eqb (reset_safe (ppm s)) enable then Some (s, [])
  else DVFSChange rand_ updates (with_ppm s (with_reset_safe (ppm s) enable)).

Definition ForceVdd (rand_ : Z) updates (s : dvfs) (voltage : Z)
  : option (Z * dvfs * list hw_event) :=
  if ((vdd_max (volt s) <? voltage) || (voltage <? vdd_min (volt s))) && negb (voltage =? 0)
  then Some (1, s, [])
  else if dvfs_enabled s then
    match DVFSChange rand_ updates
            (with_volt s (with_volts (volt s) (curr_voltage (volt s)) (targ_voltage (volt s))
                            voltage (req_voltage (volt s)))) with
    | None => None
    | Some (s', e) => Some (0, s', e)
    end
  else Some (0, s, [SetVcore (if voltage =? 0 then VDD_BOOT else voltage)]).

(** [InitDVFS] on the chip ([CONFIG_TT_BH_ARC_EMUL] off). [InitThrottlers] only
    touches the throttlers' own state. *)
Definition InitDVFS (aiclk_ppm_en regulator_error : bool) (lim : chip_limits) (s : dvfs)
  : option (dvfs * list hw_event) :=
  if negb aiclk_ppm_en then Some (s, [])
  else if regulator_error then Some (s, [])
  else
    let '(v, e) := InitVoltagePPM lim in
    match InitArbMaxVoltage (ppm s) v with
    | None => None
    | Some p =>
        Some ({| ppm := p; stats := stats s; volt := v; dvfs_enabled := true;
                 last_msg_busy := last_msg_busy s |}, e)
    end.

(** ** Host messages *)
Definition TT_SMC_MSG_AISWEEP_START : Z := 0x31.
Definition TT_SMC_MSG_AICLK_GO_BUSY : Z := 0x52.

Definition ForceAiclkHandler rand_ updates (s : dvfs) (request : list Z) :=
  ForceAiclk rand_ updates s (data request 1).
Definition ForceVddHandler rand_ updates (s : dvfs) (request : list Z) :=
  ForceVdd rand_ updates s (data request 1).
End loop.

(** [aiclk_state] is the power domain's state ([bh_power_state_get]). *)
Definition aiclk_update_busy (aiclk_state : bool) (s : dvfs) : dvfs :=
  with_ppm s (SetAiclkArbMin (ppm s) aiclk_arb_min_busy
    (inject_Z (if last_msg_busy s || aiclk_state then fmax (ppm s) else fmin (ppm s)))).

Definition aiclk_busy_handler (aiclk_state : bool) (s : dvfs) (request : list Z) : Z * dvfs :=
  (0, aiclk_update_busy aiclk_state
        {| ppm := ppm s; stats := stats s; volt := volt s; dvfs_enabled := dvfs_enabled s;
           last_msg_busy := command_code request =? TT_SMC_MSG_AICLK_GO_BUSY |}).

Definition get_aiclk_handler (rate : Z) (s : dvfs) (rsp : list Z) : Z * list Z :=
  let rsp := set_data rsp 1 rate in
  (0, set_data rsp 2 (if negb (dvfs_enabled s) then 1
                      else if negb (forced_freq (ppm s) =? 0) then 2 else 3)).

Definition SweepAiclkHandler (s : dvfs) (request : list Z) : Z * dvfs :=
  let p := ppm s in
  if command_code request =? TT_SMC_MSG_AISWEEP_START then
    if (data request 1 =? 0) || (data request 2 =? 0) then (1, s)
    else (0, with_ppm s (with_sweep p 1 (Z.max (data request 1) (fmin p))
                           (Z.min (data request 2) (fmax p))))
  else (0, with_ppm s (with_sweep p 0 (sweep_low p) (sweep_high p))).

(** The last component is the host limit reported to telemetry, if any. *)
Definition set_arb_host_fmax_handler (s : dvfs) (request : list Z) : Z * dvfs * option Z :=
  if Z.testbit (data request 2) 0 then
    (0, with_ppm s (EnableArbMax (ppm s) aiclk_arb_max_host_fmax false), Some 0)
  else
    let new_fmax := data request 1 in
    if (AICLK_FMAX_MAX <? new_fmax) || (new_fmax <? AICLK_FMAX_MIN) then (1, s, None)
    else
      (0, with_ppm s (SetAiclkArbMax (EnableArbMax (ppm s) aiclk_arb_max_host_fmax true)
                        aiclk_arb_max_host_fmax (inject_Z new_fmax)), Some new_fmax).

Definition handle_char_set_host_fmin (s : dvfs) (new_fmin : Z) : Z * dvfs :=
  if new_fmin =? 1 then (0, with_ppm s (with_host_fmin (ppm s) 0))
  else if (AICLK_FMIN_MAX <? new_fmin) || (new_fmin <? AICLK_FMIN_MIN) then (1, s)
  else (0, with_ppm s (with_host_fmin (ppm s) new_fmin)).

(** The sub-message handlers of other files are parameters. *)
Definition characterisation_handler (other : Z -> Z -> option Z) (s : dvfs) (request : list Z)
  : Z * dvfs :=
  let submsg_ID := u8 (data request 0 / 256) in
  if submsg_ID =? 1 then handle_char_set_host_fmin s (data request 1)
  else match other submsg_ID (data request 1) with
       | Some r => (r, s)
       | None => (1, s)
       end.

Fixpoint clear_loop (n : nat) (i : Z) (mask : Z) (c : counters) : counters :=
  match n with
  | O => c
  | S n =>
      clear_loop n (i + 1) mask
        (if Z.testbit mask i
         then {| final_arbiter_count := <[Z.to_nat i := 0]> (final_arbiter_count c);
                 frozen_mask := frozen_mask c;
                 overflow_mask := Z.clearbit (overflow_mask c) i |}
         else c)
  end.

(** [throttler_counter_handler]: command in byte 4, index in byte 6, mask in
    bytes 8 and 9 of the request. *)
Definition throttler_counter_handler (s : dvfs) (request rsp : list Z) : Z * dvfs * list Z :=
  let command := u8 (data request 1) in
  let idx := u8 (data request 1 / 65536) in
  let mask := u16 (data request 2) in
  let c := stats s in
  if command =? 0 then
    if aiclk_arb_max_count <=? idx then (1, s, rsp)
    else
      let ovf := if Z.testbit (overflow_mask c) idx then 1 else 0 in
      let frz := if Z.testbit (frozen_mask c) idx then 1 else 0 in
      let rsp := set_data rsp 1 (Z.lor ovf (Z.shiftl frz 16)) in
      (0, s, set_data rsp 2 (default 0 (zget (final_arbiter_count c) idx)))
  else if command =? 1 then (0, with_stats s (clear_loop 11 0 mask c), rsp)
  else if command =? 2 then
    (0, with_stats s {| final_arbiter_count := final_arbiter_count c; frozen_mask := mask;
                        overflow_mask := overflow_mask c |}, rsp)
  else (1, s, rsp).

(** ** Timer and pass statistics of [dvfs.c] *)
Record dvfs_stats := {
  dvfs_dropped_ticks : Z; dvfs_max_period_us : Z; dvfs_max_pass_us : Z;
  prev_start_cyc : Z; have_prev : bool;
}.
(** [atomic_max_u32] without contention. *)
Definition atomic_max_u32 (target value : Z) : Z := if target <? value then value else target.
(** [submitted] is the result of [k_work_submit]. *)
Definition dvfs_timer_handler (submitted : Z) (t : dvfs_stats) : dvfs_stats :=
  if submitted =? 0
  then {| dvfs_dropped_ticks := u32 (dvfs_dropped_ticks t + 1);
          dvfs_max_period_us := dvfs_max_period_us t; dvfs_max_pass_us := dvfs_max_pass_us t;
          prev_start_cyc := prev_start_cyc t; have_prev := have_prev t |}
  else t.
(** [start_cyc] and [end_cyc] are the two readings of the cycle counter,
    [cyc_to_us] is [k_cyc_to_us_floor32]. *)
Definition dvfs_work_handler (cyc_to_us : Z -> Z) (VFCurve : Z -> Q) (start_cyc end_cyc rand_ : Z)
    (updates : list arb_update) (s : dvfs) (t : dvfs_stats)
  : option (dvfs * dvfs_stats * list hw_event) :=
  let period :=
    if have_prev t
    then atomic_max_u32 (dvfs_max_period_us t) (cyc_to_us (u32 (start_cyc - prev_start_cyc t)))
    else dvfs_max_period_us t in
  match DVFSChange VFCurve rand_ updates s with
  | None => None
  | Some (s', e) =>
      Some (s', {| dvfs_dropped_ticks := dvfs_dropped_ticks t; dvfs_max_period_us := period;
                   dvfs_max_pass_us :=
                     atomic_max_u32 (dvfs_max_pass_us t) (cyc_to_us (u32 (end_cyc - start_cyc)));
                   prev_start_cyc := start_cyc; have_prev := true |}, e)
  end.
(** The timer's first delay and period in milliseconds, if it is started. *)
Definition StartDVFSTimer (enabled : bool) : option (Z * Z) :=
  if enabled then Some (1, 1) else None.
(** The timer is restarted with the returned delay, if any; [ticks] is
    [DVFS_TICKS]. *)
Definition AdjustDVFSTimer (ticks : Z) (enabled : bool) (remaining : Z) : option Z :=
  if enabled && (ticks * 10 / 100 <? remaining) then Some (remaining - ticks * 1 / 100) else None.

Definition dvfs_counter_handler (t : dvfs_stats) (request rsp : list Z) : Z * dvfs_stats * list Z :=
  let command := u8 (data request 1) in
  let idx := u8 (data request 1 / 65536) in
  let mask := u16 (data request 2) in
  if command =? 0 then
    if 3 <=? idx then (1, t, rsp)
    else
      let rsp := set_data rsp 1 0 in
      (0, t, set_data rsp 2 (if idx =? 0 then dvfs_dropped_ticks t
                             else if idx =? 1 then dvfs_max_period_us t else dvfs_max_pass_us t))
  else if command =? 1 then
    (0, {| dvfs_dropped_ticks := if Z.testbit mask 0 then 0 else dvfs_dropped_ticks t;
           dvfs_max_period_us := if Z.testbit mask 1 then 0 else dvfs_max_period_us t;
           dvfs_max_pass_us := if Z.testbit mask 2 then 0 else dvfs_max_pass_us t;
           prev_start_cyc := prev_start_cyc t; have_prev := have_prev t |}, rsp)
  else (1, t, rsp).

(** * Arbitration *)

(** The reference: highest enabled lower bound, lowest enabled upper bound. *)
Definition lower_bound p : Z :=
  foldl (λ e a, if enabled a then Z.max e (Qfloor (value a)) else e) (fmin p) (arbiter_min p).
Definition upper_bound p : Z :=
  foldl (λ e a, if enabled a then Z.min e (Qfloor (value a)) else e) (fmax p) (arbiter_max p).

Definition arb_ok (a : AiclkArb) : Prop := (0 <= value a)%Q /\ (value a < inject_Z (2 ^ 32))%Q.

Lemma to_u32_floor x : (0 <= x)%Q -> (x < inject_Z (2 ^ 32))%Q -> to_u32 x = Qfloor x.
Proof.
  intros H0 H1. apply wrap_id. split.
  - rewrite <- (Qfloor_Z 0). apply Qfloor_resp_le. exact H0.
  - rewrite Zlt_Qlt. eapply Qle_lt_trans; [apply Qfloor_le | exact H1].
Qed.

Lemma Qfloor_ge_Z z x : (inject_Z z <= x)%Q <-> z <= Qfloor x.
Proof.
  split; intros H.
  - rewrite <- (Qfloor_Z z). by apply Qfloor_resp_le.
  - eapply Qle_trans; [|apply Qfloor_le]. by rewrite <- Zle_Qle.
Qed.

Lemma Qle_bool_false x y : Qle_bool x y = false -> (y < x)%Q.
Proof.
  intros H. apply Qnot_le_lt. intros Hle. apply Qle_bool_iff in Hle. congruence.
Qed.

Lemma scan_min_spec l i e a :
  Forall arb_ok l ->
  (scan_min i l e a).1
    = foldl (λ e a, if enabled a then Z.max e (Qfloor (value a)) else e) e l.
Proof.
  intros Hl. revert i e a. induction Hl as [|x l [H0 H1] Hl IH]; intros i e a; [done|].
  cbn [scan_min foldl]. destruct (enabled x); cbn [andb]; [|apply IH].
  destruct (Qle_bool (inject_Z e) (value x)) eqn:Hq.
  - rewrite IH, to_u32_floor by done. f_equal. apply Qle_bool_iff, Qfloor_ge_Z in Hq. lia.
  - rewrite IH. f_equal. apply Qle_bool_false in Hq.
    assert (Qfloor (value x) < e); [|lia]. apply Z.nle_gt. rewrite <- Qfloor_ge_Z.
    by apply Qlt_not_le.
Qed.

Lemma scan_max_spec l i e a :
  Forall arb_ok l ->
  (scan_max i l e a).1
    = foldl (λ e a, if enabled a then Z.min e (Qfloor (value a)) else e) e l.
Proof.
  intros Hl. revert i e a. induction Hl as [|x l [H0 H1] Hl IH]; intros i e a; [done|].
  cbn [scan_max foldl]. destruct (enabled x); cbn [andb]; [|apply IH].
  destruct (Qle_bool (value x) (inject_Z e)) eqn:Hq.
  - rewrite IH, to_u32_floor by done. f_equal. apply Qle_bool_iff in Hq.
    assert (Qfloor (value x) <= e); [|lia]. rewrite <- (Qfloor_Z e). by apply Qfloor_resp_le.
  - rewrite IH. f_equal. apply Qle_bool_false, Qlt_le_weak in Hq. rewrite Qfloor_ge_Z in Hq. lia.
Qed.

Lemma upper_bound_le l e :
  let u := foldl (λ e a, if enabled a then Z.min e (Qfloor (value a)) else e) e l in
  u <= e /\ Forall (λ a, enabled a = true -> u <= Qfloor (value a)) l.
Proof.
  revert e. induction l as [|x l IH]; intros e; cbn [foldl]; [split; [lia | constructor]|].
  destruct (IH (if enabled x then Z.min e (Qfloor (value x)) else e)) as [Hle Hall].
  split; [destruct (enabled x); lia|]. constructor; [|done]. intros Hx. rewrite Hx in *. lia.
Qed.

Lemma calculate_targ_value rand_ p c :
  Forall arb_ok (arbiter_max p) -> Forall arb_ok (arbiter_min p) ->
  sweep_en p <> 1 -> forced_freq p = 0 ->
  exists p' c', CalculateTargAiclk rand_ p c = Some (p', c') /\
    p' = with_targ p (targ_freq p') (lim_arb_info p') /\
    targ_freq p' =
      (let t := Z.max (effective_fmin_floor p) (Z.min (lower_bound p) (upper_bound p)) in
       if reset_safe p then Z.min t AICLK_RESET_SAFE_FREQ else t).
Proof.
  intros Hmax Hmin Hs Hf. unfold CalculateTargAiclk.
  pose proof (scan_min_spec _ 0 (fmin p) aiclk_arb_min_count Hmin) as Hlo.
  pose proof (scan_max_spec _ 0 (fmax p) aiclk_arb_max_count Hmax) as Hup.
  unfold get_aiclk_effective_arb_min, get_aiclk_effective_arb_max.
  destruct (scan_min _ _ _ _) as [t0 min_arb]. destruct (scan_max _ _ _ _) as [m max_arb].
  cbn [fst] in Hlo, Hup. fold (lower_bound p) in Hlo. fold (upper_bound p) in Hup. subst t0 m.
  destruct (Z.eqb_spec (sweep_en p) 1); [done|]. rewrite Hf. cbn [negb Z.eqb].
  destruct (upper_bound p <? lower_bound p) eqn:E1;
    (match goal with |- context [?t <? effective_fmin_floor p] =>
       destruct (t <? effective_fmin_floor p) eqn:E2 end);
    (destruct (reset_safe p) eqn:Hrs; cbn [andb];
       [match goal with |- context [AICLK_RESET_SAFE_FREQ <? ?t] =>
          destruct (AICLK_RESET_SAFE_FREQ <? t) eqn:E3 end|]);
    eexists; eexists; (split; [reflexivity|]); (split; [reflexivity|]);
    cbn [targ_freq with_targ]; zb; lia.
Qed.

(** Without sweeping and forcing, the target frequency is the reference
    arbitration: the highest enabled lower bound, limited to the lowest enabled
    upper bound, but never below the floor, and capped at the reset-safe
    frequency when that mode is on. Above the floor it respects [fmax] and every
    enabled upper arbiter. *)
Theorem target_frequency_spec (rand_ : Z) (p : AiclkPPM) (c : counters)
    (Hmax : Forall arb_ok (arbiter_max p)) (Hmin : Forall arb_ok (arbiter_min p))
    (Hsweep : sweep_en p <> 1) (Hforced : forced_freq p = 0) :
  exists p' c', CalculateTargAiclk rand_ p c = Some (p', c') /\
    targ_freq p' =
      (let t := Z.max (effective_fmin_floor p) (Z.min (lower_bound p) (upper_bound p)) in
       if reset_safe p then Z.min t AICLK_RESET_SAFE_FREQ else t) /\
    (effective_fmin_floor p < targ_freq p' ->
       targ_freq p' <= fmax p /\
       Forall (λ a, enabled a = true -> (inject_Z (targ_freq p') <= value a)%Q) (arbiter_max p)).
Proof.
  destruct (calculate_targ_value rand_ p c Hmax Hmin Hsweep Hforced) as (p' & c' & He & _ & Ht).
  exists p', c'. split_and!; [done..|]. intros Hgt.
  destruct (upper_bound_le (arbiter_max p) (fmax p)) as [Hle Hall]. fold (upper_bound p) in *.
  assert (Hu : targ_freq p' <= upper_bound p).
  { cbn zeta in Ht. rewrite Ht in Hgt |- *. destruct (reset_safe p); lia. }
  split; [lia|]. eapply Forall_impl; [|exact Hall]. cbn. intros a Ha Hen.
  apply Qfloor_ge_Z. specialize (Ha Hen). lia.
Qed.

(** A clock between 200 and 1000 MHz, throttled to 600.5 by temperature. *)
Definition demo_ppm : AiclkPPM :=
  let p := InitAiclkPPM {| asic_fmax := 1000; asic_fmin := 200; vdd_max_limit := 850;
                           vdd_min_limit := 700 |} 800
    {| curr_freq := 0; targ_freq := 0; boot_freq := 0; fmax := 1400; fmin := 200;
       host_requested_fmin := 0; forced_freq := 0; reset_safe := false; sweep_en := 0;
       sweep_low := 0; sweep_high := 0;
       lim_arb_info := {| reason := limit_reason_fmin; arbiter := 0 |};
       arbiter_max := []; arbiter_min := [] |} in
  SetAiclkArbMax (SetAiclkArbMin p aiclk_arb_min_busy (inject_Z 1000))
    aiclk_arb_max_thm (1201 # 2)%Q.
Definition demo_counters : counters :=
  {| final_arbiter_count := replicate 11 0; frozen_mask := 0; overflow_mask := 0 |}.

Lemma demo_ppm_arbs : Forall arb_ok (arbiter_max demo_ppm) /\ Forall arb_ok (arbiter_min demo_ppm).
Proof. split; repeat constructor; vm_compute; congruence. Qed.

Lemma target_frequency_spec_witness :
  exists p' c', CalculateTargAiclk 0 demo_ppm demo_counters = Some (p', c') /\
    targ_freq p' = 600 /\
    (effective_fmin_floor demo_ppm < targ_freq p' ->
       targ_freq p' <= fmax demo_ppm /\
       Forall (λ a, enabled a = true -> (inject_Z (targ_freq p') <= value a)%Q)
         (arbiter_max demo_ppm)).
Proof.
  apply (target_frequency_spec 0 demo_ppm demo_counters (proj1 demo_ppm_arbs) (proj2 demo_ppm_arbs));
    vm_compute; congruence.
Defined.

(** * Binary search over the VF curve *)
Section vf.
Context (VFCurve : Z -> Q) (flo fhi : Z).
(** The code assumes a monotone curve; here it is one on [flo .. fhi]. *)
Hypothesis VF_mono : forall f g, flo <= f -> f <= g -> g <= fhi -> (VFCurve f <= VFCurve g)%Q.

(** The search invariant: below [low] the voltage suffices, from [high] on it
    does not. *)
Lemma search_loop (fuel : nat) voltage lo hi low high :
  1 <= lo <= low -> low <= high <= hi -> hi < 2 ^ 30 -> flo <= lo -> hi <= fhi + 1 -> high - low < 2 ^ Z.of_nat fuel ->
  (forall f, lo <= f < low -> (VFCurve f <= inject_Z voltage)%Q) ->
  (forall f, high <= f < hi -> (inject_Z voltage < VFCurve f)%Q) ->
  exists r, loop (S fuel) (search_body VFCurve voltage) (low, high) = inr r /\
    lo - 1 <= r < hi /\
    forall f, lo <= f < hi -> (VFCurve f <= inject_Z voltage)%Q <-> f <= r.
Proof.
  revert low high. induction fuel as [|fuel IH]; intros low high Hlo Hhi Hb Hfl Hfh Hd Hok Hbad;
    cbn [loop]; unfold search_body at 1.
  - destruct (Z.ltb_spec low high); [change (2 ^ Z.of_nat 0) with 1 in Hd; lia|].
    rewrite wrap_id by (unfold in_width; lia). exists (low - 1). split_and!; try lia; [done|].
    intros f Hf. split; intros Hv.
    + apply Z.nlt_ge. intros Hgt. eapply Qlt_not_le; [|exact Hv]. apply Hbad. lia.
    + apply Hok. lia.
  - destruct (Z.ltb_spec low high).
    + rewrite (wrap_id 32 (low + high)) by (unfold in_width; lia).
      set (mid := (low + high) / 2). assert (low <= mid < high).
      { split; [apply Z.div_le_lower_bound | apply Z.div_lt_upper_bound]; lia. }
      assert (Hhalf : 2 * mid <= low + high < 2 * mid + 2).
      { subst mid. pose proof (Z.div_mod (low + high) 2).
        pose proof (Z.mod_pos_bound (low + high) 2). lia. }
      rewrite Nat2Z.inj_succ, Z.pow_succ_r in Hd by lia.
      destruct (Qle_bool (VFCurve mid) (inject_Z voltage)) eqn:Hq; cbn [negb].
      * rewrite (wrap_id 32 (mid + 1)) by (unfold in_width; lia).
        apply Qle_bool_iff in Hq. apply IH; try lia; try done.
        intros f Hf. eapply Qle_trans; [apply VF_mono | exact Hq]; lia.
      * apply Qle_bool_false in Hq. apply IH; try lia; try done.
        intros f Hf. eapply Qlt_le_trans; [exact Hq|]. apply VF_mono; lia.
    + rewrite wrap_id by (unfold in_width; lia). exists (low - 1). split_and!; try lia; [done|].
      intros f Hf. split; intros Hv.
      * apply Z.nlt_ge. intros Hgt. eapply Qlt_not_le; [|exact Hv]. apply Hbad. lia.
      * apply Hok. lia.
Qed.

Lemma max_aiclk_ok (p : AiclkPPM) (voltage : Z)
    (Hrange : 1 <= fmin p /\ fmin p <= fmax p /\ fmax p - fmin p < 2000 /\ fmax p < 2 ^ 29)
    (Hcurve : flo <= fmin p /\ fmax p <= fhi) :
  exists r, GetMaxAiclkForVoltage VFCurve p voltage = inr r /\
    fmin p - 1 <= r <= fmax p /\
    forall f, fmin p <= f <= fmax p -> (VFCurve f <= inject_Z voltage)%Q <-> f <= r.
Proof.
  unfold GetMaxAiclkForVoltage. rewrite (wrap_id 32) by (unfold in_width; lia).
  destruct (search_loop 11 voltage (fmin p) (fmax p + 1) (fmin p) (fmax p + 1))
    as (r & Hr & Hb & Hs); [lia | lia | lia | lia | lia | | intros; lia | intros; lia |].
  - change (2 ^ Z.of_nat 11) with 2048. lia.
  - exists r. split; [done|]. split; [lia|]. intros f Hf. apply Hs. lia.
Qed.

(** [GetMaxAiclkForVoltage] terminates and, for a VF curve that is monotone on the range, returns
    the highest frequency of the range whose voltage does not exceed the given
    one: within [fmin .. fmax] exactly the frequencies up to the result are
    within the voltage (so the result is [fmin - 1] when none is). *)
Theorem max_aiclk_for_voltage (p : AiclkPPM) (voltage : Z)
    (Hrange : 1 <= fmin p /\ fmin p <= fmax p /\ fmax p - fmin p < 2000 /\ fmax p < 2 ^ 29)
    (Hcurve : flo <= fmin p /\ fmax p <= fhi) :
  exists r, GetMaxAiclkForVoltage VFCurve p voltage = inr r /\
    fmin p - 1 <= r <= fmax p /\
    forall f, fmin p <= f <= fmax p -> (VFCurve f <= inject_Z voltage)%Q <-> f <= r.
Proof. by apply max_aiclk_ok. Qed.

(** * Voltage follows frequency *)

(** The voltage the arbiter must provide for a frequency. *)
Definition need v (f : Z) : Z := CLAMP (to_u32 (VFCurve f)) (vdd_min v) (vdd_max v).

(** The hardware state is the clock and the core voltage. *)
Definition hw_step (h : Z * Z) (e : hw_event) : Z * Z :=
  match e with
  | SetRate f => (f, h.2)
  | SetVcore mv => (h.1, mv)
  | SetVcorem _ => h
  end.
Fixpoint hw_states (h : Z * Z) (es : list hw_event) : list (Z * Z) :=
  match es with
  | [] => [h]
  | e :: es => h :: hw_states (hw_step h e) es
  end.

Hypothesis VF_range : forall f, flo <= f <= fhi -> (0 <= VFCurve f)%Q /\ (VFCurve f < inject_Z (2 ^ 32))%Q.

Lemma need_mono v f g : vdd_min v <= vdd_max v -> flo <= f -> f <= g -> g <= fhi ->
  need v f <= need v g.
Proof.
  intros Hv Hlo Hfg Hhi. unfold need. destruct (VF_range f), (VF_range g); try lia.
  rewrite !to_u32_floor by done. pose proof (Qfloor_resp_le _ _ (VF_mono f g Hlo Hfg Hhi)).
  unfold CLAMP. zcases.
Qed.

Lemma foldl_max_ge l t : t <= foldl (λ t r : Z, if t <? r then r else t) t l.
Proof.
  revert t. induction l as [|r l IH]; intros t; cbn [foldl]; [lia|].
  etrans; [|apply IH]. destruct (Z.ltb_spec t r); lia.
Qed.

Lemma foldl_max_in l t r :
  r ∈ l -> r <= foldl (λ t r : Z, if t <? r then r else t) t l.
Proof.
  revert t. induction l as [|x l IH]; intros t Hin; [by apply elem_of_nil in Hin|].
  cbn [foldl]. apply elem_of_cons in Hin as [->|Hin]; [|by apply IH].
  etrans; [|apply foldl_max_ge]. destruct (Z.ltb_spec t x); lia.
Qed.

(** The target voltage covers the clock's request. *)
Lemma target_voltage_enough v f :
  forced_voltage v = 0 -> vdd_min v <= vdd_max v -> (0 < length (req_voltage v))%nat ->
  need v f <= targ_voltage (CalculateTargVoltage
                (VoltageArbRequest v VoltageReqAiclk (to_u32 (VFCurve f)))).
Proof.
  intros Hf Hv Hl. unfold CalculateTargVoltage, VoltageArbRequest. cbn. rewrite Hf. cbn.
  apply Z.min_glb.
  - apply foldl_max_in. destruct (req_voltage v) as [|r l]; [simpl in Hl; lia|].
    apply list_elem_of_here.
  - unfold need, CLAMP. zcases.
Qed.

Lemma apply_updates_curr p updates : curr_freq (apply_updates p updates) = curr_freq p.
Proof.
  unfold apply_updates. revert p. induction updates as [|u us IH]; intros p; [done|].
  cbn [foldl]. rewrite IH. by destruct u.
Qed.

Lemma calculate_targ_curr rand_ p c p' c' :
  CalculateTargAiclk rand_ p c = Some (p', c') -> curr_freq p' = curr_freq p.
Proof.
  unfold CalculateTargAiclk.
  destruct (get_aiclk_effective_arb_min p), (get_aiclk_effective_arb_max p). cbn zeta.
  repeat case_match; intros; simplify_eq; done.
Qed.

Lemma voltage_safe_ok (rand_ : Z) (updates : list arb_update) (s s' : dvfs)
    (es : list hw_event)
    (Hforced : forced_voltage (volt s) = 0)
    (Hlim : vdd_min (volt s) <= vdd_max (volt s))
    (Hreqs : (0 < length (req_voltage (volt s)))%nat)
    (Hsafe : need (volt s) (curr_freq (ppm s)) <= curr_voltage (volt s))
    (Hpass : DVFSChange VFCurve rand_ updates s = Some (s', es))
    (Hcurr : flo <= curr_freq (ppm s) <= fhi) (Htarg : flo <= targ_freq (ppm s') <= fhi) :
  Forall (λ h, need (volt s) h.1 <= h.2)
    (hw_states (curr_freq (ppm s), curr_voltage (volt s)) es) /\
  foldl hw_step (curr_freq (ppm s), curr_voltage (volt s)) es
    = (curr_freq (ppm s'), curr_voltage (volt s')) /\
  curr_freq (ppm s') = targ_freq (ppm s').
Proof.
  unfold DVFSChange in Hpass.
  destruct (CalculateTargAiclk _ _ _) as [[p1 c1]|] eqn:Hcalc; [|done].
  assert (Hcf : curr_freq p1 = curr_freq (ppm s))
    by (rewrite <- (apply_updates_curr (ppm s) updates); by eapply calculate_targ_curr).
  set (f := GetAiclkTarg p1) in *.
  pose proof (target_voltage_enough (volt s) f Hforced Hlim Hreqs) as Henough.
  set (v1 := CalculateTargVoltage _) in *.
  assert (Hcv : curr_voltage v1 = curr_voltage (volt s)) by done. clearbody v1.
  pose proof (λ a b, need_mono (volt s) a b Hlim) as Hm.
  unfold DecreaseAiclk, VoltageChange, IncreaseAiclk in Hpass.
  change (targ_freq p1) with f in Hpass. rewrite Hcf in Hpass.
  destruct (Z.ltb_spec f (curr_freq (ppm s))) as [Hd|Hd];
    destruct (Z.eqb_spec (targ_voltage v1) (curr_voltage v1)) as [Hv|Hv];
    cbn [negb curr_freq targ_freq with_curr] in Hpass;
    change (targ_freq p1) with f in Hpass; rewrite ?Hcf in Hpass;
    [ rewrite Z.ltb_irrefl in Hpass | rewrite Z.ltb_irrefl in Hpass
    | destruct (Z.ltb_spec (curr_freq (ppm s)) f) as [Hi|Hi]
    | destruct (Z.ltb_spec (curr_freq (ppm s)) f) as [Hi|Hi] ];
    cbn in Hpass; injection Hpass as <- <-; cbn in Htarg; change (targ_freq p1) with f in Htarg; cbn;
    repeat match goal with
    | |- context [targ_freq p1] => change (targ_freq p1) with f
    end; rewrite ?Hcf;
    (split_and!; [repeat constructor; cbn; try lia | try congruence; try (f_equal; lia) | try lia]);
    try (specialize (Hm f (curr_freq (ppm s))); lia);
    try (specialize (Hm (curr_freq (ppm s)) f); lia).
Qed.

(** C16. The voltage is never too low for the clock. Suppose that the core voltage covers, before a pass
    of the loop, what the VF curve demands at the current frequency, brought within the regulator's limits
    ([need]: a demand above the regulator's maximum is answered with the maximum), that no voltage is
    forced, and that the curve is monotone on the range in which the current and the target frequency
    lie. Then the voltage covers this need in every intermediate hardware state of the pass, and the
    firmware's view agrees with the hardware afterwards. *)
Theorem dvfs_voltage_safe (rand_ : Z) (updates : list arb_update) (s s' : dvfs)
    (es : list hw_event)
    (Hforced : forced_voltage (volt s) = 0)
    (Hlim : vdd_min (volt s) <= vdd_max (volt s))
    (Hreqs : (0 < length (req_voltage (volt s)))%nat)
    (Hsafe : need (volt s) (curr_freq (ppm s)) <= curr_voltage (volt s))
    (Hpass : DVFSChange VFCurve rand_ updates s = Some (s', es))
    (Hcurr : flo <= curr_freq (ppm s) <= fhi) (Htarg : flo <= targ_freq (ppm s') <= fhi) :
  Forall (λ h, need (volt s) h.1 <= h.2)
    (hw_states (curr_freq (ppm s), curr_voltage (volt s)) es) /\
  foldl hw_step (curr_freq (ppm s), curr_voltage (volt s)) es
    = (curr_freq (ppm s'), curr_voltage (volt s')) /\
  curr_freq (ppm s') = targ_freq (ppm s').
Proof. by eapply voltage_safe_ok. Qed.
End vf.

(** A curve that rises by one millivolt per four megahertz from 500 mV. *)
Definition demo_curve (f : Z) : Q := inject_Z (Z.max 0 (Z.min 2000 (500 + f / 4))).

Lemma demo_curve_mono f g : 200 <= f -> f <= g -> g <= 1000 -> (demo_curve f <= demo_curve g)%Q.
Proof.
  intros _ H _. unfold demo_curve. rewrite <- Zle_Qle.
  assert (f / 4 <= g / 4) by (by apply Z.div_le_mono). lia.
Qed.

Lemma demo_curve_range f : 200 <= f <= 1000 -> (0 <= demo_curve f)%Q /\ (demo_curve f < inject_Z (2 ^ 32))%Q.
Proof.
  intros _. unfold demo_curve. change 0%Q with (inject_Z 0). rewrite <- Zle_Qle, <- Zlt_Qlt. lia.
Qed.

Lemma max_aiclk_for_voltage_witness :
  GetMaxAiclkForVoltage demo_curve demo_ppm 700 = inr 803 /\
  exists r, GetMaxAiclkForVoltage demo_curve demo_ppm 700 = inr r /\
    fmin demo_ppm - 1 <= r <= fmax demo_ppm /\
    forall f, fmin demo_ppm <= f <= fmax demo_ppm ->
      (demo_curve f <= inject_Z 700)%Q <-> f <= r.
Proof.
  split; [vm_compute; reflexivity|].
  apply (max_aiclk_for_voltage demo_curve 200 1000 demo_curve_mono demo_ppm 700);
    vm_compute; split_and!; congruence.
Defined.

(** The loop running at 800 MHz with 750 mV. *)
Definition demo_dvfs : dvfs :=
  {| ppm := demo_ppm; stats := demo_counters;
     volt := (InitVoltagePPM {| asic_fmax := 1000; asic_fmin := 200; vdd_max_limit := 850;
                                vdd_min_limit := 700 |}).1;
     dvfs_enabled := true; last_msg_busy := true |}.
(** The pass drops to 400 MHz before lowering the voltage. *)
Definition demo_events : list hw_event := [SetRate 400; SetVcore 700].
Definition demo_after : dvfs :=
  match DVFSChange demo_curve 0 [SetMax aiclk_arb_max_tdp (inject_Z 400)] demo_dvfs with
  | Some (s, _) => s
  | None => demo_dvfs
  end.

Lemma dvfs_voltage_safe_witness :
  Forall (λ h, need demo_curve (volt demo_dvfs) h.1 <= h.2) (hw_states (800, 750) demo_events) /\
  foldl hw_step (800, 750) demo_events = (400, 700) /\
  curr_freq (ppm demo_after) = targ_freq (ppm demo_after).
Proof.
  apply (dvfs_voltage_safe demo_curve 200 1000 demo_curve_mono demo_curve_range 0
           [SetMax aiclk_arb_max_tdp (inject_Z 400)] demo_dvfs demo_after demo_events);
    vm_compute; (reflexivity || congruence || lia || (split; congruence)).
Defined.

(** * What the host can ask for *)

Lemma apply_updates_sweep p updates :
  sweep_en (apply_updates p updates) = sweep_en p /\
  sweep_low (apply_updates p updates) = sweep_low p /\
  sweep_high (apply_updates p updates) = sweep_high p.
Proof.
  unfold apply_updates. revert p. induction updates as [|u us IH]; intros p; [done|].
  cbn [foldl]. destruct (IH (apply_update p u)) as (-> & -> & ->). by destruct u.
Qed.

Lemma calculate_targ_sweep_zero rand_ p c :
  sweep_en p = 1 -> u32 (sweep_high p - sweep_low p + 1) = 0 ->
  CalculateTargAiclk rand_ p c = None.
Proof.
  intros Hen Hz. unfold CalculateTargAiclk. rewrite Hen, Hz.
  destruct (get_aiclk_effective_arb_min p), (get_aiclk_effective_arb_max p). cbn zeta.
  change (1 =? 1) with true. change (0 =? 0) with true. cbn match.
  by destruct (_ <? _); destruct (_ <? _).
Qed.

(** The sweep range is not checked: a sweep whose low end is one above its
    high end is accepted, and the next pass divides by zero whatever [rand]
    returns and whatever the throttlers ask for. *)
Theorem sweep_divides_by_zero (s : dvfs) (low high : Z)
    (Hlow : fmin (ppm s) <= low) (Hhigh : high <= fmax (ppm s))
    (Hgap : low = high + 1) (Hpos : 0 < high) :
  exists s', SweepAiclkHandler s [TT_SMC_MSG_AISWEEP_START; low; high] = (0, s') /\
    forall VFCurve rand_ updates, DVFSChange VFCurve rand_ updates s' = None.
Proof.
  unfold SweepAiclkHandler. change (command_code _ =? _) with true. cbn match.
  change (data [_; low; _] 1) with low. change (data [_; _; high] 2) with high.
  destruct (Z.eqb_spec low 0), (Z.eqb_spec high 0); try lia. cbn [orb].
  eexists. split; [reflexivity|]. intros VFCurve rand_ updates.
  unfold DVFSChange. rewrite calculate_targ_sweep_zero; [done|..].
  - by rewrite (proj1 (apply_updates_sweep _ _)).
  - destruct (apply_updates_sweep (with_sweep (ppm s) 1 (low `max` fmin (ppm s))
      (high `min` fmax (ppm s))) updates) as (_ & Hl & Hh).
    cbn [with_ppm ppm]. rewrite Hl, Hh. cbn [sweep_low sweep_high with_sweep].
    by replace (high `min` fmax (ppm s) - low `max` fmin (ppm s) + 1) with 0 by lia.
Qed.

Lemma sweep_divides_by_zero_witness :
  exists s', SweepAiclkHandler demo_dvfs [TT_SMC_MSG_AISWEEP_START; 501; 500] = (0, s') /\
    forall VFCurve rand_ updates, DVFSChange VFCurve rand_ updates s' = None.
Proof.
  apply (sweep_divides_by_zero demo_dvfs 501 500); vm_compute; (reflexivity || congruence).
Defined.

(** The floor the host may ask for is not limited by [fmax]: after an
    accepted request above [fmax] the target frequency is that request, above
    [fmax] and above every arbiter's limit, in every pass without sweeping,
    forcing or reset-safe mode. *)
Theorem host_fmin_exceeds_fmax (rand_ : Z) (s : dvfs) (new_fmin : Z)
    (Hmax : Forall arb_ok (arbiter_max (ppm s))) (Hmin : Forall arb_ok (arbiter_min (ppm s)))
    (Hsweep : sweep_en (ppm s) <> 1) (Hforced : forced_freq (ppm s) = 0)
    (Hreset : reset_safe (ppm s) = false)
    (Hfmin : fmin (ppm s) <= fmax (ppm s))
    (Hnew : fmax (ppm s) < new_fmin /\ AICLK_FMIN_MIN <= new_fmin <= AICLK_FMIN_MAX) :
  exists s', handle_char_set_host_fmin s new_fmin = (0, s') /\
    exists p' c', CalculateTargAiclk rand_ (ppm s') (stats s') = Some (p', c') /\
      targ_freq p' = new_fmin /\ fmax p' < targ_freq p'.
Proof.
  unfold handle_char_set_host_fmin, AICLK_FMIN_MIN, AICLK_FMIN_MAX in *.
  destruct (Z.eqb_spec new_fmin 1); [lia|].
  destruct (Z.ltb_spec 1400 new_fmin), (Z.ltb_spec new_fmin 200); try lia. cbn [orb].
  eexists. split; [reflexivity|]. cbn [ppm stats with_ppm].
  set (p := with_host_fmin (ppm s) new_fmin).
  destruct (calculate_targ_value rand_ p (stats s)) as (p' & c' & He & Hp & Ht); try done.
  exists p', c'. split; [done|].
  assert (Hfl : effective_fmin_floor p = new_fmin).
  { unfold effective_fmin_floor. subst p. cbn [fmin host_requested_fmin with_host_fmin].
    destruct (Z.ltb_spec 0 new_fmin); lia. }
  assert (Hub : upper_bound p <= fmax (ppm s)) by apply (upper_bound_le (arbiter_max p) (fmax p)).
  assert (Hfx : fmax p' = fmax (ppm s)) by (by rewrite Hp).
  cbn zeta in Ht. change (reset_safe p) with (reset_safe (ppm s)) in Ht. rewrite Hreset in Ht. lia.
Qed.

Lemma host_fmin_exceeds_fmax_witness :
  exists s', handle_char_set_host_fmin demo_dvfs 1400 = (0, s') /\
    exists p' c', CalculateTargAiclk 0 (ppm s') (stats s') = Some (p', c') /\
      targ_freq p' = 1400 /\ fmax p' < targ_freq p'.
Proof.
  apply (host_fmin_exceeds_fmax 0 demo_dvfs 1400 (proj1 demo_ppm_arbs) (proj2 demo_ppm_arbs));
    vm_compute; try split_and!; (reflexivity || congruence).
Defined.
