(* ===== verification/Throttler.v ===== *)
(** Power and thermal throttling: [lib/tenstorrent/bh_arc/throttler.c].

    Each throttler is a filtered proportional-derivative controller that moves
    one upper arbiter of the AI clock. Doppler adds a moving average of the board
    power, two fast triggers that pin the clock to its minimum, and the kernel
    throttler: a counter broadcast to the Tensix cores whose parity tells the
    kernels whether to insert NOPs. [float]s are rationals (the model has no
    rounding); uptime is an unbounded millisecond count whose low 32 bits
    [k_uptime_get_32] returns; telemetry readings are arguments. *)
From Stdlib Require Import QArith Qround.
From stdpp Require Import prelude list numbers functions.
From S2P Require Import Prelude MsgQueue Dvfs.
Open Scope Z_scope.

(** ** The controllers *)
Inductive ThrottlerId :=
  kThrottlerTDP | kThrottlerFastTDC | kThrottlerTDC | kThrottlerThm | kThrottlerBoardPower
| kThrottlerGDDRThm | kThrottlerDopplerSlow.
#[global] Instance ThrottlerId_eq_dec : EqDecision ThrottlerId.
Proof. solve_decision. Defined.
Definition all_throttlers : list ThrottlerId :=
  [kThrottlerTDP; kThrottlerFastTDC; kThrottlerTDC; kThrottlerThm; kThrottlerBoardPower;
   kThrottlerGDDRThm; kThrottlerDopplerSlow].

Record ThrottlerLimitRange := { lr_min : Z; lr_max : Z }.
Definition throttler_limit_ranges (id : ThrottlerId) : ThrottlerLimitRange :=
  match id with
  | kThrottlerTDP => {| lr_min := 50; lr_max := 500 |}
  | kThrottlerFastTDC => {| lr_min := 50; lr_max := 500 |}
  | kThrottlerTDC => {| lr_min := 50; lr_max := 400 |}
  | kThrottlerThm => {| lr_min := 50; lr_max := 100 |}
  | kThrottlerBoardPower => {| lr_min := 50; lr_max := 600 |}
  | kThrottlerGDDRThm => {| lr_min := 50; lr_max := 100 |}
  | kThrottlerDopplerSlow => {| lr_min := 50; lr_max := 1200 |}
  end.

Record ThrottlerParams := { alpha_filter : Q; p_gain : Q; d_gain : Q }.
Record Throttler := {
  arb_max : aiclk_arb_max;
  params : ThrottlerParams;
  limit : Q;
  t_value : Q;
  error : Q;
  prev_error : Q;
  output : Q;
}.

(** The static initialiser: arbiter and gains are fixed, the rest is zero. *)
Definition throttler_arb (id : ThrottlerId) : aiclk_arb_max :=
  match id with
  | kThrottlerTDP => aiclk_arb_max_tdp
  | kThrottlerFastTDC => aiclk_arb_max_fast_tdc
  | kThrottlerTDC => aiclk_arb_max_tdc
  | kThrottlerThm => aiclk_arb_max_thm
  | kThrottlerBoardPower => aiclk_arb_max_board_power
  | kThrottlerGDDRThm => aiclk_arb_max_gddr_thm
  | kThrottlerDopplerSlow => aiclk_arb_max_doppler_slow
  end.
Definition throttler_params (id : ThrottlerId) : ThrottlerParams :=
  match id with
  | kThrottlerTDP => {| alpha_filter := 1; p_gain := 15 # 1000; d_gain := 1 # 10 |}
  | kThrottlerFastTDC => {| alpha_filter := 1; p_gain := 1 # 2; d_gain := 0 |}
  | kThrottlerTDC => {| alpha_filter := 1 # 10; p_gain := 1 # 5; d_gain := 0 |}
  | kThrottlerThm => {| alpha_filter := 1; p_gain := 1 # 5; d_gain := 0 |}
  | kThrottlerBoardPower => {| alpha_filter := 1; p_gain := 1 # 10; d_gain := 1 # 10 |}
  | kThrottlerGDDRThm => {| alpha_filter := 1; p_gain := 1 # 5; d_gain := 0 |}
  | kThrottlerDopplerSlow => {| alpha_filter := 1; p_gain := 25 # 10000; d_gain := 3 # 10 |}
  end%Q.
Abbreviation throttlers := (ThrottlerId -> Throttler).
Definition throttler_boot : throttlers := λ id,
  {| arb_max := throttler_arb id; params := throttler_params id; limit := 0; t_value := 0;
     error := 0; prev_error := 0; output := 0 |}.

Definition kThrottlerAiclkScaleFactor : Q := inject_Z 500.
Definition DEFAULT_BOARD_POWER_LIMIT : Z := 150.

Definition get_throttler_clamped_limit (id : ThrottlerId) (l : Q) : Q :=
  QCLAMP l (lr_min (throttler_limit_ranges id)) (lr_max (throttler_limit_ranges id)).
Definition SetThrottlerLimit (ts : throttlers) (id : ThrottlerId) (l : Q) : throttlers :=
  <[id := {| arb_max := arb_max (ts id); params := params (ts id);
             limit := get_throttler_clamped_limit id l; t_value := t_value (ts id);
             error := error (ts id); prev_error := prev_error (ts id);
             output := output (ts id) |}]> ts.

Definition UpdateThrottler (ts : throttlers) (id : ThrottlerId) (x : Q) : throttlers :=
  let t := ts id in
  let v := (alpha_filter (params t) * x + (1 - alpha_filter (params t)) * t_value t)%Q in
  let e := ((limit t - v) / limit t)%Q in
  let o := (p_gain (params t) * e + d_gain (params t) * (e - prev_error t))%Q in
  <[id := {| arb_max := arb_max t; params := params t; limit := limit t; t_value := v;
             error := e; prev_error := e; output := o |}]> ts.

Definition UpdateThrottlerArb (ts : throttlers) (id : ThrottlerId) (p : AiclkPPM) : AiclkPPM :=
  let t := ts id in
  let arb_val := default 0%Q (GetThrottlerArbMax p (arb_max t)) in
  SetAiclkArbMax p (arb_max t) (arb_val + output t * kThrottlerAiclkScaleFactor)%Q.

(** ** The kernel throttler *)
Record nops := {
  throttle_counter : Z;
  tensixes_enabled : bool;
  nop_on_since_ms : Z;
  nop_on_accum_ms : Z;
  prev_nop_on_accum_ms : Z;
  kernel_nops_enabled : bool;
  seeded : bool;
}.
Implicit Types (n : nops).

(** The word written to every Tensix core, if any. *)
Definition BroadcastKernelThrottleState n : list Z :=
  if tensixes_enabled n then [throttle_counter n] else [].

Definition InitKernelThrottling n : nops * list Z :=
  let n := {| throttle_counter := 0; tensixes_enabled := tensixes_enabled n;
              nop_on_since_ms := 0; nop_on_accum_ms := 0; prev_nop_on_accum_ms := 0;
              kernel_nops_enabled := kernel_nops_enabled n; seeded := seeded n |} in
  (n, BroadcastKernelThrottleState n).

(** [now] is the uptime. *)
Definition SendKernelThrottlingMessage (now : Z) n (throttle : bool) : nops * list Z :=
  let c := u32 (throttle_counter n + 1) in
  let c := if negb (Z.land c 1 =? Z.b2z throttle) then u32 (c + 1) else c in
  let n := {| throttle_counter := c; tensixes_enabled := tensixes_enabled n;
              nop_on_since_ms := if throttle then u32 now else nop_on_since_ms n;
              nop_on_accum_ms :=
                if throttle then nop_on_accum_ms n
                else u32 (nop_on_accum_ms n + u32 (u32 now - nop_on_since_ms n));
              prev_nop_on_accum_ms := prev_nop_on_accum_ms n;
              kernel_nops_enabled := kernel_nops_enabled n; seeded := seeded n |} in
  (n, BroadcastKernelThrottleState n).

Definition with_nops_enabled n (b : bool) : nops :=
  {| throttle_counter := throttle_counter n; tensixes_enabled := tensixes_enabled n;
     nop_on_since_ms := nop_on_since_ms n; nop_on_accum_ms := nop_on_accum_ms n;
     prev_nop_on_accum_ms := prev_nop_on_accum_ms n; kernel_nops_enabled := b;
     seeded := seeded n |}.

(** The message is sent when the state changes. *)
Definition switch_nops (now : Z) n (new_kernel_nops_enabled : bool) : nops * list Z :=
  if negb (Bool.eqb new_kernel_nops_enabled (kernel_nops_enabled n))
  then SendKernelThrottlingMessage now (with_nops_enabled n new_kernel_nops_enabled)
         new_kernel_nops_enabled
  else (n, []).

Definition doppler_tensix_state_callback n (enable : bool) : nops * list Z :=
  let n := {| throttle_counter := throttle_counter n; tensixes_enabled := enable;
              nop_on_since_ms := nop_on_since_ms n; nop_on_accum_ms := nop_on_accum_ms n;
              prev_nop_on_accum_ms := prev_nop_on_accum_ms n;
              kernel_nops_enabled := kernel_nops_enabled n; seeded := seeded n |} in
  (n, BroadcastKernelThrottleState n).

Definition GetStartNOPCount n : Z := Z.shiftr (u32 (throttle_counter n + 1)) 1.
Definition GetNOPOnAccumulatedTime (now : Z) n : Z :=
  if kernel_nops_enabled n
  then u32 (nop_on_accum_ms n + u32 (u32 now - nop_on_since_ms n))
  else nop_on_accum_ms n.
Definition GetNOPOnDuration (now : Z) n (window_ms : Z) : Z * nops :=
  let accumulated_time := GetNOPOnAccumulatedTime now n in
  let duration := u32 (accumulated_time - prev_nop_on_accum_ms n) in
  (if seeded n then duration else Z.min duration window_ms,
   {| throttle_counter := throttle_counter n; tensixes_enabled := tensixes_enabled n;
      nop_on_since_ms := nop_on_since_ms n; nop_on_accum_ms := nop_on_accum_ms n;
      prev_nop_on_accum_ms := accumulated_time;
      kernel_nops_enabled := kernel_nops_enabled n; seeded := true |}).

(** ** Board power *)
Definition HISTORY_SIZE : Z := 1000.
Record power_window := {
  board_power_history : list Z;
  board_power_history_cursor : Z;
  board_power_sum : Z;
}.
Definition UpdateMovingAveragePower (w : power_window) (current_power : Z) : power_window * Z :=
  let cursor := board_power_history_cursor w in
  let old := default 0 (zget (board_power_history w) cursor) in
  let sum := u32 (board_power_sum w + (current_power - old)) in
  let w := {| board_power_history := <[Z.to_nat cursor := current_power]> (board_power_history w);
              board_power_history_cursor := if cursor + 1 =? HISTORY_SIZE then 0 else cursor + 1;
              board_power_sum := sum |} in
  (w, u16 (sum / HISTORY_SIZE)).

(** ** The state of the module *)
Record doppler_state := {
  power_limit : Z;
  doppler : bool;
  doppler_slow : bool;
  doppler_t2 : bool;
  doppler_t3 : bool;
  t2_count : Z;
  t3_count : Z;
}.
(** Stop frequency, its default, and the feature bit and words in telemetry. *)
Record floor_config := {
  kernel_throttler_stop_nops_freq : Z;
  kernel_throttler_stop_nops_freq_default : Z;
  kernel_nops_at_aiclk_fmin : bool;
  TAG_KERNEL_THROTTLER : Z;
}.
Record throttler_state := {
  throttler : throttlers;
  nop : nops;
  window : power_window;
  dop : doppler_state;
  config : floor_config;
}.
Implicit Types (t : throttler_state).

Definition with_throttler t ts :=
  {| throttler := ts; nop := nop t; window := window t; dop := dop t; config := config t |}.
Definition with_nop t n :=
  {| throttler := throttler t; nop := n; window := window t; dop := dop t; config := config t |}.
Definition with_config t c :=
  {| throttler := throttler t; nop := nop t; window := window t; dop := dop t; config := c |}.

Definition UpdateTelemetryKernelThrottler (c : floor_config) (enabled : bool) (stop_nops_freq : Z)
  : floor_config :=
  {| kernel_throttler_stop_nops_freq := kernel_throttler_stop_nops_freq c;
     kernel_throttler_stop_nops_freq_default := kernel_throttler_stop_nops_freq_default c;
     kernel_nops_at_aiclk_fmin := enabled;
     TAG_KERNEL_THROTTLER := Z.lor (Z.b2z enabled) (Z.shiftl (Z.land stop_nops_freq 0xFFFF) 16) |}.

(** What the firmware table says. *)
Record fw_table := {
  doppler_en : bool;
  kernel_throttler_at_floor_en : bool;
  stop_nops_freq : Z;
  tdp_limit : Z;
  tdc_fast_limit : Z;
  tdc_limit : Z;
  thm_limit : Z;
  gddr_thm_limit : Z;
  board_power_limit : Z;
  max_tdp_limit : Z;
}.

Definition init_limits (fw : fw_table) (ts : throttlers) : throttlers :=
  let ts := SetThrottlerLimit ts kThrottlerTDP (inject_Z (tdp_limit fw)) in
  let ts := SetThrottlerLimit ts kThrottlerFastTDC (inject_Z (tdc_fast_limit fw)) in
  let ts := SetThrottlerLimit ts kThrottlerTDC (inject_Z (tdc_limit fw)) in
  let ts := SetThrottlerLimit ts kThrottlerThm (inject_Z (thm_limit fw)) in
  let ts := SetThrottlerLimit ts kThrottlerBoardPower (inject_Z DEFAULT_BOARD_POWER_LIMIT) in
  let ts := SetThrottlerLimit ts kThrottlerGDDRThm (inject_Z (gddr_thm_limit fw)) in
  SetThrottlerLimit ts kThrottlerDopplerSlow (inject_Z DEFAULT_BOARD_POWER_LIMIT).

Definition init_arbs (d : bool) (p : AiclkPPM) : AiclkPPM :=
  let p := EnableArbMax p aiclk_arb_max_tdp (negb d) in
  let p := EnableArbMax p aiclk_arb_max_fast_tdc (negb d) in
  let p := EnableArbMax p aiclk_arb_max_tdc (negb d) in
  let p := EnableArbMax p aiclk_arb_max_board_power (negb d) in
  let p := EnableArbMax p aiclk_arb_max_thm true in
  let p := EnableArbMax p aiclk_arb_max_gddr_thm true in
  let p := EnableArbMax p aiclk_arb_max_doppler_slow d in
  let p := SetAiclkArbMax p aiclk_arb_max_doppler_critical (inject_Z (GetAiclkFmin p)) in
  EnableArbMax p aiclk_arb_max_doppler_critical false.

Definition InitThrottlers (fw : fw_table) t (p : AiclkPPM)
  : throttler_state * AiclkPPM * list Z :=
  let d := doppler_en fw in
  let f := stop_nops_freq fw in
  let f := if negb (f =? 0) && ((f <? AICLK_FMIN_MIN) || (AICLK_FMIN_MAX <? f)) then 0 else f in
  let c := UpdateTelemetryKernelThrottler
    {| kernel_throttler_stop_nops_freq := f; kernel_throttler_stop_nops_freq_default := f;
       kernel_nops_at_aiclk_fmin := kernel_nops_at_aiclk_fmin (config t);
       TAG_KERNEL_THROTTLER := TAG_KERNEL_THROTTLER (config t) |}
    (kernel_throttler_at_floor_en fw) f in
  let '(n, w) := InitKernelThrottling (nop t) in
  ({| throttler := init_limits fw (throttler t); nop := n; window := window t;
      dop := {| power_limit := power_limit (dop t); doppler := d; doppler_slow := d;
                doppler_t2 := d; doppler_t3 := d; t2_count := t2_count (dop t);
                t3_count := t3_count (dop t) |};
      config := c |}, init_arbs d p, w).

(** ** A pass *)
Definition DopplerActive (d : doppler_state) : bool := doppler d && (0 <? power_limit d).

(** A run of samples above a threshold, saturating at [UINT8_MAX]. *)
Definition run_count (count : Z) (above : bool) : Z :=
  if above then (if count <? UINT8_MAX then count + 1 else count) else 0.
Definition t2_power_limit (d : doppler_state) : Z := u32 (power_limit d * 2).
Definition t3_power_limit (d : doppler_state) : Z := u32 (power_limit d * 5) / 2.
Definition update_counts (d : doppler_state) (current_power : Z) : doppler_state :=
  {| power_limit := power_limit d; doppler := doppler d; doppler_slow := doppler_slow d;
     doppler_t2 := doppler_t2 d; doppler_t3 := doppler_t3 d;
     t2_count := run_count (t2_count d) (t2_power_limit d <? current_power);
     t3_count := run_count (t3_count d) (t3_power_limit d <? current_power) |}.
Definition critical_throttling (d : doppler_state) : bool :=
  ((10 <=? t2_count d) && doppler_t2 d) || ((2 <=? t3_count d) && doppler_t3 d).

Definition UpdateDoppler (now current_power : Z) t (p : AiclkPPM)
  : throttler_state * AiclkPPM * list Z :=
  let '(w, average_power) := UpdateMovingAveragePower (window t) current_power in
  let ts := UpdateThrottler (throttler t) kThrottlerDopplerSlow (inject_Z average_power) in
  let d := update_counts (dop t) current_power in
  let start_nops := (GetAiclkTarg p =? GetAiclkFmin p) && (power_limit d <? current_power) in
  let stop_nops := (GetAiclkTarg p =? GetAiclkFmax p) && (current_power <? power_limit d) in
  let critical := critical_throttling d in
  let new := ((kernel_nops_enabled (nop t) || start_nops) && negb stop_nops) || critical in
  let '(n, e) := switch_nops now (nop t) new in
  ({| throttler := ts; nop := n; window := w; dop := d; config := config t |},
   EnableArbMax p aiclk_arb_max_doppler_critical critical, e).

Definition stop_freq (c : floor_config) (p : AiclkPPM) : Z :=
  if kernel_throttler_stop_nops_freq c =? 0 then (get_aiclk_effective_arb_min p).1
  else kernel_throttler_stop_nops_freq c.
Definition UpdateKernelThrottler (now : Z) (current_power tdp_lim : Q) t (p : AiclkPPM)
  : throttler_state * list Z :=
  let en := kernel_nops_at_aiclk_fmin (config t) in
  let start_nops := en && ((GetAiclkTarg p =? GetAiclkFmin p)
                           && negb (Qle_bool current_power tdp_lim)) in
  let stop_nops := en && ((stop_freq (config t) p <=? GetAiclkTarg p)
                          && negb (Qle_bool tdp_lim current_power)) in
  let new := (kernel_nops_enabled (nop t) || start_nops) && negb stop_nops in
  let '(n, e) := switch_nops now (nop t) new in
  (with_nop t n, e).

(** The readings of a pass: [TelemetryInternalData] and [GetInputPower]. *)
Record readings := {
  vcore_power : Q; vcore_current : Q; asic_temperature : Q; max_temp : Z; input_power : Z;
}.

Definition CalculateThrottlers (now : Z) (r : readings) t (p : AiclkPPM)
  : throttler_state * AiclkPPM * list Z :=
  let '(t1, p1, e) :=
    if DopplerActive (dop t) then UpdateDoppler now (input_power r) t p
    else
      let ts := UpdateThrottler (throttler t) kThrottlerTDP (vcore_power r) in
      let ts := UpdateThrottler ts kThrottlerFastTDC (vcore_current r) in
      let ts := UpdateThrottler ts kThrottlerTDC (vcore_current r) in
      let ts := UpdateThrottler ts kThrottlerBoardPower (inject_Z (input_power r)) in
      let '(t1, e) :=
        UpdateKernelThrottler now (vcore_power r) (limit (ts kThrottlerTDP))
          (with_throttler t ts) p in
      (t1, p, e) in
  let ts := UpdateThrottler (throttler t1) kThrottlerThm (asic_temperature r) in
  let ts := UpdateThrottler ts kThrottlerGDDRThm (inject_Z (max_temp r)) in
  (with_throttler t1 ts, foldl (λ p id, UpdateThrottlerArb ts id p) p1 all_throttlers, e).

(** ** Messages *)
Definition ThrottlerSetKernelThrottlerEnabled (now : Z) t (enabled : Z)
  : Z * throttler_state * list Z :=
  if 1 <? enabled then (1, t, [])
  else
    let en := negb (enabled =? 0) in
    let '(n, e) :=
      if negb en && kernel_nops_enabled (nop t)
      then SendKernelThrottlingMessage now (with_nops_enabled (nop t) false) false
      else (nop t, []) in
    (0, with_config (with_nop t n)
          (UpdateTelemetryKernelThrottler (config t) en
             (kernel_throttler_stop_nops_freq (config t))), e).

Definition with_stop_freq (c : floor_config) (f : Z) : floor_config :=
  UpdateTelemetryKernelThrottler
    {| kernel_throttler_stop_nops_freq := f;
       kernel_throttler_stop_nops_freq_default := kernel_throttler_stop_nops_freq_default c;
       kernel_nops_at_aiclk_fmin := kernel_nops_at_aiclk_fmin c;
       TAG_KERNEL_THROTTLER := TAG_KERNEL_THROTTLER c |}
    (kernel_nops_at_aiclk_fmin c) f.
Definition ThrottlerSetKernelThrottlerStopFreq t (frequency : Z) : Z * throttler_state :=
  if frequency =? 0 then
    (0, with_config t (with_stop_freq (config t)
                         (kernel_throttler_stop_nops_freq_default (config t))))
  else if (AICLK_FMIN_MAX <? frequency) || (frequency <? AICLK_FMIN_MIN) then (1, t)
  else (0, with_config t (with_stop_freq (config t) frequency)).

(** The last component is the limit reported to telemetry. *)
Definition Dm2CmSetBoardPowerLimit (fw : fw_table) t (data : list Z) (size : Z)
  : Z * throttler_state * option Z :=
  if negb (size =? 2) then (-1, t, None)
  else
    let l := Z.min (le_value (take 2 data)) (board_power_limit fw) in
    let ts := SetThrottlerLimit (throttler t) kThrottlerBoardPower (inject_Z l) in
    let ts := SetThrottlerLimit ts kThrottlerDopplerSlow (inject_Z l) in
    let d := dop t in
    (0, {| throttler := ts; nop := nop t; window := window t;
           dop := {| power_limit := l; doppler := doppler d; doppler_slow := doppler_slow d;
                     doppler_t2 := doppler_t2 d; doppler_t3 := doppler_t3 d;
                     t2_count := t2_count d; t3_count := t3_count d |};
           config := config t |}, Some l).

(** The last component is the limit reported to telemetry. *)
Definition set_tdp_limit_handler (fw : fw_table) t (request : list Z)
  : Z * throttler_state * option Z :=
  let default_tdp := get_throttler_clamped_limit kThrottlerTDP (inject_Z (tdp_limit fw)) in
  let max_tdp :=
    if Qle_bool (inject_Z (max_tdp_limit fw)) default_tdp then default_tdp
    else inject_Z (Z.min (max_tdp_limit fw) (lr_max (throttler_limit_ranges kThrottlerTDP))) in
  let new_tdp := if Z.testbit (data request 2) 0 then default_tdp
                 else inject_Z (data request 1) in
  if negb (Qle_bool new_tdp max_tdp) then (1, t, None)
  else if negb (Qeq_bool (get_throttler_clamped_limit kThrottlerTDP new_tdp) new_tdp)
  then (1, t, None)
  else
    let ts := SetThrottlerLimit (throttler t) kThrottlerTDP new_tdp in
    (0, with_throttler t ts, Some (to_u32 (limit (ts kThrottlerTDP)))).

(** * What a pass does to the clock's arbiters *)

Definition arb_updates (ts : throttlers) (p : AiclkPPM) (ids : list ThrottlerId)
  : list arb_update * AiclkPPM :=
  foldl (λ a id, let arb_val := default 0%Q (GetThrottlerArbMax a.2 (arb_max (ts id))) in
           (a.1 ++ [SetMax (arb_max (ts id))
                      (arb_val + output (ts id) * kThrottlerAiclkScaleFactor)%Q],
            UpdateThrottlerArb ts id a.2)) ([], p) ids.

Lemma arb_updates_spec ts p ids :
  foldl (λ p id, UpdateThrottlerArb ts id p) p ids = apply_updates p (arb_updates ts p ids).1 /\
  (arb_updates ts p ids).2 = foldl (λ p id, UpdateThrottlerArb ts id p) p ids.
Proof.
  unfold arb_updates. induction ids as [|id ids [IH1 IH2]] using rev_ind; [done|].
  rewrite !foldl_app. cbn [foldl fst snd]. rewrite IH2. split; [|done].
  unfold apply_updates in *. rewrite foldl_app, <- IH1. done.
Qed.

(** A pass only sets and enables upper arbiters, so that what is proved of the
    loop for every list of updates holds for the throttlers'. *)
Lemma calculate_throttlers_updates now r t p :
  exists us, (CalculateThrottlers now r t p).1.2 = apply_updates p us.
Proof.
  unfold CalculateThrottlers. destruct (DopplerActive (dop t)).
  - unfold UpdateDoppler. destruct (UpdateMovingAveragePower _ _), (switch_nops _ _ _).
    cbn zeta. cbn [fst snd]. eexists (EnableMax _ _ :: _). apply arb_updates_spec.
  - destruct (UpdateKernelThrottler _ _ _ _ _). cbn zeta. cbn [fst snd].
    eexists. apply arb_updates_spec.
Qed.

(** * Limits *)
Definition limit_ok (ts : throttlers) (id : ThrottlerId) : Prop :=
  (inject_Z (lr_min (throttler_limit_ranges id)) <= limit (ts id))%Q /\
  (limit (ts id) <= inject_Z (lr_max (throttler_limit_ranges id)))%Q.

Lemma QCLAMP_range x lo hi :
  lo <= hi -> (inject_Z lo <= QCLAMP x lo hi)%Q /\ (QCLAMP x lo hi <= inject_Z hi)%Q.
Proof.
  intros H. rewrite Zle_Qle in H. unfold QCLAMP.
  destruct (Qle_bool x (inject_Z lo)) eqn:E1; [split; [apply Qle_refl | done]|].
  apply Qle_bool_false in E1. destruct (Qle_bool x (inject_Z hi)) eqn:E2.
  - apply Qle_bool_iff in E2. split; [by apply Qlt_le_weak | done].
  - split; [done | apply Qle_refl].
Qed.

Lemma set_limit_ok ts i l id :
  (id = i \/ limit_ok ts id) -> limit_ok (SetThrottlerLimit ts i l) id.
Proof.
  intros H. unfold limit_ok, SetThrottlerLimit. destruct (decide (i = id)) as [->|Hne].
  - rewrite fn_lookup_insert. cbn [limit]. apply QCLAMP_range. by destruct id.
  - rewrite fn_lookup_insert_ne by done. destruct H as [->|H]; [done | exact H].
Qed.

Lemma update_limit_ok ts i x id : limit_ok ts id -> limit_ok (UpdateThrottler ts i x) id.
Proof.
  intros H. unfold limit_ok, UpdateThrottler. destruct (decide (i = id)) as [->|Hne].
  - by rewrite fn_lookup_insert.
  - by rewrite fn_lookup_insert_ne.
Qed.

Lemma init_limits_ok fw ts id : limit_ok (init_limits fw ts) id.
Proof.
  unfold init_limits. destruct id;
    repeat (apply set_limit_ok; first [left; reflexivity | right]).
Qed.
#[export] Hint Resolve update_limit_ok set_limit_ok : fw.

(** * The kernel throttler's counter *)
Definition nops_wf n : Prop :=
  in_width 32 (throttle_counter n) /\ Z.odd (throttle_counter n) = kernel_nops_enabled n.
(** What the cores saw last is the current counter, while they are enabled. *)
Definition seen n (es : list Z) : Prop :=
  tensixes_enabled n = true -> list.last es = Some (throttle_counter n).

Lemma odd_wrap32 z : Z.odd (wrap 32 z) = Z.odd z.
Proof. unfold wrap. rewrite <- !Z.bit0_odd. by apply Z.mod_pow2_bits_low. Qed.

Lemma land1_odd c b : (Z.land c 1 =? Z.b2z b) = Bool.eqb (Z.odd c) b.
Proof.
  change 1 with (Z.ones 1) at 1. rewrite Z.land_ones by done. change (2 ^ 1) with 2.
  rewrite Zmod_odd. by destruct (Z.odd c), b.
Qed.

Lemma send_spec now n b :
  Z.odd (throttle_counter n) = negb b ->
  (SendKernelThrottlingMessage now n b).1.(throttle_counter) = u32 (throttle_counter n + 1).
Proof.
  intros H. unfold SendKernelThrottlingMessage. cbn [throttle_counter fst].
  rewrite land1_odd, odd_wrap32, Z.add_1_r, Z.odd_succ, <- Z.negb_odd, H, negb_involutive.
  by destruct b.
Qed.

Lemma broadcast_seen n es : seen n (es ++ BroadcastKernelThrottleState n).
Proof.
  unfold seen, BroadcastKernelThrottleState. intros ->. apply last_snoc.
Qed.

Lemma switch_nops_wf now n b es :
  nops_wf n -> seen n es ->
  let r := switch_nops now n b in
  nops_wf r.1 /\ kernel_nops_enabled r.1 = b /\ seen r.1 (es ++ r.2) /\
  throttle_counter r.1 = u32 (throttle_counter n + Z.b2z (xorb b (kernel_nops_enabled n))).
Proof.
  intros [Hw Ho] Hs. unfold switch_nops. destruct (Bool.eqb b (kernel_nops_enabled n)) eqn:Hb;
    cbn [negb]; cbn zeta.
  - apply eqb_prop in Hb as ->. cbn [fst snd]. rewrite app_nil_r, xorb_nilpotent. cbn [Z.b2z].
    split_and!; try done. by rewrite Z.add_0_r, wrap_id.
  - apply eqb_false_iff in Hb.
    assert (Hsp := send_spec now (with_nops_enabled n b) b).
    cbn [with_nops_enabled throttle_counter] in Hsp. rewrite Ho in Hsp.
    assert (Hx : kernel_nops_enabled n = negb b) by (by destruct b, (kernel_nops_enabled n)).
    specialize (Hsp Hx). fold (with_nops_enabled n b) in Hsp.
    assert (Hen : kernel_nops_enabled (SendKernelThrottlingMessage now
                    (with_nops_enabled n b) b).1 = b) by done.
    split_and!; [split| done | apply broadcast_seen |].
    + rewrite Hsp. by apply wrap_in_width.
    + rewrite Hsp, Hen, odd_wrap32, Z.add_1_r, Z.odd_succ, <- Z.negb_odd, Ho, Hx.
      apply negb_involutive.
    + rewrite Hsp, Hx. by destruct b.
Qed.

(** * Every reachable state *)

(** The power window: the sum is that of the history. *)
Definition window_wf (w : power_window) : Prop :=
  length (board_power_history w) = 1000%nat /\
  0 <= board_power_history_cursor w < HISTORY_SIZE /\
  Forall (in_width 16) (board_power_history w) /\
  board_power_sum w = foldr Z.add 0 (board_power_history w).

Definition throttler_wf t : Prop :=
  (forall id, limit_ok (throttler t) id) /\ nops_wf (nop t) /\ window_wf (window t).

(** What happens to the module after its initialisation, with the words it
    broadcasts. The clock's state [p] is whatever it is at that moment. *)
Inductive tstep (fw : fw_table) : throttler_state -> list Z -> throttler_state -> Prop :=
| step_pass now r t p (Hp : in_width 16 (input_power r)) :
    tstep fw t (CalculateThrottlers now r t p).2 (CalculateThrottlers now r t p).1.1
| step_enable now t x :
    tstep fw t (ThrottlerSetKernelThrottlerEnabled now t x).2
      (ThrottlerSetKernelThrottlerEnabled now t x).1.2
| step_stop_freq t f : tstep fw t [] (ThrottlerSetKernelThrottlerStopFreq t f).2
| step_board_power t d size : tstep fw t [] (Dm2CmSetBoardPowerLimit fw t d size).1.2
| step_tdp t request : tstep fw t [] (set_tdp_limit_handler fw t request).1.2
| step_tensix t b :
    tstep fw t (doppler_tensix_state_callback (nop t) b).2
      (with_nop t (doppler_tensix_state_callback (nop t) b).1)
| step_sample now t window_ms :
    tstep fw t [] (with_nop t (GetNOPOnDuration now (nop t) window_ms).2).

Inductive truns (fw : fw_table) (t0 : throttler_state) : list Z -> throttler_state -> Prop :=
| truns_start : truns fw t0 [] t0
| truns_step es t es' t' :
    truns fw t0 es t -> tstep fw t es' t' -> truns fw t0 (es ++ es') t'.

Lemma sum_list_bound l m : Forall (in_width 16) l -> length l = m ->
  0 <= foldr Z.add 0 l <= 65535 * Z.of_nat m.
Proof.
  intros H. revert m. induction H as [|x l Hx Hl IH]; intros m <-; cbn [foldr length]; [lia|].
  specialize (IH _ eq_refl). unfold in_width in Hx. lia.
Qed.

Lemma sum_list_insert l i x y : l !! i = Some y ->
  foldr Z.add 0 (<[i := x]> l) = foldr Z.add 0 l + (x - y).
Proof.
  revert i. induction l as [|z l IH]; intros [|i] H; simplify_eq/=; [lia|].
  rewrite (IH i H). lia.
Qed.

(** One sample replaces the oldest and the cursor moves on. *)
Lemma moving_average_step w x : window_wf w -> in_width 16 x ->
  window_wf (UpdateMovingAveragePower w x).1 /\
  exists old, board_power_history w !! Z.to_nat (board_power_history_cursor w) = Some old /\
    board_power_sum (UpdateMovingAveragePower w x).1 = board_power_sum w + (x - old) /\
    (UpdateMovingAveragePower w x).2
      = board_power_sum (UpdateMovingAveragePower w x).1 / HISTORY_SIZE.
Proof.
  intros (Hl & Hc & Hf & Hs) Hx. unfold HISTORY_SIZE in *.
  destruct (lookup_lt_is_Some_2 (board_power_history w)
              (Z.to_nat (board_power_history_cursor w))) as [old Hold]; [lia|].
  pose proof (sum_list_insert _ _ x _ Hold) as Hins.
  assert (Hf' : Forall (in_width 16)
    (<[Z.to_nat (board_power_history_cursor w) := x]> (board_power_history w)))
    by (by apply Forall_insert).
  pose proof (sum_list_bound _ 1000 Hf' ltac:(by rewrite length_insert)) as Hb.
  unfold UpdateMovingAveragePower. cbn zeta.
  assert (Hz : zget (board_power_history w) (board_power_history_cursor w) = Some old)
    by (unfold zget; case_match; [zlia | done]).
  rewrite Hz. cbn [default fst snd board_power_sum from_option id].
  rewrite (wrap_id 32) by (unfold in_width; lia).
  split.
  - split_and!; cbn [board_power_history board_power_history_cursor board_power_sum].
    + by rewrite length_insert.
    + case_match; zb; unfold HISTORY_SIZE in *; lia.
    + case_match; zb; unfold HISTORY_SIZE in *; lia.
    + done.
    + lia.
  - exists old. split_and!; try done. apply wrap_id. split.
    + apply Z.div_pos; unfold HISTORY_SIZE; lia.
    + apply Z.div_lt_upper_bound; unfold HISTORY_SIZE; lia.
Qed.

Lemma update_doppler_wf now x t p es :
  in_width 16 x -> throttler_wf t -> seen (nop t) es ->
  let r := UpdateDoppler now x t p in
  throttler_wf r.1.1 /\ seen (nop r.1.1) (es ++ r.2).
Proof.
  intros Hx (Hl & Hn & Hw) Hs. unfold UpdateDoppler.
  destruct (moving_average_step (window t) x Hw Hx) as [Hw' _].
  destruct (UpdateMovingAveragePower (window t) x) as [w avg]. cbn zeta.
  match goal with |- context [switch_nops now (nop t) ?b] =>
    destruct (switch_nops_wf now (nop t) b es Hn Hs) as (Hn' & _ & Hs' & _);
    destruct (switch_nops now (nop t) b) as [n e] end.
  cbn [fst snd] in *. split; [split_and!|]; cbn; auto with fw.
Qed.

Lemma update_kernel_throttler_wf now x l t p es :
  throttler_wf t -> seen (nop t) es ->
  let r := UpdateKernelThrottler now x l t p in
  throttler_wf r.1 /\ seen (nop r.1) (es ++ r.2).
Proof.
  intros (Hl & Hn & Hw) Hs. unfold UpdateKernelThrottler. cbn zeta.
  match goal with |- context [switch_nops now (nop t) ?b] =>
    destruct (switch_nops_wf now (nop t) b es Hn Hs) as (Hn' & _ & Hs' & _);
    destruct (switch_nops now (nop t) b) as [n e] end.
  cbn [fst snd] in *. by split; [split_and!|].
Qed.

Lemma pass_wf now r t p es :
  in_width 16 (input_power r) -> throttler_wf t -> seen (nop t) es ->
  let c := CalculateThrottlers now r t p in
  throttler_wf c.1.1 /\ seen (nop c.1.1) (es ++ c.2).
Proof.
  intros Hx Hwf Hs. unfold CalculateThrottlers. destruct (DopplerActive (dop t)).
  - destruct (update_doppler_wf now _ t p es Hx Hwf Hs) as [(Hl & Hn & Hw) Hs'].
    destruct (UpdateDoppler _ _ _ _) as [[t1 p1] e]. cbn [fst snd] in *. cbn zeta.
    split; [split_and!|]; cbn; auto with fw.
  - cbn zeta.
    match goal with |- context [UpdateKernelThrottler now ?x ?l ?t1 p] =>
      destruct (update_kernel_throttler_wf now x l t1 p es) as [(Hl & Hn & Hw) Hs'];
      [destruct Hwf as (Hl & Hn & Hw); split_and!; cbn; auto 10 with fw | done |];
      destruct (UpdateKernelThrottler now x l t1 p) as [t2 e] end.
    cbn [fst snd] in *. split; [split_and!|]; cbn; auto with fw.
Qed.

Lemma tstep_wf fw t es' t' es :
  tstep fw t es' t' -> throttler_wf t -> seen (nop t) es ->
  throttler_wf t' /\ seen (nop t') (es ++ es').
Proof.
  intros Hstep Hwf Hs. destruct Hstep as [now r t p Hp|now t x|t f|t d size|t q|t b|now t w].
  - by apply pass_wf.
  - unfold ThrottlerSetKernelThrottlerEnabled.
    destruct (1 <? x); [by rewrite app_nil_r|].
    destruct Hwf as (Hl & Hn & Hw).
    destruct (switch_nops_wf now (nop t) false es Hn Hs) as (Hn' & _ & Hs' & _).
    unfold switch_nops in *.
    destruct (negb (negb (x =? 0))), (kernel_nops_enabled (nop t));
      cbn [andb negb Bool.eqb fst snd] in *; cbn zeta; rewrite ?app_nil_r in *;
      (split; [split_and!|]; cbn; done).
  - rewrite app_nil_r. unfold ThrottlerSetKernelThrottlerStopFreq. by repeat case_match.
  - rewrite app_nil_r. unfold Dm2CmSetBoardPowerLimit. destruct (negb (size =? 2)); [done|].
    destruct Hwf as (Hl & Hn & Hw). cbn. split; [split_and!|]; cbn; auto 10 with fw.
  - rewrite app_nil_r. unfold set_tdp_limit_handler. cbn zeta.
    destruct (negb (Qle_bool _ _)); [done|]. destruct (negb (Qeq_bool _ _)); [done|].
    destruct Hwf as (Hl & Hn & Hw). split; [split_and!|]; cbn; auto 10 with fw.
  - destruct Hwf as (Hl & Hn & Hw). split; [by split_and!|]. apply broadcast_seen.
  - rewrite app_nil_r. destruct Hwf as (Hl & Hn & Hw). split; [by split_and!|]. exact Hs.
Qed.

(** The state before initialisation. *)
Definition window_start : power_window :=
  {| board_power_history := replicate 1000 0; board_power_history_cursor := 0;
     board_power_sum := 0 |}.

Lemma window_start_wf : window_wf window_start.
Proof.
  split_and!; [apply length_replicate | done | done | | vm_compute; reflexivity].
  by apply Forall_replicate.
Qed.

Definition throttler_start : throttler_state :=
  {| throttler := throttler_boot;
     nop := {| throttle_counter := 0; tensixes_enabled := true; nop_on_since_ms := 0;
               nop_on_accum_ms := 0; prev_nop_on_accum_ms := 0; kernel_nops_enabled := false;
               seeded := false |};
     window := window_start;
     dop := {| power_limit := 0; doppler := false; doppler_slow := false; doppler_t2 := false;
               doppler_t3 := false; t2_count := 0; t3_count := 0 |};
     config := {| kernel_throttler_stop_nops_freq := 0;
                  kernel_throttler_stop_nops_freq_default := 0;
                  kernel_nops_at_aiclk_fmin := false; TAG_KERNEL_THROTTLER := 0 |} |}.

Lemma init_wf fw p :
  let r := InitThrottlers fw throttler_start p in
  throttler_wf r.1.1 /\ seen (nop r.1.1) r.2.
Proof.
  split; [split_and!|]; [apply init_limits_ok | by split | apply window_start_wf | done].
Qed.

(** C32. In every state the module can reach after its initialisation, through
    passes and messages in any order: every limit is in its permitted range (so
    the controllers never divide by zero); the counter is odd exactly while NOPs
    are on; the sum of the power window is that of its entries; and, while the
    Tensix cores are enabled, the last word they were sent is the current
    counter, so that they act on the current state. *)
Theorem throttler_reachable (fw : fw_table) (p : AiclkPPM) (es : list Z) (t : throttler_state)
    (Hrun : truns fw (InitThrottlers fw throttler_start p).1.1 es t) :
  (forall id, (inject_Z 50 <= limit (throttler t id))%Q /\ limit_ok (throttler t) id) /\
  Z.odd (throttle_counter (nop t)) = kernel_nops_enabled (nop t) /\
  board_power_sum (window t) = foldr Z.add 0 (board_power_history (window t)) /\
  (tensixes_enabled (nop t) = true ->
     list.last ((InitThrottlers fw throttler_start p).2 ++ es) = Some (throttle_counter (nop t))).
Proof.
  assert (H : throttler_wf t /\ seen (nop t) ((InitThrottlers fw throttler_start p).2 ++ es)).
  { induction Hrun as [|es t es' t' _ [IHw IHs] Hstep].
    - rewrite app_nil_r. apply init_wf.
    - rewrite app_assoc. by eapply tstep_wf. }
  destruct H as [(Hl & [_ Ho] & _ & _ & _ & Hsum) Hs]. split_and!; try done.
  intros id. split; [|done]. destruct (Hl id) as [Hlo _]. by destruct id.
Qed.

Definition demo_fw : fw_table :=
  {| doppler_en := true; kernel_throttler_at_floor_en := true; stop_nops_freq := 0;
     tdp_limit := 100; tdc_fast_limit := 160; tdc_limit := 120; thm_limit := 83;
     gddr_thm_limit := 85; board_power_limit := 300; max_tdp_limit := 150 |}.
Definition demo_reading (w : Z) : readings :=
  {| vcore_power := inject_Z 120; vcore_current := inject_Z 100; asic_temperature := inject_Z 60;
     max_temp := 55; input_power := w |}.
Definition demo_init : throttler_state := (InitThrottlers demo_fw throttler_start demo_ppm).1.1.
(** A 200 W limit, then two samples of 600 W trip the fast trigger. *)
Definition demo_t1 : throttler_state := (Dm2CmSetBoardPowerLimit demo_fw demo_init [200; 0] 2).1.2.
Definition demo_pass (now : Z) t : throttler_state * AiclkPPM * list Z :=
  CalculateThrottlers now (demo_reading 600) t demo_ppm.
Definition demo_t2 : throttler_state := (demo_pass 10 demo_t1).1.1.
Definition demo_t3 : throttler_state := (demo_pass 11 demo_t2).1.1.

Lemma demo_truns :
  truns demo_fw demo_init ((([] ++ []) ++ (demo_pass 10 demo_t1).2) ++ (demo_pass 11 demo_t2).2)
    demo_t3.
Proof.
  eapply truns_step; [eapply truns_step; [eapply truns_step; [apply truns_start|]|]|].
  - apply step_board_power.
  - by apply step_pass.
  - by apply step_pass.
Qed.

Lemma throttler_reachable_witness :
  Z.odd (throttle_counter (nop demo_t3)) = true /\
  list.last ([0] ++ [] ++ (demo_pass 10 demo_t1).2 ++ (demo_pass 11 demo_t2).2) = Some 1.
Proof.
  destruct (throttler_reachable demo_fw demo_ppm _ demo_t3 demo_truns) as (_ & Ho & _ & Hl).
  split.
  - rewrite Ho. vm_compute. reflexivity.
  - etransitivity; [|etransitivity; [apply Hl|]]; vm_compute; reflexivity.
Defined.

(** * The moving average *)
Definition window_of (l : list Z) : power_window :=
  foldl (λ w x, (UpdateMovingAveragePower w x).1) window_start l.

(** The history in order of age. *)
Definition by_age (w : power_window) : list Z :=
  let c := Z.to_nat (board_power_history_cursor w) in
  drop c (board_power_history w) ++ take c (board_power_history w).

Lemma by_age_step w x : window_wf w -> in_width 16 x ->
  by_age (UpdateMovingAveragePower w x).1 = tail (by_age w) ++ [x].
Proof.
  intros (Hl & Hc & _ & _) Hx. unfold by_age, UpdateMovingAveragePower, HISTORY_SIZE in *.
  cbn [fst board_power_history board_power_history_cursor].
  set (h := board_power_history w) in *. set (c := Z.to_nat (board_power_history_cursor w)).
  destruct (lookup_lt_is_Some_2 h c) as [old Hold]; [lia|].
  rewrite (drop_S h old c Hold). cbn [tail app].
  assert (Hcur : drop (S c) (<[c:=x]> h) ++ take (S c) (<[c:=x]> h)
                 = drop (S c) h ++ take c h ++ [x]).
  { rewrite drop_insert_lt by lia. f_equal.
    rewrite (take_S_r _ _ x) by (apply list_lookup_insert_eq; lia).
    by rewrite take_insert_ge by lia. }
  rewrite <- app_assoc, <- Hcur.
  destruct (Z.eqb_spec (board_power_history_cursor w + 1) 1000) as [E|E].
  - rewrite (drop_ge _ (S c)), (take_ge _ (S c)) by (rewrite length_insert; lia).
    cbn [app]. change (Z.to_nat 0) with 0%nat. by rewrite drop_0, take_0, app_nil_r.
  - by replace (Z.to_nat (board_power_history_cursor w + 1)) with (S c) by lia.
Qed.

Lemma sum_app a b : foldr Z.add 0 (a ++ b) = foldr Z.add 0 a + foldr Z.add 0 b.
Proof. induction a as [|x a IH]; cbn [app foldr]; [done|]. rewrite IH. lia. Qed.

Lemma by_age_sum w : window_wf w -> board_power_sum w = foldr Z.add 0 (by_age w).
Proof.
  intros (_ & _ & _ & ->). unfold by_age. rewrite sum_app, Z.add_comm, <- sum_app.
  by rewrite take_drop.
Qed.

Lemma window_of_spec l : Forall (in_width 16) l ->
  window_wf (window_of l) /\ by_age (window_of l) = drop (length l) (replicate 1000 0 ++ l).
Proof.
  unfold window_of. induction l as [|x l IH] using rev_ind; intros Hf.
  - split; [apply window_start_wf|]. by rewrite app_nil_r.
  - apply Forall_app in Hf as [Hf Hx]. apply Forall_inv in Hx.
    destruct (IH Hf) as [Hw Ha]. rewrite foldl_app. cbn [foldl]. split.
    + by apply moving_average_step.
    + rewrite by_age_step, Ha by done. rewrite length_app, app_assoc. cbn [length].
      rewrite (drop_app_le _ _ (length l + 1)) by (rewrite length_app, length_replicate; lia).
      f_equal. rewrite <- drop_drop. by destruct (drop (length l) _).
Qed.

(** The moving average is exact: after any samples [l], the next call with
    [x] returns the mean, rounded down, of the last 1000 samples, counting zeros
    for samples not yet taken; neither the 32-bit sum nor the 16-bit result
    overflows. *)
Theorem moving_average_spec (l : list Z) (x : Z)
    (Hl : Forall (in_width 16) l) (Hx : in_width 16 x) :
  (UpdateMovingAveragePower (window_of l) x).2
    = foldr Z.add 0 (drop (length (l ++ [x])) (replicate 1000 0 ++ l ++ [x])) / 1000.
Proof.
  destruct (window_of_spec l Hl) as [Hw _].
  destruct (moving_average_step (window_of l) x Hw Hx) as (_ & old & _ & _ & ->).
  destruct (window_of_spec (l ++ [x])) as [Hw' Ha'].
  { apply Forall_app. split; [done|]. by constructor. }
  rewrite <- Ha', <- by_age_sum by done. unfold window_of. by rewrite foldl_app.
Qed.

Lemma moving_average_spec_witness :
  (UpdateMovingAveragePower (window_of (replicate 1500 400)) 65000).2
    = foldr Z.add 0 (drop (length (replicate 1500 400 ++ [65000]))
                       (replicate 1000 0 ++ replicate 1500 400 ++ [65000])) / 1000 /\
  (UpdateMovingAveragePower (window_of (replicate 1500 400)) 65000).2 = 464.
Proof.
  split; [|vm_compute; reflexivity].
  apply (moving_average_spec (replicate 1500 400) 65000).
  - apply Forall_replicate. split; vm_compute; congruence.
  - split; vm_compute; congruence.
Defined.

(** * How long NOPs were on *)

(** The true time NOPs were on until [now], in unbounded arithmetic, when the
    state [en] has lasted since [since] and the given switches follow. *)
Fixpoint on_time (en : bool) (since : Z) (l : list (Z * bool)) (now : Z) : Z :=
  match l with
  | [] => if en then now - since else 0
  | (t, b) :: l =>
      if en then if b then on_time true since l now else (t - since) + on_time false t l now
      else on_time b t l now
  end.

Definition switches n (l : list (Z * bool)) : nops :=
  foldl (λ n e, (switch_nops e.1 n e.2).1) n l.

(** [n] has been in its state since [since]. *)
Definition since_ok n (since : Z) : Prop :=
  in_width 32 (nop_on_accum_ms n) /\
  (kernel_nops_enabled n = true -> nop_on_since_ms n = u32 since).

Lemma wrap_elapsed acc now since :
  u32 (acc + u32 (u32 now - u32 since)) = u32 (acc + (now - since)).
Proof.
  rewrite wrap_sub_l, wrap_sub_r. unfold wrap. apply Zplus_mod_idemp_r.
Qed.

Lemma accumulated_on_time l n since now :
  since_ok n since ->
  GetNOPOnAccumulatedTime now (switches n l)
    = u32 (nop_on_accum_ms n + on_time (kernel_nops_enabled n) since l now).
Proof.
  revert n since. induction l as [|[t b] l IH]; intros n since [Hw Hs]; cbn [on_time].
  - unfold GetNOPOnAccumulatedTime, switches. cbn [foldl].
    destruct (kernel_nops_enabled n) eqn:He.
    + rewrite Hs by done. apply wrap_elapsed.
    + by rewrite Z.add_0_r, wrap_id.
  - unfold switches in *. cbn [foldl fst snd]. unfold switch_nops.
    destruct (kernel_nops_enabled n) eqn:He, b; cbn [negb Bool.eqb].
    + cbn [fst]. rewrite (IH _ since), He; [done|]. split; [done | by auto].
    + rewrite (IH _ t); [|split; [by apply wrap_in_width | done]].
      unfold SendKernelThrottlingMessage.
      cbn [fst kernel_nops_enabled nop_on_accum_ms nop_on_since_ms with_nops_enabled].
      rewrite Hs by done. rewrite wrap_elapsed, wrap_add_l. f_equal. lia.
    + rewrite (IH _ t); [done | by split].
    + cbn [fst]. rewrite (IH _ t); [by rewrite He | by split; [|rewrite He]].
Qed.

Lemma switches_app n l1 l2 : switches n (l1 ++ l2) = switches (switches n l1) l2.
Proof. apply foldl_app. Qed.

(** The sample's bookkeeping does not influence the accumulated time. *)
Definition same_nops n n' : Prop :=
  throttle_counter n = throttle_counter n' /\ nop_on_since_ms n = nop_on_since_ms n' /\
  nop_on_accum_ms n = nop_on_accum_ms n' /\ kernel_nops_enabled n = kernel_nops_enabled n'.

Lemma switches_same l n n' : same_nops n n' ->
  same_nops (switches n l) (switches n' l) /\
  prev_nop_on_accum_ms (switches n l) = prev_nop_on_accum_ms n /\
  seeded (switches n l) = seeded n.
Proof.
  unfold switches. revert n n'. induction l as [|[t b] l IH]; intros n n' H; [done|].
  cbn [foldl fst snd].
  assert (H' : same_nops (switch_nops t n b).1 (switch_nops t n' b).1 /\
    prev_nop_on_accum_ms (switch_nops t n b).1 = prev_nop_on_accum_ms n /\
    seeded (switch_nops t n b).1 = seeded n).
  { destruct H as (H1 & H2 & H3 & H4). unfold switch_nops. rewrite <- H4.
    destruct (negb _); cbn [fst]; [|done].
    unfold SendKernelThrottlingMessage, same_nops.
    cbn [fst with_nops_enabled throttle_counter nop_on_since_ms nop_on_accum_ms
         kernel_nops_enabled prev_nop_on_accum_ms seeded]. rewrite H1, H2, H3. done. }
  destruct H' as (Hs & Hp & Hd). destruct (IH _ _ Hs) as (HA & HB & HC).
  by rewrite HB, HC.
Qed.

Lemma accumulated_same now n n' : same_nops n n' ->
  GetNOPOnAccumulatedTime now n = GetNOPOnAccumulatedTime now n'.
Proof. intros (_ & H2 & H3 & H4). unfold GetNOPOnAccumulatedTime. by rewrite H2, H3, H4. Qed.

(** The reported NOP time is exact although every counter wraps at 32 bits.
    Take a first sample at [s] after the switches [l1], and the next one at [now]
    after the switches [l2]: its value is the time NOPs were on between the two
    samples, whatever happened before, as long as that fits 32 bits. *)
Theorem nop_duration_exact (n : nops) (since s now w w' : Z) (l1 l2 : list (Z * bool))
    (Hn : since_ok n since)
    (Hfit : 0 <= on_time (kernel_nops_enabled n) since (l1 ++ l2) now
                 - on_time (kernel_nops_enabled n) since l1 s < 2 ^ 32) :
  let sampled := (GetNOPOnDuration s (switches n l1) w).2 in
  (GetNOPOnDuration now (switches sampled l2) w').1
    = on_time (kernel_nops_enabled n) since (l1 ++ l2) now
      - on_time (kernel_nops_enabled n) since l1 s.
Proof.
  intros sampled.
  assert (Hsame : same_nops sampled (switches n l1)) by done.
  destruct (switches_same l2 _ _ Hsame) as (Hs2 & Hp & Hd).
  unfold GetNOPOnDuration at 1. cbn [fst]. rewrite Hd, Hp. cbn [seeded sampled].
  rewrite (accumulated_same now _ _ Hs2), <- switches_app, (accumulated_on_time _ _ _ _ Hn).
  change (prev_nop_on_accum_ms sampled) with (GetNOPOnAccumulatedTime s (switches n l1)).
  rewrite (accumulated_on_time _ _ _ _ Hn).
  change (seeded sampled) with true. cbn match.
  rewrite wrap_sub_l, wrap_sub_r.
  replace (_ + _ - (_ + _)) with
    (on_time (kernel_nops_enabled n) since (l1 ++ l2) now
     - on_time (kernel_nops_enabled n) since l1 s) by lia.
  by apply wrap_id.
Qed.

(** NOPs go on at 2^32 - 5 ms, are sampled 2 ms later, and go off 10 ms after
    that, past the wrap-around of the uptime. *)
Lemma nop_duration_exact_witness :
  let n0 := nop throttler_start in
  (GetNOPOnDuration 4294967400
     (switches (GetNOPOnDuration 4294967293 (switches n0 [(4294967291, true)]) 1000).2
        [(4294967303, false)]) 1000).1 = 10.
Proof.
  etransitivity.
  - apply (nop_duration_exact (nop throttler_start) 0 4294967293 4294967400 1000 1000
             [(4294967291, true)] [(4294967303, false)]).
    + split; [split; vm_compute; congruence | vm_compute; congruence].
    + vm_compute. split; congruence.
  - vm_compute. reflexivity.
Defined.

(** * Doppler's fast triggers *)

(** The last [k] samples all exceed [thr]. *)
Definition last_above (k : nat) (thr : Z) (l : list Z) : Prop :=
  (k <= length l)%nat /\ Forall (λ x, thr < x) (drop (length l - k) l).

Lemma last_above_snoc k thr l x :
  last_above (S k) thr (l ++ [x]) <-> thr < x /\ last_above k thr l.
Proof.
  unfold last_above. rewrite length_app. cbn [length].
  replace (length l + 1 - S k)%nat with (length l - k)%nat by lia.
  rewrite drop_app_le, Forall_app by lia. split.
  - intros (Hk & Hl & Hx). apply Forall_inv in Hx. split_and!; [done | lia | done].
  - intros (Hx & Hk & Hl). split_and!; [lia | done | by constructor].
Qed.

Lemma run_count_last thr l k :
  (0 < k <= 255)%nat ->
  Z.of_nat k <= foldl (λ c x, run_count c (thr <? x)) 0 l <-> last_above k thr l.
Proof.
  intros Hk.
  assert (H : 0 <= foldl (λ c x, run_count c (thr <? x)) 0 l <= 255 /\
    forall k, (k <= 255)%nat ->
      Z.of_nat k <= foldl (λ c x, run_count c (thr <? x)) 0 l <-> last_above k thr l);
    [|apply H; lia].
  clear k Hk. induction l as [|x l [IHb IH]] using rev_ind.
  - cbn [foldl]. split; [lia|]. intros k Hk. unfold last_above. cbn [length].
    rewrite drop_nil. split; [intros; split; [lia | constructor] | lia].
  - rewrite foldl_app. cbn [foldl]. set (c := foldl _ 0 l) in *.
    unfold run_count, UINT8_MAX. split; [zcases|].
    intros [|k] Hk.
    + split; [|zcases]. intros _. split; [lia|].
      rewrite Nat.sub_0_r, drop_all. constructor.
    + rewrite last_above_snoc, <- IH by lia. zcases.
Qed.

Lemma counts_of_fold l d :
  let d' := foldl update_counts d l in
  t2_count d' = foldl (λ c x, run_count c (t2_power_limit d <? x)) (t2_count d) l /\
  t3_count d' = foldl (λ c x, run_count c (t3_power_limit d <? x)) (t3_count d) l /\
  doppler_t2 d' = doppler_t2 d /\ doppler_t3 d' = doppler_t3 d.
Proof.
  revert d. induction l as [|x l IH]; intros d; [done|]. cbn [foldl].
  destruct (IH (update_counts d x)) as (-> & -> & -> & ->). done.
Qed.

(** C33. The critical throttle is on exactly when the last ten samples exceed
    twice the power limit or the last two exceed two and a half times (each if
    its trigger is enabled), for any number of samples: saturating the 8-bit
    counters loses nothing. *)
Theorem doppler_critical_spec (d : doppler_state) (samples : list Z)
    (H2 : t2_count d = 0) (H3 : t3_count d = 0) :
  critical_throttling (foldl update_counts d samples) = true <->
  (doppler_t2 d = true /\ last_above 10 (t2_power_limit d) samples) \/
  (doppler_t3 d = true /\ last_above 2 (t3_power_limit d) samples).
Proof.
  destruct (counts_of_fold samples d) as (E2 & E3 & D2 & D3). rewrite H2 in E2. rewrite H3 in E3.
  unfold critical_throttling. rewrite E2, E3, D2, D3.
  rewrite <- !run_count_last by lia. rewrite orb_true_iff, !andb_true_iff, !Z.leb_le. tauto.
Qed.

Lemma doppler_critical_spec_witness :
  critical_throttling (foldl update_counts (dop demo_t1) [450; 300; 501; 502]) = true.
Proof.
  apply (doppler_critical_spec (dop demo_t1) [450; 300; 501; 502]); [reflexivity..|].
  right. split; [reflexivity|]. split; [cbn; lia|].
  change (drop _ _) with [501; 502]. repeat constructor.
Defined.

(** * NOPs that are never released *)

Lemma update_kernel_throttler_stays now x l t p :
  kernel_nops_enabled (nop t) = true -> GetAiclkTarg p < stop_freq (config t) p ->
  UpdateKernelThrottler now x l t p = (with_nop t (nop t), []).
Proof.
  intros Hen Hlt. unfold UpdateKernelThrottler.
  destruct (Z.leb_spec (stop_freq (config t) p) (GetAiclkTarg p)); [lia|].
  cbn [andb]. rewrite andb_false_r. cbn [negb]. rewrite Hen, orb_true_l. cbn [andb].
  unfold switch_nops. rewrite Hen. done.
Qed.

(** The stop frequency is checked against the fixed limits only: one above
    the chip's [fmax] is accepted, and from then on NOPs that are on stay on in
    every pass without Doppler, however low the power gets, since the target
    never reaches it. *)
Theorem stop_freq_above_fmax_sticks (t : throttler_state) (f : Z)
    (passes : list (Z * readings * AiclkPPM))
    (Hrange : AICLK_FMIN_MIN <= f <= AICLK_FMIN_MAX)
    (Hon : kernel_nops_enabled (nop t) = true) (Hdop : DopplerActive (dop t) = false)
    (Hp : Forall (λ x, GetAiclkTarg x.2 <= GetAiclkFmax x.2 /\ GetAiclkFmax x.2 < f) passes) :
  exists t', ThrottlerSetKernelThrottlerStopFreq t f = (0, t') /\
    let final := foldl (λ t x, (CalculateThrottlers x.1.1 x.1.2 t x.2).1.1) t' passes in
    kernel_nops_enabled (nop final) = true /\
    throttle_counter (nop final) = throttle_counter (nop t).
Proof.
  unfold ThrottlerSetKernelThrottlerStopFreq, AICLK_FMIN_MIN, AICLK_FMIN_MAX in *.
  destruct (Z.eqb_spec f 0); [lia|].
  destruct (Z.ltb_spec 1400 f), (Z.ltb_spec f 200); try lia. cbn [orb].
  eexists. split; [reflexivity|]. cbn zeta.
  set (t' := with_config t _).
  assert (Hinv : nop t' = nop t /\ dop t' = dop t /\
    kernel_throttler_stop_nops_freq (config t') = f) by done.
  clearbody t'. revert t' Hinv. induction Hp as [|[[now r] p] l [Ht Hf] _ IH];
    intros t' (Hn & Hd & Hc); cbn [foldl fst snd]; [by rewrite Hn|].
  apply IH. unfold CalculateThrottlers. rewrite Hd, Hdop. cbn zeta.
  rewrite update_kernel_throttler_stays; [done | by cbn; rewrite Hn |].
  cbn [config with_throttler]. unfold stop_freq. rewrite Hc.
  destruct (Z.eqb_spec f 0); [lia|]. cbn [snd] in *. lia.
Qed.

(** After Doppler's trigger the board limit is withdrawn (limit zero); 1400 MHz
    is accepted as stop frequency on a 1000 MHz chip. *)
Definition demo_t4 : throttler_state := (Dm2CmSetBoardPowerLimit demo_fw demo_t3 [0; 0] 2).1.2.
Lemma stop_freq_above_fmax_sticks_witness :
  exists t', ThrottlerSetKernelThrottlerStopFreq demo_t4 1400 = (0, t') /\
    let final := foldl (λ t x, (CalculateThrottlers x.1.1 x.1.2 t x.2).1.1) t'
                   [(20, demo_reading 10, demo_ppm); (21, demo_reading 10, demo_ppm)] in
    kernel_nops_enabled (nop final) = true /\ throttle_counter (nop final) = 1.
Proof.
  apply (stop_freq_above_fmax_sticks demo_t4 1400
           [(20, demo_reading 10, demo_ppm); (21, demo_reading 10, demo_ppm)]).
  - vm_compute. split; congruence.
  - vm_compute. reflexivity.
  - vm_compute. reflexivity.
  - repeat constructor; vm_compute; congruence.
Defined.
