(* ===== verification/Noc.v ===== *)
(** Coordinates of the network on chip: [lib/tenstorrent/bh_arc/noc.c].

    The die is a 17 by 12 grid. Every node has a physical position and a
    coordinate on each of the two rings; the rings number the folded torus in
    opposite directions. An access outside a table is [None]. *)
From S2P Require Import Prelude.
From stdpp Require Import prelude list numbers.
Open Scope Z_scope.

Definition NUM_NOCS : Z := 2.
Definition NOC_X_SIZE : Z := 17.
Definition NOC_Y_SIZE : Z := 12.
Definition NUM_TENSIX_X : Z := 14.
Definition NUM_TENSIX_Y : Z := 10.
Definition NOC0_X_TO_NOC1 (x : Z) : Z := NOC_X_SIZE - x - 1.
Definition NOC0_Y_TO_NOC1 (y : Z) : Z := NOC_Y_SIZE - y - 1.

Inductive NocNodeType := kTensixNode | kNoc2AxiNode | kGddrNode | kExtraNode.

Definition kNodeTypes : list (list NocNodeType) :=
  let tensix_row := replicate 14 kTensixNode in
  let X := kExtraNode in let A := kNoc2AxiNode in let G := kGddrNode in
  [ [G] ++ tensix_row ++ [X; G];
    [G] ++ tensix_row ++ [A; G];
    [G] ++ tensix_row ++ [A; G];
    [G] ++ tensix_row ++ [X; G];
    [G] ++ tensix_row ++ [X; G];
    [G] ++ tensix_row ++ [A; G];
    [G] ++ tensix_row ++ [A; G];
    [G] ++ tensix_row ++ [X; G];
    [G] ++ tensix_row ++ [A; G];
    [G] ++ tensix_row ++ [X; G];
    [G] ++ tensix_row ++ [X; G];
    [G; X; X; A; X; X; X; X; X; X; X; X; A; X; X; A; G] ].

Definition kPhysXToNoc0 : list Z := [0; 1; 16; 2; 15; 3; 14; 4; 13; 5; 12; 6; 11; 7; 10; 8; 9].
Definition kPhysYToNoc0 : list Z := [0; 1; 11; 2; 10; 3; 9; 4; 8; 5; 7; 6].
Definition kNoc0XToPhys : list Z := [0; 1; 3; 5; 7; 9; 11; 13; 15; 16; 14; 12; 10; 8; 6; 4; 2].
Definition kNoc0YToPhys : list Z := [0; 1; 3; 5; 7; 9; 11; 10; 8; 6; 4; 2].

Definition GetNodeType (px py : Z) : option NocNodeType :=
  row ← zget kNodeTypes (u8 (NOC_Y_SIZE - py - 1)); zget row px.

Definition NOC_REGS_START_ADDR : Z := 0xFFB20000.
Definition NOC_INSTANCE_OFFSET_BIT : Z := 16.
Definition NOC_OVERLAY_START_ADDR : Z := 0xFFB40000.
Definition NiuRegsBase (px py noc_id : Z) : option Z :=
  t ← GetNodeType px py;
  Some match t with
       | kTensixNode | kGddrNode => NOC_REGS_START_ADDR + Z.shiftl noc_id NOC_INSTANCE_OFFSET_BIT
       | kNoc2AxiNode => 0xFFFFFFFFFF000000
       | kExtraNode => 0xFF000000
       end.
Definition OverlayRegsBase (px py : Z) : option Z :=
  t ← GetNodeType px py;
  Some match t with kTensixNode | kGddrNode => NOC_OVERLAY_START_ADDR | _ => 0 end.

Definition PhysXToNoc (px noc_id : Z) : option Z :=
  noc0_x ← zget kPhysXToNoc0 px;
  Some (if noc_id =? 0 then noc0_x else u8 (NOC0_X_TO_NOC1 noc0_x)).
Definition PhysYToNoc (py noc_id : Z) : option Z :=
  noc0_y ← zget kPhysYToNoc0 py;
  Some (if noc_id =? 0 then noc0_y else u8 (NOC0_Y_TO_NOC1 noc0_y)).
Definition TensixPhysXToNoc (px noc_id : Z) : option Z := PhysXToNoc (u8 (px + 1)) noc_id.
Definition TensixPhysYToNoc (py noc_id : Z) : option Z := PhysYToNoc (u8 (py + 2)) noc_id.

(** The search loops over [0 .. n-1]. *)
Fixpoint find_coord (to_noc : Z -> option Z) (x : Z) (ixs : list Z) : option Z :=
  match ixs with
  | [] => Some 0xFF
  | i :: ixs => y ← to_noc i; if y =? x then Some i else find_coord to_noc x ixs
  end.
Definition NocToTensixPhysX (x noc_id : Z) : option Z :=
  find_coord (λ i, TensixPhysXToNoc i noc_id) x (seqZ 0 14).
Definition NocToTensixPhysY (y noc_id : Z) : option Z :=
  find_coord (λ i, TensixPhysYToNoc i noc_id) y (seqZ 0 NUM_TENSIX_Y).

Definition NocToPhysX (nx noc_id : Z) : option Z :=
  zget kNoc0XToPhys (if noc_id =? 0 then nx else u8 (NOC0_X_TO_NOC1 nx)).
Definition NocToPhysY (ny noc_id : Z) : option Z :=
  zget kNoc0YToPhys (if noc_id =? 0 then ny else u8 (NOC0_Y_TO_NOC1 ny)).

Definition GetGddrNocCoords (gddr_inst noc2axi_port noc_id : Z) : option (Z * Z) :=
  let right_gddr_column := negb (gddr_inst / 4 =? 0) in
  let phys_x := if right_gddr_column then 16 else 0 in
  let phys_y := u8 (gddr_inst mod 4 * 3) in
  let phys_y := u8 (phys_y + (if right_gddr_column then 2 - noc2axi_port else noc2axi_port)) in
  x ← PhysXToNoc phys_x noc_id; y ← PhysYToNoc phys_y noc_id; Some (x, y).
Definition GetEthNocCoords (eth_inst noc_id : Z) : option (Z * Z) :=
  x ← PhysXToNoc (u8 (eth_inst + 1)) noc_id; y ← PhysYToNoc 1 noc_id; Some (x, y).
Definition GetSerdesNocCoords (serdes_inst noc_id : Z) : option (Z * Z) :=
  x ← PhysXToNoc (if serdes_inst <? 3 then 3 else 12) noc_id; y ← PhysYToNoc 0 noc_id; Some (x, y).

(** * Exhaustive checks *)

(** A decidable statement about the integers of an interval is decided by trying
    them all. *)
Lemma forall_range (P : Z -> Prop) {Hdec : forall x, Decision (P x)} (n : Z) :
  forallb (λ x, bool_decide (P x)) (seqZ 0 n) = true -> forall x, 0 <= x < n -> P x.
Proof.
  intros H x Hx. rewrite forallb_forall in H.
  eapply bool_decide_eq_true_1, (H x), list_elem_of_In, elem_of_seqZ. lia.
Qed.

(** The same for a finite list of cases. *)
Lemma forall_in {A} (P : A -> Prop) {Hdec : forall x, Decision (P x)} (l : list A) :
  forallb (λ x, bool_decide (P x)) l = true -> forall x, x ∈ l -> P x.
Proof.
  intros H x Hx. rewrite forallb_forall in H. by eapply bool_decide_eq_true_1, (H x), list_elem_of_In.
Qed.

Ltac by_enum := (refine (forall_range _ _ _) || refine (forall_in _ _ _)); vm_compute; reflexivity.

Lemma noc_id_cases n : 0 <= n < NUM_NOCS -> n = 0 \/ n = 1.
Proof. unfold NUM_NOCS. lia. Qed.

Lemma phys_x_noc n : 0 <= n < NUM_NOCS -> forall px, 0 <= px < NOC_X_SIZE ->
  (nx ← PhysXToNoc px n; NocToPhysX nx n) = Some px.
Proof. intros [-> | ->]%noc_id_cases; by_enum. Qed.

Lemma phys_y_noc n : 0 <= n < NUM_NOCS -> forall py, 0 <= py < NOC_Y_SIZE ->
  (ny ← PhysYToNoc py n; NocToPhysY ny n) = Some py.
Proof. intros [-> | ->]%noc_id_cases; by_enum. Qed.

Lemma noc_x_phys n : 0 <= n < NUM_NOCS -> forall nx, 0 <= nx < NOC_X_SIZE ->
  (px ← NocToPhysX nx n; PhysXToNoc px n) = Some nx.
Proof. intros [-> | ->]%noc_id_cases; by_enum. Qed.

Lemma noc_y_phys n : 0 <= n < NUM_NOCS -> forall ny, 0 <= ny < NOC_Y_SIZE ->
  (py ← NocToPhysY ny n; PhysYToNoc py n) = Some ny.
Proof. intros [-> | ->]%noc_id_cases; by_enum. Qed.

(** On either ring, physical and ring coordinates are inverse bijections of
    the 17 by 12 grid, and so are the 14 by 10 Tensix coordinates; the three
    ports of every GDDR instance are GDDR nodes of the column and row range that
    belong to that instance. *)
Theorem noc_coords_bijective (n : Z) (Hn : 0 <= n < NUM_NOCS) :
  (forall px, 0 <= px < NOC_X_SIZE -> (nx ← PhysXToNoc px n; NocToPhysX nx n) = Some px) /\
  (forall nx, 0 <= nx < NOC_X_SIZE -> (px ← NocToPhysX nx n; PhysXToNoc px n) = Some nx) /\
  (forall py, 0 <= py < NOC_Y_SIZE -> (ny ← PhysYToNoc py n; NocToPhysY ny n) = Some py) /\
  (forall ny, 0 <= ny < NOC_Y_SIZE -> (py ← NocToPhysY ny n; PhysYToNoc py n) = Some ny) /\
  (forall i, 0 <= i < NUM_TENSIX_X ->
     (x ← TensixPhysXToNoc i n; NocToTensixPhysX x n) = Some i) /\
  (forall j, 0 <= j < NUM_TENSIX_Y ->
     (y ← TensixPhysYToNoc j n; NocToTensixPhysY y n) = Some j) /\
  (forall gp, gp ∈ list_prod (seqZ 0 8) (seqZ 0 3) ->
     ('(x, y) ← GetGddrNocCoords gp.1 gp.2 n; px ← NocToPhysX x n; py ← NocToPhysY y n;
      t ← GetNodeType px py;
      Some (bool_decide (px = if gp.1 <? 4 then 0 else 16)
            && bool_decide ((if px =? 16 then 4 else 0) + py / 3 = gp.1)
            && match t with kGddrNode => true | _ => false end)) = Some true).
Proof.
  split; [by apply phys_x_noc|]. split; [by apply noc_x_phys|].
  split; [by apply phys_y_noc|]. split; [by apply noc_y_phys|].
  apply noc_id_cases in Hn as [-> | ->];
    (split; [|split]); by_enum.
Qed.

Lemma noc_coords_bijective_witness :
  (nx ← PhysXToNoc 2 1; NocToPhysX nx 1) = Some 2 /\ PhysXToNoc 2 1 = Some 0.
Proof.
  split; [|reflexivity]. apply (noc_coords_bijective 1); vm_compute; split; congruence.
Defined.
