(* ===== verification/Harvesting.v ===== *)
(** Which tiles of the die may be used: [lib/tenstorrent/bh_arc/harvesting.c] and
    [functional_efuse.c].

    The result of the manufacturing tests is read from fuses and combined with
    the product specification in the firmware table. The fuse driver is a
    parameter: [efuse i] is the 32-bit word it returns for offset [i] (zero when
    the read fails). *)
From S2P Require Import Prelude Noc.
From stdpp Require Import prelude list numbers.
Open Scope Z_scope.

Record TileEnable := {
  tensix_col_enabled : Z;
  eth_enabled : Z;
  eth5_serdes : bool;
  eth8_serdes : bool;
  eth_serdes_connected : Z;
  gddr_enabled : Z;
  l2cpu_enabled : Z;
  pcie_enabled : Z;
  pcie_usage : Z * Z;
  pcie_num_serdes : Z * Z;
}.
Implicit Types (te : TileEnable).

(** The fields of the firmware table that are used. *)
Record harvesting_table := {
  harvesting_en : bool;
  tensix_col_disable_count : Z;
  eth_disabled : bool;
  has_dram_table : bool;
  soft_harvest_dram_mask : Z;
  dram_disable_count : Z;
  pcie_mode : Z * Z;
  num_serdes : Z * Z;
}.

Section fuses.
Context (efuse : Z -> Z).

Definition read_efuse_dword (offset : Z) : Z := u32 (efuse offset).

Definition ReadFunctionalEfuse (start_bit end_bit : Z) : Z :=
  let field_length := end_bit - start_bit + 1 in
  if (32 <? field_length) || (field_length <? 1) then 0
  else
    let start_index := start_bit / 32 in
    let data := Z.lor (read_efuse_dword start_index)
                      (Z.shiftl (read_efuse_dword (start_index + 1)) 32) in
    let mask := GENMASK (field_length + start_bit mod 32 - 1) (start_bit mod 32) in
    u32 (FIELD_GET mask data).

Definition FUSE_ASIC_ID_OLD := ReadFunctionalEfuse 1056 1071.
Definition FUSE_ATE_TENSIX_ROW (row : Z) := ReadFunctionalEfuse (3168 + 32 * row) (3199 + 32 * row).
Definition FUSE_ATE_DDR_TEST_STATUS := ReadFunctionalEfuse 3504 3511.
Definition FUSE_ATE_PCIE_SPEED_TEST := ReadFunctionalEfuse 3512 3515.
Definition FUSE_ATE_RISCV_L2_TEST_STATUS := ReadFunctionalEfuse 3520 3535.
Definition FUSE_ATE_ETH_CTRL_TEST_STATUS := ReadFunctionalEfuse 3536 3551.
Definition FUSE_SLT_ATE_SLT_STATUS := ReadFunctionalEfuse 4160 4161.
Definition FUSE_SLT_FUSE_MAP_VERSION := ReadFunctionalEfuse 4162 4191.
Definition FUSE_SLT_SLT_BINNING := ReadFunctionalEfuse 4192 4223.
Definition FUSE_SLT_DDR_TEST_STATUS_16G := ReadFunctionalEfuse 5472 5479.
Definition FUSE_SLT_DDR_TEST_STATUS_14G := ReadFunctionalEfuse 5480 5487.
Definition FUSE_SLT_DDR_TEST_STATUS_12G := ReadFunctionalEfuse 5488 5495.
Definition FUSE_SLT_ETH_CTRL_TEST_STATUS := ReadFunctionalEfuse 5520 5535.
Definition FUSE_SLT_HARVESTED_TENSIX_COLUMNS := ReadFunctionalEfuse 5536 5551.

Definition FusesValid : bool := FUSE_ASIC_ID_OLD =? 0.

Definition with_tiles te tensix eth gddr l2cpu pcie : TileEnable :=
  {| tensix_col_enabled := tensix; eth_enabled := eth; eth5_serdes := eth5_serdes te;
     eth8_serdes := eth8_serdes te; eth_serdes_connected := eth_serdes_connected te;
     gddr_enabled := gddr; l2cpu_enabled := l2cpu; pcie_enabled := pcie;
     pcie_usage := pcie_usage te; pcie_num_serdes := pcie_num_serdes te |}.

Definition ate_disabled_tensix : Z :=
  foldl (λ d row, Z.lor d (FUSE_ATE_TENSIX_ROW row)) 0 (seqZ 0 10).
Definition HarvestingATEFuses te : TileEnable :=
  let l2cpu := foldl (λ e i, if Z.testbit FUSE_ATE_RISCV_L2_TEST_STATUS (i * 4)
                             then Z.clearbit e i else e) (l2cpu_enabled te) (seqZ 0 4) in
  let pcie := foldl (λ e i,
    if FIELD_GET (Z.shiftl 3 (i * 2)) FUSE_ATE_PCIE_SPEED_TEST =? 3
    then Z.clearbit e i else e) (pcie_enabled te) (seqZ 0 2) in
  with_tiles te (Z.ldiff (tensix_col_enabled te) ate_disabled_tensix)
    (Z.ldiff (eth_enabled te) FUSE_ATE_ETH_CTRL_TEST_STATUS)
    (Z.ldiff (gddr_enabled te) FUSE_ATE_DDR_TEST_STATUS) l2cpu pcie.

Definition columns_to_phys (harvested_columns : Z) : Z :=
  foldl (λ phys x,
    if Z.testbit harvested_columns x then
      match NocToTensixPhysX x 0 with
      | Some phys_x => if negb (phys_x =? 0xFF) then Z.lor phys (BIT phys_x) else phys
      | None => phys
      end
    else phys) 0 (seqZ 0 NOC_X_SIZE).
Definition GetTensixDisableSLTMapV1 : Z :=
  let b := FUSE_SLT_SLT_BINNING in
  let slt_binning := if negb (FIELD_GET 0xFF00 b =? 0) then FIELD_GET 0xFF00 b
                     else FIELD_GET 0xFF b in
  let harvested_columns := FUSE_SLT_HARVESTED_TENSIX_COLUMNS in
  let harvested_count := POPCOUNT harvested_columns in
  let harvested_columns :=
    if ((slt_binning =? 3) || (slt_binning =? 4) || (slt_binning =? 5))
       && (harvested_count <? 2)
    then Z.lor harvested_columns (BIT 16)
    else if (slt_binning =? 2) && (harvested_count <? 1)
    then Z.lor harvested_columns (BIT 16)
    else harvested_columns in
  columns_to_phys harvested_columns.

Definition HarvestingSLTFuses te : TileEnable :=
  let v := FUSE_SLT_FUSE_MAP_VERSION in
  if negb (Z.testbit FUSE_SLT_ATE_SLT_STATUS 1) || (v =? 0) then te
  else
    let tensix_off := if v =? 1 then GetTensixDisableSLTMapV1
                      else FUSE_SLT_HARVESTED_TENSIX_COLUMNS in
    let gddr_off := Z.lor (Z.lor FUSE_SLT_DDR_TEST_STATUS_12G FUSE_SLT_DDR_TEST_STATUS_14G)
                          FUSE_SLT_DDR_TEST_STATUS_16G in
    let gddr_off := if v <=? 2 then Z.clearbit gddr_off 3 else gddr_off in
    with_tiles te (Z.ldiff (tensix_col_enabled te) tensix_off)
      (Z.ldiff (eth_enabled te) FUSE_SLT_ETH_CTRL_TEST_STATUS)
      (Z.ldiff (gddr_enabled te) gddr_off) (l2cpu_enabled te) (pcie_enabled te).

(** Only two of a group of three Ethernet tiles: bits [lo .. lo+2]. *)
Definition eth_group (eth lo : Z) : Z :=
  if FIELD_GET (GENMASK (lo + 2) lo) eth =? BIT_MASK 3 then Z.clearbit eth (lo + 1) else eth.

(** The loop that switches off columns from 13 downwards. *)
Definition soft_disable (cols count : Z) : Z * Z :=
  foldl (λ s i, if (0 <? s.2) && IS_BIT_SET s.1 i then (WRITE_BIT s.1 i false, s.2 - 1) else s)
    (cols, count) (reverse (seqZ 0 14)).
Definition soft_harvest_tensix (cols disable_count : Z) : Z :=
  let disabled := u8 (14 - POPCOUNT cols) in
  if disabled <? disable_count then (soft_disable cols (u8 (disable_count - disabled))).1
  else cols.

Definition serdes_of (mode n : Z) : Z := if mode =? 0 then 0 else u8 (Z.min n 2).

Definition CalculateHarvesting (fw : harvesting_table) te : TileEnable :=
  let start := with_tiles
    {| tensix_col_enabled := 0; eth_enabled := 0; eth5_serdes := true; eth8_serdes := true;
       eth_serdes_connected := BIT_MASK 12; gddr_enabled := 0; l2cpu_enabled := 0;
       pcie_enabled := 0; pcie_usage := pcie_usage te; pcie_num_serdes := pcie_num_serdes te |}
    (BIT_MASK 14) (BIT_MASK 14) (BIT_MASK 8) (BIT_MASK 4) (BIT_MASK 2) in
  let te :=
    if harvesting_en fw then
      let te := if FusesValid then HarvestingSLTFuses (HarvestingATEFuses start) else start in
      let eth := eth_group (eth_group (eth_enabled te) 4) 7 in
      let tensix := soft_harvest_tensix (tensix_col_enabled te) (tensix_col_disable_count fw) in
      let eth := if eth_disabled fw then 0 else eth in
      let gddr := if has_dram_table fw
                  then Z.ldiff (gddr_enabled te) (soft_harvest_dram_mask fw)
                  else gddr_enabled te in
      let desired_gddr_count := u8 (8 - dram_disable_count fw) in
      let gddr := if desired_gddr_count <? POPCOUNT gddr then Z.clearbit gddr 3 else gddr in
      with_tiles te tensix eth gddr (l2cpu_enabled te) (pcie_enabled te)
    else start in
  let n0 := serdes_of (pcie_mode fw).1 (num_serdes fw).1 in
  let n1 := serdes_of (pcie_mode fw).2 (num_serdes fw).2 in
  let c := eth_serdes_connected te in
  let c := if n0 =? 1 then Z.ldiff c 0x3 else if n0 =? 2 then Z.ldiff c 0xF else c in
  let c := if n1 =? 1 then Z.ldiff c 0xC00 else if n1 =? 2 then Z.ldiff c 0xF00 else c in
  {| tensix_col_enabled := tensix_col_enabled te; eth_enabled := eth_enabled te;
     eth5_serdes := eth5_serdes te; eth8_serdes := eth8_serdes te; eth_serdes_connected := c;
     gddr_enabled := gddr_enabled te; l2cpu_enabled := l2cpu_enabled te;
     pcie_enabled := pcie_enabled te; pcie_usage := pcie_mode fw; pcie_num_serdes := (n0, n1) |}.
End fuses.

(** * Fuse fields *)

Lemma ldiff_bound w a b : in_width w a -> 0 <= w -> in_width w (Z.ldiff a b).
Proof.
  intros Ha Hw. assert (E : Z.ldiff a b = wrap w (Z.ldiff a b)).
  { unfold wrap. apply Z.bits_inj'. intros i Hi.
    destruct (Z.lt_ge_cases i w).
    - by rewrite Z.mod_pow2_bits_low.
    - rewrite Z.mod_pow2_bits_high by lia. rewrite Z.ldiff_spec.
      rewrite <- (wrap_id w a Ha). unfold wrap. by rewrite Z.mod_pow2_bits_high by lia. }
  rewrite E. by apply wrap_in_width.
Qed.

(** Bits are only ever removed from a mask. *)
Definition submask (a b : Z) : Prop := forall i, Z.testbit a i = true -> Z.testbit b i = true.
#[global] Instance submask_refl : Reflexive submask.
Proof. intros a i. done. Qed.
#[global] Instance submask_trans : Transitive submask.
Proof. intros a b c H1 H2 i H. auto. Qed.
Lemma submask_ldiff a b : submask (Z.ldiff a b) a.
Proof. intros i. rewrite Z.ldiff_spec. by intros [? _]%andb_true_iff. Qed.
Lemma submask_clearbit a b : submask (Z.clearbit a b) a.
Proof. apply submask_ldiff. Qed.
Lemma submask_if (c : bool) a b d : submask a d -> submask b d -> submask (if c then a else b) d.
Proof. by destruct c. Qed.
#[export] Hint Resolve submask_ldiff submask_clearbit submask_if : fw.

(** * The result *)
Definition eth_pair (eth : Z) : Prop :=
  ~ (Z.testbit eth 4 = true /\ Z.testbit eth 5 = true /\ Z.testbit eth 6 = true) /\
  ~ (Z.testbit eth 7 = true /\ Z.testbit eth 8 = true /\ Z.testbit eth 9 = true).
#[global] Instance eth_pair_dec eth : Decision (eth_pair eth).
Proof. apply _. Defined.

Lemma field3 eth lo : lo = 4 \/ lo = 7 ->
  FIELD_GET (GENMASK (lo + 2) lo) eth = (eth / 2 ^ lo) mod 8.
Proof.
  intros H. assert (E : FIELD_GET (GENMASK (lo + 2) lo) eth
                        = Z.land eth (Z.shiftl 7 lo) / 2 ^ lo) by (destruct H as [-> | ->]; done).
  rewrite E, <- Z.shiftr_div_pow2 by lia. rewrite Z.shiftr_land, Z.shiftr_shiftl_l by lia.
  rewrite Z.sub_diag, Z.shiftl_0_r, Z.shiftr_div_pow2 by lia.
  change 7 with (Z.ones 3). by rewrite Z.land_ones.
Qed.

(** A group whose three bits are set has the value seven. *)
Lemma group_all eth lo : 0 <= lo ->
  Z.testbit eth lo = true -> Z.testbit eth (lo + 1) = true -> Z.testbit eth (lo + 2) = true ->
  (eth / 2 ^ lo) mod 8 = 7.
Proof.
  intros Hlo H0 H1 H2. rewrite <- Z.shiftr_div_pow2 by done.
  change 8 with (2 ^ 3). apply Z.bits_inj'. intros i Hi.
  destruct (Z.lt_ge_cases i 3).
  - rewrite Z.mod_pow2_bits_low, Z.shiftr_spec by lia.
    assert (i = 0 \/ i = 1 \/ i = 2) as [-> | [-> | ->]] by lia; cbn [Z.testbit];
      [exact H0 | rewrite Z.add_comm; exact H1 | rewrite Z.add_comm; exact H2].
  - rewrite Z.mod_pow2_bits_high by lia. change 7 with (Z.ones 3).
    symmetry. apply Z.ones_spec_high. lia.
Qed.

Lemma eth_group_clears eth lo : lo = 4 \/ lo = 7 ->
  ~ (Z.testbit (eth_group eth lo) lo = true /\ Z.testbit (eth_group eth lo) (lo + 1) = true /\
     Z.testbit (eth_group eth lo) (lo + 2) = true).
Proof.
  intros Hlo (H0 & H1 & H2). unfold eth_group in *. rewrite field3 in * by done.
  change (BIT_MASK 3) with 7 in *.
  destruct (Z.eqb_spec ((eth / 2 ^ lo) mod 8) 7) as [E|E].
  - rewrite Z.clearbit_eq in H1. done.
  - apply E, group_all; [lia | done..].
Qed.

Lemma eth_group_submask eth lo : submask (eth_group eth lo) eth.
Proof. unfold eth_group. apply submask_if; [apply submask_clearbit | reflexivity]. Qed.

Lemma eth_groups_pair eth : eth_pair (eth_group (eth_group eth 4) 7).
Proof.
  split.
  - intros (H4 & H5 & H6). apply (eth_group_clears eth 4); [by left|].
    split_and!; by apply (eth_group_submask _ 7).
  - apply (eth_group_clears _ 7). by right.
Qed.

(** ** Counting columns *)
Definition count_bits (l : list Z) (v : Z) : Z :=
  foldr (λ i n, Z.b2z (Z.testbit v i) + n) 0 l.

Lemma POPCOUNT_step v : 0 <= v -> POPCOUNT v = Z.b2z (Z.odd v) + POPCOUNT (v / 2).
Proof. intros Hv. destruct v as [|p|p]; [done | | lia]. rewrite <- Z.div2_div. by destruct p. Qed.

Lemma count_bits_half l v : Forall (λ i, 0 <= i) l ->
  count_bits (map Z.succ l) v = count_bits l (v / 2).
Proof.
  induction 1 as [|i l Hi _ IH]; [done|]. cbn [map count_bits foldr]. f_equal; [|exact IH].
  by rewrite <- Z.div2_bits by done.
Qed.

Lemma POPCOUNT_count n v : 0 <= v < 2 ^ Z.of_nat n ->
  POPCOUNT v = count_bits (seqZ 0 (Z.of_nat n)) v.
Proof.
  revert v. induction n as [|n IH]; intros v Hv.
  - change (2 ^ Z.of_nat 0) with 1 in Hv. by replace v with 0 by lia.
  - rewrite POPCOUNT_step by lia. rewrite Nat2Z.inj_succ, Z.pow_succ_r in Hv by lia.
    rewrite IH by (split; [apply Z.div_pos | apply Z.div_lt_upper_bound]; lia).
    rewrite (seqZ_cons 0 (Z.of_nat (S n))) by lia. cbn [count_bits foldr].
    rewrite Z.bit0_odd. f_equal. replace (Z.pred (Z.of_nat (S n))) with (Z.of_nat n) by lia.
    rewrite <- count_bits_half by (apply Forall_seqZ; lia).
    unfold count_bits. f_equal. change (Z.succ 0) with (1 + 0). rewrite <- (fmap_add_seqZ 1 0).
    apply map_ext. lia.
Qed.

Lemma count_bits_nonneg l v : 0 <= count_bits l v.
Proof.
  induction l as [|i l IH]; cbn [count_bits foldr]; [lia|]. fold (count_bits l v).
  destruct (Z.testbit v i); cbn [Z.b2z]; lia.
Qed.

Lemma count_bits_ext l v w :
  (forall i, i ∈ l -> Z.testbit v i = Z.testbit w i) -> count_bits l v = count_bits l w.
Proof.
  intros H. induction l as [|i l IH]; [done|]. cbn [count_bits foldr].
  rewrite (H i) by apply list_elem_of_here. f_equal. apply IH. intros j Hj. apply H.
  by apply list_elem_of_further.
Qed.

Lemma clearbit_other c i j : i <> j -> Z.testbit (Z.clearbit c i) j = Z.testbit c j.
Proof. intros. rewrite Z.clearbit_eqb. destruct (Z.eqb_spec i j); [done|]. by rewrite andb_true_r. Qed.

(** The loop removes as many of the bits of its list as it is asked to, if there
    are that many, and no others. *)
Lemma soft_disable_loop l c k : NoDup l -> 0 <= k ->
  let r := foldl (λ s i, if (0 <? s.2) && IS_BIT_SET s.1 i
                         then (WRITE_BIT s.1 i false, s.2 - 1) else s) (c, k) l in
  submask r.1 c /\ (forall i, i ∉ l -> Z.testbit r.1 i = Z.testbit c i) /\
  count_bits l r.1 = count_bits l c - Z.min k (count_bits l c) /\ (0 <= c -> 0 <= r.1).
Proof.
  intros Hnd. revert c k. induction Hnd as [|i l Hi Hnd IH]; intros c k Hk.
  - cbn. split_and!; [reflexivity | done | lia | done].
  - set (step := λ (s : Z * Z) (i : Z), _) in *.
    change (foldl step (c, k) (i :: l)) with
      (foldl step (if (0 <? k) && Z.testbit c i then (Z.clearbit c i, k - 1) else (c, k)) l).
    pose proof (count_bits_nonneg l c) as Hpos.
    destruct ((0 <? k) && Z.testbit c i) eqn:Htest; zb.
    + destruct (IH (Z.clearbit c i) (k - 1)) as (Hsub & Hout & Hcnt & Hnn); [lia|].
      assert (Heq : count_bits l (Z.clearbit c i) = count_bits l c).
      { apply count_bits_ext. intros j Hj. apply clearbit_other. by intros <-. }
      split_and!.
      * etransitivity; [exact Hsub | apply submask_clearbit].
      * intros j Hj. rewrite Hout by (by intros ?; apply Hj, list_elem_of_further).
        apply clearbit_other. intros <-. apply Hj, list_elem_of_here.
      * cbn [count_bits foldr]. fold (count_bits l c). fold (count_bits l).
        rewrite Hout by done. rewrite Z.clearbit_eq.
        replace (Z.testbit c i) with true by done. cbn [Z.b2z].
        unfold count_bits in *. lia.
      * intros Hc. apply Hnn. unfold Z.clearbit. apply Z.ldiff_nonneg. by left.
    + destruct (IH c k Hk) as (Hsub & Hout & Hcnt & Hnn). split_and!; [done | | | done].
      * intros j Hj. apply Hout. intros ?. by apply Hj, list_elem_of_further.
      * cbn [count_bits foldr]. rewrite Hout by done. unfold count_bits in *.
        destruct (Z.testbit c i); cbn [Z.b2z]; lia.
    + destruct (IH c k Hk) as (Hsub & Hout & Hcnt & Hnn). split_and!; [done | | | done].
      * intros j Hj. apply Hout. intros ?. by apply Hj, list_elem_of_further.
      * cbn [count_bits foldr]. rewrite Hout by done. unfold count_bits in *.
        destruct (Z.testbit c i); cbn [Z.b2z]; lia.
Qed.

Lemma count_bits_perm l l' v : l ≡ₚ l' -> count_bits l v = count_bits l' v.
Proof. induction 1; cbn [count_bits foldr] in *; unfold count_bits in *; lia. Qed.

Lemma count_bits_length l v : count_bits l v <= Z.of_nat (length l).
Proof.
  induction l as [|i l IH]; cbn [count_bits foldr length]; [lia|]. fold (count_bits l v).
  destruct (Z.testbit v i); cbn [Z.b2z]; lia.
Qed.

Lemma submask_range w a b : 0 <= w -> 0 <= a -> in_width w b -> submask a b -> in_width w a.
Proof.
  intros Hw Ha Hb Hs. rewrite <- (wrap_id w b Hb) in Hs.
  replace a with (wrap w a); [by apply wrap_in_width|].
  apply Z.bits_inj'. intros i Hi. unfold wrap in *. destruct (Z.lt_ge_cases i w).
  - by rewrite Z.mod_pow2_bits_low.
  - rewrite Z.mod_pow2_bits_high by lia. destruct (Z.testbit a i) eqn:E; [|done].
    specialize (Hs i E). by rewrite Z.mod_pow2_bits_high in Hs by lia.
Qed.

(** Soft harvesting removes columns until the specified number is disabled. *)
Lemma soft_harvest_spec cols n : in_width 14 cols -> 0 <= n <= 14 ->
  let c := soft_harvest_tensix cols n in
  in_width 14 c /\ submask c cols /\ POPCOUNT c = Z.min (POPCOUNT cols) (14 - n).
Proof.
  intros Hc Hn. unfold soft_harvest_tensix, soft_disable. cbn zeta.
  pose proof (POPCOUNT_count 14 cols Hc) as Hp.
  pose proof (count_bits_nonneg (seqZ 0 14) cols). pose proof (count_bits_length (seqZ 0 14) cols).
  change (length (seqZ 0 14)) with 14%nat in *. change (Z.of_nat 14) with 14 in *.
  rewrite (wrap_id 8 (14 - POPCOUNT cols)) by (unfold in_width; lia).
  destruct (Z.ltb_spec (14 - POPCOUNT cols) n) as [Hlt|Hge].
  - rewrite (wrap_id 8) by (unfold in_width; lia).
    destruct (soft_disable_loop (reverse (seqZ 0 14)) cols (n - (14 - POPCOUNT cols)))
      as (Hs & _ & Hcnt & Hnn); [rewrite reverse_Permutation; apply NoDup_seqZ | lia |].
    set (c := (foldl _ _ _).1) in *.
    assert (Hw : in_width 14 c).
    { eapply submask_range; [lia | apply Hnn; apply Hc | exact Hc | exact Hs]. }
    split_and!; [apply Hw.. | done |].
    rewrite (POPCOUNT_count 14 c Hw). change (Z.of_nat 14) with 14.
    rewrite !(count_bits_perm _ _ _ (reverse_Permutation (seqZ 0 14))) in Hcnt. lia.
  - split_and!; [apply Hc.. | reflexivity | lia].
Qed.

Definition disjoint_mask (a b : Z) : Prop := forall i, Z.testbit a i = true -> Z.testbit b i = false.

Lemma disjoint_ldiff a b : disjoint_mask (Z.ldiff a b) b.
Proof. intros i. rewrite Z.ldiff_spec. intros [_ H]%andb_true_iff. by apply negb_true_iff. Qed.
Lemma disjoint_submask a a' b : submask a' a -> disjoint_mask a b -> disjoint_mask a' b.
Proof. intros Hs Hd i Hi. auto. Qed.

(** After reading the fuses. *)
Definition fused (efuse : Z -> Z) te : TileEnable :=
  if FusesValid efuse then HarvestingSLTFuses efuse (HarvestingATEFuses efuse te) else te.

Lemma slt_tiles efuse te :
  let te' := HarvestingSLTFuses efuse te in
  submask (tensix_col_enabled te') (tensix_col_enabled te) /\
  submask (eth_enabled te') (eth_enabled te) /\ submask (gddr_enabled te') (gddr_enabled te) /\
  (0 <= tensix_col_enabled te -> 0 <= tensix_col_enabled te') /\
  (0 <= eth_enabled te -> 0 <= eth_enabled te') /\
  (0 <= gddr_enabled te -> 0 <= gddr_enabled te').
Proof.
  unfold HarvestingSLTFuses. cbn zeta. destruct (_ || _); [by split_and!|].
  cbn [tensix_col_enabled eth_enabled gddr_enabled with_tiles].
  split_and!; try apply submask_ldiff; intros; apply Z.ldiff_nonneg; by left.
Qed.

Lemma fused_tiles efuse te :
  in_width 14 (tensix_col_enabled te) -> in_width 14 (eth_enabled te) ->
  in_width 8 (gddr_enabled te) ->
  let te' := fused efuse te in
  in_width 14 (tensix_col_enabled te') /\ in_width 14 (eth_enabled te') /\
  in_width 8 (gddr_enabled te') /\
  (FusesValid efuse = true ->
     disjoint_mask (tensix_col_enabled te') (ate_disabled_tensix efuse) /\
     disjoint_mask (eth_enabled te') (FUSE_ATE_ETH_CTRL_TEST_STATUS efuse) /\
     disjoint_mask (gddr_enabled te') (FUSE_ATE_DDR_TEST_STATUS efuse)).
Proof.
  intros Ht He Hg. unfold fused. destruct (FusesValid efuse); [|by split_and!].
  destruct (slt_tiles efuse (HarvestingATEFuses efuse te)) as (S1 & S2 & S3 & N1 & N2 & N3).
  set (te' := HarvestingSLTFuses _ _) in *. cbn zeta.
  cbn [tensix_col_enabled eth_enabled gddr_enabled HarvestingATEFuses with_tiles]
    in S1, S2, S3, N1, N2, N3.
  assert (forall a b, 0 <= a -> 0 <= Z.ldiff a b) as Hnn
    by (intros; apply Z.ldiff_nonneg; by left).
  unfold in_width in Ht, He, Hg.
  split; [|split; [|split]].
  - eapply submask_range; [lia | apply N1, Hnn; lia | exact Ht |].
    etransitivity; [exact S1 | apply submask_ldiff].
  - eapply submask_range; [lia | apply N2, Hnn; lia | exact He |].
    etransitivity; [exact S2 | apply submask_ldiff].
  - eapply submask_range; [lia | apply N3, Hnn; lia | exact Hg |].
    etransitivity; [exact S3 | apply submask_ldiff].
  - intros _. split_and!; (eapply disjoint_submask; [eassumption | apply disjoint_ldiff]).
Qed.

Lemma calculate_harvesting_ok (efuse : Z -> Z) (fw : harvesting_table) (te : TileEnable)
    (Hen : harvesting_en fw = true) (Hn : 0 <= tensix_col_disable_count fw <= 14) :
  let te' := CalculateHarvesting efuse fw te in
  in_width 14 (tensix_col_enabled te') /\ in_width 14 (eth_enabled te') /\
  in_width 8 (gddr_enabled te') /\
  POPCOUNT (tensix_col_enabled te') <= 14 - tensix_col_disable_count fw /\
  eth_pair (eth_enabled te') /\
  (FusesValid efuse = true ->
     disjoint_mask (tensix_col_enabled te') (ate_disabled_tensix efuse) /\
     disjoint_mask (eth_enabled te') (FUSE_ATE_ETH_CTRL_TEST_STATUS efuse) /\
     disjoint_mask (gddr_enabled te') (FUSE_ATE_DDR_TEST_STATUS efuse)).
Proof.
  unfold CalculateHarvesting. rewrite Hen. cbn zeta.
  set (start := with_tiles _ (BIT_MASK 14) _ _ _ _). fold (fused efuse start).
  destruct (fused_tiles efuse start) as (Ht & He & Hg & Hd); [done..|].
  set (f := fused efuse start) in *. clearbody f.
  cbn [tensix_col_enabled eth_enabled gddr_enabled with_tiles].
  destruct (soft_harvest_spec (tensix_col_enabled f) (tensix_col_disable_count fw) Ht Hn)
    as (Hw & Hs & Hp).
  set (eth := if eth_disabled fw then 0 else eth_group (eth_group (eth_enabled f) 4) 7).
  assert (Hes : submask eth (eth_enabled f) /\ eth_pair eth /\ 0 <= eth).
  { subst eth. destruct (eth_disabled fw).
    - split; [|split; [|done]].
      + intros i. by rewrite Z.bits_0.
      + split; (intros (H & _); vm_compute in H; congruence).
    - split; [|split; [apply eth_groups_pair|]].
      + etransitivity; apply eth_group_submask.
      + unfold eth_group, Z.clearbit. destruct He.
        repeat case_match; rewrite ?Z.ldiff_nonneg; auto. }
  destruct Hes as (Hes & Hpair & Hnn).
  set (g1 := if has_dram_table fw then _ else _).
  assert (Hg1 : submask g1 (gddr_enabled f) /\ in_width 8 g1).
  { subst g1. destruct (has_dram_table fw); [|by split].
    split; [apply submask_ldiff | by apply ldiff_bound]. }
  set (g := if _ <? POPCOUNT g1 then _ else g1).
  assert (Hg2 : submask g (gddr_enabled f) /\ in_width 8 g).
  { subst g. destruct (_ <? _); [|done]. destruct Hg1.
    split; [etransitivity; [apply submask_clearbit | done] | by apply ldiff_bound]. }
  destruct Hg2 as [Hgs Hgw]. split; [done|]. split; [eapply submask_range; [lia | done | exact He | done]|].
  split; [done|]. split; [lia|]. split; [done|]. intros Hv.
  destruct (Hd Hv) as (D1 & D2 & D3). split; [|split]; (eapply disjoint_submask; [|eassumption]; done).
Qed.

(** * What the tests say *)
(** Tile by tile, which tests failed. The manufacturing (ATE) tests are believed when the fuses are
    valid, the system-level (SLT) tests when, in addition, they are marked as fused and have a map
    version. *)
Section failures.
Context (efuse : Z -> Z).
Definition slt_valid : bool := Z.testbit (FUSE_SLT_ATE_SLT_STATUS efuse) 1 && negb (FUSE_SLT_FUSE_MAP_VERSION efuse =? 0).
(** Map version 1 numbers the columns by their NOC coordinate. Its sixteen bits have no place for
    column 16, which is harvested when the bin of the part asks for more columns than they show. *)
Definition slt_bin : Z :=
  let b := FUSE_SLT_SLT_BINNING efuse in if FIELD_GET 0xFF00 b =? 0 then FIELD_GET 0xFF b else FIELD_GET 0xFF00 b.
Definition slt_missing_column : bool :=
  let shown := POPCOUNT (FUSE_SLT_HARVESTED_TENSIX_COLUMNS efuse) in
  (bool_decide (slt_bin ∈ [3; 4; 5]) && (shown <? 2)) || ((slt_bin =? 2) && (shown <? 1)).
Definition slt_noc_column (x : Z) : bool :=
  Z.testbit (FUSE_SLT_HARVESTED_TENSIX_COLUMNS efuse) x || ((x =? 16) && slt_missing_column).
Definition slt_column_failed (i : Z) : bool :=
  if FUSE_SLT_FUSE_MAP_VERSION efuse =? 1
  then existsb (λ x, slt_noc_column x && bool_decide (NocToTensixPhysX x 0 = Some i)) (seqZ 0 NOC_X_SIZE)
  else Z.testbit (FUSE_SLT_HARVESTED_TENSIX_COLUMNS efuse) i.
Definition column_failed (i : Z) : bool :=
  FusesValid efuse &&
  (existsb (λ row, Z.testbit (FUSE_ATE_TENSIX_ROW efuse row) i) (seqZ 0 10) || (slt_valid && slt_column_failed i)).
Definition eth_failed (i : Z) : bool :=
  FusesValid efuse &&
  (Z.testbit (FUSE_ATE_ETH_CTRL_TEST_STATUS efuse) i || (slt_valid && Z.testbit (FUSE_SLT_ETH_CTRL_TEST_STATUS efuse) i)).
(** The system-level tests of memory 3 count from map version 3 on. *)
Definition slt_gddr_failed (i : Z) : bool :=
  (Z.testbit (FUSE_SLT_DDR_TEST_STATUS_12G efuse) i || Z.testbit (FUSE_SLT_DDR_TEST_STATUS_14G efuse) i
   || Z.testbit (FUSE_SLT_DDR_TEST_STATUS_16G efuse) i)
  && negb ((i =? 3) && (FUSE_SLT_FUSE_MAP_VERSION efuse <=? 2)).
Definition gddr_failed (i : Z) : bool :=
  FusesValid efuse && (Z.testbit (FUSE_ATE_DDR_TEST_STATUS efuse) i || (slt_valid && slt_gddr_failed i)).
Definition l2cpu_failed (i : Z) : bool := FusesValid efuse && Z.testbit (FUSE_ATE_RISCV_L2_TEST_STATUS efuse) (i * 4).
Definition pcie_failed (i : Z) : bool :=
  FusesValid efuse && (FIELD_GET (Z.shiftl 3 (i * 2)) (FUSE_ATE_PCIE_SPEED_TEST efuse) =? 3).
End failures.
Definition upto (n i : Z) : bool := (0 <=? i) && (i <? n).
Definition count_of (p : Z -> bool) (l : list Z) : Z := foldr (λ i n, Z.b2z (p i) + n) 0 l.

Lemma foldl_lor (f : Z -> Z) i l : forall d, Z.testbit (foldl (λ d x, Z.lor d (f x)) d l) i
  = Z.testbit d i || existsb (λ x, Z.testbit (f x) i) l.
Proof.
  induction l as [|x l IH]; intros d; cbn [foldl existsb]; [by rewrite orb_false_r|].
  by rewrite IH, Z.lor_spec, orb_assoc.
Qed.
Lemma foldl_clearbit (p : Z -> bool) i l : forall e, Z.testbit (foldl (λ e x, if p x then Z.clearbit e x else e) e l) i
  = Z.testbit e i && negb (existsb (λ x, p x && (x =? i)) l).
Proof.
  induction l as [|x l IH]; intros e; cbn [foldl existsb]; [by rewrite andb_true_r|].
  rewrite IH. destruct (p x); [|done]. rewrite Z.clearbit_eqb. destruct (x =? i), (Z.testbit e i); cbn; by rewrite ?andb_false_r.
Qed.
Lemma existsb_at (p : Z -> bool) i l : i ∈ l -> existsb (λ x, p x && (x =? i)) l = p i.
Proof.
  intros Hi. apply eq_true_iff_eq. rewrite existsb_exists. split.
  - intros (x & _ & [Hx ->%Z.eqb_eq]%andb_true_iff). exact Hx.
  - intros Hp. exists i. rewrite Hp, Z.eqb_refl. by split; [apply list_elem_of_In|].
Qed.
Lemma existsb_ext_in {A} (p q : A -> bool) l : (forall x, p x = q x) -> existsb p l = existsb q l.
Proof. intros H. induction l as [|x l IH]; cbn [existsb]; [done|]. by rewrite H, IH. Qed.
Lemma BIT_MASK_upto n i : 0 <= n -> Z.testbit (BIT_MASK n) i = upto n i.
Proof. intros Hn. unfold BIT_MASK, upto. by apply Z.testbit_ones. Qed.

(** In NOC coordinates. *)
Lemma columns_to_phys_spec h i : i <> 0xFF -> 0 <= i ->
  Z.testbit (columns_to_phys h) i
  = existsb (λ x, Z.testbit h x && bool_decide (NocToTensixPhysX x 0 = Some i)) (seqZ 0 NOC_X_SIZE).
Proof.
  intros Hi H0. unfold columns_to_phys. set (step := λ phys x : Z, _).
  enough (G : forall l phys, Z.testbit (foldl step phys l) i
    = Z.testbit phys i || existsb (λ x, Z.testbit h x && bool_decide (NocToTensixPhysX x 0 = Some i)) l)
    by (by rewrite G, Z.bits_0).
  induction l as [|x l IH]; intros phys; cbn [foldl existsb]; [by rewrite orb_false_r|].
  rewrite IH, orb_assoc. f_equal. unfold step. destruct (Z.testbit h x); [|by rewrite orb_false_r]. cbn [andb].
  destruct (NocToTensixPhysX x 0) as [j|]; [|by rewrite bool_decide_false, orb_false_r by done].
  destruct (Z.eqb_spec j 0xFF) as [->|Hj]; cbn [negb].
  - by rewrite bool_decide_false, orb_false_r by congruence.
  - rewrite Z.lor_spec. f_equal. unfold BIT. rewrite Z.shiftl_spec by done.
    destruct (bool_decide_reflect (Some j = Some i)) as [[= ->]|Hn]; [by rewrite Z.sub_diag|].
    destruct (Z.lt_ge_cases i j); [by rewrite Z.testbit_neg_r by lia|].
    rewrite Z.bits_above_log2; [done | lia | cbn; enough (i <> j) by lia; congruence].
Qed.
Lemma map_v1_spec efuse i : i <> 0xFF -> 0 <= i ->
  Z.testbit (GetTensixDisableSLTMapV1 efuse) i
  = existsb (λ x, slt_noc_column efuse x && bool_decide (NocToTensixPhysX x 0 = Some i)) (seqZ 0 NOC_X_SIZE).
Proof.
  intros Hi H0. unfold GetTensixDisableSLTMapV1. cbv zeta. rewrite columns_to_phys_spec by done.
  assert (Hin : forall x, x ∈ seqZ 0 NOC_X_SIZE -> 0 <= x) by (intros x Hx%elem_of_seqZ; lia).
  revert Hin. generalize (seqZ 0 NOC_X_SIZE) as l. intros l Hin. induction l as [|x l IH]; cbn [existsb]; [done|].
  rewrite IH by (intros y Hy; apply Hin; by right). f_equal. f_equal. clear IH.
  assert (Hx : 0 <= x) by (apply Hin; by left). unfold slt_noc_column, slt_missing_column.
  replace (if negb (FIELD_GET 0xFF00 (FUSE_SLT_SLT_BINNING efuse) =? 0) then FIELD_GET 0xFF00 (FUSE_SLT_SLT_BINNING efuse)
           else FIELD_GET 0xFF (FUSE_SLT_SLT_BINNING efuse)) with (slt_bin efuse)
    by (unfold slt_bin; cbv zeta; by destruct (FIELD_GET 0xFF00 (FUSE_SLT_SLT_BINNING efuse) =? 0)).
  replace ((slt_bin efuse =? 3) || (slt_bin efuse =? 4) || (slt_bin efuse =? 5))
    with (bool_decide (slt_bin efuse ∈ [3; 4; 5])).
  2:{ apply eq_true_iff_eq. rewrite bool_decide_eq_true, !orb_true_iff, !Z.eqb_eq, !elem_of_cons, elem_of_nil. tauto. }
  set (h := FUSE_SLT_HARVESTED_TENSIX_COLUMNS efuse).
  assert (Hbit : Z.testbit (Z.lor h (BIT 16)) x = Z.testbit h x || (x =? 16)).
  { rewrite Z.lor_spec. f_equal. change (BIT 16) with (2 ^ 16). rewrite Z.pow2_bits_eqb by lia. apply Z.eqb_sym. }
  destruct (_ && (POPCOUNT h <? 2)); [by rewrite Hbit, andb_true_r|].
  destruct (_ && (POPCOUNT h <? 1)); [by rewrite Hbit, andb_true_r|]. by rewrite andb_false_r, orb_false_r.
Qed.
(** A group in bits. *)
Lemma eth_group_bits e lo i : lo = 4 \/ lo = 7 ->
  Z.testbit (eth_group e lo) i = Z.testbit e i && negb ((i =? lo + 1) && Z.testbit e lo && Z.testbit e (lo + 2)).
Proof.
  intros Hlo. unfold eth_group. rewrite field3 by done. change (BIT_MASK 3) with 7.
  assert (Hbit : forall k, 0 <= k < 3 -> (e / 2 ^ lo) mod 8 = 7 -> Z.testbit e (lo + k) = true).
  { intros k Hk E. rewrite Z.add_comm, <- Z.shiftr_spec, Z.shiftr_div_pow2 by lia.
    rewrite <- (Z.mod_pow2_bits_low _ 3) by lia. change (2 ^ 3) with 8. rewrite E.
    assert (k = 0 \/ k = 1 \/ k = 2) as [-> | [-> | ->]] by lia; done. }
  destruct (Z.eqb_spec ((e / 2 ^ lo) mod 8) 7) as [E|E].
  - pose proof (Hbit 0 ltac:(lia) E) as B0. pose proof (Hbit 2 ltac:(lia) E) as B2. rewrite Z.add_0_r in B0.
    by rewrite B0, B2, !andb_true_r, Z.clearbit_eqb, Z.eqb_sym.
  - destruct (Z.eqb_spec i (lo + 1)) as [->|]; [|by rewrite andb_true_r]. cbn [andb].
    destruct (Z.testbit e (lo + 1)) eqn:B1; [|done]. destruct (Z.testbit e lo) eqn:B0; [|done].
    destruct (Z.testbit e (lo + 2)) eqn:B2; [|done]. destruct E. by apply group_all; [lia|..].
Qed.
Lemma count_of_ext p q l : (forall i, i ∈ l -> p i = q i) -> count_of p l = count_of q l.
Proof.
  intros H. induction l as [|i l IH]; [done|]. cbn [count_of foldr]. rewrite (H i) by (by left). f_equal.
  apply IH. intros j Hj. apply H. by right.
Qed.
Lemma POPCOUNT_of p n v : in_width (Z.of_nat n) v -> (forall i, Z.testbit v i = p i) ->
  POPCOUNT v = count_of p (seqZ 0 (Z.of_nat n)).
Proof. intros Hv Hp. rewrite (POPCOUNT_count n v Hv). apply count_of_ext. intros i _. apply Hp. Qed.

(** After the fuses exactly the tiles are enabled that failed no test. *)
Definition all_tiles te : Prop :=
  tensix_col_enabled te = BIT_MASK 14 /\ eth_enabled te = BIT_MASK 14 /\ gddr_enabled te = BIT_MASK 8 /\
  l2cpu_enabled te = BIT_MASK 4 /\ pcie_enabled te = BIT_MASK 2.
Lemma ate_exact efuse te : all_tiles te ->
  let te' := HarvestingATEFuses efuse te in
  (forall i, Z.testbit (tensix_col_enabled te') i
             = upto 14 i && negb (existsb (λ row, Z.testbit (FUSE_ATE_TENSIX_ROW efuse row) i) (seqZ 0 10))) /\
  (forall i, Z.testbit (eth_enabled te') i = upto 14 i && negb (Z.testbit (FUSE_ATE_ETH_CTRL_TEST_STATUS efuse) i)) /\
  (forall i, Z.testbit (gddr_enabled te') i = upto 8 i && negb (Z.testbit (FUSE_ATE_DDR_TEST_STATUS efuse) i)) /\
  (forall i, Z.testbit (l2cpu_enabled te') i = upto 4 i && negb (Z.testbit (FUSE_ATE_RISCV_L2_TEST_STATUS efuse) (i * 4))) /\
  (forall i, Z.testbit (pcie_enabled te') i
             = upto 2 i && negb (FIELD_GET (Z.shiftl 3 (i * 2)) (FUSE_ATE_PCIE_SPEED_TEST efuse) =? 3)).
Proof.
  intros (E1 & E2 & E3 & E4 & E5) te'. subst te'. unfold HarvestingATEFuses.
  cbn [with_tiles tensix_col_enabled eth_enabled gddr_enabled l2cpu_enabled pcie_enabled]. rewrite E1, E2, E3, E4, E5.
  split_and!; intros i.
  1-3: rewrite Z.ldiff_spec, BIT_MASK_upto by lia; try done. 1: unfold ate_disabled_tensix; by rewrite foldl_lor, Z.bits_0.
  all: rewrite (foldl_clearbit _ i), BIT_MASK_upto by lia.
  all: destruct (upto _ i) eqn:Hi; [|done]; cbn [andb]; f_equal; unfold upto in Hi; zb.
  - apply (existsb_at (λ i, Z.testbit (FUSE_ATE_RISCV_L2_TEST_STATUS efuse) (i * 4))), elem_of_seqZ. lia.
  - apply (existsb_at (λ i, FIELD_GET (Z.shiftl 3 (i * 2)) (FUSE_ATE_PCIE_SPEED_TEST efuse) =? 3)), elem_of_seqZ. lia.
Qed.
Lemma fused_exact efuse te : all_tiles te ->
  let te' := fused efuse te in
  (forall i, Z.testbit (tensix_col_enabled te') i = upto 14 i && negb (column_failed efuse i)) /\
  (forall i, Z.testbit (eth_enabled te') i = upto 14 i && negb (eth_failed efuse i)) /\
  (forall i, Z.testbit (gddr_enabled te') i = upto 8 i && negb (gddr_failed efuse i)) /\
  (forall i, Z.testbit (l2cpu_enabled te') i = upto 4 i && negb (l2cpu_failed efuse i)) /\
  (forall i, Z.testbit (pcie_enabled te') i = upto 2 i && negb (pcie_failed efuse i)).
Proof.
  intros Hte te'. subst te'. unfold fused, column_failed, eth_failed, gddr_failed, l2cpu_failed, pcie_failed.
  destruct (FusesValid efuse); cbn [andb negb].
  2:{ destruct Hte as (-> & -> & -> & -> & ->). split_and!; intros i; rewrite andb_true_r; by apply BIT_MASK_upto. }
  destruct (ate_exact efuse te Hte) as (A1 & A2 & A3 & A4 & A5). set (t1 := HarvestingATEFuses efuse te) in *. clearbody t1.
  unfold HarvestingSLTFuses, slt_valid.
  destruct (Z.testbit (FUSE_SLT_ATE_SLT_STATUS efuse) 1), (FUSE_SLT_FUSE_MAP_VERSION efuse =? 0); cbn [negb orb andb].
  2:{ cbn [with_tiles tensix_col_enabled eth_enabled gddr_enabled l2cpu_enabled pcie_enabled].
      split_and!; intros i; [| | |apply A4 | apply A5]; rewrite Z.ldiff_spec, ?A1, ?A2, ?A3.
      all: destruct (upto _ i) eqn:Hi; [|done]; cbn [andb]; rewrite negb_orb; f_equal; f_equal.
      - unfold slt_column_failed. destruct (_ =? 1); [|done]. unfold upto in Hi. zb. apply map_v1_spec; lia.
      - unfold slt_gddr_failed. destruct (_ <=? 2); rewrite ?Z.clearbit_eqb, !Z.lor_spec, ?andb_false_r, ?andb_true_r; [|done].
        by rewrite (Z.eqb_sym i 3). }
  all: split_and!; intros i; rewrite ?A1, ?A2, ?A3, ?A4, ?A5, ?orb_false_r; done.
Qed.

(** * The selection *)
(** The tiles that are good by the tests and, for the memories, not ruled out by the firmware table. *)
Definition good_column (efuse : Z -> Z) (i : Z) : bool := upto 14 i && negb (column_failed efuse i).
Definition good_eth (efuse : Z -> Z) (i : Z) : bool := upto 14 i && negb (eth_failed efuse i).
Definition good_gddr (efuse : Z -> Z) (fw : harvesting_table) (i : Z) : bool :=
  upto 8 i && negb (gddr_failed efuse i) && negb (has_dram_table fw && Z.testbit (soft_harvest_dram_mask fw) i).
(** The middle one of a group of three Ethernet tiles that are all good. *)
Definition spare_eth (efuse : Z -> Z) (i : Z) : bool :=
  ((i =? 5) && good_eth efuse 4 && good_eth efuse 6) || ((i =? 8) && good_eth efuse 7 && good_eth efuse 9).
Lemma eth_groups_bits (efuse : Z -> Z) e i : (forall i, Z.testbit e i = good_eth efuse i) ->
  Z.testbit (eth_group (eth_group e 4) 7) i = good_eth efuse i && negb (spare_eth efuse i).
Proof.
  intros He. rewrite !eth_group_bits, !He by (by (left + right)). unfold spare_eth.
  change (4 + 1) with 5. change (4 + 2) with 6. change (7 + 1) with 8. change (7 + 2) with 9.
  change (7 =? 5) with false. change (9 =? 5) with false. cbn [andb negb]. rewrite !andb_true_r.
  destruct (good_eth efuse i), (i =? 5), (i =? 8); cbn [andb negb orb]; rewrite ?andb_false_r, ?orb_false_r, ?andb_true_r; try done.
  by rewrite negb_orb.
Qed.
Lemma gddr_bits (efuse : Z -> Z) (fw : harvesting_table) g :
  in_width 8 g -> (forall i, Z.testbit g i = upto 8 i && negb (gddr_failed efuse i)) ->
  let g1 := if has_dram_table fw then Z.ldiff g (soft_harvest_dram_mask fw) else g in
  let wanted := u8 (8 - dram_disable_count fw) in
  forall i, Z.testbit (if wanted <? POPCOUNT g1 then Z.clearbit g1 3 else g1) i
    = good_gddr efuse fw i && negb ((i =? 3) && (wanted <? count_of (good_gddr efuse fw) (seqZ 0 8))).
Proof.
  intros Hw Hg g1 wanted i.
  assert (H1 : forall i, Z.testbit g1 i = good_gddr efuse fw i).
  { intros k. unfold g1, good_gddr. rewrite <- Hg. destruct (has_dram_table fw); cbn [andb negb]; [by rewrite Z.ldiff_spec | by rewrite andb_true_r]. }
  assert (Hw1 : in_width 8 g1) by (unfold g1; destruct (has_dram_table fw); [by apply ldiff_bound | done]).
  rewrite (POPCOUNT_of _ 8 g1 Hw1 H1). change (Z.of_nat 8) with 8.
  destruct (wanted <? _); [|by rewrite andb_false_r, andb_true_r].
  by rewrite Z.clearbit_eqb, H1, andb_true_r, (Z.eqb_sym 3).
Qed.

(** C29. With harvesting enabled in the firmware table, and at most 14 columns to disable, the
    selection is exact, whatever the fuses say: the enabled Tensix columns passed all tests, and as
    many of those that did are enabled as the product allows (14 minus the specified number of
    disabled ones); the Ethernet tiles are those that passed, less the middle one of each group 4-6 and
    7-9 that passed as a whole, and none when the table disables them; the memories are those that
    passed and the table does not rule out, less memory 3 when these are more than the product has;
    and the L2 CPUs and PCIe instances are those that passed. The tests are the manufacturing tests
    and, when they are fused, the system-level tests, both only when the fuses are valid; system-level
    failures of memory 3 count from fuse map version 3 on, and the columns of version 1 are in NOC
    coordinates. *)
Theorem harvesting_spec (efuse : Z -> Z) (fw : harvesting_table) (te : TileEnable)
    (Hen : harvesting_en fw = true) (Hn : 0 <= tensix_col_disable_count fw <= 14) :
  let te' := CalculateHarvesting efuse fw te in
  in_width 14 (tensix_col_enabled te') /\ in_width 14 (eth_enabled te') /\ in_width 8 (gddr_enabled te') /\
  (forall i, Z.testbit (tensix_col_enabled te') i = true -> good_column efuse i = true) /\
  POPCOUNT (tensix_col_enabled te')
    = Z.min (count_of (good_column efuse) (seqZ 0 14)) (14 - tensix_col_disable_count fw) /\
  (forall i, Z.testbit (eth_enabled te') i = good_eth efuse i && negb (spare_eth efuse i) && negb (eth_disabled fw)) /\
  eth_pair (eth_enabled te') /\
  (forall i, Z.testbit (gddr_enabled te') i = good_gddr efuse fw i
     && negb ((i =? 3) && (u8 (8 - dram_disable_count fw) <? count_of (good_gddr efuse fw) (seqZ 0 8)))) /\
  (forall i, Z.testbit (l2cpu_enabled te') i = upto 4 i && negb (l2cpu_failed efuse i)) /\
  (forall i, Z.testbit (pcie_enabled te') i = upto 2 i && negb (pcie_failed efuse i)).
Proof.
  destruct (calculate_harvesting_ok efuse fw te Hen Hn) as (W1 & W2 & W3 & _ & Hpair & _). intros te'.
  do 3 (split; [done|]). subst te'. revert W1 W2 W3 Hpair. unfold CalculateHarvesting. rewrite Hen. cbv zeta.
  set (start := with_tiles _ (BIT_MASK 14) _ _ _ _). fold (fused efuse start).
  destruct (fused_tiles efuse start) as (Ht & He & Hg & _); [done..|].
  destruct (fused_exact efuse start) as (F1 & F2 & F3 & F4 & F5); [done|].
  set (f := fused efuse start) in *. clearbody f.
  cbn [tensix_col_enabled eth_enabled gddr_enabled l2cpu_enabled pcie_enabled with_tiles]. intros W1 W2 W3 Hpair.
  destruct (soft_harvest_spec (tensix_col_enabled f) (tensix_col_disable_count fw) Ht Hn) as (_ & Hs & Hp).
  split; [|split; [|split; [|split; [exact Hpair | split; [|by split]]]]].
  - intros i Hi%Hs. unfold good_column. by rewrite <- F1.
  - by rewrite Hp, (POPCOUNT_of _ 14 _ Ht F1).
  - intros i. destruct (eth_disabled fw); [by rewrite Z.bits_0, andb_false_r|]. rewrite andb_true_r. by apply eth_groups_bits.
  - intros i. by apply (gddr_bits efuse fw (gddr_enabled f) Hg F3).
Qed.

(** Fuses that mark column 3 and Ethernet tile 5 as failed in the manufacturing tests, and in the
    system-level tests, of map version 2, column 6, Ethernet tile 1 and the memories 3 and 5. *)
Definition demo_efuse (i : Z) : Z :=
  if i =? 99 then 8 else if i =? 110 then 0x200000 else if i =? 130 then 0xA
  else if i =? 171 then 0x2800 else if i =? 172 then 0x20000 else if i =? 173 then 0x40 else 0.
Definition demo_harvesting : harvesting_table :=
  {| harvesting_en := true; tensix_col_disable_count := 2; eth_disabled := false;
     has_dram_table := false; soft_harvest_dram_mask := 0; dram_disable_count := 0;
     pcie_mode := (1, 0); num_serdes := (2, 0) |}.
Definition demo_tiles : TileEnable :=
  CalculateHarvesting demo_efuse demo_harvesting
    {| tensix_col_enabled := 0; eth_enabled := 0; eth5_serdes := true; eth8_serdes := true;
       eth_serdes_connected := 0; gddr_enabled := 0; l2cpu_enabled := 0; pcie_enabled := 0;
       pcie_usage := (0, 0); pcie_num_serdes := (0, 0) |}.

Lemma harvesting_spec_witness :
  (tensix_col_enabled demo_tiles, eth_enabled demo_tiles, gddr_enabled demo_tiles) = (0x3FB7, 0x3EDD, 0xDF) /\
  POPCOUNT (tensix_col_enabled demo_tiles)
    = Z.min (count_of (good_column demo_efuse) (seqZ 0 14)) (14 - tensix_col_disable_count demo_harvesting) /\
  (forall i, Z.testbit (eth_enabled demo_tiles) i = good_eth demo_efuse i && negb (spare_eth demo_efuse i) && negb false).
Proof.
  split; [vm_compute; reflexivity|].
  destruct (harvesting_spec demo_efuse demo_harvesting
    {| tensix_col_enabled := 0; eth_enabled := 0; eth5_serdes := true; eth8_serdes := true;
       eth_serdes_connected := 0; gddr_enabled := 0; l2cpu_enabled := 0; pcie_enabled := 0;
       pcie_usage := (0, 0); pcie_num_serdes := (0, 0) |}) as (_ & _ & _ & _ & Hp & He & _);
    [reflexivity | vm_compute; split; congruence |].
  split; [exact Hp | exact He].
Defined.
(** A failure of memory 3 in the system-level tests is ignored up to map version 2: [demo_efuse] has
    one, and memory 3 is enabled. *)
Lemma gddr3_failure_ignored :
  Z.testbit (FUSE_SLT_DDR_TEST_STATUS_12G demo_efuse) 3 = false /\ Z.testbit (FUSE_SLT_DDR_TEST_STATUS_16G demo_efuse) 3 = false /\
  Z.testbit (FUSE_SLT_DDR_TEST_STATUS_14G demo_efuse) 3 = true /\ Z.testbit (gddr_enabled demo_tiles) 3 = true.
Proof. vm_compute. by split_and!. Qed.
