(* ===== verification/VfCurve.v ===== *)
(** The voltage the AI clock needs: [lib/tenstorrent/bh_arc/vf_curve.c].

    A quadratic in the frequency, either the legacy one or one fitted to the
    chip's process fuse, plus margins from the firmware table. [float]s are
    rationals (the model has no rounding). Both quadratics have their vertex near
    700 MHz, so the curve is monotone, as the frequency search assumes, only above
    it. *)
From S2P Require Import Prelude MsgQueue Dvfs Noc Harvesting.
From stdpp Require Import prelude list numbers.
From Stdlib Require Import QArith Qround Lqa.
Open Scope Z_scope.

Definition FREQ_MARGIN_MAX : Z := 300.
Definition FREQ_MARGIN_MIN : Z := -300.
Definition VOLTAGE_MARGIN_MAX : Z := 150.
Definition VOLTAGE_MARGIN_MIN : Z := -150.

Definition VF_INTERCEPT : Q := 738687863 # 1000000.
Definition VF_COEFF_RO : Q := -9399314 # 1000000.
Definition VF_COEFF_FREQ : Q := 52359951 # 1000000.
Definition VF_COEFF_RO_SQ : Q := -4295651 # 1000000.
Definition VF_COEFF_RO_FREQ : Q := 0.
Definition VF_COEFF_FREQ_SQ : Q := 8560169 # 1000000.
Definition RO_NORM_MEAN : Q := 2582380952 # 1000000.
Definition RO_NORM_STD : Q := 121320464 # 1000000.
Definition FREQ_NORM_MEAN : Q := 1279761905 # 1000000.
Definition FREQ_NORM_STD : Q := 189567027 # 1000000.
Definition RO_SS_THRESHOLD : Q := 2500.
Definition FREQ_THRESHOLD_MHZ : Q := 1200.
Definition SS_MARGIN_MV : Q := 20.
Definition FF_LOW_FREQ_MARGIN_MV : Q := 0.
Definition FF_HIGH_FREQ_MARGIN_MV : Q := 20.
Definition VF_QUADRATIC_COEFF : Q := 31395 # 100000000.
Definition VF_LINEAR_COEFF : Q := -43953 # 100000.
Definition VF_CONSTANT : Q := 82883 # 100.

Record vf_state := {
  freq_margin_mhz : Q;
  fw_table_voltage_margin_mv : Q;
  process_RO : Z;
  use_process_vf_curve : bool;
  process_is_ss : bool;
  vf_ro_base : Q;
  vf_freq_linear : Q;
}.
Implicit Types (v : vf_state).

(** The margins of the firmware table are signed integers. *)
Definition InitVFCurve (efuse : Z -> Z) (frequency_margin voltage_margin : Z) v : vf_state :=
  let ro := ReadFunctionalEfuse efuse 4464 4479 in
  let use := negb (ro =? 0) in
  let ro_n := ((inject_Z ro - RO_NORM_MEAN) / RO_NORM_STD)%Q in
  {| freq_margin_mhz := QCLAMP (inject_Z frequency_margin) FREQ_MARGIN_MIN FREQ_MARGIN_MAX;
     fw_table_voltage_margin_mv :=
       QCLAMP (inject_Z voltage_margin) VOLTAGE_MARGIN_MIN VOLTAGE_MARGIN_MAX;
     process_RO := ro;
     use_process_vf_curve := use;
     process_is_ss := negb (Qle_bool RO_SS_THRESHOLD (inject_Z ro));
     vf_ro_base := if use then (VF_INTERCEPT + VF_COEFF_RO * ro_n + VF_COEFF_RO_SQ * ro_n * ro_n)%Q
                   else vf_ro_base v;
     vf_freq_linear := if use then (VF_COEFF_FREQ + VF_COEFF_RO_FREQ * ro_n)%Q
                       else vf_freq_linear v |}.

Definition VFCurve v (freq_mhz : Z) : Q :=
  let f := inject_Z freq_mhz in
  if negb (use_process_vf_curve v) then
    let fm := (f + freq_margin_mhz v)%Q in
    (VF_QUADRATIC_COEFF * fm * fm + VF_LINEAR_COEFF * fm + VF_CONSTANT
     + fw_table_voltage_margin_mv v)%Q
  else
    let voltage_margin :=
      if process_is_ss v then (fw_table_voltage_margin_mv v + SS_MARGIN_MV)%Q
      else if Qle_bool FREQ_THRESHOLD_MHZ f
      then (fw_table_voltage_margin_mv v + FF_HIGH_FREQ_MARGIN_MV)%Q
      else (fw_table_voltage_margin_mv v + FF_LOW_FREQ_MARGIN_MV)%Q in
    let freq_n := ((f - FREQ_NORM_MEAN) / FREQ_NORM_STD)%Q in
    (vf_ro_base v + vf_freq_linear v * freq_n + VF_COEFF_FREQ_SQ * freq_n * freq_n
     + voltage_margin)%Q.

Definition get_voltage_curve_from_freq_handler v (request rsp : list Z) : Z * list Z :=
  let voltage_mv := VFCurve v (data request 1) in
  (0, set_data rsp 1 (if Qle_bool 0 voltage_mv then to_u32 voltage_mv else 0)).
(** [None] is a search that does not finish within its bound. *)
Definition get_freq_curve_from_voltage_handler v (p : AiclkPPM) (request rsp : list Z)
  : option (Z * list Z) :=
  match GetMaxAiclkForVoltage (VFCurve v) p (data request 1) with
  | inl _ => None
  | inr f => Some (0, set_data rsp 1 f)
  end.

(** * Monotonicity *)
Lemma legacy_mono x y : (701 <= x)%Q -> (x <= y)%Q ->
  (VF_QUADRATIC_COEFF * x * x + VF_LINEAR_COEFF * x + VF_CONSTANT
   <= VF_QUADRATIC_COEFF * y * y + VF_LINEAR_COEFF * y + VF_CONSTANT)%Q.
Proof. unfold VF_QUADRATIC_COEFF, VF_LINEAR_COEFF, VF_CONSTANT. intros. nra. Qed.

Lemma process_mono a x y : (-305 # 100 <= x)%Q -> (x <= y)%Q ->
  (a + VF_COEFF_FREQ * x + VF_COEFF_FREQ_SQ * x * x
   <= a + VF_COEFF_FREQ * y + VF_COEFF_FREQ_SQ * y * y)%Q.
Proof. unfold VF_COEFF_FREQ, VF_COEFF_FREQ_SQ. intros. nra. Qed.

(** From where the curve is monotone. *)
Definition monotone_from v (f : Z) : Prop :=
  702 <= f /\ (use_process_vf_curve v = false -> (701 <= inject_Z f + freq_margin_mhz v)%Q).

Lemma VFCurve_mono efuse fm vm v0 f g :
  let v := InitVFCurve efuse fm vm v0 in
  monotone_from v f -> f <= g -> (VFCurve v f <= VFCurve v g)%Q.
Proof.
  intros v [Hf Hm] Hfg. rewrite Zle_Qle in Hf, Hfg.
  change (inject_Z 702) with 702%Q in Hf. unfold VFCurve.
  destruct (use_process_vf_curve v) eqn:Hu; cbn [negb].
  - assert (Hn : (-305 # 100 <= (inject_Z f - FREQ_NORM_MEAN) / FREQ_NORM_STD)%Q /\
      ((inject_Z f - FREQ_NORM_MEAN) / FREQ_NORM_STD
       <= (inject_Z g - FREQ_NORM_MEAN) / FREQ_NORM_STD)%Q).
    { unfold FREQ_NORM_MEAN, FREQ_NORM_STD. split; unfold Qdiv; change (/ _)%Q with (1000000 # 189567027);
        lra. }
    destruct Hn as [Hn1 Hn2].
    assert (Hl : (vf_freq_linear v == VF_COEFF_FREQ)%Q).
    { unfold v, InitVFCurve in Hu |- *. cbn [use_process_vf_curve vf_freq_linear] in *.
      rewrite Hu. unfold VF_COEFF_RO_FREQ. ring. }
    pose proof (process_mono (vf_ro_base v) _ _ Hn1 Hn2) as Hp. rewrite !Hl.
    apply Qplus_le_compat; [exact Hp|].
    destruct (process_is_ss v); [apply Qle_refl|].
    unfold FREQ_THRESHOLD_MHZ, FF_HIGH_FREQ_MARGIN_MV, FF_LOW_FREQ_MARGIN_MV.
    destruct (Qle_bool 1200 (inject_Z f)) eqn:Ef, (Qle_bool 1200 (inject_Z g)) eqn:Eg; try lra.
    apply Qle_bool_iff in Ef. apply Qle_bool_false in Eg. lra.
  - apply Qplus_le_compat; [|apply Qle_refl]. apply legacy_mono; [by apply Hm | lra].
Qed.

(** On the monotone part of the real curve, whatever the fuse and margins, the
    search is exact: with the clock's minimum above 702 MHz (and above 701 MHz
    less the margin on the legacy curve) it returns the highest frequency in range
    that the voltage allows. *)
Theorem vf_curve_search (efuse : Z -> Z) (fm vm : Z) (v0 : vf_state) (p : AiclkPPM) (voltage : Z)
    (Hfrom : monotone_from (InitVFCurve efuse fm vm v0) (fmin p))
    (Hrange : fmin p <= fmax p /\ fmax p <= AICLK_FMAX_MAX) :
  exists r, GetMaxAiclkForVoltage (VFCurve (InitVFCurve efuse fm vm v0)) p voltage = inr r /\
    fmin p - 1 <= r <= fmax p /\
    forall f, fmin p <= f <= fmax p ->
      (VFCurve (InitVFCurve efuse fm vm v0) f <= inject_Z voltage)%Q <-> f <= r.
Proof.
  unfold AICLK_FMAX_MAX in Hrange. pose proof Hfrom as [H7 Hm].
  apply (max_aiclk_ok _ (fmin p) (fmax p)); [|lia | lia].
  intros f g Hf Hfg _. apply VFCurve_mono; [|done]. split; [lia|]. intros Hu.
  specialize (Hm Hu). rewrite Zle_Qle in Hf. lra.
Qed.

Definition demo_vf0 : vf_state :=
  {| freq_margin_mhz := inject_Z 300; fw_table_voltage_margin_mv := inject_Z 150; process_RO := 0;
     use_process_vf_curve := false; process_is_ss := false; vf_ro_base := 0;
     vf_freq_linear := 0 |}.
(** A chip with process fuse 2600 and a voltage margin of 25 mV. *)
Definition demo_ro (i : Z) : Z := if i =? 139 then Z.shiftl 2600 16 else 0.
Definition demo_fast_ppm : AiclkPPM :=
  InitAiclkPPM {| asic_fmax := 1350; asic_fmin := 800; vdd_max_limit := 850;
                  vdd_min_limit := 700 |} 800 demo_ppm.

Lemma vf_curve_search_witness :
  GetMaxAiclkForVoltage (VFCurve (InitVFCurve demo_ro 0 25 demo_vf0)) demo_fast_ppm 750 = inr 1199 /\
  exists r, GetMaxAiclkForVoltage (VFCurve (InitVFCurve demo_ro 0 25 demo_vf0)) demo_fast_ppm 750
            = inr r /\
    fmin demo_fast_ppm - 1 <= r <= fmax demo_fast_ppm /\
    forall f, fmin demo_fast_ppm <= f <= fmax demo_fast_ppm ->
      (VFCurve (InitVFCurve demo_ro 0 25 demo_vf0) f <= inject_Z 750)%Q <-> f <= r.
Proof.
  split; [vm_compute; reflexivity|].
  apply (vf_curve_search demo_ro 0 25 demo_vf0 demo_fast_ppm 750).
  - split; [vm_compute; congruence|]. intros H. vm_compute in H. congruence.
  - vm_compute. split; congruence.
Defined.

(** Below 700 MHz the curve falls, and the search is wrong there: on a chip
    without process fuse, with the margins and limits of the boards' tables (25
    mV, 200 to 1400 MHz), asking for the highest frequency at 700 mV yields
    199 MHz, although 700 MHz needs less than 700 mV and 200 MHz more. *)
Theorem vf_curve_search_wrong (v0 : vf_state) (p : AiclkPPM) (rsp : list Z)
    (Hmin : fmin p = AICLK_FMIN_MIN) (Hmax : fmax p = AICLK_FMAX_MAX) :
  let v := InitVFCurve (λ _, 0) 0 25 v0 in
  get_freq_curve_from_voltage_handler v p [0; 700] rsp = Some (0, set_data rsp 1 199) /\
  (VFCurve v 700 < inject_Z 700)%Q /\ (inject_Z 700 < VFCurve v 200)%Q.
Proof.
  cbn zeta. split; [|split; [reflexivity | reflexivity]].
  unfold get_freq_curve_from_voltage_handler. change (data [0; 700] 1) with 700.
  unfold GetMaxAiclkForVoltage. rewrite Hmin, Hmax.
  assert (E : loop 12 (search_body (VFCurve (InitVFCurve (λ _, 0) 0 25 v0)) 700)
                (AICLK_FMIN_MIN, u32 (AICLK_FMAX_MAX + 1)) = inr 199) by (vm_compute; reflexivity).
  by rewrite E.
Qed.

Lemma vf_curve_search_wrong_witness :
  get_freq_curve_from_voltage_handler (InitVFCurve (λ _, 0) 0 25 demo_vf0)
    (InitAiclkPPM {| asic_fmax := 1400; asic_fmin := 200; vdd_max_limit := 850;
                     vdd_min_limit := 700 |} 800 demo_ppm) [0; 700] (zero_msg 8)
  = Some (0, [0; 199; 0; 0; 0; 0; 0; 0]).
Proof.
  apply (vf_curve_search_wrong demo_vf0
    (InitAiclkPPM {| asic_fmax := 1400; asic_fmin := 200; vdd_max_limit := 850;
                     vdd_min_limit := 700 |} 800 demo_ppm) (zero_msg 8)); reflexivity.
Defined.
