(* ===== verification/NocTranslation.v ===== *)
(** Coordinate translation of the network on chip:
    [lib/tenstorrent/bh_arc/noc_init.c].

    Harvested columns and memory controllers are hidden from software by tables
    that map 32 by 32 logical coordinates to nodes. The firmware computes the
    tables for ring 0, mirrors them for ring 1 and programs both into the network
    interface (NIU) of all 204 tiles, through the very network it reconfigures.

    An NIU register is identified by ring, physical position of its tile and
    index. The ARC reaches a tile by its untranslated ring coordinates: an access
    while translation is on in the ARC's own interface of that ring would go
    astray and is [None]; so is a read outside a constant table. *)
From S2P Require Import Prelude MsgQueue Noc Harvesting.
From stdpp Require Import prelude list numbers functions.
Open Scope Z_scope.

(** ** Registers *)
Abbreviation niu := (Z * Z * Z * Z -> Z).
Implicit Types (r : niu).
Definition ARC_PX : Z := 15.
Definition ARC_PY : Z := 0.

Definition NIU_CFG_0 : Z := 0.
Definition ROUTER_CFG (n : Z) : Z := n + 1.
Definition NOC_X_ID_TRANSLATE_TABLE (n : Z) : Z := n + 0x6.
Definition NOC_Y_ID_TRANSLATE_TABLE (n : Z) : Z := n + 0xC.
Definition NOC_ID_LOGICAL : Z := 0x12.
Definition NOC_ID_TRANSLATE_COL_MASK : Z := 0x14.
Definition NOC_ID_TRANSLATE_ROW_MASK : Z := 0x15.
Definition DDR_COORD_TRANSLATE_TABLE (n : Z) : Z := n + 0x16.
Definition NIU_CFG_0_TILE_CLK_OFF : Z := 12.
Definition NIU_CFG_0_TILE_HEADER_STORE_OFF : Z := 13.
Definition NIU_CFG_0_NOC_ID_TRANSLATE_EN : Z := 14.
Definition NOC_TRANSLATE_ID_WIDTH : Z := 5.
Definition NOC_TRANSLATE_TABLE_XY_SIZE : Z := 32 / NOC_TRANSLATE_ID_WIDTH.

(** Whether the ARC's own interface translates on a ring. *)
Definition arc_translates r (noc_id : Z) : bool :=
  Z.testbit (r (noc_id, ARC_PX, ARC_PY, NIU_CFG_0)) NIU_CFG_0_NOC_ID_TRANSLATE_EN.
Definition ReadNocCfgReg r (noc_id px py i : Z) : option Z :=
  if arc_translates r noc_id then None else Some (r (noc_id, px, py, i)).
Definition WriteNocCfgReg r (noc_id px py i v : Z) : option niu :=
  if arc_translates r noc_id then None else Some (<[(noc_id, px, py, i) := v]> r : niu).
Fixpoint WriteNocCfgRegs r (noc_id px py : Z) (ws : list (Z * Z)) : option niu :=
  match ws with
  | [] => Some r
  | (i, v) :: ws => r ← WriteNocCfgReg r noc_id px py i v; WriteNocCfgRegs r noc_id px py ws
  end.

(** The tiles in the order of the loops over [py] and [px]. *)
Definition all_tiles : list (Z * Z) :=
  flat_map (λ py, map (λ px, (px, py)) (seqZ 0 NOC_X_SIZE)) (seqZ 0 NOC_Y_SIZE).

(** ** The tables *)
Definition PRE_TRANSLATION_SIZE : Z := 32.
Definition NO_BAD_GDDR : Z := UINT8_MAX.
Definition NUM_GDDR : Z := 8.

(** The masks are arrays of one word; the coordinates are indexed by node. *)
Record NocTranslation := {
  translate_en : bool;
  translate_table_x : list Z;
  translate_table_y : list Z;
  translate_col_mask : Z;
  translate_row_mask : Z;
  logical_coords : Z * Z -> Z;
}.
Implicit Types (nt : NocTranslation).

Definition with_table_x nt t :=
  {| translate_en := translate_en nt; translate_table_x := t;
     translate_table_y := translate_table_y nt; translate_col_mask := translate_col_mask nt;
     translate_row_mask := translate_row_mask nt; logical_coords := logical_coords nt |}.
Definition with_table_y nt t :=
  {| translate_en := translate_en nt; translate_table_x := translate_table_x nt;
     translate_table_y := t; translate_col_mask := translate_col_mask nt;
     translate_row_mask := translate_row_mask nt; logical_coords := logical_coords nt |}.

Definition pack_coord (x y : Z) : Z := u16 (Z.lor (Z.shiftl y 6) x).
Definition SetLogicalCoord nt (post_x post_y logical_x logical_y : Z) : NocTranslation :=
  {| translate_en := translate_en nt; translate_table_x := translate_table_x nt;
     translate_table_y := translate_table_y nt; translate_col_mask := translate_col_mask nt;
     translate_row_mask := translate_row_mask nt;
     logical_coords := <[(post_x, post_y) := pack_coord logical_x logical_y]> (logical_coords nt) |}.

Definition MakeIdentity : NocTranslation :=
  {| translate_en := true;
     translate_table_x := map (λ i, if i <? NOC_X_SIZE then i else 0) (seqZ 0 PRE_TRANSLATION_SIZE);
     translate_table_y := map (λ i, if i <? NOC_Y_SIZE then i else 0) (seqZ 0 PRE_TRANSLATION_SIZE);
     translate_col_mask := 0; translate_row_mask := 0;
     logical_coords := λ n, pack_coord n.1 n.2 |}.

Definition CopyNoc0ToNoc1 nt : NocTranslation :=
  {| translate_en := translate_en nt;
     translate_table_x := map (λ x, u8 (NOC_X_SIZE - x - 1)) (translate_table_x nt);
     translate_table_y := map (λ y, u8 (NOC_Y_SIZE - y - 1)) (translate_table_y nt);
     translate_col_mask := translate_col_mask nt;
     translate_row_mask := translate_row_mask nt;
     logical_coords :=
       λ n, logical_coords nt (NOC_X_SIZE - n.1 - 1, NOC_Y_SIZE - n.2 - 1) |}.

Definition kTensixEthNoc0X : list Z := [1; 16; 2; 15; 3; 14; 4; 13; 5; 12; 6; 11; 7; 10].
Definition kL2CpuNoc0Y : list Z := [3; 9; 5; 7].
Definition kGddrY : list (list Z) := [[0; 1; 11]; [2; 10; 3]; [9; 4; 8]; [5; 7; 6]].

(** The copied bytes; running off the input is an out-of-bounds read. *)
Fixpoint CopyBytesSkipIndices (inp : list Z) (count : nat) (skip_mask : Z) : option (list Z) :=
  match count with
  | O => Some []
  | S c =>
      match inp with
      | [] => None
      | b :: inp =>
          if Z.odd skip_mask then CopyBytesSkipIndices inp count (Z.shiftr skip_mask 1)
          else out ← CopyBytesSkipIndices inp c (Z.shiftr skip_mask 1); Some (b :: out)
      end
  end.

(** The pre- and post-translation boxes are [(x_start, y_start, x_end, y_end)]. *)
Definition table_get (t : list Z) (i : Z) : Z := default 0 (zget t i).
Definition in_box (x lo hi : Z) : bool := negb ((x <? lo) || (hi <? x)).
Definition range (lo hi : Z) : list Z := seqZ lo (hi - lo + 1).
Definition ApplyLogicalCoords nt (post pre : Z * Z * Z * Z) : NocTranslation :=
  let '(post_x_start, post_y_start, post_x_end, post_y_end) := post in
  let '(pre_x_start, pre_y_start, pre_x_end, pre_y_end) := pre in
  foldl (λ nt pre_x,
    let post_x := table_get (translate_table_x nt) pre_x in
    if in_box post_x post_x_start post_x_end then
      foldl (λ nt pre_y,
        let post_y := table_get (translate_table_y nt) pre_y in
        if in_box post_y post_y_start post_y_end
        then SetLogicalCoord nt post_x post_y pre_x pre_y else nt)
        nt (range pre_y_start pre_y_end)
    else nt) nt (range pre_x_start pre_x_end).

(** ** Computing the tables *)

(** Tensix: the usable columns in NOC 0 order, then the bad ones from the end. *)
Definition clear_bad (bad_tensix_cols : Z) : Z :=
  foldl (λ good i, if Z.testbit bad_tensix_cols i
                   then Z.clearbit good (table_get kTensixEthNoc0X i) else good)
    (Z.lor (GENMASK 7 1) (GENMASK 16 10)) (seqZ 0 14).
Fixpoint fill_good (noc_xs : list Z) (good : Z) (t : list Z) : Z * list Z :=
  match noc_xs with
  | [] => (good, t)
  | noc_x :: noc_xs =>
      if good =? 0 then (good, t)
      else
        let lsb := LSB_GET good in
        fill_good noc_xs (Z.ldiff good lsb) (<[Z.to_nat noc_x := LOG2 lsb]> t)
  end.
Fixpoint fill_bad (noc_xs : list Z) (bad : Z) (t : list Z) : option (list Z) :=
  match noc_xs with
  | [] => Some t
  | noc_x :: noc_xs =>
      if bad =? 0 then Some t
      else
        let lsb := LSB_GET bad in
        next_bad ← zget kTensixEthNoc0X (LOG2 lsb);
        fill_bad noc_xs (Z.ldiff bad lsb) (<[Z.to_nat noc_x := next_bad]> t)
  end.
Definition tensix_columns (bad_tensix_cols : Z) (t : list Z) : option (list Z) :=
  let '(good, t) := fill_good (range 1 7) (clear_bad bad_tensix_cols) t in
  let '(_, t) := fill_good (range 10 16) good t in
  fill_bad (reverse (range 10 16)) bad_tensix_cols t.

Definition gddr_y_order (bad_gddr : Z) : list Z :=
  let order := [0; 1; 2; 3] in
  if bad_gddr =? NO_BAD_GDDR then order
  else
    let row := Z.to_nat (bad_gddr mod 4) in
    take row order ++ drop (S row) order ++ [bad_gddr mod 4].

(** [memcpy] into a table. *)
Definition set_range (t : list Z) (i : Z) (bytes : list Z) : list Z :=
  list_inserts (Z.to_nat i) bytes t.

Definition gddr_rows (bad_gddr : Z) (t : list Z) : list Z :=
  foldl (λ t g, set_range t (12 + g * 3)
                  (default [] (zget kGddrY (table_get (gddr_y_order bad_gddr) g))))
    t (seqZ 0 4).

Definition ComputeNocTranslation (pcie_instance bad_tensix_cols bad_gddr skip_eth : Z)
  : option NocTranslation :=
  let noc0 := MakeIdentity in
  let noc0 :=
    {| translate_en := true; translate_table_x := translate_table_x noc0;
       translate_table_y := translate_table_y noc0; translate_col_mask := 0;
       translate_row_mask := Z.lor (BIT 0) (BIT 1); logical_coords := logical_coords noc0 |} in
  tx ← tensix_columns bad_tensix_cols (translate_table_x noc0);
  let noc0 := with_table_x noc0 tx in
  let noc0 := ApplyLogicalCoords noc0 (1, 2, 7, 11) (1, 2, 16, 11) in
  let noc0 := ApplyLogicalCoords noc0 (10, 2, 16, 11) (1, 2, 16, 11) in
  let noc0 := with_table_x noc0
    (if 4 <=? bad_gddr then <[18%nat := 9]> (<[17%nat := 0]> (translate_table_x noc0))
     else <[18%nat := 0]> (<[17%nat := 9]> (translate_table_x noc0))) in
  let noc0 := with_table_y noc0 (gddr_rows bad_gddr (translate_table_y noc0)) in
  let noc0 := ApplyLogicalCoords noc0 (0, 0, 0, 11) (17, 12, 18, 23) in
  let noc0 := ApplyLogicalCoords noc0 (9, 0, 9, 11) (17, 12, 18, 23) in
  let pcie_x := if negb (pcie_instance =? 0) then 11 else 2 in
  let noc0 := with_table_x noc0 (<[19%nat := pcie_x]> (translate_table_x noc0)) in
  let noc0 := with_table_y noc0 (<[24%nat := 0]> (translate_table_y noc0)) in
  let noc0 := ApplyLogicalCoords noc0 (pcie_x, 0, pcie_x, 0) (19, 24, 19, 24) in
  let noc0 := with_table_y noc0 (<[25%nat := 1]> (translate_table_y noc0)) in
  eth ← CopyBytesSkipIndices kTensixEthNoc0X 12 skip_eth;
  let noc0 := with_table_x noc0 (set_range (translate_table_x noc0) 20 eth) in
  let noc0 := ApplyLogicalCoords noc0 (1, 1, 7, 1) (20, 25, 31, 25) in
  let noc0 := ApplyLogicalCoords noc0 (10, 1, 16, 1) (20, 25, 31, 25) in
  let noc0 := with_table_y noc0 (set_range (translate_table_y noc0) 26 kL2CpuNoc0Y) in
  let noc0 := ApplyLogicalCoords noc0 (8, 3, 8, 9) (8, 26, 8, 29) in
  let noc0 := with_table_y noc0 (<[30%nat := 2]> (translate_table_y noc0)) in
  Some (ApplyLogicalCoords noc0 (8, 2, 8, 2) (8, 30, 8, 30)).

Definition NocLogicalToPhysical nt (logical_x logical_y : Z) : Z * Z :=
  (if translate_en nt && negb (IS_BIT_SET (translate_row_mask nt) logical_y)
   then table_get (translate_table_x nt) logical_x else logical_x,
   if translate_en nt && negb (IS_BIT_SET (translate_col_mask nt) logical_x)
   then table_get (translate_table_y nt) logical_y else logical_y).

(** ** Programming the tiles *)

(** The tables as register words: six entries of five bits each. *)
Definition pack_entry (t p : list Z) (i : Z) : list Z :=
  let index := Z.to_nat (i / NOC_TRANSLATE_TABLE_XY_SIZE) in
  let shift := i mod NOC_TRANSLATE_TABLE_XY_SIZE * NOC_TRANSLATE_ID_WIDTH in
  alter (λ w, Z.lor w (u32 (Z.shiftl (table_get t i) shift))) index p.
Definition pack_table (t : list Z) : list Z :=
  foldl (pack_entry t) (replicate 6 0) (seqZ 0 PRE_TRANSLATION_SIZE).

Definition table_writes nt (ring_x ring_y : Z) : list (Z * Z) :=
  let packed_x := pack_table (translate_table_x nt) in
  let packed_y := pack_table (translate_table_y nt) in
  [(NOC_ID_TRANSLATE_COL_MASK, translate_col_mask nt);
   (NOC_ID_TRANSLATE_ROW_MASK, translate_row_mask nt);
   (DDR_COORD_TRANSLATE_TABLE 5, 0);
   (NOC_ID_LOGICAL, logical_coords nt (ring_x, ring_y))] ++
  flat_map (λ i, [(NOC_X_ID_TRANSLATE_TABLE i, table_get packed_x i);
                  (NOC_Y_ID_TRANSLATE_TABLE i, table_get packed_y i)]) (seqZ 0 6).

(** One turn of the loop over the rings. *)
Definition program_ring nt (px py noc_id : Z) r : option niu :=
  ring_x ← PhysXToNoc px noc_id;
  ring_y ← PhysYToNoc py noc_id;
  niu_cfg_0 ← ReadNocCfgReg r noc_id px py NIU_CFG_0;
  r ← (if negb (translate_en nt)
       then WriteNocCfgReg r noc_id px py NIU_CFG_0
              (WRITE_BIT niu_cfg_0 NIU_CFG_0_NOC_ID_TRANSLATE_EN false)
       else Some r);
  r ← WriteNocCfgRegs r noc_id px py (table_writes nt ring_x ring_y);
  if translate_en nt
  then WriteNocCfgReg r noc_id px py NIU_CFG_0
         (WRITE_BIT niu_cfg_0 NIU_CFG_0_NOC_ID_TRANSLATE_EN true)
  else Some r.

Definition translations := (NocTranslation * NocTranslation)%type.
Definition ProgramNocTranslationSingleTile (tr : translations) (noc0_x noc0_y : Z) r : option niu :=
  px ← NocToPhysX noc0_x 0;
  py ← NocToPhysY noc0_y 0;
  r ← program_ring tr.1 px py 0 r;
  program_ring tr.2 px py 1 r.

Fixpoint program_tiles (tr : translations) (enabling : bool) (tiles : list (Z * Z)) r
  : option niu :=
  match tiles with
  | [] => Some r
  | (px, py) :: tiles =>
      noc0_x ← PhysXToNoc px 0;
      noc0_y ← PhysYToNoc py 0;
      if enabling && ((noc0_x =? 8) && (noc0_y =? 0)) then program_tiles tr enabling tiles r
      else r ← ProgramNocTranslationSingleTile tr noc0_x noc0_y r;
           program_tiles tr enabling tiles r
  end.
Definition ProgramNocTranslation (tr : translations) r : option niu :=
  let enabling := translate_en tr.1 in
  r ← program_tiles tr enabling all_tiles r;
  if enabling then ProgramNocTranslationSingleTile tr 8 0 r else Some r.

(** ** The module's state: tables, flag, the telemetry word and the registers *)
Record noc_state := {
  translation : translations;
  noc_translation_enabled : bool;
  TAG_NOC_TRANSLATION : bool;
  regs : niu;
}.
Implicit Types (s : noc_state).

Definition InitNocTranslation s (pcie_instance bad_tensix_cols bad_gddr skip_eth : Z)
  : option noc_state :=
  t0 ← ComputeNocTranslation pcie_instance bad_tensix_cols bad_gddr skip_eth;
  let tr := (t0, CopyNoc0ToNoc1 t0) in
  r ← ProgramNocTranslation tr (regs s);
  Some {| translation := tr; noc_translation_enabled := true; TAG_NOC_TRANSLATION := true;
          regs := r |}.

(** The ARC's own interface is reached directly, not through the network. *)
Definition set_arc_translation r (b : bool) : niu :=
  let set r noc_id :=
    <[(noc_id, ARC_PX, ARC_PY, NIU_CFG_0) :=
        WRITE_BIT (r (noc_id, ARC_PX, ARC_PY, NIU_CFG_0)) NIU_CFG_0_NOC_ID_TRANSLATE_EN b]> r in
  set (set r 0) 1.
Definition DisableArcNocTranslation r : niu := set_arc_translation r false.
Definition EnableArcNocTranslation r : niu := set_arc_translation r true.
Definition RestoreArcNocTranslation s : noc_state :=
  {| translation := translation s; noc_translation_enabled := noc_translation_enabled s;
     TAG_NOC_TRANSLATION := TAG_NOC_TRANSLATION s;
     regs := if translate_en (translation s).1 then EnableArcNocTranslation (regs s)
             else regs s |}.

Definition all_zeroes : NocTranslation :=
  {| translate_en := false; translate_table_x := replicate 32 0;
     translate_table_y := replicate 32 0; translate_col_mask := 0; translate_row_mask := 0;
     logical_coords := λ n, pack_coord n.1 n.2 |}.
Definition ClearNocTranslation s : option noc_state :=
  let r := DisableArcNocTranslation (regs s) in
  let tr := (all_zeroes, all_zeroes) in
  r ← ProgramNocTranslation tr r;
  Some {| translation := tr; noc_translation_enabled := false; TAG_NOC_TRANSLATION := false;
          regs := r |}.

(** [find_lsb_set] and [find_msb_set]: one-based positions, zero if none. *)
Definition find_lsb_set (v : Z) : Z := if v =? 0 then 0 else LOG2 (LSB_GET v) + 1.
Definition find_msb_set (v : Z) : Z := if v =? 0 then 0 else LOG2 v + 1.
(** [1 << (find_msb_set(v) - 1)]: undefined when no bit is set. *)
Definition msb_mask (v : Z) : option Z :=
  if find_msb_set v =? 0 then None else Some (Z.shiftl 1 (find_msb_set v - 1)).

Definition bad_gddr_of (te : TileEnable) : Z :=
  let bad_gddr := u8 (find_lsb_set (u32 (Z.lnot (gddr_enabled te))) - 1) in
  if bad_gddr =? 8 then NO_BAD_GDDR else bad_gddr.
Definition skip_eth_of (te : TileEnable) : option Z :=
  a ← msb_mask (Z.land (Z.lnot (eth_enabled te)) (GENMASK 6 4));
  b ← msb_mask (Z.land (Z.lnot (eth_enabled te)) (GENMASK 9 7));
  Some (u16 (Z.lor a b)).
Definition bad_cols_of (te : TileEnable) : Z :=
  u16 (Z.ldiff (BIT_MASK 14) (tensix_col_enabled te)).

Definition BH_PCIE_MODE_EP : Z := 1.
Definition InitNocTranslationFromHarvesting (cable_fault noc_translation_en : bool)
    (te : TileEnable) s : option noc_state :=
  if cable_fault then Some s
  else if negb noc_translation_en then Some s
  else
    let pcie_instance := if (pcie_usage te).1 =? BH_PCIE_MODE_EP then 0 else 1 in
    skip_eth ← skip_eth_of te;
    InitNocTranslation s pcie_instance (bad_cols_of te) (bad_gddr_of te) skip_eth.

(** ** Broadcasts and clocks *)
Definition router_cfg_1 (disabled_tensix_columns : Z) : option (Z * Z) :=
  let west_east := Z.lor (Z.lor (BIT 0) (BIT 8)) (BIT 9) in
  let west_east1 := Z.lor (Z.lor (BIT (NOC0_X_TO_NOC1 0)) (BIT (NOC0_X_TO_NOC1 8)))
                          (BIT (NOC0_X_TO_NOC1 9)) in
  foldl (λ acc i,
    '(c0, c1) ← acc;
    if Z.testbit disabled_tensix_columns i then
      noc0_x ← TensixPhysXToNoc i 0;
      Some (Z.lor c0 (BIT noc0_x), Z.lor c1 (BIT (NOC0_X_TO_NOC1 noc0_x)))
    else Some (c0, c1)) (Some (west_east, west_east1)) (seqZ 0 14).
Definition router_cfg_3 : Z * Z :=
  (Z.lor (BIT 0) (BIT 1), Z.lor (BIT (NOC0_Y_TO_NOC1 0)) (BIT (NOC0_Y_TO_NOC1 1))).
Fixpoint exclude_tiles (cfg1 : Z * Z) (tiles : list (Z * Z)) r : option niu :=
  match tiles with
  | [] => Some r
  | (px, py) :: tiles =>
      r ← WriteNocCfgRegs r 0 px py
            [(ROUTER_CFG 1, cfg1.1); (ROUTER_CFG 2, 0); (ROUTER_CFG 3, router_cfg_3.1);
             (ROUTER_CFG 4, 0)];
      r ← WriteNocCfgRegs r 1 px py
            [(ROUTER_CFG 1, cfg1.2); (ROUTER_CFG 2, 0); (ROUTER_CFG 3, router_cfg_3.2);
             (ROUTER_CFG 4, 0)];
      exclude_tiles cfg1 tiles r
  end.
Definition ProgramBroadcastExclusion (disabled_tensix_columns : Z) r : option niu :=
  cfg1 ← router_cfg_1 disabled_tensix_columns;
  exclude_tiles cfg1 all_tiles r.

Definition GetTileClkDisable (te : TileEnable) (px py : Z) : bool :=
  if (1 <=? px) && (px <=? 14) && (2 <=? py) then
    negb (IS_BIT_SET (tensix_col_enabled te) (px - 1))
  else if (1 <=? px) && (px <=? 14) && (py =? 1) then
    negb (IS_BIT_SET (eth_enabled te) (px - 1))
  else if px =? 0 then negb (IS_BIT_SET (gddr_enabled te) (py / 3))
  else if px =? 16 then negb (IS_BIT_SET (gddr_enabled te) (4 + py / 3))
  else false.

(** The clock-gating word of a tile's overlay, where it has one. *)
Definition EnableOverlayCg r (overlay : Z * Z -> Z) (px py : Z) : option (Z * Z -> Z) :=
  base ← OverlayRegsBase px py;
  if negb (base =? 0) then
    if arc_translates r 0 then None
    else Some (<[(px, py) := Z.lor (overlay (px, py)) (Z.shiftl 1 0)]> overlay)
  else Some overlay.

Definition init_ring (cg_en tile_clk_off : bool) (px py noc_id : Z) r : option niu :=
  niu_cfg_0 ← ReadNocCfgReg r noc_id px py NIU_CFG_0;
  let updates := Z.lor (BIT NIU_CFG_0_TILE_HEADER_STORE_OFF) (if cg_en then BIT 0 else 0) in
  r ← WriteNocCfgReg r noc_id px py NIU_CFG_0
        (WRITE_BIT (Z.lor niu_cfg_0 updates) NIU_CFG_0_TILE_CLK_OFF tile_clk_off);
  router_cfg_0 ← ReadNocCfgReg r noc_id px py (ROUTER_CFG 0);
  let updates := Z.lor (Z.shiftl 0xF 8) (if cg_en then BIT 0 else 0) in
  WriteNocCfgReg r noc_id px py (ROUTER_CFG 0) (Z.lor router_cfg_0 updates).
Definition NocInitSingleTile (cg_en cable_fault : bool) (te : TileEnable) (noc0_x noc0_y : Z)
    r (overlay : Z * Z -> Z) : option (niu * (Z * Z -> Z)) :=
  px ← NocToPhysX noc0_x 0;
  py ← NocToPhysY noc0_y 0;
  let tile_clk_off := if cable_fault then negb (px =? 15) else GetTileClkDisable te px py in
  r ← init_ring cg_en tile_clk_off px py 0 r;
  r ← init_ring cg_en tile_clk_off px py 1 r;
  if cg_en then overlay ← EnableOverlayCg r overlay px py; Some (r, overlay)
  else Some (r, overlay).
Fixpoint init_tiles (cg_en cable_fault : bool) (te : TileEnable) (tiles : list (Z * Z))
    r (overlay : Z * Z -> Z) : option (niu * (Z * Z -> Z)) :=
  match tiles with
  | [] => Some (r, overlay)
  | (px, py) :: tiles =>
      noc0_x ← PhysXToNoc px 0;
      noc0_y ← PhysYToNoc py 0;
      '(r, overlay) ← NocInitSingleTile cg_en cable_fault te noc0_x noc0_y r overlay;
      init_tiles cg_en cable_fault te tiles r overlay
  end.
(** [NocInit] of the mission firmware on the chip. *)
Definition NocInit (cg_en cable_fault : bool) (te : TileEnable) r (overlay : Z * Z -> Z)
  : option (niu * (Z * Z -> Z)) :=
  '(r, overlay) ← init_tiles cg_en cable_fault te all_tiles r overlay;
  if negb cable_fault then
    r ← ProgramBroadcastExclusion (bad_cols_of te) r; Some (r, overlay)
  else Some (r, overlay).

(** The host's debug message; [pci1_mode] is the mode of the second PCIe instance.
    An error code is returned as [uint8_t]. *)
Definition debug_noc_translation_handler (pci1_mode : Z) s (req : list Z)
  : option (Z * noc_state) :=
  let flags := u8 (data req 0 / 256) in
  let enable_translation := Z.testbit flags 0 in
  let pcie_instance := Z.b2z (Z.testbit flags 1) in
  let pcie_instance_override := Z.testbit flags 2 in
  let bad_tensix_cols := u16 (data req 0 / 65536) in
  let bad_gddr := u8 (data req 1) in
  let skip_eth := Z.lor (u8 (data req 1 / 256)) (Z.shiftl (u8 (data req 1 / 65536)) 8) in
  if (NUM_GDDR <=? bad_gddr) && negb (bad_gddr =? NO_BAD_GDDR) then Some (u8 (- EINVAL), s)
  else
    s ← ClearNocTranslation s;
    r ← ProgramBroadcastExclusion bad_tensix_cols (regs s);
    let s := {| translation := translation s;
                noc_translation_enabled := noc_translation_enabled s;
                TAG_NOC_TRANSLATION := TAG_NOC_TRANSLATION s; regs := r |} in
    if enable_translation then
      let pcie_instance :=
        if negb pcie_instance_override then (if pci1_mode =? BH_PCIE_MODE_EP then 1 else 0)
        else pcie_instance in
      s ← InitNocTranslation s pcie_instance bad_tensix_cols bad_gddr skip_eth;
      Some (0, s)
    else Some (0, s).

Definition GetEnabledTensix s (te : TileEnable) : option (Z * Z) :=
  if noc_translation_enabled s then Some (1, 2)
  else
    x ← zget kTensixEthNoc0X (LOG2 (LSB_GET (tensix_col_enabled te)));
    Some (x, 2).
Definition IsNocTranslationEnabled s : bool := noc_translation_enabled s.

(** * Lowest set bits *)

Lemma LSB_double a : LSB_GET (2 * a) = 2 * LSB_GET a.
Proof.
  unfold LSB_GET. replace (- (2 * a)) with (2 * - a) by lia.
  rewrite !(Z.mul_comm 2), <- !(Z.shiftl_mul_pow2 _ 1) by done. by rewrite Z.shiftl_land.
Qed.

Lemma LSB_odd a : LSB_GET (2 * a + 1) = 1.
Proof.
  unfold LSB_GET. apply Z.bits_inj'. intros i Hi. rewrite Z.land_spec.
  replace (- (2 * a + 1)) with (2 * Z.lnot a + 1) by (unfold Z.lnot; lia).
  destruct (Z.eq_dec i 0) as [->|Hne].
  - by rewrite !Z.testbit_odd_0.
  - replace i with (Z.succ (Z.pred i)) by lia. rewrite !Z.testbit_odd_succ by lia.
    rewrite Z.lnot_spec by lia. change 1 with (2 * 0 + 1). rewrite Z.testbit_odd_succ by lia.
    rewrite Z.bits_0. apply andb_negb_r.
Qed.

Lemma LSB_spec v : 0 < v -> exists k, 0 <= k /\ LSB_GET v = 2 ^ k /\ Z.testbit v k = true /\
  forall i, 0 <= i < k -> Z.testbit v i = false.
Proof.
  intros Hv. destruct v as [|p|p]; [lia | | lia]. clear Hv.
  induction p as [p _|p IH|].
  - exists 0. rewrite Pos2Z.inj_xI. split_and!; [done | apply LSB_odd | apply Z.testbit_odd_0 | lia].
  - destruct IH as (k & Hk & Hl & Hb & Hlow). exists (k + 1). rewrite Pos2Z.inj_xO.
    split_and!; [lia | | |].
    + rewrite LSB_double, Hl, Z.pow_add_r by lia. lia.
    + rewrite Z.add_1_r, Z.testbit_even_succ by lia. done.
    + intros i Hi. destruct (Z.eq_dec i 0) as [->|]; [apply Z.testbit_even_0|].
      replace i with (Z.succ (Z.pred i)) by lia. rewrite Z.testbit_even_succ by lia.
      apply Hlow. lia.
  - exists 0. split_and!; [done.. | lia].
Qed.

(** The set bits of a word below [n], in increasing order. *)
Definition set_bits (n v : Z) : list Z := filter (λ i, Z.testbit v i = true) (seqZ 0 n).

Lemma elem_of_set_bits n v i : i ∈ set_bits n v <-> 0 <= i < n /\ Z.testbit v i = true.
Proof. unfold set_bits. rewrite list_elem_of_filter, elem_of_seqZ. intuition lia. Qed.

Lemma filter_ext_in {A} (P Q : A -> Prop) `{forall x, Decision (P x), forall x, Decision (Q x)}
    (l : list A) : (forall x, x ∈ l -> P x <-> Q x) -> filter P l = filter Q l.
Proof.
  intros H1. induction l as [|x l IH]; [done|]. rewrite !filter_cons.
  assert (P x <-> Q x) as Hx by apply H1, list_elem_of_here.
  assert (filter P l = filter Q l) as ->
    by (apply IH; intros y Hy; by apply H1, list_elem_of_further).
  destruct (decide (P x)), (decide (Q x)); tauto || done.
Qed.

Lemma filter_none {A} (P : A -> Prop) `{forall x, Decision (P x)} (l : list A) :
  (forall x, x ∈ l -> ~ P x) -> filter P l = [].
Proof.
  intros H1. induction l as [|x l IH]; [done|].
  rewrite filter_cons_False by apply H1, list_elem_of_here.
  apply IH. intros y Hy. by apply H1, list_elem_of_further.
Qed.

(** Taking the lowest set bit away takes the first one off the list. *)
Lemma set_bits_pop n v : 0 < v < 2 ^ n ->
  set_bits n v = LOG2 (LSB_GET v) :: set_bits n (Z.ldiff v (LSB_GET v)) /\
  0 <= Z.ldiff v (LSB_GET v) < 2 ^ n.
Proof.
  intros Hv. assert (0 <= n) by (destruct (Z.lt_ge_cases n 0); [rewrite Z.pow_neg_r in Hv; lia | lia]).
  destruct (LSB_spec v) as (k & Hk & -> & Hb & Hlow); [lia|].
  unfold LOG2. rewrite Z.log2_pow2 by done.
  assert (Hkn : k < n).
  { apply Z.nle_gt. intros Hn. rewrite <- (Z.mod_small v (2 ^ n)) in Hb by lia.
    by rewrite Z.mod_pow2_bits_high in Hb by lia. }
  split; [|apply ldiff_bound; [by split; lia | done]].
  assert (Hrest : forall i, Z.testbit (Z.ldiff v (2 ^ k)) i = Z.testbit v i && negb (k =? i)).
  { intros i. by rewrite Z.ldiff_spec, Z.pow2_bits_eqb. }
  unfold set_bits. replace n with (k + (1 + (n - k - 1))) by lia.
  rewrite !seqZ_app by lia. rewrite !list.filter_app, Z.add_0_l.
  assert (seqZ k 1 = [k]) as -> by (unfold seqZ; cbn; f_equal; lia).
  rewrite !(filter_none _ (seqZ 0 k)).
  - rewrite (filter_singleton_True _ k []) by done.
    rewrite (filter_singleton_False _ k []) by (rewrite Hrest, Z.eqb_refl, andb_false_r; done).
    cbn [app]. f_equal. apply filter_ext_in. intros i Hi%elem_of_seqZ. rewrite Hrest.
    destruct (Z.eqb_spec k i); [lia|]. by rewrite andb_true_r.
  - intros i Hi%elem_of_seqZ. rewrite Hrest, Hlow by lia. done.
  - intros i Hi%elem_of_seqZ. rewrite Hlow by lia. done.
Qed.

Lemma set_bits_0 n : set_bits n 0 = [].
Proof. apply filter_none. intros i _. by rewrite Z.bits_0. Qed.

Lemma set_bits_nil n v : 0 <= v < 2 ^ n -> set_bits n v = [] -> v = 0.
Proof.
  intros Hv H. destruct (Z.eq_dec v 0); [done|]. destruct (set_bits_pop n v); [lia|]. congruence.
Qed.

(** * The Tensix columns *)
Definition writes (t : list Z) (kvs : list (Z * Z)) : list Z :=
  foldl (λ t kv, <[Z.to_nat kv.1 := kv.2]> t) t kvs.

Lemma writes_app t a b : writes t (a ++ b) = writes (writes t a) b.
Proof. apply foldl_app. Qed.

Lemma length_writes t kvs : length (writes t kvs) = length t.
Proof.
  unfold writes. revert t. induction kvs as [|kv kvs IH]; intros t; [done|].
  cbn [foldl]. by rewrite IH, length_insert.
Qed.

Lemma table_get_lookup t (i : nat) : table_get t (Z.of_nat i) = default 0 (t !! i).
Proof. unfold table_get. by rewrite zget_nat. Qed.

Lemma table_get_ne t k v i : 0 <= k -> 0 <= i -> k <> i ->
  table_get (<[Z.to_nat k := v]> t) i = table_get t i.
Proof.
  intros. rewrite <- (Z2Nat.id i) by done. rewrite !table_get_lookup.
  by rewrite list_lookup_insert_ne by lia.
Qed.

Lemma table_get_eq t k v : 0 <= k < Z.of_nat (length t) ->
  table_get (<[Z.to_nat k := v]> t) k = v.
Proof.
  intros. rewrite <- (Z2Nat.id k) at 2 by lia. rewrite table_get_lookup.
  by rewrite list_lookup_insert_eq by lia.
Qed.

Lemma writes_other t kvs i : 0 <= i -> Forall (λ k, 0 <= k) kvs.*1 -> i ∉ kvs.*1 ->
  table_get (writes t kvs) i = table_get t i.
Proof.
  intros Hi. unfold writes. revert t. induction kvs as [|[k v] kvs IH]; intros t Hf Hn; [done|].
  cbn [foldl]. rewrite fmap_cons in Hf, Hn. apply Forall_cons_1 in Hf as [Hk Hf].
  apply not_elem_of_cons in Hn as [Hne Hn]. rewrite IH by done. cbn [fst snd] in *.
  by apply table_get_ne.
Qed.

Lemma writes_in t kvs k v : NoDup kvs.*1 ->
  Forall (λ k, 0 <= k < Z.of_nat (length t)) kvs.*1 -> (k, v) ∈ kvs ->
  table_get (writes t kvs) k = v.
Proof.
  revert t. induction kvs as [|[k' v'] kvs IH]; intros t Hnd Hf Hin; [by apply elem_of_nil in Hin|].
  rewrite fmap_cons in Hnd, Hf. apply list.NoDup_cons in Hnd as [Hn Hnd].
  apply Forall_cons_1 in Hf as [Hk Hf]. cbn [fst] in *.
  apply elem_of_cons in Hin as [[= <- <-]|Hin].
  - unfold writes. cbn [foldl fst snd]. fold (writes (<[Z.to_nat k := v]> t) kvs).
    rewrite writes_other; [by apply table_get_eq | lia | | done].
    eapply Forall_impl; [|exact Hf]. cbn. lia.
  - unfold writes. cbn [foldl fst snd]. apply IH; [done | | done]. by rewrite length_insert.
Qed.

Lemma fill_good_writes xs good t : 0 <= good < 2 ^ 17 ->
  let r := fill_good xs good t in
  r.2 = writes t (zip xs (set_bits 17 good)) /\
  set_bits 17 r.1 = drop (length xs) (set_bits 17 good) /\ 0 <= r.1 < 2 ^ 17.
Proof.
  revert good t. induction xs as [|x xs IH]; intros good t Hg; cbn [fill_good length].
  - cbn [fst snd]. rewrite drop_0. by split.
  - destruct (Z.eqb_spec good 0) as [->|Hne].
    + cbn [fst snd]. rewrite set_bits_0, drop_nil. by split.
    + destruct (set_bits_pop 17 good) as [Hp Hb]; [lia|]. rewrite Hp. cbn zeta.
      destruct (IH (Z.ldiff good (LSB_GET good)) (<[Z.to_nat x := LOG2 (LSB_GET good)]> t) Hb)
        as (H1 & H2 & H3). split; [exact H1|]. split; [exact H2 | exact H3].
Qed.

Lemma fill_bad_writes xs bad t : 0 <= bad < 2 ^ 14 ->
  fill_bad xs bad t
    = Some (writes t (zip xs (map (table_get kTensixEthNoc0X) (set_bits 14 bad)))).
Proof.
  revert bad t. induction xs as [|x xs IH]; intros bad t Hb; cbn [fill_bad]; [done|].
  destruct (Z.eqb_spec bad 0) as [->|Hne].
  - by rewrite set_bits_0.
  - destruct (set_bits_pop 14 bad) as [Hp Hb']; [lia|]. rewrite Hp. cbn [map zip zip_with].
    assert (Hin : LOG2 (LSB_GET bad) ∈ set_bits 14 bad) by (rewrite Hp; apply list_elem_of_here).
    apply elem_of_set_bits in Hin as [Hr _].
    destruct (lookup_lt_is_Some_2 kTensixEthNoc0X (Z.to_nat (LOG2 (LSB_GET bad)))) as [c Hc];
      [cbn; lia|].
    assert (Hz : zget kTensixEthNoc0X (LOG2 (LSB_GET bad)) = Some c)
      by (unfold zget; case_match; [zlia | done]).
    rewrite Hz. cbn [mbind option_bind]. rewrite IH by done. unfold table_get at 2. by rewrite Hz.
Qed.

(** NOC 0 columns of the Tensix tiles, of the bad ones by physical column, and of
    the usable ones in increasing order. *)
Definition tensix_xs : list Z := range 1 7 ++ range 10 16.
Definition bad_xs (bad : Z) : list Z := map (table_get kTensixEthNoc0X) (set_bits 14 bad).
Definition good_xs (bad : Z) : list Z := filter (λ x, x ∉ bad_xs bad) tensix_xs.

Lemma clear_bad_loop bad l g x :
  Z.testbit (foldl (λ good i, if Z.testbit bad i
                              then Z.clearbit good (table_get kTensixEthNoc0X i) else good) g l) x
  = Z.testbit g x &&
    negb (existsb (λ i, Z.testbit bad i && (table_get kTensixEthNoc0X i =? x)) l).
Proof.
  induction l as [|i l IH] using rev_ind; [by rewrite andb_true_r|].
  rewrite foldl_app, existsb_app. cbn [foldl existsb]. rewrite orb_false_r.
  destruct (Z.testbit bad i); cbn [andb]; [|by rewrite IH, orb_false_r].
  rewrite Z.clearbit_eqb, IH, negb_orb. by rewrite andb_assoc.
Qed.

Lemma clear_bad_bits bad x :
  Z.testbit (clear_bad bad) x = true <->
  Z.testbit (Z.lor (GENMASK 7 1) (GENMASK 16 10)) x = true /\ x ∉ bad_xs bad.
Proof.
  unfold clear_bad. rewrite clear_bad_loop, andb_true_iff. apply and_iff_compat_l.
  rewrite negb_true_iff, <- not_true_iff_false, existsb_exists. apply not_iff_compat.
  unfold bad_xs. rewrite list_elem_of_In, in_map_iff. split.
  - intros (i & Hi & Hb). apply andb_true_iff in Hb as [Hb Hx]. zb. exists i. split; [done|].
    apply list_elem_of_In, elem_of_set_bits. apply list_elem_of_In, elem_of_seqZ in Hi. lia || auto.
  - intros (i & Hx & Hi). apply list_elem_of_In, elem_of_set_bits in Hi as [Hr Hb].
    exists i. split; [apply list_elem_of_In, elem_of_seqZ; lia|].
    rewrite Hb, Hx. apply Z.eqb_refl.
Qed.

Lemma set_bits_clear_bad bad : set_bits 17 (clear_bad bad) = good_xs bad.
Proof.
  unfold good_xs.
  assert (tensix_xs = set_bits 17 (Z.lor (GENMASK 7 1) (GENMASK 16 10))) as ->
    by (vm_compute; reflexivity).
  unfold set_bits. rewrite list_filter_filter. apply filter_ext_in. intros x _.
  rewrite clear_bad_bits. tauto.
Qed.

Lemma clear_bad_range bad : 0 <= clear_bad bad < 2 ^ 17.
Proof.
  apply (submask_range 17 _ (Z.lor (GENMASK 7 1) (GENMASK 16 10))); [done | | done |].
  - unfold clear_bad. generalize (seqZ 0 14).
    assert (H : 0 <= Z.lor (GENMASK 7 1) (GENMASK 16 10)) by done. revert H.
    generalize (Z.lor (GENMASK 7 1) (GENMASK 16 10)). intros g Hg l. revert g Hg.
    induction l as [|i l IH]; intros g Hg; [done|]. cbn [foldl]. apply IH.
    destruct (Z.testbit bad i); [|done]. apply Z.ldiff_nonneg. by left.
  - intros i Hi. apply clear_bad_bits in Hi as [Hi _]. exact Hi.
Qed.

Lemma kTensixEthNoc0X_inj : forall x, 0 <= x < 14 ->
  Forall (λ y, table_get kTensixEthNoc0X x = table_get kTensixEthNoc0X y -> x = y) (seqZ 0 14).
Proof. by_enum. Qed.

Lemma kTensixEthNoc0X_tensix : forall x, 0 <= x < 14 -> table_get kTensixEthNoc0X x ∈ tensix_xs.
Proof. by_enum. Qed.

Lemma NoDup_bad_xs bad : NoDup (bad_xs bad).
Proof.
  apply NoDup_fmap_2_strong; [|apply list.NoDup_filter, NoDup_seqZ].
  intros x y [Hx _]%elem_of_set_bits [Hy _]%elem_of_set_bits.
  pose proof (kTensixEthNoc0X_inj x Hx) as Hf. rewrite Forall_seqZ in Hf. apply Hf. lia.
Qed.

Lemma bad_xs_tensix bad x : x ∈ bad_xs bad -> x ∈ tensix_xs.
Proof.
  intros (i & -> & [Hi _]%elem_of_set_bits)%list_elem_of_fmap. by apply kTensixEthNoc0X_tensix.
Qed.

Lemma good_bad_length bad : (length (good_xs bad) + length (bad_xs bad) = 14)%nat.
Proof.
  pose proof (filter_app_complement (λ x, x ∈ bad_xs bad) tensix_xs) as Hp.
  apply Permutation_length in Hp. rewrite length_app in Hp.
  assert (He : filter (λ x, x ∈ bad_xs bad) tensix_xs ≡ₚ bad_xs bad).
  { apply list.NoDup_Permutation; [| apply NoDup_bad_xs |].
    - apply list.NoDup_filter. apply (bool_decide_eq_true_1 (NoDup tensix_xs)). vm_compute. reflexivity.
    - intros x. rewrite list_elem_of_filter. split; [tauto|]. intros H. split; [done|].
      by eapply bad_xs_tensix. }
  apply Permutation_length in He. change (length tensix_xs) with 14%nat in Hp.
  unfold good_xs. lia.
Qed.

Lemma POPCOUNT_set_bits v : in_width 14 v -> POPCOUNT v = Z.of_nat (length (set_bits 14 v)).
Proof.
  intros Hv. rewrite (POPCOUNT_count 14 v Hv). change (Z.of_nat 14) with 14. unfold set_bits.
  induction (seqZ 0 14) as [|i l IH]; [done|]. cbn [count_bits foldr]. unfold count_bits in IH.
  rewrite IH, filter_cons. destruct (Z.testbit v i) eqn:E; cbn [Z.b2z].
  - rewrite decide_True by done. cbn [length]. lia.
  - rewrite decide_False by done. lia.
Qed.

Lemma zip_keys {A B} (l : list A) (k : list B) : (zip l k).*1 = take (length k) l.
Proof. revert k. induction l as [|x l IH]; intros [|y k]; cbn; [done..|]. f_equal. apply IH. Qed.

Lemma lookup_zip {A B} (l : list A) (k : list B) i x y :
  l !! i = Some x -> k !! i = Some y -> (x, y) ∈ zip l k.
Proof. intros Hx Hy. apply (list_elem_of_lookup_2 _ i). by rewrite lookup_zip_with, Hx, Hy. Qed.

(** All that is written into the table. *)
Definition tensix_writes (bad : Z) : list (Z * Z) :=
  zip (range 1 7) (good_xs bad) ++ zip (range 10 16) (drop 7 (good_xs bad)) ++
  zip (reverse (range 10 16)) (bad_xs bad).

Lemma tensix_columns_writes bad t : in_width 14 bad ->
  tensix_columns bad t = Some (writes t (tensix_writes bad)).
Proof.
  intros Hb. unfold tensix_columns, tensix_writes.
  destruct (fill_good_writes (range 1 7) (clear_bad bad) t (clear_bad_range bad))
    as (H1 & H2 & H3).
  destruct (fill_good _ _ t) as [g1 t1]. cbn [fst snd] in *.
  destruct (fill_good_writes (range 10 16) g1 t1 H3) as (H4 & _).
  destruct (fill_good _ _ t1) as [g2 t2]. cbn [fst snd] in *.
  rewrite set_bits_clear_bad in H1, H2.
  rewrite fill_bad_writes by exact Hb. rewrite H4, H2, H1.
  by rewrite !writes_app.
Qed.

Lemma tensix_writes_keys bad : (length (bad_xs bad) <= 7)%nat ->
  NoDup (tensix_writes bad).*1 /\ (forall k, k ∈ (tensix_writes bad).*1 -> k ∈ tensix_xs) /\
  forall j x y, tensix_xs !! j = Some x ->
    (good_xs bad ++ reverse (bad_xs bad)) !! j = Some y -> (x, y) ∈ tensix_writes bad.
Proof.
  intros Hb. pose proof (good_bad_length bad) as Hl. unfold tensix_writes.
  set (g := good_xs bad) in *. set (bd := bad_xs bad) in *.
  split; [|split].
  - rewrite !fmap_app, !zip_keys, length_drop, take_ge by (change (length (range 1 7)) with 7%nat; lia).
    replace (length g - 7)%nat with (7 - length bd)%nat by lia.
    do 8 (destruct bd as [|? bd]; [apply (bool_decide_eq_true_1 (NoDup _)); vm_compute; reflexivity|]).
    cbn [length] in Hb. lia.
  - intros k. rewrite !fmap_app, !zip_keys, !elem_of_app. unfold tensix_xs. rewrite elem_of_app.
    intros [H|[H|H]]; apply elem_of_take in H as (i & H & _);
      apply list_elem_of_lookup_2 in H; [by left | by right|].
    right. by apply elem_of_reverse in H.
  - intros j x y Hx Hy. unfold tensix_xs in Hx. rewrite !elem_of_app.
    assert (Hj : (j < 14)%nat) by (apply lookup_lt_Some in Hx; exact Hx).
    destruct (decide (j < 7)%nat).
    + left. rewrite lookup_app_l in Hx by done. rewrite lookup_app_l in Hy by lia.
      by eapply lookup_zip.
    + rewrite lookup_app_r in Hx by (change (length (range 1 7)) with 7%nat; lia).
      change (length (range 1 7)) with 7%nat in Hx. right.
      destruct (decide (j < length g)%nat).
      * left. rewrite lookup_app_l in Hy by lia. eapply lookup_zip; [exact Hx|].
        rewrite lookup_drop. by replace (7 + (j - 7))%nat with j by lia.
      * right. rewrite lookup_app_r in Hy by lia. apply (lookup_zip _ _ (13 - j)).
        -- rewrite reverse_lookup by (change (length (range 10 16)) with 7%nat; lia).
           change (length (range 10 16)) with 7%nat. by replace (7 - S (13 - j))%nat with (j - 7)%nat by lia.
        -- rewrite reverse_lookup in Hy by lia.
           by replace (13 - j)%nat with (length bd - S (j - length g))%nat by lia.
Qed.

Lemma tensix_xs_range k : k ∈ tensix_xs -> 1 <= k <= 16.
Proof.
  unfold tensix_xs, range. rewrite elem_of_app, !elem_of_seqZ. lia.
Qed.

Lemma tensix_map bad t : (length (bad_xs bad) <= 7)%nat -> length t = 32%nat ->
  map (table_get (writes t (tensix_writes bad))) tensix_xs
    = good_xs bad ++ reverse (bad_xs bad) /\
  (forall i, 0 <= i -> i ∉ tensix_xs ->
     table_get (writes t (tensix_writes bad)) i = table_get t i).
Proof.
  intros Hb Hlen. destruct (tensix_writes_keys bad Hb) as (Hnd & Hkeys & Hin).
  assert (Hr : Forall (λ k, 0 <= k < Z.of_nat (length t)) (tensix_writes bad).*1).
  { apply list.Forall_forall. intros k Hk%Hkeys%tensix_xs_range. lia. }
  split.
  - apply list_eq. intros j. change (map ?f ?l) with (f <$> l). rewrite list_lookup_fmap.
    destruct (tensix_xs !! j) as [x|] eqn:Hx; cbn [fmap option_fmap option_map].
    + destruct (lookup_lt_is_Some_2 (good_xs bad ++ reverse (bad_xs bad)) j) as [y Hy].
      { rewrite length_app, length_reverse, good_bad_length.
        apply lookup_lt_Some in Hx. exact Hx. }
      rewrite Hy. f_equal. eapply writes_in; [done | done | by eapply Hin].
    + symmetry. apply lookup_ge_None_2. rewrite length_app, length_reverse, good_bad_length.
      apply lookup_ge_None_1 in Hx. exact Hx.
  - intros i Hi Hn. apply writes_other; [done | | by intros ?%Hkeys].
    eapply Forall_impl; [|exact Hr]. cbn. lia.
Qed.

(** The columns used by the Tensix rows are all reached. *)
Lemma good_bad_permutation bad : good_xs bad ++ reverse (bad_xs bad) ≡ₚ tensix_xs.
Proof.
  rewrite reverse_Permutation. apply list.NoDup_Permutation.
  - apply list.NoDup_app. split_and!; [| | apply NoDup_bad_xs].
    + apply list.NoDup_filter, (bool_decide_eq_true_1 (NoDup tensix_xs)). vm_compute. reflexivity.
    + intros x [Hx _]%list_elem_of_filter. done.
  - apply (bool_decide_eq_true_1 (NoDup tensix_xs)). vm_compute. reflexivity.
  - intros x. rewrite elem_of_app. unfold good_xs. rewrite list_elem_of_filter. split.
    + intros [[_ H]|H]; [done | by eapply bad_xs_tensix].
    + intros H. destruct (decide (x ∈ bad_xs bad)); [by right | by left].
Qed.

(** With at most seven bad columns, the translated Tensix columns (1-7 and
    10-16) are a rearrangement of the physical ones: first the usable columns in
    increasing NOC 0 order, then the bad ones, the first bad one at the far end.
    Software that uses the first columns never meets a bad one. *)
Theorem tensix_columns_spec (bad : Z) (Hbad : in_width 14 bad) (Hseven : POPCOUNT bad <= 7) :
  exists t, tensix_columns bad (translate_table_x MakeIdentity) = Some t /\
    map (table_get t) tensix_xs = good_xs bad ++ reverse (bad_xs bad) /\
    map (table_get t) [0; 8; 9] = [0; 8; 9] /\
    Permutation (map (table_get t) tensix_xs) tensix_xs.
Proof.
  rewrite tensix_columns_writes by done. eexists. split; [reflexivity|].
  destruct (tensix_map bad (translate_table_x MakeIdentity)) as [H1 H2]; [| done |].
  { unfold bad_xs. rewrite length_map. rewrite POPCOUNT_set_bits in Hseven by done. lia. }
  split; [exact H1|]. split.
  - cbn [map]. rewrite !H2; [done | done | | done | | done |];
      (intros Hin%list_elem_of_In; vm_compute in Hin; intuition lia).
  - rewrite H1. apply good_bad_permutation.
Qed.

Lemma tensix_columns_spec_witness :
  exists t, tensix_columns 0x2008 (translate_table_x MakeIdentity) = Some t /\
    map (table_get t) tensix_xs = [1; 2; 3; 4; 5; 6; 7; 11; 12; 13; 14; 16; 10; 15] /\
    map (table_get t) [0; 8; 9] = [0; 8; 9] /\
    Permutation (map (table_get t) tensix_xs) tensix_xs.
Proof.
  apply (tensix_columns_spec 0x2008); [split|]; vm_compute; congruence.
Defined.


(** * Logical coordinates *)

(** Decoding of a logical identifier. *)
Definition coord_x (v : Z) : Z := Z.land v 0x3F.
Definition coord_y (v : Z) : Z := Z.shiftr v 6.

Lemma pack_unpack x y : 0 <= x < 32 -> 0 <= y < 32 ->
  coord_x (pack_coord x y) = x /\ coord_y (pack_coord x y) = y.
Proof.
  intros Hx Hy. unfold pack_coord, coord_x, coord_y.
  assert (Hs : Z.lor (Z.shiftl y 6) x = y * 64 + x).
  { rewrite Z.shiftl_mul_pow2 by done. change (2 ^ 6) with 64.
    assert (Hz : Z.land (y * 64) x = 0).
    { apply Z.bits_inj'. intros i Hi. rewrite Z.land_spec, Z.bits_0.
      change 64 with (2 ^ 6). destruct (Z.lt_ge_cases i 6).
      - by rewrite Z.mul_pow2_bits_low.
      - rewrite <- (Z.mod_small x (2 ^ 6)) by (change (2 ^ 6) with 64; lia).
        rewrite Z.mod_pow2_bits_high by lia. apply andb_false_r. }
    pose proof (Z.add_lor_land (y * 64) x). lia. }
  rewrite Hs, (wrap_id 16) by (unfold in_width; lia). split.
  - change 0x3F with (Z.ones 6). rewrite Z.land_ones by done. change (2 ^ 6) with 64.
    rewrite Z.add_comm, Z.mod_add by done. apply Z.mod_small. lia.
  - rewrite Z.shiftr_div_pow2 by done. change (2 ^ 6) with 64.
    rewrite Z.div_add_l by done. rewrite Z.div_small by lia. lia.
Qed.

(** What a loop over pre-translation coordinates did to the identifier of a node:
    nothing, or one of the coordinates that reach the node was stored. *)
Definition stored nt nt' (hit : Z * Z -> Prop) (n : Z * Z) : Prop :=
  (logical_coords nt' n = logical_coords nt n /\
   forall p, hit p -> (table_get (translate_table_x nt) p.1,
                       table_get (translate_table_y nt) p.2) <> n) \/
  exists p, hit p /\ (table_get (translate_table_x nt) p.1,
                      table_get (translate_table_y nt) p.2) = n /\
    logical_coords nt' n = pack_coord p.1 p.2.

Definition same_tables nt nt' : Prop :=
  translate_en nt' = translate_en nt /\ translate_table_x nt' = translate_table_x nt /\
  translate_table_y nt' = translate_table_y nt /\
  translate_col_mask nt' = translate_col_mask nt /\
  translate_row_mask nt' = translate_row_mask nt.

(** The two nested loops as one over pairs. *)
Definition apply_step (post : Z * Z * Z * Z) nt (p : Z * Z) : NocTranslation :=
  let '(x0, y0, x1, y1) := post in
  let post_x := table_get (translate_table_x nt) p.1 in
  let post_y := table_get (translate_table_y nt) p.2 in
  if in_box post_x x0 x1 && in_box post_y y0 y1
  then SetLogicalCoord nt post_x post_y p.1 p.2 else nt.
Definition pre_pairs (pre : Z * Z * Z * Z) : list (Z * Z) :=
  let '(x0, y0, x1, y1) := pre in
  flat_map (λ x, map (λ y, (x, y)) (range y0 y1)) (range x0 x1).

Lemma apply_inner post nt x ys :
  let '(x0, y0, x1, y1) := post in
  foldl (apply_step post) nt (map (λ y, (x, y)) ys)
  = if in_box (table_get (translate_table_x nt) x) x0 x1 then
      foldl (λ nt0 pre_y,
        let post_y := table_get (translate_table_y nt0) pre_y in
        if in_box post_y y0 y1
        then SetLogicalCoord nt0 (table_get (translate_table_x nt) x) post_y x pre_y else nt0)
        nt ys
    else nt.
Proof.
  destruct post as [[[x0 y0] x1] y1].
  assert (H : forall nt0, translate_table_x nt0 = translate_table_x nt ->
    foldl (apply_step (x0, y0, x1, y1)) nt0 (map (λ y, (x, y)) ys)
    = if in_box (table_get (translate_table_x nt) x) x0 x1 then
        foldl (λ nt0 pre_y,
          let post_y := table_get (translate_table_y nt0) pre_y in
          if in_box post_y y0 y1
          then SetLogicalCoord nt0 (table_get (translate_table_x nt) x) post_y x pre_y else nt0)
          nt0 ys
      else nt0); [|by apply H].
  induction ys as [|y ys IH]; intros nt0 Hx; cbn [map foldl]; [by case_match|].
  rewrite IH; unfold apply_step; cbn [fst snd]; rewrite Hx.
  - by destruct (in_box _ x0 x1).
  - by destruct (in_box _ x0 x1), (in_box _ y0 y1).
Qed.

Lemma apply_pairs nt post pre :
  ApplyLogicalCoords nt post pre = foldl (apply_step post) nt (pre_pairs pre).
Proof.
  unfold ApplyLogicalCoords, pre_pairs. destruct post as [[[x0 y0] x1] y1] eqn:Hp.
  destruct pre as [[[a0 b0] a1] b1]. generalize (range a0 a1). intros xs. revert nt.
  induction xs as [|x xs IH]; intros nt; [done|]. cbn [foldl flat_map].
  rewrite foldl_app, <- IH. f_equal. symmetry.
  apply (apply_inner (x0, y0, x1, y1) nt x (range b0 b1)).
Qed.

Definition hits nt (post pre : Z * Z * Z * Z) (p : Z * Z) : Prop :=
  p ∈ pre_pairs pre /\
  let '(x0, y0, x1, y1) := post in
  in_box (table_get (translate_table_x nt) p.1) x0 x1
  && in_box (table_get (translate_table_y nt) p.2) y0 y1 = true.

Lemma apply_spec nt post pre :
  let nt' := ApplyLogicalCoords nt post pre in
  same_tables nt nt' /\ forall n, stored nt nt' (hits nt post pre) n.
Proof.
  rewrite apply_pairs. unfold hits. generalize (pre_pairs pre). intros l.
  destruct post as [[[x0 y0] x1] y1].
  induction l as [|p l [IHs IH]] using rev_ind; cbn [foldl] in *.
  - split; [done|]. intros n. left. split; [done|]. intros p [Hp _]. by apply elem_of_nil in Hp.
  - rewrite foldl_app. cbn [foldl]. set (nt' := foldl _ nt l) in *.
    destruct IHs as (E1 & E2 & E3 & E4 & E5).
    unfold apply_step. rewrite E2, E3.
    set (b := in_box _ x0 x1 && in_box _ y0 y1). destruct b eqn:Hb; subst b.
    + split; [by split_and!|]. intros n.
      destruct (decide ((table_get (translate_table_x nt) p.1,
                         table_get (translate_table_y nt) p.2) = n)) as [<-|Hne].
      * right. exists p. split; [|split; [done|]].
        -- split; [apply elem_of_app; right; apply list_elem_of_here | done].
        -- unfold SetLogicalCoord. cbn [logical_coords]. apply fn_lookup_insert.
      * unfold stored, SetLogicalCoord. cbn [logical_coords].
        rewrite fn_lookup_insert_ne by done.
        destruct (IH n) as [[Heq Hno]|(q & [Hq Hqb] & Hqn & Hql)].
        -- left. split; [done|]. intros q [[Hq|Hq]%elem_of_app Hqb]; [by apply Hno|].
           apply list_elem_of_singleton in Hq as ->. done.
        -- right. exists q. split; [|done]. split; [apply elem_of_app; by left | done].
    + split; [by split_and!|]. intros n.
      destruct (IH n) as [[Heq Hno]|(q & [Hq Hqb] & Hqn & Hql)].
      * left. split; [done|]. intros q [[Hq|Hq]%elem_of_app Hqb]; [by apply Hno|].
        apply list_elem_of_singleton in Hq as ->. congruence.
      * right. exists q. split; [|done]. split; [apply elem_of_app; by left | done].
Qed.

Lemma pre_pairs_in x0 y0 x1 y1 p :
  p ∈ pre_pairs (x0, y0, x1, y1) <-> x0 <= p.1 <= x1 /\ y0 <= p.2 <= y1.
Proof.
  unfold pre_pairs, range. rewrite list_elem_of_In, in_flat_map. destruct p as [x y]. cbn [fst snd].
  split.
  - intros (a & Ha & (b & [= -> ->] & Hb)%in_map_iff).
    apply list_elem_of_In, elem_of_seqZ in Ha. apply list_elem_of_In, elem_of_seqZ in Hb. lia.
  - intros [Hx Hy]. exists x. split; [apply list_elem_of_In, elem_of_seqZ; lia|].
    apply in_map_iff. exists y. split; [done | apply list_elem_of_In, elem_of_seqZ; lia].
Qed.

Definition in_grid (n : Z * Z) : Prop := 0 <= n.1 < NOC_X_SIZE /\ 0 <= n.2 < NOC_Y_SIZE.

(** Every node's identifier leads back to it; the identifiers lie in
    [[0, bx) x [0, by_)]. *)
Definition coords_ok nt (bx by_ : Z) : Prop :=
  translate_en nt = true /\ translate_col_mask nt = 0 /\ translate_row_mask nt = 3 /\
  forall n, in_grid n -> exists x y, 0 <= x < bx /\ 0 <= y < by_ /\
    logical_coords nt n = pack_coord x y /\ NocLogicalToPhysical nt x y = n.

Lemma row_mask_bit y : 0 <= y -> Z.testbit 3 y = (y <? 2).
Proof.
  intros Hy. change 3 with (Z.ones 2). destruct (Z.ltb_spec y 2).
  - apply Z.ones_spec_low. lia.
  - apply Z.ones_spec_high. lia.
Qed.

(** Entries that no identifier uses yet may be changed. *)
Lemma coords_ok_tables nt bx by_ tx ty :
  (forall i, 0 <= i < bx -> table_get tx i = table_get (translate_table_x nt) i) ->
  (forall i, 0 <= i < by_ -> table_get ty i = table_get (translate_table_y nt) i) ->
  coords_ok nt bx by_ -> coords_ok (with_table_y (with_table_x nt tx) ty) bx by_.
Proof.
  intros Hx Hy (E1 & E2 & E3 & H). split_and!; [done..|]. intros n Hn.
  destruct (H n Hn) as (x & y & Bx & By & Hl & Ht). exists x, y. split; [lia|]. split; [lia|]. split; [done|].
  rewrite <- Ht. unfold NocLogicalToPhysical. cbn. by rewrite Hx, Hy.
Qed.

(** Storing coordinates of unmasked rows keeps the property. *)
Lemma coords_ok_apply nt bx by_ bx' by' post x0 y0 x1 y1 :
  0 <= x0 -> x1 < bx' -> 2 <= y0 -> y1 < by' -> bx <= bx' -> by_ <= by' ->
  coords_ok nt bx by_ -> coords_ok (ApplyLogicalCoords nt post (x0, y0, x1, y1)) bx' by'.
Proof.
  intros Hx0 Hx1 Hy0 Hy1 Hbx Hby (E1 & E2 & E3 & H).
  destruct (apply_spec nt post (x0, y0, x1, y1)) as [(S1 & S2 & S3 & S4 & S5) Hst].
  set (nt' := ApplyLogicalCoords _ _ _) in *.
  assert (Htr : forall x y, NocLogicalToPhysical nt' x y = NocLogicalToPhysical nt x y).
  { intros x y. unfold NocLogicalToPhysical. by rewrite S1, S2, S3, S4, S5. }
  split_and!; [congruence..|]. intros n Hn.
  destruct (Hst n) as [[Heq _]|(p & [Hp _] & Hpn & Hpl)].
  - destruct (H n Hn) as (x & y & Bx & By & Hl & Ht). exists x, y.
    split; [lia|]. split; [lia|]. split; [congruence | by rewrite Htr].
  - apply pre_pairs_in in Hp as [Px Py]. exists p.1, p.2.
    split; [lia|]. split; [lia|]. split; [done|].
    rewrite Htr. unfold NocLogicalToPhysical. rewrite E1, E2, E3. unfold IS_BIT_SET.
    rewrite row_mask_bit, Z.bits_0 by lia. destruct (Z.ltb_spec p.2 2); [lia | done].
Qed.

Lemma identity_x : forall x, 0 <= x < 17 -> table_get (translate_table_x MakeIdentity) x = x.
Proof. by_enum. Qed.
Lemma identity_y : forall y, 0 <= y < 12 -> table_get (translate_table_y MakeIdentity) y = y.
Proof. by_enum. Qed.
Lemma tensix_xs_in x : x ∈ tensix_xs <-> 1 <= x <= 7 \/ 10 <= x <= 16.
Proof. unfold tensix_xs, range. rewrite elem_of_app, !elem_of_seqZ. lia. Qed.

(** The tables after the Tensix columns. *)
Definition tensix_stage (tx : list Z) : NocTranslation :=
  {| translate_en := true; translate_table_x := tx;
     translate_table_y := translate_table_y MakeIdentity; translate_col_mask := 0;
     translate_row_mask := Z.lor (BIT 0) (BIT 1);
     logical_coords := logical_coords MakeIdentity |}.

Lemma in_box_true x lo hi : in_box x lo hi = true <-> lo <= x <= hi.
Proof. unfold in_box. rewrite negb_true_iff, orb_false_iff, !Z.ltb_ge. lia. Qed.

(** A stored coordinate of an unmasked row leads to its node. *)
Lemma hit_translates nt post p n x0 y0 x1 y1 :
  translate_en nt = true -> translate_col_mask nt = 0 -> translate_row_mask nt = 3 ->
  2 <= y0 -> hits nt post (x0, y0, x1, y1) p ->
  (table_get (translate_table_x nt) p.1, table_get (translate_table_y nt) p.2) = n ->
  (x0 <= p.1 <= x1 /\ y0 <= p.2 <= y1) /\ NocLogicalToPhysical nt p.1 p.2 = n.
Proof.
  intros E1 E2 E3 Hy [[Px Py]%pre_pairs_in _] <-. split; [done|].
  unfold NocLogicalToPhysical, IS_BIT_SET. rewrite E1, E2, E3.
  rewrite row_mask_bit, Z.bits_0 by lia. by destruct (Z.ltb_spec p.2 2); [lia|].
Qed.

Lemma tensix_stage_ok tx :
  map (table_get tx) tensix_xs ≡ₚ tensix_xs ->
  (forall i, 0 <= i < 17 -> i ∉ tensix_xs -> table_get tx i = i) ->
  coords_ok (ApplyLogicalCoords (ApplyLogicalCoords (tensix_stage tx) (1, 2, 7, 11) (1, 2, 16, 11))
               (10, 2, 16, 11) (1, 2, 16, 11)) 17 12.
Proof.
  intros Hperm Hid. set (nt1 := tensix_stage tx).
  destruct (apply_spec nt1 (1, 2, 7, 11) (1, 2, 16, 11)) as [(S1 & S2 & S3 & S4 & S5) Hst2].
  set (nt2 := ApplyLogicalCoords nt1 _ _) in *.
  destruct (apply_spec nt2 (10, 2, 16, 11) (1, 2, 16, 11)) as [(R1 & R2 & R3 & R4 & R5) Hst3].
  set (nt3 := ApplyLogicalCoords nt2 _ _) in *.
  assert (Htr2 : forall x y, NocLogicalToPhysical nt3 x y = NocLogicalToPhysical nt2 x y).
  { intros x y. unfold NocLogicalToPhysical. by rewrite R1, R2, R3, R4, R5. }
  assert (Htr1 : forall x y, NocLogicalToPhysical nt2 x y = NocLogicalToPhysical nt1 x y).
  { intros x y. unfold NocLogicalToPhysical. by rewrite S1, S2, S3, S4, S5. }
  assert (E1 : translate_en nt1 = true) by done.
  assert (E2 : translate_col_mask nt1 = 0) by done.
  assert (E3 : translate_row_mask nt1 = 3) by done.
  assert (Tx : translate_table_x nt1 = tx) by done.
  assert (Ty : translate_table_y nt1 = translate_table_y MakeIdentity) by done.
  split_and!; [congruence..|]. intros n Hn.
  destruct (Hst3 n) as [[Heq3 Hno3]|(p & Hp & Hpn & Hpl)].
  2: { eapply hit_translates in Hp as [Hb Ht]; [| congruence.. | lia | exact Hpn].
       exists p.1, p.2. rewrite Htr2. split; [lia|]. split; [lia | done]. }
  destruct (Hst2 n) as [[Heq2 Hno2]|(p & Hp & Hpn & Hpl)].
  2: { eapply hit_translates in Hp as [Hb Ht]; [| done.. | exact Hpn].
       exists p.1, p.2. rewrite Htr2, Htr1. split; [lia|]. split; [lia|]. split; [congruence | done]. }
  destruct n as [x y]. destruct Hn as [Hx Hy]. unfold NOC_X_SIZE, NOC_Y_SIZE in *.
  cbn [fst snd] in *. exists x, y. split; [lia|]. split; [lia|].
  split; [rewrite Heq3, Heq2; done|]. rewrite Htr2, Htr1.
  unfold NocLogicalToPhysical, IS_BIT_SET, nt1, tensix_stage.
  cbn [translate_en translate_row_mask translate_col_mask translate_table_x translate_table_y].
  change (Z.lor (BIT 0) (BIT 1)) with 3. rewrite row_mask_bit, Z.bits_0, identity_y by lia.
  cbn [andb negb]. destruct (Z.ltb_spec y 2) as [Hlt|Hge]; [done|]. cbn [negb].
  destruct (decide (x ∈ tensix_xs)) as [Hin|Hnin]; [exfalso | by rewrite Hid].
  pose proof Hin as Hin'. rewrite <- Hperm in Hin'. apply list_elem_of_fmap in Hin' as (q & Hq & Hqin).
  apply tensix_xs_in in Hqin. apply tensix_xs_in in Hin as [Hr|Hr].
  - apply (Hno2 (q, y)); unfold hits; rewrite ?andb_true_iff, ?in_box_true; cbn [fst snd];
      rewrite Tx, Ty, <- Hq, identity_y by lia; [|done].
    split; [apply pre_pairs_in; cbn [fst snd]|]; lia.
  - apply (Hno3 (q, y)); unfold hits; rewrite ?andb_true_iff, ?in_box_true; cbn [fst snd];
      rewrite S2, S3, Tx, Ty, <- Hq, identity_y by lia; [|done].
    split; [apply pre_pairs_in; cbn [fst snd]|]; lia.
Qed.

(** A change of a table that keeps the entries below [b], with values below
    [lim]. *)
Definition upd (b lim : Z) (t t' : list Z) : Prop :=
  length t' = length t /\ (forall j, 0 <= j < b -> table_get t' j = table_get t j) /\
  (Forall (λ v, 0 <= v < lim) t -> Forall (λ v, 0 <= v < lim) t').

Lemma upd_trans b lim t t' t'' : upd b lim t t' -> upd b lim t' t'' -> upd b lim t t''.
Proof.
  intros (L1 & G1 & F1) (L2 & G2 & F2). split_and!; [congruence | | by auto].
  intros j Hj. by rewrite G2, G1.
Qed.
Lemma upd_insert b lim t (i : nat) v : b <= Z.of_nat i -> 0 <= v < lim -> upd b lim t (<[i := v]> t).
Proof.
  intros Hi Hv. split_and!; [apply length_insert | | intros; by apply Forall_insert].
  intros j Hj. rewrite <- (Nat2Z.id i). apply table_get_ne; lia.
Qed.
Lemma upd_set_range b lim t i bs : 0 <= b <= i -> Forall (λ v, 0 <= v < lim) bs ->
  upd b lim t (set_range t i bs).
Proof.
  intros Hi Hbs. unfold set_range. revert i Hi. induction Hbs as [|v bs Hv _ IH]; intros i Hi.
  - by split_and!.
  - cbn [list_inserts]. eapply upd_trans; [apply (IH (i + 1)); lia|].
    replace (Z.to_nat (i + 1)) with (S (Z.to_nat i)) by lia. apply upd_insert; [lia | done].
Qed.

Definition stage nt (bx by_ : Z) : Prop :=
  coords_ok nt bx by_ /\
  length (translate_table_x nt) = 32%nat /\ length (translate_table_y nt) = 32%nat /\
  Forall (λ v, 0 <= v < 17) (translate_table_x nt) /\
  Forall (λ v, 0 <= v < 12) (translate_table_y nt).

Lemma stage_x nt bx by_ tx :
  stage nt bx by_ -> upd bx 17 (translate_table_x nt) tx -> stage (with_table_x nt tx) bx by_.
Proof.
  intros (Hc & L1 & L2 & F1 & F2) (L & G & F). split; [|split_and!; cbn; auto; congruence].
  by apply (coords_ok_tables nt bx by_ tx (translate_table_y nt)).
Qed.
Lemma stage_y nt bx by_ ty :
  stage nt bx by_ -> upd by_ 12 (translate_table_y nt) ty -> stage (with_table_y nt ty) bx by_.
Proof.
  intros (Hc & L1 & L2 & F1 & F2) (L & G & F). split; [|split_and!; cbn; auto; congruence].
  by apply (coords_ok_tables nt bx by_ (translate_table_x nt) ty).
Qed.
Lemma stage_apply nt bx by_ bx' by' post x0 y0 x1 y1 :
  0 <= x0 -> x1 < bx' -> 2 <= y0 -> y1 < by' -> bx <= bx' -> by_ <= by' ->
  stage nt bx by_ -> stage (ApplyLogicalCoords nt post (x0, y0, x1, y1)) bx' by'.
Proof.
  intros Hx0 Hx1 Hy0 Hy1 Hbx Hby (Hc & Ht).
  destruct (apply_spec nt post (x0, y0, x1, y1)) as [(S1 & S2 & S3 & S4 & S5) _].
  split; [by eapply coords_ok_apply|]. by rewrite S2, S3.
Qed.

Lemma writes_Forall (P : Z -> Prop) t kvs :
  Forall P t -> (forall k v, (k, v) ∈ kvs -> P v) -> Forall P (writes t kvs).
Proof.
  revert t. induction kvs as [|[k v] kvs IH]; intros t Ht Hk; [done|].
  unfold writes. cbn [foldl fst snd]. apply IH.
  - apply Forall_insert; [done|]. eapply Hk, list_elem_of_here.
  - intros k' v' Hin. eapply Hk, list_elem_of_further, Hin.
Qed.

Lemma zip_value {A B} (l : list A) (k : list B) x y : (x, y) ∈ zip l k -> y ∈ k.
Proof.
  intros (i & Hi)%list_elem_of_lookup_1. rewrite lookup_zip_with in Hi.
  destruct (l !! i), (k !! i) eqn:E; simplify_eq/=. by eapply list_elem_of_lookup_2.
Qed.

Lemma tensix_values bad k v : (k, v) ∈ tensix_writes bad -> v ∈ tensix_xs.
Proof.
  unfold tensix_writes. rewrite !elem_of_app.
  assert (Hg : forall v, v ∈ good_xs bad -> v ∈ tensix_xs)
    by (intros ?; unfold good_xs; rewrite list_elem_of_filter; tauto).
  intros [H|[H|H]]; apply zip_value in H; [by apply Hg | | by eapply bad_xs_tensix].
  apply Hg. apply list_elem_of_lookup_1 in H as (i & H). rewrite lookup_drop in H.
  by eapply list_elem_of_lookup_2.
Qed.

Lemma tensix_stage_stage bad : in_width 14 bad -> POPCOUNT bad <= 7 ->
  exists tx, tensix_columns bad (translate_table_x MakeIdentity) = Some tx /\
    stage (ApplyLogicalCoords (ApplyLogicalCoords (tensix_stage tx) (1, 2, 7, 11) (1, 2, 16, 11))
             (10, 2, 16, 11) (1, 2, 16, 11)) 17 12.
Proof.
  intros Hb H7. eexists. split; [by apply tensix_columns_writes|].
  assert (Hlen : (length (bad_xs bad) <= 7)%nat).
  { unfold bad_xs. rewrite length_map. rewrite POPCOUNT_set_bits in H7 by done. lia. }
  destruct (tensix_map bad (translate_table_x MakeIdentity) Hlen eq_refl) as [H1 H2].
  set (tx := writes _ _) in *. split.
  - apply tensix_stage_ok.
    + rewrite H1. apply good_bad_permutation.
    + intros i Hi Hn. rewrite H2, identity_x by (done || lia). done.
  - destruct (apply_spec (tensix_stage tx) (1, 2, 7, 11) (1, 2, 16, 11))
      as [(_ & S2 & S3 & _) _].
    set (nt2 := ApplyLogicalCoords _ (1, 2, 7, 11) _) in *.
    destruct (apply_spec nt2 (10, 2, 16, 11) (1, 2, 16, 11)) as [(_ & R2 & R3 & _) _].
    rewrite R2, R3, S2, S3. cbn [tensix_stage translate_table_x translate_table_y].
    split_and!; [apply length_writes | done | |].
    + subst tx. apply writes_Forall.
      * apply (bool_decide_eq_true_1 (Forall _ _)). vm_compute. reflexivity.
      * intros k v Hin%tensix_values%tensix_xs_in. lia.
    + apply (bool_decide_eq_true_1 (Forall _ _)). vm_compute. reflexivity.
Qed.

Lemma gddr_row_values i : Forall (λ v, 0 <= v < 12) (default [] (zget kGddrY i)).
Proof.
  destruct (zget kGddrY i) as [l|] eqn:H; [|constructor]. cbn. unfold zget in H.
  destruct (i <? 0); [done|]. eapply (Forall_lookup_1 (Forall (λ v, 0 <= v < 12))); [|exact H].
  apply (bool_decide_eq_true_1 (Forall _ _)). vm_compute. reflexivity.
Qed.

Lemma upd_gddr_rows bad_gddr t : upd 12 12 t (gddr_rows bad_gddr t).
Proof.
  unfold gddr_rows. change (seqZ 0 4) with [0; 1; 2; 3]. cbn [foldl].
  repeat (eapply upd_trans; [|apply upd_set_range; [lia | apply gddr_row_values]]).
  by split_and!.
Qed.

Lemma copy_values (P : Z -> Prop) inp count skip out : Forall P inp ->
  CopyBytesSkipIndices inp count skip = Some out -> Forall P out.
Proof.
  intros H. revert count skip out.
  induction H as [|b inp Hb _ IH]; intros [|c] skip out Ho; simplify_eq/=;
    [constructor | constructor |].
  destruct (Z.odd skip); [by eapply IH|].
  destruct (CopyBytesSkipIndices inp c _) as [o|] eqn:E; simplify_eq/=.
  constructor; [done | by eapply IH].
Qed.

(** The computed tables, for every admissible configuration. *)
Lemma compute_ok pcie bad bad_gddr skip eth : in_width 14 bad -> POPCOUNT bad <= 7 ->
  CopyBytesSkipIndices kTensixEthNoc0X 12 skip = Some eth ->
  exists nt, ComputeNocTranslation pcie bad bad_gddr skip = Some nt /\ stage nt 32 31.
Proof.
  intros Hb H7 Heth. destruct (tensix_stage_stage bad Hb H7) as (tx & Htx & Hst).
  unfold ComputeNocTranslation. cbn [translate_table_x translate_table_y logical_coords].
  rewrite Htx. cbn [mbind option_bind]. rewrite Heth. cbn [mbind option_bind].
  eexists. split; [reflexivity|].
  assert (Hev : Forall (λ v, 0 <= v < 17) eth).
  { eapply copy_values; [|exact Heth]. apply (bool_decide_eq_true_1 (Forall _ _)).
    vm_compute. reflexivity. }
  change (with_table_x _ tx) with (tensix_stage tx).
  set (nt3 := ApplyLogicalCoords _ (10, 2, 16, 11) _) in *. clearbody nt3.
  assert (H4 : stage (with_table_x nt3
    (if 4 <=? bad_gddr then <[18%nat := 9]> (<[17%nat := 0]> (translate_table_x nt3))
     else <[18%nat := 0]> (<[17%nat := 9]> (translate_table_x nt3)))) 17 12).
  { apply stage_x; [done|]. destruct (4 <=? bad_gddr);
      (eapply upd_trans; apply upd_insert; lia). }
  set (nt4 := with_table_x nt3 _) in *. clearbody nt4. clear Hst nt3.
  apply (stage_apply _ 32 30); [lia..|]. apply stage_y; [|apply upd_insert; lia].
  apply (stage_apply _ 32 26); [lia..|]. apply stage_y.
  2: { apply upd_set_range; [lia|]. apply (bool_decide_eq_true_1 (Forall _ _)).
       vm_compute. reflexivity. }
  apply (stage_apply _ 32 26); [lia..|]. apply (stage_apply _ 20 25); [lia..|].
  apply stage_x; [|apply upd_set_range; [lia | done]]. apply stage_y; [|apply upd_insert; lia].
  apply (stage_apply _ 19 24); [lia..|]. apply stage_y; [|apply upd_insert; lia].
  apply stage_x; [|apply upd_insert; [lia | destruct (negb (pcie =? 0)); lia]].
  apply (stage_apply _ 19 24); [lia..|]. apply (stage_apply _ 17 12); [lia..|].
  apply stage_y; [done | apply upd_gddr_rows].
Qed.

(** * Packing *)
Lemma lor_shift n w a : 0 <= n -> 0 <= w < 2 ^ n -> Z.lor w (Z.shiftl a n) = w + a * 2 ^ n.
Proof.
  intros Hn Hw. rewrite Z.shiftl_mul_pow2 by done.
  assert (Hz : Z.land w (a * 2 ^ n) = 0).
  { apply Z.bits_inj'. intros i Hi. rewrite Z.land_spec, Z.bits_0.
    destruct (Z.lt_ge_cases i n).
    - by rewrite Z.mul_pow2_bits_low, andb_false_r.
    - rewrite <- (Z.mod_small w (2 ^ n)) by done. by rewrite Z.mod_pow2_bits_high. }
  pose proof (Z.add_lor_land w (a * 2 ^ n)). lia.
Qed.

(** Entry [j] of a word. *)
Definition field (w j : Z) : Z := Z.land (Z.shiftr w (j * 5)) 31.

Lemma field_of j w lo a hi : 0 <= j -> w = lo + a * 2 ^ (j * 5) + hi * 2 ^ (j * 5 + 5) ->
  0 <= lo < 2 ^ (j * 5) -> 0 <= a < 32 -> field w j = a.
Proof.
  intros Hj -> Hlo Ha. unfold field. change 31 with (Z.ones 5).
  rewrite Z.land_ones, Z.shiftr_div_pow2 by lia. rewrite Z.pow_add_r by lia.
  replace (lo + a * 2 ^ (j * 5) + hi * (2 ^ (j * 5) * 2 ^ 5))
    with (lo + (a + hi * 2 ^ 5) * 2 ^ (j * 5)) by ring.
  rewrite Z.div_add by lia. rewrite Z.div_small, Z.add_0_l by done.
  rewrite Z.mod_add by done. by apply Z.mod_small.
Qed.

Definition word6 (a b c d e f : Z) : Z :=
  Z.lor (Z.lor (Z.lor (Z.lor (Z.lor (Z.lor 0 (u32 (Z.shiftl a 0))) (u32 (Z.shiftl b 5)))
    (u32 (Z.shiftl c 10))) (u32 (Z.shiftl d 15))) (u32 (Z.shiftl e 20))) (u32 (Z.shiftl f 25)).

Lemma word6_fields a b c d e f :
  0 <= a < 32 -> 0 <= b < 32 -> 0 <= c < 32 -> 0 <= d < 32 -> 0 <= e < 32 -> 0 <= f < 32 ->
  map (field (word6 a b c d e f)) [0; 1; 2; 3; 4; 5] = [a; b; c; d; e; f].
Proof.
  intros. assert (E : word6 a b c d e f
    = a + b * 2 ^ 5 + c * 2 ^ 10 + d * 2 ^ 15 + e * 2 ^ 20 + f * 2 ^ 25).
  { unfold word6. rewrite !(wrap_id 32)
      by (unfold in_width; rewrite Z.shiftl_mul_pow2 by done; lia).
    rewrite Z.lor_0_l, Z.shiftl_0_r, (lor_shift 5 a b), (lor_shift 10 _ c), (lor_shift 15 _ d),
      (lor_shift 20 _ e), (lor_shift 25 _ f) by lia. done. }
  rewrite E. cbn [map].
  rewrite (field_of 0 _ 0 a (b + c * 2 ^ 5 + d * 2 ^ 10 + e * 2 ^ 15 + f * 2 ^ 20)) by lia.
  rewrite (field_of 1 _ a b (c + d * 2 ^ 5 + e * 2 ^ 10 + f * 2 ^ 15)) by lia.
  rewrite (field_of 2 _ (a + b * 2 ^ 5) c (d + e * 2 ^ 5 + f * 2 ^ 10)) by lia.
  rewrite (field_of 3 _ (a + b * 2 ^ 5 + c * 2 ^ 10) d (e + f * 2 ^ 5)) by lia.
  rewrite (field_of 4 _ (a + b * 2 ^ 5 + c * 2 ^ 10 + d * 2 ^ 15) e f) by lia.
  by rewrite (field_of 5 _ (a + b * 2 ^ 5 + c * 2 ^ 10 + d * 2 ^ 15 + e * 2 ^ 20) f 0) by lia.
Qed.

(** Reading an entry back from the packed words. *)
Definition unpack (p : list Z) (i : Z) : Z := field (table_get p (i / 6)) (i mod 6).

Lemma table_of_map f t : map f (seqZ 0 32) = t -> forall i, 0 <= i < 32 -> f i = table_get t i.
Proof.
  intros <- i Hi. rewrite <- (Z2Nat.id i) by lia. rewrite table_get_lookup.
  change (map f ?l) with (f <$> l). rewrite list_lookup_fmap, lookup_seqZ_lt by lia. done.
Qed.

Lemma pack_table_unpack t : length t = 32%nat -> Forall (λ v, 0 <= v < 32) t ->
  forall i, 0 <= i < 32 -> unpack (pack_table t) i = table_get t i.
Proof.
  intros Hl Hf. apply table_of_map.
  do 32 (destruct t as [|? t]; [done|]). destruct t; [|done]. clear Hl.
  repeat match goal with
  | H : Forall _ (_ :: _) |- _ => apply Forall_cons_1 in H as [? H]
  end. clear Hf.
  match goal with |- context [pack_table [?a0; ?a1; ?a2; ?a3; ?a4; ?a5; ?b0; ?b1; ?b2; ?b3; ?b4; ?b5;
     ?c0; ?c1; ?c2; ?c3; ?c4; ?c5; ?d0; ?d1; ?d2; ?d3; ?d4; ?d5;
     ?e0; ?e1; ?e2; ?e3; ?e4; ?e5; ?f0; ?f1]] =>
    change (pack_table [a0; a1; a2; a3; a4; a5; b0; b1; b2; b3; b4; b5; c0; c1; c2; c3; c4; c5;
                        d0; d1; d2; d3; d4; d5; e0; e1; e2; e3; e4; e5; f0; f1])
      with [word6 a0 a1 a2 a3 a4 a5; word6 b0 b1 b2 b3 b4 b5; word6 c0 c1 c2 c3 c4 c5;
            word6 d0 d1 d2 d3 d4 d5; word6 e0 e1 e2 e3 e4 e5;
            Z.lor (Z.lor 0 (u32 (Z.shiftl f0 0))) (u32 (Z.shiftl f1 5))];
    assert (Z.lor (Z.lor 0 (u32 (Z.shiftl f0 0))) (u32 (Z.shiftl f1 5)) = word6 f0 f1 0 0 0 0) as ->
      by (unfold word6; change (Z.shiftl 0 _) with 0; change (u32 0) with 0; by rewrite !Z.lor_0_r);
    pose proof (word6_fields f0 f1 0 0 0 0 ltac:(done) ltac:(done) ltac:(done) ltac:(done)
                  ltac:(done) ltac:(done)) as Hlast
  end.
  match goal with |- map (unpack [?w0; ?w1; ?w2; ?w3; ?w4; ?w5]) _ = _ =>
    change (map (unpack [w0; w1; w2; w3; w4; w5]) (seqZ 0 32)) with
      (map (field w0) [0; 1; 2; 3; 4; 5] ++ map (field w1) [0; 1; 2; 3; 4; 5] ++
       map (field w2) [0; 1; 2; 3; 4; 5] ++ map (field w3) [0; 1; 2; 3; 4; 5] ++
       map (field w4) [0; 1; 2; 3; 4; 5] ++ take 2 (map (field w5) [0; 1; 2; 3; 4; 5]))
  end.
  rewrite Hlast, !word6_fields by done. done.
Qed.

(** * Programming all tiles *)
Definition put r (noc_id px py : Z) (ws : list (Z * Z)) : niu :=
  foldl (λ r w, <[(noc_id, px, py, w.1) := w.2]> r : niu) r ws.

Lemma put_other r noc_id px py ws k :
  (forall i, k <> (noc_id, px, py, i)) -> put r noc_id px py ws k = r k.
Proof.
  intros Hk. unfold put. revert r. induction ws as [|w ws IH]; intros r; [done|].
  cbn [foldl]. rewrite IH. apply fn_lookup_insert_ne. intros <-. by eapply Hk.
Qed.

Lemma put_notin r noc_id px py ws i :
  i ∉ ws.*1 -> put r noc_id px py ws (noc_id, px, py, i) = r (noc_id, px, py, i).
Proof.
  unfold put. revert r. induction ws as [|w ws IH]; intros r Hi; [done|].
  rewrite fmap_cons in Hi. apply not_elem_of_cons in Hi as [Hne Hi].
  cbn [foldl]. rewrite IH by done. apply fn_lookup_insert_ne. congruence.
Qed.

Lemma put_in r noc_id px py ws i v : NoDup ws.*1 -> (i, v) ∈ ws ->
  put r noc_id px py ws (noc_id, px, py, i) = v.
Proof.
  unfold put. revert r. induction ws as [|[j w] ws IH]; intros r Hnd Hin;
    [by apply elem_of_nil in Hin|].
  rewrite fmap_cons in Hnd. apply list.NoDup_cons in Hnd as [Hn Hnd]. cbn [foldl fst snd] in *.
  apply elem_of_cons in Hin as [[= <- <-]|Hin]; [|by apply IH].
  pose proof (put_notin (<[(noc_id, px, py, i) := v]> r : niu) noc_id px py ws i Hn) as Hp.
  unfold put in Hp. rewrite Hp. apply fn_lookup_insert.
Qed.

Lemma write_regs r noc_id px py ws : arc_translates r noc_id = false ->
  Forall (λ w, w.1 <> NIU_CFG_0) ws ->
  WriteNocCfgRegs r noc_id px py ws = Some (put r noc_id px py ws) /\
  forall n, arc_translates (put r noc_id px py ws) n = arc_translates r n.
Proof.
  intros Ha Hf. revert r Ha. induction Hf as [|[i v] ws Hi _ IH]; intros r Ha; [done|].
  cbn [WriteNocCfgRegs]. unfold WriteNocCfgReg. rewrite Ha. cbn [mbind option_bind].
  assert (Hsame : forall n, arc_translates (<[(noc_id, px, py, i) := v]> r : niu) n
                            = arc_translates r n).
  { intros n. unfold arc_translates. rewrite fn_lookup_insert_ne; [done|]. cbn in Hi. congruence. }
  destruct (IH (<[(noc_id, px, py, i) := v]> r : niu)) as [H1 H2]; [by rewrite Hsame|].
  split; [exact H1|]. intros n. cbn [put foldl fst snd]. fold put. unfold put in H2. by rewrite H2.
Qed.

(** What a tile's registers of one ring have to hold. *)
Definition tile_programmed nt r (noc_id px py : Z) : Prop :=
  Z.testbit (r (noc_id, px, py, NIU_CFG_0)) NIU_CFG_0_NOC_ID_TRANSLATE_EN = true /\
  r (noc_id, px, py, NOC_ID_TRANSLATE_COL_MASK) = translate_col_mask nt /\
  r (noc_id, px, py, NOC_ID_TRANSLATE_ROW_MASK) = translate_row_mask nt /\
  (exists nx ny, PhysXToNoc px noc_id = Some nx /\ PhysYToNoc py noc_id = Some ny /\
     r (noc_id, px, py, NOC_ID_LOGICAL) = logical_coords nt (nx, ny)) /\
  forall i, 0 <= i < 6 ->
    r (noc_id, px, py, NOC_X_ID_TRANSLATE_TABLE i)
      = table_get (pack_table (translate_table_x nt)) i /\
    r (noc_id, px, py, NOC_Y_ID_TRANSLATE_TABLE i)
      = table_get (pack_table (translate_table_y nt)) i.

Lemma tile_programmed_ext nt r r' noc_id px py :
  (forall i, r' (noc_id, px, py, i) = r (noc_id, px, py, i)) ->
  tile_programmed nt r noc_id px py -> tile_programmed nt r' noc_id px py.
Proof.
  intros He (H1 & H2 & H3 & H4 & H5). unfold tile_programmed. rewrite !He.
  split_and!; try done. intros i Hi. rewrite !He. by apply H5.
Qed.

Lemma table_writes_keys nt x y :
  NoDup (table_writes nt x y).*1 /\ Forall (λ w, w.1 <> NIU_CFG_0) (table_writes nt x y).
Proof.
  unfold table_writes. generalize (pack_table (translate_table_x nt)).
  generalize (pack_table (translate_table_y nt)). intros qy qx. split.
  - apply (bool_decide_eq_true_1 (NoDup _)). vm_compute. reflexivity.
  - change (seqZ 0 6) with [0; 1; 2; 3; 4; 5]. cbn [flat_map app].
    repeat (constructor; [done|]). constructor.
Qed.

Lemma table_writes_entries nt x y i : 0 <= i < 6 ->
  (NOC_X_ID_TRANSLATE_TABLE i, table_get (pack_table (translate_table_x nt)) i)
    ∈ table_writes nt x y /\
  (NOC_Y_ID_TRANSLATE_TABLE i, table_get (pack_table (translate_table_y nt)) i)
    ∈ table_writes nt x y.
Proof.
  intros Hi. unfold table_writes. rewrite !elem_of_app.
  split; right; apply list_elem_of_In, in_flat_map; exists i;
    (split; [apply list_elem_of_In, elem_of_seqZ; lia|]); cbn; auto.
Qed.

Lemma program_ring_ok nt px py noc_id r :
  translate_en nt = true -> 0 <= px < NOC_X_SIZE -> 0 <= py < NOC_Y_SIZE ->
  0 <= noc_id < NUM_NOCS -> arc_translates r noc_id = false ->
  exists r', program_ring nt px py noc_id r = Some r' /\ tile_programmed nt r' noc_id px py /\
    forall n x y i, (n, x, y) <> (noc_id, px, py) -> r' (n, x, y, i) = r (n, x, y, i).
Proof.
  intros Hen Hx Hy Hn Ha. unfold program_ring.
  pose proof (phys_x_noc noc_id Hn px Hx) as Hrx. pose proof (phys_y_noc noc_id Hn py Hy) as Hry.
  destruct (PhysXToNoc px noc_id) as [nx|] eqn:Enx; [|done].
  destruct (PhysYToNoc py noc_id) as [ny|] eqn:Eny; [|done].
  unfold ReadNocCfgReg. rewrite Ha, Hen. cbn [mbind option_bind negb].
  destruct (table_writes_keys nt nx ny) as [Hnd Hf].
  destruct (write_regs r noc_id px py (table_writes nt nx ny) Ha Hf) as [Hw Hsame].
  rewrite Hw. cbn [mbind option_bind]. unfold WriteNocCfgReg. rewrite Hsame, Ha.
  set (p := put _ _ _ _ _) in *. eexists. split; [reflexivity|].
  assert (Hoff : forall i, i <> NIU_CFG_0 ->
    (<[(noc_id, px, py, NIU_CFG_0) := WRITE_BIT (r (noc_id, px, py, NIU_CFG_0)) 
        NIU_CFG_0_NOC_ID_TRANSLATE_EN true]> p : niu) (noc_id, px, py, i) = p (noc_id, px, py, i)).
  { intros i Hi. apply fn_lookup_insert_ne. congruence. }
  split.
  - assert (Hput : forall i v, (i, v) ∈ table_writes nt nx ny -> p (noc_id, px, py, i) = v)
      by (intros i v Hin; by apply put_in).
    unfold tile_programmed. rewrite fn_lookup_insert, !Hoff by done. split_and!.
    + cbn [WRITE_BIT]. by apply Z.setbit_eq.
    + apply Hput. unfold table_writes. cbn [app]. apply list_elem_of_here.
    + apply Hput. unfold table_writes. cbn [app]. apply list_elem_of_further, list_elem_of_here.
    + exists nx, ny. split_and!; [done..|]. apply Hput. unfold table_writes. cbn [app].
      do 3 apply list_elem_of_further. apply list_elem_of_here.
    + intros i Hi. destruct (table_writes_entries nt nx ny i Hi).
      rewrite !Hoff by (unfold NOC_X_ID_TRANSLATE_TABLE, NOC_Y_ID_TRANSLATE_TABLE, NIU_CFG_0; lia).
      split; by apply Hput.
  - intros n x y i Hne. rewrite fn_lookup_insert_ne by congruence. apply put_other. congruence.
Qed.

Definition both_programmed (tr : translations) r (t : Z * Z) : Prop :=
  tile_programmed tr.1 r 0 t.1 t.2 /\ tile_programmed tr.2 r 1 t.1 t.2.
Definition arc_off r : Prop := arc_translates r 0 = false /\ arc_translates r 1 = false.

Lemma program_tile_ok tr px py r :
  translate_en tr.1 = true -> translate_en tr.2 = true -> in_grid (px, py) -> arc_off r ->
  exists nx ny r', PhysXToNoc px 0 = Some nx /\ PhysYToNoc py 0 = Some ny /\
    ProgramNocTranslationSingleTile tr nx ny r = Some r' /\ both_programmed tr r' (px, py) /\
    forall n x y i, (x, y) <> (px, py) -> r' (n, x, y, i) = r (n, x, y, i).
Proof.
  intros E1 E2 [Hx Hy] [A0 A1]. cbn [fst snd] in *.
  pose proof (phys_x_noc 0 ltac:(done) px Hx) as Hrx.
  pose proof (phys_y_noc 0 ltac:(done) py Hy) as Hry.
  destruct (PhysXToNoc px 0) as [nx|] eqn:Enx; [|done].
  destruct (PhysYToNoc py 0) as [ny|] eqn:Eny; [|done]. cbn [mbind option_bind] in Hrx, Hry.
  destruct (program_ring_ok tr.1 px py 0 r E1 Hx Hy ltac:(done) A0) as (r1 & P1 & T1 & O1).
  assert (A1' : arc_translates r1 1 = false)
    by (unfold arc_translates; rewrite O1 by congruence; exact A1).
  destruct (program_ring_ok tr.2 px py 1 r1 E2 Hx Hy ltac:(done) A1') as (r2 & P2 & T2 & O2).
  exists nx, ny, r2. split; [done|]. split; [done|]. split; [|split; [split|]].
  - unfold ProgramNocTranslationSingleTile. rewrite Hrx, Hry. cbn [mbind option_bind].
    rewrite P1. exact P2.
  - eapply tile_programmed_ext; [|exact T1]. intros i. apply O2. congruence.
  - exact T2.
  - intros n x y i Hne. rewrite O2, O1 by congruence. done.
Qed.

Lemma arc_coords px py nx ny : in_grid (px, py) -> PhysXToNoc px 0 = Some nx ->
  PhysYToNoc py 0 = Some ny -> (nx =? 8) && (ny =? 0) = bool_decide ((px, py) = (ARC_PX, ARC_PY)).
Proof.
  intros [Hx Hy] Ex Ey. cbn [fst snd] in *.
  pose proof (phys_x_noc 0 ltac:(done) px Hx) as Hrx.
  pose proof (phys_y_noc 0 ltac:(done) py Hy) as Hry.
  rewrite Ex in Hrx. rewrite Ey in Hry. cbn [mbind option_bind] in Hrx, Hry.
  case_bool_decide as He.
  - injection He as -> ->. injection Ex as <-. injection Ey as <-. done.
  - apply andb_false_iff. destruct (Z.eqb_spec nx 8) as [->|]; [|by left].
    destruct (Z.eqb_spec ny 0) as [->|]; [|by right]. exfalso. apply He.
    injection Hrx as <-. injection Hry as <-. done.
Qed.

Lemma program_tiles_ok tr tiles r :
  translate_en tr.1 = true -> translate_en tr.2 = true ->
  NoDup tiles -> Forall in_grid tiles -> arc_off r ->
  exists r', program_tiles tr true tiles r = Some r' /\ arc_off r' /\
    (forall t, t ∈ tiles -> t <> (ARC_PX, ARC_PY) -> both_programmed tr r' t) /\
    (forall n x y i, (x, y) ∉ tiles -> r' (n, x, y, i) = r (n, x, y, i)).
Proof.
  intros E1 E2 Hnd Hg. revert r. induction Hnd as [|[px py] tiles Hin Hnd IH]; intros r Ha.
  - exists r. split_and!; try done. intros t Ht. by apply elem_of_nil in Ht.
  - apply Forall_cons_1 in Hg as [Hpg Hg]. cbn [program_tiles].
    destruct (program_tile_ok tr px py r E1 E2 Hpg Ha) as (nx & ny & r1 & Ex & Ey & P & B & O).
    rewrite Ex, Ey. cbn [mbind option_bind andb]. rewrite (arc_coords px py nx ny Hpg Ex Ey).
    case_bool_decide as Harc.
    + destruct (IH Hg r Ha) as (r' & P' & A' & B' & O'). exists r'. split_and!; [done | apply A'.. | |].
      * intros t [->|Ht]%elem_of_cons Hne; [done | by apply B'].
      * intros n x y i Hn. apply not_elem_of_cons in Hn as [_ Hn]. by apply O'.
    + assert (A1 : arc_off r1).
      { destruct Ha as [A0 A1]. split; unfold arc_translates; rewrite O by congruence; done. }
      rewrite P. cbn [mbind option_bind].
      destruct (IH Hg r1 A1) as (r' & P' & A' & B' & O'). exists r'.
      split_and!; [done | apply A'.. | |].
      * intros t [->|Ht]%elem_of_cons Hne; [|by apply B'].
        destruct B as [B1 B2]. split; (eapply tile_programmed_ext; [|eassumption]);
          intros i; by apply O'.
      * intros n x y i Hn. apply not_elem_of_cons in Hn as [Hne Hn]. by rewrite O', O.
Qed.

Lemma all_tiles_in t : t ∈ all_tiles <-> in_grid t.
Proof.
  unfold all_tiles, in_grid. rewrite list_elem_of_In, in_flat_map. destruct t as [x y].
  cbn [fst snd]. split.
  - intros (b & Hb & (a & [= -> ->] & Ha)%in_map_iff).
    apply list_elem_of_In, elem_of_seqZ in Ha. apply list_elem_of_In, elem_of_seqZ in Hb. lia.
  - intros [Hx Hy]. exists y. split; [apply list_elem_of_In, elem_of_seqZ; lia|].
    apply in_map_iff. exists x. split; [done | apply list_elem_of_In, elem_of_seqZ; lia].
Qed.

Lemma all_tiles_NoDup : NoDup all_tiles.
Proof. apply (bool_decide_eq_true_1 (NoDup all_tiles)). vm_compute. reflexivity. Qed.

(** No access goes astray, and every tile ends up programmed on both rings. *)
Lemma program_translation_ok tr r :
  translate_en tr.1 = true -> translate_en tr.2 = true -> arc_off r ->
  exists r', ProgramNocTranslation tr r = Some r' /\
    forall t, in_grid t -> both_programmed tr r' t.
Proof.
  intros E1 E2 Ha. unfold ProgramNocTranslation. rewrite E1.
  destruct (program_tiles_ok tr all_tiles r E1 E2 all_tiles_NoDup) as (r1 & P1 & A1 & B1 & _);
    [by apply list.Forall_forall; intros t Ht%all_tiles_in | done |].
  rewrite P1. cbn [mbind option_bind].
  destruct (program_tile_ok tr ARC_PX ARC_PY r1 E1 E2 ltac:(done) A1)
    as (nx & ny & r2 & Ex & Ey & P2 & B2 & O2).
  injection Ex as <-. injection Ey as <-. exists r2. split; [exact P2|].
  intros t Ht. destruct (decide (t = (ARC_PX, ARC_PY))) as [->|Hne]; [exact B2|].
  destruct (B1 t) as [T1 T2]; [by apply all_tiles_in | done|].
  destruct t as [x y]. split; (eapply tile_programmed_ext; [|eassumption]); intros i; by apply O2.
Qed.

(** * Delivery *)

(** How an interface translates a logical coordinate, from its registers: the
    hardware counterpart of [NocLogicalToPhysical]. *)
Definition hw_entry r (noc_id px py : Z) (table : Z -> Z) (i : Z) : Z :=
  field (r (noc_id, px, py, table (i / 6))) (i mod 6).
Definition hw_translate r (noc_id px py lx ly : Z) : Z * Z :=
  let en := Z.testbit (r (noc_id, px, py, NIU_CFG_0)) NIU_CFG_0_NOC_ID_TRANSLATE_EN in
  let row_mask := r (noc_id, px, py, NOC_ID_TRANSLATE_ROW_MASK) in
  let col_mask := r (noc_id, px, py, NOC_ID_TRANSLATE_COL_MASK) in
  (if en && negb (Z.testbit row_mask ly)
   then hw_entry r noc_id px py NOC_X_ID_TRANSLATE_TABLE lx else lx,
   if en && negb (Z.testbit col_mask lx)
   then hw_entry r noc_id px py NOC_Y_ID_TRANSLATE_TABLE ly else ly).

Lemma hw_translate_spec nt r noc_id px py lx ly :
  translate_en nt = true -> tile_programmed nt r noc_id px py ->
  length (translate_table_x nt) = 32%nat -> length (translate_table_y nt) = 32%nat ->
  Forall (λ v, 0 <= v < 32) (translate_table_x nt) ->
  Forall (λ v, 0 <= v < 32) (translate_table_y nt) -> 0 <= lx < 32 -> 0 <= ly < 32 ->
  hw_translate r noc_id px py lx ly = NocLogicalToPhysical nt lx ly.
Proof.
  intros En (H1 & H2 & H3 & _ & H5) Lx Ly Fx Fy Hx Hy.
  assert (forall i, 0 <= i < 32 -> 0 <= i / 6 < 6) as Hdiv.
  { intros i Hi. split; [apply Z.div_pos | apply Z.div_lt_upper_bound]; lia. }
  unfold hw_translate, NocLogicalToPhysical, hw_entry, IS_BIT_SET. rewrite H1, H2, H3, En.
  destruct (H5 (lx / 6) (Hdiv lx Hx)) as [-> _]. destruct (H5 (ly / 6) (Hdiv ly Hy)) as [_ ->].
  fold (unpack (pack_table (translate_table_x nt)) lx).
  fold (unpack (pack_table (translate_table_y nt)) ly).
  by rewrite !pack_table_unpack.
Qed.

Lemma table_get_map f t i : length t = 32%nat -> 0 <= i < 32 ->
  table_get (map f t) i = f (table_get t i).
Proof.
  intros Hl Hi. rewrite <- (Z2Nat.id i) by lia. rewrite !table_get_lookup.
  change (map f t) with (f <$> t). rewrite list_lookup_fmap.
  destruct (lookup_lt_is_Some_2 t (Z.to_nat i)) as [v ->]; [lia | done].
Qed.

Lemma table_get_range lim t i : 0 < lim -> Forall (λ v, 0 <= v < lim) t -> 0 <= table_get t i < lim.
Proof.
  intros Hlim Hf. unfold table_get. destruct (zget t i) as [v|] eqn:E; cbn; [|lia].
  unfold zget in E. destruct (i <? 0); [done|]. by eapply (Forall_lookup_1 (λ v, 0 <= v < lim)).
Qed.

(** The mirrored tables are 5-bit as well and lead to mirrored coordinates. *)
Lemma copy_tables nt bx by_ : stage nt bx by_ ->
  let nt1 := CopyNoc0ToNoc1 nt in
  length (translate_table_x nt1) = 32%nat /\ length (translate_table_y nt1) = 32%nat /\
  Forall (λ v, 0 <= v < 32) (translate_table_x nt1) /\
  Forall (λ v, 0 <= v < 32) (translate_table_y nt1).
Proof.
  intros (_ & L1 & L2 & F1 & F2). cbn [CopyNoc0ToNoc1 translate_table_x translate_table_y].
  rewrite !length_map. split_and!; [done..| |]; apply list.Forall_fmap;
    (eapply Forall_impl; [|eassumption]); intros v Hv; cbn in *;
    rewrite (wrap_id 8) by (unfold in_width, NOC_X_SIZE, NOC_Y_SIZE; lia);
    unfold NOC_X_SIZE, NOC_Y_SIZE; lia.
Qed.

Lemma copy_translate nt bx by_ x y : stage nt bx by_ -> 0 <= x < 32 -> 2 <= y < 32 ->
  NocLogicalToPhysical (CopyNoc0ToNoc1 nt) x y
  = (NOC0_X_TO_NOC1 (NocLogicalToPhysical nt x y).1, NOC0_Y_TO_NOC1 (NocLogicalToPhysical nt x y).2).
Proof.
  intros ((E1 & E2 & E3 & _) & L1 & L2 & F1 & F2) Hx Hy.
  pose proof (table_get_range 17 _ x ltac:(lia) F1) as R1.
  pose proof (table_get_range 12 _ y ltac:(lia) F2) as R2.
  unfold NocLogicalToPhysical, IS_BIT_SET, CopyNoc0ToNoc1.
  cbn [translate_en translate_row_mask translate_col_mask translate_table_x translate_table_y].
  rewrite E1, E2, E3, row_mask_bit, Z.bits_0 by lia.
  destruct (Z.ltb_spec y 2); [lia|]. cbn [andb negb fst snd].
  rewrite !table_get_map by (done || lia).
  rewrite !(wrap_id 8) by (unfold in_width, NOC_X_SIZE, NOC_Y_SIZE; lia). done.
Qed.

(** In the two rows whose columns are not translated, only the row is mirrored on ring 1. *)
Lemma copy_untranslated nt bx by_ x y : stage nt bx by_ -> 0 <= x < 32 -> 0 <= y < 2 ->
  NocLogicalToPhysical (CopyNoc0ToNoc1 nt) x y
  = ((NocLogicalToPhysical nt x y).1, NOC0_Y_TO_NOC1 (NocLogicalToPhysical nt x y).2).
Proof.
  intros ((E1 & E2 & E3 & _) & L1 & L2 & F1 & F2) Hx Hy.
  pose proof (table_get_range 12 _ y ltac:(lia) F2) as R2.
  unfold NocLogicalToPhysical, IS_BIT_SET, CopyNoc0ToNoc1.
  cbn [translate_en translate_row_mask translate_col_mask translate_table_x translate_table_y].
  rewrite E1, E2, E3, row_mask_bit, Z.bits_0 by lia.
  destruct (Z.ltb_spec y 2); [|lia]. cbn [andb negb fst snd].
  rewrite table_get_map by (done || lia).
  rewrite (wrap_id 8) by (unfold in_width, NOC_X_SIZE, NOC_Y_SIZE; lia). done.
Qed.

Lemma zget_Forall (P : Z -> Prop) t i v : Forall P t -> zget t i = Some v -> P v.
Proof.
  intros Hf E. unfold zget in E. destruct (i <? 0); [done|]. by eapply Forall_lookup_1.
Qed.

Lemma noc1_mirror px py nx ny : PhysXToNoc px 0 = Some nx -> PhysYToNoc py 0 = Some ny ->
  PhysXToNoc px 1 = Some (NOC0_X_TO_NOC1 nx) /\ PhysYToNoc py 1 = Some (NOC0_Y_TO_NOC1 ny) /\
  in_grid (nx, ny).
Proof.
  unfold PhysXToNoc, PhysYToNoc. intros Ex Ey.
  destruct (zget kPhysXToNoc0 px) as [x|] eqn:Zx; [|done].
  destruct (zget kPhysYToNoc0 py) as [y|] eqn:Zy; [|done].
  injection Ex as ->. injection Ey as ->. cbn [mbind option_bind].
  apply (zget_Forall (λ v, 0 <= v < 17)) in Zx.
  2: { apply (bool_decide_eq_true_1 (Forall _ _)). vm_compute. reflexivity. }
  apply (zget_Forall (λ v, 0 <= v < 12)) in Zy.
  2: { apply (bool_decide_eq_true_1 (Forall _ _)). vm_compute. reflexivity. }
  unfold NOC0_X_TO_NOC1, NOC0_Y_TO_NOC1, NOC_X_SIZE, NOC_Y_SIZE.
  rewrite !(wrap_id 8) by (unfold in_width; lia). done.
Qed.

(** On ring 0 every node is reached by its identifier from every node, and on ring 1 when the
    identifier is not in the rows 0 and 1; in these two rows, whose columns are not translated, the
    identifier leads on ring 1 to the node's own column number counted from the other side. *)
Definition delivers r : Prop :=
  forall q t nx ny, in_grid q -> in_grid t ->
    PhysXToNoc q.1 0 = Some nx -> PhysYToNoc q.2 0 = Some ny ->
    let id := r (0, q.1, q.2, NOC_ID_LOGICAL) in
    hw_translate r 0 t.1 t.2 (coord_x id) (coord_y id) = (nx, ny) /\
    r (1, q.1, q.2, NOC_ID_LOGICAL) = id /\
    (2 <= coord_y id ->
       hw_translate r 1 t.1 t.2 (coord_x id) (coord_y id)
       = (NOC0_X_TO_NOC1 nx, NOC0_Y_TO_NOC1 ny)) /\
    (coord_y id < 2 ->
       hw_translate r 1 t.1 t.2 (coord_x id) (coord_y id) = (nx, NOC0_Y_TO_NOC1 ny)).

Lemma programmed_delivers nt r : stage nt 32 31 ->
  (forall t, in_grid t -> both_programmed (nt, CopyNoc0ToNoc1 nt) r t) -> delivers r.
Proof.
  intros Hst Hp q t nx ny Hq Ht Ex Ey. cbn zeta.
  pose proof Hst as ((E1 & E2 & E3 & Hc) & L1 & L2 & F1 & F2).
  destruct (copy_tables nt 32 31 Hst) as (M1 & M2 & G1 & G2).
  destruct (noc1_mirror _ _ _ _ Ex Ey) as (Ex1 & Ey1 & Hng).
  destruct (Hp q Hq) as [(_ & _ & _ & (a & b & Ha & Hb & Hid) & _)
                         (_ & _ & _ & (a1 & b1 & Ha1 & Hb1 & Hid1) & _)].
  cbn [fst snd] in *. rewrite Ex in Ha. rewrite Ey in Hb. rewrite Ex1 in Ha1. rewrite Ey1 in Hb1.
  injection Ha as <-. injection Hb as <-. injection Ha1 as <-. injection Hb1 as <-.
  rewrite Hid, Hid1.
  destruct (Hc (nx, ny) Hng) as (x & y & Bx & By & Hl & Htr). rewrite Hl.
  destruct (pack_unpack x y) as [-> ->]; [lia | lia|].
  destruct (Hp t Ht) as [T0 T1]. cbn [fst snd] in T0, T1. split; [|split; [|split]].
  - rewrite (hw_translate_spec nt) by (done || lia || (eapply Forall_impl; [|eassumption]; cbn; lia)).
    exact Htr.
  - rewrite <- Hl. unfold CopyNoc0ToNoc1. cbn [logical_coords fst snd].
    unfold NOC0_X_TO_NOC1, NOC0_Y_TO_NOC1, NOC_X_SIZE, NOC_Y_SIZE. do 2 f_equal; lia.
  - intros Hy. rewrite (hw_translate_spec (CopyNoc0ToNoc1 nt)) by (done || lia).
    rewrite (copy_translate nt 32 31) by (done || lia). by rewrite Htr.
  - intros Hy. rewrite (hw_translate_spec (CopyNoc0ToNoc1 nt)) by (done || lia).
    rewrite (copy_untranslated nt 32 31) by (done || lia). by rewrite Htr.
Qed.

Lemma init_programmed (s : noc_state) (pcie_instance bad bad_gddr skip_eth : Z)
    (Harc : arc_off (regs s)) (Hbad : in_width 14 bad) (Hseven : POPCOUNT bad <= 7)
    (Heth : CopyBytesSkipIndices kTensixEthNoc0X 12 skip_eth <> None) :
  exists nt s', ComputeNocTranslation pcie_instance bad bad_gddr skip_eth = Some nt /\ stage nt 32 31 /\
    InitNocTranslation s pcie_instance bad bad_gddr skip_eth = Some s' /\ noc_translation_enabled s' = true /\
    forall t, in_grid t -> both_programmed (nt, CopyNoc0ToNoc1 nt) (regs s') t.
Proof.
  destruct (CopyBytesSkipIndices _ _ _) as [eth|] eqn:He; [|done].
  destruct (compute_ok pcie_instance bad bad_gddr skip_eth eth Hbad Hseven He) as (nt & Hnt & Hst).
  unfold InitNocTranslation. rewrite Hnt. cbn [mbind option_bind].
  destruct (program_translation_ok (nt, CopyNoc0ToNoc1 nt) (regs s)) as (r' & Hr & Hp);
    [apply Hst | apply Hst | done |].
  rewrite Hr. cbn [mbind option_bind]. eexists _, _. split; [reflexivity|]. split; [done|]. by split.
Qed.
Lemma init_delivers (s : noc_state) (pcie_instance bad bad_gddr skip_eth : Z)
    (Harc : arc_off (regs s)) (Hbad : in_width 14 bad) (Hseven : POPCOUNT bad <= 7)
    (Heth : CopyBytesSkipIndices kTensixEthNoc0X 12 skip_eth <> None) :
  exists s', InitNocTranslation s pcie_instance bad bad_gddr skip_eth = Some s' /\
    noc_translation_enabled s' = true /\ delivers (regs s').
Proof.
  destruct (init_programmed s pcie_instance bad bad_gddr skip_eth) as (nt & s' & _ & Hst & Hs & He & Hp); [done..|].
  exists s'. split; [done|]. split; [done|]. by eapply programmed_delivers.
Qed.

(** C28. Programming the translation works. Starting with the ARC's translation off, for every PCIe
    instance, bad memory, at most seven bad columns and every selection of Ethernet tiles that leaves
    twelve: no access of the programming sequence goes through an already translating interface
    (the ARC comes last); afterwards, from the registers of any tile, the logical identifier stored in
    any other tile leads to that tile on ring 0, and on ring 1 if its row is not 0 or 1. The
    identifiers of rows 0 and 1 do not in general lead to their tile on ring 1: there the row is
    mirrored and the column, untranslated, is not, so that they lead to (x, 11 - y) in the
    coordinates of ring 1 for the tile at (x, y) of ring 0. *)
Theorem init_translation_delivers (s : noc_state) (pcie_instance bad bad_gddr skip_eth : Z)
    (Harc : arc_off (regs s)) (Hbad : in_width 14 bad) (Hseven : POPCOUNT bad <= 7)
    (Heth : CopyBytesSkipIndices kTensixEthNoc0X 12 skip_eth <> None) :
  exists s', InitNocTranslation s pcie_instance bad bad_gddr skip_eth = Some s' /\
    noc_translation_enabled s' = true /\ delivers (regs s').
Proof. by apply init_delivers. Qed.

(** A chip after reset: all registers zero. *)
Definition demo_noc : noc_state :=
  {| translation := (all_zeroes, all_zeroes); noc_translation_enabled := false;
     TAG_NOC_TRANSLATION := false; regs := λ _, 0 |}.

Lemma init_translation_delivers_witness :
  exists s', InitNocTranslation demo_noc 1 0x2008 5 0x120 = Some s' /\
    noc_translation_enabled s' = true /\ delivers (regs s').
Proof.
  apply (init_translation_delivers demo_noc 1 0x2008 5 0x120).
  - split; reflexivity.
  - split; vm_compute; congruence.
  - vm_compute. congruence.
  - vm_compute. congruence.
Defined.

(** The tile at (5, 0), whose identifier is (5, 0) on both rings, is (11, 11) on ring 1; the identifier
    leads from the ARC to (5, 11) there. *)
Lemma row_0_astray_on_ring_1 (s : noc_state) (Harc : arc_off (regs s)) : exists s' px py,
  InitNocTranslation s 1 0x2008 5 0x120 = Some s' /\ NocToPhysX 5 0 = Some px /\ NocToPhysY 0 0 = Some py /\
  let id := regs s' (1, px, py, NOC_ID_LOGICAL) in
  (coord_x id, coord_y id) = (5, 0) /\ (NOC0_X_TO_NOC1 5, NOC0_Y_TO_NOC1 0) = (11, 11) /\
  hw_translate (regs s') 1 8 0 (coord_x id) (coord_y id) = (5, 11).
Proof.
  destruct (init_programmed s 1 0x2008 5 0x120 Harc) as (nt & s' & Hnt & Hst & Hs & _ & Hp);
    [split; vm_compute; congruence | vm_compute; congruence | vm_compute; congruence |].
  pose proof (programmed_delivers nt (regs s') Hst Hp) as Hd. exists s'.
  destruct (NocToPhysX 5 0) as [px|] eqn:Epx; [|done]. destruct (NocToPhysY 0 0) as [py|] eqn:Epy; [|done].
  exists px, py. do 3 (split; [done|]). vm_compute in Epx, Epy. injection Epx as <-. injection Epy as <-.
  match goal with |- let _ := regs s' (1, ?a, ?b, _) in _ => assert (Hg : in_grid (a, b) /\ in_grid (8, 0)) end.
  { unfold in_grid, NOC_X_SIZE, NOC_Y_SIZE. cbn [fst snd]. lia. }
  destruct Hg as [Hg H8]. destruct (Hp _ Hg) as [_ (_ & _ & _ & (c & d & Ec & Ed & Hid) & _)].
  destruct (Hd _ _ 5 0 Hg H8) as (_ & Hsame & _ & H1); [reflexivity | reflexivity|].
  cbn [fst snd] in *. vm_compute in Ec, Ed. injection Ec as <-. injection Ed as <-.
  assert (E : option_map (λ nt, logical_coords (CopyNoc0ToNoc1 nt) (11, 11)) (ComputeNocTranslation 1 0x2008 5 0x120) = Some 5)
    by (vm_compute; reflexivity).
  rewrite Hnt in E. apply (inj Some) in E.
  rewrite E in Hid. rewrite <- Hsame, Hid in H1. cbv zeta. rewrite Hid.
  split; [done|]. split; [done|]. by apply H1.
Qed.

(** * From harvesting to translation *)
Lemma land_field x n : 0 <= n ->
  Z.land x (Z.shiftl 7 n) = Z.shiftl (Z.land (Z.shiftr x n) 7) n.
Proof.
  intros Hn. apply Z.bits_inj'. intros i Hi. rewrite Z.land_spec.
  destruct (Z.lt_ge_cases i n).
  - by rewrite !Z.shiftl_spec_low, andb_false_r by lia.
  - rewrite !Z.shiftl_spec, Z.land_spec, Z.shiftr_spec by lia. by rewrite Z.sub_add.
Qed.

(** A disabled tile of the group gives a bit to skip. *)
Lemma group_disabled eth lo : 0 <= lo ->
  ~ (Z.testbit eth lo = true /\ Z.testbit eth (lo + 1) = true /\ Z.testbit eth (lo + 2) = true) ->
  exists k, 0 < k < 8 /\ Z.land (Z.lnot eth) (Z.shiftl 7 lo) = Z.shiftl k lo.
Proof.
  intros Hlo Hnot. rewrite land_field by done. eexists. split; [|reflexivity].
  set (k := Z.land _ 7). assert (Hk : 0 <= k < 8).
  { subst k. change 7 with (Z.ones 3). rewrite Z.land_ones by done. by apply Z.mod_pos_bound. }
  assert (k <> 0); [|lia]. intros Hz. apply Hnot.
  assert (Hbit : forall j, 0 <= j < 3 -> Z.testbit eth (lo + j) = true).
  { intros j Hj. apply (f_equal (λ v, Z.testbit v j)) in Hz. subst k. cbn beta in Hz.
    rewrite Z.bits_0, Z.land_spec, Z.shiftr_spec, Z.lnot_spec in Hz by lia.
    change 7 with (Z.ones 3) in Hz. rewrite Z.ones_spec_low, andb_true_r in Hz by lia.
    apply negb_false_iff in Hz. by rewrite Z.add_comm. }
  rewrite <- (Z.add_0_r lo) at 1. split_and!; apply Hbit; lia.
Qed.

Lemma skip_masks : forall k, 0 <= k < 8 -> Forall (λ l, k <> 0 -> l <> 0 ->
  match msb_mask (Z.shiftl k 4), msb_mask (Z.shiftl l 7) with
  | Some a, Some b => bool_decide (CopyBytesSkipIndices kTensixEthNoc0X 12 (u16 (Z.lor a b)) = None)
                      = false
  | _, _ => False
  end) (seqZ 0 8).
Proof.
  assert (H : forallb (λ k, forallb (λ l,
    (k =? 0) || (l =? 0) ||
    match msb_mask (Z.shiftl k 4), msb_mask (Z.shiftl l 7) with
    | Some a, Some b =>
        negb (bool_decide (CopyBytesSkipIndices kTensixEthNoc0X 12 (u16 (Z.lor a b)) = None))
    | _, _ => false
    end) (seqZ 0 8)) (seqZ 0 8) = true) by (vm_compute; reflexivity).
  intros k Hk. apply Forall_seqZ. intros l Hl K0 L0.
  rewrite forallb_forall in H.
  specialize (H k ltac:(apply list_elem_of_In, elem_of_seqZ; lia)).
  rewrite forallb_forall in H.
  specialize (H l ltac:(apply list_elem_of_In, elem_of_seqZ; lia)).
  destruct (Z.eqb_spec k 0); [done|]. destruct (Z.eqb_spec l 0); [done|]. cbn [orb] in H.
  destruct (msb_mask (Z.shiftl k 4)), (msb_mask (Z.shiftl l 7)); try done.
  by apply negb_true_iff.
Qed.

Lemma skip_eth_ok te : eth_pair (eth_enabled te) ->
  exists skip, skip_eth_of te = Some skip /\ CopyBytesSkipIndices kTensixEthNoc0X 12 skip <> None.
Proof.
  intros [H4 H7].
  destruct (group_disabled (eth_enabled te) 4 ltac:(done) H4) as (k & Hk & E4).
  destruct (group_disabled (eth_enabled te) 7 ltac:(done) H7) as (l & Hl & E7).
  unfold skip_eth_of. change (GENMASK 6 4) with (Z.shiftl 7 4).
  change (GENMASK 9 7) with (Z.shiftl 7 7). rewrite E4, E7.
  pose proof (skip_masks k ltac:(lia)) as Hm. rewrite Forall_seqZ in Hm.
  specialize (Hm l ltac:(lia) ltac:(lia) ltac:(lia)).
  destruct (msb_mask (Z.shiftl k 4)) as [a|]; [|done].
  destruct (msb_mask (Z.shiftl l 7)) as [b|]; [|done]. cbn [mbind option_bind].
  eexists. split; [reflexivity|]. by apply bool_decide_eq_false in Hm.
Qed.

Lemma bad_cols_ok te : in_width 14 (tensix_col_enabled te) ->
  in_width 14 (bad_cols_of te) /\
  POPCOUNT (bad_cols_of te) = 14 - POPCOUNT (tensix_col_enabled te).
Proof.
  intros Hw. assert (Hd : in_width 14 (Z.ldiff (BIT_MASK 14) (tensix_col_enabled te)))
    by (by apply ldiff_bound).
  unfold bad_cols_of. rewrite (wrap_id 16) by (unfold in_width in *; lia). split; [done|].
  rewrite !(POPCOUNT_count 14) by done. change (Z.of_nat 14) with 14.
  assert (H : forall l, Forall (λ i, 0 <= i < 14) l ->
    count_bits l (Z.ldiff (BIT_MASK 14) (tensix_col_enabled te))
    = Z.of_nat (length l) - count_bits l (tensix_col_enabled te)).
  { induction 1 as [|i l Hi _ IH]; [done|]. cbn [count_bits foldr length].
    unfold count_bits in IH. rewrite IH, Z.ldiff_spec. unfold BIT_MASK.
    rewrite Z.ones_spec_low by lia. destruct (Z.testbit _ i); cbn [andb negb Z.b2z]; lia. }
  rewrite H by (apply Forall_seqZ; lia). done.
Qed.

(** Boot is safe end to end: for any fuse contents, once harvesting is enabled
    and leaves at least seven Tensix columns, setting up the translation from the
    computed selection involves no undefined shift, no read outside a table and no
    stray access, and the result delivers to every node. *)
Theorem harvesting_translation (efuse : Z -> Z) (fw : harvesting_table) (te0 : TileEnable)
    (s : noc_state)
    (Hen : harvesting_en fw = true) (Hn : 0 <= tensix_col_disable_count fw <= 14)
    (Harc : arc_off (regs s))
    (Hcols : 7 <= POPCOUNT (tensix_col_enabled (CalculateHarvesting efuse fw te0))) :
  exists s', InitNocTranslationFromHarvesting false true (CalculateHarvesting efuse fw te0) s
             = Some s' /\ delivers (regs s').
Proof.
  destruct (calculate_harvesting_ok efuse fw te0 Hen Hn) as (Hw & _ & _ & _ & Hp & _).
  set (te := CalculateHarvesting efuse fw te0) in *.
  destruct (skip_eth_ok te Hp) as (skip & Hskip & Hcopy).
  destruct (bad_cols_ok te Hw) as [Hbw Hbc].
  unfold InitNocTranslationFromHarvesting. cbn [negb]. rewrite Hskip. cbn [mbind option_bind].
  set (pcie := if _ =? _ then 0 else 1).
  destruct (init_delivers s pcie (bad_cols_of te) (bad_gddr_of te) skip)
    as (s' & Hs & _ & Hd); [done | done | lia | done |]. by exists s'.
Qed.

Lemma harvesting_translation_witness :
  let te := CalculateHarvesting demo_efuse demo_harvesting demo_tiles in
  exists s', InitNocTranslationFromHarvesting false true te demo_noc = Some s' /\
    delivers (regs s').
Proof.
  apply (harvesting_translation demo_efuse demo_harvesting demo_tiles demo_noc).
  - reflexivity.
  - vm_compute. split; congruence.
  - split; reflexivity.
  - vm_compute. congruence.
Defined.

(** The debug message does not check its column mask: a request whose only
    bad column is bit 14 or 15 passes the handler's check, and building the table
    reads past the end of [kTensixEthNoc0X]. *)
Theorem debug_mask_out_of_bounds (pci1_mode : Z) (s : noc_state) (col bad_gddr skip : Z)
    (Hcol : col = 14 \/ col = 15) (Hgddr : 0 <= bad_gddr < NUM_GDDR) (Hskip : 0 <= skip < 2 ^ 16) :
  (forall t, tensix_columns (2 ^ col) t = None) /\
  debug_noc_translation_handler pci1_mode s
    [0x100 + 65536 * 2 ^ col; bad_gddr + 256 * skip] = None.
Proof.
  assert (Ht : forall t, tensix_columns (2 ^ col) t = None).
  { intros t. unfold tensix_columns. destruct (fill_good _ _ t) as [g t1].
    destruct (fill_good _ _ t1) as [g2 t2]. by destruct Hcol as [-> | ->]. }
  split; [done|]. unfold debug_noc_translation_handler.
  assert (Hg : u8 (data [0x100 + 65536 * 2 ^ col; bad_gddr + 256 * skip] 1) = bad_gddr).
  { change (data _ 1) with (bad_gddr + 256 * skip). unfold wrap, NUM_GDDR in *.
    change (2 ^ 8) with 256. rewrite Z.mul_comm, Z.mod_add by done. apply Z.mod_small. lia. }
  rewrite Hg. unfold NUM_GDDR in Hgddr |- *. destruct (Z.leb_spec 8 bad_gddr); [lia|]. cbn [andb].
  destruct (ClearNocTranslation s) as [s1|]; [|done]. cbn [mbind option_bind].
  destruct (ProgramBroadcastExclusion _ _) as [r|]; [|done]. cbn [mbind option_bind].
  assert (Hen : Z.testbit (u8 (data [0x100 + 65536 * 2 ^ col; bad_gddr + 256 * skip] 0 / 256)) 0
                = true) by (by destruct Hcol as [-> | ->]).
  rewrite Hen. cbn match.
  assert (Hnone : forall p k, ComputeNocTranslation p
    (u16 (data [0x100 + 65536 * 2 ^ col; bad_gddr + 256 * skip] 0 / 65536)) bad_gddr k = None).
  { intros p k. unfold ComputeNocTranslation. cbn [translate_table_x].
    assert (u16 (data [0x100 + 65536 * 2 ^ col; bad_gddr + 256 * skip] 0 / 65536) = 2 ^ col) as ->
      by (by destruct Hcol as [-> | ->]). by rewrite Ht. }
  unfold InitNocTranslation. rewrite Hnone. done.
Qed.

Lemma debug_mask_out_of_bounds_witness :
  (forall t, tensix_columns (2 ^ 14) t = None) /\
  debug_noc_translation_handler 1 demo_noc [0x40000100; 7] = None.
Proof.
  apply (debug_mask_out_of_bounds 1 demo_noc 14 7 0); [left; reflexivity | |];
    vm_compute; split; congruence.
Defined.
