(* ===== verification/ClockControl.v ===== *)
(** The PLL driver of the chip's clocks:
    [drivers/clock_control/clock_control_tt_bh.c].

    Each of the five PLLs multiplies the reference clock by [fbdiv / refdiv] and
    divides the result by up to four external post-dividers. A device is its
    configuration, its driver data (the settings last applied and the spin lock)
    and its registers at [base]. Register words are kept as the unions' [val];
    their bit fields are read with [field] and written with [set_field]. *)
From stdpp Require Import prelude list numbers functions.
From Stdlib Require Import ZArith Lia.
From S2P Require Import Prelude Io.
Open Scope Z_scope.

(** ** Registers *)
Definition PLL_LOCK_TIMEOUT_MS : Z := 400.
Definition PLL_CNTL_0_OFFSET : Z := 0x00.
Definition PLL_CNTL_1_OFFSET : Z := 0x04.
Definition PLL_CNTL_2_OFFSET : Z := 0x08.
Definition PLL_CNTL_3_OFFSET : Z := 0x0C.
Definition PLL_CNTL_5_OFFSET : Z := 0x14.
Definition PLL_USE_POSTDIV_OFFSET : Z := 0x1C.
Definition CLK_COUNTER_EN_OFFSET : Z := 0x30.
Definition VCO_MIN_FREQ : Z := 1600.
Definition VCO_MAX_FREQ : Z := 5000.
Definition CLK_COUNTER_REFCLK_PERIOD : Z := 1000.
Definition PLL_CNTL_WRAPPER_REFCLK_PERIOD_REG_ADDR : Z := 0x8002002C.

(** [tt_bh_pll_cntl_0_fields] *)
Definition with_pd (v b : Z) : Z := set_field v 1 1 b.
Definition with_bypass (v b : Z) : Z := set_field v 4 1 b.
(** [tt_bh_pll_cntl_1_fields] *)
Definition refdiv (v : Z) : Z := field v 0 8.
Definition fbdiv (v : Z) : Z := field v 16 16.
Definition with_fbdiv (v x : Z) : Z := set_field v 16 16 x.
(** [tt_bh_pll_cntl_5_fields]: post-divider [i] *)
Definition postdiv (v i : Z) : Z := field v (8 * i) 8.
Definition with_postdiv (v i x : Z) : Z := set_field v (8 * i) 8 x.
(** [tt_bh_pll_use_postdiv_fields] *)
Definition pll_use_postdiv (v i : Z) : bool := Z.testbit v i.

Record tt_bh_pll_settings := {
  pll_cntl_1 : Z;
  pll_cntl_2 : Z;
  pll_cntl_3 : Z;
  pll_cntl_5 : Z;
  use_postdiv : Z;
}.
Record clock_control_tt_bh_config := {
  inst : Z;
  refclk_rate : Z;
  base : Z;
  init_settings : tt_bh_pll_settings;
}.
Record clock_control_tt_bh_data := { settings : tt_bh_pll_settings; lock : bool }.
Implicit Types (c : clock_control_tt_bh_config) (d : clock_control_tt_bh_data).
Implicit Types (st : tt_bh_pll_settings).

Inductive clock_control_tt_bh_clock :=
  CLOCK_CONTROL_TT_BH_CLOCK_AICLK | CLOCK_CONTROL_TT_BH_CLOCK_ARCCLK
| CLOCK_CONTROL_TT_BH_CLOCK_AXICLK | CLOCK_CONTROL_TT_BH_CLOCK_APBCLK
| CLOCK_CONTROL_TT_BH_CLOCK_L2CPUCLK_0 | CLOCK_CONTROL_TT_BH_CLOCK_L2CPUCLK_1
| CLOCK_CONTROL_TT_BH_CLOCK_L2CPUCLK_2 | CLOCK_CONTROL_TT_BH_CLOCK_L2CPUCLK_3
| CLOCK_CONTROL_TT_BH_CLOCK_GDDRMEMCLK | CLOCK_CONTROL_TT_BH_INIT_STATE.
#[global] Instance clock_control_tt_bh_clock_eq_dec : EqDecision clock_control_tt_bh_clock.
Proof. solve_decision. Defined.
Inductive clock_control_tt_bh_clock_config := CLOCK_CONTROL_TT_BH_CONFIG_BYPASS | OTHER_CONFIG.

Definition with_settings d st : clock_control_tt_bh_data := {| settings := st; lock := lock d |}.
Definition with_lock d (b : bool) : clock_control_tt_bh_data :=
  {| settings := settings d; lock := b |}.
Definition set_cntl_1 st (v : Z) : tt_bh_pll_settings :=
  {| pll_cntl_1 := v; pll_cntl_2 := pll_cntl_2 st; pll_cntl_3 := pll_cntl_3 st;
     pll_cntl_5 := pll_cntl_5 st; use_postdiv := use_postdiv st |}.
Definition set_cntl_5 st (v : Z) : tt_bh_pll_settings :=
  {| pll_cntl_1 := pll_cntl_1 st; pll_cntl_2 := pll_cntl_2 st; pll_cntl_3 := pll_cntl_3 st;
     pll_cntl_5 := v; use_postdiv := use_postdiv st |}.

Definition clock_control_tt_bh_read_reg c (offset : Z) : IO Z := ReadReg (base c + offset).
Definition clock_control_tt_bh_write_reg c (offset val : Z) : IO unit :=
  WriteReg (base c + offset) val.
Definition k_busy_wait (us : Z) : IO unit := delay_ns (us * 1000).

Definition clock_control_enable_clk_counters c : IO unit :=
  _ ← WriteReg PLL_CNTL_WRAPPER_REFCLK_PERIOD_REG_ADDR CLK_COUNTER_REFCLK_PERIOD;
  clock_control_tt_bh_write_reg c CLK_COUNTER_EN_OFFSET 0xff.

Definition clock_control_tt_bh_config_vco c st : IO unit :=
  _ ← clock_control_tt_bh_write_reg c PLL_CNTL_1_OFFSET (pll_cntl_1 st);
  _ ← clock_control_tt_bh_write_reg c PLL_CNTL_2_OFFSET (pll_cntl_2 st);
  clock_control_tt_bh_write_reg c PLL_CNTL_3_OFFSET (pll_cntl_3 st).

Definition clock_control_tt_bh_config_ext_postdivs c st : IO unit :=
  _ ← clock_control_tt_bh_write_reg c PLL_USE_POSTDIV_OFFSET 0;
  _ ← clock_control_tt_bh_write_reg c PLL_CNTL_5_OFFSET (pll_cntl_5 st);
  clock_control_tt_bh_write_reg c PLL_USE_POSTDIV_OFFSET (use_postdiv st).

(** The polling loop: the hardware supplies alternately the lock register and,
    while the PLL is not locked, the uptime. *)
Fixpoint lock_loop (inst start : Z) (vs : list Z) : option (Z * list Z) :=
  match vs with
  | [] => None
  | pll_lock_reg :: vs =>
      if Z.testbit pll_lock_reg inst then Some (0, vs)
      else match vs with
           | [] => None
           | now :: vs =>
               if u64 (now - start) <? PLL_LOCK_TIMEOUT_MS then lock_loop inst start vs
               else Some (- ETIMEDOUT, vs)
           end
  end.
Definition clock_control_tt_bh_wait_lock (inst : Z) : IO Z :=
  start ← poll; polling (lock_loop inst start).

(** ** Dividers *)
Definition clock_control_tt_bh_get_ext_postdiv (postdiv_index cntl_5 use : Z) : Z :=
  let postdiv_value := postdiv cntl_5 postdiv_index in
  if pll_use_postdiv use postdiv_index then
    if postdiv_value =? 0 then 0
    else if postdiv_value <=? 16 then postdiv_value + 1
    else (postdiv_value + 1) * 2
  else 1.

Definition clock_control_tt_bh_calculate_fbdiv
    (refclk_rate target_freq_mhz cntl_1 cntl_5 use postdiv_index : Z) : option Z :=
  let eff_postdiv := clock_control_tt_bh_get_ext_postdiv postdiv_index cntl_5 use in
  if eff_postdiv =? 0 then Some 0
  else if refclk_rate =? 0 then None
  else Some (u32 (u32 (target_freq_mhz * refdiv cntl_1) * eff_postdiv) / refclk_rate).

Definition clock_control_tt_bh_get_freq c (postdiv_index : Z) : IO Z :=
  cntl_1 ← clock_control_tt_bh_read_reg c PLL_CNTL_1_OFFSET;
  cntl_5 ← clock_control_tt_bh_read_reg c PLL_CNTL_5_OFFSET;
  use ← clock_control_tt_bh_read_reg c PLL_USE_POSTDIV_OFFSET;
  let eff_postdiv := clock_control_tt_bh_get_ext_postdiv postdiv_index cntl_5 use in
  if eff_postdiv =? 0 then mret 0
  else if u32 (refdiv cntl_1 * eff_postdiv) =? 0 then stuck
  else mret (u32 (refclk_rate c * fbdiv cntl_1) / u32 (refdiv cntl_1 * eff_postdiv)).

(** ** Applying settings *)
(** The sequence up to the powered, still bypassed PLL, and the lock result. *)
Definition power_up c st : IO Z :=
  cntl_0 ← clock_control_tt_bh_read_reg c PLL_CNTL_0_OFFSET;
  _ ← clock_control_tt_bh_write_reg c PLL_CNTL_0_OFFSET (with_bypass cntl_0 0);
  _ ← k_busy_wait 3;
  _ ← clock_control_tt_bh_write_reg c PLL_CNTL_0_OFFSET 0;
  _ ← clock_control_tt_bh_config_vco c st;
  _ ← k_busy_wait 5;
  _ ← clock_control_tt_bh_write_reg c PLL_CNTL_0_OFFSET (with_pd 0 1);
  clock_control_tt_bh_wait_lock (inst c).
(** From the post-dividers to the end of bypass. *)
Definition switch_on c st : IO unit :=
  _ ← clock_control_tt_bh_config_ext_postdivs c st;
  _ ← delay_ns 300;
  _ ← clock_control_tt_bh_write_reg c PLL_CNTL_0_OFFSET (with_bypass (with_pd 0 1) 1);
  delay_ns 300.

Definition clock_control_tt_bh_update c d st : IO clock_control_tt_bh_data :=
  _ ← power_up c st;
  _ ← switch_on c st;
  mret (with_settings d st).

Definition l2cpu_index (clock : clock_control_tt_bh_clock) : option Z :=
  match clock with
  | CLOCK_CONTROL_TT_BH_CLOCK_L2CPUCLK_0 => Some 0
  | CLOCK_CONTROL_TT_BH_CLOCK_L2CPUCLK_1 => Some 1
  | CLOCK_CONTROL_TT_BH_CLOCK_L2CPUCLK_2 => Some 2
  | CLOCK_CONTROL_TT_BH_CLOCK_L2CPUCLK_3 => Some 3
  | _ => None
  end.
Definition clock_control_tt_bh_enable c d clock (enable : Z) : IO (Z * clock_control_tt_bh_data) :=
  match l2cpu_index clock with
  | None => mret (- ENOSYS, d)
  | Some i =>
      let st := set_cntl_5 (settings d) (with_postdiv (pll_cntl_5 (settings d)) i enable) in
      d' ← clock_control_tt_bh_update c d st;
      mret (0, d')
  end.
Definition clock_control_tt_bh_on c d clock := clock_control_tt_bh_enable c d clock 1.
Definition clock_control_tt_bh_off c d clock := clock_control_tt_bh_enable c d clock 0.
Definition clock_control_tt_bh_async_on : Z := - ENOSYS.

(** Which post-divider feeds a clock. *)
Definition rate_index (clock : clock_control_tt_bh_clock) : option Z :=
  match clock with
  | CLOCK_CONTROL_TT_BH_CLOCK_AICLK | CLOCK_CONTROL_TT_BH_CLOCK_ARCCLK => Some 0
  | CLOCK_CONTROL_TT_BH_CLOCK_AXICLK => Some 1
  | CLOCK_CONTROL_TT_BH_CLOCK_APBCLK => Some 2
  | CLOCK_CONTROL_TT_BH_CLOCK_GDDRMEMCLK => Some 0
  | CLOCK_CONTROL_TT_BH_CLOCK_L2CPUCLK_0 => Some 0
  | CLOCK_CONTROL_TT_BH_CLOCK_L2CPUCLK_1 => Some 1
  | CLOCK_CONTROL_TT_BH_CLOCK_L2CPUCLK_2 => Some 2
  | CLOCK_CONTROL_TT_BH_CLOCK_L2CPUCLK_3 => Some 3
  | CLOCK_CONTROL_TT_BH_INIT_STATE => None
  end.
(** The return code, and the rate when there is one. *)
Definition clock_control_tt_bh_get_rate c d clock : IO (Z * option Z) :=
  if lock d then mret (- EBUSY, None)
  else match rate_index clock with
       | None => mret (- ENOTSUP, None)
       | Some i => f ← clock_control_tt_bh_get_freq c i; mret (0, Some f)
       end.

(** One step of the loop that walks [fbdiv] to its target. *)
Definition fbdiv_step (target cntl_1 : Z) : Z :=
  if fbdiv cntl_1 <? target then with_fbdiv cntl_1 (fbdiv cntl_1 + 1)
  else with_fbdiv cntl_1 (fbdiv cntl_1 - 1).
Fixpoint fbdiv_loop (fuel : nat) c (target cntl_1 : Z) : IO unit :=
  if fbdiv cntl_1 =? target then mret tt
  else match fuel with
       | O => stuck
       | S fuel =>
           let cntl_1 := fbdiv_step target cntl_1 in
           _ ← clock_control_tt_bh_write_reg c PLL_CNTL_1_OFFSET cntl_1;
           _ ← delay_ns 100;
           fbdiv_loop fuel c target cntl_1
       end.

Definition set_rate_gddr c d (rate : Z) : IO (Z * clock_control_tt_bh_data) :=
  let st := settings d in
  match clock_control_tt_bh_calculate_fbdiv (refclk_rate c) rate (pll_cntl_1 st)
          (pll_cntl_5 st) (use_postdiv st) 0 with
  | None => stuck
  | Some f =>
      if f =? 0 then mret (- EINVAL, d)
      else
        let st := set_cntl_1 st (with_fbdiv (pll_cntl_1 st) f) in
        if refdiv (pll_cntl_1 st) =? 0 then stuck
        else
          let vco_freq := u32 (refclk_rate c * fbdiv (pll_cntl_1 st)) / refdiv (pll_cntl_1 st) in
          if negb ((VCO_MIN_FREQ <=? vco_freq) && (vco_freq <=? VCO_MAX_FREQ))
          then mret (- ERANGE, d)
          else d' ← clock_control_tt_bh_update c d st; mret (0, d')
  end.
Definition set_rate_aiclk c d (rate : Z) : IO (Z * clock_control_tt_bh_data) :=
  cntl_1 ← clock_control_tt_bh_read_reg c PLL_CNTL_1_OFFSET;
  cntl_5 ← clock_control_tt_bh_read_reg c PLL_CNTL_5_OFFSET;
  use ← clock_control_tt_bh_read_reg c PLL_USE_POSTDIV_OFFSET;
  match clock_control_tt_bh_calculate_fbdiv (refclk_rate c) rate cntl_1 cntl_5 use 0 with
  | None => stuck
  | Some target_fbdiv =>
      _ ← fbdiv_loop (Z.to_nat (Z.abs (target_fbdiv - fbdiv cntl_1))) c target_fbdiv cntl_1;
      mret (0, d)
  end.
Definition clock_control_tt_bh_set_rate c d clock (rate : Z) : IO (Z * clock_control_tt_bh_data) :=
  if lock d then mret (- EBUSY, d)
  else match clock with
       | CLOCK_CONTROL_TT_BH_CLOCK_GDDRMEMCLK => set_rate_gddr c d rate
       | CLOCK_CONTROL_TT_BH_CLOCK_AICLK => set_rate_aiclk c d rate
       | CLOCK_CONTROL_TT_BH_INIT_STATE =>
           d' ← clock_control_tt_bh_update c d (init_settings c);
           _ ← clock_control_enable_clk_counters c;
           mret (0, d')
       | _ => mret (- ENOTSUP, d)
       end.

Definition clock_control_tt_bh_configure c d (option : clock_control_tt_bh_clock_config) : IO Z :=
  if lock d then mret (- EBUSY)
  else match option with
       | CLOCK_CONTROL_TT_BH_CONFIG_BYPASS =>
           cntl_0 ← clock_control_tt_bh_read_reg c PLL_CNTL_0_OFFSET;
           _ ← clock_control_tt_bh_write_reg c PLL_CNTL_0_OFFSET (with_bypass cntl_0 0);
           _ ← k_busy_wait 3;
           _ ← clock_control_tt_bh_write_reg c PLL_USE_POSTDIV_OFFSET 0;
           mret 0
       | OTHER_CONFIG => mret (- ENOTSUP)
       end.

(** On a lock timeout the function returns without releasing the spin lock. *)
Definition clock_control_tt_bh_init c d : IO (Z * clock_control_tt_bh_data) :=
  if lock d then mret (- EBUSY, d)
  else
    let d := with_settings d (init_settings c) in
    ret ← power_up c (init_settings c);
    if ret <? 0 then mret (ret, with_lock d true)
    else
      _ ← switch_on c (init_settings c);
      _ ← clock_control_enable_clk_counters c;
      mret (0, d).

(** * What the hardware tolerates

    A PLL's dividers may only be changed while its output is bypassed and it is
    powered down, and its post-dividers while bypassed and switched off; power
    only changes under bypass, and bypass is only left with the PLL powered
    before. The exception is the feedback divider: it may move by one at a time in a PLL that
    runs and drives clocks, and stays above zero then. *)
Definition selected (v : Z) : bool := Z.testbit v 4.
Definition powered (v : Z) : bool := Z.testbit v 1.

Definition allowed c (m : Z -> Z) (e : io_event) : bool :=
  match e with
  | Delay _ => true
  | Wr a v =>
      let cntl_0 := m (base c + PLL_CNTL_0_OFFSET) in
      if a =? base c + PLL_CNTL_0_OFFSET then
        (negb (selected v) || (powered v && powered cntl_0))
        && (Bool.eqb (powered v) (powered cntl_0) || (negb (selected v) && negb (selected cntl_0)))
      else if a =? base c + PLL_CNTL_1_OFFSET then
        (negb (selected cntl_0) && negb (powered cntl_0))
        || ((field v 0 16 =? field (m a) 0 16) && (Z.abs (fbdiv v - fbdiv (m a)) =? 1) && negb (fbdiv v =? 0))
      else if (a =? base c + PLL_CNTL_2_OFFSET) || (a =? base c + PLL_CNTL_3_OFFSET) then
        negb (selected cntl_0) && negb (powered cntl_0)
      else if a =? base c + PLL_CNTL_5_OFFSET then
        negb (selected cntl_0) && (m (base c + PLL_USE_POSTDIV_OFFSET) =? 0)
      else if a =? base c + PLL_USE_POSTDIV_OFFSET then negb (selected cntl_0)
      else true
  end.
Fixpoint glitch_free c (m : Z -> Z) (es : list io_event) : bool :=
  match es with
  | [] => true
  | e :: es => allowed c m e && glitch_free c (ev_mem m e) es
  end.

(** Operations of the device, as its clients call them. *)
Inductive clock_op :=
| On (clock : clock_control_tt_bh_clock)
| Off (clock : clock_control_tt_bh_clock)
| SetRateOp (clock : clock_control_tt_bh_clock) (rate : Z)
| Configure (option : clock_control_tt_bh_clock_config)
| Init.
Definition run_op c d (op : clock_op) : IO (Z * clock_control_tt_bh_data) :=
  match op with
  | On clock => clock_control_tt_bh_on c d clock
  | Off clock => clock_control_tt_bh_off c d clock
  | SetRateOp clock rate => clock_control_tt_bh_set_rate c d clock rate
  | Configure o => r ← clock_control_tt_bh_configure c d o; mret (r, d)
  | Init => clock_control_tt_bh_init c d
  end.
Fixpoint run_ops c d (ops : list clock_op) : IO clock_control_tt_bh_data :=
  match ops with
  | [] => mret d
  | op :: ops => r ← run_op c d op; run_ops c r.2 ops
  end.

(** The device's registers lie above those shared by all PLLs. *)
Definition config_ok c : Prop :=
  PLL_CNTL_WRAPPER_REFCLK_PERIOD_REG_ADDR < base c /\ 0 < refclk_rate c < 2 ^ 16.

Lemma glitch_free_app c m es es' :
  glitch_free c m (es ++ es') = glitch_free c m es && glitch_free c (foldl ev_mem m es) es'.
Proof.
  revert m. induction es as [|e es IH]; intros m; [done|]. cbn. by rewrite IH, andb_assoc.
Qed.

(** ** Register bits *)
Lemma selected_bypass v b : b = 0 \/ b = 1 -> selected (with_bypass v b) = (b =? 1).
Proof. intros [->| ->]; unfold selected, with_bypass; by rewrite set_field_testbit by lia. Qed.
Lemma powered_bypass v b : powered (with_bypass v b) = powered v.
Proof. unfold powered, with_bypass. by rewrite set_field_testbit by lia. Qed.

(** ** Event lists of the sequences *)
Definition power_up_events c st (m : Z -> Z) : list io_event :=
  [Wr (base c + PLL_CNTL_0_OFFSET) (with_bypass (m (base c + PLL_CNTL_0_OFFSET)) 0); Delay 3000;
   Wr (base c + PLL_CNTL_0_OFFSET) 0;
   Wr (base c + PLL_CNTL_1_OFFSET) (pll_cntl_1 st);
   Wr (base c + PLL_CNTL_2_OFFSET) (pll_cntl_2 st);
   Wr (base c + PLL_CNTL_3_OFFSET) (pll_cntl_3 st); Delay 5000;
   Wr (base c + PLL_CNTL_0_OFFSET) (with_pd 0 1)].
Definition switch_on_events c st : list io_event :=
  [Wr (base c + PLL_USE_POSTDIV_OFFSET) 0;
   Wr (base c + PLL_CNTL_5_OFFSET) (pll_cntl_5 st);
   Wr (base c + PLL_USE_POSTDIV_OFFSET) (use_postdiv st); Delay 300;
   Wr (base c + PLL_CNTL_0_OFFSET) (with_bypass (with_pd 0 1) 1); Delay 300].
Definition counter_events c : list io_event :=
  [Wr PLL_CNTL_WRAPPER_REFCLK_PERIOD_REG_ADDR CLK_COUNTER_REFCLK_PERIOD;
   Wr (base c + CLK_COUNTER_EN_OFFSET) 0xff].

Ltac cc_simpl :=
  unfold clock_control_tt_bh_write_reg, clock_control_tt_bh_read_reg, k_busy_wait in *; io_simpl.

Lemma power_up_runs c st s ret s' :
  power_up c st s = Some (ret, s') -> runs (power_up c st) s (power_up_events c st (mem s)) ret s'.
Proof.
  intros H. split; [done|]. revert H.
  unfold power_up, clock_control_tt_bh_config_vco, clock_control_tt_bh_wait_lock, poll, polling.
  cc_simpl. destruct (inputs s) as [|start vs]; cc_simpl; [done|].
  destruct (lock_loop _ _ _) as [[ret0 vs']|]; [|done]. intros [= <- <-].
  split; [|done]. io_simpl. by rewrite <- !app_assoc.
Qed.

Lemma switch_on_runs c st s :
  exists s', runs (switch_on c st) s (switch_on_events c st) tt s' /\ inputs s' = inputs s.
Proof.
  unfold runs, switch_on, clock_control_tt_bh_config_ext_postdivs. cc_simpl.
  eexists. split; [split_and!; [done| |done] | done]. io_simpl. by rewrite <- !app_assoc.
Qed.

Lemma counters_runs c s :
  exists s', runs (clock_control_enable_clk_counters c) s (counter_events c) tt s'.
Proof.
  unfold runs, clock_control_enable_clk_counters. cc_simpl.
  eexists. split_and!; [done| |done]. io_simpl. by rewrite <- !app_assoc.
Qed.

(** ** The sequences are glitch free *)
Ltac offsets :=
  unfold PLL_CNTL_0_OFFSET, PLL_CNTL_1_OFFSET, PLL_CNTL_2_OFFSET, PLL_CNTL_3_OFFSET,
    PLL_CNTL_5_OFFSET, PLL_USE_POSTDIV_OFFSET, CLK_COUNTER_EN_OFFSET,
    PLL_CNTL_WRAPPER_REFCLK_PERIOD_REG_ADDR in *.
(** Decides comparisons of register addresses. *)
Ltac addrs :=
  repeat match goal with
  | |- context [?a =? base ?c + ?y] =>
      first [rewrite (proj2 (Z.eqb_eq a (base c + y))) by lia
            |rewrite (proj2 (Z.eqb_neq a (base c + y))) by lia]
  end.

Lemma power_up_glitch_free c st m : glitch_free c m (power_up_events c st m) = true.
Proof.
  unfold power_up_events. offsets. cbn [glitch_free allowed ev_mem]. offsets. addrs. mem_simpl.
  rewrite selected_bypass, powered_bypass by auto.
  change (selected 0) with false. change (powered 0) with false.
  change (selected (with_pd 0 1)) with false. cbn. rewrite eqb_reflx. by rewrite orb_true_r.
Qed.

Lemma switch_on_glitch_free c st m :
  m (base c + PLL_CNTL_0_OFFSET) = with_pd 0 1 ->
  glitch_free c m (switch_on_events c st) = true.
Proof.
  unfold switch_on_events. offsets. intros H. cbn [glitch_free allowed ev_mem]. offsets. addrs.
  mem_simpl. rewrite H. done.
Qed.

Lemma counters_glitch_free c m : config_ok c -> glitch_free c m (counter_events c) = true.
Proof.
  intros [Hb _]. unfold counter_events. offsets. cbn [glitch_free allowed ev_mem]. offsets.
  by addrs.
Qed.

Lemma power_up_cntl_0 c st m :
  foldl ev_mem m (power_up_events c st m) (base c + PLL_CNTL_0_OFFSET) = with_pd 0 1.
Proof. unfold power_up_events. cbn [foldl ev_mem]. by mem_simpl. Qed.

(** A computation all of whose writes the hardware tolerates. *)
Definition clean {A} c (m : IO A) : Prop :=
  forall s x s', m s = Some (x, s') ->
  exists es, runs m s es x s' /\ glitch_free c (mem s) es = true.

Lemma clean_ret {A} c (x : A) : clean c (mret x).
Proof. intros s y s' [= <- <-]. exists []. split; [apply runs_ret | done]. Qed.
Lemma clean_stuck {A} c : clean c (@stuck A).
Proof. by intros s x s'. Qed.
Lemma clean_bind {A B} c (m : IO A) (f : A -> IO B) :
  clean c m -> (forall x, clean c (f x)) -> clean c (m ≫= f).
Proof.
  intros Hm Hf s y s2 (x & s1 & H1 & H2)%IO_bind_Some.
  destruct (Hm _ _ _ H1) as (es1 & R1 & G1), (Hf x _ _ _ H2) as (es2 & R2 & G2).
  exists (es1 ++ es2). split; [by eapply runs_bind|].
  destruct R1 as (_ & _ & Hmem). by rewrite glitch_free_app, G1, <- Hmem, G2.
Qed.
Lemma clean_read c a : clean c (ReadReg a).
Proof. intros s x s' [= <- <-]. exists []. split; [apply runs_read | done]. Qed.
#[local] Hint Resolve clean_ret clean_stuck clean_bind clean_read : fw.

Lemma apply_runs c st s ret s1 :
  power_up c st s = Some (ret, s1) ->
  exists s2, runs (switch_on c st) s1 (switch_on_events c st) tt s2 /\
    glitch_free c (mem s) (power_up_events c st (mem s) ++ switch_on_events c st) = true.
Proof.
  intros H. destruct (switch_on_runs c st s1) as (s2 & Hs2 & _). exists s2. split; [done|].
  rewrite glitch_free_app, power_up_glitch_free, switch_on_glitch_free; [done|].
  apply power_up_cntl_0.
Qed.

Lemma clean_update c d st : clean c (clock_control_tt_bh_update c d st).
Proof.
  intros s x s' H. unfold clock_control_tt_bh_update in *.
  apply IO_bind_Some in H as (ret & s1 & H1 & (u & s2 & H2 & [= <- <-])%IO_bind_Some).
  destruct (apply_runs _ _ _ _ _ H1) as (s2' & R2 & G).
  destruct R2 as (E & Ht & Hm). rewrite E in H2. simplify_eq.
  exists (power_up_events c st (mem s) ++ switch_on_events c st). split; [|done].
  eapply runs_bind; [by apply power_up_runs|]. rewrite <- (app_nil_r (switch_on_events _ _)).
  eapply runs_bind; [by split_and!|]. apply runs_ret.
Qed.

Lemma clean_counters c : config_ok c -> clean c (clock_control_enable_clk_counters c).
Proof.
  intros Hc s x s' H. destruct (counters_runs c s) as (s2 & R). destruct R as (E & Ht & Hm).
  rewrite E in H. simplify_eq. exists (counter_events c). split; [by split_and! |].
  by apply counters_glitch_free.
Qed.
#[local] Hint Resolve clean_update clean_counters : fw.

(** ** Walking the feedback divider *)
Lemma fbdiv_range v : 0 <= fbdiv v < 65536.
Proof. apply (field_range v 16 16). lia. Qed.
Lemma with_fbdiv_fbdiv v x : 0 <= x < 65536 -> fbdiv (with_fbdiv v x) = x.
Proof. intros. apply field_set_same; [lia..|]. change (2 ^ 16) with 65536. lia. Qed.
Lemma with_fbdiv_low v x w : 0 <= w <= 16 -> field (with_fbdiv v x) 0 w = field v 0 w.
Proof. intros. apply field_set_other; lia. Qed.
Lemma with_fbdiv_refdiv v x : refdiv (with_fbdiv v x) = refdiv v.
Proof. apply with_fbdiv_low. lia. Qed.

Lemma fbdiv_step_fbdiv target v :
  0 <= target < 65536 -> fbdiv v <> target ->
  fbdiv (fbdiv_step target v) = if fbdiv v <? target then fbdiv v + 1 else fbdiv v - 1.
Proof.
  intros Ht Hne. pose proof (fbdiv_range v). unfold fbdiv_step.
  case_match; zb; apply with_fbdiv_fbdiv; lia.
Qed.
Lemma fbdiv_step_low target v w : 0 <= w <= 16 -> field (fbdiv_step target v) 0 w = field v 0 w.
Proof. intros. unfold fbdiv_step. by case_match; apply with_fbdiv_low. Qed.

(** The values the register takes. *)
Fixpoint walk (n : nat) (target v : Z) : list Z :=
  match n with
  | O => []
  | S n => let v := fbdiv_step target v in v :: walk n target v
  end.
Definition walk_events c (vs : list Z) : list io_event :=
  v ← vs; [Wr (base c + PLL_CNTL_1_OFFSET) v; Delay 100].
Definition distance (target v : Z) : nat := Z.to_nat (Z.abs (target - fbdiv v)).

Lemma distance_step target v :
  0 <= target < 65536 -> fbdiv v <> target ->
  distance target v = S (distance target (fbdiv_step target v)).
Proof.
  intros Ht Hne. unfold distance. rewrite fbdiv_step_fbdiv by done. case_match; zb; lia.
Qed.

Lemma fbdiv_loop_runs fuel c target v s :
  0 <= target < 65536 -> (distance target v <= fuel)%nat ->
  exists s', runs (fbdiv_loop fuel c target v) s
               (walk_events c (walk (distance target v) target v)) tt s' /\ inputs s' = inputs s.
Proof.
  revert v s. induction fuel as [|fuel IH]; intros v s Ht Hf.
  - exists s. cbn [fbdiv_loop]. assert (fbdiv v = target) as Hv by (unfold distance in Hf; lia).
    rewrite (proj2 (Z.eqb_eq _ _)) by done. unfold distance.
    replace (Z.to_nat _) with O by lia. split; [apply runs_ret | done].
  - cbn [fbdiv_loop]. destruct (Z.eqb_spec (fbdiv v) target) as [He|Hne].
    { exists s. unfold distance. replace (Z.to_nat _) with O by lia. split; [apply runs_ret | done]. }
    rewrite (distance_step _ _ Ht Hne) in *. cbn [walk].
    edestruct (IH (fbdiv_step target v)) as (s' & R & Hi); [done | lia|]. exists s'. split.
    + change (walk_events c (?x :: ?l))
        with ([Wr (base c + PLL_CNTL_1_OFFSET) x] ++ [Delay 100] ++ walk_events c l).
      eapply runs_bind; [apply runs_write|]. eapply runs_bind; [apply runs_delay | exact R].
    + exact Hi.
Qed.

Lemma fbdiv_loop_total fuel c target v s r :
  fbdiv_loop fuel c target v s = Some r -> 0 <= target < 65536.
Proof.
  revert v s. induction fuel as [|fuel IH]; intros v s; cbn [fbdiv_loop];
    (destruct (Z.eqb_spec (fbdiv v) target) as [<-|]; [intros; apply fbdiv_range|]); [done|].
  destruct r as [u s2]. intros (? & s1 & _ & (? & s3 & _ & H)%IO_bind_Some)%IO_bind_Some. eauto.
Qed.

Lemma walk_glitch_free c n target v m :
  1 <= target < 65536 -> m (base c + PLL_CNTL_1_OFFSET) = v -> (n <= distance target v)%nat ->
  glitch_free c m (walk_events c (walk n target v)) = true.
Proof.
  intros Ht. revert v m. induction n as [|n IH]; intros v m Hm Hn; [done|].
  assert (fbdiv v <> target) as Hne by (unfold distance in Hn; lia).
  pose proof (fbdiv_step_fbdiv target v ltac:(lia) Hne) as Hstep. pose proof (fbdiv_range v) as Hv.
  rewrite (distance_step target v ltac:(lia) Hne) in Hn. cbn [walk].
  change (walk_events c (?x :: ?l))
    with (Wr (base c + PLL_CNTL_1_OFFSET) x :: Delay 100 :: walk_events c l).
  cbn [glitch_free ev_mem allowed]. rewrite IH; [| by mem_simpl | lia].
  rewrite !andb_true_r. offsets. addrs. rewrite Hm, fbdiv_step_low by lia.
  rewrite Z.eqb_refl, Hstep. apply orb_true_iff. right. rewrite andb_true_l.
  case_match; zb; apply andb_true_iff; split; [zb; lia | apply negb_true_iff, Z.eqb_neq; lia | zb; lia | apply negb_true_iff, Z.eqb_neq; lia].
Qed.

Lemma calculate_fbdiv_nonneg refclk target v1 v5 use i f :
  0 <= refclk -> clock_control_tt_bh_calculate_fbdiv refclk target v1 v5 use i = Some f -> 0 <= f.
Proof.
  intros Hr. unfold clock_control_tt_bh_calculate_fbdiv. case_match; [by intros [= <-]|].
  case_match; [done|]. intros [= <-]. zb. apply Z.div_pos; [|lia]. apply wrap_in_width. lia.
Qed.

(** The feedback divider a rate asks for, at the dividers the registers hold. *)
Definition aiclk_target c (m : Z -> Z) (rate : Z) : option Z :=
  clock_control_tt_bh_calculate_fbdiv (refclk_rate c) rate (m (base c + PLL_CNTL_1_OFFSET))
    (m (base c + PLL_CNTL_5_OFFSET)) (m (base c + PLL_USE_POSTDIV_OFFSET)) 0.
(** It fits its sixteen bits and is not zero. *)
Definition rate_fits c (m : Z -> Z) (rate : Z) : Prop :=
  match aiclk_target c m rate with Some t => 1 <= t < 65536 | None => False end.
Lemma set_rate_aiclk_runs c d rate s : rate_fits c (mem s) rate ->
  exists es s', runs (set_rate_aiclk c d rate) s es (0, d) s' /\ glitch_free c (mem s) es = true /\ inputs s' = inputs s.
Proof.
  unfold rate_fits, aiclk_target. intros Ht. unfold runs, set_rate_aiclk. cc_simpl. case_match eqn:Hf; [|done].
  edestruct (fbdiv_loop_runs (distance z (mem s (base c + PLL_CNTL_1_OFFSET))) c z) as (s2 & (E & Htr & Hmem) & Hi);
    [lia | exact (le_n _)|]. unfold distance in E at 1. rewrite E. eexists _, s2. split; [by split_and!|].
  split; [by apply walk_glitch_free | exact Hi].
Qed.

Lemma clean_enable c d clock b : clean c (clock_control_tt_bh_enable c d clock b).
Proof. unfold clock_control_tt_bh_enable. case_match; eauto 6 with fw. Qed.
Lemma clean_set_rate c d clock rate : clock <> CLOCK_CONTROL_TT_BH_CLOCK_AICLK ->
  config_ok c -> clean c (clock_control_tt_bh_set_rate c d clock rate).
Proof.
  intros. unfold clock_control_tt_bh_set_rate, set_rate_gddr.
  repeat case_match; try done; eauto 8 with fw.
Qed.
Lemma clean_configure c d o : clean c (clock_control_tt_bh_configure c d o).
Proof.
  unfold clock_control_tt_bh_configure. repeat case_match; eauto with fw.
  intros s x s' Hr. cc_simpl. injection Hr as <- <-.
  exists [Wr (base c + PLL_CNTL_0_OFFSET) (with_bypass (mem s (base c + PLL_CNTL_0_OFFSET)) 0);
          Delay 3000; Wr (base c + PLL_USE_POSTDIV_OFFSET) 0]. split.
  - split_and!; [done | | done]. cbn [trace]. by rewrite <- !app_assoc.
  - cbn [glitch_free allowed ev_mem]. offsets. addrs. mem_simpl.
    rewrite selected_bypass, powered_bypass, eqb_reflx by auto. done.
Qed.
Lemma clean_init c d : config_ok c -> clean c (clock_control_tt_bh_init c d).
Proof.
  intros Hc s x s' H. unfold clock_control_tt_bh_init in *. case_match; [by eapply clean_ret|].
  apply IO_bind_Some in H as (ret & s1 & H1 & H2).
  pose proof (power_up_runs _ _ _ _ _ H1) as R1. destruct (ret <? 0) eqn:Hret.
  - injection H2 as <- <-. eexists. split; [eapply runs_bind; [exact R1 | rewrite Hret; apply runs_ret]|].
    rewrite app_nil_r. apply power_up_glitch_free.
  - apply IO_bind_Some in H2 as ([] & s2 & H2 & (u & s3 & H3 & [= <- <-])%IO_bind_Some).
    destruct (apply_runs _ _ _ _ _ H1) as (s2' & R2 & G). pose proof R2 as (E & _ & Hm2).
    rewrite E in H2. simplify_eq. destruct (clean_counters c Hc _ _ _ H3) as (es & R3 & G3).
    eexists. split.
    + eapply runs_bind; [exact R1|]. rewrite Hret. eapply runs_bind; [exact R2|].
      eapply runs_bind; [exact R3 | apply runs_ret].
    + rewrite app_nil_r, app_assoc, glitch_free_app, G. destruct R1 as (_ & _ & Hm1).
      by rewrite foldl_app, <- Hm1, <- Hm2.
Qed.
#[local] Hint Resolve clean_enable clean_set_rate clean_configure clean_init : fw.

(** ** Sequences of operations *)
Definition op_fits c (op : clock_op) (m : Z -> Z) : Prop :=
  match op with SetRateOp CLOCK_CONTROL_TT_BH_CLOCK_AICLK rate => rate_fits c m rate | _ => True end.
(** Every rate requested for the AICLK fits, at the dividers found when it is requested. *)
Fixpoint rates_fit c d (ops : list clock_op) s : Prop :=
  match ops with
  | [] => True
  | op :: ops => op_fits c op (mem s) /\
                 match run_op c d op s with Some (r, s') => rates_fit c r.2 ops s' | None => True end
  end.
(** The answers to one wait for the lock: they end it, with the lock or the time-out. *)
Definition wait_ends c (w : list Z) : bool :=
  match w with
  | start :: vs => match lock_loop (inst c) start vs with Some (_, []) => true | _ => false end
  | [] => false
  end.
Definition waits_answered c (n : nat) (vs : list Z) : Prop :=
  exists ws rest, vs = concat ws ++ rest /\ length ws = n /\ Forall (λ w, wait_ends c w = true) ws.
(** No settings divide by zero. *)
Definition refdiv_ok c d : Prop := refdiv (pll_cntl_1 (init_settings c)) <> 0 /\ refdiv (pll_cntl_1 (settings d)) <> 0.

Lemma lock_loop_app i start n : forall vs rest r vs', (length vs <= n)%nat ->
  lock_loop i start vs = Some (r, vs') -> lock_loop i start (vs ++ rest) = Some (r, vs' ++ rest).
Proof.
  induction n as [|n IH]; intros [|v vs] rest r vs' Hn E; cbn in Hn, E; try done; [lia|]. cbn [app lock_loop].
  destruct (Z.testbit v i); [by injection E as <- <-|]. destruct vs as [|now vs]; [done|]. cbn [app].
  destruct (u64 (now - start) <? PLL_LOCK_TIMEOUT_MS); [apply IH; [cbn in Hn; lia | exact E] | by injection E as <- <-].
Qed.
Lemma waits_fewer c n vs : waits_answered c (S n) vs -> waits_answered c n vs.
Proof.
  intros (ws & rest & -> & Hl & Hf). destruct ws as [|w ws] using rev_ind; [done|]. exists ws, (w ++ rest).
  rewrite length_app in Hl. cbn in Hl. apply list.Forall_app in Hf as [Hf _].
  split_and!; [by rewrite concat_app, <- app_assoc; cbn; rewrite app_nil_r | lia | done].
Qed.
Lemma power_up_total c st s n : waits_answered c (S n) (inputs s) ->
  exists ret s', power_up c st s = Some (ret, s') /\ waits_answered c n (inputs s').
Proof.
  intros (ws & rest & Hi & Hl & Hf). destruct ws as [|w ws]; [done|]. apply list.Forall_cons in Hf as [Hw Hf].
  unfold power_up, clock_control_tt_bh_config_vco, clock_control_tt_bh_wait_lock, poll, polling. cc_simpl.
  rewrite Hi. destruct w as [|start vs]; [done|]. cbn [concat app]. cc_simpl. cbn [wait_ends] in Hw.
  destruct (lock_loop (inst c) start vs) as [[r [|? ?]]|] eqn:E; [|done..].
  rewrite <- !app_assoc, (lock_loop_app _ _ _ vs _ _ _ (le_n _) E). eexists _, _. split; [done|]. cbn [inputs].
  exists ws, rest. split_and!; [done | cbn in Hl; lia | done].
Qed.
Lemma switch_on_total c st s : exists s', switch_on c st s = Some (tt, s') /\ inputs s' = inputs s.
Proof. destruct (switch_on_runs c st s) as (s' & (E & _) & Hi). by exists s'. Qed.
Lemma update_total c d st s n : waits_answered c (S n) (inputs s) ->
  exists s', clock_control_tt_bh_update c d st s = Some (with_settings d st, s') /\ waits_answered c n (inputs s').
Proof.
  intros Hw. destruct (power_up_total c st s n Hw) as (ret & s1 & E1 & H1). destruct (switch_on_total c st s1) as (s2 & E2 & Hi).
  exists s2. rewrite Hi. split; [|done]. unfold clock_control_tt_bh_update. by rewrite IO_bind_unfold, E1, IO_bind_unfold, E2.
Qed.
Lemma counters_total c s : exists s', clock_control_enable_clk_counters c s = Some (tt, s') /\ inputs s' = inputs s.
Proof. unfold clock_control_enable_clk_counters. cc_simpl. by eexists. Qed.

(** Every operation returns. *)
Definition returns {A} c d (m : IO (A * clock_control_tt_bh_data)) s (n : nat) : Prop :=
  exists r s', m s = Some (r, s') /\ refdiv_ok c r.2 /\ waits_answered c n (inputs s').
Lemma returns_now {A} c d (x : A) s n : refdiv_ok c d -> waits_answered c (S n) (inputs s) ->
  returns c d (mret (x, d)) s n.
Proof. intros Hd Hw. eexists _, _. split; [done|]. split; [done | by apply waits_fewer]. Qed.
Lemma returns_update {A} c d st (x : A) s n : refdiv_ok c (with_settings d st) -> waits_answered c (S n) (inputs s) ->
  returns c d (d' ← clock_control_tt_bh_update c d st; mret (x, d')) s n.
Proof.
  intros Hd Hw. destruct (update_total c d st s n Hw) as (s' & E & Hw'). exists (x, with_settings d st), s'.
  by rewrite IO_bind_unfold, E.
Qed.
Lemma enable_returns c d clock b s n : refdiv_ok c d -> waits_answered c (S n) (inputs s) ->
  returns c d (clock_control_tt_bh_enable c d clock b) s n.
Proof.
  intros Hd Hw. unfold clock_control_tt_bh_enable. destruct (l2cpu_index clock); [|by apply returns_now].
  by apply returns_update.
Qed.
Lemma set_rate_gddr_returns c d rate s n : config_ok c -> refdiv_ok c d -> waits_answered c (S n) (inputs s) ->
  returns c d (set_rate_gddr c d rate) s n.
Proof.
  intros [_ Hc] [Hd0 Hd] Hw. unfold set_rate_gddr. cbv zeta.
  destruct (clock_control_tt_bh_calculate_fbdiv _ _ _ _ _ _) as [f|] eqn:E.
  2:{ unfold clock_control_tt_bh_calculate_fbdiv in E. repeat case_match; try done. zb. lia. }
  destruct (f =? 0); [by apply returns_now|]. cbn [set_cntl_1 pll_cntl_1]. rewrite with_fbdiv_refdiv.
  rewrite (proj2 (Z.eqb_neq _ _)) by done. destruct (negb _); [by apply returns_now|].
  apply returns_update; [|done]. split; [done|]. cbn [with_settings settings set_cntl_1 pll_cntl_1]. by rewrite with_fbdiv_refdiv.
Qed.
Lemma op_returns c d op s n : config_ok c -> refdiv_ok c d -> op_fits c op (mem s) -> waits_answered c (S n) (inputs s) ->
  returns c d (run_op c d op) s n.
Proof.
  intros Hc Hd Hf Hw. assert (Hi : refdiv_ok c (with_settings d (init_settings c))) by (split; apply Hd).
  destruct op as [clock|clock|clock rate|o|]; cbn [run_op].
  1-2: by apply enable_returns.
  - unfold clock_control_tt_bh_set_rate. destruct (lock d); [by apply returns_now|].
    destruct clock; try by apply returns_now.
    + destruct (set_rate_aiclk_runs c d rate s Hf) as (es & s' & (E & _) & _ & Hi'). exists (0, d), s'.
      split; [done|]. split; [done|]. rewrite Hi'. by apply waits_fewer.
    + by apply set_rate_gddr_returns.
    + destruct (update_total c d (init_settings c) s n Hw) as (s1 & E1 & H1). destruct (counters_total c s1) as (s2 & E2 & Hi2).
      eexists (0, _), s2. rewrite IO_bind_unfold, E1, IO_bind_unfold, E2, Hi2. by split.
  - unfold clock_control_tt_bh_configure. destruct (lock d), o; eexists (_, d), _; cc_simpl; (split; [done|]); (split; [done|]);
      by apply waits_fewer.
  - unfold clock_control_tt_bh_init. destruct (lock d); [by apply returns_now|].
    destruct (power_up_total c (init_settings c) s n Hw) as (ret & s1 & E1 & H1). unfold returns. rewrite IO_bind_unfold, E1.
    destruct (ret <? 0); [by eexists (_, _), s1|]. destruct (switch_on_total c (init_settings c) s1) as (s2 & E2 & H2).
    destruct (counters_total c s2) as (s3 & E3 & H3). eexists (_, _), s3.
    by rewrite IO_bind_unfold, E2, IO_bind_unfold, E3, H3, H2.
Qed.
Lemma op_clean c d op s r s' : config_ok c -> op_fits c op (mem s) -> run_op c d op s = Some (r, s') ->
  exists es, runs (run_op c d op) s es r s' /\ glitch_free c (mem s) es = true.
Proof.
  intros Hc Hf E. assert (Hcl : (exists rate, op = SetRateOp CLOCK_CONTROL_TT_BH_CLOCK_AICLK rate /\ lock d = false) \/ clean c (run_op c d op)).
  { unfold run_op, clock_control_tt_bh_on, clock_control_tt_bh_off. destruct op as [| |clock rate| |]; try (right; solve [eauto 6 with fw]).
    destruct (decide (clock = CLOCK_CONTROL_TT_BH_CLOCK_AICLK)) as [->|]; [|right; eauto with fw].
    destruct (lock d) eqn:El; [right|left; by exists rate]. unfold clock_control_tt_bh_set_rate. rewrite El. auto with fw. }
  destruct Hcl as [(rate & -> & El)|Hcl]; [|by apply Hcl].
  destruct (set_rate_aiclk_runs c d rate s Hf) as (es & s2 & R & G & _).
  assert (Er : run_op c d (SetRateOp CLOCK_CONTROL_TT_BH_CLOCK_AICLK rate) = set_rate_aiclk c d rate)
    by (cbn [run_op]; unfold clock_control_tt_bh_set_rate; by rewrite El).
  rewrite Er in E |- *. pose proof R as (E2 & _). rewrite E2 in E. injection E as <- <-. by exists es.
Qed.

(** C34. Whatever sequence of requests a PLL device receives, from whatever state of its registers:
    the requests all return, and every register write happens in a state in which the hardware
    tolerates it. The dividers change only in a PLL that is bypassed and switched off, and the
    post-dividers only when bypassed and disabled, with the one exception of the feedback divider of a
    PLL in use, which moves in steps of one and stays above zero; power changes only under bypass, and
    bypass ends only when the PLL was powered before. The conditions: each rate requested for the AICLK
    needs, at the dividers found when it is requested, a feedback divider from 1 to 65535 (beyond, the
    loop never ends and wraps the divider of the running PLL to zero); the reference divider of the
    settings is not zero; and each wait for a lock ends, by the lock or its time-out. *)
Theorem clock_ops_glitch_free c d (ops : list clock_op) s
    (Hc : config_ok c) (Hd : refdiv_ok c d) (Hfit : rates_fit c d ops s)
    (Hwaits : waits_answered c (length ops) (inputs s)) :
  exists d' s' es, run_ops c d ops s = Some (d', s') /\
    trace s' = trace s ++ es /\ glitch_free c (mem s) es = true /\ mem s' = foldl ev_mem (mem s) es.
Proof.
  enough (G : exists d' s' es, runs (run_ops c d ops) s es d' s' /\ glitch_free c (mem s) es = true).
  { destruct G as (d' & s' & es & (E & Ht & Hm) & G). by exists d', s', es. }
  revert d s Hd Hfit Hwaits. induction ops as [|op ops IH]; intros d s Hd Hfit Hw; cbn [run_ops].
  - exists d, s, []. split; [apply runs_ret | done].
  - destruct Hfit as [Hop Hrest]. destruct (op_returns c d op s _ Hc Hd Hop Hw) as (r & s1 & E & Hd1 & Hw1).
    rewrite E in Hrest. destruct (op_clean c d op s r s1 Hc Hop E) as (es & R & G).
    destruct (IH r.2 s1 Hd1 Hrest Hw1) as (d' & s' & es' & R' & G'). exists d', s', (es ++ es').
    split; [by eapply runs_bind|]. destruct R as (_ & _ & Hm). by rewrite glitch_free_app, G, <- Hm, G'.
Qed.

(** * Frequencies *)
Definition eff_postdiv c (m : Z -> Z) (i : Z) : Z :=
  clock_control_tt_bh_get_ext_postdiv i (m (base c + PLL_CNTL_5_OFFSET))
    (m (base c + PLL_USE_POSTDIV_OFFSET)).
(** What [fbdiv] is divided by on the way to output [i]. *)
Definition divider c (m : Z -> Z) (i : Z) : Z :=
  refdiv (m (base c + PLL_CNTL_1_OFFSET)) * eff_postdiv c m i.
(** The frequency of output [i], rounded up. *)
Definition hw_freq c (m : Z -> Z) (i : Z) : Z :=
  - (- (refclk_rate c * fbdiv (m (base c + PLL_CNTL_1_OFFSET))) / divider c m i).

Lemma eff_postdiv_range c m i : 0 <= i -> 0 <= eff_postdiv c m i <= 512.
Proof.
  intros Hi. unfold eff_postdiv, clock_control_tt_bh_get_ext_postdiv, postdiv.
  pose proof (field_range (m (base c + PLL_CNTL_5_OFFSET)) (8 * i) 8 ltac:(lia)) as H.
  change (2 ^ 8) with 256 in H. repeat case_match; zb; lia.
Qed.
Lemma refdiv_range v : 0 <= refdiv v < 256.
Proof. apply (field_range v 0 8). lia. Qed.

Lemma get_freq_value c i s :
  config_ok c -> 0 <= i -> 0 < divider c (mem s) i ->
  clock_control_tt_bh_get_freq c i s
  = Some (refclk_rate c * fbdiv (mem s (base c + PLL_CNTL_1_OFFSET)) / divider c (mem s) i, s).
Proof.
  intros [_ Hr] Hi. unfold divider. pose proof (eff_postdiv_range c (mem s) i Hi) as He.
  unfold eff_postdiv in *. unfold clock_control_tt_bh_get_freq. cc_simpl.
  set (e := clock_control_tt_bh_get_ext_postdiv _ _ _) in *.
  pose proof (refdiv_range (mem s (base c + PLL_CNTL_1_OFFSET))) as Hd.
  pose proof (fbdiv_range (mem s (base c + PLL_CNTL_1_OFFSET))) as Hf. intros Hpos.
  rewrite (proj2 (Z.eqb_neq e 0)) by nia.
  rewrite !wrap_id; unfold in_width; [| nia..].
  by rewrite (proj2 (Z.eqb_neq _ 0)) by nia.
Qed.

Lemma calculate_fbdiv_value c m rate i :
  0 < refclk_rate c < 2 ^ 16 -> 0 <= i -> 0 <= rate -> 0 < divider c m i ->
  rate * divider c m i < refclk_rate c * 65536 ->
  clock_control_tt_bh_calculate_fbdiv (refclk_rate c) rate (m (base c + PLL_CNTL_1_OFFSET))
    (m (base c + PLL_CNTL_5_OFFSET)) (m (base c + PLL_USE_POSTDIV_OFFSET)) i
  = Some (rate * divider c m i / refclk_rate c).
Proof.
  intros Hr Hi Hrate. unfold divider. pose proof (eff_postdiv_range c m i Hi) as He.
  unfold eff_postdiv in *. unfold clock_control_tt_bh_calculate_fbdiv.
  set (e := clock_control_tt_bh_get_ext_postdiv _ _ _) in *.
  pose proof (refdiv_range (m (base c + PLL_CNTL_1_OFFSET))) as Hd.
  set (r := refdiv _) in *. intros Hpos Hb.
  assert (0 < e /\ 0 < r) as [? ?] by nia. assert (0 <= rate * r <= rate * (r * e)) by nia.
  rewrite (proj2 (Z.eqb_neq e 0)), (proj2 (Z.eqb_neq (refclk_rate c) 0)) by lia.
  assert (rate * r * e = rate * (r * e)) as Ha by ring.
  rewrite (wrap_id 32 (rate * r)), Ha, wrap_id; [done | unfold in_width; lia..].
Qed.

Definition only_cntl_1 c (m m' : Z -> Z) : Prop :=
  forall a, a <> base c + PLL_CNTL_1_OFFSET -> m' a = m a.
Definition between (a b x : Z) : Prop := Z.min a b <= x <= Z.max a b.

Lemma only_cntl_1_divider c m m' i :
  only_cntl_1 c m m' ->
  refdiv (m' (base c + PLL_CNTL_1_OFFSET)) = refdiv (m (base c + PLL_CNTL_1_OFFSET)) ->
  divider c m' i = divider c m i.
Proof.
  intros H Hr. unfold divider, eff_postdiv. rewrite Hr, !H by (offsets; lia). done.
Qed.

(** The states of the walk only differ in [fbdiv], which stays between start and
    target. *)
Lemma walk_states c n target m0 m :
  let v := m (base c + PLL_CNTL_1_OFFSET) in
  let v0 := m0 (base c + PLL_CNTL_1_OFFSET) in
  0 <= target < 65536 -> (n <= distance target v)%nat ->
  only_cntl_1 c m0 m -> refdiv v = refdiv v0 -> between (fbdiv v0) target (fbdiv v) ->
  Forall (λ m', only_cntl_1 c m0 m' /\
    refdiv (m' (base c + PLL_CNTL_1_OFFSET)) = refdiv v0 /\
    between (fbdiv v0) target (fbdiv (m' (base c + PLL_CNTL_1_OFFSET))))
    (mem_states m (walk_events c (walk n target v))).
Proof.
  intros v v0 Ht. subst v. revert m. induction n as [|n IH]; intros m Hn Ho Hr Hb.
  { constructor; [done | constructor]. }
  set (v := m _) in *.
  assert (fbdiv v <> target) as Hne by (unfold distance in Hn; lia).
  pose proof (fbdiv_step_fbdiv target v Ht Hne) as Hstep.
  rewrite (distance_step _ _ Ht Hne) in Hn. cbn [walk].
  change (walk_events c (?x :: ?l))
    with (Wr (base c + PLL_CNTL_1_OFFSET) x :: Delay 100 :: walk_events c l).
  cbn [mem_states ev_mem]. set (m1 := <[_ := _]> m).
  assert (m1 (base c + PLL_CNTL_1_OFFSET) = fbdiv_step target v) as Hm1 by (subst m1; by mem_simpl).
  assert (only_cntl_1 c m0 m1 /\ refdiv (m1 (base c + PLL_CNTL_1_OFFSET)) = refdiv v0 /\
    between (fbdiv v0) target (fbdiv (m1 (base c + PLL_CNTL_1_OFFSET)))) as (Ho1 & Hr1 & Hb1).
  { rewrite Hm1. split_and!.
    - intros a Ha. subst m1. rewrite fn_lookup_insert_ne by done. by apply Ho.
    - rewrite <- Hr. apply fbdiv_step_low. lia.
    - rewrite Hstep. unfold between in *. case_match; zb; lia. }
  constructor; [done|]. constructor; [done|]. rewrite <- Hm1. apply IH; try done.
  rewrite Hm1. lia.
Qed.

Lemma walk_end c n target m :
  let v := m (base c + PLL_CNTL_1_OFFSET) in
  0 <= target < 65536 -> n = distance target v ->
  let m' := foldl ev_mem m (walk_events c (walk n target v)) in
  fbdiv (m' (base c + PLL_CNTL_1_OFFSET)) = target /\
  refdiv (m' (base c + PLL_CNTL_1_OFFSET)) = refdiv v /\ only_cntl_1 c m m'.
Proof.
  intros v Ht. subst v. revert m. induction n as [|n IH]; intros m Hn; cbn zeta.
  { split_and!; [|done|done]. cbn. unfold distance in Hn. lia. }
  set (v := m _) in *.
  assert (fbdiv v <> target) as Hne by (unfold distance in Hn; lia).
  rewrite (distance_step _ _ Ht Hne) in Hn. cbn [walk].
  change (walk_events c (?x :: ?l))
    with (Wr (base c + PLL_CNTL_1_OFFSET) x :: Delay 100 :: walk_events c l).
  cbn [foldl ev_mem]. set (m1 := <[_ := _]> m).
  assert (m1 (base c + PLL_CNTL_1_OFFSET) = fbdiv_step target v) as Hm1 by (subst m1; by mem_simpl).
  rewrite <- Hm1. destruct (IH m1) as (H1 & H2 & H3); [rewrite Hm1; lia|]. split_and!; [done| |].
  - rewrite H2, Hm1. apply fbdiv_step_low. lia.
  - intros a Ha. rewrite H3 by done. subst m1. by rewrite fn_lookup_insert_ne.
Qed.

(** ** Setting the AI clock *)
Lemma hw_freq_mono c m m' i :
  config_ok c -> divider c m' i = divider c m i -> 0 < divider c m i ->
  fbdiv (m (base c + PLL_CNTL_1_OFFSET)) <= fbdiv (m' (base c + PLL_CNTL_1_OFFSET)) ->
  hw_freq c m i <= hw_freq c m' i.
Proof.
  intros [_ Hr] Hd Hpos Hf. unfold hw_freq. rewrite Hd. apply Z.opp_le_mono.
  rewrite !Z.opp_involutive. apply Z.div_le_mono; [done|]. nia.
Qed.

(** The divider computed for a rate gives at most that rate, and less than one
    step of the divider below it. *)
Lemma fbdiv_rate ref div rate :
  0 < ref -> 0 < div -> 0 <= rate ->
  let f := rate * div / ref in
  ref * f <= rate * div < ref * f + ref /\
  rate - ref / div - 1 <= ref * f / div <= rate /\
  rate - ref / div - 1 <= - (- (ref * f) / div) <= rate.
Proof.
  intros Hr Hd Hrate f.
  assert (ref * f <= rate * div < ref * f + ref) as Hf.
  { subst f. pose proof (Z.div_mod (rate * div) ref ltac:(lia)).
    pose proof (Z.mod_pos_bound (rate * div) ref Hr). lia. }
  pose proof (Z.div_mod ref div ltac:(lia)). pose proof (Z.mod_pos_bound ref div Hd).
  pose proof (Z.div_mod (ref * f) div ltac:(lia)). pose proof (Z.mod_pos_bound (ref * f) div Hd).
  pose proof (Z.div_mod (- (ref * f)) div ltac:(lia)).
  pose proof (Z.mod_pos_bound (- (ref * f)) div Hd).
  set (q := ref * f / div) in *. set (q' := - (ref * f) / div) in *. set (k := ref / div) in *.
  split_and!; nia.
Qed.

Lemma set_rate_aiclk_ok c d (rate : Z) (s : io) :
  config_ok c -> 0 <= rate -> 0 < divider c (mem s) 0 ->
  rate * divider c (mem s) 0 < refclk_rate c * 65536 ->
  exists es s',
    runs (set_rate_aiclk c d rate) s es (0, d) s' /\ inputs s' = inputs s /\
    fbdiv (mem s' (base c + PLL_CNTL_1_OFFSET)) = rate * divider c (mem s) 0 / refclk_rate c /\
    divider c (mem s') 0 = divider c (mem s) 0 /\
    Forall (λ m, divider c m 0 = divider c (mem s) 0 /\
      between (hw_freq c (mem s) 0) (hw_freq c (mem s') 0) (hw_freq c m 0))
      (mem_states (mem s) es).
Proof.
  intros Hc Hrate Hd Hb. pose proof Hc as [_ Hr].
  pose proof (calculate_fbdiv_value c (mem s) rate 0 Hr ltac:(lia) Hrate Hd Hb) as Hcalc.
  set (t := rate * _ / _) in *.
  assert (0 <= t < 65536) as Ht.
  { subst t. split; [apply Z.div_pos; nia | apply Z.div_lt_upper_bound; lia]. }
  set (v := mem s (base c + PLL_CNTL_1_OFFSET)).
  destruct (fbdiv_loop_runs (distance t v) c t v s Ht (le_n _)) as (s' & R & Hi).
  exists (walk_events c (walk (distance t v) t v)), s'.
  destruct R as (E & Htr & Hm).
  destruct (walk_end c (distance t v) t (mem s) Ht eq_refl) as (Hf & Hrd & Ho).
  fold v in Hf, Hrd, Ho. rewrite <- Hm in Hf, Hrd, Ho.
  assert (divider c (mem s') 0 = divider c (mem s) 0) as Hd' by by apply only_cntl_1_divider.
  split_and!; try done.
  - split; [|done]. unfold set_rate_aiclk. cc_simpl. rewrite Hcalc. fold v.
    change (Z.to_nat (Z.abs (t - fbdiv v))) with (distance t v). by rewrite E.
  - eapply Forall_impl; cycle 1.
    { apply (walk_states c (distance t v) t (mem s) (mem s)); try done. unfold between. lia. }
    cbn beta. intros m (Hom & Hrm & Hbm).
    assert (divider c m 0 = divider c (mem s) 0) as Hdm by by apply only_cntl_1_divider.
    split; [done|]. unfold between in *. rewrite <- Hf in Hbm.
    destruct (Z.le_ge_cases (fbdiv (mem s (base c + PLL_CNTL_1_OFFSET)))
                (fbdiv (mem s' (base c + PLL_CNTL_1_OFFSET)))).
    + pose proof (hw_freq_mono c (mem s) m 0 Hc Hdm Hd ltac:(lia)).
      pose proof (hw_freq_mono c m (mem s') 0 Hc ltac:(congruence) ltac:(lia) ltac:(lia)). lia.
    + pose proof (hw_freq_mono c m (mem s) 0 Hc ltac:(congruence) ltac:(lia) ltac:(lia)).
      pose proof (hw_freq_mono c (mem s') m 0 Hc ltac:(congruence) ltac:(lia) ltac:(lia)). lia.
Qed.

(** Setting the AI clock: the call returns; the rate read back is at most the
    requested one and less than a divider step plus one below it; and at no moment
    does the clock leave the interval between its old and its new frequency. *)
Theorem set_rate_get_rate c d (rate : Z) (s : io)
    (Hc : config_ok c) (Hlock : lock d = false) (Hrate : 0 <= rate)
    (Hdiv : 0 < divider c (mem s) 0)
    (Hrange : rate * divider c (mem s) 0 < refclk_rate c * 65536) :
  exists es s' f,
    clock_control_tt_bh_set_rate c d CLOCK_CONTROL_TT_BH_CLOCK_AICLK rate s = Some ((0, d), s') /\
    clock_control_tt_bh_get_rate c d CLOCK_CONTROL_TT_BH_CLOCK_AICLK s' = Some ((0, Some f), s') /\
    rate - refclk_rate c / divider c (mem s) 0 - 1 <= f <= rate /\
    trace s' = trace s ++ es /\
    Forall (λ m, between (hw_freq c (mem s) 0) (hw_freq c (mem s') 0) (hw_freq c m 0))
      (mem_states (mem s) es).
Proof.
  destruct (set_rate_aiclk_ok c d rate s Hc Hrate Hdiv Hrange)
    as (es & s' & (E & Ht & _) & _ & Hf & Hd & Hall).
  pose proof (fbdiv_rate _ _ _ (proj1 (proj2 Hc)) Hdiv Hrate) as (_ & Hfr & _).
  exists es, s', (refclk_rate c * fbdiv (mem s' (base c + PLL_CNTL_1_OFFSET))
                  / divider c (mem s') 0).
  split_and!; try done.
  - unfold clock_control_tt_bh_set_rate. by rewrite Hlock.
  - unfold clock_control_tt_bh_get_rate. rewrite Hlock. cbn [rate_index].
    rewrite IO_bind_unfold, get_freq_value by (done || lia). done.
  - rewrite Hf, Hd. apply Hfr.
  - rewrite Hf, Hd. apply Hfr.
  - eapply Forall_impl; [|exact Hall]. by intros m [].
Qed.

(** ** Setting the memory clock *)
Lemma update_final c d st s d' s' :
  clock_control_tt_bh_update c d st s = Some (d', s') ->
  d' = with_settings d st /\
  mem s' (base c + PLL_CNTL_1_OFFSET) = pll_cntl_1 st /\
  mem s' (base c + PLL_CNTL_5_OFFSET) = pll_cntl_5 st /\
  mem s' (base c + PLL_USE_POSTDIV_OFFSET) = use_postdiv st /\
  mem s' (base c + PLL_CNTL_0_OFFSET) = with_bypass (with_pd 0 1) 1.
Proof.
  unfold clock_control_tt_bh_update.
  intros (ret & s1 & H1 & (u & s2 & H2 & [= <- <-])%IO_bind_Some)%IO_bind_Some.
  destruct (switch_on_runs c st s1) as (s2' & (E & _ & Hm2) & _).
  rewrite E in H2. injection H2 as _ <-.
  destruct (power_up_runs _ _ _ _ _ H1) as (_ & _ & Hm1).
  rewrite Hm2, Hm1. unfold power_up_events, switch_on_events. cbn [foldl ev_mem].
  offsets. mem_simpl. done.
Qed.

Lemma calculate_fbdiv_small c rate v1 v5 use i f :
  config_ok c -> 0 <= i -> 0 <= rate -> rate * (refdiv v1 * 512) < refclk_rate c * 65536 ->
  clock_control_tt_bh_calculate_fbdiv (refclk_rate c) rate v1 v5 use i = Some f -> f < 65536.
Proof.
  intros [_ Hr] Hi Hrate Hs. unfold clock_control_tt_bh_calculate_fbdiv.
  case_match; [by intros [= <-]|]. case_match; [done|]. intros [= <-].
  set (e := clock_control_tt_bh_get_ext_postdiv _ _ _) in *.
  assert (0 <= e <= 512) as He.
  { subst e. unfold clock_control_tt_bh_get_ext_postdiv, postdiv.
    pose proof (field_range v5 (8 * i) 8 ltac:(lia)) as H'. change (2 ^ 8) with 256 in H'.
    repeat case_match; zb; lia. }
  pose proof (refdiv_range v1). assert (0 <= rate * refdiv v1) by nia.
  assert (rate * refdiv v1 * e <= rate * (refdiv v1 * 512)) by nia.
  apply Z.div_lt_upper_bound; [lia|].
  rewrite (wrap_id 32 (rate * refdiv v1)), wrap_id by (unfold in_width; nia). lia.
Qed.

(** Setting the memory clock either fails with [EINVAL] or [ERANGE] and changes
    nothing, or leaves the PLL with an oscillator frequency in its legal range and
    a rate at most the requested one. *)
Theorem set_rate_gddr_spec c d (rate r : Z) (d' : clock_control_tt_bh_data) (s s' : io)
    (Hc : config_ok c) (Hlock : lock d = false) (Hrate : 0 <= rate)
    (Hsmall : rate * (refdiv (pll_cntl_1 (settings d)) * 512) < refclk_rate c * 65536)
    (Hrun : clock_control_tt_bh_set_rate c d CLOCK_CONTROL_TT_BH_CLOCK_GDDRMEMCLK rate s
            = Some ((r, d'), s')) :
  ((r = - EINVAL \/ r = - ERANGE) /\ d' = d /\ s' = s) \/
  (r = 0 /\
   VCO_MIN_FREQ <= refclk_rate c * fbdiv (mem s' (base c + PLL_CNTL_1_OFFSET))
                   / refdiv (mem s' (base c + PLL_CNTL_1_OFFSET)) <= VCO_MAX_FREQ /\
   exists f, clock_control_tt_bh_get_rate c d' CLOCK_CONTROL_TT_BH_CLOCK_GDDRMEMCLK s'
             = Some ((0, Some f), s') /\ f <= rate).
Proof.
  unfold clock_control_tt_bh_set_rate in Hrun. rewrite Hlock in Hrun.
  unfold set_rate_gddr in Hrun.
  destruct (clock_control_tt_bh_calculate_fbdiv _ _ _ _ _ _) as [f|] eqn:Hcalc; [|done].
  assert (f < 65536) as Hf 
    by (eapply (calculate_fbdiv_small c); [done | | done | done | exact Hcalc]; lia).
  destruct (Z.eqb_spec f 0); [injection Hrun as <- <- <-; auto|].
  cbn [pll_cntl_1 set_cntl_1] in Hrun. rewrite with_fbdiv_refdiv in Hrun.
  set (st := set_cntl_1 _ _) in Hrun. set (rd := refdiv (pll_cntl_1 (settings d))) in *.
  pose proof (refdiv_range (pll_cntl_1 (settings d))) as Hrd. fold rd in Hrd.
  destruct (Z.eqb_spec rd 0); [done|].
  assert (0 <= f) as Hf0 by (eapply calculate_fbdiv_nonneg; [|exact Hcalc]; destruct Hc; lia).
  rewrite with_fbdiv_fbdiv in Hrun by lia. destruct Hc as [Hb Hr].
  rewrite wrap_id in Hrun by (unfold in_width; nia).
  destruct (negb _) eqn:Hvco; [injection Hrun as <- <- <-; auto|]. right.
  apply negb_false_iff in Hvco. zb.
  apply IO_bind_Some in Hrun as (d1 & s1 & Hu & [= <- <- <-]).
  destruct (update_final _ _ _ _ _ _ Hu) as (-> & H1 & H5 & Hu' & _). split; [done|].
  assert (refdiv (mem s1 (base c + PLL_CNTL_1_OFFSET)) = rd
    /\ fbdiv (mem s1 (base c + PLL_CNTL_1_OFFSET)) = f) as [-> Hfb].
  { rewrite H1. subst st. cbn. rewrite with_fbdiv_refdiv, with_fbdiv_fbdiv by lia. done. }
  rewrite Hfb. split; [done|].
  pose proof (eff_postdiv_range c (mem s1) 0 ltac:(lia)) as He.
  assert (divider c (mem s1) 0 = rd * eff_postdiv c (mem s1) 0) as Hd.
  { unfold divider. rewrite H1. subst st. cbn. by rewrite with_fbdiv_refdiv. }
  unfold clock_control_tt_bh_calculate_fbdiv in Hcalc.
  assert (clock_control_tt_bh_get_ext_postdiv 0 (pll_cntl_5 (settings d))
            (use_postdiv (settings d)) = eff_postdiv c (mem s1) 0) as Hep.
  { unfold eff_postdiv. by rewrite H5, Hu'. }
  rewrite Hep in Hcalc. set (e := eff_postdiv _ _ _) in *.
  destruct (Z.eqb_spec e 0); [by injection Hcalc as <-|].
  destruct (Z.eqb_spec (refclk_rate c) 0); [lia|]. fold rd in Hcalc.
  assert (rate * rd * e = rate * (rd * e)) as Ha by ring.
  rewrite (wrap_id 32 (rate * rd)), Ha, wrap_id in Hcalc by (unfold in_width; nia).
  injection Hcalc as <-.
  pose proof (fbdiv_rate (refclk_rate c) (rd * e) rate ltac:(lia) ltac:(nia) Hrate) as (_ & Hq & _).
  eexists. split.
  - unfold clock_control_tt_bh_get_rate. cbn [lock with_settings rate_index]. rewrite Hlock.
    rewrite IO_bind_unfold, get_freq_value; [done | by split | lia | rewrite Hd; nia].
  - rewrite Hfb, Hd. lia.
Qed.

(** ** What goes wrong *)

(** [clock_control_tt_bh_init] returns a lock timeout without releasing its spin
    lock: every later request to set or read a rate or to bypass is refused. *)
Theorem init_timeout_keeps_lock c d s d' s' clock rate o t
    (Hlock : lock d = false)
    (Hrun : clock_control_tt_bh_init c d s = Some ((- ETIMEDOUT, d'), s')) :
  clock_control_tt_bh_set_rate c d' clock rate t = Some ((- EBUSY, d'), t) /\
  clock_control_tt_bh_get_rate c d' clock t = Some ((- EBUSY, None), t) /\
  clock_control_tt_bh_configure c d' o t = Some (- EBUSY, t).
Proof.
  assert (lock d' = true) as Hl.
  { unfold clock_control_tt_bh_init in Hrun. rewrite Hlock in Hrun.
    apply IO_bind_Some in Hrun as (ret & s1 & H1 & H2). case_match; [by injection H2 as _ <- _|].
    by apply IO_bind_Some in H2 as (? & s2 & _ & (? & ? & _ & [=])%IO_bind_Some). }
  unfold clock_control_tt_bh_set_rate, clock_control_tt_bh_get_rate,
    clock_control_tt_bh_configure. by rewrite Hl.
Qed.

(** [clock_control_tt_bh_update] ignores the result of waiting for the lock: a
    request for the memory clock succeeds and ends bypass on a PLL that never
    locked. *)
Theorem update_ignores_lock c d st (m : Z -> Z) (tr : list io_event) :
  exists s', clock_control_tt_bh_update c d st (mk_io m [0; 0; 400] tr)
             = Some (with_settings d st, s') /\
  selected (mem s' (base c + PLL_CNTL_0_OFFSET)) = true.
Proof.
  destruct (clock_control_tt_bh_update c d st (mk_io m [0; 0; 400] tr)) as [[d' s']|] eqn:E.
  - exists s'. destruct (update_final _ _ _ _ _ _ E) as (-> & _ & _ & _ & H0). by rewrite H0.
  - exfalso. revert E. unfold clock_control_tt_bh_update, power_up, switch_on,
      clock_control_tt_bh_config_vco, clock_control_tt_bh_config_ext_postdivs,
      clock_control_tt_bh_wait_lock, poll, polling. cc_simpl.
    cbn [lock_loop]. rewrite Z.bits_0. done.
Qed.

(** A target divider that does not fit the register's 16 bits is never reached: the
    loop of [clock_control_tt_bh_set_rate] does not end, however long it runs. *)
Theorem fbdiv_loop_diverges fuel c (target v : Z) (s : io) (Hbig : 65536 <= target) :
  fbdiv_loop fuel c target v s = None.
Proof.
  destruct (fbdiv_loop fuel c target v s) eqn:E; [|done].
  apply fbdiv_loop_total in E. lia.
Qed.

(** * Concrete devices *)

(** [CLOCK_CONTROL_TT_BH_INIT]: settings from the devicetree properties. *)
Definition dt_settings (refdiv postdiv fbdiv ctrl_bus1 ctrl_bus5 : Z)
    (post_divs use_post_divs : list Z) : tt_bh_pll_settings :=
  {| pll_cntl_1 := refdiv + Z.shiftl postdiv 8 + Z.shiftl fbdiv 16;
     pll_cntl_2 := ctrl_bus1;
     pll_cntl_3 := ctrl_bus5;
     pll_cntl_5 := le_value post_divs;
     use_postdiv := foldr (λ b v, b + 2 * v) 0 use_post_divs |}.
Definition pll0 : clock_control_tt_bh_config :=
  {| inst := 0; refclk_rate := 50; base := 0x80020100;
     init_settings := dt_settings 2 1 128 0x18 1 [3; 0; 0; 0] [1; 1; 1; 1] |}.
Definition pll3 : clock_control_tt_bh_config :=
  {| inst := 3; refclk_rate := 50; base := 0x80020400;
     init_settings := dt_settings 2 1 120 0x18 1 [3; 0; 0; 0] [1; 1; 1; 1] |}.
Definition reset_data c : clock_control_tt_bh_data := {| settings := init_settings c; lock := false |}.
(** Registers of a device whose settings have been applied. *)
Definition running c : Z -> Z := λ a,
  if a =? base c then with_bypass (with_pd 0 1) 1
  else if a =? base c + PLL_CNTL_1_OFFSET then pll_cntl_1 (init_settings c)
  else if a =? base c + PLL_CNTL_5_OFFSET then pll_cntl_5 (init_settings c)
  else if a =? base c + PLL_USE_POSTDIV_OFFSET then use_postdiv (init_settings c)
  else 0.

Lemma config_ok_pll0 : config_ok pll0.
Proof. by vm_compute. Qed.
Lemma config_ok_pll3 : config_ok pll3.
Proof. by vm_compute. Qed.

Lemma clock_ops_glitch_free_witness :
  exists d' s' es,
    run_ops pll0 (reset_data pll0)
      [Init; SetRateOp CLOCK_CONTROL_TT_BH_CLOCK_AICLK 810; Configure CLOCK_CONTROL_TT_BH_CONFIG_BYPASS]
      (mk_io (λ _, 0) [0; 0; 7; 1; 9; 1; 11; 1] []) = Some (d', s') /\
    trace s' = [] ++ es /\ glitch_free pll0 (λ _, 0) es = true /\ mem s' = foldl ev_mem (λ _, 0) es.
Proof.
  apply (clock_ops_glitch_free pll0 (reset_data pll0) _ (mk_io (λ _, 0) [0; 0; 7; 1; 9; 1; 11; 1] []) config_ok_pll0).
  - by split.
  - vm_compute. split_and!; try done; congruence.
  - exists [[0; 0; 7; 1]; [9; 1]; [11; 1]], []. by split_and!; [| |repeat constructor].
Defined.
(** A rate of zero walks the divider of the PLL in use down to zero. *)
Lemma rate_zero_stops_pll :
  match clock_control_tt_bh_set_rate pll0 (reset_data pll0) CLOCK_CONTROL_TT_BH_CLOCK_AICLK 0 (mk_io (running pll0) [] []) with
  | Some ((0, _), s') => fbdiv (mem s' (base pll0 + PLL_CNTL_1_OFFSET)) = 0 /\ selected (mem s' (base pll0)) = true
  | _ => False
  end.
Proof. vm_compute. by split. Qed.

Lemma set_rate_get_rate_witness :
  exists es s' f,
    clock_control_tt_bh_set_rate pll0 (reset_data pll0) CLOCK_CONTROL_TT_BH_CLOCK_AICLK 1000
      (mk_io (running pll0) [] []) = Some ((0, reset_data pll0), s') /\
    clock_control_tt_bh_get_rate pll0 (reset_data pll0) CLOCK_CONTROL_TT_BH_CLOCK_AICLK s'
      = Some ((0, Some f), s') /\
    1000 - 50 / 8 - 1 <= f <= 1000 /\ trace s' = [] ++ es /\
    Forall (λ m, between 800 (hw_freq pll0 (mem s') 0) (hw_freq pll0 m 0))
      (mem_states (running pll0) es).
Proof.
  apply (set_rate_get_rate pll0 (reset_data pll0) 1000 (mk_io (running pll0) [] []));
    [exact config_ok_pll0 | reflexivity | lia | by vm_compute | by vm_compute].
Defined.

Lemma set_rate_gddr_spec_witness :
  exists d' s', clock_control_tt_bh_set_rate pll3 (reset_data pll3)
    CLOCK_CONTROL_TT_BH_CLOCK_GDDRMEMCLK 875 (mk_io (running pll3) [0; 8] []) = Some ((0, d'), s') /\
  (((0 = - EINVAL \/ 0 = - ERANGE) /\ d' = reset_data pll3 /\ s' = mk_io (running pll3) [0; 8] []) \/
  (0 = 0 /\
   VCO_MIN_FREQ <= refclk_rate pll3 * fbdiv (mem s' (base pll3 + PLL_CNTL_1_OFFSET))
                   / refdiv (mem s' (base pll3 + PLL_CNTL_1_OFFSET)) <= VCO_MAX_FREQ /\
   exists f, clock_control_tt_bh_get_rate pll3 d' CLOCK_CONTROL_TT_BH_CLOCK_GDDRMEMCLK s'
             = Some ((0, Some f), s') /\ f <= 875)).
Proof.
  destruct (clock_control_tt_bh_set_rate pll3 (reset_data pll3)
    CLOCK_CONTROL_TT_BH_CLOCK_GDDRMEMCLK 875 (mk_io (running pll3) [0; 8] [])) as [[[r d'] s']|] eqn:E.
  - assert (r = 0) as -> by (vm_compute in E; by injection E). exists d', s'. split; [done|].
    refine (set_rate_gddr_spec pll3 (reset_data pll3) 875 0 d' _ s' config_ok_pll3 _ _ _ E);
      [reflexivity | lia | by vm_compute].
  - vm_compute in E. discriminate.
Defined.

Lemma init_timeout_keeps_lock_witness :
  exists d' s',
    clock_control_tt_bh_init pll0 (reset_data pll0) (mk_io (λ _, 0) [0; 0; 400] [])
      = Some ((- ETIMEDOUT, d'), s') /\
    clock_control_tt_bh_set_rate pll0 d' CLOCK_CONTROL_TT_BH_CLOCK_AICLK 800 s'
      = Some ((- EBUSY, d'), s') /\
    clock_control_tt_bh_get_rate pll0 d' CLOCK_CONTROL_TT_BH_CLOCK_AICLK s'
      = Some ((- EBUSY, None), s') /\
    clock_control_tt_bh_configure pll0 d' CLOCK_CONTROL_TT_BH_CONFIG_BYPASS s'
      = Some (- EBUSY, s').
Proof.
  destruct (clock_control_tt_bh_init pll0 (reset_data pll0) (mk_io (λ _, 0) [0; 0; 400] []))
    as [[[r d'] s']|] eqn:E.
  - assert (r = - ETIMEDOUT) as -> by (vm_compute in E; by injection E). exists d', s'.
    split; [done|]. exact (init_timeout_keeps_lock pll0 (reset_data pll0) _ _ _ _ _ _ _ eq_refl E).
  - vm_compute in E. discriminate.
Defined.
