(* ===== verification/Pll.v ===== *)
(** Start-up of the PLLs: [lib/tenstorrent/bh_arc/pll.c].

    Before the clock devices exist the firmware programs all five PLLs together.
    The register layout and the sequence are those of the driver modelled in
    [ClockControl]; PLL [i] has its registers at [0x80020100 + 0x100 * i]. *)
From stdpp Require Import prelude list numbers functions.
From Stdlib Require Import ZArith Lia QArith.
From S2P Require Import Prelude Io ClockControl Dvfs.
Open Scope Z_scope.

Definition REFCLK_F_MHZ : Z := 50.
Definition WAIT_1US : Z := 50.
Definition PLL_COUNT : Z := 5.
Definition PLL_CNTL_REG_OFFSET : Z := 0x100.
Definition PLL_0_CNTL : Z := 0x80020100.
Definition GET_PLL_CNTL_ADDR (id reg : Z) : Z := PLL_0_CNTL + reg + PLL_CNTL_REG_OFFSET * id.

Definition WaitUs (us : Z) : IO unit := delay_ns (us * 1000).
Definition WaitNs (ns : Z) : IO unit := delay_ns ns.

(** [kPLLInitialSettings]; the fields not named are zero. *)
Definition pll_settings_init (refdiv fbdiv ctrl_bus1 ctrl_bus5 : Z) (postdivs : list Z)
  : tt_bh_pll_settings :=
  {| pll_cntl_1 := refdiv + Z.shiftl fbdiv 16; pll_cntl_2 := ctrl_bus1; pll_cntl_3 := ctrl_bus5;
     pll_cntl_5 := le_value postdivs; use_postdiv := 0xF |}.
Definition kPLLInitialSettings : list tt_bh_pll_settings :=
  [pll_settings_init 2 128 0x18 1 [3; 0; 0; 0];
   pll_settings_init 2 192 0x18 1 [5; 4; 23; 0];
   pll_settings_init 2 68 0x18 1 [1; 0; 0; 0];
   pll_settings_init 2 120 0x18 1 [3; 0; 0; 0];
   pll_settings_init 2 64 0x18 1 [1; 1; 1; 1]].

Definition ConfigPLLVco (pll_num : Z) (st : tt_bh_pll_settings) : IO unit :=
  _ ← WriteReg (GET_PLL_CNTL_ADDR pll_num PLL_CNTL_1_OFFSET) (pll_cntl_1 st);
  _ ← WriteReg (GET_PLL_CNTL_ADDR pll_num PLL_CNTL_2_OFFSET) (pll_cntl_2 st);
  WriteReg (GET_PLL_CNTL_ADDR pll_num PLL_CNTL_3_OFFSET) (pll_cntl_3 st).

Definition ConfigExtPostDivs (pll_num : Z) (st : tt_bh_pll_settings) : IO unit :=
  _ ← WriteReg (GET_PLL_CNTL_ADDR pll_num PLL_USE_POSTDIV_OFFSET) 0;
  _ ← WriteReg (GET_PLL_CNTL_ADDR pll_num PLL_CNTL_5_OFFSET) (pll_cntl_5 st);
  WriteReg (GET_PLL_CNTL_ADDR pll_num PLL_USE_POSTDIV_OFFSET) (use_postdiv st).

Fixpoint WaitPLLLock_loop (pll_num end_time : Z) (vs : list Z) : option (unit * list Z) :=
  match vs with
  | [] => None
  | pll_lock_reg :: vs =>
      if Z.testbit pll_lock_reg pll_num then Some (tt, vs)
      else match vs with
           | [] => None
           | now :: vs =>
               if now <? end_time then WaitPLLLock_loop pll_num end_time vs else Some (tt, vs)
           end
  end.
Definition WaitPLLLock (pll_num : Z) : IO unit :=
  now ← poll; polling (WaitPLLLock_loop pll_num (u64 (now + 400 * WAIT_1US))).

(** [for] loops over the PLLs. *)
Fixpoint for_plls (ids : list Z) (body : Z -> IO unit) : IO unit :=
  match ids with
  | [] => mret tt
  | i :: ids => _ ← body i; for_plls ids body
  end.
Definition plls : list Z := [0; 1; 2; 3; 4].

Definition bypass_pll (i : Z) : IO unit :=
  cntl_0 ← ReadReg (GET_PLL_CNTL_ADDR i PLL_CNTL_0_OFFSET);
  WriteReg (GET_PLL_CNTL_ADDR i PLL_CNTL_0_OFFSET) (with_bypass cntl_0 0).
Definition PLLAllBypass : IO unit :=
  _ ← for_plls plls bypass_pll;
  _ ← WaitUs 3;
  for_plls plls (λ i, WriteReg (GET_PLL_CNTL_ADDR i PLL_USE_POSTDIV_OFFSET) 0).

Definition PLLUpdate (pll : Z) (st : tt_bh_pll_settings) : IO unit :=
  _ ← bypass_pll pll;
  _ ← WaitUs 3;
  _ ← WriteReg (GET_PLL_CNTL_ADDR pll PLL_CNTL_0_OFFSET) 0;
  _ ← ConfigPLLVco pll st;
  _ ← WaitUs 5;
  _ ← WriteReg (GET_PLL_CNTL_ADDR pll PLL_CNTL_0_OFFSET) (with_pd 0 1);
  _ ← WaitPLLLock pll;
  _ ← ConfigExtPostDivs pll st;
  _ ← WaitNs 300;
  _ ← WriteReg (GET_PLL_CNTL_ADDR pll PLL_CNTL_0_OFFSET) (with_bypass (with_pd 0 1) 1);
  WaitNs 300.

Definition enable_clk_counters : IO unit :=
  _ ← WriteReg PLL_CNTL_WRAPPER_REFCLK_PERIOD_REG_ADDR CLK_COUNTER_REFCLK_PERIOD;
  for_plls plls (λ i, WriteReg (GET_PLL_CNTL_ADDR i CLK_COUNTER_EN_OFFSET) 0xff).

Definition no_settings : tt_bh_pll_settings :=
  {| pll_cntl_1 := 0; pll_cntl_2 := 0; pll_cntl_3 := 0; pll_cntl_5 := 0; use_postdiv := 0 |}.
Definition settings_of (i : Z) : tt_bh_pll_settings :=
  default no_settings (zget kPLLInitialSettings i).
(** The build for the chip ([CONFIG_ARC]); the post code is not modelled. *)
Definition PLLInit : IO Z :=
  _ ← for_plls plls bypass_pll;
  _ ← WaitUs 3;
  _ ← for_plls plls (λ i, WriteReg (GET_PLL_CNTL_ADDR i PLL_CNTL_0_OFFSET) 0);
  _ ← for_plls plls (λ i, ConfigPLLVco i (settings_of i));
  _ ← WaitUs 5;
  _ ← for_plls plls (λ i, WriteReg (GET_PLL_CNTL_ADDR i PLL_CNTL_0_OFFSET) (with_pd 0 1));
  _ ← for_plls plls WaitPLLLock;
  _ ← for_plls plls (λ i, ConfigExtPostDivs i (settings_of i));
  _ ← WaitNs 300;
  _ ← for_plls plls (λ i, WriteReg (GET_PLL_CNTL_ADDR i PLL_CNTL_0_OFFSET)
                            (with_bypass (with_pd 0 1) 1));
  _ ← WaitNs 300;
  _ ← enable_clk_counters;
  mret 0.

(** ** Frequencies *)
Definition GetExtPostdiv (postdiv_index cntl_5 use : Z) : Z :=
  let postdiv_value := postdiv cntl_5 postdiv_index in
  if pll_use_postdiv use postdiv_index then
    if postdiv_value =? 0 then 0
    else if postdiv_value <=? 16 then postdiv_value + 1
    else (postdiv_value + 1) * 2
  else 1.
Definition CalculateFreqFromPllRegs (cntl_1 cntl_5 use postdiv_index : Z) : option Z :=
  let eff_postdiv := GetExtPostdiv postdiv_index cntl_5 use in
  if eff_postdiv =? 0 then Some 0
  else if u32 (refdiv cntl_1 * eff_postdiv) =? 0 then None
  else Some (u32 (REFCLK_F_MHZ * fbdiv cntl_1) / u32 (refdiv cntl_1 * eff_postdiv)).
Definition CalculateFbdiv (target_freq_mhz cntl_1 cntl_5 use postdiv_index : Z) : Z :=
  let eff_postdiv := GetExtPostdiv postdiv_index cntl_5 use in
  if eff_postdiv =? 0 then 0
  else u32 (u32 (target_freq_mhz * refdiv cntl_1) * eff_postdiv) / REFCLK_F_MHZ.
Definition GetVcoFreq (cntl_1 : Z) : option Z :=
  if refdiv cntl_1 =? 0 then None
  else Some (u32 (REFCLK_F_MHZ * fbdiv cntl_1) / refdiv cntl_1).
Definition GetFreqFromPll (pll_num postdiv_index : Z) : IO Z :=
  cntl_1 ← ReadReg (GET_PLL_CNTL_ADDR pll_num PLL_CNTL_1_OFFSET);
  cntl_5 ← ReadReg (GET_PLL_CNTL_ADDR pll_num PLL_CNTL_5_OFFSET);
  use ← ReadReg (GET_PLL_CNTL_ADDR pll_num PLL_USE_POSTDIV_OFFSET);
  match CalculateFreqFromPllRegs cntl_1 cntl_5 use postdiv_index with
  | Some f => mret f
  | None => stuck
  end.
Definition GetAICLK : IO Z := GetFreqFromPll 0 0.
Definition GetARCCLK : IO Z := GetFreqFromPll 1 0.
Definition GetAXICLK : IO Z := GetFreqFromPll 1 1.
Definition GetAPBCLK : IO Z := GetFreqFromPll 1 2.
Definition GetL2CPUCLK (l2cpu_num : Z) : IO Z := GetFreqFromPll 4 l2cpu_num.

Definition SetGddrMemClk (gddr_mem_clk_mhz : Z) : IO Z :=
  let st := pll_settings_init 2 0 0x18 1 [3; 0; 0; 0] in
  let f := CalculateFbdiv gddr_mem_clk_mhz (pll_cntl_1 st) (pll_cntl_5 st) (use_postdiv st) 0 in
  if f =? 0 then mret (-1)
  else
    let st := set_cntl_1 st (with_fbdiv (pll_cntl_1 st) f) in
    match GetVcoFreq (pll_cntl_1 st) with
    | None => stuck
    | Some vco_freq =>
        if negb ((VCO_MIN_FREQ <=? vco_freq) && (vco_freq <=? VCO_MAX_FREQ)) then mret (-1)
        else _ ← PLLUpdate 3 st; mret 0
    end.

(** The two loops of [SetAICLK]; the post-divider's field has eight bits. *)
Fixpoint SetAICLK_fbdiv (fuel : nat) (target cntl_1 : Z) : IO unit :=
  if fbdiv cntl_1 =? target then mret tt
  else match fuel with
       | O => stuck
       | S fuel =>
           let v := if fbdiv cntl_1 <? target then with_fbdiv cntl_1 (fbdiv cntl_1 + 1)
                    else with_fbdiv cntl_1 (fbdiv cntl_1 - 1) in
           _ ← WriteReg (GET_PLL_CNTL_ADDR 0 PLL_CNTL_1_OFFSET) v;
           _ ← WaitNs 100;
           SetAICLK_fbdiv fuel target v
       end.
Fixpoint SetAICLK_postdiv (fuel : nat) (target cntl_5 : Z) : IO unit :=
  if postdiv cntl_5 0 =? target then mret tt
  else match fuel with
       | O => stuck
       | S fuel =>
           let v := if postdiv cntl_5 0 <? target then with_postdiv cntl_5 0 (postdiv cntl_5 0 + 1)
                    else with_postdiv cntl_5 0 (postdiv cntl_5 0 - 1) in
           _ ← WriteReg (GET_PLL_CNTL_ADDR 0 PLL_CNTL_5_OFFSET) v;
           _ ← WaitNs 100;
           SetAICLK_postdiv fuel target v
       end.
Definition SetAICLK (aiclk_in_mhz : Z) : IO unit :=
  let target_fbdiv := u32 (aiclk_in_mhz * 4) / REFCLK_F_MHZ in
  cntl_1 ← ReadReg (GET_PLL_CNTL_ADDR 0 PLL_CNTL_1_OFFSET);
  cntl_5 ← ReadReg (GET_PLL_CNTL_ADDR 0 PLL_CNTL_5_OFFSET);
  _ ← SetAICLK_fbdiv (Z.to_nat (Z.abs (target_fbdiv - fbdiv cntl_1))) target_fbdiv cntl_1;
  SetAICLK_postdiv (Z.to_nat (Z.abs (1 - postdiv cntl_5 0))) 1 cntl_5.

Definition DropAICLK : IO unit :=
  cntl_5 ← ReadReg (GET_PLL_CNTL_ADDR 0 PLL_CNTL_5_OFFSET);
  WriteReg (GET_PLL_CNTL_ADDR 0 PLL_CNTL_5_OFFSET) (with_postdiv cntl_5 0 (postdiv cntl_5 0 + 10)).

(** * Start-up, as each PLL sees it *)

(** The device the driver uses for PLL [i], with the start-up settings. *)
Definition pll_device (i : Z) : clock_control_tt_bh_config :=
  {| inst := i; refclk_rate := REFCLK_F_MHZ; base := PLL_0_CNTL + PLL_CNTL_REG_OFFSET * i;
     init_settings := settings_of i |}.
(** Writes to the registers of a device. *)
Definition own (c : clock_control_tt_bh_config) (e : io_event) : bool :=
  match e with
  | Wr a _ => (base c <=? a) && (a <? base c + PLL_CNTL_REG_OFFSET)
  | Delay _ => false
  end.
Definition own_events c (es : list io_event) : list io_event := List.filter (own c) es.

Definition boot_events (m : Z -> Z) : list io_event :=
  ((λ i, Wr (GET_PLL_CNTL_ADDR i PLL_CNTL_0_OFFSET)
           (with_bypass (m (GET_PLL_CNTL_ADDR i PLL_CNTL_0_OFFSET)) 0)) <$> plls)
  ++ [Delay 3000]
  ++ ((λ i, Wr (GET_PLL_CNTL_ADDR i PLL_CNTL_0_OFFSET) 0) <$> plls)
  ++ (plls ≫= λ i,
        [Wr (GET_PLL_CNTL_ADDR i PLL_CNTL_1_OFFSET) (pll_cntl_1 (settings_of i));
         Wr (GET_PLL_CNTL_ADDR i PLL_CNTL_2_OFFSET) (pll_cntl_2 (settings_of i));
         Wr (GET_PLL_CNTL_ADDR i PLL_CNTL_3_OFFSET) (pll_cntl_3 (settings_of i))])
  ++ [Delay 5000]
  ++ ((λ i, Wr (GET_PLL_CNTL_ADDR i PLL_CNTL_0_OFFSET) (with_pd 0 1)) <$> plls)
  ++ (plls ≫= λ i,
        [Wr (GET_PLL_CNTL_ADDR i PLL_USE_POSTDIV_OFFSET) 0;
         Wr (GET_PLL_CNTL_ADDR i PLL_CNTL_5_OFFSET) (pll_cntl_5 (settings_of i));
         Wr (GET_PLL_CNTL_ADDR i PLL_USE_POSTDIV_OFFSET) (use_postdiv (settings_of i))])
  ++ [Delay 300]
  ++ ((λ i, Wr (GET_PLL_CNTL_ADDR i PLL_CNTL_0_OFFSET) (with_bypass (with_pd 0 1) 1)) <$> plls)
  ++ [Delay 300]
  ++ [Wr PLL_CNTL_WRAPPER_REFCLK_PERIOD_REG_ADDR CLK_COUNTER_REFCLK_PERIOD]
  ++ ((λ i, Wr (GET_PLL_CNTL_ADDR i CLK_COUNTER_EN_OFFSET) 0xff) <$> plls).

(** A loop whose body's events do not depend on the state. *)
Lemma for_plls_runs ids body (f : Z -> list io_event) s :
  (forall i s, exists s', runs (body i) s (f i) tt s') ->
  exists s', runs (for_plls ids body) s (ids ≫= f) tt s'.
Proof.
  intros Hb. revert s. induction ids as [|i ids IH]; intros s; cbn.
  - exists s. apply runs_ret.
  - destruct (Hb i s) as (s1 & R1), (IH s1) as (s2 & R2). exists s2. by eapply runs_bind.
Qed.

Lemma wait_lock_runs i s u s' :
  WaitPLLLock i s = Some (u, s') -> trace s' = trace s /\ mem s' = mem s.
Proof.
  unfold WaitPLLLock, poll, polling. io_simpl. destruct (inputs s); [done|]. io_simpl.
  destruct (WaitPLLLock_loop _ _ _) as [[]|]; [|done]. by intros [= <- <-].
Qed.
Lemma wait_locks_runs ids s u s' :
  for_plls ids WaitPLLLock s = Some (u, s') -> runs (for_plls ids WaitPLLLock) s [] u s'.
Proof.
  intros H. split; [done|]. rewrite app_nil_r. cbn. revert s H.
  induction ids as [|i ids IH]; intros s; cbn [for_plls].
  - by intros [= <- <-].
  - intros (u1 & s1 & [H1 H2]%wait_lock_runs & H)%IO_bind_Some.
    destruct (IH _ H) as [-> ->]. by rewrite H1, H2.
Qed.

Lemma bypass_all_runs s :
  exists s', runs (for_plls plls bypass_pll) s
    ((λ i, Wr (GET_PLL_CNTL_ADDR i PLL_CNTL_0_OFFSET)
       (with_bypass (mem s (GET_PLL_CNTL_ADDR i PLL_CNTL_0_OFFSET)) 0)) <$> plls) tt s'.
Proof.
  eexists. unfold plls, for_plls, bypass_pll. split; [|split].
  - io_simpl. reflexivity.
  - io_simpl. unfold GET_PLL_CNTL_ADDR, PLL_0_CNTL, PLL_CNTL_REG_OFFSET. mem_simpl.
    by rewrite <- !app_assoc.
  - io_simpl. unfold GET_PLL_CNTL_ADDR, PLL_0_CNTL, PLL_CNTL_REG_OFFSET. by mem_simpl.
Qed.

Lemma config_vco_runs i st s : exists s', runs (ConfigPLLVco i st) s
  [Wr (GET_PLL_CNTL_ADDR i PLL_CNTL_1_OFFSET) (pll_cntl_1 st);
   Wr (GET_PLL_CNTL_ADDR i PLL_CNTL_2_OFFSET) (pll_cntl_2 st);
   Wr (GET_PLL_CNTL_ADDR i PLL_CNTL_3_OFFSET) (pll_cntl_3 st)] tt s'.
Proof.
  unfold runs, ConfigPLLVco. io_simpl. eexists. split_and!; [done| |done].
  io_simpl. by rewrite <- !app_assoc.
Qed.
Lemma config_postdivs_runs i st s : exists s', runs (ConfigExtPostDivs i st) s
  [Wr (GET_PLL_CNTL_ADDR i PLL_USE_POSTDIV_OFFSET) 0;
   Wr (GET_PLL_CNTL_ADDR i PLL_CNTL_5_OFFSET) (pll_cntl_5 st);
   Wr (GET_PLL_CNTL_ADDR i PLL_USE_POSTDIV_OFFSET) (use_postdiv st)] tt s'.
Proof.
  unfold runs, ConfigExtPostDivs. io_simpl. eexists. split_and!; [done| |done].
  io_simpl. by rewrite <- !app_assoc.
Qed.
Lemma write_all_runs (a v : Z -> Z) s :
  exists s', runs (for_plls plls (λ i, WriteReg (a i) (v i))) s
    ((λ i, Wr (a i) (v i)) <$> plls) tt s'.
Proof.
  destruct (for_plls_runs plls (λ i, WriteReg (a i) (v i)) (λ i, [Wr (a i) (v i)]) s)
    as (s' & R); [intros; eexists; apply runs_write|]. by exists s'.
Qed.

Lemma always_bind {A B} (m : IO A) (f : A -> IO B) s r s' (P : Prop) :
  (forall x s1, f x s1 = Some (r, s') -> P) -> (m ≫= f) s = Some (r, s') -> P.
Proof. intros Hf (x & s1 & _ & H)%IO_bind_Some. eauto. Qed.

Lemma boot_runs s r s' :
  PLLInit s = Some (r, s') -> r = 0 /\ runs PLLInit s (boot_events (mem s)) r s'.
Proof.
  intros H. assert (r = 0) as ->.
  { revert H. unfold PLLInit. do 12 (apply always_bind; intros ? ?). by intros [= <-]. }
  split; [done|]. revert H. unfold PLLInit, boot_events.
  destruct (bypass_all_runs s) as (s1 & R1). eapply runs_step; [exact R1|].
  eapply runs_step; [apply runs_delay|].
  edestruct (write_all_runs (λ i, GET_PLL_CNTL_ADDR i PLL_CNTL_0_OFFSET) (λ _, 0))
    as (s3 & R3). eapply runs_step; [exact R3|].
  edestruct (for_plls_runs plls (λ i, ConfigPLLVco i (settings_of i))) as (s4 & R4);
    [intros i t; apply (config_vco_runs i (settings_of i))|].
  eapply runs_step; [exact R4|]. eapply runs_step; [apply runs_delay|].
  edestruct (write_all_runs (λ i, GET_PLL_CNTL_ADDR i PLL_CNTL_0_OFFSET) (λ _, with_pd 0 1))
    as (s6 & R6). eapply runs_step; [exact R6|].
  intros H. rewrite <- (app_nil_l (_ ++ _)).
  pose proof H as (u & s7 & R7%wait_locks_runs & _)%IO_bind_Some.
  revert H. eapply runs_step; [exact R7|].
  edestruct (for_plls_runs plls (λ i, ConfigExtPostDivs i (settings_of i))) as (s8 & R8);
    [intros i t; apply (config_postdivs_runs i (settings_of i))|].
  eapply runs_step; [exact R8|]. eapply runs_step; [apply runs_delay|].
  edestruct (write_all_runs (λ i, GET_PLL_CNTL_ADDR i PLL_CNTL_0_OFFSET)
    (λ _, with_bypass (with_pd 0 1) 1)) as (s9 & R9). eapply runs_step; [exact R9|].
  eapply runs_step; [apply runs_delay|]. unfold enable_clk_counters.
  edestruct (write_all_runs (λ i, GET_PLL_CNTL_ADDR i CLK_COUNTER_EN_OFFSET) (λ _, 0xff))
    as (s11 & R11).
  eapply runs_then_ret. eapply runs_bind; [apply runs_write | exact R11].
Qed.

(** ** Only a device's own events matter to it *)
Lemma allowed_own c m m' e :
  (forall o, 0 <= o < PLL_CNTL_REG_OFFSET -> m (base c + o) = m' (base c + o)) ->
  allowed c m e = (negb (own c e) || allowed c m' e).
Proof.
  intros Hm. destruct e as [a v|]; [|done]. unfold allowed, own, PLL_CNTL_REG_OFFSET in *.
  offsets. destruct (Z.leb_spec (base c) a), (Z.ltb_spec a (base c + 0x100)); cbn [andb negb orb].
  2-4: (lia || (addrs; done)).
  assert (m a = m' a) as Ha by (replace a with (base c + (a - base c)) by lia; apply Hm; lia).
  by rewrite !Hm, Ha by lia.
Qed.

Lemma glitch_free_own c m m' es :
  (forall o, 0 <= o < PLL_CNTL_REG_OFFSET -> m (base c + o) = m' (base c + o)) ->
  glitch_free c m es = glitch_free c m' (own_events c es).
Proof.
  revert m m'. induction es as [|e es IH]; intros m m' Hm; [done|].
  cbn [glitch_free]. unfold own_events in *. cbn [List.filter]. rewrite (allowed_own c m m') by done.
  destruct (own c e) eqn:Ho; cbn [negb orb andb glitch_free].
  - f_equal. apply IH. intros o Hr. destruct e as [a v|]; cbn [ev_mem]; [|by apply Hm].
    destruct (decide (a = base c + o)) as [->|]; [by mem_simpl|].
    rewrite !fn_lookup_insert_ne by done. by apply Hm.
  - apply IH. intros o Hr. destruct e as [a v|]; cbn [ev_mem]; [|by apply Hm].
    unfold own in Ho. rewrite fn_lookup_insert_ne by zlia. by apply Hm.
Qed.

(** What the driver would do to bring up a device. *)
Definition driver_events (c : clock_control_tt_bh_config) (m : Z -> Z) : list io_event :=
  power_up_events c (init_settings c) m ++ switch_on_events c (init_settings c) ++ counter_events c.

Lemma config_ok_device i : i ∈ plls -> config_ok (pll_device i).
Proof.
  intros Hi. unfold plls in Hi. set_unfold in Hi.
  destruct Hi as [->|[->|[->|[->|[->|[]]]]]]; by vm_compute.
Qed.

Lemma own_event i j r v :
  0 <= r < PLL_CNTL_REG_OFFSET ->
  own (pll_device i) (Wr (GET_PLL_CNTL_ADDR j r) v) = (j =? i).
Proof.
  unfold own, pll_device, GET_PLL_CNTL_ADDR, PLL_CNTL_REG_OFFSET. cbn [base]. intros.
  destruct (Z.eqb_spec j i); lia.
Qed.

(** Of a loop over all PLLs, a device sees its own iteration. *)
Lemma own_loop i (rs : list (Z * (Z -> Z))) :
  i ∈ plls -> Forall (λ x, 0 <= x.1 < PLL_CNTL_REG_OFFSET) rs ->
  own_events (pll_device i) (plls ≫= λ j, (λ x, Wr (GET_PLL_CNTL_ADDR j x.1) (x.2 j)) <$> rs)
  = (λ x, Wr (GET_PLL_CNTL_ADDR i x.1) (x.2 i)) <$> rs.
Proof.
  intros Hi Hrs.
  assert (forall j, own_events (pll_device i) ((λ x, Wr (GET_PLL_CNTL_ADDR j x.1) (x.2 j)) <$> rs)
    = if j =? i then (λ x, Wr (GET_PLL_CNTL_ADDR j x.1) (x.2 j)) <$> rs else []) as Hone.
  { intros j. induction Hrs as [|[r v] rs Hr _ IH]; [by case_match|]. unfold own_events in *.
    cbn [fmap list_fmap List.filter fst snd] in *. rewrite own_event, IH by done. by case_match. }
  unfold plls in *. cbn [mbind list_bind]. unfold own_events in *. rewrite !List.filter_app, !Hone.
  set_unfold in Hi. destruct Hi as [->|[->|[->|[->|[->|[]]]]]]; cbn; by rewrite ?app_nil_r.
Qed.
Lemma own_loop1 i r (v : Z -> Z) :
  i ∈ plls -> 0 <= r < PLL_CNTL_REG_OFFSET ->
  own_events (pll_device i) ((λ j, Wr (GET_PLL_CNTL_ADDR j r) (v j)) <$> plls)
  = [Wr (GET_PLL_CNTL_ADDR i r) (v i)].
Proof. intros Hi Hr. apply (own_loop i [(r, v)]); [done | by constructor]. Qed.

Lemma own_loop3 i r1 r2 r3 (v1 v2 v3 : Z -> Z) :
  i ∈ plls -> 0 <= r1 < PLL_CNTL_REG_OFFSET -> 0 <= r2 < PLL_CNTL_REG_OFFSET ->
  0 <= r3 < PLL_CNTL_REG_OFFSET ->
  own_events (pll_device i)
    (plls ≫= λ j, [Wr (GET_PLL_CNTL_ADDR j r1) (v1 j); Wr (GET_PLL_CNTL_ADDR j r2) (v2 j);
                    Wr (GET_PLL_CNTL_ADDR j r3) (v3 j)])
  = [Wr (GET_PLL_CNTL_ADDR i r1) (v1 i); Wr (GET_PLL_CNTL_ADDR i r2) (v2 i);
     Wr (GET_PLL_CNTL_ADDR i r3) (v3 i)].
Proof.
  intros Hi ???. apply (own_loop i [(r1, v1); (r2, v2); (r3, v3)]); [done|].
  by repeat apply Forall_cons_2.
Qed.

Lemma device_addr i r : base (pll_device i) + r = GET_PLL_CNTL_ADDR i r.
Proof. unfold GET_PLL_CNTL_ADDR. cbn. lia. Qed.

Lemma boot_own i m : i ∈ plls ->
  own_events (pll_device i) (boot_events m) = own_events (pll_device i) (driver_events (pll_device i) m).
Proof.
  intros Hi. unfold driver_events, power_up_events, switch_on_events, counter_events, boot_events.
  rewrite !device_addr. unfold own_events.
  rewrite !List.filter_app. change (List.filter (own (pll_device i))) with (own_events (pll_device i)).
  rewrite !own_loop1 by done.
  rewrite (own_loop3 i _ _ _ (λ i, pll_cntl_1 (settings_of i)) (λ i, pll_cntl_2 (settings_of i))
    (λ i, pll_cntl_3 (settings_of i))) by done.
  rewrite (own_loop3 i _ _ _ (λ _, 0) (λ i, pll_cntl_5 (settings_of i))
    (λ i, use_postdiv (settings_of i))) by done.
  unfold own_events. cbn [List.filter app fmap list_fmap fst snd]. rewrite !own_event by done.
  assert (own (pll_device i) (Wr PLL_CNTL_WRAPPER_REFCLK_PERIOD_REG_ADDR CLK_COUNTER_REFCLK_PERIOD)
    = false) as ->.
  { destruct (config_ok_device i Hi) as [Hb _]. unfold own. lia. }
  rewrite Z.eqb_refl. cbn [app init_settings pll_device own]. done.
Qed.

(** ** The registers of a device depend on its own events *)
Lemma foldl_own c m m' es o :
  0 <= o < PLL_CNTL_REG_OFFSET ->
  (forall o, 0 <= o < PLL_CNTL_REG_OFFSET -> m (base c + o) = m' (base c + o)) ->
  foldl ev_mem m es (base c + o) = foldl ev_mem m' (own_events c es) (base c + o).
Proof.
  intros Ho. revert m m'. induction es as [|e es IH]; intros m m' Hm; [by apply Hm|].
  unfold own_events in *. cbn [foldl List.filter].
  destruct (own c e) eqn:Hown; cbn [foldl]; apply IH; intros o' Ho';
    (destruct e as [a v|]; cbn [ev_mem]; [|by apply Hm]).
  - destruct (decide (a = base c + o')) as [->|]; [by mem_simpl|].
    rewrite !fn_lookup_insert_ne by done. by apply Hm.
  - unfold own in Hown. rewrite fn_lookup_insert_ne by zlia. by apply Hm.
Qed.

Lemma driver_final c m :
  config_ok c ->
  let m' := foldl ev_mem m (driver_events c m) in
  m' (base c + PLL_CNTL_1_OFFSET) = pll_cntl_1 (init_settings c) /\
  m' (base c + PLL_CNTL_5_OFFSET) = pll_cntl_5 (init_settings c) /\
  m' (base c + PLL_USE_POSTDIV_OFFSET) = use_postdiv (init_settings c).
Proof.
  intros [Hb _] m'. subst m'. unfold driver_events, power_up_events, switch_on_events, counter_events.
  cbn [foldl app ev_mem]. offsets. by mem_simpl.
Qed.

Lemma driver_glitch_free c m : config_ok c -> glitch_free c m (driver_events c m) = true.
Proof.
  intros Hc. unfold driver_events.
  rewrite !glitch_free_app, power_up_glitch_free, switch_on_glitch_free, counters_glitch_free;
    [done | done | apply power_up_cntl_0].
Qed.

Lemma boot_final i m m' :
  i ∈ plls -> m' = foldl ev_mem m (boot_events m) ->
  m' (GET_PLL_CNTL_ADDR i PLL_CNTL_1_OFFSET) = pll_cntl_1 (settings_of i) /\
  m' (GET_PLL_CNTL_ADDR i PLL_CNTL_5_OFFSET) = pll_cntl_5 (settings_of i) /\
  m' (GET_PLL_CNTL_ADDR i PLL_USE_POSTDIV_OFFSET) = use_postdiv (settings_of i).
Proof.
  intros Hi ->. destruct (driver_final (pll_device i) m (config_ok_device i Hi)) as (H1 & H5 & Hu).
  rewrite <- !device_addr. split_and!; (rewrite (foldl_own _ _ m), boot_own by done;
    rewrite <- (foldl_own _ m m) by done; done).
Qed.

(** Start-up of the clocks. Each PLL receives exactly the register writes the
    driver makes to bring it up, in a state in which the hardware tolerates them,
    although the firmware interleaves all five; afterwards the frequencies are
    those the settings are meant to give. *)
Theorem pll_init_spec (s s' : io) (r : Z) (Hrun : PLLInit s = Some (r, s')) :
  r = 0 /\
  (exists es, trace s' = trace s ++ es /\
    Forall (λ i, own_events (pll_device i) es
                 = own_events (pll_device i) (driver_events (pll_device i) (mem s)) /\
                 glitch_free (pll_device i) (mem s) es = true) plls) /\
  GetAICLK s' = Some (800, s') /\ GetARCCLK s' = Some (800, s') /\
  GetAXICLK s' = Some (960, s') /\ GetAPBCLK s' = Some (100, s') /\
  GetFreqFromPll 3 0 s' = Some (750, s') /\
  Forall (λ i, GetL2CPUCLK i s' = Some (800, s')) [0; 1; 2; 3].
Proof.
  destruct (boot_runs _ _ _ Hrun) as (-> & _ & Ht & Hm). split; [done|]. split.
  { exists (boot_events (mem s)). split; [done|]. apply list.Forall_forall. intros i Hi.
    split; [by apply boot_own|]. rewrite (glitch_free_own _ _ (mem s)), boot_own by done.
    rewrite <- (glitch_free_own _ (mem s)) by done. by apply driver_glitch_free, config_ok_device. }
  assert (forall i p, i ∈ plls -> GetFreqFromPll i p s'
    = match CalculateFreqFromPllRegs (pll_cntl_1 (settings_of i)) (pll_cntl_5 (settings_of i))
              (use_postdiv (settings_of i)) p with
      | Some f => Some (f, s') | None => None end) as Hfreq.
  { intros i p Hi. unfold GetFreqFromPll. io_simpl. by destruct (boot_final i _ _ Hi Hm) as (-> & -> & ->);
      case_match. }
  unfold GetAICLK, GetARCCLK, GetAXICLK, GetAPBCLK, GetL2CPUCLK.
  rewrite !list.Forall_cons, list.Forall_nil.
  rewrite !Hfreq by (clear; unfold plls; set_solver). clear. repeat split.
Qed.

Lemma pll_init_spec_witness :
  exists s', PLLInit (mk_io (λ _, 0x1f) [0; 1; 0; 2; 0; 4; 0; 0; 1; 8; 0; 16] []) = Some (0, s') /\
    GetAICLK s' = Some (800, s') /\ GetAXICLK s' = Some (960, s').
Proof.
  destruct (PLLInit (mk_io (λ _, 0x1f) [0; 1; 0; 2; 0; 4; 0; 0; 1; 8; 0; 16] []))
    as [[r s']|] eqn:E; [|vm_compute in E; discriminate].
  destruct (pll_init_spec _ _ _ E) as (-> & _ & H1 & _ & H2 & _). exists s'. exact (conj eq_refl (conj H1 H2)).
Defined.

(** * A pass of the DVFS loop on the real PLL

    [DVFSChange] orders whole frequency and voltage changes. Here each change of
    frequency is carried out by the driver, divider step by divider step, and all
    states of registers and voltage on the way are collected. *)
Fixpoint run_hw (c : clock_control_tt_bh_config) (d : clock_control_tt_bh_data)
    (es : list hw_event) (s : io) (mv : Z) : option (list ((Z -> Z) * Z) * io * Z) :=
  match es with
  | [] => Some ([(mem s, mv)], s, mv)
  | SetRate f :: es =>
      match clock_control_tt_bh_set_rate c d CLOCK_CONTROL_TT_BH_CLOCK_AICLK f s with
      | None => None
      | Some (_, s1) =>
          match run_hw c d es s1 mv with
          | None => None
          | Some (sts, s2, mv2) =>
              Some (((λ m, (m, mv)) <$> mem_states (mem s) (drop (length (trace s)) (trace s1)))
                      ++ sts, s2, mv2)
          end
      end
  | SetVcore v :: es =>
      match run_hw c d es s v with
      | None => None
      | Some (sts, s2, mv2) => Some ((mem s, mv) :: sts, s2, mv2)
      end
  | SetVcorem _ :: es => run_hw c d es s mv
  end.

(** How far the PLL may be below the frequency it was asked for. *)
Definition slack c (m : Z -> Z) : Z := refclk_rate c / divider c m 0 + 1.
Definition pll_at c (m : Z -> Z) (f : Z) : Prop := f - slack c m <= hw_freq c m 0 <= f.

Lemma set_rate_at c d (f : Z) s :
  config_ok c -> lock d = false -> 0 <= f -> 0 < divider c (mem s) 0 ->
  f * divider c (mem s) 0 < refclk_rate c * 65536 ->
  exists s1, clock_control_tt_bh_set_rate c d CLOCK_CONTROL_TT_BH_CLOCK_AICLK f s = Some ((0, d), s1) /\
    divider c (mem s1) 0 = divider c (mem s) 0 /\ pll_at c (mem s1) f /\
    Forall (λ m, divider c m 0 = divider c (mem s) 0 /\
      between (hw_freq c (mem s) 0) (hw_freq c (mem s1) 0) (hw_freq c m 0))
      (mem_states (mem s) (drop (length (trace s)) (trace s1))).
Proof.
  intros Hc Hl Hf Hd Hb.
  destruct (set_rate_aiclk_ok c d f s Hc Hf Hd Hb) as (es & s1 & (E & Ht & Hm) & _ & Hfb & Hd1 & Hall).
  exists s1. split_and!; try done.
  - unfold clock_control_tt_bh_set_rate. by rewrite Hl.
  - unfold pll_at, slack, hw_freq. rewrite Hd1, Hfb.
    pose proof (fbdiv_rate _ _ _ (proj1 (proj2 Hc)) Hd Hf) as (_ & _ & H). cbn zeta in H. lia.
  - by rewrite Ht, drop_app_length.
Qed.

Section composition.
Context (VFCurve : Z -> Q) (flo fhi : Z).
Hypothesis VF_mono : forall f g, flo <= f -> f <= g -> g <= fhi -> (VFCurve f <= VFCurve g)%Q.
Hypothesis VF_range : forall f, flo <= f <= fhi ->
  (0 <= VFCurve f)%Q /\ (VFCurve f < inject_Z (2 ^ 32))%Q.
Context (c : clock_control_tt_bh_config) (d : clock_control_tt_bh_data) (v : VoltageArbiter).
Hypothesis (Hc : config_ok c) (Hl : lock d = false) (Hv : vdd_min v <= vdd_max v).

(** Nominal states that are safe, with frequencies clear of the ends of the range. *)
Definition safe_at (k : Z) (h : Z * Z) : Prop :=
  0 <= h.1 /\ flo + k <= h.1 <= fhi /\ need VFCurve v h.1 <= h.2.

Lemma need_below k m f mv :
  safe_at k (f, mv) -> flo <= hw_freq c m 0 <= f -> need VFCurve v (hw_freq c m 0) <= mv.
Proof.
  intros (_ & Hr & Hn) Hm. cbn in *. etransitivity; [|exact Hn].
  apply (need_mono VFCurve flo fhi VF_mono VF_range); lia.
Qed.

Lemma run_hw_safe es s f mv :
  0 < divider c (mem s) 0 -> fhi * divider c (mem s) 0 < refclk_rate c * 65536 ->
  pll_at c (mem s) f ->
  Forall (safe_at (slack c (mem s))) (hw_states (f, mv) es) ->
  exists sts s1, run_hw c d es s mv = Some (sts, s1, (foldl hw_step (f, mv) es).2) /\
    Forall (λ x, need VFCurve v (hw_freq c x.1 0) <= x.2) sts /\
    pll_at c (mem s1) (foldl hw_step (f, mv) es).1.
Proof.
  revert s f mv. induction es as [|e es IH]; intros s f mv Hd Hb Hp Hs; cbn [run_hw hw_states] in *.
  { apply Forall_cons_1 in Hs as [Hs _]. exists [(mem s, mv)], s. split_and!; try done.
    constructor; [|constructor]. cbn. eapply need_below; [exact Hs|].
    destruct Hs as (? & ? & ?), Hp. cbn in *. lia. }
  apply Forall_cons_1 in Hs as [Hs Hs'].
  assert (flo <= hw_freq c (mem s) 0 <= f) as Hf by (destruct Hs as (? & ? & ?), Hp; cbn in *; lia).
  destruct e as [g|w|w]; cbn [hw_step foldl] in *.
  - assert (safe_at (slack c (mem s)) (g, mv)) as Hg
      by (destruct es; cbn in Hs'; by apply Forall_cons_1 in Hs' as [? _]).
    destruct (set_rate_at c d g s Hc Hl) as (s1 & E & Hd1 & Hp1 & Hall);
      [apply Hg | done | destruct Hg as (? & ? & ?); cbn in *; nia|].
    assert (slack c (mem s1) = slack c (mem s)) as Hsl by (unfold slack; by rewrite Hd1).
    destruct (IH s1 g mv) as (sts & s2 & E2 & Hall2 & Hp2);
      [by rewrite Hd1 | by rewrite Hd1 | done | by rewrite Hsl|].
    rewrite E. cbn [fst snd]. rewrite E2.
    exists (((λ m, (m, mv)) <$> mem_states (mem s) (drop (length (trace s)) (trace s1))) ++ sts), s2.
    split_and!; [done| |done]. apply Forall_app. split; [|done]. apply Forall_fmap.
    eapply Forall_impl; [|exact Hall]. intros m [_ Hm]. cbn.
    assert (flo <= hw_freq c (mem s1) 0 <= g) as Hg'
      by (destruct Hg as (? & ? & ?), Hp1; cbn in *; lia).
    unfold between in Hm. destruct (Z.le_ge_cases f g).
    + eapply (need_below _ _ g); [exact Hg | lia].
    + eapply (need_below _ _ f); [exact Hs | lia].
  - destruct (IH s f w Hd Hb Hp Hs') as (sts & s2 & E2 & Hall2 & Hp2). rewrite E2.
    exists ((mem s, mv) :: sts), s2. split_and!; [done| |done]. constructor; [|done].
    cbn. by eapply need_below.
  - destruct (IH s f mv Hd Hb Hp Hs') as (sts & s2 & E2 & Hall2 & Hp2). eauto.
Qed.
End composition.

(** A pass only asks for the target frequency. *)
Lemma dvfs_event_freqs VFCurve rand_ updates s s' es f mv :
  DVFSChange VFCurve rand_ updates s = Some (s', es) -> f = curr_freq (ppm s) ->
  Forall (λ h, h.1 = curr_freq (ppm s) \/ h.1 = targ_freq (ppm s')) (hw_states (f, mv) es).
Proof.
  unfold DVFSChange. intros H ->. case_match; [|done]. destruct p as [p1 c1].
  unfold DecreaseAiclk, IncreaseAiclk, VoltageChange in H.
  repeat (case_match; cbn in H); simplify_eq/=; repeat (constructor; cbn; auto).
Qed.

(** C17. The clock really is safe. During a pass of the DVFS loop whose frequency changes are carried
    out by the PLL driver step by step, the core voltage covers what the VF curve demands for the PLL's
    actual frequency, brought within the regulator's limits, in every intermediate state of the
    registers; the driver calls return; and the PLL ends within one divider step below the new target.
    As for the pass alone, the voltage covers the need before, none is forced, and the curve is monotone
    on the range of the frequencies, with a divider step to spare below; and the PLL is at the current
    frequency, its spin lock is free, and its post-divider is on and such that the top of the range
    needs a feedback divider of at most sixteen bits. *)
Theorem dvfs_pll_safe (VFCurve : Z -> Q) (flo fhi : Z)
    (VF_mono : forall f g, flo <= f -> f <= g -> g <= fhi -> (VFCurve f <= VFCurve g)%Q)
    (VF_range : forall f, flo <= f <= fhi ->
       (0 <= VFCurve f)%Q /\ (VFCurve f < inject_Z (2 ^ 32))%Q)
    (rand_ : Z) (updates : list arb_update) (s s' : dvfs) (es : list hw_event)
    (c : clock_control_tt_bh_config) (d : clock_control_tt_bh_data) (pll : io)
    (Hforced : forced_voltage (volt s) = 0)
    (Hlim : vdd_min (volt s) <= vdd_max (volt s))
    (Hreqs : (0 < length (req_voltage (volt s)))%nat)
    (Hsafe : need VFCurve (volt s) (curr_freq (ppm s)) <= curr_voltage (volt s))
    (Hpass : DVFSChange VFCurve rand_ updates s = Some (s', es))
    (Hc : config_ok c) (Hl : lock d = false) (Hd : 0 < divider c (mem pll) 0)
    (Hb : fhi * divider c (mem pll) 0 < refclk_rate c * 65536)
    (Hflo : 0 <= flo) (Hpll : pll_at c (mem pll) (curr_freq (ppm s)))
    (Hcurr : flo + slack c (mem pll) <= curr_freq (ppm s) <= fhi)
    (Htarg : flo + slack c (mem pll) <= targ_freq (ppm s') <= fhi) :
  exists sts pll', run_hw c d es pll (curr_voltage (volt s)) = Some (sts, pll', curr_voltage (volt s')) /\
    Forall (λ x, need VFCurve (volt s) (hw_freq c x.1 0) <= x.2) sts /\
    pll_at c (mem pll') (targ_freq (ppm s')).
Proof.
  assert (0 < slack c (mem pll)) as Hk.
  { unfold slack. pose proof (Z.div_pos (refclk_rate c) (divider c (mem pll) 0)). destruct Hc; lia. }
  destruct (voltage_safe_ok VFCurve flo fhi VF_mono VF_range rand_ updates s s' es)
    as (Hall & Hend & Hcf); [done.. | lia | lia|].
  pose proof (dvfs_event_freqs _ _ _ _ _ _ _ (curr_voltage (volt s)) Hpass eq_refl) as Hfr.
  destruct (run_hw_safe VFCurve flo fhi VF_mono VF_range c d (volt s) Hc Hl Hlim es pll
    (curr_freq (ppm s)) (curr_voltage (volt s)) Hd Hb Hpll) as (sts & pll' & E & Hsts & Hp).
  - apply list.Forall_forall. intros h Hh. rewrite list.Forall_forall in Hall, Hfr.
    specialize (Hall h Hh). specialize (Hfr h Hh). unfold safe_at. lia.
  - rewrite Hend in E, Hp. cbn in E, Hp. rewrite Hcf in Hp. eauto.
Qed.

Lemma dvfs_pll_safe_witness :
  exists sts pll',
    run_hw pll0 (reset_data pll0) demo_events (mk_io (running pll0) [] []) 750
      = Some (sts, pll', 700) /\
    Forall (λ x, need demo_curve (volt demo_dvfs) (hw_freq pll0 x.1 0) <= x.2) sts /\
    pll_at pll0 (mem pll') 400.
Proof.
  apply (dvfs_pll_safe demo_curve 200 1000 demo_curve_mono demo_curve_range 0
           [SetMax aiclk_arb_max_tdp (inject_Z 400)] demo_dvfs demo_after demo_events
           pll0 (reset_data pll0) (mk_io (running pll0) [] []));
    vm_compute; (reflexivity || congruence || lia || (repeat split; (reflexivity || congruence))).
Defined.
