(* ===== verification/PcieLog.v ===== *)
(** The log stream to the host: [lib/tenstorrent/bh_arc/tt_pcie_log.c].

    Log messages are framed into a local buffer and copied to a buffer in host
    memory, which passes back and forth between firmware and host through an
    [owner] byte. Host memory is reached through a window of 16 MiB; it is the
    [mem] of [Io], by address of the 32-bit word. What Zephyr's formatter passes
    to [putc_in_frame] for a message is part of the message here; whether a mutex
    was obtained in time is an argument. An access outside the local buffer is
    [stuck]. *)
From stdpp Require Import prelude list numbers functions sorting.
From Stdlib Require Import ZArith Lia.
From S2P Require Import Prelude Io.
Open Scope Z_scope.

(** ** Data *)
Definition SIZEOF_ENTRY_HEADER : Z := 12.
Definition SIZEOF_BUFFER_HEADER : Z := 16.
Definition FW_LOG_SOURCE_SMC : Z := 0.
Definition FW_LOG_BUFFER_MAGIC : Z := 0x544C4F47.
Definition FW_LOG_BUFFER_OWNER_FW : Z := 0.
Definition FW_LOG_BUFFER_OWNER_HOST : Z := 1.
Definition FLUSH_THRESHOLD_BYTES : Z := SIZEOF_ENTRY_HEADER + 256.
Definition LOG_LEVEL_NONE : Z := 0.
Definition LOG_LEVEL_ERR : Z := 1.

(** [struct fw_log_entry_header], packed. *)
Record fw_log_entry_header := {
  msg_size : Z;
  log_level : Z;
  source : Z;
  timestamp : Z;
  sequence : Z;
}.
Definition entry_header_bytes (h : fw_log_entry_header) : list Z :=
  le_bytes 2 (msg_size h) ++ [log_level h; source h] ++ le_bytes 4 (timestamp h)
  ++ le_bytes 4 (sequence h).

Record log_state := {
  host_available : bool;
  log_buffer_iova : Z;
  log_buffer_size : Z;
  sequence_number : Z;
  framed_log_buffer : list Z;
  framed_buffer_pos : Z;
}.
Implicit Types (st : log_state).
Definition with_frame st (buf : list Z) (pos : Z) : log_state :=
  {| host_available := host_available st; log_buffer_iova := log_buffer_iova st;
     log_buffer_size := log_buffer_size st; sequence_number := sequence_number st;
     framed_log_buffer := buf; framed_buffer_pos := pos |}.
Definition with_pos st (pos : Z) : log_state := with_frame st (framed_log_buffer st) pos.
Definition with_seq st (n : Z) : log_state :=
  {| host_available := host_available st; log_buffer_iova := log_buffer_iova st;
     log_buffer_size := log_buffer_size st; sequence_number := n;
     framed_log_buffer := framed_log_buffer st; framed_buffer_pos := framed_buffer_pos st |}.
Definition with_host st (avail : bool) (iova size : Z) : log_state :=
  {| host_available := avail; log_buffer_iova := iova; log_buffer_size := size;
     sequence_number := sequence_number st;
     framed_log_buffer := framed_log_buffer st; framed_buffer_pos := framed_buffer_pos st |}.
Definition sizeof_framed st : Z := Z.of_nat (length (framed_log_buffer st)).

(** A message: level, whether it has a source, its timestamp and the pieces the
    formatter outputs for it. *)
Record log_msg := {
  level : Z;
  has_source : bool;
  msg_timestamp : Z;
  chunks : list (list Z);
}.

(** ** Host memory *)

(** [NOC2AXITlbSetup] points the window at the 16 MiB around [iova];
    [GetTlbWindowAddr] keeps the low 24 bits of an address. *)
Definition NOC_TLB_WINDOW : Z := 2 ^ 24.
Definition window_addr (iova addr : Z) : Z :=
  iova / NOC_TLB_WINDOW * NOC_TLB_WINDOW + addr mod NOC_TLB_WINDOW.
Definition NOC2AXIWrite32 (iova addr val : Z) : IO unit := WriteReg (window_addr iova addr) val.
Definition NOC2AXIRead32 (iova addr : Z) : IO Z := ReadReg (window_addr iova addr).

(** ** Flushing *)
Fixpoint flush_loop (fuel : nat) (iova write_addr bytes_to_write i : Z) (buf : list Z) : IO unit :=
  if i <? bytes_to_write then
    match fuel with
    | O => stuck
    | S fuel =>
        let bytes_to_copy := Z.min 4 (bytes_to_write - i) in
        if Z.of_nat (length buf) <? i + bytes_to_copy then stuck
        else
          let word_data := le_value (take (Z.to_nat bytes_to_copy) (drop (Z.to_nat i) buf)) in
          _ ← NOC2AXIWrite32 iova (u32 (write_addr + i)) word_data;
          flush_loop fuel iova write_addr bytes_to_write (u32 (i + 4)) buf
    end
  else mret tt.

(** The result tells whether the host was interrupted ([SendPcieMsi]). *)
Definition flush_buffer_to_host st : IO (log_state * bool) :=
  if (framed_buffer_pos st =? 0) || negb (host_available st) then mret (st, false)
  else
    let iova := log_buffer_iova st in
    magic_value ← NOC2AXIRead32 iova (u64 (iova + 8));
    if negb (magic_value =? FW_LOG_BUFFER_MAGIC) then mret (with_pos st 0, false)
    else
      owner_word ← NOC2AXIRead32 iova (u64 (iova + 12));
      if Z.land owner_word 0xFF =? FW_LOG_BUFFER_OWNER_HOST then mret (with_pos st 0, false)
      else
        let write_addr := u32 (iova + SIZEOF_BUFFER_HEADER) in
        let available_host_space := u32 (log_buffer_size st - SIZEOF_BUFFER_HEADER) in
        let bytes_to_write := Z.min (framed_buffer_pos st) available_host_space in
        _ ← flush_loop (Z.to_nat bytes_to_write) iova write_addr bytes_to_write 0
              (framed_log_buffer st);
        _ ← NOC2AXIWrite32 iova (u64 (iova + 0)) (u32 (SIZEOF_BUFFER_HEADER + bytes_to_write));
        _ ← NOC2AXIWrite32 iova (u64 (iova + 12)) FW_LOG_BUFFER_OWNER_HOST;
        mret (with_pos st 0, true).

(** ** Framing *)
Definition putc_in_frame st (data : list Z) : option (log_state * Z) :=
  let length_ := Z.of_nat (length data) in
  let available := sizeof_framed st - framed_buffer_pos st in
  let bytes_to_copy := if 1 <? available then Z.min length_ (available - 1) else 0 in
  if 0 <? bytes_to_copy then
    match memcpy_at (framed_log_buffer st) (framed_buffer_pos st)
            (take (Z.to_nat bytes_to_copy) data) with
    | None => None
    | Some buf => Some (with_frame st buf (framed_buffer_pos st + bytes_to_copy), length_)
    end
  else Some (st, length_).
Fixpoint format_msg st (cs : list (list Z)) : option log_state :=
  match cs with
  | [] => Some st
  | c :: cs =>
      match putc_in_frame st c with
      | None => None
      | Some (st, _) => format_msg st cs
      end
  end.

(** The part of [backend_process] between the checks and the final flush. *)
Definition frame_entry st (m : log_msg) : option log_state :=
  let entry_start_pos := framed_buffer_pos st in
  let entry_header :=
    {| msg_size := 0; log_level := u8 (level m); source := FW_LOG_SOURCE_SMC;
       timestamp := u32 (msg_timestamp m); sequence := sequence_number st |} in
  buf ← memcpy_at (framed_log_buffer st) entry_start_pos (entry_header_bytes entry_header);
  let st1 := with_frame (with_seq st (u32 (sequence_number st + 1))) buf
               (entry_start_pos + SIZEOF_ENTRY_HEADER) in
  let message_start_pos := framed_buffer_pos st1 in
  st2 ← format_msg st1 (chunks m);
  buf ← zset (framed_log_buffer st2) (framed_buffer_pos st2) 0;
  let pos := framed_buffer_pos st2 + 1 in
  let message_len := pos - message_start_pos in
  let total_size := SIZEOF_ENTRY_HEADER + message_len in
  buf ← memcpy_at buf entry_start_pos (le_bytes 2 (u16 total_size));
  Some (with_frame st2 buf pos).

Definition drop_message st : log_state := with_seq st (u32 (sequence_number st + 1)).
(** The list of results tells for each flush whether the host was interrupted. *)
Definition backend_process st (m : log_msg) (locked : bool) : IO (log_state * list bool) :=
  if (level m =? LOG_LEVEL_NONE) && negb (has_source m) then mret (st, [])
  else if negb locked then mret (drop_message st, [])
  else
    r ← (if sizeof_framed st <? framed_buffer_pos st + FLUSH_THRESHOLD_BYTES
         then r ← flush_buffer_to_host st; mret (r.1, [r.2]) else mret (st, []));
    let '(st, msis) := r in
    if sizeof_framed st <? framed_buffer_pos st + SIZEOF_ENTRY_HEADER + 1
    then mret (drop_message st, msis)
    else match frame_entry st m with
         | None => stuck
         | Some st =>
             if u8 (level m) =? LOG_LEVEL_ERR
             then r ← flush_buffer_to_host st; mret (r.1, msis ++ [r.2])
             else mret (st, msis)
         end.

(** [flush_work_handler] and [backend_panic]. *)
Definition flush_work_handler st (locked : bool) : IO (log_state * list bool) :=
  if negb locked then mret (st, []) else r ← flush_buffer_to_host st; mret (r.1, [r.2]).
Definition backend_panic st (locked : bool) : IO (log_state * list bool) :=
  if locked then r ← flush_buffer_to_host st; mret (r.1, [r.2]) else mret (st, []).

(** ** Requests of the host *)
Definition setup_tt_pcie_log_backend st (buffer_addr_lo buffer_addr_hi buffer_size res : Z)
  : IO (log_state * Z) :=
  if buffer_size <? SIZEOF_BUFFER_HEADER + SIZEOF_ENTRY_HEADER + 1 then mret (st, 1)
  else if negb (res =? 0) then mret (st, u8 res)
  else
    let iova := Z.lor (Z.shiftl buffer_addr_hi 32) buffer_addr_lo in
    _ ← NOC2AXIWrite32 iova (u64 (iova + 0)) SIZEOF_BUFFER_HEADER;
    _ ← NOC2AXIWrite32 iova (u64 (iova + 4)) buffer_size;
    _ ← NOC2AXIWrite32 iova (u64 (iova + 8)) FW_LOG_BUFFER_MAGIC;
    _ ← NOC2AXIWrite32 iova (u64 (iova + 12)) (Z.lor FW_LOG_BUFFER_OWNER_FW (Z.shiftl 0 8));
    mret (with_host st true iova buffer_size, 0).
Definition release_tt_pcie_log_backend st (res : Z) : log_state * Z :=
  if negb (host_available st) then (st, 0)
  else if negb (res =? 0) then (st, u8 res)
  else (with_host st false 0 0, 0).

Definition TT_PCIE_LOG_SUBCMD_SETUP : Z := 1.
Definition TT_PCIE_LOG_SUBCMD_RELEASE : Z := 2.
Record tt_pcie_log_rqst := { subcmd : Z; buffer_addr_lo : Z; buffer_addr_hi : Z; buffer_size : Z }.
(** [res] is what locking the mutex returns. *)
Definition tt_pcie_log_handler st (translation_en : bool) (r : tt_pcie_log_rqst) (res : Z)
  : IO (log_state * Z) :=
  if negb translation_en then mret (st, 19)
  else if subcmd r =? TT_PCIE_LOG_SUBCMD_SETUP then
    setup_tt_pcie_log_backend st (buffer_addr_lo r) (buffer_addr_hi r) (buffer_size r) res
  else if subcmd r =? TT_PCIE_LOG_SUBCMD_RELEASE then
    mret (release_tt_pcie_log_backend st res)
  else mret (st, 22).

(** * Entries *)
Record entry := { e_level : Z; e_timestamp : Z; e_sequence : Z; e_text : list Z }.
Definition encode (e : entry) : list Z :=
  entry_header_bytes
    {| msg_size := SIZEOF_ENTRY_HEADER + Z.of_nat (length (e_text e)) + 1;
       log_level := e_level e; source := FW_LOG_SOURCE_SMC;
       timestamp := e_timestamp e; sequence := e_sequence e |} ++ e_text e ++ [0].
Definition encode_all (es : list entry) : list Z := es ≫= encode.

(** The host's reading of a buffer: entry after entry, by their sizes. *)
Fixpoint parse_entries (fuel : nat) (bs : list Z) : option (list entry) :=
  match bs with
  | [] => Some []
  | _ =>
      match fuel with
      | O => None
      | S fuel =>
          let size := Z.to_nat (le_value (take 2 bs)) in
          if (13 <=? size)%nat && (size <=? length bs)%nat then
            rest ← parse_entries fuel (drop size bs);
            Some ({| e_level := le_value (take 1 (drop 2 bs));
                     e_timestamp := le_value (take 4 (drop 4 bs));
                     e_sequence := le_value (take 4 (drop 8 bs));
                     e_text := take (size - 13) (drop 12 bs) |} :: rest)
          else None
      end
  end.

Definition entry_wf (e : entry) : Prop :=
  is_byte (e_level e) /\ in_width 32 (e_timestamp e) /\ in_width 32 (e_sequence e) /\
  Forall is_byte (e_text e) /\ Z.of_nat (length (e_text e)) + 13 < 65536.

Lemma encode_length e : length (encode e) = (length (e_text e) + 13)%nat.
Proof.
  unfold encode, entry_header_bytes. rewrite !length_app, !le_bytes_length. cbn. lia.
Qed.
Lemma encode_bytes e : entry_wf e -> Forall is_byte (encode e).
Proof.
  intros (Hl & _ & _ & Ht & _). unfold encode, entry_header_bytes. cbn [log_level source].
  rewrite !Forall_app. split_and!; try apply le_bytes_bytes; try done.
  all: repeat (apply Forall_cons_2; [done|]); constructor.
Qed.

(** The fields of an encoded entry, and what follows it. *)
Lemma encode_fields e rest :
  entry_wf e ->
  let bs := encode e ++ rest in
  le_value (take 2 bs) = Z.of_nat (length (e_text e)) + 13 /\
  le_value (take 1 (drop 2 bs)) = e_level e /\
  le_value (take 4 (drop 4 bs)) = e_timestamp e /\
  le_value (take 4 (drop 8 bs)) = e_sequence e /\
  take (length (e_text e)) (drop 12 bs) = e_text e /\
  drop (length (e_text e) + 13) bs = rest.
Proof.
  intros (Hl & Ht & Hs & Hb & Hlen) bs. subst bs.
  assert (drop (length (e_text e) + 13) (encode e ++ rest) = rest) as Hd
    by (rewrite drop_app_length' by (rewrite encode_length; lia); done).
  unfold encode, entry_header_bytes in *. cbn [msg_size log_level source timestamp sequence] in *.
  set (h := le_bytes 2 _) in *. set (t := le_bytes 4 (e_timestamp e)) in *.
  set (q := le_bytes 4 (e_sequence e)) in *.
  assert (length h = 2%nat /\ length t = 4%nat /\ length q = 4%nat) as (Lh & Lt & Lq)
    by (subst h t q; by rewrite !le_bytes_length).
  rewrite <- !app_assoc in *. split_and!; [.. | exact Hd].
  - rewrite take_app_length' by lia. subst h. rewrite le_value_le_bytes; [unfold SIZEOF_ENTRY_HEADER; lia|].
    change (2 ^ (8 * Z.of_nat 2)) with 65536. unfold SIZEOF_ENTRY_HEADER. lia.
  - change ([e_level e; FW_LOG_SOURCE_SMC] ++ ?r) with ([e_level e] ++ [0] ++ r).
    rewrite (slice_app h) by done. cbn. lia.
  - rewrite (app_assoc h), (slice_app (h ++ _) t) by (rewrite ?length_app; cbn; lia).
    by apply le_value_le_bytes.
  - rewrite (app_assoc h), (app_assoc (h ++ _) t), (slice_app ((h ++ _) ++ t) q)
      by (rewrite ?length_app; cbn; lia). by apply le_value_le_bytes.
  - rewrite (app_assoc h), (app_assoc (h ++ _) t), (app_assoc ((h ++ _) ++ t) q).
    apply slice_app; [rewrite !length_app; cbn; lia | done].
Qed.

Lemma parse_encode es fuel :
  Forall entry_wf es -> (length es <= fuel)%nat -> parse_entries fuel (encode_all es) = Some es.
Proof.
  intros Hwf. revert fuel. induction Hwf as [|e es He Hes IH]; intros fuel Hf; [by destruct fuel|].
  destruct fuel as [|fuel]; [cbn in Hf; lia|].
  change (encode_all (e :: es)) with (encode e ++ encode_all es).
  destruct (encode_fields e (encode_all es) He) as (H1 & H2 & H3 & H4 & H5 & H6). cbn zeta in *.
  assert (length (e_text e) + 13 <= length (encode e ++ encode_all es))%nat as Hl
    by (rewrite length_app, encode_length; lia).
  destruct (encode e ++ encode_all es) as [|b bs] eqn:E; [cbn in Hl; lia|].
  cbn [parse_entries]. rewrite <- E in *. rewrite H1, H2, H3, H4.
  replace (Z.to_nat _) with (length (e_text e) + 13)%nat by lia.
  rewrite !(proj2 (Nat.leb_le _ _)) by lia. cbn [andb].
  rewrite H6, IH by (cbn in Hf; lia). cbn [mbind option_bind].
  replace (length (e_text e) + 13 - 13)%nat with (length (e_text e)) by lia.
  rewrite H5. by destruct e.
Qed.

(** * Framing *)
Definition pos st : nat := Z.to_nat (framed_buffer_pos st).
Definition frame_ok st : Prop :=
  0 <= framed_buffer_pos st <= sizeof_framed st /\ Forall is_byte (framed_log_buffer st).
(** The local buffer holds the entries [es]. *)
Definition framed st (es : list entry) : Prop :=
  frame_ok st /\ take (pos st) (framed_log_buffer st) = encode_all es /\ Forall entry_wf es.
(** Nothing but the local buffer differs. *)
Definition same_host st st' : Prop :=
  host_available st' = host_available st /\ log_buffer_iova st' = log_buffer_iova st /\
  log_buffer_size st' = log_buffer_size st /\ sizeof_framed st' = sizeof_framed st.

Lemma memcpy_bytes (buf src buf' : list Z) off :
  memcpy_at buf off src = Some buf' -> Forall is_byte buf -> Forall is_byte src -> Forall is_byte buf'.
Proof.
  unfold memcpy_at. case_match; [|done]. intros [= <-] Hb Hs.
  rewrite !Forall_app. split_and!; [by apply Forall_take | done | by apply Forall_drop].
Qed.

Lemma take_take_app {A} (l1 l2 : list A) n :
  take n (l1 ++ l2) = take n l1 ++ take (n - length l1) l2.
Proof. by rewrite take_app. Qed.

Lemma format_msg_ok cs st :
  frame_ok st -> Forall (Forall is_byte) cs -> framed_buffer_pos st + 1 <= sizeof_framed st ->
  exists st', format_msg st cs = Some st' /\ frame_ok st' /\ same_host st st' /\
    sequence_number st' = sequence_number st /\
    framed_buffer_pos st' + 1 <= sizeof_framed st' /\
    take (pos st') (framed_log_buffer st')
    = take (pos st) (framed_log_buffer st)
      ++ take (Z.to_nat (sizeof_framed st - 1 - framed_buffer_pos st)) (concat cs) /\
    pos st' = (pos st + min (length (concat cs))
                 (Z.to_nat (sizeof_framed st - 1 - framed_buffer_pos st)))%nat.
Proof.
  revert st. induction cs as [|c cs IH]; intros st Hok Hcs Hp.
  { exists st. cbn. rewrite take_nil, app_nil_r. unfold same_host. split_and!; try done; try apply Hok; lia. }
  apply Forall_cons_1 in Hcs as [Hc Hcs]. cbn [format_msg]. unfold putc_in_frame.
  destruct Hok as [Hr Hb].
  set (room := Z.to_nat (sizeof_framed st - 1 - framed_buffer_pos st)).
  set (n := if 1 <? _ then _ else 0).
  assert (n = Z.of_nat (min (length c) room)) as Hn.
  { subst n room. unfold sizeof_framed in *. case_match; zb; lia. }
  clearbody n. destruct (Z.ltb_spec 0 n) as [Hpos|Hz].
  - destruct (memcpy_at _ _ _) as [buf|] eqn:Hm; cycle 1.
    { rewrite memcpy_at_Some in Hm; [done | lia|]. rewrite length_take. unfold sizeof_framed in *. lia. }
    pose proof (memcpy_at_length _ _ _ _ Hm) as Hlen. pose proof (memcpy_take _ _ _ _ Hm) as Htk.
    set (st1 := with_frame st buf (framed_buffer_pos st + n)).
    assert (sizeof_framed st1 = sizeof_framed st) as Hsz by (unfold sizeof_framed; cbn; by rewrite Hlen).
    destruct (IH st1) as (st' & E & Hok' & Hsh & Hsq & Hp' & Ht' & Hpo); [|done| |].
    { split; [rewrite Hsz; cbn; unfold sizeof_framed in *; lia|]. cbn.
      eapply memcpy_bytes; [exact Hm | done | by apply Forall_take]. }
    { rewrite Hsz. cbn. unfold sizeof_framed in *. lia. }
    exists st'. rewrite Hsz in *. cbn [framed_buffer_pos framed_log_buffer with_frame st1] in *.
    assert (pos st1 = (pos st + min (length c) room)%nat) as Hpos1.
    { unfold pos. cbn. lia. }
    assert (Z.to_nat (sizeof_framed st - 1 - (framed_buffer_pos st + n)) = (room - length c)%nat) as Hroom'
      by (subst room; lia).
    rewrite Hroom' in *. split_and!; try done; try apply Hok'.
    + unfold same_host in *. cbn in Hsh. rewrite Hsz in Hsh. naive_solver.
    + rewrite Ht'. cbn [concat]. rewrite take_take_app, app_assoc. f_equal.
      rewrite length_take in Htk. unfold pos in *. rewrite Hpos1. replace (Z.to_nat (framed_buffer_pos st) + min (length c) room)%nat
        with (Z.to_nat (framed_buffer_pos st) + min (Z.to_nat n) (length c))%nat by lia.
      rewrite Htk. f_equal. rewrite Hn, Nat2Z.id.
      destruct (Nat.le_ge_cases (length c) room).
      * by rewrite !take_ge by lia.
      * by rewrite Nat.min_r by lia.
    + rewrite Hpo, Hpos1. cbn [concat]. rewrite length_app. lia.
  - destruct (IH st) as (st' & E & Hok' & Hsh & Hsq & Hp' & Ht' & Hpo); [by split | done | done|].
    exists st'. fold room in Ht', Hpo |- *.
    assert (c = [] \/ room = 0%nat) as [->|Hr0].
    { destruct c; [by left | right]. cbn [length] in Hn. lia. }
    + split_and!; try done; apply Hok'.
    + rewrite Hr0 in *. split_and!; try done; try apply Hok'; rewrite ?Ht', ?take_0; (done || lia).
Qed.

(** The entry a message becomes: its text is cut to what fits. *)
Definition new_entry st (m : log_msg) : entry :=
  {| e_level := u8 (level m); e_timestamp := u32 (msg_timestamp m);
     e_sequence := sequence_number st;
     e_text := take (Z.to_nat (sizeof_framed st - SIZEOF_ENTRY_HEADER - 1 - framed_buffer_pos st))
                 (concat (chunks m)) |}.
Definition msg_ok (m : log_msg) : Prop := Forall (Forall is_byte) (chunks m).

Lemma encode_all_snoc es e : encode_all (es ++ [e]) = encode_all es ++ encode e.
Proof. unfold encode_all. rewrite bind_app. cbn. by rewrite app_nil_r. Qed.

(** An entry is its size followed by the rest of its header, its text and a zero. *)
Lemma encode_split e :
  encode e = le_bytes 2 (Z.of_nat (length (e_text e)) + 13)
    ++ (e_level e :: 0 :: le_bytes 4 (e_timestamp e) ++ le_bytes 4 (e_sequence e))
    ++ e_text e ++ [0].
Proof.
  unfold encode, entry_header_bytes. cbn [msg_size log_level source timestamp sequence].
  rewrite <- !app_assoc. f_equal. f_equal. unfold SIZEOF_ENTRY_HEADER. lia.
Qed.

(** Terminating the text and filling in the size complete an entry. *)
Lemma finish_frame (P h text B sz : list Z) p :
  length P = p -> length h = 12%nat -> length sz = 2%nat ->
  take (p + 12 + length text) B = P ++ h ++ text -> (p + 13 + length text <= length B)%nat ->
  let B' := <[(p + 12 + length text)%nat := 0]> B in
  take (p + 13 + length text) (take p B' ++ sz ++ drop (p + 2) B')
  = P ++ sz ++ drop 2 h ++ text ++ [0].
Proof.
  intros HP Hh Hsz Hpre Hlen B'.
  destruct (drop (p + 12 + length text) B) as [|x rest] eqn:Hd.
  { apply (f_equal length) in Hd. rewrite length_drop in Hd. cbn in Hd. lia. }
  assert (B' = P ++ h ++ text ++ 0 :: rest) as ->.
  { subst B'. rewrite <- (take_drop (p + 12 + length text) B), Hpre, Hd.
    rewrite insert_app_r_alt by (rewrite !length_app; lia).
    replace (_ - _)%nat with 0%nat by (rewrite !length_app; lia). cbn. by rewrite <- !app_assoc. }
  rewrite (take_app_length' P) by lia.
  replace (drop (p + 2) (P ++ h ++ text ++ 0 :: rest)) with (drop 2 h ++ text ++ 0 :: rest); cycle 1.
  { rewrite <- drop_drop, drop_app_length' by lia. by rewrite drop_app_le by lia. }
  rewrite (cons_middle 0), !app_assoc. apply take_app_length'.
  rewrite !length_app, length_drop. cbn. lia.
Qed.

Lemma frame_entry_ok st es m :
  framed st es -> msg_ok m -> in_width 32 (sequence_number st) -> sizeof_framed st < 65536 ->
  framed_buffer_pos st + SIZEOF_ENTRY_HEADER + 1 <= sizeof_framed st ->
  exists st', frame_entry st m = Some st' /\ framed st' (es ++ [new_entry st m]) /\
    same_host st st' /\ sequence_number st' = u32 (sequence_number st + 1).
Proof.
  intros ((Hr & Hb) & Ht & Hwf) Hm Hsq Hsz Hroom. unfold SIZEOF_ENTRY_HEADER in *.
  unfold frame_entry.
  set (h := entry_header_bytes _).
  assert (length h = 12%nat) as Lh
    by (subst h; unfold entry_header_bytes; rewrite !length_app, !le_bytes_length; done).
  assert (Forall is_byte h) as Hh.
  { subst h. unfold entry_header_bytes. cbn [log_level source msg_size timestamp sequence].
    rewrite !Forall_app. split_and!; try apply le_bytes_bytes.
    all: repeat (apply Forall_cons_2; [try done; by apply (wrap_in_width 8)|]); constructor. }
  destruct (memcpy_at _ _ h) as [buf|] eqn:Hm1; cycle 1.
  { rewrite memcpy_at_Some in Hm1; [done | lia | unfold sizeof_framed in *; lia]. }
  cbn [mbind option_bind]. set (st1 := with_frame _ buf _).
  pose proof (memcpy_at_length _ _ _ _ Hm1) as Hlen1.
  pose proof (memcpy_take _ _ _ _ Hm1) as Htk1. rewrite Lh in Htk1.
  assert (sizeof_framed st1 = sizeof_framed st) as Hsz1 by (unfold sizeof_framed; cbn; by rewrite Hlen1).
  destruct (format_msg_ok (chunks m) st1) as (st2 & E2 & Hok2 & Hsh2 & Hsq2 & Hp2 & Ht2 & Hpo2).
  { split; [rewrite Hsz1; cbn; unfold SIZEOF_ENTRY_HEADER; lia|]. cbn. by eapply memcpy_bytes. }
  { done. } { rewrite Hsz1. cbn. unfold SIZEOF_ENTRY_HEADER. lia. }
  rewrite E2. cbn [mbind option_bind]. destruct Hok2 as [Hr2 Hb2].
  assert (sizeof_framed st2 = sizeof_framed st) as Hsz2 by (destruct Hsh2 as (_ & _ & _ & ->); done).
  destruct (zset _ _ 0) as [buf3|] eqn:Hz; cycle 1.
  { destruct (zset_is_Some (framed_log_buffer st2) (framed_buffer_pos st2) 0) as [? ?];
      [unfold sizeof_framed in *; lia | congruence]. }
  pose proof (zset_length _ _ _ _ Hz) as Hlen3. apply zset_Some in Hz as [_ ->].
  cbn [mbind option_bind]. set (total := u16 _).
  set (text := take (Z.to_nat (sizeof_framed st1 - 1 - framed_buffer_pos st1)) (concat (chunks m))) in *.
  assert (pos st1 = (pos st + 12)%nat) as Hps1 by (unfold pos; cbn; unfold SIZEOF_ENTRY_HEADER; lia).
  assert (pos st2 = (pos st + 12 + length text)%nat) as Hps2.
  { rewrite Hpo2, Hps1. subst text. rewrite length_take. lia. }
  assert (text = e_text (new_entry st m)) as Htext.
  { subst text. cbn. rewrite Hsz1. f_equal. unfold st1. cbn. unfold SIZEOF_ENTRY_HEADER. lia. }
  assert (total = Z.of_nat (length text) + 13) as Htotal.
  { subst total. rewrite wrap_id; [|unfold in_width; change (2 ^ 16) with 65536];
      unfold pos, SIZEOF_ENTRY_HEADER in *; cbn in *; unfold SIZEOF_ENTRY_HEADER in *;
      unfold sizeof_framed in *; lia. }
  destruct (memcpy_at _ _ (le_bytes 2 total)) as [buf4|] eqn:Hm4; cycle 1.
  { rewrite memcpy_at_Some in Hm4; [done | lia|]. rewrite le_bytes_length, Hlen3.
    unfold sizeof_framed in *. lia. }
  eexists. split; [done|]. pose proof (memcpy_at_length _ _ _ _ Hm4) as Hlen4.
  assert (Forall is_byte buf4) as Hb4.
  { eapply memcpy_bytes; [exact Hm4| |apply le_bytes_bytes].
    apply Forall_insert; [done | unfold is_byte; lia]. }
  split; [split_and!| split].
  - split; [|done]. unfold sizeof_framed. cbn. rewrite Hlen4, Hlen3.
    unfold sizeof_framed in *. lia.
  - (* the bytes *)
    cbn [framed_log_buffer with_frame]. rewrite encode_all_snoc.
    set (p := Z.to_nat (framed_buffer_pos st)).
    assert (pos (with_frame st2 buf4 (framed_buffer_pos st2 + 1)) = (p + 13 + length text)%nat) as ->.
    { unfold pos in *. cbn. unfold p. lia. }
    rewrite memcpy_at_Some in Hm4 by (rewrite ?le_bytes_length, ?Hlen3; unfold sizeof_framed in *; lia).
    apply (inj Some) in Hm4. rewrite <- Hm4. fold p. rewrite <- Ht, encode_split.
    change (e_text (new_entry st m)) with (e_text (new_entry st m)). rewrite <- Htext, <- Htotal.
    change (le_bytes 4 (e_timestamp _)) with (le_bytes 4 (u32 (msg_timestamp m))).
    replace (Z.to_nat (framed_buffer_pos st2)) with (p + 12 + length text)%nat
      by (unfold pos, p in *; lia).
    apply (finish_frame (take p (framed_log_buffer st)) h text); try done.
    + rewrite length_take. unfold p, sizeof_framed in *. lia.
    + change p with (pos st). rewrite <- Hps2, Ht2, Hps1. cbn [framed_log_buffer st1 with_frame].
      change (pos st) with p. fold p in Htk1. by rewrite Htk1, <- app_assoc.
    + unfold pos, p, sizeof_framed in *. lia.
  - apply Forall_app. split; [done|]. constructor; [|constructor].
    split; [by apply (wrap_in_width 8)|]. split; [by apply wrap_in_width|].
    split; [done|]. split.
    + apply Forall_take, Forall_concat. exact Hm.
    + rewrite <- Htext. unfold pos, sizeof_framed in *. lia.
  - unfold same_host in *. cbn. unfold sizeof_framed. cbn. rewrite Hlen4, Hlen3.
    unfold sizeof_framed in *. cbn in Hsh2. destruct Hsh2 as (? & ? & ? & ?). split_and!; [done..|lia].
  - cbn. rewrite Hsq2. done.
Qed.

(** * Flushing *)

(** The host's view of its buffer: [n] bytes from a word address on. *)
Fixpoint host_read (fuel : nat) (m : Z -> Z) (addr : Z) (n : nat) : list Z :=
  match fuel with
  | O => []
  | S fuel =>
      take n (le_bytes 4 (m addr)) ++ host_read fuel m (addr + 4) (n - 4)
  end.

(** A buffer that lies in one 16 MiB window. *)
Definition buffer_ok (iova size : Z) : Prop :=
  0 <= iova < 2 ^ 64 /\ 16 <= size /\ iova mod NOC_TLB_WINDOW + size <= NOC_TLB_WINDOW.

Lemma window_addr_in iova size i :
  buffer_ok iova size -> 0 <= i < size ->
  window_addr iova (u64 (iova + i)) = iova + i /\
  window_addr iova (u32 (iova + i)) = iova + i.
Proof.
  intros (Hi & Hs & Hw) Hr. unfold window_addr, NOC_TLB_WINDOW in *. change (2 ^ 24) with 16777216 in *.
  assert ((iova + i) mod 16777216 = iova mod 16777216 + i) as Hm.
  { rewrite <- Z.add_mod_idemp_l by lia. apply Z.mod_small.
    pose proof (Z.mod_pos_bound iova 16777216). lia. }
  unfold wrap. change (2 ^ 64) with (16777216 * 1099511627776).
  change (2 ^ 32) with (16777216 * 256).
  rewrite !Z.mod_mod_divide by (try lia; eexists; rewrite Z.mul_comm; reflexivity).
  rewrite Hm. pose proof (Z.div_mod iova 16777216). lia.
Qed.

Lemma take_le_bytes (bs : list Z) n :
  Forall is_byte bs -> (length bs <= n)%nat -> take (length bs) (le_bytes n (le_value bs)) = bs.
Proof.
  intros Hb. revert n. induction Hb as [|b bs Hb0 Hb IH]; intros n Hn; [done|].
  destruct n as [|n]; cbn in Hn; [lia|]. cbn [le_bytes le_value length take]. unfold is_byte in Hb0.
  replace ((b + 256 * le_value bs) mod 256) with b; cycle 1.
  { rewrite Z.mul_comm, Z_mod_plus_full. symmetry. by apply Z.mod_small. }
  replace ((b + 256 * le_value bs) / 256) with (le_value bs); cycle 1.
  { rewrite Z.mul_comm, Z_div_plus_full, Z.div_small by lia. lia. }
  f_equal. apply IH. lia.
Qed.

Lemma take_take_drop_app {A} (l : list A) i n k :
  (i + k <= n)%nat -> take k (drop i l) ++ take (n - i - k) (drop (i + k) l) = take (n - i) (drop i l).
Proof.
  intros H. rewrite <- drop_drop. rewrite take_take_drop. f_equal. lia.
Qed.

(** Writes of words in [lo .. hi] and nothing else. *)
Definition only_within (lo hi : Z) (es : list io_event) : Prop :=
  Forall (λ e, match e with Wr a _ => lo <= a /\ a + 4 <= hi | Delay _ => True end) es.

Lemma host_read_ext fuel m m' addr n :
  (forall k, 0 <= k < Z.of_nat fuel -> m (addr + 4 * k) = m' (addr + 4 * k)) ->
  host_read fuel m addr n = host_read fuel m' addr n.
Proof.
  revert addr n. induction fuel as [|fuel IH]; intros addr n H; [done|]. cbn [host_read].
  f_equal.
  - f_equal. f_equal. specialize (H 0). rewrite !Z.mul_0_r, !Z.add_0_r in H. apply H. lia.
  - apply IH. intros k Hk. specialize (H (k + 1) ltac:(lia)).
    by replace (addr + 4 * (k + 1)) with (addr + 4 + 4 * k) in H by lia.
Qed.

(** Rounded up to whole words. *)
Definition words (n : Z) : Z := (n + 3) / 4.

Lemma flush_loop_ok fuel iova size n i buf s :
  buffer_ok iova size -> Forall is_byte buf -> size < 2 ^ 32 ->
  0 <= i -> i mod 4 = 0 -> n <= Z.of_nat (length buf) -> 16 + 4 * words n <= size ->
  n - i <= Z.of_nat fuel ->
  exists es s', runs (flush_loop fuel iova (u32 (iova + 16)) n i buf) s es tt s' /\
    inputs s' = inputs s /\
    (i <= n -> host_read (Z.to_nat (words (n - i))) (mem s') (iova + 16 + i) (Z.to_nat (n - i))
     = take (Z.to_nat (n - i)) (drop (Z.to_nat i) buf)) /\
    only_within (iova + 16 + i) (iova + 16 + 4 * words n) es /\
    (forall a, a < iova + 16 + i -> mem s' a = mem s a).
Proof.
  intros Hbuf Hb Hsz. revert i s. induction fuel as [|fuel IH]; intros i s Hi Hi4 Hn Hw Hf;
    cbn [flush_loop].
  { rewrite (proj2 (Z.ltb_ge i n)) by lia. exists [], s. split_and!; try done; [apply runs_ret| |constructor].
    intros Hin. replace (n - i) with 0 by lia. done. }
  destruct (Z.ltb_spec i n) as [Hlt|Hge]; cycle 1.
  { exists [], s. split_and!; try done; [apply runs_ret| |constructor].
    intros Hin. replace (n - i) with 0 by lia. done. }
  set (k := Z.min 4 (n - i)).
  rewrite (proj2 (Z.ltb_ge _ _)) by lia.
  assert (i + 4 <= 4 * words n) as Hiw.
  { unfold words in *. pose proof (Z.div_mod i 4). pose proof (Z.div_mod (n + 3) 4).
    pose proof (Z.mod_pos_bound (n + 3) 4). lia. }
  assert (u32 (i + 4) = i + 4) as Hwrap by (apply wrap_id; unfold in_width; lia).
  rewrite Hwrap.
  assert (window_addr iova (u32 (u32 (iova + 16) + i)) = iova + 16 + i) as Haddr.
  { rewrite wrap_add_l. replace (iova + 16 + i) with (iova + (16 + i)) by lia.
    eapply (window_addr_in _ size); [done | lia]. }
  set (bs := take (Z.to_nat k) (drop (Z.to_nat i) buf)).
  assert (length bs = Z.to_nat k) as Lbs.
  { subst bs. rewrite length_take, length_drop. lia. }
  edestruct (IH (i + 4)) as (es & s' & R & Hin & Hrd & Hon & Hother); [lia | | done | done | lia |].
  { rewrite <- Z.add_mod_idemp_l, Hi4 by lia. done. }
  exists ([Wr (iova + 16 + i) (le_value bs)] ++ es), s'. split_and!.
  - eapply runs_bind; [|exact R]. unfold NOC2AXIWrite32. rewrite Haddr. apply runs_write.
  - exact Hin.
  - intros _. destruct (Z.to_nat (words (n - i))) as [|w] eqn:Ew.
    { unfold words in Ew. pose proof (Z.div_mod (n - i + 3) 4).
      pose proof (Z.mod_pos_bound (n - i + 3) 4). lia. }
    cbn [host_read]. rewrite Hother by lia. cbn [mem]. mem_simpl.
    assert (Forall is_byte bs) as Hbs by by apply Forall_take, Forall_drop.
    destruct (Z.le_gt_cases (i + 4) n) as [H4|H4].
    + assert (w = Z.to_nat (words (n - (i + 4)))) as ->.
      { unfold words in *. replace (n - i + 3) with (n - (i + 4) + 3 + 1 * 4) in Ew by lia.
        rewrite Z_div_plus_full in Ew by lia. lia. }
      replace (iova + 16 + i + 4) with (iova + 16 + (i + 4)) by lia.
      replace (Z.to_nat (n - i) - 4)%nat with (Z.to_nat (n - (i + 4))) by lia.
      rewrite Hrd by lia. rewrite take_ge by (rewrite le_bytes_length; lia).
      replace 4%nat with (length bs) at 1 by lia. rewrite le_bytes_value by done.
      subst bs. replace (Z.to_nat (n - (i + 4))) with (Z.to_nat n - Z.to_nat i - Z.to_nat k)%nat by lia.
      replace (Z.to_nat (i + 4)) with (Z.to_nat i + Z.to_nat k)%nat by lia.
      rewrite take_take_drop_app by lia. f_equal. lia.
    + assert (w = 0)%nat as ->.
      { unfold words in *. assert ((n - i + 3) / 4 = 1); [|lia].
        symmetry. apply (Z.div_unique _ _ _ (n - i - 1)); lia. }
      cbn [host_read]. rewrite app_nil_r. replace (Z.to_nat (n - i)) with (length bs) by lia.
      rewrite take_le_bytes by (done || lia). subst bs. f_equal. rewrite Lbs. lia.
  - apply Forall_app. split.
    + constructor; [lia | constructor].
    + eapply Forall_impl; [exact Hon|]. intros [] ?; lia.
  - intros a Ha. rewrite Hother by lia. cbn [mem]. by mem_simpl.
Qed.

(** A host buffer the firmware can fill: whole words in one window. *)
Definition host_buffer_ok (iova size : Z) : Prop :=
  buffer_ok iova size /\ size < 2 ^ 32 /\ size mod 4 = 0.
Definition written st : Z := Z.min (framed_buffer_pos st) (log_buffer_size st - 16).
(** The owner byte says that the host has not read the last batch yet. *)
Definition host_owns st (m : Z -> Z) : bool :=
  Z.land (m (log_buffer_iova st + 12)) 0xFF =? FW_LOG_BUFFER_OWNER_HOST.

Lemma flush_ok st es s :
  framed st es -> host_available st = true -> host_buffer_ok (log_buffer_iova st) (log_buffer_size st) ->
  let iova := log_buffer_iova st in
  exists evs st' b s', runs (flush_buffer_to_host st) s evs (st', b) s' /\
    only_within iova (iova + log_buffer_size st) evs /\
    if b then
      st' = with_pos st 0 /\ host_owns st (mem s) = false /\
      mem s' iova = 16 + written st /\ mem s' (iova + 12) = FW_LOG_BUFFER_OWNER_HOST /\
      host_read (Z.to_nat (words (written st))) (mem s') (iova + 16) (Z.to_nat (written st))
      = take (Z.to_nat (written st)) (encode_all es)
    else (framed_buffer_pos st = 0 \/ mem s (iova + 8) <> FW_LOG_BUFFER_MAGIC \/
          host_owns st (mem s) = true) /\
      s' = s /\ (st' = st \/ st' = with_pos st 0).
Proof.
  intros ((Hr & Hb) & Ht & Hwf) Hav (Hbuf & Hsz & Hs4) iova. unfold flush_buffer_to_host.
  rewrite Hav. cbn [negb orb]. pose proof (proj1 (proj2 Hbuf)) as H16.
  destruct (Z.eqb_spec (framed_buffer_pos st) 0); cbn [orb].
  { exists [], st, false, s. split; [apply runs_ret|]. split; [constructor | auto]. }
  fold iova. unfold NOC2AXIRead32.
  rewrite (proj1 (window_addr_in iova _ 8 Hbuf ltac:(lia))).
  rewrite (proj1 (window_addr_in iova _ 12 Hbuf ltac:(lia))).
  destruct (Z.eqb_spec (mem s (iova + 8)) FW_LOG_BUFFER_MAGIC) as [Hmg|Hmg]; cycle 1.
  { exists [], (with_pos st 0), false, s. split; [|split; [constructor | auto]].
    rewrite <- (app_nil_l []). eapply runs_bind; [apply runs_read|].
    rewrite (proj2 (Z.eqb_neq _ _)) by done. apply runs_ret. }
  destruct (host_owns st (mem s)) eqn:Hown.
  { exists [], (with_pos st 0), false, s. split; [|split; [constructor | auto]].
    rewrite <- (app_nil_l []). eapply runs_bind; [apply runs_read|].
    rewrite (proj2 (Z.eqb_eq _ _)) by done. cbn [negb].
    rewrite <- (app_nil_l []). eapply runs_bind; [apply runs_read|].
    unfold host_owns in Hown. fold iova in Hown. rewrite Hown. apply runs_ret. }
  change SIZEOF_BUFFER_HEADER with 16.
  assert (u32 (log_buffer_size st - 16) = log_buffer_size st - 16) as Hsp
    by (apply wrap_id; unfold in_width; lia).
  assert (Z.min (framed_buffer_pos st) (u32 (log_buffer_size st - 16)) = written st) as Hwr
    by (rewrite Hsp; done).
  assert (16 + 4 * words (written st) <= log_buffer_size st) as Hfit.
  { unfold words, written. pose proof (Z.div_mod (log_buffer_size st) 4).
    set (w := Z.min _ _). pose proof (Z.div_mod (w + 3) 4). pose proof (Z.mod_pos_bound (w + 3) 4). lia. }
  assert (0 <= written st <= sizeof_framed st) as Hwn by (unfold written; lia).
  destruct (flush_loop_ok (Z.to_nat (written st)) iova (log_buffer_size st) (written st) 0
    (framed_log_buffer st) s Hbuf Hb Hsz) as (evs & s1 & R & Hin & Hrd & Hon & Hoth);
    [lia | done | unfold sizeof_framed in *; lia | done | lia |].
  set (v := u32 (16 + written st)).
  assert (v = 16 + written st) as Hv by (apply wrap_id; unfold in_width; lia).
  set (s2 := mk_io (<[iova := v]> (mem s1)) (inputs s1) (trace s1 ++ [Wr iova v])).
  exists (evs ++ [Wr iova v] ++ [Wr (iova + 12) FW_LOG_BUFFER_OWNER_HOST]), (with_pos st 0), true,
    (mk_io (<[iova + 12 := FW_LOG_BUFFER_OWNER_HOST]> (mem s2)) (inputs s2)
       (trace s2 ++ [Wr (iova + 12) FW_LOG_BUFFER_OWNER_HOST])).
  split; [|split].
  - rewrite <- (app_nil_l (evs ++ _)). eapply runs_bind; [apply runs_read|].
    rewrite (proj2 (Z.eqb_eq _ _)) by done. cbn [negb].
    rewrite <- (app_nil_l (evs ++ _)). eapply runs_bind; [apply runs_read|].
    unfold host_owns in Hown. fold iova in Hown. rewrite Hown, Hwr.
    eapply runs_bind; [exact R|]. unfold NOC2AXIWrite32.
    rewrite (proj1 (window_addr_in iova _ 0 Hbuf ltac:(lia))), Z.add_0_r.
    eapply runs_bind; [apply runs_write|].
    rewrite (proj1 (window_addr_in iova _ 12 Hbuf ltac:(lia))).
    eapply runs_then_ret; [apply runs_write | done].
  - apply Forall_app. split; [eapply Forall_impl; [exact Hon|]; intros [] ?; lia|].
    constructor; [lia|]. constructor; [lia | constructor].
  - unfold s2. cbn [mem]. split_and!; try done; [by mem_simpl | by mem_simpl|].
    specialize (Hrd ltac:(lia)). rewrite Z.sub_0_r, Z.add_0_r in Hrd.
    rewrite <- Ht. unfold pos. rewrite take_take.
    replace (Z.to_nat (written st) `min` Z.to_nat (framed_buffer_pos st))%nat
      with (Z.to_nat (written st)) by (unfold written in *; lia).
    change (Z.to_nat 0) with 0%nat in Hrd. rewrite drop_0 in Hrd. rewrite <- Hrd.
    apply host_read_ext. intros k Hk. by mem_simpl.
Qed.

(** Flushing writes nothing outside the host's buffer: whatever the firmware has
    framed and whatever the host left in the buffer, if that buffer has a whole
    number of words and lies in one 16 MiB window. When the host is interrupted,
    the buffer holds the framed bytes (cut to its size), and was the firmware's. *)
Theorem flush_in_bounds st es s
    (Hframed : framed st es) (Havail : host_available st = true)
    (Hbuf : host_buffer_ok (log_buffer_iova st) (log_buffer_size st)) :
  exists evs st' b s',
    flush_buffer_to_host st s = Some ((st', b), s') /\ trace s' = trace s ++ evs /\
    only_within (log_buffer_iova st) (log_buffer_iova st + log_buffer_size st) evs /\
    (b = true -> host_owns st (mem s) = false /\ host_owns st (mem s') = true /\
       host_read (Z.to_nat (words (written st))) (mem s') (log_buffer_iova st + 16)
         (Z.to_nat (written st)) = take (Z.to_nat (written st)) (encode_all es)).
Proof.
  destruct (flush_ok st es s Hframed Havail Hbuf) as (evs & st' & b & s' & (E & Ht & _) & Hw & Hb).
  exists evs, st', b, s'. split_and!; try done. intros ->.
  destruct Hb as (_ & H1 & _ & H2 & H3). split_and!; try done. unfold host_owns. by rewrite H2.
Qed.

(** * The stream the host sees

    The firmware's operations interleave with the host, which may change its
    memory in any way between them. A batch is delivered when the host is
    interrupted; it reads [write_offset] and the entries up to there. *)
Inductive log_op :=
| OpMsg (m : log_msg) (locked : bool)
| OpFlush (locked : bool)
| OpPanic (locked : bool)
| OpRequest (translation_en : bool) (r : tt_pcie_log_rqst) (res : Z)
| OpHost (m : Z -> Z).

Definition host_batch (iova : Z) (m : Z -> Z) : option (list entry) :=
  let n := m iova - SIZEOF_BUFFER_HEADER in
  parse_entries (Z.to_nat n) (host_read (Z.to_nat (words n)) m (iova + SIZEOF_BUFFER_HEADER) (Z.to_nat n)).

Definition run_log_op st (op : log_op) : IO (log_state * list bool) :=
  match op with
  | OpMsg m locked => backend_process st m locked
  | OpFlush locked => flush_work_handler st locked
  | OpPanic locked => backend_panic st locked
  | OpRequest en r res => x ← tt_pcie_log_handler st en r res; mret (x.1, [])
  | OpHost m => λ s, Some ((st, []), mk_io m (inputs s) (trace s))
  end.
Fixpoint run_log (ops : list log_op) st (s : io) : option (log_state * io * list entry) :=
  match ops with
  | [] => Some (st, s, [])
  | op :: ops =>
      match run_log_op st op s with
      | None => None
      | Some ((st1, msis), s1) =>
          batch ← (if existsb id msis then host_batch (log_buffer_iova st1) (mem s1) else Some []);
          '(st2, s2, es) ← run_log ops st1 s1;
          Some (st2, s2, batch ++ es)
      end
  end.

(** Messages that get a sequence number. *)
Definition counted (m : log_msg) : bool := negb ((level m =? LOG_LEVEL_NONE) && negb (has_source m)).
Definition op_msgs (op : log_op) : list log_msg :=
  match op with OpMsg m _ => if counted m then [m] else [] | _ => [] end.
Definition messages (ops : list log_op) : list log_msg := ops ≫= op_msgs.

Definition rqst_iova (r : tt_pcie_log_rqst) : Z :=
  Z.lor (Z.shiftl (buffer_addr_hi r) 32) (buffer_addr_lo r).
(** The host offers buffers that hold a full local buffer of [N] bytes. *)
Definition op_ok (N : Z) (op : log_op) : Prop :=
  match op with
  | OpMsg m _ => msg_ok m
  | OpRequest _ r _ =>
      subcmd r = TT_PCIE_LOG_SUBCMD_SETUP ->
      host_buffer_ok (rqst_iova r) (buffer_size r) /\ SIZEOF_BUFFER_HEADER + N <= buffer_size r
  | _ => True
  end.

(** An entry tells truly of the message with its number. *)
Definition faithful (msgs : list log_msg) (e : entry) : Prop :=
  exists m, msgs !! Z.to_nat (e_sequence e) = Some m /\ e_level e = u8 (level m) /\
    e_timestamp e = u32 (msg_timestamp m) /\ e_text e `prefix_of` concat (chunks m).
Definition in_order : list entry -> Prop := StronglySorted (λ a b, e_sequence a < e_sequence b).

Definition boot_log (N : nat) : log_state :=
  {| host_available := false; log_buffer_iova := 0; log_buffer_size := 0; sequence_number := 0;
     framed_log_buffer := replicate N 0; framed_buffer_pos := 0 |}.

(** What holds between operations: [msgs] the messages so far, [done_] the
    entries delivered, [es] those waiting. *)
Record log_inv (N : Z) (msgs : list log_msg) (done_ : list entry) st (es : list entry) : Prop := {
  inv_framed : framed st es;
  inv_size : sizeof_framed st = N;
  inv_seq : sequence_number st = Z.of_nat (length msgs);
  inv_host : host_available st = true ->
    host_buffer_ok (log_buffer_iova st) (log_buffer_size st) /\ 16 + N <= log_buffer_size st;
  inv_order : in_order (done_ ++ es);
  inv_below : Forall (λ e, 0 <= e_sequence e < Z.of_nat (length msgs)) (done_ ++ es);
  inv_faithful : Forall (faithful msgs) (done_ ++ es);
}.

Lemma faithful_snoc msgs m e : faithful msgs e -> faithful (msgs ++ [m]) e.
Proof.
  intros (m' & H & ?). exists m'. split; [|done]. by apply lookup_app_l_Some.
Qed.

Lemma encode_all_length es : (length es <= length (encode_all es))%nat.
Proof.
  induction es as [|e es IH]; [done|].
  change (encode_all (e :: es)) with (encode e ++ encode_all es).
  rewrite length_app, encode_length. cbn. lia.
Qed.

Lemma framed_nil st : frame_ok st -> framed (with_pos st 0) [].
Proof.
  intros [Hr Hb]. split; [|split; [done | constructor]]. split; [|done].
  cbn. unfold sizeof_framed in *. cbn. lia.
Qed.

Lemma inv_drop N msgs done_ st es :
  log_inv N msgs done_ st es -> log_inv N msgs done_ (with_pos st 0) [].
Proof.
  intros [Hf Hs Hq Hh Ho Hb Hfa]. destruct Hf as (Hok & _ & _).
  split; try done; try by apply framed_nil; rewrite app_nil_r.
  - apply framed_nil, Hok.
  - rewrite app_nil_r. by apply StronglySorted_app_1_l in Ho.
  - rewrite app_nil_r. by apply Forall_app in Hb as [? _].
  - rewrite app_nil_r. by apply Forall_app in Hfa as [? _].
Qed.

(** A flush keeps the invariant; if it interrupts the host, the host reads exactly
    the waiting entries. *)
Lemma inv_flush N msgs done_ st es s :
  log_inv N msgs done_ st es ->
  exists st' b s', flush_buffer_to_host st s = Some ((st', b), s') /\
    (exists es', log_inv N msgs (if b then done_ ++ es else done_) st' es') /\
    same_host st st' /\ sequence_number st' = sequence_number st /\
    (b = true -> host_batch (log_buffer_iova st') (mem s') = Some es /\ host_owns st' (mem s') = true) /\
    (b = false -> s' = s) /\ (host_owns st (mem s) = true -> b = false).
Proof.
  intros Hinv. pose proof Hinv as [Hf Hs Hq Hh Ho Hb Hfa]. pose proof Hf as ((Hr & Hby) & Ht & Hwf).
  destruct (host_available st) eqn:Hav; cycle 1.
  { exists st, false, s. unfold flush_buffer_to_host. rewrite Hav, orb_true_r.
    split_and!; try done. eauto. }
  destruct (Hh eq_refl) as [Hbuf HN].
  destruct (flush_ok st es s Hf Hav Hbuf) as (evs & st' & b & s' & (E & _ & _) & _ & Hcase).
  exists st', b, s'. split; [done|]. destruct b.
  - destruct Hcase as (-> & Hown & Hoff & Hho & Hrd).
    assert (written st = framed_buffer_pos st) as Hw by (unfold written; lia).
    split_and!; try done.
    + exists []. pose proof (inv_drop _ _ _ _ _ Hinv) as [? ? ? ? _ _ _].
      split; try done; by rewrite app_nil_r.
    + intros _. split; [|unfold host_owns; cbn; by rewrite Hho]. cbn [log_buffer_iova with_pos with_frame].
      unfold host_batch. change SIZEOF_BUFFER_HEADER with 16. rewrite Hoff.
      replace (16 + written st - 16) with (written st) by lia. rewrite Hrd, Hw.
      assert (Z.to_nat (framed_buffer_pos st) = length (encode_all es)) as Hlen.
      { rewrite <- Ht, length_take. unfold pos, sizeof_framed in *. lia. }
      rewrite Hlen, firstn_all. apply parse_encode; [done|]. apply encode_all_length.
    + by rewrite Hown.
  - destruct Hcase as [_ [-> [->| ->]]]; split_and!; try done; eauto using inv_drop.
Qed.

(** ** One operation *)
Definition delivered (msis : list bool) st (m : Z -> Z) : option (list entry) :=
  if existsb id msis then host_batch (log_buffer_iova st) m else Some [].

Lemma inv_drop_message N msgs done_ st es m :
  log_inv N msgs done_ st es -> Z.of_nat (length msgs) + 1 < 2 ^ 32 ->
  log_inv N (msgs ++ [m]) done_ (drop_message st) es.
Proof.
  intros [Hf Hs Hq Hh Ho Hb Hfa] Hlen. split; try done.
  - unfold drop_message, with_seq. cbn [sequence_number]. rewrite Hq, length_app. cbn [length].
    rewrite wrap_id by (unfold in_width; lia). lia.
  - eapply Forall_impl; [exact Hb|]. intros e ?. cbn beta in *. rewrite length_app. lia.
  - eapply Forall_impl; [exact Hfa|]. intros e. apply faithful_snoc.
Qed.

Lemma inv_frame N msgs done_ st es m :
  log_inv N msgs done_ st es -> Z.of_nat (length msgs) + 1 < 2 ^ 32 -> N < 65536 -> msg_ok m ->
  framed_buffer_pos st + SIZEOF_ENTRY_HEADER + 1 <= sizeof_framed st ->
  exists st', frame_entry st m = Some st' /\ same_host st st' /\
    log_inv N (msgs ++ [m]) done_ st' (es ++ [new_entry st m]).
Proof.
  intros Hinv Hlen HN Hm Hroom. pose proof (inv_drop_message _ _ _ _ _ m Hinv Hlen) as [_ _ Hq' _ _ Hb' Hfa'].
  destruct Hinv as [Hf Hs Hq Hh Ho Hb Hfa].
  destruct (frame_entry_ok st es m Hf Hm) as (st' & E & Hf' & Hsh & Hsq); [| lia | done |].
  { rewrite Hq. unfold in_width. lia. }
  exists st'. split; [done|]. split; [done|]. destruct Hsh as (Ha & Hi & Hz & Hsf).
  split; rewrite ?app_assoc; try done.
  - by rewrite Hsf.
  - rewrite Hsq. exact Hq'.
  - rewrite Ha, Hi, Hz. done.
  - apply StronglySorted_app_2; [|done|repeat constructor].
    intros a b Ha' Hb1%list_elem_of_singleton. subst b.
    apply list.Forall_forall with (x := a) in Hb; [|done]. cbn. lia.
  - apply Forall_app. split; [done|]. constructor; [|constructor].
    cbn. rewrite Hq, length_app. cbn. lia.
  - apply Forall_app. split; [done|]. constructor; [|constructor].
    exists m. cbn. rewrite Hq, Nat2Z.id. split; [apply list_lookup_middle; done|].
    split_and!; try done. apply prefix_take.
Qed.

(** A flush under a condition: [backend_process] does two, of which at most one
    reaches the host. *)
Lemma inv_flush_when N msgs done_ st es s (c : bool) :
  log_inv N msgs done_ st es ->
  exists st' msis s' batch,
    (if c then r ← flush_buffer_to_host st; mret (r.1, [r.2]) else mret (st, [])) s
      = Some ((st', msis), s') /\
    delivered msis st' (mem s') = Some batch /\
    (exists es', log_inv N msgs (done_ ++ batch) st' es') /\ same_host st st' /\
    (existsb id msis = true -> host_owns st' (mem s') = true) /\
    (host_owns st (mem s) = true -> existsb id msis = false) /\
    (existsb id msis = false -> s' = s).
Proof.
  intros Hinv. destruct c; cycle 1.
  { exists st, [], s, []. rewrite app_nil_r. split_and!; try done. eauto. }
  destruct (inv_flush _ _ _ _ _ s Hinv) as (st' & b & s' & E & Hes & Hsh & _ & Ht & Hf & Hno).
  exists st', [b], s', (if b then es else []). split.
  { unfold mbind, IO_bind. rewrite E. done. }
  unfold delivered. destruct b; cbn [existsb id orb].
  - destruct (Ht eq_refl) as [Hbt Ho]. split_and!; try done; eauto.
  - rewrite app_nil_r. split_and!; try done; eauto.
Qed.

Lemma same_host_trans st1 st2 st3 : same_host st1 st2 -> same_host st2 st3 -> same_host st1 st3.
Proof. unfold same_host. intros (?&?&?&?) (?&?&?&?). split_and!; congruence. Qed.

Lemma delivered_same_host msis st st' m :
  same_host st st' -> delivered msis st' m = delivered msis st m.
Proof. intros (_ & H & _). unfold delivered. by rewrite H. Qed.
Lemma host_owns_same st st' m : same_host st st' -> host_owns st' m = host_owns st m.
Proof. intros (_ & H & _). unfold host_owns. by rewrite H. Qed.

Definition step_ok N msgs done_ (run : option ((log_state * list bool) * io)) : Prop :=
  exists st' msis s' batch es', run = Some ((st', msis), s') /\
    delivered msis st' (mem s') = Some batch /\ log_inv N msgs (done_ ++ batch) st' es'.

Lemma step_flush N msgs done_ st es s (c : bool) :
  log_inv N msgs done_ st es ->
  step_ok N msgs done_
    ((if c then r ← flush_buffer_to_host st; mret (r.1, [r.2]) else mret (st, [])) s).
Proof.
  intros H. destruct (inv_flush_when _ _ _ _ _ s c H)
    as (st' & msis & s' & batch & E & Hd & [es' He] & _).
  exists st', msis, s', batch, es'. done.
Qed.

Lemma step_done N msgs done_ st es s :
  log_inv N msgs done_ st es -> step_ok N msgs done_ (Some ((st, []), s)).
Proof. intros H. exists st, [], s, [], es. rewrite app_nil_r. done. Qed.

Lemma step_msg N msgs done_ st es s m locked :
  log_inv N msgs done_ st es -> N < 65536 -> msg_ok m ->
  Z.of_nat (length (msgs ++ op_msgs (OpMsg m locked))) < 2 ^ 32 ->
  step_ok N (msgs ++ op_msgs (OpMsg m locked)) done_ (backend_process st m locked s).
Proof.
  intros Hinv HN Hm Hlen. unfold backend_process, op_msgs, counted in *.
  destruct (_ && _); cbn [negb] in *.
  { rewrite app_nil_r. by eapply step_done. }
  rewrite length_app in Hlen. cbn [length] in Hlen.
  destruct locked; cbn [negb]; [|eapply step_done, inv_drop_message; [done|lia]].
  destruct (inv_flush_when _ _ _ _ _ s (sizeof_framed st <? framed_buffer_pos st + FLUSH_THRESHOLD_BYTES) Hinv)
    as (st1 & msis & s1 & batch & E & Hd & [es1 Hinv1] & Hsh & Hown & _ & _).
  lazymatch goal with |- context [(?a ≫= ?k) s] => change ((a ≫= k) s) with (match a s with Some (x, s2) => k x s2 | None => None end) end. rewrite E.
  destruct (Z.ltb_spec (sizeof_framed st1) (framed_buffer_pos st1 + SIZEOF_ENTRY_HEADER + 1)).
  { exists (drop_message st1), msis, s1, batch, es1. split_and!; try done.
    apply inv_drop_message; [done|lia]. }
  destruct (inv_frame _ _ _ _ _ m Hinv1) as (st2 & E2 & Hsh2 & Hinv2); [lia | done | done | done |].
  rewrite E2.
  destruct (u8 (level m) =? LOG_LEVEL_ERR); cycle 1.
  { exists st2, msis, s1, batch, (es1 ++ [new_entry st1 m]). split_and!; try done.
    by rewrite (delivered_same_host _ st1). }
  destruct (inv_flush_when _ _ _ _ _ s1 true Hinv2)
    as (st3 & msis3 & s3 & batch3 & E3 & Hd3 & [es3 Hinv3] & Hsh3 & _ & Hno & Hsame).
  destruct (flush_buffer_to_host st2 s1) as [[[st3' b] s3']|] eqn:Ef;
    unfold mbind, IO_bind in E3; rewrite Ef in E3; [|done].
  injection E3 as <- <- <-.
  exists st3', (msis ++ [b]), s3', (batch ++ batch3), es3. split_and!.
  - unfold mbind, IO_bind. by rewrite Ef.
  - unfold delivered in *. rewrite existsb_app. destruct (existsb id msis) eqn:Em.
    + rewrite (host_owns_same _ _ _ Hsh2) in Hno. specialize (Hno (Hown eq_refl)).
      cbn in Hno. rewrite orb_false_r in Hno. cbn in Hno, Hsame.
      rewrite Hno in *. rewrite Hsame in * by done. injection Hd3 as <-. rewrite app_nil_r.
      destruct Hsh2 as (_ & H2 & _). destruct Hsh3 as (_ & H3 & _). cbn in H3.
      cbn [orb]. by rewrite H3, H2.
    + injection Hd as <-. done.
  - by rewrite app_assoc.
Qed.

Lemma step_request N msgs done_ st es s en r res :
  log_inv N msgs done_ st es -> op_ok N (OpRequest en r res) ->
  step_ok N msgs done_ (run_log_op st (OpRequest en r res) s).
Proof.
  intros Hinv Hok. cbn [run_log_op]. rewrite IO_bind_unfold. unfold tt_pcie_log_handler.
  destruct en; [|by eapply step_done]. cbn [negb].
  destruct (Z.eqb_spec (subcmd r) TT_PCIE_LOG_SUBCMD_SETUP) as [Hs|].
  - destruct (Hok Hs) as [Hb Hn]. unfold setup_tt_pcie_log_backend.
    destruct (_ <? _); [by eapply step_done|]. destruct (negb _); [by eapply step_done|].
    eapply (step_done _ _ _ _ es). destruct Hinv as [? ? ? ? ? ? ?]. by split.
  - destruct (_ =? _); [|by eapply step_done]. unfold release_tt_pcie_log_backend.
    destruct (negb _); [by eapply step_done|]. destruct (negb _); [by eapply step_done|].
    eapply (step_done _ _ _ _ es). destruct Hinv as [? ? ? ? ? ? ?]. by split.
Qed.

Lemma step_op N msgs done_ st es s op :
  log_inv N msgs done_ st es -> N < 65536 -> op_ok N op ->
  Z.of_nat (length (msgs ++ op_msgs op)) < 2 ^ 32 ->
  step_ok N (msgs ++ op_msgs op) done_ (run_log_op st op s).
Proof.
  intros Hinv HN Hok Hlen. destruct op as [m l|l|l|en r res|m]; [by eapply step_msg|..];
    cbn [op_msgs] in *; rewrite app_nil_r.
  - cbn [run_log_op]. unfold flush_work_handler. destruct l; cbn [negb].
    + by apply (step_flush _ _ _ _ es s true).
    + by eapply step_done.
  - cbn [run_log_op]. unfold backend_panic. by apply (step_flush _ _ _ _ es s l).
  - by eapply step_request.
  - by eapply step_done.
Qed.

Lemma run_log_ok N ops : forall msgs done_ st es s,
  log_inv N msgs done_ st es -> N < 65536 -> Forall (op_ok N) ops ->
  Z.of_nat (length (msgs ++ messages ops)) < 2 ^ 32 ->
  exists st' s' out es', run_log ops st s = Some (st', s', out) /\
    log_inv N (msgs ++ messages ops) (done_ ++ out) st' es'.
Proof.
  induction ops as [|op ops IH]; intros msgs done_ st es s Hinv HN Hok Hlen.
  - exists st, s, [], es. cbn. rewrite !app_nil_r. done.
  - apply Forall_cons_1 in Hok as [Hop Hok].
    change (messages (op :: ops)) with (op_msgs op ++ messages ops) in *.
    rewrite app_assoc in *.
    destruct (step_op N msgs done_ st es s op) as (st1 & msis & s1 & batch & es1 & E & Hd & Hinv1);
      [done | done | done | rewrite length_app in Hlen; lia |].
    destruct (IH _ _ _ _ s1 Hinv1) as (st2 & s2 & out & es2 & E2 & Hinv2); [done..|].
    exists st2, s2, (batch ++ out), es2. split; [|by rewrite app_assoc].
    cbn [run_log]. rewrite E. unfold delivered in Hd. rewrite Hd. cbn [mbind option_bind].
    rewrite E2. done.
Qed.

Lemma boot_log_inv (N : nat) : log_inv (Z.of_nat N) [] [] (boot_log N) [].
Proof.
  split; try done; cbn [boot_log].
  - split; [|split; [done | constructor]]. split; unfold sizeof_framed; cbn.
    + rewrite length_replicate. lia.
    + apply Forall_replicate. done.
  - unfold sizeof_framed. cbn. by rewrite length_replicate.
  - constructor.
Qed.

(** C35. Whatever the order of messages, flushes, requests and changes the host makes to its memory, the
    firmware does not access its local buffer out of bounds, the batches the host reads parse, and over
    all batches the entries have increasing sequence numbers, each with level, time and (a prefix of)
    the text of the message with that number; so gaps in the numbers are the lost messages. The buffers
    that the host offers are aligned to words, lie within one 16 MiB window and hold the frame and a
    full local buffer, 16 + N bytes: the firmware only checks a minimum of 29 bytes, and others lose
    entries or are overrun ([odd_size_overruns], [window_wraps]). And there are fewer than [2^32]
    messages, so that their numbers differ. *)
Theorem log_in_order (N : nat) ops s
    (HN : Z.of_nat N < 65536) (Hops : Forall (op_ok (Z.of_nat N)) ops)
    (Hmsgs : Z.of_nat (length (messages ops)) < 2 ^ 32) :
  exists st' s' out, run_log ops (boot_log N) s = Some (st', s', out) /\
    in_order out /\ Forall (faithful (messages ops)) out.
Proof.
  destruct (run_log_ok (Z.of_nat N) ops [] [] (boot_log N) [] s)
    as (st' & s' & out & es & E & [_ _ _ _ Ho _ Hf]);
    [apply boot_log_inv | lia | done | done |].
  exists st', s', out. split; [done|]. split.
  - by apply StronglySorted_app_1_l in Ho.
  - by apply Forall_app in Hf as [? _].
Qed.

(** An error message reaches the host at once, after all that waits: the host is
    interrupted and reads the waiting entries and then the message. *)
Theorem error_delivered N msgs done_ st es s m
    (Hinv : log_inv N msgs done_ st es)
    (Hcount : Z.of_nat (length msgs) + 1 < 2 ^ 32) (HN : N < 65536)
    (Havail : host_available st = true)
    (Hmagic : mem s (log_buffer_iova st + 8) = FW_LOG_BUFFER_MAGIC)
    (Hread : host_owns st (mem s) = false)
    (Hroom : framed_buffer_pos st + FLUSH_THRESHOLD_BYTES <= N)
    (Hlevel : level m = LOG_LEVEL_ERR) (Hm : msg_ok m) :
  exists st' s', backend_process st m true s = Some ((st', [true]), s') /\
    host_batch (log_buffer_iova st') (mem s') = Some (es ++ [new_entry st m]).
Proof.
  assert (sizeof_framed st = N) as Hs by apply Hinv.
  destruct (inv_frame _ _ _ _ _ m Hinv) as (st2 & E2 & Hsh & Hinv2); try done.
  { rewrite Hs. unfold FLUSH_THRESHOLD_BYTES, SIZEOF_ENTRY_HEADER in *. lia. }
  unfold backend_process. rewrite Hlevel. change (LOG_LEVEL_ERR =? LOG_LEVEL_NONE) with false. cbn [andb negb].
  rewrite IO_bind_unfold, Hs. rewrite (proj2 (Z.ltb_ge _ _)) by lia. cbn [mret IO_ret].
  rewrite Hs, (proj2 (Z.ltb_ge _ _)) by (unfold FLUSH_THRESHOLD_BYTES, SIZEOF_ENTRY_HEADER in *; lia).
  rewrite E2. change (u8 LOG_LEVEL_ERR =? LOG_LEVEL_ERR) with true. cbv iota beta.
  destruct (inv_flush _ _ _ _ _ s Hinv2) as (st3 & b & s3 & E3 & _ & _ & _ & Hb & _).
  pose proof Hinv2 as [Hf2 _ _ Hh2 _ _ _]. pose proof Hsh as (Ha2 & Hi2 & _ & _).
  destruct (flush_ok st2 _ s Hf2) as (_ & st3' & b' & s3' & (E3' & _) & _ & Hcase);
    [congruence | apply Hh2; congruence |].
  rewrite E3 in E3'. injection E3' as <- <- <-.
  destruct b; cycle 1.
  { exfalso. destruct Hcase as [[Hp|[Hp|Hp]] _].
    - destruct Hf2 as ((_ & _) & Ht & _). unfold pos in Ht. rewrite Hp, encode_all_snoc in Ht.
      symmetry in Ht. apply app_eq_nil in Ht as [_ Ht]. apply (f_equal length) in Ht.
      rewrite encode_length in Ht. cbn in Ht. lia.
    - by rewrite Hi2 in Hp.
    - rewrite (host_owns_same _ _ _ Hsh) in Hp. congruence. }
  exists st3, s3. split; [by rewrite IO_bind_unfold, E3|]. by apply Hb.
Qed.

(** ** Witnesses *)
Definition hello : log_msg :=
  {| level := 3; has_source := true; msg_timestamp := 7; chunks := [[104; 101]; [108; 108; 111]] |}.
Definition failure : log_msg :=
  {| level := 1; has_source := true; msg_timestamp := 9; chunks := [[98; 97; 100]] |}.
Definition host_at_4096 : tt_pcie_log_rqst :=
  {| subcmd := 1; buffer_addr_lo := 4096; buffer_addr_hi := 0; buffer_size := 4096 |}.
(** The host takes the first batch late: the second message is lost. *)
Definition session : list log_op :=
  [OpRequest true host_at_4096 0; OpMsg hello true; OpFlush true; OpMsg failure true;
   OpHost (<[4104 := FW_LOG_BUFFER_MAGIC]> (λ _, 0)); OpMsg hello true; OpMsg failure true].
Definition s0 : io := mk_io (λ _, 0) [] [].

Lemma host_buffer_4096 : host_buffer_ok 4096 4096.
Proof. split_and!; try done; by vm_compute. Qed.
Lemma hello_ok : msg_ok hello /\ msg_ok failure.
Proof. split; repeat constructor; cbn; lia. Qed.

Lemma log_in_order_witness :
  (exists st' s' out, run_log session (boot_log 512) s0 = Some (st', s', out) /\
     in_order out /\ Forall (faithful (messages session)) out) /\
  option_map (λ x, map e_sequence (snd x)) (run_log session (boot_log 512) s0) = Some [0; 2; 3].
Proof.
  split; [|by vm_compute].
  apply (log_in_order 512 session s0).
  - lia.
  - destruct hello_ok. unfold session.
    apply Forall_cons_2; [intros _; split; [exact host_buffer_4096 | by vm_compute]|].
    repeat (apply Forall_cons_2; [done|]). constructor.
  - cbn. lia.
Defined.

Definition ready_log : log_state := with_host (boot_log 512) true 4096 4096.
Definition ready_mem : io := mk_io (<[4104 := FW_LOG_BUFFER_MAGIC]> (λ _, 0)) [] [].

Lemma ready_inv : log_inv 512 [] [] ready_log [].
Proof.
  destruct (boot_log_inv 512) as [? ? ? ? ? ? ?]. split; done.
Qed.

Lemma error_delivered_witness :
  exists st' s', backend_process ready_log failure true ready_mem = Some ((st', [true]), s') /\
    host_batch (log_buffer_iova st') (mem s') = Some ([] ++ [new_entry ready_log failure]).
Proof.
  apply (error_delivered 512 [] []); [exact ready_inv | cbn; lia | lia | reflexivity | reflexivity
    | reflexivity | by vm_compute | reflexivity | exact (proj2 hello_ok)].
Defined.

Lemma flush_in_bounds_witness :
  exists evs st' b s', flush_buffer_to_host ready_log ready_mem = Some ((st', b), s') /\
    trace s' = trace ready_mem ++ evs /\
    only_within 4096 (4096 + 4096) evs /\
    (b = true -> host_owns ready_log (mem ready_mem) = false /\ host_owns ready_log (mem s') = true /\
       host_read (Z.to_nat (words (written ready_log))) (mem s') (4096 + 16)
         (Z.to_nat (written ready_log)) = take (Z.to_nat (written ready_log)) (encode_all [])).
Proof.
  apply (flush_in_bounds ready_log [] ready_mem);
    [apply ready_inv | reflexivity | exact host_buffer_4096].
Defined.

(** ** Buffers the code accepts and cannot fill *)

(** The words written by a flush of [n] framed bytes into a buffer of [size] bytes
    at [iova], set up by the host's request. *)
Definition flush_writes (lo size n : Z) : option (list Z) :=
  let r := {| subcmd := 1; buffer_addr_lo := lo; buffer_addr_hi := 0; buffer_size := size |} in
  match tt_pcie_log_handler (boot_log 512) true r 0 s0 with
  | Some ((st, 0), s) =>
      match flush_buffer_to_host (with_pos st n) (mk_io (mem s) [] []) with
      | Some ((_, true), s') => Some (omap (λ e, match e with Wr a _ => Some a | _ => None end) (trace s'))
      | _ => None
      end
  | _ => None
  end.

(** The setup request accepts a size that is not a multiple of four; the last word
    of a full batch is then written past the end of the host's buffer. *)
Theorem odd_size_overruns :
  flush_writes 4096 29 100 = Some [4112; 4116; 4120; 4124; 4096; 4108] /\ 4096 + 29 < 4124 + 4.
Proof. split; [by vm_compute | lia]. Qed.

(** It also accepts a buffer that crosses a 16 MiB boundary; the words beyond it
    are written to the start of the window, outside the buffer. *)
Theorem window_wraps :
  flush_writes (2 ^ 24 - 20) 64 16
  = Some [2 ^ 24 - 4; 0; 4; 8; 2 ^ 24 - 20; 2 ^ 24 - 8].
Proof. by vm_compute. Qed.
