(* ===== verification/Occp.v ===== *)
(** The chiplet configuration protocol and its users: [lib/tenstorrent/occp/occp.c],
    [occp_i3c.c], [drivers/misc/tt_smc_remoteproc] and
    [drivers/misc/tt_mimir_remote_boot].

    The transport is the class [Backend] (the code's two function pointers), what
    the remote end does with a request the class [Chiplet]; the checksum of the
    header is Zephyr's and a parameter. Requests and responses are byte lists laid
    out as the packed structures. An access outside [occp_rw_buffer] is [None]. *)
From stdpp Require Import prelude list numbers.
From Stdlib Require Import ZArith Lia.
From S2P Require Import Prelude.
Open Scope Z_scope.

(** ** Data *)
Definition OCCP_APP_BASE : Z := 0x0.
Definition OCCP_BASE_MSG_GET_VERSION : Z := 0x0.
Definition OCCP_BASE_MSG_WRITE_DATA : Z := 0x2.
Definition OCCP_BASE_MSG_READ_DATA : Z := 0x3.
Definition OCCP_APP_BOOT : Z := 0x1.
Definition OCCP_BOOT_MSG_EXECUTE_IMAGE : Z := 0x1.
Definition OCCP_MAX_MSG_SIZE : Z := 255.
(** [CONFIG_OCCP_RETRY_COUNT] at its default. *)
Definition OCCP_RETRY_COUNT : nat := 10.
Definition sizeof_header : Z := 8.
(** [struct occp_write_data_request] and [struct occp_read_data_request]. *)
Definition sizeof_data_request : Z := 20.
Definition sizeof_version_response : Z := 13.
Definition sizeof_execute_response : Z := 8.

Record occp_header := {
  header_crc : Z;
  body_crc_present : Z;
  i3c_flags : Z;
  app_id : Z;
  msg_id : Z;
  flags : Z;
  length_ : Z;
}.
(** The packed header: bit fields from the low bits up. *)
Definition header_tail (h : occp_header) : list Z :=
  le_bytes 3 (body_crc_present h + 2 * i3c_flags h) ++ [app_id h; msg_id h]
  ++ le_bytes 2 (flags h + 32 * length_ h).
Definition header_bytes (h : occp_header) : list Z := header_crc h :: header_tail h.
(** The fields a receiver reads. *)
Definition flags_of (bs : list Z) : Z := le_value (take 2 (drop 6 bs)) mod 32.

Class Backend (W : Type) := {
  send : list Z -> W -> Z * W;
  (** the return value and the bytes put into the buffer *)
  receive : Z -> W -> Z * list Z * W;
}.

Section occp.
Variable crc8 : list Z -> Z.
Context {W : Type} `{Backend W}.
Implicit Types (w : W).

Definition fill_cmd_header (app msg len : Z) : occp_header :=
  let h := {| header_crc := 0; body_crc_present := 0; i3c_flags := 0; app_id := app;
              msg_id := msg; flags := 0; length_ := len mod 2048 |} in
  {| header_crc := crc8 (header_tail h); body_crc_present := 0; i3c_flags := 0; app_id := app;
     msg_id := msg; flags := 0; length_ := len mod 2048 |}.

(** A received message in a buffer that had the contents [response]. *)
Definition into (response : list Z) (response_len : Z) (data : list Z) : option (list Z) :=
  if Z.of_nat (length response) <? response_len then None
  else memcpy_at response 0 (take (Z.to_nat response_len) data).

Definition occp_get_version w : option (Z * option (Z * Z * Z) * W) :=
  let '(ret, w) := send (header_bytes (fill_cmd_header OCCP_APP_BASE OCCP_BASE_MSG_GET_VERSION 0)) w in
  if negb (ret =? 0) then Some (ret, None, w)
  else
    let '(ret, data, w) := receive sizeof_version_response w in
    resp ← into (replicate (Z.to_nat sizeof_version_response) 0) sizeof_version_response data;
    if negb (ret =? 0) then Some (ret, None, w)
    else Some (0, Some (le_value (take 1 (drop 8 resp)), le_value (take 1 (drop 9 resp)),
                        u8 (le_value (take 2 (drop 10 resp)))), w).

Definition occp_tx_rx (cmd response : list Z) (response_len : Z) w : option (Z * list Z * W) :=
  let '(ret, w) := send cmd w in
  if negb (ret =? 0) then Some (ret, response, w)
  else
    let '(ret, data, w) := receive response_len w in
    response ← into response response_len data;
    if negb (ret =? 0) then Some (ret, response, w)
    else if negb (flags_of response =? 0) then Some (- EIO, response, w)
    else Some (ret, response, w).

Fixpoint occp_run_transaction (retry_cnt : nat) (cmd response : list Z) (response_len : Z) w
  : option (Z * list Z * W) :=
  match occp_tx_rx cmd response response_len w with
  | None => None
  | Some (ret, response, w) =>
      match retry_cnt with
      | O => Some (ret, response, w)
      | S retry_cnt =>
          if negb (ret =? 0) then
            match retry_cnt with
            | O => Some (ret, response, w)
            | S _ => occp_run_transaction retry_cnt cmd response response_len w
            end
          else Some (ret, response, w)
      end
  end.

Definition IS_ALIGNED (v a : Z) : bool := v mod a =? 0.
Definition ROUND_DOWN (v a : Z) : Z := v / a * a.

(** The request in front of the data. *)
Definition data_request (msg len addr n : Z) : list Z :=
  header_bytes (fill_cmd_header OCCP_APP_BASE msg len)
  ++ le_bytes 4 (Z.land addr (GENMASK 31 0)) ++ le_bytes 4 (Z.shiftr addr 32)
  ++ le_bytes 4 (n mod 2048).

(** [data] is what remains of the caller's buffer, [buf] is [occp_rw_buffer]. *)
Fixpoint write_loop (fuel : nat) (write_addr : Z) (data buf : list Z) w : option (Z * list Z * W) :=
  let remaining := Z.of_nat (length data) in
  if 0 <? remaining then
    match fuel with
    | O => None
    | S fuel =>
        let write_length := Z.min remaining (OCCP_MAX_MSG_SIZE - sizeof_data_request) in
        let write_length := ROUND_DOWN write_length 4 in
        let write_req := data_request OCCP_BASE_MSG_WRITE_DATA
          (sizeof_data_request - sizeof_header + write_length) write_addr write_length in
        buf ← memcpy_at buf 0 write_req;
        buf ← memcpy_at buf sizeof_data_request (take (Z.to_nat write_length) data);
        '(ret, _, w) ← occp_run_transaction OCCP_RETRY_COUNT
          (take (Z.to_nat (sizeof_data_request + write_length)) buf)
          (replicate (Z.to_nat sizeof_header) 0) sizeof_header w;
        if negb (ret =? 0) then Some (ret, buf, w)
        else write_loop fuel (u64 (write_addr + write_length))
               (drop (Z.to_nat write_length) data) buf w
    end
  else Some (0, buf, w).
Definition occp_write_data (address : Z) (data buf : list Z) w : option (Z * list Z * W) :=
  if negb (IS_ALIGNED address 4) then Some (- EINVAL, buf, w)
  else if negb (IS_ALIGNED (Z.of_nat (length data)) 4) then Some (- EINVAL, buf, w)
  else write_loop (length data) address data buf w.

(** [got] is what the caller's buffer has been filled with. *)
Fixpoint read_loop (fuel : nat) (read_addr remaining : Z) (got buf : list Z) w
  : option (Z * list Z * list Z * W) :=
  if 0 <? remaining then
    match fuel with
    | O => None
    | S fuel =>
        let read_length := Z.min remaining OCCP_MAX_MSG_SIZE in
        let read_length := ROUND_DOWN read_length 4 in
        let crc_len := if 13 <? read_length then 4 else 1 in
        let read_req := data_request OCCP_BASE_MSG_READ_DATA
          (sizeof_data_request - sizeof_header) read_addr read_length in
        '(ret, buf, w) ← occp_run_transaction OCCP_RETRY_COUNT read_req buf
          (sizeof_header + read_length + crc_len) w;
        if negb (ret =? 0) then Some (ret, got, buf, w)
        else read_loop fuel (u64 (read_addr + read_length)) (remaining - read_length)
               (got ++ take (Z.to_nat read_length) (drop (Z.to_nat sizeof_header) buf)) buf w
    end
  else Some (0, got, buf, w).
Definition occp_read_data (address len : Z) (buf : list Z) w : option (Z * list Z * list Z * W) :=
  if negb (IS_ALIGNED address 4) then Some (- EINVAL, [], buf, w)
  else if negb (IS_ALIGNED len 4) then Some (- EINVAL, [], buf, w)
  else read_loop (Z.to_nat len) address len [] buf w.

Definition execute_request (execution_address cpu_id : Z) : list Z :=
  header_bytes (fill_cmd_header OCCP_APP_BOOT OCCP_BOOT_MSG_EXECUTE_IMAGE (18 - sizeof_header))
  ++ le_bytes 4 (Z.land execution_address (GENMASK 31 0))
  ++ le_bytes 4 (Z.shiftr execution_address 32) ++ le_bytes 2 (cpu_id mod 256).
Definition occp_execute_image (execution_address cpu_id : Z) w : option (Z * W) :=
  let '(ret, w) := send (execute_request execution_address cpu_id) w in
  if negb (ret =? 0) then Some (ret, w)
  else
    let '(ret, data, w) := receive sizeof_execute_response w in
    resp ← into (replicate (Z.to_nat sizeof_execute_response) 0) sizeof_execute_response data;
    if negb (ret =? 0) then Some (ret, w)
    else if negb (flags_of resp =? 0) then Some (- EIO, w)
    else Some (0, w).

(** ** The remote processors *)
Definition tt_smc_remoteproc_load (addr : Z) (bin_data buf : list Z) w : option (Z * list Z * W) :=
  '(ret, buf, w) ← occp_write_data addr bin_data buf w;
  if negb (ret =? 0) then Some (ret, buf, w) else Some (0, buf, w).
Definition tt_smc_remoteproc_boot (addr : Z) w : option (Z * W) :=
  '(ret, w) ← occp_execute_image addr 0 w;
  if negb (ret =? 0) then Some (ret, w) else Some (0, w).

(** A remote processor is ready or not, and at the end of its bus. *)
Definition remoteproc : Type := bool * W.
Fixpoint load_all (load_addr : Z) (image buf : list Z) (rs : list remoteproc)
  : option (Z * list Z * list remoteproc) :=
  match rs with
  | [] => Some (0, buf, [])
  | (ready, w) :: rs =>
      if negb ready then Some (- ENODEV, buf, (ready, w) :: rs)
      else
        '(ret, buf, w) ← tt_smc_remoteproc_load load_addr image buf w;
        if negb (ret =? 0) then Some (ret, buf, (ready, w) :: rs)
        else
          '(ret, buf, rs) ← load_all load_addr image buf rs;
          Some (ret, buf, (ready, w) :: rs)
  end.
Fixpoint boot_all (load_addr : Z) (rs : list remoteproc) : option (Z * list remoteproc) :=
  match rs with
  | [] => Some (0, [])
  | (ready, w) :: rs =>
      '(ret, w) ← tt_smc_remoteproc_boot load_addr w;
      if negb (ret =? 0) then Some (ret, (ready, w) :: rs)
      else
        '(ret, rs) ← boot_all load_addr rs;
        Some (ret, (ready, w) :: rs)
  end.
End occp.

(** The bundle in the staging area: [toc] its entries, [payload] what the offsets
    of the entries count from. *)
Record fw_bundle_toc_entry := { offset : Z; toc_length : Z; load_addr : Z }.
Definition bundle_image (payload : list Z) (e : fw_bundle_toc_entry) : option (list Z) :=
  if offset e + toc_length e <=? Z.of_nat (length payload)
  then Some (take (Z.to_nat (toc_length e)) (drop (Z.to_nat (offset e)) payload)) else None.
Definition tt_mimir_remote_boot_init `{Backend W} (crc8 : list Z -> Z) (fw_toc_index : Z)
    (toc : list fw_bundle_toc_entry) (payload buf : list Z) (rs : list (remoteproc (W := W)))
  : option (Z * list Z * list (remoteproc (W := W))) :=
  if Z.of_nat (length toc) <=? fw_toc_index then Some (- ENOENT, buf, rs)
  else
    entry ← zget toc fw_toc_index;
    image ← bundle_image payload entry;
    '(ret, buf, rs) ← load_all crc8 (load_addr entry) image buf rs;
    if negb (ret =? 0) then Some (ret, buf, rs)
    else
      '(ret, rs) ← boot_all crc8 (load_addr entry) rs;
      Some (ret, buf, rs).

(** ** The I3C transport

    Each read of the bus is an element of the list: its return value, its data and
    whether the time was up after it. *)
Record i3c_read_result := { r_ret : Z; r_data : list Z; r_expired : bool }.
Fixpoint occp_i3c_receive (reads : list i3c_read_result) : option (Z * list Z * list i3c_read_result) :=
  match reads with
  | [] => None
  | r :: reads =>
      if r_expired r then Some (- ETIMEDOUT, r_data r, reads)
      else if r_ret r =? - EIO then occp_i3c_receive reads
      else Some (r_ret r, r_data r, reads)
  end.

(** * What the remote end promises *)
Definition store (m : Z -> Z) (addr : Z) (bs : list Z) (x : Z) : Z :=
  match zget bs (x - addr) with Some b => b | None => m x end.
Fixpoint fetch (m : Z -> Z) (addr : Z) (n : nat) : list Z :=
  match n with O => [] | S n => m addr :: fetch m (addr + 1) n end.
(** Every byte of [m'] is as before or as written. *)
Definition partly_stored (m : Z -> Z) (addr : Z) (bs : list Z) (m' : Z -> Z) : Prop :=
  forall x, m' x = m x \/ m' x = store m addr bs x.

Lemma store_app m a b1 b2 x :
  store m a (b1 ++ b2) x = store (store m a b1) (a + Z.of_nat (length b1)) b2 x.
Proof.
  unfold store, zget. replace (x - (a + Z.of_nat (length b1))) with (x - a - Z.of_nat (length b1)) by lia.
  destruct (Z.ltb_spec (x - a) 0).
  { rewrite (proj2 (Z.ltb_lt _ _)) by lia. done. }
  destruct (Z.ltb_spec (x - a - Z.of_nat (length b1)) 0).
  - rewrite lookup_app_l by lia. destruct (b1 !! _) eqn:E; [done|].
    apply lookup_ge_None in E. lia.
  - rewrite lookup_app_r by lia.
    replace (Z.to_nat (x - a - Z.of_nat (length b1))) with (Z.to_nat (x - a) - length b1)%nat by lia.
    destruct (b2 !! _); [done|]. rewrite lookup_ge_None_2 by lia. done.
Qed.
Lemma store_ext m m' a bs x : (m x = m' x) -> store m a bs x = store m' a bs x.
Proof. intros E. unfold store. by rewrite E. Qed.
Lemma store_twice m a bs x : store (store m a bs) a bs x = store m a bs x.
Proof. unfold store. by destruct (zget bs (x - a)). Qed.
Lemma store_partly m m' a bs x :
  m' x = m x \/ m' x = store m a bs x -> store m' a bs x = store m a bs x.
Proof.
  intros [E|E]; [by apply store_ext|]. rewrite (store_ext m' (store m a bs)) by done.
  apply store_twice.
Qed.
Lemma store_app_l m a b1 b2 x :
  store m a b1 x = m x \/ store m a b1 x = store m a (b1 ++ b2) x.
Proof.
  unfold store, zget. destruct (_ <? 0); [by left|]. destruct (b1 !! _) eqn:E; [|by left].
  right. by rewrite (lookup_app_l_Some _ _ _ _ E).
Qed.
Lemma fetch_length m a n : length (fetch m a n) = n.
Proof. revert a. induction n; intros; cbn; auto. Qed.
Lemma fetch_lookup m a n i : (i < n)%nat -> fetch m a n !! i = Some (m (a + Z.of_nat i)).
Proof.
  revert a i. induction n as [|n IH]; intros a [|i] ?; try lia; cbn.
  - by rewrite Z.add_0_r.
  - rewrite IH by lia. replace (a + 1 + Z.of_nat i) with (a + Z.of_nat (S i)) by lia. done.
Qed.
Lemma fetch_app m a n k : fetch m a (n + k) = fetch m a n ++ fetch m (a + Z.of_nat n) k.
Proof.
  revert a. induction n as [|n IH]; intros a; cbn; [by rewrite Z.add_0_r|].
  rewrite IH. replace (a + 1 + Z.of_nat n) with (a + Z.of_nat (S n)) by lia. done.
Qed.
Lemma fetch_store m a bs : fetch (store m a bs) a (length bs) = bs.
Proof.
  apply list_eq_same_length with (length bs); [done | apply fetch_length |].
  intros i x y Hi Hx Hy. rewrite fetch_lookup in Hx by done. injection Hx as <-.
  unfold store, zget. replace (a + Z.of_nat i - a) with (Z.of_nat i) by lia.
  rewrite (proj2 (Z.ltb_ge _ _)), Nat2Z.id, Hy by lia. done.
Qed.

(** One exchange on the bus, and whether it went well. *)
Definition exchange `{Backend W} (cmd : list Z) (n : Z) (w : W) : bool * list Z * W :=
  let '(ret, w) := send cmd w in
  if negb (ret =? 0) then (false, [], w)
  else let '(ret, d, w) := receive n w in ((ret =? 0) && (flags_of d =? 0), d, w).

Definition crc_len (n : Z) : Z := if 13 <? n then 4 else 1.

(** A chiplet obeys the requests it acknowledges; a request that is not
    acknowledged may have been obeyed in part. *)
Class Chiplet (crc8 : list Z -> Z) (W : Type) `{Backend W} := {
  dev_mem : W -> Z -> Z;
  dev_runs : W -> option Z;
  receive_length n w d w' : 0 <= n -> receive n w = (0, d, w') -> Z.of_nat (length d) = n;
  chip_write w a bs b d w' :
    in_width 64 a -> Forall is_byte bs -> a mod 4 = 0 -> Z.of_nat (length bs) mod 4 = 0 ->
    Z.of_nat (length bs) <= OCCP_MAX_MSG_SIZE - sizeof_data_request ->
    let n := Z.of_nat (length bs) in
    exchange (data_request crc8 OCCP_BASE_MSG_WRITE_DATA (12 + n) a n ++ bs) sizeof_header w = (b, d, w') ->
    dev_runs w' = dev_runs w /\
    if b then forall x, dev_mem w' x = store (dev_mem w) a bs x
    else partly_stored (dev_mem w) a bs (dev_mem w');
  chip_read w a n b d w' :
    in_width 64 a -> a mod 4 = 0 -> n mod 4 = 0 -> 0 <= n <= OCCP_MAX_MSG_SIZE ->
    exchange (data_request crc8 OCCP_BASE_MSG_READ_DATA 12 a n) (sizeof_header + n + crc_len n) w = (b, d, w') ->
    dev_runs w' = dev_runs w /\ (forall x, dev_mem w' x = dev_mem w x) /\
    (b = true -> take (Z.to_nat n) (drop 8 d) = fetch (dev_mem w) a (Z.to_nat n));
  chip_execute w a b d w' :
    in_width 64 a ->
    exchange (execute_request crc8 a 0) sizeof_execute_response w = (b, d, w') ->
    (forall x, dev_mem w' x = dev_mem w x) /\
    (dev_runs w' = dev_runs w \/ dev_runs w' = Some a) /\ (b = true -> dev_runs w' = Some a);
}.

Definition checksum_ok (crc8 : list Z -> Z) (cmd : list Z) : Prop :=
  match cmd with c :: t => c = crc8 (take 7 t) | [] => False end.
(** A chiplet that fails only so many times more, if it gets sound requests. *)
Class Recovers (crc8 : list Z -> Z) (W : Type) `{Backend W} := {
  faults : W -> nat;
  faults_le cmd n w b d w' : checksum_ok crc8 cmd -> 8 <= n -> exchange cmd n w = (b, d, w') ->
    (faults w' <= faults w)%nat /\ (b = false -> (faults w' < faults w)%nat);
}.

(** * Transactions *)
Section transactions.
Context (crc8 : list Z -> Z) {W : Type} `{Chiplet crc8 W}.
Implicit Types (w : W).

Lemma into_ok resp n d :
  0 <= n <= Z.of_nat (length resp) ->
  exists resp', into resp n d = Some resp' /\ length resp' = length resp /\
    (Z.of_nat (length d) = n -> resp' = d ++ drop (Z.to_nat n) resp).
Proof.
  intros Hn. unfold into. rewrite (proj2 (Z.ltb_ge _ _)) by lia.
  rewrite memcpy_at_Some by (rewrite ?length_take; lia). eexists. split; [done|].
  rewrite take_0, app_nil_l. split.
  - rewrite length_app, length_drop, length_take. lia.
  - intros Hd. rewrite take_ge by lia. f_equal. f_equal. cbn. lia.
Qed.

Lemma flags_of_app d r : (8 <= length d)%nat -> flags_of (d ++ r) = flags_of d.
Proof.
  intros Hd. unfold flags_of. rewrite drop_app_le by lia. rewrite take_app_le; [done|].
  rewrite length_drop. lia.
Qed.

Lemma tx_rx_exchange cmd resp n w b d w' :
  8 <= n <= Z.of_nat (length resp) -> exchange cmd n w = (b, d, w') ->
  exists ret resp', occp_tx_rx cmd resp n w = Some (ret, resp', w') /\
    length resp' = length resp /\ (ret =? 0) = b /\ (b = true -> take (Z.to_nat n) resp' = d).
Proof.
  intros Hn. unfold exchange, occp_tx_rx. destruct (send cmd w) as [ret w1].
  destruct (Z.eqb_spec ret 0) as [->|]; cbn [negb]; cycle 1.
  { intros [= <- <- <-]. eexists _, _. split; [done|]. split; [done|].
    split; [by apply Z.eqb_neq | done]. }
  destruct (receive n w1) as [[ret d'] w2] eqn:Er. intros [= <- <- <-].
  destruct (into_ok resp n d') as (resp' & Ei & Hlen & Hd); [lia|].
  rewrite Ei. cbn [mbind option_bind].
  destruct (Z.eqb_spec ret 0) as [->|]; cbn [negb andb]; cycle 1.
  { eexists _, _. split; [done|]. split; [done|]. split; [by apply Z.eqb_neq | done]. }
  assert (0 <= n) as Hn0 by lia. pose proof (receive_length _ _ _ _ Hn0 Er) as Hl. rewrite (Hd Hl), flags_of_app by lia.
  destruct (flags_of d' =? 0); cbn [negb]; eexists _, _; (split; [done|]);
    (split; [rewrite length_app, length_drop; lia|]); (split; [done|]); [|done].
  intros _. rewrite take_app_length' by lia. done.
Qed.

(** [Inv] holds as long as exchanges fail. *)
Lemma transaction_ok (Inv : W -> Prop) cnt cmd resp n w :
  8 <= n <= Z.of_nat (length resp) -> Inv w ->
  (forall w d w', Inv w -> exchange cmd n w = (false, d, w') -> Inv w') ->
  exists ret resp' w', occp_run_transaction cnt cmd resp n w = Some (ret, resp', w') /\
    length resp' = length resp /\
    (ret <> 0 -> Inv w') /\
    (ret = 0 -> exists w0 d, Inv w0 /\ exchange cmd n w0 = (true, d, w') /\ take (Z.to_nat n) resp' = d).
Proof.
  intros Hn Hw Hinv. revert resp w Hn Hw. induction cnt as [|cnt IH]; intros resp w Hn Hw.
  all: destruct (exchange cmd n w) as [[b d] w'] eqn:E.
  all: destruct (tx_rx_exchange cmd resp n w b d w' Hn E) as (ret & resp' & Et & Hl & Hb & Hd).
  all: cbn [occp_run_transaction]; rewrite Et.
  - exists ret, resp', w'. split_and!; try done.
    + intros Hne%Z.eqb_neq. rewrite Hne in Hb. subst b. by eapply Hinv.
    + intros ->. cbn in Hb. subst b. exists w, d. auto.
  - rewrite Hb. destruct b; cbn [negb].
    + exists ret, resp', w'. split_and!; try done.
      * intros Hne%Z.eqb_neq. congruence.
      * intros ->. exists w, d. auto.
    + apply Z.eqb_neq in Hb. assert (Inv w') by by eapply Hinv. destruct cnt.
      { exists ret, resp', w'. done. }
      destruct (IH resp' w') as (ret2 & r2 & w2 & E2 & L2 & H2); [lia | done |].
      exists ret2, r2, w2. split; [done|]. split; [lia | done].
Qed.

(** Fewer faults than attempts: the transaction succeeds. *)
Lemma transaction_live `{!Recovers crc8 W} cnt cmd resp n w ret resp' w' :
  checksum_ok crc8 cmd -> 8 <= n <= Z.of_nat (length resp) -> (faults w < Nat.max 1 cnt)%nat ->
  occp_run_transaction cnt cmd resp n w = Some (ret, resp', w') -> ret = 0 /\ (faults w' <= faults w)%nat.
Proof.
  intros Hck. revert resp w. induction cnt as [|cnt IH]; intros resp w Hn Hf.
  all: destruct (exchange cmd n w) as [[b d] w1] eqn:E.
  all: destruct (tx_rx_exchange cmd resp n w b d w1 Hn E) as (ret1 & resp1 & Et & Hl & Hb & Hd).
  all: destruct (faults_le _ _ _ _ _ _ Hck (proj1 Hn) E) as [Hle Hlt].
  all: cbn [occp_run_transaction]; rewrite Et.
  - intros [= <- <- <-]. destruct b; [|specialize (Hlt eq_refl); lia]. apply Z.eqb_eq in Hb. done.
  - rewrite Hb. destruct b; cbn [negb].
    + intros [= <- <- <-]. apply Z.eqb_eq in Hb. done.
    + specialize (Hlt eq_refl). destruct cnt; [lia|]. intros E2.
      apply IH in E2; [|lia|lia]. lia.
Qed.
End transactions.

(** * Reading and writing *)
Lemma chunk_range len n :
  0 < len -> len mod 4 = 0 -> 4 <= n ->
  let c := ROUND_DOWN (Z.min len n) 4 in 0 < c <= Z.min len n /\ c mod 4 = 0 /\ (len - c) mod 4 = 0.
Proof.
  intros Hl Hm Hn c. unfold c, ROUND_DOWN.
  pose proof (Z.div_mod (Z.min len n) 4). pose proof (Z.mod_pos_bound (Z.min len n) 4).
  pose proof (Z.div_mod len 4).
  split; [lia|]. split; [by rewrite Z.mul_comm, Z.mul_comm, Z_mod_mult|].
  rewrite <- Zminus_mod_idemp_l, Hm, <- Zminus_mod_idemp_r, Z_mod_mult. done.
Qed.

Lemma data_request_length crc8 msg len a n : length (data_request crc8 msg len a n) = 20%nat.
Proof. unfold data_request, header_bytes, header_tail. cbn [length]. rewrite !length_app, !le_bytes_length. done. Qed.

Section data.
Context (crc8 : list Z -> Z) {W : Type} `{Chiplet crc8 W}.
Implicit Types (w : W).

(** The transaction that writes one chunk. *)
Lemma write_chunk_ok cnt w a bs :
  in_width 64 a -> Forall is_byte bs -> a mod 4 = 0 -> Z.of_nat (length bs) mod 4 = 0 ->
  Z.of_nat (length bs) <= OCCP_MAX_MSG_SIZE - sizeof_data_request ->
  let n := Z.of_nat (length bs) in
  exists ret resp' w',
    occp_run_transaction cnt (data_request crc8 OCCP_BASE_MSG_WRITE_DATA (12 + n) a n ++ bs)
      (replicate 8 0) sizeof_header w = Some (ret, resp', w') /\
    dev_runs w' = dev_runs w /\ partly_stored (dev_mem w) a bs (dev_mem w') /\
    (ret = 0 -> forall x, dev_mem w' x = store (dev_mem w) a bs x).
Proof.
  intros Ha Hb Ha4 Hb4 Hlen n.
  set (Inv w' := dev_runs w' = dev_runs w /\ partly_stored (dev_mem w) a bs (dev_mem w')).
  destruct (transaction_ok crc8 Inv cnt
    (data_request crc8 OCCP_BASE_MSG_WRITE_DATA (12 + n) a n ++ bs) (replicate 8 0) sizeof_header w)
    as (ret & resp' & w' & E & _ & Hf & Hs).
  - rewrite length_replicate. unfold sizeof_header. lia.
  - split; [done|]. by left.
  - intros w1 d w2 [Hr Hp] E. destruct (chip_write _ _ _ _ _ _ Ha Hb Ha4 Hb4 Hlen E) as [Hr' Hp']. split; [congruence|].
    intros x. destruct (Hp' x) as [->| ->]; [apply Hp|].
    right. by apply store_partly.
  - exists ret, resp', w'. split; [done|]. destruct (decide (ret = 0)) as [->|Hne].
    + destruct (Hs eq_refl) as (w0 & d & [Hr Hp] & Ex & _).
      destruct (chip_write _ _ _ _ _ _ Ha Hb Ha4 Hb4 Hlen Ex) as [Hr' Hx].
      assert (forall x, dev_mem w' x = store (dev_mem w) a bs x) as Hst.
      { intros x. rewrite Hx. by apply store_partly. }
      split; [congruence|]. split; [|done]. intros x. right. apply Hst.
    + destruct (Hf Hne) as [? ?]. done.
Qed.

(** What the loop sends is the request followed by the chunk. *)
Lemma write_buffer_ok (buf req chunk : list Z) :
  length buf = Z.to_nat OCCP_MAX_MSG_SIZE -> length req = 20%nat -> (length chunk <= 235)%nat ->
  exists buf1 buf2, memcpy_at buf 0 req = Some buf1 /\
    memcpy_at buf1 sizeof_data_request chunk = Some buf2 /\ length buf2 = length buf /\
    take (20 + length chunk) buf2 = req ++ chunk.
Proof.
  intros Hb Hr Hc. unfold OCCP_MAX_MSG_SIZE, sizeof_data_request in *.
  pose proof (memcpy_at_Some buf 0 req ltac:(lia) ltac:(lia)) as E1.
  set (buf1 := _ ++ _) in E1. pose proof (memcpy_at_length _ _ _ _ E1) as L1.
  pose proof (memcpy_at_Some buf1 20 chunk ltac:(lia) ltac:(lia)) as E2.
  set (buf2 := _ ++ _) in E2. exists buf1, buf2. split_and!; try done.
  - rewrite (memcpy_at_length _ _ _ _ E2). done.
  - apply memcpy_take in E2. change (Z.to_nat 20) with 20%nat in E2. rewrite E2. f_equal.
    apply memcpy_take in E1. cbn in E1. by rewrite Hr in E1.
Qed.

Definition write_result w a (data : list Z) (r : option (Z * list Z * W)) : Prop :=
  exists ret buf' w', r = Some (ret, buf', w') /\
    length buf' = Z.to_nat OCCP_MAX_MSG_SIZE /\
    dev_runs w' = dev_runs w /\ partly_stored (dev_mem w) a data (dev_mem w') /\
    (ret = 0 -> forall x, dev_mem w' x = store (dev_mem w) a data x).

Lemma write_result_nil w a buf :
  length buf = Z.to_nat OCCP_MAX_MSG_SIZE -> write_result w a [] (Some (0, buf, w)).
Proof.
  intros Hb. exists 0, buf, w. split_and!; try done; [by left|].
  intros _ x. unfold store, zget. by destruct (_ <? 0).
Qed.

Lemma write_loop_ok fuel : forall a data buf w,
  (length data <= fuel)%nat -> Forall is_byte data -> 0 <= a -> a + Z.of_nat (length data) <= 2 ^ 64 ->
  a mod 4 = 0 -> Z.of_nat (length data) mod 4 = 0 -> length buf = Z.to_nat OCCP_MAX_MSG_SIZE ->
  write_result w a data (write_loop crc8 fuel a data buf w).
Proof.
  induction fuel as [|fuel IH]; intros a data buf w Hf Hb Ha Hend Ha4 Hl4 Hbuf.
  all: cbn [write_loop]; destruct (Z.ltb_spec 0 (Z.of_nat (length data))) as [Hpos|Hz]; [|].
  all: try (destruct data; [|cbn in Hz; lia]).
  1: lia. 1, 3: by apply write_result_nil.
  destruct (chunk_range (Z.of_nat (length data)) (OCCP_MAX_MSG_SIZE - sizeof_data_request)) as (Hc & Hc4 & Hr4);
    [done | done | unfold OCCP_MAX_MSG_SIZE, sizeof_data_request; lia |].
  set (c := ROUND_DOWN _ _) in *.
  set (chunk := take (Z.to_nat c) data). set (rest := drop (Z.to_nat c) data).
  assert (length chunk = Z.to_nat c) as Lc by (unfold chunk; rewrite length_take; lia).
  assert (Z.of_nat (length chunk) = c) as Lc' by lia.
  assert (data = chunk ++ rest) as Hd by (symmetry; apply take_drop).
  assert (c <= 235) as Hc235 by (unfold OCCP_MAX_MSG_SIZE, sizeof_data_request in *; lia).
  assert (Forall is_byte chunk /\ Forall is_byte rest) as [Hbc Hbr] by (by apply Forall_app; rewrite <- Hd).
  change (sizeof_data_request - sizeof_header + c) with (12 + c).
  set (req := data_request _ _ _ _ _).
  destruct (write_buffer_ok buf req chunk) as (b1 & b2 & E1 & E2 & L2 & Ht);
    [done | apply data_request_length | lia |].
  rewrite E1. cbn [mbind option_bind]. rewrite E2. cbn [mbind option_bind].
  replace (Z.to_nat (sizeof_data_request + c)) with (20 + length chunk)%nat
    by (unfold sizeof_data_request; lia).
  rewrite Ht. subst req. rewrite <- Lc'.
  change (replicate (Z.to_nat sizeof_header) 0) with (replicate 8 0).
  destruct (write_chunk_ok OCCP_RETRY_COUNT w a chunk) as (ret & resp' & w1 & Et & Hr & Hp & Hs);
    try done; [unfold in_width; lia | by rewrite Lc' | unfold OCCP_MAX_MSG_SIZE, sizeof_data_request; lia |].
  cbn zeta in Et. rewrite Et. cbn [mbind option_bind]. rewrite Lc'.
  destruct (Z.eqb_spec ret 0) as [->|Hne]; cbn [negb]; cycle 1.
  { eexists _, _, _. split; [done|]. split; [lia|]. split; [done|]. split; [|done].
    intros x. destruct (Hp x) as [->| ->]; [by left|]. rewrite Hd. apply store_app_l. }
  specialize (Hs eq_refl). fold rest.
  assert (length data = length chunk + length rest)%nat as Hdl by (rewrite Hd, length_app; done).
  destruct (Z.eq_dec (a + c) (2 ^ 64)) as [Hwrap|Hnw].
  { destruct rest as [|r0 rest']; [|cbn in Hdl; lia].
    assert (forall f a', write_loop crc8 f a' [] b2 w1 = Some (0, b2, w1)) as -> by (by intros []).
    rewrite app_nil_r in Hd. rewrite <- Hd in *.
    eexists _, _, _. split; [done|]. split; [lia|]. split; [done|]. split; done. }
  rewrite wrap_id by (unfold in_width; lia).
  destruct (IH (a + c) rest b2 w1) as (ret2 & b3 & w2 & E3 & L3 & Hr3 & Hp3 & Hs3);
    [lia | done | lia | lia | rewrite Z.add_mod, Ha4, Hc4 by lia; done
    | replace (Z.of_nat (length rest)) with (Z.of_nat (length data) - c) by lia; done | lia |].
  exists ret2, b3, w2. split; [done|]. split; [done|]. split; [congruence|].
  assert (forall x, store (dev_mem w1) (a + c) rest x = store (dev_mem w) a data x) as Hst.
  { intros x. rewrite Hd, store_app, Lc'. by apply store_ext. }
  split.
  - intros x. destruct (Hp3 x) as [->| ->]; [|right; apply Hst].
    rewrite Hs, Hd. apply store_app_l.
  - intros Hz x. rewrite (Hs3 Hz). apply Hst.
Qed.

Lemma occp_write_data_ok a data buf w :
  Forall is_byte data -> 0 <= a -> a + Z.of_nat (length data) <= 2 ^ 64 ->
  length buf = Z.to_nat OCCP_MAX_MSG_SIZE ->
  write_result w a data (occp_write_data crc8 a data buf w).
Proof.
  intros Hb Ha He Hbuf. unfold occp_write_data, IS_ALIGNED.
  destruct (Z.eqb_spec (a mod 4) 0) as [Ha4|]; cbn [negb]; cycle 1.
  { eexists _, _, _. split; [done|]. split; [done|]. split; [done|]. split; [by left | done]. }
  destruct (Z.eqb_spec (Z.of_nat (length data) mod 4) 0) as [Hl4|]; cbn [negb]; cycle 1.
  { eexists _, _, _. split; [done|]. split; [done|]. split; [done|]. split; [by left | done]. }
  by apply write_loop_ok.
Qed.

(** The loop fails only by a failed transaction. *)
Lemma checksum_request msg len a n bs : checksum_ok crc8 (data_request crc8 msg len a n ++ bs).
Proof. done. Qed.
Lemma write_loop_live `{!Recovers crc8 W} fuel : forall a data buf w ret buf' w',
  length buf = Z.to_nat OCCP_MAX_MSG_SIZE -> (faults w < OCCP_RETRY_COUNT)%nat ->
  write_loop crc8 fuel a data buf w = Some (ret, buf', w') -> ret = 0 /\ (faults w' <= faults w)%nat.
Proof.
  induction fuel as [|fuel IH]; intros a data buf w ret buf' w' Hb Hf; cbn [write_loop];
    (destruct (Z.ltb_spec 0 (Z.of_nat (length data))); [|by intros [= <- <- <-]]); [done|].
  set (c := ROUND_DOWN _ _). set (req := data_request _ _ _ _ _).
  assert (0 <= c <= Z.of_nat (length data) /\ c <= 235) as Hc.
  { unfold c, ROUND_DOWN, OCCP_MAX_MSG_SIZE, sizeof_data_request.
    pose proof (Z.div_mod (Z.min (Z.of_nat (length data)) (255 - 20)) 4).
    pose proof (Z.mod_pos_bound (Z.min (Z.of_nat (length data)) (255 - 20)) 4). lia. }
  assert (length (take (Z.to_nat c) data) = Z.to_nat c) as Lc by (rewrite length_take; lia).
  destruct (write_buffer_ok buf req (take (Z.to_nat c) data)) as (b1 & b2 & E1 & E2 & L2 & Ht);
    [done | apply data_request_length | lia |].
  rewrite E1. cbn [mbind option_bind]. rewrite E2. cbn [mbind option_bind].
  replace (Z.to_nat (sizeof_data_request + c)) with (20 + Z.to_nat c)%nat
    by (unfold sizeof_data_request; lia).
  rewrite Lc in Ht. rewrite Ht.
  destruct (occp_run_transaction _ _ _ _ _) as [[[ret1 r1] w1]|] eqn:E; [|done].
  cbn [mbind option_bind].
  apply (transaction_live crc8) in E as [-> Hle];
    [| apply checksum_request | rewrite length_replicate; unfold sizeof_header; lia | done].
  cbn [negb Z.eqb]. intros E%IH; [|lia|lia]. destruct E. split; [done | lia].
Qed.

(** ** Reading *)
Lemma read_chunk_ok cnt w a n buf :
  in_width 64 a -> a mod 4 = 0 -> n mod 4 = 0 -> 0 <= n <= 240 ->
  length buf = Z.to_nat OCCP_MAX_MSG_SIZE ->
  exists ret buf' w',
    occp_run_transaction cnt (data_request crc8 OCCP_BASE_MSG_READ_DATA 12 a n) buf
      (sizeof_header + n + crc_len n) w = Some (ret, buf', w') /\
    length buf' = length buf /\ dev_runs w' = dev_runs w /\ (forall x, dev_mem w' x = dev_mem w x) /\
    (ret = 0 -> take (Z.to_nat n) (drop (Z.to_nat sizeof_header) buf') = fetch (dev_mem w) a (Z.to_nat n)).
Proof.
  intros Ha Ha4 Hn4 Hn Hbuf. assert (1 <= crc_len n <= 4) as Hcrc by (unfold crc_len; case_match; lia).
  assert (0 <= n <= OCCP_MAX_MSG_SIZE) as Hn' by (unfold OCCP_MAX_MSG_SIZE; lia).
  set (Inv w' := dev_runs w' = dev_runs w /\ forall x, dev_mem w' x = dev_mem w x).
  destruct (transaction_ok crc8 Inv cnt (data_request crc8 OCCP_BASE_MSG_READ_DATA 12 a n) buf
    (sizeof_header + n + crc_len n) w) as (ret & buf' & w' & E & Hl & Hf & Hs).
  - rewrite Hbuf. unfold sizeof_header, OCCP_MAX_MSG_SIZE. lia.
  - done.
  - intros w1 d w2 [Hr Hp] E. destruct (chip_read _ _ _ _ _ _ Ha Ha4 Hn4 Hn' E) as (Hr' & Hp' & _).
    split; [congruence|]. intros x. by rewrite Hp'.
  - exists ret, buf', w'. split; [done|]. split; [done|]. destruct (decide (ret = 0)) as [->|Hne].
    + destruct (Hs eq_refl) as (w0 & d & [Hr Hp] & Ex & Ht).
      destruct (chip_read _ _ _ _ _ _ Ha Ha4 Hn4 Hn' Ex) as (Hr' & Hp' & Hd).
      split; [congruence|]. split; [intros x; by rewrite Hp'|]. intros _.
      specialize (Hd eq_refl). rewrite <- Ht in Hd.
      change (Z.to_nat sizeof_header) with 8%nat. change sizeof_header with 8 in *.
      rewrite take_drop_commute, take_take in Hd.
      replace (_ `min` _)%nat with (8 + Z.to_nat n)%nat in Hd by lia.
      rewrite take_drop_commute, Hd. apply list_eq_same_length with (Z.to_nat n); try apply fetch_length.
      intros i x y Hi Hx Hy. rewrite fetch_lookup in Hx, Hy by done. simplify_eq. by rewrite Hp.
    + destruct (Hf Hne) as [? ?]. done.
Qed.

Lemma occp_read_data_ok a len buf w :
  in_width 64 a -> 0 <= len <= 240 -> length buf = Z.to_nat OCCP_MAX_MSG_SIZE ->
  exists ret got buf' w', occp_read_data crc8 a len buf w = Some (ret, got, buf', w') /\
    length buf' = length buf /\ dev_runs w' = dev_runs w /\ (forall x, dev_mem w' x = dev_mem w x) /\
    (ret = 0 -> got = fetch (dev_mem w) a (Z.to_nat len)).
Proof.
  intros Ha Hlen Hbuf. unfold occp_read_data, IS_ALIGNED.
  destruct (Z.eqb_spec (a mod 4) 0) as [Ha4|]; cbn [negb]; [|by eexists _, _, _, _].
  destruct (Z.eqb_spec (len mod 4) 0) as [Hl4|]; cbn [negb]; [|by eexists _, _, _, _].
  destruct (Z.to_nat len) as [|fuel] eqn:Ef; cbn [read_loop].
  { rewrite (proj2 (Z.ltb_ge _ _)) by lia. by eexists _, _, _, _. }
  rewrite (proj2 (Z.ltb_lt _ _)) by lia.
  rewrite (Z.min_l len) by (unfold OCCP_MAX_MSG_SIZE; lia).
  replace (ROUND_DOWN len 4) with len
    by (unfold ROUND_DOWN; pose proof (Z.div_mod len 4); lia).
  change (sizeof_data_request - sizeof_header) with 12. fold (crc_len len).
  destruct (read_chunk_ok OCCP_RETRY_COUNT w a len buf) as (ret & b1 & w1 & E & L & Hr & Hm & Hs); try done.
  rewrite E. cbn [mbind option_bind].
  destruct (Z.eqb_spec ret 0) as [->|]; cbn [negb]; [|eexists _, _, _, _; split_and!; done].
  assert (forall f a' g, read_loop crc8 f a' (len - len) g b1 w1 = Some (0, g, b1, w1)) as ->
    by (intros []; intros; cbn [read_loop]; by rewrite Z.sub_diag).
  eexists _, _, _, _. split_and!; try done. intros _. rewrite app_nil_l, <- Ef. by apply Hs.
Qed.

Lemma occp_execute_ok a w :
  in_width 64 a ->
  exists ret w', occp_execute_image crc8 a 0 w = Some (ret, w') /\
    (forall x, dev_mem w' x = dev_mem w x) /\
    (dev_runs w' = dev_runs w \/ dev_runs w' = Some a) /\ (ret = 0 -> dev_runs w' = Some a).
Proof.
  intros Ha. destruct (exchange (execute_request crc8 a 0) sizeof_execute_response w) as [[b d] w'] eqn:E.
  destruct (chip_execute _ _ _ _ _ Ha E) as (Hm & Hr & Hb).
  destruct (tx_rx_exchange crc8 (execute_request crc8 a 0) (replicate 8 0) sizeof_execute_response w b d w')
    as (ret & resp' & Et & _ & Hret & _); [by vm_compute | done |].
  exists ret, w'. split.
  - unfold occp_execute_image, occp_tx_rx in *. destruct (send _ w) as [r1 w1].
    destruct (negb (r1 =? 0)); [by injection Et as -> _ ->|].
    destruct (receive _ w1) as [[r2 d2] w2].
    change (replicate (Z.to_nat sizeof_execute_response) 0) with (replicate 8 0).
    destruct (into _ _ d2); [|done]. cbn [mbind option_bind] in *.
    destruct (Z.eqb_spec r2 0) as [->|]; cbn [negb] in *; [|by injection Et as -> _ ->].
    destruct (negb _); by injection Et as <- _ ->.
  - split_and!; try done. intros ->. cbn in Hret. by apply Hb.
Qed.
End data.

(** * Starting the remote processors *)
Section remotes.
Context (crc8 : list Z -> Z) {W : Type} `{Chiplet crc8 W}.
Implicit Types (rs : list (remoteproc (W := W))).

Definition loaded (a : Z) (image : list Z) (r r' : remoteproc (W := W)) : Prop :=
  forall x, dev_mem r'.2 x = store (dev_mem r.2) a image x.
Definition partly_loaded (a : Z) (image : list Z) (r r' : remoteproc (W := W)) : Prop :=
  partly_stored (dev_mem r.2) a image (dev_mem r'.2).
Definition same_runs (r r' : remoteproc (W := W)) : Prop := dev_runs r'.2 = dev_runs r.2.
Definition same_mem (r r' : remoteproc (W := W)) : Prop := forall x, dev_mem r'.2 x = dev_mem r.2 x.

Lemma loaded_partly a image r r' : loaded a image r r' -> partly_loaded a image r r'.
Proof. intros E x. right. apply E. Qed.

Lemma load_all_ok a image rs : forall buf,
  Forall is_byte image -> 0 <= a -> a + Z.of_nat (length image) <= 2 ^ 64 ->
  length buf = Z.to_nat OCCP_MAX_MSG_SIZE ->
  exists ret buf' rs', load_all crc8 a image buf rs = Some (ret, buf', rs') /\
    Forall2 same_runs rs rs' /\ Forall2 (partly_loaded a image) rs rs' /\
    (ret = 0 -> Forall2 (loaded a image) rs rs').
Proof.
  assert (forall rs, Forall2 same_runs rs rs) as Hrefl.
  { intros rs0. by apply Forall_Forall2_diag, list.Forall_forall. }
  assert (forall rs, Forall2 (partly_loaded a image) rs rs) as Hprefl.
  { intros rs0. apply Forall_Forall2_diag, list.Forall_forall. intros r _ x. by left. }
  induction rs as [|[ready w] rs IH]; intros buf Hb Ha He Hl; cbn [load_all].
  { exists 0, buf, []. split_and!; [done|constructor..|by constructor]. }
  destruct ready; cbn [negb]; [|by eexists _, _, _].
  unfold tt_smc_remoteproc_load.
  destruct (occp_write_data_ok crc8 a image buf w) as (ret & b1 & w1 & E & L & Hr & Hp & Hs); try done.
  rewrite E. cbn [mbind option_bind].
  destruct (Z.eqb_spec ret 0) as [->|Hne]; cbn [negb Z.eqb mbind option_bind]; cycle 1.
  { rewrite (proj2 (Z.eqb_neq _ _)) by done. cbn [negb].
    eexists _, _, _. split; [done|]. split; [by constructor|]. split; [by constructor | done]. }
  destruct (IH b1) as (ret2 & b2 & rs2 & E2 & Hr2 & Hp2 & Hs2); try done.
  rewrite E2. cbn [mbind option_bind]. eexists _, _, _. split; [done|].
  split; [by constructor|]. split; [by constructor|].
  intros Hz. constructor; [exact (Hs eq_refl) | by apply Hs2].
Qed.

Lemma boot_all_ok a rs :
  in_width 64 a ->
  exists ret rs', boot_all crc8 a rs = Some (ret, rs') /\ Forall2 same_mem rs rs' /\
    (ret = 0 -> Forall (λ r, dev_runs r.2 = Some a) rs').
Proof.
  intros Ha. assert (forall rs, Forall2 same_mem rs rs) as Hrefl.
  { intros rs0. by apply Forall_Forall2_diag, list.Forall_forall. }
  induction rs as [|[ready w] rs IH]; cbn [boot_all].
  { exists 0, []. split_and!; [done|constructor|by constructor]. }
  unfold tt_smc_remoteproc_boot.
  destruct (occp_execute_ok crc8 a w Ha) as (ret & w1 & E & Hm & _ & Hs).
  rewrite E. cbn [mbind option_bind].
  destruct (Z.eqb_spec ret 0) as [->|Hne]; cbn [negb Z.eqb mbind option_bind]; cycle 1.
  { rewrite (proj2 (Z.eqb_neq _ _)) by done. cbn [negb].
    eexists _, _. split; [done|]. split; [by constructor | done]. }
  destruct IH as (ret2 & rs2 & E2 & Hm2 & Hs2).
  rewrite E2. cbn [mbind option_bind]. eexists _, _. split; [done|].
  split; [by constructor|]. intros Hz. constructor; [by apply Hs | by apply Hs2].
Qed.
End remotes.
Arguments loaded {crc8 W _ _} _ _ _ _.
Arguments same_runs {crc8 W _ _} _ _.
Arguments same_mem {crc8 W _ _} _ _.

Lemma Forall2_compose {A B C} (P : A -> B -> Prop) (Q : B -> C -> Prop) (R : A -> C -> Prop) l1 l2 l3 :
  (forall x y z, P x y -> Q y z -> R x z) -> Forall2 P l1 l2 -> Forall2 Q l2 l3 -> Forall2 R l1 l3.
Proof.
  intros HR H12. revert l3. induction H12; intros l3 H23; inversion H23; subst; constructor; eauto.
Qed.

(** Writing to a chiplet: the loop ends, stays in [occp_rw_buffer] and writes to
    no other address. Success means that all the data is in place; after a failure
    each byte is old or new. With fewer faults than attempts it succeeds. *)
Theorem occp_write_spec crc8 W `{Chiplet crc8 W} a data buf (w : W)
    (Hbytes : Forall is_byte data) (Ha : 0 <= a) (Hend : a + Z.of_nat (length data) <= 2 ^ 64)
    (Hbuf : length buf = Z.to_nat OCCP_MAX_MSG_SIZE) :
  exists ret buf' w', occp_write_data crc8 a data buf w = Some (ret, buf', w') /\
    partly_stored (dev_mem w) a data (dev_mem w') /\
    (ret = 0 -> forall x, dev_mem w' x = store (dev_mem w) a data x) /\
    (forall R : Recovers crc8 W, a mod 4 = 0 -> Z.of_nat (length data) mod 4 = 0 ->
       (faults w < OCCP_RETRY_COUNT)%nat -> ret = 0).
Proof.
  destruct (occp_write_data_ok crc8 a data buf w) as (ret & buf' & w' & E & _ & _ & Hp & Hs); try done.
  exists ret, buf', w'. split_and!; try done. intros Hrec Ha4 Hl4 Hf.
  unfold occp_write_data, IS_ALIGNED in E. rewrite Ha4, Hl4 in E. cbn [negb Z.eqb] in E.
  by destruct (write_loop_live crc8 _ _ _ _ _ _ _ _ Hbuf Hf E).
Qed.

(** What was written is read back, in reads of at most 240 bytes. *)
Theorem occp_read_back crc8 W `{Chiplet crc8 W} a data buf (w : W)
    (Hbytes : Forall is_byte data) (Ha : 0 <= a) (Hend : a + Z.of_nat (length data) < 2 ^ 64)
    (Hsize : Z.of_nat (length data) <= 240) (Hbuf : length buf = Z.to_nat OCCP_MAX_MSG_SIZE) :
  exists ret buf1 w1, occp_write_data crc8 a data buf w = Some (ret, buf1, w1) /\
    (ret = 0 -> exists ret2 got buf2 w2,
       occp_read_data crc8 a (Z.of_nat (length data)) buf1 w1 = Some (ret2, got, buf2, w2) /\
       (ret2 = 0 -> got = data) /\ (forall x, dev_mem w2 x = dev_mem w1 x)).
Proof.
  destruct (occp_write_data_ok crc8 a data buf w) as (ret & b1 & w1 & E & L & _ & _ & Hs); try done; [lia|].
  exists ret, b1, w1. split; [done|]. intros Hz.
  destruct (occp_read_data_ok crc8 a (Z.of_nat (length data)) b1 w1)
    as (ret2 & got & b2 & w2 & E2 & _ & _ & Hm & Hg); [unfold in_width; lia | lia | done |].
  exists ret2, got, b2, w2. split_and!; try done. intros Hz2. rewrite (Hg Hz2), Nat2Z.id.
  rewrite <- (fetch_store (dev_mem w) a data) at 2.
  apply list_eq_same_length with (length data); try apply fetch_length.
  intros i x y Hi Hx Hy. rewrite fetch_lookup in Hx, Hy by done. simplify_eq. by apply Hs.
Qed.

(** A read of 244 bytes or more asks the bus for more than [occp_rw_buffer] holds,
    whatever is at the other end. *)
Theorem occp_read_overruns crc8 W `{Backend W} a len buf (w : W) w'
    (Ha4 : a mod 4 = 0) (Hl4 : len mod 4 = 0) (Hlen : 244 <= len)
    (Hbuf : length buf = Z.to_nat OCCP_MAX_MSG_SIZE)
    (Hsend : send (data_request crc8 OCCP_BASE_MSG_READ_DATA 12 a (ROUND_DOWN (Z.min len 255) 4)) w = (0, w')) :
  occp_read_data crc8 a len buf w = None.
Proof.
  unfold occp_read_data, IS_ALIGNED. rewrite Ha4, Hl4. cbn [negb Z.eqb].
  destruct (Z.to_nat len) as [|fuel] eqn:Ef; [lia|]. cbn [read_loop].
  rewrite (proj2 (Z.ltb_lt 0 len)) by lia. change OCCP_MAX_MSG_SIZE with 255 in *.
  change (sizeof_data_request - sizeof_header) with 12.
  assert (244 <= ROUND_DOWN (Z.min len 255) 4) as Hc.
  { unfold ROUND_DOWN. pose proof (Z.div_mod len 4). pose proof (Z.div_mod (Z.min len 255) 4).
    pose proof (Z.mod_pos_bound (Z.min len 255) 4). lia. }
  unfold OCCP_RETRY_COUNT. cbn [occp_run_transaction]. unfold occp_tx_rx. rewrite Hsend. cbn [negb Z.eqb].
  set (c := ROUND_DOWN _ _) in *. rewrite (proj2 (Z.ltb_lt 13 c)) by lia.
  destruct (receive _ w') as [[ret d] w2]. unfold into.
  rewrite (proj2 (Z.ltb_lt _ _)) by (rewrite Hbuf; unfold sizeof_header; lia). done.
Qed.

(** Remote boot: it ends; no remote processor is started before the image is in
    place on all of them; success means that all have the image and run it. *)
Theorem remote_boot_spec crc8 W `{Chiplet crc8 W} i toc entry payload image buf rs
    (Hi : zget toc i = Some entry) (Himg : bundle_image payload entry = Some image)
    (Hbytes : Forall is_byte payload) (Ha : in_width 64 (load_addr entry))
    (Hend : load_addr entry + Z.of_nat (length image) <= 2 ^ 64)
    (Hbuf : length buf = Z.to_nat OCCP_MAX_MSG_SIZE) :
  exists ret buf' rs',
    tt_mimir_remote_boot_init (W := W) crc8 i toc payload buf rs = Some (ret, buf', rs') /\
    (Forall2 same_runs rs rs' \/ Forall2 (loaded (load_addr entry) image) rs rs') /\
    (ret = 0 -> Forall2 (loaded (load_addr entry) image) rs rs' /\
                Forall (λ r, dev_runs r.2 = Some (load_addr entry)) rs').
Proof.
  unfold tt_mimir_remote_boot_init. pose proof (zget_Some_range _ _ _ Hi).
  rewrite (proj2 (Z.leb_gt _ _)) by lia. rewrite Hi. cbn [mbind option_bind]. rewrite Himg.
  cbn [mbind option_bind].
  assert (Forall is_byte image) as Hib.
  { unfold bundle_image in Himg. case_match; [|done]. injection Himg as <-.
    by apply Forall_take, Forall_drop. }
  destruct (load_all_ok crc8 (load_addr entry) image rs buf) as (ret & b1 & rs1 & E & Hr & Hp & Hs);
    [done | apply Ha | done | done |].
  rewrite E. cbn [mbind option_bind].
  destruct (Z.eqb_spec ret 0) as [->|Hne]; cbn [negb]; cycle 1.
  { eexists _, _, _. split; [done|]. split; [by left | done]. }
  destruct (boot_all_ok crc8 (load_addr entry) rs1 Ha) as (ret2 & rs2 & E2 & Hm & Hrun).
  rewrite E2. cbn [mbind option_bind]. eexists _, _, _. split; [done|].
  assert (Forall2 (loaded (load_addr entry) image) rs rs2) as Hload.
  { apply (Forall2_compose (loaded (load_addr entry) image) same_mem _ rs rs1 rs2); [|by apply Hs | done].
    intros r r1 r2 Hr1 Hr2 x. by rewrite Hr2, Hr1. }
  split; [by right|]. intros Hz. split; [done | by apply Hrun].
Qed.

(** * A chiplet

    It decodes requests from their bytes, refuses those with a bad checksum and
    meets with a list of faults on the way. *)
Inductive fault := NotSent | NotReceived | Flagged.
Record sim := { s_mem : Z -> Z; s_runs : option Z; s_out : list Z; s_faults : list fault }.

Section sim.
Variable crc8 : list Z -> Z.
Implicit Types (w : sim).

Definition req_addr (cmd : list Z) : Z :=
  le_value (take 4 (drop 8 cmd)) + 2 ^ 32 * le_value (take 4 (drop 12 cmd)).
Definition req_len (cmd : list Z) : Z := le_value (take 4 (drop 16 cmd)) mod 2048.
Definition obey (cmd : list Z) w : sim :=
  let answer := replicate 8 0 in
  match cmd with
  | c :: t =>
      if negb (c =? crc8 (take 7 t)) then
        {| s_mem := s_mem w; s_runs := s_runs w; s_out := replicate 6 0 ++ [1; 0]; s_faults := s_faults w |}
      else
        match take 2 (drop 4 cmd) with
        | [0; 2] =>
            {| s_mem := store (s_mem w) (req_addr cmd) (take (Z.to_nat (req_len cmd)) (drop 20 cmd));
               s_runs := s_runs w; s_out := answer; s_faults := s_faults w |}
        | [0; 3] =>
            {| s_mem := s_mem w; s_runs := s_runs w; s_faults := s_faults w;
               s_out := answer ++ fetch (s_mem w) (req_addr cmd) (Z.to_nat (req_len cmd)) |}
        | [1; 1] =>
            {| s_mem := s_mem w; s_runs := Some (req_addr cmd); s_out := answer; s_faults := s_faults w |}
        | _ => {| s_mem := s_mem w; s_runs := s_runs w; s_out := answer; s_faults := s_faults w |}
        end
  | [] => w
  end.
Definition with_faults w (fs : list fault) : sim :=
  {| s_mem := s_mem w; s_runs := s_runs w; s_out := s_out w; s_faults := fs |}.
#[local] Instance sim_backend : Backend sim := {
  send cmd w :=
    match s_faults w with
    | NotSent :: fs => (- EIO, with_faults w fs)
    | _ => (0, obey cmd w)
    end;
  receive n w :=
    let data := take (Z.to_nat n) (s_out w ++ replicate (Z.to_nat n) 0) in
    match s_faults w with
    | NotReceived :: fs => (- EIO, [], with_faults w fs)
    | Flagged :: fs => (0, take (Z.to_nat n) (replicate 6 0 ++ [4; 0] ++ replicate (Z.to_nat n) 0), with_faults w fs)
    | _ => (0, data, w)
    end;
}.

Lemma obey_faults cmd w : s_faults (obey cmd w) = s_faults w.
Proof. unfold obey. by repeat case_match. Qed.

(** An exchange obeys the request or not; if it does not fail, the answer is there. *)
Lemma sim_exchange cmd n w b d w' :
  checksum_ok crc8 cmd -> 8 <= n -> exchange cmd n w = (b, d, w') ->
  (s_mem w' = s_mem w /\ s_runs w' = s_runs w \/
   s_mem w' = s_mem (obey cmd w) /\ s_runs w' = s_runs (obey cmd w)) /\
  (length (s_faults w') <= length (s_faults w))%nat /\
  (b = false -> (length (s_faults w') < length (s_faults w))%nat) /\
  (b = true -> w' = obey cmd w /\ d = take (Z.to_nat n) (s_out (obey cmd w) ++ replicate (Z.to_nat n) 0)).
Proof.
  intros Hck Hn. unfold exchange. cbn [send receive sim_backend].
  assert (flags_of (take (Z.to_nat n) (s_out (obey cmd w) ++ replicate (Z.to_nat n) 0)) = 0) as Hok.
  { destruct cmd as [|c t]; [done|]. cbn [checksum_ok] in Hck. unfold obey. rewrite Hck, Z.eqb_refl.
    cbn [negb]. replace (Z.to_nat n) with (8 + (Z.to_nat n - 8))%nat by lia.
    repeat case_match; reflexivity. }
  pose proof (obey_faults cmd w) as Hf.
  destruct (s_faults w) as [|[] fs] eqn:E; cbn [negb Z.eqb]; rewrite ?Hf; cbn [andb].
  all: cbn [Z.eqb Z.opp EIO negb andb]; try rewrite Hok.
  all: intros [= <- <- <-]; cbn [s_mem s_runs s_faults with_faults length].
  1: split; [by right|]; split; [rewrite Hf; done|]; done.
  all: split; [auto|]; split; [cbn; lia|]; split; [cbn; lia|]; try done.
  replace (Z.to_nat n) with (8 + (Z.to_nat n - 8))%nat by lia. done.
Qed.

(** ** Decoding *)
Definition header_of (msg len : Z) : list Z := header_bytes (fill_cmd_header crc8 OCCP_APP_BASE msg len).
Lemma land_genmask a : 0 <= a -> Z.land a (GENMASK 31 0) = a mod 2 ^ 32.
Proof. intros. change (GENMASK 31 0) with (Z.ones 32). by rewrite Z.land_ones. Qed.

Lemma addr_split a :
  in_width 64 a ->
  le_value (le_bytes 4 (Z.land a (GENMASK 31 0))) + 2 ^ 32 * le_value (le_bytes 4 (Z.shiftr a 32)) = a.
Proof.
  intros [Ha1 Ha2]. rewrite land_genmask by done. rewrite Z.shiftr_div_pow2 by lia.
  pose proof (Z.mod_pos_bound a (2 ^ 32)). pose proof (Z.div_mod a (2 ^ 32)).
  assert (0 <= a / 2 ^ 32 < 2 ^ 32) by (split; [apply Z.div_pos; lia | apply Z.div_lt_upper_bound; lia]).
  rewrite !le_value_le_bytes by (change (8 * Z.of_nat 4) with 32; lia). lia.
Qed.

Lemma data_request_fields msg len a n bs :
  in_width 64 a -> 0 <= n < 2048 ->
  let cmd := data_request crc8 msg len a n ++ bs in
  take 2 (drop 4 cmd) = [0; msg] /\ req_addr cmd = a /\ req_len cmd = n /\ drop 20 cmd = bs.
Proof.
  intros Ha Hn cmd. unfold req_addr, req_len.
  pose proof (addr_split a Ha) as Hsplit. pose proof (data_request_length crc8 msg len a n) as Hlen.
  assert (le_value (le_bytes 4 (n mod 2048)) mod 2048 = n) as Hnn.
  { rewrite (Z.mod_small n) by done.
    rewrite le_value_le_bytes by (change (2 ^ (8 * Z.of_nat 4)) with 4294967296; lia). by apply Z.mod_small. }
  assert (length (header_of msg len) = 8%nat) as Lh by done.
  assert (cmd = header_of msg len ++ le_bytes 4 (Z.land a (GENMASK 31 0)) ++ le_bytes 4 (Z.shiftr a 32)
    ++ le_bytes 4 (n mod 2048) ++ bs) as Hcmd.
  { unfold cmd, data_request. by rewrite <- !app_assoc. }
  split; [done|]. split; [|split].
  - rewrite Hcmd, (slice_app (header_of msg len)) by (by rewrite ?le_bytes_length).
    rewrite (app_assoc (header_of msg len)), slice_app; [exact Hsplit | | by rewrite le_bytes_length].
    by rewrite length_app, le_bytes_length.
  - rewrite Hcmd, (app_assoc (header_of msg len)), (app_assoc (header_of msg len ++ _)), slice_app;
      [done | | by rewrite le_bytes_length].
    by rewrite !length_app, !le_bytes_length.
  - unfold cmd. by rewrite drop_app_length'.
Qed.

Lemma execute_request_fields a :
  in_width 64 a ->
  take 2 (drop 4 (execute_request crc8 a 0)) = [1; 1] /\ req_addr (execute_request crc8 a 0) = a.
Proof.
  intros Ha. split; [done|]. unfold req_addr, execute_request. set (h := header_bytes _).
  assert (length h = 8%nat) as Lh by done.
  rewrite (slice_app h) by (by rewrite ?le_bytes_length).
  rewrite (app_assoc h), slice_app; [by apply addr_split | | by rewrite le_bytes_length].
  by rewrite length_app, le_bytes_length.
Qed.

Lemma obey_sound cmd w :
  checksum_ok crc8 cmd ->
  obey cmd w =
    match take 2 (drop 4 cmd) with
    | [0; 2] =>
        {| s_mem := store (s_mem w) (req_addr cmd) (take (Z.to_nat (req_len cmd)) (drop 20 cmd));
           s_runs := s_runs w; s_out := replicate 8 0; s_faults := s_faults w |}
    | [0; 3] =>
        {| s_mem := s_mem w; s_runs := s_runs w; s_faults := s_faults w;
           s_out := replicate 8 0 ++ fetch (s_mem w) (req_addr cmd) (Z.to_nat (req_len cmd)) |}
    | [1; 1] =>
        {| s_mem := s_mem w; s_runs := Some (req_addr cmd); s_out := replicate 8 0; s_faults := s_faults w |}
    | _ => {| s_mem := s_mem w; s_runs := s_runs w; s_out := replicate 8 0; s_faults := s_faults w |}
    end.
Proof.
  destruct cmd as [|c t]; [done|]. intros Hc. cbn [checksum_ok] in Hc. unfold obey.
  rewrite (proj2 (Z.eqb_eq _ _) Hc). reflexivity.
Qed.

#[local, refine] Instance sim_chiplet : Chiplet crc8 sim :=
  { dev_mem := s_mem; dev_runs := s_runs }.
Proof.
  - intros n w d w' Hn. cbn [receive sim_backend].
    destruct (s_faults w) as [|[] fs]; intros [= <- _];
      rewrite length_take, ?length_app; cbn [length]; rewrite ?length_replicate; lia.
  - intros w a bs b d w' Ha Hb Ha4 Hl4 Hl n E.
    destruct (sim_exchange _ sizeof_header w b d w' (checksum_request crc8 _ _ _ _ _) ltac:(by vm_compute) E)
      as (Hm & _ & _ & Ht).
    destruct (data_request_fields OCCP_BASE_MSG_WRITE_DATA (12 + n) a n bs Ha) as (F1 & F2 & F3 & F4);
      [unfold OCCP_MAX_MSG_SIZE, sizeof_data_request in *; lia|].
    assert (obey (data_request crc8 OCCP_BASE_MSG_WRITE_DATA (12 + n) a n ++ bs) w =
      {| s_mem := store (s_mem w) a bs; s_runs := s_runs w; s_out := replicate 8 0;
         s_faults := s_faults w |}) as Ho.
    { rewrite obey_sound by apply checksum_request. rewrite F1, F2, F3, F4.
      unfold OCCP_BASE_MSG_WRITE_DATA. rewrite take_ge by lia. done. }
    rewrite Ho in *. split; [by destruct Hm as [[_ ?]|[_ ?]]|].
    destruct b; [destruct (Ht eq_refl) as [-> _]; done|].
    destruct Hm as [[-> _]|[-> _]]; intros x; [by left | by right].
  - intros w a n b d w' Ha Ha4 Hn4 Hn E. unfold OCCP_MAX_MSG_SIZE in Hn.
    assert (1 <= crc_len n <= 4) as Hcrc by (unfold crc_len; case_match; lia).
    pose proof (checksum_request crc8 OCCP_BASE_MSG_READ_DATA 12 a n []) as Hck.
    destruct (data_request_fields OCCP_BASE_MSG_READ_DATA 12 a n [] Ha) as (F1 & F2 & F3 & F4); [lia|].
    rewrite app_nil_r in *.
    destruct (sim_exchange _ (sizeof_header + n + crc_len n) w b d w' Hck ltac:(unfold sizeof_header; lia) E) as (Hm & _ & _ & Ht).
    assert (obey (data_request crc8 OCCP_BASE_MSG_READ_DATA 12 a n) w =
      {| s_mem := s_mem w; s_runs := s_runs w; s_faults := s_faults w;
         s_out := replicate 8 0 ++ fetch (s_mem w) a (Z.to_nat n) |}) as Ho.
    { rewrite obey_sound by done. by rewrite F1, F2, F3. }
    rewrite Ho in *. split; [by destruct Hm as [[_ ?]|[_ ?]]|].
    split; [by destruct Hm as [[-> _]|[-> _]]|]. intros ->. destruct (Ht eq_refl) as [_ ->].
    cbn [s_out]. rewrite take_drop_commute, take_take.
    replace (_ `min` _)%nat with (8 + Z.to_nat n)%nat by (unfold sizeof_header; lia).
    rewrite <- take_drop_commute.
    rewrite <- app_assoc, (drop_app_length' (replicate 8 0)) by done.
    rewrite take_app_length' by (by rewrite fetch_length). done.
  - intros w a b d w' Ha E. destruct (execute_request_fields a Ha) as [F1 F2].
    destruct (sim_exchange (execute_request crc8 a 0) sizeof_execute_response w b d w'
      ltac:(done) ltac:(by vm_compute) E) as (Hm & _ & _ & Ht).
    assert (obey (execute_request crc8 a 0) w =
      {| s_mem := s_mem w; s_runs := Some a; s_out := replicate 8 0; s_faults := s_faults w |}) as Ho.
    { rewrite obey_sound by done. by rewrite F1, F2. }
    rewrite Ho in *. split; [by destruct Hm as [[-> _]|[-> _]]|].
    split; [destruct Hm as [[_ ->]|[_ ->]]; auto|]. intros ->. by destruct (Ht eq_refl) as [-> _].
Defined.

#[local, refine] Instance sim_recovers : Recovers crc8 sim := { faults w := length (s_faults w) }.
Proof.
  intros cmd n w b d w' Hck Hn E.
  destruct (sim_exchange _ _ _ _ _ _ Hck Hn E) as (_ & Hle & Hlt & _). done.
Defined.
End sim.

(** * Attempts *)

(** A bus that never works, counting the requests. *)
#[export] Instance dead_backend : Backend nat := {
  send _ k := (- EIO, S k);
  receive _ k := (- EIO, [], k);
}.

(** The retry count counts attempts, not retries: a count of [n] gives [n]
    attempts (one for zero). *)
Theorem retry_attempts cnt cmd resp n k :
  occp_run_transaction cnt cmd resp n k = Some (- EIO, resp, (k + Nat.max 1 cnt)%nat).
Proof.
  revert k. induction cnt as [|[|cnt] IH]; intros k; [by rewrite Nat.add_1_r | by rewrite Nat.add_1_r|].
  change (occp_run_transaction (S (S cnt)) cmd resp n k)
    with (occp_run_transaction (S cnt) cmd resp n (S k)).
  rewrite IH. do 2 f_equal. lia.
Qed.

(** A bus that gives a fixed answer. *)
#[export] Instance fixed_backend : Backend (list Z) := {
  send _ d := (0, d);
  receive n d := (0, take (Z.to_nat n) d, d);
}.
(** Patch level 256 is reported as 0. *)
Theorem version_truncates :
  occp_get_version (λ _, 0) (replicate 8 0 ++ [1; 2; 0; 1; 0])
  = Some (0, Some (1, 2, 0), replicate 8 0 ++ [1; 2; 0; 1; 0]).
Proof. reflexivity. Qed.

(** Reading the I3C bus: the result is that of the first read which is not refused,
    or a timeout; a read that ends after the time is up counts as a timeout even if
    it succeeded. *)
Theorem i3c_receive_spec (pre : list i3c_read_result) r post
    (Hpre : Forall (λ r, r_ret r = - EIO /\ r_expired r = false) pre)
    (Hlast : r_expired r = true \/ r_ret r <> - EIO) :
  occp_i3c_receive (pre ++ r :: post)
  = Some (if r_expired r then - ETIMEDOUT else r_ret r, r_data r, post).
Proof.
  induction Hpre as [|x pre [Hx1 Hx2] _ IH]; cbn [occp_i3c_receive app].
  - destruct Hlast as [->|Hne]; [done|]. destruct (r_expired r); [done|].
    by rewrite (proj2 (Z.eqb_neq _ _)).
  - by rewrite Hx2, Hx1, Z.eqb_refl.
Qed.

(** ** Witnesses *)
Definition sum8 (bs : list Z) : Z := foldr Z.add 0 bs mod 256.
#[export] Instance chip_backend : Backend sim := sim_backend sum8.
#[export] Instance chip_chiplet : Chiplet sum8 sim := sim_chiplet sum8.
#[export] Instance chip_recovers : Recovers sum8 sim := sim_recovers sum8.
Definition chiplet_at (fs : list fault) : sim :=
  {| s_mem := λ _, 0; s_runs := None; s_out := []; s_faults := fs |}.
Definition rw_buffer : list Z := replicate (Z.to_nat OCCP_MAX_MSG_SIZE) 0.
Definition image300 : list Z := (λ k, Z.of_nat k mod 256) <$> seq 0 300.

Lemma image300_bytes : Forall is_byte image300.
Proof.
  unfold image300. apply Forall_fmap, list.Forall_forall. intros k _. apply Z.mod_pos_bound. lia.
Qed.

Lemma occp_write_spec_witness :
  let w := chiplet_at [Flagged; NotSent; NotReceived] in
  exists ret buf' w', occp_write_data sum8 4096 image300 rw_buffer w = Some (ret, buf', w') /\
    partly_stored (dev_mem w) 4096 image300 (dev_mem w') /\
    (ret = 0 -> forall x, dev_mem w' x = store (dev_mem w) 4096 image300 x) /\
    (forall R : Recovers sum8 sim, 4096 mod 4 = 0 -> Z.of_nat (length image300) mod 4 = 0 ->
       (faults w < OCCP_RETRY_COUNT)%nat -> ret = 0).
Proof.
  apply (occp_write_spec sum8 sim 4096 image300); [exact image300_bytes | lia | by vm_compute | reflexivity].
Defined.

Lemma occp_read_back_witness :
  let w := chiplet_at [Flagged] in
  exists ret buf1 w1, occp_write_data sum8 4096 (take 240 image300) rw_buffer w = Some (ret, buf1, w1) /\
    (ret = 0 -> exists ret2 got buf2 w2,
       occp_read_data sum8 4096 240 buf1 w1 = Some (ret2, got, buf2, w2) /\
       (ret2 = 0 -> got = take 240 image300) /\ (forall x, dev_mem w2 x = dev_mem w1 x)).
Proof.
  apply (occp_read_back sum8 sim 4096 (take 240 image300));
    [apply Forall_take, image300_bytes | lia | by vm_compute | by vm_compute | reflexivity].
Defined.

Lemma occp_read_overruns_witness :
  occp_read_data sum8 4096 256 rw_buffer (chiplet_at []) = None.
Proof.
  eapply (occp_read_overruns sum8 sim 4096 256);
    [reflexivity | reflexivity | lia | reflexivity | reflexivity].
Defined.

Definition mimir_toc : list fw_bundle_toc_entry :=
  [{| offset := 0; toc_length := 8; load_addr := 0 |};
   {| offset := 8; toc_length := 256; load_addr := 8192 |}].
Lemma remote_boot_spec_witness :
  let rs := [(true, chiplet_at [NotSent]); (true, chiplet_at [])] in
  (exists ret buf' rs',
    tt_mimir_remote_boot_init sum8 1 mimir_toc image300 rw_buffer rs = Some (ret, buf', rs') /\
    (Forall2 (same_runs (crc8 := sum8)) rs rs' \/
     Forall2 (loaded (crc8 := sum8) 8192 (take 256 (drop 8 image300))) rs rs') /\
    (ret = 0 -> Forall2 (loaded (crc8 := sum8) 8192 (take 256 (drop 8 image300))) rs rs' /\
                Forall (λ r, dev_runs (crc8 := sum8) r.2 = Some 8192) rs')) /\
  option_map (λ x, x.1.1) (tt_mimir_remote_boot_init sum8 1 mimir_toc image300 rw_buffer rs) = Some 0.
Proof.
  split; [|by vm_compute].
  apply (remote_boot_spec sum8 sim 1 mimir_toc {| offset := 8; toc_length := 256; load_addr := 8192 |} image300);
    [reflexivity | reflexivity | exact image300_bytes | by vm_compute | by vm_compute | reflexivity].
Defined.

Lemma i3c_receive_spec_witness :
  let busy := {| r_ret := - EIO; r_data := []; r_expired := false |} in
  let ok := {| r_ret := 0; r_data := [7]; r_expired := false |} in
  occp_i3c_receive ([busy; busy] ++ ok :: []) = Some (0, [7], []).
Proof.
  apply (i3c_receive_spec _ {| r_ret := 0; r_data := [7]; r_expired := false |} []);
    [repeat constructor | right; done].
Defined.
