(* ===== verification/I2c.v ===== *)
(** The I2C bus master: [lib/tenstorrent/bh_arc/dw_apb_i2c.c] with the
    [FlipBytes] of [util.h] and the host's [i2c_messages.c].

    The driver's registers have effects on reads, so the code runs on any state
    with register accesses, a clock and delays: the class [RegBus] of Bus.v. What the
    controller and the devices on the bus do is the class [I2cController]. A loop
    that has not ended with the given fuel is [None], as is an access outside an
    array. [CONFIG_TT_BH_ARC_I2C_TIMEOUT] is on, its default. *)
From stdpp Require Import prelude list numbers functions.
From Stdlib Require Import ZArith Lia.
From S2P Require Import Prelude Bus.
Open Scope Z_scope.

(** * The driver *)
Definition RESET_UNIT_I2C_CNTL_REG_ADDR : Z := 0x800300F0.
Definition IC_CON : Z := 0x00.
Definition IC_TAR : Z := 0x04.
Definition IC_SAR : Z := 0x08.
Definition IC_DATA_CMD : Z := 0x10.
Definition IC_SS_SCL_HCNT : Z := 0x14.
Definition IC_SS_SCL_LCNT : Z := 0x18.
Definition IC_FS_SCL_HCNT : Z := 0x1C.
Definition IC_FS_SCL_LCNT : Z := 0x20.
Definition IC_CLR_TX_ABRT : Z := 0x54.
Definition IC_ENABLE : Z := 0x6C.
Definition IC_STATUS : Z := 0x70.
Definition IC_SDA_HOLD : Z := 0x7C.
Definition IC_TX_ABRT_SOURCE : Z := 0x80.
Definition IC_FS_SPKLEN : Z := 0xA0.
Definition IC_SMBUS_THIGH_MAX_IDLE_COUNT : Z := 0xC4.
Definition TFNF_MASK : Z := 0x2.
Definition TFE_MASK : Z := 0x4.
Definition RFNE_MASK : Z := 0x8.
Definition MST_ACTIVITY_MASK : Z := 0x20.
Definition IC_TX_ABRT_SOURCE_MASK : Z := 0xFFFFF.
Definition IC_DATA_READ : Z := 0x100.
Definition IC_DATA_WRITE : Z := 0.
Definition IC_DATA_STOP : Z := 0x200.
Definition IC_ABRT_A3_STATE : Z := 0x200000.
Definition IC_VERIFY_FAIL : Z := 0x400000.
Definition TRIEN_SCL_MASK : Z := 0x1.
Definition TRIEN_SDA_MASK : Z := 0x2.
Definition TRIEN_MASK : Z := 0x3.
Definition RXEN_MASK : Z := 0xC0.
Definition DRV_SHIFT : Z := 10.
Definition WAIT_1US : Z := 50.
Definition WAIT_1MS : Z := 1000 * WAIT_1US.
Definition TIMEOUT_DURATION : Z := 25.
Inductive AsicState := A0State | A3State.
Inductive I2CMode := I2CMst | I2CSlv.
Inductive I2CSpeedMode := I2CStandardMode | I2CFastMode.

Definition GetI2CBaseAddress (id : Z) : Z :=
  if id =? 0 then 0x80060000 else if id =? 1 then 0x80090000 else if id =? 2 then 0x800A0000 else 0.
Definition IsValidI2CMasterId (id : Z) : bool := negb (GetI2CBaseAddress id =? 0).
Definition GetI2CRegAddr (id offset : Z) : Z := GetI2CBaseAddress id + offset.
Definition GetI2CPadCntlAddr (id : Z) : Z :=
  if id =? 0 then 0x800301C0 else if id =? 1 then 0x800305CC else if id =? 2 then 0x800305D8 else 0.
Definition GetI2CPadDataAddr (id : Z) : Z :=
  if id =? 0 then 0x800301C4 else if id =? 1 then 0x800305D0 else if id =? 2 then 0x800305DC else 0.

Section driver.
Context {W : Type} `{RegBus W}.
Variable fuel : nat.

Fixpoint toggle_scl (n : nat) (id i2c_cntl : Z) : Dev W unit :=
  match n with
  | O => mret tt
  | S n =>
      let i2c_cntl := Z.lxor i2c_cntl TRIEN_SCL_MASK in
      _ ← WriteReg (GetI2CPadCntlAddr id) i2c_cntl;
      _ ← Wait (100 * WAIT_1US);
      toggle_scl n id i2c_cntl
  end.
Definition I2CRecoverBus (id : Z) : Dev W unit :=
  let drive_strength := 0x7F in
  let i2c_cntl := Z.lor (Z.shiftl drive_strength DRV_SHIFT) TRIEN_MASK in
  i2c_rst_cntl ← ReadReg RESET_UNIT_I2C_CNTL_REG_ADDR;
  _ ← WriteReg (GetI2CRegAddr id IC_ENABLE) 0;
  _ ← WriteReg RESET_UNIT_I2C_CNTL_REG_ADDR (Z.clearbit i2c_rst_cntl id);
  _ ← WriteReg (GetI2CPadCntlAddr id) i2c_cntl;
  _ ← WriteReg (GetI2CPadDataAddr id) 0x0;
  let i2c_cntl := Z.lxor i2c_cntl TRIEN_SCL_MASK in
  _ ← WriteReg (GetI2CPadCntlAddr id) i2c_cntl;
  _ ← Wait (150 * WAIT_1MS);
  _ ← toggle_scl 32 id i2c_cntl;
  _ ← WriteReg (GetI2CPadCntlAddr id) TRIEN_SCL_MASK;
  _ ← Wait (100 * WAIT_1US);
  _ ← WriteReg (GetI2CPadCntlAddr id) (Z.lor TRIEN_SCL_MASK TRIEN_SDA_MASK);
  _ ← Wait (100 * WAIT_1US);
  _ ← WriteReg (GetI2CPadCntlAddr id)
        (Z.lor (Z.lor (Z.shiftl drive_strength DRV_SHIFT) RXEN_MASK) TRIEN_MASK);
  _ ← WriteReg RESET_UNIT_I2C_CNTL_REG_ADDR (Z.setbit i2c_rst_cntl id);
  WriteReg (GetI2CRegAddr id IC_ENABLE) 1.

(** The three waits differ in the status bits that end them. *)
Definition wait_status (id : Z) (ready : Z -> bool) : Dev W unit :=
  ts ← k_uptime_get;
  do_while fuel (
    ic_status ← ReadReg (GetI2CRegAddr id IC_STATUS);
    now ← k_uptime_get;
    if TIMEOUT_DURATION <? u64 (now - ts) then _ ← I2CRecoverBus id; mret (Some tt)
    else mret (if ready ic_status then Some tt else None)).
Definition WaitTxFifoEmpty (id : Z) : Dev W unit :=
  wait_status id (λ st, negb (Z.land st TFE_MASK =? 0)).
Definition WaitTxFifoNotFull (id : Z) : Dev W unit :=
  wait_status id (λ st, negb (Z.land st TFNF_MASK =? 0)).
Definition WaitMasterIdle (id : Z) : Dev W unit :=
  wait_status id (λ st, Z.land st MST_ACTIVITY_MASK =? 0).

Definition WriteTxFifo (id data : Z) : Dev W unit :=
  _ ← WaitTxFifoNotFull id; WriteReg (GetI2CRegAddr id IC_DATA_CMD) data.

Definition CheckTxAbrt (id : Z) : Dev W Z :=
  tx_abrt_source ← ReadReg (GetI2CRegAddr id IC_TX_ABRT_SOURCE);
  let ic_error := Z.land tx_abrt_source IC_TX_ABRT_SOURCE_MASK in
  if negb (ic_error =? 0) then _ ← ReadReg (GetI2CRegAddr id IC_CLR_TX_ABRT); mret ic_error
  else mret 0.

Definition WaitAllTxDone (id : Z) : Dev W Z :=
  ts ← k_uptime_get;
  do_while fuel (
    ic_error ← CheckTxAbrt id;
    if negb (ic_error =? 0) then mret (Some ic_error)
    else
      ic_status ← ReadReg (GetI2CRegAddr id IC_STATUS);
      let master_active := negb (Z.land ic_status MST_ACTIVITY_MASK =? 0) in
      let tx_fifo_not_empty := Z.land ic_status TFE_MASK =? 0 in
      now ← k_uptime_get;
      if TIMEOUT_DURATION <? u64 (now - ts)
      then _ ← I2CRecoverBus id; mret (Some (u32 (- ETIMEDOUT)))
      else mret (if master_active || tx_fifo_not_empty then None else Some 0)).

(** [I2CReadRxFifo] up to the reading of the byte, and all of it: the error and, if
    there is none, the byte. *)
Definition wait_rx (id : Z) : Dev W Z :=
  ts ← k_uptime_get;
  do_while fuel (
    ic_error ← CheckTxAbrt id;
    if negb (ic_error =? 0) then mret (Some ic_error)
    else
      ic_status ← ReadReg (GetI2CRegAddr id IC_STATUS);
      now ← k_uptime_get;
      if TIMEOUT_DURATION <? u64 (now - ts)
      then _ ← I2CRecoverBus id; mret (Some (u32 (- ETIMEDOUT)))
      else mret (if Z.land ic_status RFNE_MASK =? 0 then None else Some 0)).
Definition I2CReadRxFifo (id : Z) : Dev W (Z * option Z) :=
  ic_error ← wait_rx id;
  if negb (ic_error =? 0) then mret (ic_error, None)
  else v ← ReadReg (GetI2CRegAddr id IC_DATA_CMD); mret (0, Some (u8 v)).

Definition I2CInitGPIO (id : Z) : Dev W unit :=
  let drive_strength := 0x7F in
  _ ← WriteReg (GetI2CPadCntlAddr id)
        (Z.lor (Z.lor (Z.shiftl drive_strength DRV_SHIFT) RXEN_MASK) TRIEN_MASK);
  _ ← WriteReg (GetI2CPadDataAddr id) 0;
  i2c_cntl ← ReadReg RESET_UNIT_I2C_CNTL_REG_ADDR;
  WriteReg RESET_UNIT_I2C_CNTL_REG_ADDR (Z.lor i2c_cntl (Z.shiftl 1 id)).

(** In slave mode the code also records the address for the callbacks of Zephyr's
    target interface, which is not part of this state. *)
Definition speed_val (s : I2CSpeedMode) : Z :=
  match s with I2CStandardMode => 1 | I2CFastMode => 2 end.
Definition I2CInit (st : AsicState) (mode : I2CMode) (slave_addr : Z) (speed : I2CSpeedMode) (id : Z)
  : Dev W unit :=
  match st with
  | A3State => mret tt
  | A0State =>
      _ ← WaitTxFifoEmpty id;
      _ ← WaitMasterIdle id;
      _ ← I2CInitGPIO id;
      _ ← WriteReg (GetI2CRegAddr id IC_ENABLE) 0;
      _ ← Wait (10 * WAIT_1US);
      _ ← WriteReg (GetI2CRegAddr id IC_SMBUS_THIGH_MAX_IDLE_COUNT) 0xf;
      _ ← match mode with
          | I2CMst =>
              _ ← WriteReg (GetI2CRegAddr id IC_TAR) (Z.land slave_addr 0x3FF);
              WriteReg (GetI2CRegAddr id IC_CON)
                (Z.lor (Z.lor (Z.lor 0x1 (Z.shiftl (speed_val speed) 1)) 0x20) 0x40)
          | I2CSlv =>
              _ ← WriteReg (GetI2CRegAddr id IC_SAR) (Z.land slave_addr 0x3FF);
              WriteReg (GetI2CRegAddr id IC_CON) (2 * speed_val speed + 0x80 + 0x200)
          end;
      _ ← match speed with
          | I2CStandardMode =>
              _ ← WriteReg (GetI2CRegAddr id IC_SS_SCL_HCNT) 200;
              WriteReg (GetI2CRegAddr id IC_SS_SCL_LCNT) 235
          | I2CFastMode =>
              _ ← WriteReg (GetI2CRegAddr id IC_FS_SCL_HCNT) 30;
              WriteReg (GetI2CRegAddr id IC_FS_SCL_LCNT) 65
          end;
      _ ← WriteReg (GetI2CRegAddr id IC_FS_SPKLEN) 3;
      _ ← WriteReg (GetI2CRegAddr id IC_SDA_HOLD) 15;
      _ ← WriteReg (GetI2CRegAddr id IC_ENABLE) 1;
      Wait (10 * WAIT_1US)
  end.

(** Bytes to the TX FIFO, the last with a stop if [stop]. *)
Fixpoint send_bytes (id : Z) (bs : list Z) (stop : bool) : Dev W unit :=
  match bs with
  | [] => mret tt
  | b :: bs =>
      let last_byte_flag := if stop && (match bs with [] => true | _ => false end) then IC_DATA_STOP else 0 in
      _ ← WriteTxFifo id (Z.lor (Z.lor b IC_DATA_WRITE) last_byte_flag);
      send_bytes id bs stop
  end.
(** [n] bytes from the device; the bytes read before an error stay read. *)
Fixpoint recv_bytes (id : Z) (n : nat) : Dev W (Z * list Z) :=
  match n with
  | O => mret (0, [])
  | S n =>
      let last_byte_flag := match n with O => IC_DATA_STOP | _ => 0 end in
      _ ← WriteTxFifo id (Z.lor IC_DATA_READ last_byte_flag);
      r ← I2CReadRxFifo id;
      match r with
      | (_, Some b) => x ← recv_bytes id n; mret (x.1, b :: x.2)
      | (ic_error, None) => mret (ic_error, [])
      end
  end.

Definition I2CTransaction (st : AsicState) (id : Z) (write_data : list Z) (read_len : nat)
  : Dev W (Z * list Z) :=
  match st with
  | A3State => mret (IC_ABRT_A3_STATE, [])
  | A0State =>
      _ ← send_bytes id write_data (match read_len with O => true | _ => false end);
      match read_len with
      | O => ic_error ← WaitAllTxDone id; mret (ic_error, [])
      | _ => recv_bytes id read_len
      end
  end.

(** [command] is what memory holds from the address of the [uint16_t] on, little endian: its low 16 bits are
    the command, those above them what follows it. The source sends [command_byte_size] bytes from that
    address, so more than two of them (no caller asks for that) are not the command's. *)
Definition cmd_bytes (command : Z) (command_byte_size : nat) : list Z := le_bytes command_byte_size command.
Definition I2CWriteBytes (st : AsicState) (id command : Z) (command_byte_size : nat) (buf : list Z)
  : Dev W Z :=
  match st with
  | A3State => mret IC_ABRT_A3_STATE
  | A0State =>
      _ ← send_bytes id (cmd_bytes command command_byte_size) (match buf with [] => true | _ => false end);
      _ ← send_bytes id buf true;
      if (0 <? command_byte_size)%nat || (0 <? length buf)%nat then WaitAllTxDone id else mret 0
  end.
Fixpoint flip_loop (n : nat) (i : nat) (buf : list Z) : list Z :=
  match n with
  | O => buf
  | S n =>
      let j := (length buf - 1 - i)%nat in
      let temp := buf !!! i in
      flip_loop n (S i) (<[j := temp]> (<[i := buf !!! j]> buf))
  end.
Definition FlipBytes (buf : list Z) : list Z := flip_loop (length buf / 2) 0 buf.
Definition I2CReadBytes (st : AsicState) (id command : Z) (command_byte_size data_byte_size : nat)
    (flip_bytes : bool) : Dev W (Z * list Z) :=
  r ← I2CTransaction st id (cmd_bytes command command_byte_size) data_byte_size;
  mret (if (r.1 =? 0) && flip_bytes then (r.1, FlipBytes r.2) else r).

(** The new value of a byte under a mask. *)
Definition modify (old data mask : Z) : Z := Z.lor (Z.ldiff old mask) (Z.land data mask).
Fixpoint modify_all (old data mask : list Z) : list Z :=
  match old, data, mask with
  | o :: old, d :: data, m :: mask => modify o d m :: modify_all old data mask
  | _, _, _ => old
  end.
Fixpoint verify_all (buf data mask : list Z) : bool :=
  match buf, data, mask with
  | o :: buf, d :: data, m :: mask => (Z.land o m =? Z.land d m) && verify_all buf data mask
  | _, _, _ => true
  end.
Definition I2CRMWV (st : AsicState) (id command : Z) (command_byte_size : nat) (p_data p_mask : list Z)
  : Dev W Z :=
  let data_byte_size := length p_data in
  r ← I2CReadBytes st id command command_byte_size data_byte_size false;
  if negb (r.1 =? 0) then mret r.1
  else
    ic_error ← I2CWriteBytes st id command command_byte_size (modify_all r.2 p_data p_mask);
    if negb (ic_error =? 0) then mret ic_error
    else
      r ← I2CReadBytes st id command command_byte_size data_byte_size false;
      if negb (r.1 =? 0) then mret r.1
      else mret (if verify_all r.2 p_data p_mask then 0 else IC_VERIFY_FAIL).

(** ** The host's request *)
Record i2c_message_rqst := {
  i2c_mst_id : Z;
  i2c_slave_address : Z;
  num_write_bytes : Z;
  num_read_bytes : Z;
  write_data : list Z;
}.
Definition SIZEOF_WRITE_DATA : Z := 24.
Definition SIZEOF_READ_DATA : Z := 28.
Definition DATA_TOO_LARGE : Z := 1.
(** The return code and the bytes put into the response. *)
Definition i2c_message_handler (st : AsicState) (r : i2c_message_rqst) : Dev W (Z * list Z) :=
  if negb (IsValidI2CMasterId (i2c_mst_id r)) then mret (1, [])
  else
    let I2C_slave_address := Z.land (i2c_slave_address r) 0x7F in
    if (SIZEOF_WRITE_DATA <? num_write_bytes r) || (SIZEOF_READ_DATA <? num_read_bytes r)
    then mret (DATA_TOO_LARGE, [])
    else
      _ ← I2CInit st I2CMst I2C_slave_address I2CStandardMode (i2c_mst_id r);
      x ← I2CTransaction st (i2c_mst_id r) (take (Z.to_nat (num_write_bytes r)) (write_data r))
            (Z.to_nat (num_read_bytes r));
      mret (if x.1 =? 0 then 0 else 1, x.2).
End driver.

(** * What the controller and the devices do

    The devices on the bus have registers, addressed by a command byte; [b_last] is
    the register of the latest transaction. *)
Record bus := {
  b_target : Z;
  b_regs : Z -> Z -> list Z;
  b_cmd : option Z;
  b_out : list Z;
  b_idx : nat;
  b_rx : list Z;
  b_last : option Z;
}.
Definition idle (b : bus) : Prop := b_cmd b = None /\ b_out b = [] /\ b_idx b = 0%nat /\ b_rx b = [].
Definition idled (b : bus) : bus :=
  {| b_target := b_target b; b_regs := b_regs b; b_cmd := None; b_out := []; b_idx := 0; b_rx := [];
     b_last := b_last b |}.
Definition set_reg (regs : Z -> Z -> list Z) (a c : Z) (v : list Z) : Z -> Z -> list Z :=
  λ a' c', if (a' =? a) && (c' =? c) then v else regs a' c'.
(** Writing the first bytes of a register. *)
Definition overwrite (old new : list Z) : list Z := new ++ drop (length new) old.

(** One entry of the TX FIFO: a byte to write (the first selects the register) or
    to read, and with the stop bit the end of the transaction. *)
Definition push (b : bus) (v : Z) : bus :=
  let stop := Z.testbit v 9 in
  let c := default 0 (b_cmd b) in
  if Z.testbit v 8 then
    {| b_target := b_target b; b_regs := b_regs b;
       b_cmd := if stop then None else b_cmd b; b_out := if stop then [] else b_out b;
       b_idx := if stop then 0%nat else S (b_idx b);
       b_rx := b_rx b ++ [default 255 (b_regs b (b_target b) c !! b_idx b)];
       b_last := b_last b |}
  else
    match b_cmd b with
    | None =>
        {| b_target := b_target b; b_regs := b_regs b;
           b_cmd := if stop then None else Some (v mod 256); b_out := b_out b; b_idx := b_idx b;
           b_rx := b_rx b; b_last := Some (v mod 256) |}
    | Some c =>
        let out := b_out b ++ [v mod 256] in
        {| b_target := b_target b;
           b_regs := if stop then set_reg (b_regs b) (b_target b) c
                                    (overwrite (b_regs b (b_target b) c) out) else b_regs b;
           b_cmd := if stop then None else b_cmd b; b_out := if stop then [] else out;
           b_idx := b_idx b; b_rx := b_rx b; b_last := b_last b |}
    end.
Definition pop (b : bus) : bus :=
  {| b_target := b_target b; b_regs := b_regs b; b_cmd := b_cmd b; b_out := b_out b;
     b_idx := b_idx b; b_rx := tail (b_rx b); b_last := b_last b |}.
Definition retarget (b : bus) (a : Z) : bus :=
  {| b_target := a; b_regs := b_regs b; b_cmd := b_cmd b; b_out := b_out b;
     b_idx := b_idx b; b_rx := b_rx b; b_last := b_last b |}.
(** No register but the latest one differs, and it still holds as many bytes. *)
Definition same_shape (r r' : list Z) : Prop :=
  length r' = length r /\ (Forall is_byte r -> Forall is_byte r').
Definition same_but (b b' : bus) : Prop :=
  b_target b' = b_target b /\ (forall a c, same_shape (b_regs b a c) (b_regs b' a c)) /\
  forall a c, (a, Some c) <> (b_target b, b_last b) -> b_regs b' a c = b_regs b a c.

(** Writing these registers has no effect on the bus. *)
Definition setup_reg (id a : Z) : Prop :=
  a = RESET_UNIT_I2C_CNTL_REG_ADDR \/ a = GetI2CPadCntlAddr id \/ a = GetI2CPadDataAddr id \/
  exists o, a = GetI2CRegAddr id o /\
    o ∈ [IC_CON; IC_SAR; IC_SS_SCL_HCNT; IC_SS_SCL_LCNT; IC_FS_SCL_HCNT; IC_FS_SCL_LCNT; IC_SDA_HOLD;
         IC_FS_SPKLEN; IC_SMBUS_THIGH_MAX_IDLE_COUNT].

(** A controller that keeps up: after [busy] more readings of its status, at most
    [lag], it is ready, all within one tick of the clock. It reports a failed
    transaction as an abort, which empties its buffers and may leave the addressed
    register in any state. *)
Class I2cController (id : Z) (lag : nat) (W : Type) `{RegBus W} := {
  bus_of : W -> bus;
  busy : W -> nat;
  now : Z;
  ctl_busy w : (busy w <= lag)%nat;
  ctl_uptime w t w' : bus_uptime w = (t, w') -> t = now /\ bus_of w' = bus_of w /\ busy w' = busy w;
  ctl_wait n w : bus_of (bus_wait n w) = bus_of w /\ (busy (bus_wait n w) <= busy w)%nat;
  ctl_status w st w' : bus_read (GetI2CRegAddr id IC_STATUS) w = (st, w') ->
    bus_of w' = bus_of w /\ (busy w' <= pred (busy w))%nat /\
    (Z.land st RFNE_MASK <> 0 -> b_rx (bus_of w) <> []) /\
    (busy w = 0%nat -> Z.land st TFNF_MASK <> 0 /\ Z.land st TFE_MASK <> 0 /\
       Z.land st MST_ACTIVITY_MASK = 0 /\ (b_rx (bus_of w) <> [] -> Z.land st RFNE_MASK <> 0));
  ctl_abort w src w' : bus_read (GetI2CRegAddr id IC_TX_ABRT_SOURCE) w = (src, w') ->
    busy w' = busy w /\
    if Z.land src IC_TX_ABRT_SOURCE_MASK =? 0 then bus_of w' = bus_of w
    else same_but (bus_of w) (bus_of w') /\ idle (bus_of w');
  ctl_clear w v w' : bus_read (GetI2CRegAddr id IC_CLR_TX_ABRT) w = (v, w') -> bus_of w' = bus_of w;
  ctl_cntl w v w' : bus_read RESET_UNIT_I2C_CNTL_REG_ADDR w = (v, w') -> bus_of w' = bus_of w;
  ctl_pop w v w' x rx : b_rx (bus_of w) = x :: rx -> is_byte x ->
    bus_read (GetI2CRegAddr id IC_DATA_CMD) w = (v, w') -> u8 v = x /\ bus_of w' = pop (bus_of w);
  ctl_push w v : bus_of (bus_write (GetI2CRegAddr id IC_DATA_CMD) v w) = push (bus_of w) v;
  ctl_target w v : bus_of (bus_write (GetI2CRegAddr id IC_TAR) v w) = retarget (bus_of w) v;
  ctl_enable w v : bus_of (bus_write (GetI2CRegAddr id IC_ENABLE) v w) = idled (bus_of w);
  ctl_setup w a v : setup_reg id a -> bus_of (bus_write a v w) = bus_of w;
}.

(** ** Transactions *)
Definition tok (b : Z) (stop : bool) : Z := Z.lor (Z.lor b IC_DATA_WRITE) (if stop then IC_DATA_STOP else 0).

Lemma tok_bits b stop :
  is_byte b -> Z.testbit (tok b stop) 8 = false /\ Z.testbit (tok b stop) 9 = stop /\ tok b stop mod 256 = b.
Proof.
  intros Hb. unfold tok, IC_DATA_WRITE. rewrite Z.lor_0_r.
  assert (forall i, 8 <= i -> Z.testbit b i = false) as Hhi.
  { intros i Hi. rewrite <- (Z.mod_small b (2 ^ 8)) by (unfold is_byte in Hb; lia).
    by apply Z.mod_pow2_bits_high. }
  rewrite !Z.lor_spec, !Hhi by lia. split; [by destruct stop|]. split; [by destruct stop|].
  change 256 with (2 ^ 8). apply Z.bits_inj'. intros i Hi.
  destruct (Z.lt_ge_cases i 8).
  - rewrite Z.mod_pow2_bits_low by lia. rewrite Z.lor_spec.
    replace (Z.testbit (if stop then IC_DATA_STOP else 0) i) with false; [by rewrite orb_false_r|].
    destruct stop; [|by rewrite Z.bits_0].
    change IC_DATA_STOP with (2 ^ 9). by rewrite Z.pow2_bits_false by lia.
  - rewrite Z.mod_pow2_bits_high by lia. by rewrite Hhi.
Qed.

(** The register [c] of the target becomes the latest one. *)
Definition addressed (b : bus) (c : Z) : bus :=
  {| b_target := b_target b; b_regs := b_regs b; b_cmd := b_cmd b; b_out := b_out b;
     b_idx := b_idx b; b_rx := b_rx b; b_last := Some c |}.
(** In a transaction on register [c], with these bytes written or read so far. *)
Definition within (b : bus) (c : Z) (out : list Z) (idx : nat) (rx : list Z) : bus :=
  {| b_target := b_target b; b_regs := b_regs b; b_cmd := Some c; b_out := out;
     b_idx := idx; b_rx := rx; b_last := Some c |}.
Definition with_regs (b : bus) (regs : Z -> Z -> list Z) : bus :=
  {| b_target := b_target b; b_regs := regs; b_cmd := b_cmd b; b_out := b_out b;
     b_idx := b_idx b; b_rx := b_rx b; b_last := b_last b |}.

Lemma push_cmd b c : idle b -> is_byte c -> push b (tok c false) = within b c [] 0 [].
Proof.
  intros (Hc & Ho & Hi & Hr) Hb. destruct (tok_bits c false Hb) as (H8 & H9 & Hm).
  unfold push, within. rewrite H8, H9, Hc, Hm, Ho, Hi, Hr. done.
Qed.
Lemma push_data b c out x stop :
  is_byte x ->
  push (within b c out 0 []) (tok x stop)
  = if stop then with_regs (idled (addressed b c))
                   (set_reg (b_regs b) (b_target b) c (overwrite (b_regs b (b_target b) c) (out ++ [x])))
    else within b c (out ++ [x]) 0 [].
Proof.
  intros Hb. destruct (tok_bits x stop Hb) as (H8 & H9 & Hm).
  unfold push, within. rewrite H8, H9. cbn [b_cmd b_out b_target b_regs b_idx b_rx b_last]. rewrite Hm.
  by destruct stop.
Qed.

(** [n] bytes of a register from the [k]-th on; past its end a device sends ones. *)
Definition reg_bytes (r : list Z) (k n : nat) : list Z := map (λ i : nat, default 255 (r !! i)) (seq k n).

Lemma push_read b c k (stop : bool) :
  push (within b c [] k []) (Z.lor IC_DATA_READ (if stop then IC_DATA_STOP else 0))
  = let rx := [default 255 (b_regs b (b_target b) c !! k)] in
    if stop then {| b_target := b_target b; b_regs := b_regs b; b_cmd := None; b_out := []; b_idx := 0;
                    b_rx := rx; b_last := Some c |}
    else within b c [] (S k) rx.
Proof. by destruct stop. Qed.

(** ** Read, modify, write, verify *)
Lemma byte_land x : is_byte x <-> Z.land x 255 = x.
Proof.
  change 255 with (Z.ones 8). rewrite Z.land_ones by lia. unfold is_byte. change (2 ^ 8) with 256.
  split; [by apply Z.mod_small|]. intros <-. apply Z.mod_pos_bound. lia.
Qed.
Lemma modify_byte o d m : is_byte o -> is_byte d -> is_byte (modify o d m).
Proof.
  rewrite !byte_land. intros Ho Hd. unfold modify. rewrite Z.land_lor_distr_l. f_equal.
  - rewrite <- Ho at 2. apply Z.bits_inj'. intros i Hi.
    rewrite !Z.land_spec, !Z.ldiff_spec, !Z.land_spec. by destruct (Z.testbit o i), (Z.testbit m i), (Z.testbit 255 i).
  - rewrite <- Hd at 2. apply Z.bits_inj'. intros i Hi.
    rewrite !Z.land_spec. by destruct (Z.testbit d i), (Z.testbit m i), (Z.testbit 255 i).
Qed.
Lemma modify_land o d m : Z.land (modify o d m) m = Z.land d m.
Proof.
  unfold modify. apply Z.bits_inj'. intros i Hi.
  rewrite !Z.land_spec, Z.lor_spec, Z.ldiff_spec, Z.land_spec.
  by destruct (Z.testbit o i), (Z.testbit m i), (Z.testbit d i).
Qed.
Lemma modify_ldiff o d m : Z.ldiff (modify o d m) m = Z.ldiff o m.
Proof.
  unfold modify. apply Z.bits_inj'. intros i Hi.
  rewrite !Z.ldiff_spec, Z.lor_spec, Z.ldiff_spec, Z.land_spec.
  by destruct (Z.testbit o i), (Z.testbit m i), (Z.testbit d i).
Qed.
Lemma modify_all_length o d m : length (modify_all o d m) = length o.
Proof. revert d m. induction o as [|x o IH]; intros [|y d] [|z m]; cbn; auto. Qed.
Lemma modify_all_bytes o d m :
  Forall is_byte o -> Forall is_byte d -> Forall is_byte (modify_all o d m).
Proof.
  intros Ho. revert d m. induction Ho as [|x o Hx Ho IH]; intros [|y d] [|z m] Hd; cbn; auto.
  apply Forall_cons_1 in Hd as [? ?]. constructor; [by apply modify_byte | by apply IH].
Qed.
Lemma verify_modify o d m : verify_all (modify_all o d m) d m = true.
Proof.
  revert d m. induction o as [|x o IH]; intros [|y d] [|z m]; cbn; try done.
  by rewrite modify_land, Z.eqb_refl, IH.
Qed.

Lemma reg_bytes_take r n : (n <= length r)%nat -> reg_bytes r 0 n = take n r.
Proof.
  intros Hn. unfold reg_bytes. apply list_eq_same_length with n.
  - rewrite length_take. lia.
  - by rewrite length_map, length_seq.
  - intros i x y Hi Hx Hy. rewrite lookup_take_lt in Hy by done.
    rewrite list_lookup_fmap, lookup_seq_lt in Hx by done. cbn in Hx. by rewrite Hy in Hx; injection Hx.
Qed.
Lemma overwrite_take r bs : take (length bs) (overwrite r bs) = bs.
Proof. unfold overwrite. by rewrite take_app_length. Qed.
Lemma overwrite_len r bs : (length bs <= length r)%nat -> length (overwrite r bs) = length r.
Proof. intros. unfold overwrite. rewrite length_app, length_drop. lia. Qed.

(** A device register after [I2CRMWV] with this data and mask. *)
Definition rmw (r data mask : list Z) : list Z :=
  overwrite r (modify_all (take (length data) r) data mask).
Definition rmw_bus (b : bus) (c : Z) (data mask : list Z) : bus :=
  with_regs (addressed b c)
    (set_reg (b_regs b) (b_target b) c (rmw (b_regs b (b_target b) c) data mask)).

Lemma set_reg_ne regs a c v a' c' : (a', c') <> (a, c) -> set_reg regs a c v a' c' = regs a' c'.
Proof.
  intros Hne. unfold set_reg. destruct ((a' =? a) && (c' =? c)) eqn:E; [|done].
  apply andb_true_iff in E as [->%Z.eqb_eq ->%Z.eqb_eq]. done.
Qed.
Lemma set_reg_eq regs a c v : set_reg regs a c v a c = v.
Proof. unfold set_reg. by rewrite !Z.eqb_refl. Qed.
Lemma same_shape_trans r1 r2 r3 : same_shape r1 r2 -> same_shape r2 r3 -> same_shape r1 r3.
Proof. intros [? ?] [? ?]. split; [congruence | auto]. Qed.
Lemma set_reg_shape regs a c v a' c' :
  same_shape (regs a c) v -> same_shape (regs a' c') (set_reg regs a c v a' c').
Proof.
  intros Hv. unfold set_reg. destruct ((a' =? a) && (c' =? c)) eqn:E; [|done].
  apply andb_true_iff in E as [->%Z.eqb_eq ->%Z.eqb_eq]. done.
Qed.

Lemma rmw_shape r d m :
  (length d <= length r)%nat -> Forall is_byte d -> same_shape r (rmw r d m).
Proof.
  intros Hl Hd. split; unfold rmw.
  - apply overwrite_len. rewrite modify_all_length, length_take. lia.
  - intros Hr. apply Forall_app. split; [|by apply Forall_drop].
    apply modify_all_bytes; [by apply Forall_take | done].
Qed.

Section correct.
Context (id : Z) (lag : nat) {W : Type} `{I2cController id lag W}.
Variable fuel : nat.
Hypothesis fuel_enough : (lag < fuel)%nat.
Implicit Types (w : W).

Lemma wait_status_ok ready w (b : bus) (Q : unit -> W -> Prop) :
  (forall w st w', busy w = 0%nat -> bus_read (GetI2CRegAddr id IC_STATUS) w = (st, w') -> ready st = true) ->
  bus_of w = b -> (forall w', bus_of w' = b -> Q tt w') -> wp (wait_status fuel id ready) w Q.
Proof.
  intros Hready Hb HQ. apply wp_bind, wp_uptime. intros ts w0 [-> [Hb0 _]]%ctl_uptime.
  eapply (wp_do_while _ (λ w', bus_of w' = b) busy).
  - intros w1 Hw1. apply wp_bind, wp_read. intros st w2 E.
    destruct (ctl_status _ _ _ E) as (Hb2 & Hl & _). apply wp_bind, wp_uptime.
    intros t w3 [-> [Hb3 Hu3]]%ctl_uptime. rewrite Z.sub_diag. change (TIMEOUT_DURATION <? u64 0) with false.
    apply wp_ret. destruct (ready st) eqn:Er; [apply HQ; congruence|].
    split; [congruence|]. destruct (busy w1) eqn:Eb; [|cbn in Hl; lia].
    rewrite (Hready _ _ _ Eb E) in Er. done.
  - congruence.
  - pose proof (ctl_busy w0). lia.
Qed.
Lemma tx_fifo_not_full_ok w b Q :
  bus_of w = b -> (forall w', bus_of w' = b -> Q tt w') -> wp (WaitTxFifoNotFull fuel id) w Q.
Proof.
  intros Hb HQ. eapply wait_status_ok; [|done|done]. intros w1 st w2 Hz E.
  destruct (ctl_status _ _ _ E) as (_ & _ & _ & Hr). destruct (Hr Hz) as (Hf & _).
  by apply negb_true_iff, Z.eqb_neq.
Qed.
Lemma write_tx_ok w v b Q :
  bus_of w = b -> (forall w', bus_of w' = push b v -> Q tt w') -> wp (WriteTxFifo fuel id v) w Q.
Proof.
  intros Hb HQ. apply wp_bind. eapply tx_fifo_not_full_ok; [done|]. intros w1 Hw1.
  apply wp_write, HQ. by rewrite ctl_push, Hw1.
Qed.

(** After an error: the bus is idle and only the latest register may differ. *)
Definition failed (b : bus) (w : W) : Prop := same_but b (bus_of w) /\ idle (bus_of w).

Lemma check_abort_ok w b (Q : Z -> W -> Prop) :
  bus_of w = b ->
  (forall w', bus_of w' = b -> busy w' = busy w -> Q 0 w') ->
  (forall e w', e <> 0 -> failed b w' -> Q e w') ->
  wp (CheckTxAbrt id) w Q.
Proof.
  intros Hb Hok Herr. apply wp_bind, wp_read. intros src w1 E.
  destruct (ctl_abort _ _ _ E) as [Hl Hs]. cbv zeta. destruct (_ =? 0) eqn:E0; cbn [negb].
  - apply wp_ret, Hok; congruence.
  - apply wp_bind, wp_read. intros v w2 E2%ctl_clear. apply wp_ret. apply Z.eqb_neq in E0.
    apply Herr; [done|]. unfold failed. by rewrite E2, <- Hb.
Qed.

Lemma all_tx_done_ok w b (Q : Z -> W -> Prop) :
  bus_of w = b -> (forall w', bus_of w' = b -> Q 0 w') -> (forall e w', e <> 0 -> failed b w' -> Q e w') ->
  wp (WaitAllTxDone fuel id) w Q.
Proof.
  intros Hb HQ Herr. apply wp_bind, wp_uptime. intros ts w0 [-> [Hb0 _]]%ctl_uptime.
  eapply (wp_do_while _ (λ w', bus_of w' = b) busy).
  - intros w1 Hw1. apply wp_bind. eapply check_abort_ok; [done| |].
    + intros w2 Hw2 Hl2. cbn [negb Z.eqb]. apply wp_bind, wp_read. intros st w3 E.
      destruct (ctl_status _ _ _ E) as (Hb3 & Hl & _ & Hz). apply wp_bind, wp_uptime.
      intros t w4 [-> [Hb4 Hu4]]%ctl_uptime. rewrite Z.sub_diag.
      change (TIMEOUT_DURATION <? u64 0) with false. apply wp_ret.
      destruct (_ || _) eqn:Er; [|apply HQ; congruence].
      split; [congruence|]. destruct (busy w2) eqn:Eb; [|cbn in Hl; lia].
      destruct (Hz eq_refl) as (_ & Hz2 & Hz3 & _). rewrite Hz3 in Er.
      apply Z.eqb_neq in Hz2. rewrite Hz2 in Er. done.
    + intros e w2 He Hf. rewrite (proj2 (Z.eqb_neq _ _)) by done. cbn [negb]. apply wp_ret. by apply Herr.
  - congruence.
  - pose proof (ctl_busy w0). lia.
Qed.

Lemma read_rx_ok w b x rx (Q : Z * option Z -> W -> Prop) :
  bus_of w = b -> b_rx b = x :: rx -> is_byte x ->
  (forall w', bus_of w' = pop b -> Q (0, Some x) w') ->
  (forall e w', e <> 0 -> failed b w' -> Q (e, None) w') ->
  wp (I2CReadRxFifo fuel id) w Q.
Proof.
  intros Hb Hrx Hx HQ Herr. apply wp_bind, wp_bind, wp_uptime. intros ts w0 [-> [Hb0 _]]%ctl_uptime.
  eapply (wp_do_while _ (λ w', bus_of w' = b) busy).
  - intros w1 Hw1. apply wp_bind. eapply check_abort_ok; [done| |].
    + intros w2 Hw2 Hl2. cbn [negb Z.eqb]. apply wp_bind, wp_read. intros st w3 E.
      destruct (ctl_status _ _ _ E) as (Hb3 & Hl & _ & Hz). apply wp_bind, wp_uptime.
      intros t w4 [-> [Hb4 Hu4]]%ctl_uptime. rewrite Z.sub_diag.
      change (TIMEOUT_DURATION <? u64 0) with false. apply wp_ret.
      destruct (Z.land st RFNE_MASK =? 0) eqn:Er.
      * split; [congruence|]. destruct (busy w2) eqn:Eb; [|cbn in Hl; lia].
        destruct (Hz eq_refl) as (_ & _ & _ & Hz4). apply Z.eqb_eq in Er.
        destruct Hz4; [|done]. congruence.
      * cbn [negb Z.eqb]. apply wp_bind, wp_read. intros v w5 E5.
        destruct (ctl_pop w4 v w5 x rx) as [-> Hp]; [congruence | done | done |].
        apply wp_ret, HQ. congruence.
    + intros e w2 He Hf. rewrite (proj2 (Z.eqb_neq _ _)) by done. cbn [negb]. apply wp_ret.
      rewrite (proj2 (Z.eqb_neq _ _)) by done. cbn [negb]. apply wp_ret. by apply Herr.
  - congruence.
  - pose proof (ctl_busy w0). lia.
Qed.

Lemma send_data_ok bs : forall w b c out Q,
  bs <> [] -> Forall is_byte bs -> bus_of w = within b c out 0 [] ->
  (forall w', bus_of w' = with_regs (idled (addressed b c))
     (set_reg (b_regs b) (b_target b) c (overwrite (b_regs b (b_target b) c) (out ++ bs))) -> Q tt w') ->
  wp (send_bytes fuel id bs true) w Q.
Proof.
  induction bs as [|x bs IH]; intros w b c out Q Hne Hb Hw HQ; [done|].
  apply Forall_cons_1 in Hb as [Hx Hb]. cbn [send_bytes]. apply wp_bind.
  eapply (write_tx_ok _ (tok x (match bs with [] => true | _ => false end))); [exact Hw|].
  intros w1 Hw1. rewrite push_data in Hw1 by done.
  destruct bs as [|y bs]; [apply wp_ret, HQ; by rewrite Hw1|].
  apply (IH w1 b c (out ++ [x])); [done | done | exact Hw1 |].
  intros w2 Hw2. apply HQ. by rewrite Hw2, <- app_assoc.
Qed.

Lemma send_cmd_ok w b c Q :
  idle b -> is_byte c -> bus_of w = b -> (forall w', bus_of w' = within b c [] 0 [] -> Q tt w') ->
  wp (send_bytes fuel id (cmd_bytes c 1) false) w Q.
Proof.
  intros Hi Hc Hw HQ. cbn [send_bytes cmd_bytes le_bytes]. rewrite (Z.mod_small c) by done. cbn [andb].
  apply wp_bind. eapply (write_tx_ok _ (tok c false)); [exact Hw|]. intros w1 Hw1.
  rewrite push_cmd in Hw1 by done. by apply wp_ret, HQ.
Qed.

Lemma failed_addressed b c b' w :
  b_target b' = b_target b -> b_regs b' = b_regs b -> b_last b' = Some c ->
  failed b' w -> failed (addressed b c) w.
Proof.
  intros Ht Hr Hl [(Ht' & Hsh & Hs) Hi]. split; [|done]. split; [by rewrite Ht', Ht|].
  split; [cbn; by rewrite <- Hr|].
  intros a r Har. rewrite Hs; [by rewrite Hr|]. by rewrite Ht, Hl.
Qed.

Lemma recv_ok n : forall w b c k Q,
  bus_of w = within b c [] k [] -> n <> 0%nat -> Forall is_byte (b_regs b (b_target b) c) ->
  (forall w', bus_of w' = idled (addressed b c) ->
     Q (0, reg_bytes (b_regs b (b_target b) c) k n) w') ->
  (forall e l w', e <> 0 -> failed (addressed b c) w' -> Q (e, l) w') ->
  wp (recv_bytes fuel id n) w Q.
Proof.
  induction n as [|n IH]; intros w b c k Q Hw Hn Hbt HQ Herr; [done|]. cbn [recv_bytes]. apply wp_bind.
  set (stop := match n with O => true | _ => false end).
  replace (match n with O => IC_DATA_STOP | S _ => 0 end) with (if stop then IC_DATA_STOP else 0)
    by (by destruct n).
  eapply write_tx_ok; [exact Hw|]. intros w1 Hw1. rewrite push_read in Hw1. cbn zeta in Hw1.
  apply wp_bind. set (x := default 255 (b_regs b (b_target b) c !! k)) in *.
  assert (is_byte x) as Hx.
  { unfold x. destruct (_ !! k) eqn:E; [|done]. by apply (Forall_lookup_1 _ _ _ _ Hbt E). }
  eapply (read_rx_ok w1 _ x []); [exact Hw1 | by destruct stop | done | |].
  - intros w2 Hw2. destruct n as [|n].
    + cbn [recv_bytes]. apply wp_bind, wp_ret. apply wp_ret, HQ. by rewrite Hw2.
    + apply wp_bind. apply (IH w2 b c (S k)); [by rewrite Hw2 | done | done | |].
      * intros w3 Hw3. apply wp_ret, HQ. done.
      * intros e l w3 He Hf. apply wp_ret, Herr; done.
  - intros e w2 He Hf. apply wp_ret, Herr; [done|].
    eapply failed_addressed; [| | |exact Hf]; by destruct stop.
Qed.

Lemma read_bytes_ok w b c n (Q : Z * list Z -> W -> Prop) :
  idle b -> is_byte c -> bus_of w = b -> n <> 0%nat -> Forall is_byte (b_regs b (b_target b) c) ->
  (forall w', bus_of w' = addressed b c -> Q (0, reg_bytes (b_regs b (b_target b) c) 0 n) w') ->
  (forall e l w', e <> 0 -> failed (addressed b c) w' -> Q (e, l) w') ->
  wp (I2CReadBytes fuel A0State id c 1 n false) w Q.
Proof.
  intros Hi Hc Hw Hn Hbt HQ Herr. apply wp_bind. unfold I2CTransaction. apply wp_bind.
  destruct n as [|n]; [done|]. eapply send_cmd_ok; [exact Hi | done | done |].
  intros w1 Hw1. eapply recv_ok; [exact Hw1 | done | done | |].
  - intros w2 Hw2. apply wp_ret. cbn [fst]. rewrite andb_false_r. apply HQ. rewrite Hw2.
    destruct Hi as (H1 & H2 & H3 & H4). unfold idled, addressed. cbn. by rewrite H1, H2, H3, H4.
  - intros e l w2 He Hf. apply wp_ret. rewrite andb_false_r. by apply Herr.
Qed.

Lemma write_bytes_ok w b c bs (Q : Z -> W -> Prop) :
  idle b -> is_byte c -> bus_of w = b -> bs <> [] -> Forall is_byte bs ->
  let b' := with_regs (addressed b c)
    (set_reg (b_regs b) (b_target b) c (overwrite (b_regs b (b_target b) c) bs)) in
  (forall w', bus_of w' = b' -> Q 0 w') -> (forall e w', e <> 0 -> failed b' w' -> Q e w') ->
  wp (I2CWriteBytes fuel A0State id c 1 bs) w Q.
Proof.
  intros Hi Hc Hw Hne Hb b' HQ Herr. unfold I2CWriteBytes. apply wp_bind.
  destruct bs as [|x bs]; [done|]. eapply send_cmd_ok; [exact Hi | done | done |]. intros w1 Hw1.
  apply wp_bind. eapply send_data_ok; [done | done | exact Hw1 |]. intros w2 Hw2. rewrite app_nil_l in Hw2.
  assert (bus_of w2 = b') as Hb2.
  { rewrite Hw2. subst b'. destruct Hi as (H1 & H2 & H3 & H4). unfold with_regs, idled, addressed. cbn.
    by rewrite H1, H2, H3, H4. }
  cbn [Nat.ltb Nat.leb orb]. eapply all_tx_done_ok; [exact Hb2 | done | done].
Qed.

Lemma failed_rmw b c regs w :
  same_shape (b_regs b (b_target b) c) regs ->
  failed (with_regs (addressed b c) (set_reg (b_regs b) (b_target b) c regs)) w ->
  failed (addressed b c) w.
Proof.
  intros Hrs [(Ht & Hsh & Hs) Hi]. split; [|done]. split; [done|]. split.
  - intros a r. eapply same_shape_trans; [|apply Hsh]. by apply set_reg_shape.
  - intros a r Har. rewrite Hs by done. apply set_reg_ne. intros [= -> ->]. done.
Qed.

Lemma rmwv_ok w b c data mask (Q : Z -> W -> Prop) :
  let r := b_regs b (b_target b) c in
  idle b -> is_byte c -> bus_of w = b -> data <> [] -> (length data <= length r)%nat ->
  Forall is_byte data -> Forall is_byte r ->
  (forall w', bus_of w' = rmw_bus b c data mask -> Q 0 w') ->
  (forall e w', e <> 0 -> failed (addressed b c) w' -> Q e w') ->
  wp (I2CRMWV fuel A0State id c 1 data mask) w Q.
Proof.
  intros r Hi Hc Hw Hne Hlen Hd Hr HQ Herr. unfold I2CRMWV. cbv zeta.
  assert (length data <> 0%nat) as Hn by (by destruct data).
  apply wp_bind. eapply (read_bytes_ok w b c); [done | done | done | done | done | |].
  2: { intros e l w1 He Hf. cbn [fst]. rewrite (proj2 (Z.eqb_neq _ _)) by done. by apply wp_ret, Herr. }
  intros w1 Hw1. cbn [fst snd Z.eqb negb]. fold r. rewrite (reg_bytes_take r) by done.
  set (new := modify_all (take (length data) r) data mask).
  assert (length new = length data) as Ln
    by (unfold new; rewrite modify_all_length, length_take; lia).
  apply wp_bind. eapply (write_bytes_ok w1 (addressed b c) c new);
    [exact Hi | done | done | by intros E; rewrite E in Ln | | |].
  { apply modify_all_bytes; [by apply Forall_take | done]. }
  2: { intros e w2 He Hf. rewrite (proj2 (Z.eqb_neq _ _)) by done. apply wp_ret, Herr; [done|].
       by apply (failed_rmw b c (overwrite r new)) in Hf; [|apply rmw_shape]. }
  intros w2 Hw2. change (with_regs _ _) with (rmw_bus b c data mask) in Hw2. cbn [Z.eqb negb].
  assert (b_regs (rmw_bus b c data mask) (b_target b) c = overwrite r new) as Hreg.
  { cbn. unfold set_reg. by rewrite !Z.eqb_refl. }
  apply wp_bind. eapply (read_bytes_ok w2 (rmw_bus b c data mask) c);
    [exact Hi | done | done | done | | |].
  - change (b_target (rmw_bus b c data mask)) with (b_target b). rewrite Hreg.
    apply Forall_app. split; [|by apply Forall_drop].
    apply modify_all_bytes; [by apply Forall_take | done].
  - intros w3 Hw3. cbn [fst snd Z.eqb negb]. change (b_target (rmw_bus b c data mask)) with (b_target b).
    rewrite Hreg, reg_bytes_take by (rewrite overwrite_len; lia).
    rewrite <- Ln, overwrite_take. unfold new. rewrite verify_modify. apply wp_ret, HQ. exact Hw3.
  - intros e l w3 He Hf. cbn [fst]. rewrite (proj2 (Z.eqb_neq _ _)) by done. apply wp_ret, Herr; [done|].
    by apply (failed_rmw b c (overwrite r new)); [apply rmw_shape|].
Qed.

(** ** Setting up and recovering the bus *)
Lemma wp_setup a v w b (Q : unit -> W -> Prop) :
  setup_reg id a -> bus_of w = b -> (forall w', bus_of w' = b -> Q tt w') -> wp (WriteReg a v) w Q.
Proof. intros Ha Hw HQ. apply wp_write, HQ. by rewrite ctl_setup. Qed.
Lemma wp_delay n w b (Q : unit -> W -> Prop) :
  bus_of w = b -> (forall w', bus_of w' = b -> Q tt w') -> wp (Wait n) w Q.
Proof. intros Hw HQ. apply wp_wait, HQ. by rewrite (proj1 (ctl_wait n w)). Qed.
Lemma wp_enable v w b (Q : unit -> W -> Prop) :
  bus_of w = b -> (forall w', bus_of w' = idled b -> Q tt w') -> wp (WriteReg (GetI2CRegAddr id IC_ENABLE) v) w Q.
Proof. intros Hw HQ. apply wp_write, HQ. by rewrite ctl_enable, Hw. Qed.
Lemma wp_target v w b (Q : unit -> W -> Prop) :
  bus_of w = b -> (forall w', bus_of w' = retarget b v -> Q tt w') -> wp (WriteReg (GetI2CRegAddr id IC_TAR) v) w Q.
Proof. intros Hw HQ. apply wp_write, HQ. by rewrite ctl_target, Hw. Qed.

Lemma setup_cntl : setup_reg id RESET_UNIT_I2C_CNTL_REG_ADDR.
Proof. by left. Qed.
Lemma setup_pad : setup_reg id (GetI2CPadCntlAddr id).
Proof. by right; left. Qed.
Lemma setup_pad_data : setup_reg id (GetI2CPadDataAddr id).
Proof. by do 2 right; left. Qed.
Lemma setup_ctl o :
  o ∈ [IC_CON; IC_SAR; IC_SS_SCL_HCNT; IC_SS_SCL_LCNT; IC_FS_SCL_HCNT; IC_FS_SCL_LCNT; IC_SDA_HOLD;
       IC_FS_SPKLEN; IC_SMBUS_THIGH_MAX_IDLE_COUNT] -> setup_reg id (GetI2CRegAddr id o).
Proof. do 3 right. eauto. Qed.

(** Steps over one access that leaves the bus as it is. *)
Ltac quiet Hw :=
  try apply wp_bind;
  lazymatch type of Hw with
  | bus_of ?w = ?b =>
      first [ eapply (wp_delay _ w b); [exact Hw|]
            | eapply (wp_setup _ _ w b);
                [first [apply setup_cntl | apply setup_pad | apply setup_pad_data
                       | apply setup_ctl; repeat first [left | right]] | exact Hw |] ];
      clear Hw; intros ? Hw
  end.

Lemma toggle_ok n : forall cntl w b (Q : unit -> W -> Prop),
  bus_of w = b -> (forall w', bus_of w' = b -> Q tt w') -> wp (toggle_scl n id cntl) w Q.
Proof.
  induction n as [|n IH]; intros cntl w b Q Hw HQ; cbn [toggle_scl]; [by apply wp_ret, HQ|].
  do 2 quiet Hw. by eapply IH.
Qed.

Lemma recover_ok w b (Q : unit -> W -> Prop) :
  bus_of w = b -> (forall w', bus_of w' = idled b -> Q tt w') -> wp (I2CRecoverBus id) w Q.
Proof.
  intros Hw HQ. unfold I2CRecoverBus. cbv zeta. apply wp_bind, wp_read. intros v w1 E%ctl_cntl.
  rewrite Hw in E. clear Hw. apply wp_bind. eapply wp_enable; [exact E|]. clear E. intros w2 Hw.
  do 5 quiet Hw. apply wp_bind. eapply toggle_ok; [exact Hw|]. clear Hw. intros w3 Hw.
  do 6 quiet Hw. eapply wp_enable; [exact Hw|]. intros w4 Hw4. by apply HQ.
Qed.

Lemma init_gpio_ok w b (Q : unit -> W -> Prop) :
  bus_of w = b -> (forall w', bus_of w' = b -> Q tt w') -> wp (I2CInitGPIO id) w Q.
Proof.
  intros Hw HQ. unfold I2CInitGPIO. cbv zeta. do 2 quiet Hw.
  apply wp_bind, wp_read. intros v w1 E%ctl_cntl. rewrite Hw in E. quiet E. by apply HQ.
Qed.

Lemma i2c_init_ok w b a speed (Q : unit -> W -> Prop) :
  bus_of w = b -> 0 <= a < 1024 ->
  (forall w', bus_of w' = retarget (idled b) a -> Q tt w') ->
  wp (I2CInit fuel A0State I2CMst a speed id) w Q.
Proof.
  intros Hw Ha HQ. unfold I2CInit.
  apply wp_bind. eapply wait_status_ok; [|exact Hw|].
  { intros w1 st w2 Hz E. destruct (ctl_status _ _ _ E) as (_ & _ & _ & Hr).
    destruct (Hr Hz) as (_ & Hf & _). by apply negb_true_iff, Z.eqb_neq. }
  clear Hw. intros w1 Hw. apply wp_bind. eapply wait_status_ok; [|exact Hw|].
  { intros w2 st w3 Hz E. destruct (ctl_status _ _ _ E) as (_ & _ & _ & Hr).
    destruct (Hr Hz) as (_ & _ & Hf & _). by apply Z.eqb_eq. }
  clear Hw. intros w2 Hw. apply wp_bind. eapply init_gpio_ok; [exact Hw|]. clear Hw. intros w3 Hw.
  apply wp_bind. eapply wp_enable; [exact Hw|]. clear Hw. intros w4 Hw. do 2 quiet Hw.
  apply wp_bind, wp_bind. eapply wp_target; [exact Hw|]. clear Hw. intros w5 Hw5.
  replace (Z.land a 0x3FF) with a in Hw5
    by (change 0x3FF with (Z.ones 10); rewrite Z.land_ones by lia; symmetry; apply Z.mod_small; lia).
  quiet Hw5.
  apply wp_bind. eapply (wp_mono _ _ (λ _ w', bus_of w' = retarget (idled b) a)).
  { destruct speed; do 2 quiet Hw5; exact Hw5. }
  clear Hw5. intros [] w6 Hw6. do 2 quiet Hw6. apply wp_bind. eapply wp_enable; [exact Hw6|].
  clear Hw6. intros w7 Hw7. quiet Hw7. by apply HQ.
Qed.
End correct.

(** Read-modify-write-verify on a device register, if the controller keeps up: it
    returns; with no error, exactly the bits of the mask have the new value and
    nothing else on any device has changed; with an error, at most this register
    has. Either way the bus is idle after it. *)
Theorem i2c_rmwv_spec id lag W `{I2cController id lag W} fuel (w : W) c data mask
    (Hfuel : (lag < fuel)%nat) (Hidle : idle (bus_of w)) (Hc : is_byte c) (Hne : data <> [])
    (Hlen : (length data <= length (b_regs (bus_of w) (b_target (bus_of w)) c))%nat)
    (Hdata : Forall is_byte data) (Hreg : Forall is_byte (b_regs (bus_of w) (b_target (bus_of w)) c)) :
  exists ret w', I2CRMWV fuel A0State id c 1 data mask w = Some (ret, w') /\ idle (bus_of w') /\
    b_target (bus_of w') = b_target (bus_of w) /\
    (forall a r, (a, r) <> (b_target (bus_of w), c) -> b_regs (bus_of w') a r = b_regs (bus_of w) a r) /\
    (ret = 0 -> b_regs (bus_of w') (b_target (bus_of w)) c
                = rmw (b_regs (bus_of w) (b_target (bus_of w)) c) data mask).
Proof.
  eapply (rmwv_ok id lag fuel Hfuel w (bus_of w)); try done.
  - intros w' Hw'. rewrite Hw'. split; [exact Hidle|]. split; [done|]. cbn. unfold set_reg. split.
    + intros a r Har. destruct ((a =? _) && (r =? c)) eqn:E; [|done].
      apply andb_true_iff in E as [->%Z.eqb_eq ->%Z.eqb_eq]. done.
    + by rewrite !Z.eqb_refl.
  - intros e w' He [(Ht & _ & Hs) Hi]. split; [done|]. split; [done|]. split; [|done].
    intros a r Har. apply Hs. cbn. congruence.
Qed.

(** In the low-power state the driver does not touch the bus, and says so. *)
Theorem i2c_a3_silent W `{RegBus W} fuel id (w : W) mode a speed wd n c csz bs flip data mask (r : i2c_message_rqst) :
  I2CInit fuel A3State mode a speed id w = Some (tt, w) /\
  I2CTransaction fuel A3State id wd n w = Some ((IC_ABRT_A3_STATE, []), w) /\
  I2CWriteBytes fuel A3State id c csz bs w = Some (IC_ABRT_A3_STATE, w) /\
  I2CReadBytes fuel A3State id c csz n flip w = Some ((IC_ABRT_A3_STATE, []), w) /\
  I2CRMWV fuel A3State id c csz data mask w = Some (IC_ABRT_A3_STATE, w) /\
  i2c_message_handler fuel A3State r w = Some ((1, []), w).
Proof.
  split_and!; try done. unfold i2c_message_handler.
  destruct (negb _); [done|]. destruct (_ || _); done.
Qed.

(** * The driver always returns

    On any hardware, if the clock advances: [clock] counts in units of which [K] make
    a millisecond; no single access takes longer than that. *)
Class Clocked (K : Z) (W : Type) `{RegBus W} := {
  clock : W -> Z;
  clk_uptime w t w' : bus_uptime w = (t, w') -> t = clock w / K /\ clock w < clock w' <= clock w + K;
  clk_read a w v w' : bus_read a w = (v, w') -> clock w <= clock w' <= clock w + K;
  clk_write a v w : clock w <= clock (bus_write a v w);
  clk_wait n w : clock w <= clock (bus_wait n w);
}.

Section returns.
Context (K : Z) {W : Type} `{Clocked K W}.
Hypothesis K_pos : 0 < K.
Variable fuel : nat.
Hypothesis fuel_enough : 28 * K < Z.of_nat fuel.
Implicit Types (w : W).

(** Returns from any state. *)
Definition returns {A} (m : Dev W A) : Prop := forall w, wp m w (λ _ w', clock w <= clock w').

Lemma ret_returns {A} (x : A) : returns (mret x).
Proof. intros w. apply wp_ret. lia. Qed.
Lemma bind_returns {A B} (m : Dev W A) (f : A -> Dev W B) :
  returns m -> (forall x, returns (f x)) -> returns (m ≫= f).
Proof.
  intros Hm Hf w. apply wp_bind. eapply wp_mono; [apply Hm|]. intros x w1 H1. cbn beta in *.
  eapply wp_mono; [apply Hf|]. intros y w2 H2. cbn beta in *. lia.
Qed.
Lemma read_returns a : returns (ReadReg a).
Proof. intros w. apply wp_read. intros v w'. apply clk_read. Qed.
Lemma write_returns a v : returns (WriteReg a v).
Proof. intros w. apply wp_write, clk_write. Qed.
Lemma wait_returns n : returns (Wait n).
Proof. intros w. apply wp_wait, clk_wait. Qed.

Lemma if_returns {A} (c : bool) (m1 m2 : Dev W A) : returns m1 -> returns m2 -> returns (if c then m1 else m2).
Proof. by destruct c. Qed.

(** Takes at most [n] milliseconds. *)
Definition brief {A} (n : Z) (m : Dev W A) : Prop := forall w,
  wp m w (λ _ w', clock w <= clock w' <= clock w + n * K).
Lemma brief_read a : brief 1 (ReadReg a).
Proof. intros w. apply wp_read. intros v w' Hc%clk_read. lia. Qed.
Lemma brief_check_abort id : brief 2 (CheckTxAbrt id).
Proof.
  intros w. unfold CheckTxAbrt. apply wp_bind, wp_read. intros v w1 H1%clk_read. cbv zeta.
  destruct (negb _); [|apply wp_ret; lia].
  apply wp_bind, wp_read. intros v2 w2 H2%clk_read. apply wp_ret. lia.
Qed.

(** A loop body, started at most [s] milliseconds after the time [c0], that goes
    round again only before the end of the 27th millisecond. *)
Definition timely {A} (c0 s : Z) (body : Dev W (option A)) : Prop := forall w,
  c0 <= clock w <= c0 + s * K ->
  wp body w (λ r w', clock w <= clock w' /\ (r = None -> clock w < clock w' <= c0 + 27 * K)).

Lemma timely_some {A} c0 s (x : A) : timely c0 s (mret (Some x)).
Proof. intros w Hw. apply wp_ret. split; [lia | done]. Qed.
Lemma timely_bind {A B} c0 s n (m : Dev W A) (f : A -> Dev W (option B)) :
  brief n m -> (forall x, timely c0 (s + n) (f x)) -> timely c0 s (m ≫= f).
Proof.
  intros Hm Hf w Hw. apply wp_bind. eapply wp_mono; [apply Hm|]. intros x w1 H1. cbn beta in *.
  eapply wp_mono; [apply Hf; lia|]. intros r w2 [H2 H3]. split; [lia|]. intros Hr.
  specialize (H3 Hr). lia.
Qed.
Lemma timely_if {A} c0 s (c : bool) (m1 m2 : Dev W (option A)) :
  timely c0 s m1 -> timely c0 s m2 -> timely c0 s (if c then m1 else m2).
Proof. by destruct c. Qed.
Lemma timely_check {A} c0 s (late : Dev W unit) (x : A) (o : option A) :
  s < 1000 -> returns late ->
  timely c0 s (now ← k_uptime_get;
    if TIMEOUT_DURATION <? u64 (now - c0 / K) then _ ← late; mret (Some x) else mret o).
Proof.
  intros Hs Hlate w Hw. apply wp_bind, wp_uptime. intros t w1 (-> & Hlt)%clk_uptime.
  pose proof (Z.div_mod (clock w) K ltac:(lia)). pose proof (Z.mod_pos_bound (clock w) K K_pos).
  pose proof (Z.div_mod c0 K ltac:(lia)). pose proof (Z.mod_pos_bound c0 K K_pos).
  assert (0 <= clock w / K - c0 / K) by (apply Zle_minus_le_0, Z.div_le_mono; lia).
  assert (clock w / K - c0 / K < 1002) by nia.
  rewrite wrap_id by (unfold in_width; lia).
  destruct (Z.ltb_spec TIMEOUT_DURATION (clock w / K - c0 / K)) as [Hl|Hs2].
  - apply wp_bind. eapply wp_mono; [apply Hlate|]. intros [] w2 Hw2. cbn beta in *. apply wp_ret.
    split; [lia | done].
  - apply wp_ret. split; [lia|]. intros _. unfold TIMEOUT_DURATION in Hs2.
    assert (clock w < c0 + 26 * K) by nia. lia.
Qed.

Lemma loop_returns {A} (body : Z -> Dev W (option A)) :
  (forall c0, timely c0 27 (body (c0 / K))) -> returns (ts ← k_uptime_get; do_while fuel (body ts)).
Proof.
  intros Hb w. apply wp_bind, wp_uptime. intros t w0 (-> & Hlt)%clk_uptime.
  apply (wp_do_while _ (λ w', clock w <= clock w' <= clock w + 27 * K)
           (λ w', Z.to_nat (28 * K - (clock w' - clock w)))); [|lia..].
  intros w1 H1. eapply wp_mono; [by apply Hb|]. intros [x|] w2 [H2 H3]; [lia|].
  specialize (H3 eq_refl). lia.
Qed.

Ltac ret_tac :=
  repeat lazymatch goal with
  | |- returns (mret _) => apply ret_returns
  | |- returns (ReadReg _) => apply read_returns
  | |- returns (WriteReg _ _) => apply write_returns
  | |- returns (Wait _) => apply wait_returns
  | |- returns (mbind _ _) => apply bind_returns; [|intros ?]
  | |- returns (if _ then _ else _) => apply if_returns
  end.

Lemma toggle_returns n id c : returns (toggle_scl n id c).
Proof. revert c. induction n; intros c; cbn [toggle_scl]; cbv zeta; ret_tac. auto. Qed.
Lemma recover_returns id : returns (I2CRecoverBus id).
Proof. unfold I2CRecoverBus. cbv zeta. ret_tac. apply toggle_returns. Qed.
Lemma wait_status_returns id ready : returns (wait_status fuel id ready).
Proof.
  apply (loop_returns (λ ts, _)). intros c0. eapply timely_bind; [apply brief_read|]. intros st.
  apply timely_check; [lia | apply recover_returns].
Qed.
Lemma write_tx_returns id v : returns (WriteTxFifo fuel id v).
Proof. apply bind_returns; [apply wait_status_returns | intros _; apply write_returns]. Qed.
Lemma all_done_returns id : returns (WaitAllTxDone fuel id).
Proof.
  apply (loop_returns (λ ts, _)). intros c0. eapply timely_bind; [apply brief_check_abort|]. intros e.
  apply timely_if; [apply timely_some|]. eapply timely_bind; [apply brief_read|]. intros st. cbv zeta.
  apply timely_check; [lia | apply recover_returns].
Qed.
Lemma read_rx_returns id : returns (I2CReadRxFifo fuel id).
Proof.
  apply bind_returns; [|intros e; ret_tac].
  apply (loop_returns (λ ts, _)). intros c0. eapply timely_bind; [apply brief_check_abort|]. intros e.
  apply timely_if; [apply timely_some|]. eapply timely_bind; [apply brief_read|]. intros st.
  apply timely_check; [lia | apply recover_returns].
Qed.
Lemma send_returns id bs stop : returns (send_bytes fuel id bs stop).
Proof.
  induction bs as [|x bs IH]; cbn [send_bytes]; [apply ret_returns|]. cbv zeta.
  apply bind_returns; [apply write_tx_returns | done].
Qed.
Lemma recv_returns id n : returns (recv_bytes fuel id n).
Proof.
  induction n as [|n IH]; cbn [recv_bytes]; [apply ret_returns|]. cbv zeta.
  apply bind_returns; [apply write_tx_returns|]. intros _.
  apply bind_returns; [apply read_rx_returns|]. intros [e [x|]]; [|apply ret_returns].
  apply bind_returns; [done|]. intros y. apply ret_returns.
Qed.
Lemma transaction_returns st id wd n : returns (I2CTransaction fuel st id wd n).
Proof.
  destruct st; [|apply ret_returns]. apply bind_returns; [apply send_returns|]. intros _.
  destruct n; [|apply recv_returns]. apply bind_returns; [apply all_done_returns|]. intros e. apply ret_returns.
Qed.
Lemma read_bytes_returns st id c k n flip : returns (I2CReadBytes fuel st id c k n flip).
Proof. apply bind_returns; [apply transaction_returns|]. intros r. apply ret_returns. Qed.
Lemma write_bytes_returns st id c k bs : returns (I2CWriteBytes fuel st id c k bs).
Proof.
  destruct st; [|apply ret_returns].
  apply bind_returns; [apply send_returns|]. intros _. apply bind_returns; [apply send_returns|]. intros _.
  apply if_returns; [apply all_done_returns | apply ret_returns].
Qed.
Lemma rmwv_returns st id c k data mask : returns (I2CRMWV fuel st id c k data mask).
Proof.
  unfold I2CRMWV. cbv zeta. apply bind_returns; [apply read_bytes_returns|]. intros r.
  apply if_returns; [apply ret_returns|]. apply bind_returns; [apply write_bytes_returns|]. intros e.
  apply if_returns; [apply ret_returns|]. apply bind_returns; [apply read_bytes_returns|]. intros r2.
  apply if_returns; apply ret_returns.
Qed.
Lemma init_returns st mode a speed id : returns (I2CInit fuel st mode a speed id).
Proof.
  destruct st; [|apply ret_returns]. unfold I2CInit, WaitTxFifoEmpty, WaitMasterIdle, I2CInitGPIO. cbv zeta.
  apply bind_returns; [apply wait_status_returns|]. intros _.
  apply bind_returns; [apply wait_status_returns|]. intros _.
  destruct mode, speed; ret_tac.
Qed.
Lemma message_returns st r : returns (i2c_message_handler fuel st r).
Proof.
  unfold i2c_message_handler. cbv zeta. apply if_returns; [apply ret_returns|].
  apply if_returns; [apply ret_returns|]. apply bind_returns; [apply init_returns|]. intros _.
  apply bind_returns; [apply transaction_returns|]. intros x. apply ret_returns.
Qed.
End returns.

(** C36. Whatever the hardware does, even if the bus hangs, every operation of the
    driver returns, if the clock advances. *)
Theorem i2c_always_returns K W `{Clocked K W} fuel (w : W) st id mode a speed c k data mask (r : i2c_message_rqst)
    (HK : 0 < K) (Hfuel : 28 * K < Z.of_nat fuel) :
  is_Some (I2CInit fuel st mode a speed id w) /\
  is_Some (I2CReadBytes fuel st id c k (length data) false w) /\
  is_Some (I2CWriteBytes fuel st id c k data w) /\
  is_Some (I2CRMWV fuel st id c k data mask w) /\
  is_Some (i2c_message_handler fuel st r w).
Proof.
  assert (forall A (m : Dev W A), returns K m -> is_Some (m w)) as Hs.
  { intros A m Hm. destruct (Hm w) as (x & w' & E & _). eauto. }
  split_and!; apply Hs.
  - by apply init_returns.
  - by apply read_bytes_returns.
  - by apply write_bytes_returns.
  - by apply rmwv_returns.
  - by apply message_returns.
Qed.

(** * [FlipBytes] reverses *)
Lemma flip_loop_length n : forall i buf, length (flip_loop n i buf) = length buf.
Proof. induction n as [|n IH]; intros i buf; cbn [flip_loop]; [done|]. by rewrite IH, !length_insert. Qed.

(** What the loop has done before round [i]. *)
Definition flipped_to (orig buf : list Z) (i : nat) : Prop :=
  length buf = length orig /\
  forall k, (k < length orig)%nat ->
    buf !! k = orig !! (if decide (k < i \/ length orig - i <= k)%nat then (length orig - 1 - k)%nat else k).

Lemma flip_step orig buf i :
  flipped_to orig buf i -> (i < length orig / 2)%nat ->
  flipped_to orig (<[(length buf - 1 - i)%nat := buf !!! i]> (<[i := buf !!! (length buf - 1 - i)%nat]> buf)) (S i).
Proof.
  intros [Hl Hf] Hi. pose proof (Nat.Div0.div_le_mono (length orig) (length orig) 2).
  assert (2 * i + 1 < length orig)%nat as Hi2
    by (pose proof (Nat.div_mod_eq (length orig) 2); lia).
  rewrite Hl. set (j := (length orig - 1 - i)%nat).
  assert (forall k v, buf !! k = Some v -> buf !!! k = v) as Htot
    by (intros k v E; by apply list_lookup_total_correct).
  assert (exists x, orig !! i = Some x) as [x Hx] by (apply lookup_lt_is_Some_2; lia).
  assert (exists y, orig !! j = Some y) as [y Hy] by (apply lookup_lt_is_Some_2; lia).
  assert (buf !! i = Some x) as Hbi.
  { rewrite (Hf i) by lia. destruct (decide _); [lia | done]. }
  assert (buf !! j = Some y) as Hbj.
  { rewrite (Hf j) by lia. destruct (decide _); [lia | done]. }
  rewrite (Htot _ _ Hbi), (Htot _ _ Hbj).
  split; [by rewrite !length_insert|]. intros k Hk.
  destruct (decide (k = j)) as [->|Hkj].
  - rewrite list_lookup_insert_eq by (rewrite length_insert; lia).
    destruct (decide _); [|lia]. replace (length orig - 1 - j)%nat with i by lia. done.
  - rewrite list_lookup_insert_ne by done. destruct (decide (k = i)) as [->|Hki].
    + rewrite list_lookup_insert_eq by lia. destruct (decide _); [|lia]. done.
    + rewrite list_lookup_insert_ne by done. rewrite (Hf k Hk).
      destruct (decide _), (decide _); try done; lia.
Qed.

(** The byte swap of [util.h] is list reversal, for any size. *)
Theorem FlipBytes_rev buf : FlipBytes buf = rev buf.
Proof.
  assert (forall n i b, flipped_to buf b i -> (n + i = length buf / 2)%nat ->
    flipped_to buf (flip_loop n i b) (length buf / 2)) as Hloop.
  { induction n as [|n IH]; intros i b Hf Hn; cbn [flip_loop].
    - by replace (length buf / 2)%nat with i by lia.
    - apply IH; [|lia]. apply flip_step; [done | lia]. }
  destruct (Hloop (length buf / 2)%nat 0%nat buf) as [Hl Hf]; [|lia|].
  { split; [done|]. intros k Hk. destruct (decide _); [lia | done]. }
  unfold FlipBytes. rewrite rev_alt. change (rev_append buf []) with (reverse buf). apply list_eq. intros k.
  destruct (decide (k < length buf)%nat) as [Hk|Hk].
  - rewrite (Hf k Hk), reverse_lookup by done.
    replace (length buf - S k)%nat with (length buf - 1 - k)%nat by lia.
    destruct (decide _) as [Hd|Hd]; [done|].
    pose proof (Nat.div_mod_eq (length buf) 2). pose proof (Nat.mod_upper_bound (length buf) 2 ltac:(lia)).
    f_equal. lia.
  - rewrite !lookup_ge_None_2; [done | rewrite length_reverse; lia | rewrite Hl; lia].
Qed.

(** * A controller that keeps up

    It is busy for [lag] status readings after each access; [m_aborts] says which
    checks find an abort. *)
Record sim := { m_bus : bus; m_busy : nat; m_aborts : list bool }.
Definition sim_with (w : sim) (b : bus) (n : nat) : sim := {| m_bus := b; m_busy := n; m_aborts := m_aborts w |}.
Definition sim_id : Z := 1.
Definition sim_lag : nat := 3.
#[export] Instance sim_regbus : RegBus sim := {
  bus_read a w :=
    let n := Nat.min sim_lag (m_busy w) in
    if a =? GetI2CRegAddr sim_id IC_STATUS then
      (if (n =? 0)%nat then match b_rx (m_bus w) with [] => 0x6 | _ => 0xE end else 0x20,
       sim_with w (m_bus w) (pred n))
    else if a =? GetI2CRegAddr sim_id IC_DATA_CMD then
      (hd 0 (b_rx (m_bus w)), sim_with w (pop (m_bus w)) sim_lag)
    else if a =? GetI2CRegAddr sim_id IC_TX_ABRT_SOURCE then
      match m_aborts w with
      | true :: l => (1, {| m_bus := idled (m_bus w); m_busy := m_busy w; m_aborts := l |})
      | false :: l => (0, {| m_bus := m_bus w; m_busy := m_busy w; m_aborts := l |})
      | [] => (0, w)
      end
    else (0, w);
  bus_write a v w :=
    if a =? GetI2CRegAddr sim_id IC_DATA_CMD then sim_with w (push (m_bus w) v) sim_lag
    else if a =? GetI2CRegAddr sim_id IC_TAR then sim_with w (retarget (m_bus w) v) (m_busy w)
    else if a =? GetI2CRegAddr sim_id IC_ENABLE then sim_with w (idled (m_bus w)) (m_busy w)
    else w;
  bus_uptime w := (0, w);
  bus_wait _ w := w;
}.


Lemma sim_addr o : GetI2CRegAddr sim_id o = 0x80090000 + o.
Proof. done. Qed.

#[export, refine] Instance sim_controller : I2cController sim_id sim_lag sim :=
  { bus_of := m_bus; busy w := Nat.min sim_lag (m_busy w); now := 0 }.
Proof.
  - intros w. apply Nat.le_min_l.
  - by intros w t w' [= <- <-].
  - intros n w. by split.
  - intros w st w'. cbn [bus_read sim_regbus]. rewrite Z.eqb_refl.
    set (n := Nat.min sim_lag (m_busy w)). intros E. apply pair_equal_spec in E as [<- <-].
    cbn [m_bus m_busy sim_with]. split; [done|]. split; [apply Nat.le_min_r|].
    destruct (Nat.eqb_spec n 0) as [E|E]; (split; [|done || intros _]).
    + destruct (b_rx (m_bus w)); [intros Hn; exfalso; apply Hn; reflexivity | done].
    + destruct (b_rx (m_bus w)); split_and!; by vm_compute.
    + intros Hn. exfalso. apply Hn. reflexivity.
  - intros w src w'. cbn [bus_read sim_regbus]. rewrite !sim_addr.
    change (_ =? _) with false at 1. change (_ =? _) with false at 1. rewrite Z.eqb_refl.
    destruct (m_aborts w) as [|[] l]; intros [= <- <-]; done.
  - by intros w v w' [= <- <-].
  - by intros w v w' [= <- <-].
  - intros w v w' x rx Hrx Hx. cbn [bus_read sim_regbus]. rewrite !sim_addr.
    change (_ =? _) with false at 1. rewrite Z.eqb_refl, Hrx. intros [= <- <-]. split; [|done].
    apply wrap_id. exact Hx.
  - done.
  - done.
  - done.
  - intros w a v Ha. cbn [bus_write sim_regbus].
    assert (a <> GetI2CRegAddr sim_id IC_DATA_CMD /\ a <> GetI2CRegAddr sim_id IC_TAR /\
            a <> GetI2CRegAddr sim_id IC_ENABLE) as (H1 & H2 & H3).
    { destruct Ha as [->|[->|[->|(o & -> & Ho)]]]; [split_and!; by vm_compute..|].
      rewrite !sim_addr. unfold IC_DATA_CMD, IC_TAR, IC_ENABLE.
      assert (o ∉ [0x10; 0x04; 0x6C]) as Hn.
      { revert Ho. apply (list.Forall_forall (λ o, o ∉ [0x10; 0x04; 0x6C])).
        apply (bool_decide_unpack _). by vm_compute. }
      rewrite !not_elem_of_cons in Hn. lia. }
    by rewrite !(proj2 (Z.eqb_neq _ _)).
Defined.

(** A device with address 100 and an 8-byte register. *)
Definition dev_bus : bus :=
  {| b_target := 100; b_regs := λ _ _, [1; 2; 3; 4; 5; 6; 7; 8]; b_cmd := None; b_out := [];
     b_idx := 0; b_rx := []; b_last := None |}.
Definition dev_sim (aborts : list bool) : sim := {| m_bus := dev_bus; m_busy := 0; m_aborts := aborts |}.

Lemma dev_bytes : Forall is_byte [1; 2; 3; 4; 5; 6; 7; 8].
Proof. repeat (apply Forall_cons_2; [by vm_compute|]). constructor. Qed.
Lemma i2c_rmwv_spec_witness :
  (exists ret w', I2CRMWV 10 A0State sim_id 0xB0 1 [0xF0; 0] [0xF0; 0x3] (dev_sim []) = Some (ret, w') /\
    idle (m_bus w') /\ b_target (m_bus w') = 100 /\
    (forall a r, (a, r) <> (100, 0xB0) -> b_regs (m_bus w') a r = [1; 2; 3; 4; 5; 6; 7; 8]) /\
    (ret = 0 -> b_regs (m_bus w') 100 0xB0 = rmw [1; 2; 3; 4; 5; 6; 7; 8] [0xF0; 0] [0xF0; 0x3])) /\
  rmw [1; 2; 3; 4; 5; 6; 7; 8] [0xF0; 0] [0xF0; 0x3] = [0xF1; 0; 3; 4; 5; 6; 7; 8].
Proof.
  split; [|reflexivity].
  destruct (i2c_rmwv_spec sim_id sim_lag sim 10 (dev_sim []) 0xB0 [0xF0; 0] [0xF0; 0x3])
    as (ret & w' & E & Hi & Ht & Hs & Hr);
    [unfold sim_lag; lia | done | by vm_compute | done | cbn; lia
    | repeat (apply Forall_cons_2; [by vm_compute|]); constructor | exact dev_bytes |].
  exists ret, w'. split; [exact E|]. split; [exact Hi|]. split; [exact Ht|]. split; [exact Hs | exact Hr].
Defined.

(** * Recovering the bus

    The pad writes of [I2CRecoverBus]. *)
Definition pads : Type := list (Z * Z).
#[export] Instance pads_regbus : RegBus pads := {
  bus_read _ w := (0, w); bus_write a v w := w ++ [(a, v)]; bus_uptime w := (0, w); bus_wait _ w := w;
}.
(** The lines, released (by the pull-up, high) or driven low, after each write to the
    pads of controller [id]. *)
Definition lines (id : Z) (w : pads) : list (bool * bool) :=
  omap (λ x, if x.1 =? GetI2CPadCntlAddr id then Some (Z.testbit x.2 0, Z.testbit x.2 1) else None) w.
Fixpoint rising (l : list (bool * bool)) : nat :=
  match l with
  | (false, _) :: (((true, _) :: _) as l') => S (rising l')
  | _ :: l' => rising l'
  | [] => 0
  end.
Definition recovery (id : Z) : list (bool * bool) :=
  match I2CRecoverBus id ([] : pads) with Some (_, w) => lines id w | None => [] end.

(** The recovery sequence gives 16 clock pulses and then a stop condition (SDA
    rises while SCL is high), on each of the three buses. During the pulses SDA is
    released, not held low. *)
Theorem recovery_sequence id (Hid : id = 0 \/ id = 1 \/ id = 2) :
  recovery id = (true, true) :: concat (replicate 16 [(false, true); (true, true)])
    ++ [(false, true); (true, false); (true, true); (true, true)] /\
  rising (take 33 (recovery id)) = 16%nat.
Proof. destruct Hid as [->|[->| ->]]; split; vm_compute; reflexivity. Qed.
Lemma recovery_sequence_witness : rising (take 33 (recovery 1)) = 16%nat.
Proof. apply (recovery_sequence 1). auto. Defined.

(** * A bus that hangs in the middle of a write

    The TX buffer has room for [h_room] entries and nothing leaves it until the
    controller is reset. *)
Record hung := { h_bus : bus; h_room : nat; h_clock : Z }.
#[export] Instance hung_regbus : RegBus hung := {
  bus_read a w := (if a =? GetI2CRegAddr 1 IC_STATUS then (if (h_room w =? 0)%nat then 0x4 else 0x6) else 0, w);
  bus_write a v w :=
    if a =? GetI2CRegAddr 1 IC_DATA_CMD
    then {| h_bus := push (h_bus w) v; h_room := pred (h_room w); h_clock := h_clock w |}
    else if a =? GetI2CRegAddr 1 IC_ENABLE
    then {| h_bus := idled (h_bus w); h_room := 100; h_clock := h_clock w |} else w;
  bus_uptime w := (h_clock w, {| h_bus := h_bus w; h_room := h_room w; h_clock := h_clock w + 1 |});
  bus_wait _ w := w;
}.
#[export, refine] Instance hung_clocked : Clocked 1 hung := { clock := h_clock }.
Proof.
  - intros w t w' [= <- <-]. cbn. rewrite Z.div_1_r. lia.
  - intros a w v w' [= <- <-]. lia.
  - intros a v w. cbn. repeat case_match; cbn; lia.
  - intros n w. cbn. lia.
Defined.
Definition hung_bus : hung := {| h_bus := dev_bus; h_room := 3; h_clock := 0 |}.

Lemma i2c_always_returns_witness :
  is_Some (I2CInit 40 A0State I2CMst 100 I2CFastMode 1 hung_bus) /\
  is_Some (I2CReadBytes 40 A0State 1 0x21 1 (length [1; 2]) false hung_bus) /\
  is_Some (I2CWriteBytes 40 A0State 1 0x21 1 [1; 2] hung_bus) /\
  is_Some (I2CRMWV 40 A0State 1 0x21 1 [1; 2] [255; 255] hung_bus) /\
  is_Some (i2c_message_handler 40 A0State
    {| i2c_mst_id := 1; i2c_slave_address := 100; num_write_bytes := 1; num_read_bytes := 1;
       write_data := [1] |} hung_bus).
Proof. apply (i2c_always_returns 1 hung 40 hung_bus); lia. Defined.

(** A write is reported as done and is not: when the wait for room in the TX buffer
    gives up it resets the controller, which forgets the transaction, and the rest
    of the bytes go out as a transaction of their own. Here a write of five bytes to
    register 0xB0 ends as a write of the last two to register 0x38, the third byte. *)
Theorem recovery_splits_write :
  exists w', I2CWriteBytes 40 A0State 1 0xB0 1 [10; 11; 0x38; 12; 13] hung_bus = Some (0, w') /\
    b_regs (h_bus w') 100 0xB0 = [1; 2; 3; 4; 5; 6; 7; 8] /\
    b_regs (h_bus w') 100 0x38 = [12; 13; 3; 4; 5; 6; 7; 8].
Proof.
  destruct (I2CWriteBytes 40 A0State 1 0xB0 1 [10; 11; 0x38; 12; 13] hung_bus) as [[ret w']|] eqn:E;
    [|vm_compute in E; discriminate].
  exists w'. assert (ret = 0) as -> by (vm_compute in E; by injection E).
  split; [done|]. vm_compute in E. injection E as <-. split; reflexivity.
Qed.
