(* ===== verification/Regulator.v ===== *)
(** Voltage regulators: [lib/tenstorrent/bh_arc/regulator.c] with the tables of
    [regulator_config.c] (the board types from [drivers/misc/bh_fwtable]), and the
    AVS bus of [avs.c], through which the core voltage is set once it is up.

    The code runs on the registers of [I2c]; [asic_state] is an argument, the
    source of the voltage command is the state. Not here: the conversions to
    [float] of currents and powers, and [set_gddr_vddr]. *)
From stdpp Require Import prelude list numbers functions.
From Stdlib Require Import ZArith Lia.
From S2P Require Import Prelude Io Bus I2c.
Open Scope Z_scope.

(** ** Tables *)
Record regulator_data := { cmd : Z; data : list Z; mask : list Z }.
Record regulator_config := { address : Z; rdata : list regulator_data }.
Definition SERDES_VDDL_ADDR : Z := 0x30.
Definition SERDES_VDD_ADDR : Z := 0x31.
Definition SERDES_VDDH_ADDR : Z := 0x32.
Definition GDDRIO_WEST_ADDR : Z := 0x36.
Definition GDDRIO_EAST_ADDR : Z := 0x37.
Definition P0V8_VCORE_ADDR : Z := 0x64.
Definition P0V8_VCOREM_ADDR : Z := 0x65.
Definition p1x0_vcore_data : list regulator_data :=
  [
    {| cmd := 0xb0;
       data := [0x00; 0x00; 0x00; 0x00; 0x00; 0x02; 0x00; 0x00; 0x11; 0x00; 0x00; 0x00; 0x00; 0x41; 0x00; 0x00; 0x00; 0x00; 0x00; 0x00; 0x00; 0x00];
       mask := [0x00; 0x00; 0x00; 0x00; 0x00; 0x1f; 0x00; 0x00; 0x1f; 0x00; 0x00; 0x00; 0x00; 0x7f; 0x00; 0x00; 0x00; 0x00; 0x00; 0x00; 0x00; 0x00] |};
    {| cmd := 0xcb;
       data := [0x00; 0x00; 0x00; 0x00; 0x00; 0x00];
       mask := [0x00; 0x07; 0x00; 0x00; 0x00; 0x00] |};
    {| cmd := 0xd3;
       data := [0x00];
       mask := [0x80] |};
    {| cmd := 0xca;
       data := [0x00; 0x78; 0x00; 0x00; 0x00];
       mask := [0x00; 0xff; 0x00; 0x00; 0x00] |};
    {| cmd := 0x38;
       data := [0x08; 0x00];
       mask := [0xff; 0x07] |};
    {| cmd := 0x39;
       data := [0x0c; 0x00];
       mask := [0xff; 0x07] |};
    {| cmd := 0xe7;
       data := [0x01];
       mask := [0x07] |}
  ].
Definition p1x0_vcorem_data : list regulator_data :=
  [
    {| cmd := 0xb0;
       data := [0x00; 0x00; 0x2b; 0x00; 0x00; 0x07; 0x00; 0x00; 0x09; 0x00; 0x09; 0x00; 0x00; 0x00; 0x00; 0x00];
       mask := [0x00; 0x00; 0x3f; 0x00; 0x00; 0x1f; 0x00; 0x00; 0x1f; 0x00; 0x0f; 0x00; 0x00; 0x00; 0x00; 0x00] |};
    {| cmd := 0x38;
       data := [0x08; 0x00];
       mask := [0xff; 0x07] |};
    {| cmd := 0x39;
       data := [0x0c; 0x00];
       mask := [0xff; 0x07] |};
    {| cmd := 0xe7;
       data := [0x04];
       mask := [0x07] |}
  ].
Definition p300_vcore_data : list regulator_data :=
  [
    {| cmd := 0xb0;
       data := [0x00; 0x00; 0x3c; 0x00; 0x00; 0x03; 0x00; 0x00; 0x11; 0x00; 0x00; 0x00; 0x00; 0x00; 0x00; 0x00; 0x00; 0x00; 0x00; 0x00; 0x00; 0x00];
       mask := [0x00; 0x00; 0x3f; 0x00; 0x00; 0x1f; 0x00; 0x00; 0x1f; 0x00; 0x00; 0x00; 0x00; 0x00; 0x00; 0x00; 0x00; 0x00; 0x00; 0x00; 0x00; 0x00] |};
    {| cmd := 0xcb;
       data := [0x00; 0x00; 0x00; 0x00; 0x00; 0x00];
       mask := [0x00; 0x07; 0x00; 0x00; 0x00; 0x00] |};
    {| cmd := 0x38;
       data := [0x02; 0x00];
       mask := [0xff; 0x07] |};
    {| cmd := 0x39;
       data := [0x02; 0x00];
       mask := [0xff; 0x07] |};
    {| cmd := 0xe7;
       data := [0x01];
       mask := [0x07] |}
  ].
Definition p300_vcorem_data : list regulator_data :=
  [
    {| cmd := 0xb0;
       data := [0x00; 0x00; 0x2b; 0x00; 0x00; 0x07; 0x00; 0x00; 0x09; 0x00; 0x09; 0x00; 0x00; 0x00; 0x00; 0x00];
       mask := [0x00; 0x00; 0x3f; 0x00; 0x00; 0x1f; 0x00; 0x00; 0x1f; 0x00; 0x0f; 0x00; 0x00; 0x00; 0x00; 0x00] |};
    {| cmd := 0x38;
       data := [0x08; 0x00];
       mask := [0xff; 0x07] |};
    {| cmd := 0x39;
       data := [0x0c; 0x00];
       mask := [0xff; 0x07] |};
    {| cmd := 0xe7;
       data := [0x04];
       mask := [0x07] |}
  ].
Definition ubb_vcore_data : list regulator_data :=
  [
    {| cmd := 0xb0;
       data := [0x00; 0x00; 0x00; 0x00; 0x00; 0x02; 0x06; 0x00; 0x11; 0x00; 0x00; 0x00; 0x00; 0x00; 0x00; 0x00; 0x00; 0x00; 0x00; 0x00; 0x00; 0x00];
       mask := [0x00; 0x00; 0x00; 0x00; 0x00; 0x1f; 0x0f; 0x00; 0x1f; 0x00; 0x00; 0x00; 0x00; 0x00; 0x00; 0x00; 0x00; 0x00; 0x00; 0x00; 0x00; 0x00] |};
    {| cmd := 0xcb;
       data := [0x00; 0x00; 0x00; 0x00; 0x00; 0x00];
       mask := [0x00; 0x07; 0x00; 0x00; 0x00; 0x00] |};
    {| cmd := 0xd3;
       data := [0x00];
       mask := [0x80] |};
    {| cmd := 0xca;
       data := [0x00; 0x78; 0x00; 0x00; 0x00];
       mask := [0x00; 0xff; 0x00; 0x00; 0x00] |};
    {| cmd := 0x38;
       data := [0x02; 0x00];
       mask := [0xff; 0x07] |};
    {| cmd := 0x39;
       data := [0x02; 0x00];
       mask := [0xff; 0x07] |};
    {| cmd := 0xe7;
       data := [0x01];
       mask := [0x07] |}
  ].
Definition ubb_vcorem_data : list regulator_data :=
  [
    {| cmd := 0xb0;
       data := [0x00; 0x00; 0x2b; 0x00; 0x00; 0x07; 0x00; 0x00; 0x09; 0x00; 0x09; 0x00; 0x00; 0x00; 0x00; 0x00];
       mask := [0x00; 0x00; 0x3f; 0x00; 0x00; 0x1f; 0x00; 0x00; 0x1f; 0x00; 0x0f; 0x00; 0x00; 0x00; 0x00; 0x00] |};
    {| cmd := 0xe7;
       data := [0x04];
       mask := [0x07] |}
  ].
Definition ubb_gddrio_data : list regulator_data :=
  [
    {| cmd := 0x29;
       data := [0xbc; 0x01];
       mask := [0xff; 0xff] |};
    {| cmd := 0x21;
       data := [0xa3; 0x02];
       mask := [0xff; 0xff] |}
  ].
Definition serdes_vr_data : list regulator_data :=
  [
    {| cmd := 0xd2;
       data := [0x07];
       mask := [0xff] |}
  ].
Definition p150_config : list regulator_config :=
  [{| address := P0V8_VCORE_ADDR; rdata := p1x0_vcore_data |};
   {| address := P0V8_VCOREM_ADDR; rdata := p1x0_vcorem_data |};
   {| address := SERDES_VDDL_ADDR; rdata := serdes_vr_data |};
   {| address := SERDES_VDD_ADDR; rdata := serdes_vr_data |};
   {| address := SERDES_VDDH_ADDR; rdata := serdes_vr_data |}].
Definition p300_left_config : list regulator_config :=
  [{| address := P0V8_VCORE_ADDR; rdata := p300_vcore_data |};
   {| address := P0V8_VCOREM_ADDR; rdata := p300_vcorem_data |};
   {| address := SERDES_VDDL_ADDR; rdata := serdes_vr_data |};
   {| address := SERDES_VDDH_ADDR; rdata := serdes_vr_data |}].
Definition p300_right_config : list regulator_config :=
  [{| address := P0V8_VCORE_ADDR; rdata := p300_vcore_data |};
   {| address := P0V8_VCOREM_ADDR; rdata := p300_vcorem_data |};
   {| address := SERDES_VDDL_ADDR; rdata := serdes_vr_data |};
   {| address := SERDES_VDD_ADDR; rdata := serdes_vr_data |};
   {| address := SERDES_VDDH_ADDR; rdata := serdes_vr_data |}].
Definition ubb_config : list regulator_config :=
  [{| address := P0V8_VCORE_ADDR; rdata := ubb_vcore_data |};
   {| address := P0V8_VCOREM_ADDR; rdata := ubb_vcorem_data |};
   {| address := GDDRIO_WEST_ADDR; rdata := ubb_gddrio_data |};
   {| address := GDDRIO_EAST_ADDR; rdata := ubb_gddrio_data |};
   {| address := SERDES_VDDL_ADDR; rdata := serdes_vr_data |};
   {| address := SERDES_VDD_ADDR; rdata := serdes_vr_data |};
   {| address := SERDES_VDDH_ADDR; rdata := serdes_vr_data |}].

(** ** Boards *)
Inductive PcbType :=
  | PcbTypeOrionSLT | PcbTypeP100 | PcbTypeP150 | PcbTypeP300 | PcbTypeUBB | PcbTypeGalaxy2
  | PcbTypeUnknown.
Definition tt_bh_fwtable_get_pcb_type (ready : bool) (board_type : Z) : PcbType :=
  if negb ready then PcbTypeUnknown
  else if board_type =? 0x37 then PcbTypeOrionSLT
  else if existsb (Z.eqb board_type) [0x43; 0x41; 0x40; 0x42] then PcbTypeP150
  else if existsb (Z.eqb board_type) [0x44; 0x45; 0x46] then PcbTypeP300
  else if existsb (Z.eqb board_type) [0x47; 0x202] then PcbTypeUBB
  else if board_type =? 0x78 then PcbTypeGalaxy2
  else PcbTypeUnknown.
Definition board_config (board_type : PcbType) (left_chip : bool) : option (list regulator_config) :=
  match board_type with
  | PcbTypeP150 => Some p150_config
  | PcbTypeP300 => Some (if left_chip then p300_left_config else p300_right_config)
  | PcbTypeUBB => Some ubb_config
  | PcbTypeOrionSLT | PcbTypeGalaxy2 => Some []
  | _ => None
  end.

Definition PMBUS_MST_ID : Z := 1.
Definition VOUT_COMMAND : Z := 0x21.
Definition READ_VOUT : Z := 0x8B.
Definition OPERATION : Z := 0x1.
Definition VoutCommand : Z := 0.
Definition AVSVoutCommand : Z := 3.

Section regulator.
Context {W : Type} `{RegBus W}.
Variable fuel : nat.
Variable st : AsicState.

Definition WaitUs (us : Z) : Dev W unit := Wait ((us * 1000 + 19) / 20).

(** ** Initialisation *)
Definition init_entry (d : regulator_data) (aggregate_i2c_errors : Z) : Dev W Z :=
  i2c_error ← I2CRMWV fuel st PMBUS_MST_ID (cmd d) 1 (data d) (mask d);
  if negb (i2c_error =? 0) then
    _ ← I2CRecoverBus PMBUS_MST_ID;
    i2c_error ← I2CRMWV fuel st PMBUS_MST_ID (cmd d) 1 (data d) (mask d);
    mret (if negb (i2c_error =? 0) then Z.lor aggregate_i2c_errors i2c_error else aggregate_i2c_errors)
  else mret aggregate_i2c_errors.
Fixpoint init_regulator (ds : list regulator_data) (errors : Z) : Dev W Z :=
  match ds with
  | [] => mret errors
  | d :: ds => errors ← init_entry d errors; init_regulator ds errors
  end.
Fixpoint init_board (cs : list regulator_config) (errors : Z) : Dev W Z :=
  match cs with
  | [] => mret errors
  | c :: cs =>
      _ ← I2CInit fuel st I2CMst (address c) I2CFastMode PMBUS_MST_ID;
      errors ← init_regulator (rdata c) errors;
      init_board cs errors
  end.
Definition RegulatorInit (board_type : PcbType) (left_chip : bool) : Dev W Z :=
  match board_config board_type left_chip with
  | None => mret (u32 (- ENOTSUP))
  | Some cs => init_board cs 0
  end.
(** [enabled]: neither a recovery image nor another processor. The flag tells
    whether [record_init_failure] was called. *)
Definition regulator_init (enabled : bool) (board_type : PcbType) (left_chip : bool) : Dev W (Z * bool) :=
  if negb enabled then mret (0, false)
  else ret ← RegulatorInit board_type left_chip;
       mret (if negb (ret =? 0) then (- EIO, true) else (0, false)).

(** ** The AVS bus *)
Definition AVS_FIFOS_STATUS : Z := 0x80100028.
Definition AVS_INTERRUPT_MASK : Z := 0x80100034.
Definition AVS_CFG_0 : Z := 0x80100050.
Definition AVS_CFG_1 : Z := 0x80100054.
Definition AVS_READBACK : Z := 0x80100004.
Definition AVS_CMD : Z := 0x80100000.
Definition AVS_RD_CMD_DATA : Z := 0xffff.
Definition AVS_ERR_RB_DATA : Z := 0xffff.
Definition AVSCLK_FREQ_MHZ : Z := 20.
Definition AVS_VCORE_RAIL : Z := 0.
Definition AVSOk : Z := 0.
Definition AVSCommitWrite : Z := 0.
Definition AVSRead : Z := 3.

Definition WaitCmdFifoNotFull : Dev W unit :=
  do_while fuel (v ← ReadReg AVS_FIFOS_STATUS;
                 mret (if Z.land v 0xF00 =? 0 then None else Some tt)).
Definition WaitRxFifoNotEmpty : Dev W unit :=
  do_while fuel (v ← ReadReg AVS_FIFOS_STATUS;
                 mret (if Z.land v 0xF0000 =? 0 then None else Some tt)).
Fixpoint read_rx_loop (f : nat) (max_retries num_tries : Z) : Dev W (Z * Z) :=
  match f with
  | O => λ _, None
  | S f =>
      _ ← WaitRxFifoNotEmpty;
      readback_data ← ReadReg AVS_READBACK;
      let slave_ack := Z.shiftr readback_data 30 in
      let num_tries := u8 (num_tries + 1) in
      if negb (slave_ack =? AVSOk) && (num_tries <=? max_retries)
      then read_rx_loop f max_retries num_tries
      else mret (slave_ack, readback_data)
  end.
(** The status and the response. *)
Definition ReadRxFifo : Dev W (Z * Z) :=
  max_retries ← ReadReg AVS_CFG_0;
  r ← read_rx_loop fuel (u8 max_retries) 0;
  let '(slave_ack, readback_data) := r in
  mret (slave_ack, if negb (slave_ack =? AVSOk) then AVS_ERR_RB_DATA
                   else Z.shiftr (Z.land readback_data 0xFFFF00) 8).
Definition avs_word (cmd_data rail_sel cmd_code cmd_grp r_or_w : Z) : Z :=
  Z.lor (Z.lor (Z.lor (Z.lor (Z.shiftl cmd_data 3) (Z.land (Z.shiftl rail_sel 19) 0x780000))
    (Z.land (Z.shiftl cmd_code 23) 0x7800000)) (Z.land (Z.shiftl cmd_grp 27) 0x8000000))
    (Z.shiftl r_or_w 28).
Definition SendCmd (cmd_data rail_sel cmd_code cmd_grp r_or_w : Z) : Dev W unit :=
  _ ← WaitCmdFifoNotFull;
  WriteReg AVS_CMD (avs_word cmd_data rail_sel cmd_code cmd_grp r_or_w).

(** [apb_clk_freq] is the rate [clock_control_get_rate] reports. *)
Definition AVSInit (apb_clk_freq : Z) : Dev W unit :=
  let cfg := set_field 0x800A0000 10 1 1 in
  _ ← WriteReg AVS_CFG_1 cfg;
  let cfg := set_field cfg 16 8 (u8 ((apb_clk_freq + AVSCLK_FREQ_MHZ - 1) / AVSCLK_FREQ_MHZ)) in
  let cfg := set_field cfg 0 2 1 in
  _ ← WriteReg AVS_CFG_1 cfg;
  let cfg := set_field cfg 10 1 0 in
  _ ← WriteReg AVS_CFG_1 cfg;
  let cfg := set_field cfg 8 1 1 in
  _ ← WriteReg AVS_CFG_1 cfg;
  _ ← Wait WAIT_1US;
  WriteReg AVS_INTERRUPT_MASK 0.

Definition AVSReadVoltage (rail_sel : Z) : Dev W (Z * Z) :=
  _ ← SendCmd AVS_RD_CMD_DATA rail_sel 0x0 0 AVSRead; ReadRxFifo.
Definition AVSWriteVoltage (voltage_in_mV rail_sel : Z) : Dev W Z :=
  _ ← SendCmd voltage_in_mV rail_sel 0x0 0 AVSCommitWrite;
  r ← ReadRxFifo;
  _ ← WaitUs 150;
  mret r.1.
Definition AVSReadVoutTransRate (rail_sel : Z) : Dev W (Z * Z * Z) :=
  _ ← SendCmd AVS_RD_CMD_DATA rail_sel 0x1 0 AVSRead;
  r ← ReadRxFifo;
  mret (r.1, u8 (Z.shiftr r.2 8), Z.land r.2 0xff).
Definition AVSWriteVoutTransRate (rise_rate fall_rate rail_sel : Z) : Dev W Z :=
  _ ← SendCmd (u16 (Z.lor (Z.shiftl rise_rate 8) fall_rate)) rail_sel 0x1 0 AVSCommitWrite;
  r ← ReadRxFifo; mret r.1.
Definition AVSForceVoltageReset (rail_sel : Z) : Dev W Z :=
  _ ← SendCmd 0 rail_sel 0x4 0 AVSCommitWrite; r ← ReadRxFifo; mret r.1.
Definition AVSReadStatus (rail_sel : Z) : Dev W (Z * Z) :=
  _ ← SendCmd AVS_RD_CMD_DATA rail_sel 0xe 0 AVSRead; ReadRxFifo.
Definition AVSWriteStatus (status rail_sel : Z) : Dev W Z :=
  _ ← SendCmd status rail_sel 0xe 0 AVSCommitWrite; r ← ReadRxFifo; mret r.1.
Definition AVSReadVersion : Dev W (Z * Z) :=
  _ ← SendCmd AVS_RD_CMD_DATA 0xf 0xf 0 AVSRead; ReadRxFifo.
Definition AVSReadSystemInputCurrent : Dev W (Z * Z) :=
  _ ← SendCmd AVS_RD_CMD_DATA 0 0x0 1 AVSRead; ReadRxFifo.

(** ** Voltages *)
Definition i2c_set_max20816 (slave_addr voltage_in_mv : Z) : Dev W unit :=
  _ ← I2CInit fuel st I2CMst slave_addr I2CFastMode PMBUS_MST_ID;
  let vout_cmd := u16 (2 * voltage_in_mv) in
  _ ← I2CWriteBytes fuel st PMBUS_MST_ID VOUT_COMMAND 1 (le_bytes 2 vout_cmd);
  WaitUs 250.
(** Twice the voltage: the code returns half of it as a [float], which its callers
    cut to an integer. *)
Definition i2c_get_max20816 (slave_addr : Z) : Dev W Z :=
  _ ← I2CInit fuel st I2CMst slave_addr I2CFastMode PMBUS_MST_ID;
  r ← I2CReadBytes fuel st PMBUS_MST_ID READ_VOUT 1 2 false;
  mret (le_value (take 2 (r.2 ++ drop (length r.2) [0; 0]))).
Definition set_vcore (vout_cmd_source voltage_in_mv : Z) : Dev W unit :=
  if vout_cmd_source =? AVSVoutCommand
  then _ ← AVSWriteVoltage (u16 voltage_in_mv) AVS_VCORE_RAIL; mret tt
  else i2c_set_max20816 P0V8_VCORE_ADDR voltage_in_mv.
Definition get_vcore : Dev W Z := v ← i2c_get_max20816 P0V8_VCORE_ADDR; mret (v / 2).
Definition set_vcorem (voltage_in_mv : Z) : Dev W unit := i2c_set_max20816 P0V8_VCOREM_ADDR voltage_in_mv.
Definition get_vcorem : Dev W Z := v ← i2c_get_max20816 P0V8_VCOREM_ADDR; mret (v / 2).
(** The new source. The register is whatever it was if it cannot be read. *)
Definition SwitchVoutControl (uninit source : Z) : Dev W Z :=
  _ ← I2CInit fuel st I2CMst P0V8_VCORE_ADDR I2CFastMode PMBUS_MST_ID;
  r ← I2CReadBytes fuel st PMBUS_MST_ID OPERATION 1 1 false;
  let operation := match r.2 with b :: _ => b | [] => uninit end in
  let operation := set_field operation 1 1 1 in
  let operation := set_field operation 4 2 (source mod 4) in
  _ ← I2CWriteBytes fuel st PMBUS_MST_ID OPERATION 1 [operation];
  _ ← WaitUs 100;
  mret (u8 source).

(** ** Requests *)
Definition set_voltage_handler (vout_cmd_source slave_addr voltage_in_mv : Z) : Dev W Z :=
  if slave_addr =? P0V8_VCORE_ADDR then _ ← set_vcore vout_cmd_source voltage_in_mv; mret 0
  else if slave_addr =? P0V8_VCOREM_ADDR then _ ← set_vcorem voltage_in_mv; mret 0
  else mret 1.
Definition get_voltage_handler (slave_addr : Z) : Dev W (Z * option Z) :=
  if slave_addr =? P0V8_VCORE_ADDR then v ← get_vcore; mret (0, Some v)
  else if slave_addr =? P0V8_VCOREM_ADDR then v ← get_vcorem; mret (0, Some v)
  else mret (1, None).
Definition avs_init (enabled : bool) (apb_clk_freq uninit : Z) (vout_cmd_source : Z) : Dev W Z :=
  if negb enabled then mret vout_cmd_source
  else _ ← AVSInit apb_clk_freq; SwitchVoutControl uninit AVSVoutCommand.
End regulator.

(** * Initialisation *)
Definition entry_wf (regs : Z -> Z -> list Z) (a : Z) (d : regulator_data) : Prop :=
  is_byte (cmd d) /\ data d <> [] /\ Forall is_byte (data d) /\
  (length (data d) <= length (regs a (cmd d)))%nat /\ Forall is_byte (regs a (cmd d)).
(** The bits of the mask have the configured value. *)
Definition configured (regs : Z -> Z -> list Z) (a : Z) (d : regulator_data) : Prop :=
  verify_all (take (length (data d)) (regs a (cmd d))) (data d) (mask d) = true.

Section init.
Context (lag : nat) {W : Type} `{I2cController PMBUS_MST_ID lag W}.
Variable fuel : nat.
Hypothesis fuel_enough : (lag < fuel)%nat.
Implicit Types (w : W).

(** The registers [keys] may have changed, the rest has not. *)
Definition touched (keys : list (Z * Z)) (regs regs' : Z -> Z -> list Z) : Prop :=
  (forall a c, same_shape (regs a c) (regs' a c)) /\
  (forall a c, (a, c) ∉ keys -> regs' a c = regs a c).
Lemma touched_trans k1 k2 r1 r2 r3 : touched k1 r1 r2 -> touched k2 r2 r3 -> touched (k1 ++ k2) r1 r3.
Proof.
  intros [Hs1 H1] [Hs2 H2]. split.
  - intros a c. eapply same_shape_trans; [apply Hs1 | apply Hs2].
  - intros a c Hn. rewrite not_elem_of_app in Hn. destruct Hn. by rewrite H2, H1.
Qed.
Lemma touched_wf k r r' a d : touched k r r' -> entry_wf r a d -> entry_wf r' a d.
Proof.
  intros [Hs _] (H1 & H2 & H3 & H4 & H5). destruct (Hs a (cmd d)) as [Hl Hb].
  split_and!; try done; [by rewrite Hl | by apply Hb].
Qed.
Lemma touched_configured k r r' a d :
  touched k r r' -> (a, cmd d) ∉ k -> configured r a d -> configured r' a d.
Proof. intros [_ Hs] Hn. unfold configured. by rewrite Hs. Qed.

Lemma rmw_bus_touched b d :
  entry_wf (b_regs b) (b_target b) d ->
  touched [(b_target b, cmd d)] (b_regs b) (b_regs (rmw_bus b (cmd d) (data d) (mask d))) /\
  configured (b_regs (rmw_bus b (cmd d) (data d) (mask d))) (b_target b) d.
Proof.
  intros (Hc & Hne & Hd & Hl & Hr). cbn [b_regs rmw_bus with_regs]. split; [split|].
  - intros a c. apply set_reg_shape. by apply rmw_shape.
  - intros a c Hn. apply set_reg_ne. intros E. rewrite E in Hn. apply Hn. by left.
  - unfold configured. rewrite set_reg_eq. unfold rmw.
    set (new := modify_all _ _ _).
    assert (length new = length (data d)) as Ln
      by (unfold new; rewrite modify_all_length, length_take; lia).
    rewrite <- Ln at 1. rewrite overwrite_take. apply verify_modify.
Qed.
Lemma failed_touched b c w :
  failed PMBUS_MST_ID lag (addressed b c) w ->
  idle (bus_of w) /\ b_target (bus_of w) = b_target b /\
  touched [(b_target b, c)] (b_regs b) (b_regs (bus_of w)).
Proof.
  intros [(Ht & Hsh & Hs) Hi]. split; [done|]. split; [done|]. split; [done|].
  intros a r Hn. apply Hs. cbn. intros [= -> ->]. apply Hn. by left.
Qed.

Definition entry_post (errors : Z) (b : bus) (keys : list (Z * Z)) (ok : (Z -> Z -> list Z) -> Prop)
    (errors' : Z) (w' : W) : Prop :=
  idle (bus_of w') /\ b_target (bus_of w') = b_target b /\
  touched keys (b_regs b) (b_regs (bus_of w')) /\
  (errors' = 0 -> errors = 0 /\ ok (b_regs (bus_of w'))).

Lemma init_entry_ok w b d errors :
  bus_of w = b -> idle b -> entry_wf (b_regs b) (b_target b) d ->
  wp (init_entry fuel A0State d errors) w
     (entry_post errors b [(b_target b, cmd d)] (λ regs, configured regs (b_target b) d)).
Proof.
  intros Hw Hi Hwf. pose proof Hwf as (Hc & Hne & Hd & Hl & Hr). unfold init_entry.
  destruct (rmw_bus_touched b d Hwf) as [Ht Hok].
  apply wp_bind. eapply (rmwv_ok PMBUS_MST_ID lag fuel fuel_enough w b); try done.
  - intros w1 Hw1. cbn [negb Z.eqb]. apply wp_ret. unfold entry_post. rewrite Hw1. done.
  - intros e w1 He Hf. rewrite (proj2 (Z.eqb_neq _ _)) by done. cbn [negb].
    apply failed_touched in Hf as (Hi1 & Ht1 & Hto1).
    apply wp_bind. eapply (recover_ok PMBUS_MST_ID lag w1 (bus_of w1)); [done|]. intros w2 Hw2.
    assert (touched [(b_target b, cmd d)] (b_regs b) (b_regs (bus_of w2))) as Hto2 by (by rewrite Hw2).
    assert (b_target (bus_of w2) = b_target b) as Ht2 by (by rewrite Hw2).
    assert (idle (bus_of w2)) as Hi2 by (by rewrite Hw2).
    pose proof (touched_wf _ _ _ _ _ Hto2 Hwf) as Hwf2. rewrite <- Ht2 in Hwf2.
    destruct (rmw_bus_touched (bus_of w2) d Hwf2) as [Ht3 Hok3]. rewrite Ht2 in Ht3, Hok3.
    pose proof Hwf2 as (_ & _ & _ & Hl2 & Hr2).
    assert (forall regs, touched [(b_target b, cmd d)] (b_regs (bus_of w2)) regs ->
      touched [(b_target b, cmd d)] (b_regs b) regs) as Hcomp.
    { intros regs Hx. pose proof (touched_trans _ _ _ _ _ Hto2 Hx) as [Hs Hn]. split; [done|].
      intros a c Ha. apply Hn. rewrite not_elem_of_app. done. }
    apply wp_bind. eapply (rmwv_ok PMBUS_MST_ID lag fuel fuel_enough w2 (bus_of w2)); try done.
    + intros w3 Hw3. cbn [negb Z.eqb]. apply wp_ret. unfold entry_post. rewrite Hw3.
      split; [done|]. split; [done|]. split; [by apply Hcomp | done].
    + intros e2 w3 He2 Hf2. rewrite (proj2 (Z.eqb_neq _ _)) by done. cbn [negb]. apply wp_ret.
      apply failed_touched in Hf2 as (Hi3 & Ht3' & Hto3). rewrite Ht2 in Ht3', Hto3.
      split; [done|]. split; [done|]. split; [by apply Hcomp|].
      intros [_ ?]%Z.lor_eq_0_iff. done.
Qed.

Lemma init_regulator_ok ds : forall w b errors,
  bus_of w = b -> idle b -> Forall (entry_wf (b_regs b) (b_target b)) ds -> NoDup (cmd <$> ds) ->
  wp (init_regulator fuel A0State ds errors) w
     (entry_post errors b ((λ d, (b_target b, cmd d)) <$> ds)
        (λ regs, Forall (configured regs (b_target b)) ds)).
Proof.
  induction ds as [|d ds IH]; intros w b errors Hw Hi Hwf Hnd; cbn [init_regulator].
  { apply wp_ret. unfold entry_post. rewrite Hw. split_and!; try done; by intros. }
  apply Forall_cons_1 in Hwf as [Hd Hds]. rewrite fmap_cons in Hnd. apply list.NoDup_cons in Hnd as [Hnin Hnd].
  apply wp_bind. eapply wp_mono; [by apply (init_entry_ok w b)|].
  intros errors1 w1 (Hi1 & Ht1 & Hto1 & Hok1).
  eapply wp_mono; [apply (IH w1 (bus_of w1)); [done | done | | done]|].
  { eapply list.Forall_impl; [exact Hds|]. intros d' Hd'. rewrite Ht1. by eapply touched_wf. }
  intros errors2 w2 (Hi2 & Ht2 & Hto2 & Hok2). rewrite Ht1 in *.
  split; [done|]. split; [done|]. rewrite fmap_cons.
  split; [by apply (touched_trans [_] _ _ _ _ Hto1 Hto2)|].
  intros E. destruct (Hok2 E) as [E1 Hcfg]. destruct (Hok1 E1) as [E0 Hcfg1]. split; [done|].
  constructor; [|done]. eapply touched_configured; [exact Hto2 | | done].
  rewrite list_elem_of_fmap. intros (d' & [= E'] & Hin). apply Hnin, list_elem_of_fmap. eauto.
Qed.

(** The registers a board's table names. *)
Definition keys (cs : list regulator_config) : list (Z * Z) :=
  cs ≫= λ c, (λ d, (address c, cmd d)) <$> rdata c.
Definition board_wf (regs : Z -> Z -> list Z) (cs : list regulator_config) : Prop :=
  Forall (λ c, 0 <= address c < 1024 /\ Forall (entry_wf regs (address c)) (rdata c)) cs.
Definition board_configured (regs : Z -> Z -> list Z) (cs : list regulator_config) : Prop :=
  Forall (λ c, Forall (configured regs (address c)) (rdata c)) cs.

Lemma init_board_ok cs : forall w errors,
  board_wf (b_regs (bus_of w)) cs -> NoDup (keys cs) ->
  wp (init_board fuel A0State cs errors) w (λ errors' w',
    touched (keys cs) (b_regs (bus_of w)) (b_regs (bus_of w')) /\
    (errors' = 0 -> errors = 0 /\ board_configured (b_regs (bus_of w')) cs)).
Proof.
  induction cs as [|c cs IH]; intros w errors Hwf Hnd; cbn [init_board].
  { apply wp_ret. split; [done|]. intros ->. split; [done | constructor]. }
  apply Forall_cons_1 in Hwf as [[Ha Hds] Hcs]. change (keys (c :: cs)) with
    (((λ d, (address c, cmd d)) <$> rdata c) ++ keys cs) in *.
  apply list.NoDup_app in Hnd as (Hnd1 & Hdisj & Hnd2).
  assert (NoDup (cmd <$> rdata c)) as Hnd.
  { apply (NoDup_fmap_1 (λ x, (address c, x))). by rewrite <- list_fmap_compose. }
  apply wp_bind. eapply (i2c_init_ok PMBUS_MST_ID lag fuel fuel_enough w (bus_of w)); [done | done|].
  intros w1 Hw1. apply wp_bind.
  eapply wp_mono; [apply (init_regulator_ok (rdata c) w1 _ errors Hw1); [done | exact Hds | exact Hnd]|].
  intros errors2 w2 (Hi2 & Ht2 & Hto2 & Hok2). cbn [b_regs b_target retarget idled] in *.
  eapply wp_mono; [apply IH; [|done]|].
  { eapply list.Forall_impl; [exact Hcs|]. intros c' [Ha' Hd']. split; [done|].
    eapply list.Forall_impl; [exact Hd'|]. intros d'. by eapply touched_wf. }
  intros errors3 w3 [Hto3 Hok3]. split; [by eapply touched_trans|].
  intros E. destruct (Hok3 E) as [E2 Hcfg3]. destruct (Hok2 E2) as [E1 Hcfg2]. split; [done|].
  constructor; [|done]. apply list.Forall_forall. intros d Hd.
  eapply touched_configured; [exact Hto3 | | by apply (proj1 (list.Forall_forall _ _) Hcfg2)].
  apply Hdisj. apply list_elem_of_fmap. eauto.
Qed.
End init.

(** ** The boards' tables *)
Lemma tables_ok board left cs :
  board_config board left = Some cs ->
  NoDup (keys cs) /\
  Forall (λ c, 0 <= address c < 1024 /\
    Forall (λ d, is_byte (cmd d) /\ data d <> [] /\ Forall is_byte (data d) /\
                 length (mask d) = length (data d)) (rdata c)) cs.
Proof.
  destruct board, left; intros [= <-]; (split; [apply (bool_decide_unpack _); by vm_compute|]);
    repeat first [apply Forall_nil; exact I | apply Forall_cons_2 | split]; by vm_compute.
Qed.

(** Every register of the board's table exists and holds bytes. *)
Definition devices_fit (regs : Z -> Z -> list Z) (cs : list regulator_config) : Prop :=
  Forall (λ c, Forall (λ d, (length (data d) <= length (regs (address c) (cmd d)))%nat /\
                            Forall is_byte (regs (address c) (cmd d))) (rdata c)) cs.
Lemma devices_fit_wf board left cs regs :
  board_config board left = Some cs -> devices_fit regs cs -> board_wf regs cs.
Proof.
  intros Hb Hfit. destruct (tables_ok _ _ _ Hb) as [_ Ht]. unfold board_wf, devices_fit in *.
  rewrite list.Forall_forall in *. intros c Hc. destruct (Ht c Hc) as [Ha Hd]. split; [done|].
  specialize (Hfit c Hc). rewrite list.Forall_forall in *. intros d Hin.
  destruct (Hd d Hin) as (? & ? & ? & _), (Hfit d Hin). by split_and!.
Qed.

(** Setting up the regulators of a board: it returns; no register outside the
    board's table changes; if it reports no error, every bit the table gives has
    its value, even where the first attempt failed. A failure that persists is
    reported. *)
Theorem regulator_init_spec lag W `{I2cController PMBUS_MST_ID lag W} fuel (w : W) board left cs
    (Hfuel : (lag < fuel)%nat) (Hboard : board_config board left = Some cs)
    (Hfit : devices_fit (b_regs (bus_of w)) cs) :
  exists ret w', RegulatorInit fuel A0State board left w = Some (ret, w') /\
    (forall a c, (a, c) ∉ keys cs -> b_regs (bus_of w') a c = b_regs (bus_of w) a c) /\
    (ret = 0 -> board_configured (b_regs (bus_of w')) cs).
Proof.
  destruct (tables_ok _ _ _ Hboard) as [Hnd _]. unfold RegulatorInit. rewrite Hboard.
  destruct (init_board_ok lag fuel Hfuel cs w 0) as (ret & w' & E & [_ Ht] & Hok);
    [by eapply devices_fit_wf | done |].
  exists ret, w'. split; [done|]. split; [done|]. intros Hz. by apply Hok.
Qed.

(** The source of the voltage command is taken as switched even if nothing was
    written: in the low-power state the driver does not touch the bus, and
    [set_vcore] goes to the AVS bus from then on. *)
Theorem switch_unverified W `{RegBus W} fuel uninit source (w : W) :
  SwitchVoutControl fuel A3State uninit source w = Some (u8 source, bus_wait 5000 w).
Proof. done. Qed.

(** * The AVS bus *)

(** ** Command words *)
Lemma placed_testbit x lo w i :
  0 <= lo -> 0 <= w -> 0 <= i ->
  Z.testbit (Z.land (Z.shiftl x lo) (Z.shiftl (Z.ones w) lo)) i
  = (lo <=? i) && (i <? lo + w) && Z.testbit x (i - lo).
Proof.
  intros Hlo Hw Hi. rewrite Z.land_spec, !Z.shiftl_spec by lia.
  destruct (Z.leb_spec lo i); cycle 1.
  { by rewrite (Z.testbit_neg_r x), (Z.testbit_neg_r (Z.ones w)) by lia. }
  rewrite Z.testbit_ones_nonneg by lia. rewrite andb_comm.
  destruct (Z.ltb_spec (i - lo) w), (Z.ltb_spec i (lo + w)); try lia; done.
Qed.
Lemma avs_word_testbit d rail code grp rw i :
  in_width 16 d -> in_width 2 rw -> 0 <= i ->
  Z.testbit (avs_word d rail code grp rw) i =
    (((((3 <=? i) && (i <? 19) && Z.testbit d (i - 3)) ||
    ((19 <=? i) && (i <? 23) && Z.testbit rail (i - 19))) ||
    ((23 <=? i) && (i <? 27) && Z.testbit code (i - 23))) ||
    ((27 <=? i) && (i <? 28) && Z.testbit grp (i - 27))) ||
    ((28 <=? i) && (i <? 30) && Z.testbit rw (i - 28)).
Proof.
  intros Hd Hrw Hi. unfold avs_word.
  replace (Z.shiftl d 3) with (Z.land (Z.shiftl d 3) (Z.shiftl (Z.ones 16) 3)); cycle 1.
  { rewrite <- Z.shiftl_land, Z.land_ones by lia. f_equal. by apply Z.mod_small. }
  replace (Z.shiftl rw 28) with (Z.land (Z.shiftl rw 28) (Z.shiftl (Z.ones 2) 28)); cycle 1.
  { rewrite <- Z.shiftl_land, Z.land_ones by lia. f_equal. by apply Z.mod_small. }
  change 0x780000 with (Z.shiftl (Z.ones 4) 19). change 0x7800000 with (Z.shiftl (Z.ones 4) 23).
  change 0x8000000 with (Z.shiftl (Z.ones 1) 27).
  rewrite !Z.lor_spec, !placed_testbit by lia. done.
Qed.

(** The fields of a command word are what was put in. *)
Definition decode_avs (v : Z) : Z * Z * Z * Z * Z :=
  (field v 3 16, field v 19 4, field v 23 4, field v 27 1, field v 28 2).
Lemma field_eq v lo w x :
  0 <= lo -> 0 <= w -> in_width w x ->
  (forall i, 0 <= i < w -> Z.testbit v (lo + i) = Z.testbit x i) -> field v lo w = x.
Proof.
  intros Hlo Hw Hx Hb. apply Z.bits_inj'. intros i Hi. unfold field.
  rewrite Z.land_spec, Z.shiftr_spec, Z.testbit_ones_nonneg by lia.
  destruct (Z.ltb_spec i w).
  - rewrite andb_true_r, Z.add_comm. by apply Hb.
  - rewrite andb_false_r. rewrite <- (Z.mod_small x (2 ^ w)) by done.
    by rewrite Z.mod_pow2_bits_high by lia.
Qed.
Theorem avs_word_roundtrip d rail code grp rw
    (Hd : in_width 16 d) (Hrail : in_width 4 rail) (Hcode : in_width 4 code) (Hgrp : in_width 1 grp)
    (Hrw : in_width 2 rw) :
  decode_avs (avs_word d rail code grp rw) = (d, rail, code, grp, rw).
Proof.
  unfold decode_avs. repeat apply f_equal2; try reflexivity.
  all: apply field_eq; [lia | lia | done |]; intros i Hi; rewrite avs_word_testbit by (done || lia).
  all: repeat match goal with
    | |- context [?a <=? ?b] => destruct (Z.leb_spec a b); try lia
    | |- context [?a <? ?b] => destruct (Z.ltb_spec a b); try lia
    end; cbn [andb orb]; rewrite ?orb_false_r; f_equal; lia.
Qed.

(** ** Readbacks

    The controller's buffer of readbacks; the command buffer always has room. *)
Record avs := { a_retries : Z; a_queue : list Z; a_sent : list Z }.
#[export] Instance avs_regbus : RegBus avs := {
  bus_read a w :=
    if a =? AVS_FIFOS_STATUS then (0x100 + match a_queue w with [] => 0 | _ => 0x10000 end, w)
    else if a =? AVS_CFG_0 then (a_retries w, w)
    else if a =? AVS_READBACK then
      (hd 0 (a_queue w), {| a_retries := a_retries w; a_queue := tail (a_queue w); a_sent := a_sent w |})
    else (0, w);
  bus_write a v w :=
    if a =? AVS_CMD then {| a_retries := a_retries w; a_queue := a_queue w; a_sent := a_sent w ++ [v] |} else w;
  bus_uptime w := (0, w);
  bus_wait _ w := w;
}.
Definition ack (v : Z) : Z := Z.shiftr v 30.
(** The readback that counts: the first good one, or the last allowed. *)
Fixpoint settle (tries : nat) (q : list Z) {struct q} : option (Z * list Z) :=
  match q with
  | [] => None
  | v :: q => if ack v =? AVSOk then Some (v, q)
              else match tries with O => Some (v, q) | S tries => settle tries q end
  end.

Lemma wait_rx_ready fuel v q r s :
  WaitRxFifoNotEmpty (S fuel) {| a_retries := r; a_queue := v :: q; a_sent := s |}
  = Some (tt, {| a_retries := r; a_queue := v :: q; a_sent := s |}).
Proof. done. Qed.
Lemma wait_rx_empty fuel r s :
  WaitRxFifoNotEmpty fuel {| a_retries := r; a_queue := []; a_sent := s |} = None.
Proof. induction fuel as [|fuel IH]; [done|]. exact IH. Qed.

Lemma read_rx_loop_settle r s : forall q f fuel m n,
  0 <= n -> n <= m < 255 -> (length q < f)%nat -> fuel <> 0%nat ->
  read_rx_loop fuel f m n {| a_retries := r; a_queue := q; a_sent := s |}
  = option_map (λ x, ((ack x.1, x.1), {| a_retries := r; a_queue := x.2; a_sent := s |}))
      (settle (Z.to_nat (m - n)) q).
Proof.
  induction q as [|v q IH]; intros f fuel m n Hn Hm Hf Hfu; (destruct f as [|f]; [cbn in Hf; lia|]).
  - cbn [read_rx_loop settle]. unfold mbind, Dev_bind. by rewrite wait_rx_empty.
  - cbn [read_rx_loop settle]. unfold mbind, Dev_bind. destruct fuel as [|fuel]; [done|].
    rewrite wait_rx_ready. cbn [ReadReg bus_read avs_regbus]. cbv zeta.
    change (AVS_READBACK =? AVS_FIFOS_STATUS) with false. change (AVS_READBACK =? AVS_CFG_0) with false.
    rewrite Z.eqb_refl. cbn [a_queue hd tail a_retries a_sent]. fold (ack v).
    rewrite wrap_id by (unfold in_width; lia).
    destruct (ack v =? AVSOk); cbn [negb andb]; [done|].
    destruct (Z.leb_spec (n + 1) m) as [Hle|Hgt].
    + rewrite IH by (cbn in Hf; lia). replace (Z.to_nat (m - n)) with (S (Z.to_nat (m - (n + 1)))) by lia. done.
    + replace (Z.to_nat (m - n)) with 0%nat by lia. done.
Qed.

Lemma avs_read_ok fuel rail q m :
  0 <= m < 255 -> (length q < fuel)%nat ->
  AVSReadVoltage fuel rail {| a_retries := m; a_queue := q; a_sent := [] |} =
    option_map (λ x, ((ack x.1, if ack x.1 =? AVSOk then field x.1 8 16 else 0xffff),
        {| a_retries := m; a_queue := x.2; a_sent := [avs_word 0xffff rail 0 0 3] |}))
      (settle (Z.to_nat m) q).
Proof.
  intros Hm Hfuel. destruct fuel as [|fuel]; [lia|]. unfold AVSReadVoltage, SendCmd.
  assert (forall w, WaitCmdFifoNotFull (S fuel) w = Some (tt, w)) as Hw.
  { intros [r [|x l] s]; reflexivity. }
  unfold mbind at 1, Dev_bind at 1. unfold mbind at 1, Dev_bind at 1. rewrite Hw.
  unfold WriteReg. cbn [bus_write avs_regbus]. rewrite Z.eqb_refl. cbn [a_retries a_queue a_sent app].
  unfold ReadRxFifo, mbind, Dev_bind, ReadReg. cbn [bus_read avs_regbus].
  change (AVS_CFG_0 =? AVS_FIFOS_STATUS) with false. rewrite Z.eqb_refl. cbn [a_retries].
  rewrite wrap_id by (unfold in_width; lia). rewrite read_rx_loop_settle by lia.
  rewrite Z.sub_0_r. change (avs_word AVS_RD_CMD_DATA rail 0 0 AVSRead) with (avs_word 0xffff rail 0 0 3).
  destruct (settle (Z.to_nat m) q) as [[v q']|]; [|done]. cbn [option_map fst snd].
  destruct (ack v =? AVSOk); cbn [negb]; [|done]. do 3 f_equal.
  unfold field. change 0xFFFF00 with (Z.shiftl (Z.ones 16) 8).
  rewrite Z.shiftr_land. f_equal.
Qed.

(** A read on the AVS bus: the answer is that of the first good readback among the
    first [max_retries + 1], or an error with all ones; if all that came are bad and
    there are fewer, the code waits on. *)
Theorem avs_read_spec fuel rail q m
    (Hm : 0 <= m < 255) (Hfuel : (length q < fuel)%nat) :
  AVSReadVoltage fuel rail {| a_retries := m; a_queue := q; a_sent := [] |} =
    option_map (λ x, ((ack x.1, if ack x.1 =? AVSOk then field x.1 8 16 else 0xffff),
        {| a_retries := m; a_queue := x.2; a_sent := [avs_word 0xffff rail 0 0 3] |}))
      (settle (Z.to_nat m) q).
Proof. by apply avs_read_ok. Qed.

(** The status "good checksum, bad data" is not tried again by the bus; the driver
    waits for another readback, without a limit. *)
Theorem avs_bad_data_hangs fuel rail m (Hm : 0 < m < 255) (Hfuel : (1 < fuel)%nat) :
  AVSReadVoltage fuel rail {| a_retries := m; a_queue := [Z.shiftl 3 30]; a_sent := [] |} = None.
Proof.
  rewrite avs_read_ok; [|lia|done]. destruct (Z.to_nat m) eqn:E; [lia|]. done.
Qed.


(** With the largest retry count the 8-bit count of tries never passes it. *)
Theorem avs_retries_for_ever fuel q r s f n
    (Hbad : Forall (λ v, ack v <> AVSOk) q) (Hn : in_width 8 n) :
  read_rx_loop fuel f 255 n {| a_retries := r; a_queue := q; a_sent := s |} = None.
Proof.
  revert n f Hn. induction Hbad as [|v q Hv Hq IH]; intros n [|f] Hn; try done.
  - cbn [read_rx_loop]. unfold mbind, Dev_bind. by rewrite wait_rx_empty.
  - cbn [read_rx_loop]. unfold mbind, Dev_bind. destruct fuel as [|fuel]; [done|]. rewrite wait_rx_ready.
    cbn [ReadReg bus_read avs_regbus]. change (AVS_READBACK =? AVS_FIFOS_STATUS) with false.
    change (AVS_READBACK =? AVS_CFG_0) with false. rewrite Z.eqb_refl. cbn [a_queue hd tail a_retries a_sent].
    fold (ack v). rewrite (proj2 (Z.eqb_neq _ _)) by done. cbn [negb andb].
    pose proof (wrap_in_width 8 (n + 1) ltac:(lia)) as Hw.
    rewrite (proj2 (Z.leb_le _ _)) by (unfold in_width in Hw; lia). by apply IH.
Qed.

(** ** Witnesses *)
Definition board_bus : bus :=
  {| b_target := 0; b_regs := λ _ _, replicate 32 0x55; b_cmd := None; b_out := [];
     b_idx := 0; b_rx := []; b_last := None |}.
(** The first two attempts meet an abort. *)
Definition board_sim : sim := {| m_bus := board_bus; m_busy := 0; m_aborts := [false; false; true] |}.

Lemma board_fits : devices_fit (b_regs board_bus) p150_config.
Proof.
  apply list.Forall_forall. intros c Hc. apply list.Forall_forall. intros d Hd. split; [|by apply Forall_replicate].
  cbn [b_regs board_bus]. rewrite length_replicate.
  assert (Forall (λ c, Forall (λ d, (length (data d) <= 32)%nat) (rdata c)) p150_config) as Hall
    by (apply (bool_decide_unpack _); by vm_compute).
  rewrite list.Forall_forall in Hall. specialize (Hall c Hc). by rewrite list.Forall_forall in Hall; apply Hall.
Qed.
Lemma regulator_init_spec_witness :
  (exists ret w', RegulatorInit 10 A0State PcbTypeP150 false board_sim = Some (ret, w') /\
    (forall a c, (a, c) ∉ keys p150_config -> b_regs (m_bus w') a c = replicate 32 0x55) /\
    (ret = 0 -> board_configured (b_regs (m_bus w')) p150_config)) /\
  option_map fst (RegulatorInit 10 A0State PcbTypeP150 false board_sim) = Some 0.
Proof.
  split; [|by vm_compute].
  destruct (regulator_init_spec sim_lag sim 10 board_sim PcbTypeP150 false p150_config)
    as (ret & w' & E & Ht & Hok); [unfold sim_lag; lia | reflexivity | exact board_fits |].
  exists ret, w'. split; [exact E|]. split; [exact Ht | exact Hok].
Defined.

Lemma avs_word_roundtrip_witness : decode_avs (avs_word 750 1 0 0 3) = (750, 1, 0, 0, 3).
Proof. apply avs_word_roundtrip; by vm_compute. Defined.
Lemma avs_read_spec_witness :
  let q := [Z.shiftl 1 30; Z.shiftl 750 8] in
  AVSReadVoltage 5 0 {| a_retries := 3; a_queue := q; a_sent := [] |} =
    option_map (λ x, ((ack x.1, if ack x.1 =? AVSOk then field x.1 8 16 else 0xffff),
        {| a_retries := 3; a_queue := x.2; a_sent := [avs_word 0xffff 0 0 0 3] |}))
      (settle 3 q) /\
  settle 3 q = Some (Z.shiftl 750 8, []).
Proof. split; [|reflexivity]. apply (avs_read_spec 5 0 _ 3); cbn; lia. Defined.
Lemma avs_bad_data_hangs_witness :
  AVSReadVoltage 1000 0 {| a_retries := 3; a_queue := [Z.shiftl 3 30]; a_sent := [] |} = None.
Proof. apply avs_bad_data_hangs; lia. Defined.
Lemma avs_retries_for_ever_witness :
  read_rx_loop 10 500 255 0 {| a_retries := 255; a_queue := replicate 400 (Z.shiftl 1 30); a_sent := [] |} = None.
Proof. apply avs_retries_for_ever; [by apply Forall_replicate | by vm_compute]. Defined.
