(* ===== verification/Telemetry.v ===== *)
(** Telemetry: [lib/tenstorrent/fw_common/telemetry.c], the table of
    [bh_arc/telemetry_bh.c] and the cache of [bh_arc/telemetry_internal.c].

    The host finds a value by its tag in a table next to the values. What the code
    collects from other components is an input record. A [float] that is converted
    to 16.16 format is a rational: taking its integer part, subtracting that and
    scaling by a power of two are exact in floating point. *)
From stdpp Require Import prelude list numbers.
From Stdlib Require Import ZArith Lia QArith Qround Qabs Lqa.
From S2P Require Import Prelude Io.
Open Scope Z_scope.

(** ** Tags *)
Definition TAG_BOARD_ID_HIGH : Z := 1.
Definition TAG_BOARD_ID_LOW : Z := 2.
Definition TAG_ASIC_ID : Z := 3.
Definition TAG_HARVESTING_STATE : Z := 4.
Definition TAG_UPDATE_TELEM_SPEED : Z := 5.
Definition TAG_VCORE : Z := 6.
Definition TAG_TDP : Z := 7.
Definition TAG_TDC : Z := 8.
Definition TAG_VDD_LIMITS : Z := 9.
Definition TAG_THM_LIMIT_SHUTDOWN : Z := 10.
Definition TAG_ASIC_TEMPERATURE : Z := 11.
Definition TAG_VREG_TEMPERATURE : Z := 12.
Definition TAG_BOARD_TEMPERATURE : Z := 13.
Definition TAG_AICLK : Z := 14.
Definition TAG_AXICLK : Z := 15.
Definition TAG_ARCCLK : Z := 16.
Definition TAG_L2CPUCLK0 : Z := 17.
Definition TAG_L2CPUCLK1 : Z := 18.
Definition TAG_L2CPUCLK2 : Z := 19.
Definition TAG_L2CPUCLK3 : Z := 20.
Definition TAG_ETH_LIVE_STATUS : Z := 21.
Definition TAG_GDDR_STATUS : Z := 22.
Definition TAG_GDDR_SPEED : Z := 23.
Definition TAG_ETH_FW_VERSION : Z := 24.
Definition TAG_GDDR_FW_VERSION : Z := 25.
Definition TAG_DM_APP_FW_VERSION : Z := 26.
Definition TAG_DM_BL_FW_VERSION : Z := 27.
Definition TAG_FLASH_BUNDLE_VERSION : Z := 28.
Definition TAG_CM_FW_VERSION : Z := 29.
Definition TAG_L2CPU_FW_VERSION : Z := 30.
Definition TAG_FAN_SPEED : Z := 31.
Definition TAG_TIMER_HEARTBEAT : Z := 32.
Definition TAG_TELEM_ENUM_COUNT : Z := 33.
Definition TAG_ENABLED_TENSIX_COL : Z := 34.
Definition TAG_ENABLED_ETH : Z := 35.
Definition TAG_ENABLED_GDDR : Z := 36.
Definition TAG_ENABLED_L2CPU : Z := 37.
Definition TAG_PCIE_USAGE : Z := 38.
Definition TAG_INPUT_CURRENT : Z := 39.
Definition TAG_NOC_TRANSLATION : Z := 40.
Definition TAG_FAN_RPM : Z := 41.
Definition TAG_GDDR_0_1_TEMP : Z := 42.
Definition TAG_GDDR_2_3_TEMP : Z := 43.
Definition TAG_GDDR_4_5_TEMP : Z := 44.
Definition TAG_GDDR_6_7_TEMP : Z := 45.
Definition TAG_GDDR_0_1_CORR_ERRS : Z := 46.
Definition TAG_GDDR_2_3_CORR_ERRS : Z := 47.
Definition TAG_GDDR_4_5_CORR_ERRS : Z := 48.
Definition TAG_GDDR_6_7_CORR_ERRS : Z := 49.
Definition TAG_GDDR_UNCORR_ERRS : Z := 50.
Definition TAG_MAX_GDDR_TEMP : Z := 51.
Definition TAG_ASIC_LOCATION : Z := 52.
Definition TAG_BOARD_POWER_LIMIT : Z := 53.
Definition TAG_INPUT_POWER : Z := 54.
Definition TAG_TDC_LIMIT_MAX : Z := 55.
Definition TAG_THM_LIMIT_THROTTLE : Z := 56.
Definition TAG_FW_BUILD_DATE : Z := 57.
Definition TAG_TT_FLASH_VERSION : Z := 58.
Definition TAG_ENABLED_TENSIX_ROW : Z := 59.
Definition TAG_THERM_TRIP_COUNT : Z := 60.
Definition TAG_ASIC_ID_HIGH : Z := 61.
Definition TAG_ASIC_ID_LOW : Z := 62.
Definition TAG_AICLK_LIMIT_MAX : Z := 63.
Definition TAG_TDP_LIMIT_MAX : Z := 64.
Definition TAG_AICLK_ARB_MIN : Z := 65.
Definition TAG_AICLK_ARB_MAX : Z := 66.
Definition TAG_ENABLED_MIN_ARB : Z := 67.
Definition TAG_ENABLED_MAX_ARB : Z := 68.
Definition TAG_AICLK_PPM_INFO : Z := 69.
Definition TAG_HOST_AICLK_LIMIT : Z := 70.
Definition TAG_SMBUS_ERRORS : Z := 71.
Definition TAG_GDDR_MRISC_NOC2AXI_PORT : Z := 72.
Definition TAG_GDDR_WEST_IO_POWER : Z := 73.
Definition TAG_GDDR_EAST_IO_POWER : Z := 74.
Definition TAG_KERNEL_THROTTLER : Z := 75.
Definition TAG_NOP_START_COUNT : Z := 76.
Definition TAG_NOP_ON_DURATION : Z := 77.
Definition TAG_FW_CAPABILITIES_0 : Z := 78.
Definition TAG_FW_ACTIVE_CONFIG_0 : Z := 79.
Definition TAG_FLASH_JEDEC_ID : Z := 80.
Definition TAG_CCFGOVR_STATE : Z := 81.
Definition TAG_CCFGOVR_SEQ : Z := 82.
Definition TAG_BOARD_ID_EXT_HIGH : Z := 83.
Definition TAG_BOARD_ID_EXT_MIDDLE : Z := 84.
Definition TAG_BOARD_ID_EXT_LOW : Z := 85.
Definition TAG_COUNT : Z := 86.

(** [TELEM_OFFSET] is the identity; entries that the initialiser leaves out are zero. *)
Definition TELEM_OFFSET (tag : Z) : Z := tag.
Definition entry (tag : Z) : Z * Z := (tag, TELEM_OFFSET tag).
Definition tag_table : list (Z * Z) :=
  [
   entry TAG_BOARD_ID_HIGH; entry TAG_BOARD_ID_LOW; (0, 0); entry TAG_HARVESTING_STATE;
   entry TAG_UPDATE_TELEM_SPEED; entry TAG_VCORE; entry TAG_TDP; entry TAG_TDC;
   entry TAG_VDD_LIMITS; entry TAG_THM_LIMIT_SHUTDOWN; entry TAG_ASIC_TEMPERATURE; entry TAG_VREG_TEMPERATURE;
   entry TAG_BOARD_TEMPERATURE; entry TAG_AICLK; entry TAG_AXICLK; entry TAG_ARCCLK;
   entry TAG_L2CPUCLK0; entry TAG_L2CPUCLK1; entry TAG_L2CPUCLK2; entry TAG_L2CPUCLK3;
   entry TAG_ETH_LIVE_STATUS; entry TAG_GDDR_STATUS; entry TAG_GDDR_SPEED; entry TAG_ETH_FW_VERSION;
   entry TAG_GDDR_FW_VERSION; entry TAG_DM_APP_FW_VERSION; entry TAG_DM_BL_FW_VERSION; entry TAG_FLASH_BUNDLE_VERSION;
   entry TAG_CM_FW_VERSION; entry TAG_L2CPU_FW_VERSION; entry TAG_FAN_SPEED; entry TAG_TIMER_HEARTBEAT;
   entry TAG_ENABLED_TENSIX_COL; entry TAG_ENABLED_ETH; entry TAG_ENABLED_GDDR; entry TAG_ENABLED_L2CPU;
   entry TAG_PCIE_USAGE; entry TAG_NOC_TRANSLATION; entry TAG_FAN_RPM; entry TAG_GDDR_0_1_TEMP;
   entry TAG_GDDR_2_3_TEMP; entry TAG_GDDR_4_5_TEMP; entry TAG_GDDR_6_7_TEMP; entry TAG_GDDR_0_1_CORR_ERRS;
   entry TAG_GDDR_2_3_CORR_ERRS; entry TAG_GDDR_4_5_CORR_ERRS; entry TAG_GDDR_6_7_CORR_ERRS; entry TAG_GDDR_UNCORR_ERRS;
   entry TAG_MAX_GDDR_TEMP; entry TAG_ASIC_LOCATION; entry TAG_BOARD_POWER_LIMIT; entry TAG_INPUT_POWER;
   entry TAG_ASIC_ID_HIGH; entry TAG_ASIC_ID_LOW; entry TAG_THERM_TRIP_COUNT; entry TAG_TELEM_ENUM_COUNT;
   entry TAG_AICLK_LIMIT_MAX; entry TAG_TDC_LIMIT_MAX; entry TAG_THM_LIMIT_THROTTLE; entry TAG_TDP_LIMIT_MAX;
   entry TAG_AICLK_ARB_MIN; entry TAG_AICLK_ARB_MAX; entry TAG_ENABLED_MIN_ARB; entry TAG_ENABLED_MAX_ARB;
   entry TAG_AICLK_PPM_INFO; entry TAG_HOST_AICLK_LIMIT; entry TAG_SMBUS_ERRORS; entry TAG_GDDR_MRISC_NOC2AXI_PORT;
   entry TAG_GDDR_WEST_IO_POWER; entry TAG_GDDR_EAST_IO_POWER; entry TAG_KERNEL_THROTTLER; entry TAG_NOP_START_COUNT;
   entry TAG_NOP_ON_DURATION; entry TAG_FW_CAPABILITIES_0; entry TAG_FW_ACTIVE_CONFIG_0; entry TAG_FLASH_JEDEC_ID;
   entry TAG_CCFGOVR_STATE; entry TAG_CCFGOVR_SEQ; entry TAG_BOARD_ID_EXT_HIGH; entry TAG_BOARD_ID_EXT_MIDDLE;
   entry TAG_BOARD_ID_EXT_LOW; (0, 0); (0, 0); (0, 0);
   (0, 0); (0, 0)
  ].

(** * The core *)
Record telemetry := {
  values : list Z;
  telem_update_interval : Z;
  telem_timer_started : bool;
  (** the period of the running timer *)
  timer : option Z;
}.
Implicit Types (t : telemetry).
Definition with_values t (vs : list Z) : telemetry :=
  {| values := vs; telem_update_interval := telem_update_interval t;
     telem_timer_started := telem_timer_started t; timer := timer t |}.
Definition telemetry_platform_slot (tag : Z) : Z := if tag <? TAG_COUNT then TELEM_OFFSET tag else -1.
Definition telemetry_set (tag value : Z) t : telemetry :=
  let slot := telemetry_platform_slot tag in
  if 0 <=? slot then with_values t (<[Z.to_nat slot := value]> (values t)) else t.
Definition slot_value t (slot : Z) : Z := default 0 (zget (values t) slot).
Definition telemetry_get (tag : Z) t : Z :=
  let slot := telemetry_platform_slot tag in if 0 <=? slot then slot_value t slot else 0.
Definition GetTelemetryTagValid (tag : Z) : bool := 0 <=? telemetry_platform_slot tag.
Definition GetTelemetryTag (tag : Z) t : Z :=
  let slot := telemetry_platform_slot tag in if slot <? 0 then u32 (-1) else slot_value t slot.

Definition UpdateDmFwVersion (bl_version app_version : Z) t : telemetry :=
  telemetry_set TAG_DM_APP_FW_VERSION app_version (telemetry_set TAG_DM_BL_FW_VERSION bl_version t).
Definition UpdateTelemetryNocTranslation (enabled : bool) : telemetry -> telemetry :=
  telemetry_set TAG_NOC_TRANSLATION (Z.b2z enabled).
Definition UpdateTelemetryBoardPowerLimit : Z -> telemetry -> telemetry := telemetry_set TAG_BOARD_POWER_LIMIT.
Definition UpdateTelemetryTdpLimit : Z -> telemetry -> telemetry := telemetry_set TAG_TDP_LIMIT_MAX.
Definition UpdateTelemetryThermTripCount : Z -> telemetry -> telemetry := telemetry_set TAG_THERM_TRIP_COUNT.
Definition UpdateTelemetryHostAiclkLimit : Z -> telemetry -> telemetry := telemetry_set TAG_HOST_AICLK_LIMIT.
Definition UpdateTelemetryFlashJedecId : Z -> telemetry -> telemetry := telemetry_set TAG_FLASH_JEDEC_ID.
Definition UpdateTelemetryKernelThrottler (enabled : bool) (stop_nops_freq : Z) t : telemetry :=
  let active_config := set_field (telemetry_get TAG_FW_ACTIVE_CONFIG_0 t) 0 1 (Z.b2z enabled) in
  telemetry_set TAG_KERNEL_THROTTLER
    (Z.lor (Z.b2z enabled) (u32 (Z.shiftl (Z.land stop_nops_freq 0xFFFF) 16)))
    (telemetry_set TAG_FW_ACTIVE_CONFIG_0 active_config t).
Definition UpdateTelemetryGddrThermTrip (enabled : bool) t : telemetry :=
  telemetry_set TAG_FW_ACTIVE_CONFIG_0
    (set_field (telemetry_get TAG_FW_ACTIVE_CONFIG_0 t) 1 1 (Z.b2z enabled)) t.

(** The interval is an [int]. *)
Definition s32 (z : Z) : Z := if u32 z <? 2 ^ 31 then u32 z else u32 z - 2 ^ 32.
Definition TELEM_UPDATE_INTERVAL_DEFAULT_MS : Z := 100.
Definition TELEM_UPDATE_INTERVAL_MIN_MS : Z := 1.
Definition StartTelemetryTimer t : telemetry :=
  {| values := values t; telem_update_interval := telem_update_interval t; telem_timer_started := true;
     timer := Some (telem_update_interval t) |}.
Definition TelemetrySetUpdateInterval (interval_ms : Z) t : telemetry * Z :=
  let interval := if interval_ms =? 0 then Some TELEM_UPDATE_INTERVAL_DEFAULT_MS
                  else if interval_ms <? TELEM_UPDATE_INTERVAL_MIN_MS then None else Some interval_ms in
  match interval with
  | None => (t, 1)
  | Some ms =>
      let t := {| values := values t; telem_update_interval := s32 ms;
                  telem_timer_started := telem_timer_started t; timer := timer t |} in
      let t := telemetry_set TAG_UPDATE_TELEM_SPEED (u32 (telem_update_interval t)) t in
      (if telem_timer_started t
       then {| values := values t; telem_update_interval := telem_update_interval t;
               telem_timer_started := true; timer := Some (telem_update_interval t) |} else t, 0)
  end.

(** ** 16.16 format; [None] stands for [FLT_MAX], the mark of an error. *)
Definition qfloor_abs (v : Q) : Z := Qfloor (Qabs v).
Definition ConvertFloatToTelemetry (value : option Q) : Z :=
  match value with
  | None => 0x80000000
  | Some v =>
      let int_part := u16 (qfloor_abs v) in
      let frac_part := u16 (Qfloor ((Qabs v - inject_Z int_part) * 65536)) in
      let ret_value := Z.lor (Z.shiftl int_part 16) frac_part in
      if Qle_bool 0 v then ret_value else u32 (- ret_value)
  end.
(** As a [double]; the code rounds it to a [float]. *)
Definition ConvertTelemetryToFloat (value : Z) : option Q :=
  if value =? - 2 ^ 31 then None else Some (inject_Z value / 65536)%Q.

(** * The cache of shared values *)
Record cache {D : Type} := { last_update_time : Z; internal_data : D }.
Arguments cache : clear implicits.
(** [uptime] the time of the call, [fresh] what reading the sensors gives. *)
Definition ReadTelemetryInternal {D} (max_staleness uptime : Z) (fresh : D) (c : cache D) : cache D * D :=
  let c := if max_staleness <=? uptime - last_update_time c
           then {| last_update_time := uptime; internal_data := fresh |} else c in
  (c, internal_data c).

(** * GDDR words *)
Definition NUM_GDDR : nat := 8.
Record gddr_telemetry := {
  training_complete : Z;
  gddr_error : Z;
  corr_edc_rd_errors : Z;
  corr_edc_wr_errors : Z;
  uncorr_edc_rd_error : Z;
  uncorr_edc_wr_error : Z;
  dram_speed : Z;
}.
Record gddr_words := { g_corr : list Z; g_uncorr : Z; g_status : Z; g_speed : Z }.
(** One instance that is in the mask and could be read. *)
Definition add_gddr (i : nat) (g : gddr_telemetry) (w : gddr_words) : gddr_words :=
  let z := Z.of_nat i in
  let shift_val := (z mod 2) * 16 in
  {| g_status := u32 (Z.lor (g_status w) (Z.lor (Z.shiftl (training_complete g) (z * 2))
                                                (Z.shiftl (gddr_error g) (z * 2 + 1))));
     g_corr := alter (λ c, u32 (Z.lor c (Z.lor (Z.shiftl (Z.land (corr_edc_wr_errors g) 0xff) (8 + shift_val))
                                               (Z.shiftl (Z.land (corr_edc_rd_errors g) 0xff) shift_val))))
                 (i / 2)%nat (g_corr w);
     g_uncorr := u32 (Z.lor (g_uncorr w) (Z.lor (Z.shiftl (uncorr_edc_rd_error g) (z * 2))
                                                (Z.shiftl (uncorr_edc_wr_error g) (z * 2 + 1))));
     g_speed := dram_speed g |}.
(** [read i] is the table of instance [i], [None] if it could not be read. *)
Fixpoint gather_gddr (n : nat) (dram_mask : Z) (read : nat -> option gddr_telemetry) (w : gddr_words)
  : gddr_words :=
  match n with
  | O => w
  | S n =>
      let w := gather_gddr n dram_mask read w in
      if Z.testbit dram_mask (Z.of_nat n)
      then match read n with None => w | Some g => add_gddr n g w end else w
  end.
Fixpoint add_bist (n : nat) (complete failed status : Z) : Z :=
  match n with
  | O => status
  | S n =>
      let z := Z.of_nat n in
      let status := add_bist n complete failed status in
      let status := u32 (Z.lor status (Z.shiftl (Z.b2z (Z.testbit complete z)) (16 + z * 2))) in
      u32 (Z.lor status (Z.shiftl (Z.b2z (Z.testbit failed z)) (17 + z * 2)))
  end.
Definition update_gddr_words (dram_mask : Z) (read : nat -> option gddr_telemetry)
    (bist_complete bist_failed old_speed : Z) : gddr_words :=
  let w := gather_gddr NUM_GDDR dram_mask read
             {| g_corr := replicate 4 0; g_uncorr := 0; g_status := 0; g_speed := old_speed |} in
  {| g_corr := g_corr w; g_uncorr := g_uncorr w; g_speed := g_speed w;
     g_status := add_bist NUM_GDDR bist_complete bist_failed (g_status w) |}.
Fixpoint set_range (tag : Z) (vs : list Z) t : telemetry :=
  match vs with [] => t | v :: vs => set_range (tag + 1) vs (telemetry_set tag v t) end.
Definition UpdateGddrTelemetry (dram_mask : Z) (read : nat -> option gddr_telemetry)
    (bist_complete bist_failed : Z) t : telemetry :=
  let w := update_gddr_words dram_mask read bist_complete bist_failed (telemetry_get TAG_GDDR_SPEED t) in
  let t := set_range TAG_GDDR_0_1_CORR_ERRS (g_corr w) t in
  let t := telemetry_set TAG_GDDR_UNCORR_ERRS (g_uncorr w) t in
  let t := telemetry_set TAG_GDDR_STATUS (g_status w) t in
  telemetry_set TAG_GDDR_SPEED (g_speed w) t.
(** Temperatures: (top, bottom) of each instance. *)
Fixpoint pack_gddr_temps (n : nat) (temps : nat -> Z * Z) : list Z :=
  match n with
  | O => replicate 4 0
  | S n =>
      let shift_val := (Z.of_nat n mod 2) * 16 in
      alter (λ c, u32 (Z.lor c (Z.lor (Z.shiftl (fst (temps n)) (8 + shift_val))
                                      (Z.shiftl (snd (temps n)) shift_val))))
        (n / 2)%nat (pack_gddr_temps n temps)
  end.
Fixpoint get_gddr_mrisc_endpoints (n : nat) (enabled : Z) (port : nat -> Z) : Z :=
  match n with
  | O => 0
  | S n =>
      let p := if Z.testbit enabled (Z.of_nat n) then port n else 0xF in
      u32 (Z.lor (get_gddr_mrisc_endpoints n enabled port) (Z.shiftl p (Z.of_nat n * 4)))
  end.

(** * Filling the table *)
Fixpoint set_all (l : list (Z * Z)) t : telemetry :=
  match l with [] => t | (tag, v) :: l => set_all l (telemetry_set tag v t) end.

(** What [telemetry_platform_write_static] reads from tables, fuses and other
    firmware. *)
Record static_inputs := {
  asic_fmax : Z; vdd_max : Z; vdd_min : Z; thm_limit : Z; tdc_limit : Z; tdp_limit : Z;
  legacy_board_id : Z; ext_board_id : Z; board_id_high : option Z;
  asic_id_high : Z; asic_id_low : Z;
  eth_fw_version : Z;
  (** major and minor version, if a DRAM instance is in use and can be read *)
  mrisc_fw_version : option (Z * Z);
  fw_bundle_version : Z; ccfgovr_state : Z; ccfgovr_seq : Z;
  tensix_col_enabled : Z; eth_enabled : Z; gddr_enabled : Z; l2cpu_enabled : Z;
  pcie_usage : Z * Z; asic_location : Z; mrisc_port : nat -> Z;
  kernel_throttler_at_floor_en : bool; gddr_therm_trip_en : bool;
}.
Definition T_J_SHUTDOWN : Z := 110.
Definition telemetry_platform_write_static (app_version : Z) (i : static_inputs) t : telemetry :=
  let has_high := match board_id_high i with Some _ => true | None => false end in
  let t := set_all [
    (TAG_TELEM_ENUM_COUNT, TAG_COUNT);
    (TAG_AICLK_LIMIT_MAX, asic_fmax i);
    (TAG_VDD_LIMITS, Z.lor (u32 (Z.shiftl (Z.land (vdd_max i) 0xFFFF) 16)) (vdd_min i));
    (TAG_THM_LIMIT_SHUTDOWN, T_J_SHUTDOWN);
    (TAG_THM_LIMIT_THROTTLE, thm_limit i);
    (TAG_TDC_LIMIT_MAX, tdc_limit i);
    (TAG_TDP_LIMIT_MAX, tdp_limit i);
    (TAG_BOARD_ID_HIGH, u32 (Z.shiftr (legacy_board_id i) 32));
    (TAG_BOARD_ID_LOW, Z.land (legacy_board_id i) 0xFFFFFFFF);
    (TAG_BOARD_ID_EXT_HIGH, match board_id_high i with Some h => Z.land h 0xFFFF | None => 0 end);
    (TAG_BOARD_ID_EXT_MIDDLE, u32 (Z.shiftr (ext_board_id i) 32));
    (TAG_BOARD_ID_EXT_LOW, Z.land (ext_board_id i) 0xFFFFFFFF);
    (TAG_ASIC_ID_HIGH, asic_id_high i);
    (TAG_ASIC_ID_LOW, asic_id_low i);
    (TAG_HARVESTING_STATE, 0);
    (TAG_UPDATE_TELEM_SPEED, u32 (telem_update_interval t));
    (TAG_ETH_FW_VERSION, eth_fw_version i)] t in
  let t := match mrisc_fw_version i with
           | Some (major, minor) => telemetry_set TAG_GDDR_FW_VERSION (Z.lor (u32 (Z.shiftl major 16)) minor) t
           | None => t
           end in
  set_all [
    (TAG_FLASH_BUNDLE_VERSION, fw_bundle_version i);
    (TAG_CCFGOVR_STATE, ccfgovr_state i);
    (TAG_CCFGOVR_SEQ, ccfgovr_seq i);
    (TAG_CM_FW_VERSION, app_version);
    (TAG_L2CPU_FW_VERSION, 0);
    (TAG_ENABLED_TENSIX_COL, tensix_col_enabled i);
    (TAG_ENABLED_ETH, eth_enabled i);
    (TAG_ENABLED_GDDR, gddr_enabled i);
    (TAG_ENABLED_L2CPU, l2cpu_enabled i);
    (TAG_PCIE_USAGE, Z.lor (Z.shiftl (Z.land (snd (pcie_usage i)) 0x3) 2) (Z.land (fst (pcie_usage i)) 0x3));
    (TAG_ASIC_LOCATION, asic_location i);
    (TAG_GDDR_MRISC_NOC2AXI_PORT, get_gddr_mrisc_endpoints NUM_GDDR (gddr_enabled i) (mrisc_port i));
    (TAG_FW_CAPABILITIES_0, 3 + 4 * Z.b2z has_high);
    (TAG_FW_ACTIVE_CONFIG_0, Z.b2z (kernel_throttler_at_floor_en i) + 2 * Z.b2z (gddr_therm_trip_en i))] t.

(** What [telemetry_platform_update] collects. *)
Record dynamic_inputs := {
  vcore_voltage : Z; vcore_power : Z; vcore_current : Z;
  asic_temperature : option Q;
  aiclk : Z; axiclk : Z; arcclk : Z; l2cpuclk : Z * Z * Z * Z;
  arb_min : Z * Z; arb_max : Z * Z; enabled_arb_min : Z; enabled_arb_max : Z; targ_aiclk_info : Z;
  fan_ctrl_en : bool; fan_speed : Z; fan_rpm : Z;
  eth_heartbeat : Z; eth_link : Z;
  dram_mask : Z; read_gddr : nat -> option gddr_telemetry; bist_complete : Z; bist_failed : Z;
  die_temps : nat -> Z * Z; max_gddr_temp : Z;
  input_power : Z; smbus_errors : Z; gddr_io_power_west : Z; gddr_io_power_east : Z;
  nop_start_count : Z; nop_on_duration : Z;
}.
Definition telemetry_platform_update (i : dynamic_inputs) t : telemetry :=
  let '(l0, l1, l2, l3) := l2cpuclk i in
  let t := set_all [
    (TAG_VCORE, vcore_voltage i); (TAG_TDP, vcore_power i); (TAG_TDC, vcore_current i);
    (TAG_ASIC_TEMPERATURE, ConvertFloatToTelemetry (asic_temperature i));
    (TAG_VREG_TEMPERATURE, 0); (TAG_BOARD_TEMPERATURE, 0);
    (TAG_AICLK, aiclk i);
    (TAG_AICLK_ARB_MIN, Z.lor (fst (arb_min i)) (u32 (Z.shiftl (snd (arb_min i)) 16)));
    (TAG_AICLK_ARB_MAX, Z.lor (fst (arb_max i)) (u32 (Z.shiftl (snd (arb_max i)) 16)));
    (TAG_ENABLED_MIN_ARB, enabled_arb_min i); (TAG_ENABLED_MAX_ARB, enabled_arb_max i);
    (TAG_AICLK_PPM_INFO, targ_aiclk_info i);
    (TAG_AXICLK, axiclk i); (TAG_ARCCLK, arcclk i);
    (TAG_L2CPUCLK0, l0); (TAG_L2CPUCLK1, l1); (TAG_L2CPUCLK2, l2); (TAG_L2CPUCLK3, l3);
    (TAG_FAN_SPEED, if fan_ctrl_en i then fan_speed i else 0xFFFFFFFF);
    (TAG_FAN_RPM, if fan_ctrl_en i then fan_rpm i else 0xFFFFFFFF);
    (TAG_ETH_LIVE_STATUS, Z.lor (u32 (Z.shiftl (eth_link i) 16)) (Z.land (eth_heartbeat i) 0xFFFF))] t in
  let t := UpdateGddrTelemetry (dram_mask i) (read_gddr i) (bist_complete i) (bist_failed i) t in
  let t := set_range TAG_GDDR_0_1_TEMP (pack_gddr_temps NUM_GDDR (die_temps i)) t in
  let t := set_all [
    (TAG_MAX_GDDR_TEMP, max_gddr_temp i); (TAG_INPUT_POWER, input_power i);
    (TAG_SMBUS_ERRORS, smbus_errors i); (TAG_GDDR_WEST_IO_POWER, gddr_io_power_west i);
    (TAG_GDDR_EAST_IO_POWER, gddr_io_power_east i); (TAG_NOP_START_COUNT, nop_start_count i);
    (TAG_NOP_ON_DURATION, nop_on_duration i)] t in
  telemetry_set TAG_TIMER_HEARTBEAT (u32 (telemetry_get TAG_TIMER_HEARTBEAT t + 1)) t.

Definition init_telemetry (app_version : Z) (s : static_inputs) (d : dynamic_inputs) t : telemetry :=
  telemetry_platform_update d (telemetry_platform_write_static app_version s t).

(** * Reading and writing values *)
Definition wf t : Prop := length (values t) = Z.to_nat TAG_COUNT.

Lemma get_set tag tag' v t :
  wf t -> 0 <= tag -> 0 <= tag' ->
  telemetry_get tag' (telemetry_set tag v t)
  = if (tag =? tag') && (tag <? TAG_COUNT) then v else telemetry_get tag' t.
Proof.
  intros Hwf Ht Ht'. unfold telemetry_get, telemetry_set, telemetry_platform_slot, TELEM_OFFSET, slot_value.
  unfold wf, TAG_COUNT in *.
  destruct (Z.ltb_spec tag 86), (Z.ltb_spec tag' 86); cbn [andb]; rewrite ?andb_false_r, ?andb_true_r;
    rewrite ?(proj2 (Z.leb_le 0 _)) by lia; try done.
  - cbn [values with_values]. unfold zget. rewrite (proj2 (Z.ltb_ge tag' 0)) by lia.
    destruct (Z.eqb_spec tag tag') as [->|].
    + by rewrite list_lookup_insert_eq by lia.
    + by rewrite list_lookup_insert_ne by lia.
  - destruct (Z.eqb_spec tag tag'); [lia | done].
Qed.
Lemma set_wf tag v t : wf t -> wf (telemetry_set tag v t).
Proof. intros Hw. unfold telemetry_set, wf in *. case_match; [|done]. cbn. by rewrite length_insert. Qed.
Lemma set_all_wf l t : wf t -> wf (set_all l t).
Proof. revert t. induction l as [|[tag v] l IH]; intros t Hw; [done|]. cbn. by apply IH, set_wf. Qed.
Lemma set_range_wf vs tag t : wf t -> wf (set_range tag vs t).
Proof. revert tag t. induction vs as [|v vs IH]; intros tag t Hw; [done|]. cbn. by apply IH, set_wf. Qed.
#[local] Hint Resolve set_wf set_all_wf set_range_wf : fw.

(** A list of updates leaves the tags it does not name. *)
Lemma set_all_get l tag t :
  wf t -> 0 <= tag -> forallb (λ x, (0 <=? x.1) && negb (x.1 =? tag)) l = true ->
  telemetry_get tag (set_all l t) = telemetry_get tag t.
Proof.
  revert t. induction l as [|[tag' v] l IH]; intros t Hw Ht Hl; [done|].
  cbn in Hl. apply andb_true_iff in Hl as [[H1%Z.leb_le H2%negb_true_iff]%andb_true_iff H3].
  cbn [set_all]. rewrite IH by auto with fw. rewrite get_set by done. by rewrite H2.
Qed.
Lemma set_range_get vs tag0 tag t :
  wf t -> 0 <= tag0 -> 0 <= tag -> tag < tag0 \/ tag0 + Z.of_nat (length vs) <= tag ->
  telemetry_get tag (set_range tag0 vs t) = telemetry_get tag t.
Proof.
  revert tag0 t. induction vs as [|v vs IH]; intros tag0 t Hw H0 Ht Hr; [done|]. cbn [set_range length] in *.
  rewrite IH by (auto with fw || lia). rewrite get_set by done.
  destruct (Z.eqb_spec tag0 tag); [lia | done].
Qed.

(** ** Who writes what *)
Definition dynamic_tags : list Z :=
  [TAG_VCORE; TAG_TDP; TAG_TDC; TAG_ASIC_TEMPERATURE; TAG_VREG_TEMPERATURE; TAG_BOARD_TEMPERATURE; TAG_AICLK;
   TAG_AICLK_ARB_MIN; TAG_AICLK_ARB_MAX; TAG_ENABLED_MIN_ARB; TAG_ENABLED_MAX_ARB; TAG_AICLK_PPM_INFO;
   TAG_AXICLK; TAG_ARCCLK; TAG_L2CPUCLK0; TAG_L2CPUCLK1; TAG_L2CPUCLK2; TAG_L2CPUCLK3; TAG_FAN_SPEED;
   TAG_FAN_RPM; TAG_ETH_LIVE_STATUS; TAG_GDDR_0_1_CORR_ERRS; TAG_GDDR_2_3_CORR_ERRS;
   TAG_GDDR_4_5_CORR_ERRS; TAG_GDDR_6_7_CORR_ERRS; TAG_GDDR_UNCORR_ERRS; TAG_GDDR_STATUS; TAG_GDDR_SPEED;
   TAG_GDDR_0_1_TEMP; TAG_GDDR_2_3_TEMP; TAG_GDDR_4_5_TEMP; TAG_GDDR_6_7_TEMP; TAG_MAX_GDDR_TEMP;
   TAG_INPUT_POWER; TAG_SMBUS_ERRORS; TAG_GDDR_WEST_IO_POWER; TAG_GDDR_EAST_IO_POWER;
   TAG_NOP_START_COUNT; TAG_NOP_ON_DURATION; TAG_TIMER_HEARTBEAT].

Lemma corr_length n mask read w : length (g_corr (gather_gddr n mask read w)) = length (g_corr w).
Proof.
  induction n as [|n IH]; cbn [gather_gddr]; [done|]. cbv zeta.
  destruct (Z.testbit _ _); [|done]. destruct (read n); [|done]. cbn [g_corr add_gddr]. by rewrite length_alter.
Qed.
Lemma temps_length n temps : length (pack_gddr_temps n temps) = 4%nat.
Proof. induction n as [|n IH]; [done|]. cbn [pack_gddr_temps]. cbv zeta. by rewrite length_alter. Qed.

Definition in_tags (tags l : list Z) : bool := forallb (λ x, existsb (Z.eqb x) tags) l.
Lemma in_tags_elem tags l x : in_tags tags l = true -> x ∈ l -> x ∈ tags.
Proof.
  unfold in_tags. rewrite forallb_forall. intros Hl Hx%list_elem_of_In.
  apply Hl, existsb_exists in Hx as (y & Hy & <-%Z.eqb_eq). by apply list_elem_of_In.
Qed.
(** Four tags in a row that are all dynamic. *)
Lemma dynamic_range lo tag :
  in_tags dynamic_tags [lo; lo + 1; lo + 2; lo + 3] = true -> tag ∉ dynamic_tags ->
  tag < lo \/ lo + Z.of_nat 4 <= tag.
Proof.
  intros Hl Hn. destruct (decide (lo <= tag < lo + 4)) as [Hr|]; [exfalso | lia].
  apply Hn, (in_tags_elem _ _ _ Hl). rewrite !elem_of_cons. lia.
Qed.
Lemma not_dynamic_ne x tag : in_tags dynamic_tags [x] = true -> tag ∉ dynamic_tags -> (x =? tag) = false.
Proof.
  intros Hl Hn. apply Z.eqb_neq. intros <-. apply Hn, (in_tags_elem _ _ _ Hl). by left.
Qed.
Lemma gddr_wf m r c f t : wf t -> wf (UpdateGddrTelemetry m r c f t).
Proof. intros Hw. unfold UpdateGddrTelemetry. cbv zeta. auto 6 with fw. Qed.
#[local] Hint Resolve gddr_wf : fw.
Lemma gddr_get m r c f t tag :
  wf t -> 0 <= tag -> tag ∉ dynamic_tags -> telemetry_get tag (UpdateGddrTelemetry m r c f t) = telemetry_get tag t.
Proof.
  intros Hw Ht Hn. unfold UpdateGddrTelemetry. cbv zeta. set (w := update_gddr_words _ _ _ _ _).
  assert (length (g_corr w) = 4%nat) as Hl by (unfold w, update_gddr_words; cbn [g_corr]; apply corr_length).
  rewrite !get_set by (auto with fw || (unfold TAG_GDDR_SPEED, TAG_GDDR_STATUS, TAG_GDDR_UNCORR_ERRS; lia)).
  rewrite !not_dynamic_ne by (exact Hn || reflexivity). cbn [andb].
  apply set_range_get; [done | unfold TAG_GDDR_0_1_CORR_ERRS; lia | done |]. rewrite Hl.
  by apply dynamic_range.
Qed.

(** The tags named in a list of updates are dynamic. *)
Lemma names_ok (l : list (Z * Z)) tag :
  tag ∉ dynamic_tags -> in_tags dynamic_tags (map fst l) = true ->
  forallb (λ x, (0 <=? x.1) && negb (x.1 =? tag)) l = true.
Proof.
  intros Hn Hl. apply forallb_forall. intros [tag' v] Hin. cbn [fst].
  assert (tag' ∈ dynamic_tags) as Hx
    by (apply (in_tags_elem _ _ _ Hl), list_elem_of_In; exact (in_map fst _ _ Hin)).
  assert (0 <= tag') as Hp.
  { revert Hx. apply (list.Forall_forall (λ x, 0 <= x)). apply (bool_decide_unpack _). by vm_compute. }
  rewrite (proj2 (Z.leb_le _ _)) by done. cbn [andb]. apply negb_true_iff, Z.eqb_neq. congruence.
Qed.
Lemma update_get i t tag :
  wf t -> 0 <= tag -> tag ∉ dynamic_tags -> telemetry_get tag (telemetry_platform_update i t) = telemetry_get tag t.
Proof.
  intros Hw Ht Hn. unfold telemetry_platform_update. destruct (l2cpuclk i) as [[[l0 l1] l2] l3]. cbv zeta.
  rewrite get_set by (auto 8 with fw || (unfold TAG_TIMER_HEARTBEAT; lia)).
  rewrite not_dynamic_ne by (exact Hn || reflexivity). cbn [andb].
  rewrite set_all_get by (auto 8 with fw || (apply names_ok; [exact Hn | reflexivity])).
  rewrite set_range_get; [| auto 8 with fw | unfold TAG_GDDR_0_1_TEMP; lia | exact Ht |]; cycle 1.
  { rewrite temps_length. by apply dynamic_range. }
  rewrite gddr_get by auto with fw.
  rewrite set_all_get by (auto 8 with fw || (apply names_ok; [exact Hn | reflexivity])). done.
Qed.

(** Values that other firmware reports before the table is filled, which filling it
    and every later update must keep. *)
Definition early_tags : list Z :=
  [TAG_DM_APP_FW_VERSION; TAG_DM_BL_FW_VERSION; TAG_NOC_TRANSLATION; TAG_FLASH_JEDEC_ID;
   TAG_BOARD_POWER_LIMIT; TAG_THERM_TRIP_COUNT; TAG_HOST_AICLK_LIMIT; TAG_KERNEL_THROTTLER].

Lemma static_wf v i t : wf t -> wf (telemetry_platform_write_static v i t).
Proof.
  intros Hw. unfold telemetry_platform_write_static. cbv zeta. apply set_all_wf.
  destruct (mrisc_fw_version i) as [[? ?]|]; auto with fw.
Qed.
Lemma static_get v i t tag :
  wf t -> tag ∈ early_tags -> telemetry_get tag (telemetry_platform_write_static v i t) = telemetry_get tag t.
Proof.
  intros Hw Ht. unfold telemetry_platform_write_static. cbv zeta.
  assert (0 <= tag) as Hp.
  { revert Ht. apply (list.Forall_forall (λ x, 0 <= x)). apply (bool_decide_unpack _). by vm_compute. }
  assert (forall l : list (Z * Z), Forall (λ x, (0 <=? x) && negb (existsb (Z.eqb x) early_tags) = true) (map fst l) ->
    forallb (λ x, (0 <=? x.1) && negb (x.1 =? tag)) l = true) as Hnames.
  { intros l Hl. apply forallb_forall. intros [x y] Hin. cbn [fst].
    rewrite list.Forall_forall in Hl. specialize (Hl x). rewrite list_elem_of_In in Hl.
    specialize (Hl (in_map fst _ _ Hin)). apply andb_true_iff in Hl as [-> Hl]. cbn [andb].
    apply negb_true_iff in Hl. apply negb_true_iff. destruct (Z.eqb_spec x tag) as [->|]; [|done].
    assert (existsb (Z.eqb tag) early_tags = true); [|congruence].
    apply existsb_exists. exists tag. split; [by apply list_elem_of_In | apply Z.eqb_refl]. }
  rewrite set_all_get; [| |done|]; cycle 1.
  { destruct (mrisc_fw_version i) as [[? ?]|]; auto with fw. }
  { apply Hnames. repeat (apply Forall_cons_2; [reflexivity|]). constructor. }
  assert (telemetry_get tag (set_all [(TAG_GDDR_FW_VERSION, 0)] t) = telemetry_get tag t) as Hg.
  { apply set_all_get; [done | done|]. apply Hnames. repeat (apply Forall_cons_2; [reflexivity|]). constructor. }
  destruct (mrisc_fw_version i) as [[? ?]|].
  - rewrite get_set by (auto with fw || (unfold TAG_GDDR_FW_VERSION; lia)).
    destruct (Z.eqb_spec TAG_GDDR_FW_VERSION tag) as [<-|]; cbn [andb].
    + exfalso. revert Ht. apply (bool_decide_unpack _). by vm_compute.
    + rewrite set_all_get; [done | done | done|].
      apply Hnames. repeat (apply Forall_cons_2; [reflexivity|]). constructor.
  - rewrite set_all_get; [done | done | done|].
    apply Hnames. repeat (apply Forall_cons_2; [reflexivity|]). constructor.
Qed.

(** Filling the table keeps what was reported before, as the comments ask; an
    update changes nothing but the dynamic values, and counts. *)
Theorem telemetry_frame v s i t tag
    (Hwf : wf t) (Hearly : tag ∈ early_tags) :
  telemetry_get tag (init_telemetry v s i t) = telemetry_get tag t.
Proof.
  unfold init_telemetry. rewrite update_get; [by apply static_get | by apply static_wf | |].
  - revert Hearly. apply (list.Forall_forall (λ x, 0 <= x)). apply (bool_decide_unpack _). by vm_compute.
  - revert Hearly. apply (list.Forall_forall (λ x, x ∉ dynamic_tags)). apply (bool_decide_unpack _). by vm_compute.
Qed.

(** ** The host's look-up *)
Definition host_lookup (tag : Z) t : option Z :=
  match find (λ e, fst e =? tag) tag_table with
  | Some (_, offset) => Some (slot_value t offset)
  | None => None
  end.
Definition unlisted : list Z :=
  [TAG_ASIC_ID; TAG_INPUT_CURRENT; TAG_FW_BUILD_DATE; TAG_TT_FLASH_VERSION; TAG_ENABLED_TENSIX_ROW].

(** The host finds every value under its tag, except for five tags that have no
    entry. *)
Theorem host_finds_tag tag t (Htag : 1 <= tag < TAG_COUNT) :
  host_lookup tag t = if existsb (Z.eqb tag) unlisted then None else Some (telemetry_get tag t).
Proof.
  assert (forallb (λ k, match find (λ e, fst e =? Z.of_nat k) tag_table with
      | Some (_, o) => negb (existsb (Z.eqb (Z.of_nat k)) unlisted) && (o =? Z.of_nat k)
      | None => existsb (Z.eqb (Z.of_nat k)) unlisted end) (seq 1 85) = true) as Hall by (by vm_compute).
  rewrite forallb_forall in Hall. specialize (Hall (Z.to_nat tag)). unfold TAG_COUNT in *.
  rewrite Z2Nat.id in Hall by lia. specialize (Hall ltac:(apply in_seq; lia)). unfold host_lookup.
  destruct (find _ _) as [[x o]|]; [|by rewrite Hall].
  apply andb_true_iff in Hall as [->%negb_true_iff ->%Z.eqb_eq].
  unfold telemetry_get, telemetry_platform_slot, TELEM_OFFSET, TAG_COUNT.
  rewrite (proj2 (Z.ltb_lt _ _)) by lia. by rewrite (proj2 (Z.leb_le _ _)) by lia.
Qed.

(** The table counts more entries than it has: six of them are blank. *)
Theorem blank_entries :
  Z.of_nat (length tag_table) = TAG_COUNT /\
  length (filter (λ e, e = (0, 0)) tag_table) = 6%nat /\ tag_table !! 2%nat = Some (0, 0).
Proof. by vm_compute. Qed.

(** * 16.16 format *)
Lemma Qfloor_unique x z : (inject_Z z <= x)%Q -> (x < inject_Z (z + 1))%Q -> Qfloor x = z.
Proof.
  intros H1 H2. pose proof (Qfloor_le x) as H3. pose proof (Qlt_floor x) as H4.
  assert (Qfloor x < z + 1) by (rewrite Zlt_Qlt; eapply Qle_lt_trans; [exact H3 | exact H2]).
  assert (z < Qfloor x + 1) by (rewrite Zlt_Qlt; eapply Qle_lt_trans; [exact H1 | exact H4]). lia.
Qed.

Lemma fixed_point_value (q : Q) :
  (0 <= q)%Q -> (q < 32768)%Q ->
  let i := u16 (Qfloor q) in
  Z.lor (Z.shiftl i 16) (u16 (Qfloor ((q - inject_Z i) * 65536))) = Qfloor (q * 65536) /\
  0 <= Qfloor (q * 65536) < 2 ^ 31.
Proof.
  intros H0 H1 i. pose proof (Qfloor_le q) as Hf1. pose proof (Qlt_floor q) as Hf2.
  assert (0 <= Qfloor q) as Hp by (apply (Qfloor_resp_le 0 q) in H0; exact H0).
  assert (Qfloor q < 32768) as Hlt.
  { rewrite Zlt_Qlt. eapply Qle_lt_trans; [exact Hf1 | exact H1]. }
  assert (i = Qfloor q) as Hi by (apply wrap_id; unfold in_width; lia).
  rewrite Hi. clear i Hi. set (n := Qfloor q) in *. rewrite inject_Z_plus in Hf2.
  set (r := Qfloor ((q - inject_Z n) * 65536)).
  pose proof (Qfloor_le ((q - inject_Z n) * 65536)) as Hr1. pose proof (Qlt_floor ((q - inject_Z n) * 65536)) as Hr2.
  fold r in Hr1, Hr2. rewrite inject_Z_plus in Hr2. change (inject_Z 1) with 1%Q in *.
  assert (0 <= r) as Hr0.
  { assert (-1 < r); [|lia]. rewrite Zlt_Qlt. change (inject_Z (-1)) with (-1)%Q. lra. }
  assert (r < 65536) as Hr3.
  { rewrite Zlt_Qlt. change (inject_Z 65536) with 65536%Q. lra. }
  assert (Qfloor (q * 65536) = 65536 * n + r) as Hs.
  { apply Qfloor_unique; rewrite ?inject_Z_plus, ?inject_Z_mult; change (inject_Z 65536) with 65536%Q;
      change (inject_Z 1) with 1%Q; lra. }
  rewrite Hs, (wrap_id 16 r) by (unfold in_width; lia). split; [|lia].
  rewrite <- Z.lxor_lor, <- Z.add_nocarry_lxor, Z.shiftl_mul_pow2 by
    (lia || (apply Z.bits_inj'; intros k Hk; rewrite Z.land_spec, Z.bits_0;
     destruct (Z.lt_ge_cases k 16);
     [by rewrite Z.shiftl_spec_low by lia
     | rewrite <- (Z.mod_small r (2 ^ 16)) by lia; rewrite Z.mod_pow2_bits_high by lia; by rewrite andb_false_r])).
  lia.
Qed.

(** The value a reader computes from a telemetry word differs from the temperature by
    less than one unit of the format, and not away from zero. *)
Theorem fixed_point_roundtrip (v : Q) (Hv : (Qabs v < 32768)%Q) :
  exists q, ConvertTelemetryToFloat (s32 (ConvertFloatToTelemetry (Some v))) = Some q /\
    (Qabs q <= Qabs v)%Q /\ (Qabs (v - q) < 1 # 65536)%Q.
Proof.
  destruct (fixed_point_value (Qabs v) (Qabs_nonneg v) Hv) as [Hval Hrange].
  unfold ConvertFloatToTelemetry. cbv zeta in *. change (qfloor_abs v) with (Qfloor (Qabs v)). rewrite Hval. clear Hval.
  pose proof (Qfloor_le (Qabs v * 65536)) as Hle. pose proof (Qlt_floor (Qabs v * 65536)) as Hlt.
  rewrite inject_Z_plus in Hlt. change (inject_Z 1) with 1%Q in Hlt.
  set (n := Qfloor (Qabs v * 65536)) in *.
  assert (0 <= inject_Z n)%Q as Hn0 by (change 0%Q with (inject_Z 0); rewrite <- Zle_Qle; lia).
  assert (forall m, - 2 ^ 31 < m < 2 ^ 31 -> s32 (u32 m) = m) as Hs32.
  { intros m Hm. unfold s32. rewrite wrap_wrap by lia. unfold wrap.
    destruct (Z.le_gt_cases 0 m).
    - rewrite Z.mod_small by lia. by rewrite (proj2 (Z.ltb_lt _ _)) by lia.
    - rewrite <- (Z.mod_add m 1) by lia. rewrite Z.mod_small by lia. rewrite (proj2 (Z.ltb_ge _ _)) by lia. lia. }
  destruct (Qle_bool 0 v) eqn:Hsign.
  - apply Qle_bool_iff in Hsign. rewrite (Qabs_pos v) in * by done.
    replace (s32 n) with n by (rewrite <- (wrap_id 32 n) at 2 by (unfold in_width; lia); by rewrite Hs32 by lia).
    unfold ConvertTelemetryToFloat. rewrite (proj2 (Z.eqb_neq _ _)) by lia. eexists. split; [done|].
    assert (inject_Z n / 65536 == inject_Z n * (1 # 65536))%Q as Hd by (unfold Qdiv; reflexivity).
    rewrite Hd. split.
    + rewrite !Qabs_pos by lra. lra.
    + rewrite !Qabs_pos by lra. lra.
  - assert (v < 0)%Q as Hneg.
    { apply Qnot_le_lt. intros Hc%Qle_bool_iff. congruence. }
    rewrite (Qabs_neg v) in * by (apply Qlt_le_weak; done). rewrite Hs32 by lia.
    unfold ConvertTelemetryToFloat. rewrite (proj2 (Z.eqb_neq _ _)) by lia. eexists. split; [done|].
    assert (inject_Z (- n) / 65536 == - (inject_Z n * (1 # 65536)))%Q as Hd
      by (rewrite inject_Z_opp; unfold Qdiv; change (/ 65536)%Q with (1 # 65536)%Q; ring).
    rewrite Hd. split.
    + rewrite !Qabs_neg by lra. lra.
    + rewrite !Qabs_neg by lra. lra.
Qed.
Lemma fixed_point_roundtrip_witness :
  exists q, ConvertTelemetryToFloat (s32 (ConvertFloatToTelemetry (Some (-(45 # 2))%Q))) = Some q /\
    (Qabs q <= Qabs (-(45 # 2)))%Q /\ (Qabs (-(45 # 2) - q) < 1 # 65536)%Q.
Proof. apply (fixed_point_roundtrip (-(45 # 2))). reflexivity. Defined.

(** * The cache *)

(** The data a read returns were sampled at a read in the given history no longer
    ago than asked for. *)
Definition fresh_enough {D} (history : list (Z * D)) (m now : Z) (d : D) : Prop :=
  exists at_, (at_, d) ∈ history /\ (at_ = now \/ now - at_ < m).

(** No reader gets data older than it asked for, whatever others asked for; before
    the first sample that is only so if the first reader calls late enough. *)
Theorem cache_fresh D (c : cache D) history m now (fresh : D)
    (Hc : (last_update_time c, internal_data c) ∈ history) :
  let '(c', d) := ReadTelemetryInternal m now fresh c in
  fresh_enough ((now, fresh) :: history) m now d /\
  (last_update_time c', internal_data c') ∈ (now, fresh) :: history.
Proof.
  unfold ReadTelemetryInternal. destruct (Z.leb_spec m (now - last_update_time c)); cbn.
  - split; [|by left]. exists now. split; [by left | by left].
  - split; [|by right]. exists (last_update_time c). split; [by right | by right].
Qed.
Lemma cache_fresh_witness :
  let c := {| last_update_time := 10; internal_data := 7 |} in
  let '(c', d) := ReadTelemetryInternal 5 12 9 c in
  fresh_enough ((12, 9) :: [(10, 7)]) 5 12 d /\ (last_update_time c', internal_data c') ∈ (12, 9) :: [(10, 7)].
Proof. apply (cache_fresh Z {| last_update_time := 10; internal_data := 7 |} [(10, 7)] 5 12 9). by left. Defined.

(** * The DRAM status word *)
Definition bit01 (z : Z) : bool := (z =? 0) || (z =? 1).
Definition gddr_bits_ok (g : gddr_telemetry) : Prop :=
  bit01 (training_complete g) = true /\ bit01 (gddr_error g) = true.
Lemma bit01_b2z b : bit01 (Z.b2z b) = true.
Proof. by destruct b. Qed.
Lemma shifted_bit v s k : bit01 v = true -> 0 <= s -> 0 <= k ->
  Z.testbit (Z.shiftl v s) k = (k =? s) && (v =? 1).
Proof.
  intros Hv Hs Hk. rewrite Z.shiftl_spec by lia.
  unfold bit01 in Hv. apply orb_true_iff in Hv as [->%Z.eqb_eq| ->%Z.eqb_eq].
  - by rewrite Z.bits_0, andb_false_r.
  - cbn [Z.eqb Pos.eqb]. rewrite andb_true_r. destruct (Z.eqb_spec k s) as [->|].
    + by rewrite Z.sub_diag.
    + destruct (Z.lt_ge_cases k s); [by rewrite Z.testbit_neg_r by lia|].
      rewrite Z.bits_above_log2; [done | lia | cbn; lia].
Qed.
Lemma u32_bit z k : 0 <= k < 32 -> Z.testbit (u32 z) k = Z.testbit z k.
Proof. intros Hk. unfold wrap. by rewrite Z.mod_pow2_bits_low by lia. Qed.

(** What instance [i] contributes: its bit [j] of the pair. *)
Definition gddr_flag (dram_mask : Z) (read : nat -> option gddr_telemetry) (k : Z) : bool :=
  let i := k / 2 in
  Z.testbit dram_mask i &&
  match read (Z.to_nat i) with
  | Some g => (if Z.even k then training_complete g else gddr_error g) =? 1
  | None => false
  end.
Lemma gather_status n mask read w k :
  (n <= 8)%nat -> 0 <= k < 32 -> (forall i g, read i = Some g -> gddr_bits_ok g) ->
  Z.testbit (g_status (gather_gddr n mask read w)) k
  = Z.testbit (g_status w) k || ((k <? 2 * Z.of_nat n) && gddr_flag mask read k).
Proof.
  intros Hn Hk Hok. induction n as [|n IH].
  { cbn [gather_gddr]. rewrite (proj2 (Z.ltb_ge _ _)) by lia. by rewrite orb_false_r. }
  specialize (IH ltac:(lia)). cbn [gather_gddr]. cbv zeta.
  assert (k / 2 = Z.of_nat n <-> 2 * Z.of_nat n <= k < 2 * Z.of_nat (S n)) as Hdiv.
  { pose proof (Z.div_mod k 2 ltac:(lia)). pose proof (Z.mod_pos_bound k 2 ltac:(lia)). lia. }
  assert ((k <? 2 * Z.of_nat (S n)) = (k <? 2 * Z.of_nat n) || (k / 2 =? Z.of_nat n)) as Hsplit.
  { apply eq_true_iff_eq. rewrite orb_true_iff, !Z.ltb_lt, Z.eqb_eq, Hdiv. lia. }
  rewrite Hsplit, andb_orb_distrib_l, orb_assoc, <- IH. clear IH Hsplit.
  set (w' := gather_gddr n mask read w).
  assert ((k / 2 =? Z.of_nat n) && gddr_flag mask read k =
          (k / 2 =? Z.of_nat n) && (Z.testbit mask (Z.of_nat n) &&
            match read n with Some g => (if Z.even k then training_complete g else gddr_error g) =? 1
                            | None => false end)) as ->.
  { unfold gddr_flag. cbv zeta. destruct (Z.eqb_spec (k / 2) (Z.of_nat n)) as [->|]; [|done]. by rewrite Nat2Z.id. }
  destruct (Z.testbit mask (Z.of_nat n)); cbn [andb]; [|by rewrite andb_false_r, orb_false_r].
  destruct (read n) as [g|] eqn:Hg; [|by rewrite andb_false_r, orb_false_r].
  destruct (Hok _ _ Hg) as [Ht He]. cbn [add_gddr g_status]. cbv zeta.
  rewrite u32_bit, !Z.lor_spec, !shifted_bit by (done || lia). f_equal.
  pose proof (Zeven_div2 k) as Hev. pose proof (Zodd_div2 k) as Hod. rewrite Z.div2_div in *.
  destruct (Z.even k) eqn:Hpar.
  - apply Z.even_spec, Zeven_equiv in Hpar. specialize (Hev Hpar). clear Hod.
    destruct (Z.eqb_spec k (Z.of_nat n * 2)), (Z.eqb_spec k (Z.of_nat n * 2 + 1)),
      (Z.eqb_spec (k / 2) (Z.of_nat n)); try lia; cbn [andb orb]; by rewrite ?orb_false_r.
  - assert (Z.Odd k) as Hpar'%Zodd_equiv by (apply Z.odd_spec; rewrite <- Z.negb_even; by rewrite Hpar).
    specialize (Hod Hpar'). clear Hev.
    destruct (Z.eqb_spec k (Z.of_nat n * 2)), (Z.eqb_spec k (Z.of_nat n * 2 + 1)),
      (Z.eqb_spec (k / 2) (Z.of_nat n)); try lia; cbn [andb orb]; by rewrite ?orb_false_r.
Qed.
Lemma bist_status n complete failed status k :
  (n <= 8)%nat -> 0 <= k < 32 ->
  Z.testbit (add_bist n complete failed status) k
  = Z.testbit status k ||
    ((16 <=? k) && (k <? 16 + 2 * Z.of_nat n) &&
     Z.testbit (if Z.even k then complete else failed) ((k - 16) / 2)).
Proof.
  intros Hn Hk. induction n as [|n IH].
  { cbn [add_bist]. destruct (Z.leb_spec 16 k), (Z.ltb_spec k (16 + 2 * Z.of_nat 0)); try lia;
      cbn [andb]; by rewrite orb_false_r. }
  specialize (IH ltac:(lia)). cbn [add_bist]. cbv zeta.
  rewrite u32_bit, Z.lor_spec, u32_bit, Z.lor_spec, IH by lia.
  rewrite !shifted_bit by (apply bit01_b2z || lia). rewrite <- !orb_assoc. f_equal. clear IH.
  assert (forall b, (Z.b2z b =? 1) = b) as Hb by (by intros []). rewrite !Hb. clear Hb.
  assert (Z.even k = Z.even (k - 16)) as He by (rewrite Z.even_sub; by destruct (Z.even k)).
  rewrite He. remember (k - 16) as j eqn:Hj. assert (k = j + 16) as -> by lia. clear He Hj.
  pose proof (Zeven_div2 j) as Hev. pose proof (Zodd_div2 j) as Hod. rewrite Z.div2_div in *.
  destruct (Z.even j) eqn:Hpar.
  - apply Z.even_spec, Zeven_equiv in Hpar. specialize (Hev Hpar). clear Hod.
    destruct (Z.leb_spec 16 (j + 16)), (Z.ltb_spec (j + 16) (16 + 2 * Z.of_nat n)),
      (Z.ltb_spec (j + 16) (16 + 2 * Z.of_nat (S n))),
      (Z.eqb_spec (j + 16) (16 + Z.of_nat n * 2)), (Z.eqb_spec (j + 16) (17 + Z.of_nat n * 2));
      try lia; cbn [andb orb]; rewrite ?orb_false_r; try done.
    by replace (j / 2) with (Z.of_nat n) by lia.
  - assert (Z.Odd j) as Hpar'%Zodd_equiv by (apply Z.odd_spec; rewrite <- Z.negb_even; by rewrite Hpar).
    specialize (Hod Hpar'). clear Hev.
    destruct (Z.leb_spec 16 (j + 16)), (Z.ltb_spec (j + 16) (16 + 2 * Z.of_nat n)),
      (Z.ltb_spec (j + 16) (16 + 2 * Z.of_nat (S n))),
      (Z.eqb_spec (j + 16) (16 + Z.of_nat n * 2)), (Z.eqb_spec (j + 16) (17 + Z.of_nat n * 2));
      try lia; cbn [andb orb]; rewrite ?orb_false_r; try done.
    by replace (j / 2) with (Z.of_nat n) by lia.
Qed.

(** After an update the DRAM status word says of every instance whether it is trained,
    in error, tested and failed, and nothing of another instance. *)
Theorem gddr_status_decode mask read complete failed t k
    (Hwf : wf t) (Hok : forall i g, read i = Some g -> gddr_bits_ok g) (Hk : 0 <= k < 32) :
  Z.testbit (telemetry_get TAG_GDDR_STATUS (UpdateGddrTelemetry mask read complete failed t)) k
  = if k <? 16 then gddr_flag mask read k
    else Z.testbit (if Z.even k then complete else failed) ((k - 16) / 2).
Proof.
  unfold UpdateGddrTelemetry. cbv zeta.
  rewrite !get_set by (auto with fw || by vm_compute). unfold TAG_GDDR_SPEED, TAG_GDDR_STATUS, TAG_COUNT.
  change ((23 =? 22) && (23 <? 86)) with false. change ((22 =? 22) && (22 <? 86)) with true. cbv iota.
  unfold update_gddr_words. cbn [g_status].
  rewrite bist_status, gather_status by (unfold NUM_GDDR; lia || done). cbn [g_status].
  rewrite Z.bits_0. cbn [orb]. unfold NUM_GDDR.
  destruct (Z.ltb_spec k 16), (Z.ltb_spec k (2 * Z.of_nat 8)), (Z.leb_spec 16 k),
    (Z.ltb_spec k (16 + 2 * Z.of_nat 8)); try lia; cbn [andb orb]; by rewrite ?orb_false_r.
Qed.

(** * The update interval *)

(** An interval with the top bit set, which the function accepts, is negative for the timer. *)
Theorem interval_sign (ms : Z) t (Hms : 2 ^ 31 <= ms < 2 ^ 32) :
  snd (TelemetrySetUpdateInterval ms t) = 0 /\
  telem_update_interval (fst (TelemetrySetUpdateInterval ms t)) = ms - 2 ^ 32.
Proof.
  unfold TelemetrySetUpdateInterval. rewrite (proj2 (Z.eqb_neq _ _)) by lia.
  rewrite (proj2 (Z.ltb_ge _ _)) by (unfold TELEM_UPDATE_INTERVAL_MIN_MS; lia). cbn [snd fst]. split; [done|].
  assert (forall tag v t', telem_update_interval (telemetry_set tag v t') = telem_update_interval t') as Hset.
  { intros. unfold telemetry_set. by case_match. }
  assert (s32 ms = ms - 2 ^ 32) as Hs.
  { unfold s32. rewrite (wrap_id 32 ms) by (unfold in_width; lia). by rewrite (proj2 (Z.ltb_ge _ _)) by lia. }
  case_match; cbn [telem_update_interval]; rewrite Hset; exact Hs.
Qed.

(** * Witnesses *)
Definition table0 : telemetry :=
  {| values := replicate 86 0; telem_update_interval := 100; telem_timer_started := false; timer := None |}.
Definition gddr0 : gddr_telemetry :=
  {| training_complete := 1; gddr_error := 0; corr_edc_rd_errors := 3; corr_edc_wr_errors := 4;
     uncorr_edc_rd_error := 0; uncorr_edc_wr_error := 1; dram_speed := 16000 |}.
Definition static0 : static_inputs :=
  {| asic_fmax := 1350; vdd_max := 900; vdd_min := 700; thm_limit := 75; tdc_limit := 300; tdp_limit := 250;
     legacy_board_id := 0x36; ext_board_id := 0; board_id_high := None; asic_id_high := 1; asic_id_low := 2;
     eth_fw_version := 0x10200; mrisc_fw_version := Some (2, 7); fw_bundle_version := 0x12000000;
     ccfgovr_state := 0; ccfgovr_seq := 0; tensix_col_enabled := 0x3FFF; eth_enabled := 0x3FFF;
     gddr_enabled := 0xFF; l2cpu_enabled := 0xF; pcie_usage := (1, 1); asic_location := 0; mrisc_port := λ _, 1;
     kernel_throttler_at_floor_en := true; gddr_therm_trip_en := false |}.
Definition dynamic0 : dynamic_inputs :=
  {| vcore_voltage := 800; vcore_power := 100; vcore_current := 120; asic_temperature := Some (45 # 2)%Q;
     aiclk := 800; axiclk := 960; arcclk := 800; l2cpuclk := (1, 2, 3, 4); arb_min := (200, 0);
     arb_max := (1350, 1); enabled_arb_min := 1; enabled_arb_max := 3; targ_aiclk_info := 800; fan_ctrl_en := false;
     fan_speed := 0; fan_rpm := 0; eth_heartbeat := 5; eth_link := 6; dram_mask := 0xFF; read_gddr := λ _, Some gddr0;
     bist_complete := 0xFF; bist_failed := 0; die_temps := λ _, (40, 41); max_gddr_temp := 41; input_power := 150;
     smbus_errors := 0; gddr_io_power_west := 1; gddr_io_power_east := 1; nop_start_count := 0; nop_on_duration := 0 |}.
Lemma telemetry_frame_witness :
  telemetry_get TAG_DM_APP_FW_VERSION
    (init_telemetry 9 static0 dynamic0 (telemetry_set TAG_DM_APP_FW_VERSION 77 table0)) = 77.
Proof.
  exact (telemetry_frame 9 static0 dynamic0 (telemetry_set TAG_DM_APP_FW_VERSION 77 table0)
           TAG_DM_APP_FW_VERSION eq_refl ltac:(by left)).
Defined.
Lemma host_finds_tag_witness :
  1 <= TAG_AICLK < TAG_COUNT /\ host_lookup TAG_AICLK (telemetry_set TAG_AICLK 800 table0) = Some 800.
Proof.
  split; [by vm_compute | exact (host_finds_tag TAG_AICLK (telemetry_set TAG_AICLK 800 table0) ltac:(by vm_compute))].
Defined.
Lemma gddr_status_decode_witness :
  Z.testbit (telemetry_get TAG_GDDR_STATUS
    (UpdateGddrTelemetry 0x4 (λ _, Some gddr0) 0x4 0x0 table0)) 4 = true.
Proof.
  exact (gddr_status_decode 0x4 (λ _, Some gddr0) 0x4 0x0 table0 4 eq_refl
           ltac:(intros ? ? [= <-]; by split) ltac:(lia)).
Defined.
Lemma interval_sign_witness :
  snd (TelemetrySetUpdateInterval 0xFFFFFFFF table0) = 0 /\
  telem_update_interval (fst (TelemetrySetUpdateInterval 0xFFFFFFFF table0)) = -1.
Proof. exact (interval_sign 0xFFFFFFFF table0 ltac:(lia)). Defined.
