(* ===== verification/Dma.v ===== *)
(** The ARC DMA driver, [drivers/dma/dma_arc_hs.c], and the flash-to-tile copies of
    [lib/tenstorrent/bh_arc/spi_flash_buf.c] that run on it.

    The driver's data are an explicit state, the DMA registers a [RegBus]. Both
    builds are modelled: with the interrupt ([interrupts_available]) and polling.
    Lists of blocks are linked through memory ([heap]), as in C: the driver copies
    only the first block of a list when a channel is configured. A user's call-back
    is recorded, it does not call the driver. What the engine does is the class
    [DmaEngine]. *)
From stdpp Require Import prelude list numbers gmap functions.
From Stdlib Require Import ZArith Lia.
From S2P Require Import Prelude Bus.
Open Scope Z_scope.

(** * Registers *)
Definition DMA_C_CHAN_AUX : Z := 0xd01.
Definition DMA_C_SRC_AUX : Z := 0xd02.
Definition DMA_C_DST_AUX : Z := 0xd04.
Definition DMA_C_ATTR_AUX : Z := 0xd06.
Definition DMA_C_LEN_AUX : Z := 0xd07.
Definition DMA_C_HANDLE_AUX : Z := 0xd08.
Definition DMA_C_INTSTAT_AUX : Z := 0xd0d.
Definition DMA_C_INTSTAT_CLR_AUX : Z := 0xd0e.
Definition DMA_C_INTSTAT_DONE : Z := 1.
Definition DMA_S_CTRL_AUX : Z := 0xd10.
Definition DMA_S_BASEC_AUX (ch : Z) : Z := 0xd83 + ch * 8.
Definition DMA_S_LASTC_AUX (ch : Z) : Z := 0xd84 + ch * 8.
Definition DMA_S_STATC_AUX (ch : Z) : Z := 0xd86 + ch * 8.
Definition DMA_S_DONESTATD_AUX (d : Z) : Z := 0xd20 + d.
Definition DMA_S_DONESTATD_CLR_AUX (d : Z) : Z := 0xd40 + d.
Definition DMA_ARC_HS_GET_GROUP (handle : Z) : Z := Z.shiftr handle 5.
Definition DMA_ARC_HS_GET_BIT_POS (handle : Z) : Z := Z.land handle 0x1f.
Definition DMA_ARC_HS_BITMASK (handle : Z) : Z := Z.shiftl 1 (DMA_ARC_HS_GET_BIT_POS handle).
Definition ARC_DMA_NP_ATTR : Z := 8.
Definition ARC_DMA_SET_DONE_ATTR : Z := 1.
Definition ARC_DMA_INT_EN_ATTR : Z := 2.
Definition MEMORY_TO_MEMORY : Z := 0.

(** * Data *)
Inductive arc_dma_channel_state :=
  ARC_DMA_FREE | ARC_DMA_IDLE | ARC_DMA_PREPARED | ARC_DMA_ACTIVE | ARC_DMA_SUSPENDED.
#[export] Instance arc_dma_channel_state_eq_dec : EqDecision arc_dma_channel_state.
Proof. solve_decision. Defined.

Record dma_block_config := {
  source_address : Z;
  dest_address : Z;
  block_size : Z;
  next_block : option Z;
}.
(** [struct dma_config], the fields the driver uses; a call-back is a name. *)
Record dma_config := {
  channel_direction : Z;
  source_chaining_en : bool;
  dest_chaining_en : bool;
  linked_channel : Z;
  source_burst_length : Z;
  block_count : Z;
  head_block : option Z;
  dma_callback : option Z;
}.
(** The configuration's [head_block] points to the channel's own copy of the first
    block: [block_config] is that copy, [None] if the pointer is null. *)
Record arc_dma_channel := {
  state : arc_dma_channel_state;
  callback : option Z;
  config : dma_config;
  block_config : option dma_block_config;
  handle : Z;
}.
Record arc_dma_config := {
  channels : Z;
  descriptors : Z;
  max_block_size : Z;
  buffer_address_alignment : Z;
  interrupts_available : bool;
  (** [device_is_ready] *)
  device_ready : bool;
}.
Record arc_dma_data := {
  chans : list arc_dma_channel;
  channels_atomic : Z;
  (** memory that holds blocks, and where [transfer_blocks] starts in it *)
  heap : gmap Z dma_block_config;
  transfer_blocks : Z;
  (** the polling work item is due *)
  work_scheduled : bool;
  (** the call-backs made: name and channel, and the channels started *)
  called : list (Z * Z);
  started : list Z;
}.
Implicit Types (d : arc_dma_data) (c : arc_dma_config) (ch : arc_dma_channel).

Definition no_config : dma_config :=
  {| channel_direction := 0; source_chaining_en := false; dest_chaining_en := false; linked_channel := 0;
     source_burst_length := 0; block_count := 0; head_block := None; dma_callback := None |}.
Definition with_state ch (s : arc_dma_channel_state) : arc_dma_channel :=
  {| state := s; callback := callback ch; config := config ch; block_config := block_config ch;
     handle := handle ch |}.
Definition activated ch (h : Z) : arc_dma_channel :=
  {| state := ARC_DMA_ACTIVE; callback := callback ch; config := config ch; block_config := block_config ch;
     handle := h |}.
Definition set_chan d (n : Z) ch : arc_dma_data :=
  {| chans := <[Z.to_nat n := ch]> (chans d); channels_atomic := channels_atomic d; heap := heap d;
     transfer_blocks := transfer_blocks d; work_scheduled := work_scheduled d; called := called d;
     started := started d |}.
Definition note_start d (n : Z) : arc_dma_data :=
  {| chans := chans d; channels_atomic := channels_atomic d; heap := heap d;
     transfer_blocks := transfer_blocks d; work_scheduled := work_scheduled d; called := called d;
     started := started d ++ [n] |}.
Definition note_call d (cb : option Z) (n : Z) : arc_dma_data :=
  match cb with
  | None => d
  | Some f =>
      {| chans := chans d; channels_atomic := channels_atomic d; heap := heap d;
         transfer_blocks := transfer_blocks d; work_scheduled := work_scheduled d;
         called := called d ++ [(f, n)]; started := started d |}
  end.
Definition schedule d (b : bool) : arc_dma_data :=
  {| chans := chans d; channels_atomic := channels_atomic d; heap := heap d;
     transfer_blocks := transfer_blocks d; work_scheduled := b; called := called d; started := started d |}.
Definition with_heap d (h : gmap Z dma_block_config) : arc_dma_data :=
  {| chans := chans d; channels_atomic := channels_atomic d; heap := h;
     transfer_blocks := transfer_blocks d; work_scheduled := work_scheduled d; called := called d;
     started := started d |}.
Definition set_bit d (n : Z) : arc_dma_data :=
  {| chans := chans d; channels_atomic := Z.setbit (channels_atomic d) n; heap := heap d;
     transfer_blocks := transfer_blocks d; work_scheduled := work_scheduled d; called := called d;
     started := started d |}.

(** * The driver *)

(** [None]: the configuration's list of blocks is not in memory. *)
Definition dma_arc_hs_config c (channel : Z) (cfg : dma_config) d : option (arc_dma_data * Z) :=
  if channels c <=? channel then Some (d, - EINVAL)
  else if block_count cfg =? 0 then Some (d, - EINVAL)
  else if descriptors c <? block_count cfg then Some (d, - EINVAL)
  else if negb (channel_direction cfg =? MEMORY_TO_MEMORY) then Some (d, - ENOTSUP)
  else match head_block cfg with
  | None => Some (d, - EINVAL)
  | Some p =>
      chan ← zget (chans d) channel;
      let d := if decide (state chan = ARC_DMA_FREE) then set_bit d channel else d in
      block ← heap d !! p;
      Some (set_chan d channel
              {| state := ARC_DMA_PREPARED; callback := dma_callback cfg; config := cfg;
                 block_config := Some block; handle := handle chan |}, 0)
  end.

(** The walk over linked channels: does it end without meeting a free one? [None]
    if it leaves the array or does not end. *)
Fixpoint links_ok (fuel : nat) (current_channel : Z) d : option bool :=
  match fuel with
  | O => None
  | S fuel =>
      chan ← zget (chans d) current_channel;
      if decide (state chan = ARC_DMA_FREE) then Some false
      else if source_chaining_en (config chan) || dest_chaining_en (config chan)
      then links_ok fuel (linked_channel (config chan)) d
      else Some true
  end.

Definition transfer_attr c : Z :=
  if interrupts_available c then Z.lor ARC_DMA_INT_EN_ATTR ARC_DMA_NP_ATTR
  else Z.lor ARC_DMA_SET_DONE_ATTR ARC_DMA_NP_ATTR.
Definition set_bits (v : Z) : list Z := filter (λ i, Z.testbit v i = true) (seqZ 0 32).

Section driver.
Context {W : Type} `{RegBus W}.
Variable (c : arc_dma_config).
Definition lift {A} (o : option A) : Dev W A := λ w, match o with Some x => Some (x, w) | None => None end.

Definition dma_arc_hs_next_hw (src dst len attr : Z) : Dev W unit :=
  _ ← WriteReg DMA_C_SRC_AUX (u32 src);
  _ ← WriteReg DMA_C_DST_AUX (u32 dst);
  _ ← WriteReg DMA_C_ATTR_AUX attr;
  WriteReg DMA_C_LEN_AUX len.
Definition dma_arc_hs_start_hw (dma_ch src dst len attr : Z) : Dev W unit :=
  _ ← WriteReg DMA_C_CHAN_AUX dma_ch;
  _ ← WriteReg DMA_C_SRC_AUX (u32 src);
  _ ← WriteReg DMA_C_DST_AUX (u32 dst);
  _ ← WriteReg DMA_C_ATTR_AUX attr;
  WriteReg DMA_C_LEN_AUX len.
Definition dma_arc_hs_get_handle_hw : Dev W Z := ReadReg DMA_C_HANDLE_AUX.
Definition dma_arc_hs_clear_done_hw (h : Z) : Dev W unit :=
  WriteReg (DMA_S_DONESTATD_CLR_AUX (DMA_ARC_HS_GET_GROUP h)) (DMA_ARC_HS_BITMASK h).
Definition dma_arc_hs_get_done_hw (h : Z) : Dev W Z :=
  v ← ReadReg (DMA_S_DONESTATD_AUX (Z.land (DMA_ARC_HS_GET_GROUP h) 0x7));
  mret (Z.land (Z.shiftr v (DMA_ARC_HS_GET_BIT_POS h)) 0x1).

(** The blocks after the first, at most [n] of them. *)
Fixpoint queue_blocks (n : nat) (block : option Z) (attr : Z) (hp : gmap Z dma_block_config) : Dev W unit :=
  match n, block with
  | S n, Some p =>
      b ← lift (hp !! p);
      _ ← dma_arc_hs_next_hw (source_address b) (dest_address b) (block_size b) attr;
      queue_blocks n (next_block b) attr hp
  | _, _ => mret tt
  end.

Definition dma_arc_hs_start (fuel : nat) (channel : Z) d : Dev W (arc_dma_data * Z) :=
  if channels c <=? channel then mret (d, - EINVAL)
  else
    ok ← lift (links_ok fuel channel d);
    if negb ok then mret (d, - EINVAL)
    else
      chan ← lift (zget (chans d) channel);
      if decide (state chan = ARC_DMA_ACTIVE) then mret (d, 0)
      else match block_config chan with
      | None => mret (d, - EINVAL)
      | Some block =>
          let attr := transfer_attr c in
          _ ← dma_arc_hs_start_hw channel (source_address block) (dest_address block) (block_size block) attr;
          _ ← queue_blocks (Z.to_nat (block_count (config chan) - 1)) (next_block block) attr (heap d);
          h ← dma_arc_hs_get_handle_hw;
          let d := note_start (set_chan d channel (activated chan h)) channel in
          mret (if interrupts_available c then d else schedule d true, 0)
      end.

Definition dma_arc_hs_stop (channel : Z) d : Dev W (arc_dma_data * Z) :=
  if channels c <=? channel then mret (d, - EINVAL)
  else
    chan ← lift (zget (chans d) channel);
    if decide (state chan = ARC_DMA_FREE) then mret (d, - EINVAL)
    else if decide (state chan = ARC_DMA_ACTIVE) then
      _ ← dma_arc_hs_clear_done_hw (handle chan);
      mret (set_chan d channel (with_state chan ARC_DMA_IDLE), 0)
    else mret (d, 0).

(** 32-bit arithmetic; [None] for a division by zero. *)
Definition dma_arc_hs_calc_linked_transfer_size (cfg : dma_config) (block : dma_block_config) (burst_len : Z)
  : option Z :=
  if source_chaining_en cfg && dest_chaining_en cfg then Some (block_size block)
  else if source_chaining_en cfg then
    if burst_len =? 0 then None
    else
      let num_bursts := block_size block / burst_len in
      let transfer_size := u32 (u32 (num_bursts - 1) * burst_len) in
      Some (if transfer_size =? 0 then burst_len else transfer_size)
  else Some (if block_size block <? burst_len then block_size block else burst_len).

Definition dma_arc_hs_trigger_linked_channel (triggering : dma_config) (linked_ch_id : Z) d
  : Dev W arc_dma_data :=
  linked_chan ← lift (zget (chans d) linked_ch_id);
  if decide (state linked_chan = ARC_DMA_PREPARED) then
    block ← lift (block_config linked_chan);
    transfer_size ← lift (dma_arc_hs_calc_linked_transfer_size triggering block
                            (source_burst_length (config linked_chan)));
    _ ← dma_arc_hs_start_hw linked_ch_id (source_address block) (dest_address block) transfer_size
          (transfer_attr c);
    h ← dma_arc_hs_get_handle_hw;
    mret (note_start (set_chan d linked_ch_id (activated linked_chan h)) linked_ch_id)
  else mret d.

(** What completion does after the channel is idle: call back, start the linked one. *)
Definition complete (channel : Z) chan d : Dev W arc_dma_data :=
  let d := note_call (set_chan d channel (with_state chan ARC_DMA_IDLE)) (callback chan) channel in
  if (source_chaining_en (config chan) || dest_chaining_en (config chan))
     && (linked_channel (config chan) <? channels c)
  then dma_arc_hs_trigger_linked_channel (config chan) (linked_channel (config chan)) d
  else mret d.

Record dma_status := { busy : bool; pending_length : Z }.
Definition idle_status : dma_status := {| busy := false; pending_length := 0 |}.
Definition busy_status chan : dma_status :=
  {| busy := true; pending_length := match block_config chan with Some b => block_size b | None => 0 end |}.

Definition dma_arc_hs_status_poll (channel : Z) chan d : Dev W (arc_dma_data * dma_status) :=
  done_status ← dma_arc_hs_get_done_hw (handle chan);
  if done_status =? 0 then mret (d, busy_status chan)
  else
    _ ← dma_arc_hs_clear_done_hw (handle chan);
    d ← complete channel chan d;
    mret (d, idle_status).

Definition dma_arc_hs_get_status (channel : Z) d : Dev W (arc_dma_data * Z * dma_status) :=
  if channels c <=? channel then mret (d, - EINVAL, idle_status)
  else
    chan ← lift (zget (chans d) channel);
    if decide (state chan = ARC_DMA_FREE) then mret (d, - EINVAL, idle_status)
    else if decide (state chan = ARC_DMA_ACTIVE) then
      if interrupts_available c then mret (d, 0, busy_status chan)
      else '(d, st) ← dma_arc_hs_status_poll channel chan d; mret (d, 0, st)
    else mret (d, 0, idle_status).

(** ** Polling *)
Definition dma_arc_hs_check_completion (channel : Z) d : Dev W arc_dma_data :=
  chan ← lift (zget (chans d) channel);
  if decide (state chan = ARC_DMA_ACTIVE) then
    done_status ← dma_arc_hs_get_done_hw (handle chan);
    if done_status =? 0 then mret d
    else
      _ ← dma_arc_hs_clear_done_hw (handle chan);
      complete channel chan d
  else mret d.
Fixpoint check_channels (n : nat) (i : Z) d (any_active : bool) : Dev W (arc_dma_data * bool) :=
  match n with
  | O => mret (d, any_active)
  | S n =>
      chan ← lift (zget (chans d) i);
      if decide (state chan = ARC_DMA_ACTIVE)
      then d ← dma_arc_hs_check_completion i d; check_channels n (i + 1) d true
      else check_channels n (i + 1) d any_active
  end.
Definition dma_arc_hs_completion_work_handler d : Dev W arc_dma_data :=
  '(d, any_active) ← check_channels (Z.to_nat (channels c)) 0 (schedule d false) false;
  mret (if any_active : bool then schedule d true else d).

(** ** The interrupt *)
Fixpoint process_channels (n : nat) (ch h : Z) d : Dev W arc_dma_data :=
  match n with
  | O => mret d
  | S n =>
      chan ← lift (zget (chans d) ch);
      if decide (state chan = ARC_DMA_ACTIVE /\ handle chan = h)
      then complete ch chan d else process_channels n (ch + 1) h d
  end.
Definition dma_arc_hs_process_handle (h : Z) d : Dev W arc_dma_data :=
  process_channels (Z.to_nat (channels c)) 0 h d.
Fixpoint process_bits (group : Z) (bits : list Z) d : Dev W arc_dma_data :=
  match bits with
  | [] => mret d
  | bit :: bits =>
      d ← dma_arc_hs_process_handle (group * 32 + bit) d;
      process_bits group bits d
  end.
Fixpoint process_groups (n : nat) (group : Z) d : Dev W arc_dma_data :=
  match n with
  | O => mret d
  | S n =>
      bits ← ReadReg (DMA_S_DONESTATD_AUX group);
      d ← (if bits =? 0 then mret d
           else _ ← WriteReg (DMA_S_DONESTATD_CLR_AUX group) bits; process_bits group (set_bits bits) d);
      process_groups n (group + 1) d
  end.
Definition num_groups : Z := (descriptors c + 31) / 32.
Fixpoint dma_arc_hs_isr (fuel : nat) d : Dev W arc_dma_data :=
  match fuel with
  | O => λ _, None
  | S fuel =>
      int_status ← ReadReg DMA_C_INTSTAT_AUX;
      if int_status =? 0 then mret d
      else
        _ ← WriteReg DMA_C_INTSTAT_CLR_AUX int_status;
        if Z.land int_status DMA_C_INTSTAT_DONE =? 0 then mret d
        else
          d ← process_groups (Z.to_nat num_groups) 0 d;
          dma_arc_hs_isr fuel d
  end.

(** ** Initialisation *)
Fixpoint write_all (n : nat) (i : Z) (writes : Z -> list (Z * Z)) : Dev W unit :=
  match n with
  | O => mret tt
  | S n =>
      _ ← foldr (λ '(a, v) k, _ ← WriteReg a v; k) (mret tt) (writes i);
      write_all n (i + 1) writes
  end.
Definition dma_arc_hs_init d : Dev W arc_dma_data :=
  let free ch := {| state := ARC_DMA_FREE; callback := None; config := config ch;
                    block_config := block_config ch; handle := handle ch |} in
  let d := {| chans := map free (chans d); channels_atomic := 0; heap := heap d;
              transfer_blocks := transfer_blocks d; work_scheduled := work_scheduled d;
              called := called d; started := started d |} in
  _ ← write_all (Z.to_nat num_groups) 0 (λ g, [(DMA_S_DONESTATD_CLR_AUX g, 0xFFFFFFFF)]);
  _ ← write_all (Z.to_nat (channels c)) 0 (λ i, [(DMA_S_STATC_AUX i, 0)]);
  _ ← WriteReg DMA_S_CTRL_AUX (Z.lor (Z.shiftl 0xf 4) (Z.shiftl 0x4 8));
  _ ← write_all (Z.to_nat (channels c)) 0
        (λ i, [(DMA_S_BASEC_AUX i, 0); (DMA_S_LASTC_AUX i, descriptors c - 1); (DMA_S_STATC_AUX i, 1)]);
  mret d.

(** * A blocking transfer *)
Fixpoint split_blocks (n : nat) (i num_blocks src dst remaining base : Z) (hp : gmap Z dma_block_config)
  : gmap Z dma_block_config :=
  match n with
  | O => hp
  | S n =>
      let block_len := if max_block_size c <? remaining then max_block_size c else remaining in
      split_blocks n (i + 1) num_blocks (src + block_len) (dst + block_len) (remaining - block_len) base
        (<[base + i := {| source_address := u32 src; dest_address := u32 dst; block_size := block_len;
                          next_block := if i <? num_blocks - 1 then Some (base + i + 1) else None |}]> hp)
  end.
(** The wait; where there is an interrupt it is taken between two readings of the status. *)
Fixpoint transfer_wait (fuel isr_fuel : nat) (channel end_time : Z) d : Dev W (arc_dma_data * Z) :=
  match fuel with
  | O => λ _, None
  | S fuel =>
      d ← (if interrupts_available c then dma_arc_hs_isr isr_fuel d else mret d);
      '(d, rc, st) ← dma_arc_hs_get_status channel d;
      if (rc =? 0) && negb (busy st) then '(d, _) ← dma_arc_hs_stop channel d; mret (d, 0)
      else
        now ← k_uptime_get;
        if end_time <=? now then '(d, _) ← dma_arc_hs_stop channel d; mret (d, - ETIMEDOUT)
        else _ ← Wait (100 * 50); transfer_wait fuel isr_fuel channel end_time d
  end.
Definition dma_arc_hs_transfer (fuel isr_fuel : nat) (channel src dst len timeout_ms : Z) d
  : Dev W (arc_dma_data * Z) :=
  if negb (device_ready c) then mret (d, - ENODEV)
  else if len =? 0 then mret (d, 0)
  else
    let alignment_mask := u32 (buffer_address_alignment c - 1) in
    if negb (Z.land src alignment_mask =? 0) || negb (Z.land dst alignment_mask =? 0) then mret (d, - EINVAL)
    else if channels c <=? channel then mret (d, - EINVAL)
    else
      num_blocks ← lift (if max_block_size c =? 0 then None
                         else Some (u32 (len + max_block_size c - 1) / max_block_size c));
      if descriptors c <? num_blocks then mret (d, - EINVAL)
      else
        let base := transfer_blocks d in
        let d := with_heap d (split_blocks (Z.to_nat num_blocks) 0 num_blocks src dst len base (heap d)) in
        let cfg := {| channel_direction := MEMORY_TO_MEMORY; source_chaining_en := false;
                      dest_chaining_en := false; linked_channel := 0; source_burst_length := 0;
                      block_count := num_blocks; head_block := Some base; dma_callback := None |} in
        '(d, rc) ← lift (dma_arc_hs_config c channel cfg d);
        if rc <? 0 then mret (d, rc)
        else
          '(d, rc) ← dma_arc_hs_start fuel channel d;
          if rc <? 0 then mret (d, rc)
          else
            now ← k_uptime_get;
            transfer_wait fuel isr_fuel channel (now + timeout_ms) d.
End driver.

(** * What the engine does

    A write of the length queues a transfer with the source, destination and
    attributes written before, under a handle no queued transfer has. Queued
    transfers complete in order; what has been completed shows at a read, a wait or a
    reading of the clock. A completed transfer sets the bit of its handle, and the
    interrupt if its attributes ask for it. *)
Record desc := { d_handle : Z; d_src : Z; d_dst : Z; d_len : Z; d_attr : Z }.
Record engine := {
  e_queue : list desc;
  e_done : Z -> bool;
  e_int : bool;
  e_mem : Z -> Z;
  e_src : Z; e_dst : Z; e_attr : Z;
  e_last : Z;
}.
Implicit Types (e : engine) (x : desc).
Definition copy (src dst len : Z) (m : Z -> Z) (a : Z) : Z :=
  if (dst <=? a) && (a <? dst + len) then m (src + (a - dst)) else m a.
Definition perform (m : Z -> Z) x : Z -> Z := copy (d_src x) (d_dst x) (d_len x) m.
Definition performed (xs : list desc) (m : Z -> Z) : Z -> Z := foldl perform m xs.
Definition raises x : bool := Z.testbit (d_attr x) 1.
Definition has_handle (xs : list desc) (h : Z) : bool := existsb (λ x, d_handle x =? h) xs.

Definition progress e e' : Prop :=
  exists xs, e_queue e = xs ++ e_queue e' /\
    (forall a, e_mem e' a = performed xs (e_mem e) a) /\
    (forall h, e_done e' h = e_done e h || has_handle xs h) /\
    e_int e' = e_int e || existsb raises xs /\
    e_src e' = e_src e /\ e_dst e' = e_dst e /\ e_attr e' = e_attr e /\ e_last e' = e_last e.
(** Nothing visible changes but what is said. *)
Definition same_run e e' : Prop :=
  e_queue e' = e_queue e /\ (forall a, e_mem e' a = e_mem e a) /\ e_last e' = e_last e.
Definition same_regs e e' : Prop := e_src e' = e_src e /\ e_dst e' = e_dst e /\ e_attr e' = e_attr e.
Definition same_flags e e' : Prop := (forall h, e_done e' h = e_done e h) /\ e_int e' = e_int e.

(** [nd] descriptors; time in cycles of 50 MHz. *)
Class DmaEngine (nd : Z) (W : Type) `{RegBus W} := {
  view : W -> engine;
  time : W -> Z;
  read_progress a w v w' : bus_read a w = (v, w') -> progress (view w) (view w') /\ time w <= time w';
  uptime_progress w t w' : bus_uptime w = (t, w') ->
    progress (view w) (view w') /\ time w <= time w' /\ t = time w / 50000;
  wait_progress n w : progress (view w) (view (bus_wait n w)) /\ time w + n <= time (bus_wait n w);
  write_time a v w : time w <= time (bus_write a v w);
  write_chan v w : let w' := bus_write DMA_C_CHAN_AUX v w in
    same_run (view w) (view w') /\ same_regs (view w) (view w') /\ same_flags (view w) (view w');
  write_src v w : let w' := bus_write DMA_C_SRC_AUX v w in
    same_run (view w) (view w') /\ same_flags (view w) (view w') /\
    e_src (view w') = v /\ e_dst (view w') = e_dst (view w) /\ e_attr (view w') = e_attr (view w);
  write_dst v w : let w' := bus_write DMA_C_DST_AUX v w in
    same_run (view w) (view w') /\ same_flags (view w) (view w') /\
    e_src (view w') = e_src (view w) /\ e_dst (view w') = v /\ e_attr (view w') = e_attr (view w);
  write_attr v w : let w' := bus_write DMA_C_ATTR_AUX v w in
    same_run (view w) (view w') /\ same_flags (view w) (view w') /\
    e_src (view w') = e_src (view w) /\ e_dst (view w') = e_dst (view w) /\ e_attr (view w') = v;
  write_len v w : Z.of_nat (length (e_queue (view w))) < nd ->
    let w' := bus_write DMA_C_LEN_AUX v w in
    e_queue (view w') = e_queue (view w) ++
      [{| d_handle := e_last (view w'); d_src := e_src (view w); d_dst := e_dst (view w); d_len := v;
          d_attr := e_attr (view w) |}] /\
    0 <= e_last (view w') < nd /\ has_handle (e_queue (view w)) (e_last (view w')) = false /\
    (forall a, e_mem (view w') a = e_mem (view w) a) /\
    (forall h, e_done (view w') h = true -> e_done (view w) h = true) /\ e_int (view w') = e_int (view w);
  write_int_clear v w : let w' := bus_write DMA_C_INTSTAT_CLR_AUX v w in
    same_run (view w) (view w') /\ same_regs (view w) (view w') /\
    (forall h, e_done (view w') h = e_done (view w) h) /\ e_int (view w') = false;
  write_done_clear g v w : 0 <= g < 8 -> let w' := bus_write (DMA_S_DONESTATD_CLR_AUX g) v w in
    same_run (view w) (view w') /\ same_regs (view w) (view w') /\
    (forall h, e_done (view w') h = e_done (view w) h && negb ((h / 32 =? g) && Z.testbit v (h mod 32))) /\
    e_int (view w') = e_int (view w);
  read_handle w v w' : bus_read DMA_C_HANDLE_AUX w = (v, w') -> v = e_last (view w);
  read_int w v w' : bus_read DMA_C_INTSTAT_AUX w = (v, w') ->
    e_int (view w') = negb (v =? 0) /\ (v <> 0 -> Z.land v DMA_C_INTSTAT_DONE <> 0);
  read_done g w v w' : 0 <= g < 8 -> bus_read (DMA_S_DONESTATD_AUX g) w = (v, w') ->
    forall i, 0 <= i < 32 -> Z.testbit v i = e_done (view w') (32 * g + i);
}.

(** ** Copies *)
Lemma copy_ext src dst len m m' a : (forall y, m y = m' y) -> copy src dst len m a = copy src dst len m' a.
Proof. intros Hm. unfold copy. by case_match; rewrite Hm. Qed.
Lemma performed_ext xs m m' a : (forall y, m y = m' y) -> performed xs m a = performed xs m' a.
Proof.
  revert m m'. induction xs as [|x xs IH]; intros m m' Hm; [apply Hm|]. cbn.
  apply IH. intros y. by apply copy_ext.
Qed.
Lemma performed_app xs ys m : performed (xs ++ ys) m = performed ys (performed xs m).
Proof. apply foldl_app. Qed.
(** Two consecutive pieces are one copy, if the source is not overwritten. *)
Lemma copy_append src dst l1 l2 m a :
  0 <= l1 -> 0 <= l2 -> src + l1 + l2 <= dst \/ dst + l1 + l2 <= src ->
  copy (src + l1) (dst + l1) l2 (copy src dst l1 m) a = copy src dst (l1 + l2) m a.
Proof.
  intros H1 H2 Hd. unfold copy.
  destruct (Z.leb_spec (dst + l1) a), (Z.ltb_spec a (dst + l1 + l2)), (Z.leb_spec dst a),
    (Z.ltb_spec a (dst + l1)), (Z.ltb_spec a (dst + (l1 + l2))); cbn [andb]; try lia; try done.
  - destruct (Z.leb_spec dst (src + l1 + (a - (dst + l1)))), (Z.ltb_spec (src + l1 + (a - (dst + l1))) (dst + l1));
      cbn [andb]; try lia; f_equal; lia.
Qed.

(** ** Progress *)
Lemma progress_refl e e' : same_run e e' -> same_regs e e' -> same_flags e e' -> progress e e'.
Proof.
  intros (Hq & Hm & Hl) (Hs & Hd & Ha) (Hf & Hi). exists []. split_and!; try done.
  - intros h. by rewrite Hf, orb_false_r.
  - by rewrite Hi, orb_false_r.
Qed.
Lemma progress_trans e1 e2 e3 : progress e1 e2 -> progress e2 e3 -> progress e1 e3.
Proof.
  intros (xs & Hq & Hm & Hf & Hi & Hs & Hd & Ha & Hl) (ys & Hq' & Hm' & Hf' & Hi' & Hs' & Hd' & Ha' & Hl').
  exists (xs ++ ys). split_and!; try congruence.
  - by rewrite Hq, Hq', app_assoc.
  - intros a. rewrite Hm', performed_app. by apply performed_ext.
  - intros h. rewrite Hf', Hf. unfold has_handle. by rewrite existsb_app, orb_assoc.
  - by rewrite Hi', Hi, existsb_app, orb_assoc.
Qed.

(** * A transfer copies *)
Section transfer.
Context {W : Type} {nd : Z} `{DmaEngine nd W}.
Variable (c : arc_dma_config).
Hypothesis (Hirq : interrupts_available c = true).
Hypothesis (Hnd : descriptors c = nd) (Hnd8 : 1 <= nd <= 256).
Hypothesis (Hch : 0 < channels c).
Implicit Types (w : W).

(** The transfers [ds] were queued when memory was [m]: some have completed, and
    every set bit is that of a completed one. *)
Definition tracked (m : Z -> Z) (ds : list desc) w : Prop :=
  exists xs, ds = xs ++ e_queue (view w) /\ (forall a, e_mem (view w) a = performed xs m a) /\
    (forall h, e_done (view w) h = true -> has_handle xs h = true).
(** No bit is set below group [g], unless the interrupt is up. *)
Definition cleared (g : Z) w : Prop :=
  e_int (view w) = true \/ forall h, e_done (view w) h = true -> g <= h / 32.
Definition queued_ok (ds : list desc) : Prop :=
  Forall (λ x, raises x = true /\ 0 <= d_handle x < nd) ds /\ NoDup (map d_handle ds).

Lemma has_handle_elem xs h : has_handle xs h = true <-> exists x, x ∈ xs /\ d_handle x = h.
Proof.
  unfold has_handle. rewrite existsb_exists. split; intros (x & Hx & E); exists x.
  - split; [by apply list_elem_of_In | by apply Z.eqb_eq].
  - split; [by apply list_elem_of_In | by apply Z.eqb_eq].
Qed.
Lemma tracked_progress m ds w w' :
  tracked m ds w -> progress (view w) (view w') -> tracked m ds w'.
Proof.
  intros (xs & -> & Hm & Hf) (ys & Hq & Hm' & Hf' & _). exists (xs ++ ys). split_and!.
  - by rewrite Hq, app_assoc.
  - intros a. rewrite Hm', performed_app. by apply performed_ext.
  - intros h. rewrite Hf'. unfold has_handle at 2. rewrite existsb_app, !orb_true_iff.
    intros [Hd|Hd]; [left; by apply Hf | by right].
Qed.
Lemma cleared_progress m ds g w w' :
  queued_ok ds -> tracked m ds w -> cleared g w -> progress (view w) (view w') -> cleared g w'.
Proof.
  intros [Hok _] (zs & Hds & _) Hc (xs & Hq & _ & Hf & Hi & _). unfold cleared. rewrite Hi.
  destruct xs as [|x xs].
  - destruct Hc as [->|Hc]; [by left|]. right. intros h. rewrite Hf. cbn. rewrite orb_false_r. apply Hc.
  - left. apply orb_true_iff. right. cbn. rewrite Hds, Hq in Hok.
    apply list.Forall_app in Hok as [_ Hok]. cbn in Hok. apply list.Forall_cons in Hok as [[-> _] _]. done.
Qed.
Lemma queue_progress w w' : e_queue (view w) = [] -> progress (view w) (view w') -> e_queue (view w') = [].
Proof. intros Hq (xs & E & _). rewrite Hq in E. destruct xs; cbn in E; [by symmetry | done]. Qed.

(** Interrupts to come. *)
Definition irqs w : nat := 2 * length (e_queue (view w)) + (if e_int (view w) then 1 else 0).
Lemma irqs_progress w w' : progress (view w) (view w') -> (irqs w' <= irqs w)%nat.
Proof.
  intros (xs & Hq & _ & _ & Hi & _). unfold irqs. rewrite Hq, length_app, Hi.
  destruct xs; cbn [existsb length]; [rewrite orb_false_r; lia|]. destruct (_ || _), (e_int (view w)); lia.
Qed.

(** The channel waits for handle [hl], and no other channel is active. *)
Definition waiting (channel hl : Z) d : Prop :=
  Z.of_nat (length (chans d)) = channels c /\
  (forall j ch, zget (chans d) j = Some ch -> state ch = ARC_DMA_ACTIVE -> j = channel) /\
  exists ch, zget (chans d) channel = Some ch /\ handle ch = hl /\
    (state ch = ARC_DMA_ACTIVE \/ state ch = ARC_DMA_IDLE) /\
    source_chaining_en (config ch) = false /\ dest_chaining_en (config ch) = false /\ callback ch = None.
Definition idle_at (channel : Z) d : Prop :=
  exists ch, zget (chans d) channel = Some ch /\ state ch = ARC_DMA_IDLE.

Lemma zget_set d n ch j :
  0 <= n < Z.of_nat (length (chans d)) ->
  zget (chans (set_chan d n ch)) j = if j =? n then Some ch else zget (chans d) j.
Proof.
  intros Hn. cbn [chans set_chan]. unfold zget. destruct (Z.ltb_spec j 0).
  - destruct (Z.eqb_spec j n); [lia | done].
  - destruct (Z.eqb_spec j n) as [->|].
    + by rewrite list_lookup_insert_eq by lia.
    + by rewrite list_lookup_insert_ne by lia.
Qed.
Lemma wp_lift {A} (o : option A) y w (Q : A -> W -> Prop) : o = Some y -> Q y w -> wp (lift o) w Q.
Proof. intros -> HQ. by exists y, w. Qed.

Lemma complete_waiting channel hl chan d w :
  waiting channel hl d -> zget (chans d) channel = Some chan ->
  wp (complete c channel chan d) w (λ d' w', w' = w /\ waiting channel hl d' /\ idle_at channel d').
Proof.
  intros (Hlen & Hact & ch & Hg & Hh & _ & Hs & Hd & Hcb) Hg'. rewrite Hg in Hg'. injection Hg' as ->.
  pose proof (zget_Some_range _ _ _ Hg) as Hr. unfold complete. cbv zeta. rewrite Hs, Hd, Hcb. cbn [orb andb note_call].
  apply wp_ret. split; [done|]. split.
  - split; [cbn [chans set_chan]; by rewrite length_insert|]. split.
    + intros j ch' Hj Ha. rewrite zget_set in Hj by done. destruct (Z.eqb_spec j channel); [done|]. by eapply Hact.
    + exists (with_state chan ARC_DMA_IDLE). rewrite zget_set, Z.eqb_refl by done. split_and!; try done. by right.
  - exists (with_state chan ARC_DMA_IDLE). by rewrite zget_set, Z.eqb_refl by done.
Qed.

(** Handling a handle changes at most the waiting channel, and only for its own. *)
Lemma process_channels_waiting channel hl h d w n i :
  waiting channel hl d -> 0 <= i -> i + Z.of_nat n <= channels c ->
  wp (process_channels c n i h d) w (λ d' w', w' = w /\ waiting channel hl d' /\
    (idle_at channel d' -> idle_at channel d \/ h = hl)).
Proof.
  intros Hw. revert i. induction n as [|n IH]; intros i Hi Hn; cbn [process_channels].
  { apply wp_ret. split_and!; try done. by left. }
  destruct (zget_is_Some (chans d) i) as [chan Hg]; [destruct Hw as (-> & _); lia|].
  apply wp_bind. eapply wp_lift; [exact Hg|]. case_decide as Hd; [|apply IH; lia].
  destruct Hd as [Ha Hh]. pose proof Hw as (_ & Hact & ch & Hg' & Hhl & _).
  assert (i = channel) as -> by by eapply Hact. rewrite Hg in Hg'. injection Hg' as <-.
  eapply wp_mono; [by apply complete_waiting|]. intros d' w' (-> & Hw' & _). split_and!; try done.
  intros _. right. congruence.
Qed.
Lemma process_bits_waiting channel hl g bits d w :
  waiting channel hl d ->
  wp (process_bits c g bits d) w (λ d' w', w' = w /\ waiting channel hl d' /\
    (idle_at channel d' -> idle_at channel d \/ exists b, b ∈ bits /\ g * 32 + b = hl)).
Proof.
  revert d. induction bits as [|b bits IH]; intros d Hw; cbn [process_bits].
  { apply wp_ret. split_and!; try done. by left. }
  apply wp_bind. eapply wp_mono; [apply (process_channels_waiting channel hl); [exact Hw | lia | lia]|].
  intros d1 w1 (-> & Hw1 & Hi1). eapply wp_mono; [by apply IH|].
  intros d2 w2 (-> & Hw2 & Hi2). split_and!; try done.
  intros [Hi|(b' & Hb & E)]%Hi2; [|right; exists b'; split; [by right | done]].
  destruct (Hi1 Hi) as [Hi'|E]; [by left|]. right. exists b. split; [by left | done].
Qed.

(** Everything about a transfer of [ds] with last handle [hl]. *)
Definition running (m : Z -> Z) (ds : list desc) (channel hl : Z) d w : Prop :=
  tracked m ds w /\ waiting channel hl d /\ (idle_at channel d -> e_queue (view w) = []).
Definition last_handle (ds : list desc) (hl : Z) : Prop := exists xs x, ds = xs ++ [x] /\ d_handle x = hl.

Lemma last_done m ds hl w :
  queued_ok ds -> last_handle ds hl -> tracked m ds w -> e_done (view w) hl = true -> e_queue (view w) = [].
Proof.
  intros [_ Hnd'] (ys & y & -> & Hy) (xs & Hds & _ & Hf) Hd.
  apply Hf, has_handle_elem in Hd as (x & Hx & Ex).
  destruct (e_queue (view w)) as [|q qs] using rev_ind; [done|]. exfalso. clear IHqs.
  rewrite app_assoc in Hds. apply app_inj_tail in Hds as [-> ->]. rewrite !map_app in Hnd'.
  apply list.NoDup_app in Hnd' as (_ & Hdis & _). apply (Hdis hl).
  - rewrite elem_of_app. left. apply list_elem_of_fmap. by exists x.
  - cbn. rewrite <- Hy. by left.
Qed.


(** ** The interrupt handler *)
Lemma set_bits_elem v b : b ∈ set_bits v <-> Z.testbit v b = true /\ 0 <= b < 32.
Proof. unfold set_bits. rewrite list_elem_of_filter, elem_of_seqZ. intuition lia. Qed.
Lemma same_run_tracked m ds w w' :
  tracked m ds w -> same_run (view w) (view w') ->
  (forall h, e_done (view w') h = true -> e_done (view w) h = true) -> tracked m ds w'.
Proof.
  intros (xs & -> & Hm & Hf) (Hq & Hm' & _) Hsub. exists xs. split_and!.
  - by rewrite Hq.
  - intros a. by rewrite Hm'.
  - intros h Hd. by apply Hf, Hsub.
Qed.
Lemma done_range m ds w h : queued_ok ds -> tracked m ds w -> e_done (view w) h = true -> 0 <= h < nd.
Proof.
  intros [Hok _] (xs & -> & _ & Hf) (x & Hx & <-)%Hf%has_handle_elem.
  apply list.Forall_app in Hok as [Hok _]. rewrite list.Forall_forall in Hok. by apply Hok.
Qed.
Lemma num_groups_range h : 0 <= h < nd -> h / 32 < num_groups c.
Proof. intros Hh. unfold num_groups. rewrite Hnd. apply Z.div_lt_upper_bound; [lia|].
  pose proof (Z.div_mod (nd + 31) 32 ltac:(lia)). pose proof (Z.mod_pos_bound (nd + 31) 32 ltac:(lia)). lia.
Qed.
Lemma num_groups_bound : 0 <= num_groups c <= 8.
Proof.
  unfold num_groups. rewrite Hnd. split; [apply Z.div_pos; lia|].
  apply (Z.div_le_mono _ 287 32); lia.
Qed.

(** Reading a group and clearing what was read. *)
Lemma group_step m ds channel hl g d w :
  queued_ok ds -> last_handle ds hl -> running m ds channel hl d w -> cleared g w -> 0 <= g < 8 ->
  wp (bits ← ReadReg (DMA_S_DONESTATD_AUX g);
      if bits =? 0 then mret d
      else _ ← WriteReg (DMA_S_DONESTATD_CLR_AUX g) bits; process_bits c g (set_bits bits) d) w
    (λ d' w', running m ds channel hl d' w' /\ cleared (g + 1) w' /\ (irqs w' <= irqs w)%nat /\ time w <= time w').
Proof.
  intros Hok Hlast (Ht & Hw & Hq) Hc Hg. apply wp_bind, wp_read. intros v w1 E.
  destruct (read_progress _ _ _ _ E) as [Hp Htm]. pose proof (read_done _ _ _ _ Hg E) as Hv.
  assert (tracked m ds w1) as Ht1 by (eapply tracked_progress; [exact Ht | exact Hp]).
  assert (cleared g w1) as Hc1 by (eapply cleared_progress; [exact Hok | exact Ht | exact Hc | exact Hp]).
  assert (idle_at channel d -> e_queue (view w1) = []) as Hq1 by (intros Hi; eapply queue_progress; [by apply Hq | done]).
  pose proof (irqs_progress _ _ Hp) as Hi1. clear E Hp Hc Ht Hq.
  assert (forall h, h / 32 = g -> e_done (view w1) h = Z.testbit v (h mod 32)) as Hbit.
  { intros h Eg. pose proof (Z.div_mod h 32 ltac:(lia)). pose proof (Z.mod_pos_bound h 32 ltac:(lia)).
    rewrite Hv by lia. f_equal. lia. }
  destruct (Z.eqb_spec v 0) as [->|Hnz].
  - apply wp_ret. split; [done|]. split; [|done]. destruct Hc1 as [Hc1|Hc1]; [by left | right].
    intros h Hd. pose proof (Hc1 h Hd). destruct (Z.eq_dec (h / 32) g) as [Eg|]; [|lia].
    rewrite (Hbit h Eg), Z.bits_0 in Hd. done.
  - apply wp_bind, wp_write. destruct (write_done_clear g v w1 Hg) as (Hrun & _ & Hdone & Hint).
    set (w2 := bus_write _ _ _) in *. cbv zeta in *.
    assert (forall h, e_done (view w2) h = true -> e_done (view w1) h = true) as Hsub.
    { intros h. rewrite Hdone. by intros [? _]%andb_true_iff. }
    assert (tracked m ds w2) as Ht2 by (eapply same_run_tracked; [exact Ht1 | exact Hrun | exact Hsub]).
    destruct Hrun as (Hq2 & _).
    eapply wp_mono; [apply (process_bits_waiting channel hl); exact Hw|]. intros d' w' (-> & Hw' & Hidle).
    split; [split; [done | split; [done|]]|split; [|split]].
    + rewrite Hq2. intros [Hi|(b & [Hb Hr]%set_bits_elem & Eb)]%Hidle; [by apply Hq1|].
      eapply last_done; [done..|]. rewrite <- Eb, Z.mul_comm, <- Hv by done. done.
    + destruct Hc1 as [Hc1|Hc1]; [left; by rewrite Hint | right].
      intros h Hd. pose proof (Hc1 h (Hsub h Hd)). rewrite Hdone in Hd. apply andb_true_iff in Hd as [Hd Hn].
      destruct (Z.eq_dec (h / 32) g) as [Eg|]; [|lia]. rewrite (Hbit h Eg) in Hd. rewrite Eg, Z.eqb_refl, Hd in Hn. done.
    + unfold irqs. rewrite Hq2, Hint. exact Hi1.
    + pose proof (write_time (DMA_S_DONESTATD_CLR_AUX g) v w1) as Hwt. fold w2 in Hwt. lia.
Qed.
Lemma process_groups_running m ds channel hl n g d w :
  queued_ok ds -> last_handle ds hl -> running m ds channel hl d w -> cleared g w ->
  0 <= g -> g + Z.of_nat n = num_groups c ->
  wp (process_groups c n g d) w
    (λ d' w', running m ds channel hl d' w' /\ cleared (num_groups c) w' /\
      (irqs w' <= irqs w)%nat /\ time w <= time w').
Proof.
  intros Hok Hlast. revert g d w. induction n as [|n IH]; intros g d w Hr Hc Hg Hn; cbn [process_groups].
  { apply wp_ret. replace (num_groups c) with g by lia. split_and!; (done || lia). }
  pose proof num_groups_bound as Hb.
  pose proof (group_step m ds channel hl g d w Hok Hlast Hr Hc ltac:(lia)) as (d' & w' & E & Hr' & Hc' & Hi' & Ht').
  unfold mbind, Dev_bind in E |- *. unfold wp. destruct (ReadReg (DMA_S_DONESTATD_AUX g) w) as [[bits w1]|]; [|done].
  cbv beta iota in E |- *. rewrite E.
  destruct (IH (g + 1) d' w' Hr' Hc' ltac:(lia) ltac:(lia)) as (d2 & w2 & E2 & Hr2 & Hc2 & Hi2 & Ht2).
  exists d2, w2. split_and!; (done || lia).
Qed.

(** No transfer is queued, no bit is set and no interrupt is up. *)
Definition quiet w : Prop :=
  e_queue (view w) = [] /\ (forall h, e_done (view w) h = false) /\ e_int (view w) = false.

Lemma isr_running m ds channel hl fuel d w :
  queued_ok ds -> last_handle ds hl -> running m ds channel hl d w -> cleared (num_groups c) w ->
  (irqs w < fuel)%nat ->
  wp (dma_arc_hs_isr c fuel d) w (λ d' w', running m ds channel hl d' w' /\ 
    e_int (view w') = false /\ (forall h, e_done (view w') h = false) /\
    (irqs w' <= irqs w)%nat /\ time w <= time w').
Proof.
  intros Hok Hlast. revert d w. induction fuel as [|fuel IH]; intros d w (Ht & Hw & Hq) Hc Hf; [lia|].
  cbn [dma_arc_hs_isr]. apply wp_bind, wp_read. intros v w1 E.
  destruct (read_progress _ _ _ _ E) as [Hp Htm]. destruct (read_int _ _ _ E) as [Hint Hdone].
  assert (tracked m ds w1) as Ht1 by (eapply tracked_progress; [exact Ht | exact Hp]).
  assert (cleared (num_groups c) w1) as Hc1 by (eapply cleared_progress; [exact Hok | exact Ht | exact Hc | exact Hp]).
  assert (idle_at channel d -> e_queue (view w1) = []) as Hq1 by (intros Hi; eapply queue_progress; [by apply Hq | done]).
  pose proof (irqs_progress _ _ Hp) as Hi1. clear E Hp Hc Ht Hq.
  destruct (Z.eqb_spec v 0) as [->|Hnz].
  - apply wp_ret. split; [done|]. split; [done|]. split; [|done]. intros h. destruct (e_done (view w1) h) eqn:Hd; [exfalso | done].
    destruct Hc1 as [Hc1|Hc1]; [by rewrite Hint in Hc1|].
    pose proof (Hc1 h Hd). pose proof (num_groups_range h (done_range _ _ _ _ Hok Ht1 Hd)). lia.
  - apply wp_bind, wp_write. destruct (write_int_clear v w1) as (Hrun & _ & Hd2 & Hint2).
    set (w2 := bus_write _ _ _) in *. cbv zeta in *. rewrite (proj2 (Z.eqb_neq _ _)) by auto.
    assert (tracked m ds w2) as Ht2 by (eapply same_run_tracked; [done..|]; intros h; by rewrite Hd2).
    pose proof num_groups_bound as Hb. destruct Hrun as (Hq2 & _).
    apply wp_bind. eapply wp_mono.
    { apply (process_groups_running m ds channel hl); try done.
      - split; [done|]. split; [done|]. by rewrite Hq2.
      - right. intros h Hd. rewrite Hd2 in Hd. pose proof (done_range _ _ _ _ Hok Ht1 Hd). apply Z.div_pos; lia.
      - lia. }
    intros d' w' (Hr' & Hc' & Hi' & Htm').
    assert (time w <= time w2) by (pose proof (write_time DMA_C_INTSTAT_CLR_AUX v w1) as Hwt; fold w2 in Hwt; lia).
    assert (irqs w' < irqs w)%nat as Hlt.
    { unfold irqs in Hi' at 2. rewrite Hq2, Hint2 in Hi'. unfold irqs in Hi1 at 1. rewrite Hint in Hi1.
      cbn [negb] in Hi1. lia. }
    eapply wp_mono; [apply IH; [done | done | lia]|]. intros d3 w3 (? & ? & ? & ? & ?). split_and!; (done || lia).
Qed.

(** ** Queueing *)

(** [xs] has been queued and nothing has completed. *)
Definition queueing (m : Z -> Z) (xs : list desc) w : Prop :=
  e_queue (view w) = xs /\ (forall a, e_mem (view w) a = m a) /\
  (forall h, e_done (view w) h = false) /\ e_int (view w) = false.
Definition piece x : Z * Z * Z := (d_src x, d_dst x, d_len x).

Lemma next_hw_queues m xs src dst len w :
  queueing m xs w -> queued_ok xs -> Z.of_nat (length xs) < nd ->
  wp (dma_arc_hs_next_hw src dst len (transfer_attr c)) w (λ _ w', exists x,
    queueing m (xs ++ [x]) w' /\ queued_ok (xs ++ [x]) /\ piece x = (u32 src, u32 dst, len) /\
    d_handle x = e_last (view w') /\ time w <= time w').
Proof.
  intros (Hq & Hm & Hd & Hi) [Hok Hdup] Hlen. unfold dma_arc_hs_next_hw. repeat wp_step.
  pose proof (write_time DMA_C_SRC_AUX (u32 src) w) as Ht1.
  destruct (write_src (u32 src) w) as ((Hq1 & Hm1 & _) & (Hd1 & Hi1) & Hs1 & _).
  set (w1 := bus_write DMA_C_SRC_AUX _ _) in *. cbv zeta in *.
  pose proof (write_time DMA_C_DST_AUX (u32 dst) w1) as Ht2.
  destruct (write_dst (u32 dst) w1) as ((Hq2 & Hm2 & _) & (Hd2 & Hi2) & Hs2 & Hdst2 & _).
  set (w2 := bus_write DMA_C_DST_AUX _ _) in *. cbv zeta in *.
  pose proof (write_time DMA_C_ATTR_AUX (transfer_attr c) w2) as Ht3.
  destruct (write_attr (transfer_attr c) w2) as ((Hq3 & Hm3 & _) & (Hd3 & Hi3) & Hs3 & Hdst3 & Ha3).
  set (w3 := bus_write DMA_C_ATTR_AUX _ _) in *. cbv zeta in *.
  pose proof (write_time DMA_C_LEN_AUX len w3) as Ht4.
  assert (e_queue (view w3) = xs) as Hq3' by congruence.
  destruct (write_len len w3) as (Hq4 & Hr4 & Hfresh & Hm4 & Hd4 & Hi4); [by rewrite Hq3'|].
  set (w4 := bus_write DMA_C_LEN_AUX _ _) in *. cbv zeta in *. rewrite Hq3' in *.
  match type of Hq4 with _ = xs ++ [?x] => exists x end. split; [|split; [|split; [|split; [reflexivity|lia]]]].
  - split; [exact Hq4|]. split; [intros a; by rewrite Hm4, Hm3, Hm2, Hm1|]. split; [|congruence].
    intros h. destruct (e_done (view w4) h) eqn:E; [|done]. apply Hd4 in E. by rewrite Hd3, Hd2, Hd1, Hd in E.
  - split.
    + apply list.Forall_app. split; [done|]. constructor; [|done]. unfold raises. cbn [d_attr d_handle]. rewrite Ha3.
      unfold transfer_attr. rewrite Hirq. by split.
    + rewrite map_app. apply list.NoDup_app. split; [done|]. split; [|apply list.NoDup_singleton].
      intros h Hh ->%list_elem_of_singleton. apply list_elem_of_fmap in Hh as (x & Ex & Hx). cbn [d_handle] in Ex.
      enough (has_handle xs (e_last (view w4)) = true) by congruence. apply has_handle_elem. by exists x.
  - unfold piece. cbn [d_src d_dst d_len]. congruence.
Qed.

(** Blocks linked in memory. *)
Fixpoint chain (hp : gmap Z dma_block_config) (p : option Z) (bs : list dma_block_config) : Prop :=
  match bs with
  | [] => p = None
  | b :: bs => exists a, p = Some a /\ hp !! a = Some b /\ chain hp (next_block b) bs
  end.
Definition block_piece (b : dma_block_config) : Z * Z * Z :=
  (u32 (source_address b), u32 (dest_address b), block_size b).
Lemma queue_blocks_chain m hp p bs xs w :
  chain hp p bs -> queueing m xs w -> queued_ok xs -> last_handle xs (e_last (view w)) ->
  Z.of_nat (length xs + length bs) <= nd ->
  wp (queue_blocks (length bs) p (transfer_attr c) hp) w (λ _ w', exists ys,
    queueing m (xs ++ ys) w' /\ queued_ok (xs ++ ys) /\ map piece ys = map block_piece bs /\
    last_handle (xs ++ ys) (e_last (view w')) /\ time w <= time w').
Proof.
  revert p xs w. induction bs as [|b bs IH]; intros p xs w Hc Hq Hok Hlast Hlen; cbn [length queue_blocks] in *.
  { apply wp_ret. exists []. rewrite app_nil_r. split_and!; (done || lia). }
  destruct Hc as (a & -> & Ha & Hc). apply wp_bind. eapply wp_lift; [exact Ha|].
  apply wp_bind. eapply wp_mono; [apply (next_hw_queues m xs); (done || lia)|].
  intros _ w1 (x & Hq1 & Hok1 & Hp1 & Hh1 & Ht1).
  eapply wp_mono; [apply (IH (next_block b) (xs ++ [x])); try done|].
  - exists xs, x. by rewrite Hh1.
  - rewrite length_app. cbn. lia.
  - intros _ w2 (ys & Hq2 & Hok2 & Hp2 & Hl2 & Ht2). exists (x :: ys).
    replace (xs ++ x :: ys) with ((xs ++ [x]) ++ ys) by (by rewrite <- app_assoc).
    split_and!; try done; [|lia]. cbn. by rewrite Hp1, Hp2.
Qed.

(** ** The split into blocks *)
Fixpoint pieces (n : nat) (src dst remaining : Z) : list (Z * Z * Z) :=
  match n with
  | O => []
  | S n =>
      let l := if max_block_size c <? remaining then max_block_size c else remaining in
      (src, dst, l) :: pieces n (src + l) (dst + l) (remaining - l)
  end.
Definition blocks_from (i num base : Z) (ps : list (Z * Z * Z)) : list dma_block_config :=
  imap (λ k '(s, t, l), {| source_address := u32 s; dest_address := u32 t; block_size := l;
    next_block := if i + Z.of_nat k <? num - 1 then Some (base + (i + Z.of_nat k) + 1) else None |}) ps.

Definition piece_len (rem : Z) : Z := if max_block_size c <? rem then max_block_size c else rem.
Lemma split_blocks_S n i num src dst rem base hp :
  split_blocks c (S n) i num src dst rem base hp
  = split_blocks c n (i + 1) num (src + piece_len rem) (dst + piece_len rem) (rem - piece_len rem) base
      (<[base + i := {| source_address := u32 src; dest_address := u32 dst; block_size := piece_len rem;
                        next_block := if i <? num - 1 then Some (base + i + 1) else None |}]> hp).
Proof. done. Qed.
Lemma pieces_S n src dst rem :
  pieces (S n) src dst rem
  = (src, dst, piece_len rem) :: pieces n (src + piece_len rem) (dst + piece_len rem) (rem - piece_len rem).
Proof. done. Qed.
Lemma split_blocks_other n i num src dst rem base hp a :
  a < base + i -> split_blocks c n i num src dst rem base hp !! a = hp !! a.
Proof.
  revert i src dst rem hp. induction n as [|n IH]; intros i src dst rem hp Ha; [done|].
  cbn [split_blocks]. cbv zeta. rewrite IH by lia. by rewrite lookup_insert_ne by lia.
Qed.
Lemma split_blocks_chain n i num src dst rem base hp :
  i + Z.of_nat (S n) = num ->
  chain (split_blocks c (S n) i num src dst rem base hp) (Some (base + i))
    (blocks_from i num base (pieces (S n) src dst rem)).
Proof.
  revert i src dst rem hp. induction n as [|n IH]; intros i src dst rem hp Hn.
  - cbn [pieces split_blocks blocks_from imap]. cbv zeta. exists (base + i). split; [done|].
    rewrite lookup_insert_eq. cbn [Z.of_nat]. rewrite Z.add_0_r.
    split; [done|]. cbn. destruct (Z.ltb_spec i (num - 1)); [lia | done].
  - rewrite split_blocks_S, pieces_S. set (l := piece_len rem).
    exists (base + i). split; [done|]. rewrite (split_blocks_other (S n) (i + 1)) by lia.
    rewrite lookup_insert_eq. change (Z.of_nat 0) with 0. rewrite Z.add_0_r. split; [done|].
    cbn [next_block]. destruct (Z.ltb_spec i (num - 1)); [|lia].
    specialize (IH (i + 1) (src + l) (dst + l) (rem - l)
      (<[base + i := {| source_address := u32 src; dest_address := u32 dst; block_size := l;
          next_block := Some (base + i + 1) |}]> hp) ltac:(lia)).
    replace (base + (i + 1)) with (base + i + 1) in IH by lia.
    match type of IH with chain ?h _ ?l1 => match goal with |- chain ?h' _ ?l2 =>
      replace l2 with l1; [exact IH|] end end.
    unfold blocks_from. apply imap_ext. intros k [[s t] l'] _. cbn. f_equal.
    replace (i + Z.of_nat (S k)) with (i + 1 + Z.of_nat k) by lia. done.
Qed.
Lemma blocks_from_pieces i num base ps :
  Forall (λ '(s, t, _), 0 <= s < 2 ^ 32 /\ 0 <= t < 2 ^ 32) ps ->
  map block_piece (blocks_from i num base ps) = ps.
Proof.
  unfold blocks_from. intros Hr. apply list_eq. intros k. rewrite list_lookup_fmap, list_lookup_imap.
  destruct (ps !! k) as [[[s t] l]|] eqn:E; [|done]. cbn. rewrite list.Forall_forall in Hr.
  destruct (Hr (s, t, l)) as [Hs Ht]; [by eapply list_elem_of_lookup_2|]. unfold block_piece. cbn.
  rewrite !(wrap_id 32 s), !(wrap_id 32 t) by (unfold in_width; lia). done.
Qed.

(** The blocks are consecutive pieces of the whole. *)
Lemma pieces_copy n src dst rem off m a :
  0 < max_block_size c -> 0 <= rem -> rem <= Z.of_nat n * max_block_size c -> 0 <= off ->
  src + off + rem <= dst \/ dst + off + rem <= src ->
  foldl (λ m '(s, t, l), copy s t l m) (copy src dst off m) (pieces n (src + off) (dst + off) rem) a
  = copy src dst (off + rem) m a.
Proof.
  intros Hb. revert rem off a. induction n as [|n IH]; intros rem off a Hr Hn Ho Hd; cbn [pieces foldl].
  { assert (rem = 0) as -> by lia. by rewrite Z.add_0_r. }
  cbv zeta. set (l := if _ <? _ then _ else _).
  assert (0 <= l <= rem /\ rem - l <= Z.of_nat n * max_block_size c) as [Hl Hn']
    by (unfold l; destruct (Z.ltb_spec (max_block_size c) rem); nia).
  replace (src + off + l) with (src + (off + l)) by lia. replace (dst + off + l) with (dst + (off + l)) by lia.
  transitivity (foldl (λ m '(s, t, l), copy s t l m) (copy src dst (off + l) m)
    (pieces n (src + (off + l)) (dst + (off + l)) (rem - l)) a).
  - assert (forall ps m1 m2 y, (forall z, m1 z = m2 z) ->
      foldl (λ m '(s, t, l), copy s t l m) m1 ps y = foldl (λ m '(s, t, l), copy s t l m) m2 ps y) as Hext.
    { intros ps. induction ps as [|[[s t] l'] ps IH']; intros m1 m2 y Hm; [apply Hm|]. cbn. apply IH'.
      intros z. by apply copy_ext. }
    apply Hext. intros z. apply copy_append; lia.
  - rewrite IH by lia. f_equal. lia.
Qed.
Lemma performed_pieces ds m a :
  performed ds m a = foldl (λ m '(s, t, l), copy s t l m) m (map piece ds) a.
Proof. revert m. induction ds as [|x ds IH]; intros m; [done|]. cbn. apply IH. Qed.
Lemma pieces_range n src dst rem :
  0 < max_block_size c -> 0 < rem -> (Z.of_nat n - 1) * max_block_size c < rem -> 0 <= src -> 0 <= dst ->
  src + rem <= 2 ^ 32 -> dst + rem <= 2 ^ 32 ->
  Forall (λ '(s, t, _), 0 <= s < 2 ^ 32 /\ 0 <= t < 2 ^ 32) (pieces n src dst rem).
Proof.
  intros Hb. revert src dst rem. induction n as [|n IH]; intros src dst rem Hr Hn Hs Ht Hs' Ht'; cbn [pieces]; [done|].
  cbv zeta. set (l := if _ <? _ then _ else _).
  constructor; [lia|]. destruct n as [|n]; [done|].
  assert (l = max_block_size c) as -> by (unfold l; destruct (Z.ltb_spec (max_block_size c) rem); nia).
  apply IH; nia.
Qed.
Lemma pieces_length n src dst rem : length (pieces n src dst rem) = n.
Proof. revert src dst rem. induction n as [|n IH]; intros; cbn [pieces]; [done|]. cbv zeta. cbn. by rewrite IH. Qed.

(** ** The wait *)
Lemma stop_idle channel d w :
  channel < channels c -> idle_at channel d ->
  wp (dma_arc_hs_stop c channel d) w (λ r w', r = (d, 0) /\ w' = w).
Proof.
  intros Hc (ch & Hg & Hs). unfold dma_arc_hs_stop. rewrite (proj2 (Z.leb_gt _ _)) by lia.
  apply wp_bind. eapply wp_lift; [exact Hg|]. rewrite Hs.
  rewrite (decide_False (P := ARC_DMA_IDLE = ARC_DMA_FREE)), (decide_False (P := ARC_DMA_IDLE = ARC_DMA_ACTIVE)) by done.
  by apply wp_ret.
Qed.
Lemma stop_active channel hl d w :
  channel < channels c -> waiting channel hl d -> 0 <= hl < nd ->
  wp (dma_arc_hs_stop c channel d) w (λ r w', waiting channel hl (fst r) /\ idle_at channel (fst r) /\
    forall a, e_mem (view w') a = e_mem (view w) a).
Proof.
  intros Hc (Hlen & Hact & ch & Hg & Hh & Hs & Hs1 & Hs2 & Hcb) Hr. unfold dma_arc_hs_stop.
  rewrite (proj2 (Z.leb_gt _ _)) by lia. apply wp_bind. eapply wp_lift; [exact Hg|].
  rewrite decide_False by (destruct Hs as [->| ->]; done). pose proof (zget_Some_range _ _ _ Hg) as Hrange.
  case_decide as Ha.
  - unfold dma_arc_hs_clear_done_hw. repeat wp_step. cbn [fst].
    destruct (write_done_clear (DMA_ARC_HS_GET_GROUP (handle ch)) (DMA_ARC_HS_BITMASK (handle ch)) w) as ((_ & Hm & _) & _).
    { unfold DMA_ARC_HS_GET_GROUP. rewrite Z.shiftr_div_pow2, Hh by lia. change (2 ^ 5) with 32.
      split; [apply Z.div_pos; lia | apply Z.div_lt_upper_bound; lia]. }
    split; [|split; [|done]].
    + split; [cbn [chans set_chan]; by rewrite length_insert|]. split.
      * intros j ch' Hj Ha'. rewrite zget_set in Hj by done. destruct (Z.eqb_spec j channel); [done|]. by eapply Hact.
      * exists (with_state ch ARC_DMA_IDLE). rewrite zget_set, Z.eqb_refl by done. split_and!; try done. by right.
    + exists (with_state ch ARC_DMA_IDLE). by rewrite zget_set, Z.eqb_refl by done.
  - apply wp_ret. cbn [fst]. split; [|split; [|done]].
    + split; [done|]. split; [done|]. exists ch. split_and!; done.
    + exists ch. destruct Hs; done.
Qed.

(** At the end of the wait: everything copied and the engine quiet, or the time is up
    and part of it copied. *)
Definition outcome (m : Z -> Z) (ds : list desc) (channel hl : Z) (r : arc_dma_data * Z) w : Prop :=
  waiting channel hl (fst r) /\ idle_at channel (fst r) /\
  ((snd r = 0 /\ quiet w /\ forall a, e_mem (view w) a = performed ds m a) \/
   (snd r = - ETIMEDOUT /\ exists xs ys, ds = xs ++ ys /\ forall a, e_mem (view w) a = performed xs m a)).

Lemma transfer_wait_spec m ds channel hl end_time isr_fuel fuel d w :
  queued_ok ds -> last_handle ds hl -> channel < channels c -> running m ds channel hl d w ->
  cleared (num_groups c) w -> (irqs w < isr_fuel)%nat ->
  (0 < fuel)%nat -> (end_time * 50000 - time w <= (Z.of_nat fuel - 1) * 5000) ->
  wp (transfer_wait c fuel isr_fuel channel end_time d) w (outcome m ds channel hl).
Proof.
  intros Hok Hlast Hchan. revert d w. induction fuel as [|fuel IH]; intros d w Hr Hc Hirqs Hpos Hfuel; [lia|].
  assert (0 <= hl < nd) as Hhl.
  { destruct Hlast as (ys & y & -> & <-). destruct Hok as [Hok _]. apply list.Forall_app in Hok as [_ Hok].
    apply list.Forall_cons in Hok as [[_ ?] _]. done. }
  cbn [transfer_wait]. rewrite Hirq. apply wp_bind. eapply wp_mono; [by apply (isr_running m ds channel hl)|].
  intros d1 w1 ((Ht1 & Hw1 & Hq1) & Hint1 & Hdone1 & Hirq1 & Htm1).
  pose proof Hw1 as (_ & _ & ch & Hg & Hh & Hs & _). unfold dma_arc_hs_get_status.
  rewrite (proj2 (Z.leb_gt _ _)) by lia. apply wp_bind, wp_bind. eapply wp_lift; [exact Hg|].
  destruct Hs as [Hs|Hs]; rewrite Hs.
  - rewrite (decide_False (P := ARC_DMA_ACTIVE = ARC_DMA_FREE)), (decide_True (P := ARC_DMA_ACTIVE = ARC_DMA_ACTIVE)) by done.
    rewrite Hirq. apply wp_ret. cbn [busy busy_status negb andb Z.eqb]. apply wp_bind, wp_uptime. intros t w2 E.
    destruct (uptime_progress _ _ _ E) as (Hp2 & Htm2 & ->). clear E.
    assert (tracked m ds w2) as Ht2 by (eapply tracked_progress; [exact Ht1 | exact Hp2]).
    destruct (Z.leb_spec end_time (time w1 / 50000)) as [Hexp|Hexp].
    + apply wp_bind. eapply wp_mono; [by apply (stop_active channel hl)|]. intros [d3 rc] w3 (Hw3 & Hi3 & Hm3).
      apply wp_ret. split; [done|]. split; [done|]. right. split; [done|].
      destruct Ht2 as (xs & -> & Hm2 & _). exists xs, (e_queue (view w2)). split; [done|]. intros a. by rewrite Hm3.
    + apply wp_bind, wp_wait. destruct (wait_progress (100 * 50) w2) as [Hp3 Htm3]. set (w3 := bus_wait _ _) in *.
      assert (time w1 < end_time * 50000).
      { pose proof (Z.div_mod (time w1) 50000 ltac:(lia)). pose proof (Z.mod_pos_bound (time w1) 50000 ltac:(lia)). lia. }
      apply IH.
      * split; [eapply tracked_progress; [exact Ht2 | exact Hp3]|]. split; [done|].
        intros (ch' & Hg' & Hs'). rewrite Hg in Hg'. injection Hg' as <-. congruence.
      * eapply cleared_progress; [exact Hok | exact Ht2 | | exact Hp3].
        eapply cleared_progress; [exact Hok | exact Ht1 | | exact Hp2]. right. intros h. by rewrite Hdone1.
      * pose proof (irqs_progress _ _ Hp2). pose proof (irqs_progress _ _ Hp3). lia.
      * lia.
      * lia.
  - rewrite (decide_False (P := ARC_DMA_IDLE = ARC_DMA_FREE)), (decide_False (P := ARC_DMA_IDLE = ARC_DMA_ACTIVE)) by done.
    apply wp_ret. cbn [busy idle_status negb andb Z.eqb].
    assert (idle_at channel d1) as Hidle by by exists ch.
    apply wp_bind. eapply wp_mono; [by apply stop_idle|]. intros r w2 [-> ->]. apply wp_ret.
    split; [done|]. split; [done|]. left. split; [done|]. pose proof (Hq1 Hidle) as Hq. split; [by split_and!|].
    destruct Ht1 as (xs & -> & Hm & _). rewrite Hq, app_nil_r. done.
Qed.

(** A prefix of the pieces copies a prefix. *)
Lemma pieces_prefix n src dst rem off m ps qs :
  0 < max_block_size c -> 0 <= rem -> 0 <= off -> src + off + rem <= dst \/ dst + off + rem <= src ->
  pieces n (src + off) (dst + off) rem = ps ++ qs ->
  exists o, off <= o <= off + rem /\
    forall a, foldl (λ m '(s, t, l), copy s t l m) (copy src dst off m) ps a = copy src dst o m a.
Proof.
  intros Hb. revert rem off ps. induction n as [|n IH]; intros rem off ps Hr Ho Hd E.
  - destruct ps; [|done]. exists off. split; [lia | done].
  - destruct ps as [|p ps]; [exists off; split; [lia | done]|]. rewrite pieces_S in E. cbn [app] in E.
    injection E as <- E. set (l := piece_len rem) in *.
    assert (0 <= l <= rem) as Hl by (unfold l, piece_len; destruct (Z.ltb_spec (max_block_size c) rem); lia).
    rewrite <- !Z.add_assoc in E. destruct (IH (rem - l) (off + l) ps ltac:(lia) ltac:(lia) ltac:(lia) E) as (o & Ho' & Hc).
    exists o. split; [lia|]. intros a. rewrite <- Hc. cbn [foldl].
    assert (forall ps m1 m2 y, (forall z, m1 z = m2 z) ->
      foldl (λ m '(s, t, l), copy s t l m) m1 ps y = foldl (λ m '(s, t, l), copy s t l m) m2 ps y) as Hext.
    { intros ps'. induction ps' as [|[[s t] l'] ps' IH']; intros m1 m2 y Hm; [apply Hm|]. cbn. apply IH'.
      intros z. by apply copy_ext. }
    apply Hext. intros z. apply copy_append; lia.
Qed.

(** No channel is active. *)
Definition at_rest d : Prop :=
  Z.of_nat (length (chans d)) = channels c /\
  forall j ch, zget (chans d) j = Some ch -> state ch <> ARC_DMA_ACTIVE.
Definition transfer_args (channel src dst len : Z) : Prop :=
  device_ready c = true /\ 0 <= channel < channels c /\ 0 < len /\ 0 < max_block_size c /\
  len <= nd * max_block_size c /\ len + max_block_size c <= 2 ^ 32 /\
  Z.land src (u32 (buffer_address_alignment c - 1)) = 0 /\
  Z.land dst (u32 (buffer_address_alignment c - 1)) = 0 /\
  0 <= src /\ 0 <= dst /\ src + len <= 2 ^ 32 /\ dst + len <= 2 ^ 32 /\
  (src + len <= dst \/ dst + len <= src).

Lemma waiting_at_rest channel hl d : waiting channel hl d -> idle_at channel d -> at_rest d.
Proof.
  intros (Hl & Hact & _) (ch & Hg & Hs). split; [done|]. intros j ch' Hj Ha.
  assert (j = channel) as -> by by eapply Hact. rewrite Hg in Hj. injection Hj as <-. congruence.
Qed.
Lemma configured channel cfg p b d :
  at_rest d -> 0 <= channel < channels c -> block_count cfg <> 0 -> block_count cfg <= descriptors c ->
  channel_direction cfg = MEMORY_TO_MEMORY -> head_block cfg = Some p -> heap d !! p = Some b ->
  exists d', dma_arc_hs_config c channel cfg d = Some (d', 0) /\ at_rest d' /\ heap d' = heap d /\
    exists ch, zget (chans d') channel = Some ch /\ state ch = ARC_DMA_PREPARED /\ config ch = cfg /\
      block_config ch = Some b /\ callback ch = dma_callback cfg.
Proof.
  intros [Hl Hact] Hc Hn Hd Hdir Hp Hb. unfold dma_arc_hs_config.
  rewrite (proj2 (Z.leb_gt _ _)), (proj2 (Z.eqb_neq _ _)), (proj2 (Z.ltb_ge _ _)), Hdir, Hp by (done || lia).
  cbn [negb Z.eqb MEMORY_TO_MEMORY]. destruct (zget_is_Some (chans d) channel) as [ch Hg]; [lia|]. rewrite Hg. cbn [mbind option_bind].
  set (d1 := if decide (state ch = ARC_DMA_FREE) then set_bit d channel else d). cbv zeta.
  assert (chans d1 = chans d /\ heap d1 = heap d) as [Hch1 Hh1] by (unfold d1; by case_decide).
  rewrite Hh1, Hb. cbn [mbind option_bind]. eexists. split; [reflexivity|].
  assert (0 <= channel < Z.of_nat (length (chans d1))) as Hr by (rewrite Hch1; lia).
  split; [|split; [exact Hh1|]].
  - split; [cbn [chans set_chan]; by rewrite length_insert, Hch1|]. intros j ch' Hj. rewrite zget_set, Hch1 in Hj by done.
    destruct (Z.eqb_spec j channel); [injection Hj as <-; done | by eapply Hact].
  - eexists. rewrite zget_set, Z.eqb_refl by done. split; [reflexivity|]. done.
Qed.

Lemma next_hw_tail dma_ch src dst len attr :
  dma_arc_hs_start_hw (W := W) dma_ch src dst len attr
  = (_ ← WriteReg DMA_C_CHAN_AUX dma_ch; dma_arc_hs_next_hw src dst len attr).
Proof. done. Qed.
Lemma quiet_queueing w : quiet w -> queueing (e_mem (view w)) [] w.
Proof. intros (? & ? & ?). by split_and!. Qed.

(** Starting a configured channel queues all its blocks. *)
Lemma start_queues fuel channel d ch b bs w :
  at_rest d -> 0 <= channel < channels c -> (0 < fuel)%nat -> quiet w ->
  zget (chans d) channel = Some ch -> state ch = ARC_DMA_PREPARED ->
  source_chaining_en (config ch) = false -> dest_chaining_en (config ch) = false -> callback ch = None ->
  block_config ch = Some b -> chain (heap d) (next_block b) bs ->
  block_count (config ch) = Z.of_nat (S (length bs)) -> Z.of_nat (S (length bs)) <= nd ->
  wp (dma_arc_hs_start c fuel channel d) w (λ r w', snd r = 0 /\ time w <= time w' /\ exists ds hl,
    map piece ds = map block_piece (b :: bs) /\ queued_ok ds /\ last_handle ds hl /\
    running (e_mem (view w)) ds channel hl (fst r) w' /\ cleared (num_groups c) w' /\
    (irqs w' <= 2 * S (length bs))%nat).
Proof.
  intros [Hl Hact] Hc Hf Hq Hg Hs Hs1 Hs2 Hcb Hb Hchain Hn Hnd'. unfold dma_arc_hs_start.
  rewrite (proj2 (Z.leb_gt _ _)) by lia. apply wp_bind.
  assert (links_ok fuel channel d = Some true) as Hlinks.
  { destruct fuel as [|fuel]; [lia|]. cbn [links_ok]. rewrite Hg. cbn [mbind option_bind]. rewrite Hs.
    rewrite decide_False by done. by rewrite Hs1, Hs2. }
  eapply wp_lift; [exact Hlinks|]. cbn [negb]. apply wp_bind. eapply wp_lift; [exact Hg|]. rewrite Hs.
  rewrite decide_False by done. rewrite Hb. cbv zeta. apply wp_bind. rewrite next_hw_tail.
  apply wp_bind, wp_write. pose proof (write_time DMA_C_CHAN_AUX channel w) as Ht0.
  destruct (write_chan channel w) as ((Hq0 & Hm0 & _) & _ & (Hd0 & Hi0)). set (w0 := bus_write _ _ _) in *. cbv zeta in *.
  assert (queueing (e_mem (view w)) [] w0) as Hq0'.
  { destruct Hq as (Hq & Hd & Hi). split_and!; [congruence | done | intros h; by rewrite Hd0 | congruence]. }
  eapply wp_mono; [apply (next_hw_queues _ [] _ _ _ w0 Hq0'); [split; constructor | cbn; lia]|].
  intros _ w1 (x & Hq1 & Hok1 & Hp1 & Hh1 & Ht1). cbn [app] in *.
  apply wp_bind. rewrite Hn. replace (Z.to_nat (Z.of_nat (S (length bs)) - 1)) with (length bs) by lia.
  eapply wp_mono; [apply (queue_blocks_chain _ _ _ _ [x] w1 Hchain Hq1 Hok1)|].
  { exists [], x. by rewrite Hh1. }
  { cbn [length]. lia. }
  intros _ w2 (ys & (Hq2 & Hm2 & Hd2 & Hi2) & Hok2 & Hp2 & Hl2 & Ht2). cbn [app] in *.
  apply wp_bind, wp_read. intros h w3 E. destruct (read_progress _ _ _ _ E) as [Hp3 Htm3].
  pose proof (read_handle _ _ _ E) as ->. rewrite Hirq. apply wp_ret. cbn [fst snd].
  split; [done|]. split; [lia|]. exists (x :: ys), (e_last (view w2)).
  assert (tracked (e_mem (view w)) (x :: ys) w2) as Ht.
  { exists []. split_and!; [by rewrite Hq2 | done | intros h; by rewrite Hd2]. }
  assert (0 <= channel < Z.of_nat (length (chans d))) as Hr by lia.
  assert (forall j, zget (chans (note_start (set_chan d channel (activated ch (e_last (view w2)))) channel)) j =
    if j =? channel then Some (activated ch (e_last (view w2))) else zget (chans d) j) as Hz
    by (intros j; by apply zget_set).
  split; [cbn; by rewrite Hp1, Hp2|]. split; [done|]. split; [done|]. split; [|split].
  - split; [eapply tracked_progress; [exact Ht | exact Hp3]|]. split.
    + split; [cbn [chans note_start set_chan]; by rewrite length_insert|]. split.
      * intros j ch' Hj Ha. rewrite Hz in Hj. destruct (Z.eqb_spec j channel); [done|]. by apply Hact in Hj.
      * exists (activated ch (e_last (view w2))). rewrite Hz, Z.eqb_refl. split_and!; try done. by left.
    + intros (ch' & Hg' & Hs'). rewrite Hz, Z.eqb_refl in Hg'. injection Hg' as <-. done.
  - eapply cleared_progress; [exact Hok2 | exact Ht | | exact Hp3]. right. intros h. by rewrite Hd2.
  - pose proof (irqs_progress _ _ Hp3) as Hir. unfold irqs in Hir at 2. rewrite Hq2, Hi2 in Hir. cbn [length] in Hir.
    assert (length ys = length bs) by (rewrite <- (length_map piece ys), Hp2, length_map; done). lia.
Qed.

Lemma num_blocks_bounds len :
  0 < len -> 0 < max_block_size c -> len <= nd * max_block_size c ->
  let nb := (len + max_block_size c - 1) / max_block_size c in
  1 <= nb <= nd /\ (nb - 1) * max_block_size c < len <= nb * max_block_size c.
Proof.
  intros H1 H2 H3 nb. pose proof (Z.div_mod (len + max_block_size c - 1) (max_block_size c) ltac:(lia)) as Hm.
  pose proof (Z.mod_pos_bound (len + max_block_size c - 1) (max_block_size c) ltac:(lia)). fold nb in Hm. nia.
Qed.

Lemma transfer_ok fuel isr_fuel channel src dst len timeout d w :
  at_rest d -> quiet w -> transfer_args channel src dst len -> 0 <= timeout ->
  timeout * 10 + 1 < Z.of_nat fuel -> 2 * nd + 1 < Z.of_nat isr_fuel ->
  wp (dma_arc_hs_transfer c fuel isr_fuel channel src dst len timeout d) w (λ r w', at_rest (fst r) /\
    ((snd r = 0 /\ quiet w' /\ forall a, e_mem (view w') a = copy src dst len (e_mem (view w)) a) \/
     (snd r = - ETIMEDOUT /\ exists o, 0 <= o <= len /\
        forall a, e_mem (view w') a = copy src dst o (e_mem (view w)) a))).
Proof.
  intros Hrest Hquiet (Hdev & Hc & Hlen & Hmax & Hmaxlen & Hov & Hsa & Hda & Hs & Hd & Hs' & Hd' & Hdisj) Hto Hfuel Hisr.
  destruct (num_blocks_bounds len) as [Hnb Hnb']; [lia..|]. unfold dma_arc_hs_transfer.
  rewrite Hdev. cbn [negb]. rewrite (proj2 (Z.eqb_neq len 0)) by lia. cbv zeta. rewrite Hsa, Hda. cbn [Z.eqb negb orb].
  rewrite (proj2 (Z.leb_gt (channels c) channel)) by lia. apply wp_bind.
  eapply wp_lift; [rewrite (proj2 (Z.eqb_neq _ _)) by lia; reflexivity|].
  rewrite (wrap_id 32 (len + max_block_size c - 1)) by (unfold in_width; lia).
  set (nb := (len + max_block_size c - 1) / max_block_size c) in *.
  rewrite (proj2 (Z.ltb_ge _ _)) by lia.
  destruct (Z.to_nat nb) as [|n] eqn:En; [lia|]. assert (nb = Z.of_nat (S n)) as Enb by lia.
  set (base := transfer_blocks d). set (hp := split_blocks c (S n) 0 nb src dst len base (heap d)).
  pose proof (split_blocks_chain n 0 nb src dst len base (heap d) ltac:(lia)) as Hchain. fold hp in Hchain.
  rewrite Z.add_0_r in Hchain.
  assert (map block_piece (blocks_from 0 nb base (pieces (S n) src dst len)) = pieces (S n) src dst len) as Hpieces.
  { apply blocks_from_pieces, pieces_range; lia. }
  assert (length (blocks_from 0 nb base (pieces (S n) src dst len)) = S n) as Hblen.
  { unfold blocks_from. by rewrite length_imap, pieces_length. }
  destruct (blocks_from 0 nb base (pieces (S n) src dst len)) as [|b bs] eqn:Eb; [done|].
  destruct Hchain as (p & [= <-] & Hb & Hchain). cbn [length] in Hblen. injection Hblen as Hblen.
  set (cfg := {| channel_direction := MEMORY_TO_MEMORY; block_count := nb |}).
  destruct (configured channel cfg base b (with_heap d hp)) as (d1 & E1 & Hrest1 & Hh1 & ch & Hg & Hst & Hcfg & Hbc & Hcb);
    [done | done | cbn; lia | cbn; lia | done | done | exact Hb|].
  apply wp_bind. eapply wp_lift; [exact E1|]. change (0 <? 0) with false. cbv iota.
  apply wp_bind. eapply wp_mono.
  { apply (start_queues fuel channel d1 ch b bs); try done; [lia | by rewrite Hcfg | by rewrite Hcfg | | | ].
    - rewrite Hh1. exact Hchain.
    - rewrite Hcfg. cbn. lia.
    - lia. }
  intros [d2 rc] w2 (Hrc & Htm & ds & hl & Hp & Hok & Hlast & Hrun & Hcl & Hir). cbn [fst snd] in *. subst rc.
  change (0 <? 0) with false. cbv iota. apply wp_bind, wp_uptime. intros t w3 E.
  destruct (uptime_progress _ _ _ E) as (Hp3 & Htm3 & ->). destruct Hrun as (Ht & Hw & Hqe).
  eapply wp_mono.
  { apply (transfer_wait_spec (e_mem (view w)) ds channel hl); try done; [lia | | | | lia |].
    - split; [eapply tracked_progress; [exact Ht | exact Hp3]|]. split; [done|].
      intros Hi. eapply queue_progress; [by apply Hqe | exact Hp3].
    - eapply cleared_progress; [exact Hok | exact Ht | exact Hcl | exact Hp3].
    - pose proof (irqs_progress _ _ Hp3). lia.
    - pose proof (Z.mul_div_le (time w2) 50000 ltac:(lia)). nia. }
  intros [d4 rc] w4 (Hw4 & Hi4 & Hout). cbn [fst snd] in *. split; [by eapply waiting_at_rest|].
  rewrite Hpieces in Hp.
  assert (forall a, copy src dst 0 (e_mem (view w)) a = e_mem (view w) a) as Hcopy0.
  { intros a. unfold copy. destruct (Z.leb_spec dst a), (Z.ltb_spec a (dst + 0)); cbn [andb]; (done || lia). }
  destruct Hout as [(-> & Hqt & Hm)|(-> & xs & ys & Hxy & Hm)].
  - left. split; [done|]. split; [done|]. intros a. rewrite Hm.
    rewrite (performed_ext ds _ (copy src dst 0 (e_mem (view w)))) by (intros y; by rewrite Hcopy0).
    rewrite performed_pieces, Hp. pose proof (pieces_copy (S n) src dst len 0 (e_mem (view w)) a) as Hpc.
    rewrite !Z.add_0_r, Z.add_0_l in Hpc. apply Hpc; lia.
  - right. split; [done|]. rewrite Hxy, map_app in Hp.
    destruct (pieces_prefix (S n) src dst len 0 (e_mem (view w)) (map piece xs) (map piece ys)) as (o & Ho & Hco);
      [lia | lia | lia | lia | by rewrite !Z.add_0_r|].
    exists o. split; [lia|]. intros a. rewrite Hm.
    rewrite (performed_ext xs _ (copy src dst 0 (e_mem (view w)))) by (intros y; by rewrite Hcopy0).
    rewrite performed_pieces. apply Hco.
Qed.
End transfer.

(** * Call-backs and channels, whatever the hardware does *)
Inductive dma_op :=
| OpConfig (channel : Z) (cfg : dma_config)
| OpStart (channel : Z)
| OpStop (channel : Z)
| OpStatus (channel : Z)
| OpIsr
| OpWork.
Definition run_dma_op {W} `{RegBus W} c (fuel : nat) (op : dma_op) d : Dev W arc_dma_data :=
  match op with
  | OpConfig channel cfg => '(d, _) ← lift (dma_arc_hs_config c channel cfg d); mret d
  | OpStart channel => '(d, _) ← dma_arc_hs_start c fuel channel d; mret d
  | OpStop channel => '(d, _) ← dma_arc_hs_stop c channel d; mret d
  | OpStatus channel => '(d, _, _) ← dma_arc_hs_get_status c channel d; mret d
  | OpIsr => dma_arc_hs_isr c fuel d
  | OpWork => dma_arc_hs_completion_work_handler c d
  end.
Fixpoint run_dma_ops {W} `{RegBus W} c (fuel : nat) (ops : list dma_op) d : Dev W arc_dma_data :=
  match ops with
  | [] => mret d
  | op :: ops => d ← run_dma_op c fuel op d; run_dma_ops c fuel ops d
  end.

Definition calls (d : arc_dma_data) (j : Z) : nat := length (filter (λ p, p.2 = j) (called d)).
Definition starts (d : arc_dma_data) (j : Z) : nat := length (filter (λ k, k = j) (started d)).
Definition active ch : nat := if decide (state ch = ARC_DMA_ACTIVE) then 1 else 0.
(** A channel has its bit in the bitmap iff it is not free, and has been called back at
    most once for every time it was started and is not active any more. *)
Definition dma_inv c d : Prop :=
  Z.of_nat (length (chans d)) = channels c /\
  forall j ch, zget (chans d) j = Some ch ->
    (Z.testbit (channels_atomic d) j = negb (bool_decide (state ch = ARC_DMA_FREE))) /\
    (calls d j + active ch <= starts d j)%nat.

Lemma active_not ch : state ch <> ARC_DMA_ACTIVE -> active ch = 0%nat.
Proof. intros Hs. unfold active. by rewrite decide_False by done. Qed.

(** What holds of the result if the program returns. *)
Definition post {W A} (m : Dev W A) (Q : A -> Prop) : Prop := forall w y w', m w = Some (y, w') -> Q y.

Section invariant.
Context {W : Type} `{RegBus W}.
Variable (c : arc_dma_config).
Lemma post_ret {A} (y : A) (Q : A -> Prop) : Q y -> post (mret y : Dev W A) Q.
Proof. intros HQ w y' w' [= <- <-]. done. Qed.
Lemma post_bind {A B} (m : Dev W A) (f : A -> Dev W B) (P : A -> Prop) (Q : B -> Prop) :
  post m P -> (forall y, P y -> post (f y) Q) -> post (m ≫= f) Q.
Proof.
  intros Hm Hf w y w'. unfold mbind, Dev_bind. destruct (m w) as [[y1 w1]|] eqn:E; [|done].
  intros E2. eapply Hf; [by eapply Hm | exact E2].
Qed.
Lemma post_any {A B} (m : Dev W A) (f : A -> Dev W B) (Q : B -> Prop) :
  (forall y, post (f y) Q) -> post (m ≫= f) Q.
Proof. intros Hf. apply (post_bind _ _ (λ _, True)); [done | auto]. Qed.
Lemma post_lift {A B} (o : option A) (f : A -> Dev W B) (Q : B -> Prop) :
  (forall y, o = Some y -> post (f y) Q) -> post (lift o ≫= f) Q.
Proof.
  intros Hf w y w'. unfold mbind, Dev_bind, lift. destruct o as [y1|]; [|done]. by apply Hf.
Qed.

(** Replacing a channel. *)
Lemma inv_set_chan d n ch ch' :
  dma_inv c d -> zget (chans d) n = Some ch ->
  (state ch' = ARC_DMA_FREE <-> state ch = ARC_DMA_FREE) -> (active ch' <= active ch)%nat ->
  dma_inv c (set_chan d n ch').
Proof.
  intros [Hl Hi] Hg Hfree Hact. pose proof (zget_Some_range _ _ _ Hg) as Hr. split.
  - cbn [chans set_chan]. by rewrite length_insert.
  - intros j ch1 Hj. rewrite zget_set in Hj by done.
    destruct (Z.eqb_spec j n) as [->|]; [injection Hj as <-|by apply Hi].
    destruct (Hi n ch Hg) as [Hb Hc]. split; [|unfold calls, starts in *; cbn [called started set_chan]; lia].
    cbn [channels_atomic set_chan]. rewrite Hb. f_equal. by apply bool_decide_ext.
Qed.
Lemma inv_activate d n ch h :
  dma_inv c d -> zget (chans d) n = Some ch -> state ch <> ARC_DMA_FREE -> state ch <> ARC_DMA_ACTIVE ->
  dma_inv c (note_start (set_chan d n (activated ch h)) n).
Proof.
  intros [Hl Hi] Hg Hf Ha. pose proof (zget_Some_range _ _ _ Hg) as Hr. split.
  - cbn [chans note_start set_chan]. by rewrite length_insert.
  - intros j ch1 Hj. change (zget (chans (set_chan d n (activated ch h))) j = Some ch1) in Hj.
    rewrite zget_set in Hj by done. unfold starts, calls. cbn [channels_atomic called started note_start set_chan].
    rewrite list.filter_app, length_app. destruct (Z.eqb_spec j n) as [->|Hne].
    + injection Hj as <-. destruct (Hi n ch Hg) as [Hb Hc]. rewrite Hb. unfold calls, starts, active in *. cbn [state activated].
      rewrite decide_True by done. rewrite decide_False in Hc by done. rewrite filter_cons_True by done. cbn [length].
      split; [|lia]. by rewrite bool_decide_false, bool_decide_false by done.
    + destruct (Hi j ch1 Hj) as [Hb Hc]. split; [done|]. unfold calls, starts in Hc. lia.
Qed.
Lemma inv_complete d n ch :
  dma_inv c d -> zget (chans d) n = Some ch -> state ch = ARC_DMA_ACTIVE ->
  dma_inv c (note_call (set_chan d n (with_state ch ARC_DMA_IDLE)) (callback ch) n).
Proof.
  intros Hinv Hg Ha. pose proof (zget_Some_range _ _ _ Hg) as Hr.
  assert (dma_inv c (set_chan d n (with_state ch ARC_DMA_IDLE))) as Hset.
  { eapply inv_set_chan; [done | exact Hg | rewrite Ha; done |]. rewrite active_not by done. lia. }
  destruct (callback ch) as [f|]; [|done]. destruct Hinv as [_ Hi]. destruct Hset as [Hl Hs].
  cbn [note_call]. split; [exact Hl|]. intros j ch1 Hj.
  change (zget (chans (set_chan d n (with_state ch ARC_DMA_IDLE))) j = Some ch1) in Hj.
  destruct (Hs j ch1 Hj) as [Hb Hc]. split; [exact Hb|]. unfold calls, starts in *.
  cbn [called started]. rewrite list.filter_app, length_app.
  destruct (Z.eqb_spec j n) as [->|Hne].
  - rewrite filter_cons_True by done. cbn [length]. rewrite zget_set, Z.eqb_refl in Hj by done. injection Hj as <-.
    destruct (Hi n ch Hg) as [_ Hc']. unfold active, calls, starts in *. rewrite Ha, decide_True in Hc' by done.
    rewrite decide_False by done. cbn [started set_chan called]. rewrite filter_nil. cbn [length]. lia.
  - rewrite filter_cons_False, filter_nil by (cbn; congruence). cbn [length]. lia.
Qed.

Lemma trigger_inv tr n d : dma_inv c d -> post (dma_arc_hs_trigger_linked_channel (W := W) c tr n d) (dma_inv c).
Proof.
  intros Hi. unfold dma_arc_hs_trigger_linked_channel. apply post_lift. intros ch Hg.
  case_decide as Hs; [|by apply post_ret]. apply post_lift. intros b _. apply post_lift. intros sz _.
  apply post_any. intros _. apply post_any. intros h. apply post_ret. apply inv_activate; congruence.
Qed.
Lemma complete_inv n ch d :
  dma_inv c d -> zget (chans d) n = Some ch -> state ch = ARC_DMA_ACTIVE ->
  post (complete (W := W) c n ch d) (dma_inv c).
Proof.
  intros Hi Hg Ha. unfold complete. cbv zeta. pose proof (inv_complete _ _ _ Hi Hg Ha).
  case_match; [by apply trigger_inv | by apply post_ret].
Qed.
Lemma config_inv n cfg d d' r :
  dma_inv c d -> dma_arc_hs_config c n cfg d = Some (d', r) -> dma_inv c d'.
Proof.
  intros Hi. unfold dma_arc_hs_config. repeat (case_match; [by intros [= <- <-]|]).
  destruct (head_block cfg) as [p|]; [|by intros [= <- <-]].
  destruct (zget (chans d) n) as [ch|] eqn:Hg; [|done]. cbn [mbind option_bind]. cbv zeta.
  set (d1 := if decide (state ch = ARC_DMA_FREE) then set_bit d n else d).
  destruct (heap d1 !! p) as [b|]; [|done]. cbn [mbind option_bind]. intros [= <- <-].
  pose proof (zget_Some_range _ _ _ Hg) as Hr. destruct Hi as [Hl Hi].
  assert (chans d1 = chans d /\ called d1 = called d /\ started d1 = started d) as (Hch & Hca & Hst)
    by (unfold d1; by case_decide).
  split; [cbn [chans set_chan]; by rewrite length_insert, Hch|].
  intros j ch1 Hj. rewrite zget_set, Hch in Hj by (rewrite Hch; done). unfold calls, starts.
  cbn [called started channels_atomic set_chan]. rewrite Hca, Hst.
  destruct (Z.eqb_spec j n) as [->|Hne].
  - injection Hj as <-. destruct (Hi n ch Hg) as [Hb Hc]. unfold active, calls, starts in *. cbn [state].
    rewrite (decide_False (P := ARC_DMA_PREPARED = ARC_DMA_ACTIVE)) by done. split; [|lia].
    unfold d1. destruct (decide (state ch = ARC_DMA_FREE)) as [Hs|Hs]; cbn [channels_atomic set_bit].
    + rewrite Z.setbit_eqb by lia. by rewrite Z.eqb_refl.
    + rewrite Hb. rewrite !bool_decide_false by done. done.
  - destruct (Hi j ch1 Hj) as [Hb Hc]. split; [|exact Hc]. rewrite <- Hb. unfold d1.
    destruct (decide (state ch = ARC_DMA_FREE)); [|done]. cbn [channels_atomic set_bit]. pose proof (zget_Some_range _ _ _ Hj).
    rewrite Z.setbit_eqb by lia. rewrite (proj2 (Z.eqb_neq n j)) by done. done.
Qed.
Lemma start_inv fuel n d : dma_inv c d -> post (dma_arc_hs_start (W := W) c fuel n d) (λ r, dma_inv c (fst r)).
Proof.
  intros Hi. unfold dma_arc_hs_start. case_match; [by apply post_ret|]. apply post_lift. intros ok Hok.
  destruct ok; cbn [negb]; [|by apply post_ret]. apply post_lift. intros ch Hg.
  assert (state ch <> ARC_DMA_FREE) as Hf.
  { destruct fuel as [|fuel]; [done|]. cbn [links_ok] in Hok. rewrite Hg in Hok. cbn [mbind option_bind] in Hok.
    case_decide; [done | done]. }
  case_decide as Ha; [by apply post_ret|]. destruct (block_config ch) as [b|]; [|by apply post_ret]. cbv zeta.
  apply post_any. intros _. apply post_any. intros _. apply post_any. intros h. apply post_ret. cbn [fst].
  pose proof (inv_activate d n ch h Hi Hg Hf Ha). by case_match.
Qed.
Lemma stop_inv n d : dma_inv c d -> post (dma_arc_hs_stop (W := W) c n d) (λ r, dma_inv c (fst r)).
Proof.
  intros Hi. unfold dma_arc_hs_stop. case_match; [by apply post_ret|]. apply post_lift. intros ch Hg.
  case_decide; [by apply post_ret|]. case_decide as Ha; [|by apply post_ret]. apply post_any. intros _. apply post_ret.
  cbn [fst]. eapply inv_set_chan; [done | exact Hg | by rewrite Ha |]. rewrite active_not by done. lia.
Qed.
Lemma status_inv n d : dma_inv c d -> post (dma_arc_hs_get_status (W := W) c n d) (λ r, dma_inv c (fst (fst r))).
Proof.
  intros Hi. unfold dma_arc_hs_get_status. case_match; [by apply post_ret|]. apply post_lift. intros ch Hg.
  case_decide; [by apply post_ret|]. case_decide as Ha; [|by apply post_ret]. case_match; [by apply post_ret|].
  apply (post_bind _ _ (λ r, dma_inv c (fst r))).
  - unfold dma_arc_hs_status_poll. apply post_any. intros v. case_match; [by apply post_ret|].
    apply post_any. intros _. apply (post_bind _ _ (dma_inv c)); [by apply complete_inv|].
    intros d' Hd'. by apply post_ret.
  - intros [d' st] Hd'. by apply post_ret.
Qed.
Lemma process_channels_inv k n h d : dma_inv c d -> post (process_channels (W := W) c k n h d) (dma_inv c).
Proof.
  intros Hi. revert n. induction k as [|k IH]; intros n; cbn [process_channels]; [by apply post_ret|].
  apply post_lift. intros ch Hg. case_decide as Ha; [|apply IH]. apply complete_inv; [done | done | by destruct Ha].
Qed.
Lemma isr_inv fuel d : dma_inv c d -> post (dma_arc_hs_isr (W := W) c fuel d) (dma_inv c).
Proof.
  revert d. induction fuel as [|fuel IH]; intros d Hi; cbn [dma_arc_hs_isr]; [done|].
  apply post_any. intros v. case_match; [by apply post_ret|]. apply post_any. intros _. case_match; [by apply post_ret|].
  apply (post_bind _ _ (dma_inv c)); [|exact IH]. clear IH.
  generalize (Z.to_nat (num_groups c)), 0. intros k. revert d Hi. induction k as [|k IH]; intros d Hi g; cbn [process_groups].
  { by apply post_ret. }
  apply post_any. intros bits. apply (post_bind _ _ (dma_inv c)); [|intros d' Hd'; by apply IH].
  case_match; [by apply post_ret|]. apply post_any. intros _.
  generalize (set_bits bits). intros bs. revert d Hi. induction bs as [|b bs IHb]; intros d Hi; cbn [process_bits].
  { by apply post_ret. }
  apply (post_bind _ _ (dma_inv c)); [by apply process_channels_inv | exact IHb].
Qed.
Lemma check_channels_inv k n d b :
  dma_inv c d -> post (check_channels (W := W) c k n d b) (λ r, dma_inv c (fst r)).
Proof.
  revert n d b. induction k as [|k IH]; intros n d b Hd; cbn [check_channels]; [by apply post_ret|].
  apply post_lift. intros ch Hg. case_decide as Ha; [|by apply IH].
  apply (post_bind _ _ (dma_inv c)); [|intros d2 Hd2; by apply IH].
  unfold dma_arc_hs_check_completion. apply post_lift. intros ch' Hg'. case_decide as Ha'; [|by apply post_ret].
  apply post_any. intros v. case_match; [by apply post_ret|]. apply post_any. intros _. by apply complete_inv.
Qed.
Lemma work_inv d : dma_inv c d -> post (dma_arc_hs_completion_work_handler (W := W) c d) (dma_inv c).
Proof.
  intros Hi. unfold dma_arc_hs_completion_work_handler.
  apply (post_bind _ _ (λ r, dma_inv c (fst r))); [by apply check_channels_inv|].
  intros [d' b] Hd'. apply post_ret. by destruct b.
Qed.
Lemma run_dma_op_inv fuel op d : dma_inv c d -> post (run_dma_op (W := W) c fuel op d) (dma_inv c).
Proof.
  intros Hi. destruct op as [n cfg|n|n|n| |]; cbn [run_dma_op].
  - apply post_lift. intros [d' r] E. apply post_ret. by eapply config_inv.
  - apply (post_bind _ _ (λ r, dma_inv c (fst r))); [by apply start_inv|]. intros [d' r] Hd'. by apply post_ret.
  - apply (post_bind _ _ (λ r, dma_inv c (fst r))); [by apply stop_inv|]. intros [d' r] Hd'. by apply post_ret.
  - apply (post_bind _ _ (λ r, dma_inv c (fst (fst r)))); [by apply status_inv|]. intros [[d' r] st] Hd'. by apply post_ret.
  - by apply isr_inv.
  - by apply work_inv.
Qed.
Lemma run_dma_ops_inv fuel ops d : dma_inv c d -> post (run_dma_ops (W := W) c fuel ops d) (dma_inv c).
Proof.
  revert d. induction ops as [|op ops IH]; intros d Hi; cbn [run_dma_ops]; [by apply post_ret|].
  apply (post_bind _ _ (dma_inv c)); [by apply run_dma_op_inv | exact IH].
Qed.
Lemma init_inv d : Z.of_nat (length (chans d)) = channels c -> called d = [] -> started d = [] ->
  post (dma_arc_hs_init (W := W) c d) (dma_inv c).
Proof.
  intros Hl Hc Hs. unfold dma_arc_hs_init. cbv zeta. do 4 (apply post_any; intros _). apply post_ret.
  split; [cbn [chans]; by rewrite length_map|]. intros j ch Hj. cbn [channels_atomic chans called started] in *.
  unfold calls, starts. cbn [called started]. rewrite Hc, Hs.
  unfold zget in Hj. destruct (Z.ltb_spec j 0); [done|]. apply list_lookup_fmap_Some in Hj as (ch0 & -> & _).
  rewrite Z.bits_0, active_not by done. cbn [state]. rewrite bool_decide_true by done. by split.
Qed.
End invariant.

(** * Copies from flash to a tile *)

(** Memory that the processor writes as well. *)
Class CpuMemory (nd : Z) (W : Type) `{DmaEngine nd W} := {
  cpu_store : Z -> list Z -> W -> W;
  cpu_store_mem addr bs w a : e_mem (view (cpu_store addr bs w)) a
    = match zget bs (a - addr) with Some b => b | None => e_mem (view w) a end;
  cpu_store_quiet addr bs w : quiet w -> quiet (cpu_store addr bs w);
}.

Section spi.
Context {W : Type} {nd : Z} `{CpuMemory nd W}.
Variable (c : arc_dma_config).
(** The flash driver's [flash_read]: return value and the bytes it put in the buffer. *)
Variable (flash_read : Z -> Z -> Z * list Z).
Variable (fuel isr_fuel : nat).

Definition arc_dma_transfer_wrapper (src dst len : Z) d : Dev W (arc_dma_data * Z) :=
  '(d, rc) ← dma_arc_hs_transfer c fuel isr_fuel 0 src dst len 500 d;
  mret (d, if rc <? 0 then - EIO else 0).
Fixpoint transfer_parts (n : nat) (spi_address image_size offset buf buf_size tlb_dst rc : Z) d
  : Dev W (arc_dma_data * Z) :=
  let len := Z.min buf_size image_size in
  if len <=? 0 then mret (d, rc)
  else match n with
  | O => λ _, None
  | S n =>
      let '(rc, bs) := flash_read (spi_address + offset) len in
      _ ← (λ w, Some (tt, cpu_store buf bs w));
      if rc <? 0 then mret (d, rc)
      else
        '(d, rc) ← arc_dma_transfer_wrapper buf (tlb_dst + offset) len d;
        if rc <? 0 then mret (d, rc)
        else transfer_parts n spi_address (image_size - len) (offset + len) buf buf_size tlb_dst rc d
  end.
Definition spi_transfer_by_parts (n : nat) (spi_address image_size : Z) (buf : option Z) (buf_size tlb_dst : Z) d
  : Dev W (arc_dma_data * Z) :=
  match buf with
  | None => mret (d, - EINVAL)
  | Some buf =>
      if buf_size =? 0 then mret (d, - EINVAL)
      else if 2 ^ 31 - 1 <? image_size then mret (d, - E2BIG)
      else transfer_parts n spi_address image_size 0 buf buf_size tlb_dst 0 d
  end.
Definition spi_arc_dma_transfer_to_tile := spi_transfer_by_parts.
End spi.
Arguments spi_arc_dma_transfer_to_tile {W nd _ _ _}.

Section spi_correct.
Context {W : Type} {nd : Z} `{CpuMemory nd W}.
Variable (c : arc_dma_config) (flash_read : Z -> Z -> Z * list Z) (content : Z -> Z).
Hypothesis (Hirq : interrupts_available c = true) (Hready : device_ready c = true).
Hypothesis (Hnd : descriptors c = nd) (Hnd8 : 1 <= nd <= 256) (Hch : 0 < channels c).
Hypothesis (Halign : buffer_address_alignment c = 4) (Hmax : 0 < max_block_size c).
(** A read that succeeds returns what is in flash; one that fails does not overrun
    the buffer. *)
Hypothesis (Hflash : forall a l, 0 <= l -> let '(rc, bs) := flash_read a l in
  Z.of_nat (length bs) <= l /\ (0 <= rc -> rc = 0 /\ bs = map content (seqZ a l))).
Implicit Types (w : W).

(** Outside the buffer and the destination nothing changes; the first [off] bytes
    are there. *)
Definition loaded (m : Z -> Z) (spi buf buf_size dst size off : Z) w : Prop :=
  (forall i, 0 <= i < off -> e_mem (view w) (dst + i) = content (spi + i)) /\
  (forall a, ~ (buf <= a < buf + buf_size) -> ~ (dst <= a < dst + size) -> e_mem (view w) a = m a).

Lemma land_3 a : Z.land a 3 = a mod 4.
Proof. change 3 with (Z.ones 2). by rewrite Z.land_ones by lia. Qed.
Lemma zget_seqZ (g : Z -> Z) a l i : zget (map g (seqZ a l)) i = if (0 <=? i) && (i <? l) then Some (g (a + i)) else None.
Proof.
  unfold zget. destruct (Z.ltb_spec i 0), (Z.leb_spec 0 i); try lia; [done|]. cbn [andb].
  rewrite list_lookup_fmap. destruct (Z.ltb_spec i l).
  - rewrite lookup_seqZ_lt by lia. cbn. do 2 f_equal. lia.
  - by rewrite lookup_seqZ_ge by lia.
Qed.
Lemma zget_none {A} (l : list A) i : Z.of_nat (length l) <= i \/ i < 0 -> zget l i = None.
Proof.
  intros Hi. unfold zget. destruct (Z.ltb_spec i 0); [done|]. apply lookup_ge_None_2. lia.
Qed.

Lemma transfer_parts_ok fuel isr_fuel spi buf buf_size dst size m :
  0 <= buf -> 0 <= dst -> 0 < buf_size -> buf mod 4 = 0 -> dst mod 4 = 0 -> buf_size mod 4 = 0 ->
  buf + buf_size <= 2 ^ 32 -> dst + size <= 2 ^ 32 -> buf_size + max_block_size c <= 2 ^ 32 ->
  buf_size <= nd * max_block_size c -> buf + buf_size <= dst \/ dst + size <= buf ->
  5001 < Z.of_nat fuel -> 2 * nd + 1 < Z.of_nat isr_fuel ->
  forall n rem off d w, rem <= Z.of_nat n * buf_size -> 0 <= rem -> off + rem = size -> 0 <= off ->
    (0 < rem -> off mod 4 = 0) -> at_rest c d -> quiet w -> loaded m spi buf buf_size dst size off w ->
  wp (transfer_parts c flash_read fuel isr_fuel n spi rem off buf buf_size dst 0 d) w (λ r w',
    (snd r = 0 /\ at_rest c (fst r) /\ quiet w' /\ loaded m spi buf buf_size dst size size w') \/
    (snd r < 0 /\ loaded m spi buf buf_size dst size 0 w')).
Proof.
  intros Hb Hd Hbs Hba Hda Hsa Hb32 Hd32 Hov Hcap Hdis Hf Hif.
  induction n as [|n IH]; intros rem off d w Hn Hr Hsz Ho Hoa Hrest Hq Hl; cbn [transfer_parts]; cbv zeta.
  { assert (rem = 0) as -> by lia. rewrite (proj2 (Z.leb_le _ _)) by lia. apply wp_ret. left. cbn [fst snd].
    replace off with size in Hl by lia. done. }
  destruct (Z.leb_spec (Z.min buf_size rem) 0) as [Hz|Hz].
  { assert (rem = 0) as -> by lia. apply wp_ret. left. cbn [fst snd]. replace off with size in Hl by lia. done. }
  set (len := Z.min buf_size rem) in *. pose proof (Hflash (spi + off) len ltac:(lia)) as Hfl.
  destruct (flash_read (spi + off) len) as [rc bs]. destruct Hfl as [Hlen Hok].
  apply wp_bind. exists tt, (cpu_store buf bs w). split; [done|].
  pose proof (cpu_store_mem buf bs w) as Hsm. pose proof (cpu_store_quiet buf bs w Hq) as Hsq.
  set (w1 := cpu_store buf bs w) in *.
  assert (forall a, ~ (buf <= a < buf + buf_size) -> e_mem (view w1) a = e_mem (view w) a) as Hout.
  { intros a Ha. rewrite Hsm, zget_none by lia. done. }
  assert (loaded m spi buf buf_size dst size off w1) as Hl1.
  { destruct Hl as [Hl1 Hl2]. split.
    - intros i Hi. rewrite Hout by lia. by apply Hl1.
    - intros a Ha1 Ha2. rewrite Hout by done. by apply Hl2. }
  assert (forall w', loaded m spi buf buf_size dst size off w' -> loaded m spi buf buf_size dst size 0 w') as Hweak.
  { intros w' [_ Hl2]. split; [lia | done]. }
  destruct (Z.ltb_spec rc 0) as [Hrc|Hrc].
  { apply wp_ret. right. cbn [fst snd]. auto. }
  destruct (Hok Hrc) as [-> ->]. clear Hok Hrc. specialize (Hoa ltac:(lia)).
  apply wp_bind. unfold arc_dma_transfer_wrapper. apply wp_bind.
  eapply wp_mono.
  { apply (transfer_ok c Hirq Hnd Hnd8 Hch fuel isr_fuel 0 buf (dst + off) len 500 d w1 Hrest Hsq).
    - unfold transfer_args. rewrite Hready, Halign. change (u32 (4 - 1)) with 3. rewrite !land_3.
      split_and!; try done; try lia.
      rewrite Z.add_mod, Hda, Hoa by lia. done.
    - lia.
    - lia.
    - lia. }
  intros [d2 rc2] w2 [Hrest2 Hout2]. cbn [fst snd] in *. apply wp_ret.
  assert (forall o, 0 <= o <= len -> (forall a, e_mem (view w2) a = copy buf (dst + off) o (e_mem (view w1)) a) ->
    loaded m spi buf buf_size dst size (off + o) w2) as Hcopied.
  { intros o Hol Hm. destruct Hl1 as [Hl1 Hl2]. split.
    - intros i Hi. rewrite Hm. unfold copy. destruct (Z.leb_spec (dst + off) (dst + i)); cbn [andb]; [|apply Hl1; lia].
      rewrite (proj2 (Z.ltb_lt _ _)) by lia. rewrite Hsm, zget_seqZ.
      rewrite (proj2 (Z.leb_le _ _)), (proj2 (Z.ltb_lt _ _)) by lia. cbn [andb]. f_equal. lia.
    - intros a Ha1 Ha2. rewrite Hm. unfold copy.
      destruct (Z.leb_spec (dst + off) a), (Z.ltb_spec a (dst + off + o)); cbn [andb]; try lia; by apply Hl2. }
  destruct Hout2 as [(-> & Hq2 & Hm)|(-> & o & Hol & Hm)].
  - change (0 <? 0) with false. cbv iota. change (0 <? 0) with false. cbv iota.
    pose proof (Hcopied len ltac:(lia) Hm) as Hl2.
    apply IH; try done; try nia.
    intros Hr'. assert (len = buf_size) as -> by lia. rewrite Z.add_mod, Hoa, Hsa by lia. done.
  - change (- ETIMEDOUT <? 0) with true. cbv iota. change (- EIO <? 0) with true. cbv iota. apply wp_ret. right. cbn [fst snd].
    split; [by vm_compute|]. destruct (Hcopied o Hol Hm) as [_ Hl2]. split; [lia | done].
Qed.
End spi_correct.

(** * Theorems *)

(** C26. In interrupt mode, on an engine that is quiet and a driver none of whose channels is active, a
    blocking transfer of an acceptable size, aligned and between regions that do not overlap, returns:
    either everything has been copied, nothing else has changed and the engine is quiet again, or the
    time is up, a prefix has been copied and nothing else has changed when it returns. (After a time-out
    the engine goes on, [timeout_still_writes], and is not quiet; in polling mode a stale bit makes a
    transfer return before it was done, [stale_done_returns_early].) *)
Theorem dma_transfer_copies W nd `{DmaEngine nd W} c fuel isr_fuel channel src dst len timeout d (w : W)
    (Hirq : interrupts_available c = true) (Hnd : descriptors c = nd) (Hnd8 : 1 <= nd <= 256)
    (Hrest : at_rest c d) (Hquiet : quiet w) (Hargs : transfer_args (nd := nd) c channel src dst len)
    (Hto : 0 <= timeout) (Hfuel : timeout * 10 + 1 < Z.of_nat fuel) (Hisr : 2 * nd + 1 < Z.of_nat isr_fuel) :
  exists r w', dma_arc_hs_transfer c fuel isr_fuel channel src dst len timeout d w = Some (r, w') /\
    at_rest c (fst r) /\
    ((snd r = 0 /\ quiet w' /\ forall a, e_mem (view w') a = copy src dst len (e_mem (view w)) a) \/
     (snd r = - ETIMEDOUT /\ exists o, 0 <= o <= len /\
        forall a, e_mem (view w') a = copy src dst o (e_mem (view w)) a)).
Proof.
  apply (transfer_ok c Hirq Hnd Hnd8); try done. destruct Hargs as (_ & ? & _). lia.
Qed.

(** Whatever the hardware answers and in whatever order the driver is called, a
    channel is marked allocated iff it is not free, and its call-back runs at most
    once per start. *)
Theorem dma_callbacks W `{RegBus W} c fuel ops d0 d w0 w (w' : W) (Hlen : Z.of_nat (length (chans d0)) = channels c)
    (Hcalled : called d0 = []) (Hstarted : started d0 = [])
    (Hinit : dma_arc_hs_init c d0 w0 = Some (d, w)) d'
    (Hrun : run_dma_ops c fuel ops d w = Some (d', w')) : dma_inv c d'.
Proof. eapply run_dma_ops_inv; [|exact Hrun]. eapply init_inv; [done.. | exact Hinit]. Qed.

(** Loading an image in parts: on success the destination holds the image; nothing
    but the destination and the buffer is ever changed. *)
Theorem spi_to_tile W nd `{CpuMemory nd W} c flash_read content fuel isr_fuel n spi size buf buf_size dst d (w : W)
    (Hirq : interrupts_available c = true) (Hready : device_ready c = true)
    (Hnd : descriptors c = nd) (Hnd8 : 1 <= nd <= 256) (Hch : 0 < channels c)
    (Halign : buffer_address_alignment c = 4) (Hmax : 0 < max_block_size c)
    (Hflash : forall a l, 0 <= l -> let '(rc, bs) := flash_read a l in
       Z.of_nat (length bs) <= l /\ (0 <= rc -> rc = 0 /\ bs = map content (seqZ a l)))
    (Hbuf : 0 <= buf /\ 0 < buf_size /\ buf mod 4 = 0 /\ buf_size mod 4 = 0 /\ buf + buf_size <= 2 ^ 32)
    (Hdst : 0 <= dst /\ dst mod 4 = 0 /\ dst + size <= 2 ^ 32 /\ 0 <= size < 2 ^ 31)
    (Hfit : buf_size + max_block_size c <= 2 ^ 32 /\ buf_size <= nd * max_block_size c)
    (Hdis : buf + buf_size <= dst \/ dst + size <= buf)
    (Hfuel : 5001 < Z.of_nat fuel) (Hisr : 2 * nd + 1 < Z.of_nat isr_fuel) (Hn : size <= Z.of_nat n * buf_size)
    (Hrest : at_rest c d) (Hquiet : quiet w) :
  exists r w', spi_arc_dma_transfer_to_tile c flash_read fuel isr_fuel n spi size (Some buf) buf_size dst d w = Some (r, w') /\
    (forall a, ~ (buf <= a < buf + buf_size) -> ~ (dst <= a < dst + size) -> e_mem (view w') a = e_mem (view w) a) /\
    ((snd r = 0 /\ forall i, 0 <= i < size -> e_mem (view w') (dst + i) = content (spi + i)) \/ snd r < 0).
Proof.
  unfold spi_arc_dma_transfer_to_tile, spi_transfer_by_parts.
  rewrite (proj2 (Z.eqb_neq _ _)), (proj2 (Z.ltb_ge _ _)) by lia.
  destruct (transfer_parts_ok c flash_read content Hirq Hready Hnd Hnd8 Hch Halign Hmax Hflash fuel isr_fuel spi buf
    buf_size dst size (e_mem (view w))) with (n := n) (rem := size) (off := 0) (d := d) (w := w) as (r & w' & E & Hr);
    try done; try lia.
  { split; [lia | done]. }
  exists r, w'. split; [exact E|]. destruct Hr as [(Hrc & _ & _ & Hl & Hr)|(Hrc & _ & Hr)].
  - split; [done|]. left. split; [done|]. apply Hl.
  - split; [done|]. by right.
Qed.

(** ** What goes wrong *)

(** A burst longer than the linked block makes the size of the linked transfer wrap
    around. *)
Theorem linked_size_wraps cfg block burst
    (Hsrc : source_chaining_en cfg = true) (Hdst : dest_chaining_en cfg = false)
    (Hsize : 0 <= block_size block < burst) (Hburst : burst < 2 ^ 32) :
  dma_arc_hs_calc_linked_transfer_size cfg block burst = Some (2 ^ 32 - burst).
Proof.
  unfold dma_arc_hs_calc_linked_transfer_size. rewrite Hsrc, Hdst. cbn [andb].
  rewrite (proj2 (Z.eqb_neq burst 0)) by lia. rewrite Z.div_small by lia. cbv zeta.
  assert (u32 (u32 (0 - 1) * burst) = 2 ^ 32 - burst) as ->.
  { change (u32 (0 - 1)) with (2 ^ 32 - 1). unfold wrap.
    replace ((2 ^ 32 - 1) * burst) with (2 ^ 32 - burst + (burst - 1) * 2 ^ 32) by lia.
    rewrite Z.mod_add by lia. apply Z.mod_small. lia. }
  by rewrite (proj2 (Z.eqb_neq _ _)) by lia.
Qed.

(** Starting a channel that is linked to itself never returns. *)
Theorem link_cycle_hangs W `{RegBus W} c fuel channel d ch (w : W)
    (Hc : channel < channels c) (Hg : zget (chans d) channel = Some ch) (Hs : state ch <> ARC_DMA_FREE)
    (Hlink : source_chaining_en (config ch) = true) (Hself : linked_channel (config ch) = channel) :
  dma_arc_hs_start c fuel channel d w = None.
Proof.
  unfold dma_arc_hs_start. rewrite (proj2 (Z.leb_gt _ _)) by lia. unfold mbind, Dev_bind, lift.
  assert (links_ok fuel channel d = None) as ->; [|done].
  induction fuel as [|fuel IH]; [done|]. cbn [links_ok]. rewrite Hg. cbn [mbind option_bind].
  rewrite decide_False by done. rewrite Hlink. cbn [orb]. by rewrite Hself.
Qed.

(** * An engine

    It gives a transfer the lowest handle that is not queued; [s_pace] says how many
    transfers complete at each access, and by default it is one. *)
Record sim := { s_view : engine; s_pace : list nat; s_time : Z }.
Definition step_engine (k : nat) e : engine :=
  let xs := take k (e_queue e) in
  {| e_queue := drop k (e_queue e); e_done := λ h, e_done e h || has_handle xs h;
     e_int := e_int e || existsb raises xs; e_mem := performed xs (e_mem e);
     e_src := e_src e; e_dst := e_dst e; e_attr := e_attr e; e_last := e_last e |}.
Definition tick (w : sim) (n : Z) : sim :=
  {| s_view := step_engine (hd 1%nat (s_pace w)) (s_view w); s_pace := tl (s_pace w); s_time := s_time w + n |}.
Definition with_view (w : sim) e : sim := {| s_view := e; s_pace := s_pace w; s_time := s_time w |}.
Definition group_word e (g : Z) : Z :=
  foldr (λ i v, if e_done e (32 * g + i) then Z.setbit v i else v) 0 (seqZ 0 32).
Definition fresh_handle (nd : Z) (q : list desc) : Z :=
  hd 0 (filter (λ h, has_handle q h = false) (seqZ 0 nd)).
Definition set_regs e (src dst attr : Z) : engine :=
  {| e_queue := e_queue e; e_done := e_done e; e_int := e_int e; e_mem := e_mem e; e_src := src;
     e_dst := dst; e_attr := attr; e_last := e_last e |}.
Definition sim_write (nd a v : Z) e : engine :=
  if a =? DMA_C_SRC_AUX then set_regs e v (e_dst e) (e_attr e)
  else if a =? DMA_C_DST_AUX then set_regs e (e_src e) v (e_attr e)
  else if a =? DMA_C_ATTR_AUX then set_regs e (e_src e) (e_dst e) v
  else if a =? DMA_C_LEN_AUX then
    let h := fresh_handle nd (e_queue e) in
    {| e_queue := e_queue e ++ [{| d_handle := h; d_src := e_src e; d_dst := e_dst e; d_len := v; d_attr := e_attr e |}];
       e_done := e_done e; e_int := e_int e; e_mem := e_mem e; e_src := e_src e; e_dst := e_dst e;
       e_attr := e_attr e; e_last := h |}
  else if a =? DMA_C_INTSTAT_CLR_AUX then
    {| e_queue := e_queue e; e_done := e_done e; e_int := false; e_mem := e_mem e; e_src := e_src e;
       e_dst := e_dst e; e_attr := e_attr e; e_last := e_last e |}
  else if (0xd40 <=? a) && (a <? 0xd48) then
    {| e_queue := e_queue e;
       e_done := λ h, e_done e h && negb ((h / 32 =? a - 0xd40) && Z.testbit v (h mod 32));
       e_int := e_int e; e_mem := e_mem e; e_src := e_src e; e_dst := e_dst e; e_attr := e_attr e;
       e_last := e_last e |}
  else e.
Section sim.
Variable (nd : Z).
#[local] Instance sim_regbus : RegBus sim := {
  bus_read a w :=
    let w' := tick w 1 in
    (if a =? DMA_C_HANDLE_AUX then e_last (s_view w')
     else if a =? DMA_C_INTSTAT_AUX then Z.b2z (e_int (s_view w'))
     else group_word (s_view w') (a - 0xd20), w');
  bus_write a v w := with_view w (sim_write nd a v (s_view w));
  bus_uptime w := (s_time w / 50000, tick w 1);
  bus_wait n w := tick w n;
}.
Lemma tick_progress w n : progress (s_view w) (s_view (tick w n)).
Proof.
  unfold progress. cbn [s_view tick]. set (k := hd 1%nat (s_pace w)). exists (take k (e_queue (s_view w))).
  cbn. rewrite take_drop. by split_and!.
Qed.
Lemma group_word_bit e g i : 0 <= i < 32 -> Z.testbit (group_word e g) i = e_done e (32 * g + i).
Proof.
  intros Hi. unfold group_word.
  assert (forall l, NoDup l -> Forall (λ j, 0 <= j) l ->
    Z.testbit (foldr (λ i v, if e_done e (32 * g + i) then Z.setbit v i else v) 0 l) i
    = bool_decide (i ∈ l) && e_done e (32 * g + i)) as Hl.
  { induction l as [|j l IH]; intros Hn Hp; cbn [foldr].
    - rewrite Z.bits_0. by rewrite bool_decide_false by apply not_elem_of_nil.
    - apply list.NoDup_cons in Hn as [Hj Hn]. apply list.Forall_cons in Hp as [Hp0 Hp]. specialize (IH Hn Hp).
      destruct (e_done e (32 * g + j)) eqn:E.
      + rewrite Z.setbit_eqb by lia. rewrite IH. destruct (Z.eqb_spec j i) as [->|Hne]; cbn [orb].
        * rewrite bool_decide_true by (by left). by rewrite E.
        * f_equal. apply bool_decide_ext. rewrite elem_of_cons. intuition congruence.
      + rewrite IH. destruct (decide (i = j)) as [->|Hne]; [by rewrite E, !andb_false_r|].
        f_equal. apply bool_decide_ext. rewrite elem_of_cons. intuition congruence. }
  rewrite Hl.
  - by rewrite bool_decide_true by (apply elem_of_seqZ; lia).
  - apply NoDup_seqZ.
  - apply list.Forall_forall. intros j Hj%elem_of_seqZ. lia.
Qed.
Lemma fresh_handle_ok q :
  Z.of_nat (length q) < nd -> 0 <= fresh_handle nd q < nd /\ has_handle q (fresh_handle nd q) = false.
Proof.
  intros Hq. unfold fresh_handle.
  destruct (filter (λ h, has_handle q h = false) (seqZ 0 nd)) as [|h l] eqn:E.
  - exfalso. assert (seqZ 0 nd ⊆ map d_handle q) as Hsub.
    { intros h Hh. destruct (has_handle q h) eqn:Ehh.
      - apply has_handle_elem in Ehh as (x & Hx & <-). apply list_elem_of_fmap. by exists x.
      - exfalso. assert (h ∈ filter (λ h, has_handle q h = false) (seqZ 0 nd)) as Hin
          by (apply list_elem_of_filter; done). rewrite E in Hin. by apply not_elem_of_nil in Hin. }
    pose proof (NoDup_incl_length (proj1 (base.NoDup_ListNoDup _) (NoDup_seqZ 0 nd))
      (l' := map d_handle q)) as Hlen. rewrite length_seqZ, length_map in Hlen.
    assert (Z.to_nat nd <= length q)%nat; [|lia]. apply Hlen. intros h Hh%list_elem_of_In. by apply list_elem_of_In, Hsub.
  - cbn [hd]. assert (h ∈ filter (λ h, has_handle q h = false) (seqZ 0 nd)) as Hin by (rewrite E; by left).
    apply list_elem_of_filter in Hin as [Hh Hr%elem_of_seqZ]. split; [lia | done].
Qed.
#[local, refine] Instance sim_engine : DmaEngine nd sim := { view := s_view; time := s_time }.
Proof.
  - intros a w v w' E. cbn in E. apply pair_equal_spec in E as [_ <-]. split; [apply tick_progress | cbn; lia].
  - intros w t w' E. cbn in E. apply pair_equal_spec in E as [<- <-]. split; [apply tick_progress | cbn; lia].
  - intros n w. split; [apply tick_progress | cbn; lia].
  - intros. cbn. lia.
  - intros v w. cbn. unfold sim_write. cbn. by split_and!.
  - intros v w. cbn. unfold sim_write. cbn. by split_and!.
  - intros v w. cbn. unfold sim_write. cbn. by split_and!.
  - intros v w. cbn. unfold sim_write. cbn. by split_and!.
  - intros v w Hq. cbn -[fresh_handle] in *. unfold sim_write. cbn -[fresh_handle]. destruct (fresh_handle_ok _ Hq) as [[? ?] ?]. by split_and!.
  - intros v w. cbn. unfold sim_write. cbn. by split_and!.
  - intros g v w Hg. cbn. unfold sim_write, DMA_S_DONESTATD_CLR_AUX, DMA_C_SRC_AUX, DMA_C_DST_AUX, DMA_C_ATTR_AUX,
      DMA_C_LEN_AUX, DMA_C_INTSTAT_CLR_AUX.
    rewrite !(proj2 (Z.eqb_neq _ _)) by lia. rewrite (proj2 (Z.leb_le _ _)), (proj2 (Z.ltb_lt _ _)) by lia. cbn [andb].
    cbn -[Z.add Z.sub]. replace (3392 + g - 3392) with g by lia. by split_and!.
  - intros w v w' E. cbn in E. by injection E as <- _.
  - intros w v w' E. assert ((Z.b2z (e_int (s_view (tick w 1))), tick w 1) = (v, w')) as E' by exact E.
    apply pair_equal_spec in E' as [<- <-]. by destruct (e_int (s_view (tick w 1))).
  - intros g w v w' Hg E i Hi. cbn -[group_word Z.add Z.sub] in E. apply pair_equal_spec in E as [<- <-].
    unfold DMA_S_DONESTATD_AUX, DMA_C_HANDLE_AUX, DMA_C_INTSTAT_AUX. rewrite !(proj2 (Z.eqb_neq _ _)) by lia.
    replace (0xd20 + g - 0xd20) with g by lia. by apply group_word_bit.
Defined.
#[local, refine] Instance sim_memory : CpuMemory nd sim := {
  cpu_store addr bs w := with_view w
    {| e_queue := e_queue (s_view w); e_done := e_done (s_view w); e_int := e_int (s_view w);
       e_mem := λ a, match zget bs (a - addr) with Some b => b | None => e_mem (s_view w) a end;
       e_src := e_src (s_view w); e_dst := e_dst (s_view w); e_attr := e_attr (s_view w); e_last := e_last (s_view w) |} }.
Proof.
  - done.
  - intros addr bs w (? & ? & ?). by split_and!.
Defined.
End sim.

(** ** Four descriptors, blocks of eight bytes *)
#[export] Instance engine4 : RegBus sim := sim_regbus 4.
#[export] Instance engine4_ok : DmaEngine 4 sim := sim_engine 4.
#[export] Instance memory4 : CpuMemory 4 sim := sim_memory 4.
Definition dma4 (irq : bool) : arc_dma_config :=
  {| channels := 2; descriptors := 4; max_block_size := 8; buffer_address_alignment := 4;
     interrupts_available := irq; device_ready := true |}.
Definition free_channel : arc_dma_channel :=
  {| state := ARC_DMA_FREE; callback := None; config := no_config; block_config := None; handle := 0 |}.
Definition dma_data0 : arc_dma_data :=
  {| chans := [free_channel; free_channel]; channels_atomic := 0; heap := ∅; transfer_blocks := 1000;
     work_scheduled := false; called := []; started := [] |}.
Definition sim0 (pace : list nat) : sim :=
  {| s_view := {| e_queue := []; e_done := λ _, false; e_int := false; e_mem := λ a, a mod 251; e_src := 0;
                  e_dst := 0; e_attr := 0; e_last := 0 |}; s_pace := pace; s_time := 0 |}.
Lemma at_rest0 irq : at_rest (dma4 irq) dma_data0.
Proof.
  split; [done|]. intros j ch Hj. unfold zget in Hj. case_match; [done|].
  apply list_elem_of_lookup_2 in Hj. cbn in Hj. rewrite !elem_of_cons in Hj.
  destruct Hj as [->|[->|Hj]]; [done | done | by apply not_elem_of_nil in Hj].
Qed.
Lemma quiet0 pace : quiet (sim0 pace).
Proof. by split_and!. Qed.

Lemma dma_transfer_copies_witness : exists r w',
  dma_arc_hs_transfer (dma4 true) 12 10 0 0x100 0x200 20 1 dma_data0 (sim0 [0%nat; 2%nat]) = Some (r, w') /\
  at_rest (dma4 true) (fst r) /\
  ((snd r = 0 /\ quiet w' /\
    forall a, e_mem (view w') a = copy 0x100 0x200 20 (e_mem (view (sim0 [0%nat; 2%nat]))) a) \/
   (snd r = - ETIMEDOUT /\ exists o, 0 <= o <= 20 /\
      forall a, e_mem (view w') a = copy 0x100 0x200 o (e_mem (view (sim0 [0%nat; 2%nat]))) a)).
Proof.
  apply (dma_transfer_copies sim 4 (dma4 true) 12 10 0 0x100 0x200 20 1 dma_data0 (sim0 [0%nat; 2%nat]));
    [done | done | lia | apply at_rest0 | apply quiet0 | by vm_compute; split_and!; (done || left) | lia | lia | lia].
Defined.

Definition block0 : dma_block_config :=
  {| source_address := 0x100; dest_address := 0x200; block_size := 8; next_block := None |}.
Definition callback_config : dma_config :=
  {| channel_direction := MEMORY_TO_MEMORY; source_chaining_en := false; dest_chaining_en := false;
     linked_channel := 0; source_burst_length := 0; block_count := 1; head_block := Some 7; dma_callback := Some 42 |}.
Definition session : list dma_op := [OpConfig 1 callback_config; OpStart 1; OpIsr; OpIsr; OpStatus 1].
Definition blocks_data : arc_dma_data := with_heap dma_data0 {[7 := block0]}.
Definition ready0 : arc_dma_data * sim := default (blocks_data, sim0 []) (dma_arc_hs_init (dma4 true) blocks_data (sim0 [])).
Definition ran0 : arc_dma_data * sim := default ready0 (run_dma_ops (dma4 true) 10 session (fst ready0) (snd ready0)).
Lemma dma_callbacks_witness : called (fst ran0) = [(42, 1)] /\ dma_inv (dma4 true) (fst ran0).
Proof.
  split; [by vm_compute|].
  apply (dma_callbacks sim (dma4 true) 10 session blocks_data (fst ready0) (sim0 []) (snd ready0) (snd ran0));
    by vm_compute.
Defined.

Definition flash0 (a l : Z) : Z * list Z := (0, map (λ b, b mod 256) (seqZ a l)).
Lemma spi_to_tile_witness : exists r w',
  spi_arc_dma_transfer_to_tile (dma4 true) flash0 (Z.to_nat 5002) 10 3 0x40 40 (Some 0x100) 16 0x200 dma_data0 (sim0 [])
    = Some (r, w') /\
  (forall a, ~ (0x100 <= a < 0x100 + 16) -> ~ (0x200 <= a < 0x200 + 40) ->
     e_mem (view w') a = e_mem (view (sim0 [])) a) /\
  ((snd r = 0 /\ forall i, 0 <= i < 40 -> e_mem (view w') (0x200 + i) = (λ b, b mod 256) (0x40 + i)) \/ snd r < 0).
Proof.
  apply (spi_to_tile sim 4 (dma4 true) flash0 (λ b, b mod 256) (Z.to_nat 5002) 10 3 0x40 40 0x100 16 0x200 dma_data0 (sim0 []));
    try done; try (vm_compute; split_and!; done); try lia.
  - intros a l Hl. cbn. rewrite length_map, length_seqZ. split; [lia | done].
  - apply at_rest0.
Defined.

(** ** Polling: only the bit of the last block is cleared, and a later transfer that
    gets the handle of an earlier block is taken for done before it has begun. *)
Theorem stale_done_returns_early :
  match dma_arc_hs_transfer (dma4 false) 12 10 0 0x100 0x200 16 1 dma_data0 (sim0 []) with
  | Some ((d1, 0), w1) =>
      e_done (view w1) 0 = true /\
      match dma_arc_hs_transfer (dma4 false) 12 10 0 0x300 0x400 8 1 d1
              {| s_view := s_view w1; s_pace := replicate 20 0%nat; s_time := s_time w1 |} with
      | Some ((d2, 0), w2) =>
          length (e_queue (view w2)) = 1%nat /\ e_mem (view w2) 0x400 <> e_mem (view w2) 0x300
      | _ => False
      end
  | _ => False
  end.
Proof. vm_compute. split; [done|]. by split. Qed.

(** A channel configured while it is active forgets its transfer: the call-back is
    never made. *)
Theorem reconfigure_loses_callback :
  match run_dma_ops (dma4 false) 10 [OpConfig 1 callback_config; OpStart 1; OpConfig 1 callback_config; OpWork; OpWork;
          OpStatus 1] blocks_data (sim0 []) with
  | Some (d, w) => e_done (view w) 0 = true /\ started d = [1] /\ called d = []
  | None => False
  end.
Proof. by vm_compute. Qed.

(** After a time-out the channel is idle but the engine still writes to the destination. *)
Theorem timeout_still_writes :
  match dma_arc_hs_transfer (dma4 true) 12 10 0 0x100 0x200 8 1 dma_data0 (sim0 (replicate 60 0%nat)) with
  | Some ((d, rc), w) =>
      rc = - ETIMEDOUT /\ e_mem (view w) 0x200 = 0x200 mod 251 /\
      e_mem (view (bus_wait 1 {| s_view := s_view w; s_pace := []; s_time := s_time w |})) 0x200 = 0x100 mod 251
  | None => False
  end.
Proof. by vm_compute. Qed.

Lemma linked_size_wraps_witness :
  dma_arc_hs_calc_linked_transfer_size
    {| channel_direction := 0; source_chaining_en := true; dest_chaining_en := false; linked_channel := 1;
       source_burst_length := 16; block_count := 1; head_block := None; dma_callback := None |} block0 16
  = Some (2 ^ 32 - 16).
Proof. apply linked_size_wraps; (done || cbn; lia). Defined.
Lemma link_cycle_hangs_witness :
  let cfg := {| channel_direction := 0; source_chaining_en := true; dest_chaining_en := false; linked_channel := 0;
                source_burst_length := 4; block_count := 1; head_block := Some 7; dma_callback := None |} in
  let ch := {| state := ARC_DMA_PREPARED; callback := None; config := cfg; block_config := Some block0; handle := 0 |} in
  dma_arc_hs_start (dma4 true) 1000 0 (set_chan dma_data0 0 ch) (sim0 []) = None.
Proof.
  intros cfg ch. apply (link_cycle_hangs sim (dma4 true) 1000 0 (set_chan dma_data0 0 ch) ch (sim0 [])); done.
Defined.
