(* ===== verification/GddrCal.v ===== *)
(** The flash-backed DRAM calibration table: [lib/tenstorrent/bh_arc/gddr_cal.c].

    Two banks hold a header and the table; updates alternate between them so that a
    power loss keeps one of them readable. A bank is its bytes as far as the driver
    uses them. Every flash operation takes from the environment what happens to it:
    it is done, fails part-way with an error, or power is lost part-way. The CRC is a
    parameter. *)
From stdpp Require Import prelude list numbers.
From Stdlib Require Import ZArith Lia.
From S2P Require Import Prelude.
Open Scope Z_scope.

Definition GDDR_CAL_MAGIC : Z := 0x4C414347.
Definition GDDR_CAL_VERSION : Z := 3.
Definition GDDR_CAL_SEQ_ERASED : Z := 0xFFFFFFFF.
(** [sizeof(gddr_cal_table_t)]: 8 ASICs, 8 controllers, 4 bytes *)
Definition sizeof_table : nat := 256.
Definition sizeof_hdr : nat := 16.

(** * Data *)
Record gddr_cal_bank_hdr := { magic : Z; seq : Z; version : Z; cksum : Z }.
Definition hdr_bytes (h : gddr_cal_bank_hdr) : list Z :=
  le_bytes 4 (magic h) ++ le_bytes 4 (seq h) ++ le_bytes 4 (version h) ++ le_bytes 4 (cksum h).
Definition word_at (bs : list Z) (off : nat) : Z := le_value (take 4 (drop off bs)).
Definition hdr_of (bs : list Z) : gddr_cal_bank_hdr :=
  {| magic := word_at bs 0; seq := word_at bs 4; version := word_at bs 8; cksum := word_at bs 12 |}.
Definition table_of (bs : list Z) : list Z := take sizeof_table (drop sizeof_hdr bs).

(** The two banks in flash, and the driver's variables. *)
Record flash := { bank_a : list Z; bank_b : list Z }.
Record driver := { active_seq : Z; active_bank : bool; have_active : bool }.
Definition bank (f : flash) (b : bool) : list Z := if b then bank_b f else bank_a f.
Definition set_bank (f : flash) (b : bool) (bs : list Z) : flash :=
  if b then {| bank_a := bank_a f; bank_b := bs |} else {| bank_a := bs; bank_b := bank_b f |}.

(** ** Flash operations *)

(** What happens to an operation: it is done, or it stops part-way and returns an error
    or loses power. A write stops with its first [n] bytes programmed, an erase leaves the
    bank as it was or with other contents [bs]. *)
Inductive fate :=
| Done
| Fails (rc : Z) (n : nat) (bs : option (list Z))
| PowerLoss (n : nat) (bs : option (list Z)).
Inductive result (A : Type) := Off (f : flash) | Ret (x : A) (f : flash).
Arguments Off {A}. Arguments Ret {A}.

(** Programs over the flash with a list of fates; past its end everything is done. *)
Definition Prog (A : Type) : Type := list fate -> flash -> result A * list fate.
#[global] Instance Prog_ret : MRet Prog := λ A x fs f, (Ret x f, fs).
#[global] Instance Prog_bind : MBind Prog := λ A B k m fs f,
  match m fs f with
  | (Ret x f, fs) => k x fs f
  | (Off f, fs) => (Off f, fs)
  end.
Definition next_fate (fs : list fate) : fate * list fate :=
  match fs with [] => (Done, []) | x :: fs => (x, fs) end.
Definition erased (n : nat) : list Z := replicate n 0xFF.
Definition overwrite (bs : list Z) (off : nat) (data : list Z) : list Z :=
  take off bs ++ data ++ drop (off + length data) bs.

Definition flash_read (b : bool) (len : nat) : Prog (Z * list Z) := λ fs f,
  match next_fate fs with
  | (Done, fs) => (Ret (0, take len (bank f b)) f, fs)
  | (Fails rc _ _, fs) => (Ret (rc, []) f, fs)
  | (PowerLoss _ _, fs) => (Off f, fs)
  end.
Definition flash_erase (b : bool) : Prog Z := λ fs f,
  match next_fate fs with
  | (Done, fs) => (Ret 0 (set_bank f b (erased (length (bank f b)))), fs)
  | (Fails rc _ bs, fs) => (Ret rc (set_bank f b (default (bank f b) bs)), fs)
  | (PowerLoss _ bs, fs) => (Off (set_bank f b (default (bank f b) bs)), fs)
  end.
Definition flash_write (b : bool) (off : nat) (data : list Z) : Prog Z := λ fs f,
  match next_fate fs with
  | (Done, fs) => (Ret 0 (set_bank f b (overwrite (bank f b) off data)), fs)
  | (Fails rc n _, fs) => (Ret rc (set_bank f b (overwrite (bank f b) off (take n data))), fs)
  | (PowerLoss n _, fs) => (Off (set_bank f b (overwrite (bank f b) off (take n data))), fs)
  end.

(** * The driver *)
Definition gddr_cal_hdr_is_plausible (h : gddr_cal_bank_hdr) : bool :=
  (magic h =? GDDR_CAL_MAGIC) && negb (seq h =? GDDR_CAL_SEQ_ERASED) && (version h =? GDDR_CAL_VERSION).
(** [(int32_t)(a - b) > 0] *)
Definition gddr_cal_seq_is_newer (a b : Z) : bool := (0 <? u32 (a - b)) && (u32 (a - b) <? 2 ^ 31).

Section cal.
Variable (crc32_ieee_update : Z -> list Z -> Z).

Definition gddr_cal_bank_crc (bs : list Z) : Z :=
  u32 (crc32_ieee_update (crc32_ieee_update 0 (take 12 bs)) (table_of bs)).

(** Headers in order: the candidates. *)
Fixpoint read_headers (bs : list bool) : Prog (list (bool * gddr_cal_bank_hdr)) :=
  match bs with
  | [] => mret []
  | b :: bs =>
      '(rc, raw) ← flash_read b sizeof_hdr;
      rest ← read_headers bs;
      mret (if rc <? 0 then rest
            else if gddr_cal_hdr_is_plausible (hdr_of raw) then (b, hdr_of raw) :: rest else rest)
  end.
Definition candidate_order (cs : list (bool * gddr_cal_bank_hdr)) : list bool :=
  match cs with
  | [(b0, h0); (b1, h1)] => if gddr_cal_seq_is_newer (seq h1) (seq h0) then [b1; b0] else [b0; b1]
  | _ => map fst cs
  end.
Fixpoint try_candidates (bs : list bool) (table : list Z) (d : driver) : Prog (Z * list Z * driver) :=
  match bs with
  | [] => mret (- ENOENT, table, d)
  | b :: bs =>
      '(rc, raw) ← flash_read b (sizeof_hdr + sizeof_table);
      if rc <? 0 then try_candidates bs table d
      else if negb (cksum (hdr_of raw) =? gddr_cal_bank_crc raw) then try_candidates bs table d
      else mret (0, table_of raw, {| active_seq := seq (hdr_of raw); active_bank := b; have_active := true |})
  end.
(** [table] is the caller's table; result: return value, the table and the driver. *)
Definition gddr_cal_read (device_ready : bool) (table : list Z) (d : driver) : Prog (Z * list Z * driver) :=
  let d := {| active_seq := active_seq d; active_bank := active_bank d; have_active := false |} in
  if negb device_ready then mret (- ENODEV, table, d)
  else
    cs ← read_headers [false; true];
    try_candidates (candidate_order cs) table d.

Definition next_seq (d : driver) : Z :=
  let seq := if have_active d then u32 (active_seq d + 1) else 0 in
  if seq =? GDDR_CAL_SEQ_ERASED then 0 else seq.
Definition record_of (sq : Z) (table : list Z) : list Z :=
  let h := {| magic := GDDR_CAL_MAGIC; seq := sq; version := GDDR_CAL_VERSION; cksum := 0 |} in
  let crc := gddr_cal_bank_crc (hdr_bytes h ++ table) in
  hdr_bytes {| magic := GDDR_CAL_MAGIC; seq := sq; version := GDDR_CAL_VERSION; cksum := crc |} ++ table.
Definition gddr_cal_write (device_ready : bool) (table : list Z) (d : driver) : Prog (Z * driver) :=
  if negb device_ready then mret (- ENODEV, d)
  else
    let target := if have_active d then negb (active_bank d) else false in
    let sq := next_seq d in
    let bank_buf := record_of sq table in
    rc ← flash_erase target;
    if rc <? 0 then mret (rc, d)
    else
      rc ← flash_write target sizeof_hdr (table_of bank_buf);
      if rc <? 0 then mret (rc, d)
      else
        rc ← flash_write target 0 (take sizeof_hdr bank_buf);
        if rc <? 0 then mret (rc, d)
        else
          '(rc, raw) ← flash_read target (sizeof_hdr + sizeof_table);
          if rc <? 0 then mret (rc, d)
          else if negb (gddr_cal_hdr_is_plausible (hdr_of raw)) || negb (seq (hdr_of raw) =? sq)
                  || negb (cksum (hdr_of raw) =? gddr_cal_bank_crc raw)
          then mret (- EIO, d)
          else mret (0, {| active_seq := sq; active_bank := target; have_active := true |}).

(** * Contents of a bank *)

(** What the driver accepts. *)
Definition valid (bs : list Z) : bool :=
  gddr_cal_hdr_is_plausible (hdr_of bs) && (cksum (hdr_of bs) =? gddr_cal_bank_crc bs).
(** The bank starts with the complete record of table [t] under [sq]. *)
Definition holds (bs : list Z) (sq : Z) (t : list Z) : Prop :=
  take (sizeof_hdr + sizeof_table) bs = record_of sq t.
Definition wf_table (t : list Z) : Prop := length t = sizeof_table.
Definition seq_ok (sq : Z) : Prop := 0 <= sq < GDDR_CAL_SEQ_ERASED.
(** The bank a read uses: of two valid ones the newer, A when neither is. *)
Definition pick (f : flash) : option bool :=
  if valid (bank f false) &&
     negb (valid (bank f true) &&
           gddr_cal_seq_is_newer (seq (hdr_of (bank f true))) (seq (hdr_of (bank f false))))
  then Some false
  else if valid (bank f true) then Some true else None.

Lemma word_at_take n off bs : (off + 4 <= n)%nat -> word_at (take n bs) off = word_at bs off.
Proof.
  intros. unfold word_at. rewrite skipn_firstn_comm, firstn_firstn. f_equal. f_equal. lia.
Qed.
Lemma hdr_of_take n bs : (sizeof_hdr <= n)%nat -> hdr_of (take n bs) = hdr_of bs.
Proof.
  unfold sizeof_hdr. intros. unfold hdr_of. by rewrite !word_at_take by lia.
Qed.
Lemma table_of_take n bs : (sizeof_hdr + sizeof_table <= n)%nat -> table_of (take n bs) = table_of bs.
Proof.
  unfold sizeof_hdr, sizeof_table. intros. unfold table_of.
  rewrite skipn_firstn_comm, firstn_firstn. f_equal. unfold sizeof_table, sizeof_hdr. lia.
Qed.
Lemma crc_take n bs :
  (sizeof_hdr + sizeof_table <= n)%nat -> gddr_cal_bank_crc (take n bs) = gddr_cal_bank_crc bs.
Proof.
  intros. unfold gddr_cal_bank_crc. rewrite table_of_take by done. rewrite firstn_firstn.
  do 4 f_equal. unfold sizeof_hdr in *. lia.
Qed.
Lemma valid_take n bs : (sizeof_hdr + sizeof_table <= n)%nat -> valid (take n bs) = valid bs.
Proof.
  intros. unfold valid. rewrite hdr_of_take, crc_take; [done | lia | unfold sizeof_hdr in *; lia].
Qed.

Lemma crc_range bs : 0 <= gddr_cal_bank_crc bs < 2 ^ 32.
Proof. by apply wrap_in_width. Qed.

(** The fields of a header followed by anything. *)
Lemma hdr_bytes_length h : length (hdr_bytes h) = sizeof_hdr.
Proof. unfold hdr_bytes. by rewrite !length_app, !le_bytes_length. Qed.
Definition hdr_fits (h : gddr_cal_bank_hdr) : Prop :=
  (0 <= magic h < 2 ^ 32 /\ 0 <= seq h < 2 ^ 32) /\ 0 <= version h < 2 ^ 32 /\ 0 <= cksum h < 2 ^ 32.
Lemma word_slice a b c v :
  0 <= v < 2 ^ 32 -> b = le_bytes 4 v -> word_at (a ++ b ++ c) (length a) = v.
Proof.
  intros Hv ->. unfold word_at. rewrite slice_app; [by apply le_value_le_bytes | done | done].
Qed.
Lemma hdr_of_bytes h rest : hdr_fits h -> hdr_of (hdr_bytes h ++ rest) = h.
Proof.
  destruct h as [m s v c]. intros [[Hm Hs] [Hv Hc]].
  change (hdr_bytes _) with (le_bytes 4 m ++ le_bytes 4 s ++ le_bytes 4 v ++ le_bytes 4 c).
  cbv [magic seq version cksum] in *. unfold hdr_of. rewrite <- !app_assoc. f_equal.
  - exact (word_slice [] _ _ _ Hm eq_refl).
  - exact (word_slice (le_bytes 4 m) _ _ _ Hs eq_refl).
  - rewrite (app_assoc (le_bytes 4 m)).
    exact (word_slice (le_bytes 4 m ++ le_bytes 4 s) _ _ _ Hv eq_refl).
  - rewrite (app_assoc (le_bytes 4 s)), (app_assoc (le_bytes 4 m)).
    exact (word_slice (le_bytes 4 m ++ le_bytes 4 s ++ le_bytes 4 v) _ _ _ Hc eq_refl).
Qed.
Lemma table_of_bytes h t : wf_table t -> table_of (hdr_bytes h ++ t) = t.
Proof.
  intros Ht. unfold table_of. rewrite drop_app_ge by (rewrite hdr_bytes_length; lia).
  rewrite hdr_bytes_length, Nat.sub_diag. apply take_ge. by rewrite Ht.
Qed.

Definition hdr_for (sq : Z) (t : list Z) : gddr_cal_bank_hdr :=
  {| magic := GDDR_CAL_MAGIC; seq := sq; version := GDDR_CAL_VERSION;
     cksum := gddr_cal_bank_crc (hdr_bytes {| magic := GDDR_CAL_MAGIC; seq := sq;
                                              version := GDDR_CAL_VERSION; cksum := 0 |} ++ t) |}.
Lemma record_unfold sq t : record_of sq t = hdr_bytes (hdr_for sq t) ++ t.
Proof. done. Qed.
Lemma record_length sq t : wf_table t -> length (record_of sq t) = (sizeof_hdr + sizeof_table)%nat.
Proof. intros Ht. by rewrite record_unfold, length_app, hdr_bytes_length, Ht. Qed.
Lemma hdr_for_fits sq t : seq_ok sq -> hdr_fits (hdr_for sq t).
Proof.
  unfold seq_ok, GDDR_CAL_SEQ_ERASED. intros.
  unfold hdr_fits, hdr_for. cbv [magic seq version cksum]. unfold GDDR_CAL_MAGIC, GDDR_CAL_VERSION.
  split_and!; try lia; apply crc_range.
Qed.

(** The CRC does not cover the checksum field. *)
Lemma crc_ignores_cksum m s v c c' t :
  gddr_cal_bank_crc (hdr_bytes {| magic := m; seq := s; version := v; cksum := c |} ++ t)
  = gddr_cal_bank_crc (hdr_bytes {| magic := m; seq := s; version := v; cksum := c' |} ++ t).
Proof.
  assert (Htake : forall c, take 12 (hdr_bytes {| magic := m; seq := s; version := v; cksum := c |} ++ t)
                       = le_bytes 4 m ++ le_bytes 4 s ++ le_bytes 4 v) by done.
  assert (Htable : forall h, table_of (hdr_bytes h ++ t) = take sizeof_table t).
  { intros h. unfold table_of. rewrite drop_app_ge by (rewrite hdr_bytes_length; lia).
    by rewrite hdr_bytes_length, Nat.sub_diag. }
  unfold gddr_cal_bank_crc. by rewrite !Htake, !Htable.
Qed.
Lemma record_hdr sq t : seq_ok sq -> hdr_of (record_of sq t) = hdr_for sq t.
Proof. intros. rewrite record_unfold. apply hdr_of_bytes. by apply hdr_for_fits. Qed.
Lemma record_table sq t : wf_table t -> table_of (record_of sq t) = t.
Proof. intros. rewrite record_unfold. by apply table_of_bytes. Qed.
Lemma record_valid sq t : seq_ok sq -> valid (record_of sq t) = true.
Proof.
  intros Hs. unfold valid. rewrite record_hdr by done. apply andb_true_intro. split.
  - unfold gddr_cal_hdr_is_plausible. cbv [hdr_for magic seq version]. unfold seq_ok in Hs.
    rewrite (proj2 (Z.eqb_neq sq GDDR_CAL_SEQ_ERASED)) by lia. done.
  - rewrite record_unfold. unfold hdr_for at 2. rewrite (crc_ignores_cksum _ _ _ _ 0).
    by apply Z.eqb_refl.
Qed.

(** * A bank after a write that stopped *)
Lemma take_record (a b : list Z) n : n = length a -> take n (a ++ b) = a.
Proof. intros ->. apply take_app_length. Qed.
Lemma holds_record sq t rest : wf_table t -> holds (record_of sq t ++ rest) sq t.
Proof. intros. unfold holds. apply take_record. by rewrite record_length. Qed.

(** While the header is erased the bank is not valid. *)
Lemma erased_hdr_invalid rest : valid (erased sizeof_hdr ++ rest) = false.
Proof. done. Qed.

(** The record with other bytes in place of its checksum is valid only when they are the
    checksum. *)
Lemma torn_cksum sq t w rest :
  seq_ok sq -> wf_table t -> length w = 4%nat -> Forall is_byte w ->
  valid (le_bytes 4 GDDR_CAL_MAGIC ++ le_bytes 4 sq ++ le_bytes 4 GDDR_CAL_VERSION ++ w ++ t ++ rest) = true ->
  w = le_bytes 4 (cksum (hdr_for sq t)).
Proof.
  intros Hs Ht Hw Hb Hv.
  rewrite <- (le_bytes_value w Hb), Hw in Hv |- *. f_equal.
  assert (Hr : 0 <= le_value w < 2 ^ 32).
  { rewrite <- (le_bytes_value w Hb), Hw, le_value_bytes. apply Z.mod_pos_bound. lia. }
  set (h := {| magic := GDDR_CAL_MAGIC; seq := sq; version := GDDR_CAL_VERSION; cksum := le_value w |}).
  assert (Hbs : forall r, le_bytes 4 GDDR_CAL_MAGIC ++ le_bytes 4 sq ++ le_bytes 4 GDDR_CAL_VERSION
            ++ le_bytes 4 (le_value w) ++ r = hdr_bytes h ++ r).
  { intros. unfold hdr_bytes. by rewrite <- !app_assoc. }
  rewrite Hbs in Hv. unfold valid in Hv. apply andb_prop in Hv as [_ Hc]. apply Z.eqb_eq in Hc.
  assert (Hfit : hdr_fits h).
  { unfold hdr_fits, h; cbv [magic seq version cksum]; unfold GDDR_CAL_MAGIC, GDDR_CAL_VERSION.
    unfold seq_ok, GDDR_CAL_SEQ_ERASED in Hs. split_and!; lia. }
  rewrite hdr_of_bytes in Hc by done. simpl cksum in Hc.
  rewrite <- (crc_take (sizeof_hdr + sizeof_table)), app_assoc, take_record in Hc by
    (by rewrite ?length_app, ?hdr_bytes_length, ?Ht).
  rewrite Hc. unfold h, hdr_for. simpl cksum. apply crc_ignores_cksum.
Qed.

(** The header torn after [n] bytes, over an erased one with the body in place. *)
Definition torn_hdr (n : nat) (sq : Z) (t rest : list Z) : list Z :=
  take n (hdr_bytes (hdr_for sq t)) ++ drop n (erased sizeof_hdr) ++ t ++ rest.
Lemma torn_hdr_early n sq t rest : (n < 12)%nat -> valid (torn_hdr n sq t rest) = false.
Proof.
  intros Hn. unfold torn_hdr, hdr_bytes, valid, gddr_cal_hdr_is_plausible. cbv [hdr_for magic seq version].
  do 12 (destruct n as [|n]; [by rewrite ?andb_false_r|]). lia.
Qed.
Lemma split_12 n sq t rest :
  (12 <= n)%nat -> exists w, length w = 4%nat /\ Forall is_byte w /\
    torn_hdr n sq t rest
    = le_bytes 4 GDDR_CAL_MAGIC ++ le_bytes 4 sq ++ le_bytes 4 GDDR_CAL_VERSION ++ w ++ t ++ rest.
Proof.
  intros Hn. set (c := le_bytes 4 (cksum (hdr_for sq t))).
  assert (Hc : length c = 4%nat) by apply le_bytes_length.
  exists (take (n - 12) c ++ drop (n - 12) (erased 4)). split; [|split].
  - rewrite length_app, length_take, length_drop, Hc. unfold erased. rewrite length_replicate. lia.
  - apply list.Forall_app. split; [apply Forall_take, le_bytes_bytes|].
    apply Forall_drop, Forall_replicate. unfold is_byte. lia.
  - unfold torn_hdr, hdr_bytes. fold c. change (magic _) with GDDR_CAL_MAGIC.
    change (seq _) with sq. change (version _) with GDDR_CAL_VERSION.
    rewrite (app_assoc (le_bytes 4 sq)), (app_assoc (le_bytes 4 GDDR_CAL_MAGIC)).
    rewrite take_app_ge by (by rewrite !length_app, !le_bytes_length).
    rewrite !length_app, !le_bytes_length. change (4 + (4 + 4))%nat with 12%nat.
    replace (drop n (erased sizeof_hdr)) with (drop (n - 12) (erased 4)).
    { by rewrite <- !app_assoc. }
    unfold erased. rewrite !drop_replicate. f_equal. unfold sizeof_hdr. lia.
Qed.
Lemma torn_hdr_safe n sq t rest :
  seq_ok sq -> wf_table t -> valid (torn_hdr n sq t rest) = true -> holds (torn_hdr n sq t rest) sq t.
Proof.
  intros Hs Ht Hv. destruct (decide (n < 12)%nat) as [Hn|Hn].
  { by rewrite torn_hdr_early in Hv. }
  destruct (split_12 n sq t rest) as (w & Hw & Hb & E); [lia|].
  rewrite E in Hv |- *. pose proof (torn_cksum _ _ _ _ Hs Ht Hw Hb Hv) as ->.
  replace (le_bytes 4 GDDR_CAL_MAGIC ++ _) with (record_of sq t ++ rest); [by apply holds_record|].
  rewrite record_unfold. unfold hdr_bytes. by rewrite <- !app_assoc.
Qed.

(** The banks as the writes leave them. *)
Lemma body_written n k t :
  (sizeof_hdr + sizeof_table <= n)%nat -> wf_table t ->
  exists rest, overwrite (erased n) sizeof_hdr (take k t) = erased sizeof_hdr ++ take k t ++ rest /\
    length (overwrite (erased n) sizeof_hdr (take k t)) = n.
Proof.
  unfold sizeof_hdr, sizeof_table. intros Hn Ht. unfold overwrite, erased, wf_table, sizeof_table in *.
  rewrite take_replicate, Nat.min_l by lia. eexists. split; [done|].
  rewrite !length_app, !length_replicate, drop_replicate, length_replicate, length_take. lia.
Qed.
Lemma hdr_written n sq t rest :
  overwrite (erased sizeof_hdr ++ t ++ rest) 0 (take n (hdr_bytes (hdr_for sq t))) = torn_hdr n sq t rest.
Proof.
  unfold overwrite, torn_hdr. rewrite take_0, app_nil_l. f_equal.
  rewrite length_take, hdr_bytes_length, Nat.add_0_l.
  rewrite drop_app_le by (unfold erased; rewrite length_replicate; lia).
  f_equal. unfold erased. rewrite !drop_replicate. f_equal. unfold sizeof_hdr. lia.
Qed.

(** * Reading *)
Lemma bind_ret {A B} (k : A -> Prog B) (m : Prog A) fs f x f' fs' :
  m fs f = (Ret x f', fs') -> (m ≫= k) fs f = k x fs' f'.
Proof. intros E. unfold mbind, Prog_bind. by rewrite E. Qed.
Lemma read_headers_clean f :
  read_headers [false; true] [] f
  = (Ret (let cand b := if gddr_cal_hdr_is_plausible (hdr_of (bank f b))
                         then [(b, hdr_of (bank f b))] else [] in cand false ++ cand true) f, []).
Proof.
  unfold read_headers, flash_read, next_fate. cbv [mbind Prog_bind mret Prog_ret].
  rewrite (hdr_of_take sizeof_hdr (bank f false)), (hdr_of_take sizeof_hdr (bank f true)) by done.
  destruct (gddr_cal_hdr_is_plausible (hdr_of (bank f false))),
    (gddr_cal_hdr_is_plausible (hdr_of (bank f true))); done.
Qed.
Lemma try_candidates_clean b bs tb d f :
  try_candidates (b :: bs) tb d [] f
  = if cksum (hdr_of (bank f b)) =? gddr_cal_bank_crc (bank f b)
    then (Ret (0, table_of (bank f b),
               {| active_seq := seq (hdr_of (bank f b)); active_bank := b; have_active := true |}) f, [])
    else try_candidates bs tb d [] f.
Proof.
  cbn [try_candidates]. unfold flash_read at 1, next_fate. cbv [mbind Prog_bind].
  rewrite hdr_of_take, crc_take, table_of_take by (unfold sizeof_hdr, sizeof_table; lia).
  destruct (_ =? _); done.
Qed.

(** A read that meets no fault uses the newer of the valid banks. *)
Lemma gddr_cal_read_clean tb d f :
  gddr_cal_read true tb d [] f
  = (Ret match pick f with
         | Some b => (0, table_of (bank f b),
             {| active_seq := seq (hdr_of (bank f b)); active_bank := b; have_active := true |})
         | None => (- ENOENT, tb,
             {| active_seq := active_seq d; active_bank := active_bank d; have_active := false |})
         end f, []).
Proof.
  unfold gddr_cal_read. cbn [negb]. rewrite (bind_ret _ _ _ _ _ _ _ (read_headers_clean f)).
  unfold pick, valid.
  destruct (gddr_cal_hdr_is_plausible (hdr_of (bank f false))),
    (gddr_cal_hdr_is_plausible (hdr_of (bank f true)));
  unfold candidate_order; cbn [map fst app];
  [destruct (gddr_cal_seq_is_newer _ _)|..]; rewrite ?try_candidates_clean;
  destruct (cksum (hdr_of (bank f false)) =? _), (cksum (hdr_of (bank f true)) =? _); done.
Qed.

Lemma holds_facts bs sq t :
  seq_ok sq -> wf_table t -> holds bs sq t -> valid bs = true /\ seq (hdr_of bs) = sq /\ table_of bs = t.
Proof.
  intros Hs Ht H. unfold holds in H.
  rewrite <- (valid_take (sizeof_hdr + sizeof_table)), <- (hdr_of_take (sizeof_hdr + sizeof_table)),
    <- (table_of_take (sizeof_hdr + sizeof_table)) by (unfold sizeof_hdr, sizeof_table; lia).
  rewrite H, record_hdr, record_table, record_valid by done. done.
Qed.

(** The next sequence number is newer, also over the wrap. *)
Lemma next_seq_ok d : seq_ok (active_seq d) -> seq_ok (next_seq d).
Proof.
  unfold seq_ok, next_seq, GDDR_CAL_SEQ_ERASED. intros.
  assert (0 <= u32 (active_seq d + 1) < 2 ^ 32) by (by apply wrap_in_width).
  destruct (have_active d); [|done]. destruct (Z.eqb_spec (u32 (active_seq d + 1)) 0xFFFFFFFF); lia.
Qed.
Lemma newer_spec a b : gddr_cal_seq_is_newer a b = true <-> 0 < (a - b) mod 2 ^ 32 < 2 ^ 31.
Proof.
  unfold gddr_cal_seq_is_newer. rewrite andb_true_iff, !Z.ltb_lt. done.
Qed.
Lemma next_seq_newer d :
  seq_ok (active_seq d) -> have_active d = true ->
  gddr_cal_seq_is_newer (next_seq d) (active_seq d) = true /\
  gddr_cal_seq_is_newer (active_seq d) (next_seq d) = false.
Proof.
  unfold seq_ok, next_seq, GDDR_CAL_SEQ_ERASED. intros Hs ->.
  rewrite <- not_true_iff_false, !newer_spec.
  assert (E : u32 (active_seq d + 1) = active_seq d + 1) by (apply wrap_id; unfold in_width; lia).
  rewrite E. destruct (Z.eqb_spec (active_seq d + 1) 0xFFFFFFFF) as [Eq|Ne].
  - replace (active_seq d) with 0xFFFFFFFE by lia. vm_compute. split; [done|]. intros [_ [=]].
  - replace (active_seq d + 1 - active_seq d) with 1 by lia.
    replace (active_seq d - (active_seq d + 1)) with (-1) by lia. vm_compute. split; [done|]. intros [_ [=]].
Qed.

(** * Writing *)

(** An operation that fails reports a negative value, and an erase that stops leaves the
    bank as it was or with contents that the driver does not accept. *)
Definition fate_ok (size : nat) (x : fate) : Prop :=
  match x with
  | Done => True
  | Fails rc _ bs => rc < 0 /\ forall b, bs = Some b -> length b = size /\ valid b = false
  | PowerLoss _ bs => forall b, bs = Some b -> length b = size /\ valid b = false
  end.
Definition target (d : driver) : bool := if have_active d then negb (active_bank d) else false.

(** The write stopped: it lost power or returned an error, with the driver as it was. *)
Definition stopped (r : result (Z * driver)) (d : driver) (f : flash) : Prop :=
  r = Off f \/ exists rc, rc < 0 /\ r = Ret (rc, d) f.

Lemma set_bank_twice f b x y : set_bank (set_bank f b x) b y = set_bank f b y.
Proof. by destruct b. Qed.
Lemma bank_set f b x : bank (set_bank f b x) b = x.
Proof. by destruct b. Qed.
Lemma bank_set_other f b x : bank (set_bank f b x) (negb b) = bank f (negb b).
Proof. by destruct b. Qed.
Lemma bank_set_active f b x : bank (set_bank f (negb b) x) b = bank f b.
Proof. by destruct b. Qed.

Lemma next_fate_ok size fs x fs' :
  Forall (fate_ok size) fs -> next_fate fs = (x, fs') -> fate_ok size x /\ Forall (fate_ok size) fs'.
Proof.
  intros H E. destruct fs as [|y fs]; simplify_eq/=; [done|]. by apply list.Forall_cons in H.
Qed.

(** One operation that stops ends the write. *)
Lemma op_stops (op : Prog Z) (k : Z -> Prog (Z * driver)) size fs f d bs :
  (forall rc, rc < 0 -> k rc = mret (rc, d)) ->
  (exists x fs', next_fate fs = (x, fs') /\ fate_ok size x /\ x <> Done /\
    op fs f = match x with
              | Done | Fails _ _ _ => (Ret match x with Fails rc _ _ => rc | _ => 0 end bs, fs')
              | PowerLoss _ _ => (Off bs, fs')
              end) ->
  stopped (fst ((op ≫= k) fs f)) d bs.
Proof.
  intros Hk (x & fs' & Ex & Hx & Hn & E). unfold mbind, Prog_bind. rewrite E.
  destruct x as [|rc n b|n b]; [done| |by left].
  destruct Hx as [Hrc _]. right. exists rc. split; [done|]. rewrite Hk by done. done.
Qed.

Section write.
Context (size : nat) (Hsize : (sizeof_hdr + sizeof_table <= size)%nat).
Context (t : list Z) (Ht : wf_table t) (d : driver) (Hseq : seq_ok (next_seq d)).

(** What a write may leave in its target. *)
Definition outcome (old bs : list Z) : Prop :=
  length bs = size /\ (valid bs = true -> bs = old \/ holds bs (next_seq d) t).

Lemma verify_tail b fs f bs :
  bank f b = bs -> length bs = size -> holds bs (next_seq d) t -> Forall (fate_ok size) fs ->
  let r := fst (('(rc, raw) ← flash_read b (sizeof_hdr + sizeof_table);
       if rc <? 0 then mret (rc, d)
       else if negb (gddr_cal_hdr_is_plausible (hdr_of raw)) || negb (seq (hdr_of raw) =? next_seq d)
               || negb (cksum (hdr_of raw) =? gddr_cal_bank_crc raw)
       then mret (- EIO, d)
       else mret (0, {| active_seq := next_seq d; active_bank := b; have_active := true |})) fs f) in
  r = Ret (0, {| active_seq := next_seq d; active_bank := b; have_active := true |}) f \/ stopped r d f.
Proof.
  intros Hb Hl Hh Hf r. subst r. unfold flash_read. cbv [mbind Prog_bind].
  destruct (next_fate fs) as [x fs'] eqn:Ex. destruct (next_fate_ok _ _ _ _ Hf Ex) as [Hx _].
  destruct x as [|rc n o|n o]; [left | right; right | right; left; done].
  - cbn [Z.ltb Z.compare]. destruct (holds_facts _ _ _ Hseq Ht Hh) as (Hv & Hq & _).
    rewrite <- Hb in Hv, Hq.
    rewrite hdr_of_take, crc_take by (unfold sizeof_hdr, sizeof_table; lia).
    unfold valid in Hv. apply andb_prop in Hv as [-> ->]. by rewrite Hq, Z.eqb_refl.
  - destruct Hx as [Hrc _]. exists rc. split; [done|].
    rewrite (proj2 (Z.ltb_lt rc 0)) by done. done.
Qed.

Lemma record_parts :
  table_of (record_of (next_seq d) t) = t /\
  take sizeof_hdr (record_of (next_seq d) t) = hdr_bytes (hdr_for (next_seq d) t).
Proof.
  split; [by apply record_table|]. rewrite record_unfold. apply take_record. by rewrite hdr_bytes_length.
Qed.

Lemma erase_outcome b f fs x fs' :
  length (bank f b) = size -> fate_ok size x -> x <> Done -> next_fate fs = (x, fs') ->
  exists bs, outcome (bank f b) bs /\
    flash_erase b fs f = match x with
                         | Done | Fails _ _ _ =>
                             (Ret match x with Fails rc _ _ => rc | _ => 0 end (set_bank f b bs), fs')
                         | PowerLoss _ _ => (Off (set_bank f b bs), fs')
                         end.
Proof.
  intros Hl Hx Hn Ex. unfold flash_erase. rewrite Ex. unfold outcome.
  destruct x as [|rc n o|n o]; [done| |]; exists (default (bank f b) o); (split; [|done]);
  (destruct o as [bs|]; [|by auto]); [destruct Hx as [_ Hx]|];
  destruct (Hx bs eq_refl) as [Hbs Hv]; (split; [exact Hbs | intros Hv2; exfalso; change (valid bs = true) in Hv2; congruence]).
Qed.

(** A write of [data] at [off] that stops has programmed some of it. *)
Lemma write_outcome b off data f fs x fs' :
  x <> Done -> next_fate fs = (x, fs') ->
  exists n, flash_write b off data fs f
    = match x with
      | Done | Fails _ _ _ =>
          (Ret match x with Fails rc _ _ => rc | _ => 0 end
             (set_bank f b (overwrite (bank f b) off (take n data))), fs')
      | PowerLoss _ _ => (Off (set_bank f b (overwrite (bank f b) off (take n data))), fs')
      end.
Proof.
  intros Hn Ex. unfold flash_write. rewrite Ex. destruct x as [|rc n o|n o]; [done| |]; by exists n.
Qed.

(** What follows an operation, when it is done and when it stops. *)
Lemma op_cases (op : Prog Z) (k : Z -> Prog (Z * driver)) f fs (Q : result (Z * driver) -> Prop) :
  Forall (fate_ok size) fs -> (forall rc, rc < 0 -> k rc = mret (rc, d)) ->
  (forall fs', next_fate fs = (Done, fs') -> Forall (fate_ok size) fs' ->
     exists f', op fs f = (Ret 0 f', fs') /\ Q (fst (k 0 fs' f'))) ->
  (forall x fs', next_fate fs = (x, fs') -> fate_ok size x -> x <> Done ->
     exists f', op fs f = match x with
              | Done | Fails _ _ _ => (Ret match x with Fails rc _ _ => rc | _ => 0 end f', fs')
              | PowerLoss _ _ => (Off f', fs')
              end /\ forall r, stopped r d f' -> Q r) ->
  Q (fst ((op ≫= k) fs f)).
Proof.
  intros Hf Hk Hd Hs. destruct (next_fate fs) as [x fs'] eqn:Ex.
  destruct (next_fate_ok _ _ _ _ Hf Ex) as [Hx Hf'].
  assert (x = Done \/ x <> Done) as [->|Hn] by (destruct x; auto).
  - destruct (Hd fs' eq_refl Hf') as (f' & E & HQ). by rewrite (bind_ret _ _ _ _ _ _ _ E).
  - destruct (Hs x fs' eq_refl Hx Hn) as (f' & E & HQ). apply HQ.
    apply (op_stops _ _ size); [done|]. eauto 10.
Qed.

(** Every way [gddr_cal_write] can end. *)
Definition ends (f : flash) (r : result (Z * driver)) : Prop :=
  exists bs, outcome (bank f (target d)) bs /\
    (stopped r d (set_bank f (target d) bs) \/
     holds bs (next_seq d) t /\
     r = Ret (0, {| active_seq := next_seq d; active_bank := target d; have_active := true |})
           (set_bank f (target d) bs)).
Lemma ends_stopped f bs r :
  outcome (bank f (target d)) bs -> stopped r d (set_bank f (target d) bs) -> ends f r.
Proof. intros. exists bs. auto. Qed.
Lemma write_effect f fs :
  length (bank f (target d)) = size -> Forall (fate_ok size) fs ->
  ends f (fst (gddr_cal_write true t d fs f)).
Proof.
  intros Hl Hf. unfold gddr_cal_write. cbn [negb]. fold (target d).
  destruct record_parts as [-> ->].
  assert (Hneg : forall rc, rc < 0 -> (rc <? 0) = true) by (intros; by apply Z.ltb_lt).
  apply op_cases; [done | by intros rc ->%Hneg | |].
  2:{ intros x fs' Ex Hx Hn. destruct (erase_outcome (target d) f fs x fs' Hl Hx Hn Ex) as (bs & Ho & E).
      exists (set_bank f (target d) bs). split; [done|]. intros r. by apply ends_stopped. }
  intros fs1 Ex1 Hf1. exists (set_bank f (target d) (erased size)).
  split; [unfold flash_erase; by rewrite Ex1, Hl|]. cbn [Z.ltb Z.compare].
  destruct (body_written size (length t) t Hsize Ht) as (rest & Eb & Hbl).
  rewrite (take_ge t) in Eb, Hbl by done.
  apply op_cases; [done | by intros rc ->%Hneg | |].
  2:{ intros x fs' Ex Hx Hn. destruct (write_outcome (target d) sizeof_hdr t (set_bank f (target d) (erased size)) fs1 x fs' Hn Ex) as [n E].
      eexists. split; [exact E|]. intros r Hr. rewrite set_bank_twice, bank_set in Hr.
      eapply ends_stopped; [|done]. destruct (body_written size n t Hsize Ht) as (rest' & Eb' & Hl').
      split; [done|]. by rewrite Eb', erased_hdr_invalid. }
  intros fs2 Ex2 Hf2. eexists. split; [unfold flash_write; rewrite Ex2; done|].
  rewrite set_bank_twice, bank_set, Eb. cbn [Z.ltb Z.compare]. rewrite Eb in Hbl.
  assert (Hout : forall n, outcome (bank f (target d)) (torn_hdr n (next_seq d) t rest)).
  { intros n. split; [|intros; right; by apply torn_hdr_safe].
    rewrite <- Hbl. unfold torn_hdr. rewrite !length_app, length_take, length_drop, hdr_bytes_length.
    unfold erased. rewrite length_replicate. lia. }
  apply op_cases; [done | by intros rc ->%Hneg | |].
  2:{ intros x fs' Ex Hx Hn.
      destruct (write_outcome (target d) 0 (hdr_bytes (hdr_for (next_seq d) t))
                  (set_bank f (target d) (erased sizeof_hdr ++ t ++ rest)) fs2 x fs' Hn Ex) as [n E].
      eexists. split; [exact E|]. intros r Hr. rewrite set_bank_twice, bank_set, hdr_written in Hr.
      by eapply ends_stopped. }
  intros fs3 Ex3 Hf3. eexists. split; [unfold flash_write; rewrite Ex3; done|].
  rewrite set_bank_twice, bank_set. cbn [Z.ltb Z.compare].
  rewrite <- (take_ge (hdr_bytes (hdr_for (next_seq d) t)) sizeof_hdr), hdr_written
    by (by rewrite hdr_bytes_length).
  set (bs := torn_hdr _ _ _ _).
  assert (Hbs : holds bs (next_seq d) t).
  { unfold bs, torn_hdr. rewrite take_ge, drop_ge, app_nil_l, app_assoc by (by rewrite ?hdr_bytes_length).
    apply holds_record. done. }
  exists bs. split; [apply Hout|].
  destruct (verify_tail (target d) fs3 (set_bank f (target d) bs) bs) as [->|Hr]; auto using bank_set.
Qed.
End write.

(** * Sequences of writes and restarts *)

(** What the flash promises: [committed] is the table of the last acknowledged write, or
    the one read when the chip last started; [pending] the tables of the writes attempted
    since. *)
Record history := { committed : option (list Z); pending : list (list Z) }.
Inductive op := Write (t : list Z) (fs : list fate) | Restart.
Record system := { flash_of : flash; driver_of : driver; history_of : history }.

(** A start of the chip: the driver's variables are zero, and [gddr_cal_read] is called. Its reads
    work; [transient_read_loses_update] shows what follows when one does not. *)
Definition reset_driver : driver := {| active_seq := 0; active_bank := false; have_active := false |}.
Definition start (f : flash) : system :=
  match fst (gddr_cal_read true [] reset_driver [] f) with
  | Ret (rc, t, d) f =>
      {| flash_of := f; driver_of := d;
         history_of := {| committed := if rc =? 0 then Some t else None; pending := [] |} |}
  | Off f => {| flash_of := f; driver_of := reset_driver;
                history_of := {| committed := None; pending := [] |} |}
  end.
Definition step (s : system) (o : op) : system :=
  match o with
  | Restart => start (flash_of s)
  | Write t fs =>
      let h := history_of s in
      match fst (gddr_cal_write true t (driver_of s) fs (flash_of s)) with
      | Off f => start f
      | Ret (rc, d) f =>
          {| flash_of := f; driver_of := d;
             history_of := if rc =? 0 then {| committed := Some t; pending := [] |}
                           else {| committed := committed h; pending := t :: pending h |} |}
      end
  end.
Definition op_ok (size : nat) (o : op) : Prop :=
  match o with Write t fs => wf_table t /\ Forall (fate_ok size) fs | Restart => True end.

(** Bank [b] under [s] is used when the other bank has sequence number [o]. *)
Definition prefers (b : bool) (s o : Z) : bool :=
  if b then gddr_cal_seq_is_newer s o else negb (gddr_cal_seq_is_newer o s).
(** The bank holds one of the tables that were being written. *)
Definition attempt (bs : list Z) (d : driver) (ts : list (list Z)) : Prop :=
  exists t, t ∈ ts /\ wf_table t /\ holds bs (next_seq d) t.

Record Inv (size : nat) (f : flash) (d : driver) (h : history) : Prop := {
  inv_size : forall b, length (bank f b) = size;
  inv_seq : seq_ok (active_seq d);
  inv_live : match committed h with
             | Some t => have_active d = true /\ wf_table t /\ holds (bank f (active_bank d)) (active_seq d) t
             | None => have_active d = false /\ valid (bank f true) = false
             end;
  inv_other : valid (bank f (target d)) = true ->
    attempt (bank f (target d)) d (pending h) \/
    have_active d = true /\ prefers (active_bank d) (active_seq d) (seq (hdr_of (bank f (target d)))) = true
}.

Lemma pick_spec f b : pick f = Some b <->
  valid (bank f b) = true /\
  (valid (bank f (negb b)) = true ->
   prefers b (seq (hdr_of (bank f b))) (seq (hdr_of (bank f (negb b)))) = true).
Proof.
  unfold pick. destruct b; cbn [negb prefers];
  destruct (valid (bank f false)), (valid (bank f true)), (gddr_cal_seq_is_newer _ _); cbn;
  intuition congruence.
Qed.
Lemma pick_none f : pick f = None <-> valid (bank f false) = false /\ valid (bank f true) = false.
Proof.
  unfold pick. destruct (valid (bank f false)), (valid (bank f true)), (gddr_cal_seq_is_newer _ _); cbn; intuition congruence.
Qed.

(** The flash holds a record of what was promised. *)
Definition promised (h : history) (t : list Z) : Prop := committed h = Some t \/ t ∈ pending h.
Lemma inv_promise size f d h :
  Inv size f d h ->
  match pick f with
  | Some b => exists t sq, promised h t /\ wf_table t /\ seq_ok sq /\ holds (bank f b) sq t
  | None => committed h = None
  end.
Proof.
  intros [Hsz Hsq Hl Ho]. pose proof (next_seq_ok d Hsq) as Hnx. unfold promised, target in *.
  destruct (committed h) as [t|].
  - destruct Hl as (Ha & Ht & Hh). rewrite Ha in Ho. destruct (holds_facts _ _ _ Hsq Ht Hh) as (Hv & Hq & _).
    destruct (pick f) as [b|] eqn:Ep.
    2:{ apply pick_none in Ep as [? ?]. destruct (active_bank d); congruence. }
    apply pick_spec in Ep as [Hvb Hp]. destruct (decide (b = active_bank d)) as [->|Hne].
    { exists t, (active_seq d). auto. }
    assert (b = negb (active_bank d)) as -> by (destruct b, (active_bank d); done).
    rewrite negb_involutive in Hp. specialize (Hp Hv). rewrite Hq in Hp.
    destruct (Ho Hvb) as [(t' & Hin & Ht' & Hh')|[_ Hp']]; [by eauto 10|].
    exfalso. destruct (active_bank d); unfold prefers, negb, gddr_cal_seq_is_newer in *.
    + rewrite Hp' in Hp. done.
    + rewrite Hp in Hp'. done.
  - destruct Hl as [Ha Hb]. rewrite Ha in Ho. destruct (pick f) as [b|] eqn:Ep; [|done].
    apply pick_spec in Ep as [Hvb _]. destruct b; [congruence|].
    destruct (Ho Hvb) as [(t' & Hin & Ht' & Hh')|[? _]]; [|congruence]. by eauto 10.
Qed.

(** After a start. *)
Lemma start_unfold f :
  start f = {| flash_of := f;
               driver_of := match pick f with
                            | Some b => {| active_seq := seq (hdr_of (bank f b)); active_bank := b; have_active := true |}
                            | None => reset_driver end;
               history_of := {| committed := pick f ≫= (λ b, Some (table_of (bank f b))); pending := [] |} |}.
Proof. unfold start. rewrite gddr_cal_read_clean. by destruct (pick f). Qed.
Lemma boot_inv size f :
  (forall b, length (bank f b) = size) ->
  (forall b, pick f = Some b -> exists t sq, wf_table t /\ seq_ok sq /\ holds (bank f b) sq t) ->
  Inv size f (driver_of (start f)) (history_of (start f)).
Proof.
  intros Hsz Hp. rewrite start_unfold. destruct (pick f) as [b|] eqn:Ep;
    cbn [driver_of history_of mbind option_bind].
  - destruct (Hp b eq_refl) as (t & sq & Ht & Hs & Hh). destruct (holds_facts _ _ _ Hs Ht Hh) as (Hv & Hq & Htb).
    apply pick_spec in Ep as [_ Hpr]. rewrite Hq in *. rewrite Htb.
    split; cbn [active_seq active_bank have_active committed pending target]; auto.
  - apply pick_none in Ep as [Hva Hvb]. split; cbn [active_seq have_active committed reset_driver target]; try done; congruence.
Qed.

(** Every step keeps the invariant. *)
Lemma inv_stopped size f d h t bs :
  Inv size f d h -> wf_table t -> outcome size t d (bank f (target d)) bs ->
  Inv size (set_bank f (target d) bs) d {| committed := committed h; pending := t :: pending h |}.
Proof.
  intros [Hsz Hsq Hl Ho] Ht [Hlen Hout]. split; cbn.
  - intros b. destruct (decide (b = target d)) as [->|Hne]; [by rewrite bank_set|].
    assert (b = negb (target d)) as -> by (destruct b, (target d); done). by rewrite bank_set_other.
  - done.
  - destruct (committed h) as [c|].
    + destruct Hl as (Ha & Hc & Hh). split_and!; try done. unfold target. rewrite Ha.
      by rewrite bank_set_active.
    + destruct Hl as [Ha Hv]. split; [done|]. unfold target. by rewrite Ha.
  - rewrite bank_set. intros Hv. destruct (Hout Hv) as [->|Hh].
    + destruct (Ho Hv) as [(t' & Hin & ? & ?)|?]; [left|by right]. exists t'. split; [by right|auto].
    + left. exists t. split; [by left|auto].
Qed.
Lemma inv_written size f d h t bs :
  Inv size f d h -> wf_table t -> length bs = size -> holds bs (next_seq d) t ->
  Inv size (set_bank f (target d) bs)
    {| active_seq := next_seq d; active_bank := target d; have_active := true |}
    {| committed := Some t; pending := [] |}.
Proof.
  intros [Hsz Hsq Hl Ho] Ht Hlen Hh.
  set (d' := {| active_seq := next_seq d; active_bank := target d; have_active := true |}).
  assert (target d' = negb (target d)) as Htd by done.
  split; rewrite ?Htd; cbn [active_seq active_bank have_active committed pending d'].
  - intros b. destruct (decide (b = target d)) as [->|Hne]; [by rewrite bank_set|].
    assert (b = negb (target d)) as -> by (destruct b, (target d); done). by rewrite bank_set_other.
  - by apply next_seq_ok.
  - by rewrite bank_set.
  - rewrite bank_set_other. intros Hv. right. split; [done|].
    destruct (committed h) as [c|].
    + destruct Hl as (Ha & Hc & Hh'). unfold target in *. rewrite Ha, negb_involutive in *.
      destruct (holds_facts _ _ _ Hsq Hc Hh') as (_ & Hq & _). rewrite Hq.
      destruct (next_seq_newer d Hsq Ha) as [Hn1 Hn2]. destruct (active_bank d); cbn; by rewrite ?Hn1, ?Hn2.
    + destruct Hl as [Ha Hvb]. unfold target in Hv. rewrite Ha in Hv. cbn [negb] in Hv. congruence.
Qed.
Lemma step_inv size s o :
  (sizeof_hdr + sizeof_table <= size)%nat -> op_ok size o ->
  Inv size (flash_of s) (driver_of s) (history_of s) ->
  Inv size (flash_of (step s o)) (driver_of (step s o)) (history_of (step s o)).
Proof.
  intros Hsize Hop HI.
  assert (Hst : forall f d h, Inv size f d h -> Inv size (flash_of (start f)) (driver_of (start f)) (history_of (start f))).
  { intros f d h Hi. rewrite start_unfold at 1. cbn. apply boot_inv; [by apply Hi|].
    intros b Ep. pose proof (inv_promise _ _ _ _ Hi) as Hp. rewrite Ep in Hp.
    destruct Hp as (t & sq & _ & ? & ? & ?). eauto. }
  destruct o as [t fs|]; [|by eapply Hst]. destruct Hop as [Ht Hf]. cbn [step].
  pose proof (write_effect size Hsize t Ht (driver_of s) (next_seq_ok _ (inv_seq _ _ _ _ HI)) (flash_of s) fs
    (inv_size _ _ _ _ HI _) Hf) as (bs & Ho & [[E|(rc & Hrc & E)]|[Hh E]]); rewrite E.
  - exact (Hst _ _ _ (inv_stopped _ _ _ _ _ _ HI Ht Ho)).
  - rewrite (proj2 (Z.eqb_neq rc 0)) by lia. by apply inv_stopped.
  - exact (inv_written _ _ _ _ _ _ HI Ht (proj1 Ho) Hh).
Qed.

(** Whatever the flash contains, a bank the driver accepts is a complete record. *)
Lemma word_bytes bs off :
  Forall is_byte bs -> (off + 4 <= length bs)%nat -> le_bytes 4 (word_at bs off) = take 4 (drop off bs).
Proof.
  intros Hb Hl. unfold word_at.
  assert (Hlen : length (take 4 (drop off bs)) = 4%nat) by (rewrite length_take, length_drop; lia).
  rewrite <- Hlen at 1. apply le_bytes_value. by apply Forall_take, Forall_drop.
Qed.
Lemma hdr_bytes_of bs :
  Forall is_byte bs -> (sizeof_hdr <= length bs)%nat -> hdr_bytes (hdr_of bs) = take sizeof_hdr bs.
Proof.
  unfold sizeof_hdr. intros Hb Hl. unfold hdr_bytes, hdr_of. cbn [magic seq version cksum].
  rewrite !word_bytes by (done || lia). clear Hb.
  do 16 (destruct bs as [|? bs]; [cbn in Hl; lia|]). done.
Qed.
Lemma valid_holds bs :
  Forall is_byte bs -> (sizeof_hdr + sizeof_table <= length bs)%nat -> valid bs = true ->
  wf_table (table_of bs) /\ seq_ok (seq (hdr_of bs)) /\ holds bs (seq (hdr_of bs)) (table_of bs).
Proof.
  intros Hb Hl Hv. apply andb_prop in Hv as [Hp Hc]. apply Z.eqb_eq in Hc.
  unfold gddr_cal_hdr_is_plausible in Hp. apply andb_prop in Hp as [Hp Hver].
  apply andb_prop in Hp as [Hmag Hseq]. apply Z.eqb_eq in Hmag, Hver. apply negb_true_iff, Z.eqb_neq in Hseq.
  assert (Hwf : wf_table (table_of bs)).
  { unfold wf_table, table_of. rewrite length_take, length_drop. lia. }
  assert (Hsr : 0 <= seq (hdr_of bs) < 2 ^ 32).
  { cbn [hdr_of seq]. unfold word_at. set (w := take 4 (drop 4 bs)).
    assert (Hw : Forall is_byte w) by (by apply Forall_take, Forall_drop).
    assert (Hwl : length w = 4%nat).
    { unfold w, sizeof_hdr, sizeof_table in *. rewrite length_take, length_drop. lia. }
    rewrite <- (le_bytes_value w Hw), le_value_bytes, Hwl. by apply Z.mod_pos_bound. }
  assert (Hsplit : take (sizeof_hdr + sizeof_table) bs = hdr_bytes (hdr_of bs) ++ table_of bs).
  { rewrite hdr_bytes_of by (done || lia). unfold table_of.
    rewrite <- (take_drop sizeof_hdr (take (sizeof_hdr + sizeof_table) bs)).
    rewrite firstn_firstn, skipn_firstn_comm. f_equal. }
  split; [done|]. split; [unfold seq_ok, GDDR_CAL_SEQ_ERASED in *; lia|].
  unfold holds. rewrite Hsplit, record_unfold. f_equal. f_equal.
  rewrite <- (crc_take (sizeof_hdr + sizeof_table)), Hsplit in Hc by lia.
  destruct (hdr_of bs) as [m s v c]. cbn [magic seq version cksum] in *. subst m v.
  unfold hdr_for. f_equal. rewrite Hc. apply crc_ignores_cksum.
Qed.
Definition flash_ok (size : nat) (f : flash) : Prop :=
  forall b, length (bank f b) = size /\ Forall is_byte (bank f b).
Lemma flash_start_inv size f :
  (sizeof_hdr + sizeof_table <= size)%nat -> flash_ok size f ->
  Inv size f (driver_of (start f)) (history_of (start f)).
Proof.
  intros Hsize Hf. apply boot_inv; [intros b; apply Hf|]. intros b Ep. apply pick_spec in Ep as [Hv _].
  destruct (Hf b) as [Hl Hb]. destruct (valid_holds (bank f b) Hb) as (? & ? & ?); [lia|done|]. eauto 10.
Qed.
Lemma run_inv size f ops :
  (sizeof_hdr + sizeof_table <= size)%nat -> flash_ok size f -> Forall (op_ok size) ops ->
  let s := fold_left step ops (start f) in Inv size (flash_of s) (driver_of s) (history_of s).
Proof.
  intros Hsize Hf Hops. assert (Hi : Inv size (flash_of (start f)) (driver_of (start f)) (history_of (start f))).
  { rewrite start_unfold at 1. by apply flash_start_inv. }
  revert Hi. generalize (start f). induction Hops as [|o ops Ho Hops IH]; intros s Hi; [done|].
  cbn [fold_left]. apply IH. by apply step_inv.
Qed.

Definition flash_after (r : result (Z * driver)) : flash := match r with Off f | Ret _ f => f end.
Definition acknowledged (r : result (Z * driver)) : bool :=
  match r with Ret (rc, _) _ => rc =? 0 | Off _ => false end.

(** C4. Power loss. The flash may start with any contents; any writes and restarts follow, with any
    operation of a write failing or losing power part-way (a program operation after some of its bytes, an
    erase with the bank as it was or not acceptable: [fate_ok]), while the reads of a start work (after a
    start whose read failed an acknowledged write can be lost: [transient_read_loses_update]). Of one more
    write, whether it returns or loses power: the next start, if its reads work, reads a whole table, the
    new one or one the flash had promised; the new one if the write was acknowledged; and it finds
    none only while none was ever there. *)
Theorem gddr_cal_crash_safe size f0 ops t fs tb d :
  (sizeof_hdr + sizeof_table <= size)%nat -> flash_ok size f0 -> Forall (op_ok size) ops ->
  op_ok size (Write t fs) ->
  let s := fold_left step ops (start f0) in
  let r := fst (gddr_cal_write true t (driver_of s) fs (flash_of s)) in
  exists rc x d', gddr_cal_read true tb d [] (flash_after r) = (Ret (rc, x, d') (flash_after r), []) /\
    (acknowledged r = true -> rc = 0 /\ x = t) /\
    (rc = 0 /\ (x = t \/ promised (history_of s) x) \/
     rc = - ENOENT /\ committed (history_of s) = None /\ acknowledged r = false).
Proof.
  intros Hsize Hf Hops [Ht Hfs] s r. pose proof (run_inv size f0 ops Hsize Hf Hops) as HI. fold s in HI.
  pose proof (write_effect size Hsize t Ht (driver_of s) (next_seq_ok _ (inv_seq _ _ _ _ HI)) (flash_of s) fs
    (inv_size _ _ _ _ HI _) Hfs) as (bs & Ho & E). fold r in E. rewrite gddr_cal_read_clean.
  destruct E as [Hst|[Hh E]].
  - assert (Ef : flash_after r = set_bank (flash_of s) (target (driver_of s)) bs /\ acknowledged r = false).
    { destruct Hst as [->|(rc & Hrc & ->)]; [done|]. split; [done|]. apply Z.eqb_neq. lia. }
    destruct Ef as [-> ->]. pose proof (inv_stopped _ _ _ _ _ _ HI Ht Ho) as HI'.
    pose proof (inv_promise _ _ _ _ HI') as Hp. destruct (pick _) as [b|].
    + destruct Hp as (x & sq & Hx & Hwx & Hsx & Hhx). destruct (holds_facts _ _ _ Hsx Hwx Hhx) as (_ & _ & ->).
      do 3 eexists. split; [done|]. split; [done|]. left. split; [done|].
      destruct Hx as [?|Hin]; [right; by left|]. apply elem_of_cons in Hin as [->|?]; [by left|right; by right].
    + do 3 eexists. split; [done|]. split; [done|]. right. done.
  - rewrite E. cbn [flash_after acknowledged]. destruct Ho as [Hlen _].
    pose proof (inv_promise _ _ _ _ (inv_written _ _ _ _ _ _ HI Ht Hlen Hh)) as Hp.
    destruct (pick _) as [b|]; [|done]. destruct Hp as (x & sq & Hx & Hwx & Hsx & Hhx).
    destruct (holds_facts _ _ _ Hsx Hwx Hhx) as (_ & _ & ->).
    destruct Hx as [[= <-]|Hin]; [|by apply elem_of_nil in Hin].
    do 3 eexists. split; [done|]. auto.
Qed.
End cal.

(** * Instances *)
Definition sum_crc (c : Z) (bs : list Z) : Z := fold_left (λ a b, (a * 31 + b) mod 2 ^ 16) bs c.
Definition flat (x : Z) : list Z := replicate sizeof_table x.
Definition blank : flash :=
  {| bank_a := erased (sizeof_hdr + sizeof_table); bank_b := erased (sizeof_hdr + sizeof_table) |}.

(** A first table, a second one stopped by an error in the erase, a restart, and a third
    one that loses power 14 bytes into its header. *)
Lemma gddr_cal_crash_safe_witness :
  let s := fold_left (step sum_crc) [Write (flat 1) []; Write (flat 2) [Fails (-5) 0 None]; Restart]
             (start sum_crc blank) in
  let r := fst (gddr_cal_write sum_crc true (flat 3) (driver_of s) [Done; Done; PowerLoss 14 None] (flash_of s)) in
  exists rc x d', gddr_cal_read sum_crc true [] reset_driver [] (flash_after r)
      = (Ret (rc, x, d') (flash_after r), []) /\
    (acknowledged r = true -> rc = 0 /\ x = flat 3) /\
    (rc = 0 /\ (x = flat 3 \/ promised (history_of s) x) \/
     rc = - ENOENT /\ committed (history_of s) = None /\ acknowledged r = false).
Proof.
  apply (gddr_cal_crash_safe sum_crc (sizeof_hdr + sizeof_table) blank
           [Write (flat 1) []; Write (flat 2) [Fails (-5) 0 None]; Restart] (flat 3)
           [Done; Done; PowerLoss 14 None] [] reset_driver).
  - done.
  - intros []; (split; [done|]); apply Forall_replicate; unfold is_byte; lia.
  - repeat constructor; try done; lia.
  - split; [done|]. repeat constructor; done.
Defined.

(** A header read that fails once, while the live table is in bank B, makes the driver
    forget it. The next write starts over in bank A with sequence number 0 and reports
    success; the next start finds bank B newer and reads the table that was replaced. *)
Lemma transient_read_loses_update :
  let live := record_of sum_crc 5 (flat 1) in
  let old := {| bank_a := erased 272; bank_b := live |} in
  let new := {| bank_a := record_of sum_crc 0 (flat 2); bank_b := live |} in
  fst (gddr_cal_read sum_crc true [] reset_driver [Done; Fails (- EIO) 0 None] old)
    = Ret (- ENOENT, [], reset_driver) old /\
  fst (gddr_cal_write sum_crc true (flat 2) reset_driver [] old)
    = Ret (0, {| active_seq := 0; active_bank := false; have_active := true |}) new /\
  fst (gddr_cal_read sum_crc true [] reset_driver [] new)
    = Ret (0, flat 1, {| active_seq := 5; active_bank := true; have_active := true |}) new.
Proof. split; [|split]; vm_compute; reflexivity. Qed.
