(* ===== verification/Jtag.v ===== *)
(** JTAG access to the chip: [drivers/jtag/jtag_bitbang.c], the emulated port
    [drivers/jtag/jtag_emul.c], and the boot-ROM patches the board controller applies
    through them, [lib/tenstorrent/jtag_bootrom/jtag_bootrom.c].

    The driver runs on any state with the pins TCK, TMS, TDI and TDO (the class
    [JtagPins]).  Two states are given: a test access port of IEEE 1149.1 with any data
    registers behind it, and the repository's emulator.  The recursive mutex is not
    modelled: a session runs alone. *)
From stdpp Require Import prelude list numbers.
From Stdlib Require Import ZArith Lia.
From S2P Require Import Prelude.
Open Scope Z_scope.

(** * Reversing bits: [include/tenstorrent/bitrev.h] *)
Definition rev4 : list Z := [0x0; 0x8; 0x4; 0xc; 0x2; 0xa; 0x6; 0xe; 0x1; 0x9; 0x5; 0xd; 0x3; 0xb; 0x7; 0xf].
Definition bitrev4 (nibble : Z) : Z := nth (Z.to_nat (Z.land nibble 0xf)) rev4 0.
Definition bitrev8 (byte : Z) : Z := u8 (Z.lor (Z.shiftl (bitrev4 byte) 4) (bitrev4 (Z.shiftr byte 4))).
Definition bitrev16 (hword : Z) : Z :=
  u16 (Z.lor (Z.shiftl (bitrev8 (u8 hword)) 8) (bitrev8 (u8 (Z.shiftr hword 8)))).
Definition bitrev32 (word : Z) : Z :=
  u32 (Z.lor (Z.shiftl (bitrev16 (u16 word)) 16) (bitrev16 (u16 (Z.shiftr word 16)))).
Definition bitrev64 (dword : Z) : Z :=
  u64 (Z.lor (Z.shiftl (bitrev32 (u32 dword)) 32) (bitrev32 (u32 (Z.shiftr dword 32)))).

(** * The bit-banging driver *)
Class JtagPins (W : Type) := {
  pin_tck : bool -> W -> W;
  pin_tms : bool -> W -> W;
  pin_tdi : bool -> W -> W;
  pin_trst : bool -> W -> W;
  pin_tdo : W -> bool;
}.

Definition MST_TAP_OP_ISCAN_SEL : Z := 2.
Definition TENSIX_SM_RTAP : Z := 0x19e.
Definition TENSIX_SM_SIBLEN : Z := 4.
Definition TENSIX_SM_TDRLEN : Z := 32.
Definition TENSIX_SIBLEN_PLUS_1_OR_0 : Z := if 0 <? TENSIX_SM_SIBLEN then TENSIX_SM_SIBLEN + 1 else 0.
Definition TENSIX_TDRLEN_SIBLEN_PLUS_1 : Z := 1 + TENSIX_SM_TDRLEN + TENSIX_SM_SIBLEN.
Definition SIBSHIFT (x : Z) : Z := Z.shiftr x TENSIX_SM_SIBLEN.
Definition SIBSHIFTUP (x : Z) : Z := u64 (Z.shiftl x TENSIX_SM_SIBLEN).
Definition INSTR_REG_BISTEN_SEL_END_0 : Z := 9.
Definition INSTR_REG_BISTEN_SEL_START_0 : Z := 7.
Definition INSTR_REG_BISTEN_SEL_MASK_0 : Z := 7.
Definition INSTR_REG_BISTEN_SEL_MASK_1 : Z := 0x3f.
Definition AXI_CNTL_CLEAR : Z := 0.
Definition AXI_CNTL_READ : Z := BIT 31.
Definition AXI_CNTL_WRITE : Z := Z.lor (Z.lor (BIT 31) (BIT 8)) (BIT_MASK 4).
Definition ARC_AXI_ADDR_TDR : Z := 2.
Definition ARC_AXI_DATA_TDR : Z := 3.
Definition ARC_AXI_CONTROL_STATUS_TDR : Z := 4.

(** The fields of the instruction register, from bit 0 up. *)
Record jtag_instr_t := { op : Z; bisten_sel_0 : Z; bisten_sel_1 : Z }.
Definition instr_val (i : jtag_instr_t) : Z :=
  Z.lor (Z.lor (op i) (Z.shiftl (bisten_sel_0 i) 7)) (Z.shiftl (bisten_sel_1 i) 17).

Section driver.
Context {W : Type} `{JtagPins W}.
Implicit Types (w : W).

Definition SET_TCK w : W := pin_tck true w.
Definition CLR_TCK w : W := pin_tck false w.
Definition SET_TMS w : W := pin_tms true w.
Definition CLR_TMS w : W := pin_tms false w.
Definition CLR_TDI w : W := pin_tdi false w.
Definition GET_TDO w : bool := pin_tdo w.
Definition IF_TDI (stmt : bool) w : W := pin_tdi stmt w.

Fixpoint tick_loop (count : nat) w : W :=
  match count with O => w | S count => tick_loop count (SET_TCK (CLR_TCK w)) end.
Definition jtag_bitbang_tick (count : nat) w : W := CLR_TCK (tick_loop count w).

Definition jtag_bitbang_reset (have_trst : bool) w : W :=
  let w := if have_trst then pin_trst false (pin_trst true w) else w in
  let w := SET_TMS (CLR_TDI w) in
  let w := jtag_bitbang_tick 5 w in
  let w := CLR_TMS w in
  jtag_bitbang_tick 1 w.

(** [for (; count > 1; --count, data >>= 1)]: [n] rounds, the shifted [data] after them. *)
Fixpoint shift_ir (n : nat) (data : Z) w : Z * W :=
  match n with
  | O => (data, w)
  | S n => shift_ir n (Z.shiftr data 1) (jtag_bitbang_tick 1 (IF_TDI (Z.odd data) w))
  end.
Definition jtag_bitbang_update_ir (count data : Z) w : W :=
  let w := SET_TMS w in
  let w := jtag_bitbang_tick 2 w in
  let w := CLR_TMS w in
  let w := jtag_bitbang_tick 1 w in
  let '(data, w) := shift_ir (Z.to_nat (count - 1)) data w in
  let w := SET_TMS w in
  let w := IF_TDI (Z.odd data) w in
  let w := jtag_bitbang_tick 1 w in
  let w := SET_TMS w in
  jtag_bitbang_tick 2 w.

Fixpoint shift_dr (n : nat) (capture : bool) (data_in data_out : Z) w : Z * Z * W :=
  match n with
  | O => (data_in, data_out, w)
  | S n =>
      let w := IF_TDI (Z.odd data_in) w in
      let data_out := if capture then u64 (Z.shiftl (Z.lor data_out (Z.b2z (GET_TDO w))) 1) else data_out in
      shift_dr n capture (Z.shiftr data_in 1) data_out (jtag_bitbang_tick 1 w)
  end.
Definition jtag_bitbang_xfer_dr (count data_in : Z) (idle capture : bool) w : Z * W :=
  if count =? 0 then (0, w)
  else
    let w := CLR_TMS w in
    let w := jtag_bitbang_tick 1 w in
    let w := jtag_bitbang_tick 1 w in
    let '(data_in, data_out, w) := shift_dr (Z.to_nat (count - 1)) capture data_in 0 w in
    let w := SET_TMS w in
    let w := IF_TDI (Z.odd data_in) w in
    let data_out := if capture then Z.lor data_out (Z.b2z (GET_TDO w)) else data_out in
    let w := jtag_bitbang_tick 1 w in
    let w := jtag_bitbang_tick 1 w in
    let w := if idle then jtag_bitbang_tick 1 (CLR_TMS w) else jtag_bitbang_tick 1 w in
    let data_out := if capture then bitrev64 (u64 (Z.shiftl data_out (64 - count))) else data_out in
    (data_out, w).
Definition jtag_bitbang_capture_dr_idle count data_in w : Z * W := jtag_bitbang_xfer_dr count data_in true true w.
Definition jtag_bitbang_capture_dr count data_in w : Z * W := jtag_bitbang_xfer_dr count data_in false true w.
Definition jtag_bitbang_update_dr_idle count data_in w : W := snd (jtag_bitbang_xfer_dr count data_in true false w).
Definition jtag_bitbang_update_dr count data_in w : W := snd (jtag_bitbang_xfer_dr count data_in false false w).

Definition jtag_bitbang_read_id w : Z * W :=
  let w := jtag_bitbang_update_ir 24 6 w in
  let '(id, w) := jtag_bitbang_capture_dr_idle 32 0 w in
  (u32 id, w).

(** ** Accesses to the chip's AXI bus *)
Definition access_instr (rtap_addr : Z) : Z :=
  instr_val {| op := MST_TAP_OP_ISCAN_SEL;
     bisten_sel_0 := Z.land rtap_addr INSTR_REG_BISTEN_SEL_MASK_0;
     bisten_sel_1 := Z.land (Z.shiftr rtap_addr (INSTR_REG_BISTEN_SEL_END_0 - INSTR_REG_BISTEN_SEL_START_0 + 1))
                       INSTR_REG_BISTEN_SEL_MASK_1 |}.
Definition jtag_setup_access (rtap_addr : Z) w : W := jtag_bitbang_update_ir 24 (access_instr rtap_addr) w.
Definition jtag_wr_tensix_sm_rtap_tdr_idle (tdr_addr wrvalue : Z) w : W :=
  let w := jtag_bitbang_update_dr TENSIX_SIBLEN_PLUS_1_OR_0 (tdr_addr + 1) w in
  jtag_bitbang_update_dr_idle TENSIX_TDRLEN_SIBLEN_PLUS_1 (SIBSHIFTUP wrvalue) w.
Definition jtag_wr_tensix_sm_rtap_tdr (tdr_addr wrvalue : Z) w : W :=
  let w := jtag_bitbang_update_dr TENSIX_SIBLEN_PLUS_1_OR_0 (tdr_addr + 1) w in
  jtag_bitbang_update_dr TENSIX_TDRLEN_SIBLEN_PLUS_1 (SIBSHIFTUP wrvalue) w.
Definition jtag_rd_tensix_sm_rtap_tdr_idle (tdr_addr : Z) w : Z * W :=
  let w := jtag_bitbang_update_dr TENSIX_SIBLEN_PLUS_1_OR_0 (tdr_addr + 1) w in
  let '(v, w) := jtag_bitbang_capture_dr_idle TENSIX_TDRLEN_SIBLEN_PLUS_1 0 w in
  (u32 (SIBSHIFT v), w).
Definition jtag_rd_tensix_sm_rtap_tdr (tdr_addr : Z) w : Z * W :=
  let w := jtag_bitbang_update_dr TENSIX_SIBLEN_PLUS_1_OR_0 (tdr_addr + 1) w in
  let '(v, w) := jtag_bitbang_capture_dr TENSIX_TDRLEN_SIBLEN_PLUS_1 0 w in
  (u32 (SIBSHIFT v), w).

Definition jtag_req_clear w : W :=
  let w := jtag_setup_access TENSIX_SM_RTAP w in
  jtag_wr_tensix_sm_rtap_tdr_idle 2 AXI_CNTL_CLEAR w.

(** The status polls of a read: at most [n]. *)
Fixpoint poll_status (n : nat) (axi_status : Z) w : Z * W :=
  match n with
  | O => (axi_status, w)
  | S n =>
      let '(axi_status, w) := jtag_rd_tensix_sm_rtap_tdr ARC_AXI_CONTROL_STATUS_TDR w in
      if negb (Z.land axi_status 0xF =? 0) then (axi_status, w) else poll_status n axi_status w
  end.
(** Result: return value, the word read, the pins. *)
Definition jtag_axiread (addr : Z) w : Z * Z * W :=
  let w := jtag_setup_access TENSIX_SM_RTAP w in
  let w := jtag_wr_tensix_sm_rtap_tdr ARC_AXI_ADDR_TDR addr w in
  let w := jtag_wr_tensix_sm_rtap_tdr ARC_AXI_CONTROL_STATUS_TDR AXI_CNTL_READ w in
  let '(axi_status, w) := poll_status 1000 1 w in
  let '(axi_rddata, w) := jtag_rd_tensix_sm_rtap_tdr_idle ARC_AXI_DATA_TDR w in
  (if negb (Z.land axi_status 0xF =? 0) then 0 else -1, axi_rddata, w).
Definition axiwrite_status (addr value : Z) w : Z * W :=
  let w := jtag_setup_access TENSIX_SM_RTAP w in
  let w := jtag_wr_tensix_sm_rtap_tdr ARC_AXI_ADDR_TDR addr w in
  let w := jtag_wr_tensix_sm_rtap_tdr ARC_AXI_DATA_TDR value w in
  let w := jtag_wr_tensix_sm_rtap_tdr ARC_AXI_CONTROL_STATUS_TDR AXI_CNTL_WRITE w in
  jtag_rd_tensix_sm_rtap_tdr_idle ARC_AXI_CONTROL_STATUS_TDR w.
Definition jtag_axiwrite (addr value : Z) w : Z * W :=
  let '(status, w) := axiwrite_status addr value w in
  (if negb (Z.land (Z.shiftr status 16) 1 =? 1) then 0 else -1, w).
Fixpoint blockwrite_loop (addr : Z) (value : list Z) (result : Z) w : Z * W :=
  match value with
  | [] => (result, w)
  | v :: value =>
      let '(status, w) := axiwrite_status addr v w in
      let result := if Z.land (Z.shiftr status 16) 1 =? 1 then -1 else result in
      blockwrite_loop (u32 (addr + 4)) value result w
  end.
Definition jtag_axi_blockwrite (addr : Z) (value : list Z) w : Z * W := blockwrite_loop addr value 0 w.
End driver.

(** ** Taking and giving back the pins *)

(** [cfg] is the result of each [gpio_pin_configure_dt] (TCK, TDI, TDO, TMS, TRST). Result:
    the return value and how often the mutex is held. *)
Definition pins_ret (cfg : nat -> Z) (have_trst : bool) : Z :=
  let ret := if existsb (λ i, negb (cfg i =? 0)) [0; 1; 2; 3]%nat then 1 else 0 in
  if (ret =? 0) && have_trst then cfg 4%nat else ret.
Definition jtag_bitbang_setup (cfg : nat -> Z) (have_trst : bool) (locks : nat) : Z * nat :=
  let locks := S locks in
  let ret := pins_ret cfg have_trst in
  if negb (ret =? 0) then (ret, pred locks) else (0, locks).
Definition jtag_bitbang_teardown (cfg : nat -> Z) (have_trst : bool) (locks : nat) : Z * nat :=
  let ret := pins_ret cfg have_trst in
  if negb (ret =? 0) then (ret, pred locks) else (0, pred locks).
(** A session gives the mutex back, whatever the pins' configuration returns. *)
Lemma session_balanced cfg cfg' have_trst locks r l :
  jtag_bitbang_setup cfg have_trst locks = (r, l) ->
  (if r =? 0 then snd (jtag_bitbang_teardown cfg' have_trst l) else l) = locks.
Proof.
  unfold jtag_bitbang_setup, jtag_bitbang_teardown. destruct (pins_ret cfg have_trst =? 0) eqn:E; cbn [negb];
    intros [= <- <-]; [cbn; by destruct (negb _) | by rewrite E].
Qed.

(** * The emulated port: [jtag_emul.c] *)
Inductive jtag_state :=
| JTAG_RESET | IDLE | SCAN_DR | SCAN_IR | CAPTURE_DR | CAPTURE_IR | SHIFT_DR | SHIFT_IR
| EXIT1_DR | EXIT1_IR | PAUSE_DR | PAUSE_IR | EXIT2_DR | EXIT2_IR | UPDATE_DR | UPDATE_IR.
Inductive jtag_shift_reg := BR | IR | DR.
#[global] Instance jtag_state_eq_dec : EqDecision jtag_state. Proof. solve_decision. Defined.
#[global] Instance jtag_shift_reg_eq_dec : EqDecision jtag_shift_reg. Proof. solve_decision. Defined.

Definition next_state (tms : bool) (s : jtag_state) : jtag_state :=
  if tms then
    match s with
    | JTAG_RESET => JTAG_RESET | IDLE => SCAN_DR | SCAN_DR => SCAN_IR | SCAN_IR => JTAG_RESET
    | CAPTURE_DR => EXIT1_DR | CAPTURE_IR => EXIT1_IR | SHIFT_DR => EXIT1_DR | SHIFT_IR => EXIT1_IR
    | EXIT1_DR => UPDATE_DR | EXIT1_IR => UPDATE_IR | PAUSE_DR => EXIT2_DR | PAUSE_IR => EXIT2_IR
    | EXIT2_DR => SHIFT_DR | EXIT2_IR => SHIFT_IR | UPDATE_DR => SCAN_DR | UPDATE_IR => SCAN_DR
    end
  else
    match s with
    | JTAG_RESET => IDLE | IDLE => IDLE | SCAN_DR => CAPTURE_DR | SCAN_IR => CAPTURE_IR
    | CAPTURE_DR => SHIFT_DR | CAPTURE_IR => SHIFT_IR | SHIFT_DR => SHIFT_DR | SHIFT_IR => SHIFT_IR
    | EXIT1_DR => PAUSE_DR | EXIT1_IR => PAUSE_IR | PAUSE_DR => PAUSE_DR | PAUSE_IR => PAUSE_IR
    | EXIT2_DR => SHIFT_DR | EXIT2_IR => SHIFT_IR | UPDATE_DR => IDLE | UPDATE_IR => IDLE
    end.

Definition REG_BITS : Z := 32.
(** [struct jtag_emul_data] with the memory behind it and the levels of the pins. *)
Record jtag_emul := {
  shift_reg : jtag_shift_reg -> Z;
  shift_bits : jtag_shift_reg -> Z;
  hold_reg : jtag_shift_reg -> Z;
  state : jtag_state;
  selected_reg : jtag_shift_reg;
  tck_old : bool;
  have_axi_addr_tdr : bool;
  axi_addr_tdr : Z;
  have_axi_data_tdr : bool;
  axi_data_tdr : Z;
  buf : list Z;
  tms : bool; tdi : bool; tdo : bool;
}.
Definition upd (f : jtag_shift_reg -> Z) (r : jtag_shift_reg) (v : Z) : jtag_shift_reg -> Z :=
  λ r', if decide (r' = r) then v else f r'.
Definition with_shift (e : jtag_emul) (r : jtag_shift_reg) (v n : Z) : jtag_emul :=
  {| shift_reg := upd (shift_reg e) r v; shift_bits := upd (shift_bits e) r n; hold_reg := hold_reg e;
     state := state e; selected_reg := selected_reg e; tck_old := tck_old e;
     have_axi_addr_tdr := have_axi_addr_tdr e; axi_addr_tdr := axi_addr_tdr e;
     have_axi_data_tdr := have_axi_data_tdr e; axi_data_tdr := axi_data_tdr e; buf := buf e;
     tms := tms e; tdi := tdi e; tdo := tdo e |}.
Definition with_hold (e : jtag_emul) (r : jtag_shift_reg) (v : Z) : jtag_emul :=
  {| shift_reg := shift_reg e; shift_bits := shift_bits e; hold_reg := upd (hold_reg e) r v;
     state := state e; selected_reg := selected_reg e; tck_old := tck_old e;
     have_axi_addr_tdr := have_axi_addr_tdr e; axi_addr_tdr := axi_addr_tdr e;
     have_axi_data_tdr := have_axi_data_tdr e; axi_data_tdr := axi_data_tdr e; buf := buf e;
     tms := tms e; tdi := tdi e; tdo := tdo e |}.
Definition with_axi (e : jtag_emul) (ha : bool) (a : Z) (hd : bool) (v : Z) (b : list Z) : jtag_emul :=
  {| shift_reg := shift_reg e; shift_bits := shift_bits e; hold_reg := hold_reg e;
     state := state e; selected_reg := selected_reg e; tck_old := tck_old e;
     have_axi_addr_tdr := ha; axi_addr_tdr := a; have_axi_data_tdr := hd; axi_data_tdr := v; buf := b;
     tms := tms e; tdi := tdi e; tdo := tdo e |}.
Definition with_state (e : jtag_emul) (s : jtag_state) (r : jtag_shift_reg) (t : bool) : jtag_emul :=
  {| shift_reg := shift_reg e; shift_bits := shift_bits e; hold_reg := hold_reg e;
     state := s; selected_reg := r; tck_old := t;
     have_axi_addr_tdr := have_axi_addr_tdr e; axi_addr_tdr := axi_addr_tdr e;
     have_axi_data_tdr := have_axi_data_tdr e; axi_data_tdr := axi_data_tdr e; buf := buf e;
     tms := tms e; tdi := tdi e; tdo := tdo e |}.
Definition with_pins (e : jtag_emul) (m i : bool) : jtag_emul :=
  {| shift_reg := shift_reg e; shift_bits := shift_bits e; hold_reg := hold_reg e;
     state := state e; selected_reg := selected_reg e; tck_old := tck_old e;
     have_axi_addr_tdr := have_axi_addr_tdr e; axi_addr_tdr := axi_addr_tdr e;
     have_axi_data_tdr := have_axi_data_tdr e; axi_data_tdr := axi_data_tdr e; buf := buf e;
     tms := m; tdi := i; tdo := tdo e |}.

Definition on_update_reg (e : jtag_emul) : jtag_emul :=
  match selected_reg e with
  | DR =>
      let bits := CLAMP (shift_bits e DR) 1 REG_BITS in
      let hold := Z.shiftr (bitrev32 (shift_reg e DR)) (REG_BITS - bits) in
      let e := with_hold (with_shift e DR (shift_reg e DR) bits) DR hold in
      if u32 (hold - 1) =? ARC_AXI_ADDR_TDR then
        with_axi e true (axi_addr_tdr e) (have_axi_data_tdr e) (axi_data_tdr e) (buf e)
      else if have_axi_addr_tdr e then with_axi e false hold (have_axi_data_tdr e) (axi_data_tdr e) (buf e)
      else if u32 (hold - 1) =? ARC_AXI_DATA_TDR then
        with_axi e (have_axi_addr_tdr e) (axi_addr_tdr e) true (axi_data_tdr e) (buf e)
      else if have_axi_data_tdr e then
        let i := Z.shiftr (axi_addr_tdr e) 2 in
        with_axi e (have_axi_addr_tdr e) (axi_addr_tdr e) false hold
          (if i <? Z.of_nat (length (buf e)) then <[Z.to_nat i := hold]> (buf e) else buf e)
      else e
  | IR =>
      with_hold e IR (Z.shiftr (bitrev32 (shift_reg e IR)) (REG_BITS - shift_bits e IR - 1))
  | BR => e
  end.
Definition on_tck_falling (e : jtag_emul) : jtag_emul :=
  match state e with
  | SCAN_DR => with_state e (state e) DR (tck_old e)
  | SCAN_IR => with_state e (state e) IR (tck_old e)
  | CAPTURE_DR | CAPTURE_IR => with_shift e (selected_reg e) (shift_reg e (selected_reg e)) 0
  | SHIFT_DR | SHIFT_IR =>
      if negb (tms e) then
        with_shift e (selected_reg e)
          (u32 (Z.lor (Z.shiftl (shift_reg e (selected_reg e)) 1) (Z.b2z (tdi e))))
          (u8 (shift_bits e (selected_reg e) + 1))
      else e
  | UPDATE_DR | UPDATE_IR => on_update_reg e
  | _ => e
  end.
(** A change of the TCK pin. *)
Definition gpio_emul_callback (tck : bool) (e : jtag_emul) : jtag_emul :=
  if Bool.eqb tck (tck_old e) then e
  else
    let e := with_state e (state e) (selected_reg e) tck in
    if negb tck then
      let e := on_tck_falling e in
      with_state e (next_state (tms e) (state e)) (selected_reg e) (tck_old e)
    else e.
#[global] Instance emul_pins : JtagPins jtag_emul := {
  pin_tck b e := gpio_emul_callback b e;
  pin_tms b e := with_pins e b (tdi e);
  pin_tdi b e := with_pins e (tms e) b;
  pin_trst _ e := e;
  pin_tdo e := tdo e;
}.
Definition jtag_emul_setup (b : list Z) (m i o : bool) : jtag_emul :=
  {| shift_reg := λ _, 0; shift_bits := λ _, 0; hold_reg := λ _, 0; state := IDLE; selected_reg := BR;
     tck_old := true; have_axi_addr_tdr := false; axi_addr_tdr := 0; have_axi_data_tdr := false;
     axi_data_tdr := 0; buf := b; tms := m; tdi := i; tdo := o |}.
Definition jtag_emul_axi_read32 (addr : Z) (e : jtag_emul) : Z * option Z :=
  match buf e !! Z.to_nat (Z.shiftr addr 2) with
  | Some v => (0, Some v)
  | None => (- EINVAL, None)
  end.

(** * A test access port of IEEE 1149.1 *)

(** What is behind the port: the registers a scan captures and updates. *)
Class TapDevice (D : Type) := {
  ir_capture : D -> list bool;
  ir_update : D -> list bool -> D;
  dr_capture : D -> list bool;
  dr_update : D -> list bool -> D;
  test_logic_reset : D -> D;
  ir_nonempty : forall d, ir_capture d <> [];
  dr_nonempty : forall d, dr_capture d <> [];
}.
Record tap (D : Type) := {
  st : jtag_state; tap_tck : bool; tap_tms : bool; tap_tdi : bool; tap_tdo : bool;
  sr : list bool; dev : D }.
Arguments st {D}. Arguments tap_tck {D}. Arguments tap_tms {D}. Arguments tap_tdi {D}.
Arguments tap_tdo {D}. Arguments sr {D}. Arguments dev {D}.

(** The standard's state diagram. *)
Definition tap_next (tms : bool) (s : jtag_state) : jtag_state :=
  match tms, s with
  | true, EXIT2_DR => UPDATE_DR
  | true, EXIT2_IR => UPDATE_IR
  | _, _ => next_state tms s
  end.

Section tap.
Context {D : Type} `{TapDevice D}.
(** Capture and shift happen on the rising edge, on leaving the state. *)
Definition tap_rise (t : tap D) : tap D :=
  {| st := tap_next (tap_tms t) (st t); tap_tck := true; tap_tms := tap_tms t; tap_tdi := tap_tdi t;
     tap_tdo := tap_tdo t;
     sr := match st t with
           | CAPTURE_DR => dr_capture (dev t)
           | CAPTURE_IR => ir_capture (dev t)
           | SHIFT_DR | SHIFT_IR => drop 1 (sr t ++ [tap_tdi t])
           | _ => sr t
           end;
     dev := dev t |}.
(** TDO changes, and registers are updated, on the falling edge. *)
Definition tap_fall (t : tap D) : tap D :=
  {| st := st t; tap_tck := false; tap_tms := tap_tms t; tap_tdi := tap_tdi t;
     tap_tdo := match st t with SHIFT_DR | SHIFT_IR => default false (head (sr t)) | _ => tap_tdo t end;
     sr := sr t;
     dev := match st t with
            | UPDATE_DR => dr_update (dev t) (sr t)
            | UPDATE_IR => ir_update (dev t) (sr t)
            | JTAG_RESET => test_logic_reset (dev t)
            | _ => dev t
            end |}.
Definition tap_set_tck (b : bool) (t : tap D) : tap D :=
  if Bool.eqb b (tap_tck t) then t else if b then tap_rise t else tap_fall t.
#[global] Instance tap_pins : JtagPins (tap D) := {
  pin_tck := tap_set_tck;
  pin_tms b t := {| st := st t; tap_tck := tap_tck t; tap_tms := b; tap_tdi := tap_tdi t;
                    tap_tdo := tap_tdo t; sr := sr t; dev := dev t |};
  pin_tdi b t := {| st := st t; tap_tck := tap_tck t; tap_tms := tap_tms t; tap_tdi := b;
                    tap_tdo := tap_tdo t; sr := sr t; dev := dev t |};
  pin_trst b t := if b then {| st := JTAG_RESET; tap_tck := tap_tck t; tap_tms := tap_tms t;
                    tap_tdi := tap_tdi t; tap_tdo := tap_tdo t; sr := sr t;
                    dev := test_logic_reset (dev t) |} else t;
  pin_tdo t := tap_tdo t;
}.
End tap.

(** * Patching the boot ROM: [jtag_bootrom.c] *)
Definition ROM_MEMORY_MEM_BASE_ADDR : Z := 0x80000000.
Definition RESET_UNIT_REFCLK_CNT_LO_REG_ADDR : Z := 0x800300E0.
Definition RESET_UNIT_ARC_MISC_CNTL_REG_ADDR : Z := 0x80030100.
Definition RESET_UNIT_GPIO_PAD_TRIEN_CNTL_REG_ADDR : Z := 0x800301A0.
Definition RESET_UNIT_MEM_REPAIR_CNTL_REG_ADDR : Z := 0x800300C0.
Definition RESET_UNIT_MEM_REPAIR_STATUS_REG_ADDR : Z := 0x800300C4.
Definition STATUS_POST_CODE_REG_ADDR : Z := 0x80030060 + 4 * 0.
Definition DMC_CABLE_POWER_LIMIT_REG_ADDR : Z := 0x80030060 + 4 * 1.
Definition CABLE_POWER_LIMIT_MAGIC : Z := 0xCAB10000.

(** The fields of [struct bh_chip_data] these functions use. *)
Record boot_data := { workaround_applied : bool; perst_seen : bool; dm_init_done : Z; arc_start_time : Z }.

Section bootrom.
Context {W : Type} `{JtagPins W}.
Context (have_trst : bool).
Implicit Types (w : W).

Definition jtag_reset w : W := jtag_bitbang_reset have_trst w.
Definition jtag_axi_write32 (addr value : Z) w : W := snd (jtag_axiwrite addr value w).

(** [jtag_axiwait] on hardware. *)
Definition jtag_axiwait (addr : Z) w : bool * W :=
  let w := jtag_reset w in
  let '(r, _, w) := jtag_axiread addr w in (r =? 0, w).

(** The loop of [jtag_trigger_mem_repair] with the clock readings it takes; [None] past
    their end. *)
Fixpoint mem_repair_loop (deadline_cycles : Z) (clock : list Z) w : option (Z * W) :=
  match clock with
  | [] => None
  | current_cycles :: clock =>
      let '(_, mem_repair_status, w) := jtag_axiread RESET_UNIT_MEM_REPAIR_STATUS_REG_ADDR w in
      if 0 <=? current_cycles - deadline_cycles then Some (- ETIMEDOUT, w)
      else if mem_repair_status =? 0 then mem_repair_loop deadline_cycles clock w
      else Some (0, w)
  end.
Definition jtag_trigger_mem_repair (start_cycles cycles_20ms : Z) (clock : list Z) w : option (Z * W) :=
  let w := jtag_axi_write32 RESET_UNIT_MEM_REPAIR_CNTL_REG_ADDR 1 w in
  mem_repair_loop (start_cycles + cycles_20ms) clock w.

Definition jtag_bootrom_patch_offset (patch : list Z) (start_addr : Z) (d : boot_data) w : Z * boot_data * W :=
  let w := jtag_reset w in
  let '(_, arc_misc_cntl, w) := jtag_axiread RESET_UNIT_ARC_MISC_CNTL_REG_ADDR w in
  let arc_misc_cntl := Z.lor arc_misc_cntl (Z.shiftl 15 4) in
  let w := jtag_axi_write32 RESET_UNIT_ARC_MISC_CNTL_REG_ADDR arc_misc_cntl w in
  let '(_, arc_misc_cntl, w) := jtag_axiread RESET_UNIT_ARC_MISC_CNTL_REG_ADDR w in
  let arc_misc_cntl := Z.ldiff arc_misc_cntl (Z.shiftl 15 4) in
  let w := jtag_axi_write32 RESET_UNIT_ARC_MISC_CNTL_REG_ADDR arc_misc_cntl w in
  let w := jtag_axi_write32 RESET_UNIT_GPIO_PAD_TRIEN_CNTL_REG_ADDR 0xff00 w in
  let w := jtag_axi_write32 STATUS_POST_CODE_REG_ADDR 0xF2 w in
  let w := snd (jtag_axi_blockwrite start_addr patch w) in
  let w := jtag_axi_write32 STATUS_POST_CODE_REG_ADDR 0xF3 w in
  (0, {| workaround_applied := true; perst_seen := perst_seen d; dm_init_done := dm_init_done d;
         arc_start_time := arc_start_time d |}, w).

(** [read] is [jtag_axi_read32], or [jtag_emul_axi_read32] on the emulator; a read that
    fails leaves [readback] at 0. *)
Fixpoint verify_loop (read : Z -> W -> Z * W) (i : Z) (patch : list Z) w : Z * W :=
  match patch with
  | [] => (0, w)
  | p :: patch =>
      let '(readback, w) := read (u32 (i * 4)) w in
      if negb (p =? readback) then (1, jtag_axi_write32 STATUS_POST_CODE_REG_ADDR 0x6 w)
      else verify_loop read (i + 1) patch w
  end.
Definition jtag_bootrom_verify (verify_write : bool) (read : Z -> W -> Z * W) (patch : list Z) w : Z * W :=
  if negb verify_write then (0, w) else verify_loop read 0 patch w.

Definition jtag_bootrom_soft_reset_arc (cycles : Z) (d : boot_data) w : boot_data * W :=
  let w := jtag_reset w in
  let w := jtag_axi_write32 RESET_UNIT_ARC_MISC_CNTL_REG_ADDR (GENMASK 7 4) w in
  let w := jtag_axi_write32 RESET_UNIT_ARC_MISC_CNTL_REG_ADDR 0 w in
  let w := jtag_axi_write32 ROM_MEMORY_MEM_BASE_ADDR 0x84 w in
  let init_done := if perst_seen d then cycles else dm_init_done d in
  let '(_, start_time, w) := jtag_axiread RESET_UNIT_REFCLK_CNT_LO_REG_ADDR w in
  let w := jtag_axi_write32 RESET_UNIT_ARC_MISC_CNTL_REG_ADDR (BIT 12) w in
  let w := jtag_axi_write32 RESET_UNIT_ARC_MISC_CNTL_REG_ADDR 0 w in
  ({| workaround_applied := workaround_applied d; perst_seen := false; dm_init_done := init_done;
      arc_start_time := start_time |}, w).
Definition jtag_bootrom_set_cable_power_limit (power_limit : Z) w : W :=
  jtag_axi_write32 DMC_CABLE_POWER_LIMIT_REG_ADDR (Z.lor CABLE_POWER_LIMIT_MAGIC power_limit) w.
End bootrom.

(** [jtag_emul_axi_read32] as [jtag_bootrom_verify] uses it. *)
Definition emul_read (addr : Z) (e : jtag_emul) : Z * jtag_emul :=
  (default 0 (snd (jtag_emul_axi_read32 addr e)), e).

(** * Lists of bits *)
Fixpoint bits_of (n : nat) (v : Z) : list bool :=
  match n with O => [] | S n => Z.odd v :: bits_of n (Z.shiftr v 1) end.
Fixpoint bits_value (bs : list bool) : Z :=
  match bs with [] => 0 | b :: bs => Z.b2z b + 2 * bits_value bs end.

Lemma bits_of_length n v : length (bits_of n v) = n.
Proof. revert v. induction n; intros; simpl; auto. Qed.
Lemma bits_of_lookup n v i : (i < n)%nat -> bits_of n v !! i = Some (Z.testbit v (Z.of_nat i)).
Proof.
  revert v i. induction n as [|n IH]; intros v i Hi; [lia|]. destruct i as [|i]; cbn [bits_of].
  { by rewrite <- Z.bit0_odd. }
  cbn. rewrite IH by lia. rewrite Z.shiftr_spec by lia. do 2 f_equal. lia.
Qed.
Lemma bits_value_range bs : 0 <= bits_value bs < 2 ^ Z.of_nat (length bs).
Proof.
  induction bs as [|b bs IH]; [done|]. cbn [bits_value length]. rewrite Nat2Z.inj_succ, Z.pow_succ_r by lia.
  destruct b; cbn; lia.
Qed.
Lemma bits_value_testbit bs i :
  Z.testbit (bits_value bs) (Z.of_nat i) = default false (bs !! i).
Proof.
  revert i. induction bs as [|b bs IH]; intros i; [by rewrite Z.bits_0|].
  cbn [bits_value]. rewrite Z.add_comm.
  destruct i as [|i]; [apply Z.testbit_0_r|].
  rewrite Nat2Z.inj_succ, Z.testbit_succ_r by lia. apply IH.
Qed.
Lemma bits_value_of n v : 0 <= v < 2 ^ Z.of_nat n -> bits_value (bits_of n v) = v.
Proof.
  revert v. induction n as [|n IH]; intros v Hv; [cbn in *; lia|]. cbn [bits_of bits_value].
  rewrite Nat2Z.inj_succ, Z.pow_succ_r in Hv by lia.
  rewrite IH by (rewrite Z.shiftr_div_pow2 by lia; change (2 ^ 1) with 2; split;
    [apply Z.div_pos | apply Z.div_lt_upper_bound]; lia).
  rewrite Z.shiftr_div_pow2 by lia. change (2 ^ 1) with 2. rewrite (Z.div_mod v 2) at 3 by lia.
  rewrite Zmod_odd. destruct (Z.odd v); cbn; lia.
Qed.
Lemma bits_of_succ n v : bits_of (S n) v = bits_of n v ++ [Z.testbit v (Z.of_nat n)].
Proof.
  apply list_eq. intros i. destruct (decide (i < n)%nat).
  - rewrite lookup_app_l by (by rewrite bits_of_length). by rewrite !bits_of_lookup by lia.
  - rewrite lookup_app_r by (rewrite bits_of_length; lia). rewrite bits_of_length.
    destruct (decide (i = n)) as [->|]; [by rewrite bits_of_lookup, Nat.sub_diag by lia|].
    rewrite lookup_ge_None_2 by (rewrite bits_of_length; lia).
    symmetry. apply lookup_ge_None_2. cbn. lia.
Qed.

(** The reversals reverse. *)

(** ** Reversals *)
Lemma land15 n i : 0 <= i < 4 -> Z.testbit (Z.land n 0xf) i = Z.testbit n i.
Proof.
  intros. rewrite Z.land_spec. replace (Z.testbit 0xf i) with true; [apply andb_true_r|].
  assert (i = 0 \/ i = 1 \/ i = 2 \/ i = 3) as [-> | [-> | [-> | ->]]] by lia; done.
Qed.
Lemma bitrev4_spec n i : 0 <= i < 4 -> Z.testbit (bitrev4 n) i = Z.testbit n (3 - i).
Proof.
  intros Hi. rewrite <- (land15 n (3 - i)) by lia. unfold bitrev4.
  assert (0 <= Z.land n 0xf < 16) as Hr.
  { change 0xf with (Z.ones 4). rewrite Z.land_ones by lia. apply Z.mod_pos_bound. lia. }
  revert Hr. generalize (Z.land n 0xf). intros m Hm.
  assert (m ∈ seqZ 0 16) as Hin by (apply elem_of_seqZ; lia). assert (i ∈ seqZ 0 4) as Hin2 by (apply elem_of_seqZ; lia).
  assert (Forall (λ m, Forall (λ i, Z.testbit (nth (Z.to_nat m) rev4 0) i = Z.testbit m (3 - i)) (seqZ 0 4)) (seqZ 0 16))
    as HF by (apply (bool_decide_unpack _); by vm_compute).
  rewrite list.Forall_forall in HF. specialize (HF m Hin). rewrite list.Forall_forall in HF. by apply HF.
Qed.
Lemma bitrev4_range n : 0 <= bitrev4 n < 16.
Proof.
  unfold bitrev4. generalize (Z.to_nat (Z.land n 15)). intros k.
  do 16 (destruct k as [|k]; [cbn; lia|]). destruct k; cbn; lia.
Qed.
Lemma wrap_testbit w z i : 0 <= i < w -> Z.testbit (wrap w z) i = Z.testbit z i.
Proof. intros. unfold wrap. apply Z.mod_pow2_bits_low. lia. Qed.

(** One doubling: if [f] reverses [h] bits, the next function reverses [2 h]. *)
Lemma bitrev_double (f : Z -> Z) h x i :
  0 < h -> (forall v, 0 <= f v < 2 ^ h) ->
  (forall v j, 0 <= j < h -> Z.testbit (f v) j = Z.testbit v (h - 1 - j)) ->
  0 <= i < 2 * h ->
  Z.testbit (wrap (2 * h) (Z.lor (Z.shiftl (f (wrap h x)) h) (f (wrap h (Z.shiftr x h))))) i
  = Z.testbit x (2 * h - 1 - i).
Proof.
  intros Hh Hr Hf Hi. rewrite wrap_testbit, Z.lor_spec by lia. destruct (Z.lt_ge_cases i h).
  - rewrite Z.shiftl_spec_low, orb_false_l, Hf, wrap_testbit, Z.shiftr_spec by lia. f_equal. lia.
  - rewrite Z.shiftl_spec_high by lia. rewrite Hf, wrap_testbit by lia.
    replace (Z.testbit (f (wrap h (Z.shiftr x h))) i) with false.
    { rewrite orb_false_r. f_equal. lia. }
    symmetry. apply Z.bits_above_log2; [apply Hr|]. destruct (Hr (wrap h (Z.shiftr x h))) as [H0 H1].
    destruct (Z.eq_dec (f (wrap h (Z.shiftr x h))) 0) as [->|]; [cbn; lia|].
    enough (Z.log2 (f (wrap h (Z.shiftr x h))) < h) by lia. apply Z.log2_lt_pow2; lia.
Qed.
Lemma bitrev8_spec n i : 0 <= i < 8 -> Z.testbit (bitrev8 n) i = Z.testbit n (7 - i).
Proof.
  intros Hi. unfold bitrev8.
  assert (E : forall v, bitrev4 v = bitrev4 (wrap 4 v)).
  { intros v. unfold bitrev4. do 2 f_equal. unfold wrap. change 0xf with (Z.ones 4).
    rewrite !Z.land_ones by lia. by rewrite Z.mod_mod by lia. }
  rewrite (E n), (E (Z.shiftr n 4)). apply (bitrev_double bitrev4 4); [lia | apply bitrev4_range | | lia].
  intros. by apply bitrev4_spec.
Qed.
Lemma bitrev16_spec n i : 0 <= i < 16 -> Z.testbit (bitrev16 n) i = Z.testbit n (15 - i).
Proof.
  intros. apply (bitrev_double bitrev8 8); [lia | intros; by apply wrap_in_width | | lia].
  intros. by apply bitrev8_spec.
Qed.
Lemma bitrev32_spec n i : 0 <= i < 32 -> Z.testbit (bitrev32 n) i = Z.testbit n (31 - i).
Proof.
  intros. apply (bitrev_double bitrev16 16); [lia | intros; by apply wrap_in_width | | lia].
  intros. by apply bitrev16_spec.
Qed.
Lemma bitrev64_spec n i : 0 <= i < 64 -> Z.testbit (bitrev64 n) i = Z.testbit n (63 - i).
Proof.
  intros. apply (bitrev_double bitrev32 32); [lia | intros; by apply wrap_in_width | | lia].
  intros. by apply bitrev32_spec.
Qed.

(** What the driver collects from TDO, first bit on top. *)
Definition collect (acc : Z) (bs : list bool) : Z :=
  fold_left (λ a b, u64 (Z.shiftl (Z.lor a (Z.b2z b)) 1)) bs acc.
Lemma lor_even a (b : bool) : Z.lor (2 * a) (Z.b2z b) = Z.b2z b + 2 * a.
Proof.
  rewrite Z.add_comm, Z.add_nocarry_lxor.
  - symmetry. apply Z.lxor_lor. apply Z.bits_inj'. intros n Hn. rewrite Z.land_spec, Z.bits_0.
    destruct (Z.eq_dec n 0) as [->|]; [by rewrite Z.testbit_even_0|].
    destruct b; [|by rewrite Z.bits_0, andb_false_r]. change (Z.b2z true) with 1.
    replace n with (Z.succ (Z.pred n)) by lia. rewrite (Z.testbit_even_succ a) by lia.
    change 1 with (2 * 0 + 1). rewrite Z.testbit_odd_succ, Z.bits_0, andb_false_r by lia. done.
  - apply Z.bits_inj'. intros n Hn. rewrite Z.land_spec, Z.bits_0.
    destruct (Z.eq_dec n 0) as [->|]; [by rewrite Z.testbit_even_0|].
    destruct b; [|by rewrite Z.bits_0, andb_false_r]. change (Z.b2z true) with 1.
    replace n with (Z.succ (Z.pred n)) by lia. rewrite (Z.testbit_even_succ a) by lia.
    change 1 with (2 * 0 + 1). rewrite Z.testbit_odd_succ, Z.bits_0, andb_false_r by lia. done.
Qed.
Lemma collect_rev bs : (length bs <= 63)%nat -> collect 0 bs = 2 * bits_value (rev bs).
Proof.
  induction bs as [|b bs IH] using rev_ind; [done|]. rewrite length_app. cbn [length]. intros Hl.
  unfold collect in *. rewrite fold_left_app. cbn [fold_left]. rewrite IH by lia. rewrite lor_even, rev_unit.
  cbn [bits_value]. rewrite Z.shiftl_mul_pow2 by lia. change (2 ^ 1) with 2. rewrite Z.mul_comm.
  apply wrap_id. unfold in_width. pose proof (bits_value_range (rev bs)) as Hr. rewrite length_rev in Hr.
  assert (2 ^ Z.of_nat (length bs) <= 2 ^ 62) by (apply Z.pow_le_mono_r; lia).
  change (2 ^ 64) with (4 * 2 ^ 62). destruct b; cbn [Z.b2z]; lia.
Qed.
(** The bits collected, turned round, are the value read least significant bit first. *)
Lemma captured_value bs b :
  (length bs <= 63)%nat ->
  bitrev64 (u64 (Z.shiftl (Z.lor (collect 0 bs) (Z.b2z b)) (64 - Z.of_nat (S (length bs)))))
  = bits_value (bs ++ [b]).
Proof.
  intros Hl. rewrite collect_rev, lor_even by done.
  change (Z.b2z b + 2 * bits_value (rev bs)) with (bits_value (b :: rev bs)). rewrite <- rev_unit.
  set (l := bs ++ [b]). assert (Hll : length l = S (length bs)) by (unfold l; rewrite length_app; cbn; lia).
  apply Z.bits_inj'. intros i Hi. destruct (Z.lt_ge_cases i 64) as [Hlt|Hge].
  - rewrite bitrev64_spec, wrap_testbit by lia. rewrite <- (Z2Nat.id i) by lia. set (k := Z.to_nat i).
    rewrite bits_value_testbit. destruct (decide (k < length l)%nat).
    + rewrite Z.shiftl_spec by lia.
      replace (63 - Z.of_nat k - (64 - Z.of_nat (S (length bs)))) with (Z.of_nat (length l - 1 - k)) by lia.
      rewrite bits_value_testbit. f_equal. rewrite (rev_alt l). change (rev_append l []) with (reverse l).
      rewrite reverse_lookup by lia. f_equal. lia.
    + rewrite lookup_ge_None_2 by lia. apply Z.shiftl_spec_low. lia.
  - transitivity false.
    + unfold bitrev64, wrap. apply Z.mod_pow2_bits_high. lia.
    + rewrite <- (Z2Nat.id i) by lia. rewrite bits_value_testbit, lookup_ge_None_2 by lia. done.
Qed.

(** * Scans on a standard port *)
Section tap_scan.
Context {D : Type} `{TapDevice D}.
Implicit Types (t : tap D) (d : D).

(** What a scan does to the device: a register of the chain is captured, [n] bits of
    [data] are shifted through it and what it then holds is the update. *)
Definition scan_dr (n data : Z) (d : D) : Z * D :=
  let chain := dr_capture d ++ bits_of (Z.to_nat n) data in
  (bits_value (take (Z.to_nat n) chain), dr_update d (drop (Z.to_nat n) chain)).
(** Of an instruction, bit 0 is not shifted in. *)
Definition scan_ir (n data : Z) (d : D) : D :=
  ir_update d (drop (Z.to_nat (n - 1)) (ir_capture d ++ drop 1 (bits_of (Z.to_nat n) data))).

(** The port is in state [s] with TCK low. *)
Definition at_state t s d : Prop := st t = s /\ tap_tck t = false /\ dev t = d.
Definition shifting (s : jtag_state) t (l : list bool) d : Prop :=
  at_state t s d /\ tap_tms t = false /\ sr t = l /\ tap_tdo t = default false (head l).

Lemma tick_low t : tap_tck t = false -> jtag_bitbang_tick 1 t = tap_fall (tap_rise t).
Proof. destruct t. cbn. intros ->. done. Qed.
Lemma tick_tck n t : tap_tck (jtag_bitbang_tick n t) = false.
Proof.
  unfold jtag_bitbang_tick. generalize (tick_loop n t). intros t'. unfold CLR_TCK. cbn. unfold tap_set_tck.
  destruct (tap_tck t') eqn:E; cbn; [done|]. exact E.
Qed.
Lemma clr_clr t : CLR_TCK (CLR_TCK t) = CLR_TCK t.
Proof. unfold CLR_TCK. cbn. unfold tap_set_tck. destruct (tap_tck t) eqn:E; cbn; [done|]. by rewrite E. Qed.
Lemma tick_succ n t : jtag_bitbang_tick (S n) t = jtag_bitbang_tick n (jtag_bitbang_tick 1 t).
Proof.
  unfold jtag_bitbang_tick. cbn [tick_loop]. destruct n; cbn [tick_loop]; by rewrite clr_clr.
Qed.

Lemma shift_step s t l d b :
  (s = SHIFT_DR \/ s = SHIFT_IR) -> shifting s t l d ->
  shifting s (jtag_bitbang_tick 1 (IF_TDI b t)) (drop 1 (l ++ [b])) d.
Proof.
  intros Hs ((Hst & Hc & Hd) & Hm & Hl & Ho). rewrite tick_low by done.
  unfold shifting, at_state. cbn. rewrite Hst, Hm, Hl.
  destruct Hs as [-> | ->]; cbn; done.
Qed.
Lemma shift_chain x (l : list bool) b n data : b = Z.odd data ->
  drop 1 ((x :: l) ++ [b]) ++ bits_of n (Z.shiftr data 1) = l ++ bits_of (S n) data.
Proof. intros ->. cbn [app]. by rewrite skipn_cons, drop_0, <- app_assoc. Qed.
Lemma shift_dr_tap n capture data out t l d :
  l <> [] -> shifting SHIFT_DR t l d ->
  exists t', shift_dr n capture data out t
    = (Z.shiftr data (Z.of_nat n), if capture then collect out (take n (l ++ bits_of n data)) else out, t') /\
    shifting SHIFT_DR t' (drop n (l ++ bits_of n data)) d.
Proof.
  revert data out t l. induction n as [|n IH]; intros data out t l Hne Hsh.
  { exists t. rewrite Z.shiftr_0_r, app_nil_r, drop_0, take_0. cbn. by destruct capture. }
  destruct l as [|x l]; [done|]. cbn [shift_dr].
  pose proof (shift_step _ _ _ _ (Z.odd data) (or_introl eq_refl) Hsh) as Hsh'.
  assert (GET_TDO (IF_TDI (Z.odd data) t) = x) as -> by (destruct Hsh as (_ & _ & _ & Ho); exact Ho).
  edestruct (IH (Z.shiftr data 1)) as (t' & -> & Ht'); [|exact Hsh'|].
  { cbn [app]. rewrite skipn_cons, drop_0. by destruct l. }
  exists t'. rewrite (shift_chain x l (Z.odd data) n data eq_refl) in Ht' |- *.
  rewrite Z.shiftr_shiftr by lia. split; [|exact Ht'].
  replace (1 + Z.of_nat n) with (Z.of_nat (S n)) by lia. by destruct capture.
Qed.
Lemma shift_ir_tap n data t l d :
  l <> [] -> shifting SHIFT_IR t l d ->
  exists t', shift_ir n data t = (Z.shiftr data (Z.of_nat n), t') /\
    shifting SHIFT_IR t' (drop n (l ++ bits_of n data)) d.
Proof.
  revert data t l. induction n as [|n IH]; intros data t l Hne Hsh.
  { exists t. by rewrite Z.shiftr_0_r, app_nil_r, drop_0. }
  destruct l as [|x l]; [done|]. cbn [shift_ir].
  pose proof (shift_step _ _ _ _ (Z.odd data) (or_intror eq_refl) Hsh) as Hsh'.
  edestruct (IH (Z.shiftr data 1)) as (t' & -> & Ht'); [|exact Hsh'|].
  { cbn [app]. rewrite skipn_cons, drop_0. by destruct l. }
  exists t'. rewrite (shift_chain x l (Z.odd data) n data eq_refl) in Ht'.
  rewrite Z.shiftr_shiftr by lia. split; [|exact Ht']. by replace (1 + Z.of_nat n) with (Z.of_nat (S n)) by lia.
Qed.

Lemma last_shift (l : list bool) n data :
  l <> [] -> drop 1 (drop n (l ++ bits_of n data) ++ [Z.testbit data (Z.of_nat n)])
             = drop (S n) (l ++ bits_of (S n) data).
Proof.
  intros Hl. assert (n < length (l ++ bits_of n data))%nat.
  { rewrite length_app, bits_of_length. destruct l; [done|]. cbn. lia. }
  rewrite <- drop_app_le, drop_drop, <- app_assoc, <- bits_of_succ by lia. f_equal. lia.
Qed.
Lemma last_capture (l : list bool) n data :
  l <> [] -> take (S n) (l ++ bits_of (S n) data)
             = take n (l ++ bits_of n data) ++ [default false (head (drop n (l ++ bits_of n data)))].
Proof.
  intros Hl. set (c := l ++ bits_of n data).
  assert (Hn : (n < length c)%nat).
  { unfold c. rewrite length_app, bits_of_length. destruct l; [done|]. cbn. lia. }
  rewrite bits_of_succ, app_assoc. fold c. rewrite take_app_le by lia.
  destruct (lookup_lt_is_Some_2 c n Hn) as [x Hx]. rewrite (take_S_r _ _ _ Hx).
  by rewrite (drop_S _ _ _ Hx).
Qed.

(** Entering the shift state captures. *)
Lemma enter_shift t d :
  st t = CAPTURE_DR -> tap_tck t = false -> tap_tms t = false -> dev t = d ->
  shifting SHIFT_DR (jtag_bitbang_tick 1 t) (dr_capture d) d.
Proof.
  intros Hs Hc Hm Hd. rewrite tick_low by done. unfold shifting, at_state. cbn. by rewrite Hs, Hm, Hd.
Qed.
Lemma enter_shift_ir t d :
  st t = CAPTURE_IR -> tap_tck t = false -> tap_tms t = false -> dev t = d ->
  shifting SHIFT_IR (jtag_bitbang_tick 1 t) (ir_capture d) d.
Proof.
  intros Hs Hc Hm Hd. rewrite tick_low by done. unfold shifting, at_state. cbn. by rewrite Hs, Hm, Hd.
Qed.

(** The last bit, with TMS high, and the update. *)
Lemma leave_shift s t l d b :
  (s = SHIFT_DR \/ s = SHIFT_IR) -> shifting s t l d ->
  let t1 := jtag_bitbang_tick 1 (IF_TDI b (SET_TMS t)) in
  let t2 := jtag_bitbang_tick 1 t1 in
  GET_TDO (IF_TDI b (SET_TMS t)) = default false (head l) /\ tap_tms t2 = true /\
  at_state t2 (match s with SHIFT_DR => UPDATE_DR | _ => UPDATE_IR end)
    (match s with SHIFT_DR => dr_update | _ => ir_update end d (drop 1 (l ++ [b]))).
Proof.
  intros Hs ((Hst & Hc & Hd) & Hm & Hl & Ho) t1 t2. subst t2 t1. split; [exact Ho|].
  rewrite (tick_low (IF_TDI b (SET_TMS t))) by done. rewrite tick_low by done.
  unfold at_state. cbn. rewrite Hst, Hl, Hd. by destruct Hs as [-> | ->].
Qed.
Lemma tick_from_update t s d :
  (s = UPDATE_DR \/ s = UPDATE_IR) -> at_state t s d ->
  at_state (jtag_bitbang_tick 1 t) (if tap_tms t then SCAN_DR else IDLE) d.
Proof.
  intros Hs (Hst & Hc & Hd). rewrite tick_low by done. unfold at_state. cbn. rewrite Hst, Hd.
  destruct Hs as [-> | ->], (tap_tms t); done.
Qed.

(** One data scan. *)
Lemma xfer_dr_tap count data idle capture t d :
  1 <= count <= 64 -> at_state t SCAN_DR d ->
  exists t', jtag_bitbang_xfer_dr count data idle capture t
             = (if capture then fst (scan_dr count data d) else 0, t') /\
    at_state t' (if idle then IDLE else SCAN_DR) (snd (scan_dr count data d)).
Proof.
  intros Hcnt (Hst & Hc & Hd). unfold jtag_bitbang_xfer_dr. rewrite (proj2 (Z.eqb_neq count 0)) by lia.
  set (n := Z.to_nat (count - 1)). replace (Z.to_nat count) with (S n) in * by lia.
  set (t0 := jtag_bitbang_tick 1 (CLR_TMS t)).
  assert (H0 : st t0 = CAPTURE_DR /\ tap_tck t0 = false /\ tap_tms t0 = false /\ dev t0 = d).
  { unfold t0. rewrite tick_low by done. cbn. by rewrite Hst. }
  destruct H0 as (H01 & H02 & H03 & H04). pose proof (enter_shift t0 d H01 H02 H03 H04) as Hsh.
  pose proof (dr_nonempty d) as Hne.
  destruct (shift_dr_tap n capture data 0 _ _ _ Hne Hsh) as (t1 & -> & Hsh1).
  destruct (leave_shift _ t1 _ d (Z.odd (Z.shiftr data (Z.of_nat n))) (or_introl eq_refl) Hsh1) as (Ho & Hm & Hat).
  rewrite Ho. set (t2 := jtag_bitbang_tick 1 (jtag_bitbang_tick 1 _)) in *.
  assert (Hbit : Z.odd (Z.shiftr data (Z.of_nat n)) = Z.testbit data (Z.of_nat n)).
  { by rewrite <- Z.bit0_odd, Z.shiftr_spec, Z.add_0_l. }
  rewrite Hbit in Hat. rewrite last_shift in Hat by done.
  assert (Hout : (if capture then bitrev64 (u64 (Z.shiftl (Z.lor (if capture
      then collect 0 (take n (dr_capture d ++ bits_of n data)) else 0)
      (Z.b2z (default false (head (drop n (dr_capture d ++ bits_of n data)))))) (64 - count)))
      else if capture then collect 0 (take n (dr_capture d ++ bits_of n data)) else 0)
    = if capture then fst (scan_dr count data d) else 0).
  { destruct capture; [|done]. unfold scan_dr. cbn [fst]. replace (Z.to_nat count) with (S n) by lia.
    rewrite last_capture by done.
    assert (Hlen : length (take n (dr_capture d ++ bits_of n data)) = n).
    { rewrite length_take, length_app, bits_of_length. destruct (dr_capture d); [done|]. cbn. lia. }
    rewrite <- captured_value by lia. rewrite Hlen. do 4 f_equal. lia. }
  assert (Hsc : snd (scan_dr count data d) = dr_update d (drop (S n) (dr_capture d ++ bits_of (S n) data))).
  { unfold scan_dr. cbn [snd]. by replace (Z.to_nat count) with (S n) by lia. }
  rewrite Hsc. destruct idle; eexists; (split; [f_equal; rewrite <- Hout; by destruct capture|]).
  - exact (tick_from_update (CLR_TMS t2) UPDATE_DR _ (or_introl eq_refl) Hat).
  - pose proof (tick_from_update t2 UPDATE_DR _ (or_introl eq_refl) Hat) as Hx. by rewrite Hm in Hx.
Qed.
(** One instruction scan. *)
Lemma update_ir_tap count data t d :
  2 <= count -> at_state t IDLE d ->
  at_state (jtag_bitbang_update_ir count data t) SCAN_DR (scan_ir count data d).
Proof.
  intros Hcnt (Hst & Hc & Hd). unfold jtag_bitbang_update_ir.
  set (t0 := jtag_bitbang_tick 1 (CLR_TMS (jtag_bitbang_tick 2 (SET_TMS t)))).
  assert (H0 : st t0 = CAPTURE_IR /\ tap_tck t0 = false /\ tap_tms t0 = false /\ dev t0 = d).
  { unfold t0. rewrite (tick_succ 1), !(tick_low (SET_TMS t)) by done. rewrite (tick_low (tap_fall _)) by done.
    rewrite tick_low by done. cbn. by rewrite Hst. }
  destruct H0 as (H01 & H02 & H03 & H04).
  destruct (Z.to_nat (count - 1)) as [|n] eqn:En; [lia|]. cbn [shift_ir].
  pose proof (enter_shift_ir (IF_TDI (Z.odd data) t0) d H01 H02 H03 H04) as Hsh.
  pose proof (ir_nonempty d) as Hne.
  destruct (shift_ir_tap n (Z.shiftr data 1) _ _ _ Hne Hsh) as (t1 & -> & Hsh1).
  set (b := Z.odd _). destruct (leave_shift _ t1 _ d b (or_intror eq_refl) Hsh1) as (_ & Hm & Hat).
  rewrite (tick_succ 1). set (t2 := jtag_bitbang_tick 1 (SET_TMS (jtag_bitbang_tick 1 _))).
  assert (H2 : t2 = jtag_bitbang_tick 1 (jtag_bitbang_tick 1 (IF_TDI b (SET_TMS t1)))).
  { unfold t2. f_equal. rewrite tick_low by (by destruct Hsh1 as ((? & ? & ?) & _)). done. }
  rewrite <- H2 in Hm, Hat.
  pose proof (tick_from_update t2 UPDATE_IR _ (or_intror eq_refl) Hat) as Hx. rewrite Hm in Hx.
  replace (scan_ir count data d) with (ir_update d (drop 1 (drop n (ir_capture d ++ bits_of n (Z.shiftr data 1)) ++ [b])));
    [exact Hx|].
  unfold scan_ir. f_equal. rewrite En. replace (Z.to_nat count) with (S (S n)) by lia.
  assert (b = Z.testbit (Z.shiftr data 1) (Z.of_nat n)) as ->.
  { unfold b. by rewrite <- Z.bit0_odd, (Z.shiftr_spec _ _ 0), Z.add_0_l. }
  by rewrite last_shift.
Qed.

(** A reset from any state of the port. *)
Lemma reset_tap have_trst t : exists d, at_state (jtag_bitbang_reset have_trst t) IDLE d.
Proof.
  unfold jtag_bitbang_reset. set (t0 := SET_TMS _).
  assert (Hr : st (jtag_bitbang_tick 5 t0) = JTAG_RESET).
  { assert (Hm : tap_tms t0 = true) by done. destruct t0 as [s c m i o l d]. cbn in Hm. subst m.
    by destruct s, c. }
  pose proof (tick_tck 5 t0) as Hc. set (t1 := jtag_bitbang_tick 5 t0) in *.
  clearbody t1. exists (dev t1). unfold at_state. rewrite tick_low by done. cbn. by rewrite Hr.
Qed.
End tap_scan.

(** ** The accesses as scans *)
Section refinement.
Context {D : Type} `{TapDevice D}.
Implicit Types (t : tap D) (d : D).

Definition setup_scan d : D := scan_ir 24 (access_instr TENSIX_SM_RTAP) d.
Definition wr_scan (tdr_addr v : Z) d : D := snd (scan_dr TENSIX_TDRLEN_SIBLEN_PLUS_1 (SIBSHIFTUP v) (snd (scan_dr TENSIX_SIBLEN_PLUS_1_OR_0 (tdr_addr + 1) d))).
Definition rd_scan (tdr_addr : Z) d : Z * D :=
  let '(v, d) := scan_dr TENSIX_TDRLEN_SIBLEN_PLUS_1 0 (snd (scan_dr TENSIX_SIBLEN_PLUS_1_OR_0 (tdr_addr + 1) d)) in (u32 (SIBSHIFT v), d).
Fixpoint poll_scan (n : nat) (status : Z) d : Z * D :=
  match n with
  | O => (status, d)
  | S n => let '(status, d) := rd_scan ARC_AXI_CONTROL_STATUS_TDR d in
           if negb (Z.land status 0xF =? 0) then (status, d) else poll_scan n status d
  end.
Definition axiread_scan (addr : Z) d : Z * Z * D :=
  let d := wr_scan ARC_AXI_CONTROL_STATUS_TDR AXI_CNTL_READ (wr_scan ARC_AXI_ADDR_TDR addr (setup_scan d)) in
  let '(status, d) := poll_scan 1000 1 d in
  let '(v, d) := rd_scan ARC_AXI_DATA_TDR d in
  (if negb (Z.land status 0xF =? 0) then 0 else -1, v, d).
Definition axiwrite_scan (addr value : Z) d : Z * D :=
  let d := wr_scan ARC_AXI_ADDR_TDR addr (setup_scan d) in
  let d := wr_scan ARC_AXI_DATA_TDR value d in
  let d := wr_scan ARC_AXI_CONTROL_STATUS_TDR AXI_CNTL_WRITE d in
  rd_scan ARC_AXI_CONTROL_STATUS_TDR d.
Fixpoint blockwrite_scan (addr : Z) (value : list Z) (result : Z) d : Z * D :=
  match value with
  | [] => (result, d)
  | v :: value =>
      let '(status, d) := axiwrite_scan addr v d in
      blockwrite_scan (u32 (addr + 4)) value (if Z.land (Z.shiftr status 16) 1 =? 1 then -1 else result) d
  end.

(** The driver at the pins does what [m] does to the device: same result, device as after
    [m], port in state [s']. *)
Definition does {A} (s' : jtag_state) (r : A * tap D) (m : A * D) : Prop :=
  exists t', r = (fst m, t') /\ at_state t' s' (snd m).

Lemma wr_tap t d a v : at_state t SCAN_DR d ->
  at_state (jtag_wr_tensix_sm_rtap_tdr a v t) SCAN_DR (wr_scan a v d).
Proof.
  intros Ht. unfold jtag_wr_tensix_sm_rtap_tdr, wr_scan, jtag_bitbang_update_dr.
  destruct (xfer_dr_tap TENSIX_SIBLEN_PLUS_1_OR_0 (a + 1) false false t d ltac:(done) Ht) as (t1 & -> & H1). cbn [snd].
  destruct (xfer_dr_tap TENSIX_TDRLEN_SIBLEN_PLUS_1 (SIBSHIFTUP v) false false _ _ ltac:(done) H1) as (t2 & -> & H2).
  exact H2.
Qed.
Lemma rd_tap t d a : at_state t SCAN_DR d -> does SCAN_DR (jtag_rd_tensix_sm_rtap_tdr a t) (rd_scan a d).
Proof.
  intros Ht. unfold jtag_rd_tensix_sm_rtap_tdr, rd_scan, jtag_bitbang_update_dr, jtag_bitbang_capture_dr.
  destruct (xfer_dr_tap TENSIX_SIBLEN_PLUS_1_OR_0 (a + 1) false false t d ltac:(done) Ht) as (t1 & -> & H1).
  destruct (xfer_dr_tap TENSIX_TDRLEN_SIBLEN_PLUS_1 0 false true _ _ ltac:(done) H1) as (t2 & E2 & H2).
  cbn [snd]. revert E2 H2. destruct (scan_dr TENSIX_TDRLEN_SIBLEN_PLUS_1 0 _) as [v d2].
  cbn [fst snd]. intros -> H2. exists t2. split; [reflexivity | exact H2].
Qed.
Lemma rd_idle_tap t d a : at_state t SCAN_DR d -> does IDLE (jtag_rd_tensix_sm_rtap_tdr_idle a t) (rd_scan a d).
Proof.
  intros Ht. unfold jtag_rd_tensix_sm_rtap_tdr_idle, rd_scan, jtag_bitbang_update_dr, jtag_bitbang_capture_dr_idle.
  destruct (xfer_dr_tap TENSIX_SIBLEN_PLUS_1_OR_0 (a + 1) false false t d ltac:(done) Ht) as (t1 & -> & H1).
  destruct (xfer_dr_tap TENSIX_TDRLEN_SIBLEN_PLUS_1 0 true true _ _ ltac:(done) H1) as (t2 & E2 & H2).
  cbn [snd]. revert E2 H2. destruct (scan_dr TENSIX_TDRLEN_SIBLEN_PLUS_1 0 _) as [v d2].
  cbn [fst snd]. intros -> H2. exists t2. split; [reflexivity | exact H2].
Qed.
Lemma poll_tap n status t d : at_state t SCAN_DR d -> does SCAN_DR (poll_status n status t) (poll_scan n status d).
Proof.
  revert status t d. induction n as [|n IH]; intros status t d Ht; [by exists t|]. cbn [poll_status poll_scan].
  destruct (rd_tap t d ARC_AXI_CONTROL_STATUS_TDR Ht) as (t1 & -> & H1).
  revert H1. destruct (rd_scan ARC_AXI_CONTROL_STATUS_TDR d) as [v d1]. intros H1. cbn [fst snd] in *.
  destruct (negb _); [exists t1; split; [reflexivity | exact H1] | exact (IH _ _ _ H1)].
Qed.
Lemma setup_tap t d : at_state t IDLE d -> at_state (jtag_setup_access TENSIX_SM_RTAP t) SCAN_DR (setup_scan d).
Proof. intros. by apply update_ir_tap. Qed.
Lemma axiwrite_tap t d addr v : at_state t IDLE d -> does IDLE (axiwrite_status addr v t) (axiwrite_scan addr v d).
Proof.
  intros Ht. unfold axiwrite_status, axiwrite_scan. exact (rd_idle_tap _ _ _ (wr_tap _ _ _ _ (wr_tap _ _ _ _ (wr_tap _ _ _ _ (setup_tap _ _ Ht))))).
Qed.
Lemma axiread_tap t d addr : at_state t IDLE d -> does IDLE (jtag_axiread addr t) (axiread_scan addr d).
Proof.
  intros Ht. unfold jtag_axiread, axiread_scan.
  pose proof (wr_tap _ _ ARC_AXI_CONTROL_STATUS_TDR AXI_CNTL_READ
    (wr_tap _ _ ARC_AXI_ADDR_TDR addr (setup_tap _ _ Ht))) as H1.
  destruct (poll_tap 1000 1 _ _ H1) as (t2 & -> & H2).
  revert H2. destruct (poll_scan 1000 1 _) as [status d2]. intros H2. cbn [fst snd] in *.
  destruct (rd_idle_tap _ _ ARC_AXI_DATA_TDR H2) as (t3 & -> & H3).
  revert H3. destruct (rd_scan ARC_AXI_DATA_TDR d2) as [v d3]. intros H3. exists t3. split; [reflexivity | exact H3].
Qed.
Lemma blockwrite_tap ws t d addr r : at_state t IDLE d ->
  does IDLE (blockwrite_loop addr ws r t) (blockwrite_scan addr ws r d).
Proof.
  revert t d addr r. induction ws as [|v ws IH]; intros t d addr r Ht; [by exists t|].
  cbn [blockwrite_loop blockwrite_scan]. destruct (axiwrite_tap t d addr v Ht) as (t1 & -> & H1).
  revert H1. destruct (axiwrite_scan addr v d) as [s d1]. intros H1. exact (IH _ _ _ _ H1).
Qed.

(** C7. Bit-banging is scanning. On any standard port, in any state of it, a reset leads to
    the idle state; from there every access of the driver has on the device exactly the
    effect of its sequence of instruction and data scans, returns what the scans read,
    and leaves the port idle with TCK low, ready for the next. *)
Theorem jtag_refines_scans t have_trst d addr value words :
  (exists d', at_state (jtag_bitbang_reset have_trst t) IDLE d') /\
  (at_state t IDLE d ->
   does IDLE (jtag_axiread addr t) (axiread_scan addr d) /\
   does IDLE (jtag_axiwrite addr value t)
     (let '(s, d) := axiwrite_scan addr value d in (if negb (Z.land (Z.shiftr s 16) 1 =? 1) then 0 else -1, d)) /\
   does IDLE (jtag_axi_blockwrite addr words t) (blockwrite_scan addr words 0 d) /\
   does IDLE (jtag_bitbang_read_id t) (let '(v, d) := scan_dr 32 0 (scan_ir 24 6 d) in (u32 v, d))).
Proof.
  split; [apply reset_tap|]. intros Ht. split_and!.
  - exact (axiread_tap _ _ _ Ht).
  - unfold jtag_axiwrite. destruct (axiwrite_tap t d addr value Ht) as (t1 & -> & H1).
    revert H1. destruct (axiwrite_scan addr value d) as [s d1]. intros H1. exists t1. split; [reflexivity | exact H1].
  - exact (blockwrite_tap _ _ _ _ _ Ht).
  - unfold jtag_bitbang_read_id, jtag_bitbang_capture_dr_idle.
    destruct (xfer_dr_tap 32 0 true true _ _ ltac:(done) (update_ir_tap 24 6 t d ltac:(done) Ht)) as (t1 & -> & H1).
    revert H1. destruct (scan_dr 32 0 _) as [v d1]. intros H1. exists t1. split; [reflexivity | exact H1].
Qed.
End refinement.

(** The bit that is not shifted in: the instruction's bit 0 has no effect. The operation
    codes in use are even. *)
Lemma ir_bit0_ignored {D} `{TapDevice D} n data (d : D) :
  scan_ir n (Z.lxor data 1) d = scan_ir n data d.
Proof.
  unfold scan_ir. do 3 f_equal. destruct (Z.to_nat n) as [|k]; [done|]. cbn [bits_of].
  rewrite !skipn_cons, !drop_0. f_equal. rewrite Z.shiftr_lxor. change (Z.shiftr 1 1) with 0. apply Z.lxor_0_r.
Qed.

(** A device that logs what its registers are updated with. *)
Definition log_dev : Type := list (list bool).
#[global, refine] Instance log_tap : TapDevice log_dev := {
  ir_capture _ := replicate 24 false; ir_update d l := d ++ [l];
  dr_capture _ := replicate 37 true; dr_update d l := d ++ [l]; test_logic_reset d := d }.
Proof. all: done. Defined.
Definition idle_tap : tap log_dev :=
  {| st := IDLE; tap_tck := false; tap_tms := true; tap_tdi := false; tap_tdo := false; sr := []; dev := [] |}.
Lemma jtag_refines_scans_witness :
  (exists d', at_state (jtag_bitbang_reset true idle_tap) IDLE d') /\
  does IDLE (jtag_axiwrite 0x100 0xABCD idle_tap)
     (let '(s, d) := axiwrite_scan 0x100 0xABCD [] in (if negb (Z.land (Z.shiftr s 16) 1 =? 1) then 0 else -1, d)) /\
  does IDLE (jtag_axi_blockwrite 0x100 [1; 2] idle_tap) (blockwrite_scan 0x100 [1; 2] 0 []).
Proof.
  destruct (jtag_refines_scans idle_tap true [] 0x100 0xABCD [1; 2]) as [H1 H2].
  destruct (H2 (conj eq_refl (conj eq_refl eq_refl))) as (_ & H3 & H4 & _). exact (conj H1 (conj H3 H4)).
Defined.

(** The status bit: a write whose status has bit 16 set is reported as failed. *)
Lemma write_status_bit : fst (jtag_axiwrite 0x100 0xABCD idle_tap) = -1.
Proof. vm_compute. reflexivity. Qed.

(** From the second exit states the standard goes on to the update. *)
Lemma exit2_differs : next_state true EXIT2_DR = SHIFT_DR /\ tap_next true EXIT2_DR = UPDATE_DR.
Proof. done. Qed.
