(* ===== verification/JtagEmul.v ===== *)
(** The JTAG driver on the repository's emulator: what [jtag_bitbang.c] writes through
    [jtag_emul.c] arrives in the emulated memory, and [jtag_bootrom.c]'s verification
    succeeds on it. *)
From stdpp Require Import prelude list numbers.
From Stdlib Require Import ZArith Lia.
From S2P Require Import Prelude Jtag.
Open Scope Z_scope.
(** * The driver on the emulator *)

(** The part of the emulator that a data scan updates. *)
Record axi := { a_have_addr : bool; a_addr : Z; a_have_data : bool; a_buf : list Z }.
Definition axi_of (e : jtag_emul) : axi :=
  {| a_have_addr := have_axi_addr_tdr e; a_addr := axi_addr_tdr e; a_have_data := have_axi_data_tdr e;
     a_buf := buf e |}.
(** One updated data register with contents [hold]. *)
Definition axi_step (hold : Z) (a : axi) : axi :=
  if u32 (hold - 1) =? ARC_AXI_ADDR_TDR then
    {| a_have_addr := true; a_addr := a_addr a; a_have_data := a_have_data a; a_buf := a_buf a |}
  else if a_have_addr a then
    {| a_have_addr := false; a_addr := hold; a_have_data := a_have_data a; a_buf := a_buf a |}
  else if u32 (hold - 1) =? ARC_AXI_DATA_TDR then
    {| a_have_addr := a_have_addr a; a_addr := a_addr a; a_have_data := true; a_buf := a_buf a |}
  else if a_have_data a then
    {| a_have_addr := a_have_addr a; a_addr := a_addr a; a_have_data := false;
       a_buf := if Z.shiftr (a_addr a) 2 <? Z.of_nat (length (a_buf a))
                then <[Z.to_nat (Z.shiftr (a_addr a) 2) := hold]> (a_buf a) else a_buf a |}
  else a.

Section emul.
Implicit Types (e : jtag_emul).
(** In state [s] with TCK low and contents [a]. *)
Definition emul_at e s (a : axi) (o : bool) : Prop := state e = s /\ tck_old e = false /\ axi_of e = a /\ tdo e = o.

Definition emul_fall e : jtag_emul :=
  let e := on_tck_falling (with_state e (state e) (selected_reg e) false) in
  with_state e (next_state (tms e) (state e)) (selected_reg e) (tck_old e).
Lemma emul_tick e : tck_old e = false -> jtag_bitbang_tick 1 e = emul_fall (with_state e (state e) (selected_reg e) true).
Proof.
  intros Hc. unfold jtag_bitbang_tick. cbn [tick_loop]. unfold CLR_TCK, SET_TCK, pin_tck, emul_pins, gpio_emul_callback.
  rewrite Hc. cbn [Bool.eqb]. rewrite Hc. done.
Qed.
Lemma emul_clr_clr e : CLR_TCK (CLR_TCK e) = CLR_TCK e.
Proof.
  unfold CLR_TCK, pin_tck, emul_pins, gpio_emul_callback. destruct (tck_old e) eqn:E; cbn [Bool.eqb]; [|by rewrite E].
  cbn [negb]. assert (forall x, tck_old (on_tck_falling x) = tck_old x) as Hx.
  { intros x. unfold on_tck_falling, on_update_reg. repeat (case_match; try done). }
  cbn [tck_old with_state]. rewrite Hx. done.
Qed.
Lemma emul_tick_succ n e : jtag_bitbang_tick (S n) e = jtag_bitbang_tick n (jtag_bitbang_tick 1 e).
Proof.
  unfold jtag_bitbang_tick. cbn [tick_loop]. destruct n; cbn [tick_loop]; by rewrite emul_clr_clr.
Qed.

(** The contents of the shift register. *)
Definition feed (r : Z) (l : list bool) : Z :=
  fold_left (λ r b, u32 (Z.lor (Z.shiftl r 1) (Z.b2z b))) l r.
Lemma b2z_testbit b j : 0 < j -> Z.testbit (Z.b2z b) j = false.
Proof. intros. destruct b; cbn; [by destruct j | by rewrite Z.bits_0]. Qed.
Lemma feed_testbit r l j :
  (j < 32)%nat -> (j < length l)%nat -> Z.testbit (feed r l) (Z.of_nat j) = default false (l !! (length l - 1 - j)%nat).
Proof.
  revert j. induction l as [|b l IH] using rev_ind; intros j Hj Hl; [cbn in Hl; lia|].
  unfold feed in *. rewrite fold_left_app. cbn [fold_left]. rewrite wrap_testbit, Z.lor_spec by lia.
  rewrite length_app in *. cbn [length] in *. destruct j as [|j].
  - change (Z.of_nat 0) with 0. rewrite Z.shiftl_spec_low, Z.b2z_bit0, orb_false_l by lia.
    rewrite lookup_app_r by lia. by replace (length l + 1 - 1 - 0 - length l)%nat with 0%nat by lia.
  - rewrite b2z_testbit, orb_false_r, Z.shiftl_spec by lia.
    replace (Z.of_nat (S j) - 1) with (Z.of_nat j) by lia. rewrite IH by lia.
    rewrite lookup_app_l by lia. do 2 f_equal. lia.
Qed.
(** After 4 bits the register holds them, after 36 the last 32. *)
Lemma hold4 r data : Z.shiftr (bitrev32 (feed r (bits_of 4 data))) 28 = data mod 16.
Proof.
  change 16 with (2 ^ 4). apply Z.bits_inj'. intros i Hi. rewrite Z.shiftr_spec by lia.
  destruct (Z.lt_ge_cases i 4).
  - rewrite Z.mod_pow2_bits_low, bitrev32_spec by lia.
    replace (31 - (i + 28)) with (Z.of_nat (3 - Z.to_nat i)) by lia.
    rewrite feed_testbit by (rewrite ?bits_of_length; lia). rewrite bits_of_length.
    rewrite bits_of_lookup by lia. cbn. f_equal. lia.
  - rewrite Z.mod_pow2_bits_high by lia. unfold bitrev32, wrap. rewrite Z.mod_pow2_bits_high by lia. done.
Qed.
Lemma hold36 r data : Z.shiftr (bitrev32 (feed r (bits_of 36 data))) 0 = Z.shiftr data 4 mod 2 ^ 32.
Proof.
  rewrite Z.shiftr_0_r. apply Z.bits_inj'. intros i Hi.
  destruct (Z.lt_ge_cases i 32).
  - rewrite Z.mod_pow2_bits_low, bitrev32_spec by lia.
    replace (31 - i) with (Z.of_nat (31 - Z.to_nat i)) by lia.
    rewrite feed_testbit by (rewrite ?bits_of_length; lia). rewrite bits_of_length.
    rewrite bits_of_lookup by lia. cbn [default from_option id]. rewrite Z.shiftr_spec by lia. f_equal. lia.
  - rewrite Z.mod_pow2_bits_high by lia. unfold bitrev32, wrap. by rewrite Z.mod_pow2_bits_high by lia.
Qed.

(** In the shift state, with [k] bits in the register. *)
Definition eshift e (k r : Z) (a : axi) (o : bool) : Prop :=
  emul_at e SHIFT_DR a o /\ selected_reg e = DR /\ tms e = false /\ shift_reg e DR = r /\ shift_bits e DR = k.
Lemma eshift_step e k r a o b :
  eshift e k r a o -> eshift (jtag_bitbang_tick 1 (IF_TDI b e)) (u8 (k + 1)) (u32 (Z.lor (Z.shiftl r 1) (Z.b2z b))) a o.
Proof.
  intros ((Hs & Hc & Ha & Ho) & Hsel & Hm & Hr & Hk). rewrite emul_tick by done.
  unfold emul_fall, on_tck_falling. cbn. rewrite Hs, Hm. cbn. rewrite Hsel, Hr, Hk.
  unfold eshift, emul_at. cbn. rewrite ?Hm. by split_and!.
Qed.
Lemma u8_u8 a b : u8 (u8 a + b) = u8 (a + b).
Proof. apply wrap_add_l. Qed.
Lemma emul_shift_dr n capture data out e k r a o :
  in_width 8 k -> eshift e k r a o ->
  exists e', shift_dr n capture data out e
    = (Z.shiftr data (Z.of_nat n), if capture then collect out (replicate n o) else out, e') /\
    eshift e' (u8 (k + Z.of_nat n)) (feed r (bits_of n data)) a o.
Proof.
  revert data out e k r. induction n as [|n IH]; intros data out e k r Hk He.
  { exists e. rewrite Z.shiftr_0_r, Z.add_0_r, wrap_id by done. cbn. by destruct capture. }
  cbn [shift_dr]. pose proof (eshift_step _ _ _ _ _ (Z.odd data) He) as He'.
  assert (GET_TDO (IF_TDI (Z.odd data) e) = o) as -> by (destruct He as ((_ & _ & _ & Ho) & _); exact Ho).
  edestruct (IH (Z.shiftr data 1)) as (e' & -> & Ht'); [|exact He'|]; [by apply wrap_in_width|].
  exists e'. rewrite Z.shiftr_shiftr, u8_u8 in * by lia.
  replace (1 + Z.of_nat n) with (Z.of_nat (S n)) by lia.
  replace (k + 1 + Z.of_nat n) with (k + Z.of_nat (S n)) in Ht' by lia.
  split; [by destruct capture | exact Ht'].
Qed.
(** States in which a tick only moves on. *)
Definition plain (s : jtag_state) : bool :=
  match s with SHIFT_DR | SHIFT_IR | UPDATE_DR | UPDATE_IR => false | _ => true end.
Lemma emul_tick_plain e s a o :
  emul_at e s a o -> plain s = true ->
  let e' := jtag_bitbang_tick 1 e in
  emul_at e' (next_state (tms e) s) a o /\ tms e' = tms e /\
  selected_reg e' = match s with SCAN_DR => DR | SCAN_IR => IR | _ => selected_reg e end /\
  (s = CAPTURE_DR -> selected_reg e = DR -> shift_bits e' DR = 0).
Proof.
  intros (Hs & Hc & Ha & Ho) Hp e'. subst e'. rewrite emul_tick by done. unfold emul_fall, on_tck_falling.
  cbn [state with_state]. rewrite Hs. subst a o. unfold emul_at, axi_of.
  destruct s; try done; cbn; rewrite ?Hs; (split_and!; try done). intros _ ->. done.
Qed.
Lemma emul_at_tms e s a o : emul_at e s a o -> emul_at (CLR_TMS e) s a o /\ emul_at (SET_TMS e) s a o.
Proof. intros (Hs & Hc & Ha & Ho). unfold emul_at. cbn. by split_and!. Qed.
Lemma emul_enter e a o :
  emul_at e SCAN_DR a o -> exists r, eshift (jtag_bitbang_tick 1 (jtag_bitbang_tick 1 (CLR_TMS e))) 0 r a o.
Proof.
  intros He.
  destruct (emul_tick_plain (CLR_TMS e) SCAN_DR a o (proj1 (emul_at_tms _ _ _ _ He)) eq_refl) as (H1 & Hm1 & Hs1 & _).
  set (e1 := jtag_bitbang_tick 1 (CLR_TMS e)) in *. clearbody e1. change (tms (CLR_TMS e)) with false in *.
  destruct (emul_tick_plain e1 CAPTURE_DR a o H1 eq_refl) as (H2 & Hm2 & Hs2 & Hb2).
  rewrite Hm1 in *. rewrite Hs1 in *. eexists. split_and!; [exact H2 | done | done | reflexivity | by apply Hb2].
Qed.
Lemma emul_tick_exit e s a o :
  emul_at e s a o -> tms e = true -> (s = SHIFT_DR \/ s = SHIFT_IR \/ s = EXIT1_DR \/ s = EXIT1_IR) ->
  let e' := jtag_bitbang_tick 1 e in
  emul_at e' (next_state true s) a o /\ tms e' = true /\ selected_reg e' = selected_reg e /\
  shift_reg e' = shift_reg e /\ shift_bits e' = shift_bits e.
Proof.
  intros (Hs & Hc & Ha & Ho) Hm Hp e'. subst e'. rewrite emul_tick by done. unfold emul_fall, on_tck_falling.
  cbn [state with_state tms]. rewrite Hs, Hm. subst a o. unfold emul_at, axi_of.
  destruct Hp as [-> | [-> | [-> | ->]]]; cbn; rewrite ?Hs, ?Hm; by split_and!.
Qed.
(** The last bit is not shifted in; the register is updated with what it holds. *)
Lemma emul_leave e k r a o b idle :
  eshift e k r a o ->
  let e1 := jtag_bitbang_tick 1 (jtag_bitbang_tick 1 (IF_TDI b (SET_TMS e))) in
  GET_TDO (IF_TDI b (SET_TMS e)) = o /\
  emul_at (if idle : bool then jtag_bitbang_tick 1 (CLR_TMS e1) else jtag_bitbang_tick 1 e1)
    (if idle then IDLE else SCAN_DR)
    (axi_step (Z.shiftr (bitrev32 r) (32 - CLAMP k 1 32)) a) o.
Proof.
  intros ((Hs & Hc & Ha & Ho) & Hsel & Hm & Hr & Hk) e1. split; [done|].
  assert (He1 : state e1 = UPDATE_DR /\ tck_old e1 = false /\ axi_of e1 = a /\ tdo e1 = o /\ selected_reg e1 = DR /\
                tms e1 = true /\ shift_reg e1 DR = r /\ shift_bits e1 DR = k).
  { assert (H0 : emul_at (IF_TDI b (SET_TMS e)) SHIFT_DR a o) by (unfold emul_at; cbn; by split_and!).
    destruct (emul_tick_exit _ _ _ _ H0 eq_refl (or_introl eq_refl)) as (H1 & Hm1 & Hs1 & Hr1 & Hk1).
    destruct (emul_tick_exit _ _ _ _ H1 Hm1 ltac:(auto)) as ((? & ? & ? & ?) & Hm2 & Hs2 & Hr2 & Hk2).
    unfold e1. split_and!; [done..| | done | |]; rewrite ?Hs2, ?Hs1, ?Hr2, ?Hr1, ?Hk2, ?Hk1; done. }
  clearbody e1. clear Hs Hc Ha Ho Hsel Hm Hr Hk.
  destruct He1 as (Hs & Hc & Ha & Ho & Hsel & Hm & Hr & Hk).
  assert (Hupd : forall e2, state e2 = UPDATE_DR -> tck_old e2 = false -> axi_of e2 = a -> tdo e2 = o ->
    selected_reg e2 = DR -> shift_reg e2 DR = r -> shift_bits e2 DR = k ->
    emul_at (jtag_bitbang_tick 1 e2) (next_state (tms e2) UPDATE_DR)
      (axi_step (Z.shiftr (bitrev32 r) (32 - CLAMP k 1 32)) a) o).
  { clear Hs Hc Ha Ho Hsel Hm Hr Hk. intros e2 Hs2 Hc2 Ha2 Ho2 Hsel2 Hr2 Hk2. rewrite emul_tick by done. unfold emul_fall, on_tck_falling.
    cbn [state with_state]. rewrite Hs2. unfold on_update_reg. cbn [selected_reg with_state]. rewrite Hsel2.
    cbn [shift_reg shift_bits with_state]. rewrite Hr2, Hk2. unfold REG_BITS.
    set (hold := Z.shiftr _ _). subst a o. unfold axi_step, axi_of.
    cbn [have_axi_addr_tdr have_axi_data_tdr axi_addr_tdr axi_data_tdr buf a_have_addr a_have_data a_addr a_buf
         with_hold with_shift with_state].
    destruct (u32 (hold - 1) =? ARC_AXI_ADDR_TDR), (have_axi_addr_tdr e2) eqn:E1,
      (u32 (hold - 1) =? ARC_AXI_DATA_TDR), (have_axi_data_tdr e2) eqn:E2;
    unfold emul_at, axi_of; cbn; rewrite ?Hs2, ?E1, ?E2; by split_and!. }
  destruct idle.
  - exact (Hupd (CLR_TMS e1) Hs Hc Ha Ho Hsel Hr Hk).
  - pose proof (Hupd e1 Hs Hc Ha Ho Hsel Hr Hk) as Hx. by rewrite Hm in Hx.
Qed.
(** One data scan. *)
Lemma emul_xfer_dr count data idle capture e a o :
  1 <= count <= 64 -> emul_at e SCAN_DR a o ->
  exists e' r, jtag_bitbang_xfer_dr count data idle capture e
      = (if capture then bits_value (replicate (Z.to_nat count) o) else 0, e') /\
    emul_at e' (if idle then IDLE else SCAN_DR)
      (axi_step (Z.shiftr (bitrev32 (feed r (bits_of (Z.to_nat (count - 1)) data)))
                   (32 - CLAMP (count - 1) 1 32)) a) o.
Proof.
  intros Hcnt He. unfold jtag_bitbang_xfer_dr. rewrite (proj2 (Z.eqb_neq count 0)) by lia.
  set (n := Z.to_nat (count - 1)). destruct (emul_enter e a o He) as [r Hsh].
  destruct (emul_shift_dr n capture data 0 _ 0 r a o ltac:(done) Hsh) as (e1 & -> & Hsh1).
  rewrite Z.add_0_l, wrap_id in Hsh1 by (unfold in_width; change (2 ^ 8) with 256; lia).
  set (b := Z.odd _). destruct (emul_leave e1 _ _ a o b idle Hsh1) as [Ho Hat]. rewrite Ho.
  replace (Z.of_nat n) with (count - 1) in Hat by lia.
  destruct idle; do 2 eexists; (split; [f_equal; destruct capture; [|done] | exact Hat]).
  all: replace (Z.to_nat count) with (S n) by lia; rewrite replicate_S_end, <- captured_value, length_replicate
    by (rewrite length_replicate; lia); do 4 f_equal; lia.
Qed.

(** An instruction scan leaves the data registers alone. *)
Definition eir e (a : axi) (o : bool) : Prop :=
  (emul_at e CAPTURE_IR a o \/ emul_at e SHIFT_IR a o) /\ selected_reg e = IR /\ tms e = false.
Lemma emul_at_tdi e s a o b : emul_at e s a o -> emul_at (IF_TDI b e) s a o.
Proof. intros (Hs & Hc & Ha & Ho). unfold emul_at. cbn. by split_and!. Qed.
Lemma emul_ir_step e a o b : eir e a o ->
  let e' := jtag_bitbang_tick 1 (IF_TDI b e) in emul_at e' SHIFT_IR a o /\ selected_reg e' = IR /\ tms e' = false.
Proof.
  intros ([He|He] & Hsel & Hm) e'; apply (emul_at_tdi _ _ _ _ b) in He.
  - destruct (emul_tick_plain _ _ _ _ He eq_refl) as (H1 & Hm1 & Hs1 & _).
    change (tms (IF_TDI b e)) with (tms e) in *. rewrite Hm in *.
    split_and!; [exact H1 | exact (eq_trans Hs1 Hsel) | exact Hm1].
  - subst e'. destruct He as (Hs & Hc & Ha & Ho). rewrite emul_tick by done.
    unfold emul_fall, on_tck_falling. cbn [state with_state]. rewrite Hs.
    cbn [tms with_state IF_TDI pin_tdi emul_pins with_pins]. rewrite Hm. cbn [negb]. subst a o.
    unfold emul_at, axi_of. cbn. rewrite ?Hm, ?Hsel. cbn in Hs. rewrite ?Hs. by split_and!.
Qed.
Lemma emul_shift_ir n data e a o : eir e a o -> exists e' v, shift_ir (S n) data e = (v, e') /\
  emul_at e' SHIFT_IR a o /\ selected_reg e' = IR.
Proof.
  revert data e. induction n as [|n IH]; intros data e He.
  - destruct (emul_ir_step e a o (Z.odd data) He) as (H1 & H2 & _). by do 2 eexists.
  - destruct (emul_ir_step e a o (Z.odd data) He) as (H1 & H2 & H3).
    cbn [shift_ir]. cbn [shift_ir] in IH. apply IH. by split_and!; [right|..].
Qed.
Lemma emul_update_ir count data e a o :
  2 <= count -> emul_at e IDLE a o -> emul_at (jtag_bitbang_update_ir count data e) SCAN_DR a o.
Proof.
  intros Hcnt He. unfold jtag_bitbang_update_ir.
  pose proof (proj2 (emul_at_tms _ _ _ _ He)) as H0. rewrite (emul_tick_succ 1).
  destruct (emul_tick_plain _ _ _ _ H0 eq_refl) as (H1 & Hm1 & _ & _).
  destruct (emul_tick_plain _ _ _ _ H1 eq_refl) as (H2 & Hm2 & _ & _).
  change (tms (SET_TMS e)) with true in *. rewrite Hm1 in *. rewrite ?Hm2 in *.
  set (e2 := jtag_bitbang_tick 1 (jtag_bitbang_tick 1 (SET_TMS e))) in *. clearbody e2.
  destruct (emul_tick_plain _ _ _ _ (proj1 (emul_at_tms _ _ _ _ H2)) eq_refl) as (H3 & Hm3 & Hs3 & _).
  change (tms (CLR_TMS e2)) with false in *.
  set (e3 := jtag_bitbang_tick 1 (CLR_TMS e2)) in *. clearbody e3.
  destruct (Z.to_nat (count - 1)) as [|n] eqn:En; [lia|].
  destruct (emul_shift_ir n data e3 a o) as (e4 & v & -> & H4 & Hs4); [by split_and!; [left|..]|].
  set (b := Z.odd v). pose proof (emul_at_tdi _ _ _ _ b (proj2 (emul_at_tms _ _ _ _ H4))) as H5.
  destruct (emul_tick_exit _ _ _ _ H5 eq_refl ltac:(auto)) as (H6 & Hm6 & Hs6 & _ & _).
  set (e6 := jtag_bitbang_tick 1 (IF_TDI b (SET_TMS e4))) in *.
  change (selected_reg (IF_TDI b (SET_TMS e4))) with (selected_reg e4) in Hs6. rewrite Hs4 in Hs6. clearbody e6.
  rewrite (emul_tick_succ 1).
  destruct (emul_tick_exit _ _ _ _ (proj2 (emul_at_tms _ _ _ _ H6)) eq_refl ltac:(auto)) as (H7 & Hm7 & Hs7 & _ & _).
  change (selected_reg (SET_TMS e6)) with (selected_reg e6) in Hs7. rewrite Hs6 in Hs7.
  set (e7 := jtag_bitbang_tick 1 (SET_TMS e6)) in *. clearbody e7.
  destruct H7 as (Hs & Hc & Ha & Ho). rewrite emul_tick by done. unfold emul_fall, on_tck_falling.
  cbn [state with_state]. rewrite Hs. cbn [next_state]. unfold on_update_reg. cbn [selected_reg with_state]. rewrite Hs7.
  subst a o. unfold emul_at, axi_of. cbn. rewrite Hm7. by split_and!.
Qed.

(** ** The accesses *)
Definition tdo_word (o : bool) : Z := if o then 0xFFFFFFFF else 0.
Lemma emul_select a' e a o : 0 <= a' <= 14 -> emul_at e SCAN_DR a o ->
  emul_at (jtag_bitbang_update_dr TENSIX_SIBLEN_PLUS_1_OR_0 (a' + 1) e) SCAN_DR (axi_step (a' + 1) a) o.
Proof.
  intros Ha He. unfold jtag_bitbang_update_dr.
  destruct (emul_xfer_dr TENSIX_SIBLEN_PLUS_1_OR_0 (a' + 1) false false e a o ltac:(done) He) as (e1 & r & -> & H1).
  change (Z.to_nat (TENSIX_SIBLEN_PLUS_1_OR_0 - 1)) with 4%nat in H1.
  change (32 - CLAMP (TENSIX_SIBLEN_PLUS_1_OR_0 - 1) 1 32) with 28 in H1.
  rewrite hold4, Z.mod_small in H1 by lia. exact H1.
Qed.
Lemma emul_data v idle capture e a o : in_width 32 v -> emul_at e SCAN_DR a o ->
  exists e', jtag_bitbang_xfer_dr TENSIX_TDRLEN_SIBLEN_PLUS_1 (SIBSHIFTUP v) idle capture e
      = (if capture then bits_value (replicate 37 o) else 0, e') /\
    emul_at e' (if idle then IDLE else SCAN_DR) (axi_step v a) o.
Proof.
  intros Hv He.
  destruct (emul_xfer_dr TENSIX_TDRLEN_SIBLEN_PLUS_1 (SIBSHIFTUP v) idle capture e a o ltac:(done) He) as (e1 & r & E & H1).
  exists e1. split; [exact E|].
  change (Z.to_nat (TENSIX_TDRLEN_SIBLEN_PLUS_1 - 1)) with 36%nat in H1.
  change (32 - CLAMP (TENSIX_TDRLEN_SIBLEN_PLUS_1 - 1) 1 32) with 0 in H1. rewrite hold36 in H1.
  replace (Z.shiftr (SIBSHIFTUP v) 4 mod 2 ^ 32) with v in H1; [exact H1|].
  unfold in_width in Hv. unfold SIBSHIFTUP, TENSIX_SM_SIBLEN. rewrite Z.shiftl_mul_pow2 by lia.
  rewrite wrap_id by (unfold in_width; lia). rewrite Z.shiftr_div_pow2, Z.div_mul, Z.mod_small by lia. done.
Qed.
Lemma emul_wr t v e a o : 0 <= t <= 14 -> in_width 32 v -> emul_at e SCAN_DR a o ->
  emul_at (jtag_wr_tensix_sm_rtap_tdr t v e) SCAN_DR (axi_step v (axi_step (t + 1) a)) o.
Proof.
  intros Ht Hv He. unfold jtag_wr_tensix_sm_rtap_tdr. unfold jtag_bitbang_update_dr at 1.
  destruct (emul_data v false false _ _ _ Hv (emul_select t e a o Ht He)) as (e1 & -> & H1). exact H1.
Qed.
Lemma tdo_value o : u32 (SIBSHIFT (bits_value (replicate 37 o))) = tdo_word o.
Proof. by destruct o; vm_compute. Qed.
Lemma emul_rd t e a o : 0 <= t <= 14 -> emul_at e SCAN_DR a o ->
  exists e', jtag_rd_tensix_sm_rtap_tdr t e = (tdo_word o, e') /\ emul_at e' SCAN_DR (axi_step 0 (axi_step (t + 1) a)) o.
Proof.
  intros Ht He. unfold jtag_rd_tensix_sm_rtap_tdr, jtag_bitbang_capture_dr.
  destruct (emul_data 0 false true _ _ _ ltac:(done) (emul_select t e a o Ht He)) as (e1 & E & H1).
  change (SIBSHIFTUP 0) with 0 in E. rewrite E. exists e1. split; [|exact H1]. by rewrite tdo_value.
Qed.
Lemma emul_rd_idle t e a o : 0 <= t <= 14 -> emul_at e SCAN_DR a o ->
  exists e', jtag_rd_tensix_sm_rtap_tdr_idle t e = (tdo_word o, e') /\ emul_at e' IDLE (axi_step 0 (axi_step (t + 1) a)) o.
Proof.
  intros Ht He. unfold jtag_rd_tensix_sm_rtap_tdr_idle, jtag_bitbang_capture_dr_idle.
  destruct (emul_data 0 true true _ _ _ ltac:(done) (emul_select t e a o Ht He)) as (e1 & E & H1).
  change (SIBSHIFTUP 0) with 0 in E. rewrite E. exists e1. split; [|exact H1]. by rewrite tdo_value.
Qed.

(** ** Words in the emulated memory *)
Definition store_word (addr v : Z) (b : list Z) : list Z :=
  if Z.shiftr addr 2 <? Z.of_nat (length b) then <[Z.to_nat (Z.shiftr addr 2) := v]> b else b.
Definition quiet (a : axi) : Prop := a_have_addr a = false /\ a_have_data a = false.
(** Words the emulator takes for the selection of a register. *)
Definition plain_word (v : Z) : Prop := in_width 32 v /\ v <> ARC_AXI_ADDR_TDR + 1 /\ v <> ARC_AXI_DATA_TDR + 1.

Lemma pred_eqb h k : in_width 32 h -> 0 <= k < 2 ^ 32 - 1 -> h <> k + 1 -> (u32 (h - 1) =? k) = false.
Proof.
  unfold in_width. intros Hh Hk Hne. apply Z.eqb_neq. unfold wrap. destruct (Z.eq_dec h 0) as [->|].
  - change ((0 - 1) mod 2 ^ 32) with (2 ^ 32 - 1). lia.
  - rewrite Z.mod_small by lia. lia.
Qed.
Lemma axi_step_plain h a : plain_word h -> quiet a -> axi_step h a = a.
Proof.
  intros (Hw & H1 & H2) [Ha Hd]. unfold axi_step.
  rewrite (pred_eqb h ARC_AXI_ADDR_TDR), (pred_eqb h ARC_AXI_DATA_TDR), Ha, Hd by done. done.
Qed.
Lemma axi_step_addr addr a : in_width 32 addr -> addr <> ARC_AXI_ADDR_TDR + 1 ->
  axi_step addr (axi_step (ARC_AXI_ADDR_TDR + 1) a)
  = {| a_have_addr := false; a_addr := addr; a_have_data := a_have_data a; a_buf := a_buf a |}.
Proof.
  intros Hw Hne. unfold axi_step at 2. cbn [Z.eqb]. change (u32 (ARC_AXI_ADDR_TDR + 1 - 1) =? ARC_AXI_ADDR_TDR) with true.
  cbn iota. unfold axi_step. by rewrite (pred_eqb addr ARC_AXI_ADDR_TDR).
Qed.
Lemma axi_step_data v a : plain_word v -> a_have_addr a = false ->
  axi_step v (axi_step (ARC_AXI_DATA_TDR + 1) a)
  = {| a_have_addr := false; a_addr := a_addr a; a_have_data := false; a_buf := store_word (a_addr a) v (a_buf a) |}.
Proof.
  intros (Hw & H1 & H2) Ha. unfold axi_step at 2. rewrite Ha.
  change (u32 (ARC_AXI_DATA_TDR + 1 - 1) =? ARC_AXI_ADDR_TDR) with false.
  change (u32 (ARC_AXI_DATA_TDR + 1 - 1) =? ARC_AXI_DATA_TDR) with true. cbn iota.
  unfold axi_step. by rewrite (pred_eqb v ARC_AXI_ADDR_TDR), (pred_eqb v ARC_AXI_DATA_TDR).
Qed.
Lemma plain_ctrl : plain_word (ARC_AXI_CONTROL_STATUS_TDR + 1) /\ plain_word AXI_CNTL_WRITE /\
  plain_word AXI_CNTL_READ /\ plain_word 0.
Proof. split_and!; by vm_compute. Qed.

Definition after_store (addr v : Z) (a : axi) : axi :=
  {| a_have_addr := false; a_addr := addr; a_have_data := false; a_buf := store_word addr v (a_buf a) |}.
Lemma emul_axiwrite addr v e a o :
  in_width 32 addr -> addr <> ARC_AXI_ADDR_TDR + 1 -> plain_word v -> quiet a -> emul_at e IDLE a o ->
  exists e', axiwrite_status addr v e = (tdo_word o, e') /\ emul_at e' IDLE (after_store addr v a) o.
Proof.
  intros Haddr Hne Hv Hq He. destruct plain_ctrl as (P1 & P2 & P3 & P4). unfold axiwrite_status.
  pose proof (emul_update_ir 24 (access_instr TENSIX_SM_RTAP) e a o ltac:(done) He) as H0.
  pose proof (emul_wr ARC_AXI_ADDR_TDR addr _ _ _ ltac:(done) Haddr H0) as H1.
  rewrite axi_step_addr in H1 by done.
  pose proof (emul_wr ARC_AXI_DATA_TDR v _ _ _ ltac:(done) (proj1 Hv) H1) as H2.
  rewrite axi_step_data in H2 by done. cbn [a_addr a_buf] in H2. fold (after_store addr v a) in H2.
  assert (Hq' : quiet (after_store addr v a)) by done.
  pose proof (emul_wr ARC_AXI_CONTROL_STATUS_TDR AXI_CNTL_WRITE _ _ _ ltac:(done) (proj1 P2) H2) as H3.
  rewrite !axi_step_plain in H3 by (done || by rewrite axi_step_plain).
  destruct (emul_rd_idle ARC_AXI_CONTROL_STATUS_TDR _ _ _ ltac:(done) H3) as (e4 & E & H4).
  rewrite !axi_step_plain in H4 by (done || by rewrite axi_step_plain). exists e4. split; [exact E | exact H4].
Qed.
Lemma emul_poll n status e a o : quiet a -> emul_at e SCAN_DR a o ->
  emul_at (snd (poll_status n status e)) SCAN_DR a o.
Proof.
  intros Hq. revert status e. induction n as [|n IH]; intros status e He; [exact He|].
  destruct plain_ctrl as (P1 & _ & _ & P4). cbn [poll_status].
  destruct (emul_rd ARC_AXI_CONTROL_STATUS_TDR e a o ltac:(done) He) as (e1 & -> & H1).
  rewrite !axi_step_plain in H1 by (done || by rewrite axi_step_plain).
  destruct (negb _); [exact H1 | exact (IH _ _ H1)].
Qed.
(** Reading through the port stores a zero: the emulator takes the bits that are shifted
    in while the data register is read for a word to write. *)
Lemma emul_axiread addr e a o :
  in_width 32 addr -> addr <> ARC_AXI_ADDR_TDR + 1 -> quiet a -> emul_at e IDLE a o ->
  exists r e', jtag_axiread addr e = (r, tdo_word o, e') /\ emul_at e' IDLE (after_store addr 0 a) o.
Proof.
  intros Haddr Hne Hq He. destruct plain_ctrl as (P1 & P2 & P3 & P4). unfold jtag_axiread.
  pose proof (emul_update_ir 24 (access_instr TENSIX_SM_RTAP) e a o ltac:(done) He) as H0.
  pose proof (emul_wr ARC_AXI_ADDR_TDR addr _ _ _ ltac:(done) Haddr H0) as H1.
  rewrite axi_step_addr in H1 by done.
  set (a1 := {| a_have_addr := false; a_addr := addr; a_have_data := a_have_data a; a_buf := a_buf a |}) in *.
  assert (Hq1 : quiet a1) by (split; [done | apply Hq]).
  pose proof (emul_wr ARC_AXI_CONTROL_STATUS_TDR AXI_CNTL_READ _ _ _ ltac:(done) (proj1 P3) H1) as H2.
  rewrite !axi_step_plain in H2 by (done || by rewrite axi_step_plain).
  unfold jtag_setup_access. revert H2. generalize (jtag_wr_tensix_sm_rtap_tdr ARC_AXI_CONTROL_STATUS_TDR AXI_CNTL_READ
    (jtag_wr_tensix_sm_rtap_tdr ARC_AXI_ADDR_TDR addr
       (jtag_bitbang_update_ir 24 (access_instr TENSIX_SM_RTAP) e))). intros e2 H2.
  pose proof (emul_poll 1000 1 e2 a1 o Hq1 H2) as H3. destruct (poll_status 1000 1 e2) as [status e3]. cbn [snd] in H3.
  destruct (emul_rd_idle ARC_AXI_DATA_TDR _ _ _ ltac:(done) H3) as (e4 & -> & H4).
  rewrite axi_step_data in H4 by done. do 2 eexists. split; [done | exact H4].
Qed.

Fixpoint inserts (i : nat) (ws b : list Z) : list Z :=
  match ws with [] => b | w :: ws => inserts (S i) ws (<[i := w]> b) end.
Lemma inserts_length i ws b : length (inserts i ws b) = length b.
Proof. revert i b. induction ws as [|w ws IH]; intros i b; cbn; [done|]. by rewrite IH, length_insert. Qed.
Lemma inserts_app i ws b :
  (i + length ws <= length b)%nat -> inserts i ws b = take i b ++ ws ++ drop (i + length ws) b.
Proof.
  revert i b. induction ws as [|w ws IH]; intros i b Hl; cbn [inserts length app] in *.
  { by rewrite Nat.add_0_r, take_drop. }
  rewrite IH by (rewrite length_insert; lia). rewrite drop_insert_lt by lia.
  rewrite (take_S_r _ _ w) by (apply list_lookup_insert_eq; lia).
  rewrite take_insert_ge by lia. rewrite <- app_assoc. cbn [app]. do 4 f_equal. lia.
Qed.
Lemma store_insert addr v b : 0 <= addr -> store_word addr v b = <[Z.to_nat (Z.shiftr addr 2) := v]> b.
Proof.
  intros Ha. unfold store_word. destruct (Z.ltb_spec (Z.shiftr addr 2) (Z.of_nat (length b))); [done|].
  symmetry. apply list_insert_ge. lia.
Qed.
Lemma store_far addr v b : Z.of_nat (length b) <= Z.shiftr addr 2 -> store_word addr v b = b.
Proof. intros. unfold store_word. by rewrite (proj2 (Z.ltb_ge _ _)). Qed.

Lemma emul_blockwrite ws e a o k r :
  Z.of_nat (k + length ws) <= 2 ^ 30 -> Forall plain_word ws -> quiet a -> emul_at e IDLE a o ->
  exists a', emul_at (snd (blockwrite_loop (4 * Z.of_nat k) ws r e)) IDLE a' o /\ quiet a' /\
             a_buf a' = inserts k ws (a_buf a).
Proof.
  revert e a k r. induction ws as [|w ws IH]; intros e a k r Hk Hp Hq He; [by exists a|].
  apply list.Forall_cons in Hp as [Hw Hp]. cbn [blockwrite_loop length] in *.
  assert (Hr : in_width 32 (4 * Z.of_nat k)) by (unfold in_width; lia).
  destruct (emul_axiwrite (4 * Z.of_nat k) w e a o Hr) as (e1 & -> & H1); try done.
  { unfold ARC_AXI_ADDR_TDR. lia. }
  destruct ws as [|w' ws'].
  { cbn [blockwrite_loop snd]. eexists. split; [exact H1|]. split; [done|]. cbn [after_store a_buf inserts].
    rewrite store_insert by lia. rewrite Z.shiftr_div_pow2 by lia. change (2 ^ 2) with 4.
    rewrite (Z.mul_comm 4), Z.div_mul, Nat2Z.id by lia. done. }
  cbn [length] in Hk. replace (u32 (4 * Z.of_nat k + 4)) with (4 * Z.of_nat (S k)).
  2:{ rewrite wrap_id by (unfold in_width; lia). lia. }
  destruct (IH e1 (after_store (4 * Z.of_nat k) w a) (S k)
              (if Z.land (Z.shiftr (tdo_word o) 16) 1 =? 1 then -1 else r)) as (a' & Ha' & Hq' & Hb);
    [cbn [length]; lia | exact Hp | done | exact H1 |].
  exists a'. split; [exact Ha'|]. split; [done|]. rewrite Hb. cbn [after_store a_buf inserts].
  rewrite store_insert by lia. rewrite Z.shiftr_div_pow2 by lia. change (2 ^ 2) with 4.
  by rewrite (Z.mul_comm 4), Z.div_mul, Nat2Z.id by lia.
Qed.

(** A reset from the idle state, whatever the level of TCK. *)
Lemma emul_reset trst e : state e = IDLE ->
  emul_at (jtag_bitbang_reset trst e) IDLE (axi_of e) (tdo e).
Proof.
  intros Hs. unfold jtag_bitbang_reset. change (if trst then pin_trst false (pin_trst true e) else e) with (if trst then e else e).
  replace (if trst then e else e) with e by (by destruct trst). set (e0 := SET_TMS (CLR_TDI e)).
  assert (H0 : exists s, (s = IDLE \/ s = SCAN_DR) /\ emul_at (CLR_TCK e0) s (axi_of e) (tdo e) /\ tms (CLR_TCK e0) = true).
  { destruct (tck_old e) eqn:Ec; [exists SCAN_DR | exists IDLE]; (split; [auto|]);
    unfold e0, CLR_TCK, SET_TMS, CLR_TDI, emul_at; cbn; unfold gpio_emul_callback; cbn; rewrite Ec; cbn;
    unfold on_tck_falling; cbn; rewrite ?Hs; cbn; by split_and!. }
  destruct H0 as (s & Hsd & H0 & Hm0).
  replace (jtag_bitbang_tick 5 e0) with (jtag_bitbang_tick 5 (CLR_TCK e0)) by
    (unfold jtag_bitbang_tick; cbn [tick_loop]; by rewrite emul_clr_clr).
  revert H0 Hm0. generalize (CLR_TCK e0). intros e1 H1 Hm1.
  rewrite (emul_tick_succ 4), (emul_tick_succ 3), (emul_tick_succ 2), (emul_tick_succ 1).
  assert (Hp1 : plain s = true) by (by destruct Hsd as [-> | ->]).
  destruct (emul_tick_plain _ _ _ _ H1 Hp1) as (H2 & Hm2 & _ & _). rewrite Hm1 in *.
  assert (Hp2 : plain (next_state true s) = true) by (by destruct Hsd as [-> | ->]).
  destruct (emul_tick_plain _ _ _ _ H2 Hp2) as (H3 & Hm3 & _ & _). rewrite Hm2 in *.
  assert (Hp3 : plain (next_state true (next_state true s)) = true) by (by destruct Hsd as [-> | ->]).
  destruct (emul_tick_plain _ _ _ _ H3 Hp3) as (H4 & Hm4 & _ & _). rewrite Hm3 in *.
  assert (Hn3 : next_state true (next_state true (next_state true s)) = JTAG_RESET) by (by destruct Hsd as [-> | ->]).
  rewrite Hn3 in *. destruct (emul_tick_plain _ _ _ _ H4 eq_refl) as (H5 & Hm5 & _ & _). rewrite Hm4 in *.
  destruct (emul_tick_plain _ _ _ _ H5 eq_refl) as (H6 & Hm6 & _ & _). rewrite Hm5 in *.
  destruct (emul_tick_plain _ _ _ _ (proj1 (emul_at_tms _ _ _ _ H6)) eq_refl) as (H7 & _). exact H7.
Qed.

(** Idle, with memory [b] and no register selected. *)
Definition ready e (b : list Z) (o : bool) : Prop := exists a, emul_at e IDLE a o /\ quiet a /\ a_buf a = b.

(** A register of the reset unit is outside of the emulated memory. *)
Definition far (b : list Z) (addr : Z) : Prop :=
  Z.of_nat (length b) <= 2 ^ 29 /\ in_width 32 addr /\ 2 ^ 31 <= addr.
Lemma far_store b addr v : far b addr -> store_word addr v b = b.
Proof.
  intros (Hl & Hw & Hhi). apply store_far. rewrite Z.shiftr_div_pow2 by lia. change (2 ^ 2) with 4.
  transitivity (2 ^ 31 / 4); [|by apply Z.div_le_mono]. exact Hl.
Qed.
Lemma far_intro b addr :
  Z.of_nat (length b) <= 2 ^ 29 -> (2 ^ 31 <=? addr) && (addr <? 2 ^ 32) = true -> far b addr.
Proof. intros Hl [H1%Z.leb_le H2%Z.ltb_lt]%andb_prop. unfold far, in_width. lia. Qed.
Lemma far_addr b addr : far b addr -> addr <> ARC_AXI_ADDR_TDR + 1.
Proof. intros (_ & _ & Hhi). unfold ARC_AXI_ADDR_TDR. lia. Qed.
Lemma emul_reg_write addr v e b o :
  far b addr -> plain_word v -> ready e b o -> ready (jtag_axi_write32 addr v e) b o.
Proof.
  intros Hf Hv (a & He & Hq & <-). pose proof Hf as (_ & Hw & _).
  destruct (emul_axiwrite addr v e a o Hw (far_addr _ _ Hf) Hv Hq He) as (e1 & E & H1).
  unfold jtag_axi_write32, jtag_axiwrite. rewrite E. clear E. cbn [snd]. exists (after_store addr v a).
  split; [exact H1|]. split; [split; reflexivity|]. exact (far_store _ _ _ Hf).
Qed.
Lemma emul_reg_read addr e b o :
  far b addr -> ready e b o -> exists r e', jtag_axiread addr e = (r, tdo_word o, e') /\ ready e' b o.
Proof.
  intros Hf (a & He & Hq & <-). pose proof Hf as (_ & Hw & _).
  destruct (emul_axiread addr e a o Hw (far_addr _ _ Hf) Hq He) as (r & e1 & E & H1).
  exists r, e1. split; [exact E|]. clear E. exists (after_store addr 0 a).
  split; [exact H1|]. split; [split; reflexivity|]. exact (far_store _ _ _ Hf).
Qed.
Lemma emul_block ws e b o :
  Z.of_nat (length ws) <= 2 ^ 30 -> Forall plain_word ws -> ready e b o ->
  ready (snd (jtag_axi_blockwrite 0 ws e)) (inserts 0 ws b) o.
Proof.
  intros Hl Hp (a & He & Hq & <-). destruct (emul_blockwrite ws e a o 0 0 Hl Hp Hq He) as (a' & H & Hq' & Hb).
  exists a'. split; [exact H | split; [exact Hq' | exact Hb]].
Qed.
Lemma verify_ok patch k e :
  Z.of_nat (k + length patch) <= 2 ^ 30 -> take (length patch) (drop k (buf e)) = patch ->
  verify_loop (W := jtag_emul) emul_read (Z.of_nat k) patch e = (0, e).
Proof.
  revert k. induction patch as [|p patch IH]; intros k Hk Hb; [done|]. cbn [verify_loop length] in *.
  destruct (drop k (buf e)) as [|x rest] eqn:Ed; [done|]. cbn [take] in Hb. injection Hb as -> Hb.
  assert (Hx : buf e !! k = Some p) by (by rewrite <- (Nat.add_0_r k), <- lookup_drop, Ed).
  unfold emul_read at 1, jtag_emul_axi_read32. rewrite wrap_id by (unfold in_width; lia).
  rewrite Z.shiftr_div_pow2 by lia. change (2 ^ 2) with 4. rewrite Z.div_mul, Nat2Z.id by lia.
  rewrite Hx. cbn [snd default from_option id]. rewrite Z.eqb_refl. cbn [negb].
  replace (Z.of_nat k + 1) with (Z.of_nat (S k)) by lia. apply IH; [lia|].
  by rewrite (drop_S _ _ _ Hx) in Ed; simplify_eq.
Qed.

(** Loading on the emulator. Whatever the level of TDO, patching a boot code at the start
    of the emulated memory stores exactly its words, marks the chip as patched, leaves
    the rest of the memory and the port idle, and the verification then succeeds. (Words
    3 and 4 are excluded: see [emul_loses_words].) *)
Theorem emul_patch_verifies trst patch d e :
  state e = IDLE -> quiet (axi_of e) -> Forall plain_word patch ->
  (length patch <= length (buf e))%nat -> Z.of_nat (length (buf e)) <= 2 ^ 29 ->
  let '(r, d', e') := jtag_bootrom_patch_offset trst patch 0 d e in
  r = 0 /\ workaround_applied d' = true /\ state e' = IDLE /\
  buf e' = patch ++ drop (length patch) (buf e) /\
  jtag_bootrom_verify true emul_read patch e' = (0, e').
Proof.
  intros Hs Hq Hp Hlen Hsz. unfold jtag_bootrom_patch_offset, jtag_reset.
  set (o := tdo e). set (b := buf e) in *.
  assert (H0 : ready (jtag_bitbang_reset trst e) b o) by (exists (axi_of e); split; [exact (emul_reset trst e Hs) | by split]).
  revert H0. generalize (jtag_bitbang_reset trst e). intros e0 H0.
  destruct (emul_reg_read RESET_UNIT_ARC_MISC_CNTL_REG_ADDR e0 b o (far_intro b RESET_UNIT_ARC_MISC_CNTL_REG_ADDR Hsz eq_refl) H0) as (r1 & e1 & -> & H1).
  pose proof (emul_reg_write RESET_UNIT_ARC_MISC_CNTL_REG_ADDR (Z.lor (tdo_word o) (Z.shiftl 15 4)) e1 b o
    (far_intro b RESET_UNIT_ARC_MISC_CNTL_REG_ADDR Hsz eq_refl) ltac:(by destruct o; vm_compute) H1) as H2.
  revert H2. generalize (jtag_axi_write32 RESET_UNIT_ARC_MISC_CNTL_REG_ADDR (Z.lor (tdo_word o) (Z.shiftl 15 4)) e1).
  intros e2 H2.
  destruct (emul_reg_read RESET_UNIT_ARC_MISC_CNTL_REG_ADDR e2 b o (far_intro b RESET_UNIT_ARC_MISC_CNTL_REG_ADDR Hsz eq_refl) H2) as (r3 & e3 & -> & H3).
  pose proof (emul_reg_write RESET_UNIT_ARC_MISC_CNTL_REG_ADDR (Z.ldiff (tdo_word o) (Z.shiftl 15 4)) e3 b o
    (far_intro b RESET_UNIT_ARC_MISC_CNTL_REG_ADDR Hsz eq_refl) ltac:(by destruct o; vm_compute) H3) as H4.
  pose proof (emul_reg_write RESET_UNIT_GPIO_PAD_TRIEN_CNTL_REG_ADDR 0xff00 _ b o
    (far_intro b RESET_UNIT_GPIO_PAD_TRIEN_CNTL_REG_ADDR Hsz eq_refl) ltac:(by vm_compute) H4) as H5.
  pose proof (emul_reg_write STATUS_POST_CODE_REG_ADDR 0xF2 _ b o
    (far_intro b STATUS_POST_CODE_REG_ADDR Hsz eq_refl) ltac:(by vm_compute) H5) as H6.
  pose proof (emul_block patch _ b o ltac:(lia) Hp H6) as H7.
  pose proof (emul_reg_write STATUS_POST_CODE_REG_ADDR 0xF3 _ (inserts 0 patch b) o
    (far_intro (inserts 0 patch b) STATUS_POST_CODE_REG_ADDR (eq_ind_r (λ n, Z.of_nat n <= 2 ^ 29) Hsz (inserts_length 0 patch b)) eq_refl)
    ltac:(by vm_compute) H7) as H8.
  revert H8. match goal with |- ready ?x _ _ -> _ => generalize x end. intros ef (a8 & H8 & _ & Hb8).
  destruct H8 as (Hst & _ & Hax & _). assert (Hbe : buf ef = patch ++ drop (length patch) (buf e)).
  { change (buf ef) with (a_buf (axi_of ef)). rewrite Hax, Hb8. exact (inserts_app 0 patch b Hlen). }
  split_and!; [done..|]. unfold jtag_bootrom_verify. cbn [negb].
  apply (verify_ok patch 0); [lia|]. rewrite drop_0, Hbe. apply take_app_length.
Qed.
End emul.

Definition boot0 : boot_data := {| workaround_applied := false; perst_seen := false; dm_init_done := 0; arc_start_time := 0 |}.
Lemma emul_patch_verifies_witness :
  let e := jtag_emul_setup [9; 9; 9] true false true in
  let '(r, d', e') := jtag_bootrom_patch_offset false [0x12345678; 0xCAFE] 0 boot0 e in
  r = 0 /\ workaround_applied d' = true /\ state e' = IDLE /\ buf e' = [0x12345678; 0xCAFE; 9] /\
  jtag_bootrom_verify true emul_read [0x12345678; 0xCAFE] e' = (0, e').
Proof.
  exact (emul_patch_verifies false [0x12345678; 0xCAFE] boot0 (jtag_emul_setup [9; 9; 9] true false true) eq_refl
    (conj eq_refl eq_refl) ltac:(repeat constructor; done) ltac:(cbn; lia) ltac:(cbn; lia)).
Defined.

(** A word 4 is taken for a selection: it is lost and the memory gets a 5, the selection
    of the control register that follows; a word 3 sends the control word to address 5. *)
Lemma emul_loses_words :
  let e := jtag_bitbang_reset false (jtag_emul_setup [7; 7] true false true) in
  buf (jtag_axi_write32 0 4 e) = [5; 7] /\ buf (jtag_axi_write32 0 3 e) = [7; AXI_CNTL_WRITE].
Proof. vm_compute. repeat split. Qed.

(** A word read through the port is zero afterwards. *)
Lemma emul_read_clobbers :
  let e := jtag_bitbang_reset false (jtag_emul_setup [7; 7] true false true) in
  buf (snd (jtag_axiread 4 e)) = [7; 0].
Proof. vm_compute. reflexivity. Qed.

(** [jtag_bootrom_reset_sequence] patches at 0x80 and verifies at 0: the verification of
    a correctly loaded code fails. *)
Lemma verify_reads_elsewhere :
  let e := jtag_emul_setup (replicate 40 0) true false true in
  let '(r, _, e) := jtag_bootrom_patch_offset false [0x111; 0x222] 0x80 boot0 e in
  r = 0 /\ take 2 (drop 32 (buf e)) = [0x111; 0x222] /\
  fst (jtag_bootrom_verify true emul_read [0x111; 0x222] e) = 1.
Proof. vm_compute. repeat split. Qed.
