(* ===== verification/Gddr.v ===== *)
(** DRAM bring-up, DRAM messages and power domains: [lib/tenstorrent/bh_arc/gddr.c] and
    [bh_power.c].

    Each DRAM controller runs its own processor (MRISC) with its own firmware. The chip's
    firmware reaches it through its memory and registers: the class [Mrisc], programs on
    any state. Nothing is assumed of how an MRISC answers unless a theorem says so.
    [None] is a loop that has not ended within its fuel. *)
From stdpp Require Import prelude list numbers.
From Stdlib Require Import ZArith Lia.
From S2P Require Import Prelude Bus.
Open Scope Z_scope.

(** * Constants: [gddr.h], [gddr_cal.h] *)
Definition NUM_GDDR : nat := 8.
Definition GDDR_TELEMETRY_TABLE_T_VERSION_MIN : Z := 2.
Definition GDDR_TELEMETRY_TABLE_T_VERSION : Z := 3.
Definition GDDR_TELEMETRY_TABLE_ADDR : Z := 0x8000.
Definition GDDR_MSG_STRUCT_ADDR : Z := 0x6000.
Definition MRISC_INIT_STATUS : Z := 0xFFB14010.
Definition MRISC_POST_CODE : Z := 0xFFB14014.
Definition MRISC_MSG_REGISTER : Z := 0xFFB14018.
Definition MRISC_INIT_FINISHED : Z := 0xdeadbeef.
Definition MRISC_INIT_FAILED : Z := 0xfa11.
Definition MRISC_INIT_BEFORE : Z := 0x11111111.
Definition MRISC_MSG_TYPE_NONE : Z := 0.
Definition MRISC_MSG_TYPE_PHY_POWERDOWN : Z := 1.
Definition MRISC_MSG_TYPE_PHY_WAKEUP : Z := 2.
Definition MRISC_MSG_TYPE_RUN_MEMTEST : Z := 8.
Definition MRISC_INIT_TIMEOUT : Z := 40000.
Definition MRISC_MEMTEST_TIMEOUT : Z := 1000.
Definition MRISC_POWER_SETTING_TIMEOUT_MS : Z := 1000.
Definition NUM_MRISC_NOC2AXI_PORT : Z := 3.
Definition MRISC_FW_CFG_OFFSET : Z := 0x3C00.
Definition MIN_GDDR_SPEED : Z := 12000.
Definition MAX_GDDR_SPEED : Z := 20000.
Definition GDDR_SPEED_TO_MEMCLK_RATIO : Z := 16.
Definition GDDR_FEATURE_CA_SETTINGS_VALID : Z := BIT 3.
Definition GDDR_FEATURE_ENABLE_CA_MARGIN_CHECK : Z := BIT 4.
Definition GDDR_FEATURE_ENABLE_CA_SWEEP_FALLBACK : Z := BIT 5.
(** Fields of [gddr_params_table_t], in words. *)
Definition p_version : Z := 0.
Definition p_feature_bits : Z := 3.
Definition p_controller_id : Z := 7.
Definition p_ca_vrefc_offset : Z := 8.
Definition p_ca_termination_offset : Z := 9.
Definition p_ca_ocd_pulldown_offset : Z := 11.
Definition GDDR_CAL_NUM_ASICS : Z := 8.
Definition GDDR_CA_VREFC_OFFSET_MAX : Z := 0xF.
Definition GDDR_CA_TERMINATION_OFFSET_MAX : Z := 3.
Definition GDDR_CA_OCD_PULLDOWN_OFFSET_MAX : Z := 7.
Definition GDDR_CA_OCD_PULLDOWN_UNSET : Z := 0xFF.
(** Byte offsets in [gddr_telemetry_table_t]. *)
Definition off_version : Z := 0.
Definition off_temperature : Z := 4.
Definition off_ca : Z := 24.
Definition off_ocd : Z := 32.
Definition telemetry_words : nat := 9.

Inductive gddr_reset_err :=
| GDDR_RESET_OK | GDDR_RESET_ERR_INVALID_INST | GDDR_RESET_ERR_HARVESTED | GDDR_RESET_ERR_MASKED
| GDDR_RESET_ERR_TRAINING | GDDR_RESET_ERR_BIST | GDDR_RESET_ERR_POWERDOWN.

(** * Requests

    What the code asks of the tiles, the flash and the clocks; each is answered with a
    number. [DmaL1] is [dma_arc_hs_transfer] of an MRISC's memory into a local buffer, whose
    words are then read by [Buf]; its answer is negative if it fails or is not built in.
    [FindFd false] looks "memfw" up and [FindFd true] "memfwcfg". *)
Inductive mreq :=
| RegRd (inst addr : Z) | RegWr (inst addr v : Z)
| L1Rd (inst addr : Z) | L1Wr (inst addr v : Z)
| DmaL1 (inst addr len : Z) | Buf (k : nat)
| SoftReset (inst : Z) | ReleaseReset (inst : Z)
| WipeL1 (inst port : Z) | AxiEnable (inst port : Z)
| FindFd (tag : bool) | FdSize | FdAddr
| LoadL1 (inst spi_address image_size offset : Z)
| FlashRead (spi_address len : Z) | SetMemClk (rate : Z)
| Calc (ms : Z) | Expired (t : Z).

(** * State *)
Record gddr_cal_entry_t := {
  ca_vrefc_offset : Z; ca_termination_offset : Z; ca_ocd_pulldown_offset : Z; valid : Z }.
Abbreviation gddr_cal_table_t := (list (list gddr_cal_entry_t)).
(** The file's variables: the memory tests' results, the instances whose telemetry can be
    read, the calibration table and this chip's row of it. *)
Record gddr_state := {
  bist_complete : Z; bist_failed : Z; gddr_telemetry_version_ok : Z;
  gddr_cal_table : gddr_cal_table_t; gddr_asic_cal : option nat }.
Definition with_bist (s : gddr_state) (c f : Z) : gddr_state :=
  {| bist_complete := c; bist_failed := f; gddr_telemetry_version_ok := gddr_telemetry_version_ok s;
     gddr_cal_table := gddr_cal_table s; gddr_asic_cal := gddr_asic_cal s |}.
Definition with_version_ok (s : gddr_state) (v : Z) : gddr_state :=
  {| bist_complete := bist_complete s; bist_failed := bist_failed s; gddr_telemetry_version_ok := v;
     gddr_cal_table := gddr_cal_table s; gddr_asic_cal := gddr_asic_cal s |}.
Definition with_cal (s : gddr_state) (t : gddr_cal_table_t) : gddr_state :=
  {| bist_complete := bist_complete s; bist_failed := bist_failed s;
     gddr_telemetry_version_ok := gddr_telemetry_version_ok s; gddr_cal_table := t; gddr_asic_cal := gddr_asic_cal s |}.

(** The machine: how requests are answered, and [gddr_cal_read]. *)
Class Mrisc (W : Type) := {
  req : mreq -> Dev W Z;
  gddr_cal_read : gddr_cal_table_t -> Dev W (Z * gddr_cal_table_t);
}.

Definition GddrCalAsicIndex (asic_location : Z) : option nat :=
  if GDDR_CAL_NUM_ASICS <=? asic_location then None else Some (Z.to_nat asic_location).

(** [mask_en] and [mask] of the firmware table's DRAM table, if it has one. *)
Definition GetDramMask (gddr_enabled : Z) (dram_table : option (bool * Z)) : Z :=
  match dram_table with
  | Some (true, m) => Z.land gddr_enabled m
  | _ => gddr_enabled
  end.

(** [gddr_asic_cal[gddr_inst]], read and written. *)
Definition asic_entry (s : gddr_state) (inst : Z) : option gddr_cal_entry_t :=
  match gddr_asic_cal s with
  | Some row => match gddr_cal_table s !! row with Some r => r !! Z.to_nat inst | None => None end
  | None => None
  end.
Definition set_entry (t : gddr_cal_table_t) (row : nat) (inst : Z) (e : gddr_cal_entry_t) : gddr_cal_table_t :=
  match t !! row with Some r => <[row := <[Z.to_nat inst := e]> r]> t | None => t end.
Definition instances : list Z := seqZ 0 (Z.of_nat NUM_GDDR).
Definition ports : list Z := seqZ 0 NUM_MRISC_NOC2AXI_PORT.

Section gddr.
Context {W : Type} `{Mrisc W}.
Context (fuel : nat).
Definition MriscRegRead32 (i a : Z) : Dev W Z := req (RegRd i a).
Definition MriscRegWrite32 (i a v : Z) : Dev W unit := _ ← req (RegWr i a v); mret tt.
Definition MriscL1Read32 (i a : Z) : Dev W Z := req (L1Rd i a).
Definition MriscL1Write32 (i a v : Z) : Dev W unit := _ ← req (L1Wr i a v); mret tt.
Definition assert_mrisc_soft_reset (i : Z) : Dev W unit := _ ← req (SoftReset i); mret tt.
Definition ReleaseMriscReset (i : Z) : Dev W unit := _ ← req (ReleaseReset i); mret tt.
Definition sys_timepoint_calc (ms : Z) : Dev W Z := req (Calc ms).
Definition sys_timepoint_expired (t : Z) : Dev W bool := r ← req (Expired t); mret (negb (r =? 0)).

Definition IN_RANGE_version (v : Z) : bool :=
  (GDDR_TELEMETRY_TABLE_T_VERSION_MIN <=? v) && (v <=? GDDR_TELEMETRY_TABLE_T_VERSION).

(** ** Telemetry *)
Fixpoint read_words (inst addr : Z) (n : nat) : Dev W (list Z) :=
  match n with
  | O => mret []
  | S n => v ← MriscL1Read32 inst addr; vs ← read_words inst (addr + 4) n; mret (v :: vs)
  end.
Fixpoint read_buffer (k n : nat) : Dev W (list Z) :=
  match n with
  | O => mret []
  | S n => v ← req (Buf k); vs ← read_buffer (S k) n; mret (v :: vs)
  end.
(** Result: the return value and the table as words. *)
Definition read_gddr_telemetry_table (inst : Z) : Dev W (Z * list Z) :=
  dma ← req (DmaL1 inst GDDR_TELEMETRY_TABLE_ADDR (4 * Z.of_nat telemetry_words));
  ws ← (if 0 <=? dma then read_buffer 0 telemetry_words
        else read_words inst GDDR_TELEMETRY_TABLE_ADDR telemetry_words : Dev W (list Z));
  let version := nth 0 ws 0 in
  mret (if negb (IN_RANGE_version version) then (- ENOTSUP, ws)
        else (0, if version <? 3 then take 6 ws ++ replicate 3 0 else ws)).
Definition mrisc_fw_version_major (ws : list Z) : Z := nth 3 ws 0 mod 2 ^ 16.
Definition mrisc_fw_version_minor (ws : list Z) : Z := Z.shiftr (nth 3 ws 0) 16.

Definition read_gddr_temperature (s : gddr_state) (inst : Z) : Dev W (Z + Z * Z) :=
  if Z.of_nat NUM_GDDR <=? inst then mret (inl (- EINVAL))
  else if negb (IS_BIT_SET (gddr_telemetry_version_ok s) inst) then mret (inl (- ENOTSUP))
  else
    temps ← MriscL1Read32 inst (GDDR_TELEMETRY_TABLE_ADDR + off_temperature);
    mret (inr (Z.land temps 0xff, Z.land (Z.shiftr temps 16) 0xff)).
(** Result: the return value, the maximum, and the pair of each instance. *)
Fixpoint temps_from (s : gddr_state) (dram_mask : Z) (insts : list Z) (ret max : Z) : Dev W (Z * Z * list (Z * Z)) :=
  match insts with
  | [] => mret (ret, max, [])
  | i :: insts =>
      if negb (IS_BIT_SET dram_mask i) then
        '(r, m, l) ← temps_from s dram_mask insts ret max; mret (r, m, (0, 0) :: l)
      else
        t ← read_gddr_temperature s i;
        match t with
        | inl rc => '(r, m, l) ← temps_from s dram_mask insts rc max; mret (r, m, (0, 0) :: l)
        | inr (top, bottom) =>
            '(r, m, l) ← temps_from s dram_mask insts ret (Z.max max (Z.max top bottom));
            mret (r, m, (top, bottom) :: l)
        end
  end.
Definition get_gddr_temps (s : gddr_state) (dram_mask : Z) : Dev W (Z * Z * list (Z * Z)) :=
  temps_from s dram_mask instances 0 0.

(** ** Messages *)
Definition check_mrisc_busy (inst : Z) : Dev W Z :=
  status ← MriscRegRead32 inst MRISC_MSG_REGISTER;
  mret (if negb (status =? MRISC_MSG_TYPE_NONE) then - EBUSY else 0).
Definition poll_not_busy (inst timeout : Z) : Dev W (option Z) :=
  v ← MriscRegRead32 inst MRISC_MSG_REGISTER;
  if v =? 0 then mret (Some 0)
  else e ← sys_timepoint_expired timeout; mret (if (e : bool) then Some (- ETIMEDOUT) else None).
Definition wait_mrisc_not_busy (inst timeout : Z) : Dev W Z := do_while fuel (poll_not_busy inst timeout).

Fixpoint send_all (op_code mask : Z) (insts : list Z) : Dev W Z :=
  match insts with
  | [] => mret 0
  | i :: insts =>
      if IS_BIT_SET mask i then
        ret ← check_mrisc_busy i;
        if negb (ret =? 0) then mret ret
        else _ ← MriscRegWrite32 i MRISC_MSG_REGISTER op_code; send_all op_code mask insts
      else send_all op_code mask insts
  end.
Fixpoint wait_all (mask timeout : Z) (insts : list Z) : Dev W Z :=
  match insts with
  | [] => mret 0
  | i :: insts =>
      if IS_BIT_SET mask i then
        ret ← wait_mrisc_not_busy i timeout;
        if negb (ret =? 0) then mret ret else wait_all mask timeout insts
      else wait_all mask timeout insts
  end.
Definition mrisc_message (op_code instance_mask timeout_ms : Z) : Dev W Z :=
  ret ← send_all op_code instance_mask instances;
  if negb (ret =? 0) then mret ret
  else timeout ← sys_timepoint_calc timeout_ms; wait_all instance_mask timeout instances.
Definition set_mrisc_power_setting (is_ubb : bool) (dram_mask : Z) (on : bool) : Dev W Z :=
  if negb on && is_ubb then mret 0
  else mrisc_message (if on then MRISC_MSG_TYPE_PHY_WAKEUP else MRISC_MSG_TYPE_PHY_POWERDOWN) dram_mask
         MRISC_POWER_SETTING_TIMEOUT_MS.

(** ** Memory test *)
Definition StartHwMemtest (inst addr_bits start_addr mask : Z) : Dev W Z :=
  '(rc, ws) ← read_gddr_telemetry_table inst;
  if rc <? 0 then mret (- ENOTSUP)
  else if (mrisc_fw_version_major ws <? 2) || ((mrisc_fw_version_major ws =? 2) && (mrisc_fw_version_minor ws <? 7))
  then mret (- ENOTSUP)
  else
    ret ← check_mrisc_busy inst;
    if negb (ret =? 0) then mret ret
    else if 26 <? addr_bits then mret (- EINVAL)
    else
      _ ← MriscL1Write32 inst (GDDR_MSG_STRUCT_ADDR + 0 * 4) addr_bits;
      _ ← MriscL1Write32 inst (GDDR_MSG_STRUCT_ADDR + 1 * 4) start_addr;
      _ ← MriscL1Write32 inst (GDDR_MSG_STRUCT_ADDR + 2 * 4) mask;
      _ ← MriscRegWrite32 inst MRISC_MSG_REGISTER MRISC_MSG_TYPE_RUN_MEMTEST;
      mret 0.
Definition CheckHwMemtestResult (s : gddr_state) (inst timeout : Z) : Dev W (Z * gddr_state) :=
  ret ← wait_mrisc_not_busy inst timeout;
  if negb (ret =? 0) then mret (ret, with_bist s (bist_complete s) (Z.lor (bist_failed s) (BIT inst)))
  else
    pass ← MriscL1Read32 inst (GDDR_MSG_STRUCT_ADDR + 8 * 4);
    let complete := Z.lor (bist_complete s) (BIT inst) in
    mret (if negb (pass =? 0) then (- EIO, with_bist s complete (Z.lor (bist_failed s) (BIT inst)))
          else (0, with_bist s complete (Z.ldiff (bist_failed s) (BIT inst)))).
Fixpoint start_tests (dram_mask : Z) (insts : list Z) (started any_error : Z) : Dev W (Z * Z) :=
  match insts with
  | [] => mret (started, any_error)
  | i :: insts =>
      if IS_BIT_SET dram_mask i then
        error ← StartHwMemtest i 26 0 0;
        if error =? - ENOTSUP then start_tests dram_mask insts started any_error
        else if error <? 0 then start_tests dram_mask insts started (- EIO)
        else start_tests dram_mask insts (Z.lor started (BIT i)) any_error
      else start_tests dram_mask insts started any_error
  end.
Fixpoint check_tests (started timeout : Z) (insts : list Z) (any_error : Z) (s : gddr_state) : Dev W (Z * gddr_state) :=
  match insts with
  | [] => mret (any_error, s)
  | i :: insts =>
      if IS_BIT_SET started i then
        '(error, s) ← CheckHwMemtestResult s i timeout;
        check_tests started timeout insts (if error <? 0 then - EIO else any_error) s
      else check_tests started timeout insts any_error s
  end.
Definition CheckGddrHwTest (dram_mask : Z) (s : gddr_state) : Dev W (Z * gddr_state) :=
  '(started, any_error) ← start_tests dram_mask instances 0 0;
  timeout ← sys_timepoint_calc MRISC_MEMTEST_TIMEOUT;
  check_tests started timeout instances any_error s.

(** ** Loading the firmware *)
Definition get_gddr_mrisc_noc2axi_port (inst : Z) : Z := if inst =? 0 then 2 else 0.
Fixpoint for_each (insts : list Z) (body : Z -> Dev W Z) : Dev W Z :=
  match insts with
  | [] => mret 0
  | i :: insts => rc ← body i; if negb (rc =? 0) then mret rc else for_each insts body
  end.
Definition wipe_l1 (dram_mask : Z) : Dev W Z :=
  for_each instances (λ i,
    if IS_BIT_SET dram_mask i
    then for_each ports (λ p, _ ← req (WipeL1 i p); mret 0) else mret 0).
Definition SetAxiEnable_all : Dev W Z :=
  for_each instances (λ i, for_each ports (λ p, _ ← req (AxiEnable i p); mret 0)).
Definition LoadMriscFw (inst spi_address image_size : Z) : Dev W Z := req (LoadL1 inst spi_address image_size 0).
(** The parameter table in the MRISC's memory, a word per field. *)
Definition param (field : Z) : Z := MRISC_FW_CFG_OFFSET + 4 * field.
Definition seed_ca (s : gddr_state) (inst : Z) : Dev W unit :=
  feature_bits ← MriscL1Read32 inst (param p_feature_bits);
  let feature_bits := Z.lor feature_bits
        (Z.lor GDDR_FEATURE_ENABLE_CA_MARGIN_CHECK GDDR_FEATURE_ENABLE_CA_SWEEP_FALLBACK) in
  match asic_entry s inst with
  | Some entry =>
      if negb (valid entry =? 0) then
        _ ← MriscL1Write32 inst (param p_ca_vrefc_offset) (ca_vrefc_offset entry);
        _ ← MriscL1Write32 inst (param p_ca_termination_offset) (ca_termination_offset entry);
        version ← MriscL1Read32 inst (param p_version);
        _ ← (if 8 <=? version
             then MriscL1Write32 inst (param p_ca_ocd_pulldown_offset) (ca_ocd_pulldown_offset entry)
             else mret tt : Dev W unit);
        MriscL1Write32 inst (param p_feature_bits) (Z.lor feature_bits GDDR_FEATURE_CA_SETTINGS_VALID)
      else MriscL1Write32 inst (param p_feature_bits) feature_bits
  | None => MriscL1Write32 inst (param p_feature_bits) feature_bits
  end.
(** The version is read from the tile at each use, as the field is volatile. *)
Definition LoadMriscFwCfg (s : gddr_state) (inst spi_address image_size : Z) : Dev W Z :=
  rc ← req (LoadL1 inst spi_address image_size MRISC_FW_CFG_OFFSET);
  if rc =? 0 then
    version ← MriscL1Read32 inst (param p_version);
    _ ← (if 6 <=? version then MriscL1Write32 inst (param p_controller_id) inst
         else _ ← MriscL1Read32 inst (param p_version); mret tt : Dev W unit);
    version ← MriscL1Read32 inst (param p_version);
    _ ← (if 7 <=? version then seed_ca s inst else mret tt : Dev W unit);
    mret rc
  else mret rc.
Definition start_mrisc (s : gddr_state) (dram_mask spi_address image_size inst : Z) : Dev W Z :=
  if IS_BIT_SET dram_mask inst then
    rc ← LoadMriscFwCfg s inst spi_address image_size;
    if negb (rc =? 0) then mret (- EIO)
    else
      _ ← MriscRegWrite32 inst MRISC_INIT_STATUS MRISC_INIT_BEFORE;
      _ ← ReleaseMriscReset inst;
      mret 0
  else mret 0.
Definition gddr_speed_of (speed : Z) : Z :=
  if negb ((MIN_GDDR_SPEED <=? speed) && (speed <=? MAX_GDDR_SPEED)) then MIN_GDDR_SPEED else speed.
Definition with_row (s : gddr_state) (t : gddr_cal_table_t) (row : nat) : gddr_state :=
  {| bist_complete := bist_complete s; bist_failed := bist_failed s;
     gddr_telemetry_version_ok := gddr_telemetry_version_ok s; gddr_cal_table := t; gddr_asic_cal := Some row |}.
Definition load_cal (asic_location : Z) (s : gddr_state) : Dev W gddr_state :=
  match GddrCalAsicIndex asic_location with
  | None => mret s
  | Some row => '(_, t) ← gddr_cal_read (gddr_cal_table s); mret (with_row s t row)
  end.
(** The second half of [InitMrisc]: the parameters, the clock and the start. *)
Definition start_all (s : gddr_state) (dram_mask : Z) : Dev W (Z * bool * gddr_state) :=
  rc ← req (FindFd true);
  if rc <? 0 then mret (rc, true, s)
  else
    image_size ← req FdSize; spi_address ← req FdAddr;
    rc ← req (FlashRead spi_address image_size);
    if rc <? 0 then mret (rc, true, s)
    else
      speed ← req (Buf 1);
      rc ← req (SetMemClk (gddr_speed_of speed / GDDR_SPEED_TO_MEMCLK_RATIO));
      if negb (rc =? 0) then mret (- EIO, true, s)
      else
        rc ← for_each instances (start_mrisc s dram_mask spi_address image_size);
        if negb (rc =? 0) then mret (- EIO, true, s) else mret (0, false, s).
(** [skip]: recovery, emulation or a cable fault. Result: the return value, whether
    [record_init_failure] was called, and the state. *)
Definition InitMrisc (skip : bool) (dram_mask asic_location : Z) (s : gddr_state) : Dev W (Z * bool * gddr_state) :=
  if skip then mret (0, false, s)
  else
    _ ← wipe_l1 dram_mask;
    _ ← SetAxiEnable_all;
    rc ← req (FindFd false);
    if rc <? 0 then mret (rc, true, s)
    else
      image_size ← req FdSize; spi_address ← req FdAddr;
      rc ← for_each instances (λ i, if IS_BIT_SET dram_mask i then LoadMriscFw i spi_address image_size else mret 0);
      if negb (rc =? 0) then mret (- EIO, true, s)
      else
        s ← load_cal asic_location s;
        start_all s dram_mask.

(** ** Training *)
Definition poll_training (inst timeout : Z) : Dev W (option Z) :=
  poll_val ← MriscRegRead32 inst MRISC_INIT_STATUS;
  if poll_val =? MRISC_INIT_FINISHED then
    version ← MriscL1Read32 inst (GDDR_TELEMETRY_TABLE_ADDR + off_version);
    mret (Some (if negb (IN_RANGE_version version) then - ENOTSUP else 0))
  else if poll_val =? MRISC_INIT_FAILED then mret (Some (- EIO))
  else
    e ← sys_timepoint_expired timeout;
    mret (if (e : bool) then Some (- ETIMEDOUT) else None).
Definition CheckGddrTraining (s : gddr_state) (inst timeout : Z) : Dev W (Z * gddr_state) :=
  let s := with_version_ok s (Z.ldiff (gddr_telemetry_version_ok s) (BIT inst)) in
  r ← do_while fuel (poll_training inst timeout);
  if r =? 0 then mret (0, with_version_ok s (Z.lor (gddr_telemetry_version_ok s) (BIT inst)))
  else if r =? - ETIMEDOUT then _ ← MriscRegRead32 inst MRISC_POST_CODE; mret (r, s)
  else mret (r, s).

(** [CONFIG_TT_BH_ARC_GDDR_CA_LATCH] *)
Definition entry_in_range (e : gddr_cal_entry_t) : bool :=
  negb ((GDDR_CA_VREFC_OFFSET_MAX <? ca_vrefc_offset e) ||
        (GDDR_CA_TERMINATION_OFFSET_MAX <? ca_termination_offset e) ||
        ((GDDR_CA_OCD_PULLDOWN_OFFSET_MAX <? ca_ocd_pulldown_offset e) &&
         negb (ca_ocd_pulldown_offset e =? GDDR_CA_OCD_PULLDOWN_UNSET))).
Definition same_settings (e new : gddr_cal_entry_t) : bool :=
  negb (valid e =? 0) && (ca_vrefc_offset e =? ca_vrefc_offset new)
  && (ca_termination_offset e =? ca_termination_offset new)
  && (ca_ocd_pulldown_offset e =? ca_ocd_pulldown_offset new).
(** [None]: an entry outside the table. *)
Definition latch_entry (s : gddr_state) (row : nat) (inst : Z) (new : gddr_cal_entry_t) : option (bool * gddr_state) :=
  match asic_entry s inst with
  | None => None
  | Some entry =>
      if same_settings entry new then Some (false, s)
      else Some (true, with_cal s (set_entry (gddr_cal_table s) row inst new))
  end.
Definition lift {A} (o : option A) : Dev W A := λ w, match o with Some x => Some (x, w) | None => None end.
Definition LatchGddrCaSettings (s : gddr_state) (inst : Z) : Dev W (bool * gddr_state) :=
  match gddr_asic_cal s with
  | None => mret (false, s)
  | Some row =>
      version ← MriscL1Read32 inst (GDDR_TELEMETRY_TABLE_ADDR + off_version);
      if version <? 3 then mret (false, s)
      else
        ca_word ← MriscL1Read32 inst (GDDR_TELEMETRY_TABLE_ADDR + off_ca);
        let vrefc_offset := FIELD_GET (GENMASK 7 0) ca_word in
        let termination_offset := FIELD_GET (GENMASK 15 8) ca_word in
        let settings_changed := FIELD_GET (GENMASK 31 24) ca_word in
        if settings_changed =? 0 then mret (false, s)
        else
          ca_word2 ← MriscL1Read32 inst (GDDR_TELEMETRY_TABLE_ADDR + off_ocd);
          let ocd_pulldown_offset := FIELD_GET (GENMASK 7 0) ca_word2 in
          let new := {| ca_vrefc_offset := vrefc_offset; ca_termination_offset := termination_offset;
                        ca_ocd_pulldown_offset := ocd_pulldown_offset; valid := 1 |} in
          if negb (entry_in_range new) then mret (false, s)
          else
            lift (latch_entry s row inst new)
  end.
Fixpoint train_all (dram_mask timeout : Z) (insts : list Z) (init_errors cal_dirty : bool) (s : gddr_state)
  : Dev W (bool * bool * gddr_state) :=
  match insts with
  | [] => mret (init_errors, cal_dirty, s)
  | i :: insts =>
      if IS_BIT_SET dram_mask i then
        '(error, s) ← CheckGddrTraining s i timeout;
        if negb (error =? 0) then train_all dram_mask timeout insts true cal_dirty s
        else
          '(dirty, s) ← LatchGddrCaSettings s i;
          train_all dram_mask timeout insts init_errors (cal_dirty || dirty) s
      else train_all dram_mask timeout insts init_errors cal_dirty s
  end.
(** [skip]: recovery, emulation or a cable fault. Result: the return value, whether
    [record_init_failure] was called, the table handed to [gddr_cal_write] if it was
    called, and the state. *)
Definition gddr_training (skip : bool) (dram_mask : Z) (s : gddr_state)
  : Dev W (Z * bool * option gddr_cal_table_t * gddr_state) :=
  if skip then mret (0, false, None, s)
  else
    timeout ← sys_timepoint_calc MRISC_INIT_TIMEOUT;
    '(init_errors, cal_dirty, s) ← train_all dram_mask timeout instances false false s;
    if negb init_errors then
      '(error, s) ← CheckGddrHwTest dram_mask s;
      if error <? 0 then mret (- EIO, true, None, s)
      else mret (0, false, if (cal_dirty : bool) then Some (gddr_cal_table s) else None, s)
    else mret (0, true, None, s).

(** ** Resetting one instance *)
Definition toggle_gddr_reset (is_ubb mrisc_power : bool) (gddr_enabled dram_mask inst : Z) (s : gddr_state)
  : Dev W (gddr_reset_err * gddr_state) :=
  if Z.of_nat NUM_GDDR <=? inst then mret (GDDR_RESET_ERR_INVALID_INST, s)
  else if negb (IS_BIT_SET gddr_enabled inst) then mret (GDDR_RESET_ERR_HARVESTED, s)
  else if negb (IS_BIT_SET dram_mask inst) then mret (GDDR_RESET_ERR_MASKED, s)
  else
    let s := with_bist s (Z.ldiff (bist_complete s) (BIT inst)) (Z.ldiff (bist_failed s) (BIT inst)) in
    rc ← (if negb mrisc_power then set_mrisc_power_setting is_ubb dram_mask true else mret 0 : Dev W Z);
    if rc <? 0 then mret (GDDR_RESET_ERR_POWERDOWN, s)
    else
      _ ← assert_mrisc_soft_reset inst;
      _ ← MriscRegWrite32 inst MRISC_INIT_STATUS MRISC_INIT_BEFORE;
      _ ← ReleaseMriscReset inst;
      timeout ← sys_timepoint_calc MRISC_INIT_TIMEOUT;
      '(rc, s) ← CheckGddrTraining s inst timeout;
      if rc <? 0 then mret (GDDR_RESET_ERR_TRAINING, s)
      else
        rc ← StartHwMemtest inst 26 0 0;
        if rc <? 0 then mret (GDDR_RESET_ERR_BIST, s)
        else
          timeout ← sys_timepoint_calc MRISC_MEMTEST_TIMEOUT;
          '(rc, s) ← CheckHwMemtestResult s inst timeout;
          if rc <? 0 then mret (GDDR_RESET_ERR_BIST, s)
          else
            rc ← (if negb mrisc_power then set_mrisc_power_setting is_ubb dram_mask false else mret 0 : Dev W Z);
            mret (if rc <? 0 then GDDR_RESET_ERR_POWERDOWN else GDDR_RESET_OK, s).
End gddr.

(** * What may be assumed of the machine

    Nothing of the answers; only that requests are answered, one after the other, and that
    a deadline is reached after finitely many polls. [remaining t w]: a bound on the polls
    that [t] still allows; [horizon]: a bound for a fresh deadline. *)
Definition event : Type := mreq * Z.
Class MriscLaws (W : Type) `{Mrisc W} := {
  trace : W -> list event;
  remaining : Z -> W -> nat;
  horizon : nat;
  after (evs : list event) (w w' : W) : Prop :=
    trace w' = trace w ++ evs /\ forall t, (remaining t w' <= remaining t w)%nat;
  req_law r w : wp (req r) w (λ v w', after [(r, v)] w w' /\
    match r with
    | Calc _ => (remaining v w' < horizon)%nat
    | Expired t => v = 0 -> (remaining t w' < remaining t w)%nat
    | _ => True
    end);
  cal_read_law t w : wp (gddr_cal_read t) w (λ _ w', after [] w w');
}.

(** ** Programs and the requests they make *)
Section tr.
Context {W : Type} `{MriscLaws W}.
Implicit Types (w : W) (e : list event).

Lemma after_refl w : after [] w w.
Proof. split; [by rewrite app_nil_r | lia]. Qed.
Lemma after_trans e1 e2 w1 w2 w3 : after e1 w1 w2 -> after e2 w2 w3 -> after (e1 ++ e2) w1 w3.
Proof.
  intros [E1 R1] [E2 R2]. split; [by rewrite E2, E1, (assoc app)|]. intros t.
  specialize (R1 t). specialize (R2 t). lia.
Qed.

(** The program returns, and its result and its requests satisfy [P]. *)
Definition tr {A} (m : Dev W A) w (P : A -> list event -> Prop) : Prop :=
  wp m w (λ x w', exists e, after e w w' /\ P x e).
Lemma tr_ret {A} (x : A) w (P : A -> list event -> Prop) : P x [] -> tr (mret x) w P.
Proof. intros HP. apply wp_ret. exists []. split; [apply after_refl | done]. Qed.
Lemma tr_bind {A B} (m : Dev W A) (f : A -> Dev W B) w P (Q : B -> list event -> Prop) :
  tr m w P ->
  (forall x e w', P x e -> after e w w' -> tr (f x) w' (λ y e', Q y (e ++ e'))) ->
  tr (m ≫= f) w Q.
Proof.
  intros Hm Hf. apply wp_bind. eapply wp_mono; [exact Hm|]. intros x w1 (e1 & A1 & HP).
  eapply wp_mono; [exact (Hf x e1 w1 HP A1)|]. intros y w2 (e2 & A2 & HQ). exists (e1 ++ e2).
  split; [by eapply after_trans | done].
Qed.
Lemma tr_mono {A} (m : Dev W A) w (P Q : A -> list event -> Prop) :
  tr m w P -> (forall x e, P x e -> Q x e) -> tr m w Q.
Proof. intros Hm HPQ. eapply wp_mono; [exact Hm|]. naive_solver. Qed.
Lemma tr_req r w : tr (req r) w (λ v e, e = [(r, v)]).
Proof. eapply wp_mono; [apply (req_law r w)|]. intros v w' [HA _]. eauto. Qed.
(** A request followed by the rest of the program. *)
Lemma tr_req_bind {B} r (f : Z -> Dev W B) w (Q : B -> list event -> Prop) :
  (forall v w', after [(r, v)] w w' -> tr (f v) w' (λ y e, Q y ((r, v) :: e))) -> tr (req r ≫= f) w Q.
Proof. intros Hf. eapply tr_bind; [apply tr_req|]. intros v e w' -> HA. by apply Hf. Qed.
Lemma tr_calc_bind {B} ms (f : Z -> Dev W B) w (Q : B -> list event -> Prop) :
  (forall t w', (remaining t w' < horizon)%nat -> tr (f t) w' (λ y e, Q y ((Calc ms, t) :: e))) ->
  tr (req (Calc ms) ≫= f) w Q.
Proof.
  intros Hf. apply wp_bind. eapply wp_mono; [apply (req_law (Calc ms) w)|]. intros t w1 [A1 Ht].
  eapply wp_mono; [exact (Hf t w1 Ht)|]. intros y w2 (e & A2 & HQ). exists ((Calc ms, t) :: e).
  split; [exact (after_trans [_] e w w1 w2 A1 A2) | done].
Qed.
Lemma tr_bind_assoc {A B C} (m : Dev W A) (f : A -> Dev W B) (g : B -> Dev W C) w Q :
  tr (m ≫= λ x, f x ≫= g) w Q -> tr ((m ≫= f) ≫= g) w Q.
Proof.
  unfold tr, wp, mbind, Dev_bind. intros (x & w' & E & HQ). exists x, w'. split; [|done].
  rewrite <- E. by destruct (m w) as [[]|].
Qed.
Lemma tr_ret_bind {A B} (x : A) (f : A -> Dev W B) w Q : tr (f x) w Q -> tr (mret x ≫= f) w Q.
Proof. exact id. Qed.
(** A loop whose rounds make only requests that satisfy [R]. *)
Lemma tr_do_while {A} (body : Dev W (option A)) (R : event -> Prop) (Q : A -> list event -> Prop) t :
  (forall w, tr body w (λ r e, Forall R e /\ match r with Some x => Q x e | None => True end)) ->
  (forall w w', body w = Some (None, w') -> (remaining t w' < remaining t w)%nat) ->
  forall fuel w, (remaining t w < fuel)%nat ->
    tr (do_while fuel body) w (λ x e, Forall R e /\ exists e1 e2, e = e1 ++ e2 /\ Q x e2).
Proof.
  intros Hb Hd fuel. induction fuel as [|fuel IH]; intros w Hf; [lia|]. cbn [do_while].
  destruct (Hb w) as (r & w1 & E & e1 & A1 & HR & Hx). unfold tr, wp, mbind, Dev_bind. rewrite E.
  destruct r as [x|].
  - exists x, w1. split; [done|]. exists e1. split; [done|]. split; [done|]. by exists [], e1.
  - specialize (Hd w w1 E). destruct (IH w1 ltac:(lia)) as (x & w2 & E2 & e2 & A2 & HR2 & e3 & e4 & -> & HQ).
    exists x, w2. split; [done|]. exists (e1 ++ e3 ++ e4). split; [by eapply after_trans|].
    split; [by apply Forall_app|]. exists (e1 ++ e3), e4. by rewrite (assoc app).
Qed.
End tr.

Ltac tr_step :=
  lazymatch goal with
  | |- tr (mret _) _ _ => apply tr_ret
  | |- tr (mbind _ (mret _)) _ _ => apply tr_ret_bind
  | |- tr (mbind _ (req (Calc _))) _ _ => apply tr_calc_bind; intros ? ? ?
  | |- tr (mbind _ (req _)) _ _ => apply tr_req_bind; intros ? ? ?
  | |- tr (mbind _ (mbind _ _)) _ _ => apply tr_bind_assoc
  | |- tr (mbind _ (sys_timepoint_calc _)) _ _ => unfold sys_timepoint_calc
  | |- tr (mbind _ (MriscRegRead32 _ _)) _ _ => unfold MriscRegRead32
  | |- tr (mbind _ (MriscL1Read32 _ _)) _ _ => unfold MriscL1Read32
  | |- tr (mbind _ (MriscRegWrite32 _ _ _)) _ _ => unfold MriscRegWrite32 at 1
  | |- tr (mbind _ (MriscL1Write32 _ _ _)) _ _ => unfold MriscL1Write32 at 1
  | |- tr (mbind _ (assert_mrisc_soft_reset _)) _ _ => unfold assert_mrisc_soft_reset at 1
  | |- tr (mbind _ (ReleaseMriscReset _)) _ _ => unfold ReleaseMriscReset at 1
  | |- tr (mbind _ (sys_timepoint_expired _)) _ _ => unfold sys_timepoint_expired at 1
  | |- tr (if ?b then _ else _) _ _ => destruct b eqn:?
  end.

(** * Messages *)
(** Requests that only read a tile, or read the time. *)
Definition is_read (x : event) : Prop :=
  match fst x with RegRd _ _ | L1Rd _ _ | DmaL1 _ _ _ | Buf _ | Calc _ | Expired _ => True | _ => False end.
#[export] Instance is_read_dec x : Decision (is_read x).
Proof. unfold is_read. destruct (fst x); apply _. Defined.

Section specs.
Context {W : Type} `{MriscLaws W} (fuel : nat).
Context (Hfuel : (horizon <= fuel)%nat).
Implicit Types (w : W) (e : list event) (s : gddr_state).

Lemma check_mrisc_busy_tr i w :
  tr (check_mrisc_busy i) w (λ r e, exists v, e = [(RegRd i MRISC_MSG_REGISTER, v)] /\
                                             r = (if v =? 0 then 0 else - EBUSY)).
Proof.
  unfold check_mrisc_busy. repeat tr_step. eexists; split; [done|].
  unfold MRISC_MSG_TYPE_NONE. by destruct (_ =? 0).
Qed.
Definition idle_read (i : Z) : event := (RegRd i MRISC_MSG_REGISTER, 0).
Lemma wait_mrisc_not_busy_tr i t w : (remaining t w < fuel)%nat ->
  tr (wait_mrisc_not_busy fuel i t) w (λ r e, Forall is_read e /\
     ((r = 0 /\ idle_read i ∈ e) \/ r = - ETIMEDOUT)).
Proof.
  intros Hr. unfold wait_mrisc_not_busy. eapply tr_mono.
  - eapply (tr_do_while (poll_not_busy i t) is_read
      (λ r e, (r = 0 /\ idle_read i ∈ e) \/ r = - ETIMEDOUT) t); [| |done].
    + intros w1. unfold poll_not_busy. repeat tr_step.
      * split; [by repeat constructor|]. left. split; [done|]. apply Z.eqb_eq in Heqb as ->. by left.
      * split; [by repeat constructor|]. destruct (negb _); [by right | done].
    + intros w1 w2 E. unfold poll_not_busy, MriscRegRead32, sys_timepoint_expired, mbind, Dev_bind in E.
      destruct (req_law (RegRd i MRISC_MSG_REGISTER) w1) as (v & w3 & E1 & [_ R1] & _). rewrite E1 in E.
      destruct (v =? 0); [done|].
      destruct (req_law (Expired t) w3) as (v' & w4 & E2 & [_ R2] & H2). rewrite E2 in E.
      cbv [mret Dev_ret] in E. destruct (negb (v' =? 0)) eqn:Hv; [done|]. simplify_eq.
      specialize (R1 t). specialize (H2 ltac:(zlia)). lia.
  - intros r e (HF & e1 & e2 & -> & HQ). split; [done|].
    destruct HQ as [[-> HQ]|]; [left | by right]. split; [done|]. set_solver.
Qed.

(** [G]: what must have been requested before each request. *)
Definition guarded (G : list event -> event -> Prop) e : Prop :=
  forall pre x post, e = pre ++ x :: post -> G pre x.
Definition monotone (G : list event -> event -> Prop) : Prop :=
  forall e pre x, G pre x -> G (e ++ pre) x.
Lemma guarded_nil G : guarded G [].
Proof. intros pre x post E. by destruct pre. Qed.
Lemma guarded_cons (G : list event -> event -> Prop) x e :
  G [] x -> guarded (λ pre, G (x :: pre)) e -> guarded G (x :: e).
Proof.
  intros Hx He pre y post E. destruct pre as [|z pre]; simplify_eq/=; [done|]. by eapply He.
Qed.
Lemma guarded_app G e1 e2 : guarded G e1 -> guarded (λ pre, G (e1 ++ pre)) e2 -> guarded G (e1 ++ e2).
Proof.
  revert G. induction e1 as [|x e1 IH]; intros G H1 H2; [done|]. apply guarded_cons.
  - by apply (H1 [] x e1).
  - apply IH; [|done]. intros pre y post ->. by apply (H1 (x :: pre) y post).
Qed.
Lemma guarded_mono G e1 e2 : monotone G -> guarded G e1 -> guarded G e2 -> guarded G (e1 ++ e2).
Proof. intros HG H1 H2. apply guarded_app; [done|]. intros pre x post E. by eapply HG, H2. Qed.
Lemma guarded_reads (G : list event -> event -> Prop) e :
  (forall pre x, is_read x -> G pre x) -> Forall is_read e -> guarded G e.
Proof. intros HG HF pre x post ->. apply HG. by apply Forall_app in HF as [_ ?%list.Forall_cons]; naive_solver. Qed.

(** A message goes only to a selected instance that was just seen idle. *)
Definition message_ok (op mask : Z) (pre : list event) (x : event) : Prop :=
  is_read x \/ exists i, 0 <= i < 8 /\ IS_BIT_SET mask i = true /\
    fst x = RegWr i MRISC_MSG_REGISTER op /\ [idle_read i] `suffix_of` pre.
Lemma message_ok_mono op mask : monotone (message_ok op mask).
Proof.
  intros e pre x [Hx|(i & Hi & Hm & Hx & Hl)]; [by left|]. right. exists i. repeat split; try done; try lia.
  by apply suffix_app_r.
Qed.
Definition sent (op i : Z) e : Prop := exists v, (RegWr i MRISC_MSG_REGISTER op, v) ∈ e.
Lemma send_all_tr op mask insts w : Forall (λ i, 0 <= i < 8) insts ->
  tr (send_all op mask insts) w (λ r e,
    (r = 0 \/ r = - EBUSY) /\ guarded (message_ok op mask) e /\
    (r = 0 -> forall i, i ∈ insts -> IS_BIT_SET mask i = true -> sent op i e)).
Proof.
  revert w. induction insts as [|i insts IH]; intros w Hi; cbn [send_all].
  { apply tr_ret. split; [by left|]. split; [apply guarded_nil|]. set_solver. }
  apply list.Forall_cons in Hi as [Hi Hs]. tr_step.
  - eapply tr_bind; [apply check_mrisc_busy_tr|]. intros r e w1 (v & -> & ->) _.
    destruct (Z.eqb_spec v 0) as [->|]; cbn [negb Z.eqb].
    + repeat tr_step. eapply tr_mono; [by apply IH|]. intros r e (Hr & HG & HS). split; [done|]. split.
      * apply (guarded_mono _ [_; _]); [apply message_ok_mono| |done]. repeat apply guarded_cons; [by left| |apply guarded_nil].
        right. exists i. repeat split; try done; try lia.
      * intros Hr0 j [->|Hj]%elem_of_cons Hm; [eexists; right; by left|].
        destruct (HS Hr0 j Hj Hm) as [v' Hv]. exists v'. by do 2 right.
    + apply tr_ret. split; [by right|]. split; [|done]. apply guarded_reads; [by left | by repeat constructor].
  - eapply tr_mono; [by apply IH|]. intros r e (Hr & HG & HS). split; [done|]. split; [done|].
    intros Hr0 j [->|Hj]%elem_of_cons Hm; [congruence|]. auto.
Qed.
Lemma wait_all_tr mask t insts w : (remaining t w < fuel)%nat ->
  tr (wait_all fuel mask t insts) w (λ r e,
    (r = 0 \/ r = - ETIMEDOUT) /\ Forall is_read e /\
    (r = 0 -> forall i, i ∈ insts -> IS_BIT_SET mask i = true -> idle_read i ∈ e)).
Proof.
  revert w. induction insts as [|i insts IH]; intros w Hw; cbn [wait_all].
  { apply tr_ret. split; [by left|]. split; [done|]. set_solver. }
  tr_step.
  - eapply tr_bind; [by apply wait_mrisc_not_busy_tr|]. intros r e w1 [HF HQ] [_ HR]. specialize (HR t).
    destruct HQ as [[-> HQ]| ->]; cbn [negb Z.eqb].
    + eapply tr_mono; [apply IH; lia|]. intros r e' (Hr & HF' & HS). split; [done|].
      split; [by apply Forall_app|]. intros Hr0 j [->|Hj]%elem_of_cons Hm; set_solver.
    + apply tr_ret. split; [by right|]. split; [by rewrite app_nil_r | done].
  - eapply tr_mono; [by apply IH|]. intros r e (Hr & HF & HS). split; [done|]. split; [done|].
    intros Hr0 j [->|Hj]%elem_of_cons Hm; [congruence|]. auto.
Qed.
Lemma instances_ok : Forall (λ i, 0 <= i < 8) instances.
Proof. apply list.Forall_forall. intros i Hi. unfold instances in Hi. apply elem_of_seqZ in Hi. unfold NUM_GDDR in Hi. lia. Qed.
Lemma elem_of_instances i : 0 <= i < 8 -> i ∈ instances.
Proof. intros Hi. unfold instances. apply elem_of_seqZ. unfold NUM_GDDR. lia. Qed.

(** What [mrisc_message] guarantees of its requests. *)
Definition message_done (op mask : Z) (r : Z) e : Prop :=
  (r = 0 \/ r = - EBUSY \/ r = - ETIMEDOUT) /\
  guarded (message_ok op mask) e /\
  (r = 0 -> forall i, 0 <= i < 8 -> IS_BIT_SET mask i = true ->
     exists e1 e2, e = e1 ++ e2 /\ sent op i e1 /\ idle_read i ∈ e2).
Lemma mrisc_message_tr op mask ms w : tr (mrisc_message fuel op mask ms) w (message_done op mask).
Proof.
  unfold mrisc_message. eapply tr_bind; [apply send_all_tr, instances_ok|].
  intros r e w1 (Hr & HG & HS) _. destruct Hr as [-> | ->]; cbn [negb Z.eqb].
  - tr_step. tr_step. eapply tr_mono; [apply wait_all_tr; lia|].
    intros r e' (Hr & HF & HI). split; [naive_solver|]. split.
    + apply guarded_mono; [apply message_ok_mono|done|]. apply guarded_reads; [by left|]. by constructor.
    + intros Hr0 i Hi Hm. eexists _, _. split; [done|].
      split; [by apply HS, Hm; [|apply elem_of_instances]|]. right. by apply HI, Hm; [|apply elem_of_instances].
  - apply tr_ret. rewrite app_nil_r. split; [auto|]. split; [done|]. done.
Qed.

(** * Memory tests and training *)
Lemma read_words_tr i a n w : tr (read_words i a n) w (λ _ e, Forall is_read e).
Proof.
  revert a w. induction n as [|n IH]; intros a w; cbn [read_words]; [by apply tr_ret|].
  repeat tr_step. eapply tr_bind; [apply IH|]. intros vs e w1 HF _. apply tr_ret. rewrite app_nil_r. by constructor.
Qed.
Lemma read_buffer_tr k n w : tr (read_buffer k n) w (λ _ e, Forall is_read e).
Proof.
  revert k w. induction n as [|n IH]; intros k w; cbn [read_buffer]; [by apply tr_ret|].
  repeat tr_step. eapply tr_bind; [apply IH|]. intros vs e w1 HF _. apply tr_ret. rewrite app_nil_r. by constructor.
Qed.
Lemma read_gddr_telemetry_table_tr i w :
  tr (read_gddr_telemetry_table i) w (λ _ e, Forall is_read e).
Proof.
  unfold read_gddr_telemetry_table. tr_step. eapply (tr_bind _ _ _ (λ _ e, Forall is_read e)).
  - tr_step; [apply read_buffer_tr | apply read_words_tr].
  - intros ws e w1 HF _. apply tr_ret. rewrite app_nil_r. by constructor.
Qed.

Definition start_event (i : Z) (x : event) : Prop := fst x = RegWr i MRISC_MSG_REGISTER MRISC_MSG_TYPE_RUN_MEMTEST.
(** The requests that hand an instance its test. *)
Definition is_start (i : Z) (x : event) : Prop :=
  start_event i x \/ exists k v, 0 <= k < 3 /\ fst x = L1Wr i (GDDR_MSG_STRUCT_ADDR + k * 4) v.
Lemma StartHwMemtest_tr i w :
  tr (StartHwMemtest i 26 0 0) w (λ r e,
    ((r = - ENOTSUP \/ r = - EBUSY) /\ Forall is_read e) \/
    (r = 0 /\ idle_read i ∈ e /\ Forall (λ x, is_read x \/ is_start i x) e /\ Exists (start_event i) e)).
Proof.
  unfold StartHwMemtest. eapply tr_bind; [apply read_gddr_telemetry_table_tr|]. intros [rc ws] e w1 HF _.
  tr_step; [apply tr_ret; rewrite app_nil_r; left; auto|].
  tr_step; [apply tr_ret; rewrite app_nil_r; left; auto|].
  eapply tr_bind; [apply check_mrisc_busy_tr|]. intros r e1 w2 (v & -> & ->) _.
  destruct (Z.eqb_spec v 0) as [->|]; cbn [negb Z.eqb].
  - change (26 <? 26) with false. cbv iota. repeat tr_step. right. split; [done|]. split; [set_solver|]. split.
    + apply list.Forall_app. split; [eapply Forall_impl; [|exact HF]; by left|].
      apply Forall_cons_2; [by left|]. apply Forall_cons_2; [right; right; by eexists 0, _|].
      apply Forall_cons_2; [right; right; by eexists 1, _|]. apply Forall_cons_2; [right; right; by eexists 2, _|].
      apply Forall_cons_2; [by right; left | done].
    + apply Exists_app. right. do 4 right. by left.
  - apply tr_ret. left. split; [auto|]. rewrite app_nil_r. apply list.Forall_app. split; [done|]. by repeat constructor.
Qed.

Definition passed_read (i : Z) : event := (L1Rd i (GDDR_MSG_STRUCT_ADDR + 8 * 4), 0).
(** How a checked test changes the state. *)
Definition test_state s (i : Z) (passed : bool) s' : Prop :=
  exists c, s' = with_bist s c (if passed then Z.ldiff (bist_failed s) (BIT i) else Z.lor (bist_failed s) (BIT i)) /\
    (c = Z.lor (bist_complete s) (BIT i) \/ passed = false /\ c = bist_complete s).
Lemma CheckHwMemtestResult_tr s i t w : (remaining t w < fuel)%nat ->
  tr (CheckHwMemtestResult fuel s i t) w (λ '(r, s') e, Forall is_read e /\
    ((r = 0 /\ passed_read i ∈ e /\ test_state s i true s') \/
     ((r = - ETIMEDOUT \/ r = - EIO) /\ test_state s i false s'))).
Proof.
  intros Hw. unfold CheckHwMemtestResult. eapply tr_bind; [by apply wait_mrisc_not_busy_tr|].
  intros r e w1 [HF [[-> HI]| ->]] _; cbn [negb Z.eqb].
  - repeat tr_step. destruct (Z.eqb_spec v 0) as [->|]; cbn [negb]; (split; [apply list.Forall_app; split; [done|]; by repeat constructor|]).
    + left. split; [done|]. split; [set_solver|]. eexists. split; [done|]. by left.
    + right. split; [by right|]. eexists. split; [done|]. by left.
  - apply tr_ret. rewrite app_nil_r. split; [done|]. right. split; [by left|]. eexists. split; [done|]. by right.
Qed.

Definition finished_read (i : Z) : event := (RegRd i MRISC_INIT_STATUS, MRISC_INIT_FINISHED).
(** How a checked training changes the state. *)
Definition trained_state s (i : Z) (ok : bool) : gddr_state :=
  with_version_ok s (let v := Z.ldiff (gddr_telemetry_version_ok s) (BIT i) in if ok then Z.lor v (BIT i) else v).
Lemma CheckGddrTraining_tr s i t w : (remaining t w < fuel)%nat ->
  tr (CheckGddrTraining fuel s i t) w (λ '(r, s') e, Forall is_read e /\
    ((r = 0 /\ finished_read i ∈ e /\ s' = trained_state s i true) \/
     ((r = - ETIMEDOUT \/ r = - EIO \/ r = - ENOTSUP) /\ s' = trained_state s i false))).
Proof.
  intros Hw. unfold CheckGddrTraining. eapply tr_bind.
  - eapply (tr_do_while (poll_training i t) is_read
      (λ r e, (r = 0 /\ finished_read i ∈ e) \/ (r = - ETIMEDOUT \/ r = - EIO \/ r = - ENOTSUP)) t); [| |done].
    + intros w1. unfold poll_training. repeat tr_step.
      * split; [by repeat constructor|]. apply Z.eqb_eq in Heqb as ->. destruct (negb _); [auto|]. left. split; [done|]. by left.
      * split; [by repeat constructor|]. auto.
      * split; [by repeat constructor|]. destruct (negb _); auto.
    + intros w1 w2 E. unfold poll_training, MriscRegRead32, MriscL1Read32, sys_timepoint_expired, mbind, Dev_bind in E.
      destruct (req_law (RegRd i MRISC_INIT_STATUS) w1) as (v & w3 & E1 & [_ R1] & _). rewrite E1 in E.
      destruct (v =? _).
      { destruct (req_law (L1Rd i (GDDR_TELEMETRY_TABLE_ADDR + off_version)) w3) as (v1 & w4 & E2 & _). by rewrite E2 in E. }
      destruct (v =? _); [done|].
      destruct (req_law (Expired t) w3) as (v' & w4 & E2 & [_ R2] & H2). rewrite E2 in E.
      cbv [mret Dev_ret] in E. destruct (negb (v' =? 0)) eqn:Hv; [done|]. simplify_eq.
      specialize (R1 t). specialize (H2 ltac:(zlia)). lia.
  - intros r e w1 (HF & e1 & e2 & -> & HQ) _.
    destruct HQ as [[-> HQ]|[-> |[-> | ->]]]; repeat tr_step; try discriminate;
      (split; [apply list.Forall_app; split; [exact HF | by repeat constructor]|]).
    + left. split; [done|]. split; [set_solver | done].
    + right. auto.
    + right. auto.
    + right. auto.
Qed.

(** ** Latching the settings *)
Definition cell (t : gddr_cal_table_t) (row j : nat) : option gddr_cal_entry_t :=
  match t !! row with Some r => r !! j | None => None end.
Definition table_wf (t : gddr_cal_table_t) : Prop := length t = 8%nat /\ Forall (λ r, length r = 8%nat) t.
Definition cal_wf s : Prop :=
  table_wf (gddr_cal_table s) /\ forall row, gddr_asic_cal s = Some row -> (row < 8)%nat.
Lemma cell_is_Some t row j : table_wf t -> (row < 8)%nat -> (j < 8)%nat -> is_Some (cell t row j).
Proof.
  intros [Hl HF] Hrow Hj. unfold cell. destruct (lookup_lt_is_Some_2 t row) as [r Er]; [lia|]. rewrite Er.
  apply lookup_lt_is_Some_2. rewrite (list.Forall_lookup_1 _ _ _ _ HF Er). lia.
Qed.
Lemma set_entry_wf t row i x : table_wf t -> table_wf (set_entry t row i x).
Proof.
  intros [Hl HF]. unfold set_entry. destruct (t !! row) as [r|] eqn:Er; [|done]. split; [by rewrite length_insert|].
  apply Forall_insert; [done|]. rewrite length_insert. by eapply (list.Forall_lookup_1 _ _ _ _ HF).
Qed.
Lemma cell_set_entry t row i x row' j y : 0 <= i ->
  cell (set_entry t row i x) row' j = Some y ->
  cell t row' j = Some y \/ (row' = row /\ Z.of_nat j = i /\ y = x).
Proof.
  intros Hi. unfold cell, set_entry. destruct (t !! row) as [r|] eqn:Er; [|by left].
  destruct (decide (row' = row)) as [->|]; [|rewrite list_lookup_insert_ne by done; by left].
  rewrite list_lookup_insert_eq by (by eapply lookup_lt_Some). rewrite Er.
  destruct (decide (j = Z.to_nat i)) as [->|]; [|rewrite list_lookup_insert_ne by done; by left].
  intros Hy. destruct (decide (Z.to_nat i < length r)%nat).
  - rewrite list_lookup_insert_eq in Hy by done. simplify_eq. right. split; [done|]. split; [lia | done].
  - rewrite list_insert_ge in Hy by lia. by left.
Qed.

Definition ca_read (i v : Z) : event := (L1Rd i (GDDR_TELEMETRY_TABLE_ADDR + off_ca), v).
Definition ocd_read (i v : Z) : event := (L1Rd i (GDDR_TELEMETRY_TABLE_ADDR + off_ocd), v).
(** The settings that two words of an MRISC's table report. *)
Definition reported_entry (ca ocd : Z) : gddr_cal_entry_t :=
  {| ca_vrefc_offset := ca mod 256; ca_termination_offset := ca / 256 mod 256;
     ca_ocd_pulldown_offset := ocd mod 256; valid := 1 |}.
Definition reported (i : Z) e (x : gddr_cal_entry_t) : Prop :=
  exists ca ocd, ca_read i ca ∈ e /\ ocd_read i ocd ∈ e /\ x = reported_entry ca ocd.
(** The entries of the table in [s'] that [s] does not have. *)
Definition latched (mask : Z) e s s' : Prop :=
  cal_wf s' /\ gddr_asic_cal s' = gddr_asic_cal s /\
  forall row j x, cell (gddr_cal_table s') row j = Some x ->
    cell (gddr_cal_table s) row j = Some x \/
    (gddr_asic_cal s = Some row /\ IS_BIT_SET mask (Z.of_nat j) = true /\ entry_in_range x = true /\
     finished_read (Z.of_nat j) ∈ e /\ reported (Z.of_nat j) e x).
Lemma reported_mono i e e' x : e ⊆ e' -> reported i e x -> reported i e' x.
Proof. intros Hs (ca & ocd & H1 & H2 & ->). exists ca, ocd. auto. Qed.
Lemma latched_mono mask e e' s s' : e ⊆ e' -> latched mask e s s' -> latched mask e' s s'.
Proof.
  intros Hs (Hw & Ha & Hc). split; [done|]. split; [done|]. intros row j x Hx.
  destruct (Hc row j x Hx) as [|(H1 & H2 & H3 & H4 & H5)]; [by left|]. right.
  split_and!; try done; [by apply Hs | by eapply reported_mono].
Qed.
Lemma latched_refl mask e s : cal_wf s -> latched mask e s s.
Proof. intros Hw. split; [done|]. split; [done|]. auto. Qed.
Lemma latched_trans mask e s1 s2 s3 : latched mask e s1 s2 -> latched mask e s2 s3 -> latched mask e s1 s3.
Proof.
  intros (_ & Ha & Hc) (Hw & Hb & Hd). split; [done|]. split; [congruence|]. intros row j x Hx.
  destruct (Hd row j x Hx) as [Hy|Hn]; [by apply Hc|]. right. rewrite <- Ha. exact Hn.
Qed.
Lemma FIELD_low v : FIELD_GET (GENMASK 7 0) v = v mod 256.
Proof.
  unfold FIELD_GET. change (GENMASK 7 0) with (Z.ones 8). change (LSB_GET (Z.ones 8)) with 1.
  by rewrite Z.land_ones, Z.div_1_r by lia.
Qed.
Lemma FIELD_second v : FIELD_GET (GENMASK 15 8) v = v / 256 mod 256.
Proof.
  unfold FIELD_GET. change (GENMASK 15 8) with (Z.shiftl (Z.ones 8) 8). change (LSB_GET (Z.shiftl (Z.ones 8) 8)) with 256.
  change 256 with (2 ^ 8). rewrite <- !Z.shiftr_div_pow2, Z.shiftr_land, Z.shiftr_shiftl_l by lia.
  change (Z.shiftl (Z.ones 8) (8 - 8)) with (Z.ones 8). by rewrite Z.land_ones by lia.
Qed.
Lemma LatchGddrCaSettings_tr s i w : cal_wf s -> 0 <= i < 8 ->
  tr (LatchGddrCaSettings s i) w (λ '(dirty, s') e, Forall is_read e /\
    ((dirty = false /\ s' = s) \/
     exists row x, dirty = true /\ gddr_asic_cal s = Some row /\ entry_in_range x = true /\ reported i e x /\
       s' = with_cal s (set_entry (gddr_cal_table s) row i x))).
Proof.
  intros [Hwf Hrow] Hi. unfold LatchGddrCaSettings.
  destruct (gddr_asic_cal s) as [row|] eqn:Ea; [|apply tr_ret; auto].
  repeat tr_step; try (by split; [repeat constructor | auto]).
  apply negb_false_iff in Heqb1. unfold latch_entry.
  destruct (cell_is_Some (gddr_cal_table s) row (Z.to_nat i) Hwf) as [x0 Ex0]; [by apply Hrow | lia|].
  unfold asic_entry. rewrite Ea. unfold cell in Ex0. rewrite Ex0. destruct (same_settings _ _); cbn [lift].
  - apply tr_ret. split; [by repeat constructor | auto].
  - apply tr_ret. split; [by repeat constructor|]. right. eexists row, _. split; [done|]. split; [done|].
    split; [exact Heqb1|]. split; [|done]. exists v0, v1. split; [set_solver|]. split; [set_solver|].
    unfold reported_entry. by rewrite !FIELD_low, FIELD_second.
Qed.

(** ** All instances *)
Lemma testbit_BIT i j : 0 <= i -> Z.testbit (BIT i) j = (j =? i).
Proof.
  intros Hi. unfold BIT. rewrite Z.shiftl_1_l. destruct (Z.eqb_spec j i) as [->|]; [by apply Z.pow2_bits_true|].
  apply Z.pow2_bits_false. lia.
Qed.
Lemma elem_of_app_mono (e1 e2 : list event) : e1 ⊆ e1 ++ e2 /\ e2 ⊆ e1 ++ e2.
Proof. split; intros x; rewrite elem_of_app; auto. Qed.
Lemma latch_step mask s i row x e :
  cal_wf s -> 0 <= i < 8 -> IS_BIT_SET mask i = true -> gddr_asic_cal s = Some row ->
  entry_in_range x = true -> finished_read i ∈ e -> reported i e x ->
  latched mask e s (with_cal s (set_entry (gddr_cal_table s) row i x)).
Proof.
  intros [Hwf Hr] Hi Hm Ha Hx Hf Hrep. split; [split; [by apply set_entry_wf | done]|]. split; [done|].
  intros row' j y Hy. apply cell_set_entry in Hy as [|(-> & <- & ->)]; [by left| |lia]. by right.
Qed.
Definition same_bist s s' : Prop := bist_complete s' = bist_complete s /\ bist_failed s' = bist_failed s.
Lemma train_all_tr mask t insts ie d s w :
  Forall (λ i, 0 <= i < 8) insts -> cal_wf s -> (remaining t w < fuel)%nat ->
  tr (train_all fuel mask t insts ie d s) w (λ '(ie', d', s') e,
    Forall is_read e /\ latched mask e s s' /\ same_bist s s' /\
    (ie' = false -> ie = false /\ forall i, i ∈ insts -> IS_BIT_SET mask i = true -> finished_read i ∈ e) /\
    (d' = false -> d = false /\ gddr_cal_table s' = gddr_cal_table s)).
Proof.
  revert ie d s w. induction insts as [|i insts IH]; intros ie d s w Hi Hwf Hw; cbn [train_all].
  { apply tr_ret. split; [done|]. split; [by apply latched_refl|]. split; [done|]. split; [|done]. set_solver. }
  apply list.Forall_cons in Hi as [Hi His]. tr_step.
  2: { eapply tr_mono; [by apply IH|]. intros [[ie' d'] s'] e (HF & HL & HB & HE & HD). split_and!; try done.
       intros Hie. destruct (HE Hie) as [-> HE']. split; [done|]. intros j [->|Hj]%elem_of_cons Hm; [congruence|]. auto. }
  eapply tr_bind; [by apply CheckGddrTraining_tr|]. intros [r s1] e1 w1 [HF1 H1] [_ HR1]. specialize (HR1 t).
  destruct H1 as [(-> & Hfin & ->)|[Hr ->]].
  - cbn [negb Z.eqb]. eapply tr_bind; [apply LatchGddrCaSettings_tr; [exact Hwf | done]|].
    intros [dirty s2] e2 w2 [HF2 H2] [_ HR2]. specialize (HR2 t).
    assert (HL : latched mask (e1 ++ e2) s s2 /\ same_bist s s2 /\ (dirty = false -> gddr_cal_table s2 = gddr_cal_table s)).
    { destruct H2 as [[-> ->]|(row & x & -> & Ha & Hx & Hrep & ->)]; [by split; [exact (latched_refl mask _ (trained_state s i true) Hwf)|]|].
      split; [|done]. apply (latch_step mask (trained_state s i true)); try done; [set_solver|].
      eapply reported_mono; [|exact Hrep]. apply elem_of_app_mono. }
    destruct HL as (HL & HB & Hd). pose proof (proj1 HL) as Hwf2.
    eapply tr_mono; [apply IH; [done|done|lia]|]. intros [[ie' d'] s'] e (HF & HL' & HB' & HE & HD).
    assert (Hsub : e1 ++ e2 ⊆ e1 ++ e2 ++ e) by (intros z; rewrite !elem_of_app; naive_solver).
    split; [by rewrite !list.Forall_app|]. split.
    { eapply latched_trans; (eapply latched_mono; [|eassumption]); [exact Hsub|]. intros z. rewrite !elem_of_app. naive_solver. }
    split; [unfold same_bist in *; intuition congruence|]. split.
    + intros Hie. destruct (HE Hie) as [-> HE']. split; [done|].
      intros j [->|Hj]%elem_of_cons Hm; rewrite !elem_of_app; [by left | auto].
    + intros Hd'. destruct (HD Hd') as [[-> ->]%orb_false_iff HD']. split; [done|]. rewrite HD'. auto.
  - destruct (negb (r =? 0)) eqn:Er; [|unfold ETIMEDOUT, EIO, ENOTSUP in Hr; zlia].
    eapply tr_mono; [apply IH; [done|exact Hwf|lia]|]. intros [[ie' d'] s'] e (HF & HL & HB & HE & HD).
    split; [by rewrite !list.Forall_app|]. split; [|split; [exact HB|split]].
    + eapply latched_mono; [apply elem_of_app_mono|]. exact HL.
    + intros Hie. by destruct (HE Hie).
    + intros Hd'. by destruct (HD Hd').
Qed.
(** What [start_tests] guarantees, from the tests [st0] and the error [er0]. *)
Definition tests_started (mask : Z) (insts : list Z) (st0 er0 : Z) (y : Z * Z) e : Prop :=
  Forall (λ x, is_read x \/ exists i, 0 <= i < 8 /\ i ∈ insts /\ IS_BIT_SET mask i = true /\
                                     is_start i x /\ IS_BIT_SET (fst y) i = true) e /\
  (forall i, IS_BIT_SET st0 i = true -> IS_BIT_SET (fst y) i = true) /\ (snd y = 0 -> er0 = 0) /\ snd y <= 0.
(** One more instance, whose requests are [e0]. *)
Lemma tests_started_cons mask i insts st0 er0 st er y e0 e :
  0 <= i < 8 -> (er = 0 -> er0 = 0) -> (forall j, IS_BIT_SET st0 j = true -> IS_BIT_SET st j = true) ->
  Forall (λ x, is_read x \/ is_start i x /\ IS_BIT_SET mask i = true /\ IS_BIT_SET st i = true) e0 ->
  tests_started mask insts st er y e -> tests_started mask (i :: insts) st0 er0 y (e0 ++ e).
Proof.
  intros Hi Heq Hst HF0 (HF & Hs & Hz & Hn). split_and!; [|auto|auto|done].
  apply list.Forall_app. split; (eapply Forall_impl; [|eassumption]); cbv beta.
  - intros x [|(H1 & H2 & H3)]; [by left|]. right. exists i. split_and!; try done; try lia; [by left | auto].
  - intros x [|(j & H1 & H2 & H3)]; [by left|]. right. exists j. split; [done|]. split; [by right | done].
Qed.
Lemma start_tests_tr mask insts st0 er0 w : Forall (λ i, 0 <= i < 8) insts -> er0 <= 0 ->
  tr (start_tests mask insts st0 er0) w (tests_started mask insts st0 er0).
Proof.
  revert st0 er0 w. induction insts as [|i insts IH]; intros st0 er0 w Hi Her; cbn [start_tests].
  { apply tr_ret. split_and!; try done. }
  apply list.Forall_cons in Hi as [Hi His].
  assert (Hreads : forall st e0, Forall is_read e0 ->
    Forall (λ x, is_read x \/ is_start i x /\ IS_BIT_SET mask i = true /\ IS_BIT_SET st i = true) e0).
  { intros st e0 HF. eapply Forall_impl; [|exact HF]. by left. }
  destruct (IS_BIT_SET mask i) eqn:Hm.
  2: { eapply tr_mono; [by apply IH|]. intros y e Hy.
       apply (tests_started_cons mask i insts st0 er0 st0 er0 y [] e); auto. }
  eapply tr_bind; [apply StartHwMemtest_tr|]. intros r e1 w1 H1 _.
  destruct H1 as [[[-> | ->] HF1]|(-> & _ & HF1 & _)].
  - change (- ENOTSUP =? - ENOTSUP) with true. cbv iota. eapply tr_mono; [by apply IH|]. intros y e Hy.
    eapply tests_started_cons; [done| | |rewrite Hm; by apply Hreads|exact Hy]; auto.
  - change (- EBUSY =? - ENOTSUP) with false. change (- EBUSY <? 0) with true. cbv iota.
    eapply tr_mono; [apply IH; [done | unfold EIO; lia]|]. intros y e Hy.
    eapply tests_started_cons; [done| | |rewrite Hm; by apply Hreads|exact Hy]; auto. unfold EIO. lia.
  - change (0 =? - ENOTSUP) with false. change (0 <? 0) with false. cbv iota.
    eapply tr_mono; [by apply IH|]. intros y e Hy.
    apply (tests_started_cons mask i insts st0 er0 (Z.lor st0 (BIT i)) er0); [done|done| | |exact Hy].
    + intros j Hj. unfold IS_BIT_SET in *. by rewrite Z.lor_spec, Hj.
    + eapply Forall_impl; [|exact HF1]. intros x [|Hx]; [by left|]. right. split_and!; try done.
      unfold IS_BIT_SET. rewrite Z.lor_spec, testbit_BIT, Z.eqb_refl by lia. apply orb_true_r.
Qed.
Lemma check_tests_tr st t insts er0 s w : (remaining t w < fuel)%nat -> er0 <= 0 ->
  tr (check_tests fuel st t insts er0 s) w (λ '(er, s') e,
    Forall is_read e /\ gddr_cal_table s' = gddr_cal_table s /\ gddr_asic_cal s' = gddr_asic_cal s /\ er <= 0 /\
    (er = 0 -> er0 = 0 /\ forall i, i ∈ insts -> IS_BIT_SET st i = true -> passed_read i ∈ e)).
Proof.
  revert er0 s w. induction insts as [|i insts IH]; intros er0 s w Hw Her; cbn [check_tests].
  { apply tr_ret. split_and!; try done. set_solver. }
  tr_step.
  2: { eapply tr_mono; [by apply IH|]. intros [er s'] e (HF & HT & HA & Hn & Hz). split_and!; try done.
       intros Hr. destruct (Hz Hr) as [-> Hz']. split; [done|]. intros j [->|Hj]%elem_of_cons Hm; [congruence|]. auto. }
  eapply tr_bind; [by apply CheckHwMemtestResult_tr|]. intros [r s1] e1 w1 [HF1 H1] [_ HR1]. specialize (HR1 t).
  assert (HS : gddr_cal_table s1 = gddr_cal_table s /\ gddr_asic_cal s1 = gddr_asic_cal s).
  { destruct H1 as [(_ & _ & c & -> & _)|(_ & c & -> & _)]; done. }
  destruct HS as [HS1 HS2].
  eapply tr_mono; [apply IH; [lia|]; case_match; unfold EIO; lia|]. intros [er s'] e (HF & HT & HA & Hn & Hz).
  split; [by apply list.Forall_app|]. split; [congruence|]. split; [congruence|]. split; [done|].
  intros Hr. destruct (Hz Hr) as [Hz0 Hz']. destruct (r <? 0) eqn:Er; [done|]. split; [done|].
  intros j [->|Hj]%elem_of_cons Hm; rewrite elem_of_app; [|auto]. left.
  destruct H1 as [(-> & Hp & _)|[Hr' _]]; [done|]. unfold ETIMEDOUT, EIO in Hr'. zlia.
Qed.

(** ** Boot *)
(** Every test that was started has passed by the end. *)
Definition tests_passed e : Prop :=
  forall i pre x post, e = pre ++ x :: post -> start_event i x -> passed_read i ∈ post.
Definition all_trained (mask : Z) e : Prop :=
  forall i, 0 <= i < 8 -> IS_BIT_SET mask i = true -> finished_read i ∈ e.
Lemma start_event_inv i j x : is_start j x -> start_event i x -> j = i.
Proof. unfold is_start, start_event. intros [Hj|(k & v & _ & Hj)] Hi; rewrite Hj in Hi; by simplify_eq. Qed.
Lemma not_read_start i x : is_read x -> start_event i x -> False.
Proof. unfold is_read, start_event. intros Hr E. by rewrite E in Hr. Qed.
Lemma start_notin i x e : Forall is_read e -> start_event i x -> x ∉ e.
Proof. intros HF Hs Hx. eapply not_read_start; [|exact Hs]. by eapply list.Forall_forall in Hx. Qed.
Lemma tests_passed_app mask st er e1 e2 e3 :
  Forall is_read e1 -> tests_started mask instances 0 0 (st, er) e2 ->
  (forall i, i ∈ instances -> IS_BIT_SET st i = true -> passed_read i ∈ e3) -> Forall is_read e3 ->
  tests_passed (e1 ++ e2 ++ e3).
Proof.
  intros H1 [H2 _] Hp H3 i pre x post E Hx.
  assert (Hin : x ∈ e2).
  { assert (Hx' : x ∈ e1 ++ e2 ++ e3) by (rewrite E; set_solver).
    rewrite !elem_of_app in Hx'. pose proof (start_notin i x e1 H1 Hx). pose proof (start_notin i x e3 H3 Hx).
    naive_solver. }
  destruct (proj1 (list.Forall_forall _ _) H2 x Hin) as [Hr|(j & Hj & Hjin & _ & Hs & Hb)]; [by eapply not_read_start in Hx|].
  rewrite (start_event_inv i j x Hs Hx) in *. specialize (Hp i Hjin Hb).
  assert (Hlen : (length pre < length (e1 ++ e2))%nat).
  { destruct (decide (length pre < length (e1 ++ e2))%nat); [done|]. exfalso.
    assert (Hx3 : (e1 ++ e2 ++ e3) !! length pre = Some x) by (rewrite E, lookup_app_r, Nat.sub_diag by lia; done).
    rewrite (assoc app), lookup_app_r in Hx3 by lia. apply list_elem_of_lookup_2 in Hx3.
    by eapply (start_notin i x e3). }
  rewrite (assoc app) in E. assert (Hpost : exists mid, post = mid ++ e3).
  { exists (take (length (e1 ++ e2) - S (length pre)) post).
    apply (f_equal (drop (length (e1 ++ e2)))) in E. rewrite drop_app_length in E. rewrite E at 1.
    rewrite drop_app_ge by lia. replace (length (e1 ++ e2) - length pre)%nat
      with (S (length (e1 ++ e2) - S (length pre))) by lia. cbn [drop skipn]. by rewrite take_drop. }
  destruct Hpost as [mid ->]. apply elem_of_app. by right.
Qed.

Definition boot_result (mask : Z) s (y : Z * bool * option gddr_cal_table_t * gddr_state) e : Prop :=
  let '(ret, failed, written, s') := y in
  latched mask e s s' /\
  (failed = false -> ret = 0 /\ all_trained mask e /\ tests_passed e /\
     (written = None -> gddr_cal_table s' = gddr_cal_table s)) /\
  (forall t, written = Some t -> failed = false /\ t = gddr_cal_table s').
Lemma gddr_training_tr mask s w : cal_wf s -> tr (gddr_training fuel false mask s) w (boot_result mask s).
Proof.
  intros Hwf. unfold gddr_training. repeat tr_step.
  eapply tr_bind; [apply train_all_tr; [apply instances_ok | done | lia]|].
  intros [[ie d] s1] e1 w2 (HF1 & HL1 & _ & HE1 & HD1) [_ HR]. destruct ie; cbn [negb].
  { apply tr_ret. split; [|done]. rewrite app_nil_r. eapply latched_mono; [|exact HL1]. set_solver. }
  destruct (HE1 eq_refl) as [_ Htr]. unfold CheckGddrHwTest. tr_step.
  eapply tr_bind; [apply start_tests_tr; [apply instances_ok | lia]|]. intros [st er] e2 w3 H2 _. cbv beta.
  tr_step. tr_step. tr_step.
  eapply tr_bind; [apply check_tests_tr; [lia | by apply H2]|].
  intros [er' s2] e3 w4 (HF3 & HT & HA & Hn & Hp) _.
  set (e := (Calc MRISC_INIT_TIMEOUT, t) :: e1 ++ e2 ++ (Calc MRISC_MEMTEST_TIMEOUT, t0) :: e3).
  assert (Hsub : e1 ⊆ e) by (subst e; intros z; set_unfold; naive_solver).
  assert (HL2 : latched mask e s s2).
  { eapply latched_mono; [exact Hsub|]. destruct HL1 as ([Hw1 Hw2] & Ha & Hc).
    split; [split; [by rewrite HT | by rewrite HA]|]. split; [congruence|]. by rewrite HT. }
  assert (Hend : forall y, boot_result mask s y e ->
    tr (mret y) w4 (λ y e', boot_result mask s y
      ((Calc MRISC_INIT_TIMEOUT, t) :: e1 ++ e2 ++ (Calc MRISC_MEMTEST_TIMEOUT, t0) :: e3 ++ e'))).
  { intros y Hy. apply tr_ret. rewrite app_nil_r. exact Hy. }
  tr_step; apply Hend; [by split|]. split; [exact HL2|].
  destruct (Hp ltac:(zlia)) as [-> Hp']. split.
  - intros _. split; [done|]. split; [intros i Hi Hm; by apply Hsub, Htr; [apply elem_of_instances|]|]. split.
    + apply (tests_passed_app mask st 0 ((Calc MRISC_INIT_TIMEOUT, t) :: e1) e2 ((Calc MRISC_MEMTEST_TIMEOUT, t0) :: e3)).
      * by constructor.
      * exact H2.
      * intros i Hi Hb. right. by apply Hp'.
      * by constructor.
    + intros Hd. destruct d; [done|]. rewrite HT. by apply HD1.
  - intros t' Ht. destruct d; by simplify_eq.
Qed.

(** ** Resetting one instance *)
Definition same_bit (j a b : Z) : Prop := IS_BIT_SET a j = IS_BIT_SET b j.
(** The bits of the other instances are as they were. *)
Definition others_kept (inst : Z) s s' : Prop :=
  gddr_cal_table s' = gddr_cal_table s /\ forall j, 0 <= j -> j <> inst ->
    same_bit j (bist_complete s') (bist_complete s) /\ same_bit j (bist_failed s') (bist_failed s) /\
    same_bit j (gddr_telemetry_version_ok s') (gddr_telemetry_version_ok s).
(** Power messages go to all instances, everything else to [inst]. *)
Definition reset_event (inst : Z) (x : event) : Prop :=
  is_read x \/ is_start inst x \/
  match fst x with
  | RegWr i a op => a = MRISC_MSG_REGISTER /\ (op = MRISC_MSG_TYPE_PHY_WAKEUP \/ op = MRISC_MSG_TYPE_PHY_POWERDOWN) \/
                    i = inst /\ a = MRISC_INIT_STATUS
  | SoftReset i | ReleaseReset i => i = inst
  | _ => False
  end.
Definition selected (enabled mask inst : Z) : bool :=
  (inst <? 8) && IS_BIT_SET enabled inst && IS_BIT_SET mask inst.
Definition powered_down (mask : Z) e : Prop :=
  forall i, 0 <= i < 8 -> IS_BIT_SET mask i = true ->
    exists e1 e2, e = e1 ++ e2 /\ sent MRISC_MSG_TYPE_PHY_POWERDOWN i e1 /\ idle_read i ∈ e2.
Definition retested (inst : Z) e : Prop :=
  exists e0 v e1, e = e0 ++ (SoftReset inst, v) :: e1 /\ finished_read inst ∈ e1 /\ passed_read inst ∈ e1.
(** What the answer tells. *)
Definition answer_ok (ubb power : bool) (enabled mask inst : Z) (err : gddr_reset_err) s s' e : Prop :=
  match err with
  | GDDR_RESET_OK =>
      retested inst e /\ IS_BIT_SET (bist_complete s') inst = true /\ IS_BIT_SET (bist_failed s') inst = false /\
      IS_BIT_SET (gddr_telemetry_version_ok s') inst = true /\
      (power = false -> ubb = false -> exists e0 e1, e = e0 ++ e1 /\ retested inst e0 /\ powered_down mask e1)
  | GDDR_RESET_ERR_INVALID_INST => 8 <= inst
  | GDDR_RESET_ERR_HARVESTED => inst < 8 /\ IS_BIT_SET enabled inst = false
  | GDDR_RESET_ERR_MASKED => IS_BIT_SET enabled inst = true /\ IS_BIT_SET mask inst = false
  | GDDR_RESET_ERR_TRAINING =>
      IS_BIT_SET (gddr_telemetry_version_ok s') inst = false /\ IS_BIT_SET (bist_complete s') inst = false
  | GDDR_RESET_ERR_BIST => IS_BIT_SET (gddr_telemetry_version_ok s') inst = true
  | GDDR_RESET_ERR_POWERDOWN => power = false /\ (retested inst e \/ forall v, (SoftReset inst, v) ∉ e)
  end.
Definition reset_result (ubb power : bool) (enabled mask inst : Z) s (y : gddr_reset_err * gddr_state) e : Prop :=
  (if selected enabled mask inst then others_kept inst s (snd y) /\ Forall (reset_event inst) e
   else snd y = s /\ e = []) /\
  answer_ok ubb power enabled mask inst (fst y) s (snd y) e.

Lemma message_events op mask e : (op = MRISC_MSG_TYPE_PHY_WAKEUP \/ op = MRISC_MSG_TYPE_PHY_POWERDOWN) ->
  guarded (message_ok op mask) e -> forall inst, Forall (reset_event inst) e.
Proof.
  intros Hop HG inst. apply list.Forall_forall. intros x Hx. apply list_elem_of_split in Hx as (pre & post & E).
  destruct (HG pre x post E) as [|(i & _ & _ & Ex & _)]; [by left|]. right. right. rewrite Ex. auto.
Qed.
Lemma power_setting_tr ubb mask on w :
  tr (set_mrisc_power_setting fuel ubb mask on) w (λ r e,
    (forall inst, Forall (reset_event inst) e) /\ (forall i v, (SoftReset i, v) ∉ e) /\
    (r = 0 -> on = false -> ubb = false -> powered_down mask e) /\ r <= 0).
Proof.
  unfold set_mrisc_power_setting. destruct (negb on && ubb) eqn:Eo.
  { apply tr_ret. split; [done|]. split; [set_solver|]. split; [|lia]. intros _ -> ->. done. }
  eapply tr_mono; [apply mrisc_message_tr|]. intros r e (Hr & HG & HD).
  assert (HF : forall inst, Forall (reset_event inst) e) by (eapply message_events; [|exact HG]; destruct on; auto).
  split; [exact HF|]. split.
  - intros i v Hin. specialize (HF (i + 1)). eapply list.Forall_forall in HF; [|exact Hin].
    destruct HF as [Hf|[[Hf|(k & x & _ & Hf)]|Hf]]; try done. cbn in Hf. lia.
  - split; [|unfold EBUSY, ETIMEDOUT in Hr; lia]. intros Hr0 -> _ i Hi Hm. exact (HD Hr0 i Hi Hm).
Qed.
Lemma reads_reset_events inst e : Forall is_read e -> Forall (reset_event inst) e.
Proof. intros HF. eapply Forall_impl; [|exact HF]. by left. Qed.
Lemma start_reset_events inst e : Forall (λ x, is_read x \/ is_start inst x) e -> Forall (reset_event inst) e.
Proof. intros HF. eapply Forall_impl; [|exact HF]. unfold reset_event. naive_solver. Qed.
Lemma bit_set_lor v i j : 0 <= i -> IS_BIT_SET (Z.lor v (BIT i)) j = IS_BIT_SET v j || (j =? i).
Proof. intros Hi. unfold IS_BIT_SET. by rewrite Z.lor_spec, testbit_BIT. Qed.
Lemma bit_set_ldiff v i j : 0 <= i -> IS_BIT_SET (Z.ldiff v (BIT i)) j = IS_BIT_SET v j && negb (j =? i).
Proof. intros Hi. unfold IS_BIT_SET. by rewrite Z.ldiff_spec, testbit_BIT. Qed.

Lemma others_kept_trans inst s1 s2 s3 : others_kept inst s1 s2 -> others_kept inst s2 s3 -> others_kept inst s1 s3.
Proof.
  intros [T1 H1] [T2 H2]. split; [congruence|]. intros j Hj Hne.
  destruct (H1 j Hj Hne) as (? & ? & ?), (H2 j Hj Hne) as (? & ? & ?). unfold same_bit in *. split_and!; congruence.
Qed.
Lemma others_kept_cleared inst s : 0 <= inst ->
  others_kept inst s (with_bist s (Z.ldiff (bist_complete s) (BIT inst)) (Z.ldiff (bist_failed s) (BIT inst))).
Proof.
  intros Hi. split; [done|]. intros j Hj Hne. unfold same_bit. cbn. rewrite !bit_set_ldiff by done.
  apply Z.eqb_neq in Hne as ->. by rewrite !andb_true_r.
Qed.
Lemma others_kept_trained inst s ok : 0 <= inst -> others_kept inst s (trained_state s inst ok).
Proof.
  intros Hi. split; [done|]. intros j Hj Hne. apply Z.eqb_neq in Hne. unfold same_bit, trained_state. cbn.
  destruct ok; rewrite ?bit_set_lor, ?bit_set_ldiff by done; rewrite Hne; by rewrite andb_true_r, ?orb_false_r.
Qed.
Lemma others_kept_tested inst s ok s' : 0 <= inst -> test_state s inst ok s' -> others_kept inst s s'.
Proof.
  intros Hi (c & -> & Hc). split; [done|]. intros j Hj Hne. apply Z.eqb_neq in Hne. unfold same_bit. cbn.
  assert (IS_BIT_SET c j = IS_BIT_SET (bist_complete s) j).
  { destruct Hc as [-> |[_ ->]]; [|done]. rewrite bit_set_lor, Hne by done. apply orb_false_r. }
  split_and!; [done| |done]. destruct ok; rewrite ?bit_set_lor, ?bit_set_ldiff, Hne by done; by rewrite ?andb_true_r, ?orb_false_r.
Qed.
Lemma retested_app inst e e' : retested inst e -> retested inst (e ++ e').
Proof.
  intros (e0 & v & e1 & -> & Hf & Hp). exists e0, v, (e1 ++ e'). split; [by rewrite <- (assoc app)|]. set_solver.
Qed.

Lemma reset_prefix inst v v0 v1 :
  Forall (reset_event inst) [(SoftReset inst, v); (RegWr inst MRISC_INIT_STATUS MRISC_INIT_BEFORE, v0); (ReleaseReset inst, v1)].
Proof. repeat apply Forall_cons_2; try done; right; right; cbn; auto. Qed.

(** The part after the wakeup: the instance is reset, trained and tested. *)
Section one.
Context (ubb power : bool) (enabled mask inst : Z).
Context (Hsel : selected enabled mask inst = true) (Hinst : 0 <= inst).
Let cleared s := with_bist s (Z.ldiff (bist_complete s) (BIT inst)) (Z.ldiff (bist_failed s) (BIT inst)).

Lemma answer_selected s err s' e :
  others_kept inst s s' -> Forall (reset_event inst) e -> answer_ok ubb power enabled mask inst err s s' e ->
  reset_result ubb power enabled mask inst s (err, s') e.
Proof. intros Ho HF Ha. split; [|exact Ha]. rewrite Hsel. by split. Qed.
Lemma trained_selected s s1 ok : s1 = trained_state (cleared s) inst ok ->
  others_kept inst s s1 /\ IS_BIT_SET (gddr_telemetry_version_ok s1) inst = ok /\
  IS_BIT_SET (bist_complete s1) inst = false.
Proof.
  intros ->. split; [|split].
  - eapply others_kept_trans; [by apply others_kept_cleared | by apply others_kept_trained].
  - unfold trained_state. destruct ok; cbn; rewrite ?bit_set_lor, ?bit_set_ldiff, Z.eqb_refl by done; cbn.
    + by rewrite orb_true_r.
    + by rewrite andb_false_r.
  - cbn. rewrite bit_set_ldiff, Z.eqb_refl by done. apply andb_false_r.
Qed.
(** The end: the PHYs are powered down again if they were, after the requests [E]. *)
Lemma repower_tr s s2 E w :
  others_kept inst s s2 -> Forall (reset_event inst) E -> retested inst E ->
  IS_BIT_SET (bist_complete s2) inst = true -> IS_BIT_SET (bist_failed s2) inst = false ->
  IS_BIT_SET (gddr_telemetry_version_ok s2) inst = true ->
  tr (rc ← (if negb power then set_mrisc_power_setting fuel ubb mask false else mret 0 : Dev W Z);
      mret (if rc <? 0 then GDDR_RESET_ERR_POWERDOWN else GDDR_RESET_OK, s2)) w
     (λ y e, reset_result ubb power enabled mask inst s y (E ++ e)).
Proof.
  intros Ho HE Hre Hc Hf Hv. destruct power eqn:Ep; cbn [negb].
  { tr_step. apply tr_ret. rewrite app_nil_r. rewrite <- Ep. apply answer_selected; [done|done|].
    split_and!; try done. intros ?. congruence. }
  eapply tr_bind; [apply power_setting_tr|]. intros r e w1 (HF & _ & Hd & Hr) _. apply tr_ret. rewrite app_nil_r, <- Ep.
  assert (Forall (reset_event inst) (E ++ e)) by by apply list.Forall_app.
  destruct (Z.ltb_spec r 0); (apply answer_selected; [done|done|]).
  - split; [done|]. left. by apply retested_app.
  - split; [by apply retested_app|]. split_and!; try done. intros _ Hu. exists E, e. split; [done|]. split; [done|].
    apply Hd; [lia | done | done].
Qed.
Lemma retest_tr s E s1 w :
  s1 = trained_state (cleared s) inst true -> Forall (reset_event inst) E ->
  (exists e0 v e1, E = e0 ++ (SoftReset inst, v) :: e1 /\ finished_read inst ∈ e1) ->
  tr (rc ← StartHwMemtest inst 26 0 0;
      if rc <? 0 then mret (GDDR_RESET_ERR_BIST, s1)
      else
        timeout ← sys_timepoint_calc MRISC_MEMTEST_TIMEOUT;
        '(rc, s) ← CheckHwMemtestResult fuel s1 inst timeout;
        if rc <? 0 then mret (GDDR_RESET_ERR_BIST, s)
        else
          rc ← (if negb power then set_mrisc_power_setting fuel ubb mask false else mret 0 : Dev W Z);
          mret (if rc <? 0 then GDDR_RESET_ERR_POWERDOWN else GDDR_RESET_OK, s)) w
     (λ y e, reset_result ubb power enabled mask inst s y (E ++ e)).
Proof.
  intros Hs1 HE (e0 & v & e1 & HEq & Hfin). destruct (trained_selected s s1 true Hs1) as (Ho1 & Hv1 & Hc1).
  eapply tr_bind; [apply StartHwMemtest_tr|]. intros r es w1 Hst _.
  assert (HFs : Forall (reset_event inst) (E ++ es)).
  { apply list.Forall_app. split; [done|].
    destruct Hst as [[_ HF]|(_ & _ & HF & _)]; [by apply reads_reset_events | by apply start_reset_events]. }
  tr_step; [apply tr_ret; rewrite app_nil_r; by apply answer_selected|]. tr_step. tr_step.
  eapply tr_bind; [apply CheckHwMemtestResult_tr; lia|]. intros [r2 s2] ec w2 [HFc Hc] _.
  assert (Ho2 : others_kept inst s s2).
  { eapply others_kept_trans; [exact Ho1|]. destruct Hc as [(_ & _ & Ht)|[_ Ht]]; by eapply others_kept_tested. }
  set (E' := E ++ es ++ (Calc MRISC_MEMTEST_TIMEOUT, t) :: ec).
  assert (HE' : Forall (reset_event inst) E').
  { unfold E'. rewrite (assoc app). apply list.Forall_app. split; [done|]. apply Forall_cons_2; [by left|]. by apply reads_reset_events. }
  apply (tr_mono _ _ (λ y e, reset_result ubb power enabled mask inst s y (E' ++ e))).
  2: { intros y e. unfold E'. by rewrite <- !(assoc app). }
  destruct Hc as [(-> & Hp & c & -> & Hcc)|[Hr (c & -> & _)]].
  - change (0 <? 0) with false. cbv iota. apply repower_tr; try done.
    + exists e0, v, (e1 ++ es ++ (Calc MRISC_MEMTEST_TIMEOUT, t) :: ec).
      unfold E'. rewrite HEq, <- (assoc app). split; [done|]. split; set_solver.
    + cbn. destruct Hcc as [-> |[? _]]; [|done]. rewrite bit_set_lor, Z.eqb_refl by done. apply orb_true_r.
    + cbn. rewrite bit_set_ldiff, Z.eqb_refl by done. apply andb_false_r.
  - tr_step; [|unfold ETIMEDOUT, EIO in Hr; zlia]. apply tr_ret. rewrite app_nil_r. by apply answer_selected.
Qed.
Lemma toggle_tr s w :
  tr (toggle_gddr_reset fuel ubb power enabled mask inst s) w (reset_result ubb power enabled mask inst s).
Proof.
  pose proof Hsel as Hs. unfold selected in Hs. rewrite !andb_true_iff in Hs. destruct Hs as [[H8 Hen] Hma].
  unfold toggle_gddr_reset. change (Z.of_nat NUM_GDDR) with 8. rewrite Hen, Hma. cbn [negb].
  destruct (Z.leb_spec 8 inst); [zlia|]. fold (cleared s).
  assert (Hc : others_kept inst s (cleared s)) by by apply others_kept_cleared.
  eapply (tr_bind _ _ _ (λ r e, Forall (reset_event inst) e /\ (forall v, (SoftReset inst, v) ∉ e) /\
                               (power = true -> r = 0))).
  { destruct power; cbn [negb]; [apply tr_ret; set_solver|].
    eapply tr_mono; [apply power_setting_tr|]. intros r e (HP1 & HP2 & _). by split_and!. }
  intros rc ew w1 (HFw & Hnr & Hpw) _. tr_step.
  { apply tr_ret. rewrite app_nil_r. apply answer_selected; [done|done|]. split; [|by right].
    destruct power; [|done]. specialize (Hpw eq_refl). zlia. }
  repeat tr_step. eapply tr_bind; [apply CheckGddrTraining_tr; lia|].
  intros [r1 s1] et w2 [HFt Ht] _. cbn [app].
  set (er := [(SoftReset inst, v); (RegWr inst MRISC_INIT_STATUS MRISC_INIT_BEFORE, v0); (ReleaseReset inst, v1)]
             ++ (Calc MRISC_INIT_TIMEOUT, t) :: et).
  assert (HR1 : Forall (reset_event inst) (ew ++ er)).
  { apply list.Forall_app. split; [done|]. apply list.Forall_app. split; [apply reset_prefix|].
    apply Forall_cons_2; [by left|]. by apply reads_reset_events. }
  apply (tr_mono _ _ (λ y e, reset_result ubb power enabled mask inst s y ((ew ++ er) ++ e))).
  2: { intros y e. unfold er. by rewrite <- !(assoc app). }
  destruct Ht as [(-> & Hfin & Hs1)|[Hr Hs1]].
  - change (0 <? 0) with false. cbv iota. apply retest_tr; [done|done|]. exists ew, v.
    eexists. split; [reflexivity|]. set_solver.
  - destruct (trained_selected s s1 false Hs1) as (Ho1 & Hv1 & Hc1).
    tr_step; [|unfold ETIMEDOUT, EIO, ENOTSUP in Hr; zlia]. apply tr_ret. rewrite app_nil_r. by apply answer_selected.
Qed.
End one.
Lemma toggle_gddr_reset_tr ubb power enabled mask inst s w : 0 <= inst ->
  tr (toggle_gddr_reset fuel ubb power enabled mask inst s) w (reset_result ubb power enabled mask inst s).
Proof.
  intros Hi. destruct (selected enabled mask inst) eqn:Hs; [by apply toggle_tr|].
  unfold toggle_gddr_reset. change (Z.of_nat NUM_GDDR) with 8. unfold reset_result. rewrite Hs. unfold selected in Hs.
  destruct (Z.leb_spec 8 inst); [by apply tr_ret|].
  assert (inst <? 8 = true) as Hlt by zlia. rewrite Hlt in Hs. cbn [andb] in Hs.
  destruct (IS_BIT_SET enabled inst) eqn:He; cbn [negb andb] in *; [|by apply tr_ret].
  rewrite Hs. cbn [negb]. by apply tr_ret.
Qed.

(** ** Loading and starting the MRISCs *)
Definition set_mono (G : list event -> event -> Prop) : Prop :=
  forall pre pre' x, pre ⊆ pre' -> G pre x -> G pre' x.
Lemma guarded_under G e1 e2 : set_mono G -> guarded G e2 -> guarded (λ pre, G (e1 ++ pre)) e2.
Proof. intros HG H2 pre x post E. eapply HG; [|by eapply H2]. set_solver. Qed.
Lemma guarded_prefix G e0 e1 e2 : set_mono G ->
  guarded (λ pre, G (e0 ++ pre)) e1 -> guarded (λ pre, G (e0 ++ pre)) e2 -> guarded (λ pre, G (e0 ++ pre)) (e1 ++ e2).
Proof.
  intros HG H1 H2. apply guarded_app; [done|]. intros pre x post E. eapply HG; [|by eapply H2]. set_solver.
Qed.
(** A loop over instances or ports: [D] is what each round achieves. *)
Lemma for_each_tr (G : list event -> event -> Prop) (R : Z -> Prop) (D : Z -> list event -> Prop) e0
    (l : list Z) (body : Z -> Dev W Z) w :
  set_mono G -> R 0 -> (forall i e e', e ⊆ e' -> D i e -> D i e') ->
  (forall i w, i ∈ l -> tr (body i) w (λ r e, guarded (λ pre, G (e0 ++ pre)) e /\ R r /\ (r = 0 -> D i e))) ->
  tr (for_each l body) w (λ r e, guarded (λ pre, G (e0 ++ pre)) e /\ R r /\ (r = 0 -> forall i, i ∈ l -> D i e)).
Proof.
  intros HG HR HD. revert w. induction l as [|i l IH]; intros w Hb; cbn [for_each].
  { apply tr_ret. split; [apply guarded_nil|]. split; [done|]. set_solver. }
  eapply tr_bind; [apply Hb; by left|]. intros r e w1 (H1 & H2 & H3) _. destruct (Z.eqb_spec r 0) as [->|]; cbn [negb].
  - eapply tr_mono; [apply IH; intros; apply Hb; by right|]. intros r' e' (H4 & H5 & H6).
    split; [by apply guarded_prefix|]. split; [done|].
    intros Hr j [->|Hj]%elem_of_cons; [eapply HD; [|by apply H3] | eapply HD; [|by apply H6]]; set_solver.
  - apply tr_ret. rewrite app_nil_r. done.
Qed.

Definition seeded s (i : Z) e : Prop :=
  exists x v1 v2, asic_entry s i = Some x /\ valid x <> 0 /\
    (L1Wr i (param p_ca_vrefc_offset) (ca_vrefc_offset x), v1) ∈ e /\
    (L1Wr i (param p_ca_termination_offset) (ca_termination_offset x), v2) ∈ e.
(** A port is opened after it was wiped; an MRISC starts after its firmware, its
    parameters and its clock are in place; the settings are announced as valid only if the
    loaded table already says so, or after a valid entry of the calibration table was copied. *)
Definition boot_order (mask : Z) s (pre : list event) (x : event) : Prop :=
  match fst x with
  | AxiEnable i p => IS_BIT_SET mask i = true -> exists v, (WipeL1 i p, v) ∈ pre
  | ReleaseReset i =>
      IS_BIT_SET mask i = true /\ (exists a n, (LoadL1 i a n 0, 0) ∈ pre) /\
      (exists a n, (LoadL1 i a n MRISC_FW_CFG_OFFSET, 0) ∈ pre) /\
      (exists v, (RegWr i MRISC_INIT_STATUS MRISC_INIT_BEFORE, v) ∈ pre) /\
      (exists rate, (SetMemClk rate, 0) ∈ pre /\ 750 <= rate <= 1250)
  | L1Wr i a f =>
      a = param p_feature_bits -> Z.testbit f 3 = true ->
      (exists f0, (L1Rd i a, f0) ∈ pre /\ Z.testbit f0 3 = true) \/ seeded s i pre
  | _ => True
  end.
Lemma boot_order_mono mask s : set_mono (boot_order mask s).
Proof.
  intros pre pre' [r v] Hs. unfold boot_order, seeded. destruct r; cbn; try done; set_solver.
Qed.
(** ... whatever the state is then. *)
Definition order_any (mask : Z) (pre : list event) (x : event) : Prop := forall s, boot_order mask s pre x.
Lemma order_any_mono mask : set_mono (order_any mask).
Proof. intros pre pre' x Hs Hx s. by eapply boot_order_mono. Qed.
Lemma wipe_l1_tr mask w :
  tr (wipe_l1 mask) w (λ r e, guarded (order_any mask) e /\
    forall i, i ∈ instances -> IS_BIT_SET mask i = true -> forall p, p ∈ ports -> exists v, (WipeL1 i p, v) ∈ e).
Proof.
  unfold wipe_l1. eapply tr_mono.
  - apply (for_each_tr (order_any mask) (λ r, r = 0)
      (λ i e, IS_BIT_SET mask i = true -> forall p, p ∈ ports -> exists v, (WipeL1 i p, v) ∈ e) [] instances);
      [apply order_any_mono | done | set_solver |].
    intros i w1 _. cbn [app]. destruct (IS_BIT_SET mask i) eqn:Hm; [|by apply tr_ret; split; [apply guarded_nil|]].
    eapply tr_mono; [apply (for_each_tr (order_any mask) (λ r, r = 0) (λ p e, exists v, (WipeL1 i p, v) ∈ e) [] ports);
      [apply order_any_mono | done | set_solver |]|].
    + intros p w2 _. repeat tr_step. split; [by apply guarded_cons; [|apply guarded_nil]|]. split; [done|].
      intros _. eexists. by left.
    + intros r e (H1 & -> & H3). auto.
  - intros r e (H1 & -> & H3). auto.
Qed.
Lemma SetAxiEnable_all_tr mask e0 w :
  (forall i, i ∈ instances -> IS_BIT_SET mask i = true -> forall p, p ∈ ports -> exists v, (WipeL1 i p, v) ∈ e0) ->
  tr SetAxiEnable_all w (λ r e, guarded (λ pre, order_any mask (e0 ++ pre)) e).
Proof.
  intros He0. unfold SetAxiEnable_all. eapply tr_mono.
  - apply (for_each_tr (order_any mask) (λ r, r = 0) (λ _ _, True) e0 instances); [apply order_any_mono | done | done |].
    intros i w1 Hi. eapply tr_mono; [apply (for_each_tr (order_any mask) (λ r, r = 0) (λ _ _, True) e0 ports);
      [apply order_any_mono | done | done |]|].
    + intros p w2 Hp. repeat tr_step. split; [|done]. apply guarded_cons; [|apply guarded_nil]. intros s Hm.
      rewrite app_nil_r. by apply He0.
    + intros r e (H1 & -> & H3). auto.
  - intros r e (H1 & _). exact H1.
Qed.
Lemma feature_bit f m : Z.testbit m 3 = false -> Z.testbit (Z.lor f m) 3 = Z.testbit f 3.
Proof. intros Hm. by rewrite Z.lor_spec, Hm, orb_false_r. Qed.
Definition ca_enables : Z := Z.lor GDDR_FEATURE_ENABLE_CA_MARGIN_CHECK GDDR_FEATURE_ENABLE_CA_SWEEP_FALLBACK.
(** Requests on which [boot_order] says nothing. *)
Definition unordered (x : event) : bool :=
  match fst x with
  | AxiEnable _ _ | ReleaseReset _ => false
  | L1Wr _ a _ => negb (a =? param p_feature_bits)
  | _ => true
  end.
Lemma unordered_ok mask s pre x : unordered x = true -> boot_order mask s pre x.
Proof.
  unfold unordered, boot_order. destruct (fst x); try done. intros Hu ->. by rewrite Z.eqb_refl in Hu.
Qed.
(** The requests [e], after [e0], come in the right order. *)
Definition ordered (mask : Z) s e0 e : Prop := guarded (λ pre, boot_order mask s (e0 ++ pre)) e.
Lemma ordered_app mask s e0 e1 e2 : ordered mask s e0 e1 -> ordered mask s (e0 ++ e1) e2 -> ordered mask s e0 (e1 ++ e2).
Proof.
  intros H1 H2. apply guarded_app; [done|]. intros pre x post E. rewrite (assoc app). by eapply H2.
Qed.
Lemma ordered_free mask s e0 e : Forall (λ x, unordered x = true) e -> ordered mask s e0 e.
Proof. intros HF pre x post ->. apply unordered_ok. by apply list.Forall_app in HF as [_ [? _]%list.Forall_cons]. Qed.
Lemma ordered_snoc mask s e0 e x : ordered mask s e0 e -> boot_order mask s (e0 ++ e) x -> ordered mask s e0 (e ++ [x]).
Proof.
  intros He Hx. apply ordered_app; [done|]. apply guarded_cons; [by rewrite app_nil_r | apply guarded_nil].
Qed.
Lemma ordered_under mask s e0 e : ordered mask s [] e -> ordered mask s e0 e.
Proof. intros He pre x post E. eapply boot_order_mono; [|by eapply He]. set_solver. Qed.

Lemma seed_ca_tr mask s i e0 w : tr (seed_ca s i) w (λ _ e, ordered mask s e0 e).
Proof.
  unfold seed_ca. tr_step. tr_step. fold ca_enables.
  assert (Hplain : forall w1, tr (MriscL1Write32 i (param p_feature_bits) (Z.lor v ca_enables)) w1
            (λ _ e, ordered mask s e0 ((L1Rd i (param p_feature_bits), v) :: e))).
  { intros w1. unfold MriscL1Write32. repeat tr_step.
    apply (ordered_snoc mask s e0 [_]); [apply ordered_free; by repeat constructor|]. cbn [fst boot_order]. intros _ Hf.
    rewrite feature_bit in Hf by done. left. exists v. set_solver. }
  destruct (asic_entry s i) as [x|] eqn:Ex; [|apply Hplain].
  destruct (negb (valid x =? 0)) eqn:Hv; [|apply Hplain]. repeat tr_step.
  destruct (8 <=? _); repeat tr_step; unfold MriscL1Write32; repeat tr_step.
  - apply (ordered_snoc mask s e0 [_; _; _; _; _]); [apply ordered_free; by repeat constructor|]. cbn [fst boot_order]. intros _ _. right.
    exists x, v0, v1. split; [done|]. split; [zlia|]. split; set_solver.
  - apply (ordered_snoc mask s e0 [_; _; _; _]); [apply ordered_free; by repeat constructor|]. cbn [fst boot_order]. intros _ _. right.
    exists x, v0, v1. split; [done|]. split; [zlia|]. split; set_solver.
Qed.
Lemma LoadMriscFwCfg_tr mask s i a n e0 w :
  tr (LoadMriscFwCfg s i a n) w (λ r e, ordered mask s e0 e /\
    (r = 0 -> (LoadL1 i a n MRISC_FW_CFG_OFFSET, 0) ∈ e)).
Proof.
  unfold LoadMriscFwCfg. tr_step. tr_step; [|apply tr_ret; split; [apply ordered_free; by repeat constructor | zlia]].
  tr_step. tr_step. eapply (tr_bind _ _ _ (λ _ e, Forall (λ x, unordered x = true) e)).
  { destruct (6 <=? v0); unfold MriscL1Write32; repeat tr_step; by repeat constructor. }
  intros [] e1 w1 HF1 _. repeat tr_step.
  eapply (tr_bind _ _ _ (λ _ e, ordered mask s (e0 ++ (LoadL1 i a n MRISC_FW_CFG_OFFSET, v) ::
                (L1Rd i (param p_version), v0) :: e1 ++ [(L1Rd i (param p_version), v1)]) e)).
  { destruct (7 <=? v1); [apply seed_ca_tr | apply tr_ret, guarded_nil]. }
  intros [] e2 w2 HO2 _. apply tr_ret. rewrite app_nil_r. split; [|intros ->; by left].
  rewrite (app_assoc e1 [_] e2 : e1 ++ (_ :: e2) = _).
  apply (ordered_app mask s e0 (_ :: _ :: e1 ++ [_])); [|exact HO2]. apply ordered_free.
  do 2 (apply Forall_cons_2; [done|]). apply list.Forall_app. split; [done|]. by repeat constructor.
Qed.
Lemma load_cal_tr loc s w : tr (load_cal loc s) w (λ _ e, e = []).
Proof.
  unfold load_cal. destruct (GddrCalAsicIndex loc) as [row|]; [|by apply tr_ret].
  eapply (tr_bind _ _ _ (λ _ e, e = [])).
  - eapply (wp_mono (gddr_cal_read _)); [apply cal_read_law|]. intros x w' Ha. by exists [].
  - intros [rc t] e w1 -> _. by apply tr_ret.
Qed.
Definition released (mask i : Z) e : Prop := IS_BIT_SET mask i = true -> exists v, (ReleaseReset i, v) ∈ e.
Definition loaded_fw (mask i : Z) e : Prop := IS_BIT_SET mask i = true -> exists a n, (LoadL1 i a n 0, 0) ∈ e.
Definition clocked e : Prop := exists rate, (SetMemClk rate, 0) ∈ e /\ 750 <= rate <= 1250.
Lemma start_mrisc_tr mask s a n i e0 w : loaded_fw mask i e0 -> clocked e0 ->
  tr (start_mrisc s mask a n i) w (λ r e, ordered mask s e0 e /\ True /\ (r = 0 -> released mask i e)).
Proof.
  intros Hfw Hck. unfold start_mrisc. destruct (IS_BIT_SET mask i) eqn:Hm.
  2: { apply tr_ret. split; [apply guarded_nil|]. split; [done|]. intros _ ?. congruence. }
  eapply tr_bind; [apply (LoadMriscFwCfg_tr mask s i a n e0)|]. intros r e1 w1 [Ho Hl] _.
  destruct (Z.eqb_spec r 0) as [->|]; cbn [negb]; [|apply tr_ret; rewrite app_nil_r; by split_and!].
  specialize (Hl eq_refl). repeat tr_step. split; [|split; [done|]].
  - apply ordered_app; [done|]. apply (ordered_snoc mask s (e0 ++ e1) [_]); [apply ordered_free; by repeat constructor|].
    cbn [fst boot_order]. destruct (Hfw Hm) as (a' & n' & Hfw'). destruct Hck as (rate & Hck & Hrate). split_and!; [done| | | |].
    + exists a', n'. set_solver.
    + exists a, n. set_solver.
    + exists v. set_solver.
    + exists rate. set_solver.
  - intros _ _. exists v0. set_solver.
Qed.
Lemma gddr_speed_range v : 12000 <= gddr_speed_of v <= 20000.
Proof. unfold gddr_speed_of, MIN_GDDR_SPEED, MAX_GDDR_SPEED. case_match; zlia. Qed.

Definition init_result (mask : Z) (y : Z * bool * gddr_state) e : Prop :=
  let '(ret, failed, s') := y in
  ordered mask s' [] e /\ (failed = false -> ret = 0 /\ forall i, 0 <= i < 8 -> released mask i e) /\
  (failed = true -> ret < 0).
(** Ending with a failure, after requests in the right order. *)
Lemma init_fails mask ret s e : ret < 0 -> ordered mask s [] e -> init_result mask (ret, true, s) e.
Proof. intros Hr Ho. by split_and!. Qed.
Lemma load_all_tr mask a n e0 w :
  tr (for_each instances (λ i, if IS_BIT_SET mask i then LoadMriscFw i a n else mret 0)) w
     (λ r e, Forall (λ x, unordered x = true) e /\ (r = 0 -> forall i, i ∈ instances -> loaded_fw mask i (e0 ++ e))).
Proof.
  eapply tr_mono; [apply (for_each_tr (λ _ x, unordered x = true) (λ _, True) (loaded_fw mask) [] instances);
    [by intros pre pre' x _ | done | unfold loaded_fw; set_solver |]|].
  - intros i w1 _. unfold LoadMriscFw, loaded_fw. tr_step.
    + eapply tr_mono; [apply tr_req|]. intros v e ->. split; [by apply guarded_cons; [|apply guarded_nil]|].
      split; [done|]. intros -> _. exists a, n. by left.
    + apply tr_ret. split; [apply guarded_nil|]. split; [done|]. done.
  - intros r e (HG & _ & HD). split.
    + apply list.Forall_forall. intros x (pre & post & E)%list_elem_of_split. exact (HG pre x post E).
    + intros Hr i Hi Hm. destruct (HD Hr i Hi Hm) as (a' & n' & Hin). exists a', n'. set_solver.
Qed.

Lemma start_all_tr mask s e0 w :
  ordered mask s [] e0 -> (forall i, i ∈ instances -> loaded_fw mask i e0) ->
  tr (start_all s mask) w (λ y e, init_result mask y (e0 ++ e)).
Proof.
  intros He0 Hfw. unfold start_all.
  assert (Hfail : forall r e, r < 0 -> Forall (λ x, unordered x = true) e -> init_result mask (r, true, s) (e0 ++ e)).
  { intros r e Hr HF. apply init_fails; [done|]. apply ordered_app; [done | by apply ordered_free]. }
  repeat tr_step; try (apply Hfail; [zlia || done | by repeat constructor]).
  apply negb_false_iff, Z.eqb_eq in Heqb1 as ->.
  match goal with |- tr _ _ (λ _ e, init_result _ _ (_ ++ ?a :: ?b :: ?c :: ?d :: ?x :: ?y :: e)) => set (pre := [a; b; c; d; x; y]) end.
  assert (Hpre : ordered mask s [] (e0 ++ pre)) by (apply ordered_app; [done|]; apply ordered_free; by repeat constructor).
  apply (tr_mono _ _ (λ y e, init_result mask y ((e0 ++ pre) ++ e))); [|intros y e; by rewrite <- (assoc app)].
  eapply tr_bind.
  - apply (for_each_tr (boot_order mask s) (λ _, True) (released mask) (e0 ++ pre) instances);
      [apply boot_order_mono | done | unfold released; set_solver |].
    intros i w1 Hi. apply start_mrisc_tr.
    + intros Hm. destruct (Hfw i Hi Hm) as (a & n & Hin). exists a, n. set_solver.
    + exists (gddr_speed_of v3 / GDDR_SPEED_TO_MEMCLK_RATIO). split; [subst pre; set_solver|]. pose proof (gddr_speed_range v3). unfold GDDR_SPEED_TO_MEMCLK_RATIO.
      split; [apply Z.div_le_lower_bound; lia | apply Z.div_le_upper_bound; lia].
  - intros r e w1 (HO & _ & HR) _. destruct (Z.eqb_spec r 0) as [->|]; cbn [negb]; apply tr_ret; rewrite app_nil_r.
    + split; [by apply ordered_app|]. split; [|done]. intros _. split; [done|]. intros i Hi Hm.
      destruct (HR eq_refl i (elem_of_instances i Hi) Hm) as [v' Hin]. exists v'. set_solver.
    + apply init_fails; [done|]. by apply ordered_app.
Qed.
Lemma InitMrisc_tr mask loc s w : tr (InitMrisc false mask loc s) w (init_result mask).
Proof.
  unfold InitMrisc. eapply tr_bind; [apply wipe_l1_tr|]. intros r1 e1 w1 [H1 Hw] _.
  eapply tr_bind; [by apply (SetAxiEnable_all_tr mask e1)|]. intros r2 e2 w2 H2 _.
  assert (Hany : forall s', ordered mask s' [] (e1 ++ e2)).
  { intros s'. apply ordered_app; [intros pre x post E; by apply (H1 pre x post) | intros pre x post E; by apply (H2 pre x post)]. }
  tr_step. tr_step.
  { apply tr_ret. apply init_fails; [zlia|]. rewrite (assoc app). apply ordered_app; [apply Hany|].
    apply ordered_free. by repeat constructor. }
  tr_step. tr_step. set (fd := [(FindFd false, v); (FdSize, v0); (FdAddr, v1)]).
  apply (tr_mono _ _ (λ y e, init_result mask y (((e1 ++ e2) ++ fd) ++ e))); [|intros y e; by rewrite <- !(assoc app)].
  eapply tr_bind; [apply (load_all_tr mask v1 v0 ((e1 ++ e2) ++ fd))|]. intros r e3 w3 [HF3 HD3] _.
  assert (Hany3 : forall s', ordered mask s' [] (((e1 ++ e2) ++ fd) ++ e3)).
  { intros s'. rewrite <- (assoc app). apply ordered_app; [apply Hany|]. apply ordered_free, list.Forall_app.
    split; [by repeat constructor | done]. }
  destruct (Z.eqb_spec r 0) as [->|]; cbn [negb]; [|apply tr_ret; rewrite app_nil_r; by apply init_fails].
  eapply tr_bind; [apply load_cal_tr|]. intros s' e4 w4 -> _. cbn [app].
  eapply tr_mono; [apply (start_all_tr mask s' (((e1 ++ e2) ++ fd) ++ e3)); auto|].
  intros y e Hy. rewrite (app_assoc _ e3 e). exact Hy.
Qed.
End specs.

(** * A machine that follows a script

    [answer h r]: the answer to [r] after the requests [h]. A poll takes a unit of time. *)
Definition budget : nat := 50.
Section script.
Context (answer : list event -> mreq -> Z).
Definition script_answer (h : list event) (r : mreq) : Z :=
  match r with
  | Calc _ => Z.of_nat (length h + budget)
  | Expired t => if t <=? Z.of_nat (length h) then 1 else 0
  | _ => answer h r
  end.
Definition script : Mrisc (list event) :=
  {| req r h := Some (script_answer h r, h ++ [(r, script_answer h r)]);
     gddr_cal_read t h := Some ((0, t), h) |}.
#[local] Existing Instance script.
Program Definition script_laws : @MriscLaws (list event) script :=
  {| trace h := h; remaining t h := (Z.to_nat t - length h)%nat; horizon := S budget |}.
Next Obligation.
  intros r h. exists (script_answer h r), (h ++ [(r, script_answer h r)]). split; [done|].
  split; [split; [done|]; intros t; rewrite length_app; lia|]. rewrite length_app. destruct r; try done; cbn [script_answer].
  - cbn [length]. lia.
  - destruct (Z.leb_spec t (Z.of_nat (length h))); [done|]. intros _. cbn [length]. lia.
Qed.
Next Obligation. intros t h. exists (0, t), h. split; [done|]. split; [by rewrite app_nil_r | lia]. Qed.
End script.
(** MRISCs that train, pass their tests and report new settings. *)
Definition healthy (h : list event) (r : mreq) : Z :=
  match r with
  | RegRd _ a => if a =? MRISC_INIT_STATUS then MRISC_INIT_FINISHED else 0
  | L1Rd _ a => if a =? GDDR_TELEMETRY_TABLE_ADDR + off_version then 3
                else if a =? GDDR_TELEMETRY_TABLE_ADDR + off_ca then 0x01000203
                else if a =? GDDR_TELEMETRY_TABLE_ADDR + off_ocd then 5
                else if a =? param p_version then 8 else 0
  | Buf 0 => 3
  | Buf 1 => 16000
  | Buf 3 => 0x00070002
  | _ => 0
  end.
(** The same with a firmware that cannot run the memory test. *)
Definition old_firmware (h : list event) (r : mreq) : Z :=
  match r with Buf 3 => 0x00060002 | _ => healthy h r end.
(** Instance 2 does not train. *)
Definition untrained (h : list event) (r : mreq) : Z :=
  match r with
  | RegRd 2 a => if a =? MRISC_INIT_STATUS then MRISC_INIT_FAILED else 0
  | _ => healthy h r
  end.
(** Instance 1 never takes a message. *)
Definition one_busy (h : list event) (r : mreq) : Z :=
  match r with
  | RegRd 1 a => if a =? MRISC_MSG_REGISTER then 7 else healthy h r
  | _ => healthy h r
  end.
Definition no_entry : gddr_cal_entry_t :=
  {| ca_vrefc_offset := 0; ca_termination_offset := 0; ca_ocd_pulldown_offset := 0; valid := 0 |}.
Definition gddr0 : gddr_state :=
  {| bist_complete := 0; bist_failed := 0; gddr_telemetry_version_ok := 0;
     gddr_cal_table := replicate 8 (replicate 8 no_entry); gddr_asic_cal := Some 1%nat |}.
Lemma gddr0_wf : cal_wf gddr0.
Proof. split; [split; [done|]; by repeat constructor|]. intros row [= <-]. lia. Qed.

(** * Properties *)
Section properties.
Context {W : Type} `{MriscLaws W} (fuel : nat).

(** C5. The boot's training always ends. Either it reports a failure, or every selected instance has
    trained and every memory test that was started was followed by its pass. The calibration table goes
    to flash only in the second case. Of its entries, those that this boot changed are entries of selected
    instances in the row of this chip, in range, and hold what the instance itself reported, which has
    trained; all others are as they were loaded (the code does not check them again). *)
Theorem gddr_training_persists (mask : Z) (s : gddr_state) (w : W) :
  (horizon <= fuel)%nat -> cal_wf s ->
  tr (gddr_training fuel false mask s) w (boot_result mask s).
Proof. intros Hf Hwf. by apply gddr_training_tr. Qed.


(** What each answer of the reset message means; the other instances' results and the
    calibration table are untouched; a request for an instance that is out of range, harvested
    or masked does nothing. *)
Theorem toggle_gddr_reset_answers (is_ubb mrisc_power : bool) (enabled mask inst : Z) (s : gddr_state) (w : W) :
  (horizon <= fuel)%nat -> 0 <= inst ->
  tr (toggle_gddr_reset fuel is_ubb mrisc_power enabled mask inst s) w
     (reset_result is_ubb mrisc_power enabled mask inst s).
Proof. intros Hf Hi. by apply toggle_gddr_reset_tr. Qed.

(** A power message is written only to selected instances just seen idle, and 0 means
    that each of them has taken it. *)
Theorem mrisc_message_spec (op mask ms : Z) (w : W) :
  (horizon <= fuel)%nat -> tr (mrisc_message fuel op mask ms) w (message_done op mask).
Proof. intros Hf. by apply mrisc_message_tr. Qed.
End properties.

Lemma gddr_training_persists_witness :
  @tr _ _ (script_laws healthy) _ (@gddr_training _ (script healthy) 60 false 0xFE gddr0) [] (boot_result 0xFE gddr0).
Proof. apply (@gddr_training_persists _ _ (script_laws healthy) 60); [apply Nat.leb_le; reflexivity | exact gddr0_wf]. Defined.
Lemma toggle_gddr_reset_answers_witness :
  @tr _ _ (script_laws healthy) _ (@toggle_gddr_reset _ (script healthy) 60 false false 0xFF 0xFE 3 gddr0) []
    (reset_result false false 0xFF 0xFE 3 gddr0).
Proof. apply (@toggle_gddr_reset_answers _ _ (script_laws healthy) 60); [apply Nat.leb_le; reflexivity | lia]. Defined.
Lemma mrisc_message_spec_witness :
  @tr _ _ (script_laws healthy) _ (@mrisc_message _ (script healthy) 60 1 0xFE 1000) [] (message_done 1 0xFE).
Proof. apply (@mrisc_message_spec _ _ (script_laws healthy) 60). apply Nat.leb_le; reflexivity. Defined.

(** * Runs *)
Definition outcome {A} (r : option (A * list event)) : option A := match r with Some (x, _) => Some x | None => None end.
Definition requests {A} (r : option (A * list event)) : list event := match r with Some (_, e) => e | None => [] end.
Definition wrote (op inst : Z) (e : list event) : bool :=
  existsb (λ x, match fst x with
                | RegWr i a v => (i =? inst) && (a =? MRISC_MSG_REGISTER) && (v =? op)
                | _ => false end) e.
Definition wrote_l1 (inst addr v : Z) (e : list event) : bool :=
  existsb (λ x, match fst x with L1Wr i a v' => (i =? inst) && (a =? addr) && (v' =? v) | _ => false end) e.
(** A healthy boot persists what instance 3 reported, and the next boot hands it back. *)
Example healthy_boot :
  match outcome (@gddr_training _ (script healthy) 60 false 0xFE gddr0 []) with
  | Some (ret, failed, Some t, s) =>
      ret = 0 /\ failed = false /\ cell t 1 3 = Some (reported_entry 0x01000203 5) /\ cell t 1 0 = Some no_entry /\
      let e := requests (@InitMrisc _ (script healthy) false 0xFE 1 s []) in
      wrote_l1 3 (param p_ca_vrefc_offset) 3 e && wrote_l1 3 (param p_ca_ocd_pulldown_offset) 5 e = true
  | _ => False
  end.
Proof. vm_compute. auto 6. Qed.
(** A firmware too old for the memory test passes the boot, as a comment there says it should,
    but the reset message reports a failed memory test for it. *)
Theorem old_firmware_reset_fails :
  outcome (@gddr_training _ (script old_firmware) 60 false 0xFE gddr0 []) <> None /\
  match outcome (@gddr_training _ (script old_firmware) 60 false 0xFE gddr0 []) with
  | Some (ret, failed, _, _) => ret = 0 /\ failed = false
  | None => False
  end /\
  match outcome (@toggle_gddr_reset _ (script old_firmware) 60 false true 0xFF 0xFE 3 gddr0 []) with
  | Some (err, _) => err = GDDR_RESET_ERR_BIST
  | None => False
  end.
Proof. vm_compute. split; [discriminate | auto]. Qed.
(** When the reset of an instance fails while the PHYs are powered down, all PHYs have been
    woken up for it and stay up, while the power state still says that they are down. *)
Theorem failed_reset_leaves_phys_up :
  match @toggle_gddr_reset _ (script untrained) 60 false false 0xFF 0xFF 2 gddr0 [] with
  | Some (err, _, e) =>
      err = GDDR_RESET_ERR_TRAINING /\
      forallb (λ i, wrote MRISC_MSG_TYPE_PHY_WAKEUP i e && negb (wrote MRISC_MSG_TYPE_PHY_POWERDOWN i e)) instances = true
  | None => False
  end.
Proof. vm_compute. auto. Qed.
(** One busy instance makes a power message fail after the earlier instances have got it. *)
Theorem busy_instance_splits_message :
  match @mrisc_message _ (script one_busy) 60 MRISC_MSG_TYPE_PHY_POWERDOWN 0xFF 1000 [] with
  | Some (r, e) => r = - EBUSY /\ map (λ i, wrote MRISC_MSG_TYPE_PHY_POWERDOWN i e) instances
                                  = [true; false; false; false; false; false; false; false]
  | None => False
  end.
Proof. vm_compute. auto. Qed.
