(* ===== verification/VUartHost.v ===== *)
(** The host's end of the virtual UART: [scripts/tooling/vuart.c], and the part of
    [scripts/tooling/console.c] that moves bytes.

    The ring functions work on the descriptor that the device's driver (VUart.v) uses; the
    session functions on the system calls they make, whose answers are an input. *)
From stdpp Require Import prelude list numbers.
From Stdlib Require Import ZArith Lia.
From S2P Require Import Prelude Ring VUart.
Open Scope Z_scope.
Implicit Types (v : tt_vuart).

(** * The rings *)
Definition EAGAIN : Z := 11.
Definition EOF : Z := -1.
(** A [char] as an [int], where it is signed. *)
Definition char_to_int (b : Z) : Z := if b <? 128 then b else b - 256.
(** [data_magic] is [data->magic]; the byte is stored before the space is checked. *)
Definition vuart_putc (data_magic : Z) v (ch : Z) : option tt_vuart :=
  if negb (magic v =? data_magic) then Some v
  else match buf_write v (tx_cap v) (rx_tail v) (rx_cap v) (ch mod 256) with
       | None => None
       | Some v =>
           Some (if 0 <? tt_vuart_buf_space (rx_head v) (rx_tail v) (rx_cap v)
                 then with_rx_tail v (u32 (rx_tail v + 1)) else v)
       end.
Definition vuart_space (data_magic : Z) v : Z :=
  if negb (magic v =? data_magic) then 0 else tt_vuart_buf_space (rx_head v) (rx_tail v) (rx_cap v).
Definition vuart_getc (data_magic : Z) v : option (Z * tt_vuart) :=
  if negb (magic v =? data_magic) then Some (EOF, v)
  else if tt_vuart_buf_empty (tx_head v) (tx_tail v) then Some (EOF, v)
  else match buf_read v 0 (tx_head v) (tx_cap v) with
       | None => None
       | Some b => Some (char_to_int b, with_tx_head v (u32 (tx_head v + 1)))
       end.
(** Result: the return value and the bytes copied. *)
Definition vuart_read (data_magic : Z) v (size : Z) : option (Z * list Z * tt_vuart) :=
  if negb (magic v =? data_magic) then Some (- EAGAIN, [], v)
  else if tt_vuart_buf_empty (tx_head v) (tx_tail v) then Some (- EAGAIN, [], v)
  else
    let v := if negb (tx_oflow v =? 0) then with_tx_oflow v 0 else v in
    let size := Z.min size (tt_vuart_buf_size (tx_head v) (tx_tail v)) in
    if tx_cap v =? 0 then None
    else
      let offset := tx_head v mod tx_cap v in
      let size := Z.min size (u32 (tx_cap v - offset)) in
      if Z.of_nat (length (buf v)) <? offset + size then None
      else Some (size, take (Z.to_nat size) (drop (Z.to_nat offset) (buf v)),
                 with_tx_head v (u32 (tx_head v + size))).
(** A byte typed at the console: sent, or put back ([false]) when the ring is full. *)
Definition console_send (data_magic : Z) v (ch : Z) : option (bool * tt_vuart) :=
  if 0 <? vuart_space data_magic v then
    match vuart_putc data_magic v ch with Some v => Some (true, v) | None => None end
  else Some (false, v).
(** The bytes that the console prints: it reads until [EOF]. *)
Fixpoint console_drain (fuel : nat) (data_magic : Z) v : option (list Z * tt_vuart) :=
  match fuel with
  | O => None
  | S fuel =>
      match vuart_getc data_magic v with
      | None => None
      | Some (ch, v) =>
          if ch =? EOF then Some ([], v)
          else match console_drain fuel data_magic v with
               | None => None
               | Some (bs, v) => Some (ch mod 256 :: bs, v)
               end
      end
  end.

(** ** What they do to the queues *)
Lemma vuart_space_spec v : wf_vuart v ->
  vuart_space (magic v) v = rx_cap v - Z.of_nat (length (rx_queue v)).
Proof.
  intros Hwf. unfold vuart_space. rewrite Z.eqb_refl. cbn [negb]. rewrite <- rx_queue_length by done.
  destruct Hwf as [[Htc _] [Hrc _] Hcs _ _ _ _ Hrs _]. pose proof (size_range (rx_head v) (rx_tail v)).
  unfold tt_vuart_buf_space. apply wrap_id. unfold in_width. lia.
Qed.
Lemma buf_write_magic v o c k x v' : buf_write v o c k x = Some v' ->
  magic v' = magic v /\ rx_head v' = rx_head v /\ rx_tail v' = rx_tail v /\ rx_cap v' = rx_cap v.
Proof. unfold buf_write. intros E. repeat case_match; by simplify_eq. Qed.
(** With room, the host's byte is appended. *)
Lemma vuart_putc_room v c : wf_vuart v -> is_byte c -> Z.of_nat (length (rx_queue v)) < rx_cap v ->
  may_advance (rx_cap v) (rx_tail v) 1 ->
  exists v', vuart_putc (magic v) v c = Some v' /\ wf_vuart v' /\ magic v' = magic v /\
    rx_queue v' = rx_queue v ++ [c] /\ tx_queue v' = tx_queue v /\ tx_cap v' = tx_cap v /\ rx_cap v' = rx_cap v /\
    rx_tail v' = u32 (rx_tail v + 1) /\ tx_tail v' = tx_tail v.
Proof.
  intros Hwf Hb Hr Ha. destruct (poll_out_host v c Hwf Hb) as (v' & E & Hwf' & Hq & Ht & Hc & Hrc & _ & Htl & Htl2).
  { by rewrite rx_queue_length. }
  { done. }
  unfold tt_vuart_poll_out in E. cbn [out_ring is_device andb] in E.
  unfold vuart_putc. rewrite Z.eqb_refl. cbn [negb]. rewrite (Z.mod_small c 256) by done.
  destruct (buf_write v (tx_cap v) (rx_tail v) (rx_cap v) c) as [v1|] eqn:E1; [|done].
  destruct (buf_write_magic _ _ _ _ _ _ E1) as (Hm1 & Hh1 & Ht1 & Hc1). rewrite Hh1, Ht1, Hc1.
  pose proof (vuart_space_spec v Hwf) as Hs. unfold vuart_space in Hs. rewrite Z.eqb_refl in Hs. cbn [negb] in Hs.
  rewrite Hs. destruct (Z.ltb_spec 0 (rx_cap v - Z.of_nat (length (rx_queue v)))); [|lia].
  cbn [set_out_tail] in E. simplify_eq. eexists. split; [done|]. by split_and!.
Qed.
Lemma vuart_getc_spec v : wf_vuart v ->
  match tx_queue v with
  | [] => vuart_getc (magic v) v = Some (EOF, v)
  | c :: q => exists v', vuart_getc (magic v) v = Some (char_to_int c, v') /\ wf_vuart v' /\ magic v' = magic v /\
      tx_queue v' = q /\ rx_queue v' = rx_queue v /\ is_byte c /\ tx_cap v' = tx_cap v /\ rx_cap v' = rx_cap v /\
      rx_tail v' = rx_tail v /\ tx_tail v' = tx_tail v
  end.
Proof.
  intros Hwf. pose proof (poll_in_host v Hwf) as Hp. unfold vuart_getc. rewrite Z.eqb_refl. cbn [negb].
  unfold tt_vuart_poll_in in Hp. cbn [in_ring] in Hp. pose proof (tx_queue_length v Hwf) as Hl.
  unfold tt_vuart_buf_empty in *. destruct (tx_queue v) as [|c q].
  - by rewrite Hl.
  - rewrite Hl in *. cbn [length] in *. destruct (Z.eqb_spec (Z.of_nat (S (length q))) 0); [lia|].
    destruct (buf_read _ _ _ _) as [b|]; [|by destruct Hp as (v' & E & _)].
    destruct Hp as (v' & E & H1 & H2 & H3 & H4 & H5 & H6 & _ & H7 & H8). simplify_eq. eexists. split; [done|]. by split_and!.
Qed.

(** ** Bulk reads *)
Lemma ring_slice_drop cap (b : list Z) h m n :
  drop n (ring_slice cap b h m) = ring_slice cap b (h + Z.of_nat n) (m - n).
Proof.
  revert h m. induction n as [|n IH]; intros h m.
  { rewrite Nat.sub_0_r, drop_0. by replace (h + Z.of_nat 0) with h by lia. }
  destruct m as [|m]; [done|]. rewrite ring_slice_cons. cbn [skipn Nat.sub]. rewrite IH.
  by replace (h + 1 + Z.of_nat n) with (h + Z.of_nat (S n)) by lia.
Qed.
Lemma ring_slice_take cap (b : list Z) h m n :
  take n (ring_slice cap b h m) = ring_slice cap b h (Nat.min n m).
Proof.
  revert h m. induction n as [|n IH]; intros h m; [done|].
  destruct m as [|m]; [done|]. cbn [Nat.min]. rewrite !ring_slice_cons. cbn [take]. by rewrite IH.
Qed.
(** Entries that do not run over the end of the buffer are contiguous. *)
Lemma ring_slice_contig cap (b : list Z) h n :
  0 < cap -> Z.of_nat (length b) = cap -> h mod cap + Z.of_nat n <= cap ->
  ring_slice cap b h n = take n (drop (Z.to_nat (h mod cap)) b).
Proof.
  intros Hc Hl. revert h. induction n as [|n IH]; intros h Hn; [done|].
  pose proof (Z.mod_pos_bound h cap Hc). rewrite ring_slice_cons.
  destruct (lookup_lt_is_Some_2 b (Z.to_nat (h mod cap))) as [x Hx]; [lia|].
  rewrite (drop_S b x (Z.to_nat (h mod cap))) by done. cbn [take]. f_equal; [by apply list_lookup_total_correct|].
  destruct n as [|n]; [done|].
  assert (Hs : (h + 1) mod cap = h mod cap + 1).
  { rewrite <- (Z.mod_small (h mod cap + 1) cap) by lia. by rewrite Zplus_mod_idemp_l. }
  rewrite IH by lia. do 2 f_equal. lia.
Qed.
Lemma size_add_head h t n : 0 <= n <= tt_vuart_buf_size h t ->
  tt_vuart_buf_size (u32 (h + n)) t = tt_vuart_buf_size h t - n.
Proof.
  intros Hn. pose proof (size_range h t). unfold tt_vuart_buf_size in *. unfold wrap in *.
  rewrite Zminus_mod_idemp_r. replace (t - (h + n)) with (t - h - n) by lia.
  rewrite <- Zminus_mod_idemp_l. apply Z.mod_small. lia.
Qed.
(** [n] more bytes taken at once. *)
Lemma advance_head v n : wf_vuart v -> 0 <= n <= tt_vuart_buf_size (tx_head v) (tx_tail v) ->
  let v' := with_tx_head v (u32 (tx_head v + n)) in
  wf_vuart v' /\ tx_queue v' = drop (Z.to_nat n) (tx_queue v) /\ rx_queue v' = rx_queue v.
Proof.
  intros Hwf Hn v'. pose proof (size_add_head (tx_head v) (tx_tail v) n Hn) as Hs.
  pose proof (size_range (tx_head v) (tx_tail v)).
  destruct Hwf as [[Hc Hcd] [Hrc Hrd] Hcs Hl Htc Hrx Hts Hrs Hb]. split_and!; [| |done].
  - constructor; cbn; try done; [split; [done | apply unwrapped_head; (apply Htc || done)] | split; [by apply wrap_in_width | apply Htc]|].
    rewrite Hs. lia.
  - unfold tx_queue. cbn [v' with_tx_head tx_cap tx_head tx_tail buf]. rewrite ring_slice_drop. unfold count. rewrite Hs.
    rewrite Z2Nat.id by lia. replace (Z.to_nat (tt_vuart_buf_size (tx_head v) (tx_tail v) - n))
      with (Z.to_nat (tt_vuart_buf_size (tx_head v) (tx_tail v)) - Z.to_nat n)%nat by lia.
    symmetry. apply (head_slots _ _ _ (tx_tail v)); (apply Htc || done).
Qed.
Definition clear_oflow v : tt_vuart := if negb (tx_oflow v =? 0) then with_tx_oflow v 0 else v.
Lemma clear_oflow_spec v : wf_vuart v ->
  let v' := clear_oflow v in
  wf_vuart v' /\ tx_queue v' = tx_queue v /\ rx_queue v' = rx_queue v /\ magic v' = magic v /\ tx_oflow v' = 0 /\
  tx_head v' = tx_head v /\ tx_tail v' = tx_tail v /\ tx_cap v' = tx_cap v /\ rx_cap v' = rx_cap v /\ buf v' = buf v /\
  rx_tail v' = rx_tail v.
Proof.
  intros Hwf v'. unfold v', clear_oflow. destruct (Z.eqb_spec (tx_oflow v) 0); cbn [negb]; [by split_and!|].
  split_and!; try done. by destruct Hwf; constructor.
Qed.
(** A bulk read takes the oldest bytes, as many as it may, and at least one. *)
Lemma vuart_read_spec v (size : nat) : wf_vuart v -> tx_queue v <> [] ->
  exists (n : nat) v', vuart_read (magic v) v (Z.of_nat size) = Some (Z.of_nat n, take n (tx_queue v), v') /\
    wf_vuart v' /\ magic v' = magic v /\ tx_queue v' = drop n (tx_queue v) /\ rx_queue v' = rx_queue v /\
    tx_cap v' = tx_cap v /\ rx_cap v' = rx_cap v /\ rx_tail v' = rx_tail v /\ tx_tail v' = tx_tail v /\ tx_oflow v' = 0 /\
    (n <= size)%nat /\ (n <= length (tx_queue v))%nat /\ (0 < size -> 0 < n)%nat.
Proof.
  intros Hwf Hq. pose proof (tx_queue_length v Hwf) as Hl.
  assert (Hpos : 0 < tt_vuart_buf_size (tx_head v) (tx_tail v)) by (destruct (tx_queue v); [done | cbn [length] in Hl; lia]).
  unfold vuart_read. rewrite Z.eqb_refl. cbn [negb]. unfold tt_vuart_buf_empty. destruct (Z.eqb_spec (tt_vuart_buf_size (tx_head v) (tx_tail v)) 0); [lia|].
  fold (clear_oflow v). destruct (clear_oflow_spec v Hwf) as (Hwf1 & Hq1 & Hr1 & Hm1 & Ho1 & Hh1 & Ht1 & Hc1 & Hrc1 & Hb1 & Hrt1).
  set (v1 := clear_oflow v) in *. pose proof Hwf1 as [[Hc Hcd] [Hrc Hrd] Hcs Hlen Htc Hrx Hts Hrs Hb].
  pose proof (Z.mod_pos_bound (tx_head v1) (tx_cap v1) Hc) as Hmod.
  destruct (Z.eqb_spec (tx_cap v1) 0); [lia|]. rewrite wrap_id by (unfold in_width; lia).
  set (k := Z.min (Z.min _ _) _).
  pose proof (size_range (tx_head v1) (tx_tail v1)). rewrite <- Hh1, <- Ht1, <- Hq1 in *.
  assert (Hn : 0 <= k <= tt_vuart_buf_size (tx_head v1) (tx_tail v1)) by lia.
  destruct (Z.ltb_spec (Z.of_nat (length (buf v1))) (tx_head v1 mod tx_cap v1 + k)); [lia|].
  destruct (advance_head v1 k Hwf1 Hn) as (Hwf2 & Hq2 & Hr2).
  exists (Z.to_nat k), (with_tx_head v1 (u32 (tx_head v1 + k))).
  assert (Hbytes : take (Z.to_nat k) (drop (Z.to_nat (tx_head v1 mod tx_cap v1)) (buf v1)) = take (Z.to_nat k) (tx_queue v1)).
  { unfold tx_queue. rewrite ring_slice_take. unfold count. rewrite Nat.min_l by lia.
    rewrite ring_slice_contig by (rewrite ?length_take; lia).
    rewrite (skipn_firstn_comm (Z.to_nat (tx_head v1 mod tx_cap v1))), take_take. f_equal. lia. }
  rewrite Hbytes, Z2Nat.id by lia. split; [done|].
  rewrite <- Hr1, <- Hm1, <- Hc1, <- Hrc1, <- Hrt1. split_and!; try done; lia.
Qed.

(** ** The console's loop *)
Lemma char_to_int_spec c : is_byte c -> char_to_int c mod 256 = c /\ (char_to_int c = EOF <-> c = 255).
Proof.
  unfold is_byte, char_to_int, EOF. intros Hc. destruct (Z.ltb_spec c 128).
  - split; [by rewrite Z.mod_small by lia | lia].
  - split; [|lia]. replace (c - 256) with (c + (-1) * 256) by lia. rewrite Z.mod_add, Z.mod_small by lia. done.
Qed.
Lemma console_drain_spec fuel v : wf_vuart v -> 255 ∉ tx_queue v -> (length (tx_queue v) < fuel)%nat ->
  exists v', console_drain fuel (magic v) v = Some (tx_queue v, v') /\ wf_vuart v' /\ magic v' = magic v /\
    tx_queue v' = [] /\ rx_queue v' = rx_queue v /\ tx_cap v' = tx_cap v /\ rx_cap v' = rx_cap v /\
    rx_tail v' = rx_tail v /\ tx_tail v' = tx_tail v.
Proof.
  revert v. induction fuel as [|fuel IH]; intros v Hwf Hff Hf; [lia|]. cbn [console_drain].
  pose proof (vuart_getc_spec v Hwf) as Hg. destruct (tx_queue v) as [|c q] eqn:Hq.
  { rewrite Hg. cbn. exists v. by split_and!. }
  destruct Hg as (v1 & -> & Hwf1 & Hm1 & Hq1 & Hr1 & Hb & Hc1 & Hrc1 & Hrt1 & Htt1). destruct (char_to_int_spec c Hb) as [Hmod Heof].
  destruct (Z.eqb_spec (char_to_int c) EOF) as [E|_]; [apply Heof in E as ->; set_solver|].
  rewrite <- Hm1. destruct (IH v1 Hwf1) as (v' & -> & Hwf' & Hm' & Hq' & Hr' & Hc' & Hrc' & Hrt' & Htt').
  - rewrite Hq1. set_solver.
  - rewrite Hq1. cbn [length] in Hf. lia.
  - exists v'. rewrite Hmod, Hq1. split_and!; (done || congruence).
Qed.
Lemma console_send_spec v c : wf_vuart v -> is_byte c -> may_advance (rx_cap v) (rx_tail v) 1 ->
  exists sent v', console_send (magic v) v c = Some (sent, v') /\ wf_vuart v' /\ magic v' = magic v /\
    sent = (Z.of_nat (length (rx_queue v)) <? rx_cap v) /\
    rx_queue v' = rx_queue v ++ (if sent then [c] else []) /\ tx_queue v' = tx_queue v /\
    tx_cap v' = tx_cap v /\ rx_cap v' = rx_cap v /\
    rx_tail v' = u32 (rx_tail v + Z.b2z sent) /\ tx_tail v' = tx_tail v.
Proof.
  intros Hwf Hb Ha. unfold console_send. rewrite vuart_space_spec by done.
  destruct (Z.ltb_spec 0 (rx_cap v - Z.of_nat (length (rx_queue v)))).
  - destruct (vuart_putc_room v c Hwf Hb) as (v' & -> & Hwf' & Hm & Hr & Ht & Hc & Hrc & Hrt & Htt); [lia | done|].
    exists true, v'. split_and!; try done. symmetry. zlia.
  - exists false, v. rewrite app_nil_r, Z.add_0_r. split_and!; try done; [symmetry; zlia|].
    symmetry. apply wrap_id. apply (wf_rx_ctr _ Hwf).
Qed.

(** ** The device's calls keep the magic number *)
Definition desc_kept v v' : Prop := magic v' = magic v /\ tx_cap v' = tx_cap v /\ rx_cap v' = rx_cap v.
#[local] Instance desc_kept_preorder : PreOrder desc_kept.
Proof. split; [intros v; repeat split|]. intros a b c (H1 & H2 & H3) (H4 & H5 & H6). split_and!; congruence. Qed.
Lemma poll_out_kept v c r v' : tt_vuart_poll_out v c r = Some v' -> desc_kept v v'.
Proof.
  unfold tt_vuart_poll_out, buf_write. destruct r; cbn; intros E; repeat case_match; simplify_eq; repeat split.
Qed.
Lemma poll_in_kept v r c v' : tt_vuart_poll_in v r = Some (c, v') -> desc_kept v v'.
Proof. unfold tt_vuart_poll_in. destruct r; cbn; intros E; repeat case_match; simplify_eq; repeat split. Qed.
Lemma poll_out_all_kept bs v r v' : poll_out_all v bs r = Some v' -> desc_kept v v'.
Proof.
  revert v. induction bs as [|b bs IH]; intros v E; cbn [poll_out_all] in E; [simplify_eq; reflexivity|].
  destruct (tt_vuart_poll_out v b r) as [v1|] eqn:E1; [|done]. etrans; [by eapply poll_out_kept | by apply IH].
Qed.
Lemma loopback_kept n v v' : loopback_loop n v = Some v' -> desc_kept v v'.
Proof.
  revert v. induction n as [|n IH]; intros v E; cbn [loopback_loop] in E; [simplify_eq; reflexivity|].
  destruct (tt_vuart_poll_in v TT_VUART_ROLE_HOST) as [[c v1]|] eqn:E1; [|done].
  destruct (tt_vuart_poll_out _ _ _) as [v2|] eqn:E2; [|done].
  etrans; [by eapply poll_in_kept|]. etrans; [by eapply poll_out_kept | by apply IH].
Qed.
Lemma poll_in_all_kept n v bs v' : poll_in_all n v = Some (bs, v') -> desc_kept v v'.
Proof.
  revert v bs. induction n as [|n IH]; intros v bs E; cbn [poll_in_all] in E; [simplify_eq; reflexivity|].
  destruct (tt_vuart_poll_in v TT_VUART_ROLE_DEVICE) as [[c v1]|] eqn:E1; [|done].
  destruct (poll_in_all n v1) as [[bs1 v2]|] eqn:E2; [|done]. simplify_eq.
  etrans; [by eapply poll_in_kept | by eapply IH].
Qed.
Lemma fifo_fill_kept c d bs k n d' : uart_tt_virt_fifo_fill c d bs k = Some (n, d') -> desc_kept (vuart d) (vuart d').
Proof.
  unfold uart_tt_virt_fifo_fill. destruct (poll_out_all _ _ _) as [v1|] eqn:E1; [|done].
  apply poll_out_all_kept in E1. destruct (_ && _).
  - destruct (loopback_loop _ _) as [v2|] eqn:E2; [|done]. intros [= <- <-]. cbn.
    etrans; [exact E1 | by eapply loopback_kept].
  - by intros [= <- <-].
Qed.
Lemma fifo_read_kept d k n bs d' : uart_tt_virt_fifo_read d k = Some (n, bs, d') -> desc_kept (vuart d) (vuart d').
Proof.
  unfold uart_tt_virt_fifo_read. destruct (poll_in_all _ _) as [[b v1]|] eqn:E1; [|done].
  intros [= <- <- <-]. by eapply poll_in_all_kept.
Qed.

(** * Device and host together *)
Inductive vop :=
| DevFill (bs : list Z) | DevPut (c : Z) | DevRead (n : nat)
| HostSend (c : Z) | HostDrain | HostRead (n : nat).
(** The driver's data, and what was accepted and delivered in each direction. *)
Record vsys := { dev : uart_tt_virt_data; dev_sent : list Z; host_got : list Z; host_sent : list Z; dev_got : list Z }.
Implicit Types (s : vsys).
Definition on_dev s (d : uart_tt_virt_data) (sent got : list Z) : vsys :=
  {| dev := d; dev_sent := dev_sent s ++ sent; host_got := host_got s; host_sent := host_sent s; dev_got := dev_got s ++ got |}.
Definition on_host s v (sent got : list Z) : vsys :=
  {| dev := with_vuart (dev s) v; dev_sent := dev_sent s; host_got := host_got s ++ got;
     host_sent := host_sent s ++ sent; dev_got := dev_got s |}.
Definition vstep (c : uart_tt_virt_config) (data_magic : Z) s (o : vop) : option vsys :=
  let v := vuart (dev s) in
  match o with
  | DevFill bs => match uart_tt_virt_fifo_fill c (dev s) bs (Z.of_nat (length bs)) with
                  | Some (n, d) => Some (on_dev s d (take (Z.to_nat n) bs) []) | None => None end
  | DevPut ch => match uart_tt_virt_poll_out (dev s) ch with
                 | Some d => Some (on_dev s d (if tt_vuart_buf_full (tx_head v) (tx_tail v) (tx_cap v) then [] else [ch]) [])
                 | None => None end
  | DevRead n => match uart_tt_virt_fifo_read (dev s) (Z.of_nat n) with
                 | Some (_, bs, d) => Some (on_dev s d [] bs) | None => None end
  | HostSend ch => match console_send data_magic v ch with
                   | Some (sent, v) => Some (on_host s v (if (sent : bool) then [ch] else []) []) | None => None end
  | HostDrain => match console_drain (S (Z.to_nat (tx_cap v))) data_magic v with
                 | Some (bs, v) => Some (on_host s v [] bs) | None => None end
  | HostRead n => match vuart_read data_magic v (Z.of_nat n) with
                  | Some (_, bs, v) => Some (on_host s v [] bs) | None => None end
  end.
Fixpoint vrun (c : uart_tt_virt_config) (data_magic : Z) s (os : list vop) : option vsys :=
  match os with
  | [] => Some s
  | o :: os => match vstep c data_magic s o with Some s => vrun c data_magic s os | None => None end
  end.
(** [text]: the device sends no 0xFF, which the console's loop takes for the end. *)
Definition vop_ok (text : bool) (o : vop) : Prop :=
  match o with
  | DevFill bs => Forall is_byte bs /\ (text = true -> 255 ∉ bs)
  | DevPut c => is_byte c /\ (text = true -> c <> 255)
  | HostSend c => is_byte c
  | HostDrain => text = true
  | _ => True
  end.
(** The bytes an operation may put into a ring. *)
Definition tx_cost (o : vop) : Z := match o with DevFill bs => Z.of_nat (length bs) | DevPut _ => 1 | _ => 0 end.
Definition rx_cost (o : vop) : Z := match o with HostSend _ => 1 | _ => 0 end.
Definition total (cost : vop -> Z) (os : list vop) : Z := foldr (λ o n, cost o + n) 0 os.
Lemma total_cost_nonneg cost os : (forall o, 0 <= cost o) -> 0 <= total cost os.
Proof. intros H. induction os as [|o os IH]; cbn [total foldr]; [done|]. pose proof (H o). unfold total in IH. lia. Qed.
Lemma tx_cost_nonneg o : 0 <= tx_cost o.
Proof. destruct o; cbn; lia. Qed.
Lemma rx_cost_nonneg o : 0 <= rx_cost o.
Proof. destruct o; cbn; lia. Qed.
(** The rings will take [os]. *)
Definition vbudget v (os : list vop) : Prop :=
  may_advance (tx_cap v) (tx_tail v) (total tx_cost os) /\ may_advance (rx_cap v) (rx_tail v) (total rx_cost os).
Record vinv (data_magic : Z) (text : bool) s : Prop := {
  vi_wf : wf_vuart (vuart (dev s));
  vi_magic : magic (vuart (dev s)) = data_magic;
  vi_text : text = true -> 255 ∉ tx_queue (vuart (dev s));
  vi_tx : dev_sent s = host_got s ++ tx_queue (vuart (dev s));
  vi_rx : host_sent s = dev_got s ++ rx_queue (vuart (dev s));
}.
(** The tails advance by no more than the operation may put in. *)
Definition tails_moved v v' (o : vop) : Prop := tx_cap v' = tx_cap v /\ rx_cap v' = rx_cap v /\
  exists k l, 0 <= k <= tx_cost o /\ 0 <= l <= rx_cost o /\ tx_tail v' = u32 (tx_tail v + k) /\ rx_tail v' = u32 (rx_tail v + l).
Lemma vbudget_moved v v' o os : wf_vuart v -> tails_moved v v' o -> vbudget v (o :: os) -> vbudget v' os.
Proof.
  intros Hwf (H1 & H2 & k & l & Hk & Hl & Ht & Hr) [B1 B2]. unfold vbudget. rewrite H1, H2, Ht, Hr.
  pose proof (total_cost_nonneg tx_cost os tx_cost_nonneg). pose proof (total_cost_nonneg rx_cost os rx_cost_nonneg).
  split; (apply may_advance_more; [apply Hwf | lia | lia |]; eapply may_advance_le; [eassumption|]; cbn; unfold total in *; lia).
Qed.
Lemma tails_kept v v' o : wf_vuart v -> desc_kept v v' -> tx_tail v' = tx_tail v -> rx_tail v' = rx_tail v -> tails_moved v v' o.
Proof.
  intros Hwf (_ & H1 & H2) Ht Hr. split; [done|]. split; [done|]. exists 0, 0. rewrite !Z.add_0_r, Ht, Hr.
  pose proof (tx_cost_nonneg o). pose proof (rx_cost_nonneg o). split_and!; try lia; symmetry; apply wrap_id; apply Hwf.
Qed.

Section both.
Context (c : uart_tt_virt_config) (Hlb : c_loopback c = false) (m : Z) (text : bool).
Lemma dev_step s d sent got : vinv m text s ->
  wf_vuart (vuart d) -> desc_kept (vuart (dev s)) (vuart d) -> (text = true -> 255 ∉ sent) ->
  tx_queue (vuart d) = tx_queue (vuart (dev s)) ++ sent ->
  rx_queue (vuart (dev s)) = got ++ rx_queue (vuart d) -> vinv m text (on_dev s d sent got).
Proof.
  intros [Hwf Hm Ht Htx Hrx] Hwf' (Hk & _ & _) Hs Hq Hr. constructor; cbn.
  - done.
  - congruence.
  - intros Hx. rewrite Hq, not_elem_of_app. auto.
  - by rewrite Htx, Hq, (assoc app).
  - by rewrite Hrx, Hr, (assoc app).
Qed.
Lemma host_step s v sent got : vinv m text s ->
  wf_vuart v -> magic v = magic (vuart (dev s)) ->
  rx_queue v = rx_queue (vuart (dev s)) ++ sent ->
  tx_queue (vuart (dev s)) = got ++ tx_queue v -> vinv m text (on_host s v sent got).
Proof.
  intros [Hwf Hm Ht Htx Hrx] Hwf' Hk Hr Hq. constructor; cbn.
  - done.
  - congruence.
  - intros Hx. specialize (Ht Hx). rewrite Hq, not_elem_of_app in Ht. tauto.
  - by rewrite Htx, Hq, (assoc app).
  - by rewrite Hrx, Hr, (assoc app).
Qed.
Definition vgood s (o : vop) : Prop :=
  exists s', vstep c m s o = Some s' /\ vinv m text s' /\ tails_moved (vuart (dev s)) (vuart (dev s')) o.
Lemma vstep_fill s bs : vinv m text s -> vop_ok text (DevFill bs) ->
  may_advance (tx_cap (vuart (dev s))) (tx_tail (vuart (dev s))) (Z.of_nat (length bs)) -> vgood s (DevFill bs).
Proof.
  intros Hi [Hb Hff] Ha. pose proof Hi as [Hwf _ _ _ _].
  destruct (fifo_fill_ok c (dev s) bs Hwf Hb Ha) as (d' & E & Hwf' & Hq & _); [congruence|].
  pose proof (fifo_fill_kept _ _ _ _ _ _ E) as Hk. unfold vgood, vstep. rewrite E. eexists. split; [done|].
  destruct (Hq Hlb) as (Hq1 & Hr1 & _ & Hrt & Htt). rewrite Nat2Z.id. split.
  - apply dev_step; try done. intros Hx Hin. apply (Hff Hx).
    eapply elem_of_take in Hin as (k & Hk' & _). by eapply list_elem_of_lookup_2.
  - destruct Hk as (_ & K1 & K2). split; [done|]. split; [done|]. match type of Htt with _ = wrap _ (_ + ?k) => exists k, 0 end. rewrite Z.add_0_r. cbn [tx_cost rx_cost dev on_dev].
    rewrite Hrt, Htt. split_and!; try lia; try reflexivity. symmetry. apply wrap_id. apply (wf_rx_ctr _ Hwf).
Qed.
Lemma vstep_put s ch : vinv m text s -> vop_ok text (DevPut ch) ->
  may_advance (tx_cap (vuart (dev s))) (tx_tail (vuart (dev s))) 1 -> vgood s (DevPut ch).
Proof.
  intros Hi [Hb Hff] Ha. pose proof Hi as [Hwf _ _ _ _]. unfold vgood, vstep, uart_tt_virt_poll_out, tt_vuart_buf_full.
  destruct (Z.eqb_spec (tt_vuart_buf_size (tx_head (vuart (dev s))) (tx_tail (vuart (dev s)))) (tx_cap (vuart (dev s)))) as [He|He].
  - rewrite poll_out_device_full by done. eexists. split; [done|]. split.
    + apply dev_step; [done | by destruct Hwf; constructor | repeat split | intros _; apply not_elem_of_nil | by rewrite app_nil_r | done].
    + apply tails_kept; [done | repeat split | done..].
  - destruct (poll_out_device (vuart (dev s)) ch Hwf Hb) as (v' & E & Hwf' & Hq & Hr & _ & K1 & K2 & _ & Hrt & _ & Htt); [destruct Hwf; lia | done|].
    rewrite E. eexists. split; [done|]. split.
    + apply dev_step; [done | done | by eapply poll_out_kept | | done | done]. intros Hx. specialize (Hff Hx). set_solver.
    + split; [done|]. split; [done|]. exists 1, 0. cbn [dev on_dev with_vuart vuart tx_cost rx_cost]. rewrite Hrt, Htt, Z.add_0_r.
      split_and!; try lia. symmetry. apply wrap_id. apply (wf_rx_ctr _ Hwf).
Qed.
Lemma vstep_dev_read s n : vinv m text s -> vgood s (DevRead n).
Proof.
  intros Hi. pose proof Hi as [Hwf _ _ _ _]. destruct (fifo_read_ok (dev s) n Hwf) as (d' & E & Hwf' & Hr & Hq & Hrt & Htt).
  pose proof (fifo_read_kept _ _ _ _ _ E) as Hk. unfold vgood, vstep. rewrite E. eexists. split; [done|]. split.
  - apply dev_step; [done | done | done | intros _; apply not_elem_of_nil | by rewrite Hq, app_nil_r |]. by rewrite Hr, take_drop.
  - by apply tails_kept.
Qed.
Lemma vstep_send s ch : vinv m text s -> is_byte ch ->
  may_advance (rx_cap (vuart (dev s))) (rx_tail (vuart (dev s))) 1 -> vgood s (HostSend ch).
Proof.
  intros Hi Hb Ha. pose proof Hi as [Hwf Hm _ _ _].
  destruct (console_send_spec (vuart (dev s)) ch Hwf Hb Ha) as (sent & v' & E & Hwf' & Hm' & _ & Hr & Hq & K1 & K2 & Hrt & Htt).
  unfold vgood, vstep. rewrite <- Hm, E. eexists. split; [done|]. rewrite Hm in *. split.
  - apply host_step; (done || congruence).
  - split; [done|]. split; [done|]. exists 0, (Z.b2z sent). cbn [dev on_host with_vuart vuart tx_cost rx_cost].
    rewrite Hrt, Htt, Z.add_0_r. split_and!; try (destruct sent; cbn; lia); try done. symmetry. apply wrap_id. apply (wf_tx_ctr _ Hwf).
Qed.
Lemma vstep_drain s : vinv m text s -> text = true -> vgood s HostDrain.
Proof.
  intros Hi Htext. pose proof Hi as [Hwf Hm Ht _ _].
  destruct (console_drain_spec (S (Z.to_nat (tx_cap (vuart (dev s))))) (vuart (dev s)) Hwf)
    as (v' & E & Hwf' & Hm' & Hq & Hr & K1 & K2 & Hrt & Htt); [by apply Ht| |].
  { pose proof (tx_queue_length _ Hwf). destruct Hwf. lia. }
  unfold vgood, vstep. rewrite <- Hm, E. eexists. split; [done|]. rewrite Hm in *. split.
  - apply host_step; try done; try congruence; [by rewrite app_nil_r | by rewrite Hq, app_nil_r].
  - apply tails_kept; try done. split_and!; try done. cbn. congruence.
Qed.
Lemma vstep_host_read s n : vinv m text s -> vgood s (HostRead n).
Proof.
  intros Hi. pose proof Hi as [Hwf Hm _ _ _]. unfold vgood, vstep. rewrite <- Hm.
  destruct (decide (tx_queue (vuart (dev s)) = [])) as [Hq0|Hq0].
  - unfold vuart_read. rewrite Z.eqb_refl. cbn [negb]. unfold tt_vuart_buf_empty.
    rewrite (tx_queue_length _ Hwf), Hq0. cbn [length Z.of_nat Z.eqb]. eexists. split; [done|]. rewrite Hm in *. split.
    + apply host_step; try done. by rewrite app_nil_r.
    + by apply tails_kept.
  - destruct (vuart_read_spec (vuart (dev s)) n Hwf Hq0) as (k & v' & E & Hwf' & Hm' & Hq & Hr & K1 & K2 & Hrt & Htt & _).
    rewrite E. eexists. split; [done|]. rewrite Hm in *. split.
    + apply host_step; try done; try congruence; [by rewrite app_nil_r | by rewrite Hq, take_drop].
    + apply tails_kept; try done. split_and!; try done. cbn. congruence.
Qed.
Lemma vstep_inv s o os : vinv m text s -> vop_ok text o -> vbudget (vuart (dev s)) (o :: os) ->
  exists s', vstep c m s o = Some s' /\ vinv m text s' /\ vbudget (vuart (dev s')) os.
Proof.
  intros Hi Ho Hb. enough (Hg : vgood s o).
  { destruct Hg as (s' & E & Hi' & Hm). exists s'. split; [done|]. split; [done|]. by eapply vbudget_moved; [apply Hi | |]. }
  pose proof (total_cost_nonneg tx_cost os tx_cost_nonneg). pose proof (total_cost_nonneg rx_cost os rx_cost_nonneg).
  destruct Hb as [B1 B2]. unfold total in *. cbn [foldr] in B1, B2.
  destruct o as [bs|ch|n|ch| |n]; cbn [tx_cost rx_cost] in B1, B2; cbn [vop_ok] in Ho.
  - apply vstep_fill; [done.. | eapply may_advance_le; [exact B1 | lia]].
  - apply vstep_put; [done.. | eapply may_advance_le; [exact B1 | lia]].
  - by apply vstep_dev_read.
  - apply vstep_send; [done.. | eapply may_advance_le; [exact B2 | lia]].
  - by apply vstep_drain.
  - by apply vstep_host_read.
Qed.
Lemma vrun_inv os s : vinv m text s -> Forall (vop_ok text) os -> vbudget (vuart (dev s)) os ->
  exists s', vrun c m s os = Some s' /\ vinv m text s'.
Proof.
  revert s. induction os as [|o os IH]; intros s Hi Ho Hb; cbn [vrun]; [by exists s|].
  apply list.Forall_cons in Ho as [Ho Hos]. destruct (vstep_inv s o os Hi Ho Hb) as (s1 & -> & Hi1 & Hb1). by apply IH.
Qed.
End both.

(** The start: an initialised descriptor in a memory of the right size. *)
Definition vsys0 (c : uart_tt_virt_config) (mem : tt_vuart) (d : uart_tt_virt_data) : vsys :=
  {| dev := uart_tt_virt_init c false mem d; dev_sent := []; host_got := []; host_sent := []; dev_got := [] |}.
Definition config_ok (c : uart_tt_virt_config) (mem : tt_vuart) : Prop :=
  0 < c_tx_cap c /\ 0 < c_rx_cap c /\
  c_tx_cap c + c_rx_cap c < 2 ^ 31 /\ Z.of_nat (length (buf mem)) = c_tx_cap c + c_rx_cap c /\ Forall is_byte (buf mem).
(** The counters may wrap, or do not get that far. *)
Definition counters_ok (c : uart_tt_virt_config) (os : list vop) : Prop :=
  ((c_tx_cap c | 2 ^ 32) \/ total tx_cost os < 2 ^ 32) /\ ((c_rx_cap c | 2 ^ 32) \/ total rx_cost os < 2 ^ 32).
Lemma vsys0_inv c text mem d : config_ok c mem -> vinv (c_magic c) text (vsys0 c mem d).
Proof.
  intros (H1 & H2 & H3 & H4 & H5). unfold vsys0, uart_tt_virt_init. cbn [uart_tt_virt_adoptable negb].
  rewrite orb_true_r. constructor; cbn; try done.
  - constructor; cbn; try done; try lia; unfold in_width; change (tt_vuart_buf_size 0 0) with 0; try lia; (split; [done | by right]).
  - intros _. apply not_elem_of_nil.
Qed.

(** C8. From an initialised descriptor and with loopback off, whatever the device's driver and the
    host's console do, in any order: no access is outside the shared memory, the loops end, and in
    each direction the bytes delivered are, in order and unchanged, a prefix of those accepted; the
    rest is still in the ring. Two conditions: a ring whose capacity does not divide [2^32], like the
    11228 and 7132 that boards configure, is offered less than 4 GiB (afterwards its counters wrap
    and it loses bytes); and when the host takes bytes with the console's loop, the device
    sends no 0xFF ([getc_loses_ff]), while bulk reads transport any byte. *)
Theorem vuart_end_to_end (c : uart_tt_virt_config) (text : bool) (mem : tt_vuart) (d : uart_tt_virt_data) (os : list vop) :
  c_loopback c = false -> config_ok c mem -> counters_ok c os -> Forall (vop_ok text) os ->
  exists s, vrun c (c_magic c) (vsys0 c mem d) os = Some s /\
    dev_sent s = host_got s ++ tx_queue (vuart (dev s)) /\ host_sent s = dev_got s ++ rx_queue (vuart (dev s)).
Proof.
  intros Hlb Hc Hctr Ho. destruct (vrun_inv c Hlb (c_magic c) text os (vsys0 c mem d)) as (s & E & Hi).
  - by apply vsys0_inv.
  - done.
  - unfold vbudget, may_advance, vsys0, uart_tt_virt_init. cbn [uart_tt_virt_adoptable negb]. rewrite orb_true_r. exact Hctr.
  - exists s. destruct Hi. done.
Qed.
Definition traffic : list vop :=
  [HostSend 104; HostSend 105; DevFill [111; 107; 33; 10; 62]; DevRead 1; HostDrain; DevPut 35; HostRead 8; DevRead 5].
Lemma vuart_end_to_end_witness :
  exists s, vrun (small_config false) 0x775e21a1 (vsys0 (small_config false) small_vuart small_data) traffic = Some s /\
    dev_sent s = host_got s ++ tx_queue (vuart (dev s)) /\ host_sent s = dev_got s ++ rx_queue (vuart (dev s)).
Proof.
  apply (vuart_end_to_end (small_config false) true small_vuart small_data traffic).
  - reflexivity.
  - unfold config_ok. cbn. split_and!; try lia. by repeat constructor.
  - split; right; reflexivity.
  - repeat constructor; cbn; try lia; try done; set_solver.
Defined.
Example traffic_runs :
  match vrun (small_config false) 0x775e21a1 (vsys0 (small_config false) small_vuart small_data) traffic with
  | Some s => dev_sent s = [111; 107; 33; 10; 35] /\ host_got s = dev_sent s /\ dev_got s = [104; 105]
  | None => False
  end.
Proof. vm_compute. auto. Qed.

(** * Two defects *)
(** [vuart_putc] on a full ring replaces the oldest unread byte. *)
Theorem putc_full_overwrites :
  exists v v', wf_vuart v /\ rx_queue v = [1; 2; 3; 4] /\ vuart_space (magic v) v = 0 /\
    vuart_putc (magic v) v 9 = Some v' /\ rx_queue v' = [9; 2; 3; 4].
Proof.
  exists {| magic := 7; rx_cap := 4; rx_head := 0; rx_tail := 4; tx_cap := 4; tx_head := 0; tx_oflow := 0; tx_tail := 0;
            version := 0; buf := [0; 0; 0; 0; 1; 2; 3; 4] |}.
  eexists. split_and!; [|reflexivity..].
  constructor; cbn; try (split; [lia | left; exists (2 ^ 30); reflexivity]); try lia; try (unfold in_width; lia);
    try (by repeat constructor); done.
Qed.
(** The byte 0xFF is taken off the ring, and reported as "nothing there". *)
Theorem getc_loses_ff :
  exists v v', wf_vuart v /\ tx_queue v = [255; 65] /\ vuart_getc (magic v) v = Some (EOF, v') /\ tx_queue v' = [65].
Proof.
  exists {| magic := 7; rx_cap := 4; rx_head := 0; rx_tail := 0; tx_cap := 4; tx_head := 0; tx_oflow := 0; tx_tail := 2;
            version := 0; buf := [255; 65; 0; 0; 0; 0; 0; 0] |}.
  eexists. split_and!; [|reflexivity..].
  constructor; cbn; try (split; [lia | left; exists (2 ^ 30); reflexivity]); try lia; try (unfold in_width; lia);
    try (by repeat constructor); done.
Qed.

(** * The session

    The answers of the system calls are a list: negative for an error number. The counts
    are the descriptors, TLB windows and mappings that the process holds. *)
Definition EFAULT : Z := 14.
Definition TENSTORRENT_PCI_VENDOR_ID : Z := 0x1e52.
Definition TLB_2M_SHIFT : Z := 21.
Definition TLB_4G_SHIFT : Z := 32.
Definition STATUS_POST_CODE_REG_ADDR : Z := 0x80030060.
Definition POST_CODE_PREFIX : Z := 0xc0de.
Record os := { answers : list Z; fds : Z; tlbs : Z; maps : Z; window : Z; cleanup_ok : bool }.
(** The card: the ids and the driver's version that it reports, and the ARC's memory. *)
Record card := { vendor_id : Z; device_id : Z; driver_version : Z; arc_mem : Z -> Z }.
(** [tlb]: whether the window is mapped ([MAP_FAILED] if not); [ptr]: the descriptor's
    place in the window, if it is known. *)
Record vuart_data := {
  fd : Z; bar_idx : Z; addr : Z; data_magic : Z; pci_device_id : Z;
  tlb_id : Z; tlb : bool; vuart_addr : Z; ptr : option Z }.
Implicit Types (o : os) (d : vuart_data).

Definition pop o : Z * os :=
  (hd 0 (answers o), {| answers := tail (answers o); fds := fds o; tlbs := tlbs o; maps := maps o;
                        window := window o; cleanup_ok := cleanup_ok o |}).
Definition count_res o (df dt dm : Z) : os :=
  {| answers := answers o; fds := fds o + df; tlbs := tlbs o + dt; maps := maps o + dm;
     window := window o; cleanup_ok := cleanup_ok o |}.
Definition set_window o (w : Z) : os :=
  {| answers := answers o; fds := fds o; tlbs := tlbs o; maps := maps o; window := w; cleanup_ok := cleanup_ok o |}.
Definition with_fd d (x : Z) : vuart_data :=
  {| fd := x; bar_idx := bar_idx d; addr := addr d; data_magic := data_magic d; pci_device_id := pci_device_id d;
     tlb_id := tlb_id d; tlb := tlb d; vuart_addr := vuart_addr d; ptr := ptr d |}.
Definition with_tlb d (b : bool) (id : Z) : vuart_data :=
  {| fd := fd d; bar_idx := bar_idx d; addr := addr d; data_magic := data_magic d; pci_device_id := pci_device_id d;
     tlb_id := id; tlb := b; vuart_addr := vuart_addr d; ptr := ptr d |}.
Definition with_ptr d (a : Z) (p : option Z) : vuart_data :=
  {| fd := fd d; bar_idx := bar_idx d; addr := addr d; data_magic := data_magic d; pci_device_id := pci_device_id d;
     tlb_id := tlb_id d; tlb := tlb d; vuart_addr := a; ptr := p |}.

Section session.
Context (k : card).
Definition window_mask d : Z := Z.ones (if bar_idx d =? 0 then TLB_2M_SHIFT else TLB_4G_SHIFT).
(** Result: the return value, [*adjust] and the new state. *)
Definition program_noc d (phys : Z) o : Z * Z * os :=
  let '(r, o) := pop o in
  if r <? 0 then (r, 0, o)
  else (0, Z.land phys (window_mask d), set_window o (Z.ldiff phys (window_mask d))).
Definition arc_read32 d (phys : Z) o : Z * os :=
  let '(ret, adjust, o) := program_noc d phys o in
  if negb (ret =? 0) then (ret, o) else (arc_mem k (window o + adjust), o).
Definition open_tt_dev d o : Z * vuart_data * os :=
  if 0 <=? fd d then (0, d, o)
  else
    let '(r, o) := pop o in
    if r <? 0 then (r, with_fd d (-1), o)
    else
      let d := with_fd d r in
      let o := count_res o 1 0 0 in
      let '(r, o) := pop o in
      if r <? 0 then (r, d, o)
      else if negb (vendor_id k =? TENSTORRENT_PCI_VENDOR_ID) then (- ENOENT, d, o)
      else if negb (device_id k =? pci_device_id d) then (- ENOENT, d, o)
      else
        let '(r, o) := pop o in
        if r <? 0 then (r, d, o)
        else if driver_version k <? 2 then (- EFAULT, d, o)
        else (0, d, o).
(** Closing gives the descriptor back, whatever [close] answers. *)
Definition close_tt_dev d o : vuart_data * os :=
  if fd d =? -1 then (d, o) else let '(_, o) := pop o in (with_fd d (-1), count_res o (-1) 0 0).
Definition map_tlb d o : Z * vuart_data * os :=
  if tlb d then (0, d, o)
  else
    let '(r, o) := pop o in
    if r <? 0 then (r, d, o)
    else
      let o := count_res o 0 1 0 in
      let id := r in
      let '(r, o) := pop o in
      if r <? 0 then (r, d, o) else (0, with_tlb d true id, count_res o 0 0 1).
(** [cleanup_ok]: [munmap] and the release of the window do not fail. *)
Definition unmap_tlb d o : Z * vuart_data * os :=
  if negb (tlb d) then (0, d, o)
  else
    let '(r, o) := pop o in
    if (r <? 0) && negb (cleanup_ok o) then (- EFAULT, d, o)
    else
      let o := count_res o 0 0 (-1) in
      let '(r, o) := pop o in
      if (r <? 0) && negb (cleanup_ok o) then (r, d, o)
      else (0, with_tlb d false (tlb_id d), count_res o 0 (-1) 0).
Definition check_post_code d o : Z * os :=
  let '(ret, o) := arc_read32 d STATUS_POST_CODE_REG_ADDR o in
  if ret <? 0 then (ret, o)
  else if negb (Z.shiftr ret 16 =? POST_CODE_PREFIX) then (- ENOENT, o)
  else (0, o).
Definition vuart_close d o : vuart_data * os :=
  let d := with_ptr d (vuart_addr d) None in
  let '(_, d, o) := unmap_tlb d o in
  close_tt_dev d o.
Definition open_fail (ret : Z) d o : Z * vuart_data * os := let '(d, o) := vuart_close d o in (ret, d, o).
Definition vuart_open d o : Z * vuart_data * os :=
  let '(ret, d, o) := open_tt_dev d o in
  if ret <? 0 then open_fail ret d o
  else
    let '(ret, d, o) := map_tlb d o in
    if ret <? 0 then open_fail ret d o
    else
      let '(ret, o) := check_post_code d o in
      if ret <? 0 then open_fail ret d o else (0, d, o).
Definition vuart_start d o : Z * vuart_data * os :=
  let vuart_magic := match ptr d with None => 0 | Some p => arc_mem k (window o + p) end in
  if negb (vuart_magic =? data_magic d) then
    let '(ret, o) := arc_read32 d (addr d) o in
    if ret <? 0 then (ret, d, o)
    else
      let d := with_ptr d (u32 ret) (ptr d) in
      if vuart_addr d =? 0xffffffff then (- ENOENT, d, o)
      else
        let '(ret, adjust, o) := program_noc d (vuart_addr d) o in
        if negb (ret =? 0) then (ret, d, o)
        else
          let d := with_ptr d (vuart_addr d) (Some adjust) in
          if negb (arc_mem k (window o + adjust) =? data_magic d) then (- ENOENT, d, o) else (0, d, o)
  else (0, d, o).
End session.

(** ** What a session holds *)
Definition closed d : Prop := fd d = -1 /\ tlb d = false /\ ptr d = None.
Definition holds o (f t m : Z) : Prop := fds o = f /\ tlbs o = t /\ maps o = m.
Definition same_hold o o' : Prop := fds o' = fds o /\ tlbs o' = tlbs o /\ maps o' = maps o /\ cleanup_ok o' = cleanup_ok o.
Section session_proofs.
Context (k : card).
(** The console starts communication again in every round. *)
Fixpoint vuart_starts (n : nat) d o : vuart_data * os :=
  match n with
  | O => (d, o)
  | S n => let '(_, d, o) := vuart_start k d o in vuart_starts n d o
  end.
Lemma pop_hold o r o' : pop o = (r, o') -> same_hold o o'.
Proof. unfold pop. intros [= <- <-]. by split_and!. Qed.
Lemma program_noc_hold d phys o r a o' : program_noc d phys o = (r, a, o') -> same_hold o o'.
Proof.
  unfold program_noc. destruct (pop o) as [x o1] eqn:E. apply pop_hold in E.
  case_match; intros [= <- <- <-]; [done|]. exact E.
Qed.
Lemma arc_read32_hold d phys o r o' : arc_read32 k d phys o = (r, o') -> same_hold o o'.
Proof.
  unfold arc_read32. destruct (program_noc d phys o) as [[x a] o1] eqn:E. apply program_noc_hold in E.
  by case_match; intros [= <- <-].
Qed.
Lemma check_post_code_hold d o r o' : check_post_code k d o = (r, o') -> same_hold o o' /\ r <= 0.
Proof.
  unfold check_post_code. destruct (arc_read32 k d _ o) as [x o1] eqn:E. apply arc_read32_hold in E.
  unfold ENOENT. repeat case_match; intros [= <- <-]; split; try done; zlia.
Qed.
Lemma same_hold_trans o1 o2 o3 : same_hold o1 o2 -> same_hold o2 o3 -> same_hold o1 o3.
Proof. unfold same_hold. intuition congruence. Qed.
Lemma vuart_start_hold d o r d' o' : vuart_start k d o = (r, d', o') ->
  same_hold o o' /\ fd d' = fd d /\ tlb d' = tlb d.
Proof.
  assert (Hrefl : same_hold o o) by by split_and!.
  unfold vuart_start. destruct (negb (_ =? data_magic d)); [|intros [= <- <- <-]; auto].
  destruct (arc_read32 k d (addr d) o) as [x o1] eqn:E1. apply arc_read32_hold in E1.
  case_match; [intros [= <- <- <-]; auto|]. case_match; [intros [= <- <- <-]; auto|].
  destruct (program_noc _ _ o1) as [[y a] o2] eqn:E2. apply program_noc_hold in E2.
  pose proof (same_hold_trans _ _ _ E1 E2). case_match; [intros [= <- <- <-]; auto|].
  case_match; intros [= <- <- <-]; auto.
Qed.
Lemma vuart_starts_hold n d o : let '(d', o') := vuart_starts n d o in same_hold o o' /\ fd d' = fd d /\ tlb d' = tlb d.
Proof.
  revert d o. induction n as [|n IH]; intros d o; cbn [vuart_starts]; [by split_and!|].
  destruct (vuart_start k d o) as [[x d1] o1] eqn:E. apply vuart_start_hold in E as (H1 & H2 & H3).
  specialize (IH d1 o1). destruct (vuart_starts n d1 o1) as [d2 o2]. destruct IH as (G1 & G2 & G3).
  split; [by eapply same_hold_trans|]. split; congruence.
Qed.
(** From an open or half-open session, closing releases what is tracked. *)
Lemma vuart_close_spec d o f t : cleanup_ok o = true -> -1 <= fd d -> f = (if fd d =? -1 then 0 else 1) ->
  holds o f (t + Z.b2z (tlb d)) (Z.b2z (tlb d)) ->
  exists d' o', vuart_close d o = (d', o') /\ closed d' /\ holds o' 0 t 0 /\ cleanup_ok o' = true.
Proof.
  intros Hc Hfd Hf (H1 & H2 & H3). unfold vuart_close, unmap_tlb, close_tt_dev. cbn [tlb with_ptr fd].
  destruct (tlb d) eqn:Et; cbn [negb Z.b2z] in *.
  - cbn [pop cleanup_ok count_res]. rewrite Hc, !andb_false_r. cbn [with_tlb fd with_ptr].
    destruct (Z.eqb_spec (fd d) (-1)); eexists _, _; (split; [done|]); (split; [by split_and!|]); split; try done;
      unfold holds; cbn; lia.
  - cbn [fd with_ptr]. destruct (Z.eqb_spec (fd d) (-1)); eexists _, _; (split; [done|]); (split; [by split_and!|]);
      split; try done; unfold holds; cbn; lia.
Qed.
Lemma open_tt_dev_spec d o r d' o' : fd d = -1 -> open_tt_dev k d o = (r, d', o') ->
  tlb d' = tlb d /\ ptr d' = ptr d /\ cleanup_ok o' = cleanup_ok o /\ tlbs o' = tlbs o /\ maps o' = maps o /\ r <= 0 /\
  -1 <= fd d' /\ fds o' = fds o + (if fd d' =? -1 then 0 else 1) /\ (r = 0 -> 0 <= fd d').
Proof.
  intros Hf. unfold open_tt_dev. rewrite Hf. cbn [Z.leb Z.compare]. cbn [pop].
  destruct (hd 0 (answers o) <? 0) eqn:E1.
  { intros [= <- <- <-]. cbn. split_and!; try done; try lia; zlia. }
  assert (Hne : hd 0 (answers o) =? -1 = false) by zlia.
  repeat case_match; intros [= <- <- <-]; cbn [fd with_fd tlb ptr cleanup_ok tlbs maps fds count_res answers] in *; rewrite ?Hne;
    split_and!; try done; try lia; unfold ENOENT, EFAULT; zlia.
Qed.
Lemma map_tlb_spec d o r d' o' : tlb d = false -> map_tlb d o = (r, d', o') ->
  fd d' = fd d /\ ptr d' = ptr d /\ cleanup_ok o' = cleanup_ok o /\ fds o' = fds o /\ r <= 0 /\
  (r = 0 -> tlb d' = true /\ tlbs o' = tlbs o + 1 /\ maps o' = maps o + 1) /\
  (r < 0 -> tlb d' = false /\ maps o' = maps o /\ tlbs o <= tlbs o' <= tlbs o + 1).
Proof.
  intros Ht. unfold map_tlb. rewrite Ht. cbn [pop]. destruct (hd 0 (answers o) <? 0) eqn:E1.
  { intros [= <- <- <-]. cbn. split_and!; try done; try (intros _; split_and!; try done; lia); zlia. }
  case_match eqn:E2; intros [= <- <- <-]; cbn in *; split_and!; try done; try (intros _; split_and!; try done; lia); zlia.
Qed.
Lemma open_fail_spec r d o f t : r < 0 -> -1 <= fd d -> f = (if fd d =? -1 then 0 else 1) -> cleanup_ok o = true ->
  0 <= t <= 1 -> holds o f (t + Z.b2z (tlb d)) (Z.b2z (tlb d)) ->
  let '(r', d', o') := open_fail r d o in r' < 0 /\ closed d' /\ exists t, 0 <= t <= 1 /\ holds o' 0 t 0.
Proof.
  intros Hr Hfd Hf Hc Ht Hh. unfold open_fail.
  destruct (vuart_close_spec d o f t Hc Hfd Hf Hh) as (d' & o' & -> & Hcl & Hh' & _). eauto.
Qed.
End session_proofs.
(** A session that opens holds one descriptor, one TLB window and one mapping, starting
    communication changes none of that, and closing gives all of them back; a session that does
    not open is left closed, with nothing held but at most the window whose mapping failed. *)
Theorem vuart_session_resources (k : card) (d : vuart_data) (o : os) :
  closed d -> holds o 0 0 0 -> cleanup_ok o = true ->
  let '(r, d1, o1) := vuart_open k d o in
  (r = 0 /\ 0 <= fd d1 /\ holds o1 1 1 1 /\
   forall n, let '(d2, o2) := vuart_starts k n d1 o1 in
     holds o2 1 1 1 /\ let '(d3, o3) := vuart_close d2 o2 in closed d3 /\ holds o3 0 0 0) \/
  (r < 0 /\ closed d1 /\ exists t, 0 <= t <= 1 /\ holds o1 0 t 0).
Proof.
  intros (Hf & Ht & Hp) (H1 & H2 & H3) Hc. unfold vuart_open.
  destruct (open_tt_dev k d o) as [[r d1] o1] eqn:E1.
  destruct (open_tt_dev_spec k d o r d1 o1 Hf E1) as (A1 & A2 & A3 & A4 & A5 & A6 & A7 & A8 & A9).
  destruct (r <? 0) eqn:Er.
  { pose proof (open_fail_spec r d1 o1 _ 0 ltac:(zlia) A7 eq_refl ltac:(congruence) ltac:(lia)) as Hfail.
    destruct (open_fail r d1 o1) as [[r' d'] o']. right. apply Hfail. rewrite A1, Ht. unfold holds. cbn. lia. }
  assert (r = 0) as -> by zlia. specialize (A9 eq_refl). destruct (Z.eqb_spec (fd d1) (-1)) as [?|Hn]; [lia|].
  destruct (map_tlb d1 o1) as [[r2 d2] o2] eqn:E2.
  destruct (map_tlb_spec d1 o1 r2 d2 o2 ltac:(congruence) E2) as (B1 & B2 & B3 & B4 & B5 & B6 & B7).
  assert (Hne : fd d2 =? -1 = false) by zlia.
  destruct (r2 <? 0) eqn:Er2.
  { destruct (B7 ltac:(zlia)) as (C1 & C2 & C3).
    pose proof (open_fail_spec r2 d2 o2 _ (tlbs o2) ltac:(zlia) ltac:(lia) eq_refl ltac:(congruence) ltac:(lia)) as Hfail.
    destruct (open_fail r2 d2 o2) as [[r' d'] o']. right. apply Hfail. rewrite C1, Hne. unfold holds. cbn. lia. }
  assert (r2 = 0) as -> by zlia. destruct (B6 eq_refl) as (C1 & C2 & C3).
  destruct (check_post_code k d2 o2) as [r3 o3] eqn:E3. destruct (check_post_code_hold k d2 o2 r3 o3 E3) as [(D1 & D2 & D3 & D4) D5].
  destruct (r3 <? 0) eqn:Er3.
  { pose proof (open_fail_spec r3 d2 o3 _ 0 ltac:(zlia) ltac:(lia) eq_refl ltac:(congruence) ltac:(lia)) as Hfail.
    destruct (open_fail r3 d2 o3) as [[r' d'] o']. right. apply Hfail. rewrite C1, Hne. unfold holds. cbn. lia. }
  left. split; [done|]. split; [lia|]. assert (Hh : holds o3 1 1 1) by (unfold holds; lia). split; [done|].
  assert (Hc3 : cleanup_ok o3 = true) by congruence. clear E1 E2 E3 D1 D2 D3 D4.
  intros n. pose proof (vuart_starts_hold k n d2 o3) as Hs. destruct (vuart_starts k n d2 o3) as [d' o'].
  destruct Hs as ((F1 & F2 & F3 & F4) & F5 & F6). assert (Hh2 : holds o' 1 1 1) by (unfold holds in *; lia). split; [done|].
  destruct (vuart_close_spec d' o' 1 0 ltac:(congruence)) as (d3 & o4 & -> & G1 & G2 & _); [lia| | |done].
  - by rewrite F5, Hne.
  - by rewrite F6, C1.
Qed.
Definition bh_card : card :=
  {| vendor_id := 0x1e52; device_id := 0xb140; driver_version := 2;
     arc_mem a := if a =? 0x80030060 then 0xc0de0000 else if a =? 0x800304a0 then 0x10001000
                  else if a =? 0x10001000 then 0x775e21a1 else 0 |}.
(** [VUART_DATA_INIT]. *)
Definition VUART_DATA_INIT (a m id : Z) : vuart_data :=
  {| fd := -1; bar_idx := 4; addr := a; data_magic := m; pci_device_id := id; tlb_id := 0; tlb := false;
     vuart_addr := 0; ptr := None |}.
Definition console_data : vuart_data := VUART_DATA_INIT 0x800304a0 0x775e21a1 0xb140.
Definition os0 (l : list Z) (ok : bool) : os :=
  {| answers := l; fds := 0; tlbs := 0; maps := 0; window := 0; cleanup_ok := ok |}.
Lemma vuart_session_resources_witness :
  let '(r, d1, o1) := vuart_open bh_card console_data (os0 [3] true) in
  (r = 0 /\ 0 <= fd d1 /\ holds o1 1 1 1 /\
   forall n, let '(d2, o2) := vuart_starts bh_card n d1 o1 in
     holds o2 1 1 1 /\ let '(d3, o3) := vuart_close d2 o2 in closed d3 /\ holds o3 0 0 0) \/
  (r < 0 /\ closed d1 /\ exists t, 0 <= t <= 1 /\ holds o1 0 t 0).
Proof. apply (vuart_session_resources bh_card console_data (os0 [3] true)); [by split_and! | by split_and! | reflexivity]. Defined.
Example session_opens : fst (fst (vuart_open bh_card console_data (os0 [3] true))) = 0.
Proof. reflexivity. Qed.

(** ** The window reaches the address asked for *)
Lemma window_reaches d phys : 0 <= phys ->
  Z.ldiff phys (window_mask d) + Z.land phys (window_mask d) = phys /\ 0 <= Z.land phys (window_mask d) <= window_mask d.
Proof.
  intros Hp. unfold window_mask. set (n := if bar_idx d =? 0 then TLB_2M_SHIFT else TLB_4G_SHIFT).
  assert (0 <= n) by (subst n; unfold TLB_2M_SHIFT, TLB_4G_SHIFT; case_match; lia).
  rewrite Z.ldiff_ones_r, Z.land_ones, Z.shiftl_mul_pow2, Z.shiftr_div_pow2 by lia.
  pose proof (Z.pow_pos_nonneg 2 n ltac:(lia) ltac:(lia)). pose proof (Z.mod_pos_bound phys (2 ^ n) ltac:(lia)).
  rewrite Z.ones_equiv. pose proof (Z_div_mod_eq_full phys (2 ^ n)). lia.
Qed.
Lemma window_mask_ptr d a p : window_mask (with_ptr d a p) = window_mask d.
Proof. done. Qed.
(** The place of the descriptor that the host uses is where the window shows it. *)
Definition linked d o : Prop := forall p, ptr d = Some p -> window o + p = vuart_addr d.
(** When communication starts, the descriptor has the magic number, and it is the one that the
    discovery register names if that was read. *)
Theorem vuart_start_links (k : card) (d : vuart_data) (o : os) :
  linked d o -> data_magic d <> 0 -> 0 <= addr d ->
  let '(r, d', o') := vuart_start k d o in
  r = 0 -> linked d' o' /\ arc_mem k (vuart_addr d') = data_magic d' /\ ptr d' <> None /\
           (vuart_addr d' = vuart_addr d \/ vuart_addr d' = u32 (arc_mem k (addr d))).
Proof.
  intros Hl Hm Ha. unfold vuart_start.
  destruct (negb (_ =? data_magic d)) eqn:Em.
  - unfold arc_read32, program_noc at 1. cbn [pop].
    destruct (hd 0 (answers o) <? 0) eqn:E1.
    { assert (negb (hd 0 (answers o) =? 0) = true) as -> by zlia. rewrite E1. zlia. }
    change (negb (0 =? 0)) with false. cbn [set_window window]. cbv iota.
    destruct (window_reaches d (addr d) Ha) as [-> _].
    destruct (arc_mem k (addr d) <? 0) eqn:E2; [zlia|]. cbn [vuart_addr with_ptr].
    destruct (u32 (arc_mem k (addr d)) =? 0xffffffff) eqn:E3; [done|].
    unfold program_noc. cbn [pop answers set_window]. destruct (hd 0 (tail (answers o)) <? 0) eqn:E4.
    { assert (negb (hd 0 (tail (answers o)) =? 0) = true) as -> by zlia. zlia. }
    change (negb (0 =? 0)) with false. rewrite window_mask_ptr. cbn [set_window window]. cbv iota.
    pose proof (wrap_in_width 32 (arc_mem k (addr d)) ltac:(lia)) as [Hlo _].
    destruct (window_reaches d (u32 (arc_mem k (addr d))) Hlo) as [Hw _].
    rewrite Hw. cbn [data_magic with_ptr].
    destruct (arc_mem k (u32 (arc_mem k (addr d))) =? data_magic d) eqn:E5; cbn [negb]; [|intros Hx; unfold ENOENT in Hx; lia]. intros _.
    split; [intros p [= <-]; exact Hw|]. split; [cbn; zlia|]. split; [done | by right].
  - intros _. destruct (ptr d) as [p|] eqn:Ep; [|zlia]. rewrite (Hl p Ep) in Em. split; [done|].
    split; [zlia|]. split; [done | by left].
Qed.

(** * Three more defects *)
(** When the mapping fails after the window was allocated, the window is not released. *)
Theorem mmap_failure_keeps_window :
  let '(r, d, o) := vuart_open bh_card console_data (os0 [3; 0; 0; 5; - ENOMEM] true) in
  r = - ENOMEM /\ closed d /\ holds o 0 1 0.
Proof. vm_compute. auto. Qed.
(** When the release fails after the unmapping, the session still counts as mapped: opened
    again, it succeeds without a mapping, and reads through the stale one. *)
Theorem failed_release_reuses_mapping :
  let '(_, d1, o1) := vuart_open bh_card console_data (os0 [3; 0; 0; 5; 0; 0; 0; - EIO] false) in
  let '(d2, o2) := vuart_close d1 o1 in
  let '(r, d3, o3) := vuart_open bh_card d2 o2 in
  r = 0 /\ maps o2 = 0 /\ maps o3 = 0 /\ tlb d3 = true.
Proof. vm_compute. auto. Qed.
(** [install_handlers]: the time after which the console gives up, in nanoseconds. *)
Definition console_timeout_ns (timeout_rel_ms : Z) : Z :=
  timeout_rel_ms / 1000 * 1000000000 + timeout_rel_ms mod 1000000.
(** A wait of less than a second ends after as many nanoseconds as milliseconds were asked for. *)
Theorem console_timeout_short ms : 0 < ms < 1000 -> console_timeout_ns ms = ms.
Proof. intros Hms. unfold console_timeout_ns. rewrite Z.div_small, Z.mod_small by lia. done. Qed.
