(* ===== verification/Noc2Axi.v ===== *)
(** Windows into the NOC: [lib/tenstorrent/bh_arc/noc2axi.c] and [noc2axi.h], and the
    accesses to the MRISCs of [gddr.c] that go through them.

    The ARC reaches the tiles of the chip through 16 windows of 16 MiB per NOC. A window
    shows a tile's (or, for writes, a rectangle of tiles') address space from an aligned
    address; four registers per window say which. [noc_world] is the bridge as those
    registers describe it, over any tiles. *)
From stdpp Require Import prelude list numbers functions.
From Stdlib Require Import ZArith Lia.
From S2P Require Import Prelude Bus Noc.
Open Scope Z_scope.

Definition ARC_NOC0_BASE_ADDR : Z := 0xC0000000.
Definition ARC_NOC1_BASE_ADDR : Z := 0xE0000000.
Definition NOC_TLB_LOG_SIZE : Z := 24.
Definition NOC_TLB_WINDOW_ADDR_MASK : Z := Z.ones NOC_TLB_LOG_SIZE.
Definition NOC2AXI_NUM_TLB_PER_RING : Z := 16.
Definition RING0_TLB_REG_OFFSET : Z := 0x1000.
Definition AXI2NOC_RING_SEL_BIT : Z := 15.
Definition NIU_0_A_REG_MAP_BASE_ADDR : Z := 0x80050000.
Definition kNoc2AxiOrderingStrict : Z := 1.

Definition GetTlbRegStartAddr (ring : Z) : Z :=
  Z.lor (NIU_0_A_REG_MAP_BASE_ADDR + RING0_TLB_REG_OFFSET) (Z.shiftl ring AXI2NOC_RING_SEL_BIT).
Definition GetTlbWindowAddr (noc_id tlb_entry addr : Z) : Z :=
  (if noc_id =? 0 then ARC_NOC0_BASE_ADDR else ARC_NOC1_BASE_ADDR) + Z.shiftl tlb_entry NOC_TLB_LOG_SIZE
  + Z.land addr NOC_TLB_WINDOW_ADDR_MASK.
(** The registers: bit fields from the lowest bit up. *)
Definition NOC2AXITlb0RegT (passthrough_bits lower_addr_bits : Z) : Z :=
  passthrough_bits mod 2 ^ 24 + lower_addr_bits mod 2 ^ 8 * 2 ^ 24.
Definition NOC2AXITlb1RegT (middle_addr_bits : Z) : Z := middle_addr_bits mod 2 ^ 32.
Definition NOC2AXITlb2RegT (x_end y_end x_start y_start multicast_en ordering_mode : Z) : Z :=
  x_end mod 2 ^ 6 + y_end mod 2 ^ 6 * 2 ^ 6 + x_start mod 2 ^ 6 * 2 ^ 12 + y_start mod 2 ^ 6 * 2 ^ 18
  + multicast_en mod 2 * 2 ^ 24 + ordering_mode mod 2 ^ 2 * 2 ^ 25.

Section noc2axi.
Context {W : Type} `{RegBus W}.
Definition WriteTlbSetup (ring tlb_num tlb0 tlb1 tlb2 tlb3 : Z) : Dev W unit :=
  let noc2axi_tlb i := GetTlbRegStartAddr ring + 4 * i in
  _ ← WriteReg (noc2axi_tlb (tlb_num * 2)) tlb0;
  _ ← WriteReg (noc2axi_tlb (tlb_num * 2 + 1)) tlb1;
  _ ← WriteReg (noc2axi_tlb (tlb_num + NOC2AXI_NUM_TLB_PER_RING * 2)) tlb2;
  WriteReg (noc2axi_tlb (tlb_num + NOC2AXI_NUM_TLB_PER_RING * 3)) tlb3.
Definition NOC2AXITlbSetup (ring tlb_num x y addr : Z) : Dev W unit :=
  WriteTlbSetup ring tlb_num (NOC2AXITlb0RegT 0 (Z.shiftr addr 24)) (NOC2AXITlb1RegT (Z.shiftr addr 32))
    (NOC2AXITlb2RegT x y 0 0 0 kNoc2AxiOrderingStrict) 0.
Definition NOC2AXIMulticastTlbSetup (ring tlb_num x_start y_start x_end y_end addr ordering : Z) : Dev W unit :=
  WriteTlbSetup ring tlb_num (NOC2AXITlb0RegT 0 (Z.shiftr addr 24)) (NOC2AXITlb1RegT (Z.shiftr addr 32))
    (NOC2AXITlb2RegT x_end y_end x_start y_start 1 ordering) 0.
(** The rectangle, [(x_start, y_start, x_end, y_end)]. *)
Definition broadcast_rect (ring : Z) (translation_enabled : bool) : Z * Z * Z * Z :=
  if ring =? 0 then (2, 2, 1, 11)
  else if translation_enabled then (1, 11, 2, 2)
  else (0, 0, 16, 10).
Definition NOC2AXITensixBroadcastTlbSetup (translation_enabled : bool) (ring tlb_num addr ordering : Z) : Dev W unit :=
  let '(x_start, y_start, x_end, y_end) := broadcast_rect ring translation_enabled in
  NOC2AXIMulticastTlbSetup ring tlb_num x_start y_start x_end y_end addr ordering.
Definition NOC2AXIWrite32 (noc_id tlb_entry addr data : Z) : Dev W unit :=
  WriteReg (GetTlbWindowAddr noc_id tlb_entry addr) data.
Definition NOC2AXIRead32 (noc_id tlb_entry addr : Z) : Dev W Z :=
  ReadReg (GetTlbWindowAddr noc_id tlb_entry addr).
End noc2axi.

(** * The bridge *)
(** Tiles: reads and writes of words, by NOC, coordinates and address. [clock]: the time. *)
Class NocTiles (T : Type) := {
  tile_read : Z -> Z -> Z -> Z -> T -> Z * T;
  tile_write : Z -> Z -> Z -> Z -> Z -> T -> T;
  tile_uptime : T -> Z * T;
  tile_wait : Z -> T -> T;
  takes_broadcast : Z -> Z -> Z -> T -> bool; (* a tile that broadcasts on a NOC reach *)
}.
Record noc_world (T : Type) := { tlb : Z -> Z -> Z; tiles : T }.
Arguments tlb {T}. Arguments tiles {T}. Arguments Build_noc_world {T}.
(** Where a bus address leads. *)
Inductive place := TlbReg (ring i : Z) | Window (ring n off : Z) | Elsewhere.
Definition place_of (a : Z) : place :=
  let ring0 := 0x80051000 in let ring1 := 0x80059000 in
  if (ring0 <=? a) && (a <? ring0 + 256) then TlbReg 0 ((a - ring0) / 4)
  else if (ring1 <=? a) && (a <? ring1 + 256) then TlbReg 1 ((a - ring1) / 4)
  else if (ARC_NOC0_BASE_ADDR <=? a) && (a <? ARC_NOC0_BASE_ADDR + 2 ^ 28)
  then Window 0 ((a - ARC_NOC0_BASE_ADDR) / 2 ^ 24) (a mod 2 ^ 24)
  else if (ARC_NOC1_BASE_ADDR <=? a) && (a <? ARC_NOC1_BASE_ADDR + 2 ^ 28)
  then Window 1 ((a - ARC_NOC1_BASE_ADDR) / 2 ^ 24) (a mod 2 ^ 24)
  else Elsewhere.
(** What the registers of a window say. *)
Definition field (v lo w : Z) : Z := v / 2 ^ lo mod 2 ^ w.
Definition window_addr (r : Z -> Z) (n off : Z) : Z :=
  r (2 * n + 1) * 2 ^ 32 + field (r (2 * n)) 24 8 * 2 ^ 24 + off.
Definition dest (r : Z -> Z) (n : Z) : Z * Z := (field (r (n + 32)) 0 6, field (r (n + 32)) 6 6).
Definition origin (r : Z -> Z) (n : Z) : Z * Z := (field (r (n + 32)) 12 6, field (r (n + 32)) 18 6).
Definition multicast (r : Z -> Z) (n : Z) : bool := field (r (n + 32)) 24 1 =? 1.
(** Coordinates from [s] to [e], wrapping round; packets on NOC 1 run backwards in
    translated coordinates. *)
Definition span (backwards : bool) (s e v : Z) : bool :=
  let '(lo, hi) := if backwards then (e, s) else (s, e) in
  if lo <=? hi then (lo <=? v) && (v <=? hi) else (lo <=? v) || (v <=? hi).
Definition in_rect (backwards : bool) (r : Z * Z * Z * Z) (x y : Z) : bool :=
  let '(x_start, y_start, x_end, y_end) := r in span backwards x_start x_end x && span backwards y_start y_end y.
Definition grid : list (Z * Z) := x ← seqZ 0 17; y ← seqZ 0 12; [(x, y)].

Section world.
Context {T : Type} `{NocTiles T}.
(** NOC 1 in translated coordinates. *)
Context (backwards : Z -> bool).
Implicit Types (w : noc_world T) (t : T).
Definition write_tiles (ring : Z) (l : list (Z * Z)) (a v : Z) t : T :=
  foldl (λ t '(x, y), tile_write ring x y a v t) t l.
Definition receivers (ring : Z) (r : Z -> Z) (n : Z) t : list (Z * Z) :=
  let '(x_end, y_end) := dest r n in
  if multicast r n then
    let '(x_start, y_start) := origin r n in
    filter (λ '(x, y), in_rect (backwards ring) (x_start, y_start, x_end, y_end) x y && takes_broadcast ring x y t = true) grid
  else [(x_end, y_end)].
Definition noc_bus : RegBus (noc_world T) := {|
  bus_read a w :=
    match place_of a with
    | TlbReg ring i => (tlb w ring i, w)
    | Window ring n off =>
        let '(x, y) := dest (tlb w ring) n in
        let '(v, t) := tile_read ring x y (window_addr (tlb w ring) n off) (tiles w) in
        (v, Build_noc_world (tlb w) t)
    | Elsewhere => (0, w)
    end;
  bus_write a v w :=
    match place_of a with
    | TlbReg ring i => Build_noc_world (<[ring := <[i := v]> (tlb w ring)]> (tlb w)) (tiles w)
    | Window ring n off =>
        Build_noc_world (tlb w)
          (write_tiles ring (receivers ring (tlb w ring) n (tiles w)) (window_addr (tlb w ring) n off) v (tiles w))
    | Elsewhere => w
    end;
  bus_uptime w := let '(v, t) := tile_uptime (tiles w) in (v, Build_noc_world (tlb w) t);
  bus_wait c w := Build_noc_world (tlb w) (tile_wait c (tiles w));
|}.
End world.

(** * Setting a window up *)
Lemma place_tlb ring i : (ring = 0 \/ ring = 1) -> 0 <= i < 64 -> place_of (GetTlbRegStartAddr ring + 4 * i) = TlbReg ring i.
Proof.
  intros Hr Hi. assert (E : GetTlbRegStartAddr ring = if ring =? 0 then 0x80051000 else 0x80059000) by (by destruct Hr as [-> | ->]).
  rewrite E. unfold place_of. destruct Hr as [-> | ->]; cbn [Z.eqb]; repeat case_match; zb; try lia.
  - f_equal. replace (2147815424 + 4 * i - 2147815424) with (i * 4) by lia. by apply Z.div_mul.
  - f_equal. replace (2147848192 + 4 * i - 2147848192) with (i * 4) by lia. by apply Z.div_mul.
Qed.
Lemma place_window ring n a : (ring = 0 \/ ring = 1) -> 0 <= n < 16 ->
  place_of (GetTlbWindowAddr ring n a) = Window ring n (a mod 2 ^ 24).
Proof.
  intros Hr Hn. unfold GetTlbWindowAddr, NOC_TLB_WINDOW_ADDR_MASK, NOC_TLB_LOG_SIZE.
  rewrite Z.land_ones, Z.shiftl_mul_pow2 by lia. pose proof (Z.mod_pos_bound a (2 ^ 24) ltac:(lia)) as Hm.
  set (m := a mod 2 ^ 24) in *. unfold place_of, ARC_NOC0_BASE_ADDR, ARC_NOC1_BASE_ADDR.
  assert (Hoff : forall b, b mod 2 ^ 24 = 0 -> (b + n * 2 ^ 24 + m) mod 2 ^ 24 = m).
  { intros b Hb. replace (b + n * 2 ^ 24 + m) with (b + m + n * 2 ^ 24) by lia. rewrite Z.mod_add by lia.
    rewrite <- Z.add_mod_idemp_l, Hb by lia. by apply Z.mod_small. }
  assert (Hdiv : forall b, (b + n * 2 ^ 24 + m - b) / 2 ^ 24 = n).
  { intros b. replace (b + n * 2 ^ 24 + m - b) with (m + n * 2 ^ 24) by lia. rewrite Z.div_add by lia.
    rewrite Z.div_small by lia. lia. }
  destruct Hr as [-> | ->]; cbn [Z.eqb]; repeat case_match; zb; try lia; rewrite Hdiv, Hoff; done.
Qed.
Lemma tlb2_fields xe ye xs ys m o :
  let r := NOC2AXITlb2RegT xe ye xs ys m o in
  field r 0 6 = xe mod 64 /\ field r 6 6 = ye mod 64 /\ field r 12 6 = xs mod 64 /\ field r 18 6 = ys mod 64 /\
  field r 24 1 = m mod 2.
Proof.
  unfold NOC2AXITlb2RegT, field. change (2 ^ 6) with 64. change (2 ^ 0) with 1. change (2 ^ 12) with 4096.
  change (2 ^ 18) with 262144. change (2 ^ 24) with 16777216. change (2 ^ 25) with 33554432. change (2 ^ 1) with 2. change (2 ^ 2) with 4.
  pose proof (Z.mod_pos_bound xe 64 ltac:(lia)). pose proof (Z.mod_pos_bound ye 64 ltac:(lia)).
  pose proof (Z.mod_pos_bound xs 64 ltac:(lia)). pose proof (Z.mod_pos_bound ys 64 ltac:(lia)).
  pose proof (Z.mod_pos_bound m 2 ltac:(lia)). pose proof (Z.mod_pos_bound o 4 ltac:(lia)).
  set (a := xe mod 64) in *. set (b := ye mod 64) in *. set (c := xs mod 64) in *. set (d := ys mod 64) in *.
  set (e := m mod 2) in *. set (g := o mod 4) in *. clearbody a b c d e g.
  split_and!; Z.to_euclidean_division_equations; lia.
Qed.
Definition align (a : Z) : Z := a - a mod 2 ^ 24.
Lemma tlb01_addr a off : 0 <= a < 2 ^ 64 ->
  NOC2AXITlb1RegT (Z.shiftr a 32) * 2 ^ 32 + field (NOC2AXITlb0RegT 0 (Z.shiftr a 24)) 24 8 * 2 ^ 24 + off = align a + off.
Proof.
  intros Ha. unfold NOC2AXITlb1RegT, NOC2AXITlb0RegT, field, align. rewrite !Z.shiftr_div_pow2 by lia.
  change (2 ^ 32) with 4294967296 in *. change (2 ^ 24) with 16777216. change (2 ^ 8) with 256. change (2 ^ 64) with 18446744073709551616 in *.
  Z.to_euclidean_division_equations. lia.
Qed.

Section access.
Context {T : Type} `{NocTiles T} (backwards : Z -> bool).
Implicit Types (w : noc_world T).
#[local] Hint Extern 0 (RegBus (noc_world _)) => exact (noc_bus backwards) : typeclass_instances.
(** The window shows a tile, or a rectangle, from [base] on. *)
Definition shows w (ring n x y base : Z) : Prop :=
  dest (tlb w ring) n = (x, y) /\ multicast (tlb w ring) n = false /\ forall off, window_addr (tlb w ring) n off = base + off.
Definition casts w (ring n : Z) (r : Z * Z * Z * Z) (base : Z) : Prop :=
  let '(x_start, y_start, x_end, y_end) := r in
  dest (tlb w ring) n = (x_end, y_end) /\ origin (tlb w ring) n = (x_start, y_start) /\ multicast (tlb w ring) n = true /\
  forall off, window_addr (tlb w ring) n off = base + off.
(** The registers of a window. *)
Definition regs_of (n : Z) : list Z := [2 * n; 2 * n + 1; n + 32; n + 48].
Definition other_windows w w' (ring n : Z) : Prop :=
  tiles w' = tiles w /\ forall ring' n', (ring' <> ring \/ n' <> n) -> 0 <= n' < 16 ->
    forall i, i ∈ regs_of n' -> tlb w' ring' i = tlb w ring' i.
Lemma write_tlb ring i v w : (ring = 0 \/ ring = 1) -> 0 <= i < 64 ->
  bus_write (GetTlbRegStartAddr ring + 4 * i) v w = Build_noc_world (<[ring := <[i := v]> (tlb w ring)]> (tlb w)) (tiles w).
Proof. intros Hr Hi. cbn [bus_write noc_bus]. by rewrite place_tlb. Qed.
Lemma WriteTlbSetup_spec ring n r0 r1 r2 r3 w : (ring = 0 \/ ring = 1) -> 0 <= n < 16 ->
  exists w', WriteTlbSetup ring n r0 r1 r2 r3 w = Some (tt, w') /\ other_windows w w' ring n /\
    tlb w' ring (2 * n) = r0 /\ tlb w' ring (2 * n + 1) = r1 /\ tlb w' ring (n + 32) = r2.
Proof.
  intros Hr Hn. unfold WriteTlbSetup, NOC2AXI_NUM_TLB_PER_RING, WriteReg, mbind, Dev_bind.
  rewrite !write_tlb by (done || lia). cbn [tlb tiles]. eexists. split; [done|].
  rewrite !fn_lookup_insert. split; [split; [done|]|].
  - intros ring' n' Hne Hn' i Hi. cbn [tlb]. destruct (decide (ring' = ring)) as [->|Hd].
    + rewrite !fn_lookup_insert. destruct Hne as [|Hne]; [done|]. unfold regs_of in Hi.
      rewrite !fn_lookup_insert_ne; [done| | | |]; set_unfold; lia.
    + by rewrite !fn_lookup_insert_ne by done.
  - cbn [tlb]. rewrite !fn_lookup_insert.
    rewrite (fn_lookup_insert_ne _ (n + 16 * 3)), (fn_lookup_insert_ne _ (n + 16 * 2)) by lia.
    replace (n * 2) with (2 * n) by lia. split_and!.
    + rewrite (fn_lookup_insert_ne _ (2 * n + 1)) by lia. apply fn_lookup_insert.
    + rewrite (fn_lookup_insert_ne _ (n + 16 * 3)), (fn_lookup_insert_ne _ (n + 16 * 2)) by lia. apply fn_lookup_insert.
    + rewrite (fn_lookup_insert_ne _ (n + 16 * 3)) by lia. replace (n + 16 * 2) with (n + 32) by lia. apply fn_lookup_insert.
Qed.

Definition coords_ok (x y : Z) : Prop := 0 <= x < 64 /\ 0 <= y < 64.
Lemma NOC2AXITlbSetup_spec ring n x y a w :
  (ring = 0 \/ ring = 1) -> 0 <= n < 16 -> coords_ok x y -> 0 <= a < 2 ^ 64 ->
  exists w', NOC2AXITlbSetup ring n x y a w = Some (tt, w') /\ other_windows w w' ring n /\ shows w' ring n x y (align a).
Proof.
  intros Hr Hn [Hx Hy] Ha.
  destruct (WriteTlbSetup_spec ring n (NOC2AXITlb0RegT 0 (Z.shiftr a 24)) (NOC2AXITlb1RegT (Z.shiftr a 32))
    (NOC2AXITlb2RegT x y 0 0 0 kNoc2AxiOrderingStrict) 0 w Hr Hn) as (w' & E & Ho & H0 & H1 & H2).
  exists w'. split; [exact E|]. split; [done|]. unfold shows, dest, multicast, window_addr. rewrite H0, H1, H2.
  destruct (tlb2_fields x y 0 0 0 kNoc2AxiOrderingStrict) as (-> & -> & _ & _ & ->).
  rewrite !Z.mod_small by lia. split; [done|]. split; [done|]. intros off. by apply tlb01_addr.
Qed.
Lemma NOC2AXIMulticastTlbSetup_spec ring n xs ys xe ye a o w :
  (ring = 0 \/ ring = 1) -> 0 <= n < 16 -> coords_ok xs ys -> coords_ok xe ye -> 0 <= a < 2 ^ 64 ->
  exists w', NOC2AXIMulticastTlbSetup ring n xs ys xe ye a o w = Some (tt, w') /\ other_windows w w' ring n /\
    casts w' ring n (xs, ys, xe, ye) (align a).
Proof.
  intros Hr Hn [Hxs Hys] [Hxe Hye] Ha.
  destruct (WriteTlbSetup_spec ring n (NOC2AXITlb0RegT 0 (Z.shiftr a 24)) (NOC2AXITlb1RegT (Z.shiftr a 32))
    (NOC2AXITlb2RegT xe ye xs ys 1 o) 0 w Hr Hn) as (w' & E & Ho & H0 & H1 & H2).
  exists w'. split; [exact E|]. split; [done|]. unfold casts, dest, origin, multicast, window_addr. rewrite H0, H1, H2.
  destruct (tlb2_fields xe ye xs ys 1 o) as (-> & -> & -> & -> & ->).
  rewrite !Z.mod_small by lia. split_and!; try done. intros off. by apply tlb01_addr.
Qed.
Lemma align_off a base : align a = base -> base + a mod 2 ^ 24 = a.
Proof. unfold align. lia. Qed.
Lemma NOC2AXIRead32_spec ring n x y a base w :
  (ring = 0 \/ ring = 1) -> 0 <= n < 16 -> shows w ring n x y base -> align a = base ->
  NOC2AXIRead32 ring n a w =
    Some (fst (tile_read ring x y a (tiles w)), Build_noc_world (tlb w) (snd (tile_read ring x y a (tiles w)))).
Proof.
  intros Hr Hn (Hd & _ & Hw) Ha. unfold NOC2AXIRead32, ReadReg. cbn [bus_read noc_bus].
  rewrite place_window by done. rewrite Hd, Hw, (align_off a base Ha). by destruct (tile_read _ _ _ _ _).
Qed.
Lemma NOC2AXIWrite32_spec ring n x y a v base w :
  (ring = 0 \/ ring = 1) -> 0 <= n < 16 -> shows w ring n x y base -> align a = base ->
  NOC2AXIWrite32 ring n a v w = Some (tt, Build_noc_world (tlb w) (tile_write ring x y a v (tiles w))).
Proof.
  intros Hr Hn (Hd & Hm & Hw) Ha. unfold NOC2AXIWrite32, WriteReg. cbn [bus_write noc_bus].
  rewrite place_window by done. unfold receivers. by rewrite Hd, Hm, Hw, (align_off a base Ha).
Qed.
Definition rect_tiles (ring : Z) (r : Z * Z * Z * Z) (t : T) : list (Z * Z) :=
  filter (λ '(x, y), in_rect (backwards ring) r x y && takes_broadcast ring x y t = true) grid.
Lemma NOC2AXIWrite32_cast_spec ring n r a v base w :
  (ring = 0 \/ ring = 1) -> 0 <= n < 16 -> casts w ring n r base -> align a = base ->
  NOC2AXIWrite32 ring n a v w =
    Some (tt, Build_noc_world (tlb w) (write_tiles ring (rect_tiles ring r (tiles w)) a v (tiles w))).
Proof.
  destruct r as [[[xs ys] xe] ye]. intros Hr Hn (Hd & Ho & Hm & Hw) Ha. unfold NOC2AXIWrite32, WriteReg.
  cbn [bus_write noc_bus]. rewrite place_window by done. unfold receivers.
  rewrite Hd, Hm, Ho, Hw, (align_off a base Ha). done.
Qed.
(** Reads and writes keep every window. *)
Lemma shows_tiles w t ring n x y base : shows w ring n x y base -> shows (Build_noc_world (tlb w) t) ring n x y base.
Proof. done. Qed.
End access.

(** * Properties *)
(** After a window is set up, every access through it within the same 16 MiB reaches
    exactly the tile and address asked for, for all tiles, NOCs, windows and 64-bit addresses;
    a multicast write reaches exactly the tiles of the rectangle that take broadcasts; no
    other window moves. *)
Theorem noc_window_reaches {T} `{NocTiles T} (backwards : Z -> bool) (ring n x y xs ys a a' v o : Z) (w : noc_world T) :
  (ring = 0 \/ ring = 1) -> 0 <= n < 16 -> coords_ok x y -> coords_ok xs ys -> 0 <= a < 2 ^ 64 -> align a' = align a ->
  let _ := noc_bus backwards in
  (exists w1, NOC2AXITlbSetup ring n x y a w = Some (tt, w1) /\ other_windows w w1 ring n /\
     (exists w2, NOC2AXIRead32 ring n a' w1 = Some (fst (tile_read ring x y a' (tiles w)), w2) /\
        tiles w2 = snd (tile_read ring x y a' (tiles w)) /\ tlb w2 = tlb w1) /\
     (exists w2, NOC2AXIWrite32 ring n a' v w1 = Some (tt, w2) /\
        tiles w2 = tile_write ring x y a' v (tiles w) /\ tlb w2 = tlb w1)) /\
  (exists w1, NOC2AXIMulticastTlbSetup ring n xs ys x y a o w = Some (tt, w1) /\ other_windows w w1 ring n /\
     exists w2, NOC2AXIWrite32 ring n a' v w1 = Some (tt, w2) /\ tlb w2 = tlb w1 /\
       tiles w2 = write_tiles ring (rect_tiles backwards ring (xs, ys, x, y) (tiles w)) a' v (tiles w)).
Proof.
  intros Hr Hn Hc Hcs Ha Hal bus. split.
  - destruct (NOC2AXITlbSetup_spec backwards ring n x y a w Hr Hn Hc Ha) as (w1 & E & Ho & Hs). exists w1.
    split; [exact E|]. split; [exact Ho|]. destruct Ho as [Ht _]. rewrite <- Ht. split.
    + eexists. split; [by eapply (NOC2AXIRead32_spec backwards)|]. done.
    + eexists. split; [by eapply (NOC2AXIWrite32_spec backwards)|]. done.
  - destruct (NOC2AXIMulticastTlbSetup_spec backwards ring n xs ys x y a o w Hr Hn Hcs Hc Ha) as (w1 & E & Ho & Hs). exists w1.
    split; [exact E|]. split; [exact Ho|]. destruct Ho as [Ht _]. rewrite <- Ht.
    eexists. split; [by eapply (NOC2AXIWrite32_cast_spec backwards)|]. done.
Qed.
(** Tiles as a memory of words. *)
Definition word_tiles : NocTiles (Z -> Z -> Z -> Z) := {|
  tile_read _ x y a t := (t x y a, t);
  tile_write _ x y a v t := <[x := <[y := <[a := v]> (t x y)]> (t x)]> t;
  tile_uptime t := (0, t); tile_wait _ t := t; takes_broadcast _ x _ _ := negb (x =? 8) && negb (x =? 9) |}.
Lemma noc_window_reaches_witness :
  let _ := word_tiles in let _ := noc_bus (λ r, r =? 1) in
  let w := Build_noc_world (λ _ _, 0) (λ _ _ _, 7) in
  (exists w1, NOC2AXITlbSetup 0 13 17 12 (2 ^ 37) w = Some (tt, w1) /\ other_windows w w1 0 13 /\
     (exists w2, NOC2AXIRead32 0 13 (2 ^ 37 + 0x8000) w1 = Some (7, w2) /\ tiles w2 = tiles w /\ tlb w2 = tlb w1) /\
     (exists w2, NOC2AXIWrite32 0 13 (2 ^ 37 + 0x8000) 1 w1 = Some (tt, w2) /\
        tiles w2 = tile_write 0 17 12 (2 ^ 37 + 0x8000) 1 (tiles w) /\ tlb w2 = tlb w1)) /\
  (exists w1, NOC2AXIMulticastTlbSetup 0 13 2 2 17 12 (2 ^ 37) 1 w = Some (tt, w1) /\ other_windows w w1 0 13 /\
     exists w2, NOC2AXIWrite32 0 13 (2 ^ 37 + 0x8000) 1 w1 = Some (tt, w2) /\ tlb w2 = tlb w1 /\
       tiles w2 = write_tiles 0 (rect_tiles (λ r, r =? 1) 0 (2, 2, 17, 12) (tiles w)) (2 ^ 37 + 0x8000) 1 (tiles w)).
Proof.
  intros t b w. apply (@noc_window_reaches _ word_tiles (λ r, r =? 1) 0 13 17 12 2 2 (2 ^ 37) (2 ^ 37 + 0x8000) 1 1 w);
    [by left | lia | unfold coords_ok; lia | unfold coords_ok; lia | lia | reflexivity].
Defined.
(** The rectangle of a broadcast holds every tile of the rows 2 to 11 of NOC 0, where the Tensix
    tiles are, and none of the ARC's row 0, in the coordinates of either NOC, with and without
    translation. *)
Definition noc_coords (ring : Z) (translation : bool) (x y : Z) : Z * Z :=
  if (ring =? 1) && negb translation then (16 - x, 11 - y) else (x, y).
Definition rect_ok (ring : Z) (translation : bool) (p : Z * Z) : Prop :=
  let '(nx, ny) := noc_coords ring translation (fst p) (snd p) in
  in_rect ((ring =? 1) && translation) (broadcast_rect ring translation) nx ny = (2 <=? snd p).
#[local] Instance rect_ok_dec ring translation p : Decision (rect_ok ring translation p).
Proof. unfold rect_ok. destruct (noc_coords _ _ _ _). apply _. Defined.
Lemma elem_of_grid x y : 0 <= x < 17 -> 0 <= y < 12 -> (x, y) ∈ grid.
Proof.
  intros Hx Hy. apply list_elem_of_bind. exists x. split; [|by apply elem_of_seqZ].
  apply list_elem_of_bind. exists y. split; [by left | by apply elem_of_seqZ].
Qed.
Theorem broadcast_rect_tensix (ring : Z) (translation : bool) (x y : Z) :
  (ring = 0 \/ ring = 1) -> 0 <= x < 17 -> 0 <= y < 12 -> y <> 1 ->
  let '(nx, ny) := noc_coords ring translation x y in
  in_rect ((ring =? 1) && translation) (broadcast_rect ring translation) nx ny = (2 <=? y).
Proof.
  intros Hr Hx Hy Hy1. enough (rect_ok ring translation (x, y)) by done.
  assert (Hg : (x, y) ∈ filter (λ p, p.2 <> 1) grid) by (apply list_elem_of_filter; split; [done | by apply elem_of_grid]).
  revert Hg. generalize (x, y). destruct Hr as [-> | ->], translation; by_enum.
Qed.

(** * Reaching the MRISCs *)
Definition MRISC_SETUP_TLB : Z := 13.
Definition MRISC_L1_ADDR : Z := 2 ^ 37.
Definition MRISC_REG_ADDR : Z := 2 ^ 40.
Definition NUM_MRISC_NOC2AXI_PORT : Z := 3.
Definition kSoftReset0Addr : Z := 0xFFB121B0.
Definition kAllRiscSoftReset : Z := 0x47800.
Definition kNiuCfg0Addr (i : Z) : Z := if i =? 0 then 0xFFB20100 else 0xFFB30100.
Definition NIU_CFG_0_AXI_SLAVE_ENABLE : Z := 15.
Definition get_gddr_mrisc_noc2axi_port (gddr_inst : Z) : Z := if gddr_inst =? 0 then 2 else 0.
Definition GetGddrMriscNocCoords (gddr_inst noc_id : Z) : option (Z * Z) :=
  GetGddrNocCoords gddr_inst (get_gddr_mrisc_noc2axi_port gddr_inst) noc_id.
Section mrisc.
Context {W : Type} `{RegBus W}.
(** A lookup outside the coordinate tables is [None]. *)
Definition at_tile {A} (c : option (Z * Z)) (f : Z -> Z -> Dev W A) : Dev W A :=
  match c with Some (x, y) => f x y | None => λ _, None end.
Definition SetupMriscL1Tlb (gddr_inst : Z) : Dev W Z :=
  at_tile (GetGddrMriscNocCoords gddr_inst 0) (λ x y,
    _ ← NOC2AXITlbSetup 0 MRISC_SETUP_TLB x y MRISC_L1_ADDR;
    mret (GetTlbWindowAddr 0 MRISC_SETUP_TLB MRISC_L1_ADDR)).
Definition MriscL1Read32 (gddr_inst addr : Z) : Dev W Z :=
  at_tile (GetGddrMriscNocCoords gddr_inst 0) (λ x y,
    _ ← NOC2AXITlbSetup 0 MRISC_SETUP_TLB x y MRISC_L1_ADDR;
    NOC2AXIRead32 0 MRISC_SETUP_TLB (MRISC_L1_ADDR + addr)).
Definition MriscL1Write32 (gddr_inst addr val : Z) : Dev W unit :=
  at_tile (GetGddrMriscNocCoords gddr_inst 0) (λ x y,
    _ ← NOC2AXITlbSetup 0 MRISC_SETUP_TLB x y MRISC_L1_ADDR;
    NOC2AXIWrite32 0 MRISC_SETUP_TLB (MRISC_L1_ADDR + addr) val).
Definition MriscRegRead32 (gddr_inst addr : Z) : Dev W Z :=
  at_tile (GetGddrMriscNocCoords gddr_inst 0) (λ x y,
    _ ← NOC2AXITlbSetup 0 MRISC_SETUP_TLB x y (MRISC_REG_ADDR + addr);
    NOC2AXIRead32 0 MRISC_SETUP_TLB (MRISC_REG_ADDR + addr)).
Definition MriscRegWrite32 (gddr_inst addr val : Z) : Dev W unit :=
  at_tile (GetGddrMriscNocCoords gddr_inst 0) (λ x y,
    _ ← NOC2AXITlbSetup 0 MRISC_SETUP_TLB x y (MRISC_REG_ADDR + addr);
    NOC2AXIWrite32 0 MRISC_SETUP_TLB (MRISC_REG_ADDR + addr) val).
Definition ReleaseMriscReset (gddr_inst : Z) : Dev W unit :=
  at_tile (GetGddrMriscNocCoords gddr_inst 0) (λ x y,
    _ ← NOC2AXITlbSetup 0 MRISC_SETUP_TLB x y kSoftReset0Addr;
    let soft_reset_0 := GetTlbWindowAddr 0 MRISC_SETUP_TLB kSoftReset0Addr in
    v ← ReadReg soft_reset_0;
    WriteReg soft_reset_0 (Z.ldiff v (Z.shiftl 1 11))).
Fixpoint soft_reset_nodes (gddr_inst : Z) (nodes : list Z) : Dev W unit :=
  match nodes with
  | [] => mret tt
  | node :: nodes =>
      _ ← at_tile (GetGddrNocCoords gddr_inst node 0) (λ x y,
        _ ← NOC2AXITlbSetup 0 MRISC_SETUP_TLB x y kSoftReset0Addr;
        NOC2AXIWrite32 0 MRISC_SETUP_TLB kSoftReset0Addr kAllRiscSoftReset);
      soft_reset_nodes gddr_inst nodes
  end.
Definition assert_mrisc_soft_reset (gddr_inst : Z) : Dev W unit :=
  soft_reset_nodes gddr_inst (seqZ 0 NUM_MRISC_NOC2AXI_PORT).
(** Both windows are set up first, then both registers are changed. *)
Definition set_axi_bit (i : Z) (axi_enable : bool) : Dev W unit :=
  let niu_cfg_0 := GetTlbWindowAddr i MRISC_SETUP_TLB (kNiuCfg0Addr i) in
  v ← ReadReg niu_cfg_0;
  WriteReg niu_cfg_0 (if axi_enable then Z.lor v (Z.shiftl 1 NIU_CFG_0_AXI_SLAVE_ENABLE)
                      else Z.ldiff v (Z.shiftl 1 NIU_CFG_0_AXI_SLAVE_ENABLE)).
Definition SetAxiEnable (gddr_inst noc2axi_port : Z) (axi_enable : bool) : Dev W unit :=
  _ ← at_tile (GetGddrNocCoords gddr_inst noc2axi_port 0) (λ x y, NOC2AXITlbSetup 0 MRISC_SETUP_TLB x y (kNiuCfg0Addr 0));
  _ ← at_tile (GetGddrNocCoords gddr_inst noc2axi_port 1) (λ x y, NOC2AXITlbSetup 1 MRISC_SETUP_TLB x y (kNiuCfg0Addr 1));
  _ ← set_axi_bit 0 axi_enable;
  set_axi_bit 1 axi_enable.
End mrisc.
Definition coords_check (noc : Z) (q : Z * Z) : bool :=
  match GetGddrNocCoords (fst q) (snd q) noc with
  | Some (x, y) => (0 <=? x) && (x <? 64) && (0 <=? y) && (y <? 64)
  | None => false
  end.
Lemma gddr_coords i p noc : 0 <= i < 8 -> 0 <= p < 3 -> (noc = 0 \/ noc = 1) ->
  exists x y, GetGddrNocCoords i p noc = Some (x, y) /\ coords_ok x y.
Proof.
  intros Hi Hp Hn. assert (HP : coords_check noc (i, p) = true).
  { apply (forall_in (λ q, coords_check noc q = true) (a ← seqZ 0 8; b ← seqZ 0 3; [(a, b)])).
    - destruct Hn as [-> | ->]; vm_compute; reflexivity.
    - apply list_elem_of_bind. exists i. split; [|by apply elem_of_seqZ].
      apply list_elem_of_bind. exists p. split; [by left | by apply elem_of_seqZ]. }
  unfold coords_check in HP. cbn [fst snd] in HP. destruct (GetGddrNocCoords i p noc) as [[x y]|]; [|done].
  exists x, y. split; [done|]. unfold coords_ok. zlia.
Qed.

(** The tile that runs the firmware of a DRAM controller, on NOC 0. *)
Definition mrisc_tile (i : Z) : Z * Z := default (0, 0) (GetGddrMriscNocCoords i 0).
Definition port_tile (i p noc : Z) : Z * Z := default (0, 0) (GetGddrNocCoords i p noc).
(** A read-modify-write of one word of a tile. *)
Definition tile_update {T} `{NocTiles T} (ring : Z) (c : Z * Z) (a : Z) (f : Z -> Z) (t : T) : T :=
  let '(v, t) := tile_read ring (fst c) (snd c) a t in tile_write ring (fst c) (snd c) a (f v) t.

Section mrisc_reach.
Context {T : Type} `{NocTiles T} (backwards : Z -> bool).
#[local] Hint Extern 0 (RegBus (noc_world _)) => exact (noc_bus backwards) : typeclass_instances.
Implicit Types (w : noc_world T).
(** One access, a read or a write, through a window set up for it. *)
Lemma read_via ring n x y a0 a w : (ring = 0 \/ ring = 1) -> 0 <= n < 16 -> coords_ok x y -> 0 <= a0 < 2 ^ 64 -> align a = align a0 ->
  exists w', (_ ← NOC2AXITlbSetup ring n x y a0; NOC2AXIRead32 ring n a) w = Some (fst (tile_read ring x y a (tiles w)), w') /\
    tiles w' = snd (tile_read ring x y a (tiles w)).
Proof.
  intros Hr Hn Hc Ha Hal. destruct (NOC2AXITlbSetup_spec backwards ring n x y a0 w Hr Hn Hc Ha) as (w1 & E & [Ht _] & Hs).
  eexists. unfold mbind, Dev_bind. rewrite E, (NOC2AXIRead32_spec backwards ring n x y a (align a0) w1) by done.
  rewrite Ht. done.
Qed.
Lemma write_via ring n x y a0 a v w : (ring = 0 \/ ring = 1) -> 0 <= n < 16 -> coords_ok x y -> 0 <= a0 < 2 ^ 64 -> align a = align a0 ->
  exists w', (_ ← NOC2AXITlbSetup ring n x y a0; NOC2AXIWrite32 ring n a v) w = Some (tt, w') /\
    tiles w' = tile_write ring x y a v (tiles w).
Proof.
  intros Hr Hn Hc Ha Hal. destruct (NOC2AXITlbSetup_spec backwards ring n x y a0 w Hr Hn Hc Ha) as (w1 & E & [Ht _] & Hs).
  eexists. unfold mbind, Dev_bind. rewrite E, (NOC2AXIWrite32_spec backwards ring n x y a v (align a0) w1) by done.
  rewrite Ht. done.
Qed.
Lemma align_L1 a : 0 <= a < 2 ^ 24 -> align (MRISC_L1_ADDR + a) = align MRISC_L1_ADDR.
Proof.
  intros Ha. unfold align, MRISC_L1_ADDR. change (2 ^ 37 mod 2 ^ 24) with 0.
  rewrite <- Z.add_mod_idemp_l by lia. change (2 ^ 37 mod 2 ^ 24) with 0. rewrite Z.add_0_l, Z.mod_small by lia. lia.
Qed.
Lemma shows_other w w' ring n ring' n' x y base : other_windows w w' ring n -> (ring' <> ring \/ n' <> n) -> 0 <= n' < 16 ->
  shows w ring' n' x y base -> shows w' ring' n' x y base.
Proof.
  intros [_ Ho] Hne Hn' (Hd & Hm & Hw). unfold shows, dest, multicast, window_addr in *.
  rewrite !(Ho ring' n' Hne Hn') by (unfold regs_of; set_solver). done.
Qed.
(** Two accesses through a window that is already set up. *)
Lemma update_via ring n c a f base w : (ring = 0 \/ ring = 1) -> 0 <= n < 16 -> shows w ring n (fst c) (snd c) base -> align a = base ->
  exists w', (v ← ReadReg (GetTlbWindowAddr ring n a); WriteReg (GetTlbWindowAddr ring n a) (f v)) w = Some (tt, w') /\
    tiles w' = tile_update ring c a f (tiles w) /\ tlb w' = tlb w.
Proof.
  intros Hr Hn Hs Ha. unfold tile_update. unfold mbind, Dev_bind. fold (NOC2AXIRead32 (W := noc_world T) ring n a).
  rewrite (NOC2AXIRead32_spec backwards ring n (fst c) (snd c) a base w) by done.
  destruct (tile_read ring (fst c) (snd c) a (tiles w)) as [v t]. cbn [fst snd].
  fold (NOC2AXIWrite32 (W := noc_world T) ring n a (f v)).
  rewrite (NOC2AXIWrite32_spec backwards ring n (fst c) (snd c) a (f v) base (Build_noc_world (tlb w) t)) by done.
  eexists. by split_and!.
Qed.
Lemma release_reaches i x y w : GetGddrMriscNocCoords i 0 = Some (x, y) -> coords_ok x y ->
  exists w', ReleaseMriscReset i w = Some (tt, w') /\
    tiles w' = tile_update 0 (x, y) kSoftReset0Addr (λ r, Z.ldiff r (BIT 11)) (tiles w).
Proof.
  intros Hg Hc. unfold ReleaseMriscReset. rewrite Hg. cbn [at_tile].
  destruct (NOC2AXITlbSetup_spec backwards 0 MRISC_SETUP_TLB x y kSoftReset0Addr w) as (w1 & E & [Ht _] & Hs);
    [by left | unfold MRISC_SETUP_TLB; lia | done | unfold kSoftReset0Addr; lia|].
  destruct (update_via 0 MRISC_SETUP_TLB (x, y) kSoftReset0Addr (λ r, Z.ldiff r (BIT 11)) (align kSoftReset0Addr) w1) as (w2 & E2 & Ht2 & _);
    [by left | unfold MRISC_SETUP_TLB; lia | exact Hs | done|].
  exists w2. unfold mbind, Dev_bind. rewrite E. split; [exact E2|]. by rewrite Ht2, Ht.
Qed.
Lemma soft_reset_reaches i nodes w : 0 <= i < 8 -> Forall (λ p, 0 <= p < 3) nodes ->
  exists w', soft_reset_nodes i nodes w = Some (tt, w') /\
    tiles w' = foldl (λ t q, tile_write 0 (fst q) (snd q) kSoftReset0Addr kAllRiscSoftReset t) (tiles w)
                 (map (λ p, port_tile i p 0) nodes).
Proof.
  intros Hi. revert w. induction nodes as [|p nodes IH]; intros w Hp; cbn [soft_reset_nodes map foldl]; [by exists w|].
  apply list.Forall_cons in Hp as [Hp Hps]. destruct (gddr_coords i p 0 Hi Hp (or_introl eq_refl)) as (x & y & Hg & Hc).
  assert (Hpt : port_tile i p 0 = (x, y)) by (unfold port_tile; by rewrite Hg). rewrite Hg, Hpt. cbn [at_tile fst snd].
  destruct (write_via 0 MRISC_SETUP_TLB x y kSoftReset0Addr kSoftReset0Addr kAllRiscSoftReset w) as (w1 & E & Ht);
    [by left | unfold MRISC_SETUP_TLB; lia | done | unfold kSoftReset0Addr; lia | done |].
  destruct (IH w1 Hps) as (w2 & E2 & Ht2). exists w2. unfold mbind at 1, Dev_bind at 1. rewrite E. split; [exact E2|].
  by rewrite Ht2, Ht.
Qed.
Definition axi_bit (on : bool) (r : Z) : Z := if on then Z.lor r (BIT 15) else Z.ldiff r (BIT 15).
Lemma axi_enable_reaches i p on w : 0 <= i < 8 -> 0 <= p < 3 ->
  exists w', SetAxiEnable i p on w = Some (tt, w') /\
    tiles w' = tile_update 1 (port_tile i p 1) (kNiuCfg0Addr 1) (axi_bit on)
                 (tile_update 0 (port_tile i p 0) (kNiuCfg0Addr 0) (axi_bit on) (tiles w)).
Proof.
  intros Hi Hp. unfold SetAxiEnable, port_tile.
  destruct (gddr_coords i p 0 Hi Hp (or_introl eq_refl)) as (x0 & y0 & Hg0 & Hc0).
  destruct (gddr_coords i p 1 Hi Hp (or_intror eq_refl)) as (x1 & y1 & Hg1 & Hc1).
  rewrite Hg0, Hg1. cbn [at_tile default].
  assert (Hn : 0 <= MRISC_SETUP_TLB < 16) by (unfold MRISC_SETUP_TLB; lia).
  destruct (NOC2AXITlbSetup_spec backwards 0 MRISC_SETUP_TLB x0 y0 (kNiuCfg0Addr 0) w) as (w1 & E1 & [Ht1 _] & Hs1);
    [by left | done | done | cbn; lia|].
  destruct (NOC2AXITlbSetup_spec backwards 1 MRISC_SETUP_TLB x1 y1 (kNiuCfg0Addr 1) w1) as (w2 & E2 & Ho2 & Hs2);
    [by right | done | done | cbn; lia|].
  pose proof (shows_other _ _ _ _ 0 _ _ _ _ Ho2 ltac:(left; lia) Hn Hs1) as Hs1'.
  destruct (update_via 0 MRISC_SETUP_TLB (x0, y0) (kNiuCfg0Addr 0) (axi_bit on) (align (kNiuCfg0Addr 0)) w2) as (w3 & E3 & Ht3 & Hb3);
    [by left | done | exact Hs1' | done|].
  destruct (update_via 1 MRISC_SETUP_TLB (x1, y1) (kNiuCfg0Addr 1) (axi_bit on) (align (kNiuCfg0Addr 1)) w3) as (w4 & E4 & Ht4 & _);
    [by right | done | unfold shows in *; by rewrite Hb3 | done|].
  exists w4. unfold mbind at 1 2 3, Dev_bind at 1 2 3. rewrite E1, E2.
  assert (E3' : set_axi_bit 0 on w2 = Some (tt, w3)) by exact E3. rewrite E3'. split; [exact E4|].
  rewrite Ht4, Ht3. destruct Ho2 as [-> _]. by rewrite Ht1.
Qed.
End mrisc_reach.

(** Every access of [gddr.c] to a DRAM controller reaches the tile that runs its firmware
    (the reset: all three of its tiles; the AXI enable: the port's tile, on both NOCs) at the
    address asked for, and nothing else. *)
Theorem mrisc_accesses_reach {T} `{NocTiles T} (backwards : Z -> bool) (i p a v : Z) (on : bool) (w : noc_world T) :
  0 <= i < 8 -> 0 <= p < 3 -> 0 <= a < 2 ^ 32 ->
  let _ := noc_bus backwards in
  let '(x, y) := mrisc_tile i in
  (a < 2 ^ 24 ->
   (exists w', MriscL1Read32 i a w = Some (fst (tile_read 0 x y (MRISC_L1_ADDR + a) (tiles w)), w') /\
      tiles w' = snd (tile_read 0 x y (MRISC_L1_ADDR + a) (tiles w))) /\
   (exists w', MriscL1Write32 i a v w = Some (tt, w') /\ tiles w' = tile_write 0 x y (MRISC_L1_ADDR + a) v (tiles w))) /\
  (exists w', MriscRegRead32 i a w = Some (fst (tile_read 0 x y (MRISC_REG_ADDR + a) (tiles w)), w') /\
     tiles w' = snd (tile_read 0 x y (MRISC_REG_ADDR + a) (tiles w))) /\
  (exists w', MriscRegWrite32 i a v w = Some (tt, w') /\ tiles w' = tile_write 0 x y (MRISC_REG_ADDR + a) v (tiles w)) /\
  (exists w', ReleaseMriscReset i w = Some (tt, w') /\
     tiles w' = tile_update 0 (x, y) kSoftReset0Addr (λ r, Z.ldiff r (BIT 11)) (tiles w)) /\
  (exists w', assert_mrisc_soft_reset i w = Some (tt, w') /\
     tiles w' = foldl (λ t q, tile_write 0 (fst q) (snd q) kSoftReset0Addr kAllRiscSoftReset t) (tiles w)
                  [port_tile i 0 0; port_tile i 1 0; port_tile i 2 0]) /\
  (exists w', SetAxiEnable i p on w = Some (tt, w') /\
     tiles w' = tile_update 1 (port_tile i p 1) (kNiuCfg0Addr 1) (axi_bit on)
                  (tile_update 0 (port_tile i p 0) (kNiuCfg0Addr 0) (axi_bit on) (tiles w))).
Proof.
  intros Hi Hp Ha bus.
  destruct (gddr_coords i (get_gddr_mrisc_noc2axi_port i) 0) as (x & y & Hg & Hc);
    [done | unfold get_gddr_mrisc_noc2axi_port; case_match; lia | by left|].
  unfold mrisc_tile, GetGddrMriscNocCoords. rewrite Hg. cbn [default].
  assert (Hn : 0 <= MRISC_SETUP_TLB < 16) by (unfold MRISC_SETUP_TLB; lia).
  assert (Hreg : 0 <= MRISC_REG_ADDR + a < 2 ^ 64) by (unfold MRISC_REG_ADDR; lia).
  split; [|split; [|split; [|split; [|split]]]].
  - intros Ha24. unfold MriscL1Read32, MriscL1Write32, GetGddrMriscNocCoords. rewrite Hg. cbn [at_tile]. split.
    + apply read_via; [by left | done | done | unfold MRISC_L1_ADDR; lia | apply align_L1; lia].
    + apply write_via; [by left | done | done | unfold MRISC_L1_ADDR; lia | apply align_L1; lia].
  - unfold MriscRegRead32, GetGddrMriscNocCoords. rewrite Hg. cbn [at_tile]. apply read_via; [by left | exact Hn | exact Hc | exact Hreg | reflexivity].
  - unfold MriscRegWrite32, GetGddrMriscNocCoords. rewrite Hg. cbn [at_tile]. apply write_via; [by left | exact Hn | exact Hc | exact Hreg | reflexivity].
  - by apply release_reaches.
  - apply (soft_reset_reaches backwards i [0; 1; 2]); [done|]. repeat constructor; lia.
  - by apply axi_enable_reaches.
Qed.
Lemma mrisc_accesses_reach_witness :
  let _ := word_tiles in let _ := noc_bus (λ r, r =? 1) in
  let w := Build_noc_world (λ _ _, 0) (λ _ _ _, 0x47800) in
  exists w', ReleaseMriscReset 0 w = Some (tt, w') /\
    tiles w' = tile_update 0 (mrisc_tile 0) kSoftReset0Addr (λ r, Z.ldiff r (BIT 11)) (tiles w).
Proof.
  intros t b w. apply (@mrisc_accesses_reach _ word_tiles (λ r, r =? 1) 0 0 0 0 true w); [lia | lia | lia].
Defined.
