(* ===== verification/NocDma.v ===== *)
(** The NOC's DMA: [drivers/dma/dma_tt_bh_noc.c].

    Each tile's NOC interface can copy bytes between tiles. The driver programs one through
    a window (Noc2Axi.v): it writes the command's registers and starts it, and counts
    acknowledgements to know when it is done. [chip] is a chip of such tiles: a command that
    was started is outstanding for some polls of an acknowledgement counter, and only then are its
    bytes copied and its acknowledgements counted. *)
From stdpp Require Import prelude list numbers functions.
From Stdlib Require Import ZArith Lia.
From S2P Require Import Prelude Bus Noc Noc2Axi.
Open Scope Z_scope.

Definition NOC_DMA_TLB : Z := 0.
Definition NOC_DMA_NOC_ID : Z := 0.
Definition NOC_DMA_TIMEOUT_MS : Z := 50.
Definition NOC_MAX_BURST_SIZE : Z := 16384.
Definition DMA_MAX_TRANSFER_BLOCKS : Z := 4.
Definition NOC_CMD_CPY : Z := 0.
Definition NOC_CMD_RD : Z := 0.
Definition NOC_CMD_WR : Z := 2.
Definition NOC_CMD_RESP_MARKED : Z := BIT 4.
Definition NOC_CMD_BRCST_PACKET : Z := BIT 5.
Definition NOC_CMD_PATH_RESERVE : Z := BIT 8.
Definition NOC_CMD_BRCST_SRC_INCLUDE : Z := BIT 17.
Definition TARGET_ADDR_LO : Z := 0xFFB20000.
Definition TARGET_ADDR_MID : Z := 0xFFB20004.
Definition TARGET_ADDR_HI : Z := 0xFFB20008.
Definition RET_ADDR_LO : Z := 0xFFB2000C.
Definition RET_ADDR_MID : Z := 0xFFB20010.
Definition RET_ADDR_HI : Z := 0xFFB20014.
Definition PACKET_TAG : Z := 0xFFB20018.
Definition CMD_BRCST : Z := 0xFFB2001C.
Definition AT_LEN : Z := 0xFFB20020.
Definition AT_LEN_1 : Z := 0xFFB20024.
Definition AT_DATA : Z := 0xFFB20028.
Definition BRCST_EXCLUDE : Z := 0xFFB2002C.
Definition CMD_CTRL : Z := 0xFFB20040.
Definition NIU_MST_WR_ACK_RECEIVED : Z := 0xFFB20204.
Definition NIU_MST_RD_RESP_RECEIVED : Z := 0xFFB20208.
Definition DMA_CHANNEL_INVALID : Z := 0xFFFFFFFF.
Definition DMA_STATUS_COMPLETE : Z := 0.
Definition DMA_STATUS_BLOCK : Z := 1.

(** * Data *)
Inductive direction := MEMORY_TO_MEMORY | MEMORY_TO_PERIPHERAL | PERIPHERAL_TO_MEMORY | BROADCAST | OTHER_DIRECTION.
Record dma_block_config := { source_address : Z; dest_address : Z; block_size : Z }.
Record tt_bh_dma_noc_coords := { source_x : Z; source_y : Z; dest_x : Z; dest_y : Z }.
(** [head_block]: the linked list of blocks; a call-back is a name. *)
Record dma_config := {
  channel_direction : direction; head_block : list dma_block_config; cfg_block_count : Z;
  dma_callback : option Z; complete_callback_en : bool; error_callback_dis : bool;
  linked_channel : Z; source_chaining_en : bool; dest_chaining_en : bool }.
Record tt_bh_dma_channel_data := {
  blocks : list dma_block_config; coords : tt_bh_dma_noc_coords; config : dma_config;
  last_noc_cmd : Z; last_expected_acks : Z; block_index : Z; block_count : Z; configured : bool }.
(** The channels, and the call-backs made: name, channel and status. *)
Record noc_dma := { channels : list tt_bh_dma_channel_data; called : list (Z * Z * Z) }.
Implicit Types (d : noc_dma) (c : tt_bh_dma_channel_data).
Definition num_channels d : Z := Z.of_nat (length (channels d)).
Definition set_channel d (n : Z) c : noc_dma := {| channels := <[Z.to_nat n := c]> (channels d); called := called d |}.
Definition with_cmd c (cmd acks : Z) : tt_bh_dma_channel_data :=
  {| blocks := blocks c; coords := coords c; config := config c; last_noc_cmd := cmd; last_expected_acks := acks;
     block_index := block_index c; block_count := block_count c; configured := configured c |}.
Definition with_index c (i : Z) : tt_bh_dma_channel_data :=
  {| blocks := blocks c; coords := coords c; config := config c; last_noc_cmd := last_noc_cmd c;
     last_expected_acks := last_expected_acks c; block_index := i; block_count := block_count c; configured := configured c |}.
Definition with_block c (b : dma_block_config) : tt_bh_dma_channel_data :=
  {| blocks := <[Z.to_nat (block_index c) := b]> (blocks c); coords := coords c; config := config c;
     last_noc_cmd := last_noc_cmd c; last_expected_acks := last_expected_acks c; block_index := block_index c;
     block_count := block_count c; configured := configured c |}.

(** * Helpers *)
Definition DIV_ROUND_UP (n k : Z) : Z := (n + k - 1) / k.
Definition is_behind (current target : Z) : bool :=
  let x := u32 (current - target) in (if x <? 2 ^ 31 then x else x - 2 ^ 32) <? 0.
Definition noc_coord_encode (x y : Z) : Z := Z.lor (u32 (Z.shiftl y 6)) x.
(** The row stands in the place of the starting column too. *)
Definition noc_coord_encode_range (start_x start_y end_x end_y : Z) : Z :=
  Z.lor (Z.lor (Z.lor (u32 (Z.shiftl start_y 18)) (u32 (Z.shiftl start_y 12))) (u32 (Z.shiftl end_y 6))) end_x.
Definition handle_transfer_callbacks d (n transfer_ret : Z) (is_final_block : bool) c : noc_dma :=
  match dma_callback (config c) with
  | None => d
  | Some f =>
      let note l := {| channels := channels d; called := called d ++ l |} in
      if transfer_ret =? 0 then
        note ((if complete_callback_en (config c) && negb is_final_block then [(f, n, DMA_STATUS_BLOCK)] else [])
              ++ (if is_final_block then [(f, n, DMA_STATUS_COMPLETE)] else []))
      else if negb (error_callback_dis (config c)) then note [(f, n, - EIO)] else d
  end.
(** The blocks are copied as far as both the count and the list go. *)
Definition tt_bh_dma_noc_config d (channel : Z) (cfg : dma_config) (co : tt_bh_dma_noc_coords) : Z * noc_dma :=
  if cfg_block_count cfg =? 0 then (- EINVAL, d)
  else if DMA_MAX_TRANSFER_BLOCKS <? cfg_block_count cfg then (- EINVAL, d)
  else if num_channels d <=? channel then (- EINVAL, d)
  else match channels d !! Z.to_nat channel with
       | None => (- EINVAL, d)
       | Some c =>
           let new := take (Z.to_nat (cfg_block_count cfg)) (head_block cfg) in
           (0, set_channel d channel
                 {| blocks := new ++ drop (length new) (blocks c); coords := co; config := cfg; last_noc_cmd := 0;
                    last_expected_acks := 0; block_index := 0; block_count := cfg_block_count cfg; configured := true |})
       end.
Definition tt_bh_dma_noc_base_config d (channel : Z) (cfg : dma_config) (tensix : Z * Z) : Z * noc_dma :=
  tt_bh_dma_noc_config d channel cfg {| source_x := fst tensix; source_y := snd tensix; dest_x := 8; dest_y := 0 |}.

(** * Programs *)
Section driver.
Context {W : Type} `{RegBus W} (fuel : nat).
Definition timepoint (ms : Z) : Dev W Z := t ← k_uptime_get; mret (t + ms).
Definition expired (t : Z) : Dev W bool := now ← k_uptime_get; mret (t <=? now).
Definition poll_cmd (timeout : Z) : Dev W (option bool) :=
  cmd_ctrl ← NOC2AXIRead32 NOC_DMA_NOC_ID NOC_DMA_TLB CMD_CTRL;
  if cmd_ctrl =? 0 then mret (Some true)
  else e ← expired timeout; mret (if (e : bool) then Some false else None).
Definition noc_wait_cmd_ready : Dev W bool :=
  timeout ← timepoint NOC_DMA_TIMEOUT_MS; do_while fuel (poll_cmd timeout).
Definition ack_reg (noc_cmd : Z) : Z :=
  if negb (Z.land noc_cmd NOC_CMD_WR =? 0) then NIU_MST_WR_ACK_RECEIVED else NIU_MST_RD_RESP_RECEIVED.
Definition get_expected_acks (noc_cmd size : Z) : Dev W Z :=
  packet_received ← NOC2AXIRead32 NOC_DMA_NOC_ID NOC_DMA_TLB (ack_reg noc_cmd);
  mret (u32 (packet_received + DIV_ROUND_UP size NOC_MAX_BURST_SIZE)).
Fixpoint write_regs (l : list (Z * Z)) : Dev W unit :=
  match l with
  | [] => mret tt
  | (a, v) :: l => _ ← NOC2AXIWrite32 NOC_DMA_NOC_ID NOC_DMA_TLB a v; write_regs l
  end.
Definition noc_ctrl (cmd : Z) (multicast include_self : bool) : Z :=
  let c := Z.lor NOC_CMD_CPY cmd in
  let c := if multicast then
             let c := Z.lor c (Z.lor NOC_CMD_PATH_RESERVE NOC_CMD_BRCST_PACKET) in
             if include_self then Z.lor c NOC_CMD_BRCST_SRC_INCLUDE else c
           else c in
  Z.lor c NOC_CMD_RESP_MARKED.
Definition command_regs (ctrl ret_coord ret_addr targ_coord targ_addr size transaction_id : Z) : list (Z * Z) :=
  [(TARGET_ADDR_LO, u32 targ_addr); (TARGET_ADDR_MID, Z.shiftr targ_addr 32); (TARGET_ADDR_HI, targ_coord);
   (RET_ADDR_LO, u32 ret_addr); (RET_ADDR_MID, Z.shiftr ret_addr 32); (RET_ADDR_HI, ret_coord);
   (PACKET_TAG, Z.shiftl transaction_id 10); (AT_LEN, size); (AT_LEN_1, 0); (AT_DATA, 0); (BRCST_EXCLUDE, 0);
   (CMD_BRCST, ctrl); (CMD_CTRL, 1)].
(** Result: the return value, the command and the expected acknowledgements. *)
Definition noc_dma_transfer (cmd ret_coord ret_addr targ_coord targ_addr size : Z) (multicast : bool) (transaction_id : Z)
    (include_self : bool) : Dev W (Z * Z * Z) :=
  let ctrl := noc_ctrl cmd multicast include_self in
  acks ← get_expected_acks ctrl size;
  ready ← noc_wait_cmd_ready;
  if negb ready then mret (- ETIMEDOUT, ctrl, acks)
  else
    _ ← write_regs (command_regs ctrl ret_coord ret_addr targ_coord targ_addr size transaction_id);
    mret (0, ctrl, acks).
Definition noc_dma_write_multicast (local_x local_y local_addr sx sy ex ey remote_addr size : Z) (include_self : bool)
  : Dev W (Z * Z * Z) :=
  _ ← NOC2AXITlbSetup NOC_DMA_NOC_ID NOC_DMA_TLB local_x local_y TARGET_ADDR_LO;
  noc_dma_transfer NOC_CMD_WR (noc_coord_encode_range sx sy ex ey) remote_addr (noc_coord_encode local_x local_y) local_addr
    size true 0 include_self.
(** [None] for a block outside the array. *)
Definition current_block c : option dma_block_config := blocks c !! Z.to_nat (block_index c).
Definition start_mem_to_per (co : tt_bh_dma_noc_coords) (b : dma_block_config) : Dev W (Z * Z * Z) :=
  _ ← NOC2AXITlbSetup NOC_DMA_NOC_ID NOC_DMA_TLB (source_x co) (source_y co) TARGET_ADDR_LO;
  noc_dma_transfer NOC_CMD_RD (noc_coord_encode (source_x co) (source_y co)) (source_address b)
    (noc_coord_encode (dest_x co) (dest_y co)) (dest_address b) (block_size b) false 0 false.
Definition start_per_to_mem (co : tt_bh_dma_noc_coords) (b : dma_block_config) : Dev W (Z * Z * Z) :=
  _ ← NOC2AXITlbSetup NOC_DMA_NOC_ID NOC_DMA_TLB (source_x co) (source_y co) TARGET_ADDR_LO;
  noc_dma_transfer NOC_CMD_WR (noc_coord_encode (dest_x co) (dest_y co)) (dest_address b)
    (noc_coord_encode (source_x co) (source_y co)) (source_address b) (block_size b) false 0 false.
Definition get_status c : Dev W bool :=
  ack_received ← NOC2AXIRead32 NOC_DMA_NOC_ID NOC_DMA_TLB (ack_reg (last_noc_cmd c));
  mret (is_behind ack_received (last_expected_acks c)).
(** [dma_get_status] polled until it is not busy; then the deadline is looked at once more. *)
Definition poll_status c (timeout : Z) : Dev W (option unit) :=
  busy ← get_status c;
  if negb busy then mret (Some tt)
  else e ← expired timeout; mret (if (e : bool) then Some tt else None).
Definition wait_done c : Dev W Z :=
  timeout ← timepoint NOC_DMA_TIMEOUT_MS;
  _ ← do_while fuel (poll_status c timeout);
  e ← expired timeout;
  mret (if (e : bool) then - ETIMEDOUT else 0).
Definition s32 (x : Z) : Z := if u32 x <? 2 ^ 31 then u32 x else u32 x - 2 ^ 32.
(** One block from memory to memory, by way of a Tensix tile's memory at address 0. The
    address of the source is lost; that of the destination passes through an [int]. *)
Definition mem_to_mem_block c : Dev W (Z * tt_bh_dma_channel_data) :=
  match current_block c with
  | None => λ _, None
  | Some b =>
      let dest_address_ := s32 (dest_address b) in
      let b1 := {| source_address := 0; dest_address := source_address b; block_size := block_size b |} in
      '(ret, cmd, acks) ← start_mem_to_per (coords c) b1;
      let c := with_cmd (with_block c b1) cmd acks in
      if negb (ret =? 0) then mret (ret, c)
      else
        let b2 := {| source_address := 0; dest_address := u32 dest_address_; block_size := block_size b |} in
        let c := with_block c b2 in
        ret ← wait_done c;
        if negb (ret =? 0) then mret (ret, c)
        else
          '(ret, cmd, acks) ← start_per_to_mem (coords c) b2;
          let c := with_cmd c cmd acks in
          if negb (ret =? 0) then mret (ret, c)
          else ret ← wait_done c; mret (ret, c)
  end.
(** A transfer of the current block that only starts it. *)
Definition start_async c (b : dma_block_config) : Dev W (Z * tt_bh_dma_channel_data) :=
  match channel_direction (config c) with
  | MEMORY_TO_PERIPHERAL => '(ret, cmd, acks) ← start_mem_to_per (coords c) b; mret (ret, with_cmd c cmd acks)
  | PERIPHERAL_TO_MEMORY => '(ret, cmd, acks) ← start_per_to_mem (coords c) b; mret (ret, with_cmd c cmd acks)
  | BROADCAST =>
      '(ret, cmd, acks) ← noc_dma_write_multicast (dest_x (coords c)) (dest_y (coords c)) (source_address b) 2 2 1 11
                             (dest_address b) (block_size b) false;
      mret (ret, with_cmd c cmd acks)
  | _ => mret (- EINVAL, c)
  end.
Definition linked_start (start : Z -> noc_dma -> Dev W (Z * noc_dma)) (cfg : dma_config) d : Dev W noc_dma :=
  if linked_channel cfg =? DMA_CHANNEL_INVALID then mret d
  else if num_channels d <=? linked_channel cfg then mret d
  else if match channels d !! Z.to_nat (linked_channel cfg) with Some c => configured c | None => false end
          && (dest_chaining_en cfg || source_chaining_en cfg)
  then '(_, d) ← start (linked_channel cfg) d; mret d
  else mret d.
(** [entry]: at the start of the function; otherwise at the head of its loop. *)
Fixpoint start_run (n : nat) (entry : bool) (channel : Z) d : Dev W (Z * noc_dma) :=
  match n with
  | O => λ _, None
  | S n =>
      if num_channels d <=? channel then mret (- EINVAL, d)
      else match channels d !! Z.to_nat channel with
           | None => λ _, None
           | Some c =>
               if entry then
                 if negb (configured c) then mret (- EINVAL, d)
                 else start_run n false channel (set_channel d channel (with_index c 0))
               else if block_count c <=? block_index c then mret (0, d)
               else match channel_direction (config c), current_block c with
                    | _, None => λ _, None
                    | MEMORY_TO_MEMORY, Some b =>
                        '(ret, c) ← mem_to_mem_block c;
                        let d := set_channel d channel c in
                        if negb (ret =? 0) then mret (ret, d)
                        else
                          let d := handle_transfer_callbacks d channel 0 (block_index c + 1 =? block_count c) c in
                          d ← linked_start (start_run n true) (config c) d;
                          match channels d !! Z.to_nat channel with
                          | None => λ _, None
                          | Some c => start_run n false channel (set_channel d channel (with_index c (block_index c + 1)))
                          end
                    | _, Some b => '(ret, c) ← start_async c b; mret (ret, set_channel d channel c)
                    end
           end
  end.
Definition tt_bh_dma_noc_start (n : nat) (channel : Z) d : Dev W (Z * noc_dma) := start_run n true channel d.
Definition tt_bh_dma_noc_get_status (channel : Z) d : Dev W (Z * bool) :=
  if num_channels d <=? channel then mret (- EINVAL, false)
  else match channels d !! Z.to_nat channel with
       | None => λ _, None
       | Some c => busy ← get_status c; mret (0, busy)
       end.
End driver.

(** * A chip *)
(** A command the interface of tile [t_tile] was given: [t_len] bytes from [t_fa] of a tile to [t_ta]
    of others, for which that interface counts [t_packets] acknowledgements in the register [t_ack]. *)
Record transfer := {
  t_tile : Z * Z; t_ack : Z; t_packets : Z; t_from : Z * Z; t_fa : Z; t_to : list (Z * Z); t_ta : Z; t_len : Z }.
(** [mem]: the bytes of each tile; [niu]: the registers of its NOC interface; [outstanding]: the
    commands started and not done, each with the polls of an acknowledgement counter that do not see
    it done yet. A command takes [ready_left] polls until the next is accepted; [pace]: both numbers
    for the commands to come. *)
Record chip := {
  mem : Z -> Z -> Z -> Z; niu : Z -> Z -> Z -> Z; ready_left : nat; outstanding : list (nat * transfer);
  pace : list (nat * nat); now : Z; brcst_on : Z -> Z -> bool }.
Implicit Types (t : chip).
Definition with_times t (r : nat) (n : Z) : chip :=
  {| mem := mem t; niu := niu t; ready_left := r; outstanding := outstanding t; pace := pace t; now := n; brcst_on := brcst_on t |}.
Definition with_niu t (x y a v : Z) : chip :=
  {| mem := mem t; niu := <[x := <[y := <[a := v]> (niu t x y)]> (niu t x)]> (niu t);
     ready_left := ready_left t; outstanding := outstanding t; pace := pace t; now := now t; brcst_on := brcst_on t |}.
Definition with_mem t (m : Z -> Z -> Z -> Z) : chip :=
  {| mem := m; niu := niu t; ready_left := ready_left t; outstanding := outstanding t; pace := pace t; now := now t;
     brcst_on := brcst_on t |}.
Definition with_outstanding t (l : list (nat * transfer)) : chip :=
  {| mem := mem t; niu := niu t; ready_left := ready_left t; outstanding := l; pace := pace t; now := now t;
     brcst_on := brcst_on t |}.
Definition is_niu (a : Z) : bool := (0xFFB20000 <=? a) && (a <? 0xFFB20300).
Definition is_ack (a : Z) : bool := (a =? NIU_MST_WR_ACK_RECEIVED) || (a =? NIU_MST_RD_RESP_RECEIVED).
Definition word_of (m : Z -> Z) (a : Z) : Z := le_value (map m [a; a + 1; a + 2; a + 3]).
(** [len] bytes from a tile to tiles. *)
Definition copy_bytes (from : Z * Z) (fa : Z) (to : list (Z * Z)) (ta len : Z) (m : Z -> Z -> Z -> Z) (x y a : Z) : Z :=
  if bool_decide ((x, y) ∈ to) && (ta <=? a) && (a <? ta + len) then m (fst from) (snd from) (fa + (a - ta)) else m x y a.
(** What the registers of a command say. *)
Definition coord_of (v : Z) : Z * Z := (field v 0 6, field v 6 6).
Definition addr_of (r : Z -> Z) (lo mid : Z) : Z := r lo + r mid * 2 ^ 32.
Definition cmd_receivers (b : Z -> Z -> bool) (self : Z * Z) (r : Z -> Z) : list (Z * Z) :=
  let v := r RET_ADDR_HI in
  if Z.testbit (r CMD_BRCST) 5 then
    filter (λ p, in_rect false (field v 12 6, field v 18 6, field v 0 6, field v 6 6) (fst p) (snd p) && b (fst p) (snd p)
                 && (Z.testbit (r CMD_BRCST) 17 || negb (bool_decide (p = self))) = true) grid
  else [coord_of v].
Definition command_of (x y : Z) t : transfer :=
  let r := niu t x y in
  {| t_tile := (x, y); t_ack := ack_reg (r CMD_BRCST); t_packets := DIV_ROUND_UP (r AT_LEN) NOC_MAX_BURST_SIZE;
     t_from := coord_of (r TARGET_ADDR_HI); t_fa := addr_of r TARGET_ADDR_LO TARGET_ADDR_MID;
     t_to := cmd_receivers (brcst_on t) (x, y) r; t_ta := addr_of r RET_ADDR_LO RET_ADDR_MID; t_len := r AT_LEN |}.
(** A command is taken: nothing is copied yet. *)
Definition start_command (x y : Z) t : chip :=
  let p := hd (0%nat, 0%nat) (pace t) in
  {| mem := mem t; niu := niu t; ready_left := fst p; outstanding := outstanding t ++ [(snd p, command_of x y t)];
     pace := tail (pace t); now := now t; brcst_on := brcst_on t |}.
Definition effect (j : transfer) : (Z -> Z -> Z -> Z) -> Z -> Z -> Z -> Z :=
  copy_bytes (t_from j) (t_fa j) (t_to j) (t_ta j) (t_len j).
(** A command is done: its bytes are copied and its acknowledgements counted. *)
Definition acknowledge (j : transfer) t : chip :=
  let x := fst (t_tile j) in
  let y := snd (t_tile j) in
  with_niu (with_mem t (effect j (mem t))) x y (t_ack j) (u32 (niu t x y (t_ack j) + t_packets j)).
(** A poll of an acknowledgement counter: the commands whose time has come are done. *)
Definition settle t : chip :=
  foldl (λ t p, match fst p with O => acknowledge (snd p) t | S k => with_outstanding t (outstanding t ++ [(k, snd p)]) end)
    (with_outstanding t []) (outstanding t).
#[export] Instance chip_tiles : NocTiles chip := {|
  tile_read _ x y a t :=
    if a =? CMD_CTRL then
      match ready_left t with O => (0, t) | S k => (1, with_times t k (now t)) end
    else if is_ack a then (niu (settle t) x y a, settle t)
    else if is_niu a then (niu t x y a, t)
    else (word_of (mem t x y) a, t);
  tile_write _ x y a v t :=
    if a =? CMD_CTRL then if v =? 1 then start_command x y t else t
    else if is_niu a then with_niu t x y a v
    else with_mem t (λ x' y' b, if (x' =? x) && (y' =? y) && (a <=? b) && (b <? a + 4)
                                then nth (Z.to_nat (b - a)) (le_bytes 4 v) 0 else mem t x' y' b);
  tile_uptime t := (now t, with_times t (ready_left t) (now t + 1));
  tile_wait k t := with_times t (ready_left t) (now t + k);
  takes_broadcast _ x y t := brcst_on t x y;
|}.

Lemma bind_run {W A B} (m : Dev W A) (f : A -> Dev W B) (w : W) x w' : m w = Some (x, w') -> (m ≫= f) w = f x w'.
Proof. intros E. unfold mbind, Dev_bind. by rewrite E. Qed.

(** * Starting a command *)
Section chip_proofs.
Context (backwards : Z -> bool).
#[local] Hint Extern 0 (RegBus (noc_world _)) => exact (noc_bus backwards) : typeclass_instances.
Implicit Types (w : noc_world chip).
Definition niu_base : Z := 0xFF000000.
Definition at_niu w (x y : Z) : Prop := shows w 0 0 x y niu_base.
Lemma niu_align a : is_niu a = true -> align a = niu_base.
Proof. unfold is_niu, align, niu_base. intros Ha. zb. Z.to_euclidean_division_equations. lia. Qed.
Lemma niu_read x y a w : at_niu w x y -> is_niu a = true ->
  NOC2AXIRead32 NOC_DMA_NOC_ID NOC_DMA_TLB a w =
    Some (fst (tile_read 0 x y a (tiles w)), Build_noc_world (tlb w) (snd (tile_read 0 x y a (tiles w)))).
Proof. intros Hs Ha. apply (NOC2AXIRead32_spec backwards 0 0 x y a niu_base); [by left | lia | done | by apply niu_align]. Qed.
Lemma niu_write x y a v w : at_niu w x y -> is_niu a = true ->
  NOC2AXIWrite32 NOC_DMA_NOC_ID NOC_DMA_TLB a v w = Some (tt, Build_noc_world (tlb w) (tile_write 0 x y a v (tiles w))).
Proof. intros Hs Ha. apply (NOC2AXIWrite32_spec backwards 0 0 x y a v niu_base); [by left | lia | done | by apply niu_align]. Qed.
Lemma uptime_run w : k_uptime_get w = Some (now (tiles w), Build_noc_world (tlb w)
   (with_times (tiles w) (ready_left (tiles w)) (now (tiles w) + 1))).
Proof. done. Qed.
Lemma poll_cmd_run x y deadline w : at_niu w x y ->
  poll_cmd deadline w =
    match ready_left (tiles w) with
    | O => Some (Some true, w)
    | S k => Some (if deadline <=? now (tiles w) then Some false else None,
                   Build_noc_world (tlb w) (with_times (tiles w) k (now (tiles w) + 1)))
    end.
Proof.
  intros Hs. unfold poll_cmd. rewrite (bind_run _ _ _ _ _ (niu_read x y CMD_CTRL w Hs eq_refl)).
  cbn [tile_read chip_tiles]. rewrite Z.eqb_refl. destruct w as [tl t]. cbn [tiles tlb].
  destruct (ready_left t) as [|k]; cbn [fst snd]; [done|]. change (1 =? 0) with false. cbv iota. unfold expired.
  rewrite (bind_run _ _ _ (deadline <=? now t)
    (Build_noc_world tl (with_times t k (now t + 1)))); [by destruct (deadline <=? now t)|].
  by rewrite (bind_run _ _ _ _ _ (uptime_run _)).
Qed.
Lemma poll_cmd_loop x y deadline fuel w : at_niu w x y -> (ready_left (tiles w) < fuel)%nat ->
  now (tiles w) + Z.of_nat (ready_left (tiles w)) <= deadline ->
  exists n, do_while fuel (poll_cmd deadline) w =
    Some (true, Build_noc_world (tlb w) (with_times (tiles w) 0 n)).
Proof.
  revert w. induction fuel as [|fuel IH]; intros w Hs Hf Hd; [lia|]. cbn [do_while].
  pose proof (poll_cmd_run x y deadline w Hs) as E. destruct (ready_left (tiles w)) as [|k] eqn:Ek.
  - rewrite (bind_run _ _ _ _ _ E). exists (now (tiles w)). destruct w as [tl t]. cbn [tlb tiles] in *.
    unfold with_times. rewrite <- Ek. by destruct t.
  - rewrite (bind_run _ _ _ _ _ E). destruct (Z.leb_spec deadline (now (tiles w))); [lia|].
    destruct (IH (Build_noc_world (tlb w) (with_times (tiles w) k (now (tiles w) + 1)))) as [n E2];
      [exact Hs | cbn; lia | cbn; lia|]. exists n. exact E2.
Qed.
Lemma wait_cmd_ready_run x y fuel w : at_niu w x y -> (ready_left (tiles w) < fuel)%nat -> (ready_left (tiles w) < 50)%nat ->
  exists n, noc_wait_cmd_ready fuel w = Some (true, Build_noc_world (tlb w) (with_times (tiles w) 0 n)).
Proof.
  intros Hs Hf H50. unfold noc_wait_cmd_ready, timepoint, NOC_DMA_TIMEOUT_MS.
  rewrite (bind_run _ _ _ (now (tiles w) + 50) (Build_noc_world (tlb w)
    (with_times (tiles w) (ready_left (tiles w)) (now (tiles w) + 1))))
    by (by rewrite (bind_run _ _ _ _ _ (uptime_run _))).
  destruct (poll_cmd_loop x y (now (tiles w) + 50) fuel (Build_noc_world (tlb w)
    (with_times (tiles w) (ready_left (tiles w)) (now (tiles w) + 1)))) as [n E];
    [exact Hs | cbn; lia | cbn; lia|]. exists n. exact E.
Qed.

Lemma write_regs_run x y l w : at_niu w x y -> Forall (λ p, is_niu (fst p) = true) l ->
  write_regs l w = Some (tt, Build_noc_world (tlb w) (foldl (λ t p, tile_write 0 x y (fst p) (snd p) t) (tiles w) l)).
Proof.
  revert w. induction l as [|[a v] l IH]; intros w Hs Hl; cbn [write_regs foldl]; [by destruct w|].
  apply list.Forall_cons in Hl as [Ha Hl]. rewrite (bind_run _ _ _ _ _ (niu_write x y a v w Hs Ha)). by rewrite IH.
Qed.
(** Plain registers. *)
Definition set_regs (x y : Z) (l : list (Z * Z)) t : chip := foldl (λ t p, with_niu t x y (fst p) (snd p)) t l.
Lemma set_regs_plain x y l t : Forall (λ p, is_niu (fst p) = true /\ fst p <> CMD_CTRL) l ->
  foldl (λ t p, tile_write 0 x y (fst p) (snd p) t) t l = set_regs x y l t.
Proof.
  revert t. induction l as [|[a v] l IH]; intros t Hl; cbn [foldl]; [done|].
  apply list.Forall_cons in Hl as [[Ha Hc] Hl]. rewrite IH by done. unfold set_regs. cbn [foldl].
  cbn [tile_write chip_tiles fst snd]. apply Z.eqb_neq in Hc. cbn [fst] in Hc, Ha. by rewrite Hc, Ha.
Qed.
Definition lookup_regs (l : list (Z * Z)) (r : Z -> Z) : Z -> Z := foldl (λ r p, <[fst p := snd p]> r) r l.
Lemma set_regs_niu x y l t :
  mem (set_regs x y l t) = mem t /\ brcst_on (set_regs x y l t) = brcst_on t /\ pace (set_regs x y l t) = pace t /\
  outstanding (set_regs x y l t) = outstanding t /\ niu (set_regs x y l t) x y = lookup_regs l (niu t x y).
Proof.
  revert t. induction l as [|[a v] l IH]; intros t; [done|]. unfold set_regs. cbn [foldl fst snd].
  destruct (IH (with_niu t x y a v)) as (H1 & H2 & H3 & H4 & H5). unfold set_regs in *.
  rewrite H1, H2, H3, H4, H5. split_and!; try done. cbn [with_niu niu]. by rewrite !fn_lookup_insert.
Qed.
(** A command as the receiving tiles see it. *)
Record command := { c_ctrl : Z; c_ret : Z; c_ret_addr : Z; c_targ : Z; c_targ_addr : Z; c_size : Z }.
Definition plain_regs (q : command) : list (Z * Z) :=
  take 12 (command_regs (c_ctrl q) (c_ret q) (c_ret_addr q) (c_targ q) (c_targ_addr q) (c_size q) 0).
Definition u32_addr (a : Z) : Prop := 0 <= a < 2 ^ 32.
Lemma plain_regs_lookup q r : u32_addr (c_ret_addr q) -> u32_addr (c_targ_addr q) ->
  let r' := lookup_regs (plain_regs q) r in
  r' TARGET_ADDR_HI = c_targ q /\ r' RET_ADDR_HI = c_ret q /\ r' AT_LEN = c_size q /\ r' CMD_BRCST = c_ctrl q /\
  addr_of r' TARGET_ADDR_LO TARGET_ADDR_MID = c_targ_addr q /\ addr_of r' RET_ADDR_LO RET_ADDR_MID = c_ret_addr q /\
  r' (ack_reg (c_ctrl q)) = r (ack_reg (c_ctrl q)).
Proof.
  intros Hr Ht. unfold lookup_regs, plain_regs, command_regs. cbn [take foldl fst snd]. unfold addr_of.
  assert (Hsplit : forall a, u32_addr a -> u32 a + Z.shiftr a 32 * 2 ^ 32 = a).
  { intros a Ha. unfold u32_addr in Ha. rewrite Z.shiftr_div_pow2, (Z.div_small a) by lia. rewrite wrap_id; [lia | done]. }
  split_and!.
  7: unfold ack_reg; destruct (negb _).
  all: repeat first [rewrite fn_lookup_insert | rewrite fn_lookup_insert_ne by done]; auto.
Qed.
Lemma plain_regs_plain q : Forall (λ p, is_niu (fst p) = true /\ fst p <> CMD_CTRL) (plain_regs q).
Proof. unfold plain_regs, command_regs. cbn [take]. repeat apply Forall_cons_2; try done. all: split; done. Qed.
Lemma command_regs_split q : command_regs (c_ctrl q) (c_ret q) (c_ret_addr q) (c_targ q) (c_targ_addr q) (c_size q) 0
  = plain_regs q ++ [(CMD_CTRL, 1)].
Proof. done. Qed.
Lemma receivers_regs b p q r : u32_addr (c_ret_addr q) -> u32_addr (c_targ_addr q) ->
  cmd_receivers b p (lookup_regs (plain_regs q) r) = cmd_receivers b p (λ a, if a =? CMD_BRCST then c_ctrl q else c_ret q).
Proof.
  intros Hr Ht. destruct (plain_regs_lookup q r Hr Ht) as (_ & G2 & _ & G4 & _). unfold cmd_receivers. rewrite G2, G4.
  by change (CMD_BRCST =? CMD_BRCST) with true; change (RET_ADDR_HI =? CMD_BRCST) with false.
Qed.
(** A chip after a command: all that happened is that the command is outstanding. *)
Definition order_of (x y : Z) (q : command) (on : Z -> Z -> bool) : transfer :=
  {| t_tile := (x, y); t_ack := ack_reg (c_ctrl q); t_packets := DIV_ROUND_UP (c_size q) NOC_MAX_BURST_SIZE;
     t_from := coord_of (c_targ q); t_fa := c_targ_addr q;
     t_to := cmd_receivers on (x, y) (λ a, if a =? CMD_BRCST then c_ctrl q else c_ret q);
     t_ta := c_ret_addr q; t_len := c_size q |}.
Definition started (j : transfer) t t' : Prop :=
  let p := hd (0%nat, 0%nat) (pace t) in
  mem t' = mem t /\ brcst_on t' = brcst_on t /\ pace t' = tail (pace t) /\ ready_left t' = fst p /\
  outstanding t' = outstanding t ++ [(snd p, j)] /\
  niu t' (fst (t_tile j)) (snd (t_tile j)) (t_ack j) = niu t (fst (t_tile j)) (snd (t_tile j)) (t_ack j).
Lemma start_command_regs x y q t : u32_addr (c_ret_addr q) -> u32_addr (c_targ_addr q) ->
  started (order_of x y q (brcst_on t)) t (start_command x y (set_regs x y (plain_regs q) t)).
Proof.
  intros Hr Ht. destruct (set_regs_niu x y (plain_regs q) t) as (H1 & H2 & H3 & H4 & H5).
  destruct (plain_regs_lookup q (niu t x y) Hr Ht) as (G1 & G2 & G3 & G4 & G5 & G6 & G7).
  pose proof (receivers_regs (brcst_on t) (x, y) q (niu t x y) Hr Ht) as G8.
  revert H1 H2 H3 H4 H5. generalize (set_regs x y (plain_regs q) t) as t1. intros t1 H1 H2 H3 H4 H5.
  rewrite <- H5 in G1, G2, G3, G4, G5, G6, G7, G8. unfold started, start_command, command_of.
  cbn [mem brcst_on pace ready_left outstanding niu order_of t_tile t_ack fst snd].
  rewrite H1, H2, H3, H4, G1, G3, G4, G5, G6, G7, G8. by split_and!.
Qed.
Lemma issue_run x y q w : at_niu w x y -> u32_addr (c_ret_addr q) -> u32_addr (c_targ_addr q) ->
  exists t', write_regs (command_regs (c_ctrl q) (c_ret q) (c_ret_addr q) (c_targ q) (c_targ_addr q) (c_size q) 0) w
      = Some (tt, Build_noc_world (tlb w) t') /\ started (order_of x y q (brcst_on (tiles w))) (tiles w) t'.
Proof.
  intros Hs Hr Ht. exists (start_command x y (set_regs x y (plain_regs q) (tiles w))). split; [|by apply start_command_regs].
  rewrite command_regs_split, (write_regs_run x y); [|done|].
  - rewrite foldl_app, (set_regs_plain x y (plain_regs q)) by apply plain_regs_plain. reflexivity.
  - apply list.Forall_app. split; [|by repeat constructor].
    eapply Forall_impl; [|apply plain_regs_plain]. intros p Hp. apply Hp.
Qed.

(** * Acknowledgements *)
Lemma is_behind_spec current target :
  is_behind current target = true <-> 0 < (target - current) mod 2 ^ 32 <= 2 ^ 31.
Proof.
  unfold is_behind, wrap. change (2 ^ 31) with 2147483648. change (2 ^ 32) with 4294967296.
  destruct (Z.ltb_spec ((current - target) mod 4294967296) 2147483648); rewrite Z.ltb_lt.
  all: Z.to_euclidean_division_equations; lia.
Qed.
(** The command [j] is the only one outstanding: it was started with [cmd] at the interface the
    window shows, and [acks] are expected once it is done. *)
Definition pending w (x y cmd acks : Z) (j : transfer) : Prop :=
  at_niu w x y /\ t_tile j = (x, y) /\ t_ack j = ack_reg cmd /\ 0 < t_packets j < 2 ^ 31 /\
  u32 (niu (tiles w) x y (ack_reg cmd) + t_packets j) = acks /\ exists k, outstanding (tiles w) = [(k, j)].
(** The world after a poll of the counter when [k] more would not have seen [j] done. *)
Definition polled w (k : nat) (j : transfer) : noc_world chip :=
  Build_noc_world (tlb w)
    (match k with O => acknowledge j (with_outstanding (tiles w) []) | S k => with_outstanding (tiles w) [(k, j)] end).
Lemma settle_one t k j : outstanding t = [(k, j)] ->
  settle t = match k with O => acknowledge j (with_outstanding t []) | S k => with_outstanding t [(k, j)] end.
Proof. intros E. unfold settle. rewrite E. by destruct k. Qed.
Lemma settle_none t : outstanding t = [] -> settle t = t.
Proof. intros E. unfold settle. rewrite E. cbn [foldl]. unfold with_outstanding. rewrite <- E. by destruct t. Qed.
Lemma ack_read x y cmd w : at_niu w x y ->
  NOC2AXIRead32 NOC_DMA_NOC_ID NOC_DMA_TLB (ack_reg cmd) w =
    Some (niu (settle (tiles w)) x y (ack_reg cmd), Build_noc_world (tlb w) (settle (tiles w))).
Proof.
  intros Hs. assert (Hn : is_niu (ack_reg cmd) = true /\ (ack_reg cmd =? CMD_CTRL) = false /\ is_ack (ack_reg cmd) = true)
    by (unfold ack_reg; by destruct (negb _)).
  destruct Hn as (Hn & H1 & H2). rewrite (niu_read x y _ w Hs Hn). cbn [tile_read chip_tiles]. by rewrite H1, H2.
Qed.
Lemma acknowledge_niu j t x y : t_tile j = (x, y) -> niu (acknowledge j t) x y (t_ack j) = u32 (niu t x y (t_ack j) + t_packets j).
Proof. intros E. unfold acknowledge. rewrite E. cbn [with_niu niu with_mem fst snd]. by rewrite !fn_lookup_insert. Qed.
Lemma get_status_run x y cmd acks j k c w : pending w x y cmd acks j -> outstanding (tiles w) = [(k, j)] ->
  last_noc_cmd c = cmd -> last_expected_acks c = acks ->
  get_status c w = Some (negb (k =? 0)%nat, polled w k j).
Proof.
  intros (Hs & Hj & Hk & Hp & Hw & _) Ho Hc He. unfold get_status. rewrite Hc, (bind_run _ _ _ _ _ (ack_read x y cmd w Hs)), He.
  rewrite (settle_one _ k j Ho). unfold polled, mret, Dev_ret. f_equal. f_equal. destruct k as [|k].
  - rewrite <- Hk, acknowledge_niu by done. cbn [with_outstanding niu]. rewrite Hk, Hw.
    apply not_true_iff_false. rewrite is_behind_spec, Z.sub_diag. change (0 mod 2 ^ 32) with 0. lia.
  - cbn [negb Nat.eqb with_outstanding niu]. apply is_behind_spec. rewrite <- Hw. unfold wrap.
    change (2 ^ 31) with 2147483648 in *. change (2 ^ 32) with 4294967296 in *. Z.to_euclidean_division_equations. lia.
Qed.
(** The command done, at time [n]. *)
Definition done_at w (j : transfer) (n : Z) : noc_world chip :=
  Build_noc_world (tlb w) (acknowledge j (with_outstanding (with_times (tiles w) (ready_left (tiles w)) n) [])).
Lemma status_loop x y cmd acks j deadline c fuel k w : pending w x y cmd acks j -> outstanding (tiles w) = [(k, j)] ->
  last_noc_cmd c = cmd -> last_expected_acks c = acks -> (k < fuel)%nat -> now (tiles w) + Z.of_nat k < deadline ->
  do_while fuel (poll_status c deadline) w = Some (tt, done_at w j (now (tiles w) + Z.of_nat k)).
Proof.
  intros Hp Ho Hc He. revert k w Hp Ho. induction fuel as [|fuel IH]; intros k w Hp Ho Hf Hd; [lia|]. cbn [do_while].
  pose proof (get_status_run x y cmd acks j k c w Hp Ho Hc He) as E. unfold poll_status. destruct k as [|k].
  - rewrite (bind_run _ _ _ (Some tt) (polled w 0 j)); [|by rewrite (bind_run _ _ _ _ _ E)]. rewrite Z.add_0_r. done.
  - set (w1 := Build_noc_world (tlb w) (with_outstanding (with_times (tiles w) (ready_left (tiles w)) (now (tiles w) + 1)) [(k, j)])).
    rewrite (bind_run _ _ _ None w1).
    + etransitivity; [apply (IH k w1)|].
      * destruct Hp as (P1 & P2 & P3 & P4 & P5 & _). split_and!; try done; [lia | lia | by exists k].
      * done.
      * lia.
      * cbn [w1 tiles with_outstanding with_times now]. lia.
      * unfold done_at, w1. cbn [tlb tiles]. by replace (now (tiles w) + Z.of_nat (S k)) with (now (tiles w) + 1 + Z.of_nat k) by lia.
    + rewrite (bind_run _ _ _ _ _ E). cbn [negb Nat.eqb polled]. unfold expired.
      rewrite (bind_run _ _ _ (deadline <=? now (tiles w)) w1).
      * destruct (Z.leb_spec deadline (now (tiles w))); [lia | done].
      * by rewrite (bind_run _ _ _ _ _ (uptime_run _)).
Qed.
Lemma wait_done_run x y cmd acks j k c fuel w : pending w x y cmd acks j -> outstanding (tiles w) = [(k, j)] ->
  last_noc_cmd c = cmd -> last_expected_acks c = acks -> (k < fuel)%nat -> (k < 49)%nat ->
  exists n, wait_done fuel c w = Some (0, done_at w j n).
Proof.
  intros Hp Ho Hc He Hf H49.
  set (w1 := Build_noc_world (tlb w) (with_times (tiles w) (ready_left (tiles w)) (now (tiles w) + 1))).
  eexists. unfold wait_done, timepoint, NOC_DMA_TIMEOUT_MS.
  rewrite (bind_run _ _ _ (now (tiles w) + 50) w1) by (by rewrite (bind_run _ _ _ _ _ (uptime_run _))).
  rewrite (bind_run _ _ _ _ _ (status_loop x y cmd acks j (now (tiles w) + 50) c fuel k w1 Hp Ho Hc He Hf ltac:(unfold w1; cbn; lia))).
  unfold expired. rewrite (bind_run _ _ _ false (done_at w j (now (tiles w) + 1 + Z.of_nat k + 1))); [done|].
  rewrite (bind_run _ _ _ _ _ (uptime_run _)). cbn. unfold mret, Dev_ret. f_equal. f_equal.
  destruct (Z.leb_spec (now (tiles w) + 50) (now (tiles w) + 1 + Z.of_nat k)); [lia | done].
Qed.
(** * Transfers *)
Definition packets_of (size : Z) : Z := DIV_ROUND_UP size NOC_MAX_BURST_SIZE.
Lemma packets_range size : 0 < size < 2 ^ 32 -> 0 < packets_of size < 2 ^ 31.
Proof. intros Hs. unfold packets_of, DIV_ROUND_UP, NOC_MAX_BURST_SIZE. Z.to_euclidean_division_equations. lia. Qed.
(** The interface takes a command soon enough, and no command is outstanding. *)
Definition ready (fuel : nat) t : Prop := (ready_left t < fuel)%nat /\ (ready_left t < 50)%nat /\ outstanding t = [].
Lemma transfer_run x y cmd ret ra targ ta size mc incl fuel w :
  at_niu w x y -> u32_addr ra -> u32_addr ta -> 0 < size < 2 ^ 32 -> ready fuel (tiles w) ->
  let ctrl := noc_ctrl cmd mc incl in
  let j := order_of x y {| c_ctrl := ctrl; c_ret := ret; c_ret_addr := ra; c_targ := targ; c_targ_addr := ta; c_size := size |}
             (brcst_on (tiles w)) in
  exists t' acks, noc_dma_transfer fuel cmd ret ra targ ta size mc 0 incl w = Some ((0, ctrl, acks), Build_noc_world (tlb w) t') /\
    started j (tiles w) t' /\ pending (Build_noc_world (tlb w) t') x y ctrl acks j.
Proof.
  intros Hs Hr Ht Hz (Hf & H50 & Ha) ctrl j. unfold noc_dma_transfer. fold ctrl.
  set (q := {| c_ctrl := ctrl; c_ret := ret; c_ret_addr := ra; c_targ := targ; c_targ_addr := ta; c_size := size |}) in j.
  set (acks := u32 (niu (tiles w) x y (ack_reg ctrl) + packets_of size)).
  destruct (wait_cmd_ready_run x y fuel w Hs Hf H50) as [n E2].
  destruct (issue_run x y q (Build_noc_world (tlb w) (with_times (tiles w) 0 n)) Hs Hr Ht) as (t' & E3 & Hp).
  exists t', acks. split_and!; [| exact Hp |].
  - rewrite (bind_run _ _ _ acks w).
    + rewrite (bind_run _ _ _ _ _ E2). cbn [negb]. by rewrite (bind_run _ _ _ _ _ E3).
    + unfold get_expected_acks. rewrite (bind_run _ _ _ _ _ (ack_read x y ctrl w Hs)), (settle_none _ Ha). by destruct w.
  - destruct Hp as (_ & _ & _ & _ & Ho & Hn). pose proof (packets_range size Hz). unfold pending. cbn [tiles] in *.
    split_and!; try done.
    + cbn [order_of j t_packets c_size q]. unfold packets_of in *. lia.
    + cbn [order_of j t_packets c_size q]. unfold packets_of in *. lia.
    + cbn [order_of t_tile t_ack q c_ctrl fst snd with_times niu] in Hn. by rewrite Hn.
    + cbn [with_times outstanding] in Ho. rewrite Ha in Ho. eexists. exact Ho.
Qed.
Lemma start_at x y (k : Dev (noc_world chip) (Z * Z * Z)) w : coords_ok x y ->
  exists w1, (_ ← NOC2AXITlbSetup NOC_DMA_NOC_ID NOC_DMA_TLB x y TARGET_ADDR_LO; k) w = k w1 /\ at_niu w1 x y /\ tiles w1 = tiles w.
Proof.
  intros Hc. destruct (NOC2AXITlbSetup_spec backwards 0 0 x y TARGET_ADDR_LO w) as (w1 & E & [Ht _] & Hs);
    [by left | lia | done | unfold TARGET_ADDR_LO; lia|].
  exists w1. split_and!; [by rewrite (bind_run _ _ _ _ _ E) | exact Hs | done].
Qed.
Definition all_coords : list (Z * Z) := a ← seqZ 0 64; b ← seqZ 0 64; [(a, b)].
Lemma coord_encode_all q : q ∈ all_coords -> coord_of (noc_coord_encode (fst q) (snd q)) = q.
Proof. revert q. refine (forall_in _ _ _). vm_compute. reflexivity. Qed.
Lemma coord_encode x y : coords_ok x y -> coord_of (noc_coord_encode x y) = (x, y).
Proof.
  intros [Hx Hy]. apply (coord_encode_all (x, y)).
  apply list_elem_of_bind. exists x. split; [|by apply elem_of_seqZ].
  apply list_elem_of_bind. exists y. split; [by left | by apply elem_of_seqZ].
Qed.
Definition block_ok (b : dma_block_config) : Prop :=
  u32_addr (source_address b) /\ u32_addr (dest_address b) /\ 0 < block_size b < 2 ^ 32.
Definition src (co : tt_bh_dma_noc_coords) : Z * Z := (source_x co, source_y co).
Definition dst (co : tt_bh_dma_noc_coords) : Z * Z := (dest_x co, dest_y co).
(** The tiles of a broadcast: columns 2 to the last and 1, rows 2 to 11, less the sender. *)
Definition cast_to (b : Z -> Z -> bool) (self : Z * Z) : list (Z * Z) :=
  filter (λ p, in_rect false (2, 2, 1, 11) (fst p) (snd p) && b (fst p) (snd p) && negb (bool_decide (p = self)) = true) grid.
(** What a transfer does to the memory of the chip. *)
Definition moved (dir : direction) (co : tt_bh_dma_noc_coords) (b : dma_block_config) (on : Z -> Z -> bool)
    (m : Z -> Z -> Z -> Z) : Z -> Z -> Z -> Z :=
  match dir with
  | MEMORY_TO_PERIPHERAL => copy_bytes (dst co) (dest_address b) [src co] (source_address b) (block_size b) m
  | PERIPHERAL_TO_MEMORY => copy_bytes (src co) (source_address b) [dst co] (dest_address b) (block_size b) m
  | BROADCAST => copy_bytes (dst co) (source_address b) (cast_to on (dst co)) (dest_address b) (block_size b) m
  | _ => m
  end.
(** A chip after a transfer was started: no byte is copied, and the only command outstanding
    will turn the memory [m] into [f m] and be acknowledged. *)
Definition after_transfer (x y cmd acks : Z) (f : (Z -> Z -> Z -> Z) -> Z -> Z -> Z -> Z) w w' : Prop :=
  let p := hd (0%nat, 0%nat) (pace (tiles w)) in
  exists j, effect j = f /\ outstanding (tiles w') = [(snd p, j)] /\ pending w' x y cmd acks j /\
    mem (tiles w') = mem (tiles w) /\ brcst_on (tiles w') = brcst_on (tiles w) /\ pace (tiles w') = tail (pace (tiles w)) /\
    ready_left (tiles w') = fst p.
Lemma transfer_at x y cmd ret ra targ ta size mc incl fuel w :
  coords_ok x y -> u32_addr ra -> u32_addr ta -> 0 < size < 2 ^ 32 -> ready fuel (tiles w) ->
  let ctrl := noc_ctrl cmd mc incl in
  exists w' acks,
    (_ ← NOC2AXITlbSetup NOC_DMA_NOC_ID NOC_DMA_TLB x y TARGET_ADDR_LO; noc_dma_transfer fuel cmd ret ra targ ta size mc 0 incl) w
      = Some ((0, ctrl, acks), w') /\
    after_transfer x y ctrl acks (copy_bytes (coord_of targ) ta
      (cmd_receivers (brcst_on (tiles w)) (x, y) (λ a, if a =? CMD_BRCST then ctrl else ret)) ra size) w w'.
Proof.
  intros Hc Hr Ht Hz Hw ctrl.
  destruct (start_at x y (noc_dma_transfer fuel cmd ret ra targ ta size mc 0 incl) w Hc) as (w1 & E & Hs & Ht1). rewrite E.
  destruct (transfer_run x y cmd ret ra targ ta size mc incl fuel w1 Hs Hr Ht Hz) as (t' & acks & E2 & (M & B & P & R & O & _) & Hp);
    [by rewrite Ht1|].
  rewrite Ht1 in *. destruct Hw as (_ & _ & Hw). rewrite Hw in O.
  eexists _, acks. split; [exact E2|]. match type of Hp with pending _ _ _ _ _ ?j => exists j end. split_and!; [reflexivity | exact O | exact Hp | done..].
Qed.
Section directions.
Context (fuel : nat) (co : tt_bh_dma_noc_coords) (b : dma_block_config) (w : noc_world chip).
Hypotheses (Hb : block_ok b) (Hsrc : coords_ok (source_x co) (source_y co)) (Hdst : coords_ok (dest_x co) (dest_y co)).
Hypothesis (Hw : ready fuel (tiles w)).
Lemma mem_to_per_run : exists w' acks,
  start_mem_to_per fuel co b w = Some ((0, noc_ctrl NOC_CMD_RD false false, acks), w') /\
  after_transfer (source_x co) (source_y co) (noc_ctrl NOC_CMD_RD false false) acks
    (moved MEMORY_TO_PERIPHERAL co b (brcst_on (tiles w))) w w'.
Proof using Hb Hsrc Hdst Hw.
  destruct Hb as (H1 & H2 & H3). unfold moved, dst, src. rewrite <- (coord_encode (source_x co) (source_y co)) by done.
  rewrite <- (coord_encode (dest_x co) (dest_y co)) by done. by apply transfer_at.
Qed.
Lemma per_to_mem_run : exists w' acks,
  start_per_to_mem fuel co b w = Some ((0, noc_ctrl NOC_CMD_WR false false, acks), w') /\
  after_transfer (source_x co) (source_y co) (noc_ctrl NOC_CMD_WR false false) acks
    (moved PERIPHERAL_TO_MEMORY co b (brcst_on (tiles w))) w w'.
Proof using Hb Hsrc Hdst Hw.
  destruct Hb as (H1 & H2 & H3). unfold moved, dst, src. rewrite <- (coord_encode (source_x co) (source_y co)) by done.
  rewrite <- (coord_encode (dest_x co) (dest_y co)) by done. by apply transfer_at.
Qed.
Lemma broadcast_run : exists w' acks,
  noc_dma_write_multicast fuel (dest_x co) (dest_y co) (source_address b) 2 2 1 11 (dest_address b) (block_size b) false w
    = Some ((0, noc_ctrl NOC_CMD_WR true false, acks), w') /\
  after_transfer (dest_x co) (dest_y co) (noc_ctrl NOC_CMD_WR true false) acks
    (moved BROADCAST co b (brcst_on (tiles w))) w w'.
Proof using Hb Hdst Hw.
  destruct Hb as (H1 & H2 & H3). destruct (transfer_at (dest_x co) (dest_y co) NOC_CMD_WR (noc_coord_encode_range 2 2 1 11)
    (dest_address b) (noc_coord_encode (dest_x co) (dest_y co)) (source_address b) (block_size b) true false fuel w Hdst H2 H1 H3 Hw)
    as (w' & acks & E & Ha). rewrite coord_encode in Ha by done. exists w', acks. split; [exact E | exact Ha].
Qed.
End directions.
(** * Starting a channel *)
(** One transfer of the current block, for the directions that only start one. *)
Lemma start_async_run fuel c b w : block_ok b -> coords_ok (source_x (coords c)) (source_y (coords c)) ->
  coords_ok (dest_x (coords c)) (dest_y (coords c)) -> ready fuel (tiles w) ->
  channel_direction (config c) ∈ [MEMORY_TO_PERIPHERAL; PERIPHERAL_TO_MEMORY; BROADCAST] ->
  exists x y cmd acks w', start_async fuel c b w = Some ((0, with_cmd c cmd acks), w') /\
    after_transfer x y cmd acks (moved (channel_direction (config c)) (coords c) b (brcst_on (tiles w))) w w'.
Proof.
  intros Hb Hs Hd Hw Hdir. unfold start_async.
  rewrite !elem_of_cons in Hdir. destruct Hdir as [E | [E | [E | []%elem_of_nil]]]; rewrite E.
  - destruct (mem_to_per_run fuel (coords c) b w Hb Hs Hd Hw) as (w' & acks & E1 & Ha).
    eexists _, _, _, acks, w'. split; [by rewrite (bind_run _ _ _ _ _ E1) | exact Ha].
  - destruct (per_to_mem_run fuel (coords c) b w Hb Hs Hd Hw) as (w' & acks & E1 & Ha).
    eexists _, _, _, acks, w'. split; [by rewrite (bind_run _ _ _ _ _ E1) | exact Ha].
  - destruct (broadcast_run fuel (coords c) b w Hb Hd Hw) as (w' & acks & E1 & Ha).
    eexists _, _, _, acks, w'. split; [by rewrite (bind_run _ _ _ _ _ E1) | exact Ha].
Qed.
Definition channel_of d (n : Z) c : Prop := 0 <= n < num_channels d /\ channels d !! Z.to_nat n = Some c.
Lemma set_channel_of d n c c' : channel_of d n c -> channel_of (set_channel d n c') n c'.
Proof.
  intros [H1 H2]. apply lookup_lt_Some in H2 as Hl. unfold channel_of, num_channels, set_channel in *. cbn [channels].
  rewrite length_insert, list_lookup_insert_eq by done. done.
Qed.
Lemma start_entry fuel n channel d c w : channel_of d channel c -> configured c = true ->
  start_run fuel (S n) true channel d w = start_run fuel n false channel (set_channel d channel (with_index c 0)) w.
Proof.
  intros [H1 H2] Hc. cbn [start_run]. destruct (Z.leb_spec (num_channels d) channel); [lia|]. by rewrite H2, Hc.
Qed.
(** A step of the loop, down to the choice of the direction. *)
Lemma loop_async fuel n channel d c b w : channel_of d channel c -> block_index c < block_count c -> current_block c = Some b ->
  channel_direction (config c) <> MEMORY_TO_MEMORY ->
  start_run fuel (S n) false channel d w =
    ('(ret, c) ← start_async fuel c b; mret (ret, set_channel d channel c) : Dev _ (Z * noc_dma)) w.
Proof.
  intros [H1 H2] Hi Hb Hd. cbn [start_run]. destruct (Z.leb_spec (num_channels d) channel); [lia|]. rewrite H2.
  destruct (Z.leb_spec (block_count c) (block_index c)); [lia|]. rewrite Hb. by destruct (channel_direction (config c)).
Qed.
Lemma get_status_api x y cmd acks j k channel d c w : channel_of d channel c -> pending w x y cmd acks j ->
  outstanding (tiles w) = [(k, j)] -> last_noc_cmd c = cmd -> last_expected_acks c = acks ->
  tt_bh_dma_noc_get_status channel d w = Some ((0, negb (k =? 0)%nat), polled w k j).
Proof.
  intros [H1 H2] Hp Ho Hc He. unfold tt_bh_dma_noc_get_status. destruct (Z.leb_spec (num_channels d) channel); [lia|]. rewrite H2.
  by rewrite (bind_run _ _ _ _ _ (get_status_run x y cmd acks j k c w Hp Ho Hc He)).
Qed.
(** * Memory to memory *)
(** A block is copied within the memory of the destination tile, and stays in the scratch
    memory of the source tile. *)
Definition copied (co : tt_bh_dma_noc_coords) (m : Z -> Z -> Z -> Z) (b : dma_block_config) : Z -> Z -> Z -> Z :=
  copy_bytes (dst co) (source_address b) [dst co] (dest_address b) (block_size b)
    (copy_bytes (dst co) (source_address b) [src co] 0 (block_size b) m).
Lemma copy_bytes_ext from fa to ta len (m m' : Z -> Z -> Z -> Z) : (forall x y a, m x y a = m' x y a) ->
  forall x y a, copy_bytes from fa to ta len m x y a = copy_bytes from fa to ta len m' x y a.
Proof. intros Hm x y a. unfold copy_bytes. by rewrite !Hm. Qed.
Lemma copied_ext co b m m' : (forall x y a, m x y a = m' x y a) -> forall x y a, copied co m b x y a = copied co m' b x y a.
Proof. intros Hm. by apply copy_bytes_ext, copy_bytes_ext. Qed.
Lemma copied_foldl_ext co bs : forall m m', (forall x y a, m x y a = m' x y a) ->
  forall x y a, foldl (copied co) m bs x y a = foldl (copied co) m' bs x y a.
Proof. induction bs as [|b bs IH]; intros m m' Hm; [done|]. cbn [foldl]. by apply IH, copied_ext. Qed.
(** The two transfers of a block amount to that. *)
Lemma copied_two co b m on on' : src co <> dst co -> forall x y a,
  moved PERIPHERAL_TO_MEMORY co {| source_address := 0; dest_address := dest_address b; block_size := block_size b |} on
    (moved MEMORY_TO_PERIPHERAL co {| source_address := 0; dest_address := source_address b; block_size := block_size b |} on' m) x y a
  = copied co m b x y a.
Proof.
  intros Hne x y a. unfold moved, copied, copy_bytes. cbn [source_address dest_address block_size].
  destruct (bool_decide_reflect ((x, y) ∈ [dst co])) as [Hd|]; [|done].
  destruct (Z.leb_spec (dest_address b) a), (Z.ltb_spec a (dest_address b + block_size b)); try done. cbn [andb].
  rewrite <- !surjective_pairing. rewrite (bool_decide_true (src co ∈ [src co])) by (by left).
  rewrite (bool_decide_false (dst co ∈ [src co])) by (intros He%list_elem_of_singleton; congruence). cbn [andb].
  rewrite (proj2 (Z.leb_le _ _)), (proj2 (Z.ltb_lt _ _)) by lia. cbn [andb]. f_equal. lia.
Qed.
Lemma s32_u32 a : u32_addr a -> u32 (s32 a) = a.
Proof.
  unfold u32_addr, s32. intros Ha. rewrite (wrap_id 32 a) by done. destruct (Z.ltb_spec a (2 ^ 31)); [by apply wrap_id|].
  unfold wrap. rewrite <- (Z_mod_plus_full _ 1), Z.mod_small; lia.
Qed.
Definition quick (fuel : nat) (p : nat * nat) : Prop := (fst p < fuel /\ fst p < 50 /\ snd p < fuel /\ snd p < 49)%nat.
Definition steady (fuel : nat) t : Prop := ready fuel t /\ Forall (quick fuel) (pace t).
Lemma pace_next fuel l : Forall (quick fuel) l -> (0 < fuel)%nat -> quick fuel (hd (0%nat, 0%nat) l) /\ Forall (quick fuel) (tail l).
Proof. intros Hl Hf. destruct Hl; [|done]. split; [unfold quick; cbn; lia | done]. Qed.
(** A transfer of a block and the wait for it: only then are the bytes there. *)
Lemma transfer_waited fuel x y cmd acks f c w w' : steady fuel (tiles w) -> after_transfer x y cmd acks f w w' ->
  last_noc_cmd c = cmd -> last_expected_acks c = acks ->
  exists w2, wait_done fuel c w' = Some (0, w2) /\ steady fuel (tiles w2) /\ mem (tiles w2) = f (mem (tiles w)) /\
    brcst_on (tiles w2) = brcst_on (tiles w).
Proof.
  intros [[Hr Hr'] Hp] (j & <- & O & Hpend & M & B & P & R) Hc He. destruct (pace_next fuel _ Hp ltac:(lia)) as [Hq Ht].
  destruct Hq as (Q1 & Q2 & Q3 & Q4).
  destruct (wait_done_run x y cmd acks j _ c fuel w' Hpend O Hc He Q3 Q4) as [n E]. eexists. split; [exact E|].
  unfold steady, ready. cbn. rewrite P, M, R. by split_and!.
Qed.
Definition done_block c c' (b : dma_block_config) : Prop :=
  blocks c' = <[Z.to_nat (block_index c) := {| source_address := 0; dest_address := dest_address b; block_size := block_size b |}]> (blocks c) /\
  coords c' = coords c /\ config c' = config c /\ block_index c' = block_index c /\ block_count c' = block_count c /\
  configured c' = configured c.
Lemma mem_to_mem_block_run fuel c b w : current_block c = Some b -> block_ok b ->
  coords_ok (source_x (coords c)) (source_y (coords c)) -> coords_ok (dest_x (coords c)) (dest_y (coords c)) ->
  src (coords c) <> dst (coords c) -> steady fuel (tiles w) ->
  exists c' w', mem_to_mem_block fuel c w = Some ((0, c'), w') /\ done_block c c' b /\ steady fuel (tiles w') /\
    forall x y a, mem (tiles w') x y a = copied (coords c) (mem (tiles w)) b x y a.
Proof.
  intros Hb (B1 & B2 & B3) Hs Hd Hne Hw. unfold mem_to_mem_block. rewrite Hb, s32_u32 by done. cbv zeta.
  set (b1 := {| source_address := 0; dest_address := source_address b; block_size := block_size b |}).
  set (b2 := {| source_address := 0; dest_address := dest_address b; block_size := block_size b |}).
  assert (Hb1 : block_ok b1 /\ block_ok b2) by (unfold block_ok, u32_addr in *; cbn; lia). destruct Hb1 as [Hb1 Hb2].
  destruct (mem_to_per_run fuel (coords c) b1 w Hb1 Hs Hd (proj1 Hw)) as (w1 & acks & E1 & Ha1).
  rewrite (bind_run _ _ _ _ _ E1). cbn [negb Z.eqb].
  set (c1 := with_block (with_cmd (with_block c b1) _ _) b2).
  destruct (transfer_waited fuel _ _ _ _ _ c1 w w1 Hw Ha1) as (w2 & E2 & Hw2 & M2 & B2'); [done | done|].
  rewrite (bind_run _ _ _ _ _ E2). cbn [negb Z.eqb].
  destruct (per_to_mem_run fuel (coords c) b2 w2 Hb2 Hs Hd (proj1 Hw2)) as (w3 & acks3 & E3 & Ha3).
  change (coords c1) with (coords c). rewrite (bind_run _ _ _ _ _ E3). cbn [negb Z.eqb].
  set (c3 := with_cmd c1 _ _).
  destruct (transfer_waited fuel _ _ _ _ _ c3 w2 w3 Hw2 Ha3) as (w4 & E4 & Hw4 & M4 & _); [done | done|].
  rewrite (bind_run _ _ _ _ _ E4). exists c3, w4. split; [done|]. split; [|split; [exact Hw4|]].
  - split; [|repeat split; reflexivity]. unfold c3, c1, with_cmd, with_block. cbn [blocks block_index]. by rewrite list_insert_insert_eq.
  - intros x y a. rewrite M4, M2. by apply copied_two.
Qed.
(** The call-backs of the last [k] blocks. *)
Definition notes (cfg : dma_config) (channel : Z) (k : nat) : list (Z * Z * Z) :=
  match dma_callback cfg, k with
  | Some f, S j => (if complete_callback_en cfg then replicate j (f, channel, DMA_STATUS_BLOCK) else []) ++ [(f, channel, DMA_STATUS_COMPLETE)]
  | _, _ => []
  end.
Lemma callbacks_run d channel k c : block_index c + Z.of_nat (S k) = block_count c ->
  let d' := handle_transfer_callbacks d channel 0 (block_index c + 1 =? block_count c) c in
  channels d' = channels d /\ called d' ++ notes (config c) channel k = called d ++ notes (config c) channel (S k).
Proof.
  intros Hk. unfold handle_transfer_callbacks, notes. destruct (dma_callback (config c)) as [f|]; [|done].
  split; [done|]. change (0 =? 0) with true. cbv iota. cbn [called]. rewrite <- app_assoc. f_equal.
  destruct k as [|k].
  - rewrite (proj2 (Z.eqb_eq _ _)) by lia. by rewrite andb_false_r; destruct (complete_callback_en (config c)).
  - rewrite (proj2 (Z.eqb_neq _ _)) by lia. by destruct (complete_callback_en (config c)).
Qed.
Definition same_others d d' (channel : Z) : Prop := forall j, j <> Z.to_nat channel -> channels d' !! j = channels d !! j.
(** A channel in the middle of a memory-to-memory transfer: the blocks [bs] are left. *)
Definition copying c (bs : list dma_block_config) : Prop :=
  channel_direction (config c) = MEMORY_TO_MEMORY /\ linked_channel (config c) = DMA_CHANNEL_INVALID /\
  0 <= block_index c /\ block_index c + Z.of_nat (length bs) = block_count c /\
  take (length bs) (drop (Z.to_nat (block_index c)) (blocks c)) = bs /\ Forall block_ok bs /\
  coords_ok (source_x (coords c)) (source_y (coords c)) /\ coords_ok (dest_x (coords c)) (dest_y (coords c)) /\
  src (coords c) <> dst (coords c).
Lemma copying_current c b bs : copying c (b :: bs) -> current_block c = Some b /\ block_ok b.
Proof.
  intros (_ & _ & _ & _ & Ht & Hf & _). split; [|by apply list.Forall_cons in Hf as [? _]]. unfold current_block.
  rewrite <- (Nat.add_0_r (Z.to_nat _)), <- lookup_drop.
  assert (Hl : take (length (b :: bs)) (drop (Z.to_nat (block_index c)) (blocks c)) !! 0%nat = Some b) by (by rewrite Ht).
  by apply lookup_take_Some in Hl as [Hl _].
Qed.
Lemma copying_next c c' b bs : copying c (b :: bs) -> done_block c c' b -> copying (with_index c' (block_index c' + 1)) bs.
Proof.
  intros (H1 & H2 & H3 & H4 & H5 & H6 & H7) (D1 & D2 & D3 & D4 & D5 & _). unfold copying. cbn [config with_index block_index block_count blocks coords].
  rewrite D1, D2, D3, D4, D5. apply list.Forall_cons in H6 as [_ H6]. cbn [length] in *. split_and!; try done; try apply H7; try lia.
  rewrite drop_insert_lt by lia. replace (Z.to_nat (block_index c + 1)) with (Z.to_nat (block_index c) + 1)%nat by lia.
  rewrite <- drop_drop. destruct (drop (Z.to_nat (block_index c)) (blocks c)) as [|b0 l]; [done|]. cbn [take] in H5. injection H5 as _ H5. exact H5.
Qed.
Lemma loop_mem_to_mem fuel channel bs : forall n d c w m, channel_of d channel c -> copying c bs -> (length bs < n)%nat ->
  steady fuel (tiles w) -> (forall x y a, mem (tiles w) x y a = m x y a) ->
  exists d' w', start_run fuel n false channel d w = Some ((0, d'), w') /\
    (forall x y a, mem (tiles w') x y a = foldl (copied (coords c)) m bs x y a) /\ outstanding (tiles w') = [] /\
    called d' = called d ++ notes (config c) channel (length bs) /\ same_others d d' channel.
Proof.
  induction bs as [|b bs IH]; intros [|n] d c w m Hd Hc Hn Hw Hm; try (cbn in Hn; lia).
  all: destruct Hd as [Hr Hl]; pose proof Hc as (H1 & H2 & H3 & H4 & H5); cbn [length] in *.
  all: cbn [start_run]; destruct (Z.leb_spec (num_channels d) channel); [lia|]; rewrite Hl.
  - rewrite (proj2 (Z.leb_le _ _)) by lia. exists d, w. split_and!; try done; [by destruct Hw as [(_ & _ & Hw) _]|]. unfold notes. destruct (dma_callback _); by rewrite app_nil_r.
  - rewrite (proj2 (Z.leb_gt _ _)), H1 by lia. destruct (copying_current c b bs Hc) as [Hb Hok]. rewrite Hb.
    destruct H5 as (_ & _ & Hs & Hds & Hne).
    destruct (mem_to_mem_block_run fuel c b w Hb Hok Hs Hds Hne Hw) as (c' & w' & E & HD & Hw' & M).
    rewrite (bind_run _ _ _ _ _ E). change (negb (0 =? 0)) with false. cbv iota zeta.
    pose proof (copying_next c c' b bs Hc HD) as Hc'. destruct HD as (_ & D2 & D3 & D4 & D5 & _).
    destruct (callbacks_run (set_channel d channel c') channel (length bs) c') as [CC CN]; [rewrite D4, D5; lia|].
    set (d1 := handle_transfer_callbacks _ _ _ _ _) in *.
    unfold linked_start. rewrite D3, H2. change (DMA_CHANNEL_INVALID =? DMA_CHANNEL_INVALID) with true. cbv iota.
    rewrite (bind_run _ _ _ d1 w') by done.
    destruct (set_channel_of d channel c c' (conj Hr Hl)) as [Hr1 Hl1]. unfold num_channels in Hr1. rewrite CC, Hl1.
    destruct (IH n (set_channel d1 channel (with_index c' (block_index c' + 1))) (with_index c' (block_index c' + 1)) w'
      (copied (coords c) m b)) as (d2 & w2 & E2 & M2 & S2 & N2 & O2); [| exact Hc' | lia | exact Hw' | | ].
    + eapply (set_channel_of _ _ c'). unfold channel_of, num_channels. by rewrite CC.
    + intros x y a. rewrite M. by apply copied_ext.
    + exists d2, w2. split_and!; [exact E2 | | exact S2 | |].
      * intros x y a. rewrite M2. cbn [coords with_index]. by rewrite D2.
      * rewrite N2. cbn [config with_index set_channel called]. rewrite D3 in *. exact CN.
      * intros j Hj. rewrite (O2 j Hj). unfold set_channel at 1. cbn [channels]. rewrite list_lookup_insert_ne by done. rewrite CC.
        unfold set_channel. cbn [channels]. by rewrite list_lookup_insert_ne by done.
Qed.
(** Configuring a channel. *)
Definition good_config d (channel : Z) (cfg : dma_config) (co : tt_bh_dma_noc_coords) : Prop :=
  0 <= channel < num_channels d /\ cfg_block_count cfg = Z.of_nat (length (head_block cfg)) /\
  0 < cfg_block_count cfg <= DMA_MAX_TRANSFER_BLOCKS /\ Forall block_ok (head_block cfg) /\
  coords_ok (source_x co) (source_y co) /\ coords_ok (dest_x co) (dest_y co).
Lemma config_run d channel cfg co : good_config d channel cfg co ->
  exists d1 c, tt_bh_dma_noc_config d channel cfg co = (0, d1) /\ channel_of d1 channel c /\ configured c = true /\
    config c = cfg /\ coords c = co /\ block_index c = 0 /\ block_count c = cfg_block_count cfg /\
    take (length (head_block cfg)) (blocks c) = head_block cfg /\ called d1 = called d /\ same_others d d1 channel.
Proof.
  intros (Hn & Hc & Hk & _). unfold tt_bh_dma_noc_config, DMA_MAX_TRANSFER_BLOCKS in *.
  rewrite (proj2 (Z.eqb_neq _ _)), (proj2 (Z.ltb_ge _ _)), (proj2 (Z.leb_gt _ _)) by lia.
  destruct (lookup_lt_is_Some_2 (channels d) (Z.to_nat channel)) as [c0 Hc0]; [unfold num_channels in Hn; lia|].
  rewrite Hc0. eexists _, _. split; [reflexivity|]. split; [by eapply (set_channel_of _ _ c0)|].
  cbn [configured config coords block_index block_count blocks called set_channel].
  rewrite Hc, Nat2Z.id, (take_ge (head_block cfg)) by lia.
  split_and!; try done; [by rewrite take_app_length|].
  intros j Hj. cbn [channels set_channel]. by rewrite list_lookup_insert_ne.
Qed.
End chip_proofs.

(** A channel configured for a transfer to, from or, by a broadcast, to all tiles and then
    started: the driver programs the interface of the right tile and starts the command once the
    interface takes it; the status read next says busy if and only if the transfer is not done yet, and
    once it is done exactly the bytes of the first block were copied, between the tiles and addresses
    of the configuration. *)
Theorem noc_dma_starts (backwards : Z -> bool) (fuel n : nat) (channel : Z) (cfg : dma_config) (co : tt_bh_dma_noc_coords)
    (b : dma_block_config) (d : noc_dma) (w : noc_world chip) :
  let _ := noc_bus backwards in
  good_config d channel cfg co -> head_block cfg !! 0%nat = Some b ->
  channel_direction cfg ∈ [MEMORY_TO_PERIPHERAL; PERIPHERAL_TO_MEMORY; BROADCAST] -> ready fuel (tiles w) ->
  exists d1 d2 w' busy w2, tt_bh_dma_noc_config d channel cfg co = (0, d1) /\
    tt_bh_dma_noc_start fuel (S (S n)) channel d1 w = Some ((0, d2), w') /\
    mem (tiles w') = mem (tiles w) /\ called d2 = called d /\ same_others d d2 channel /\
    tt_bh_dma_noc_get_status channel d2 w' = Some ((0, busy), w2) /\
    busy = negb (snd (hd (0%nat, 0%nat) (pace (tiles w))) =? 0)%nat /\
    mem (tiles w2) = (if busy then mem (tiles w) else moved (channel_direction cfg) co b (brcst_on (tiles w)) (mem (tiles w))).
Proof.
  intros bus; subst bus; intros Hg Hb Hdir Hw. destruct (config_run d channel cfg co Hg) as (d1 & c & E & Hd & C1 & C2 & C3 & C4 & C5 & C6 & C7 & C8).
  destruct Hg as (_ & Hl & Hk & Hok & Hs & Hds).
  assert (Hcur : current_block (with_index c 0) = Some b).
  { rewrite <- C6 in Hb. by apply lookup_take_Some in Hb as [Hb _]. }
  subst cfg co. destruct (start_async_run backwards fuel (with_index c 0) b w) as (x & y & cmd & acks & w' & E2 & j & F & O & Hp & M & _);
    try done; [by eapply (Forall_lookup_1 _ _ _ _ Hok)|].
  pose proof (set_channel_of _ _ _ (with_index c 0) Hd) as Hd1.
  pose proof (set_channel_of _ _ _ (with_cmd (with_index c 0) cmd acks) Hd1) as Hd2.
  pose proof (get_status_api backwards x y cmd acks j _ channel _ _ w' Hd2 Hp O eq_refl eq_refl) as E3.
  eexists d1, (set_channel (set_channel d1 channel (with_index c 0)) channel (with_cmd (with_index c 0) cmd acks)), w', _, _.
  split; [exact E|]. split_and!; [| exact M | exact C7 | | exact E3 | done |].
  - unfold tt_bh_dma_noc_start. rewrite (start_entry backwards fuel (S n) channel d1 c w Hd C1).
    rewrite (loop_async backwards fuel n channel _ _ b w Hd1); [by rewrite (bind_run _ _ _ _ _ E2) | cbn; lia | done |].
    intros HM. cbn in HM. rewrite HM in Hdir. set_solver.
  - intros i Hi. cbn [set_channel channels]. by rewrite !list_lookup_insert_ne by done; apply C8.
  - destruct (snd _) as [|k]; cbn [polled tiles negb Nat.eqb]; [|exact M]. cbn [acknowledge with_niu with_mem mem with_outstanding].
    by rewrite F, M.
Qed.
(** C27. A channel configured for a transfer from memory to memory, with no channel linked to it and
    between two tiles, and then started while the interface has no command outstanding, copies all of
    its blocks, one after the other, each as if at once, though source and destination overlap, by way
    of the scratch memory of the source tile. It waits for each of the transfers, whose bytes are only
    there once they are acknowledged, so that all is copied and nothing outstanding when it returns
    success; it calls back once a block and at the end, and no other channel changes. This is so for
    every pace of the chip at which a command is taken in fewer than 50 polls and acknowledged in fewer
    than 49, a millisecond each, so within the driver's time-outs. *)
Theorem noc_dma_mem_to_mem (backwards : Z -> bool) (fuel n : nat) (channel : Z) (cfg : dma_config) (co : tt_bh_dma_noc_coords)
    (d : noc_dma) (w : noc_world chip) :
  let _ := noc_bus backwards in
  good_config d channel cfg co -> channel_direction cfg = MEMORY_TO_MEMORY -> linked_channel cfg = DMA_CHANNEL_INVALID ->
  src co <> dst co -> steady fuel (tiles w) -> (length (head_block cfg) < n)%nat ->
  exists d1 d2 w', tt_bh_dma_noc_config d channel cfg co = (0, d1) /\
    tt_bh_dma_noc_start fuel (S n) channel d1 w = Some ((0, d2), w') /\
    (forall x y a, mem (tiles w') x y a = foldl (copied co) (mem (tiles w)) (head_block cfg) x y a) /\
    outstanding (tiles w') = [] /\
    called d2 = called d ++ notes cfg channel (length (head_block cfg)) /\ same_others d d2 channel.
Proof.
  intros bus; subst bus; intros Hg Hm Hl Hne Hw Hn. destruct (config_run d channel cfg co Hg) as (d1 & c & E & Hd & C1 & C2 & C3 & C4 & C5 & C6 & C7 & C8).
  destruct Hg as (_ & Hc & _ & Hok & Hs & Hds). subst cfg co.
  pose proof (set_channel_of _ _ _ (with_index c 0) Hd) as Hd1.
  destruct (loop_mem_to_mem backwards fuel channel (head_block (config c)) n _ (with_index c 0) w (mem (tiles w)) Hd1)
    as (d2 & w' & E2 & M & S & N & O); [| done | done | done |].
  { unfold copying. cbn [config block_index block_count blocks coords with_index]. rewrite C5, Hc. split_and!; try done; try apply Hs; try apply Hds; lia. }
  exists d1, d2, w'. split; [exact E|]. split_and!.
  - unfold tt_bh_dma_noc_start. by rewrite (start_entry backwards fuel n channel d1 c w Hd C1).
  - exact M.
  - exact S.
  - rewrite N. cbn [called set_channel]. by rewrite C7.
  - intros j Hj. rewrite (O j Hj). cbn [set_channel channels]. rewrite list_lookup_insert_ne by done. by apply C8.
Qed.

(** * Witnesses *)
Definition idle_channel : tt_bh_dma_channel_data :=
  {| blocks := replicate 4 {| source_address := 0; dest_address := 0; block_size := 0 |};
     coords := {| source_x := 0; source_y := 0; dest_x := 0; dest_y := 0 |};
     config := {| channel_direction := OTHER_DIRECTION; head_block := []; cfg_block_count := 0; dma_callback := None;
                  complete_callback_en := false; error_callback_dis := false; linked_channel := 0; source_chaining_en := false;
                  dest_chaining_en := false |};
     last_noc_cmd := 0; last_expected_acks := 0; block_index := 0; block_count := 0; configured := false |}.
Definition two_channels : noc_dma := {| channels := [idle_channel; idle_channel]; called := [] |}.
Definition to_arc : tt_bh_dma_noc_coords := {| source_x := 1; source_y := 2; dest_x := 8; dest_y := 0 |}.
Definition plan (dir : direction) (bs : list dma_block_config) : dma_config :=
  {| channel_direction := dir; head_block := bs; cfg_block_count := Z.of_nat (length bs); dma_callback := Some 7;
     complete_callback_en := true; error_callback_dis := false; linked_channel := DMA_CHANNEL_INVALID;
     source_chaining_en := false; dest_chaining_en := false |}.
(** The byte at an address is the address. *)
Definition start_chip (p : list (nat * nat)) : noc_world chip :=
  Build_noc_world (λ _ _, 0) {| mem := λ _ _ a, a mod 256; niu := λ _ _ _, 0; ready_left := 3; outstanding := []; pace := p;
    now := 1000; brcst_on := λ x _, negb (x =? 8) && negb (x =? 9) |}.
Lemma noc_dma_starts_witness :
  let _ := noc_bus (λ _, false) in
  let b := {| source_address := 0x1000; dest_address := 0x10020000; block_size := 64 |} in
  let w := start_chip [(1%nat, 5%nat)] in
  exists d1 d2 w' busy w2, tt_bh_dma_noc_config two_channels 1 (plan PERIPHERAL_TO_MEMORY [b]) to_arc = (0, d1) /\
    tt_bh_dma_noc_start 60 2 1 d1 w = Some ((0, d2), w') /\
    mem (tiles w') = mem (tiles w) /\ called d2 = called two_channels /\ same_others two_channels d2 1 /\
    tt_bh_dma_noc_get_status 1 d2 w' = Some ((0, busy), w2) /\
    busy = negb (snd (hd (0%nat, 0%nat) (pace (tiles w))) =? 0)%nat /\
    mem (tiles w2) = (if busy then mem (tiles w) else moved PERIPHERAL_TO_MEMORY to_arc b (brcst_on (tiles w)) (mem (tiles w))).
Proof.
  intros bus b w. apply (noc_dma_starts (λ _, false) 60 0 1 (plan PERIPHERAL_TO_MEMORY [b]) to_arc b two_channels w).
  - unfold good_config, coords_ok, DMA_MAX_TRANSFER_BLOCKS. cbn. split_and!; try lia; try done.
    apply list.Forall_singleton. unfold block_ok, u32_addr. cbn. lia.
  - done.
  - set_solver.
  - unfold ready. cbn. split_and!; [lia | lia | done].
Defined.
Lemma noc_dma_mem_to_mem_witness :
  let _ := noc_bus (λ _, false) in
  let bs := [{| source_address := 0x10020000; dest_address := 0x10020010; block_size := 64 |};
             {| source_address := 0x10030000; dest_address := 0x90040000; block_size := 40000 |}] in
  let w := start_chip [(1%nat, 5%nat); (0%nat, 48%nat); (7%nat, 0%nat)] in
  exists d1 d2 w', tt_bh_dma_noc_config two_channels 0 (plan MEMORY_TO_MEMORY bs) to_arc = (0, d1) /\
    tt_bh_dma_noc_start 60 4 0 d1 w = Some ((0, d2), w') /\
    (forall x y a, mem (tiles w') x y a = foldl (copied to_arc) (mem (tiles w)) bs x y a) /\ outstanding (tiles w') = [] /\
    called d2 = called two_channels ++ notes (plan MEMORY_TO_MEMORY bs) 0 2 /\ same_others two_channels d2 0.
Proof.
  intros bus bs w. apply (noc_dma_mem_to_mem (λ _, false) 60 3 0 (plan MEMORY_TO_MEMORY bs) to_arc two_channels w).
  - unfold good_config, coords_ok, DMA_MAX_TRANSFER_BLOCKS. cbn. split_and!; try lia; try done. repeat (apply Forall_cons_2; [unfold block_ok, u32_addr; cbn; lia|]). done.
  - done.
  - done.
  - done.
  - unfold steady, ready. cbn. split; [split_and!; [lia | lia | done]|]. repeat (apply Forall_cons_2; [unfold quick; cbn; lia|]). done.
  - cbn. lia.
Defined.

(** * Findings *)
(** The first column of a range is lost: the row stands in its place. The driver's own
    range starts at (2, 2). *)
Lemma range_start_x_lost : noc_coord_encode_range 5 2 1 11 = noc_coord_encode_range 2 2 1 11 /\
  field (noc_coord_encode_range 5 2 1 11) 12 6 = 2.
Proof. by split. Qed.
Definition run_start (n : nat) (channel : Z) (r : Z * noc_dma) (w : noc_world chip) : option (Z * noc_dma * noc_world chip) :=
  let _ := noc_bus (λ _, false) in tt_bh_dma_noc_start 60 n channel (snd r) w.
(** A channel started a second time copies from address 0: the first start cleared the address of
    the source. *)
Definition source_at_17 : dma_block_config := {| source_address := 0x10020011; dest_address := 0x10030000; block_size := 4 |}.
Lemma restart_copies_from_0 :
  match run_start 4 0 (tt_bh_dma_noc_config two_channels 0 (plan MEMORY_TO_MEMORY [source_at_17]) to_arc) (start_chip []) with
  | Some (0, d1, w1) =>
      mem (tiles w1) 8 0 0x10030000 = 0x11 /\
      match run_start 4 0 (0, d1) w1 with
      | Some (0, _, w2) => mem (tiles w2) 8 0 0x10030000 = 0
      | _ => False
      end
  | _ => False
  end.
Proof. vm_compute. by split. Qed.
(** A transfer started while another of the same kind is not acknowledged: the acknowledgement of the
    first counts for the second, which is reported done while its own is outstanding. *)
Lemma second_transfer_done_early :
  let b := {| source_address := 0x1000; dest_address := 0x10020000; block_size := 64 |} in
  let r := tt_bh_dma_noc_config two_channels 1 (plan PERIPHERAL_TO_MEMORY [b]) to_arc in
  match run_start 2 1 r (start_chip [(0%nat, 1%nat); (0%nat, 9%nat)]) with
  | Some (0, d1, w1) =>
      match run_start 2 1 (0, d1) w1 with
      | Some (0, d2, w2) =>
          match (let _ := noc_bus (λ _, false) in tt_bh_dma_noc_get_status 1 d2 w2) with
          | Some (0, busy, w3) => busy = false /\ length (outstanding (tiles w3)) = 1%nat
          | _ => False
          end
      | _ => False
      end
  | _ => False
  end.
Proof. vm_compute. by split. Qed.
(** A wait that sees the transfer done in its last poll still reports a time-out. *)
Lemma done_at_deadline_times_out :
  match run_start 4 0 (tt_bh_dma_noc_config two_channels 0 (plan MEMORY_TO_MEMORY [source_at_17]) to_arc)
          (start_chip [(0%nat, 49%nat)]) with
  | Some (ret, _, w) => ret = - ETIMEDOUT /\ outstanding (tiles w) = []
  | None => False
  end.
Proof. vm_compute. by split. Qed.
