(* ===== verification/Pldm.v ===== *)
(** The PLDM repository of platform descriptors and its messages:
    [drivers/pmci/pldm/pldm_pdr.c], [pldm_platform.c].

    At start-up [pldm_pdr_provider_init] writes one record per sensor of the devicetree into a
    byte array, and a management controller reads the records in parts. What the sources take
    from libpldm (numbers, structure layouts, the checksum) is the class [LibPldm]. *)
From stdpp Require Import prelude list numbers.
From Stdlib Require Import ZArith Lia.
From S2P Require Import Prelude.
Open Scope Z_scope.

Definition PLDM_PDR_TERMINUS_HANDLE : Z := 1.
Definition PLDM_PDR_RECORD_HANDLE : Z := 1.
(** "en" *)
Definition PLDM_PDR_SENSOR_AUX_LANG : list Z := [101; 110].
Definition PLDM_PDR_RECORD_CHANGE_NUM : Z := 0.
Definition PLDM_GET_PDR_MAX_DATA_LEN : Z := 48.
Definition INT32_MAX : Z := 2 ^ 31 - 1.
Definition INT32_MIN : Z := - 2 ^ 31.

(** * Data *)
(** An [aux_name] is the characters before the terminating zero; [None]: a null pointer. *)
Record pldm_pdr_numeric_sensor_desc := {
  channel_type : Z; channel_index : Z; sensor_id : Z; entity_type : Z; entity_instance : Z; container_id : Z;
  base_unit : Z; unit_modifier : Z; aux_name : option (list Z) }.
Record pldm_pdr_record_info := { handle : Z; offset : Z; length_ : Z }.
(** Configuration and data of the provider; the capacities are the lengths of the arrays.
    [is_ready]: the device's initialisation succeeded. *)
Record provider := {
  sensors : list pldm_pdr_numeric_sensor_desc; pdr_records : list pldm_pdr_record_info; pdr_repo : list Z;
  pdr_record_count : Z; pdr_repo_size : Z; pdr_largest_record_size : Z;
  transfer_active : bool; transfer_record_handle : Z; transfer_record_index : Z; transfer_next_data_handle : Z; is_ready : bool }.
Implicit Types (p : provider) (s : pldm_pdr_numeric_sensor_desc).
Definition pdr_record_capacity p : Z := Z.of_nat (length (pdr_records p)).
Definition pdr_repo_capacity p : Z := Z.of_nat (length (pdr_repo p)).
Definition with_repo p (repo : list Z) : provider :=
  {| sensors := sensors p; pdr_records := pdr_records p; pdr_repo := repo; pdr_record_count := pdr_record_count p;
     pdr_repo_size := pdr_repo_size p; pdr_largest_record_size := pdr_largest_record_size p; transfer_active := transfer_active p;
     transfer_record_handle := transfer_record_handle p; transfer_record_index := transfer_record_index p;
     transfer_next_data_handle := transfer_next_data_handle p; is_ready := is_ready p |}.
Definition with_record p (records : list pldm_pdr_record_info) (count size largest : Z) : provider :=
  {| sensors := sensors p; pdr_records := records; pdr_repo := pdr_repo p; pdr_record_count := count;
     pdr_repo_size := size; pdr_largest_record_size := largest; transfer_active := transfer_active p;
     transfer_record_handle := transfer_record_handle p; transfer_record_index := transfer_record_index p;
     transfer_next_data_handle := transfer_next_data_handle p; is_ready := is_ready p |}.
Definition with_transfer p (active : bool) (h i next : Z) : provider :=
  {| sensors := sensors p; pdr_records := pdr_records p; pdr_repo := pdr_repo p; pdr_record_count := pdr_record_count p;
     pdr_repo_size := pdr_repo_size p; pdr_largest_record_size := pdr_largest_record_size p; transfer_active := active;
     transfer_record_handle := h; transfer_record_index := i; transfer_next_data_handle := next; is_ready := is_ready p |}.
Definition with_ready p (b : bool) : provider :=
  {| sensors := sensors p; pdr_records := pdr_records p; pdr_repo := pdr_repo p; pdr_record_count := pdr_record_count p;
     pdr_repo_size := pdr_repo_size p; pdr_largest_record_size := pdr_largest_record_size p; transfer_active := transfer_active p;
     transfer_record_handle := transfer_record_handle p; transfer_record_index := transfer_record_index p;
     transfer_next_data_handle := transfer_next_data_handle p; is_ready := b |}.
Record pldm_pdr_get_chunk_request := {
  record_handle : Z; data_transfer_handle : Z; transfer_op_flag : Z; request_count : Z; max_response_count : Z }.
Record pldm_pdr_get_chunk_response := {
  next_record_handle : Z; next_data_transfer_handle : Z; transfer_flag : Z; record_data : list Z; transfer_crc : Z }.
Record pldm_pdr_repo_info := { record_count : Z; repo_size : Z; largest_record_size : Z }.
Record pldm_pdr_record_metadata := { meta_handle : Z; meta_data : list Z; meta_next : Z }.

(** The fields of the common header and of a terminus locator record. *)
Record pldm_terminus_locator := {
  tl_record_handle : Z; tl_version : Z; tl_type : Z; tl_change : Z; tl_length : Z; tl_terminus_handle : Z; tl_validity : Z;
  tl_tid : Z; tl_container_id : Z; tl_locator_type : Z; tl_value_size : Z; tl_value : Z }.
Definition with_tid (t : pldm_terminus_locator) (tid eid : Z) : pldm_terminus_locator :=
  {| tl_record_handle := tl_record_handle t; tl_version := tl_version t; tl_type := tl_type t; tl_change := tl_change t;
     tl_length := tl_length t; tl_terminus_handle := tl_terminus_handle t; tl_validity := tl_validity t; tl_tid := tid;
     tl_container_id := tl_container_id t; tl_locator_type := tl_locator_type t; tl_value_size := tl_value_size t; tl_value := eid |}.
(** The fields before the names of an auxiliary names record. *)
Record pldm_sensor_aux_names := {
  an_record_handle : Z; an_version : Z; an_type : Z; an_change : Z; an_length : Z; an_terminus_handle : Z; an_sensor_id : Z;
  an_sensor_count : Z }.

(** * libpldm *)
Class LibPldm := {
  PLDM_TERMINUS_LOCATOR_PDR : Z; PLDM_NUMERIC_SENSOR_PDR : Z; PLDM_SENSOR_AUXILIARY_NAMES_PDR : Z;
  PLDM_TL_PDR_VALID : Z; PLDM_TERMINUS_LOCATOR_TYPE_MCTP_EID : Z; PLDM_NO_INIT : Z; PLDM_RATE_UNIT_NONE : Z;
  PLDM_SENSOR_UNIT_NONE : Z; PLDM_SENSOR_DATA_SIZE_SINT32 : Z; PLDM_RANGE_FIELD_FORMAT_SINT32 : Z;
  PLDM_GET_FIRSTPART : Z; PLDM_GET_NEXTPART : Z;
  PLDM_START : Z; PLDM_MIDDLE : Z; PLDM_END : Z; PLDM_START_AND_END : Z;
  PLDM_PDR_NUMERIC_SENSOR_PDR_FIXED_LENGTH : Z;
  sizeof_pdr_hdr : Z; sizeof_tl : Z; sizeof_aux : Z;
  tl_bytes : pldm_terminus_locator -> list Z; (* its bytes in memory, little endian, packed *)
  offsetof_type : Z; offsetof_tid : Z; offsetof_value : Z;
  aux_bytes : pldm_sensor_aux_names -> list Z; (* the bytes before [names] *)
  pldm_edac_crc8 : list Z -> Z }.
Class LibPldmLaws `{LibPldm} := {
  tl_bytes_length t : Z.of_nat (length (tl_bytes t)) = sizeof_tl;
  tl_bytes_type t : zget (tl_bytes t) offsetof_type = Some (tl_type t);
  tl_bytes_tid t tid eid : (l ← zset (tl_bytes t) offsetof_tid tid; zset l offsetof_value eid) = Some (tl_bytes (with_tid t tid eid));
  aux_bytes_length a : Z.of_nat (length (aux_bytes a)) = sizeof_aux - 1;
  fixed_length : PLDM_PDR_NUMERIC_SENSOR_PDR_FIXED_LENGTH = 57;
  sizes_ok : 0 < sizeof_tl < 256 /\ 0 < sizeof_aux < 256 /\ 0 <= sizeof_pdr_hdr <= sizeof_aux - 1;
  parts_differ : PLDM_GET_NEXTPART <> PLDM_GET_FIRSTPART;
  flags_differ : NoDup [PLDM_START; PLDM_MIDDLE; PLDM_END; PLDM_START_AND_END] }.

Section provider.
Context `{LibPldm}.
Definition PLDM_PDR_NUMERIC_SENSOR_RECORD_WIRE_SIZE : Z := PLDM_PDR_NUMERIC_SENSOR_PDR_FIXED_LENGTH + 3 * 4 + 9 * 4.

(** ** The terminus locator *)
Definition pldm_pdr_update_tid_eid p (tid endpoint_id : Z) : option (Z * provider) :=
  if negb (is_ready p) then Some (- ENODEV, p)
  else match zget (pdr_records p) 0 with
       | None => None
       | Some tl_record =>
           if (length_ tl_record <? sizeof_tl) || (pdr_repo_capacity p <? sizeof_tl)
              || (pdr_repo_capacity p - sizeof_tl <? offset tl_record) then Some (- EINVAL, p)
           else match zget (pdr_repo p) (offset tl_record + offsetof_type) with
                | None => None
                | Some type =>
                    if negb (type =? PLDM_TERMINUS_LOCATOR_PDR) then Some (- EINVAL, p)
                    else l ← zset (pdr_repo p) (offset tl_record + offsetof_tid) tid;
                         l ← zset l (offset tl_record + offsetof_value) endpoint_id;
                         Some (0, with_repo p l)
                end
       end.

(** ** Records *)
(** The number of bytes, 0 on failure, and the bytes written to [dst]. *)
Fixpoint utf16_loop (src : list Z) (dst_len : Z) (out : list Z) : Z * list Z :=
  match src with
  | [] => if dst_len <? Z.of_nat (length out) + 2 then (0, out) else (Z.of_nat (length out) + 2, out ++ [0; 0])
  | c :: src =>
      if dst_len <? Z.of_nat (length out) + 2 then (0, out) else utf16_loop src dst_len (out ++ [0; c])
  end.
Definition pldm_pdr_encode_utf16be_terminated (src : list Z) (dst_len : Z) : Z * list Z := utf16_loop src dst_len [].
(** A value to append and its width. *)
Inductive wire := U8 (v : Z) | U16 (v : Z) | U32 (v : Z).
Definition S32 (v : Z) : wire := U32 (u32 v).
(** A [real32_t] is its bits. *)
Definition F32 (bits : Z) : wire := U32 bits.
Definition wire_bytes (x : wire) : list Z :=
  match x with U8 v => le_bytes 1 v | U16 v => le_bytes 2 v | U32 v => le_bytes 4 v end.
(** [pldm_pdr_buf_append_u8], [_u16], [_u32]: the bytes so far and what remains. *)
Definition pldm_pdr_buf_append (x : wire) (st : list Z * Z) : Z + list Z * Z :=
  let '(out, remaining) := st in
  let n := Z.of_nat (length (wire_bytes x)) in
  if remaining <? n then inl (- EOVERFLOW) else inr (out ++ wire_bytes x, remaining - n).
Fixpoint append_all (xs : list wire) (st : list Z * Z) : Z + list Z * Z :=
  match xs with
  | [] => inr st
  | x :: xs => match pldm_pdr_buf_append x st with inl rc => inl rc | inr st => append_all xs st end
  end.
Record pldm_numeric_sensor_value_pdr := {
  n_record_handle : Z; n_version : Z; n_type : Z; n_change : Z; n_length : Z; n_terminus_handle : Z; n_sensor_id : Z;
  n_entity_type : Z; n_entity_instance : Z; n_container_id : Z; n_sensor_init : Z; n_aux_names : Z; n_base_unit : Z;
  n_unit_modifier : Z; n_rate_unit : Z; n_base_oem_unit_handle : Z; n_aux_unit : Z; n_aux_unit_modifier : Z;
  n_aux_rate_unit : Z; n_rel : Z; n_aux_oem_unit_handle : Z; n_is_linear : Z; n_sensor_data_size : Z; n_resolution : Z;
  n_offset : Z; n_accuracy : Z; n_plus_tolerance : Z; n_minus_tolerance : Z; n_hysteresis : Z; n_supported_thresholds : Z;
  n_volatility : Z; n_state_transition_interval : Z; n_update_interval : Z; n_max_readable : Z; n_min_readable : Z;
  n_range_field_format : Z; n_range_field_support : Z; n_nominal_value : Z; n_normal_max : Z; n_normal_min : Z;
  n_warning_high : Z; n_warning_low : Z; n_critical_high : Z; n_critical_low : Z; n_fatal_high : Z; n_fatal_low : Z }.
Definition numeric_fields (q : pldm_numeric_sensor_value_pdr) : list wire :=
  [U32 (n_record_handle q); U8 (n_version q); U8 (n_type q); U16 (n_change q); U16 (n_length q);
   U16 (n_terminus_handle q); U16 (n_sensor_id q); U16 (n_entity_type q); U16 (n_entity_instance q); U16 (n_container_id q);
   U8 (n_sensor_init q); U8 (n_aux_names q); U8 (n_base_unit q); U8 (u8 (n_unit_modifier q)); U8 (n_rate_unit q);
   U8 (n_base_oem_unit_handle q); U8 (n_aux_unit q); U8 (u8 (n_aux_unit_modifier q)); U8 (n_aux_rate_unit q); U8 (n_rel q);
   U8 (n_aux_oem_unit_handle q); U8 (n_is_linear q); U8 (n_sensor_data_size q); F32 (n_resolution q); F32 (n_offset q);
   U16 (n_accuracy q); U8 (n_plus_tolerance q); U8 (n_minus_tolerance q); S32 (n_hysteresis q);
   U8 (n_supported_thresholds q); U8 (n_volatility q); F32 (n_state_transition_interval q); F32 (n_update_interval q);
   S32 (n_max_readable q); S32 (n_min_readable q); U8 (n_range_field_format q); U8 (n_range_field_support q);
   S32 (n_nominal_value q); S32 (n_normal_max q); S32 (n_normal_min q); S32 (n_warning_high q); S32 (n_warning_low q);
   S32 (n_critical_high q); S32 (n_critical_low q); S32 (n_fatal_high q); S32 (n_fatal_low q)].
Definition pldm_pdr_encode_numeric_sensor_record (q : pldm_numeric_sensor_value_pdr) (dst_len : Z) : Z + list Z :=
  match append_all (numeric_fields q) ([], dst_len) with inl rc => inl rc | inr (out, _) => inr out end.
Definition note_record p (h len : Z) : option provider :=
  records ← zset (pdr_records p) (pdr_record_count p) {| handle := h; offset := pdr_repo_size p; length_ := len |};
  Some (with_record p records (u32 (pdr_record_count p + 1)) (u32 (pdr_repo_size p + len)) (Z.max (pdr_largest_record_size p) len)).
Definition pldm_pdr_append_record p (h : Z) (data : list Z) : option (Z * provider) :=
  let record_len := Z.of_nat (length data) in
  if pdr_record_capacity p <=? pdr_record_count p then Some (- ENOMEM, p)
  else if pdr_repo_capacity p <? u32 (pdr_repo_size p + record_len) then Some (- ENOMEM, p)
  else repo ← memcpy_at (pdr_repo p) (pdr_repo_size p) data;
       p ← note_record (with_repo p repo) h record_len;
       Some (0, p).
Definition pldm_pdr_append_sensor_aux_name_record p (h sensor_id : Z) (name : list Z) : option (Z * provider) :=
  let names_prefix := 1 :: PLDM_PDR_SENSOR_AUX_LANG ++ [0] in
  let names_prefix_len := Z.of_nat (length names_prefix) in
  if pdr_record_capacity p <=? pdr_record_count p then Some (- ENOMEM, p)
  else if pdr_repo_capacity p <? pdr_repo_size p then Some (- ENOMEM, p)
  else
    let remaining_repo_len := pdr_repo_capacity p - pdr_repo_size p in
    if remaining_repo_len <? sizeof_aux then Some (- ENOMEM, p)
    else
      let max_names_len := remaining_repo_len - (sizeof_aux - 1) in
      if max_names_len <? names_prefix_len then Some (- ENOMEM, p)
      else
        let at_names := pdr_repo_size p + (sizeof_aux - 1) in
        let '(utf16_len, utf16) := pldm_pdr_encode_utf16be_terminated name (max_names_len - names_prefix_len) in
        repo ← memcpy_at (pdr_repo p) at_names (names_prefix ++ utf16);
        let p := with_repo p repo in
        if utf16_len =? 0 then Some (- ENOMEM, p)
        else
          let names_len := names_prefix_len + utf16_len in
          let record_len := sizeof_aux - 1 + names_len in
          let pdr_payload_len := sizeof_aux - sizeof_pdr_hdr - 1 + names_len in
          if UINT16_MAX <? pdr_payload_len then Some (- EOVERFLOW, p)
          else
            repo ← memcpy_at (pdr_repo p) (pdr_repo_size p)
              (aux_bytes {| an_record_handle := h; an_version := 1; an_type := PLDM_SENSOR_AUXILIARY_NAMES_PDR;
                            an_change := PLDM_PDR_RECORD_CHANGE_NUM; an_length := pdr_payload_len;
                            an_terminus_handle := PLDM_PDR_TERMINUS_HANDLE; an_sensor_id := sensor_id; an_sensor_count := 1 |});
            p ← note_record (with_repo p repo) h record_len;
            Some (0, p).
End provider.

Section messages.
Context `{LibPldm}.
(** ** Start-up *)
Definition terminus_locator : pldm_terminus_locator :=
  {| tl_record_handle := PLDM_PDR_RECORD_HANDLE; tl_version := 1; tl_type := PLDM_TERMINUS_LOCATOR_PDR;
     tl_change := PLDM_PDR_RECORD_CHANGE_NUM; tl_length := sizeof_tl - sizeof_pdr_hdr;
     tl_terminus_handle := PLDM_PDR_TERMINUS_HANDLE; tl_validity := PLDM_TL_PDR_VALID; tl_tid := 0; tl_container_id := 0;
     tl_locator_type := PLDM_TERMINUS_LOCATOR_TYPE_MCTP_EID; tl_value_size := 1; tl_value := 0 |}.
Definition has_aux_name s : bool := match aux_name s with Some (_ :: _) => true | _ => false end.
Definition sensor_pdr (h : Z) s : pldm_numeric_sensor_value_pdr :=
  {| n_record_handle := h; n_version := 1; n_type := PLDM_NUMERIC_SENSOR_PDR; n_change := PLDM_PDR_RECORD_CHANGE_NUM;
     n_length := PLDM_PDR_NUMERIC_SENSOR_RECORD_WIRE_SIZE - sizeof_pdr_hdr; n_terminus_handle := PLDM_PDR_TERMINUS_HANDLE;
     n_sensor_id := sensor_id s; n_entity_type := entity_type s; n_entity_instance := entity_instance s;
     n_container_id := container_id s; n_sensor_init := PLDM_NO_INIT; n_aux_names := Z.b2z (has_aux_name s);
     n_base_unit := base_unit s; n_unit_modifier := unit_modifier s; n_rate_unit := PLDM_RATE_UNIT_NONE;
     n_base_oem_unit_handle := 0; n_aux_unit := PLDM_SENSOR_UNIT_NONE; n_aux_unit_modifier := 0;
     n_aux_rate_unit := PLDM_RATE_UNIT_NONE; n_rel := 0; n_aux_oem_unit_handle := 0; n_is_linear := 1;
     n_sensor_data_size := PLDM_SENSOR_DATA_SIZE_SINT32; n_resolution := 0x3F800000; n_offset := 0; n_accuracy := 0;
     n_plus_tolerance := 0; n_minus_tolerance := 0; n_hysteresis := 0; n_supported_thresholds := 0; n_volatility := 0;
     n_state_transition_interval := 0; n_update_interval := 0; n_max_readable := INT32_MAX; n_min_readable := INT32_MIN;
     n_range_field_format := PLDM_RANGE_FIELD_FORMAT_SINT32; n_range_field_support := 0; n_nominal_value := 0;
     n_normal_max := 0; n_normal_min := 0; n_warning_high := 0; n_warning_low := 0; n_critical_high := 0;
     n_critical_low := 0; n_fatal_high := 0; n_fatal_low := 0 |}.
Definition name_of s : list Z := match aux_name s with Some n => n | None => [] end.
(** One sensor: its record and, with a name, that of the name. Result: the next handle in use too. *)
Definition add_sensor (h : Z) s p : option (Z * Z * provider) :=
  let h := u32 (h + 1) in
  match pldm_pdr_encode_numeric_sensor_record (sensor_pdr h s) PLDM_PDR_NUMERIC_SENSOR_RECORD_WIRE_SIZE with
  | inl rc => Some (rc, h, p)
  | inr pdr_record =>
      if negb (Z.of_nat (length pdr_record) =? PLDM_PDR_NUMERIC_SENSOR_RECORD_WIRE_SIZE) then Some (- EOVERFLOW, h, p)
      else
        '(rc, p) ← pldm_pdr_append_record p h pdr_record;
        if negb (rc =? 0) then Some (rc, h, p)
        else if has_aux_name s then
          '(rc, p) ← pldm_pdr_append_sensor_aux_name_record p (u32 (h + 1)) (sensor_id s) (name_of s);
          Some (rc, u32 (h + 1), p)
        else Some (0, h, p)
  end.
Fixpoint add_sensors (h : Z) (l : list pldm_pdr_numeric_sensor_desc) p : option (Z * provider) :=
  match l with
  | [] => Some (0, p)
  | s :: l =>
      '(rc, h, p) ← add_sensor h s p;
      if negb (rc =? 0) then Some (rc, p) else add_sensors h l p
  end.
(** The device is ready if this returns 0. *)
Definition pldm_pdr_provider_init p : option (Z * provider) :=
  '(rc, p) ← pldm_pdr_append_record p PLDM_PDR_RECORD_HANDLE (tl_bytes terminus_locator);
  if negb (rc =? 0) then Some (rc, p)
  else
    '(rc, p) ← add_sensors PLDM_PDR_RECORD_HANDLE (sensors p) p;
    Some (rc, with_ready p (rc =? 0)).
(** The arrays the devicetree macros declare. A sensor's [sensor_name] counts though it is empty. *)
Definition PLDM_PDR_RECORD_COUNT (l : list pldm_pdr_numeric_sensor_desc) : nat :=
  1 + length l + length (filter (λ s, is_Some (aux_name s)) l).
Definition PLDM_PDR_AUX_NAME_RECORD_SIZE (name : list Z) : Z :=
  sizeof_aux - 1 + (1 + (Z.of_nat (length PLDM_PDR_SENSOR_AUX_LANG) + 1) + 2 * (Z.of_nat (length name) + 1)).
Definition sensor_bytes s : Z :=
  PLDM_PDR_NUMERIC_SENSOR_RECORD_WIRE_SIZE + match aux_name s with Some n => PLDM_PDR_AUX_NAME_RECORD_SIZE n | None => 0 end.
Definition PLDM_PDR_REPO_SIZE (l : list pldm_pdr_numeric_sensor_desc) : Z :=
  sizeof_tl + foldr Z.add 0 (map sensor_bytes l).
Definition PLDM_PDR_PROVIDER_DEFINE (l : list pldm_pdr_numeric_sensor_desc) : provider :=
  {| sensors := l; pdr_records := replicate (PLDM_PDR_RECORD_COUNT l) {| handle := 0; offset := 0; length_ := 0 |};
     pdr_repo := replicate (Z.to_nat (PLDM_PDR_REPO_SIZE l)) 0; pdr_record_count := 0; pdr_repo_size := 0;
     pdr_largest_record_size := 0; transfer_active := false; transfer_record_handle := 0; transfer_record_index := 0;
     transfer_next_data_handle := 0; is_ready := false |}.

(** ** Reading *)
Definition pldm_pdr_get_repository_info p : Z + pldm_pdr_repo_info :=
  if negb (is_ready p) then inl (- ENODEV)
  else inr {| record_count := pdr_record_count p; repo_size := pdr_repo_size p; largest_record_size := pdr_largest_record_size p |}.
Fixpoint find_from (l : list pldm_pdr_record_info) (h i : Z) : option Z :=
  match l with
  | [] => None
  | r :: l => if handle r =? h then Some i else find_from l h (i + 1)
  end.
Definition pldm_pdr_find_record_index p (h : Z) : Z + Z :=
  if negb (is_ready p) then inl (- ENODEV)
  else match find_from (take (Z.to_nat (pdr_record_count p)) (pdr_records p)) h 0 with
       | Some i => inr i
       | None => inl (- ENOENT)
       end.
Definition slice (l : list Z) (off len : Z) : list Z := take (Z.to_nat len) (drop (Z.to_nat off) l).
Definition pldm_pdr_get_record_at_index p (i : Z) : option (Z + pldm_pdr_record_metadata) :=
  if negb (is_ready p) then Some (inl (- ENODEV))
  else if pdr_record_count p <=? i then Some (inl (- ERANGE))
  else
    r ← zget (pdr_records p) i;
    if (pdr_repo_capacity p <? offset r) || (pdr_repo_capacity p - offset r <? length_ r) then Some (inl (- EINVAL))
    else
      next ← (if u32 (i + 1) <? pdr_record_count p then handle <$> zget (pdr_records p) (u32 (i + 1)) else Some 0);
      Some (inr {| meta_handle := handle r; meta_data := slice (pdr_repo p) (offset r) (length_ r); meta_next := next |}).
Fixpoint pldm_pdr_find_numeric_sensor_by_id (l : list pldm_pdr_numeric_sensor_desc) (id : Z) : option pldm_pdr_numeric_sensor_desc :=
  match l with
  | [] => None
  | s :: l => if sensor_id s =? id then Some s else pldm_pdr_find_numeric_sensor_by_id l id
  end.
Definition pldm_pdr_build_chunk p (i off : Z) (q : pldm_pdr_get_chunk_request)
  : option ((Z + pldm_pdr_get_chunk_response) * provider) :=
  m ← pldm_pdr_get_record_at_index p i;
  match m with
  | inl rc => Some (inl rc, p)
  | inr m =>
      let record_len := Z.of_nat (length (meta_data m)) in
      if record_len <=? off then Some (inl (- ERANGE), p)
      else
        let response_count := Z.min (Z.min (request_count q) (record_len - off)) (max_response_count q) in
        let is_first := off =? 0 in
        let is_last := record_len <=? off + response_count in
        let next := if is_last then 0 else u32 (off + response_count) in
        Some (inr {| next_record_handle := meta_next m; next_data_transfer_handle := next;
                     transfer_flag := if is_first && is_last then PLDM_START_AND_END else if is_first then PLDM_START
                                      else if is_last then PLDM_END else PLDM_MIDDLE;
                     record_data := slice (meta_data m) off response_count;
                     transfer_crc := if is_last then pldm_edac_crc8 (meta_data m) else 0 |},
              with_transfer p (negb is_last) (if is_last then 0 else meta_handle m) (if is_last then 0 else i) next)
  end.
Definition pldm_pdr_get_chunk p (q : pldm_pdr_get_chunk_request) : option ((Z + pldm_pdr_get_chunk_response) * provider) :=
  if (request_count q =? 0) || (max_response_count q =? 0) then Some (inl (- EINVAL), p)
  else if negb (is_ready p) then Some (inl (- ENODEV), p)
  else if transfer_op_flag q =? PLDM_GET_FIRSTPART then
    if record_handle q =? 0 then pldm_pdr_build_chunk p 0 0 q
    else match pldm_pdr_find_record_index p (record_handle q) with
         | inl rc => Some (inl rc, p)
         | inr i => pldm_pdr_build_chunk p i 0 q
         end
  else if transfer_op_flag q =? PLDM_GET_NEXTPART then
    if negb (transfer_active p) || negb (record_handle q =? transfer_record_handle p)
       || negb (data_transfer_handle q =? transfer_next_data_handle p) then Some (inl (- EBADMSG), p)
    else pldm_pdr_build_chunk p (transfer_record_index p) (data_transfer_handle q) q
  else Some (inl (- EOPNOTSUPP), p).
End messages.

(** * What the repository holds *)
Fixpoint infos (off : Z) (recs : list (Z * list Z)) : list pldm_pdr_record_info :=
  match recs with
  | [] => []
  | (h, bs) :: recs =>
      {| handle := h; offset := off; length_ := Z.of_nat (length bs) |} :: infos (off + Z.of_nat (length bs)) recs
  end.
Definition content (recs : list (Z * list Z)) : list Z := concat (map snd recs).
Definition total (recs : list (Z * list Z)) : Z := Z.of_nat (length (content recs)).
Definition largest (recs : list (Z * list Z)) : Z := foldl Z.max 0 (map (λ r, Z.of_nat (length (snd r))) recs).
(** Records one after the other, described by the table. *)
Record holds (recs : list (Z * list Z)) p : Prop := {
  h_count : pdr_record_count p = Z.of_nat (length recs);
  h_infos : take (length recs) (pdr_records p) = infos 0 recs;
  h_bytes : take (length (content recs)) (pdr_repo p) = content recs;
  h_size : pdr_repo_size p = total recs;
  h_largest : pdr_largest_record_size p = largest recs;
  h_small : pdr_record_capacity p < 2 ^ 31 /\ pdr_repo_capacity p < 2 ^ 31 }.
(** What appending does not touch. *)
Definition frame p p' : Prop :=
  sensors p' = sensors p /\ length (pdr_records p') = length (pdr_records p) /\ length (pdr_repo p') = length (pdr_repo p) /\
  transfer_active p' = transfer_active p /\ is_ready p' = is_ready p.
Lemma frame_trans p1 p2 p3 : frame p1 p2 -> frame p2 p3 -> frame p1 p3.
Proof. unfold frame. intros (? & ? & ? & ? & ?) (? & ? & ? & ? & ?). split_and!; congruence. Qed.
Lemma infos_app off l l' : infos off (l ++ l') = infos off l ++ infos (off + total l) l'.
Proof.
  revert off. induction l as [|[h bs] l IH]; intros off; cbn [infos app].
  - unfold total. cbn. by rewrite Z.add_0_r.
  - rewrite IH. do 3 f_equal. unfold total, content. cbn [map concat snd]. rewrite length_app. lia.
Qed.
Lemma infos_length off l : length (infos off l) = length l.
Proof. revert off. induction l as [|[h bs] l IH]; intros off; cbn; [done | by rewrite IH]. Qed.
Lemma content_app l l' : content (l ++ l') = content l ++ content l'.
Proof. unfold content. by rewrite map_app, concat_app. Qed.
Lemma total_app l l' : total (l ++ l') = total l + total l'.
Proof. unfold total. rewrite content_app, length_app. lia. Qed.
Lemma total_one h bs : total [(h, bs)] = Z.of_nat (length bs).
Proof. unfold total, content. cbn. by rewrite app_nil_r. Qed.
Lemma total_cons h bs l : total ((h, bs) :: l) = Z.of_nat (length bs) + total l.
Proof. change ((h, bs) :: l) with ([(h, bs)] ++ l). by rewrite total_app, total_one. Qed.
Lemma app_cons_comm {A} (l : list A) x l' : l ++ x :: l' = (l ++ [x]) ++ l'.
Proof. by rewrite <- app_assoc. Qed.
Lemma largest_app l h bs : largest (l ++ [(h, bs)]) = Z.max (largest l) (Z.of_nat (length bs)).
Proof. unfold largest. by rewrite map_app, foldl_app. Qed.
Lemma total_nonneg l : 0 <= total l.
Proof. unfold total. lia. Qed.
Lemma holds_capacity recs p : holds recs p -> Z.of_nat (length recs) <= pdr_record_capacity p /\ total recs <= pdr_repo_capacity p.
Proof.
  intros [_ Hi Hb _ _ _]. apply (f_equal length) in Hi, Hb. rewrite length_take, infos_length in Hi. rewrite length_take in Hb.
  unfold pdr_record_capacity, pdr_repo_capacity, total. lia.
Qed.
Section building.
Context `{LibPldmLaws}.
Lemma take_memcpy (dst src dst' : list Z) k : memcpy_at dst (Z.of_nat k) src = Some dst' ->
  take (k + length src) dst' = take k dst ++ src /\ length dst' = length dst.
Proof.
  intros E. split; [|by eapply memcpy_at_length]. unfold memcpy_at in E. case_match eqn:Hc; [|done]. injection E as <-. zb.
  rewrite Nat2Z.id, take_app, take_app, !length_take, !Nat.min_l by lia.
  replace (k + length src - k)%nat with (length src) by lia. rewrite (take_ge (take k dst)), (take_ge src) by (rewrite ?length_take; lia).
  replace (length src - length src)%nat with 0%nat by lia. rewrite take_0. by rewrite app_nil_r.
Qed.
(** Adding a record whose bytes have been put behind the others. *)
Lemma note_record_holds recs p h bs : holds recs p ->
  Z.of_nat (length recs) < pdr_record_capacity p -> total recs + Z.of_nat (length bs) <= pdr_repo_capacity p ->
  forall repo, take (length (content recs) + length bs) repo = content recs ++ bs -> length repo = length (pdr_repo p) ->
  exists p', note_record (with_repo p repo) h (Z.of_nat (length bs)) = Some p' /\ holds (recs ++ [(h, bs)]) p' /\ frame p p'.
Proof.
  intros [Hc Hi Hb Hs Hl Hm] Hcap Htot repo Hrepo Hlen. cbn [with_repo pdr_record_count pdr_records pdr_repo pdr_repo_size pdr_largest_record_size] in *.
  unfold pdr_record_capacity, pdr_repo_capacity in *. cbn [with_repo pdr_records pdr_repo] in *. unfold note_record, zset.
  cbn [with_repo pdr_records pdr_record_count pdr_repo_size pdr_largest_record_size].
  rewrite Hc, (proj2 (Z.leb_le _ _)), (proj2 (Z.ltb_lt _ _)) by lia. cbn [andb mbind option_bind].
  eexists. split; [reflexivity|]. split.
  - split; cbn [with_record with_repo pdr_record_count pdr_records pdr_repo pdr_repo_size pdr_largest_record_size].
    + rewrite length_app. cbn [length]. rewrite wrap_id; [lia|]. unfold in_width. lia.
    + rewrite length_app, Nat2Z.id, infos_app. cbn [length infos]. rewrite Nat.add_1_r.
      rewrite (take_S_r _ _ {| handle := h; offset := pdr_repo_size p; length_ := Z.of_nat (length bs) |})
        by (apply list_lookup_insert_eq; lia).
      rewrite take_insert_ge by lia. by rewrite Hi, Z.add_0_l, Hs.
    + rewrite content_app, length_app. unfold content at 2 4. cbn. by rewrite app_nil_r.
    + rewrite Hs, total_app, total_one. apply wrap_id. unfold in_width. pose proof (total_nonneg recs). lia.
    + by rewrite Hl, largest_app.
    + unfold pdr_record_capacity, pdr_repo_capacity. cbn [with_record with_repo pdr_records pdr_repo].
      rewrite length_insert, Hlen. done.
  - unfold frame. cbn [with_record with_repo sensors pdr_records pdr_repo transfer_active is_ready]. by rewrite length_insert.
Qed.
Lemma append_record_holds recs p h bs : holds recs p -> Z.of_nat (length recs) < pdr_record_capacity p ->
  total recs + Z.of_nat (length bs) <= pdr_repo_capacity p ->
  exists p', pldm_pdr_append_record p h bs = Some (0, p') /\ holds (recs ++ [(h, bs)]) p' /\ frame p p'.
Proof.
  intros Hh Hcap Htot. pose proof Hh as [Hc Hi Hb Hs Hl Hm]. unfold pldm_pdr_append_record.
  rewrite Hc, Hs, (proj2 (Z.leb_gt _ _)) by lia. pose proof (total_nonneg recs). rewrite wrap_id by (unfold in_width; lia).
  rewrite (proj2 (Z.ltb_ge _ _)) by lia. unfold pdr_record_capacity, pdr_repo_capacity in *.
  destruct (memcpy_at (pdr_repo p) (total recs) bs) as [repo|] eqn:E.
  2:{ unfold memcpy_at in E. rewrite (proj2 (Z.leb_le _ _)), (proj2 (Z.leb_le _ _)) in E by lia. done. }
  unfold total in E. apply take_memcpy in E as [E1 E2]. rewrite Hb in E1. cbn [mbind option_bind].
  destruct (note_record_holds recs p h bs Hh) with (repo := repo) as (p' & -> & Hp & Hf); [done..|].
  exists p'. by split_and!.
Qed.
(** The bytes of the records. *)
Definition wires (xs : list wire) : list Z := concat (map wire_bytes xs).
Lemma append_all_bytes xs out rem : Z.of_nat (length (wires xs)) <= rem ->
  append_all xs (out, rem) = inr (out ++ wires xs, rem - Z.of_nat (length (wires xs))).
Proof.
  revert out rem. induction xs as [|x xs IH]; intros out rem Hl; cbn [append_all].
  - unfold wires. cbn. by rewrite app_nil_r, Z.sub_0_r.
  - unfold wires in *. cbn [map concat] in *. rewrite length_app in *. unfold pldm_pdr_buf_append.
    rewrite (proj2 (Z.ltb_ge _ _)) by lia. rewrite IH by lia. rewrite app_assoc. f_equal. f_equal. lia.
Qed.
Lemma numeric_length q : length (wires (numeric_fields q)) = 105%nat.
Proof. reflexivity. Qed.
Definition utf16 (name : list Z) : list Z := concat (map (λ c, [0; c]) name) ++ [0; 0].
Lemma utf16_length name : length (utf16 name) = (2 * length name + 2)%nat.
Proof.
  unfold utf16. rewrite length_app. cbn [length]. f_equal. induction name as [|c name IH]; [done|]. cbn. rewrite IH. lia.
Qed.
Lemma utf16_loop_ok name len out : Z.of_nat (length out + length (utf16 name)) <= len ->
  utf16_loop name len out = (Z.of_nat (length out + length (utf16 name)), out ++ utf16 name).
Proof.
  revert out. induction name as [|c name IH]; intros out Hl; cbn [utf16_loop].
  - unfold utf16 in *. cbn [map concat app length] in *. rewrite (proj2 (Z.ltb_ge _ _)) by lia. f_equal. lia.
  - rewrite utf16_length in Hl |- *. cbn [length] in *. rewrite (proj2 (Z.ltb_ge _ _)) by lia.
    rewrite IH by (rewrite utf16_length, length_app; cbn [length]; lia). rewrite utf16_length, length_app. cbn [length].
    f_equal; [lia|]. rewrite <- app_assoc. done.
Qed.
Definition names_of (name : list Z) : list Z := (1 :: PLDM_PDR_SENSOR_AUX_LANG ++ [0]) ++ utf16 name.
Definition aux_record (h id : Z) (name : list Z) : list Z :=
  aux_bytes {| an_record_handle := h; an_version := 1; an_type := PLDM_SENSOR_AUXILIARY_NAMES_PDR;
               an_change := PLDM_PDR_RECORD_CHANGE_NUM;
               an_length := sizeof_aux - sizeof_pdr_hdr - 1 + Z.of_nat (length (names_of name));
               an_terminus_handle := PLDM_PDR_TERMINUS_HANDLE; an_sensor_id := id; an_sensor_count := 1 |} ++ names_of name.
Definition numeric_record (h : Z) s : list Z := wires (numeric_fields (sensor_pdr h s)).
Lemma numeric_encoded h s :
  pldm_pdr_encode_numeric_sensor_record (sensor_pdr h s) PLDM_PDR_NUMERIC_SENSOR_RECORD_WIRE_SIZE = inr (numeric_record h s) /\
  Z.of_nat (length (numeric_record h s)) = PLDM_PDR_NUMERIC_SENSOR_RECORD_WIRE_SIZE.
Proof.
  unfold numeric_record, pldm_pdr_encode_numeric_sensor_record, PLDM_PDR_NUMERIC_SENSOR_RECORD_WIRE_SIZE. rewrite fixed_length, numeric_length.
  split; [|done]. rewrite append_all_bytes; [done|]. rewrite numeric_length. lia.
Qed.
Lemma two_memcpy (dst a x d1 d2 : list Z) k : memcpy_at dst (Z.of_nat (k + length a)) x = Some d1 ->
  memcpy_at d1 (Z.of_nat k) a = Some d2 ->
  take (k + length (a ++ x)) d2 = take k dst ++ a ++ x /\ length d2 = length dst.
Proof.
  intros E1 E2. apply take_memcpy in E1 as H1. destruct H1 as [T1 L1]. split; [|by apply take_memcpy in E2 as [_ ->]].
  unfold memcpy_at in E2. case_match eqn:Hc; [|done]. injection E2 as <-. zb. rewrite Nat2Z.id.
  assert (Hk : take k d1 = take k dst /\ take (length x) (drop (k + length a) d1) = x).
  { unfold memcpy_at in E1. case_match eqn:Hc1; [|done]. injection E1 as E1. zb. rewrite Nat2Z.id in *. subst d1. split.
    - rewrite take_app_le by (rewrite length_take; lia). rewrite take_take. f_equal. lia.
    - rewrite drop_app_length' by (rewrite length_take; lia). by rewrite take_app_length. }
  destruct Hk as [Hk Hx]. rewrite Hk, !app_assoc, length_app.
  assert (Hh : length (take k dst ++ a) = (k + length a)%nat) by (rewrite length_app, length_take; lia).
  rewrite take_app, Hh, take_ge by lia. f_equal. by replace (k + (length a + length x) - (k + length a))%nat with (length x) by lia.
Qed.
Lemma memcpy_fits (dst src : list Z) off : 0 <= off -> off + Z.of_nat (length src) <= Z.of_nat (length dst) ->
  exists d, memcpy_at dst off src = Some d.
Proof. intros H1 H2. unfold memcpy_at. rewrite (proj2 (Z.leb_le _ _)), (proj2 (Z.leb_le _ _)) by lia. eauto. Qed.
Lemma aux_record_length h id name : Z.of_nat (length (aux_record h id name)) = sizeof_aux - 1 + Z.of_nat (length (names_of name)).
Proof. unfold aux_record. rewrite length_app, Nat2Z.inj_add, aux_bytes_length. done. Qed.
Lemma names_length name : Z.of_nat (length (names_of name)) = 6 + 2 * Z.of_nat (length name).
Proof. unfold names_of. rewrite length_app, utf16_length. cbn [length PLDM_PDR_SENSOR_AUX_LANG app]. lia. Qed.
Lemma append_aux_holds recs p h id name : holds recs p -> Z.of_nat (length recs) < pdr_record_capacity p ->
  total recs + Z.of_nat (length (aux_record h id name)) <= pdr_repo_capacity p -> Z.of_nat (length name) < 30000 ->
  exists p', pldm_pdr_append_sensor_aux_name_record p h id name = Some (0, p') /\
    holds (recs ++ [(h, aux_record h id name)]) p' /\ frame p p'.
Proof.
  intros Hh Hcap Htot Hn. pose proof Hh as [Hc Hi Hb Hs Hl Hm]. pose proof sizes_ok as (Z1 & Z2 & Z3).
  rewrite aux_record_length in Htot. rewrite names_length in Htot. pose proof (total_nonneg recs).
  unfold pldm_pdr_append_sensor_aux_name_record. change (Z.of_nat (length (1 :: PLDM_PDR_SENSOR_AUX_LANG ++ [0]))) with 4.
  rewrite Hc, Hs. rewrite (proj2 (Z.leb_gt _ _)), (proj2 (Z.ltb_ge _ _)), (proj2 (Z.ltb_ge _ _)), (proj2 (Z.ltb_ge _ _)) by lia.
  unfold pldm_pdr_encode_utf16be_terminated. rewrite utf16_loop_ok by (cbn [length]; rewrite utf16_length; lia).
  cbn [length]. rewrite app_nil_l, Nat.add_0_l. fold (names_of name).
  set (a := aux_bytes _). assert (La : Z.of_nat (length a) = sizeof_aux - 1) by apply aux_bytes_length.
  unfold pdr_record_capacity, pdr_repo_capacity in *.
  destruct (memcpy_fits (pdr_repo p) (names_of name) (total recs + (sizeof_aux - 1))) as [d1 E1]; [lia | rewrite names_length; lia|].
  rewrite E1. cbn [mbind option_bind]. rewrite (proj2 (Z.eqb_neq _ _)) by (rewrite utf16_length; lia).
  rewrite (proj2 (Z.ltb_ge _ _)) by (unfold UINT16_MAX; rewrite utf16_length; lia). cbn [with_repo pdr_repo].
  assert (L1 : length d1 = length (pdr_repo p)) by (by eapply memcpy_at_length).
  change (pdr_repo_size (with_repo p d1)) with (pdr_repo_size p). rewrite Hs.
  destruct (memcpy_fits d1 a (total recs)) as [d2 E2]; [lia | rewrite L1; lia|]. rewrite E2. cbn [mbind option_bind].
  assert (Ln : Z.of_nat (length (names_of name)) = 4 + Z.of_nat (length (utf16 name))) by (rewrite names_length, utf16_length; lia).
  assert (Ea : a ++ names_of name = aux_record h id name) by (unfold aux_record; by rewrite Ln).
  unfold total in E1, E2. rewrite <- La, <- Nat2Z.inj_add in E1.
  destruct (two_memcpy _ _ _ _ _ _ E1 E2) as [T2 L2]. rewrite Hb, Ea in T2.
  rewrite <- Ln, <- (aux_record_length h id name).
  destruct (note_record_holds recs p h (aux_record h id name) Hh Hcap) with (repo := d2) as (p' & E & Hp & Hf); [|done|done|].
  - rewrite aux_record_length, names_length. exact Htot.
  - exists p'. split; [|done]. change (with_repo (with_repo p d1) d2) with (with_repo p d2). by rewrite E.
Qed.
(** ** Start-up *)
(** The records of the sensors, the first with the handle after [h]. *)
Fixpoint sensor_records (h : Z) (l : list pldm_pdr_numeric_sensor_desc) : list (Z * list Z) :=
  match l with
  | [] => []
  | s :: l =>
      (h + 1, numeric_record (h + 1) s) ::
      if has_aux_name s then (h + 2, aux_record (h + 2) (sensor_id s) (name_of s)) :: sensor_records (h + 2) l
      else sensor_records (h + 1) l
  end.
Definition all_records (l : list pldm_pdr_numeric_sensor_desc) : list (Z * list Z) :=
  (PLDM_PDR_RECORD_HANDLE, tl_bytes terminus_locator) :: sensor_records PLDM_PDR_RECORD_HANDLE l.
Definition short_names (l : list pldm_pdr_numeric_sensor_desc) : Prop := Forall (λ s, Z.of_nat (length (name_of s)) < 30000) l.
Lemma add_sensor_holds s recs h p : holds recs p -> Z.of_nat (length (name_of s)) < 30000 -> 0 <= h -> h + 2 < 2 ^ 32 ->
  Z.of_nat (length recs + length (sensor_records h [s])) <= pdr_record_capacity p ->
  total recs + total (sensor_records h [s]) <= pdr_repo_capacity p ->
  exists p', add_sensor h s p = Some (0, (if has_aux_name s then h + 2 else h + 1), p') /\ holds (recs ++ sensor_records h [s]) p' /\ frame p p'.
Proof.
  intros Hh Hs Hh0 Hm Hc Ht. unfold add_sensor. rewrite (wrap_id 32 (h + 1)) by (unfold in_width; lia).
  destruct (numeric_encoded (h + 1) s) as [E1 L1]. rewrite E1, L1, Z.eqb_refl. cbn [negb].
  cbn [sensor_records] in *. rewrite total_cons in Ht. rewrite (app_cons_comm recs).
  pose proof (total_nonneg (if has_aux_name s then [(h + 2, aux_record (h + 2) (sensor_id s) (name_of s))] else [])).
  destruct (append_record_holds recs p (h + 1) (numeric_record (h + 1) s) Hh) as (p1 & E2 & Hh1 & F1);
    [cbn [length] in Hc; lia | destruct (has_aux_name s); lia|].
  rewrite E2. cbn [mbind option_bind]. cbn [negb Z.eqb]. pose proof F1 as (_ & R1 & R2 & _).
  destruct (has_aux_name s); [|by exists p1; rewrite app_nil_r].
  rewrite (wrap_id 32 (h + 1 + 1)) by (unfold in_width; lia). replace (h + 1 + 1) with (h + 2) by lia.
  rewrite total_cons in Ht. unfold pdr_record_capacity, pdr_repo_capacity in *.
  destruct (append_aux_holds _ p1 (h + 2) (sensor_id s) (name_of s) Hh1) as (p2 & E3 & Hh2 & F2); try done.
  - unfold pdr_record_capacity. rewrite R1, length_app. cbn [length] in *. lia.
  - unfold pdr_repo_capacity. rewrite R2, total_app, total_one. pose proof (total_nonneg []). lia.
  - rewrite E3. cbn [mbind option_bind]. exists p2. split; [done|]. split; [done | by eapply frame_trans].
Qed.
Lemma sensor_records_cons h s l : sensor_records h (s :: l) =
  sensor_records h [s] ++ sensor_records (if has_aux_name s then h + 2 else h + 1) l.
Proof. cbn [sensor_records]. by destruct (has_aux_name s). Qed.
Lemma add_sensors_holds l : forall recs h p, holds recs p -> short_names l -> 0 <= h -> h + 2 * Z.of_nat (length l) < 2 ^ 32 ->
  Z.of_nat (length recs + length (sensor_records h l)) <= pdr_record_capacity p ->
  total recs + total (sensor_records h l) <= pdr_repo_capacity p ->
  exists p', add_sensors h l p = Some (0, p') /\ holds (recs ++ sensor_records h l) p' /\ frame p p'.
Proof.
  induction l as [|s l IH]; intros recs h p Hh Hn Hh0 Hm Hc Ht; cbn [add_sensors].
  { exists p. cbn [sensor_records]. rewrite app_nil_r. done. }
  rewrite sensor_records_cons in *. rewrite length_app in Hc. rewrite total_app in Ht.
  apply list.Forall_cons in Hn as [Hs Hn]. cbn [length] in Hm.
  set (h' := if has_aux_name s then h + 2 else h + 1) in *. assert (Hh' : h + 1 <= h' <= h + 2) by (unfold h'; case_match; lia).
  pose proof (total_nonneg (sensor_records h' l)).
  destruct (add_sensor_holds s recs h p Hh Hs Hh0) as (p1 & E1 & Hh1 & F1); [lia | lia | lia|].
  rewrite E1. cbn [mbind option_bind]. cbn [negb Z.eqb]. pose proof F1 as (_ & R1 & R2 & _).
  destruct (IH _ h' p1 Hh1 Hn) as (p2 & E2 & Hh2 & F2); [lia | lia | | |].
  - unfold pdr_record_capacity in *. rewrite R1, length_app. lia.
  - unfold pdr_repo_capacity in *. rewrite R2, total_app. lia.
  - exists p2. rewrite app_assoc. split; [exact E2|]. split; [done | by eapply frame_trans].
Qed.
End building.

(** * Reading *)
Section reading.
Context `{LibPldmLaws}.
Lemma infos_lookup recs off i h bs : recs !! i = Some (h, bs) ->
  infos off recs !! i = Some {| handle := h; offset := off + total (take i recs); length_ := Z.of_nat (length bs) |}.
Proof.
  revert off i. induction recs as [|[h0 b0] recs IH]; intros off i Hi; [done|]. destruct i as [|i]; cbn [infos].
  - injection Hi as -> ->. cbn. unfold total. cbn. by rewrite Z.add_0_r.
  - cbn [lookup list_lookup]. change (recs !! i = Some (h, bs)) in Hi. rewrite (IH _ _ Hi). cbn [take]. rewrite total_cons.
    do 2 f_equal. lia.
Qed.
Lemma content_slice recs i h bs : recs !! i = Some (h, bs) ->
  exists rest, content recs = content (take i recs) ++ bs ++ rest.
Proof.
  intros Hi. pose proof (f_equal content (take_drop_middle recs i (h, bs) Hi)) as E. rewrite content_app in E.
  rewrite <- E. by eexists.
Qed.
Lemma repo_record recs p i h bs : holds recs p -> recs !! i = Some (h, bs) ->
  exists off, pdr_records p !! i = Some {| handle := h; offset := off; length_ := Z.of_nat (length bs) |} /\
    0 <= off /\ off + Z.of_nat (length bs) <= pdr_repo_capacity p /\ slice (pdr_repo p) off (Z.of_nat (length bs)) = bs.
Proof.
  intros Hh Hi. pose proof (holds_capacity _ _ Hh) as [_ Hcap]. destruct Hh as [_ HI HB _ _ _].
  destruct (content_slice _ _ _ _ Hi) as [rest Hc]. exists (total (take i recs)). unfold total in *. split_and!.
  - apply (infos_lookup recs 0) in Hi. rewrite <- HI in Hi. apply lookup_take_Some in Hi as [Hi _]. exact Hi.
  - lia.
  - rewrite Hc, !length_app in Hcap. lia.
  - unfold slice. rewrite !Nat2Z.id. rewrite <- (take_drop (length (content recs)) (pdr_repo p)), HB, Hc.
    rewrite <- !app_assoc, drop_app_length. by rewrite take_app_length.
Qed.
Definition next_of (recs : list (Z * list Z)) (i : nat) : Z := match recs !! S i with Some (h, _) => h | None => 0 end.
Lemma get_record_spec recs p i h bs : holds recs p -> is_ready p = true -> recs !! i = Some (h, bs) ->
  pldm_pdr_get_record_at_index p (Z.of_nat i) = Some (inr {| meta_handle := h; meta_data := bs; meta_next := next_of recs i |}).
Proof.
  intros Hh Hr Hi. destruct (repo_record _ _ _ _ _ Hh Hi) as (off & Hl & Ho & Hc & Hs). apply lookup_lt_Some in Hi as Hlt.
  pose proof (holds_capacity _ _ Hh) as [Hcap _]. pose proof (h_small _ _ Hh) as [Hsm _].
  unfold pldm_pdr_get_record_at_index. rewrite Hr, (h_count _ _ Hh), (proj2 (Z.leb_gt _ _)) by lia. cbn [negb].
  rewrite zget_nat, Hl. cbn [mbind option_bind offset length_ handle].
  rewrite (proj2 (Z.ltb_ge _ _)), (proj2 (Z.ltb_ge _ _)) by lia. cbn [orb]. rewrite Hs.
  rewrite wrap_id by (unfold in_width; lia). unfold next_of. replace (Z.of_nat i + 1) with (Z.of_nat (S i)) by lia.
  destruct (recs !! S i) as [[h' bs']|] eqn:E.
  - apply lookup_lt_Some in E as Hlt2. rewrite (proj2 (Z.ltb_lt _ _)) by lia. rewrite zget_nat.
    destruct (repo_record _ _ _ _ _ Hh E) as (off' & -> & _). done.
  - apply lookup_ge_None in E. rewrite (proj2 (Z.ltb_ge _ _)) by lia. done.
Qed.
(** A part: from [off], [k] bytes. *)
Definition part_size (q : pldm_pdr_get_chunk_request) (bs : list Z) (off : nat) : Z :=
  Z.min (Z.min (request_count q) (Z.of_nat (length bs) - Z.of_nat off)) (max_response_count q).
Definition last_part (q : pldm_pdr_get_chunk_request) (bs : list Z) (off : nat) : bool :=
  Z.of_nat (length bs) <=? Z.of_nat off + part_size q bs off.
Definition part (recs : list (Z * list Z)) (i : nat) (q : pldm_pdr_get_chunk_request) (bs : list Z) (off : nat) : pldm_pdr_get_chunk_response :=
  let l := last_part q bs off in
  {| next_record_handle := next_of recs i;
     next_data_transfer_handle := if l then 0 else Z.of_nat off + part_size q bs off;
     transfer_flag := if (off =? 0)%nat && l then PLDM_START_AND_END else if (off =? 0)%nat then PLDM_START
                      else if l then PLDM_END else PLDM_MIDDLE;
     record_data := take (Z.to_nat (part_size q bs off)) (drop off bs); transfer_crc := if l then pldm_edac_crc8 bs else 0 |}.
Lemma build_chunk_spec recs p i h bs off q : holds recs p -> is_ready p = true -> recs !! i = Some (h, bs) ->
  (off < length bs)%nat -> 0 < request_count q -> 0 < max_response_count q ->
  pldm_pdr_build_chunk p (Z.of_nat i) (Z.of_nat off) q =
    Some (inr (part recs i q bs off),
          if last_part q bs off then with_transfer p false 0 0 0
          else with_transfer p true h (Z.of_nat i) (Z.of_nat off + part_size q bs off)).
Proof.
  intros Hh Hr Hi Hoff H1 H2. unfold pldm_pdr_build_chunk. rewrite (get_record_spec _ _ _ _ _ Hh Hr Hi). cbn [mbind option_bind].
  cbn [meta_data meta_next meta_handle]. rewrite (proj2 (Z.leb_gt _ _)) by lia. fold (part_size q bs off). fold (last_part q bs off).
  assert (Hu : u32 (Z.of_nat off + part_size q bs off) = Z.of_nat off + part_size q bs off).
  { destruct (repo_record _ _ _ _ _ Hh Hi) as (o & _ & Ho & Hc & _). pose proof (h_small _ _ Hh) as [_ Hsm].
    apply wrap_id. unfold in_width, part_size. lia. }
  rewrite Hu. unfold part, slice. rewrite Nat2Z.id. replace (Z.of_nat off =? 0) with (off =? 0)%nat by (destruct off; done).
  by destruct (last_part q bs off).
Qed.
Definition handles_ok (recs : list (Z * list Z)) : Prop := NoDup (map fst recs) /\ Forall (λ r, fst r <> 0 /\ snd r <> []) recs.
Lemma find_from_infos recs off k i h bs : NoDup (map fst recs) -> recs !! i = Some (h, bs) ->
  find_from (infos off recs) h k = Some (k + Z.of_nat i).
Proof.
  revert off k i. induction recs as [|[h0 b0] recs IH]; intros off k i Hn Hi; [done|]. cbn [infos find_from handle].
  cbn [map fst] in Hn. apply list.NoDup_cons in Hn as [Hnin Hn]. destruct i as [|i].
  - injection Hi as -> ->. rewrite Z.eqb_refl. f_equal. lia.
  - change (recs !! i = Some (h, bs)) in Hi. destruct (Z.eqb_spec h0 h) as [->|Hne].
    + destruct Hnin. apply list_elem_of_lookup_2 in Hi. change h with (fst (h, bs)). by apply list_elem_of_fmap_2.
    + rewrite (IH _ _ _ Hn Hi). f_equal. lia.
Qed.
Lemma find_index_spec recs p i h bs : holds recs p -> is_ready p = true -> handles_ok recs -> recs !! i = Some (h, bs) ->
  pldm_pdr_find_record_index p h = inr (Z.of_nat i).
Proof.
  intros Hh Hr [Hn _] Hi. unfold pldm_pdr_find_record_index. rewrite Hr, (h_count _ _ Hh), Nat2Z.id, (h_infos _ _ Hh). cbn [negb].
  by rewrite (find_from_infos _ _ _ _ _ _ Hn Hi).
Qed.
End reading.

(** * A management controller *)
Section client.
Context `{LibPldm}.
Definition ask (h dth op count : Z) : pldm_pdr_get_chunk_request :=
  {| record_handle := h; data_transfer_handle := dth; transfer_op_flag := op; request_count := count;
     max_response_count := PLDM_GET_PDR_MAX_DATA_LEN |}.
(** The rest of a record, in at most [n] parts, [counts] bytes asked for; then the next record's
    handle and the checksum. *)
Fixpoint next_parts (n : nat) (counts : nat -> Z) (h dth : Z) p : option (list Z * Z * Z * provider) :=
  match n with
  | O => None
  | S n =>
      match pldm_pdr_get_chunk p (ask h dth PLDM_GET_NEXTPART (counts n)) with
      | Some (inr r, p) =>
          if transfer_flag r =? PLDM_END then Some (record_data r, next_record_handle r, transfer_crc r, p)
          else if transfer_flag r =? PLDM_MIDDLE then
            '(bs, next, crc, p) ← next_parts n counts h (next_data_transfer_handle r) p;
            Some (record_data r ++ bs, next, crc, p)
          else None
      | _ => None
      end
  end.
(** A whole record, asked for as [h], its own handle being [h']. *)
Definition fetch (n : nat) (counts : nat -> Z) (h h' : Z) p : option (list Z * Z * Z * provider) :=
  match pldm_pdr_get_chunk p (ask h 0 PLDM_GET_FIRSTPART (counts n)) with
  | Some (inr r, p) =>
      if transfer_flag r =? PLDM_START_AND_END then Some (record_data r, next_record_handle r, transfer_crc r, p)
      else if transfer_flag r =? PLDM_START then
        '(bs, next, crc, p) ← next_parts n counts h' (next_data_transfer_handle r) p;
        Some (record_data r ++ bs, next, crc, p)
      else None
  | _ => None
  end.
(** All records from [h] on, with their handles and checksums. *)
Fixpoint walk (m n : nat) (counts : nat -> nat -> Z) (h h' : Z) p : option (list (Z * list Z * Z) * provider) :=
  match m with
  | O => None
  | S m =>
      '(bs, next, crc, p) ← fetch n (counts m) h h' p;
      if next =? 0 then Some ([(h', bs, crc)], p)
      else '(l, p) ← walk m n counts next next p; Some ((h', bs, crc) :: l, p)
  end.
End client.

Section transfers.
Context `{LibPldmLaws}.
Lemma flags_ne : PLDM_START <> PLDM_START_AND_END /\ PLDM_MIDDLE <> PLDM_END.
Proof.
  pose proof flags_differ as Hn. rewrite !list.NoDup_cons, !not_elem_of_cons in Hn. naive_solver.
Qed.
Lemma part_size_range q bs off : (off < length bs)%nat -> 0 < request_count q -> 0 < max_response_count q ->
  0 < part_size q bs off <= Z.of_nat (length bs) - Z.of_nat off.
Proof. unfold part_size. lia. Qed.
Lemma part_rest q bs off : (off < length bs)%nat -> 0 < request_count q -> 0 < max_response_count q ->
  last_part q bs off = true -> take (Z.to_nat (part_size q bs off)) (drop off bs) = drop off bs.
Proof.
  intros Ho H1 H2 Hl. pose proof (part_size_range q bs off Ho H1 H2). unfold last_part in Hl. zb.
  apply take_ge. rewrite length_drop. lia.
Qed.
Lemma get_next_part recs p i h bs off count : holds recs p -> is_ready p = true -> recs !! i = Some (h, bs) -> (off < length bs)%nat ->
  0 < count -> transfer_active p = true -> transfer_record_handle p = h -> transfer_record_index p = Z.of_nat i ->
  transfer_next_data_handle p = Z.of_nat off ->
  let q := ask h (Z.of_nat off) PLDM_GET_NEXTPART count in
  pldm_pdr_get_chunk p q = pldm_pdr_build_chunk p (Z.of_nat i) (Z.of_nat off) q.
Proof.
  intros Hh Hr Hi Ho Hc T1 T2 T3 T4 q. unfold pldm_pdr_get_chunk. unfold q at 1 2 4 5 6 7 8. cbn [ask request_count max_response_count
    transfer_op_flag record_handle data_transfer_handle]. rewrite (proj2 (Z.eqb_neq _ _)) by lia.
  change (PLDM_GET_PDR_MAX_DATA_LEN =? 0) with false. cbn [orb]. rewrite Hr. cbn [negb].
  rewrite (proj2 (Z.eqb_neq _ _)) by apply parts_differ. rewrite Z.eqb_refl, T1, T2, T3, T4, !Z.eqb_refl. done.
Qed.
Lemma next_parts_run recs i h bs counts n : forall off p, holds recs p -> is_ready p = true -> recs !! i = Some (h, bs) ->
  (0 < off < length bs)%nat -> (length bs - off <= n)%nat -> (forall k, 0 < counts k) -> transfer_active p = true ->
  transfer_record_handle p = h -> transfer_record_index p = Z.of_nat i -> transfer_next_data_handle p = Z.of_nat off ->
  next_parts n counts h (Z.of_nat off) p = Some (drop off bs, next_of recs i, pldm_edac_crc8 bs, with_transfer p false 0 0 0).
Proof.
  induction n as [|n IH]; intros off p Hh Hr Hi Ho Hn Hc T1 T2 T3 T4; [lia|]. cbn [next_parts].
  rewrite (get_next_part recs p i h bs off (counts n)) by (done || lia || apply Hc).
  set (q := ask h (Z.of_nat off) PLDM_GET_NEXTPART (counts n)).
  assert (Hq : 0 < request_count q /\ 0 < max_response_count q) by (split; [apply Hc | done]). destruct Hq as [Q1 Q2].
  rewrite (build_chunk_spec recs p i h bs off q) by (done || lia). destruct flags_ne as [_ Hf].
  pose proof (part_size_range q bs off ltac:(lia) Q1 Q2) as Hps.
  unfold part. cbn [transfer_flag record_data next_record_handle next_data_transfer_handle transfer_crc].
  rewrite (proj2 (Nat.eqb_neq _ _)) by lia. cbn [andb]. destruct (last_part q bs off) eqn:El.
  - rewrite Z.eqb_refl. by rewrite part_rest by (done || lia).
  - rewrite (proj2 (Z.eqb_neq _ _)) by done. rewrite Z.eqb_refl. unfold last_part in El. zb.
    set (ps := part_size q bs off) in *. replace (Z.of_nat off + ps) with (Z.of_nat (off + Z.to_nat ps)) by lia.
    rewrite IH; try done; [| | lia | lia].
    + cbn [mbind option_bind]. f_equal. f_equal. f_equal. f_equal. rewrite <- drop_drop. by rewrite take_drop.
    + by destruct Hh.
Qed.
(** A whole transfer. *)
Lemma fetch_run recs i h asked bs counts n p : holds recs p -> is_ready p = true -> handles_ok recs -> recs !! i = Some (h, bs) ->
  (asked = h \/ asked = 0 /\ i = 0%nat) -> (length bs <= n)%nat -> (forall k, 0 < counts k) ->
  fetch n counts asked h p = Some (bs, next_of recs i, pldm_edac_crc8 bs, with_transfer p false 0 0 0).
Proof.
  intros Hh Hr Hok Hi Hask Hn Hc. unfold fetch. set (q := ask asked 0 PLDM_GET_FIRSTPART (counts n)).
  assert (Hne : h <> 0 /\ bs <> []).
  { destruct Hok as [_ Hf]. by apply (list.Forall_lookup_1 _ _ _ _ Hf Hi). } destruct Hne as [Hh0 Hbs].
  assert (Hlen : (0 < length bs)%nat) by (destruct bs; [done | cbn; lia]).
  assert (E : pldm_pdr_get_chunk p q = pldm_pdr_build_chunk p (Z.of_nat i) (Z.of_nat 0) q).
  { unfold pldm_pdr_get_chunk. cbn [q ask request_count max_response_count transfer_op_flag record_handle].
    rewrite (proj2 (Z.eqb_neq (counts n) 0)) by (specialize (Hc n); lia). cbn [orb]. rewrite Hr, Z.eqb_refl. cbn [negb].
    change (PLDM_GET_PDR_MAX_DATA_LEN =? 0) with false. cbv iota. destruct Hask as [-> | [-> ->]]; [|done].
    rewrite (proj2 (Z.eqb_neq h 0)) by done. by rewrite (find_index_spec recs p i h bs). }
  rewrite E. assert (Hq : 0 < request_count q /\ 0 < max_response_count q) by (split; [apply Hc | done]). destruct Hq as [Q1 Q2].
  rewrite (build_chunk_spec recs p i h bs 0 q) by done. destruct flags_ne as [Hf _].
  pose proof (part_size_range q bs 0 Hlen Q1 Q2) as Hps.
  unfold part. cbn [transfer_flag record_data next_record_handle next_data_transfer_handle transfer_crc].
  cbn [Nat.eqb andb]. destruct (last_part q bs 0) eqn:El.
  - rewrite Z.eqb_refl. by rewrite part_rest by done.
  - rewrite (proj2 (Z.eqb_neq _ _)) by done. rewrite Z.eqb_refl. unfold last_part in El. zb.
    set (ps := part_size q bs 0) in *. replace (Z.of_nat 0 + ps) with (Z.of_nat (Z.to_nat ps)) by lia.
    rewrite (next_parts_run recs i h bs); try done; [| | lia | lia].
    + cbn [mbind option_bind]. f_equal. f_equal. f_equal. f_equal. rewrite drop_0. by rewrite take_drop.
    + by destruct Hh.
Qed.
Definition with_crc (r : Z * list Z) : Z * list Z * Z := (r, pldm_edac_crc8 (snd r)).
Lemma walk_run recs counts n m : forall i h bs asked p, holds recs p -> is_ready p = true -> handles_ok recs ->
  recs !! i = Some (h, bs) -> (asked = h \/ asked = 0 /\ i = 0%nat) -> Forall (λ r, (length (snd r) <= n)%nat) recs ->
  (forall j k, 0 < counts j k) -> (length recs - i <= m)%nat ->
  exists p', walk m n counts asked h p = Some (map with_crc (drop i recs), p') /\ holds recs p' /\ is_ready p' = true /\
    transfer_active p' = false.
Proof.
  induction m as [|m IH]; intros i h bs asked p Hh Hr Hok Hi Ha Hl Hc Hm; apply lookup_lt_Some in Hi as Hlt; [lia|]. cbn [walk].
  rewrite (fetch_run recs i h asked bs) by (done || (by apply (list.Forall_lookup_1 _ _ _ _ Hl Hi)) || (by intros; apply Hc)).
  cbn [mbind option_bind]. rewrite (drop_S _ _ _ Hi). cbn [map]. unfold next_of. destruct (recs !! S i) as [[h' bs']|] eqn:E.
  - assert (Hh' : h' <> 0) by (destruct Hok as [_ Hf]; by apply (list.Forall_lookup_1 _ _ _ _ Hf E)).
    rewrite (proj2 (Z.eqb_neq _ _)) by done.
    destruct (IH (S i) h' bs' h' (with_transfer p false 0 0 0)) as (p' & E' & R); try done; [by destruct Hh | by left | lia|].
    rewrite E'. exists p'. by split.
  - apply lookup_ge_None in E. rewrite Z.eqb_refl, drop_ge by lia. eexists. split; [done|]. split; [by destruct Hh | done].
Qed.
End transfers.

(** * The repository of a devicetree *)
Section repository.
Context `{LibPldmLaws}.
Lemma aux_some s : has_aux_name s = true -> is_Some (aux_name s) /\ aux_name s = Some (name_of s).
Proof. unfold has_aux_name, name_of. destruct (aux_name s) as [[|c n]|]; done. Qed.
Lemma records_fit l h : (length (sensor_records h l) <= length l + length (filter (λ s, is_Some (aux_name s)) l))%nat.
Proof.
  revert h. induction l as [|s l IH]; intros h; [done|]. cbn [sensor_records length]. specialize (IH (h + 1)) as I1. specialize (IH (h + 2)) as I2.
  destruct (has_aux_name s) eqn:E.
  - apply aux_some in E as [E _]. rewrite filter_cons_True by done. cbn [length]. lia.
  - destruct (decide (is_Some (aux_name s))); [rewrite filter_cons_True by done | rewrite filter_cons_False by done]; cbn [length]; lia.
Qed.
Lemma bytes_fit l h : total (sensor_records h l) <= foldr Z.add 0 (map sensor_bytes l).
Proof.
  revert h. induction l as [|s l IH]; intros h; [done|]. cbn [sensor_records map foldr]. rewrite total_cons.
  set (rest := foldr Z.add 0 (map sensor_bytes l)) in *.
  destruct (numeric_encoded (h + 1) s) as [_ ->]. pose proof sizes_ok as (_ & Z2 & _). unfold sensor_bytes.
  destruct (has_aux_name s) eqn:E.
  - apply aux_some in E as [_ ->]. rewrite total_cons, aux_record_length, names_length. specialize (IH (h + 2)).
    unfold PLDM_PDR_AUX_NAME_RECORD_SIZE. change (length PLDM_PDR_SENSOR_AUX_LANG) with 2%nat. lia.
  - specialize (IH (h + 1)). unfold PLDM_PDR_AUX_NAME_RECORD_SIZE. destruct (aux_name s); lia.
Qed.
Lemma sensor_handles l h : 0 <= h -> Forall (λ r, h < fst r /\ snd r <> []) (sensor_records h l) /\ NoDup (map fst (sensor_records h l)).
Proof.
  revert h. induction l as [|s l IH]; intros h Hh0; [split; constructor|]. cbn [sensor_records].
  assert (Hn : numeric_record (h + 1) s <> []) by done.
  assert (Ha : aux_record (h + 2) (sensor_id s) (name_of s) <> []).
  { intros E. apply (f_equal length) in E. pose proof (aux_record_length (h + 2) (sensor_id s) (name_of s)) as L. rewrite E, names_length in L.
    pose proof sizes_ok. cbn in L. lia. }
  assert (Hstep : forall k, h < k -> Forall (λ r, k < fst r /\ snd r <> []) (sensor_records k l) /\ NoDup (map fst (sensor_records k l)) ->
    forall h' b, h < h' <= k -> b <> [] ->
    Forall (λ r, h < fst r /\ snd r <> []) ((h', b) :: sensor_records k l) /\ NoDup (map fst ((h', b) :: sensor_records k l))).
  { intros k Hk [HF HN] h' b Hh' Hb. split.
    - apply Forall_cons_2; [cbn; by split; [lia|] |]. eapply Forall_impl; [|exact HF]. intros r [? ?]. split; [lia | done].
    - cbn [map fst]. apply list.NoDup_cons. split; [|done]. intros (r & -> & Hr)%list_elem_of_fmap.
      rewrite list.Forall_forall in HF. destruct (HF _ Hr). lia. }
  destruct (has_aux_name s).
  - destruct (Hstep (h + 2) ltac:(lia) (IH (h + 2) ltac:(lia)) (h + 2) _ ltac:(lia) Ha) as [HF HN]. split.
    + apply Forall_cons_2; [cbn; by split; [lia|] | done].
    + cbn [map fst] in *. apply list.NoDup_cons. split; [|done]. intros He. apply elem_of_cons in He as [He|He]; [lia|].
      apply list_elem_of_fmap in He as (r & Er & Hr). destruct (IH (h + 2) ltac:(lia)) as [HF2 _].
      rewrite list.Forall_forall in HF2. destruct (HF2 _ Hr). lia.
  - apply (Hstep (h + 1)); [lia | apply IH; lia | lia | done].
Qed.
Lemma with_handles l t : 0 < sizeof_tl -> handles_ok ((PLDM_PDR_RECORD_HANDLE, tl_bytes t) :: sensor_records PLDM_PDR_RECORD_HANDLE l).
Proof.
  intros Ht. destruct (sensor_handles l 1 ltac:(lia)) as [HF HN]. split.
  - cbn [map fst]. apply list.NoDup_cons. split; [|done]. intros (r & Er & Hr)%list_elem_of_fmap.
    rewrite list.Forall_forall in HF. destruct (HF _ Hr). unfold PLDM_PDR_RECORD_HANDLE in *. lia.
  - apply Forall_cons_2.
    + split; [done|]. cbn. intros E. pose proof (tl_bytes_length t) as L. rewrite E in L. cbn in L. lia.
    + eapply Forall_impl; [|exact HF]. intros r [? ?]. split; [lia | done].
Qed.
Definition fits (l : list pldm_pdr_numeric_sensor_desc) : Prop :=
  short_names l /\ Z.of_nat (PLDM_PDR_RECORD_COUNT l) < 2 ^ 31 /\ PLDM_PDR_REPO_SIZE l < 2 ^ 31.
Lemma sum_nonneg l : 0 <= foldr Z.add 0 (map sensor_bytes l).
Proof. pose proof (bytes_fit l 0). pose proof (total_nonneg (sensor_records 0 l)). lia. Qed.
Lemma init_run l : fits l ->
  exists p, pldm_pdr_provider_init (PLDM_PDR_PROVIDER_DEFINE l) = Some (0, p) /\ holds (all_records l) p /\ is_ready p = true /\
    transfer_active p = false /\ sensors p = l.
Proof.
  intros (Hn & Hc & Hs). pose proof sizes_ok as (Z1 & _ & _). pose proof (sum_nonneg l).
  pose proof (records_fit l 1) as Rf. pose proof (bytes_fit l 1) as Bf. pose proof (tl_bytes_length terminus_locator) as Lt.
  unfold pldm_pdr_provider_init, PLDM_PDR_REPO_SIZE, PLDM_PDR_RECORD_COUNT in *. set (p0 := PLDM_PDR_PROVIDER_DEFINE l).
  assert (C0 : pdr_record_capacity p0 = Z.of_nat (PLDM_PDR_RECORD_COUNT l) /\ pdr_repo_capacity p0 = PLDM_PDR_REPO_SIZE l).
  { unfold pdr_record_capacity, pdr_repo_capacity, p0, PLDM_PDR_PROVIDER_DEFINE. cbn [pdr_records pdr_repo]. rewrite !length_replicate.
    split; [done|]. unfold PLDM_PDR_REPO_SIZE. lia. }
  destruct C0 as [C1 C2]. unfold PLDM_PDR_RECORD_COUNT in C1. unfold PLDM_PDR_REPO_SIZE in C2.
  assert (H00 : holds [] p0) by (split; try done; rewrite C1, C2; lia).
  destruct (append_record_holds [] p0 PLDM_PDR_RECORD_HANDLE (tl_bytes terminus_locator) H00) as (p1 & E1 & Hh1 & F1);
    [cbn; lia | change (total []) with 0; lia|].
  rewrite E1. cbn [mbind option_bind]. cbn [negb Z.eqb]. pose proof F1 as (S1 & R1 & R2 & _).
  rewrite S1. change (sensors p0) with l. unfold pdr_record_capacity, pdr_repo_capacity in *.
  destruct (add_sensors_holds l _ PLDM_PDR_RECORD_HANDLE p1 Hh1 Hn) as (p2 & E2 & Hh2 & F2).
  - done.
  - unfold PLDM_PDR_RECORD_HANDLE. lia.
  - unfold pdr_record_capacity. rewrite R1, C1. unfold PLDM_PDR_RECORD_HANDLE. cbn [length app]. lia.
  - unfold pdr_repo_capacity. rewrite R2, C2. unfold PLDM_PDR_RECORD_HANDLE. rewrite app_nil_l, total_one. lia.
  - rewrite E2. cbn [mbind option_bind]. eexists. split; [done|]. split; [by destruct Hh2|]. split; [done|].
    destruct F2 as (S2 & _ & _ & T2 & _), F1 as (_ & _ & _ & T1 & _). cbn [with_ready transfer_active sensors]. by rewrite T2, T1, S2, S1.
Qed.
(** ** The terminus locator *)
Lemma zset_app (a b a' : list Z) i v : zset a i v = Some a' -> zset (a ++ b) i v = Some (a' ++ b).
Proof.
  intros E. apply zset_Some in E as Hr. unfold zset in *. case_match eqn:Hc; [|done]. injection E as <-. zb.
  rewrite length_app, (proj2 (Z.leb_le _ _)), (proj2 (Z.ltb_lt _ _)) by lia. cbn [andb]. f_equal. apply insert_app_l. lia.
Qed.
Lemma zget_app (a b : list Z) i v : zget a i = Some v -> zget (a ++ b) i = Some v.
Proof. unfold zget. case_match; [done|]. intros E. by apply lookup_app_l_Some. Qed.
Lemma update_run h t recs p tid eid : holds ((h, tl_bytes t) :: recs) p -> is_ready p = true -> tl_type t = PLDM_TERMINUS_LOCATOR_PDR ->
  exists p', pldm_pdr_update_tid_eid p tid eid = Some (0, p') /\ holds ((h, tl_bytes (with_tid t tid eid)) :: recs) p' /\ is_ready p' = true /\
    transfer_active p' = transfer_active p /\ sensors p' = sensors p.
Proof.
  intros Hh Hr Hty. pose proof Hh as [Hc Hi Hb Hs Hl Hm]. pose proof (holds_capacity _ _ Hh) as [_ Hcap].
  destruct (repo_record _ _ 0 h (tl_bytes t) Hh eq_refl) as (off & Hrec & Ho & Hfit & _).
  assert (off = 0) as ->.
  { apply (f_equal head) in Hi. destruct (pdr_records p) as [|r rs]; [done|]. cbn in Hi, Hrec. congruence. }
  pose proof (tl_bytes_length t) as Lt. pose proof (tl_bytes_length (with_tid t tid eid)) as Lt'.
  assert (Hrepo : exists rest, pdr_repo p = tl_bytes t ++ content recs ++ rest).
  { exists (drop (length (content ((h, tl_bytes t) :: recs))) (pdr_repo p)). rewrite app_assoc.
    change (tl_bytes t ++ content recs) with (content ((h, tl_bytes t) :: recs)). rewrite <- Hb at 1. by rewrite take_drop. }
  destruct Hrepo as [rest Hrepo]. unfold pldm_pdr_update_tid_eid. rewrite Hr. cbn [negb].
  change (zget (pdr_records p) 0) with (pdr_records p !! 0%nat). rewrite Hrec. cbn [length_ offset].
  unfold pdr_repo_capacity in *. rewrite (proj2 (Z.ltb_ge _ _)), (proj2 (Z.ltb_ge _ _)), (proj2 (Z.ltb_ge _ _)) by lia. cbn [orb].
  rewrite !Z.add_0_l, Hrepo. rewrite (zget_app _ _ _ _ (tl_bytes_type t)), Hty, Z.eqb_refl. cbn [negb].
  pose proof (tl_bytes_tid t tid eid) as Ht. destruct (zset (tl_bytes t) offsetof_tid tid) as [l1|] eqn:E1; [|done]. cbn [mbind option_bind] in Ht.
  rewrite (zset_app _ _ _ _ _ E1). cbn [mbind option_bind]. rewrite (zset_app _ _ _ _ _ Ht). cbn [mbind option_bind].
  eexists. split; [done|]. split; [|done]. split; cbn [with_repo pdr_record_count pdr_records pdr_repo pdr_repo_size pdr_largest_record_size]; try done.
  - cbn [length infos] in *. rewrite Hi. do 2 f_equal; [f_equal|]; lia.
  - unfold content at 1 2. cbn [map concat snd]. fold (content recs). rewrite app_assoc, take_app_length'; [done|]. by rewrite !length_app.
  - rewrite Hs, !total_cons. lia.
  - rewrite Hl. unfold largest. cbn [map snd]. do 3 f_equal. lia.
  - unfold pdr_record_capacity, pdr_repo_capacity in *. cbn [with_repo pdr_records pdr_repo]. rewrite Hrepo in Hm. rewrite !length_app in *. lia.
Qed.
End repository.

(** * Messages *)
Inductive pldm_resp :=
  | CcOnly (cc : Z)
  | RepoInfo (info : pldm_pdr_repo_info)
  | GetPdr (r : pldm_pdr_get_chunk_response)
  | SensorReading (present_reading : list Z)
  | Tid (tid : Z)
  | Types (pldm_types : list Z)
  | Versions (versions : list (Z * Z * Z * Z))
  | Commands (commands : list Z)
  | Other (payload : list Z).
(** What the handlers take from libpldm: completion codes, sizes of messages, the decoding of
    requests (a completion code or the fields) and whether a response can be encoded. *)
Class PldmCodec := {
  PLDM_SUCCESS : Z; PLDM_ERROR : Z; PLDM_ERROR_INVALID_DATA : Z; PLDM_ERROR_INVALID_LENGTH : Z; PLDM_ERROR_NOT_READY : Z;
  PLDM_ERROR_UNSUPPORTED_PLDM_CMD : Z; PLDM_ERROR_INVALID_PLDM_TYPE : Z;
  PLDM_PLATFORM_INVALID_RECORD_CHANGE_NUMBER : Z; PLDM_PLATFORM_INVALID_TRANSFER_OPERATION_FLAG : Z;
  PLDM_PLATFORM_INVALID_RECORD_HANDLE : Z; PLDM_PLATFORM_INVALID_DATA_TRANSFER_HANDLE : Z;
  PLDM_PLATFORM_REARM_UNAVAILABLE_IN_PRESENT_STATE : Z; PLDM_PLATFORM_INVALID_SENSOR_ID : Z; PLDM_SENSOR_UNAVAILABLE : Z;
  PLDM_GET_PDR_REPOSITORY_INFO : Z; PLDM_GET_PDR : Z; PLDM_GET_SENSOR_READING : Z;
  sizeof_msg_hdr : Z; PLDM_GET_PDR_REPOSITORY_INFO_RESP_BYTES : Z; PLDM_GET_PDR_MIN_RESP_BYTES : Z; sizeof_sensor_reading_resp : Z;
  decode_get_pdr_req : list Z -> Z + (Z * Z * Z * Z * Z);
  decode_get_sensor_reading_req : list Z -> Z + (Z * bool);
  encodes : pldm_resp -> bool }.
(** An error number, or the response and its length. *)
Abbreviation answer := (Z + pldm_resp * Z)%type.
(** The sensor API for a sensor: whether it is ready, what each call returns, the decoded value
    (number of readings, shift, value), and a value from millionths. *)
Record sensor_io := {
  sensor_ready : bool; get_decoder_rc : Z; get_size_rc : Z; base_size : Z; reconfigure_rc : Z; read_rc : Z; decode_rc : Z;
  reading_count : Z; shift : Z; q31 : Z; from_micro : Z -> Z + (Z * Z) }.
Definition ENODATA : Z := 61.
Definition PLDM_SENSOR_READ_BUF_LEN : Z := 64.

Section platform.
Context `{LibPldm} `{PldmCodec}.
Definition pldm_cc_only_response (cc : Z) : answer := if encodes (CcOnly cc) then inr (CcOnly cc, sizeof_msg_hdr + 1) else inl (- EINVAL).
Definition encoded (r : pldm_resp) (len : Z) : answer := if encodes r then inr (r, sizeof_msg_hdr + len) else inl (- EINVAL).
(** [None]: no repository, a null pointer. *)
Definition pldm_handle_get_pdr_repository_info (dev : option provider) (req_payload_len : Z) : answer :=
  if negb (req_payload_len =? 0) then pldm_cc_only_response PLDM_ERROR_INVALID_LENGTH
  else match (match dev with None => inl (- EINVAL) | Some p => pldm_pdr_get_repository_info p end) with
       | inl _ => pldm_cc_only_response PLDM_ERROR
       | inr info => encoded (RepoInfo info) PLDM_GET_PDR_REPOSITORY_INFO_RESP_BYTES
       end.
Definition chunk_error (rc : Z) : answer :=
  if rc =? - ENOENT then pldm_cc_only_response PLDM_PLATFORM_INVALID_RECORD_HANDLE
  else if (rc =? - EBADMSG) || (rc =? - ERANGE) then pldm_cc_only_response PLDM_PLATFORM_INVALID_DATA_TRANSFER_HANDLE
  else if rc =? - EOPNOTSUPP then pldm_cc_only_response PLDM_PLATFORM_INVALID_TRANSFER_OPERATION_FLAG
  else pldm_cc_only_response PLDM_ERROR.
Definition pldm_handle_get_pdr (dev : option provider) (payload : list Z) : option (answer * option provider) :=
  match decode_get_pdr_req payload with
  | inl cc => Some (pldm_cc_only_response cc, dev)
  | inr (h, dth, op, count, change) =>
      if negb (change =? PLDM_PDR_RECORD_CHANGE_NUM)
      then Some (pldm_cc_only_response PLDM_PLATFORM_INVALID_RECORD_CHANGE_NUMBER, dev)
      else if count =? 0 then Some (pldm_cc_only_response PLDM_ERROR_INVALID_DATA, dev)
      else if negb (op =? PLDM_GET_FIRSTPART) && negb (op =? PLDM_GET_NEXTPART)
      then Some (pldm_cc_only_response PLDM_PLATFORM_INVALID_TRANSFER_OPERATION_FLAG, dev)
      else match dev with
           | None => Some (chunk_error (- EINVAL), dev)
           | Some p =>
               '(r, p) ← pldm_pdr_get_chunk p (ask h dth op count);
               match r with
               | inl rc => Some (chunk_error rc, Some p)
               | inr r =>
                   let is_last := (transfer_flag r =? PLDM_END) || (transfer_flag r =? PLDM_START_AND_END) in
                   Some (encoded (GetPdr r) (PLDM_GET_PDR_MIN_RESP_BYTES + Z.of_nat (length (record_data r)) + if is_last then 1 else 0),
                         Some p)
               end
           end
  end.
(** ** Sensors *)
(** An [int64_t]; [None] for an overflow. *)
Definition i64 (v : Z) : option Z := if (- 2 ^ 63 <=? v) && (v <? 2 ^ 63) then Some v else None.
Fixpoint scale_up (n : nat) (v : Z) : option Z := match n with O => Some v | S n => v ← i64 (v * 10); scale_up n v end.
Fixpoint scale_down (n : nat) (v : Z) : Z := match n with O => v | S n => scale_down n (Z.quot v 10) end.
Definition pldm_sensor_value_to_s32 (val1 val2 unit_modifier : Z) : option Z :=
  let scaled_micro := val1 * 1000000 + val2 in
  scaled_micro ← (if unit_modifier <? 0 then scale_up (Z.to_nat (- unit_modifier)) scaled_micro
                  else Some (scale_down (Z.to_nat unit_modifier) scaled_micro));
  rounded ← (if 0 <=? scaled_micro then v ← i64 (scaled_micro + 500000); Some (Z.quot v 1000000)
             else v ← i64 (scaled_micro - 500000); Some (Z.quot v 1000000));
  Some (if INT32_MAX <? rounded then INT32_MAX else if rounded <? INT32_MIN then INT32_MIN else rounded).
Definition pldm_sensor_read_decode (io : sensor_io) : option (Z + (Z * Z)) :=
  if negb (get_decoder_rc io =? 0) then Some (inl (get_decoder_rc io))
  else if negb (get_size_rc io =? 0) then Some (inl (get_size_rc io))
  else if PLDM_SENSOR_READ_BUF_LEN <? base_size io then Some (inl (- ENOMEM))
  else if negb (reconfigure_rc io =? 0) then Some (inl (reconfigure_rc io))
  else if negb (read_rc io =? 0) then Some (inl (read_rc io))
  else if decode_rc io <=? 0 then Some (inl (if decode_rc io <? 0 then decode_rc io else - ENODATA))
  else if (reading_count io =? 0) || (31 <? shift io) then Some (inl (- ENODATA))
  else if 64 <=? 31 - shift io then None
  else v ← i64 (q31 io * 1000000); Some (from_micro io (Z.shiftr v (31 - shift io))).
Definition pldm_handle_get_sensor_reading (dev : option provider) (sensor_of : pldm_pdr_numeric_sensor_desc -> sensor_io)
    (payload : list Z) : option answer :=
  match decode_get_sensor_reading_req payload with
  | inl cc => Some (pldm_cc_only_response cc)
  | inr (id, rearm) =>
      if rearm then Some (pldm_cc_only_response PLDM_PLATFORM_REARM_UNAVAILABLE_IN_PRESENT_STATE)
      else match dev ← dev; (if is_ready dev then pldm_pdr_find_numeric_sensor_by_id (sensors dev) id else None) with
           | None => Some (pldm_cc_only_response PLDM_PLATFORM_INVALID_SENSOR_ID)
           | Some s =>
               let io := sensor_of s in
               if negb (sensor_ready io) then Some (pldm_cc_only_response PLDM_SENSOR_UNAVAILABLE)
               else
                 v ← pldm_sensor_read_decode io;
                 match v with
                 | inl _ => Some (pldm_cc_only_response PLDM_ERROR)
                 | inr (val1, val2) =>
                     reading ← pldm_sensor_value_to_s32 val1 val2 (unit_modifier s);
                     Some (encoded (SensorReading (le_bytes 4 (u32 reading))) (sizeof_sensor_reading_resp - 1 + 4))
                 end
           end
  end.
Definition pldm_platform_build_response (dev : option provider) (sensor_of : pldm_pdr_numeric_sensor_desc -> sensor_io)
    (command : Z) (payload : list Z) : option (answer * option provider) :=
  if command =? PLDM_GET_PDR_REPOSITORY_INFO
  then Some (pldm_handle_get_pdr_repository_info dev (Z.of_nat (length payload)), dev)
  else if command =? PLDM_GET_PDR then pldm_handle_get_pdr dev payload
  else if command =? PLDM_GET_SENSOR_READING
  then a ← pldm_handle_get_sensor_reading dev sensor_of payload; Some (a, dev)
  else Some (pldm_cc_only_response PLDM_ERROR_UNSUPPORTED_PLDM_CMD, dev).
End platform.

(** * Requests for records *)
Section requests.
Context `{LibPldmLaws} `{PldmCodec}.
(** The transfer in progress is of a record that is there, at an offset inside of it. *)
Definition tr_ok (recs : list (Z * list Z)) p : Prop :=
  transfer_active p = true ->
  exists i bs off, recs !! i = Some (transfer_record_handle p, bs) /\ transfer_record_index p = Z.of_nat i /\
    transfer_next_data_handle p = Z.of_nat off /\ (off < length bs)%nat.
Fixpoint index_of (recs : list (Z * list Z)) (h : Z) (i : nat) : option nat :=
  match recs with
  | [] => None
  | (h', _) :: recs => if h' =? h then Some i else index_of recs h (S i)
  end.
(** Which record and offset a request with valid fields is about, or the completion code. *)
Definition located (recs : list (Z * list Z)) p (h dth op : Z) : Z + nat * nat :=
  if op =? PLDM_GET_FIRSTPART then
    if h =? 0 then inr (0%nat, 0%nat)
    else match index_of recs h 0 with Some i => inr (i, 0%nat) | None => inl PLDM_PLATFORM_INVALID_RECORD_HANDLE end
  else if transfer_active p && (h =? transfer_record_handle p) && (dth =? transfer_next_data_handle p)
  then inr (Z.to_nat (transfer_record_index p), Z.to_nat dth)
  else inl PLDM_PLATFORM_INVALID_DATA_TRANSFER_HANDLE.
(** The completion code of a request that is refused as such. *)
Definition refused (change count op : Z) : option Z :=
  if negb (change =? PLDM_PDR_RECORD_CHANGE_NUM) then Some PLDM_PLATFORM_INVALID_RECORD_CHANGE_NUMBER
  else if count =? 0 then Some PLDM_ERROR_INVALID_DATA
  else if negb (op =? PLDM_GET_FIRSTPART) && negb (op =? PLDM_GET_NEXTPART) then Some PLDM_PLATFORM_INVALID_TRANSFER_OPERATION_FLAG
  else None.
Definition get_pdr_spec (recs : list (Z * list Z)) p (payload : list Z) (a : answer) p' : Prop :=
  match decode_get_pdr_req payload with
  | inl cc => a = pldm_cc_only_response cc /\ p' = p
  | inr (h, dth, op, count, change) =>
      match refused change count op with
      | Some cc => a = pldm_cc_only_response cc /\ p' = p
      | None =>
          match located recs p h dth op with
          | inl cc => a = pldm_cc_only_response cc /\ p' = p
          | inr (i, off) =>
              exists h' bs, recs !! i = Some (h', bs) /\ (off < length bs)%nat /\
                let q := ask h dth op count in let r := part recs i q bs off in
                Z.of_nat (length (record_data r)) = part_size q bs off /\ part_size q bs off <= PLDM_GET_PDR_MAX_DATA_LEN /\
                a = encoded (GetPdr r) (PLDM_GET_PDR_MIN_RESP_BYTES + part_size q bs off + if last_part q bs off then 1 else 0) /\
                transfer_active p' = negb (last_part q bs off)
          end
      end
  end.
Lemma find_from_index recs h : forall off k j, find_from (infos off recs) h (k + Z.of_nat j) =
  match index_of recs h j with Some i => Some (k + Z.of_nat i) | None => None end.
Proof.
  induction recs as [|[h0 b0] recs IH]; intros off k j; [done|]. cbn [infos find_from index_of handle].
  destruct (h0 =? h); [done|]. rewrite <- Z.add_assoc. replace (Z.of_nat j + 1) with (Z.of_nat (S j)) by lia. apply IH.
Qed.
Lemma index_of_Some recs h : forall j i, index_of recs h j = Some i -> exists bs, recs !! (i - j)%nat = Some (h, bs) /\ (j <= i)%nat.
Proof.
  induction recs as [|[h0 b0] recs IH]; intros j i E; [done|]. cbn [index_of] in E. destruct (Z.eqb_spec h0 h) as [->|Hne].
  - injection E as ->. exists b0. by rewrite Nat.sub_diag.
  - destruct (IH _ _ E) as (bs & Hl & Hj). exists bs. split; [|lia]. replace (i - j)%nat with (S (i - S j)) by lia. exact Hl.
Qed.
(** A request for a part that is there. *)
Lemma answer_part recs p i h' bs off h dth op count : holds recs p -> is_ready p = true -> recs !! i = Some (h', bs) ->
  (off < length bs)%nat -> 0 < count ->
  let q := ask h dth op count in let r := part recs i q bs off in
  exists p', pldm_pdr_build_chunk p (Z.of_nat i) (Z.of_nat off) q = Some (inr r, p') /\
    holds recs p' /\ tr_ok recs p' /\ is_ready p' = true /\ transfer_active p' = negb (last_part q bs off) /\
    Z.of_nat (length (record_data r)) = part_size q bs off /\ part_size q bs off <= PLDM_GET_PDR_MAX_DATA_LEN /\
    (transfer_flag r =? PLDM_END) || (transfer_flag r =? PLDM_START_AND_END) = last_part q bs off.
Proof.
  intros Hh Hr Hi Ho Hc q r. assert (Q : 0 < request_count q /\ 0 < max_response_count q) by (by split). destruct Q as [Q1 Q2].
  pose proof (part_size_range q bs off Ho Q1 Q2) as Hps. eexists. split; [by apply (build_chunk_spec recs p i h')|].
  assert (Hl : Z.of_nat (length (record_data r)) = part_size q bs off).
  { unfold r, part. cbn [record_data]. rewrite length_take, length_drop. lia. }
  assert (Hflag : (transfer_flag r =? PLDM_END) || (transfer_flag r =? PLDM_START_AND_END) = last_part q bs off).
  { pose proof flags_differ as Hn. rewrite !list.NoDup_cons, !not_elem_of_cons in Hn. unfold r, part. cbn [transfer_flag].
    destruct (off =? 0)%nat, (last_part q bs off); cbn [andb]; rewrite ?Z.eqb_refl, ?orb_true_r; try done.
    all: rewrite !(proj2 (Z.eqb_neq _ _)) by naive_solver; done. }
  destruct (last_part q bs off) eqn:El.
  - split_and!; try done; [by destruct Hh | unfold part_size; cbn; lia].
  - split_and!; try done; [by destruct Hh | | unfold part_size; cbn; lia]. intros _. cbn. unfold last_part in El. zb.
    exists i, bs, (off + Z.to_nat (part_size q bs off))%nat. split_and!; [done | done | lia | lia].
Qed.
Lemma get_chunk_located recs p h dth op count : holds recs p -> is_ready p = true -> handles_ok recs -> recs <> [] -> tr_ok recs p ->
  0 < count -> (op =? PLDM_GET_FIRSTPART) || (op =? PLDM_GET_NEXTPART) = true ->
  let q := ask h dth op count in
  match located recs p h dth op with
  | inl cc => exists rc, pldm_pdr_get_chunk p q = Some (inl rc, p) /\ chunk_error rc = pldm_cc_only_response cc
  | inr (i, off) => exists h' bs, recs !! i = Some (h', bs) /\ (off < length bs)%nat /\
      pldm_pdr_get_chunk p q = pldm_pdr_build_chunk p (Z.of_nat i) (Z.of_nat off) q
  end.
Proof.
  intros Hh Hr Hok Hne Htr Hc Hop q.
  assert (E : pldm_pdr_get_chunk p q =
    if op =? PLDM_GET_FIRSTPART then
      if h =? 0 then pldm_pdr_build_chunk p 0 0 q
      else match pldm_pdr_find_record_index p h with inl rc => Some (inl rc, p) | inr i => pldm_pdr_build_chunk p i 0 q end
    else if op =? PLDM_GET_NEXTPART then
      if negb (transfer_active p) || negb (h =? transfer_record_handle p) || negb (dth =? transfer_next_data_handle p)
      then Some (inl (- EBADMSG), p) else pldm_pdr_build_chunk p (transfer_record_index p) dth q
    else Some (inl (- EOPNOTSUPP), p)).
  { unfold pldm_pdr_get_chunk, q. cbn [ask request_count max_response_count transfer_op_flag record_handle data_transfer_handle].
    rewrite (proj2 (Z.eqb_neq count 0)), Hr by lia. reflexivity. }
  rewrite E. clear E. unfold located.
  assert (Hlen : forall i h' bs, recs !! i = Some (h', bs) -> (0 < length bs)%nat).
  { intros i h' bs Hi. destruct Hok as [_ Hf]. destruct (list.Forall_lookup_1 _ _ _ _ Hf Hi) as [_ Hb]. destruct bs; [done | cbn; lia]. }
  destruct (op =? PLDM_GET_FIRSTPART).
  - destruct (h =? 0).
    + destruct recs as [|[h' bs] recs]; [done|]. exists h', bs. split_and!; [done | by apply (Hlen 0%nat h') | reflexivity].
    + unfold pldm_pdr_find_record_index. rewrite Hr, (h_count _ _ Hh), Nat2Z.id, (h_infos _ _ Hh). cbn [negb].
      pose proof (find_from_index recs h 0 0 0) as Ef. change (0 + Z.of_nat 0) with 0 in Ef. rewrite Ef. destruct (index_of recs h 0) as [i|] eqn:E.
      * destruct (index_of_Some _ _ _ _ E) as (bs & Hi & _). rewrite Nat.sub_0_r in Hi. exists h, bs. split_and!; [done | by eapply Hlen | done].
      * eexists. by split.
  - cbn [orb] in Hop. rewrite Hop. destruct (transfer_active p) eqn:Ea; cbn [negb andb orb]; [|by eexists].
    destruct (Z.eqb_spec h (transfer_record_handle p)) as [->|]; cbn [negb andb orb]; [|by eexists].
    destruct (Z.eqb_spec dth (transfer_next_data_handle p)) as [->|]; cbn [negb andb orb]; [|by eexists].
    destruct (Htr Ea) as (i & bs & off & Hi & Ti & To & Ho). rewrite Ti, To, !Nat2Z.id. by exists (transfer_record_handle p), bs.
Qed.
Lemma get_pdr_run recs p payload : holds recs p -> is_ready p = true -> handles_ok recs -> recs <> [] -> tr_ok recs p ->
  (forall h dth op count change, decode_get_pdr_req payload = inr (h, dth, op, count, change) -> 0 <= count) ->
  exists a p', pldm_handle_get_pdr (Some p) payload = Some (a, Some p') /\ holds recs p' /\ tr_ok recs p' /\ is_ready p' = true /\
    get_pdr_spec recs p payload a p'.
Proof.
  intros Hh Hr Hok Hne Htr Hdec. unfold pldm_handle_get_pdr, get_pdr_spec.
  destruct (decode_get_pdr_req payload) as [cc | [[[[h dth] op] count] change]]; [by eexists _, p|]. specialize (Hdec _ _ _ _ _ eq_refl).
  unfold refused. destruct (negb (change =? PLDM_PDR_RECORD_CHANGE_NUM)); [by eexists _, p|].
  destruct (Z.eqb_spec count 0) as [|Hc]; [by eexists _, p|].
  destruct (negb (op =? PLDM_GET_FIRSTPART) && negb (op =? PLDM_GET_NEXTPART)) eqn:Eop; [by eexists _, p|].
  pose proof (get_chunk_located recs p h dth op count Hh Hr Hok Hne Htr ltac:(lia)) as Hl.
  specialize (Hl ltac:(by destruct (op =? PLDM_GET_FIRSTPART), (op =? PLDM_GET_NEXTPART))). cbv zeta in Hl.
  destruct (located recs p h dth op) as [cc | [i off]].
  - destruct Hl as (rc & -> & Ecc). cbn [mbind option_bind]. eexists _, p. by split_and!.
  - destruct Hl as (h' & bs & Hi & Ho & ->).
    destruct (answer_part recs p i h' bs off h dth op count Hh Hr Hi Ho ltac:(lia)) as (p' & -> & A1 & A2 & A3 & A4 & A5 & A6 & A7).
    cbn [mbind option_bind]. cbv zeta. rewrite A7, A5. eexists _, p'. split; [reflexivity|]. split_and!; try done.
    exists h', bs. by split_and!.
Qed.
(** ** Sensor values *)
Lemma i64_ok v : - 2 ^ 63 <= v < 2 ^ 63 -> i64 v = Some v.
Proof. intros Hv. unfold i64. rewrite (proj2 (Z.leb_le _ _)), (proj2 (Z.ltb_lt _ _)) by lia. done. Qed.
Lemma scale_up_ok n : forall v, Z.abs (v * 10 ^ Z.of_nat n) < 2 ^ 63 -> scale_up n v = Some (v * 10 ^ Z.of_nat n).
Proof.
  induction n as [|n IH]; intros v Hv; cbn [scale_up]; [by rewrite Z.mul_1_r|].
  rewrite Nat2Z.inj_succ, Z.pow_succ_r in * by lia. assert (H10 : 0 < 10 ^ Z.of_nat n) by (apply Z.pow_pos_nonneg; lia).
  rewrite i64_ok by nia. cbn [mbind option_bind]. rewrite IH by (rewrite <- Z.mul_assoc; done). by rewrite Z.mul_assoc.
Qed.
Lemma scale_down_ok n : forall v, scale_down n v = Z.quot v (10 ^ Z.of_nat n).
Proof.
  induction n as [|n IH]; intros v; cbn [scale_down]; [by rewrite Z.quot_1_r|].
  assert (H10 : 0 < 10 ^ Z.of_nat n) by (apply Z.pow_pos_nonneg; lia).
  rewrite IH, Nat2Z.inj_succ, Z.pow_succ_r by lia. rewrite Z.quot_quot by lia. done.
Qed.
(** The value in millionths of the unit of the record. *)
Definition in_unit (micro unit_modifier : Z) : Z :=
  if unit_modifier <? 0 then micro * 10 ^ (- unit_modifier) else Z.quot micro (10 ^ unit_modifier).
Definition clamp32 (v : Z) : Z := Z.min INT32_MAX (Z.max INT32_MIN v).
Lemma to_s32_rounds val1 val2 m : INT32_MIN <= val1 <= INT32_MAX -> Z.abs val2 < 1000000 -> -3 <= m ->
  exists r, pldm_sensor_value_to_s32 val1 val2 m = Some (clamp32 r) /\
    2 * Z.abs (in_unit (val1 * 1000000 + val2) m - r * 1000000) <= 1000000.
Proof.
  unfold INT32_MIN, INT32_MAX. intros Hv1 Hv2 Hm. unfold pldm_sensor_value_to_s32. set (micro := val1 * 1000000 + val2).
  assert (Hs : (if m <? 0 then scale_up (Z.to_nat (- m)) micro else Some (scale_down (Z.to_nat m) micro)) = Some (in_unit micro m) /\ Z.abs (in_unit micro m) < 2 ^ 62).
  { unfold in_unit. destruct (Z.ltb_spec m 0).
    - assert (Hp : 10 ^ (- m) <= 1000 /\ 0 < 10 ^ (- m)).
      { assert (Hm' : m = -1 \/ m = -2 \/ m = -3) by lia. destruct Hm' as [-> | [-> | ->]]; done. }
      assert (Hb : Z.abs (micro * 10 ^ (- m)) < 2 ^ 62) by (unfold micro; nia).
      rewrite scale_up_ok; rewrite Z2Nat.id by lia; [by split | lia].
    - rewrite scale_down_ok, Z2Nat.id by lia. split; [done|]. assert (0 < 10 ^ m) by (apply Z.pow_pos_nonneg; lia).
      assert (Z.abs (Z.quot micro (10 ^ m)) <= Z.abs micro); [|unfold micro in *; lia].
      Z.to_euclidean_division_equations. nia. }
  destruct Hs as [-> Hb]. cbn [mbind option_bind]. set (v := in_unit micro m) in *.
  exists (if 0 <=? v then Z.quot (v + 500000) 1000000 else Z.quot (v - 500000) 1000000).
  destruct (Z.leb_spec 0 v); rewrite i64_ok by lia; cbn [mbind option_bind].
  all: split; [f_equal; unfold clamp32, INT32_MIN, INT32_MAX; zcases | Z.to_euclidean_division_equations; lia].
Qed.
End requests.

(** * Theorems *)
Section theorems.
Context `{LibPldmLaws}.
(** C11. The repository of any sensors of a devicetree fits into the arrays declared for it; after
    start-up, and after the identifiers have been put into the first record, a controller that
    asks for the first record and follows the handles, with any sizes of its requests, gets exactly
    the terminus locator and the records of the sensors and of their names, whole, in order, each
    once, with the checksum of each; nothing is accessed out of bounds. *)
Theorem pdr_repository_roundtrip (l : list pldm_pdr_numeric_sensor_desc) (tid eid : Z) (counts : nat -> nat -> Z) (m n : nat) :
  fits l -> (forall j k, 0 < counts j k) -> (PLDM_PDR_RECORD_COUNT l <= m)%nat -> PLDM_PDR_REPO_SIZE l <= Z.of_nat n ->
  exists p p' p'', pldm_pdr_provider_init (PLDM_PDR_PROVIDER_DEFINE l) = Some (0, p) /\
    pldm_pdr_update_tid_eid p tid eid = Some (0, p') /\
    walk m n counts 0 PLDM_PDR_RECORD_HANDLE p' =
      Some (map with_crc ((PLDM_PDR_RECORD_HANDLE, tl_bytes (with_tid terminus_locator tid eid)) ::
                          sensor_records PLDM_PDR_RECORD_HANDLE l), p'') /\
    transfer_active p'' = false.
Proof.
  intros Hf Hc Hm Hn. destruct (init_run l Hf) as (p & E1 & Hh & Hr & _ & _).
  destruct (update_run _ _ _ p tid eid Hh Hr eq_refl) as (p' & E2 & Hh' & Hr' & _ & _).
  set (recs := (PLDM_PDR_RECORD_HANDLE, tl_bytes (with_tid terminus_locator tid eid)) :: sensor_records PLDM_PDR_RECORD_HANDLE l) in *.
  pose proof sizes_ok as (Z1 & _ & _). pose proof (records_fit l 1) as Rf. pose proof (bytes_fit l 1) as Bf.
  destruct (walk_run recs counts n m 0 PLDM_PDR_RECORD_HANDLE (tl_bytes (with_tid terminus_locator tid eid)) 0 p' Hh' Hr')
    as (p'' & E3 & _ & _ & Ha); [apply with_handles; lia | done | by right | | done | |].
  - apply list.Forall_forall. intros [h bs] Hin. apply list_elem_of_lookup_1 in Hin as [i Hi].
    destruct (content_slice _ _ _ _ Hi) as [rest Ec]. apply (f_equal length) in Ec. rewrite !length_app in Ec. cbn [snd].
    assert (Ht : total recs <= PLDM_PDR_REPO_SIZE l).
    { unfold recs, PLDM_PDR_REPO_SIZE. rewrite total_cons, tl_bytes_length. unfold PLDM_PDR_RECORD_HANDLE. lia. }
    unfold total in Ht. lia.
  - unfold recs, PLDM_PDR_RECORD_COUNT in *. cbn [length]. unfold PLDM_PDR_RECORD_HANDLE. lia.
  - exists p, p', p''. by split_and!.
Qed.
(** C25. Any request for a record, whatever its bytes and whatever came before: the answer is exactly
    the part of the record that is asked for, of at most 48 bytes, or the completion code of its
    defect; parts are only continued where the transfer in progress stands; the repository and
    the consistency of the transfer are kept, and nothing is read out of bounds. *)
Theorem get_pdr_answers `{PldmCodec} (recs : list (Z * list Z)) (p : provider) (payload : list Z) :
  holds recs p -> is_ready p = true -> handles_ok recs -> recs <> [] -> tr_ok recs p ->
  (forall h dth op count change, decode_get_pdr_req payload = inr (h, dth, op, count, change) -> 0 <= count) ->
  exists a p', pldm_handle_get_pdr (Some p) payload = Some (a, Some p') /\ holds recs p' /\ tr_ok recs p' /\ is_ready p' = true /\
    get_pdr_spec recs p payload a p'.
Proof. apply get_pdr_run. Qed.
End theorems.
(** What a controller finds at the offsets that DSP0248 gives for a numeric sensor record. *)
Definition u16_field (r : list Z) (off : nat) : Z := le_value (take 2 (drop off r)).
Definition u32_field (r : list Z) (off : nat) : Z := le_value (take 4 (drop off r)).
Definition desc_ok s : Prop :=
  in_width 16 (sensor_id s) /\ in_width 16 (entity_type s) /\ in_width 16 (entity_instance s) /\ in_width 16 (container_id s) /\
  in_width 8 (base_unit s) /\ -128 <= unit_modifier s < 128.
Lemma le_value_1 v : le_value (le_bytes 1 v) = v mod 256.
Proof. by rewrite le_value_bytes. Qed.
Theorem numeric_record_fields `{LibPldm} (h : Z) s : in_width 32 h -> desc_ok s ->
  let r := numeric_record h s in
  length r = 105%nat /\ u32_field r 0 = h /\ u16_field r 12 = sensor_id s /\ u16_field r 14 = entity_type s /\
  u16_field r 16 = entity_instance s /\ u16_field r 18 = container_id s /\ nth 22 r 0 = base_unit s /\
  nth 23 r 0 = unit_modifier s mod 256 /\ u32_field r 59 = u32 INT32_MAX /\ u32_field r 63 = u32 INT32_MIN.
Proof.
  intros Hh (D1 & D2 & D3 & D4 & D5 & D6) r. unfold in_width in *. split; [reflexivity|].
  assert (F16 : forall v, 0 <= v < 2 ^ 16 -> le_value (le_bytes 2 v) = v) by (intros v Hv; by apply le_value_le_bytes).
  assert (F32' : forall v, 0 <= v < 2 ^ 32 -> le_value (le_bytes 4 v) = v) by (intros v Hv; by apply le_value_le_bytes).
  split_and!; [by apply F32' | by apply F16 | by apply F16 | by apply F16 | by apply F16 | | | reflexivity | reflexivity].
  - change (nth 22 r 0) with (base_unit s mod 256). by apply Z.mod_small.
  - change (nth 23 r 0) with (u8 (unit_modifier s) mod 256). unfold wrap. by rewrite Z.mod_mod.
Qed.

(** ** libpldm's numbers *)
Definition tl_image (t : pldm_terminus_locator) : list Z :=
  le_bytes 4 (tl_record_handle t) ++ [tl_version t; tl_type t] ++ le_bytes 2 (tl_change t) ++ le_bytes 2 (tl_length t) ++
  le_bytes 2 (tl_terminus_handle t) ++ [tl_validity t; tl_tid t] ++ le_bytes 2 (tl_container_id t) ++
  [tl_locator_type t; tl_value_size t; tl_value t].
Definition aux_image (a : pldm_sensor_aux_names) : list Z :=
  le_bytes 4 (an_record_handle a) ++ [an_version a; an_type a] ++ le_bytes 2 (an_change a) ++ le_bytes 2 (an_length a) ++
  le_bytes 2 (an_terminus_handle a) ++ le_bytes 2 (an_sensor_id a) ++ [an_sensor_count a].
Definition libpldm : LibPldm := {|
  PLDM_TERMINUS_LOCATOR_PDR := 1; PLDM_NUMERIC_SENSOR_PDR := 2; PLDM_SENSOR_AUXILIARY_NAMES_PDR := 6; PLDM_TL_PDR_VALID := 1;
  PLDM_TERMINUS_LOCATOR_TYPE_MCTP_EID := 1; PLDM_NO_INIT := 0; PLDM_RATE_UNIT_NONE := 0; PLDM_SENSOR_UNIT_NONE := 0;
  PLDM_SENSOR_DATA_SIZE_SINT32 := 5; PLDM_RANGE_FIELD_FORMAT_SINT32 := 5; PLDM_GET_FIRSTPART := 1; PLDM_GET_NEXTPART := 0;
  PLDM_START := 0; PLDM_MIDDLE := 1; PLDM_END := 4; PLDM_START_AND_END := 5; PLDM_PDR_NUMERIC_SENSOR_PDR_FIXED_LENGTH := 57;
  sizeof_pdr_hdr := 10; sizeof_tl := 19; sizeof_aux := 16; tl_bytes := tl_image; offsetof_type := 5; offsetof_tid := 13;
  offsetof_value := 18; aux_bytes := aux_image; pldm_edac_crc8 l := foldl Z.lxor 0 l |}.
Lemma libpldm_laws : @LibPldmLaws libpldm.
Proof.
  constructor; intros; try reflexivity; try (cbn; lia).
  cbn. repeat (apply list.NoDup_cons; split; [rewrite ?not_elem_of_cons, ?elem_of_nil; naive_solver lia|]). apply NoDup_nil_2.
Qed.
Definition codec : PldmCodec := {|
  PLDM_SUCCESS := 0; PLDM_ERROR := 1; PLDM_ERROR_INVALID_DATA := 2; PLDM_ERROR_INVALID_LENGTH := 3; PLDM_ERROR_NOT_READY := 4;
  PLDM_ERROR_UNSUPPORTED_PLDM_CMD := 5; PLDM_ERROR_INVALID_PLDM_TYPE := 32; PLDM_PLATFORM_INVALID_RECORD_CHANGE_NUMBER := 131;
  PLDM_PLATFORM_INVALID_TRANSFER_OPERATION_FLAG := 129; PLDM_PLATFORM_INVALID_RECORD_HANDLE := 130;
  PLDM_PLATFORM_INVALID_DATA_TRANSFER_HANDLE := 128; PLDM_PLATFORM_REARM_UNAVAILABLE_IN_PRESENT_STATE := 129;
  PLDM_PLATFORM_INVALID_SENSOR_ID := 128; PLDM_SENSOR_UNAVAILABLE := 1; PLDM_GET_PDR_REPOSITORY_INFO := 80; PLDM_GET_PDR := 81;
  PLDM_GET_SENSOR_READING := 17; sizeof_msg_hdr := 3; PLDM_GET_PDR_REPOSITORY_INFO_RESP_BYTES := 41;
  PLDM_GET_PDR_MIN_RESP_BYTES := 12; sizeof_sensor_reading_resp := 8;
  decode_get_pdr_req l := if (length l =? 13)%nat
    then inr (u32_field l 0, u32_field l 4, nth 8 l 0, u16_field l 9, u16_field l 11) else inl 3;
  decode_get_sensor_reading_req l := if (length l =? 3)%nat then inr (u16_field l 0, negb (nth 2 l 0 =? 0)) else inl 3;
  encodes _ := true |}.
(** Two sensors, the second with the name "VR". *)
Definition two_sensors : list pldm_pdr_numeric_sensor_desc :=
  [{| channel_type := 14; channel_index := 0; sensor_id := 1; entity_type := 135; entity_instance := 1; container_id := 0;
      base_unit := 2; unit_modifier := -1; aux_name := None |};
   {| channel_type := 45; channel_index := 1; sensor_id := 0x102; entity_type := 135; entity_instance := 2; container_id := 0;
      base_unit := 5; unit_modifier := 0; aux_name := Some [86; 82] |}].
Lemma pdr_repository_roundtrip_witness :
  let _ := libpldm in
  exists p p' p'', pldm_pdr_provider_init (PLDM_PDR_PROVIDER_DEFINE two_sensors) = Some (0, p) /\
    pldm_pdr_update_tid_eid p 9 20 = Some (0, p') /\
    walk 5 300 (λ _ k, Z.of_nat k + 7) 0 PLDM_PDR_RECORD_HANDLE p' =
      Some (map with_crc ((PLDM_PDR_RECORD_HANDLE, tl_bytes (with_tid terminus_locator 9 20)) ::
                          sensor_records PLDM_PDR_RECORD_HANDLE two_sensors), p'') /\
    transfer_active p'' = false.
Proof.
  intros lib. apply (@pdr_repository_roundtrip libpldm libpldm_laws two_sensors 9 20 (λ _ k, Z.of_nat k + 7) 5 300).
  - split; [repeat (apply Forall_cons_2; [cbn; lia|]); done | split; reflexivity].
  - intros j k. lia.
  - apply Nat.leb_le. reflexivity.
  - reflexivity || (apply Z.leb_le; reflexivity).
Defined.
Definition one_record : provider :=
  {| sensors := []; pdr_records := [{| handle := 7; offset := 0; length_ := 60 |}]; pdr_repo := map Z.of_nat (seq 0 60);
     pdr_record_count := 1; pdr_repo_size := 60; pdr_largest_record_size := 60; transfer_active := true; transfer_record_handle := 7;
     transfer_record_index := 0; transfer_next_data_handle := 48; is_ready := true |}.
Lemma get_pdr_answers_witness :
  let _ := libpldm in let _ := codec in let recs := [(7, map Z.of_nat (seq 0 60))] in
  let payload := [7; 0; 0; 0; 48; 0; 0; 0; 0; 100; 0; 0; 0] in
  exists a p', pldm_handle_get_pdr (Some one_record) payload = Some (a, Some p') /\ holds recs p' /\ tr_ok recs p' /\ is_ready p' = true /\
    get_pdr_spec recs one_record payload a p'.
Proof.
  intros lib cod recs payload. apply (@get_pdr_answers libpldm libpldm_laws codec recs one_record payload).
  - by constructor.
  - done.
  - split; [apply list.NoDup_singleton | by apply list.Forall_singleton].
  - done.
  - intros _. exists 0%nat, (map Z.of_nat (seq 0 60)), 48%nat. split_and!; [done | done | done | apply Nat.ltb_lt; reflexivity].
  - intros h dth op count change E. cbn in E. injection E as <- <- <- <- <-. lia.
Defined.
(** A reading of a large value in units of 1/10000: the product leaves [int64_t] before it is
    cut to the range of the reading. *)
Lemma to_s32_overflows : pldm_sensor_value_to_s32 INT32_MAX 0 (-4) = None.
Proof. reflexivity. Qed.
