(* ===== verification/PldmShell.v ===== *)
(** Shell commands over PLDM: the vendor's message type, [drivers/pmci/pldm/tt_pldm_oem.c].

    A request leaves a command in the context, from where a work queue takes it to the shell; other
    requests fetch the output in parts, or cancel. [mailbox] is what the user of it sees; the
    handlers and the work item refine it under every interleaving. *)
From stdpp Require Import prelude list numbers.
From Stdlib Require Import ZArith Lia.
From S2P Require Import Prelude Pldm.
Open Scope Z_scope.

Definition TT_PLDM_OEM_CMD_SHELL_EXEC : Z := 1.
Definition TT_PLDM_OEM_CMD_SHELL_GET_RESULT : Z := 2.
Definition TT_PLDM_OEM_CMD_SHELL_CANCEL : Z := 3.
Definition TT_PLDM_SHELL_MAX_CMD_LEN : Z := 96.
Definition TT_PLDM_SHELL_MAX_OUTPUT_LEN : Z := 256.
Definition TT_PLDM_SHELL_MAX_CHUNK_LEN : Z := 40.
Definition ECANCELED : Z := 140.

(** * Shell commands *)
Inductive tt_pldm_shell_state := IDLE | QUEUED | RUNNING | DONE | FAILED | CANCELED.
#[global] Instance shell_state_dec : EqDecision tt_pldm_shell_state.
Proof. solve_decision. Defined.
Definition state_code (st : tt_pldm_shell_state) : Z :=
  match st with IDLE => 0 | QUEUED => 1 | RUNNING => 2 | DONE => 3 | FAILED => 4 | CANCELED => 5 end.
Record tt_pldm_shell_context := {
  state : tt_pldm_shell_state; cancel_requested : bool; request_id : Z; cmd : list Z; cmd_len : Z; shell_rc : Z;
  output : list Z; output_len : Z }.
(** A work item of the kernel: whether it is queued, and where its handler is, if it runs: before it
    takes the lock, in the shell, or after it has let go of the lock for the last time. *)
Inductive stage := Entered | InShell | Leaving.
#[global] Instance stage_dec : EqDecision stage.
Proof. solve_decision. Defined.
Record k_work := { work_queued : bool; handler : option stage }.
Implicit Types (c : tt_pldm_shell_context) (k : k_work).
(** [k_work_submit_to_queue]: 0 if it is queued already, 1 if it is queued now, 2 if it runs and
    is queued again; negative if the queue does not take it ([err]). *)
Definition k_work_submit_to_queue (err : Z) k : Z * k_work :=
  if err <? 0 then (err, k)
  else if work_queued k then (0, k)
  else (if bool_decide (is_Some (handler k)) then 2 else 1, {| work_queued := true; handler := handler k |}).
(** [text]: a null pointer or the bytes there. *)
Definition tt_pldm_shell_store_result c (st : tt_pldm_shell_state) (rc : Z) (text : option (list Z)) (len : Z)
  : option tt_pldm_shell_context :=
  let n := Z.min len TT_PLDM_SHELL_MAX_OUTPUT_LEN in
  out ← (match text with
         | Some t => if 0 <? n then memcpy_at (output c) 0 (take (Z.to_nat n) t) else Some (output c)
         | None => Some (output c)
         end);
  Some {| state := st; cancel_requested := cancel_requested c; request_id := request_id c; cmd := cmd c; cmd_len := cmd_len c;
          shell_rc := rc; output := out; output_len := n |}.
Definition with_state c (st : tt_pldm_shell_state) : tt_pldm_shell_context :=
  {| state := st; cancel_requested := cancel_requested c; request_id := request_id c; cmd := cmd c; cmd_len := cmd_len c;
     shell_rc := shell_rc c; output := output c; output_len := output_len c |}.
Definition with_cancel c (b : bool) : tt_pldm_shell_context :=
  {| state := state c; cancel_requested := b; request_id := request_id c; cmd := cmd c; cmd_len := cmd_len c;
     shell_rc := shell_rc c; output := output c; output_len := output_len c |}.
(** A C string in an array. *)
Fixpoint c_string (l : list Z) : list Z := match l with [] => [] | x :: l => if x =? 0 then [] else x :: c_string l end.
(** [tt_pldm_shell_execute_work] up to the command it runs, if any; the rest is [finish_work]. *)
Definition begin_work c : option (tt_pldm_shell_context * option (list Z)) :=
  if negb (bool_decide (state c = QUEUED)) then Some (c, None)
  else if cancel_requested c then
    c ← tt_pldm_shell_store_result c CANCELED (- ECANCELED) None 0; Some (c, None)
  else if Z.of_nat (length (cmd c)) <? cmd_len c + 1 then None
  else Some (with_state c RUNNING, Some (c_string (take (Z.to_nat (cmd_len c + 1)) (cmd c)))).
(** "shell backend unavailable\n" *)
Definition unavailable : list Z :=
  [115; 104; 101; 108; 108; 32; 98; 97; 99; 107; 101; 110; 100; 32; 117; 110; 97; 118; 97; 105; 108; 97; 98; 108; 101; 10].
(** [result]: of the shell, and its output; [None] without a shell. *)
Definition finish_work c (result : option (Z * list Z)) : option tt_pldm_shell_context :=
  let '(rc, text) := match result with Some r => r | None => (- ENODEV, unavailable) end in
  let len := Z.of_nat (length text) in
  if cancel_requested c then tt_pldm_shell_store_result c CANCELED (- ECANCELED) None 0
  else if rc =? 0 then tt_pldm_shell_store_result c DONE rc (Some text) len
  else tt_pldm_shell_store_result c FAILED rc (Some text) len.
Definition sys_get_le16 (l : list Z) (off : nat) : Z := le_value (take 2 (drop off l)).

Section oem.
Context `{PldmCodec}.
(** The header of a response can be packed. *)
Definition tt_pldm_shell_encode_resp_header : Z := if encodes (Other []) then 0 else - EINVAL.
Definition shell_resp (payload : list Z) : answer := inr (Other payload, sizeof_msg_hdr + Z.of_nat (length payload)).
Definition tt_pldm_shell_handle_exec (err : Z) c k (payload : list Z) : option (answer * tt_pldm_shell_context * k_work) :=
  if Z.of_nat (length payload) <? 3 then Some (pldm_cc_only_response PLDM_ERROR_INVALID_LENGTH, c, k)
  else
    let id := sys_get_le16 payload 0 in
    let len := nth 2 payload 0 in
    if (len =? 0) || (TT_PLDM_SHELL_MAX_CMD_LEN <? len) || negb (Z.of_nat (length payload) =? 3 + len)
    then Some (pldm_cc_only_response PLDM_ERROR_INVALID_LENGTH, c, k)
    else if negb (tt_pldm_shell_encode_resp_header =? 0) then Some (inl tt_pldm_shell_encode_resp_header, c, k)
    else
      '(cc, c, k) ←
        (if bool_decide (state c = QUEUED) || bool_decide (state c = RUNNING) then Some (PLDM_ERROR_NOT_READY, c, k)
         else
           cmd ← memcpy_at (cmd c) 0 (drop 3 payload);
           cmd ← zset cmd len 0;
           let c := {| state := QUEUED; cancel_requested := false; request_id := id; cmd := cmd; cmd_len := len; shell_rc := 0;
                       output := output c; output_len := 0 |} in
           let '(ret, k) := k_work_submit_to_queue err k in
           if ret <=? 0 then Some (PLDM_ERROR, with_state c IDLE, k) else Some (PLDM_SUCCESS, c, k));
      Some (shell_resp ([cc] ++ le_bytes 2 id ++ [state_code (state c)]), c, k).
Definition tt_pldm_shell_handle_get_result c (payload : list Z) : option answer :=
  if negb (Z.of_nat (length payload) =? 5) then Some (pldm_cc_only_response PLDM_ERROR_INVALID_LENGTH)
  else
    let id := sys_get_le16 payload 0 in
    let offset := sys_get_le16 payload 2 in
    let max_len := nth 4 payload 0 in
    if negb (tt_pldm_shell_encode_resp_header =? 0) then Some (inl tt_pldm_shell_encode_resp_header)
    else if bool_decide (state c = IDLE) || negb (request_id c =? id) then Some (pldm_cc_only_response PLDM_ERROR_INVALID_DATA)
    else
      let total_len := u16 (Z.min (output_len c) UINT16_MAX) in
      if total_len <? offset then Some (pldm_cc_only_response PLDM_ERROR_INVALID_DATA)
      else
        let '(chunk_len, more) :=
          if bool_decide (state c = DONE) || bool_decide (state c = FAILED) then
            let allowed := if negb (max_len =? 0) then Z.min TT_PLDM_SHELL_MAX_CHUNK_LEN max_len else TT_PLDM_SHELL_MAX_CHUNK_LEN in
            let chunk_len := u8 (Z.min (total_len - offset) allowed) in
            (chunk_len, if offset + chunk_len <? total_len then 1 else 0)
          else if bool_decide (state c = QUEUED) || bool_decide (state c = RUNNING) then (0, 1)
          else (0, 0) in
        if Z.of_nat (length (output c)) <? offset + chunk_len then None
        else
          Some (shell_resp ([PLDM_SUCCESS] ++ le_bytes 2 id ++ [state_code (state c)] ++ le_bytes 4 (u32 (shell_rc c)) ++
                            le_bytes 2 total_len ++ le_bytes 2 offset ++ [chunk_len] ++
                            take (Z.to_nat chunk_len) (drop (Z.to_nat offset) (output c)) ++ [more])).
Definition tt_pldm_shell_handle_cancel c (payload : list Z) : option (answer * tt_pldm_shell_context) :=
  if negb (Z.of_nat (length payload) =? 2) then Some (pldm_cc_only_response PLDM_ERROR_INVALID_LENGTH, c)
  else
    let id := sys_get_le16 payload 0 in
    if negb (tt_pldm_shell_encode_resp_header =? 0) then Some (inl tt_pldm_shell_encode_resp_header, c)
    else if bool_decide (state c = IDLE) || negb (request_id c =? id) then Some (pldm_cc_only_response PLDM_ERROR_INVALID_DATA, c)
    else
      '(cc, c) ←
        (if bool_decide (state c = QUEUED) then
           c ← tt_pldm_shell_store_result (with_cancel c true) CANCELED (- ECANCELED) None 0; Some (PLDM_SUCCESS, c)
         else if bool_decide (state c = RUNNING) then Some (PLDM_ERROR_NOT_READY, with_cancel c true)
         else Some (PLDM_SUCCESS, c));
      Some (shell_resp ([cc] ++ le_bytes 2 id ++ [state_code (state c)]), c).
Definition tt_pldm_shell_build_response (err : Z) c k (command : Z) (payload : list Z)
  : option (answer * tt_pldm_shell_context * k_work) :=
  if command =? TT_PLDM_OEM_CMD_SHELL_EXEC then tt_pldm_shell_handle_exec err c k payload
  else if command =? TT_PLDM_OEM_CMD_SHELL_GET_RESULT then a ← tt_pldm_shell_handle_get_result c payload; Some (a, c, k)
  else if command =? TT_PLDM_OEM_CMD_SHELL_CANCEL then '(a, c) ← tt_pldm_shell_handle_cancel c payload; Some (a, c, k)
  else Some (pldm_cc_only_response PLDM_ERROR_UNSUPPORTED_PLDM_CMD, c, k).
End oem.
Definition tt_pldm_shell_driver_init : tt_pldm_shell_context :=
  {| state := IDLE; cancel_requested := false; request_id := 0; cmd := replicate 97 0; cmd_len := 0; shell_rc := 0;
     output := replicate 256 0; output_len := 0 |}.

(** ** The mailbox and its work queue *)
(** A request; the work queue takes the item; its handler starts, ends with the shell's result, returns. *)
Inductive sev := Req (err command : Z) (payload : list Z) | Take | Begin | End (result : option (Z * list Z)) | Return.
(** [ran]: the commands given to the shell. *)
Record ssys := { ctx : tt_pldm_shell_context; work : k_work; ran : list (list Z) }.
Definition at_stage k (g : option stage) : k_work := {| work_queued := work_queued k; handler := g |}.
(** What the work queue does with the item; an event that cannot happen leaves it as it is. *)
Definition take_item k : k_work :=
  if work_queued k && negb (bool_decide (is_Some (handler k))) then {| work_queued := false; handler := Some Entered |} else k.
Definition return_item k : k_work := if bool_decide (handler k = Some Leaving) then at_stage k None else k.
Section shell_system.
Context `{PldmCodec}.
Definition sstep (s : ssys) (e : sev) : option (option answer * ssys) :=
  match e with
  | Req err command payload =>
      '(a, c, k) ← tt_pldm_shell_build_response err (ctx s) (work s) command payload;
      Some (Some a, {| ctx := c; work := k; ran := ran s |})
  | Take => Some (None, {| ctx := ctx s; work := take_item (work s); ran := ran s |})
  | Begin =>
      if bool_decide (handler (work s) = Some Entered) then
        '(c, run) ← begin_work (ctx s);
        Some (None, match run with
                    | Some t => {| ctx := c; work := at_stage (work s) (Some InShell); ran := ran s ++ [t] |}
                    | None => {| ctx := c; work := at_stage (work s) (Some Leaving); ran := ran s |}
                    end)
      else Some (None, s)
  | End result =>
      if bool_decide (handler (work s) = Some InShell) then
        c ← finish_work (ctx s) result;
        Some (None, {| ctx := c; work := at_stage (work s) (Some Leaving); ran := ran s |})
      else Some (None, s)
  | Return => Some (None, {| ctx := ctx s; work := return_item (work s); ran := ran s |})
  end.
Fixpoint srun (s : ssys) (es : list sev) : option (list (option answer) * ssys) :=
  match es with
  | [] => Some ([], s)
  | e :: es => '(a, s) ← sstep s e; '(l, s) ← srun s es; Some (a :: l, s)
  end.
End shell_system.
Definition shell_start : ssys := {| ctx := tt_pldm_shell_driver_init; work := {| work_queued := false; handler := None |}; ran := [] |}.

(** * The mailbox as its user sees it *)
Inductive phase := Waiting | Executing (cancelled : bool) | Finished (rc : Z) (out : list Z) | Cancelled.
(** A job: identifier, command, phase. [item]: the work item, which may outlive a job that was
    cancelled. [done_]: the commands that were run. *)
Record mailbox := { job : option (Z * list Z * phase); item : k_work; done_ : list (list Z) }.
Implicit Types (b : mailbox).
Definition phase_code (ph : phase) : Z :=
  match ph with
  | Waiting => 1 | Executing _ => 2 | Finished rc _ => if rc =? 0 then 3 else 4 | Cancelled => 5
  end.
Definition job_code (j : option (Z * list Z * phase)) : Z := match j with None => 0 | Some (_, _, ph) => phase_code ph end.
Definition busy (j : option (Z * list Z * phase)) : bool :=
  match j with Some (_, _, Waiting) | Some (_, _, Executing _) => true | _ => false end.
Definition phase_out (ph : phase) : list Z := match ph with Finished _ out => out | _ => [] end.
Definition phase_rc (ph : phase) : Z := match ph with Finished rc _ => rc | Cancelled => - ECANCELED | _ => 0 end.
(** A part of the output: at most 40 bytes, at most [max_len] unless that is 0. *)
Definition chunk_at (out : list Z) (off max_len : Z) : list Z :=
  take (Z.to_nat (if max_len =? 0 then TT_PLDM_SHELL_MAX_CHUNK_LEN else Z.min TT_PLDM_SHELL_MAX_CHUNK_LEN max_len)) (drop (Z.to_nat off) out).
Section abstract.
Context `{PldmCodec}.
Definition header_ok : bool := encodes (Other []).
Definition short_resp (cc id : Z) (j : option (Z * list Z * phase)) : answer := shell_resp ([cc] ++ le_bytes 2 id ++ [job_code j]).
Definition exec_spec (err : Z) b (payload : list Z) : answer * mailbox :=
  let id := sys_get_le16 payload 0 in
  let len := nth 2 payload 0 in
  if (Z.of_nat (length payload) <? 3) || (len =? 0) || (TT_PLDM_SHELL_MAX_CMD_LEN <? len) || negb (Z.of_nat (length payload) =? 3 + len)
  then (pldm_cc_only_response PLDM_ERROR_INVALID_LENGTH, b)
  else if negb header_ok then (inl (- EINVAL), b)
  else if busy (job b) then (short_resp PLDM_ERROR_NOT_READY id (job b), b)
  else if (err <? 0) || work_queued (item b) then (short_resp PLDM_ERROR id None, {| job := None; item := item b; done_ := done_ b |})
  else
    let j := Some (id, drop 3 payload, Waiting) in
    (short_resp PLDM_SUCCESS id j, {| job := j; item := {| work_queued := true; handler := handler (item b) |}; done_ := done_ b |}).
Definition result_spec b (payload : list Z) : answer :=
  let id := sys_get_le16 payload 0 in
  let off := sys_get_le16 payload 2 in
  if negb (Z.of_nat (length payload) =? 5) then pldm_cc_only_response PLDM_ERROR_INVALID_LENGTH
  else if negb header_ok then inl (- EINVAL)
  else match job b with
       | Some (id', _, ph) =>
           let out := phase_out ph in
           if negb (id' =? id) || (Z.of_nat (length out) <? off) then pldm_cc_only_response PLDM_ERROR_INVALID_DATA
           else
             let chunk := chunk_at out off (nth 4 payload 0) in
             let more := if busy (job b) then 1 else if off + Z.of_nat (length chunk) <? Z.of_nat (length out) then 1 else 0 in
             shell_resp ([PLDM_SUCCESS] ++ le_bytes 2 id ++ [phase_code ph] ++ le_bytes 4 (u32 (phase_rc ph)) ++
                         le_bytes 2 (Z.of_nat (length out)) ++ le_bytes 2 off ++ [Z.of_nat (length chunk)] ++ chunk ++ [more])
       | None => pldm_cc_only_response PLDM_ERROR_INVALID_DATA
       end.
Definition cancel_spec b (payload : list Z) : answer * mailbox :=
  let id := sys_get_le16 payload 0 in
  if negb (Z.of_nat (length payload) =? 2) then (pldm_cc_only_response PLDM_ERROR_INVALID_LENGTH, b)
  else if negb header_ok then (inl (- EINVAL), b)
  else match job b with
       | Some (id', t, ph) =>
           if negb (id' =? id) then (pldm_cc_only_response PLDM_ERROR_INVALID_DATA, b)
           else match ph with
                | Waiting => let j := Some (id', t, Cancelled) in
                    (short_resp PLDM_SUCCESS id j, {| job := j; item := item b; done_ := done_ b |})
                | Executing _ => let j := Some (id', t, Executing true) in
                    (short_resp PLDM_ERROR_NOT_READY id j, {| job := j; item := item b; done_ := done_ b |})
                | _ => (short_resp PLDM_SUCCESS id (job b), b)
                end
       | None => (pldm_cc_only_response PLDM_ERROR_INVALID_DATA, b)
       end.
Definition shell_output (result : option (Z * list Z)) : Z * list Z := match result with Some r => r | None => (- ENODEV, unavailable) end.
Definition bstep b (e : sev) : option answer * mailbox :=
  match e with
  | Req err command payload =>
      if command =? TT_PLDM_OEM_CMD_SHELL_EXEC then let '(a, b) := exec_spec err b payload in (Some a, b)
      else if command =? TT_PLDM_OEM_CMD_SHELL_GET_RESULT then (Some (result_spec b payload), b)
      else if command =? TT_PLDM_OEM_CMD_SHELL_CANCEL then let '(a, b) := cancel_spec b payload in (Some a, b)
      else (Some (pldm_cc_only_response PLDM_ERROR_UNSUPPORTED_PLDM_CMD), b)
  | Take => (None, {| job := job b; item := take_item (item b); done_ := done_ b |})
  | Begin =>
      (None, if bool_decide (handler (item b) = Some Entered) then
               match job b with
               | Some (id, t, Waiting) =>
                   {| job := Some (id, t, Executing false); item := at_stage (item b) (Some InShell); done_ := done_ b ++ [c_string t] |}
               | _ => {| job := job b; item := at_stage (item b) (Some Leaving); done_ := done_ b |}
               end
             else b)
  | End result =>
      (None, match job b with
             | Some (id, t, Executing x) =>
                 let '(rc, text) := shell_output result in
                 {| job := Some (id, t, if x then Cancelled else Finished rc (take (Z.to_nat TT_PLDM_SHELL_MAX_OUTPUT_LEN) text));
                    item := at_stage (item b) (Some Leaving); done_ := done_ b |}
             | _ => b
             end)
  | Return => (None, {| job := job b; item := return_item (item b); done_ := done_ b |})
  end.
Fixpoint brun b (es : list sev) : list (option answer) * mailbox :=
  match es with
  | [] => ([], b)
  | e :: es => let '(a, b) := bstep b e in let '(l, b) := brun b es in (a :: l, b)
  end.
End abstract.
(** ** How the context shows it *)
Definition shows c (j : option (Z * list Z * phase)) : Prop :=
  match j with
  | None => state c = IDLE
  | Some (id, t, ph) =>
      request_id c = id /\
      match ph with
      | Waiting => state c = QUEUED /\ cancel_requested c = false /\ cmd_len c = Z.of_nat (length t) /\ (length t <= 96)%nat /\
          take (length t + 1) (cmd c) = t ++ [0] /\ output_len c = 0 /\ shell_rc c = 0
      | Executing x => state c = RUNNING /\ cancel_requested c = x /\ output_len c = 0 /\ shell_rc c = 0
      | Finished rc out => state c = (if rc =? 0 then DONE else FAILED) /\ shell_rc c = rc /\ output_len c = Z.of_nat (length out) /\
          (length out <= 256)%nat /\ take (length out) (output c) = out
      | Cancelled => state c = CANCELED /\ shell_rc c = - ECANCELED /\ output_len c = 0
      end
  end.
Definition waiting (j : option (Z * list Z * phase)) : bool := match j with Some (_, _, Waiting) => true | _ => false end.
Definition executing (j : option (Z * list Z * phase)) : bool := match j with Some (_, _, Executing _) => true | _ => false end.
(** The arrays keep their sizes; a job in the shell is the one whose handler runs, and a job that waits
    has an item, queued or entered, that will see it. *)
Record refines (s : ssys) b : Prop := {
  r_cmd : length (cmd (ctx s)) = 97%nat; r_out : length (output (ctx s)) = 256%nat; r_shows : shows (ctx s) (job b);
  r_item : work s = item b; r_running : executing (job b) = bool_decide (handler (item b) = Some InShell);
  r_waiting : waiting (job b) = true -> work_queued (item b) = true \/ handler (item b) = Some Entered; r_ran : ran s = done_ b }.
Lemma shows_code c j : shows c j -> state_code (state c) = job_code j.
Proof. destruct j as [[[id t] ph]|]; cbn; [|by intros ->]. destruct ph; intros (_ & -> & _); try done. cbn. by destruct (rc =? 0). Qed.
Lemma shows_busy c j : shows c j -> bool_decide (state c = QUEUED) || bool_decide (state c = RUNNING) = busy j.
Proof. destruct j as [[[id t] ph]|]; cbn; [|by intros ->]. destruct ph; intros (_ & -> & _); try done. cbn. by destruct (rc =? 0). Qed.
Lemma shows_idle c j : shows c j -> bool_decide (state c = IDLE) = match j with None => true | _ => false end.
Proof. destruct j as [[[id t] ph]|]; cbn; [|by intros ->]. destruct ph; intros (_ & -> & _); try done. cbn. by destruct (rc =? 0). Qed.
Lemma shows_length c id t ph : shows c (Some (id, t, ph)) -> output_len c = Z.of_nat (length (phase_out ph)) /\
  (length (phase_out ph) <= 256)%nat /\ take (length (phase_out ph)) (output c) = phase_out ph /\ shell_rc c = phase_rc ph /\ request_id c = id.
Proof. cbn. destruct ph; cbn; intros H; destruct_and!; split_and!; try done; try lia. Qed.
Section simulation.
Context `{PldmCodec}.
Lemma header_rc : negb (tt_pldm_shell_encode_resp_header =? 0) = negb header_ok /\ (header_ok = false -> tt_pldm_shell_encode_resp_header = - EINVAL).
Proof. unfold tt_pldm_shell_encode_resp_header, header_ok. by destruct (encodes (Other [])). Qed.
Lemma c_string_zero t : c_string (t ++ [0]) = c_string t.
Proof. induction t as [|x t IH]; [done|]. cbn. by rewrite IH. Qed.
Lemma get_le16_range payload off : Forall is_byte payload -> 0 <= sys_get_le16 payload off < 2 ^ 16.
Proof.
  intros Hp. unfold sys_get_le16. assert (Hf : Forall is_byte (take 2 (drop off payload))) by (by apply Forall_take, Forall_drop).
  pose proof (le_value_range _ Hf) as Hr. assert (length (take 2 (drop off payload)) <= 2)%nat by (rewrite length_take; lia).
  assert (2 ^ (8 * Z.of_nat (length (take 2 (drop off payload)))) <= 2 ^ 16) by (apply Z.pow_le_mono_r; lia). lia.
Qed.
Lemma nth_byte payload i : Forall is_byte payload -> 0 <= nth i payload 0 < 256.
Proof.
  intros Hp. destruct (Nat.lt_ge_cases i (length payload)) as [Hl|Hl].
  - destruct (lookup_lt_is_Some_2 _ _ Hl) as [v Hv]. rewrite (nth_lookup_Some _ _ _ _ Hv). by apply (list.Forall_lookup_1 _ _ _ _ Hp Hv).
  - rewrite nth_overflow by done. lia.
Qed.
(** Storing a command. *)
Lemma store_cmd (old t : list Z) : length old = 97%nat -> (length t <= 96)%nat ->
  exists new, (l ← memcpy_at old 0 t; zset l (Z.of_nat (length t)) 0) = Some new /\ length new = 97%nat /\
    take (length t + 1) new = t ++ [0].
Proof.
  intros Ho Ht. unfold memcpy_at. rewrite (proj2 (Z.leb_le _ _)), (proj2 (Z.leb_le _ _)) by lia. cbn [andb mbind option_bind].
  change (Z.to_nat 0) with 0%nat. rewrite take_0, app_nil_l, Nat.add_0_l.
  assert (Hl : length (t ++ drop (length t) old) = 97%nat) by (rewrite length_app, length_drop; lia).
  unfold zset. rewrite (proj2 (Z.leb_le _ _)), (proj2 (Z.ltb_lt _ _)) by lia. cbn [andb]. eexists. split; [done|].
  rewrite length_insert, Nat2Z.id. split; [done|]. rewrite Nat.add_1_r, (take_S_r _ _ 0) by (apply list_lookup_insert_eq; lia).
  rewrite take_insert_ge by lia. by rewrite take_app_length.
Qed.
Lemma exec_sim err s b payload : refines s b -> Forall is_byte payload ->
  exists c k, tt_pldm_shell_handle_exec err (ctx s) (work s) payload = Some (fst (exec_spec err b payload), c, k) /\
    refines {| ctx := c; work := k; ran := ran s |} (snd (exec_spec err b payload)).
Proof.
  intros Hr Hp. pose proof Hr as [Rc Ro Rs Ri Rr Rw Rd]. unfold tt_pldm_shell_handle_exec, exec_spec.
  assert (Hsame : refines {| ctx := ctx s; work := work s; ran := ran s |} b) by (by destruct s).
  destruct (Z.of_nat (length payload) <? 3) eqn:E3; cbn [orb]; [by eexists _, _|].
  pose proof (nth_byte payload 2 Hp) as Hlen. set (len := nth 2 payload 0) in *. set (id := sys_get_le16 payload 0).
  destruct ((len =? 0) || (TT_PLDM_SHELL_MAX_CMD_LEN <? len) || negb (Z.of_nat (length payload) =? 3 + len)) eqn:El; [by eexists _, _|].
  destruct header_rc as [-> Hh]. destruct header_ok; cbn [negb]; [|rewrite Hh by done; by eexists _, _].
  unfold TT_PLDM_SHELL_MAX_CMD_LEN in El. zb.
  rewrite (shows_busy _ _ Rs). destruct (busy (job b)) eqn:Eb.
  { cbn [mbind option_bind]. eexists _, _. split; [|exact Hsame]. unfold short_resp. by rewrite (shows_code _ _ Rs). }
  assert (Lt : Z.of_nat (length (drop 3 payload)) = len) by (rewrite length_drop; lia).
  destruct (store_cmd (cmd (ctx s)) (drop 3 payload) Rc ltac:(lia)) as (new & En & Ln & Tn). rewrite Lt in En.
  destruct (memcpy_at (cmd (ctx s)) 0 (drop 3 payload)) as [l1|]; [|done]. cbn [mbind option_bind] in En |- *. rewrite En. cbn [mbind option_bind].
  rewrite Ri. unfold k_work_submit_to_queue.
  assert (Ee : executing (job b) = false) by (by destruct (job b) as [[[? ?] []]|]). rewrite Ee in Rr.
  destruct (err <? 0) eqn:Ee0; cbn [orb].
  - rewrite (proj2 (Z.leb_le _ _)) by zlia. cbn [mbind option_bind]. eexists _, _. split; [reflexivity|]. by constructor.
  - destruct (work_queued (item b)) eqn:Eq.
    + change (0 <=? 0) with true. cbn [mbind option_bind]. eexists _, _. split; [reflexivity|]. by constructor.
    + rewrite (proj2 (Z.leb_gt _ _)) by (destruct (bool_decide (is_Some (handler (item b)))); lia). cbn [mbind option_bind]. eexists _, _. split; [reflexivity|].
      constructor; try done; [|by left]. cbn. rewrite Lt. split_and!; try done. lia.
Qed.
Lemma u16_small v : 0 <= v < 2 ^ 16 -> u16 v = v.
Proof. intros Hv. by apply wrap_id. Qed.
Lemma chunk_prefix (out : list Z) off max_len :
  take (length (chunk_at out off max_len)) (drop (Z.to_nat off) out) = chunk_at out off max_len.
Proof.
  unfold chunk_at. set (n := Z.to_nat (if max_len =? 0 then _ else _)). set (d := drop _ out). rewrite length_take.
  destruct (Nat.le_ge_cases n (length d)); [by rewrite Nat.min_l by lia|]. rewrite Nat.min_r by lia. by rewrite !take_ge by lia.
Qed.
Lemma part_shape c id t ph off max_len allowed :
  shows c (Some (id, t, ph)) -> Z.of_nat (length (chunk_at (phase_out ph) off max_len)) = Z.min (Z.of_nat (length (phase_out ph)) - off) allowed ->
  0 < allowed <= 40 -> 0 <= off <= Z.of_nat (length (phase_out ph)) ->
  (if bool_decide (state c = DONE) || bool_decide (state c = FAILED) then
     (u8 (Z.min (Z.of_nat (length (phase_out ph)) - off) allowed),
      if off + u8 (Z.min (Z.of_nat (length (phase_out ph)) - off) allowed) <? Z.of_nat (length (phase_out ph)) then 1 else 0)
   else if bool_decide (state c = QUEUED) || bool_decide (state c = RUNNING) then (0, 1) else (0, 0)) =
  (let chunk := chunk_at (phase_out ph) off max_len in
   (Z.of_nat (length chunk), if busy (Some (id, t, ph)) then 1 else if off + Z.of_nat (length chunk) <? Z.of_nat (length (phase_out ph)) then 1 else 0)).
Proof.
  intros Rs Hchunk Ha Hle. assert (Hu : u8 (Z.min (Z.of_nat (length (phase_out ph)) - off) allowed) =
    Z.of_nat (length (chunk_at (phase_out ph) off max_len))) by (rewrite Hchunk; apply wrap_id; unfold in_width; lia).
  rewrite Hu. clear Hu. destruct ph as [|x|rc out|]; destruct Rs as (_ & -> & _); cbn [phase_out] in *; cbn zeta.
  3: by destruct (rc =? 0).
  all: unfold chunk_at; rewrite drop_nil, take_nil; try done. cbn [busy length]. by rewrite (proj2 (Z.ltb_ge _ _)) by (cbn; lia).
Qed.
Lemma result_sim s b payload : refines s b -> Forall is_byte payload ->
  tt_pldm_shell_handle_get_result (ctx s) payload = Some (result_spec b payload).
Proof.
  intros [Rc Ro Rs Ri Rr Rw Rd] Hp. unfold tt_pldm_shell_handle_get_result, result_spec.
  destruct (Z.of_nat (length payload) =? 5); cbn [negb]; [|done].
  destruct header_rc as [-> Hh]. destruct header_ok; cbn [negb]; [|by rewrite Hh].
  rewrite (shows_idle _ _ Rs). pose proof (shows_code _ _ Rs) as Hc. pose proof (shows_busy _ _ Rs) as Hb.
  destruct (job b) as [[[id t] ph]|]; cbn [orb]; [|done].
  destruct (shows_length _ _ _ _ Rs) as (L1 & L2 & L3 & L4 & L5). rewrite L5.
  set (out := phase_out ph) in *. pose proof (get_le16_range payload 2 Hp) as Hoff. set (off := sys_get_le16 payload 2) in *.
  destruct (Z.eqb_spec id (sys_get_le16 payload 0)) as [Hid|]; cbn [negb orb]; [|done].
  rewrite L1. rewrite Z.min_l by (unfold UINT16_MAX; lia). rewrite u16_small by lia.
  destruct (Z.ltb_spec (Z.of_nat (length out)) off) as [|Hle]; [done|].
  pose proof (nth_byte payload 4 Hp) as Hm. set (max_len := nth 4 payload 0) in *.
  set (allowed := if negb (max_len =? 0) then Z.min TT_PLDM_SHELL_MAX_CHUNK_LEN max_len else TT_PLDM_SHELL_MAX_CHUNK_LEN).
  assert (Ha : 0 < allowed <= 40) by (unfold allowed, TT_PLDM_SHELL_MAX_CHUNK_LEN; destruct (Z.eqb_spec max_len 0); cbn [negb]; lia).
  assert (Hchunk : Z.of_nat (length (chunk_at out off max_len)) = Z.min (Z.of_nat (length out) - off) allowed).
  { unfold chunk_at. rewrite length_take, length_drop. unfold allowed in *. destruct (max_len =? 0); cbn [negb] in *; lia. }
  assert (Hdata : take (length (chunk_at out off max_len)) (drop (Z.to_nat off) (output (ctx s))) = chunk_at out off max_len).
  { rewrite <- (take_drop (length out) (output (ctx s))), L3. rewrite drop_app_le by lia.
    rewrite take_app_le by (unfold chunk_at; rewrite length_take; lia). apply chunk_prefix. }
  pose proof (part_shape (ctx s) id t ph off max_len allowed Rs Hchunk Ha (conj (proj1 Hoff) Hle)) as Hs.
  fold out in Hs. cbn zeta in Hs. rewrite Hs. clear Hs.
  rewrite (proj2 (Z.ltb_ge _ _)) by lia. rewrite Nat2Z.id, Hdata, Hc, L4, <- Hid. reflexivity.
Qed.
Lemma cancel_sim s b payload : refines s b -> exists c,
  tt_pldm_shell_handle_cancel (ctx s) payload = Some (fst (cancel_spec b payload), c) /\
  refines {| ctx := c; work := work s; ran := ran s |} (snd (cancel_spec b payload)).
Proof.
  intros Hr. pose proof Hr as [Rc Ro Rs Ri Rr Rw Rd]. unfold tt_pldm_shell_handle_cancel, cancel_spec.
  assert (Hsame : refines {| ctx := ctx s; work := work s; ran := ran s |} b) by (by destruct s).
  destruct (Z.of_nat (length payload) =? 2); cbn [negb]; [|by eexists].
  destruct header_rc as [-> Hh]. destruct header_ok; cbn [negb]; [|rewrite Hh by done; by eexists].
  rewrite (shows_idle _ _ Rs). destruct (job b) as [[[id t] ph]|] eqn:Ej; cbn [orb]; [|by eexists].
  destruct (shows_length _ _ _ _ Rs) as (_ & _ & _ & _ & ->).
  destruct (Z.eqb_spec id (sys_get_le16 payload 0)) as [Hid|]; cbn [negb]; [|by eexists].
  pose proof (shows_code _ _ Rs) as Hc. unfold short_resp.
  destruct ph as [|x|rc out|]; destruct Rs as (Hi & Hs & Hrest); rewrite ?Hs.
  - cbn. eexists. split; [reflexivity|]. by constructor.
  - change (bool_decide (RUNNING = QUEUED)) with false. change (bool_decide (RUNNING = RUNNING)) with true. cbn [mbind option_bind].
    eexists. split; [cbn [state with_cancel]; by rewrite Hs|]. destruct Hrest as (_ & ? & ?). by constructor.
  - assert (E : forall st, st = (if rc =? 0 then DONE else FAILED) -> bool_decide (st = QUEUED) = false /\ bool_decide (st = RUNNING) = false)
      by (intros ? ->; by destruct (rc =? 0)). destruct (E _ eq_refl) as [-> ->]. cbn [mbind option_bind]. eexists. split; [by rewrite Hc|done].
  - change (bool_decide (CANCELED = QUEUED)) with false. change (bool_decide (CANCELED = RUNNING)) with false. cbn [mbind option_bind].
    eexists. split; [by rewrite Hs|]. exact Hsame.
Qed.
(** Storing the output of the shell. *)
Lemma store_output c st rc text : length (output c) = 256%nat ->
  exists c', tt_pldm_shell_store_result c st rc (Some text) (Z.of_nat (length text)) = Some c' /\ state c' = st /\ shell_rc c' = rc /\
    request_id c' = request_id c /\ cmd c' = cmd c /\ length (output c') = 256%nat /\ output_len c' = Z.of_nat (length (take 256 text)) /\
    take (length (take 256 text)) (output c') = take 256 text.
Proof.
  intros Ho. unfold tt_pldm_shell_store_result, TT_PLDM_SHELL_MAX_OUTPUT_LEN.
  assert (Hm : Z.min (Z.of_nat (length text)) 256 = Z.of_nat (length (take 256 text))) by (rewrite length_take; lia).
  rewrite Hm, Nat2Z.id. assert (Ht : take (length (take 256 text)) text = take 256 text).
  { rewrite length_take. destruct (Nat.le_ge_cases 256 (length text)); [by rewrite Nat.min_l by lia|].
    rewrite Nat.min_r by lia. by rewrite !take_ge by lia. }
  rewrite Ht. assert (Hl : (length (take 256 text) <= 256)%nat) by (rewrite length_take; lia).
  destruct (Z.ltb_spec 0 (Z.of_nat (length (take 256 text)))) as [Hpos|Hz].
  - unfold memcpy_at. rewrite (proj2 (Z.leb_le _ _)), (proj2 (Z.leb_le _ _)) by lia. cbn [andb mbind option_bind].
    eexists. split; [reflexivity|]. cbn [state shell_rc request_id cmd output output_len]. change (Z.to_nat 0) with 0%nat.
    rewrite take_0, app_nil_l, Nat.add_0_l. split_and!; try done; [rewrite length_app, length_drop; lia|]. by rewrite take_app_length.
  - cbn [mbind option_bind]. eexists. split; [reflexivity|]. cbn [state shell_rc request_id cmd output output_len].
    assert (E : take 256 text = []) by (apply nil_length_inv; lia). rewrite E. by split_and!.
Qed.
Lemma begin_sim s b : refines s b -> exists s', sstep s Begin = Some (None, s') /\ refines s' (snd (bstep b Begin)).
Proof.
  intros Hr. pose proof Hr as [Rc Ro Rs Ri Rr Rw Rd]. cbn [sstep bstep snd]. rewrite Ri.
  destruct (bool_decide (handler (item b) = Some Entered)) eqn:Eh; [|by exists s]. apply bool_decide_eq_true in Eh. rewrite Eh in Rr.
  unfold begin_work. destruct (job b) as [[[id t] ph]|] eqn:Ej.
  2: { cbn in Rs. rewrite Rs. cbn [bool_decide negb]. eexists. split; [reflexivity|]. constructor; cbn; try done; by rewrite Ri. }
  destruct ph as [|x|rc out|]; [|done| |].
  - destruct Rs as (Hi & Hs & Hcr & Hl & Hle & Ht & Hol & Hrc). rewrite Hs, Hcr, Hl.
    replace (Z.of_nat (length (cmd (ctx s))) <? Z.of_nat (length t) + 1) with false by (symmetry; apply Z.ltb_ge; lia).
    replace (Z.to_nat (Z.of_nat (length t) + 1)) with (length t + 1)%nat by lia. rewrite Ht, c_string_zero.
    eexists. split; [reflexivity|]. constructor; cbn; try done; by rewrite ?Ri, ?Rd.
  - assert (Hnq : bool_decide (state (ctx s) = QUEUED) = false) by (destruct Rs as (_ & -> & _); by destruct (rc =? 0)).
    rewrite Hnq. cbn [negb mbind option_bind]. eexists. split; [reflexivity|]. constructor; cbn; try done; by rewrite ?Ri.
  - pose proof Rs as (_ & Hs & _). rewrite Hs. eexists. split; [reflexivity|]. constructor; cbn; try done; by rewrite ?Ri.
Qed.
Lemma end_sim result s b : refines s b -> exists s', sstep s (End result) = Some (None, s') /\ refines s' (snd (bstep b (End result))).
Proof.
  intros Hr. pose proof Hr as [Rc Ro Rs Ri Rr Rw Rd]. cbn [sstep bstep snd]. rewrite Ri, <- Rr.
  destruct (job b) as [[[id t] ph]|] eqn:Ej; [|by exists s]. destruct ph as [|x|rc out|]; try by exists s. cbn [executing].
  unfold finish_work. fold (shell_output result). destruct (shell_output result) as [rc text]. destruct Rs as (Hi & Hs & Hx & _). rewrite Hx.
  destruct x.
  - cbn. eexists. split; [reflexivity|]. constructor; cbn; try done; by rewrite ?Ri.
  - destruct (store_output (ctx s) (if rc =? 0 then DONE else FAILED) rc text Ro) as (c' & E & H1' & H2' & H3' & H4' & H5' & H6' & H7').
    assert (E' : (if rc =? 0 then tt_pldm_shell_store_result (ctx s) DONE rc (Some text) (Z.of_nat (length text))
      else tt_pldm_shell_store_result (ctx s) FAILED rc (Some text) (Z.of_nat (length text))) = Some c') by (by destruct (rc =? 0)).
    rewrite E'. cbn [mbind option_bind]. eexists. split; [reflexivity|].
    constructor; cbn [ctx work ran job item done_ executing waiting]; try done; rewrite ?H4', ?Ri; try done.
    change (Z.to_nat TT_PLDM_SHELL_MAX_OUTPUT_LEN) with 256%nat. cbn [shows]. split_and!; try done; [by rewrite H3'|]. rewrite length_take. lia.
Qed.
Lemma step_sim s b e : refines s b -> (forall err command payload, e = Req err command payload -> Forall is_byte payload) ->
  exists s', sstep s e = Some (fst (bstep b e), s') /\ refines s' (snd (bstep b e)).
Proof.
  intros Hr Hb. destruct e as [err command payload| | |result|].
  - specialize (Hb _ _ _ eq_refl). cbn [sstep bstep]. unfold tt_pldm_shell_build_response.
    destruct (command =? TT_PLDM_OEM_CMD_SHELL_EXEC).
    { destruct (exec_sim err s b payload Hr Hb) as (c & k & -> & Hn). destruct (exec_spec err b payload). cbn. by eexists. }
    destruct (command =? TT_PLDM_OEM_CMD_SHELL_GET_RESULT).
    { rewrite (result_sim s b payload Hr Hb). cbn. eexists. split; [done|]. by destruct s. }
    destruct (command =? TT_PLDM_OEM_CMD_SHELL_CANCEL).
    { destruct (cancel_sim s b payload Hr) as (c & -> & Hn). destruct (cancel_spec b payload). cbn. by eexists. }
    cbn. eexists. split; [done|]. by destruct s.
  - eexists. split; [reflexivity|]. destruct Hr as [Rc Ro Rs Ri Rr Rw Rd]. cbn [bstep snd]. rewrite Ri. unfold take_item.
    destruct (work_queued (item b)) eqn:Eq; cbn [andb]; [|constructor; try done; cbn; by rewrite Eq]. destruct (handler (item b)) eqn:Eh.
    + rewrite bool_decide_true by (by eexists). cbn [negb]. constructor; cbn [item]; rewrite ?Eh, ?Eq; try done.
    + rewrite bool_decide_false by (by intros []). constructor; try done. by right.
  - by apply begin_sim.
  - destruct (end_sim result s b Hr) as (s' & -> & Hn). eexists. split; [|exact Hn]. done.
  - eexists. split; [reflexivity|]. destruct Hr as [Rc Ro Rs Ri Rr Rw Rd]. cbn [bstep snd]. rewrite Ri. unfold return_item.
    destruct (bool_decide (handler (item b) = Some Leaving)) eqn:Eh; [|by constructor]. apply bool_decide_eq_true in Eh. rewrite Eh in Rr, Rw.
    constructor; try done. intros Hw. by destruct (Rw Hw); [left|].
Qed.
Definition ev_bytes (e : sev) : Prop := match e with Req _ _ payload => Forall is_byte payload | _ => True end.
Lemma run_sim es : forall s b, refines s b -> Forall ev_bytes es ->
  exists s', srun s es = Some (fst (brun b es), s') /\ refines s' (snd (brun b es)).
Proof.
  induction es as [|e es IH]; intros s b Hr Hb; [by exists s|]. apply list.Forall_cons in Hb as [He Hb].
  destruct (step_sim s b e Hr) as (s1 & E1 & H1'); [by intros ? ? ? ->|]. cbn [srun brun]. rewrite E1. cbn [mbind option_bind].
  destruct (bstep b e) as [a b1]. cbn [fst snd] in *. destruct (IH s1 b1 H1' Hb) as (s2 & E2 & H2'). rewrite E2. cbn [mbind option_bind].
  destruct (brun b1 es). by exists s2.
Qed.
End simulation.
Definition empty_mailbox : mailbox := {| job := None; item := {| work_queued := false; handler := None |}; done_ := [] |}.
Lemma refines_start : refines shell_start empty_mailbox.
Proof. by constructor. Qed.

(** * Theorems on shell commands *)
(** A client that gathers the output of a job in parts of at most [max_len] bytes. *)
Definition get_result_payload (id off max_len : Z) : list Z := le_bytes 2 id ++ le_bytes 2 off ++ [max_len].
Section client.
Context `{PldmCodec}.
Fixpoint gather (fuel : nat) (s : ssys) (id off max_len : Z) : option (list Z) :=
  match fuel with
  | O => None
  | S fuel =>
      '(a, s) ← sstep s (Req 0 TT_PLDM_OEM_CMD_SHELL_GET_RESULT (get_result_payload id off max_len));
      match a with
      | Some (inr (Other p, _)) =>
          let len := nth 12 p 0 in
          let part := take (Z.to_nat len) (drop 13 p) in
          if nth (Z.to_nat (13 + len)) p 0 =? 0 then Some part
          else rest ← gather fuel s id (off + len) max_len; Some (part ++ rest)
      | _ => None
      end
  end.
(** The answer to an accepted command. *)
Definition accepted (id : Z) : answer := shell_resp ([PLDM_SUCCESS] ++ le_bytes 2 id ++ [1]).
Lemma exec_accepted err b payload : PLDM_ERROR <> PLDM_SUCCESS -> PLDM_ERROR_NOT_READY <> PLDM_SUCCESS ->
  fst (exec_spec err b payload) = accepted (sys_get_le16 payload 0) ->
  header_ok = true /\ job (snd (exec_spec err b payload)) = Some (sys_get_le16 payload 0, drop 3 payload, Waiting).
Proof.
  intros N1 N2. unfold exec_spec, accepted, short_resp, shell_resp, pldm_cc_only_response. destruct (_ || _ || _ || _); cbn [fst snd].
  { by destruct (encodes _). }
  destruct header_ok; cbn [negb fst]; [|done]. destruct (busy (job b)); cbn [fst]; [cbn [app]; congruence|].
  destruct ((err <? 0) || work_queued (item b)); cbn [fst]; [cbn [app]; congruence|done].
Qed.
Lemma get_result_fields id off max_len : 0 <= id < 2 ^ 16 -> 0 <= off < 2 ^ 16 ->
  sys_get_le16 (get_result_payload id off max_len) 0 = id /\ sys_get_le16 (get_result_payload id off max_len) 2 = off.
Proof. intros Hi Ho. split; by apply (le_value_le_bytes 2). Qed.
Lemma get_result_bytes id off max_len : is_byte max_len -> Forall is_byte (get_result_payload id off max_len).
Proof. intros Hm. unfold get_result_payload. rewrite !list.Forall_app. repeat split; auto using le_bytes_bytes. Qed.
Lemma part_fields (hd part : list Z) (more : Z) : length hd = 12%nat ->
  let p := hd ++ [Z.of_nat (length part)] ++ part ++ [more] in
  nth 12 p 0 = Z.of_nat (length part) /\ take (length part) (drop 13 p) = part /\ nth (13 + length part) p 0 = more.
Proof.
  intros Hh p. unfold p. split_and!.
  - rewrite <- Hh. by rewrite app_nth2, Nat.sub_diag by lia.
  - rewrite (app_assoc hd). rewrite drop_app_length' by (rewrite length_app; cbn; lia). by rewrite take_app_length.
  - rewrite app_nth2 by lia. replace (13 + length part - length hd)%nat with (S (length part)) by lia. cbn.
    by rewrite app_nth2, Nat.sub_diag by lia.
Qed.
Lemma chunk_progress (out : list Z) off max_len : 0 <= max_len -> 0 <= off -> off < Z.of_nat (length out) ->
  (0 < length (chunk_at out off max_len))%nat.
Proof.
  intros Hm Ho Hl. unfold chunk_at. rewrite length_take, length_drop. unfold TT_PLDM_SHELL_MAX_CHUNK_LEN.
  destruct (Z.eqb_spec max_len 0); lia.
Qed.
(** A job that is done gives out its whole output. *)
Lemma gather_output fuel : forall s b id t rc out off max_len, refines s b -> header_ok = true ->
  job b = Some (id, t, Finished rc out) -> 0 <= id < 2 ^ 16 -> is_byte max_len -> 0 <= off <= Z.of_nat (length out) ->
  (length out - Z.to_nat off < fuel)%nat -> gather fuel s id off max_len = Some (drop (Z.to_nat off) out).
Proof.
  induction fuel as [|fuel IH]; intros s b id t rc out off max_len Hr Hh Hj Hi Hm Ho Hf; [lia|]. cbn [gather].
  assert (Hl : (length out <= 256)%nat) by (destruct Hr as [_ _ Rs _ _ _ _]; rewrite Hj in Rs; by destruct Rs as (_ & _ & _ & _ & ? & _)).
  cbn [sstep]. unfold tt_pldm_shell_build_response.
  change (TT_PLDM_OEM_CMD_SHELL_GET_RESULT =? TT_PLDM_OEM_CMD_SHELL_EXEC) with false. rewrite Z.eqb_refl.
  rewrite (result_sim s b _ Hr (get_result_bytes _ _ _ Hm)). cbn [mbind option_bind]. unfold result_spec.
  destruct (get_result_fields id off max_len Hi ltac:(lia)) as [-> ->]. rewrite Hh, Hj. change (length (get_result_payload id off max_len)) with 5%nat.
  change (Z.of_nat 5 =? 5) with true. cbn [negb phase_out]. rewrite Z.eqb_refl. cbn [negb orb].
  replace (Z.of_nat (length out) <? off) with false by (symmetry; apply Z.ltb_ge; lia).
  change (nth 4 (get_result_payload id off max_len) 0) with max_len. set (part := chunk_at out off max_len).
  pose proof (chunk_prefix out off max_len) as Hpre. fold part in Hpre.
  set (hd := [PLDM_SUCCESS] ++ le_bytes 2 id ++ [phase_code (Finished rc out)] ++ le_bytes 4 (u32 (phase_rc (Finished rc out))) ++
    le_bytes 2 (Z.of_nat (length out)) ++ le_bytes 2 off).
  assert (Hhd : length hd = 12%nat) by done.
  set (more := if busy _ then 1 else _). destruct (part_fields hd part more Hhd) as (F1 & F2 & F3).
  assert (Hp : shell_resp ([PLDM_SUCCESS] ++ le_bytes 2 id ++ [phase_code (Finished rc out)] ++ le_bytes 4 (u32 (phase_rc (Finished rc out))) ++
    le_bytes 2 (Z.of_nat (length out)) ++ le_bytes 2 off ++ [Z.of_nat (length part)] ++ part ++ [more]) =
    shell_resp (hd ++ [Z.of_nat (length part)] ++ part ++ [more])) by (unfold hd; by rewrite <- !app_assoc).
  rewrite Hp. unfold shell_resp. set (p := hd ++ _) in *. cbn beta iota zeta in F1, F2, F3. rewrite F1. rewrite Nat2Z.id, F2.
  replace (Z.to_nat (13 + Z.of_nat (length part))) with (13 + length part)%nat by lia. rewrite F3.
  assert (Hpl : length part = length (take (length part) (drop (Z.to_nat off) out))) by (by rewrite Hpre). rewrite length_take, length_drop in Hpl.
  subst more. cbn [busy]. destruct (Z.ltb_spec (off + Z.of_nat (length part)) (Z.of_nat (length out))) as [Hlt|Hge].
  - change (1 =? 0) with false. cbv iota. pose proof (chunk_progress out off max_len (proj1 Hm) ltac:(lia) ltac:(lia)) as Hpos. fold part in Hpos.
    assert (Hs : refines {| ctx := ctx s; work := work s; ran := ran s |} b) by (by destruct s).
    rewrite (IH _ b id t rc out _ max_len Hs Hh Hj Hi Hm) by lia. cbn [mbind option_bind].
    replace (Z.to_nat (off + Z.of_nat (length part))) with (Z.to_nat off + length part)%nat by lia.
    rewrite <- drop_drop, <- Hpre at 1. by rewrite take_drop.
  - change (0 =? 0) with true. cbv iota. rewrite <- Hpre. by rewrite take_ge by (rewrite length_drop; lia).
Qed.
End client.

(** ** Types *)
Definition int32 (v : Z) : Prop := - 2 ^ 31 <= v < 2 ^ 31.
(** The context as its C types have it: arrays of bytes of their sizes, lengths within them. *)
Record ctx_typed c : Prop := {
  t_cmd : length (cmd c) = 97%nat; t_cmd_bytes : Forall is_byte (cmd c); t_out : length (output c) = 256%nat;
  t_out_bytes : Forall is_byte (output c); t_cmd_len : 0 <= cmd_len c <= TT_PLDM_SHELL_MAX_CMD_LEN;
  t_out_len : 0 <= output_len c <= TT_PLDM_SHELL_MAX_OUTPUT_LEN; t_id : 0 <= request_id c < 2 ^ 16; t_rc : int32 (shell_rc c) }.
Definition ev_typed (e : sev) : Prop :=
  match e with
  | Req _ _ payload => Forall is_byte payload
  | End (Some (rc, text)) => int32 rc /\ Forall is_byte text
  | _ => True
  end.
(** The length of an answer. *)
Definition answer_len (a : answer) : Z := match a with inl _ => 0 | inr (_, len) => len end.
Lemma memcpy_at_typed (dst src new : list Z) off : memcpy_at dst off src = Some new -> Forall is_byte dst -> Forall is_byte src ->
  length new = length dst /\ Forall is_byte new.
Proof.
  unfold memcpy_at. destruct ((0 <=? off) && (off + Z.of_nat (length src) <=? Z.of_nat (length dst))) eqn:E; [|done]. zb.
  intros [= <-] Hd Hs. split; [rewrite !length_app, length_take, length_drop; lia|].
  rewrite !list.Forall_app. split_and!; auto using Forall_take, Forall_drop.
Qed.
Lemma zset_typed (l new : list Z) i v : zset l i v = Some new -> Forall is_byte l -> is_byte v -> length new = length l /\ Forall is_byte new.
Proof.
  unfold zset. destruct ((0 <=? i) && (i <? Z.of_nat (length l))); [|done]. intros [= <-] Hl Hv.
  split; [apply length_insert|]. by apply Forall_insert.
Qed.
Lemma store_typed c st rc text len c' : tt_pldm_shell_store_result c st rc text len = Some c' -> ctx_typed c -> int32 rc -> 0 <= len ->
  from_option (Forall is_byte) True text -> ctx_typed c'.
Proof.
  intros E [] Hrc Hl Ht. unfold tt_pldm_shell_store_result in E.
  destruct (match text with Some _ => _ | None => _ end) as [out|] eqn:Eo; [|done]. cbn [mbind option_bind] in E. injection E as <-.
  assert (Ho : length out = 256%nat /\ Forall is_byte out).
  { destruct text as [t|]; [|by injection Eo as <-]. destruct (0 <? _); [|by injection Eo as <-].
    destruct (memcpy_at_typed _ _ _ _ Eo t_out_bytes0 (Forall_take _ _ _ Ht)) as [-> ?]. by split. }
  destruct Ho. constructor; try done. cbn. unfold TT_PLDM_SHELL_MAX_OUTPUT_LEN. lia.
Qed.
Lemma with_state_typed c st : ctx_typed c -> ctx_typed (with_state c st).
Proof. intros []. by constructor. Qed.
Lemma with_cancel_typed c x : ctx_typed c -> ctx_typed (with_cancel c x).
Proof. intros []. by constructor. Qed.
Lemma canceled_int32 : int32 (- ECANCELED).
Proof. unfold int32, ECANCELED. lia. Qed.
Lemma forallb_bytes (l : list Z) : forallb (fun x => (0 <=? x) && (x <? 256)) l = true -> Forall is_byte l.
Proof. intros Hl. apply list.Forall_forall. intros x Hx. rewrite forallb_forall in Hl. specialize (Hl x (proj1 (list_elem_of_In _ _) Hx)). unfold is_byte. zlia. Qed.
Section typing.
Context `{PldmCodec}.
Lemma cc_len cc : answer_len (pldm_cc_only_response cc) <= Z.max 0 sizeof_msg_hdr + 54.
Proof. unfold pldm_cc_only_response. destruct (encodes _); cbn [answer_len]; lia. Qed.
Lemma shell_len payload : (length payload <= 54)%nat -> answer_len (shell_resp payload) <= Z.max 0 sizeof_msg_hdr + 54.
Proof. intros Hl. unfold shell_resp. cbn [answer_len]. lia. Qed.
Lemma error_len rc : answer_len (inl rc) <= Z.max 0 sizeof_msg_hdr + 54.
Proof. cbn [answer_len]. lia. Qed.
Lemma exec_typed err c k payload a c' k' : tt_pldm_shell_handle_exec err c k payload = Some (a, c', k') -> ctx_typed c -> Forall is_byte payload ->
  ctx_typed c' /\ answer_len a <= Z.max 0 sizeof_msg_hdr + 54.
Proof.
  intros E Hc Hp. unfold tt_pldm_shell_handle_exec in E. pose proof cc_len as Hcc.
  destruct (_ <? 3); [by simplify_eq|]. pose proof (nth_byte payload 2 Hp) as Hlen. pose proof (get_le16_range payload 0 Hp) as Hid.
  set (len := nth 2 payload 0) in *. set (id := sys_get_le16 payload 0) in *.
  destruct ((len =? 0) || (TT_PLDM_SHELL_MAX_CMD_LEN <? len) || negb (Z.of_nat (length payload) =? 3 + len)) eqn:El; [by simplify_eq|].
  destruct (negb (tt_pldm_shell_encode_resp_header =? 0)); [simplify_eq; split; [done|apply error_len]|].
  destruct (bool_decide (state c = QUEUED) || bool_decide (state c = RUNNING)).
  { cbn [mbind option_bind] in E. simplify_eq. split; [done|apply shell_len; cbn; lia]. }
  destruct Hc. destruct (memcpy_at (cmd c) 0 (drop 3 payload)) as [l1|] eqn:E1; [|done]. cbn [mbind option_bind] in E.
  destruct (zset l1 len 0) as [l2|] eqn:E2; [|done]. cbn [mbind option_bind] in E.
  destruct (memcpy_at_typed _ _ _ _ E1 t_cmd_bytes0 (Forall_drop _ _ _ Hp)) as [L1 B1]. clearbody len id.
  destruct (zset_typed _ _ _ _ E2 B1 ltac:(by unfold is_byte)) as [L2 B2]. zb.
  destruct (k_work_submit_to_queue err k) as [ret k1]. destruct (ret <=? 0); cbn [mbind option_bind] in E; simplify_eq; (split; [|apply shell_len; cbn; lia]);
    constructor; cbn [with_state request_id cmd cmd_len shell_rc output output_len]; try done; try congruence; try lia;
    unfold int32, TT_PLDM_SHELL_MAX_OUTPUT_LEN; lia.
Qed.
Lemma part_small rest max_len : 0 <= rest -> 0 <= max_len ->
  u8 (Z.min rest (if negb (max_len =? 0) then Z.min TT_PLDM_SHELL_MAX_CHUNK_LEN max_len else TT_PLDM_SHELL_MAX_CHUNK_LEN)) <= 40.
Proof.
  intros Hr Hm. unfold TT_PLDM_SHELL_MAX_CHUNK_LEN. rewrite wrap_id; [destruct (negb _); lia|].
  unfold in_width. destruct (negb _); lia.
Qed.
Lemma get_result_len c payload a : Forall is_byte payload -> tt_pldm_shell_handle_get_result c payload = Some a ->
  answer_len a <= Z.max 0 sizeof_msg_hdr + 54.
Proof.
  intros Hp E. unfold tt_pldm_shell_handle_get_result in E. pose proof cc_len as Hcc.
  destruct (negb (_ =? 5)); [by simplify_eq|]. destruct (negb (tt_pldm_shell_encode_resp_header =? 0)); [simplify_eq; apply error_len|].
  destruct (bool_decide (state c = IDLE) || _); [by simplify_eq|].
  destruct (Z.ltb_spec (u16 (Z.min (output_len c) UINT16_MAX)) (sys_get_le16 payload 2)) as [|Hle]; [by simplify_eq|].
  pose proof (part_small (u16 (Z.min (output_len c) UINT16_MAX) - sys_get_le16 payload 2) (nth 4 payload 0) ltac:(lia)
    (proj1 (nth_byte payload 4 Hp))) as Hs.
  destruct (if bool_decide (state c = DONE) || _ then _ else _) as [n more] eqn:En.
  assert (Hn : n <= 40) by (destruct (bool_decide (state c = DONE) || _); [by injection En as <- _|];
    destruct (bool_decide (state c = QUEUED) || _); injection En as <- _; lia). clear En Hs.
  destruct (Z.of_nat (length (output c)) <? _); [done|]. injection E as <-. apply shell_len.
  cbn [le_bytes app length]. rewrite length_app, length_take. cbn [length]. lia.
Qed.
Lemma cancel_typed c payload a c' : tt_pldm_shell_handle_cancel c payload = Some (a, c') -> ctx_typed c ->
  ctx_typed c' /\ answer_len a <= Z.max 0 sizeof_msg_hdr + 54.
Proof.
  intros E Hc. unfold tt_pldm_shell_handle_cancel in E. pose proof cc_len as Hcc.
  destruct (negb (_ =? 2)); [by simplify_eq|].
  destruct (negb (tt_pldm_shell_encode_resp_header =? 0)); [simplify_eq; split; [done|apply error_len]|].
  destruct (bool_decide (state c = IDLE) || _); [by simplify_eq|].
  destruct (if bool_decide (state c = QUEUED) then _ else _) as [[cc c1]|] eqn:E1; [|done]. cbn [mbind option_bind] in E. injection E as <- <-.
  split; [|apply shell_len; cbn; lia].
  destruct (bool_decide (state c = QUEUED)).
  - destruct (tt_pldm_shell_store_result _ _ _ _ _) as [c2|] eqn:E2; [|done]. cbn [mbind option_bind] in E1. injection E1 as _ <-.
    by apply (store_typed _ _ _ _ _ _ E2 (with_cancel_typed _ _ Hc) canceled_int32).
  - destruct (bool_decide (state c = RUNNING)); injection E1 as _ <-; [by apply with_cancel_typed|done].
Qed.
Lemma begin_typed c c' run : begin_work c = Some (c', run) -> ctx_typed c -> ctx_typed c'.
Proof.
  unfold begin_work. intros E Hc. destruct (negb _); [by simplify_eq|]. destruct (cancel_requested c).
  - destruct (tt_pldm_shell_store_result _ _ _ _ _) as [c2|] eqn:E2; [|done]. cbn [mbind option_bind] in E. injection E as <- _.
    by apply (store_typed _ _ _ _ _ _ E2 Hc canceled_int32).
  - destruct (_ <? _); [done|]. injection E as <- _. by apply with_state_typed.
Qed.
Lemma finish_typed c result c' : finish_work c result = Some c' -> ev_typed (End result) -> ctx_typed c -> ctx_typed c'.
Proof.
  unfold finish_work. intros E He Hc. fold (shell_output result) in E. assert (Hr : int32 (shell_output result).1 /\ Forall is_byte (shell_output result).2).
  { destruct result as [[rc text]|]; [exact He|]. split; [unfold int32, shell_output, ENODEV; cbn [fst]; lia|]. by apply forallb_bytes. }
  destruct (shell_output result) as [rc text], Hr as [H1' H2']. cbn [fst snd] in *.
  destruct (cancel_requested c); [by apply (store_typed _ _ _ _ _ _ E Hc canceled_int32)|].
  destruct (rc =? 0); apply (store_typed _ _ _ _ _ _ E Hc H1'); try lia; exact H2'.
Qed.
Lemma sstep_typed s e a s' : sstep s e = Some (a, s') -> ev_typed e -> ctx_typed (ctx s) ->
  ctx_typed (ctx s') /\ from_option answer_len 0 a <= Z.max 0 sizeof_msg_hdr + 54.
Proof.
  intros E He Hc. destruct e as [err command payload| | |result|]; cbn [sstep] in E.
  - unfold tt_pldm_shell_build_response in E. destruct (command =? _).
    { destruct (tt_pldm_shell_handle_exec _ _ _ _) as [[[a1 c1] k1]|] eqn:E1; [|done]. cbn in E. injection E as <- <-.
      by apply (exec_typed _ _ _ _ _ _ _ E1). }
    destruct (command =? _).
    { destruct (tt_pldm_shell_handle_get_result _ _) as [a1|] eqn:E1; [|done]. cbn in E. injection E as <- <-.
      split; [done|]. by apply (get_result_len _ _ _ He E1). }
    destruct (command =? _).
    { destruct (tt_pldm_shell_handle_cancel _ _) as [[a1 c1]|] eqn:E1; [|done]. cbn in E. injection E as <- <-.
      by apply (cancel_typed _ _ _ _ E1). }
    cbn in E. injection E as <- <-. split; [done|apply cc_len].
  - injection E as <- <-. split; [done|cbn [from_option]; lia].
  - destruct (bool_decide _); [|injection E as <- <-; split; [done|cbn [from_option]; lia]].
    destruct (begin_work (ctx s)) as [[c1 run]|] eqn:E1; [|done]. cbn in E. injection E as <- <-.
    split; [destruct run; by apply (begin_typed _ _ _ E1)|cbn [from_option]; lia].
  - destruct (bool_decide _); [|injection E as <- <-; split; [done|cbn [from_option]; lia]].
    destruct (finish_work (ctx s) result) as [c1|] eqn:E1; [|done]. cbn in E. injection E as <- <-.
    split; [by apply (finish_typed _ _ _ E1)|cbn [from_option]; lia].
  - injection E as <- <-. split; [done|cbn [from_option]; lia].
Qed.
Lemma srun_typed es : forall s l s', srun s es = Some (l, s') -> Forall ev_typed es -> ctx_typed (ctx s) ->
  ctx_typed (ctx s') /\ Forall (fun a => from_option answer_len 0 a <= Z.max 0 sizeof_msg_hdr + 54) l.
Proof.
  induction es as [|e es IH]; intros s l s' E He Hc; cbn [srun] in E; [by injection E as <- <-|].
  apply list.Forall_cons in He as [He Hes]. destruct (sstep s e) as [[a s1]|] eqn:E1; [|done]. cbn [mbind option_bind] in E.
  destruct (srun s1 es) as [[l2 s2]|] eqn:E2; [|done]. cbn [mbind option_bind] in E. injection E as <- <-.
  destruct (sstep_typed _ _ _ _ E1 He Hc) as [Hc1 Ha]. destruct (IH _ _ _ E2 Hes Hc1) as [Hc2 Hl]. split; [done|]. by apply Forall_cons_2.
Qed.
End typing.

(** ** The contract of the mailbox *)
(** C10. The handlers and the work item, in any order of requests and of the work queue's steps, answer as
    the mailbox does, and run the commands it runs; nothing is read or written outside of an array. *)
Theorem shell_refines `{PldmCodec} (es : list sev) : Forall ev_bytes es ->
  exists s, srun shell_start es = Some (fst (brun empty_mailbox es), s) /\ ran s = done_ (snd (brun empty_mailbox es)) /\
    shows (ctx s) (job (snd (brun empty_mailbox es))).
Proof.
  intros Hes. destruct (run_sim es shell_start empty_mailbox refines_start Hes) as (s & E & Hr).
  exists s. split_and!; [done | apply (r_ran _ _ Hr) | apply (r_shows _ _ Hr)].
Qed.
Lemma start_typed : ctx_typed tt_pldm_shell_driver_init.
Proof.
  constructor; try reflexivity; try (by apply Forall_replicate); cbn; unfold TT_PLDM_SHELL_MAX_CMD_LEN, TT_PLDM_SHELL_MAX_OUTPUT_LEN, int32; lia.
Qed.
(** C39. However requests, work and cancellations interleave, the context keeps the shape of its C type,
    and no answer is longer than a header and 54 bytes. *)
Theorem shell_context_typed `{PldmCodec} (es : list sev) : Forall ev_typed es ->
  exists l s, srun shell_start es = Some (l, s) /\ ctx_typed (ctx s) /\
    Forall (fun a => from_option answer_len 0 a <= Z.max 0 sizeof_msg_hdr + 54) l.
Proof.
  intros Hes. assert (Hb : Forall ev_bytes es) by (eapply Forall_impl; [|exact Hes]; by intros []).
  destruct (run_sim es shell_start empty_mailbox refines_start Hb) as (s & E & _). eexists _, s. split; [exact E|].
  apply (srun_typed es _ _ _ E Hes start_typed).
Qed.
(** The work queue gets to a job that waits. *)
Lemma waiting_runs `{PldmCodec} s b id t rc text : refines s b -> job b = Some (id, t, Waiting) ->
  let b' := snd (brun b [Return; Take; Begin; End (Some (rc, text))]) in
  job b' = Some (id, t, Finished rc (take 256 text)) /\ done_ b' = done_ b ++ [c_string t].
Proof.
  intros [Rc Ro Rs Ri Rr Rw Rd] Hj. rewrite Hj in Rr, Rw. destruct b as [j [q g] d]. cbn in Hj, Rr, Rw. subst j. specialize (Rw eq_refl).
  destruct g as [[| |]|]; [by destruct q|done|..]; (destruct Rw as [Hq|Hq]; [|done]); rewrite Hq in *; done.
Qed.
(** C24. A command that is accepted is run once the work queue gets to it, whatever went before; it is run
    once, and a client that gathers the output in parts of any size has the first 256 bytes of it. *)
Theorem shell_command_roundtrip `{PldmCodec} (es : list sev) (l : list (option answer)) (s0 s : ssys) (err : Z) (payload : list Z)
    (rc : Z) (text : list Z) (max_len : Z) :
  PLDM_ERROR <> PLDM_SUCCESS -> PLDM_ERROR_NOT_READY <> PLDM_SUCCESS -> Forall ev_bytes es -> Forall is_byte payload -> is_byte max_len ->
  srun shell_start es = Some (l, s0) ->
  sstep s0 (Req err TT_PLDM_OEM_CMD_SHELL_EXEC payload) = Some (Some (accepted (sys_get_le16 payload 0)), s) ->
  exists l' s', srun s [Return; Take; Begin; End (Some (rc, text))] = Some (l', s') /\
    ran s' = ran s ++ [c_string (drop 3 payload)] /\
    gather 257 s' (sys_get_le16 payload 0) 0 max_len = Some (take 256 text).
Proof.
  intros N1 N2 Hes Hp Hm E0 E. destruct (run_sim es shell_start empty_mailbox refines_start Hes) as (s0' & E0' & Hr).
  rewrite E0 in E0'. injection E0' as _ <-. set (b0 := snd (brun empty_mailbox es)) in *.
  destruct (exec_sim err s0 b0 payload Hr Hp) as (c & k & Ex & Hr1). cbn [sstep] in E. unfold tt_pldm_shell_build_response in E.
  rewrite Z.eqb_refl, Ex in E. cbn [mbind option_bind] in E. injection E as Ea Es.
  destruct (exec_accepted err b0 payload N1 N2 Ea) as [Hh Hj]. rewrite Es in Hr1. set (b1 := snd (exec_spec err b0 payload)) in *.
  destruct (run_sim [Return; Take; Begin; End (Some (rc, text))] s b1 Hr1) as (s' & E' & Hr'); [by repeat constructor|].
  destruct (waiting_runs s b1 _ _ rc text Hr1 Hj) as [Hj' Hd']. set (b' := snd (brun b1 _)) in *.
  eexists _, s'. split_and!; [exact E' | by rewrite (r_ran _ _ Hr'), Hd', (r_ran _ _ Hr1) |].
  rewrite (gather_output 257 s' b' _ _ rc _ 0 max_len Hr' Hh Hj' (get_le16_range _ _ Hp) Hm); [done|lia|].
  rewrite length_take. lia.
Qed.

(** "version", request 5, a request that is cancelled before it runs, and one that is run. *)
Definition version_payload : list Z := [5; 0; 7; 118; 101; 114; 115; 105; 111; 110].
Definition cancelled_first : list sev :=
  [Req 0 TT_PLDM_OEM_CMD_SHELL_EXEC [4; 0; 1; 63]; Take; Req 0 TT_PLDM_OEM_CMD_SHELL_CANCEL [4; 0]].
Ltac bytes := apply forallb_bytes; reflexivity.
Lemma cancelled_first_bytes : Forall ev_bytes cancelled_first /\ Forall ev_typed cancelled_first.
Proof. split; repeat (apply Forall_cons_2; [first [exact I | bytes]|]); apply Forall_nil_2. Qed.
Lemma shell_refines_witness :
  exists s, @srun codec shell_start cancelled_first = Some (fst (@brun codec empty_mailbox cancelled_first), s) /\ ran s = [] /\
    shows (ctx s) (Some (4, [63], Cancelled)).
Proof. apply (@shell_refines codec cancelled_first). apply cancelled_first_bytes. Defined.
Lemma shell_context_typed_witness :
  exists l s, @srun codec shell_start cancelled_first = Some (l, s) /\ ctx_typed (ctx s) /\
    Forall (fun a => from_option answer_len 0 a <= 57) l.
Proof. apply (@shell_context_typed codec cancelled_first). apply cancelled_first_bytes. Defined.
Definition after_cancel : ssys :=
  match @srun codec shell_start cancelled_first with Some (_, s) => s | None => shell_start end.
Definition after_exec : ssys :=
  match @sstep codec after_cancel (Req 0 TT_PLDM_OEM_CMD_SHELL_EXEC version_payload) with Some (_, s) => s | None => shell_start end.
Lemma shell_command_roundtrip_witness : exists l' s',
  @srun codec after_exec [Return; Take; Begin; End (Some (0, replicate 300 65))] = Some (l', s') /\
  ran s' = ran after_exec ++ [[118; 101; 114; 115; 105; 111; 110]] /\ @gather codec 257 s' 5 0 100 = Some (replicate 256 65).
Proof.
  apply (@shell_command_roundtrip codec cancelled_first (fst (@brun codec empty_mailbox cancelled_first)) after_cancel after_exec 0
    version_payload 0 (replicate 300 65) 100).
  - discriminate.
  - discriminate.
  - apply cancelled_first_bytes.
  - bytes.
  - unfold is_byte. lia.
  - vm_compute. reflexivity.
  - vm_compute. reflexivity.
Defined.
(** A command that was cancelled while it was queued keeps the work item queued: a request for the
    next command finds it there, takes that for a failure and refuses the command. *)
Lemma exec_after_cancel_refused :
  option_map fst (@srun codec shell_start
    [Req 0 TT_PLDM_OEM_CMD_SHELL_EXEC [4; 0; 1; 63]; Req 0 TT_PLDM_OEM_CMD_SHELL_CANCEL [4; 0];
     Req 0 TT_PLDM_OEM_CMD_SHELL_EXEC version_payload]) =
  Some [Some (inr (Other [0; 4; 0; 1], 7)); Some (inr (Other [0; 4; 0; 5], 7)); Some (inr (Other [1; 5; 0; 0], 7))].
Proof. vm_compute. reflexivity. Qed.
