(* ===== verification/PldmResponder.v ===== *)
(** The PLDM responder: [drivers/pmci/pldm/pldm_base.c], [pldm_mctp_responder.c].

    Messages of MCTP wait in a queue of eight; a work item takes them in order, and each request gets
    one response: of the base type, of the platform type (Pldm.v), or of the vendor's handler, which is
    an interface here and PldmShell.v in the firmware. *)
From stdpp Require Import prelude list numbers.
From Stdlib Require Import ZArith Lia.
From S2P Require Import Prelude Pldm PldmShell.
Open Scope Z_scope.

Definition PLDM_OEM_TYPE : Z := 0x3F.
Definition TT_PLDM_MSG_TYPE_PLDM : Z := 1.
Definition TT_PLDM_MAX_MESSAGE_LEN : Z := 64.
Definition TT_PLDM_RX_QUEUE_DEPTH : Z := 8.
Definition EMSGSIZE : Z := 122.
Definition ENOMSG : Z := 35.

(** * The base type *)
(** What else is taken from libpldm. A header: message type, PLDM type, command. *)
Class PldmBaseCodec := {
  PLDM_BASE : Z; PLDM_PLATFORM : Z; PLDM_REQUEST : Z;
  PLDM_SET_TID : Z; PLDM_GET_TID : Z; PLDM_GET_PLDM_VERSION : Z; PLDM_GET_PLDM_TYPES : Z; PLDM_GET_PLDM_COMMANDS : Z;
  PLDM_GET_TID_REQ_BYTES : Z; PLDM_GET_TID_RESP_BYTES : Z; PLDM_SET_TID_REQ_BYTES : Z; PLDM_GET_TYPES_REQ_BYTES : Z;
  PLDM_BASE_GET_PLDM_TYPES_RESP_BYTES : Z; PLDM_GET_COMMANDS_RESP_BYTES : Z;
  PLDM_GET_PLDM_VERSION_INVALID_TRANSFER_OPERATION_FLAG : Z; PLDM_GET_PLDM_VERSION_INVALID_PLDM_TYPE_IN_REQUEST_DATA : Z;
  PLDM_GET_PLDM_COMMANDS_INVALID_PLDM_TYPE_IN_REQUEST_DATA : Z;
  decode_set_tid_req : list Z -> Z + Z; decode_get_version_req : list Z -> Z + (Z * Z * Z); decode_get_commands_req : list Z -> Z + (Z * Z);
  unpack_pldm_header : list Z -> Z + (Z * Z * Z) }.
(** A vendor's handler: the API of [pldm_oem_handler.h], and what it does between requests. *)
Class pldm_oem_handler_driver_api (S : Type) := {
  get_versions : option (list (Z * Z * Z * Z)); get_commands : option (list Z); oem_err : Type;
  build_response : oem_err -> S -> Z -> list Z -> option (answer * S);
  background : Type; in_background : S -> background -> option S }.
(** A bit set in an array of bytes. *)
Definition set_type (l : list Z) (n : Z) : list Z := alter (fun x => Z.lor x (Z.shiftl 1 (n mod 8))) (Z.to_nat (n / 8)) l.
Definition bit_set (l : list Z) (n : Z) : bool := Z.testbit (nth (Z.to_nat (n / 8)) l 0) (n mod 8).
(** PLDM 1.1.0 and its checksum. *)
Definition base_versions : list (Z * Z * Z * Z) := [(0x00, 0xf0, 0xf1, 0xf1); (0xba, 0xbe, 0x9d, 0x53)].
Definition pldm_platform_versions : list (Z * Z * Z * Z) := [(0x00, 0xf0, 0xf1, 0xf1); (0xba, 0xbe, 0x9d, 0x53)].
Definition tt_pldm_oem_versions : list (Z * Z * Z * Z) := [(0x00, 0xf0, 0xf0, 0xf1); (0x2b, 0x76, 0x8e, 0x9a)].
Definition tt_pldm_oem_commands : list Z :=
  <[Z.to_nat (TT_PLDM_OEM_CMD_SHELL_EXEC / 8) :=
     Z.lor (Z.lor (Z.shiftl 1 (TT_PLDM_OEM_CMD_SHELL_EXEC mod 8)) (Z.shiftl 1 (TT_PLDM_OEM_CMD_SHELL_GET_RESULT mod 8)))
       (Z.shiftl 1 (TT_PLDM_OEM_CMD_SHELL_CANCEL mod 8))]> (replicate 32 0).
Section base.
Context `{LibPldm} `{PldmCodec} `{PldmBaseCodec} {S : Type} `{pldm_oem_handler_driver_api S}.
Definition base_commands : list Z :=
  <[0%nat := Z.lor (Z.lor (Z.lor (Z.lor (Z.shiftl 1 PLDM_GET_TID) (Z.shiftl 1 PLDM_SET_TID)) (Z.shiftl 1 PLDM_GET_PLDM_VERSION))
     (Z.shiftl 1 PLDM_GET_PLDM_TYPES)) (Z.shiftl 1 PLDM_GET_PLDM_COMMANDS)]> (replicate 32 0).
Definition pldm_platform_commands : list Z :=
  <[Z.to_nat (PLDM_GET_PDR_REPOSITORY_INFO / 8) :=
     Z.lor (Z.shiftl 1 (PLDM_GET_PDR_REPOSITORY_INFO mod 8)) (Z.shiftl 1 (PLDM_GET_PDR mod 8))]>
  (<[Z.to_nat (PLDM_GET_SENSOR_READING / 8) := Z.shiftl 1 (PLDM_GET_SENSOR_READING mod 8)]> (replicate 32 0)).
Definition pldm_handle_get_tid (tid req_payload_len : Z) : answer :=
  if negb (req_payload_len =? PLDM_GET_TID_REQ_BYTES) then pldm_cc_only_response PLDM_ERROR_INVALID_LENGTH
  else encoded (Tid tid) PLDM_GET_TID_RESP_BYTES.
Definition pldm_handle_set_tid (tid : Z) (payload : list Z) : answer * Z :=
  if negb (Z.of_nat (length payload) =? PLDM_SET_TID_REQ_BYTES) then (pldm_cc_only_response PLDM_ERROR_INVALID_LENGTH, tid)
  else match decode_set_tid_req payload with
       | inl _ => (pldm_cc_only_response PLDM_ERROR_INVALID_DATA, tid)
       | inr new_tid =>
           if (new_tid =? 0x00) || (new_tid =? 0xFF) then (pldm_cc_only_response PLDM_ERROR_INVALID_DATA, tid)
           else (pldm_cc_only_response PLDM_SUCCESS, new_tid)
       end.
Definition pldm_handle_get_types (oem : bool) (req_payload_len : Z) : answer :=
  if negb (req_payload_len =? PLDM_GET_TYPES_REQ_BYTES) then pldm_cc_only_response PLDM_ERROR_INVALID_LENGTH
  else
    let types := set_type (set_type (replicate 8 0) PLDM_BASE) PLDM_PLATFORM in
    let types := if oem then set_type types PLDM_OEM_TYPE else types in
    encoded (Types types) PLDM_BASE_GET_PLDM_TYPES_RESP_BYTES.
Definition pldm_handle_get_version (oem : bool) (payload : list Z) : answer :=
  match decode_get_version_req payload with
  | inl cc => pldm_cc_only_response cc
  | inr (_, transfer_opflag, type) =>
      if negb (transfer_opflag =? PLDM_GET_FIRSTPART)
      then pldm_cc_only_response PLDM_GET_PLDM_VERSION_INVALID_TRANSFER_OPERATION_FLAG
      else
        let send (versions : list (Z * Z * Z * Z)) := encoded (Versions versions) (1 + 4 + 1 + 4 * Z.of_nat (length versions)) in
        if type =? PLDM_BASE then send base_versions
        else if type =? PLDM_PLATFORM then send pldm_platform_versions
        else if (type =? PLDM_OEM_TYPE) && oem then
          match get_versions with
          | None | Some [] => pldm_cc_only_response PLDM_ERROR_UNSUPPORTED_PLDM_CMD
          | Some versions => send versions
          end
        else pldm_cc_only_response PLDM_GET_PLDM_VERSION_INVALID_PLDM_TYPE_IN_REQUEST_DATA
  end.
Definition pldm_handle_get_commands (oem : bool) (payload : list Z) : answer :=
  match decode_get_commands_req payload with
  | inl cc => pldm_cc_only_response cc
  | inr (type, _) =>
      let send (commands : list Z) := encoded (Commands commands) PLDM_GET_COMMANDS_RESP_BYTES in
      if type =? PLDM_BASE then send base_commands
      else if type =? PLDM_PLATFORM then send pldm_platform_commands
      else if (type =? PLDM_OEM_TYPE) && oem then
        match get_commands with
        | None => pldm_cc_only_response PLDM_ERROR_UNSUPPORTED_PLDM_CMD
        | Some commands => send commands
        end
      else pldm_cc_only_response PLDM_GET_PLDM_COMMANDS_INVALID_PLDM_TYPE_IN_REQUEST_DATA
  end.
Definition pldm_base_build_response (tid : Z) (oem : bool) (command : Z) (payload : list Z) : answer * Z :=
  let len := Z.of_nat (length payload) in
  if command =? PLDM_GET_TID then (pldm_handle_get_tid tid len, tid)
  else if command =? PLDM_SET_TID then pldm_handle_set_tid tid payload
  else if command =? PLDM_GET_PLDM_TYPES then (pldm_handle_get_types oem len, tid)
  else if command =? PLDM_GET_PLDM_VERSION then (pldm_handle_get_version oem payload, tid)
  else if command =? PLDM_GET_PLDM_COMMANDS then (pldm_handle_get_commands oem payload, tid)
  else (pldm_cc_only_response PLDM_ERROR_UNSUPPORTED_PLDM_CMD, tid).

(** * The responder *)
Record tt_pldm_mctp_responder_data := { tid : Z; pdr_dev : option provider; oem_dev : option S }.
Implicit Types (d : tt_pldm_mctp_responder_data).
(** [cfg_tid], [endpoint_id]: of the configuration; [init]: whether [mctp_init] has memory;
    [bus_rc]: of [mctp_register_bus]; [oem_ready]. The return code, and the state if it serves. *)
Definition tt_pldm_mctp_responder_init (init : bool) (bus_rc : Z) (oem_ready : bool) (cfg_tid endpoint_id : Z) (pdr : option provider)
    (oem : option S) : option (Z + tt_pldm_mctp_responder_data) :=
  if negb init then Some (inl (- ENOMEM))
  else if negb (bus_rc =? 0) then Some (inl bus_rc)
  else
    '(rc, pdr) ← (match pdr with
                  | None => Some (0, None)
                  | Some p => '(rc, p) ← pldm_pdr_update_tid_eid p cfg_tid endpoint_id; Some (rc, Some p)
                  end);
    if negb (rc =? 0) then Some (inl rc)
    else if bool_decide (is_Some oem) && negb oem_ready then Some (inl (- ENODEV))
    else Some (inr {| tid := cfg_tid; pdr_dev := pdr; oem_dev := oem |}).
(** [err], [sensor_of]: what the world does during the request. *)
Definition tt_pldm_build_response (err : oem_err) (sensor_of : pldm_pdr_numeric_sensor_desc -> sensor_io) d (msg : list Z)
  : option (answer * tt_pldm_mctp_responder_data) :=
  if Z.of_nat (length msg) <? sizeof_msg_hdr then Some (inl (- EMSGSIZE), d)
  else
    let payload := drop (Z.to_nat sizeof_msg_hdr) msg in
    match unpack_pldm_header msg with
    | inl _ => Some (inl (- EBADMSG), d)
    | inr (msg_type, pldm_type, command) =>
        if negb (msg_type =? PLDM_REQUEST) then Some (inl (- ENOMSG), d)
        else if pldm_type =? PLDM_BASE then
          let '(a, t) := pldm_base_build_response (tid d) (bool_decide (is_Some (oem_dev d))) command payload in
          Some (a, {| tid := t; pdr_dev := pdr_dev d; oem_dev := oem_dev d |})
        else if pldm_type =? PLDM_PLATFORM then
          '(a, pdr) ← pldm_platform_build_response (pdr_dev d) sensor_of command payload;
          Some (a, {| tid := tid d; pdr_dev := pdr; oem_dev := oem_dev d |})
        else match (if pldm_type =? PLDM_OEM_TYPE then oem_dev d else None) with
             | Some s => '(a, s) ← build_response err s command payload; Some (a, {| tid := tid d; pdr_dev := pdr_dev d; oem_dev := Some s |})
             | None => Some (pldm_cc_only_response PLDM_ERROR_INVALID_PLDM_TYPE, d)
             end
    end.
(** A message: the endpoint it came from, its tag, its bytes. *)
Record tt_pldm_rx_work_item := { eid : Z; msg_tag : Z; buf : list Z }.
Implicit Types (it : tt_pldm_rx_work_item).
(** What is sent: to whom, with which tag, the response and its length. *)
Definition tx : Type := Z * Z * pldm_resp * Z.
Definition tt_pldm_mctp_process_rx_message (err : oem_err) sensor_of d it : option (option tx * tt_pldm_mctp_responder_data) :=
  match buf it with
  | t :: msg =>
      if negb (t =? TT_PLDM_MSG_TYPE_PLDM) then Some (None, d)
      else
        '(a, d) ← tt_pldm_build_response err sensor_of d msg;
        match a with
        | inl _ => Some (None, d)
        | inr (r, len) =>
            if len =? 0 then Some (None, d)
            else if TT_PLDM_MAX_MESSAGE_LEN <? len then Some (None, d)
            else Some (Some (eid it, msg_tag it, r, len), d)
        end
  | [] => Some (None, d)
  end.
(** The queue of the responder and its work item; [submits]: messages put whose submission is to come. *)
Record server := { data : tt_pldm_mctp_responder_data; rx_msgq : list tt_pldm_rx_work_item; rx_work : k_work; submits : nat; sent : list tx }.
Implicit Types (v : server).
(** [tt_pldm_mctp_rx_message]: up to the message in the queue, then the submission. *)
Definition rx_put v it : server :=
  let len := Z.of_nat (length (buf it)) in
  if (len <? 1) || (1 + TT_PLDM_MAX_MESSAGE_LEN <? len) then v
  else if TT_PLDM_RX_QUEUE_DEPTH <=? Z.of_nat (length (rx_msgq v)) then v
  else {| data := data v; rx_msgq := rx_msgq v ++ [it]; rx_work := rx_work v; submits := Datatypes.S (submits v); sent := sent v |}.
Definition rx_submit v : server :=
  match submits v with
  | O => v
  | Datatypes.S n =>
      {| data := data v; rx_msgq := rx_msgq v; rx_work := snd (k_work_submit_to_queue 0 (rx_work v)); submits := n; sent := sent v |}
  end.
(** A turn of the loop of [tt_pldm_mctp_rx_work_handler]. *)
Definition rx_turn (err : oem_err) sensor_of v : option server :=
  if negb (bool_decide (handler (rx_work v) = Some Entered)) then Some v
  else match rx_msgq v with
       | [] => Some {| data := data v; rx_msgq := []; rx_work := at_stage (rx_work v) (Some Leaving); submits := submits v; sent := sent v |}
       | it :: q =>
           '(t, d) ← tt_pldm_mctp_process_rx_message err sensor_of (data v) it;
           Some {| data := d; rx_msgq := q; rx_work := rx_work v; submits := submits v; sent := sent v ++ option_list t |}
       end.
Definition with_work v k : server := {| data := data v; rx_msgq := rx_msgq v; rx_work := k; submits := submits v; sent := sent v |}.
Inductive rev :=
  | Arrives it | Submitted | Taken | Turn (err : oem_err) (sensor_of : pldm_pdr_numeric_sensor_desc -> sensor_io) | Returned | Background (x : background).
Definition rstep v (e : rev) : option server :=
  match e with
  | Arrives it => Some (rx_put v it)
  | Submitted => Some (rx_submit v)
  | Taken => Some (with_work v (take_item (rx_work v)))
  | Turn err sensor_of => rx_turn err sensor_of v
  | Returned => Some (with_work v (return_item (rx_work v)))
  | Background x =>
      match oem_dev (data v) with
      | None => Some v
      | Some s =>
          s ← in_background s x;
          Some {| data := {| tid := tid (data v); pdr_dev := pdr_dev (data v); oem_dev := Some s |}; rx_msgq := rx_msgq v; rx_work := rx_work v;
                  submits := submits v; sent := sent v |}
      end
  end.
Fixpoint rrun v (es : list rev) : option server := match es with [] => Some v | e :: es => v ← rstep v e; rrun v es end.
End base.

(** * What the parts promise each other *)
(** The sizes of messages that DSP0240 and DSP0248 give; a count of bytes is not negative. *)
Class PldmSizes `{PldmCodec} `{PldmBaseCodec} : Prop := {
  hdr_size : sizeof_msg_hdr = 3; repo_info_size : PLDM_GET_PDR_REPOSITORY_INFO_RESP_BYTES = 41; get_pdr_size : PLDM_GET_PDR_MIN_RESP_BYTES = 12;
  reading_size : sizeof_sensor_reading_resp = 8; tid_size : PLDM_GET_TID_RESP_BYTES = 2; types_size : PLDM_BASE_GET_PLDM_TYPES_RESP_BYTES = 9;
  commands_size : PLDM_GET_COMMANDS_RESP_BYTES = 33;
  count_nonneg payload h dth op count change : Forall is_byte payload -> decode_get_pdr_req payload = inr (h, dth, op, count, change) -> 0 <= count }.
(** An answer that can be sent: an error, or a message of 1 to 64 bytes. *)
Definition sendable (a : answer) : Prop := match a with inl _ => True | inr (_, len) => 0 < len <= TT_PLDM_MAX_MESSAGE_LEN end.
(** A vendor's handler: it answers every request, with an answer that sendable. *)
Class OemLaws (S : Type) `{pldm_oem_handler_driver_api S} := {
  oem_ok : S -> Prop; background_ok : background -> Prop;
  oem_versions l : get_versions = Some l -> (length l <= 13)%nat;
  oem_answers err s command payload : oem_ok s -> Forall is_byte payload ->
    exists a s', build_response err s command payload = Some (a, s') /\ oem_ok s' /\ sendable a;
  oem_background s x : oem_ok s -> background_ok x -> exists s', in_background s x = Some s' /\ oem_ok s' }.
(** The readings that the sensor API gives: [q31_t], a shift that keeps the exponent below 64, a
    [struct sensor_value]. *)
Definition io_ok (sensor_of : pldm_pdr_numeric_sensor_desc -> sensor_io) : Prop :=
  forall s, - 2 ^ 31 <= q31 (sensor_of s) < 2 ^ 31 /\ - 32 < shift (sensor_of s) /\
    forall v val1 val2, from_micro (sensor_of s) v = inr (val1, val2) -> INT32_MIN <= val1 <= INT32_MAX /\ Z.abs val2 < 1000000.
Section promises.
Context `{LibPldmLaws} `{PldmSizes} {S : Type} `{OemLaws S}.
Implicit Types (d : @tt_pldm_mctp_responder_data S).
Lemma cc_fits cc : sendable (pldm_cc_only_response cc).
Proof. unfold pldm_cc_only_response. destruct (encodes _); [|done]. cbn [sendable]. rewrite hdr_size. unfold TT_PLDM_MAX_MESSAGE_LEN. lia. Qed.
Lemma encoded_fits r len : 0 <= len <= 61 -> sendable (encoded r len).
Proof. intros Hl. unfold encoded. destruct (encodes _); [|done]. cbn [sendable]. rewrite hdr_size. unfold TT_PLDM_MAX_MESSAGE_LEN. lia. Qed.
Lemma base_fits t oem command payload : sendable (fst (pldm_base_build_response t oem command payload)).
Proof.
  pose proof cc_fits as Hcc. unfold pldm_base_build_response.
  destruct (command =? _). { cbn [fst]. unfold pldm_handle_get_tid. destruct (negb _); [auto|]. apply encoded_fits. rewrite tid_size. lia. }
  destruct (command =? _).
  { unfold pldm_handle_set_tid. destruct (negb _); [apply cc_fits|]. destruct (decode_set_tid_req payload) as [|n]; [apply cc_fits|].
    destruct (_ || _); apply cc_fits. }
  destruct (command =? _). { cbn [fst]. unfold pldm_handle_get_types. destruct (negb _); [auto|]. apply encoded_fits. rewrite types_size. lia. }
  destruct (command =? _).
  { cbn [fst]. unfold pldm_handle_get_version. destruct (decode_get_version_req payload) as [|[[h op] type]]; [auto|].
    destruct (negb _); [auto|]. destruct (type =? _); [apply encoded_fits; cbn; lia|]. destruct (type =? _); [apply encoded_fits; cbn; lia|].
    destruct (_ && _); [|auto]. destruct get_versions as [[|x l]|] eqn:Ev; [auto| |auto]. apply encoded_fits.
    pose proof (oem_versions _ Ev). lia. }
  destruct (command =? _); [|apply cc_fits]. cbn [fst]. unfold pldm_handle_get_commands.
  destruct (decode_get_commands_req payload) as [|[type ver]]; [auto|].
  assert (Hs : forall l, sendable (encoded (Commands l) PLDM_GET_COMMANDS_RESP_BYTES)) by (intros; apply encoded_fits; rewrite commands_size; lia).
  destruct (type =? _); [auto|]. destruct (type =? _); [auto|]. destruct (_ && _); [|auto]. destruct get_commands; auto.
Qed.
Lemma get_chunk_sensors p q r p' : pldm_pdr_get_chunk p q = Some (r, p') -> sensors p' = sensors p.
Proof.
  assert (Hb : forall i off, pldm_pdr_build_chunk p i off q = Some (r, p') -> sensors p' = sensors p).
  { intros i off E. unfold pldm_pdr_build_chunk in E. destruct (pldm_pdr_get_record_at_index p i) as [[rc|m]|]; [|..|done]; cbn [mbind option_bind] in E;
      [by simplify_eq|]. destruct (_ <=? off); by simplify_eq. }
  unfold pldm_pdr_get_chunk. intros E. destruct (_ || _); [by simplify_eq|]. destruct (negb (is_ready p)); [by simplify_eq|].
  destruct (_ =? PLDM_GET_FIRSTPART).
  - destruct (_ =? 0); [by eapply Hb|]. destruct (pldm_pdr_find_record_index p _); [by simplify_eq|by eapply Hb].
  - destruct (_ =? PLDM_GET_NEXTPART); [|by simplify_eq]. destruct (_ || _); [by simplify_eq|by eapply Hb].
Qed.
Lemma get_pdr_sensors p payload a p' : pldm_handle_get_pdr (Some p) payload = Some (a, Some p') -> sensors p' = sensors p.
Proof.
  unfold pldm_handle_get_pdr. intros E. destruct (decode_get_pdr_req payload) as [|[[[[h dth] op] count] change]]; [by simplify_eq|].
  destruct (negb _); [by simplify_eq|]. destruct (count =? 0); [by simplify_eq|]. destruct (_ && _); [by simplify_eq|].
  destruct (pldm_pdr_get_chunk p _) as [[r p1]|] eqn:Ec; [|done]. cbn [mbind option_bind] in E. apply get_chunk_sensors in Ec.
  destruct r; by simplify_eq.
Qed.
Lemma spec_fits recs p payload a p' : get_pdr_spec recs p payload a p' -> sendable a.
Proof.
  unfold get_pdr_spec. pose proof cc_fits as Hcc. destruct (decode_get_pdr_req payload) as [|[[[[h dth] op] count] change]]; [intros [-> _]; auto|].
  destruct (refused change count op); [intros [-> _]; auto|]. destruct (located recs p h dth op) as [|[i off]]; [intros [-> _]; auto|].
  intros (h' & bs & _ & _ & Hl & Hle & -> & _). apply encoded_fits. rewrite get_pdr_size. unfold PLDM_GET_PDR_MAX_DATA_LEN in Hle.
  destruct (last_part _ _ _); lia.
Qed.
(** A reading is decoded and scaled without an overflow. *)
Lemma reading_total sensor_of s : io_ok sensor_of -> -3 <= unit_modifier s ->
  exists r, pldm_sensor_read_decode (sensor_of s) = Some r /\
    match r with inl _ => True | inr (val1, val2) => is_Some (pldm_sensor_value_to_s32 val1 val2 (unit_modifier s)) end.
Proof.
  intros Hio Hu. destruct (Hio s) as (Hq & Hsh & Hm). set (io := sensor_of s) in *. unfold pldm_sensor_read_decode.
  do 6 (destruct (_ : bool); [by eexists|]). destruct ((_ =? 0) || (31 <? shift io)) eqn:E; [by eexists|]. zb.
  replace (64 <=? 31 - shift io) with false by (symmetry; apply Z.leb_gt; lia).
  assert (Hi : i64 (q31 io * 1000000) = Some (q31 io * 1000000)).
  { unfold i64. rewrite (proj2 (Z.leb_le _ _)), (proj2 (Z.ltb_lt _ _)) by lia. done. }
  rewrite Hi. cbn [mbind option_bind]. eexists. split; [done|]. destruct (from_micro io _) as [|[val1 val2]] eqn:Ef; [done|].
  destruct (Hm _ _ _ Ef) as [H1' H2']. destruct (to_s32_rounds val1 val2 (unit_modifier s) H1' H2' Hu) as (r & -> & _). by eexists.
Qed.
(** The state in which the responder serves: the repository holds [recs], the vendor's handler is well. *)
Record data_ok (recs : list (Z * list Z)) d : Prop := {
  d_recs : handles_ok recs /\ recs <> [];
  d_pdr : forall p, pdr_dev d = Some p -> holds recs p /\ is_ready p = true /\ tr_ok recs p /\ Forall (fun s => -3 <= unit_modifier s) (sensors p);
  d_oem : forall s, oem_dev d = Some s -> oem_ok s }.
Lemma chunk_error_fits rc : sendable (chunk_error rc).
Proof. unfold chunk_error. pose proof cc_fits. destruct (rc =? - ENOENT); [auto|]. destruct (_ || _); [auto|]. destruct (rc =? - EOPNOTSUPP); auto. Qed.
Lemma find_sensor l id s : pldm_pdr_find_numeric_sensor_by_id l id = Some s -> s ∈ l.
Proof.
  induction l as [|x l IH]; [done|]. cbn. destruct (sensor_id x =? id); [intros [= <-]; apply list_elem_of_here|]. intros E. by apply list_elem_of_further, IH.
Qed.
Lemma sensor_unit recs d id s : data_ok recs d ->
  (p ← pdr_dev d; (if is_ready p then pldm_pdr_find_numeric_sensor_by_id (sensors p) id else None)) = Some s -> -3 <= unit_modifier s.
Proof.
  intros [_ Hpdr _] E. destruct (pdr_dev d) as [p|]; [|done]. cbn [mbind option_bind] in E. destruct (Hpdr p eq_refl) as (_ & Hr & _ & Hu).
  rewrite Hr in E. apply find_sensor in E. by apply (proj1 (list.Forall_forall _ _) Hu).
Qed.
Lemma reading_answers recs d sensor_of payload : data_ok recs d -> io_ok sensor_of ->
  exists a, pldm_handle_get_sensor_reading (pdr_dev d) sensor_of payload = Some a /\ sendable a.
Proof.
  intros Hd Hio. pose proof cc_fits as Hcc. unfold pldm_handle_get_sensor_reading.
  destruct (decode_get_sensor_reading_req payload) as [|[id rearm]]; [by eexists; split; [|auto]|].
  destruct rearm; [by eexists; split; [|auto]|].
  destruct (p ← pdr_dev d; (if is_ready p then pldm_pdr_find_numeric_sensor_by_id (sensors p) id else None)) as [s|] eqn:Ef; [|by eexists; split; [|auto]].
  pose proof (sensor_unit recs d id s Hd Ef) as Hu. destruct (negb (sensor_ready _)); [by eexists; split; [|auto]|].
  destruct (reading_total sensor_of s Hio Hu) as (r & -> & Hs). cbn [mbind option_bind]. destruct r as [|[val1 val2]]; [by eexists; split; [|auto]|].
  destruct Hs as [v ->]. cbn [mbind option_bind]. eexists. split; [reflexivity|]. apply encoded_fits. rewrite reading_size. lia.
Qed.
Lemma platform_total recs d sensor_of command payload : data_ok recs d -> io_ok sensor_of -> Forall is_byte payload ->
  exists a pdr, pldm_platform_build_response (pdr_dev d) sensor_of command payload = Some (a, pdr) /\ sendable a /\
    data_ok recs {| tid := tid d; pdr_dev := pdr; oem_dev := oem_dev d |}.
Proof.
  intros [[Hok Hne] Hpdr Hoem] Hio Hp. pose proof cc_fits as Hcc. unfold pldm_platform_build_response.
  assert (Hsame : data_ok recs {| tid := tid d; pdr_dev := pdr_dev d; oem_dev := oem_dev d |}) by (by constructor).
  destruct (command =? _).
  { eexists _, _. split_and!; [reflexivity | | done]. unfold pldm_handle_get_pdr_repository_info. destruct (negb _); [auto|].
    destruct (match pdr_dev d with None => _ | Some p => _ end); [auto|]. apply encoded_fits. rewrite repo_info_size. lia. }
  destruct (command =? _).
  { destruct (pdr_dev d) as [p|] eqn:Ed.
    - destruct (Hpdr p eq_refl) as (Hh & Hr & Ht & Hu).
      destruct (get_pdr_run recs p payload Hh Hr Hok Hne Ht (fun _ _ _ _ _ => count_nonneg payload _ _ _ _ _ Hp)) as (a & p' & E & Hh' & Ht' & Hr' & Hs).
      eexists _, _. split_and!; [exact E | by eapply spec_fits|]. constructor; [done| |done]. cbn. intros ? [= <-].
      split_and!; try done. by rewrite (get_pdr_sensors _ _ _ _ E).
    - unfold pldm_handle_get_pdr. destruct (decode_get_pdr_req payload) as [|[[[[h dth] op] count] change]]; [eexists _, _; split_and!; [reflexivity | auto | done]|].
      destruct (negb _); [eexists _, _; split_and!; [reflexivity | auto | done]|]. destruct (count =? 0); [eexists _, _; split_and!; [reflexivity | auto | done]|]. destruct (_ && _); [eexists _, _; split_and!; [reflexivity | auto | done]|].
      eexists _, _. split_and!; [reflexivity | | done]. apply chunk_error_fits. }
  destruct (command =? _); [|eexists _, _; split_and!; [reflexivity | auto | done]].
  destruct (reading_answers recs d sensor_of payload) as (a & -> & Ha); [by constructor|done|]. by eexists _, _.
Qed.
Lemma build_total recs d err sensor_of msg : data_ok recs d -> io_ok sensor_of -> Forall is_byte msg ->
  exists a d', tt_pldm_build_response err sensor_of d msg = Some (a, d') /\ sendable a /\ data_ok recs d'.
Proof.
  intros Hd Hio Hm. unfold tt_pldm_build_response. pose proof cc_fits as Hcc. destruct (_ <? sizeof_msg_hdr); [by eexists _, _|].
  destruct (unpack_pldm_header msg) as [|[[mt pt] command]]; [by eexists _, _|]. destruct (negb _); [by eexists _, _|].
  set (payload := drop _ msg). assert (Hp : Forall is_byte payload) by (by apply Forall_drop).
  destruct (pt =? PLDM_BASE).
  { pose proof (base_fits (tid d) (bool_decide (is_Some (oem_dev d))) command payload) as Hf.
    destruct (pldm_base_build_response _ _ _ _) as [a t]. eexists _, _. split_and!; [reflexivity | exact Hf|]. destruct Hd. by constructor. }
  destruct (pt =? PLDM_PLATFORM).
  { destruct (platform_total recs d sensor_of command payload Hd Hio Hp) as (a & pdr & -> & Hf & Hd'). by eexists _, _. }
  destruct (if pt =? PLDM_OEM_TYPE then oem_dev d else None) as [s|] eqn:Es; [|eexists _, _; split_and!; [reflexivity | auto | done]].
  assert (Hs : oem_dev d = Some s) by (by destruct (pt =? PLDM_OEM_TYPE)). destruct Hd as [H1' H2' H3'].
  destruct (oem_answers err s command payload (H3' s Hs) Hp) as (a & s' & -> & Hok & Hf). cbn [mbind option_bind].
  eexists _, _. split_and!; [reflexivity | done|]. constructor; [done|done|]. cbn. by intros ? [= <-].
Qed.
(** The response to a message as a function: nothing but a response that is built decides whether
    one is sent. *)
Definition reply (it : tt_pldm_rx_work_item) (a : answer) : option tx :=
  match a with inl _ => None | inr (r, len) => Some (eid it, msg_tag it, r, len) end.
Lemma process_total recs d err sensor_of it : data_ok recs d -> io_ok sensor_of -> Forall is_byte (buf it) ->
  exists t d', tt_pldm_mctp_process_rx_message err sensor_of d it = Some (t, d') /\ data_ok recs d' /\
    forall msg, buf it = TT_PLDM_MSG_TYPE_PLDM :: msg -> exists a, tt_pldm_build_response err sensor_of d msg = Some (a, d') /\ t = reply it a.
Proof.
  intros Hd Hio Hb. unfold tt_pldm_mctp_process_rx_message. destruct (buf it) as [|ty msg]; [by eexists _, _|].
  destruct (Z.eqb_spec ty TT_PLDM_MSG_TYPE_PLDM) as [->|Hne]; cbn [negb]; [|eexists _, _; split_and!; [reflexivity | done | by intros ? [= ? _]]].
  apply list.Forall_cons in Hb as [_ Hb]. destruct (build_total recs d err sensor_of msg Hd Hio Hb) as (a & d' & E & Hf & Hd').
  rewrite E. cbn [mbind option_bind]. destruct a as [rc|[r len]].
  - eexists _, _. split_and!; [reflexivity | done|]. intros ? [= <-]. by eexists.
  - cbn [sendable] in Hf. rewrite (proj2 (Z.eqb_neq _ _)), (proj2 (Z.ltb_ge _ _)) by lia.
    eexists _, _. split_and!; [reflexivity | done|]. intros ? [= <-]. by eexists.
Qed.
(** ** The server *)
(** A server without a queue: messages and what the vendor's handler does in between, one at a time. *)
Inductive entry := Message (it : tt_pldm_rx_work_item) (err : oem_err) (sensor_of : pldm_pdr_numeric_sensor_desc -> sensor_io) | Between (x : background).
Definition serve1 d (e : entry) : option (list tx * @tt_pldm_mctp_responder_data S) :=
  match e with
  | Message it err sensor_of => '(t, d) ← tt_pldm_mctp_process_rx_message err sensor_of d it; Some (option_list t, d)
  | Between x => match oem_dev d with
                 | None => Some ([], d)
                 | Some s => s ← in_background s x; Some ([], {| tid := tid d; pdr_dev := pdr_dev d; oem_dev := Some s |})
                 end
  end.
Fixpoint serve d (l : list entry) : option (list tx * tt_pldm_mctp_responder_data) :=
  match l with
  | [] => Some ([], d)
  | e :: l => '(t, d) ← serve1 d e; '(ts, d) ← serve d l; Some (t ++ ts, d)
  end.
Definition messages (l : list entry) : list tt_pldm_rx_work_item := omap (fun e => match e with Message it _ _ => Some it | _ => None end) l.
Lemma serve_app l1 l2 : forall d ts d' t d'', serve d l1 = Some (ts, d') -> serve d' l2 = Some (t, d'') -> serve d (l1 ++ l2) = Some (ts ++ t, d'').
Proof.
  induction l1 as [|x l IH]; intros d ts d' t d'' E1 E2; cbn [serve app] in *; [by injection E1 as <- <-|].
  destruct (serve1 d x) as [[t1 d1]|]; [|done]. cbn [mbind option_bind] in *. destruct (serve d1 l) as [[t2 d2]|] eqn:E; [|done].
  cbn [mbind option_bind] in *. injection E1 as <- <-. rewrite (IH _ _ _ _ _ E E2). cbn [mbind option_bind]. by rewrite app_assoc.
Qed.
(** The messages that a run of events puts into the queue. *)
Definition takes (v : @server S) it : bool :=
  let len := Z.of_nat (length (buf it)) in
  (1 <=? len) && (len <=? 65) && (Z.of_nat (length (rx_msgq v)) <? 8).
Fixpoint queued (v : @server S) (es : list rev) : list tt_pldm_rx_work_item :=
  match es with
  | [] => []
  | e :: es =>
      (match e with Arrives it => if takes v it then [it] else [] | _ => [] end) ++
      (match rstep v e with Some v => queued v es | None => [] end)
  end.
Definition ev_ok (e : rev) : Prop :=
  match e with
  | Arrives it => Forall is_byte (buf it)
  | Turn _ sensor_of => io_ok sensor_of
  | Background x => background_ok x
  | _ => True
  end.
(** A message in the queue has its work item submitted, about to be, or in its loop. *)
Definition attended (v : @server S) : Prop :=
  rx_msgq v <> [] -> work_queued (rx_work v) = true \/ handler (rx_work v) = Some Entered \/ (0 < submits v)%nat.
Record server_ok (recs : list (Z * list Z)) (v : @server S) : Prop := {
  s_data : data_ok recs (data v); s_queue : (length (rx_msgq v) <= 8)%nat; s_bytes : Forall (fun it => Forall is_byte (buf it)) (rx_msgq v);
  s_attended : attended v; s_shell : handler (rx_work v) <> Some InShell }.
Definition arrived (v : @server S) (e : rev) : list tt_pldm_rx_work_item :=
  match e with Arrives it => if takes v it then [it] else [] | _ => [] end.
(** What an event does: the server serves what it takes from the queue. *)
Definition advances (recs : list (Z * list Z)) (v : @server S) (new : list tt_pldm_rx_work_item) (v' : @server S) : Prop :=
  server_ok recs v' /\ exists en ts, serve (data v) en = Some (ts, data v') /\ sent v' = sent v ++ ts /\
    messages en ++ rx_msgq v' = rx_msgq v ++ new.
Lemma advances_idle recs v new v' : server_ok recs v' -> data v' = data v -> sent v' = sent v -> rx_msgq v' = rx_msgq v ++ new -> advances recs v new v'.
Proof. intros Hv Hd Hs Hq. split; [done|]. exists [], []. cbn. by rewrite Hd, Hs, Hq, app_nil_r. Qed.
Lemma put_advances recs v it : server_ok recs v -> Forall is_byte (buf it) -> advances recs v (arrived v (Arrives it)) (rx_put v it).
Proof.
  intros Hv Hb. pose proof Hv as [Hd Hq Hbs Ha Hh]. unfold rx_put, arrived, takes, TT_PLDM_MAX_MESSAGE_LEN, TT_PLDM_RX_QUEUE_DEPTH.
  destruct ((_ <? 1) || (1 + 64 <? _)) eqn:E1.
  { replace ((1 <=? Z.of_nat (length (buf it))) && (Z.of_nat (length (buf it)) <=? 65)) with false
      by (symmetry; apply andb_false_iff; destruct (Z.leb_spec 1 (Z.of_nat (length (buf it)))); [right; apply Z.leb_gt; zlia|by left]).
    cbn [andb].
    apply advances_idle; rewrite ?app_nil_r; done. }
  destruct (Z.leb_spec 8 (Z.of_nat (length (rx_msgq v)))) as [Hf|Hf].
  { replace (Z.of_nat (length (rx_msgq v)) <? 8) with false by (symmetry; apply Z.ltb_ge; lia). rewrite andb_false_r.
    apply advances_idle; rewrite ?app_nil_r; done. }
  zb. rewrite (proj2 (Z.ltb_lt _ _)) by lia. rewrite !(proj2 (Z.leb_le _ _)) by lia. cbn [andb].
  apply advances_idle; try done. constructor; cbn [data rx_msgq rx_work submits sent]; try done.
  - rewrite length_app. cbn. lia.
  - apply Forall_app_2; [done|]. by apply list.Forall_singleton.
  - intros _. right. right. cbn. lia.
Qed.
Lemma work_advances recs v k n : server_ok recs v -> handler k <> Some InShell ->
  (rx_msgq v <> [] -> work_queued k = true \/ handler k = Some Entered \/ (0 < n)%nat) ->
  advances recs v [] {| data := data v; rx_msgq := rx_msgq v; rx_work := k; submits := n; sent := sent v |}.
Proof. intros [Hd Hq Hbs Ha Hh] Hk Hn. apply advances_idle; by rewrite ?app_nil_r. Qed.
Lemma turn_advances recs v err sensor_of : server_ok recs v -> io_ok sensor_of ->
  exists v', rx_turn err sensor_of v = Some v' /\ advances recs v [] v'.
Proof.
  intros Hv Hio. pose proof Hv as [Hd Hq Hbs Ha Hh]. unfold rx_turn.
  destruct (bool_decide (handler (rx_work v) = Some Entered)) eqn:Ee; cbn [negb].
  2: { eexists. split; [reflexivity|]. apply advances_idle; rewrite ?app_nil_r; done. }
  destruct (rx_msgq v) as [|it q] eqn:Em.
  { eexists. split; [reflexivity|]. apply advances_idle; [|done|done|by rewrite Em]. constructor; try done. by intros []. }
  apply list.Forall_cons in Hbs as [Hb Hbs]. destruct (process_total recs (data v) err sensor_of it Hd Hio Hb) as (t & d' & E & Hd' & _).
  rewrite E. cbn [mbind option_bind]. eexists. split; [reflexivity|]. apply bool_decide_eq_true in Ee. cbn [length] in Hq. split.
  - constructor; try done; cbn; [lia|]. intros _. by right; left.
  - exists [Message it err sensor_of], (option_list t). cbn [serve serve1]. rewrite E. cbn. rewrite !app_nil_r, Em. done.
Qed.
Lemma step_advances recs v e : server_ok recs v -> ev_ok e -> exists v', rstep v e = Some v' /\ advances recs v (arrived v e) v'.
Proof.
  intros Hv He. pose proof Hv as [Hd Hq Hbs Ha Hh]. destruct e as [it| | |err sensor_of| |x]; cbn [rstep].
  - eexists. split; [reflexivity|]. by apply put_advances.
  - eexists. split; [reflexivity|]. unfold rx_submit. destruct (submits v) eqn:En; [apply advances_idle; by rewrite ?app_nil_r|].
    apply work_advances; [done| |]; unfold k_work_submit_to_queue; destruct (work_queued (rx_work v)) eqn:Eq; cbn; auto.
  - eexists. split; [reflexivity|]. apply work_advances; [done| |]; unfold take_item.
    + by destruct (_ && _).
    + intros Hne. destruct (work_queued (rx_work v)) eqn:Eq; cbn [andb]; [|specialize (Ha Hne); by rewrite Eq in Ha |- *].
      destruct (negb _); cbn; [by right; left|by left].
  - by apply turn_advances.
  - eexists. split; [reflexivity|]. apply work_advances; [done| |]; unfold return_item.
    + by destruct (bool_decide _).
    + intros Hne. specialize (Ha Hne). destruct (bool_decide _) eqn:Eb; [|done]. apply bool_decide_eq_true in Eb. rewrite Eb in Ha. cbn.
      destruct Ha as [?|[?|?]]; [by left|done|by right; right].
  - destruct (oem_dev (data v)) as [s|] eqn:Eo; [|eexists; split; [reflexivity|]; apply advances_idle; by rewrite ?app_nil_r].
    destruct (oem_background s x (d_oem _ _ Hd s Eo) He) as (s' & E & Hok). rewrite E. cbn [mbind option_bind]. eexists. split; [reflexivity|].
    split.
    + constructor; try done. destruct Hd. constructor; try done. cbn. by intros ? [= <-].
    + exists [Between x], []. cbn [serve serve1]. rewrite Eo, E. cbn. by rewrite !app_nil_r.
Qed.
Lemma run_advances recs es : forall v, server_ok recs v -> Forall ev_ok es -> exists v', rrun v es = Some v' /\ advances recs v (queued v es) v'.
Proof.
  induction es as [|e es IH]; intros v Hv He; cbn [rrun queued].
  { eexists. split; [reflexivity|]. apply advances_idle; by rewrite ?app_nil_r. }
  apply list.Forall_cons in He as [He Hes]. destruct (step_advances recs v e Hv He) as (v1 & E1 & Hv1 & en1 & ts1 & S1 & T1 & M1).
  rewrite E1. cbn [mbind option_bind]. destruct (IH v1 Hv1 Hes) as (v2 & E2 & Hv2 & en2 & ts2 & S2 & T2 & M2).
  exists v2. split; [done|]. split; [done|]. exists (en1 ++ en2), (ts1 ++ ts2). split_and!.
  - by apply (serve_app _ _ _ _ _ _ _ S1).
  - by rewrite T2, T1, app_assoc.
  - unfold messages in *. rewrite omap_app, <- app_assoc, M2, app_assoc, M1, <- app_assoc. done.
Qed.
(** What the work queue does to get to an empty queue, from any state. *)
Definition drain (v : @server S) (err : oem_err) sensor_of : list rev :=
  replicate (submits v) Submitted ++ replicate 9 (Turn err sensor_of) ++ [Returned; Taken] ++ replicate 9 (Turn err sensor_of).
Lemma rrun_app es1 : forall (v : @server S) es2, rrun v (es1 ++ es2) = (v ← rrun v es1; rrun v es2).
Proof. induction es1 as [|e es1 IH]; intros v es2; [done|]. cbn [rrun app]. destruct (rstep v e); [apply IH|done]. Qed.
Lemma submits_run n : forall v : @server S, submits v = n -> exists v', rrun v (replicate n Submitted) = Some v' /\ submits v' = 0%nat /\
  rx_msgq v' = rx_msgq v /\ queued v (replicate n Submitted) = [].
Proof.
  induction n as [|n IH]; intros v Hn; [by exists v|]. cbn [replicate rrun rstep mbind option_bind queued app].
  destruct (IH (rx_submit v)) as (v' & E & H1' & H2' & H3'); [unfold rx_submit; by rewrite Hn|]. exists v'.
  rewrite E, H2', H3'. unfold rx_submit. by rewrite Hn.
Qed.
(** Turns of the loop: the queue loses as many messages, then the loop ends. *)
Lemma turns_run recs err sensor_of n : io_ok sensor_of -> forall v, server_ok recs v -> exists v', rrun v (replicate n (Turn err sensor_of)) = Some v' /\
  queued v (replicate n (Turn err sensor_of)) = [] /\ submits v' = submits v /\ work_queued (rx_work v') = work_queued (rx_work v) /\
  (rx_msgq v = [] -> rx_msgq v' = []) /\
  (handler (rx_work v) <> Some Entered -> rx_work v' = rx_work v) /\
  (handler (rx_work v) = Some Entered -> (length (rx_msgq v) < n)%nat -> rx_msgq v' = [] /\ handler (rx_work v') = Some Leaving).
Proof.
  intros Hio. induction n as [|n IH]; intros v Hv; [exists v; split_and!; try done; intros; lia|]. cbn [replicate rrun rstep queued app].
  destruct (turn_advances recs v err sensor_of Hv Hio) as (v1 & E1 & Hv1 & _). rewrite E1. cbn [mbind option_bind].
  destruct (IH v1 Hv1) as (v' & E & Q & Sb & Wq & Em & Hne & He). exists v'. rewrite E, Q, Sb, Wq. unfold rx_turn in E1.
  destruct (bool_decide (handler (rx_work v) = Some Entered)) eqn:Eb; cbn [negb] in E1.
  2: { injection E1 as <-. apply bool_decide_eq_false in Eb. by split_and!. }
  apply bool_decide_eq_true in Eb. destruct (rx_msgq v) as [|it q] eqn:Eq.
  - injection E1 as <-. cbn in *. split_and!; try done. intros _ _. split; [by apply Em|]. by rewrite Hne by done.
  - destruct (tt_pldm_mctp_process_rx_message _ _ _ _) as [[t d]|]; [|done]. cbn [mbind option_bind] in E1. injection E1 as <-. cbn in *.
    split_and!; try done. intros _ Hl. apply He; [done|lia].
Qed.
Lemma queued_app es1 : forall (v : @server S) es2,
  queued v (es1 ++ es2) = queued v es1 ++ match rrun v es1 with Some v => queued v es2 | None => [] end.
Proof.
  induction es1 as [|e es1 IH]; intros v es2; [done|]. cbn [queued rrun app]. rewrite <- app_assoc. f_equal.
  destruct (rstep v e); [apply IH|done].
Qed.
Lemma run_ok recs es v v' : server_ok recs v -> Forall ev_ok es -> rrun v es = Some v' -> server_ok recs v'.
Proof. intros Hv He E. destruct (run_advances recs es v Hv He) as (v1 & E1 & Hv1 & _). by simplify_eq. Qed.
(** After the first turns: an item that is queued is taken, and its turns empty the queue. *)
Lemma second_turns recs v err sensor_of : server_ok recs v -> io_ok sensor_of -> submits v = 0%nat -> handler (rx_work v) <> Some Entered ->
  exists v', rrun v ([Returned; Taken] ++ replicate 9 (Turn err sensor_of)) = Some v' /\ rx_msgq v' = [] /\
    queued v ([Returned; Taken] ++ replicate 9 (Turn err sensor_of)) = [].
Proof.
  intros Hv Hio Hs Hne. rewrite rrun_app, queued_app. set (w := with_work (with_work v (return_item (rx_work v))) (take_item (return_item (rx_work v)))).
  change (rrun v [Returned; Taken]) with (Some w). cbn [mbind option_bind]. assert (Hw : server_ok recs w)
    by (apply (run_ok recs [Returned; Taken] v w Hv); [by repeat constructor|done]).
  destruct (turns_run recs err sensor_of 9 Hio w Hw) as (v' & E & Q & _ & _ & Em & _ & He). exists v'. split; [done|]. rewrite Q. split; [|done].
  destruct (rx_msgq v) as [|it q] eqn:Eq; [by apply Em|]. apply He.
  - destruct Hv as [_ _ _ Ha Hh]. destruct (Ha ltac:(by rewrite Eq)) as [Hq|[?|?]]; [|done|lia]. subst w. cbn. unfold return_item.
    destruct (rx_work v) as [wq h]. cbn in *. subst wq. by destruct h as [[| |]|].
  - destruct Hv as [_ Hl _ _ _]. subst w. cbn. rewrite Eq in *. lia.
Qed.
Lemma drain_run recs v err sensor_of : server_ok recs v -> io_ok sensor_of ->
  exists v', rrun v (drain v err sensor_of) = Some v' /\ rx_msgq v' = [] /\ advances recs v [] v'.
Proof.
  intros Hv Hio. assert (Hok : Forall ev_ok (drain v err sensor_of)).
  { unfold drain. rewrite !list.Forall_app. split_and!; try (by apply Forall_replicate); by repeat constructor. }
  destruct (submits_run _ v eq_refl) as (v1 & E1 & S1 & _ & Q1). assert (Hv1 : server_ok recs v1)
    by (apply (run_ok _ _ _ _ Hv) in E1; [done|by apply Forall_replicate]).
  destruct (turns_run recs err sensor_of 9 Hio v1 Hv1) as (v2 & E2 & Q2 & S2 & W2 & _ & N2 & T2). assert (Hv2 : server_ok recs v2)
    by (apply (run_ok _ _ _ _ Hv1) in E2; [done|by apply Forall_replicate]).
  assert (Hne : handler (rx_work v2) <> Some Entered).
  { destruct (decide (handler (rx_work v1) = Some Entered)) as [He|He]; [|by rewrite N2].
    destruct (T2 He) as [_ ->]; [|done]. destruct Hv1 as [_ Hl _ _ _]. lia. }
  destruct (second_turns recs v2 err sensor_of Hv2 Hio ltac:(congruence) Hne) as (v3 & E3 & M3 & Q3).
  assert (E : rrun v (drain v err sensor_of) = Some v3).
  { unfold drain. rewrite rrun_app, E1. cbn [mbind option_bind]. rewrite rrun_app, E2. exact E3. }
  assert (Q : queued v (drain v err sensor_of) = []).
  { unfold drain. rewrite queued_app, Q1, E1, queued_app, Q2, E2. exact Q3. }
  exists v3. split_and!; [done | done |]. destruct (run_advances recs _ v Hv Hok) as (v3' & E' & Ha). rewrite Q in Ha. by simplify_eq.
Qed.
End promises.

(** * The shell as the vendor's handler *)
#[global] Instance shell_api `{PldmCodec} : pldm_oem_handler_driver_api ssys := {|
  get_versions := Some tt_pldm_oem_versions; get_commands := Some tt_pldm_oem_commands; oem_err := Z;
  build_response err s command payload := '(a, s) ← sstep s (Req err command payload); a ← a; Some (a, s);
  background := sev; in_background s e := match e with Req _ _ _ => Some s | _ => snd <$> sstep s e end |}.
Definition positive (a : answer) : Prop := match a with inl _ => True | inr (_, len) => 0 < len end.
Section shell_handler.
Context `{PldmSizes}.
Lemma cc_positive cc : positive (pldm_cc_only_response cc).
Proof. unfold pldm_cc_only_response. destruct (encodes _); [|done]. cbn. rewrite hdr_size. lia. Qed.
Lemma shell_positive payload : positive (shell_resp payload).
Proof. unfold shell_resp. cbn. rewrite hdr_size. lia. Qed.
Lemma bstep_positive b err command payload : exists a, fst (bstep b (Req err command payload)) = Some a /\ positive a.
Proof.
  pose proof cc_positive as Hcc. pose proof shell_positive as Hs. cbn [bstep]. destruct (command =? _).
  { destruct (exec_spec err b payload) as [a b'] eqn:E. exists a. split; [done|]. unfold exec_spec in E.
    repeat (case_match; simplify_eq; try apply Hcc; try apply Hs; try done). }
  destruct (command =? _).
  { eexists. split; [done|]. unfold result_spec. destruct (negb _); [auto|]. destruct (negb _); [done|].
    destruct (job b) as [[[id t] ph]|]; [|auto]. destruct (_ || _); [auto|apply Hs]. }
  destruct (command =? _); [|by eexists; split; [|apply Hcc]].
  destruct (cancel_spec b payload) as [a b'] eqn:E. exists a. split; [done|]. unfold cancel_spec in E.
  repeat (case_match; simplify_eq; try apply Hcc; try apply Hs; try done).
Qed.
Definition shell_ok (s : ssys) : Prop := ctx_typed (ctx s) /\ exists b, refines s b.
Lemma shell_step s e a s' : shell_ok s -> ev_typed e -> sstep s e = Some (a, s') -> shell_ok s'.
Proof.
  intros [Ht [b Hr]] He E. split; [by apply (sstep_typed _ _ _ _ E He Ht)|].
  destruct (step_sim s b e Hr) as (s1 & E1 & Hr1); [by intros ? ? ? ->|]. simplify_eq. by eexists.
Qed.
Lemma shell_answers err s command payload : shell_ok s -> Forall is_byte payload ->
  exists a s', build_response err s command payload = Some (a, s') /\ shell_ok s' /\ sendable a.
Proof.
  intros Hs Hp. pose proof Hs as [Ht [b Hr]].
  destruct (step_sim s b (Req err command payload) Hr) as (s' & E & _); [by intros ? ? ? [= <- <- <-]|].
  destruct (bstep_positive b err command payload) as (a & Ea & Hpos). rewrite Ea in E.
  destruct (sstep_typed _ _ _ _ E Hp Ht) as [_ Hl]. exists a, s'. cbn [build_response shell_api]. rewrite E. cbn [mbind option_bind].
  split_and!; [done | exact (shell_step s (Req err command payload) _ _ Hs Hp E) |]. destruct a as [|[r len]]; [done|]. cbn [from_option answer_len positive sendable] in *. rewrite hdr_size in Hl.
  unfold TT_PLDM_MAX_MESSAGE_LEN. lia.
Qed.
Lemma shell_background s e : shell_ok s -> ev_typed e -> exists s', in_background s e = Some s' /\ shell_ok s'.
Proof.
  intros Hs He. assert (Hstep : exists s', snd <$> sstep s e = Some s' /\ shell_ok s').
  { pose proof Hs as [Ht [b Hr]]. destruct (step_sim s b e Hr) as (s' & E & _); [by intros ? ? ? ->|]. exists s'. rewrite E.
    split; [done|by eapply shell_step]. }
  destruct e; [by exists s|exact Hstep..].
Qed.
Lemma shell_versions l : @get_versions ssys _ = Some l -> (length l <= 13)%nat.
Proof. intros [= <-]. cbn. lia. Qed.
#[global] Instance shell_laws : OemLaws ssys := {|
  oem_ok := shell_ok; background_ok := ev_typed : background -> Prop; oem_versions := shell_versions; oem_answers := shell_answers;
  oem_background := shell_background |}.
End shell_handler.

(** * Theorems *)
Definition idle_server {S} (d : @tt_pldm_mctp_responder_data S) : @server S :=
  {| data := d; rx_msgq := []; rx_work := {| work_queued := false; handler := None |}; submits := 0; sent := [] |}.
Definition served_records `{LibPldm} (l : list pldm_pdr_numeric_sensor_desc) (tid eid : Z) : list (Z * list Z) :=
  (PLDM_PDR_RECORD_HANDLE, tl_bytes (with_tid terminus_locator tid eid)) :: sensor_records PLDM_PDR_RECORD_HANDLE l.
Section responder.
Context `{LibPldmLaws} `{PldmSizes} {S : Type} `{OemLaws S}.
(** Start-up of the repository and of the responder. *)
Lemma responder_start (l : list pldm_pdr_numeric_sensor_desc) cfg_tid endpoint_id (oem : option S) :
  fits l -> Forall (fun s => -3 <= unit_modifier s) l -> (forall s, oem = Some s -> oem_ok s) ->
  exists p d, pldm_pdr_provider_init (PLDM_PDR_PROVIDER_DEFINE l) = Some (0, p) /\
    tt_pldm_mctp_responder_init true 0 true cfg_tid endpoint_id (Some p) oem = Some (inr d) /\
    server_ok (served_records l cfg_tid endpoint_id) (idle_server d).
Proof.
  intros Hf Hu Ho. destruct (init_run l Hf) as (p & E1 & Hh & Hr & Ht & Hs).
  destruct (update_run _ _ _ p cfg_tid endpoint_id Hh Hr eq_refl) as (p' & E2 & Hh' & Hr' & Ht' & Hs').
  exists p. unfold tt_pldm_mctp_responder_init. cbn [negb]. rewrite E2. cbn [Z.eqb negb mbind option_bind]. rewrite andb_false_r.
  eexists. split_and!; [done | done |]. constructor; cbn [data rx_msgq rx_work idle_server handler length]; [|lia|done|by intros []|done].
  constructor; cbn [pdr_dev oem_dev].
  - split; [|done]. apply with_handles. apply sizes_ok.
  - intros ? [= <-]. split_and!; try done; [|by rewrite Hs', Hs]. intros E. congruence.
  - done.
Qed.
(** C9. From start-up on, whatever arrives in whatever order with the steps of the work queue and of the
    vendor's handler: at most eight messages wait, and once the work queue has run, every message that
    was accepted has been served, in order and once, as by a server without a queue, and what that
    server answers has been sent to where the message came from. No step fails. *)
Theorem responder_answers (l : list pldm_pdr_numeric_sensor_desc) (cfg_tid endpoint_id : Z) (oem : option S) (es : list rev)
    (err : oem_err) (sensor_of : pldm_pdr_numeric_sensor_desc -> sensor_io) :
  fits l -> Forall (fun s => -3 <= unit_modifier s) l -> (forall s, oem = Some s -> oem_ok s) -> Forall ev_ok es -> io_ok sensor_of ->
  exists p d v v' log,
    pldm_pdr_provider_init (PLDM_PDR_PROVIDER_DEFINE l) = Some (0, p) /\
    tt_pldm_mctp_responder_init true 0 true cfg_tid endpoint_id (Some p) oem = Some (inr d) /\
    rrun (idle_server d) es = Some v /\ (length (rx_msgq v) <= 8)%nat /\
    rrun v (drain v err sensor_of) = Some v' /\ rx_msgq v' = [] /\
    serve d log = Some (sent v', data v') /\ messages log = queued (idle_server d) es.
Proof.
  intros Hf Hu Ho Hes Hio. destruct (responder_start l cfg_tid endpoint_id oem Hf Hu Ho) as (p & d & E1 & E2 & Hv0).
  destruct (run_advances _ es _ Hv0 Hes) as (v & E3 & Hv & en1 & ts1 & S1 & T1 & M1).
  destruct (drain_run _ v err sensor_of Hv Hio) as (v' & E4 & M4 & _ & en2 & ts2 & S2 & T2 & M2).
  exists p, d, v, v', (en1 ++ en2). split_and!; try done; [by destruct Hv| |].
  - rewrite T2, T1. cbn [sent idle_server app]. by apply (serve_app _ _ _ _ _ _ _ S1).
  - cbn [rx_msgq idle_server app] in M1. unfold messages in *. rewrite omap_app. rewrite M4, !app_nil_r in M2. by rewrite M2, M1.
Qed.
(** C40. Every response that is built is sent: none is longer than the buffer for it. *)
Theorem responses_fit (recs : list (Z * list Z)) (d : @tt_pldm_mctp_responder_data S) (err : oem_err) sensor_of (it : tt_pldm_rx_work_item)
    (msg : list Z) : data_ok recs d -> io_ok sensor_of -> Forall is_byte (buf it) -> buf it = TT_PLDM_MSG_TYPE_PLDM :: msg ->
  exists a d', tt_pldm_build_response err sensor_of d msg = Some (a, d') /\ sendable a /\
    tt_pldm_mctp_process_rx_message err sensor_of d it = Some (reply it a, d') /\ data_ok recs d'.
Proof.
  intros Hd Hio Hb Hm. destruct (process_total recs d err sensor_of it Hd Hio Hb) as (t & d' & E & Hd' & Hr).
  destruct (Hr msg Hm) as (a & Ea & ->). rewrite Hm in Hb. apply list.Forall_cons in Hb as [_ Hb].
  destruct (build_total recs d err sensor_of msg Hd Hio Hb) as (a' & d'' & Ea' & Hs & _). exists a, d'. simplify_eq. by split_and!.
Qed.
End responder.

(** ** Concrete runs *)
Definition base_codec : PldmBaseCodec := {|
  PLDM_BASE := 0; PLDM_PLATFORM := 2; PLDM_REQUEST := 1; PLDM_SET_TID := 1; PLDM_GET_TID := 2; PLDM_GET_PLDM_VERSION := 3;
  PLDM_GET_PLDM_TYPES := 4; PLDM_GET_PLDM_COMMANDS := 5; PLDM_GET_TID_REQ_BYTES := 0; PLDM_GET_TID_RESP_BYTES := 2;
  PLDM_SET_TID_REQ_BYTES := 1; PLDM_GET_TYPES_REQ_BYTES := 0; PLDM_BASE_GET_PLDM_TYPES_RESP_BYTES := 9; PLDM_GET_COMMANDS_RESP_BYTES := 33;
  PLDM_GET_PLDM_VERSION_INVALID_TRANSFER_OPERATION_FLAG := 0x81; PLDM_GET_PLDM_VERSION_INVALID_PLDM_TYPE_IN_REQUEST_DATA := 0x83;
  PLDM_GET_PLDM_COMMANDS_INVALID_PLDM_TYPE_IN_REQUEST_DATA := 0x83;
  decode_set_tid_req l := inr (nth 0 l 0);
  decode_get_version_req l := if (length l =? 6)%nat then inr (u32_field l 0, nth 4 l 0, nth 5 l 0) else inl 3;
  decode_get_commands_req l := if (length l =? 5)%nat then inr (nth 0 l 0, u32_field l 1) else inl 3;
  unpack_pldm_header l := inr (Z.shiftr (nth 0 l 0) 7, Z.land (nth 1 l 0) 63, nth 2 l 0) |}.
Lemma field_nonneg (n off : nat) l : Forall is_byte l -> 0 <= le_value (take n (drop off l)).
Proof. intros Hl. apply le_value_range. by apply Forall_take, Forall_drop. Qed.
Lemma codec_sizes : @PldmSizes codec base_codec.
Proof.
  constructor; try done. intros payload h dth op count change Hp E. cbn in E. destruct (_ =? 13)%nat; [|done]. injection E as <- <- <- <- <-.
  by apply field_nonneg.
Qed.
#[local] Existing Instances libpldm libpldm_laws codec base_codec codec_sizes.
(** A sensor that reads 1. *)
Definition quiet_sensor (s : pldm_pdr_numeric_sensor_desc) : sensor_io :=
  {| sensor_ready := true; get_decoder_rc := 0; get_size_rc := 0; base_size := 4; reconfigure_rc := 0; read_rc := 0; decode_rc := 1;
     reading_count := 1; shift := 0; q31 := 1; from_micro v := inr (0, 1) |}.
Lemma quiet_ok : io_ok quiet_sensor.
Proof. intros s. cbn. split_and!; try lia. intros v a b [= <- <-]. unfold INT32_MIN, INT32_MAX. lia. Qed.
(** SetTID 9, a shell command, GetTID; all from endpoint 8 with tags 1 to 3. *)
Definition set_tid_msg := {| eid := 8; msg_tag := 1; buf := [1; 128; 0; 1; 9] |}.
Definition exec_msg := {| eid := 8; msg_tag := 2; buf := [1; 128; 63; 1] ++ version_payload |}.
Definition get_tid_msg := {| eid := 8; msg_tag := 3; buf := [1; 128; 0; 2] |}.
Lemma shell_start_ok : shell_ok shell_start.
Proof. split; [apply start_typed|]. exists empty_mailbox. apply refines_start. Qed.
Definition no_err : @oem_err ssys shell_api := 0.
Definition turn : @rev ssys shell_api := @Turn ssys shell_api no_err quiet_sensor.
Definition arrivals : list (@rev ssys shell_api) :=
  [Arrives set_tid_msg; Submitted; Taken; Arrives exec_msg; turn; Arrives get_tid_msg].
Lemma arrivals_ok : Forall (@ev_ok ssys shell_api shell_laws) arrivals.
Proof. repeat (apply Forall_cons_2; [first [exact I | exact quiet_ok | bytes]|]). apply Forall_nil_2. Qed.
Lemma two_sensors_fit : fits two_sensors /\ Forall (fun s => -3 <= unit_modifier s) two_sensors.
Proof.
  split; [split; [repeat (apply Forall_cons_2; [cbn; lia|]); done | split; reflexivity]|]. repeat (apply Forall_cons_2; [cbn; lia|]). apply Forall_nil_2.
Qed.
Lemma responder_answers_witness : exists p d v v' log,
  pldm_pdr_provider_init (PLDM_PDR_PROVIDER_DEFINE two_sensors) = Some (0, p) /\
  tt_pldm_mctp_responder_init true 0 true 1 20 (Some p) (Some shell_start) = Some (inr d) /\
  rrun (idle_server d) arrivals = Some v /\ (length (rx_msgq v) <= 8)%nat /\
  rrun v (drain v no_err quiet_sensor) = Some v' /\ rx_msgq v' = [] /\
  serve d log = Some (sent v', data v') /\ messages log = queued (idle_server d) arrivals.
Proof.
  apply (responder_answers two_sensors 1 20 (Some shell_start) arrivals no_err quiet_sensor).
  - apply two_sensors_fit.
  - apply two_sensors_fit.
  - intros s E. injection E as <-. exact shell_start_ok.
  - exact arrivals_ok.
  - exact quiet_ok.
Defined.
Definition shell_only : @tt_pldm_mctp_responder_data ssys := {| tid := 1; pdr_dev := None; oem_dev := Some shell_start |}.
Lemma responses_fit_witness : exists a d',
  tt_pldm_build_response no_err quiet_sensor shell_only [128; 0; 1; 9] = Some (a, d') /\ sendable a /\
  tt_pldm_mctp_process_rx_message no_err quiet_sensor shell_only set_tid_msg = Some (reply set_tid_msg a, d') /\
  data_ok [(7, [1])] d'.
Proof.
  apply (responses_fit [(7, [1])] shell_only no_err quiet_sensor set_tid_msg [128; 0; 1; 9]).
  - constructor; [|done|intros s E; injection E as <-; exact shell_start_ok].
    split; [|done]. split; [apply list.NoDup_singleton | by apply list.Forall_singleton].
  - exact quiet_ok.
  - bytes.
  - reflexivity.
Defined.
(** What is sent to the three messages: the shell's acceptance, and the new identifier. *)
Lemma arrivals_sent :
  (v ← rrun (idle_server shell_only) arrivals; v ← rrun v (drain v no_err quiet_sensor); Some (sent v)) =
  Some [(8, 1, CcOnly 0, 4); (8, 2, Other [0; 5; 0; 1], 7); (8, 3, Tid 9, 5)].
Proof. vm_compute. reflexivity. Qed.
(** SetTID changes the identifier that GetTID gives, but not the one in the terminus locator record. *)
Lemma set_tid_keeps_record :
  exists p d d', pldm_pdr_provider_init (PLDM_PDR_PROVIDER_DEFINE two_sensors) = Some (0, p) /\
    tt_pldm_mctp_responder_init true 0 true 1 20 (Some p) (Some shell_start) = Some (inr d) /\
    tt_pldm_build_response no_err quiet_sensor d [128; 0; 1; 9] = Some (inr (CcOnly 0, 4), d') /\ tid d' = 9 /\
    (p ← pdr_dev d'; zget (pdr_repo p) offsetof_tid) = Some 1.
Proof. eexists _, _, _. split_and!; vm_compute; reflexivity. Qed.
(** A message of at most 64 bytes has no room for a command of more than 58 characters. *)
Lemma long_command_dropped it v : 3 + 3 + 59 <= Z.of_nat (length (buf it)) - 1 -> rx_put (S := ssys) v it = v.
Proof. intros Hl. unfold rx_put, TT_PLDM_MAX_MESSAGE_LEN. by rewrite (proj2 (Z.ltb_lt (1 + 64) _)), orb_true_r by lia. Qed.
