(* ===== verification/SpiEeprom.v ===== *)
(** The flash as the host programs it: [bh_arc/spi_eeprom.c].

    Messages read the flash into a scratch buffer and write it from there, erasing and merging
    sectors as needed, once the flash has been unlocked. The flash device fails when it wants to,
    and then leaves anything in the sector it was working on. *)
From stdpp Require Import prelude list numbers.
From Stdlib Require Import ZArith Lia.
From S2P Require Import Prelude.
Open Scope Z_scope.

Definition SPI_BUFFER_SIZE : Z := 4096.
Definition FLASH_JEDEC_ID_MT25QU512ABB : Z := 0x20BB20.
Definition FLASH_UNLOCK_ERR_MISSING_VARIABLES : Z := 1.
Definition BOARD_VAR_SPI_JEDEC_ID : Z := 0.

(** * The flash device *)
(** What becomes of an operation: it works, or it returns a negative number and leaves [junk]. *)
Inductive fate := Works | Breaks (rc : Z) (junk : Z -> Z).
(** [bytes]: by address; [fates]: of the operations to come, which work when it is empty;
    [erases]: the addresses erased. *)
Record spi := { bytes : Z -> Z; fates : list fate; erases : list Z }.
Implicit Types (s : spi) (f : Z -> Z).
Definition within (a off len : Z) : bool := (off <=? a) && (a <? off + len).
(** A computation that may return early, with a negative number; [None] is undefined behaviour. *)
Definition E (A : Type) : Type := spi -> option ((Z + A) * spi).
#[global] Instance E_ret : MRet E := λ A x s, Some (inr x, s).
#[global] Instance E_bind : MBind E := λ A B k m s,
  match m s with
  | Some (inr x, s) => k x s
  | Some (inl rc, s) => Some (inl rc, s)
  | None => None
  end.
Definition next_fate s : fate * list fate := match fates s with [] => (Works, []) | x :: l => (x, l) end.
(** Memory of [n] bytes from [a] on. *)
Definition span f (a n : Z) : list Z := map f (seqZ a n).
(** The flash API, of a device of [fsize] bytes. *)
Section flash_api.
Context (fsize : Z).
Definition outside (off len : Z) : bool := (off <? 0) || (fsize <? off + len).
Definition flash_read (off len : Z) : E (list Z) := λ s,
  if outside off len then Some (inl (- EINVAL), s)
  else
    let '(x, l) := next_fate s in
    let s' := {| bytes := bytes s; fates := l; erases := erases s |} in
    match x with Works => Some (inr (span (bytes s) off len), s') | Breaks rc _ => Some (inl rc, s') end.
Definition flash_erase (off len : Z) : E unit := λ s,
  if outside off len then Some (inl (- EINVAL), s)
  else
    let '(x, l) := next_fate s in
    let to (g : Z -> Z) := {| bytes := λ a, if within a off len then g a else bytes s a; fates := l; erases := erases s ++ [off] |} in
    match x with Works => Some (inr tt, to (λ _, 0xFF)) | Breaks rc junk => Some (inl rc, to junk) end.
(** Programming clears bits. *)
Definition flash_write (off : Z) (data : list Z) : E unit := λ s,
  let len := Z.of_nat (length data) in
  if outside off len then Some (inl (- EINVAL), s)
  else
    let '(x, l) := next_fate s in
    let to (g : Z -> Z) := {| bytes := λ a, if within a off len then g a else bytes s a; fates := l; erases := erases s |} in
    match x with
    | Works => Some (inr tt, to (λ a, Z.land (bytes s a) (nth (Z.to_nat (a - off)) data 0)))
    | Breaks rc junk => Some (inl rc, to junk)
    end.

(** * Writing *)
Context (sector_size : Z).
Definition ROUND_DOWN (x a : Z) : Z := u32 (x / a * a).
Definition ROUND_UP (x a : Z) : Z := u32 (u32 (x + (a - 1)) / a * a).
Definition overwrite (page : list Z) (off : Z) (data : list Z) : list Z :=
  take (Z.to_nat off) page ++ data ++ drop (Z.to_nat off + length data) page.
Definition memcmp_eq (a b : list Z) : bool := bool_decide (a = b).
Definition part (l : list Z) (off : Z) (n : nat) : list Z := take n (drop (Z.to_nat off) l).
(** The first sector, from [address] on. *)
Definition phase1 (address addr : Z) (chunk : list Z) : E unit :=
  page ← flash_read addr sector_size;
  if negb (memcmp_eq (part page (u32 (address - addr)) (length chunk)) chunk) then
    flash_erase addr sector_size;;
    flash_write addr (overwrite page (u32 (address - addr)) chunk)
  else mret tt.
(** Whole sectors. *)
Fixpoint phase2 (fuel : nat) (addr : Z) (data : list Z) : E (Z * list Z) :=
  match fuel with
  | O => mret (addr, data)
  | S fuel =>
      if sector_size <? Z.of_nat (length data) then
        page ← flash_read addr sector_size;
        (if negb (memcmp_eq (part page 0 (Z.to_nat (Z.min sector_size SPI_BUFFER_SIZE)))
                    (part data 0 (Z.to_nat (Z.min sector_size SPI_BUFFER_SIZE)))) then
           flash_erase addr sector_size;;
           flash_write addr (part data 0 (Z.to_nat sector_size))
         else mret tt);;
        phase2 fuel (u32 (addr + sector_size)) (drop (Z.to_nat sector_size) data)
      else mret (addr, data)
  end.
(** The rest. *)
Definition phase3 (addr : Z) (data : list Z) : E unit :=
  page ← flash_read addr sector_size;
  if negb (memcmp_eq (part page 0 (length data)) data) then
    flash_erase addr sector_size;;
    flash_write addr (overwrite page 0 data)
  else mret tt.
(** A sector larger than the buffer for it would overrun it. *)
Definition SpiSmartWrite (address : Z) (data : list Z) : E unit := λ s,
  if SPI_BUFFER_SIZE <? sector_size then None
  else
    let addr := ROUND_DOWN address sector_size in
    let chunk_size := Z.min (u32 (ROUND_UP (u32 (address + 1)) sector_size - address)) (Z.of_nat (length data)) in
    (phase1 address addr (part data 0 (Z.to_nat chunk_size));;
     '(addr, data) ← phase2 (length data) (u32 (addr + sector_size)) (drop (Z.to_nat chunk_size) data);
     match data with [] => mret tt | _ => phase3 addr data end) s.
End flash_api.

(** ** What writing means *)
Definition patched f (address : Z) (data : list Z) (a : Z) : Z :=
  if within a address (Z.of_nat (length data)) then nth (Z.to_nat (a - address)) data 0 else f a.
(** The new contents up to an address. *)
Definition upto f (address : Z) (data : list Z) (to a : Z) : Z := if a <? to then patched f address data a else f a.
Definition fate_ok (x : fate) : Prop := match x with Works => True | Breaks rc _ => rc < 0 end.
(** * Sectors *)
Lemma nth_take_lt (l : list Z) n i : (i < n)%nat -> nth i (take n l) 0 = nth i l 0.
Proof. intros Hi. rewrite nth_firstn. by rewrite (proj2 (Nat.ltb_lt i n) Hi). Qed.
Lemma within_spec a off len : within a off len = true <-> off <= a < off + len.
Proof. unfold within. rewrite andb_true_iff, Z.leb_le, Z.ltb_lt. lia. Qed.
Lemma within_false a off len : within a off len = false <-> ~ (off <= a < off + len).
Proof. rewrite <- not_true_iff_false, within_spec. done. Qed.
Lemma span_length f a n : 0 <= n -> Z.of_nat (length (span f a n)) = n.
Proof. intros Hn. unfold span. rewrite length_fmap, length_seqZ. lia. Qed.
Lemma span_nth f a n i : 0 <= i < n -> nth (Z.to_nat i) (span f a n) 0 = f (a + i).
Proof.
  intros Hi. apply nth_lookup_Some. unfold span. rewrite list_lookup_fmap, lookup_seqZ_lt by lia. cbn. do 2 f_equal. lia.
Qed.
Lemma span_ext f g a n : (forall i, 0 <= i < n -> f (a + i) = g (a + i)) -> span f a n = span g a n.
Proof.
  intros Hfg. unfold span. apply map_ext_in. intros x Hx. apply list_elem_of_In, elem_of_seqZ in Hx.
  specialize (Hfg (x - a)). replace (a + (x - a)) with x in Hfg by lia. apply Hfg. lia.
Qed.
(** A list as the bytes it holds. *)
Lemma list_span (l : list Z) a : l = span (λ x, nth (Z.to_nat (x - a)) l 0) a (Z.of_nat (length l)).
Proof.
  apply (nth_ext _ _ 0 0).
  - pose proof (span_length (λ x, nth (Z.to_nat (x - a)) l 0) a (Z.of_nat (length l))). lia.
  - intros n Hn. replace n with (Z.to_nat (Z.of_nat n)) at 2 by lia. rewrite span_nth by lia. f_equal. lia.
Qed.
Lemma part_span f a n off k : 0 <= off -> off + Z.of_nat k <= n -> part (span f a n) off k = span f (a + off) (Z.of_nat k).
Proof.
  intros Ho Hk. apply (nth_ext _ _ 0 0).
  - unfold part. rewrite length_take, length_drop. pose proof (span_length f a n). pose proof (span_length f (a + off) (Z.of_nat k)). lia.
  - intros i Hi. unfold part in *. rewrite length_take in Hi. rewrite nth_take_lt by lia. rewrite nth_skipn.
    replace (Z.to_nat off + i)%nat with (Z.to_nat (off + Z.of_nat i)) by lia. rewrite span_nth by lia.
    replace i with (Z.to_nat (Z.of_nat i)) at 2 by lia. rewrite span_nth by lia. f_equal. lia.
Qed.
Lemma nth_overwrite (page data : list Z) off i : 0 <= off -> off + Z.of_nat (length data) <= Z.of_nat (length page) -> 0 <= i ->
  nth (Z.to_nat i) (overwrite page off data) 0 =
    if within i off (Z.of_nat (length data)) then nth (Z.to_nat (i - off)) data 0 else nth (Z.to_nat i) page 0.
Proof.
  intros Ho Hl Hi. unfold overwrite. destruct (within i off (Z.of_nat (length data))) eqn:E.
  - apply within_spec in E. rewrite app_nth2 by (rewrite length_take; lia). rewrite length_take, app_nth1 by lia. f_equal. lia.
  - apply within_false in E. destruct (Z.lt_ge_cases i off).
    + rewrite app_nth1 by (rewrite length_take; lia). rewrite nth_take_lt by lia. done.
    + rewrite app_nth2 by (rewrite length_take; lia). rewrite length_take, app_nth2 by lia. rewrite nth_skipn. f_equal. lia.
Qed.
Lemma page_overwrite_length (page data : list Z) off : 0 <= off -> off + Z.of_nat (length data) <= Z.of_nat (length page) ->
  length (overwrite page off data) = length page.
Proof. intros Ho Hl. unfold overwrite. rewrite !length_app, length_take, length_drop. lia. Qed.
Section sectors.
Context (fsize sector : Z).
Hypotheses (Hsec : 0 < sector <= SPI_BUFFER_SIZE).
(** What each phase does to its sector: [chunk] at [off] of the sector at [addr]. *)
Definition sector_update (addr off : Z) (chunk : list Z) : E unit :=
  page ← flash_read fsize addr sector;
  if negb (memcmp_eq (part page off (length chunk)) chunk) then
    flash_erase fsize addr sector;; flash_write fsize addr (overwrite page off chunk)
  else mret tt.
(** The contents [f0], of which [data] at [address] is to replace a part. *)
Context (f0 : Z -> Z) (address : Z) (data : list Z).
Hypotheses (Hf0 : forall a, is_byte (f0 a)) (Hdata : Forall is_byte data).
Lemma patched_byte a : is_byte (patched f0 address data a).
Proof.
  unfold patched. destruct (within _ _ _) eqn:E; [|done]. apply within_spec in E.
  destruct (lookup_lt_is_Some_2 data (Z.to_nat (a - address))) as [v Hv]; [lia|]. rewrite (nth_lookup_Some _ _ _ _ Hv).
  by apply (list.Forall_lookup_1 _ _ _ _ Hdata Hv).
Qed.
(** [new] is right up to [addr] and nothing after it is changed; when an operation fails, the sector
    it was working on is lost. *)
Definition written s (addr : Z) : Prop := forall a, bytes s a = upto f0 address data addr a.
Definition damaged s (addr : Z) : Prop := forall a, within a addr sector = false -> bytes s a = upto f0 address data addr a.
Definition outcome (A : Type) (r : Z + A) s (addr addr' : Z) s' : Prop :=
  Forall fate_ok (fates s') /\ (fates s = [] -> fates s' = [] /\ exists x, r = inr x) /\
  ((forall a, patched f0 address data a = f0 a) -> erases s' = erases s) /\
  match r with inl rc => rc < 0 /\ exists b, addr <= b < addr' /\ (sector | b - addr) /\ damaged s' b | inr _ => written s' addr' end.
Lemma device_fate_ok s : Forall fate_ok (fates s) ->
  fate_ok (fst (next_fate s)) /\ Forall fate_ok (snd (next_fate s)) /\ (fates s = [] -> next_fate s = (Works, [])).
Proof. intros Hf. unfold next_fate. destruct (fates s); [done|]. apply list.Forall_cons in Hf as [? ?]. split_and!; try done. Qed.
Lemma land_ff v : is_byte v -> Z.land 0xFF v = v.
Proof. intros Hv. rewrite Z.land_comm. change 0xFF with (Z.ones 8). rewrite Z.land_ones by lia. apply Z.mod_small. exact Hv. Qed.
Lemma upto_before addr a : a < addr -> upto f0 address data addr a = patched f0 address data a.
Proof. intros Ha. unfold upto. by rewrite (proj2 (Z.ltb_lt _ _) Ha). Qed.
Lemma upto_after addr a : addr <= a -> upto f0 address data addr a = f0 a.
Proof. intros Ha. unfold upto. by rewrite (proj2 (Z.ltb_ge _ _) Ha). Qed.
(** Outside of a sector, being written up to its start or its end is the same. *)
Lemma upto_outside addr a : within a addr sector = false -> upto f0 address data (addr + sector) a = upto f0 address data addr a.
Proof. intros Ha%within_false. unfold upto. destruct (Z.ltb_spec a addr), (Z.ltb_spec a (addr + sector)); try done; lia. Qed.
Context (addr off : Z) (chunk : list Z).
Hypotheses (Haddr : 0 <= addr) (Hend : addr + sector <= fsize) (Hoff : 0 <= off) (Hchunk : off + Z.of_nat (length chunk) <= sector).
Hypothesis Hslot : forall a, within a addr sector = true ->
  patched f0 address data a = if within (a - addr) off (Z.of_nat (length chunk)) then nth (Z.to_nat (a - addr - off)) chunk 0 else f0 a.
Lemma in_device : outside fsize addr sector = false.
Proof. unfold outside. rewrite orb_false_iff, !Z.ltb_ge. lia. Qed.
(** The page after the merge is what the sector should hold. *)
Lemma merged_page s i : written s addr -> 0 <= i < sector ->
  nth (Z.to_nat i) (overwrite (span (bytes s) addr sector) off chunk) 0 = patched f0 address data (addr + i).
Proof.
  intros Hw Hi. rewrite nth_overwrite; [|lia|rewrite span_length; lia|lia]. rewrite span_nth by lia.
  rewrite Hslot by (apply within_spec; lia). replace (addr + i - addr) with i by lia.
  destruct (within i off _); [done|]. rewrite Hw. apply upto_after. lia.
Qed.
(** The chunk is there already exactly if the sector has to change nowhere. *)
Lemma chunk_there s : written s addr -> part (span (bytes s) addr sector) off (length chunk) = chunk <->
  (forall i, 0 <= i < sector -> patched f0 address data (addr + i) = f0 (addr + i)).
Proof.
  intros Hw. rewrite part_span by lia. split.
  - intros Hp i Hi. rewrite Hslot by (apply within_spec; lia). replace (addr + i - addr) with i by lia.
    destruct (within i off _) eqn:E; [|done]. apply within_spec in E. rewrite <- Hp, span_nth by lia. rewrite Hw, upto_after by lia. f_equal. lia.
  - intros Hp. rewrite (list_span chunk (addr + off)) at 2. apply span_ext. intros i Hi. rewrite Hw, upto_after by lia.
    replace (addr + off + i) with (addr + (off + i)) by lia. rewrite <- Hp by lia. rewrite Hslot by (apply within_spec; lia).
    replace (addr + (off + i) - addr) with (off + i) by lia. rewrite (proj2 (within_spec (off + i) off _)) by lia. f_equal. lia.
Qed.
Lemma damaged_self s rc : written s addr -> rc < 0 -> rc < 0 /\ exists b, addr <= b < addr + sector /\ (sector | b - addr) /\ damaged s b.
Proof. intros Hw Hrc. split; [done|]. exists addr. split_and!; [lia | lia | exists 0; lia |]. intros a _. apply Hw. Qed.
Lemma damaged_here s s' rc : written s addr -> (forall a, within a addr sector = false -> bytes s' a = bytes s a) -> rc < 0 ->
  rc < 0 /\ exists b, addr <= b < addr + sector /\ (sector | b - addr) /\ damaged s' b.
Proof. intros Hw Hs Hrc. split; [done|]. exists addr. split_and!; [lia | lia | exists 0; lia |]. intros a Ha. rewrite Hs by done. apply Hw. Qed.
Lemma programmed s s' : written s addr -> (forall a, within a addr sector = false -> bytes s' a = bytes s a) ->
  (forall i, 0 <= i < sector -> bytes s' (addr + i) = patched f0 address data (addr + i)) -> written s' (addr + sector).
Proof.
  intros Hw Ho Hi a. destruct (within a addr sector) eqn:E.
  - apply within_spec in E. rewrite upto_before by lia. replace a with (addr + (a - addr)) by lia. apply Hi. lia.
  - rewrite Ho by done. rewrite upto_outside by done. apply Hw.
Qed.
Lemma sector_update_run s : written s addr -> Forall fate_ok (fates s) ->
  exists r s', sector_update addr off chunk s = Some (r, s') /\ outcome _ r s addr (addr + sector) s'.
Proof.
  intros Hw Hf. unfold sector_update, flash_read, mbind, E_bind. rewrite in_device.
  destruct (device_fate_ok s Hf) as (F1 & F2 & F3). destruct (next_fate s) as [x1 l1]. cbn [fst snd] in *.
  set (s1 := {| bytes := bytes s; fates := l1; erases := erases s |}). assert (Hw1 : written s1 addr) by exact Hw.
  destruct x1 as [|rc1 junk1].
  2: { eexists _, _. split; [reflexivity|]. refine (conj _ (conj _ (conj _ _))); [done | by intros [=]%F3 | done | by apply (damaged_self s1)]. }
  unfold memcmp_eq. destruct (bool_decide _) eqn:Eq; cbn [negb].
  { apply bool_decide_eq_true in Eq. pose proof (proj1 (chunk_there s Hw) Eq) as Heq. eexists _, _. split; [reflexivity|].
    refine (conj _ (conj _ (conj _ _))); [done | by intros [= ->]%F3; eauto | done |]. apply (programmed s); [done|done|]. intros i Hi. cbn. rewrite Hw, upto_after by lia.
    symmetry. by apply Heq. }
  apply bool_decide_eq_false in Eq. assert (Hdiff : ~ forall a, patched f0 address data a = f0 a)
    by (intros Hp; apply Eq, chunk_there; [done|]; intros; apply Hp).
  unfold flash_erase. rewrite in_device.
  destruct (device_fate_ok s1 F2) as (G1 & G2 & G3). destruct (next_fate s1) as [x2 l2]. cbn [fst snd] in *.
  set (to2 := fun g => {| bytes := λ a, if within a addr sector then g a else bytes s1 a; fates := l2; erases := erases s1 ++ [addr] |}).
  assert (Ho2 : forall g a, within a addr sector = false -> bytes (to2 g) a = bytes s a) by (intros g a Ha; cbn; by rewrite Ha).
  destruct x2 as [|rc2 junk2].
  2: { eexists _, _. split; [reflexivity|]. refine (conj _ (conj _ (conj _ _))); [done | by intros [= ->]%F3; specialize (G3 eq_refl) as [=] | done |].
       apply (damaged_here s (to2 junk2)); [done | apply Ho2 | done]. }
  unfold flash_write. assert (Hl : Z.of_nat (length (overwrite (span (bytes s) addr sector) off chunk)) = sector)
    by (rewrite page_overwrite_length, span_length; try rewrite span_length; lia).
  rewrite Hl, in_device. set (s2 := to2 (λ _, 0xFF)). destruct (device_fate_ok s2 G2) as (K1 & K2 & K3).
  change (next_fate {| bytes := _; fates := l2; erases := _ |}) with (next_fate s2).
  destruct (next_fate s2) as [x3 l3]. cbn [fst snd] in *. destruct x3 as [|rc3 junk3].
  - eexists _, _. split; [reflexivity|]. refine (conj _ (conj _ (conj _ _))); [done | | done |].
    { intros [= ->]%F3. specialize (G3 eq_refl) as [= ->]. specialize (K3 eq_refl) as [= ->]. eauto. }
    apply (programmed s); [done | intros a Ha; cbn; by rewrite Ha|]. intros i Hi. cbn.
    rewrite !(proj2 (within_spec (addr + i) addr sector)) by lia. replace (addr + i - addr) with i by lia.
    rewrite (merged_page s i Hw Hi). apply land_ff, patched_byte.
  - eexists _, _. split; [reflexivity|]. refine (conj _ (conj _ (conj _ _))); [done | | done |].
    { intros [= ->]%F3. specialize (G3 eq_refl) as [= ->]. by specialize (K3 eq_refl) as [=]. }
    eapply (damaged_here s); [done | intros a Ha; cbn; by rewrite Ha | done].
Qed.
End sectors.

(** * The whole write *)
Section smart_write.
Context (fsize sector : Z) (f0 : Z -> Z) (address : Z) (data : list Z).
Hypotheses (Hsec : 0 < sector <= SPI_BUFFER_SIZE) (Hdiv : (sector | fsize)) (Hsize : fsize < 2 ^ 31).
Hypotheses (Hf0 : forall a, is_byte (f0 a)) (Hdata : Forall is_byte data).
Hypotheses (Haddress : 0 <= address < fsize) (Hfit : address + Z.of_nat (length data) <= fsize).
Local Abbreviation len := (Z.of_nat (length data)).
(** The part of the data that belongs to a sector. *)
Lemma slot_of addr off k c : addr + off = address + Z.of_nat k -> off = 0 \/ k = 0%nat -> (k + c <= length data)%nat ->
  (k + c = length data)%nat \/ off + Z.of_nat c = sector -> 0 <= off ->
  forall a, within a addr sector = true ->
    patched f0 address data a =
      if within (a - addr) off (Z.of_nat (length (take c (drop k data)))) then nth (Z.to_nat (a - addr - off)) (take c (drop k data)) 0 else f0 a.
Proof.
  intros Hao Hk Hc Hend Ho a Ha%within_spec. rewrite length_take, length_drop, Nat.min_l by lia. unfold patched.
  destruct (within (a - addr) off (Z.of_nat c)) eqn:E.
  - apply within_spec in E. rewrite (proj2 (within_spec _ _ _)) by lia. rewrite nth_take_lt by lia. rewrite nth_skipn. f_equal. lia.
  - apply within_false in E. rewrite (proj2 (within_false _ _ _)) by lia. done.
Qed.
Definition done_upto s (addr : Z) : Prop := written f0 address data s addr.
(** The result of a part of the write that starts with everything right up to [addr]. *)
Definition so_far {A} (P : A -> spi -> Prop) s (r : Z + A) s' : Prop :=
  Forall fate_ok (fates s') /\ (fates s = [] -> fates s' = [] /\ exists x, r = inr x) /\
  ((forall a, patched f0 address data a = f0 a) -> erases s' = erases s) /\
  match r with
  | inl rc => rc < 0 /\ exists b, (sector | b) /\ address - sector < b < address + Z.max 1 len /\ damaged sector f0 address data s' b
  | inr x => P x s'
  end.
Lemma so_far_bind {A B} (P : A -> spi -> Prop) (Q : B -> spi -> Prop) (m : E A) (k : A -> E B) s :
  (exists r s', m s = Some (r, s') /\ so_far P s r s') ->
  (forall x s1, P x s1 -> Forall fate_ok (fates s1) -> exists r s', k x s1 = Some (r, s') /\ so_far Q s1 r s') ->
  exists r s', (m ≫= k) s = Some (r, s') /\ so_far Q s r s'.
Proof.
  intros (r & s1 & E1 & F1 & Z1 & N1 & R1) Hk. unfold mbind, E_bind. rewrite E1. destruct r as [rc|x].
  { eexists _, _. split; [reflexivity|]. refine (conj F1 (conj _ (conj N1 R1))). intros Hz. destruct (Z1 Hz) as [_ [? [=]]]. }
  destruct (Hk x s1 R1 F1) as (r & s2 & E2 & F2 & Z2 & N2 & R2). exists r, s2. split; [done|]. refine (conj F2 (conj _ (conj _ R2))).
  - intros Hz. apply Z2. by apply Z1.
  - intros Hn. by rewrite N2, N1.
Qed.
(** A sector, from [sector_update_run]. *)
Lemma sector_so_far addr off k c s : addr + off = address + Z.of_nat k -> off = 0 \/ k = 0%nat -> (k + c <= length data)%nat ->
  (k + c = length data)%nat \/ off + Z.of_nat c = sector -> 0 <= off < sector -> off + Z.of_nat c <= sector ->
  (sector | addr) -> 0 <= addr < fsize -> addr < address + Z.max 1 len -> done_upto s addr -> Forall fate_ok (fates s) ->
  exists r s', sector_update fsize sector addr off (take c (drop k data)) s = Some (r, s') /\
    so_far (λ _ s', done_upto s' (addr + sector)) s r s'.
Proof.
  intros Hao Hk Hc Hend Ho Hoc Hda Ha Hal Hw Hf.
  assert (Hlen : length (take c (drop k data)) = c) by (rewrite length_take, length_drop; lia).
  assert (Hin : addr + sector <= fsize).
  { destruct Hda as [x ->]. clear -Hdiv Ha Hsec. destruct Hdiv as [y ->].
    assert (x < y) by (apply (Z.mul_lt_mono_pos_r sector); lia). replace (x * sector + sector) with ((x + 1) * sector) by lia.
    apply Z.mul_le_mono_nonneg_r; lia. }
  destruct (sector_update_run fsize sector Hsec f0 address data Hf0 Hdata addr off (take c (drop k data)) ltac:(lia) ltac:(lia) ltac:(lia)
    ltac:(rewrite Hlen; lia) (slot_of addr off k c Hao Hk Hc Hend ltac:(lia)) s Hw Hf) as (r & s' & E & F1 & Z1 & N1 & R1).
  exists r, s'. split; [done|]. refine (conj F1 (conj Z1 (conj N1 _))). destruct r as [rc|x]; [|done].
  destruct R1 as (Hrc & b & Hb & Hbd & Hdm). split; [done|]. exists b.
  assert (b = addr) as ->.
  { destruct Hbd as [z Hz]. destruct (Z.eq_dec z 0) as [->|]; [lia|]. destruct (Z.lt_ge_cases z 0); nia. } split_and!; [done | lia | lia | done].
Qed.
Lemma phase1_update addr chunk : 0 <= address - addr < 2 ^ 32 ->
  phase1 fsize sector address addr chunk = sector_update fsize sector addr (address - addr) chunk.
Proof. intros Ha. unfold phase1, sector_update. by rewrite wrap_id. Qed.
Lemma overwrite_whole (page chunk : list Z) : length chunk = length page -> overwrite page 0 chunk = chunk.
Proof. intros Hl. unfold overwrite. change (Z.to_nat 0) with 0%nat. cbn [take]. rewrite Nat.add_0_l, Hl, drop_all. by rewrite app_nil_r. Qed.
Lemma phase2_step {B} (k : unit -> E B) addr l s : sector <= Z.of_nat (length l) ->
  (page ← flash_read fsize addr sector;
   (if negb (memcmp_eq (part page 0 (Z.to_nat (Z.min sector SPI_BUFFER_SIZE))) (part l 0 (Z.to_nat (Z.min sector SPI_BUFFER_SIZE)))) then
      flash_erase fsize addr sector;; flash_write fsize addr (part l 0 (Z.to_nat sector))
    else mret tt) ≫= k) s = (sector_update fsize sector addr 0 (take (Z.to_nat sector) l) ≫= k) s.
Proof.
  intros Hl. unfold sector_update, flash_read, mbind, E_bind. cbv beta.
  destruct (outside _ _ _); [done|]. destruct (next_fate s) as [[|rc junk] fs]; [|done].
  rewrite Z.min_l by lia. assert (Hlen : length (take (Z.to_nat sector) l) = Z.to_nat sector) by (rewrite length_take; lia).
  rewrite Hlen, overwrite_whole; [done|]. rewrite Hlen. pose proof (span_length (bytes s) addr sector). lia.
Qed.
Lemma phase2_run fuel : forall k s, (length data - k <= fuel)%nat -> (k <= length data)%nat -> (sector | address + Z.of_nat k) ->
  done_upto s (address + Z.of_nat k) -> Forall fate_ok (fates s) ->
  exists r s', phase2 fsize sector fuel (address + Z.of_nat k) (drop k data) s = Some (r, s') /\
    so_far (λ '(addr, rest) s', exists k', addr = address + Z.of_nat k' /\ rest = drop k' data /\ (k' <= length data)%nat /\
      (sector | addr) /\ (length rest <= Z.to_nat sector)%nat /\ done_upto s' addr) s r s'.
Proof.
  induction fuel as [|fuel IH]; intros k s Hfu Hk Hd Hw Hf.
  all: assert (Hstop : Z.of_nat (length (drop k data)) <= sector -> exists r s', Some (inr (address + Z.of_nat k, drop k data), s) = Some (r, s') /\
    so_far (λ '(addr, rest) s', exists k', addr = address + Z.of_nat k' /\ rest = drop k' data /\ (k' <= length data)%nat /\
      (sector | addr) /\ (length rest <= Z.to_nat sector)%nat /\ done_upto s' addr) s r s')
    by (intros Hl; eexists _, _; split; [reflexivity|]; refine (conj Hf (conj _ (conj _ _))); [eauto|done|];
        exists k; split_and!; try done; lia).
  { apply Hstop. rewrite length_drop. lia. }
  cbn [phase2]. destruct (Z.ltb_spec sector (Z.of_nat (length (drop k data)))) as [Hl|Hl]; [|by apply Hstop]. clear Hstop.
  rewrite length_drop in Hl.
  rewrite phase2_step by (rewrite length_drop; lia).
  apply (so_far_bind (λ _ s', done_upto s' (address + Z.of_nat k + sector))).
  { apply sector_so_far; try done; try lia. }
  intros [] s1 Hw1 Hf1. replace (u32 (address + Z.of_nat k + sector)) with (address + Z.of_nat (k + Z.to_nat sector))
    by (rewrite wrap_id by (unfold in_width; lia); lia).
  rewrite drop_drop. apply IH; try lia; try done.
  - replace (address + Z.of_nat (k + Z.to_nat sector)) with (address + Z.of_nat k + 1 * sector) by lia. apply Z.divide_add_r; [done|]. by exists 1.
  - by replace (address + Z.of_nat (k + Z.to_nat sector)) with (address + Z.of_nat k + sector) by lia.
Qed.
Lemma round_down : ROUND_DOWN address sector = address / sector * sector /\ 0 <= address / sector * sector <= address /\
  address < address / sector * sector + sector.
Proof.
  pose proof (Z.div_mod address sector ltac:(lia)) as Hdm. pose proof (Z.mod_pos_bound address sector ltac:(lia)) as Hm.
  assert (0 <= address / sector * sector) by (apply Z.mul_nonneg_nonneg; [apply Z.div_pos|]; lia).
  unfold ROUND_DOWN. rewrite wrap_id by (unfold in_width; lia). split_and!; lia.
Qed.
Lemma round_up : ROUND_UP (u32 (address + 1)) sector = address / sector * sector + sector.
Proof.
  pose proof round_down as (_ & Hr & Hr'). unfold ROUND_UP, SPI_BUFFER_SIZE in *. rewrite !(wrap_id 32 (address + 1)) by (unfold in_width; lia).
  rewrite (wrap_id 32 (address + 1 + (sector - 1))) by (unfold in_width; lia). replace (address + 1 + (sector - 1)) with (address + 1 * sector) by lia.
  rewrite Z.div_add by lia. rewrite wrap_id by (unfold in_width; lia). lia.
Qed.
Lemma done_at_end s addr : address + len <= addr -> done_upto s addr -> forall a, bytes s a = patched f0 address data a.
Proof.
  intros He Hw a. rewrite Hw. unfold upto. destruct (Z.ltb_spec a addr); [done|]. unfold patched. by rewrite (proj2 (within_false _ _ _)) by lia.
Qed.
Lemma phase3_run k s : (k < length data)%nat -> (length data - k <= Z.to_nat sector)%nat -> (sector | address + Z.of_nat k) ->
  done_upto s (address + Z.of_nat k) -> Forall fate_ok (fates s) ->
  exists r s', phase3 fsize sector (address + Z.of_nat k) (drop k data) s = Some (r, s') /\
    so_far (λ _ s', forall a, bytes s' a = patched f0 address data a) s r s'.
Proof.
  intros Hk Hl Hd Hw Hf. change (phase3 fsize sector (address + Z.of_nat k) (drop k data)) with (sector_update fsize sector (address + Z.of_nat k) 0 (drop k data)).
  rewrite <- (take_ge (drop k data) (length data - k)) by (rewrite length_drop; lia).
  destruct (sector_so_far (address + Z.of_nat k) 0 k (length data - k) s) as (r & s' & E & F & Z1 & N & R); try lia; try done.
  exists r, s'. split; [done|]. refine (conj F (conj Z1 (conj N _))). destruct r; [done|]. eapply (done_at_end s'); [|exact R]; lia.
Qed.
Lemma smart_write_run s : (forall a, bytes s a = f0 a) -> Forall fate_ok (fates s) ->
  exists r s', SpiSmartWrite fsize sector address data s = Some (r, s') /\
    so_far (λ _ s', forall a, bytes s' a = patched f0 address data a) s r s'.
Proof.
  intros Hs Hf. unfold SpiSmartWrite. rewrite (proj2 (Z.ltb_ge _ _)) by lia. rewrite round_up. pose proof round_down as (-> & Hr & Hr').
  set (addr0 := address / sector * sector) in *. assert (Hd0 : (sector | addr0)) by (by exists (address / sector)).
  set (c := Z.to_nat (Z.min (u32 (addr0 + sector - address)) len)). unfold SPI_BUFFER_SIZE in Hsec.
  assert (Hc : Z.of_nat c = Z.min (addr0 + sector - address) len) by (unfold c; rewrite wrap_id by (unfold in_width; lia); lia).
  rewrite phase1_update by lia. apply (so_far_bind (λ _ s', done_upto s' (addr0 + sector))).
  { change (part data 0 c) with (take c (drop 0 data)). apply sector_so_far; try lia; try done.
    intros a. rewrite Hs. unfold upto, patched. destruct (Z.ltb_spec a addr0); [|done]. by rewrite (proj2 (within_false _ _ _)) by lia. }
  intros [] s1 Hw1 Hf1. rewrite wrap_id by (unfold in_width; lia). destruct (Nat.eq_dec c (length data)) as [Hcl|Hcl].
  { rewrite Hcl, drop_all. assert (E : phase2 fsize sector (length data) (addr0 + sector) [] s1 = Some (inr (addr0 + sector, []), s1)).
    { destruct (length data); [done|]. cbn [phase2 length]. by rewrite (proj2 (Z.ltb_ge _ _)) by (cbn; lia). }
    unfold mbind, E_bind. rewrite E. eexists _, _. split; [reflexivity|]. refine (conj Hf1 (conj _ (conj _ _))); [eauto|done|].
    eapply (done_at_end s1); [|exact Hw1]; lia. }
  assert (Ha0 : addr0 + sector = address + Z.of_nat c) by lia. rewrite Ha0 in Hw1 |- *.
  eapply (so_far_bind (λ '(addr, rest) s', exists k', addr = address + Z.of_nat k' /\ rest = drop k' data /\ (k' <= length data)%nat /\
      (sector | addr) /\ (length rest <= Z.to_nat sector)%nat /\ done_upto s' addr)).
  { apply phase2_run; try lia; try done. rewrite <- Ha0. apply Z.divide_add_r; [done|apply Z.divide_refl]. }
  intros [addr rest] s2 (k' & -> & -> & Hk' & Hd' & Hl' & Hw2) Hf2. destruct (drop k' data) as [|x rest] eqn:Er.
  - eexists _, _. split; [reflexivity|]. refine (conj Hf2 (conj _ (conj _ _))); [eauto|done|]. apply (f_equal length) in Er. rewrite length_drop in Er. cbn in Er.
    eapply (done_at_end s2); [|exact Hw2]; lia.
  - rewrite <- Er in *. rewrite length_drop in Hl'. apply phase3_run; try done.
    apply (f_equal length) in Er. rewrite length_drop in Er. cbn in Er. lia.
Qed.
End smart_write.

(** * The host's messages *)
(** [dev]: the flash; [mem]: the memory of the chip. *)
Record eeprom := { flash_locked : bool; dev : spi; mem : Z -> Z }.
Implicit Types (st : eeprom).
Inductive emsg :=
  | ReadEeprom (buffer_mem_type spi_address num_bytes csm_addr : Z)
  | WriteEeprom (buffer_mem_type spi_address num_bytes csm_addr : Z)
  | ConfirmFlashed (challenge_data : Z)
  | FlashLock
  | FlashUnlock (num_variable_words verified_variables : Z).
Definition with_dev st s : eeprom := {| flash_locked := flash_locked st; dev := s; mem := mem st |}.
Definition with_lock st (b : bool) : eeprom := {| flash_locked := b; dev := dev st; mem := mem st |}.
(** The device and its sector size, the address of [spi_global_buffer], whether the device is ready, the
    identifier in telemetry. *)
Section handlers.
Context (fsize sector_size buffer : Z) (ready : bool) (jedec_id : Z).
Definition check_csm_region (addr num_bytes : Z) : bool :=
  (addr <? buffer) || (u32 (buffer + SPI_BUFFER_SIZE) <? u32 (addr + num_bytes)).
(** Memory outside of the buffer is not the handlers' to use. *)
Definition in_buffer (addr num_bytes : Z) : bool := (buffer <=? addr) && (addr + num_bytes <=? buffer + SPI_BUFFER_SIZE).
Definition SpiBlockRead (spi_address num_bytes dest : Z) st : option (Z * eeprom) :=
  if negb ready then Some (- ENODEV, st)
  else if negb (in_buffer dest num_bytes) then None
  else
    '(r, s) ← flash_read fsize spi_address num_bytes (dev st);
    match r with
    | inl rc => Some (rc, with_dev st s)
    | inr data => Some (0, {| flash_locked := flash_locked st; dev := s; mem := patched (mem st) dest data |})
    end.
Definition read_eeprom_handler (buffer_mem_type spi_address num_bytes csm_addr : Z) st : option (Z * eeprom) :=
  if negb ready then Some (1, st)
  else if buffer_mem_type =? 0 then
    if check_csm_region csm_addr num_bytes then Some (2, st)
    else '(rc, st) ← SpiBlockRead spi_address num_bytes csm_addr st; Some (u8 rc, st)
  else Some (1, st).
Definition write_eeprom_handler (buffer_mem_type spi_address num_bytes csm_addr : Z) st : option (Z * eeprom) :=
  if flash_locked st then Some (2, st)
  else if negb ready then Some (1, st)
  else if buffer_mem_type =? 0 then
    if check_csm_region csm_addr num_bytes then Some (2, st)
    else if negb (in_buffer csm_addr num_bytes) then None
    else
      '(r, s) ← SpiSmartWrite fsize sector_size spi_address (span (mem st) csm_addr num_bytes) (dev st);
      Some (match r with inl rc => u8 rc | inr _ => 0 end, with_dev st s)
  else Some (1, st).
Definition required_board_variables : Z :=
  if negb (jedec_id =? FLASH_JEDEC_ID_MT25QU512ABB) then Z.shiftl 1 BOARD_VAR_SPI_JEDEC_ID else 0.
Definition covers (num_variable_words verified_variables : Z) : bool :=
  Z.land required_board_variables (Z.lnot (if 1 <=? num_variable_words then verified_variables else 0)) =? 0.
(** The exit code and [data[1]] of the response. *)
Definition flash_unlock_handler (num_variable_words verified_variables : Z) st : Z * Z * eeprom :=
  let required := required_board_variables in
  if negb (flash_locked st) && (num_variable_words =? 0) then (0, required, st)
  else
    let satisfied := covers num_variable_words verified_variables in
    (if satisfied then 0 else FLASH_UNLOCK_ERR_MISSING_VARIABLES, required, with_lock st (negb satisfied)).
Definition confirm_flashed_spi_handler (challenge_data : Z) st : Z * Z * eeprom := (0, challenge_data, st).
Definition flash_lock_handler st : Z * eeprom := (0, with_lock st true).
(** A message: its exit code, [data[1]] if it is set. *)
Definition handle st (m : emsg) : option (Z * option Z * eeprom) :=
  match m with
  | ReadEeprom t a n c => '(rc, st) ← read_eeprom_handler t a n c st; Some (rc, None, st)
  | WriteEeprom t a n c => '(rc, st) ← write_eeprom_handler t a n c st; Some (rc, None, st)
  | ConfirmFlashed x => let '(rc, v, st) := confirm_flashed_spi_handler x st in Some (rc, Some v, st)
  | FlashLock => let '(rc, st) := flash_lock_handler st in Some (rc, None, st)
  | FlashUnlock n v => let '(rc, x, st) := flash_unlock_handler n v st in Some (rc, Some x, st)
  end.
Fixpoint handle_all st (ms : list emsg) : option (list (Z * option Z) * eeprom) :=
  match ms with
  | [] => Some ([], st)
  | m :: ms => '(rc, x, st) ← handle st m; '(l, st) ← handle_all st ms; Some ((rc, x) :: l, st)
  end.

(** ** Protection *)
Definition is_write (m : emsg) : bool := match m with WriteEeprom _ _ _ _ => true | _ => false end.
(** A write that follows an unlock by a host that checked what this board needs, with no lock between. *)
Definition authorised (ms : list emsg) : Prop :=
  exists pre n v mid w post, ms = pre ++ FlashUnlock n v :: mid ++ w :: post /\ covers n v = true /\ FlashLock ∉ mid /\ is_write w = true.
(** The flash is open because of an unlock, and no lock came after it. *)
Definition opened (ms : list emsg) : Prop :=
  exists pre n v mid, ms = pre ++ FlashUnlock n v :: mid /\ covers n v = true /\ FlashLock ∉ mid.
(** Regions of 32-bit numbers whose end does not wrap around. *)
Definition msg_ok (m : emsg) : Prop :=
  match m with
  | ReadEeprom _ a n c | WriteEeprom _ a n c => 0 <= a < 2 ^ 32 /\ 0 <= n < 2 ^ 32 /\ 0 <= c /\ c + n < 2 ^ 32
  | _ => True
  end.
Definition total {A} (m : E A) : Prop := forall s, is_Some (m s).
Lemma total_bind {A B} (m : E A) (k : A -> E B) : total m -> (forall x, total (k x)) -> total (m ≫= k).
Proof. intros Hm Hk s. unfold mbind, E_bind. destruct (Hm s) as [[[rc|x] s'] ->]; [by eexists|apply Hk]. Qed.
Lemma total_ret {A} (x : A) : total (mret x).
Proof. intros s. by eexists. Qed.
Lemma read_total off n : total (flash_read fsize off n).
Proof. intros s. unfold flash_read. destruct (outside _ _ _); [by eexists|]. destruct (next_fate s) as [[] ?]; by eexists. Qed.
Lemma erase_total off n : total (flash_erase fsize off n).
Proof. intros s. unfold flash_erase. destruct (outside _ _ _); [by eexists|]. destruct (next_fate s) as [[] ?]; by eexists. Qed.
Lemma write_total off l : total (flash_write fsize off l).
Proof. intros s. unfold flash_write. destruct (outside _ _ _); [by eexists|]. destruct (next_fate s) as [[] ?]; by eexists. Qed.
Hint Resolve total_bind total_ret read_total erase_total write_total : fw.
Lemma phase2_total fuel : forall addr l, total (phase2 fsize sector_size fuel addr l).
Proof.
  induction fuel as [|fuel IH]; intros addr l; cbn [phase2]; [apply total_ret|]. destruct (_ <? _); [|apply total_ret].
  apply total_bind; [apply read_total|]. intros page. apply total_bind; [|intros; apply IH]. destruct (negb _); auto with fw.
Qed.
Lemma smart_write_total address l : sector_size <= SPI_BUFFER_SIZE -> total (SpiSmartWrite fsize sector_size address l).
Proof.
  intros Hs s. unfold SpiSmartWrite. rewrite (proj2 (Z.ltb_ge _ _)) by done.
  apply (total_bind (phase1 _ _ _ _ _)).
  - unfold phase1. apply total_bind; [apply read_total|]. intros page. destruct (negb _); auto with fw.
  - intros []. apply total_bind; [apply phase2_total|]. intros [addr [|x rest]]; [apply total_ret|].
    unfold phase3. apply total_bind; [apply read_total|]. intros page. destruct (negb _); auto with fw.
Qed.
Lemma flash_read_keeps off n s r s' : flash_read fsize off n s = Some (r, s') -> bytes s' = bytes s.
Proof. unfold flash_read. destruct (outside _ _ _); [by intros [= <- <-]|]. destruct (next_fate s) as [[] ?]; by intros [= <- <-]. Qed.
Hypotheses (Hsector : sector_size <= SPI_BUFFER_SIZE) (Hbuffer : 0 <= buffer /\ buffer + SPI_BUFFER_SIZE < 2 ^ 32).
(** The check keeps the region inside of the buffer unless its end wraps around. *)
Lemma check_in_buffer c n : 0 <= n -> 0 <= c -> c + n < 2 ^ 32 -> check_csm_region c n = false -> in_buffer c n = true.
Proof.
  intros Hn Hc Hw. unfold check_csm_region, in_buffer, SPI_BUFFER_SIZE in *. rewrite !wrap_id by (unfold in_width; lia).
  intros Hk. zb. rewrite andb_true_iff, !Z.leb_le. lia.
Qed.
Lemma handle_step st m : msg_ok m -> exists rc x st', handle st m = Some (rc, x, st') /\
  (flash_locked st = true \/ is_write m = false -> bytes (dev st') = bytes (dev st)) /\
  (flash_locked st' = false -> flash_locked st = false /\ m <> FlashLock \/ exists n v, m = FlashUnlock n v /\ covers n v = true).
Proof.
  intros Hm. destruct m as [t a n c|t a n c|ch| |n v]; cbn [handle is_write msg_ok] in *.
  - unfold read_eeprom_handler, SpiBlockRead. destruct (negb ready); [by eexists _, _, _; split_and!; [reflexivity|done|left]|].
    destruct (t =? 0); [|by eexists _, _, _; split_and!; [reflexivity|done|left]].
    destruct (check_csm_region c n) eqn:Ec; [by eexists _, _, _; split_and!; [reflexivity|done|left]|].
    rewrite (check_in_buffer c n) by (done || lia). cbn [negb].
    destruct (read_total a n (dev st)) as [[[rc|l] s'] E]; rewrite E; cbn [mbind option_bind]; apply flash_read_keeps in E;
      eexists _, _, _; split_and!; try reflexivity; try done; by left.
  - unfold write_eeprom_handler. destruct (flash_locked st) eqn:El; [eexists _, _, _; split_and!; [reflexivity|done|]; congruence|].
    destruct (negb ready); [by eexists _, _, _; split_and!; [reflexivity|done|left]|].
    destruct (t =? 0); [|by eexists _, _, _; split_and!; [reflexivity|done|left]].
    destruct (check_csm_region c n) eqn:Ec; [by eexists _, _, _; split_and!; [reflexivity|done|left]|].
    rewrite (check_in_buffer c n) by (done || lia). cbn [negb].
    destruct (smart_write_total a (span (mem st) c n) Hsector (dev st)) as [[r s'] ->]. cbn [mbind option_bind].
    eexists _, _, _. split_and!; [reflexivity|by intros [|]|by left].
  - eexists _, _, _. split_and!; [reflexivity|done|by left].
  - eexists _, _, _. split_and!; [reflexivity|done|done].
  - unfold flash_unlock_handler. destruct (flash_locked st) eqn:El; cbn [negb andb].
    + eexists _, _, _. split_and!; [reflexivity|done|]. cbn. intros Hc%negb_false_iff. right. eauto.
    + destruct (n =? 0); [by eexists _, _, _; split_and!; [reflexivity|done|left]|]. eexists _, _, _. split_and!; [reflexivity|done|]. by left.
Qed.
Lemma opened_snoc ms m : opened ms -> m <> FlashLock -> opened (ms ++ [m]).
Proof.
  intros (pre & n & v & mid & -> & Hc & Hl) Hm. exists pre, n, v, (mid ++ [m]). rewrite <- app_assoc. split_and!; [done|done|].
  rewrite elem_of_app, list_elem_of_singleton. intros [Hx | <-]; [done|]. by destruct Hm.
Qed.
Lemma opened_write ms m post : opened ms -> is_write m = true -> authorised (ms ++ m :: post).
Proof. intros (pre & n & v & mid & -> & Hc & Hl) Hm. exists pre, n, v, mid, m, post. by rewrite <- app_assoc. Qed.
Lemma handle_run ms : forall past st, Forall msg_ok ms -> (flash_locked st = false -> opened past) ->
  exists l st', handle_all st ms = Some (l, st') /\ ((exists a, bytes (dev st') a <> bytes (dev st) a) -> authorised (past ++ ms)).
Proof.
  induction ms as [|m ms IH]; intros past st Hms Ho.
  { eexists _, _. split; [reflexivity|]. by intros [a []]. }
  apply list.Forall_cons in Hms as [Hm Hms]. destruct (handle_step st m Hm) as (rc & x & st1 & E & Hk & Hl).
  destruct (IH (past ++ [m]) st1 Hms) as (l & st' & E' & Ha).
  { intros H1'. destruct (Hl H1') as [[H2' H3'] | (n & v & -> & Hc)]; [by apply opened_snoc; [apply Ho|]|]. exists past, n, v, []. split_and!; [done|done|].
    apply not_elem_of_nil. }
  cbn [handle_all]. rewrite E. cbn [mbind option_bind]. rewrite E'. cbn [mbind option_bind]. eexists _, _. split; [reflexivity|].
  rewrite <- app_assoc in Ha. intros [a Hd].
  destruct (is_write m) eqn:Ew; [destruct (flash_locked st) eqn:El|].
  - apply Ha. exists a. by rewrite Hk by (by left).
  - by apply opened_write; [apply Ho|].
  - apply Ha. exists a. by rewrite Hk by (by right).
Qed.
End handlers.

(** * Theorems *)
Definition flash_ok (fsize sector : Z) : Prop := 0 < sector <= SPI_BUFFER_SIZE /\ (sector | fsize) /\ fsize < 2 ^ 31.
(** C12. A write of any bytes anywhere in the flash, whatever fails: it returns; when it returns 0 the flash
    holds the data at the address and what it held before elsewhere; when an operation fails, at most the
    sector it was working on is lost, those before it are as they should be and those after it as they
    were; without a failure it returns 0; and nothing is erased when the data is there already. *)
Theorem smart_write_spec (fsize sector address : Z) (data : list Z) (s : spi) :
  flash_ok fsize sector -> 0 <= address < fsize -> address + Z.of_nat (length data) <= fsize ->
  Forall is_byte data -> (forall a, is_byte (bytes s a)) -> Forall fate_ok (fates s) ->
  exists r s', SpiSmartWrite fsize sector address data s = Some (r, s') /\
    (fates s = [] -> r = inr tt) /\
    ((forall a, patched (bytes s) address data a = bytes s a) -> erases s' = erases s) /\
    match r with
    | inr _ => forall a, bytes s' a = patched (bytes s) address data a
    | inl rc => rc < 0 /\ exists b, (sector | b) /\ address - sector < b < address + Z.max 1 (Z.of_nat (length data)) /\
        forall a, (a < b -> bytes s' a = patched (bytes s) address data a) /\ (b + sector <= a -> bytes s' a = bytes s a)
    end.
Proof.
  intros (Hs & Hd & Hf) Ha Hl Hb Hbs Hfs.
  destruct (smart_write_run fsize sector (bytes s) address data Hs Hd Hf Hbs Hb Ha Hl s (λ _, eq_refl) Hfs) as (r & s' & E & F & Z1 & N & R).
  exists r, s'. split; [done|]. split; [intros Hz; by destruct (Z1 Hz) as [_ [[] ->]]|]. split; [done|].
  destruct r as [rc|[]]; [|done]. destruct R as (Hrc & b & Hb1 & Hb2 & Hdm). split; [done|]. exists b. split_and!; [done|lia|lia|].
  intros a. split; intros Hab; rewrite Hdm by (apply within_false; lia); [by apply upto_before | apply upto_after; lia].
Qed.
(** C13. However the host's messages follow each other, as long as none names a region whose end wraps
    around 2^32 (the bounds check lets some of those through: [csm_check_wraps]): all of them are
    answered, and the flash changes only if a write came after an unlock by a host that had checked what
    this board requires, with no lock in between. *)
Theorem flash_protected (fsize sector buffer jedec_id : Z) (ready : bool) (ms : list emsg) (s : spi) (m : Z -> Z) :
  sector <= SPI_BUFFER_SIZE -> 0 <= buffer /\ buffer + SPI_BUFFER_SIZE < 2 ^ 32 -> Forall msg_ok ms ->
  exists l st', handle_all fsize sector buffer ready jedec_id {| flash_locked := true; dev := s; mem := m |} ms = Some (l, st') /\
    ((exists a, bytes (dev st') a <> bytes s a) -> authorised jedec_id ms).
Proof. intros Hs Hb Hms. by apply (handle_run fsize sector buffer ready jedec_id Hs Hb ms [] {| flash_locked := true; dev := s; mem := m |} Hms). Qed.
Lemma span_patched f a l : span (patched f a l) a (Z.of_nat (length l)) = l.
Proof.
  rewrite (list_span l a) at 3. apply span_ext. intros i Hi. unfold patched. by rewrite (proj2 (within_spec _ _ _)) by lia.
Qed.
(** C37. Once the flash is unlocked, what the host writes from the buffer is what it reads back, at any place
    in the buffer and whatever the buffer held in between. *)
Theorem eeprom_roundtrip (fsize sector buffer jedec_id a n c c' : Z) (st : eeprom) (m' : Z -> Z) :
  flash_ok fsize sector -> 0 <= buffer /\ buffer + SPI_BUFFER_SIZE < 2 ^ 32 ->
  flash_locked st = false -> fates (dev st) = [] -> (forall x, is_byte (bytes (dev st) x)) -> (forall x, is_byte (mem st x)) ->
  0 <= a < fsize -> 0 <= n -> a + n <= fsize -> in_buffer buffer c n = true -> in_buffer buffer c' n = true ->
  exists st1 st2, handle fsize sector buffer true jedec_id st (WriteEeprom 0 a n c) = Some (0, None, st1) /\
    handle fsize sector buffer true jedec_id {| flash_locked := flash_locked st1; dev := dev st1; mem := m' |} (ReadEeprom 0 a n c') = Some (0, None, st2) /\
    span (mem st2) c' n = span (mem st) c n.
Proof.
  intros (Hs & Hd & Hf) Hb Hlk Hfs Hbs Hms Ha Hn Hfit Hc Hc'. unfold in_buffer, SPI_BUFFER_SIZE in *. zb.
  assert (Hl : Z.of_nat (length (span (mem st) c n)) = n) by (apply span_length; lia).
  assert (Hbytes : Forall is_byte (span (mem st) c n)) by (unfold span; apply list.Forall_fmap, list.Forall_forall; intros x _; apply Hms).
  assert (Hchk : forall x, buffer <= x -> x + n <= buffer + 4096 -> check_csm_region buffer x n = false /\ in_buffer buffer x n = true).
  { intros x Hx1 Hx2. unfold check_csm_region, in_buffer, SPI_BUFFER_SIZE. rewrite !wrap_id by (unfold in_width; lia).
    split; [apply orb_false_iff; rewrite !Z.ltb_ge; lia | apply andb_true_iff; rewrite !Z.leb_le; lia]. }
  destruct (Hchk c ltac:(lia) ltac:(lia)) as [C1 C2]. destruct (Hchk c' ltac:(lia) ltac:(lia)) as [C3 C4].
  destruct (smart_write_run fsize sector (bytes (dev st)) a (span (mem st) c n) Hs Hd Hf Hbs Hbytes Ha ltac:(lia) (dev st) (λ _, eq_refl)
    ltac:(by rewrite Hfs)) as (r & s1 & E & _ & Z1 & _ & R). destruct (Z1 Hfs) as [Hfs1 [[] ->]].
  cbn [handle]. unfold write_eeprom_handler, read_eeprom_handler, SpiBlockRead. rewrite Hlk, C1, C2. cbn [negb Z.eqb]. rewrite E. cbn [mbind option_bind].
  eexists _, _. split; [reflexivity|]. cbn [with_dev flash_locked dev mem]. rewrite C3, C4. cbn [negb]. unfold flash_read.
  replace (outside fsize a n) with false by (symmetry; unfold outside; apply orb_false_iff; rewrite !Z.ltb_ge; lia).
  unfold next_fate. rewrite Hfs1. cbn [mbind option_bind]. split; [reflexivity|]. cbn [mem].
  assert (Hread : span (bytes s1) a n = span (mem st) c n).
  { rewrite (span_ext (bytes s1) (patched (bytes (dev st)) a (span (mem st) c n)) a n) by (intros; apply R).
    rewrite <- Hl at 2. apply span_patched. }
  rewrite Hread. rewrite <- Hl at 2. apply span_patched.
Qed.
(** ** Concrete runs *)
(** A flash of eight sectors of 16 bytes, which holds its own addresses; the third operation on it fails. *)
Definition small_flash (l : list fate) : spi := {| bytes := λ a, a mod 256; fates := l; erases := [] |}.
Definition third_fails : list fate := [Works; Works; Breaks (- EIO) (λ _, 0)].
Lemma mod_byte a : is_byte (a mod 256).
Proof. apply Z.mod_pos_bound. lia. Qed.
Lemma small_ok : flash_ok 128 16.
Proof. unfold flash_ok, SPI_BUFFER_SIZE. split_and!; try lia. by exists 8. Qed.
Lemma smart_write_spec_witness :
  exists r s', SpiSmartWrite 128 16 10 (replicate 30 7) (small_flash third_fails) = Some (r, s') /\
    (fates (small_flash third_fails) = [] -> r = inr tt) /\
    ((forall a, patched (bytes (small_flash third_fails)) 10 (replicate 30 7) a = bytes (small_flash third_fails) a) -> erases s' = []) /\
    match r with
    | inr _ => forall a, bytes s' a = patched (bytes (small_flash third_fails)) 10 (replicate 30 7) a
    | inl rc => rc < 0 /\ exists b, (16 | b) /\ -6 < b < 40 /\
        forall a, (a < b -> bytes s' a = patched (bytes (small_flash third_fails)) 10 (replicate 30 7) a) /\ (b + 16 <= a -> bytes s' a = a mod 256)
    end.
Proof.
  apply (smart_write_spec 128 16 10 (replicate 30 7) (small_flash third_fails)).
  - exact small_ok.
  - lia.
  - cbn. lia.
  - apply Forall_replicate. unfold is_byte. lia.
  - apply mod_byte.
  - repeat (apply Forall_cons_2; [cbn; try exact I; unfold EIO; lia|]). apply Forall_nil_2.
Defined.
(** A host that checked the flash's identifier unlocks, writes, locks and tries to write again. *)
Definition host_messages : list emsg :=
  [WriteEeprom 0 0 4 4096; FlashUnlock 1 1; WriteEeprom 0 10 30 4096; FlashLock; WriteEeprom 0 0 4 4096].
Lemma flash_protected_witness :
  exists l st', handle_all 128 16 4096 true 0xC22520 {| flash_locked := true; dev := small_flash []; mem := λ _, 7 |} host_messages = Some (l, st') /\
    ((exists a, bytes (dev st') a <> a mod 256) -> authorised 0xC22520 host_messages).
Proof.
  apply (flash_protected 128 16 4096 0xC22520 true host_messages (small_flash []) (λ _, 7)).
  - unfold SPI_BUFFER_SIZE. lia.
  - unfold SPI_BUFFER_SIZE. lia.
  - repeat (apply Forall_cons_2; [cbn; try exact I; lia|]). apply Forall_nil_2.
Defined.
Lemma host_codes : option_map fst (handle_all 128 16 4096 true 0xC22520 {| flash_locked := true; dev := small_flash []; mem := λ _, 7 |} host_messages) =
  Some [(2, None); (0, Some 1); (0, None); (0, None); (2, None)].
Proof. vm_compute. reflexivity. Qed.
Definition unlocked : eeprom := {| flash_locked := false; dev := small_flash []; mem := λ a, (3 * a) mod 256 |}.
Lemma eeprom_roundtrip_witness :
  exists st1 st2, handle 128 16 4096 true 0 unlocked (WriteEeprom 0 10 30 4100) = Some (0, None, st1) /\
    handle 128 16 4096 true 0 {| flash_locked := flash_locked st1; dev := dev st1; mem := λ _, 0 |} (ReadEeprom 0 10 30 5000) = Some (0, None, st2) /\
    span (mem st2) 5000 30 = span (mem unlocked) 4100 30.
Proof.
  apply (eeprom_roundtrip 128 16 4096 0 10 30 4100 5000 unlocked (λ _, 0)).
  - exact small_ok.
  - unfold SPI_BUFFER_SIZE. lia.
  - reflexivity.
  - reflexivity.
  - apply mod_byte.
  - intros x. apply mod_byte.
  - lia.
  - lia.
  - lia.
  - reflexivity.
  - reflexivity.
Defined.
(** The end of the region wraps around: the check lets a region through that starts in the buffer and
    goes on beyond its end, around the whole of memory. *)
Lemma csm_check_wraps (buffer : Z) : 0 < buffer < 2 ^ 31 ->
  check_csm_region buffer buffer (2 ^ 32 - 1) = false /\ in_buffer buffer buffer (2 ^ 32 - 1) = false.
Proof.
  intros Hb. unfold check_csm_region, in_buffer, SPI_BUFFER_SIZE. unfold wrap.
  replace ((buffer + (2 ^ 32 - 1)) mod 2 ^ 32) with (buffer - 1) by (apply (Z.mod_unique_pos _ _ 1); lia).
  rewrite Z.mod_small by lia. rewrite orb_false_iff, andb_false_iff, !Z.ltb_ge, !Z.leb_gt. lia.
Qed.
(** Another unlock without the required variables locks a flash that was open. *)
Lemma failed_unlock_locks st n v jedec_id : flash_locked st = false -> n <> 0 -> covers jedec_id n v = false ->
  flash_locked (snd (flash_unlock_handler jedec_id n v st)) = true.
Proof. intros Hl Hn Hc. unfold flash_unlock_handler. rewrite Hl, (proj2 (Z.eqb_neq n 0) Hn), Hc. done. Qed.
