(* ===== verification/Thermal.v ===== *)
(** Protection against heat: [bh_arc/cat.c], the catastrophic temperature monitor and the thermal trip of
    the memory, and [bh_arc/fan_ctrl.c], the fan.

    [float]s are rationals (nothing is said of rounding). The monitor and the GPIO that shuts the board
    down are seen through the writes made to them; requests for a fan speed and reports of a trip go to
    the board controller by the messages of Cm2Dm.v. *)
From Stdlib Require Import QArith Qround Lqa.
From stdpp Require Import prelude list numbers.
From S2P Require Import Prelude Io Dvfs Cm2Dm.
Open Scope Z_scope.

Definition Qlt_b (x y : Q) : bool := negb (Qle_bool y x).
(** * The catastrophic temperature monitor *)
Definition RESET_UNIT_CATMON_THERM_TRIP_CNTL_REG_DEFAULT : Z := 0x318.
Definition CAT_EARLY_TRIP_TEMP : Z := 100.
Definition T_J_SHUTDOWN : Z := 110.
Definition DEFAULT_CALIBRATION : Z := CAT_EARLY_TRIP_TEMP - T_J_SHUTDOWN.
Definition TRIM_CODE_BITS : Z := 6.
(** Offset and width of the fields of the control register. *)
Definition set_trim (v x : Z) : Z := set_field v 0 TRIM_CODE_BITS x.
Definition set_enable (v x : Z) : Z := set_field v 7 1 x.
Definition set_catmon_en (v x : Z) : Z := set_field v 8 1 x.
Definition set_thermb_en (v x : Z) : Z := set_field v 9 1 x.
(** What is done to the chip. [Gpio]: the pin that shuts the board down, driven or not. *)
Inductive cat_ev := Gpio (driven : bool) | WriteCntl (v : Z) | WaitUs (us : Z).
Definition TempToTrimCode (temp : Q) : Z := u8 (Qfloor (49 - QCLAMP temp (-56) 196 / 4)).
Definition TrimCodeToTemp (trim_code : Z) : Q := inject_Z (198 - 4 * trim_code).
Definition WaitCATUpdate : list cat_ev := [WaitUs 5].
(** The control word without and with what a trip does. *)
Definition cntl_quiet (trim_code : Z) : Z :=
  set_thermb_en (set_catmon_en (set_enable (set_trim RESET_UNIT_CATMON_THERM_TRIP_CNTL_REG_DEFAULT trim_code) 1) 0) 0.
Definition EnableCAT (trim_code : Z) (shutdown_on_trip : bool) : list cat_ev :=
  [Gpio false; WriteCntl (cntl_quiet trim_code)] ++ WaitCATUpdate ++
  (if shutdown_on_trip
   then [Gpio true; WriteCntl (set_thermb_en (set_catmon_en (cntl_quiet trim_code) 1) 1)] else []).
Definition CATEarlyInit : list cat_ev := EnableCAT (TempToTrimCode (inject_Z CAT_EARLY_TRIP_TEMP)) true.
(** The status after each trim code. Result: the code after the one that trips, whether one did. *)
Section calibration.
Context (status : Z -> bool) (avg_tmp : Q).
Fixpoint search (n : nat) (code : Z) : Z * bool * list cat_ev :=
  match n with
  | O => (code, false, [])
  | S n =>
      let w := WriteCntl (set_trim (set_thermb_en (set_catmon_en (set_enable RESET_UNIT_CATMON_THERM_TRIP_CNTL_REG_DEFAULT 1) 0) 0) code) in
      if status code then (code + 1, true, w :: WaitCATUpdate)
      else let '(c, t, l) := search n (code + 1) in (c, t, (w :: WaitCATUpdate) ++ l)
  end.
Definition CalibrateCAT : Q * list cat_ev :=
  let l := EnableCAT 0 false in
  if status 0 then (inject_Z DEFAULT_CALIBRATION, l)
  else
    let '(code, tripped, l') := search 64 0 in
    if negb tripped then (inject_Z DEFAULT_CALIBRATION, l ++ l')
    else (let e := (TrimCodeToTemp code - avg_tmp)%Q in if Qlt_b e (-25) || Qlt_b 25 e then QCLAMP e (-25) 25 else e, l ++ l').
Definition CATInit : list cat_ev :=
  let '(catmon_error, l) := CalibrateCAT in
  l ++ EnableCAT (TempToTrimCode (inject_Z T_J_SHUTDOWN + catmon_error)) true.
End calibration.
Definition TriggerThermTrip : list cat_ev := EnableCAT (TempToTrimCode (-56)) true.

(** * The thermal trip of the memory *)
Definition gddr_therm_trip_interval : Z := 100.
Definition GDDR_THERM_TRIP_DMC_NOTIFY_MS : Z := 50.
Definition kGddrThermTripReasonSustained : Z := 0.
Definition kGddrThermTripReasonInstantaneous : Z := 1.
(** The variables of [EvaluateGddrThermTrip]. *)
Record trip_state := { tracking : bool; over_temp_start_time : Z }.
Record limits := { trip_temp : Z; critical_temp : Z; duration_ms : Z }.
Definition EvaluateGddrThermTrip (t : trip_state) (lm : limits) (now max_temp : Z) : Z * trip_state :=
  let stop := {| tracking := false; over_temp_start_time := over_temp_start_time t |} in
  if negb (critical_temp lm =? 0) && (critical_temp lm <=? max_temp) then (max_temp, stop)
  else if (trip_temp lm =? 0) || (max_temp <? trip_temp lm) then (0, stop)
  else if negb (tracking t) then (0, {| tracking := true; over_temp_start_time := now |})
  else if duration_ms lm <=? now - over_temp_start_time t then (max_temp, stop)
  else (0, t).
(** [gddr_therm_trip_temp] and the like, [trip_pending], and whether the trigger is scheduled. *)
Record monitor := { trip : trip_state; thresholds : limits; trip_pending : bool; trigger_at : option Z; smc_of : smc }.
Implicit Types (m : monitor).
Definition MonitorGddrThermTrip m (now max_temp : Z) : Z * trip_state := EvaluateGddrThermTrip (trip m) (thresholds m) now max_temp.
(** [enabled]: the feature of the trip. *)
Definition gddr_therm_trip_work_handler m (now max_gddr_temp : Z) (enabled : bool) : monitor :=
  if trip_pending m then m
  else
    let '(max_temp, t) := MonitorGddrThermTrip m now max_gddr_temp in
    if negb (max_temp =? 0) && enabled then
      {| trip := t; thresholds := thresholds m; trip_pending := true; trigger_at := Some (now + GDDR_THERM_TRIP_DMC_NOTIFY_MS);
         smc_of := ReportGddrThermTrip (smc_of m)
           (if (critical_temp (thresholds m) <=? max_temp) && negb (critical_temp (thresholds m) =? 0)
            then kGddrThermTripReasonInstantaneous else kGddrThermTripReasonSustained) |}
    else {| trip := t; thresholds := thresholds m; trip_pending := false; trigger_at := trigger_at m; smc_of := smc_of m |}.
(** The limits of the firmware table; 0 for one that is not set. *)
Definition StartGddrThermTripMonitor (gddr_therm_trip_temp gddr_therm_trip_critical_temp gddr_therm_trip_duration_min : Z) : limits :=
  {| trip_temp := gddr_therm_trip_temp; critical_temp := gddr_therm_trip_critical_temp;
     duration_ms := gddr_therm_trip_duration_min * 60 * 1000 |}.
Fixpoint evaluate_all (t : trip_state) (lm : limits) (l : list (Z * Z)) : list Z * trip_state :=
  match l with
  | [] => ([], t)
  | (now, temp) :: l => let '(r, t) := EvaluateGddrThermTrip t lm now temp in let '(rs, t) := evaluate_all t lm l in (r :: rs, t)
  end.

(** * The fan *)
Record fan := {
  fan_rpm : Z; fan_speed : Z; fan_speed_forced : bool; fan_speed_feedback : Z; max_gddr_temp : Q; max_asic_temp : Q;
  effective_gddr_temp : Q; fan_smc : smc }.
Implicit Types (f : fan).
Definition asic_curve (t : Q) : Z :=
  if Qlt_b t 60 then 20
  else if Qlt_b t 72 then to_u32 ((833 # 1000) * t - (2998 # 100))
  else if Qlt_b t 75 then to_u32 ((3333 # 1000) * t - (209976 # 1000))
  else if Qlt_b t 90 then to_u32 (4 * t - 260)
  else 100.
Definition gddr_curve (t : Q) : Z :=
  if Qlt_b t 45 then 20
  else if Qlt_b t 60 then to_u32 (t - 25)
  else if Qlt_b t 82 then to_u32 ((2955 # 1000) * t - (1423 # 10))
  else 100.
(** The temperature of the memory that counts: a fall of less than 5 degrees does not. *)
Definition follow (effective max_gddr : Q) : Q :=
  if Qlt_b effective 0 then max_gddr
  else if Qlt_b effective max_gddr then max_gddr
  else if Qle_bool max_gddr (effective - 5) then max_gddr
  else effective.
Definition fan_curve (effective asic gddr : Q) : Z * Q :=
  let e := follow effective gddr in (Z.max (asic_curve asic) (gddr_curve e), e).
Definition CONFIG_TT_BH_ARC_FAN_CTRL_ALPHA : Z := 50.
Definition alpha : Q := inject_Z CONFIG_TT_BH_ARC_FAN_CTRL_ALPHA / 100.
Definition filtered (new old : Q) : Q := alpha * new + (1 - alpha) * old.
(** [gddr_en]: whether the memory's temperature is used. *)
Definition update_fan_speed (gddr_en : bool) f (asic_temperature gddr_max_temp : Q) : fan :=
  let asic := filtered asic_temperature (max_asic_temp f) in
  let gddr := if gddr_en then filtered gddr_max_temp (max_gddr_temp f) else inject_Z 0 in
  if negb (fan_speed_forced f) then
    let '(speed, e) := fan_curve (effective_gddr_temp f) asic gddr in
    {| fan_rpm := fan_rpm f; fan_speed := speed; fan_speed_forced := false; fan_speed_feedback := fan_speed_feedback f;
       max_gddr_temp := gddr; max_asic_temp := asic; effective_gddr_temp := e; fan_smc := UpdateFanSpeedRequest (fan_smc f) speed |}
  else
    {| fan_rpm := fan_rpm f; fan_speed := fan_speed f; fan_speed_forced := true; fan_speed_feedback := fan_speed_feedback f;
       max_gddr_temp := gddr; max_asic_temp := asic; effective_gddr_temp := effective_gddr_temp f; fan_smc := fan_smc f |}.
Definition GetFanRPM f : Z := fan_rpm f.
Definition SetFanRPM f (rpm : Z) : fan :=
  {| fan_rpm := rpm; fan_speed := fan_speed f; fan_speed_forced := fan_speed_forced f; fan_speed_feedback := fan_speed_feedback f;
     max_gddr_temp := max_gddr_temp f; max_asic_temp := max_asic_temp f; effective_gddr_temp := effective_gddr_temp f; fan_smc := fan_smc f |}.
Definition GetFanSpeed f : Z := if negb (fan_speed_feedback f =? 0) then fan_speed_feedback f else fan_speed f.
Definition DmcFanSpeedFeedback f (speed_percentage : Z) : fan :=
  {| fan_rpm := fan_rpm f; fan_speed := fan_speed f; fan_speed_forced := fan_speed_forced f; fan_speed_feedback := speed_percentage;
     max_gddr_temp := max_gddr_temp f; max_asic_temp := max_asic_temp f; effective_gddr_temp := effective_gddr_temp f; fan_smc := fan_smc f |}.
(** [fan_ctrl_en]: of the firmware table. *)
Definition init_fan_ctrl (fan_ctrl_en : bool) f (asic_temperature : Q) : fan :=
  if negb fan_ctrl_en then f
  else {| fan_rpm := fan_rpm f; fan_speed := fan_speed f; fan_speed_forced := fan_speed_forced f; fan_speed_feedback := fan_speed_feedback f;
          max_gddr_temp := max_gddr_temp f; max_asic_temp := asic_temperature; effective_gddr_temp := effective_gddr_temp f; fan_smc := fan_smc f |}.
Definition force_fan_speed (fan_ctrl_en : bool) f (raw_speed : Z) : Z * fan :=
  if negb fan_ctrl_en then (1, f)
  else if raw_speed =? UINT32_MAX then
    let '(speed, e) := fan_curve (effective_gddr_temp f) (max_asic_temp f) (max_gddr_temp f) in
    (0, {| fan_rpm := fan_rpm f; fan_speed := speed; fan_speed_forced := false; fan_speed_feedback := fan_speed_feedback f;
           max_gddr_temp := max_gddr_temp f; max_asic_temp := max_asic_temp f; effective_gddr_temp := e;
           fan_smc := UpdateFanSpeedRequest (fan_smc f) speed |})
  else
    let speed := Z.min (Z.max raw_speed 0) 100 in
    (0, {| fan_rpm := fan_rpm f; fan_speed := speed; fan_speed_forced := true; fan_speed_feedback := fan_speed_feedback f;
           max_gddr_temp := max_gddr_temp f; max_asic_temp := max_asic_temp f; effective_gddr_temp := effective_gddr_temp f;
           fan_smc := UpdateForcedFanSpeedRequest (fan_smc f) speed |}).

(** * The trip of the memory: exactly when it is hot for long enough *)
Definition critical (lm : limits) (temp : Z) : Prop := critical_temp lm <> 0 /\ critical_temp lm <= temp.
Definition hot (lm : limits) (x : Z * Z) : Prop := trip_temp lm <> 0 /\ trip_temp lm <= x.2.
Definition no_trip : trip_state := {| tracking := false; over_temp_start_time := 0 |}.
(** The samples since a moment, all hot. *)
Definition hot_since (lm : limits) (l : list (Z * Z)) (start : Z) : Prop :=
  exists l1 temp l2, l = l1 ++ (start, temp) :: l2 /\ Forall (hot lm) ((start, temp) :: l2).
Lemma evaluate_cases t lm now temp : let '(r, t') := EvaluateGddrThermTrip t lm now temp in
  (critical lm temp /\ r = temp /\ tracking t' = false) \/
  (~ critical lm temp /\ ~ hot lm (now, temp) /\ r = 0 /\ tracking t' = false) \/
  (~ critical lm temp /\ hot lm (now, temp) /\ tracking t = false /\ r = 0 /\ t' = {| tracking := true; over_temp_start_time := now |}) \/
  (~ critical lm temp /\ hot lm (now, temp) /\ tracking t = true /\ duration_ms lm <= now - over_temp_start_time t /\ r = temp /\ tracking t' = false) \/
  (~ critical lm temp /\ hot lm (now, temp) /\ tracking t = true /\ now - over_temp_start_time t < duration_ms lm /\ r = 0 /\ t' = t).
Proof.
  unfold EvaluateGddrThermTrip, critical, hot. cbn [snd].
  destruct (Z.eqb_spec (critical_temp lm) 0), (Z.leb_spec (critical_temp lm) temp); cbn [negb andb]; try (left; by split_and!);
    destruct (Z.eqb_spec (trip_temp lm) 0), (Z.ltb_spec temp (trip_temp lm)); cbn [orb]; try (right; left; split_and!; try done; lia);
    destruct (tracking t) eqn:Et; cbn [negb]; try (right; right; left; split_and!; try done; lia);
    destruct (Z.leb_spec (duration_ms lm) (now - over_temp_start_time t));
    try (right; right; right; left; split_and!; try done; lia); right; right; right; right; split_and!; try done; lia.
Qed.
Lemma evaluate_app l1 : forall t lm l2, evaluate_all t lm (l1 ++ l2) =
  let '(r1, t1) := evaluate_all t lm l1 in let '(r2, t2) := evaluate_all t1 lm l2 in (r1 ++ r2, t2).
Proof.
  induction l1 as [|[now temp] l1 IH]; intros t lm l2; cbn [evaluate_all app]; [by destruct (evaluate_all t lm l2)|].
  destruct (EvaluateGddrThermTrip t lm now temp) as [r t']. rewrite IH. destruct (evaluate_all t' lm l1) as [r1 t1].
  by destruct (evaluate_all t1 lm l2).
Qed.
(** While it tracks, all samples since the start were hot, and the start was one of them. *)
Lemma tracking_since lm l : tracking (evaluate_all no_trip lm l).2 = true -> hot_since lm l (over_temp_start_time (evaluate_all no_trip lm l).2).
Proof.
  induction l as [|[now temp] l IH] using rev_ind; [done|]. rewrite evaluate_app. destruct (evaluate_all no_trip lm l) as [rs t]. cbn [evaluate_all].
  pose proof (evaluate_cases t lm now temp) as Hc. destruct (EvaluateGddrThermTrip t lm now temp) as [r t']. cbn [snd] in *.
  destruct Hc as [(_ & _ & ->) | [(_ & _ & _ & ->) | [(_ & Hh & _ & _ & ->) | [(_ & _ & _ & _ & _ & ->) | (_ & Hh & Ht & _ & _ & ->)]]]]; try done.
  - intros _. exists l, temp, []. split; [done|]. by apply list.Forall_singleton.
  - intros _. destruct (IH Ht) as (l1 & temp0 & l2 & -> & HF). exists l1, temp0, (l2 ++ [(now, temp)]). split; [by rewrite <- app_assoc|].
    change ((over_temp_start_time t, temp0) :: l2 ++ [(now, temp)]) with (((over_temp_start_time t, temp0) :: l2) ++ [(now, temp)]).
    apply Forall_app_2; [done|]. by apply list.Forall_singleton.
Qed.
(** The start is no later than any moment after the samples. *)
Lemma tracking_before lm l t0 : Forall (λ x, x.1 <= t0) l -> tracking (evaluate_all no_trip lm l).2 = true ->
  over_temp_start_time (evaluate_all no_trip lm l).2 <= t0.
Proof.
  intros Hl Ht. destruct (tracking_since lm l Ht) as (l1 & temp & l2 & E & _). rewrite E in Hl. apply list.Forall_app in Hl as [_ Hl].
  by apply list.Forall_cons in Hl as [Hx _].
Qed.
Lemma tracked_trips lm t0 blk : forall t now temp, 0 < trip_temp lm -> tracking t = true -> over_temp_start_time t <= t0 ->
  Forall (hot lm) (blk ++ [(now, temp)]) -> duration_ms lm <= now - t0 -> (forall x, critical lm x -> x <> 0) ->
  Exists (λ r, r <> 0) (evaluate_all t lm (blk ++ [(now, temp)])).1.
Proof.
  induction blk as [|[now0 temp0] blk IH]; intros t now temp Hp Ht Hs Hh Hd Hc0; cbn [app evaluate_all] in *.
  - pose proof (evaluate_cases t lm now temp) as Hc. rewrite list.Forall_singleton in Hh. unfold hot in Hh. cbn in Hh.
    destruct (EvaluateGddrThermTrip t lm now temp) as [r t']. cbn. apply Exists_cons_hd.
    destruct Hc as [(Hcr & -> & _) | [(_ & Hn & _) | [(_ & _ & Hf & _) | [(_ & _ & _ & _ & -> & _) | (_ & _ & _ & Hlt & _)]]]];
      [by apply Hc0 | by destruct Hn | congruence | lia | lia].
  - apply list.Forall_cons in Hh as [Hh0 Hh]. pose proof (evaluate_cases t lm now0 temp0) as Hc.
    destruct (EvaluateGddrThermTrip t lm now0 temp0) as [r t']. specialize (IH t' now temp Hp).
    destruct (evaluate_all t' lm (blk ++ [(now, temp)])) as [rs t'']. cbn [fst] in *. unfold hot in Hh0. cbn in Hh0.
    destruct Hc as [(Hcr & -> & _) | [(_ & Hn & _) | [(_ & _ & Hf & _) | [(_ & _ & _ & _ & -> & _) | (_ & _ & _ & _ & _ & ->)]]]].
    + apply Exists_cons_hd. by apply Hc0.
    + by destruct Hn.
    + congruence.
    + apply Exists_cons_hd. lia.
    + apply Exists_cons_tl. by apply IH.
Qed.
(** C30. The thermal trip fires for the last of any samples only if it is critical, or the memory was at or
    above the threshold in all samples of a time at least as long as the duration; and it does fire
    within any such time of two samples or more. *)
Theorem gddr_trip_exact (lm : limits) (l blk : list (Z * Z)) (t0 temp0 now temp : Z) :
  0 <= trip_temp lm -> 0 <= critical_temp lm ->
  (fst (EvaluateGddrThermTrip (evaluate_all no_trip lm l).2 lm now temp) <> 0 ->
    critical lm temp \/ exists start, duration_ms lm <= now - start /\ hot_since lm (l ++ [(now, temp)]) start) /\
  (Forall (λ x, x.1 <= t0) l -> Forall (hot lm) ((t0, temp0) :: blk ++ [(now, temp)]) -> duration_ms lm <= now - t0 ->
    Exists (λ r, r <> 0) (evaluate_all (evaluate_all no_trip lm l).2 lm ((t0, temp0) :: blk ++ [(now, temp)])).1).
Proof.
  intros Hp Hc0. assert (Hcr : forall x, critical lm x -> x <> 0) by (unfold critical; lia). split.
  - pose proof (tracking_since lm l) as Hs. set (t := (evaluate_all no_trip lm l).2) in *. clearbody t. pose proof (evaluate_cases t lm now temp) as Hc.
    destruct (EvaluateGddrThermTrip t lm now temp) as [r t']. cbn [fst]. intros Hr.
    destruct Hc as [(Hx & _) | [(_ & _ & Hz & _) | [(_ & _ & _ & Hz & _) | [(_ & Hh & Ht & Hd & _) | (_ & _ & _ & _ & Hz & _)]]]]; try done; [by left|].
    right. exists (over_temp_start_time t). split; [done|]. destruct (Hs Ht) as (l1 & tmp & l2 & -> & HF).
    exists l1, tmp, (l2 ++ [(now, temp)]). split; [by rewrite <- app_assoc|].
    apply (Forall_app_2 _ (_ :: l2)); [done|]. by apply list.Forall_singleton.
  - intros Hl Hh Hd. pose proof (tracking_before lm l t0 Hl) as Hb. set (t := (evaluate_all no_trip lm l).2) in *. cbn [evaluate_all].
    apply list.Forall_cons in Hh as [Hh0 Hh]. pose proof (evaluate_cases t lm t0 temp0) as Hc.
    assert (Htp : 0 < trip_temp lm) by (destruct Hh0; lia).
    destruct (EvaluateGddrThermTrip t lm t0 temp0) as [r t']. pose proof (tracked_trips lm t0 blk t' now temp Htp) as Ht.
    destruct (evaluate_all t' lm (blk ++ [(now, temp)])) as [rs t'']. cbn [fst] in *.
    destruct Hc as [(Hx & -> & _) | [(_ & Hn & _) | [(_ & _ & _ & _ & ->) | [(_ & Hx & _ & _ & -> & _) | (_ & _ & Hx & _ & _ & ->)]]]].
    + apply Exists_cons_hd. by apply Hcr.
    + done.
    + apply Exists_cons_tl. by apply Ht.
    + apply Exists_cons_hd. destruct Hx as [_ Hx]. cbn in Hx. lia.
    + apply Exists_cons_tl. apply Ht; auto.
Qed.
Lemma gddr_trip_exact_witness :
  let lm := StartGddrThermTripMonitor 85 100 1 in let l := [(0, 80); (100, 90); (200, 70)] in
  (fst (EvaluateGddrThermTrip (evaluate_all no_trip lm l).2 lm 60300 86) <> 0 ->
    critical lm 86 \/ exists start, duration_ms lm <= 60300 - start /\ hot_since lm (l ++ [(60300, 86)]) start) /\
  (Forall (λ x, x.1 <= 300) l -> Forall (hot lm) ((300, 90) :: [(30300, 88)] ++ [(60300, 86)]) -> duration_ms lm <= 60300 - 300 ->
    Exists (λ r, r <> 0) (evaluate_all (evaluate_all no_trip lm l).2 lm ((300, 90) :: [(30300, 88)] ++ [(60300, 86)])).1).
Proof.
  intros lm l. apply (gddr_trip_exact lm l [(30300, 88)] 300 90 60300 86); cbn; lia.
Defined.
(** The work item reports a trip only while the feature is on, once, and has the board shut down 50
    milliseconds later. *)
Lemma worker_reports m now temp enabled : trip_pending m = false ->
  trip_pending (gddr_therm_trip_work_handler m now temp enabled) = true ->
  enabled = true /\ fst (MonitorGddrThermTrip m now temp) <> 0 /\
  trigger_at (gddr_therm_trip_work_handler m now temp enabled) = Some (now + GDDR_THERM_TRIP_DMC_NOTIFY_MS) /\
  forall now' temp' enabled', let m' := gddr_therm_trip_work_handler m now temp enabled in gddr_therm_trip_work_handler m' now' temp' enabled' = m'.
Proof.
  intros Hp. unfold gddr_therm_trip_work_handler. rewrite Hp. destruct (MonitorGddrThermTrip m now temp) as [r t]. cbn [fst].
  destruct (Z.eqb_spec r 0); cbn [negb andb]; [done|]. destruct enabled; [|done]. done.
Qed.

(** * Calibration *)
Lemma Qlt_b_spec x y : Qlt_b x y = true <-> (x < y)%Q.
Proof. unfold Qlt_b. rewrite negb_true_iff, <- not_true_iff_false, Qle_bool_iff. split; [apply Qnot_le_lt | intros ?; by apply Qlt_not_le]. Qed.
Lemma Qlt_b_false x y : Qlt_b x y = false <-> (y <= x)%Q.
Proof. unfold Qlt_b. by rewrite negb_false_iff, Qle_bool_iff. Qed.
Lemma search_finds (status : Z -> bool) n : forall code c, code <= c < code + Z.of_nat n -> status c = true ->
  (forall i, code <= i < c -> status i = false) -> exists l, search status n code = (c + 1, true, l) /\ Gpio true ∉ l.
Proof.
  induction n as [|n IH]; intros code c Hc Hs Hb; [lia|]. cbn [search]. set (w := WriteCntl _).
  assert (Hw : Gpio true ∉ w :: WaitCATUpdate) by (unfold w, WaitCATUpdate; rewrite !not_elem_of_cons; split_and!; try done; apply not_elem_of_nil).
  destruct (Z.eq_dec code c) as [->|Hne]; [rewrite Hs; by eexists|]. rewrite Hb by lia.
  destruct (IH (code + 1) c) as (l & E & Hl); [lia|done|intros; apply Hb; lia|]. rewrite E. eexists. split; [reflexivity|].
  rewrite elem_of_app. by intros [?|?].
Qed.
Lemma clamp_inside (x : Q) lo hi : (inject_Z lo <= x)%Q -> (x <= inject_Z hi)%Q -> (QCLAMP x lo hi == x)%Q.
Proof.
  intros H1 H2. unfold QCLAMP. destruct (Qle_bool x (inject_Z lo)) eqn:E1; [apply Qle_bool_iff in E1; lra|].
  destruct (Qle_bool x (inject_Z hi)) eqn:E2; [lra|]. apply not_true_iff_false in E2. by rewrite Qle_bool_iff in E2.
Qed.
(** The trim code of a temperature trips at or up to 4 degrees above it. *)
Lemma trim_code_spec (x : Q) : (-56 <= x)%Q -> (x <= 196)%Q ->
  0 <= TempToTrimCode x <= 63 /\ (x <= inject_Z (196 - 4 * TempToTrimCode x))%Q /\ (inject_Z (196 - 4 * TempToTrimCode x) < x + 4)%Q.
Proof.
  intros H1 H2. pose proof (clamp_inside x (-56) 196 H1 H2) as Hc. unfold TempToTrimCode. set (y := (49 - QCLAMP x (-56) 196 / 4)%Q).
  assert (Hy : (y == 49 - x / 4)%Q) by (unfold y; by rewrite Hc). pose proof (Qfloor_le y) as F1. pose proof (Qlt_floor y) as F2.
  set (k := Qfloor y) in *. clearbody y k. rewrite inject_Z_plus in F2.
  change (inject_Z 1) with 1%Q in F2. assert (Hq : (x / 4 == (1 # 4) * x)%Q) by (unfold Qdiv; change (/ 4)%Q with (1 # 4)%Q; apply Qmult_comm).
  assert (0 < k + 1) by (rewrite Zlt_Qlt, inject_Z_plus; change (inject_Z 0) with 0%Q; change (inject_Z 1) with 1%Q; lra).
  assert (k <= 63) by (rewrite Zle_Qle; change (inject_Z 63) with 63%Q; lra).
  rewrite wrap_id by (unfold in_width; lia).
  assert (Hj : (inject_Z (196 - 4 * k) == 196 - 4 * inject_Z k)%Q) by (unfold Z.sub; by rewrite inject_Z_plus, inject_Z_opp, inject_Z_mult).
  split; [lia|]. rewrite Hj. split; lra.
Qed.
(** The monitor reads [offset] more than the temperature is; [avg] is that temperature while it is
    calibrated. *)
Section window.
Context (avg offset : Q).
Definition trips (code : Z) (temp : Q) : bool := Qle_bool (inject_Z (196 - 4 * code)) (temp + offset).
Lemma trips_spec code temp : trips code temp = true <-> (196 - 4 * inject_Z code <= temp + offset)%Q.
Proof.
  unfold trips. rewrite Qle_bool_iff. assert (Hj : (inject_Z (196 - 4 * code) == 196 - 4 * inject_Z code)%Q)
    by (unfold Z.sub; by rewrite inject_Z_plus, inject_Z_opp, inject_Z_mult). by rewrite Hj.
Qed.
(** The first trim code that trips. *)
Definition first_code : Z := Qceiling ((196 - (avg + offset)) * (1 # 4)).
Lemma first_code_spec : (-56 <= avg + offset)%Q -> (avg + offset < 196)%Q ->
  1 <= first_code <= 63 /\ trips first_code avg = true /\ (forall i, i < first_code -> trips i avg = false) /\
  (avg + offset < 200 - 4 * inject_Z first_code)%Q.
Proof.
  intros H1 H2. unfold first_code. set (y := ((196 - (avg + offset)) * (1 # 4))%Q). assert (Hy : (4 * y == 196 - (avg + offset))%Q) by (unfold y; ring).
  pose proof (Qle_ceiling y) as C1. pose proof (Qceiling_lt y) as C2. set (c := Qceiling y) in *. clearbody y c.
  unfold Z.sub in C2. rewrite inject_Z_plus, inject_Z_opp in C2. change (inject_Z 1) with 1%Q in C2.
  assert (0 < c) by (rewrite Zlt_Qlt; change (inject_Z 0) with 0%Q; lra).
  assert (c < 64) by (rewrite Zlt_Qlt; change (inject_Z 64) with 64%Q; lra).
  split_and!; try lia.
  - apply trips_spec. lra.
  - intros i Hi. apply not_true_iff_false. rewrite trips_spec. assert (Hq : (inject_Z i + 1 <= inject_Z c)%Q).
    { change 1%Q with (inject_Z 1). rewrite <- inject_Z_plus, <- Zle_Qle. lia. } lra.
  - lra.
Qed.
End window.
(** C31. Whatever the monitor's own error, from -19 to 27 degrees, calibration leaves it such that the board is
    shut down by the time the chip is 2 degrees above its limit, and not while it is 6 degrees or more
    below; and nothing that happens during calibration shuts it down. *)
Theorem catmon_window (avg offset : Q) :
  (-56 <= avg + offset)%Q -> (avg + offset < 196)%Q -> (-19 <= offset)%Q -> (offset <= 27)%Q ->
  exists l code, CATInit (λ c, trips offset c avg) avg = l ++ EnableCAT code true /\ Gpio true ∉ l /\ 0 <= code <= 63 /\
    (forall temp : Q, (inject_Z T_J_SHUTDOWN + 2 <= temp)%Q -> trips offset code temp = true) /\
    (forall temp : Q, (temp <= inject_Z T_J_SHUTDOWN - 6)%Q -> trips offset code temp = false).
Proof.
  intros H1 H2 H3 H4. destruct (first_code_spec avg offset H1 H2) as (Hr & Ht & Hb & Hu). set (c := first_code avg offset) in *.
  unfold CATInit, CalibrateCAT. rewrite Hb by lia.
  destruct (search_finds (λ c, trips offset c avg) 64 0 c) as (l & E & Hl); [lia|exact Ht|intros i Hi; apply Hb; lia|]. rewrite E. cbn [negb].
  apply trips_spec in Ht. set (e := (TrimCodeToTemp (c + 1) - avg)%Q). assert (He : (e == 194 - 4 * inject_Z c - avg)%Q).
  { unfold e, TrimCodeToTemp. replace (198 - 4 * (c + 1)) with (194 - 4 * c) by lia. unfold Z.sub. by rewrite inject_Z_plus, inject_Z_opp, inject_Z_mult. }
  clearbody c e. assert (Hno : Qlt_b e (-25) || Qlt_b 25 e = false) by (apply orb_false_iff; rewrite !Qlt_b_false; split; lra). rewrite Hno.
  change (inject_Z T_J_SHUTDOWN) with 110%Q. destruct (trim_code_spec (110 + e)) as (Hk & Hlo & Hhi); [lra|lra|].
  set (code := TempToTrimCode (110 + e)) in *. clearbody code. eexists _, code. split; [reflexivity|]. split.
  { rewrite elem_of_app. intros [Hx|]; [|done]. revert Hx. cbn. rewrite !elem_of_cons, elem_of_nil. naive_solver. }
  assert (Hj : (inject_Z (196 - 4 * code) == 196 - 4 * inject_Z code)%Q) by (unfold Z.sub; by rewrite inject_Z_plus, inject_Z_opp, inject_Z_mult).
  rewrite Hj in Hlo, Hhi. split; [done|]. split; intros temp Hx; [apply trips_spec; lra|]. apply not_true_iff_false. rewrite trips_spec. lra.
Qed.
Lemma catmon_window_witness :
  exists l code, CATInit (λ c, trips 9 c 41) 41 = l ++ EnableCAT code true /\ Gpio true ∉ l /\ 0 <= code <= 63 /\
    (forall temp : Q, (inject_Z T_J_SHUTDOWN + 2 <= temp)%Q -> trips 9 code temp = true) /\
    (forall temp : Q, (temp <= inject_Z T_J_SHUTDOWN - 6)%Q -> trips 9 code temp = false).
Proof. apply (catmon_window 41 9); apply Qle_bool_iff || reflexivity; reflexivity. Defined.
(** The loop leaves with the code after the one that tripped, so the temperature it stands for is not the
    middle of the interval of the code that tripped, but 4 degrees below it. *)
Lemma calibration_one_code_late (avg offset : Q) : (-56 <= avg + offset)%Q -> (avg + offset < 196)%Q ->
  exists c l, search (λ c, trips offset c avg) 64 0 = (c + 1, true, l) /\ trips offset c avg = true /\ trips offset (c - 1) avg = false /\
    (2 <= avg + offset - TrimCodeToTemp (c + 1))%Q /\ (-2 <= avg + offset - TrimCodeToTemp c)%Q /\ (avg + offset - TrimCodeToTemp c < 2)%Q.
Proof.
  intros H1 H2. destruct (first_code_spec avg offset H1 H2) as (Hr & Ht & Hb & Hu). set (c := first_code avg offset) in *. exists c.
  destruct (search_finds (λ c, trips offset c avg) 64 0 c) as (l & E & _); [lia|exact Ht|intros i Hi; apply Hb; lia|]. exists l.
  split; [done|]. split; [done|]. split; [apply Hb; lia|]. apply trips_spec in Ht. unfold TrimCodeToTemp.
  replace (198 - 4 * (c + 1)) with (194 - 4 * c) by lia. unfold Z.sub. rewrite !inject_Z_plus, !inject_Z_opp, !inject_Z_mult.
  change (inject_Z 198) with 198%Q. change (inject_Z 194) with 194%Q. change (inject_Z 4) with 4%Q. split_and!; lra.
Qed.

(** * The fan *)
Lemma to_u32_range (x : Q) lo hi : 0 <= lo -> hi < 2 ^ 32 -> (inject_Z lo <= x)%Q -> (x < inject_Z hi + 1)%Q -> lo <= to_u32 x <= hi.
Proof.
  intros Hlo Hhi H1 H2. unfold to_u32. assert (Ha : lo <= Qfloor x) by (rewrite <- (Qfloor_Z lo); by apply Qfloor_resp_le).
  assert (Hb : Qfloor x < hi + 1) by (rewrite Zlt_Qlt, inject_Z_plus; change (inject_Z 1) with 1%Q; pose proof (Qfloor_le x); lra). rewrite wrap_id by (unfold in_width; lia). lia.
Qed.
Lemma to_u32_mono (x y : Q) : (0 <= x)%Q -> (x <= y)%Q -> (y < 4294967296)%Q -> to_u32 x <= to_u32 y.
Proof.
  intros H1 H2 H3. unfold to_u32. assert (Ha : 0 <= Qfloor x) by (change 0 with (Qfloor 0); by apply Qfloor_resp_le).
  assert (Hb : Qfloor x <= Qfloor y) by (by apply Qfloor_resp_le).
  assert (Hc : Qfloor y < 2 ^ 32) by (rewrite Zlt_Qlt; change (inject_Z (2 ^ 32)) with 4294967296%Q; pose proof (Qfloor_le y); lra). rewrite !wrap_id by (unfold in_width; lia). done.
Qed.
Lemma asic_pieces (t : Q) :
  ((60 <= t)%Q -> (t < 72)%Q -> 20 <= to_u32 ((833 # 1000) * t - (2998 # 100)) <= 29) /\
  ((72 <= t)%Q -> (t < 75)%Q -> 30 <= to_u32 ((3333 # 1000) * t - (209976 # 1000)) <= 39) /\
  ((75 <= t)%Q -> (t < 90)%Q -> 40 <= to_u32 (4 * t - 260) <= 99).
Proof. split_and!; intros H1 H2; apply to_u32_range; try done; unfold inject_Z; lra. Qed.
Lemma gddr_pieces (t : Q) :
  ((45 <= t)%Q -> (t < 60)%Q -> 20 <= to_u32 (t - 25) <= 34) /\
  ((60 <= t)%Q -> (t < 82)%Q -> 35 <= to_u32 ((2955 # 1000) * t - (1423 # 10)) <= 100).
Proof. split_and!; intros H1 H2; apply to_u32_range; try done; unfold inject_Z; lra. Qed.
Ltac qcases :=
  repeat match goal with
  | |- context [Qlt_b ?x ?y] => let E := fresh "E" in destruct (Qlt_b x y) eqn:E; [apply Qlt_b_spec in E | apply Qlt_b_false in E]
  end.
Lemma asic_curve_range t : 20 <= asic_curve t <= 100.
Proof. unfold asic_curve. pose proof (asic_pieces t) as (P1 & P2 & P3). qcases; try lia; [specialize (P1 ltac:(done) ltac:(done)) | specialize (P2 ltac:(done) ltac:(done)) | specialize (P3 ltac:(done) ltac:(done))]; lia. Qed.
Lemma gddr_curve_range t : 20 <= gddr_curve t <= 100.
Proof. unfold gddr_curve. pose proof (gddr_pieces t) as (P1 & P2). qcases; try lia; [specialize (P1 ltac:(done) ltac:(done)) | specialize (P2 ltac:(done) ltac:(done))]; lia. Qed.
Ltac piece H := try (specialize (H ltac:(lra) ltac:(lra))).
Lemma gddr_curve_mono x y : (x <= y)%Q -> gddr_curve x <= gddr_curve y.
Proof.
  intros Hxy. pose proof (gddr_curve_range x) as Rx. pose proof (gddr_curve_range y) as Ry. unfold gddr_curve in *.
  pose proof (gddr_pieces x) as (P1 & P2). pose proof (gddr_pieces y) as (Q1 & Q2).
  destruct (Qlt_b x 45) eqn:E1; [lia|]. apply Qlt_b_false in E1.
  destruct (Qlt_b y 45) eqn:E2; [apply Qlt_b_spec in E2; lra|]. apply Qlt_b_false in E2.
  destruct (Qlt_b y 60) eqn:E3; [apply Qlt_b_spec in E3|apply Qlt_b_false in E3].
  { destruct (Qlt_b x 60) eqn:E4; [|apply Qlt_b_false in E4; lra]. apply to_u32_mono; lra. }
  destruct (Qlt_b y 82) eqn:E5; [apply Qlt_b_spec in E5|lia].
  destruct (Qlt_b x 60) eqn:E4; [apply Qlt_b_spec in E4; piece P1; piece Q2; lia|]. apply Qlt_b_false in E4.
  destruct (Qlt_b x 82) eqn:E6; [|apply Qlt_b_false in E6; lra]. apply to_u32_mono; lra.
Qed.
Lemma follow_spec e g : (g <= follow e g)%Q /\ (follow e g <= g + 5)%Q.
Proof.
  unfold follow. qcases; try (split; lra). destruct (Qle_bool g (e - 5)) eqn:E1; [split; lra|].
  apply not_true_iff_false in E1. rewrite Qle_bool_iff in E1. split; lra.
Qed.
#[export] Instance Qlt_b_proper : Proper (Qeq ==> Qeq ==> eq) Qlt_b.
Proof. intros x x' Hx y y' Hy. apply eq_true_iff_eq. rewrite !Qlt_b_spec. by rewrite Hx, Hy. Qed.
#[export] Instance to_u32_proper : Proper (Qeq ==> eq) to_u32.
Proof. intros x y Hxy. unfold to_u32. by rewrite (Qfloor_comp x y Hxy). Qed.
#[export] Instance asic_curve_proper : Proper (Qeq ==> eq) asic_curve.
Proof. intros x y Hxy. unfold asic_curve. by rewrite !Hxy. Qed.
#[export] Instance gddr_curve_proper : Proper (Qeq ==> eq) gddr_curve.
Proof. intros x y Hxy. unfold gddr_curve. by rewrite !Hxy. Qed.
(** ** The fan as it runs *)
(** The timer takes a reading of both temperatures; the host forces a speed or stops forcing it; the
    board controller reports the speed and the revolutions. *)
Inductive fev := Tick (asic gddr : Q) | Force (raw_speed : Z) | Feedback (speed : Z) | Rpm (rpm : Z).
(** *** What is promised *)
(** Each reading counts for half, with what was known before. *)
Definition average (old new : Q) : Q := (old + new) / 2.
Definition asic_average (t0 : Q) (es : list fev) : Q :=
  foldl (λ q e, match e with Tick a _ => average q a | _ => q end) t0 es.
Definition gddr_average (gddr_en : bool) (es : list fev) : Q :=
  foldl (λ q e, match e with Tick _ g => if gddr_en then average q g else 0%Q | _ => q end) 0%Q es.
(** The speed the host forces now, if it does. *)
Definition forced_speed (es : list fev) : option Z :=
  foldl (λ r e, match e with Force raw => if raw =? UINT32_MAX then None else Some (Z.min (Z.max raw 0) 100) | _ => r end) None es.
Definition sets_speed (e : fev) : bool := match e with Tick _ _ | Force _ => true | _ => false end.
(** At least what the curves ask for at these temperatures, and at most what they ask for with the
    memory 5 degrees hotter. *)
Definition fan_covering (speed : Z) (asic gddr : Q) : Prop :=
  20 <= speed /\ Z.max (asic_curve asic) (gddr_curve gddr) <= speed <= Z.max (asic_curve asic) (gddr_curve (gddr + 5)).
Definition fan_promise (gddr_en : bool) (t0 : Q) (es : list fev) f : Prop :=
  0 <= fan_speed f <= 100 /\ fan_speed_forced f = bool_decide (is_Some (forced_speed es)) /\
  match forced_speed es with
  | Some v => fan_speed f = v
  | None => if existsb sets_speed es then fan_covering (fan_speed f) (asic_average t0 es) (gddr_average gddr_en es)
            else fan_speed f = 0
  end.
(** *** What the code does *)
Section fan_runs.
Context (fan_ctrl_en gddr_en : bool).
(** The timer only runs when the firmware table enables the control. *)
Definition fstep f (e : fev) : fan :=
  match e with
  | Tick a g => if fan_ctrl_en then update_fan_speed gddr_en f a g else f
  | Force raw => snd (force_fan_speed fan_ctrl_en f raw)
  | Feedback x => DmcFanSpeedFeedback f x
  | Rpm x => SetFanRPM f x
  end.
Definition fan_start (w : smc) : fan :=
  {| fan_rpm := 0; fan_speed := 0; fan_speed_forced := false; fan_speed_feedback := 0; max_gddr_temp := 0; max_asic_temp := 0;
     effective_gddr_temp := -1; fan_smc := w |}.
Definition run_fan (w : smc) (t0 : Q) (es : list fev) : fan := foldl fstep (init_fan_ctrl fan_ctrl_en (fan_start w) t0) es.
End fan_runs.
Lemma run_fan_app en ge w t0 es e : run_fan en ge w t0 (es ++ [e]) = fstep en ge (run_fan en ge w t0 es) e.
Proof. unfold run_fan. by rewrite foldl_app. Qed.
Lemma filtered_average new old : (filtered new old == average old new)%Q.
Proof. unfold filtered, average, alpha. change (inject_Z CONFIG_TT_BH_ARC_FAN_CTRL_ALPHA / 100)%Q with (50 / 100)%Q. field. Qed.
#[export] Instance average_proper : Proper (Qeq ==> Qeq ==> Qeq) average.
Proof. intros x x' Hx y y' Hy. unfold average. by rewrite Hx, Hy. Qed.
(** The temperatures kept are the averages of the readings, forced or not. *)
Definition temps_kept (ge : bool) (t0 : Q) (es : list fev) f : Prop :=
  (max_asic_temp f == asic_average t0 es)%Q /\ (max_gddr_temp f == gddr_average ge es)%Q.
Lemma run_fan_temps ge w t0 es : temps_kept ge t0 es (run_fan true ge w t0 es).
Proof.
  induction es as [|e es [IHa IHg]] using rev_ind; [done|]. rewrite run_fan_app. set (f := run_fan true ge w t0 es) in *.
  unfold temps_kept, asic_average, gddr_average in *. rewrite !foldl_app. cbn [foldl].
  destruct e as [a g|raw|x|x]; cbn [fstep]; [| |by split..].
  - assert (E : max_asic_temp (update_fan_speed ge f a g) = filtered a (max_asic_temp f) /\
                max_gddr_temp (update_fan_speed ge f a g) = if ge then filtered g (max_gddr_temp f) else inject_Z 0)
      by (unfold update_fan_speed; by destruct (fan_speed_forced f)).
    destruct E as [-> ->]. destruct ge; rewrite ?filtered_average, ?IHa, ?IHg; by split.
  - unfold force_fan_speed. cbn [negb]. destruct (raw =? UINT32_MAX); by split.
Qed.
Lemma curve_range e a g : 20 <= fst (fan_curve e a g) <= 100.
Proof. unfold fan_curve. cbn [fst]. pose proof (asic_curve_range a). pose proof (gddr_curve_range (follow e g)). lia. Qed.
Lemma fan_curve_covering e a g : fan_covering (fst (fan_curve e a g)) a g.
Proof.
  pose proof (curve_range e a g). unfold fan_covering, fan_curve in *. cbn [fst] in *. destruct (follow_spec e g) as [H1 H2].
  pose proof (gddr_curve_mono _ _ H1). pose proof (gddr_curve_mono _ _ H2). lia.
Qed.
#[export] Instance fan_covering_proper : Proper (eq ==> Qeq ==> Qeq ==> iff) fan_covering.
Proof. intros s s' -> a a' Ha g g' Hg. unfold fan_covering. by rewrite Ha, Hg. Qed.
Lemma existsb_snoc {A} (p : A -> bool) l x : existsb p (l ++ [x]) = existsb p l || p x.
Proof. by rewrite existsb_app; cbn [existsb]; rewrite orb_false_r. Qed.
Lemma run_fan_promise ge w t0 es : fan_promise ge t0 es (run_fan true ge w t0 es).
Proof.
  induction es as [|e es IH] using rev_ind; [split; [by cbn|by split]|].
  pose proof (run_fan_temps ge w t0 (es ++ [e])) as [Ta Tg]. revert Ta Tg. rewrite run_fan_app.
  set (f := run_fan true ge w t0 es) in *. destruct IH as (IHr & IHf & IHs). unfold fan_promise.
  assert (Hfs : forced_speed (es ++ [e]) =
    match e with Force raw => if raw =? UINT32_MAX then None else Some (Z.min (Z.max raw 0) 100) | _ => forced_speed es end)
    by (unfold forced_speed; by rewrite foldl_app).
  rewrite Hfs, existsb_snoc.
  destruct e as [a g|raw|x|x]; cbn [fstep sets_speed]; intros Ta Tg.
  - unfold update_fan_speed in *. rewrite IHf in *. rewrite orb_true_r. destruct (forced_speed es) as [v|].
    + by rewrite bool_decide_true in * by done.
    + rewrite bool_decide_false in * by (by intros [? ?]). cbn [negb] in *.
      set (asic := filtered a (max_asic_temp f)) in *. set (gddr := if ge then _ else _) in *.
      destruct (fan_curve (effective_gddr_temp f) asic gddr) as [speed e] eqn:Ec. cbn [fan_speed fan_speed_forced max_asic_temp max_gddr_temp] in *.
      pose proof (curve_range (effective_gddr_temp f) asic gddr) as Hr. pose proof (fan_curve_covering (effective_gddr_temp f) asic gddr) as Hc.
      rewrite Ec in Hr, Hc. cbn [fst] in Hr, Hc. rewrite Ta, Tg in Hc. split; [lia|]. by split.
  - unfold force_fan_speed in *. cbn [negb] in *. rewrite orb_true_r. destruct (raw =? UINT32_MAX).
    + destruct (fan_curve (effective_gddr_temp f) (max_asic_temp f) (max_gddr_temp f)) as [speed e] eqn:Ec.
      cbn [snd fan_speed fan_speed_forced max_asic_temp max_gddr_temp] in *.
      pose proof (curve_range (effective_gddr_temp f) (max_asic_temp f) (max_gddr_temp f)) as Hr.
      pose proof (fan_curve_covering (effective_gddr_temp f) (max_asic_temp f) (max_gddr_temp f)) as Hc.
      rewrite Ec in Hr, Hc. cbn [fst] in Hr, Hc. rewrite Ta, Tg in Hc. split; [lia|]. by split.
    + cbn [snd fan_speed fan_speed_forced]. split; [lia | by split].
  - rewrite orb_false_r. split; [exact IHr | split; [exact IHf|]]. destruct (forced_speed es); [exact IHs|].
    destruct (existsb sets_speed es); [|exact IHs]. unfold asic_average, gddr_average. by rewrite !foldl_app.
  - rewrite orb_false_r. split; [exact IHr | split; [exact IHf|]]. destruct (forced_speed es); [exact IHs|].
    destruct (existsb sets_speed es); [|exact IHs]. unfold asic_average, gddr_average. by rewrite !foldl_app.
Qed.
