(* ===== verification/Dmc.v ===== *)
(** The board controller: its main loop, [app/dmc/src/main.c], and what it does to a chip,
    [bh_chip/bh_chip.c], [strapping.c], [jtag_bootrom/reset.c] and the start of a reset in
    [jtag_bootrom.c].

    Thermal trips, expired watchdogs, PERST and changes of power-good arrive as interrupts, at any
    point of the loop. They set flags and cancel transfers on the chip's bus; the loop serves the flags.
    The configuration is that of [prj.conf] (the boot ROM is patched, resets on PERST). *)
From stdpp Require Import prelude list numbers.
From S2P Require Import Prelude Cm2Dm.
Open Scope Z_scope.

(** Field update: the record built from its projections, with one of them replaced. *)
Ltac setter eta c p v :=
  let t := eval cbv beta delta [eta] in (eta c) in
  match eval pattern (p c) in t with ?g _ => let r := eval cbv beta in (g v) in exact r end.

(** * State *)
(** [struct bh_chip_data], then what the controller does to the chip's pins and bus: transfers cancelled,
    resets asserted, the watchdog's timer. *)
Record chip := build_chip {
  workaround_applied : bool; arc_needs_init_msg : bool; trigger_reset : bool; performing_reset : bool;
  therm_trip_triggered : bool; therm_trip_count : Z; pgood_fall_triggered : bool; pgood_rise_triggered : bool;
  pgood_severe_fault : bool; pgood_last_trip_ms : Z; auto_reset_timeout : Z; telemetry_heartbeat : Z;
  arc_hang_pc : Z; arc_wdog_triggered : bool; fan_speed : Z; fan_speed_forced : bool; last_cm2dm_seq_num : Z;
  last_cm2dm_seq_num_valid : bool; cable_power_limit : Z; perst_seen : bool; dm_init_done : Z;
  arc_start_time : Z; cancelled : bool; asic_reset : bool; spi_reset : bool; auto_reset_timer : option Z }.
Implicit Types (c : chip).
Definition build_chip_eta c : chip := build_chip
  (workaround_applied c) (arc_needs_init_msg c) (trigger_reset c) (performing_reset c) (therm_trip_triggered c)
  (therm_trip_count c) (pgood_fall_triggered c) (pgood_rise_triggered c) (pgood_severe_fault c)
  (pgood_last_trip_ms c) (auto_reset_timeout c) (telemetry_heartbeat c) (arc_hang_pc c) (arc_wdog_triggered c)
  (fan_speed c) (fan_speed_forced c) (last_cm2dm_seq_num c) (last_cm2dm_seq_num_valid c) (cable_power_limit c)
  (perst_seen c) (dm_init_done c) (arc_start_time c) (cancelled c) (asic_reset c) (spi_reset c)
  (auto_reset_timer c).
Definition set_workaround_applied (v : bool) c : chip := ltac:(setter build_chip_eta c workaround_applied v).
Definition set_arc_needs_init_msg (v : bool) c : chip := ltac:(setter build_chip_eta c arc_needs_init_msg v).
Definition set_trigger_reset (v : bool) c : chip := ltac:(setter build_chip_eta c trigger_reset v).
Definition set_performing_reset (v : bool) c : chip := ltac:(setter build_chip_eta c performing_reset v).
Definition set_therm_trip_triggered (v : bool) c : chip := ltac:(setter build_chip_eta c therm_trip_triggered v).
Definition set_therm_trip_count (v : Z) c : chip := ltac:(setter build_chip_eta c therm_trip_count v).
Definition set_pgood_fall_triggered (v : bool) c : chip := ltac:(setter build_chip_eta c pgood_fall_triggered v).
Definition set_pgood_rise_triggered (v : bool) c : chip := ltac:(setter build_chip_eta c pgood_rise_triggered v).
Definition set_pgood_severe_fault (v : bool) c : chip := ltac:(setter build_chip_eta c pgood_severe_fault v).
Definition set_pgood_last_trip_ms (v : Z) c : chip := ltac:(setter build_chip_eta c pgood_last_trip_ms v).
Definition set_auto_reset_timeout (v : Z) c : chip := ltac:(setter build_chip_eta c auto_reset_timeout v).
Definition set_telemetry_heartbeat (v : Z) c : chip := ltac:(setter build_chip_eta c telemetry_heartbeat v).
Definition set_arc_hang_pc (v : Z) c : chip := ltac:(setter build_chip_eta c arc_hang_pc v).
Definition set_arc_wdog_triggered (v : bool) c : chip := ltac:(setter build_chip_eta c arc_wdog_triggered v).
Definition set_fan_speed (v : Z) c : chip := ltac:(setter build_chip_eta c fan_speed v).
Definition set_fan_speed_forced (v : bool) c : chip := ltac:(setter build_chip_eta c fan_speed_forced v).
Definition set_last_cm2dm_seq_num (v : Z) c : chip := ltac:(setter build_chip_eta c last_cm2dm_seq_num v).
Definition set_last_cm2dm_seq_num_valid (v : bool) c : chip := ltac:(setter build_chip_eta c last_cm2dm_seq_num_valid v).
Definition set_cable_power_limit (v : Z) c : chip := ltac:(setter build_chip_eta c cable_power_limit v).
Definition set_perst_seen (v : bool) c : chip := ltac:(setter build_chip_eta c perst_seen v).
Definition set_dm_init_done (v : Z) c : chip := ltac:(setter build_chip_eta c dm_init_done v).
Definition set_arc_start_time (v : Z) c : chip := ltac:(setter build_chip_eta c arc_start_time v).
Definition set_cancelled (v : bool) c : chip := ltac:(setter build_chip_eta c cancelled v).
Definition set_asic_reset (v : bool) c : chip := ltac:(setter build_chip_eta c asic_reset v).
Definition set_spi_reset (v : bool) c : chip := ltac:(setter build_chip_eta c spi_reset v).
Definition set_auto_reset_timer (v : option Z) c : chip := ltac:(setter build_chip_eta c auto_reset_timer v).

Inductive irq := ThermTrip (i : nat) | Expired (i : nat) | Perst (cycles : Z) | Pgood (i : nat) (level : bool) | Every20ms | EveryMs | Logs (l : list Z).
(** What [bh_chip_get_cm2dm_message] finds, and whether its limit on recoveries has expired. *)
Record poll := { polled : cm2dmMessageRet; recover_due : bool }.
Inductive action :=
  | I2cBus (i : nat) (on : bool) | AsicReset (i : nat) (on : bool) | SpiReset (i : nat) (on : bool) | Strap (i j : nat) (on : bool)
  | JtagSetup (i : nat) | JtagReadPc (i : nat) | JtagTeardown (i : nat) | MemRepair (i : nat) | Patch (i : nat) | CableLimit (i : nat) (limit : Z)
  | SoftReset (i : nat) | Recover (i : nat) | WordWrite (i : nat) (cmd : cmfw_smbus_cmd) (v : Z) | WordRead (i : nat) (cmd : cmfw_smbus_cmd)
  | BlockWrite (i : nat) (cmd : cmfw_smbus_cmd) (data : list Z) | Reboot | WaitPgood (i : nat) | WaitJtag (i : nat) | ConfigurePin (i : nat) | SmbusConfigure (i : nat).
(** [pwm]: of the fan, in cycles of 255; [sched]: the interrupts before each of the steps to come;
    [rcs], [inputs], [inbox]: what calls to drivers return, the values they read, the messages polled. *)
Record world := build_world {
  chips : list chip; events : Z; pwm : Z; fault_led : bool; blinking : bool; max_power : Z;
  perst_start_time : Z; logs : list Z; sched : list (list irq); rcs : list Z; inputs : list Z;
  inbox : nat -> list poll; trace : list action }.
Implicit Types (w : world) (i : nat).
Definition build_world_eta w : world := build_world
  (chips w) (events w) (pwm w) (fault_led w) (blinking w) (max_power w) (perst_start_time w) (logs w) (sched w)
  (rcs w) (inputs w) (inbox w) (trace w).
Definition set_chips (v : list chip) w : world := ltac:(setter build_world_eta w chips v).
Definition set_events (v : Z) w : world := ltac:(setter build_world_eta w events v).
Definition set_pwm (v : Z) w : world := ltac:(setter build_world_eta w pwm v).
Definition set_fault_led (v : bool) w : world := ltac:(setter build_world_eta w fault_led v).
Definition set_blinking (v : bool) w : world := ltac:(setter build_world_eta w blinking v).
Definition set_max_power (v : Z) w : world := ltac:(setter build_world_eta w max_power v).
Definition set_perst_start_time (v : Z) w : world := ltac:(setter build_world_eta w perst_start_time v).
Definition set_logs (v : list Z) w : world := ltac:(setter build_world_eta w logs v).
Definition set_sched (v : list (list irq)) w : world := ltac:(setter build_world_eta w sched v).
Definition set_rcs (v : list Z) w : world := ltac:(setter build_world_eta w rcs v).
Definition set_inputs (v : list Z) w : world := ltac:(setter build_world_eta w inputs v).
Definition set_inbox (v : nat -> list poll) w : world := ltac:(setter build_world_eta w inbox v).
Definition set_trace (v : list action) w : world := ltac:(setter build_world_eta w trace v).
Definition chip0 : chip := build_chip false false false false false 0 false false false 0 0 0 0 false 0 false 0 false 0 false 0 0 false false false None.
Definition chip_of w i : chip := nth i (chips w) chip0.
Definition upd i (f : chip -> chip) w : world := set_chips (alter f i (chips w)) w.

(** * Events and interrupts *)
Definition TT_EVENT_THERM_TRIP : Z := BIT 0.
Definition TT_EVENT_WATCHDOG_EXPIRED : Z := BIT 1.
Definition TT_EVENT_PERST : Z := BIT 2.
Definition TT_EVENT_PGOOD : Z := BIT 3.
Definition TT_EVENT_BOARD_POWER_TO_SMC : Z := BIT 4.
Definition TT_EVENT_FAN_RPM_TO_SMC : Z := BIT 5.
Definition TT_EVENT_CM2DM_POLL : Z := BIT 6.
Definition TT_EVENT_LOGS_TO_SMC : Z := BIT 7.
Definition TT_EVENT_WAKE : Z := BIT 31.
Definition tt_event_post (e : Z) w : world := set_events (Z.lor (events w) e) w.
Definition therm_trip_detected i w : world :=
  tt_event_post TT_EVENT_THERM_TRIP (upd i (λ c, set_cancelled true (set_therm_trip_triggered true c)) w).
Definition bh_chip_auto_reset i w : world :=
  tt_event_post TT_EVENT_WATCHDOG_EXPIRED (upd i (λ c, set_cancelled true (set_arc_wdog_triggered true c)) w).
Definition gpio_asic_reset_callback (cycles : Z) w : world :=
  let one c :=
    let c := set_trigger_reset true (set_perst_seen true c) in if negb (performing_reset c) then set_cancelled true c else c in
  tt_event_post TT_EVENT_PERST (set_chips (map one (chips w)) (set_perst_start_time cycles w)).
Definition pgood_change_detected i (level : bool) w : world :=
  tt_event_post TT_EVENT_PGOOD (upd i (if level then set_pgood_rise_triggered true else set_pgood_fall_triggered true) w).
Definition shared_20ms_expired w : world :=
  tt_event_post (Z.lor (Z.lor TT_EVENT_FAN_RPM_TO_SMC TT_EVENT_CM2DM_POLL) TT_EVENT_LOGS_TO_SMC) w.
Definition board_power_update_expired w : world := tt_event_post TT_EVENT_BOARD_POWER_TO_SMC w.
Definition isr w (k : irq) : world :=
  match k with
  | ThermTrip i => therm_trip_detected i w
  | Expired i => bh_chip_auto_reset i w
  | Perst t => gpio_asic_reset_callback t w
  | Pgood i l => pgood_change_detected i l w
  | Every20ms => shared_20ms_expired w
  | EveryMs => board_power_update_expired w
  | Logs l => set_logs (logs w ++ l) w
  end.
Definition deliver w : world :=
  match sched w with [] => w | b :: bs => foldl isr (set_sched bs w) b end.

(** * The controller's thread
    Between any two steps interrupts may be served. *)
Definition M (A : Type) : Type := world -> A * world.
#[global] Instance M_ret : MRet M := λ A x w, (x, w).
#[global] Instance M_bind : MBind M := λ A B k m w, let '(x, w) := m w in k x w.
Definition atom {A} (f : world -> A * world) : M A := λ w, f (deliver w).
Definition modify (f : world -> world) : M unit := atom (λ w, (tt, f w)).
Definition look {A} i (p : chip -> A) : M A := atom (λ w, (p (chip_of w i), w)).
Definition put i (f : chip -> chip) : M unit := modify (upd i f).
Definition act (a : action) : M unit := modify (λ w, set_trace (trace w ++ [a]) w).
(** A call to a driver, and a value read. *)
Definition call (a : action) : M Z := atom (λ w,
  let w := set_trace (trace w ++ [a]) w in
  match rcs w with [] => (0, w) | r :: l => (r, set_rcs l w) end).
Definition input : M Z := atom (λ w, match inputs w with [] => (0, w) | x :: l => (x, set_inputs l w) end).
Fixpoint for_list (l : list nat) (f : nat -> M unit) : M unit :=
  match l with [] => mret tt | i :: l => f i;; for_list l f end.
(** [ARRAY_FOR_EACH_BH_CHIP]. *)
Definition for_each_chip (f : nat -> M unit) : M unit := λ w, for_list (seq 0 (length (chips w))) f w.
Definition when (b : bool) (m : M unit) : M unit := if b then m else mret tt.

(** ** The chip's bus and pins *)
Definition bh_chip_cancel_bus_transfer_set i : M unit := put i (set_cancelled true).
Definition bh_chip_cancel_bus_transfer_clear i : M unit := put i (set_cancelled false).
Definition bharc_enable_i2cbus i : M Z := call (I2cBus i true).
Definition bharc_disable_i2cbus i : M Z := call (I2cBus i false).
Definition bharc_smbus_word_data_write i (cmd : cmfw_smbus_cmd) (v : Z) : M Z := call (WordWrite i cmd v).
Definition bharc_smbus_word_data_read i (cmd : cmfw_smbus_cmd) : M Z := call (WordRead i cmd).
Definition bharc_smbus_block_write i (cmd : cmfw_smbus_cmd) (data : list Z) : M Z := call (BlockWrite i cmd data).
Definition bh_chip_assert_asic_reset i : M unit := act (AsicReset i true);; put i (set_asic_reset true).
Definition bh_chip_deassert_asic_reset i : M unit := act (AsicReset i false);; put i (set_asic_reset false).
Definition bh_chip_assert_spi_reset i : M unit := act (SpiReset i true);; put i (set_spi_reset true).
Definition bh_chip_deassert_spi_reset i : M unit := act (SpiReset i false);; put i (set_spi_reset false).
(** [straps]: those of the four that the board has. *)
Section board.
Context (straps : list nat) (has_fan assembly_test : bool).
Definition set_strap i (j : nat) : M unit :=
  ret ← call (Strap i j true);
  when (ret <? 0) (act (Recover i);; call (Strap i j true);; mret tt).
Definition bh_chip_set_straps i : M unit :=
  bharc_enable_i2cbus i;; for_list straps (set_strap i);; bharc_disable_i2cbus i;; mret tt.
Definition bh_chip_unset_straps i : M unit :=
  bharc_enable_i2cbus i;; for_list straps (λ j, call (Strap i j false);; mret tt);; bharc_disable_i2cbus i;; mret tt.

(** ** Resets *)
(** Power is good by the time the first loop is left, the chip answers over JTAG by the time the others are. *)
Definition jtag_bootrom_reset_asic i : M Z :=
  act (WaitPgood i);;
  bh_chip_assert_asic_reset i;;
  bh_chip_assert_spi_reset i;;
  ret ← call (JtagSetup i);
  if negb (ret =? 0) then mret ret
  else
    bh_chip_set_straps i;;
    bh_chip_deassert_asic_reset i;;
    bh_chip_deassert_spi_reset i;;
    act (WaitJtag i);;
    act (MemRepair i);;
    bh_chip_unset_straps i;;
    mret 0.
(** The boot code's own accesses are those of Jtag.v. *)
Definition soft_reset_arc i : M unit :=
  seen ← look i perst_seen;
  when seen (t ← input; put i (λ c, set_perst_seen false (set_dm_init_done t c)));;
  t ← input;
  put i (set_arc_start_time t);;
  act (SoftReset i).
Definition jtag_bootrom_teardown i : M unit := act (JtagTeardown i).
Definition jtag_bootrom_reset_sequence i (force_reset : bool) (limit : Z) : M Z :=
  when force_reset (put i (set_trigger_reset true));;
  bh_chip_cancel_bus_transfer_clear i;;
  ret ← jtag_bootrom_reset_asic i;
  if negb (ret =? 0) then mret ret
  else
    act (Patch i);;
    put i (set_workaround_applied true);;
    act (CableLimit i limit);;
    triggered ← look i trigger_reset;
    when triggered (soft_reset_arc i;; put i (set_trigger_reset false));;
    jtag_bootrom_teardown i;;
    mret 0.
Definition bh_chip_reset_chip i (force_reset : bool) : M Z :=
  put i (set_last_cm2dm_seq_num_valid false);;
  ret ← bharc_disable_i2cbus i;
  if negb (ret =? 0) then bharc_enable_i2cbus i;; mret ret
  else
    limit ← look i cable_power_limit;
    ret2 ← jtag_bootrom_reset_sequence i force_reset limit;
    ret ← bharc_enable_i2cbus i;
    mret (if negb (ret =? 0) then ret else ret2).

(** ** The fan *)
Definition DIV_ROUND_UP (n d : Z) : Z := (n + d - 1) / d.
Definition requested (cs : list chip) : Z := foldr (λ c m, Z.max m (fan_speed c)) 0 cs.
Definition forced (cs : list chip) : Z := foldr (λ c m, Z.max m (if fan_speed_forced c then fan_speed c else 0)) 0 cs.
Definition board_fan_speed (cs : list chip) : Z := if negb (forced cs =? 0) then forced cs else requested cs.
(** A pulse longer than the period is refused. That is the only failure of the PWM driver there is here; the
    callers ignore its answer. *)
Definition pwm_set_cycles (pulse : Z) : M unit := modify (λ w, if UINT8_MAX <? pulse then w else set_pwm pulse w).
Definition INITIAL_FAN_SPEED : Z := 35.
Definition update_fan_speed (notify_smcs : bool) : M unit :=
  when has_fan (
    speed ← atom (λ w, (board_fan_speed (chips w), w));
    pwm_set_cycles (DIV_ROUND_UP (speed * UINT8_MAX) 100);;
    when notify_smcs (for_each_chip (λ i, bharc_smbus_word_data_write i CMFW_SMBUS_FAN_SPEED speed;; mret tt))).

(** ** Messages of the chips
    A processor returns whether to stop polling. Nothing follows a reboot where that is configured. *)
Definition process_reset_req i (msg_data : Z) : M bool :=
  (if msg_data =? kCm2DmResetLevelAsic then
     bh_chip_cancel_bus_transfer_clear i;; bh_chip_reset_chip i true;; mret tt
   else if msg_data =? kCm2DmResetLevelDmc then act Reboot
   else mret tt);;
  mret true.
Fixpoint ping_loop (n : nat) i (msg_data : Z) : M unit :=
  match n with
  | O => mret tt
  | S n =>
      ret ← (if msg_data =? 0 then bharc_smbus_word_data_read i CMFW_SMBUS_PING_V2
             else bharc_smbus_word_data_write i CMFW_SMBUS_PING 0xA5A5);
      when (negb (ret =? 0)) (ping_loop n i msg_data)
  end.
Definition process_ping i (msg_data : Z) : M bool := ping_loop 10 i msg_data;; mret false.
Definition process_fan_speed_update i (msg_data : Z) : M bool :=
  put i (λ c, set_fan_speed_forced false (set_fan_speed (FIELD_GET (GENMASK 7 0) msg_data) c));;
  update_fan_speed true;;
  mret false.
Definition process_forced_fan_speed_update i (msg_data : Z) : M bool :=
  put i (λ c, set_fan_speed_forced true (set_fan_speed (FIELD_GET (GENMASK 7 0) msg_data) c));;
  update_fan_speed true;;
  mret false.
Definition process_id_ready i : M bool := put i (set_arc_needs_init_msg true);; mret false.
Definition process_auto_reset_timeout_update i (msg_data : Z) : M bool :=
  put i (set_auto_reset_timeout msg_data);;
  put i (set_auto_reset_timer (if negb (msg_data =? 0) then Some msg_data else None));;
  mret false.
Definition process_heartbeat_update i (msg_data : Z) : M bool :=
  beat ← look i telemetry_heartbeat;
  when (negb (beat =? msg_data)) (
    put i (set_telemetry_heartbeat msg_data);;
    timeout ← look i auto_reset_timeout;
    when (negb (timeout =? 0)) (put i (set_auto_reset_timer (Some timeout))));;
  mret false.
Definition process_led_blink_request (msg_data : Z) : M bool :=
  (if assembly_test then mret tt
   else if negb (msg_data =? 0) then modify (set_blinking true)
   else modify (set_blinking false);; modify (set_fault_led false));;
  mret false.
(** Only logs. *)
Definition process_gddr_therm_trip : M bool := mret false.
Definition msg_processors (id : Z) i (msg_data : Z) : option (M bool) :=
  if id =? id_num kCm2DmMsgIdResetReq then Some (process_reset_req i msg_data) else
  if id =? id_num kCm2DmMsgIdPing then Some (process_ping i msg_data) else
  if id =? id_num kCm2DmMsgIdFanSpeedUpdate then Some (process_fan_speed_update i msg_data) else
  if id =? id_num kCm2DmMsgIdForcedFanSpeedUpdate then Some (process_forced_fan_speed_update i msg_data) else
  if id =? id_num kCm2DmMsgIdReady then Some (process_id_ready i) else
  if id =? id_num kCm2DmMsgIdAutoResetTimeoutUpdate then Some (process_auto_reset_timeout_update i msg_data) else
  if id =? id_num kCm2DmMsgTelemHeartbeatUpdate then Some (process_heartbeat_update i msg_data) else
  if id =? id_num kCm2DmMsgIdLedBlink then Some (process_led_blink_request msg_data) else
  if id =? id_num kCm2DmMsgIdGddrThermTrip then Some (process_gddr_therm_trip) else
  None.
(** Its exchange with the chip is that of Cm2Dm.v; here is what follows an error. *)
Definition nothing_polled : poll :=
  {| polled := {| rmsg := zero_message; ret := 0; ack_ret := -1 |}; recover_due := false |}.
Definition get_cm2dm_message i : M cm2dmMessageRet :=
  p ← atom (λ w, match inbox w i with
                 | [] => (nothing_polled, w)
                 | p :: l => (p, set_inbox (λ j, if decide (j = i) then l else inbox w j) w)
                 end);
  when ((ret (polled p) =? - EIO) && recover_due p) (act (Recover i);; put i (set_cancelled false));;
  mret (polled p).
Fixpoint poll_loop (n : nat) i : M unit :=
  match n with
  | O => mret tt
  | S n =>
      m ← get_cm2dm_message i;
      if negb (ret m =? 0) then mret tt
      else if msg_id (rmsg m) =? 0 then mret tt
      else
        valid ← look i last_cm2dm_seq_num_valid;
        last ← look i last_cm2dm_seq_num;
        if valid && (last =? seq_num (rmsg m)) then poll_loop n i
        else
          put i (set_last_cm2dm_seq_num_valid true);;
          put i (set_last_cm2dm_seq_num (seq_num (rmsg m)));;
          match msg_processors (msg_id (rmsg m)) i (mdata (rmsg m)) with
          | Some p => stop ← p; if (stop : bool) then mret tt else poll_loop n i
          | None => poll_loop n i
          end
  end.
Definition handle_cm2dm_messages : M unit := for_each_chip (poll_loop (Z.to_nat kCm2DmMsgCount)).

(** ** Faults *)
Definition fan_to_full i : M unit :=
  put i (λ c, set_fan_speed_forced true (set_fan_speed 100 c));;
  when has_fan (pwm_set_cycles UINT8_MAX).
Definition handle_therm_trip : M unit := for_each_chip (λ i,
  tripped ← look i therm_trip_triggered;
  when tripped (
    put i (set_therm_trip_triggered false);;
    modify (set_fault_led true);;
    fan_to_full i;;
    triggered ← look i trigger_reset;
    when (negb triggered) (
      put i (set_performing_reset true);;
      bh_chip_cancel_bus_transfer_clear i;;
      put i (λ c, set_therm_trip_count (u16 (therm_trip_count c + 1)) c);;
      bh_chip_reset_chip i true;;
      triggered ← look i trigger_reset;
      when triggered (bh_chip_cancel_bus_transfer_set i);;
      put i (set_performing_reset false)))).
Definition handle_watchdog_reset : M unit := for_each_chip (λ i,
  expired ← look i arc_wdog_triggered;
  when expired (
    put i (set_arc_wdog_triggered false);;
    bh_chip_cancel_bus_transfer_clear i;;
    ret ← call (JtagSetup i);
    when (ret =? 0) (
      act (JtagReadPc i);;
      pc ← input;
      put i (set_arc_hang_pc pc);;
      act (JtagTeardown i));;
    put i (set_auto_reset_timeout 0);;
    fan_to_full i;;
    put i (set_performing_reset true);;
    bh_chip_reset_chip i true;;
    bh_chip_cancel_bus_transfer_clear i;;
    put i (set_performing_reset false))).
Definition handle_perst : M unit := for_each_chip (λ i,
  triggered ← atom (λ w, (trigger_reset (chip_of w i), upd i (set_trigger_reset false) w));
  when triggered (
    put i (set_performing_reset true);;
    put i (set_last_cm2dm_seq_num_valid false);;
    bh_chip_cancel_bus_transfer_clear i;;
    bharc_disable_i2cbus i;;
    ret ← jtag_bootrom_reset_asic i;
    when (ret =? 0) (
      limit ← look i cable_power_limit;
      act (CableLimit i limit);;
      soft_reset_arc i;;
      jtag_bootrom_teardown i);;
    bharc_enable_i2cbus i;;
    triggered ← look i trigger_reset;
    when triggered (bh_chip_cancel_bus_transfer_set i);;
    put i (set_therm_trip_count 0);;
    put i (set_arc_hang_pc 0);;
    put i (set_performing_reset false))).
Definition handle_pgood_event i : M unit :=
  fell ← look i pgood_fall_triggered;
  severe ← look i pgood_severe_fault;
  when (fell && negb severe) (
    now ← input;
    modify (set_fault_led true);;
    bh_chip_assert_asic_reset i;;
    last ← look i pgood_last_trip_ms;
    when (negb (last =? 0) && (now - last <? 1000)) (put i (set_pgood_severe_fault true));;
    put i (set_pgood_last_trip_ms now);;
    put i (set_pgood_fall_triggered false));;
  rose ← look i pgood_rise_triggered;
  severe ← look i pgood_severe_fault;
  when (rose && negb severe) (
    bh_chip_reset_chip i true;;
    when (negb assembly_test) (modify (set_fault_led false));;
    put i (set_pgood_rise_triggered false)).
Definition handle_pgood_change : M unit := for_each_chip handle_pgood_event.

(** ** What the chips are told *)
(** Version numbers are the build's. *)
Context (bl_version app_version : Z).
Definition static_info c (perst : Z) : list Z :=
  le_bytes 4 1 ++ le_bytes 4 bl_version ++ le_bytes 4 app_version ++ le_bytes 4 (arc_start_time c) ++
  le_bytes 4 (u32 (dm_init_done c - perst)) ++ le_bytes 4 (arc_hang_pc c).
Definition bh_chip_set_static_info i : M Z :=
  info ← atom (λ w, (static_info (chip_of w i) (perst_start_time w), w));
  bharc_smbus_block_write i CMFW_SMBUS_DM_STATIC_INFO info.
Definition bh_chip_set_input_power i (power : Z) : M Z := bharc_smbus_word_data_write i CMFW_SMBUS_POWER_INSTANT power.
Definition bh_chip_set_input_power_lim i (limit : Z) : M Z := bharc_smbus_word_data_write i CMFW_SMBUS_POWER_LIMIT limit.
Definition bh_chip_set_fan_rpm i (rpm : Z) : M Z := bharc_smbus_word_data_write i CMFW_SMBUS_FAN_RPM rpm.
Definition bh_chip_set_therm_trip_count i (count : Z) : M Z := bharc_smbus_word_data_write i CMFW_SMBUS_THERM_TRIP_COUNT count.
Definition send_init_data : M unit := for_each_chip (λ i,
  needs ← look i arc_needs_init_msg;
  when needs (
    r1 ← bh_chip_set_static_info i;
    when (r1 =? 0) (
      limit ← atom (λ w, (max_power w, w));
      r2 ← bh_chip_set_input_power_lim i limit;
      when (r2 =? 0) (
        count ← look i therm_trip_count;
        r3 ← bh_chip_set_therm_trip_count i count;
        when (r3 =? 0) (put i (set_arc_needs_init_msg false)))))).
(** [rc]: of the sensor's fetch and get. *)
Definition board_power_update : M unit :=
  rc ← input;
  when (rc =? 0) (v ← input; for_each_chip (λ i, bh_chip_set_input_power i (u16 v);; mret tt)).
Definition fan_rpm_feedback : M unit :=
  when has_fan (v ← input; for_each_chip (λ i, bh_chip_set_fan_rpm i (u16 v);; mret tt)).
Definition ENOBUFS : Z := 105.
Definition bh_chip_write_logs i (data : list Z) : M Z :=
  if 32 <? Z.of_nat (length data) then mret (- ENOBUFS) else bharc_smbus_block_write i CMFW_SMBUS_DMC_LOG data.
(** [primary]: the chip the logs go to. The ring buffer lends at most what lies before its end. *)
Context (primary : nat).
Definition send_logs_to_smc : M unit :=
  n ← input;
  data ← atom (λ w, (take (Z.to_nat (Z.min 32 n)) (logs w), w));
  when (0 <? Z.of_nat (length data)) (
    rc ← bh_chip_write_logs primary data;
    when (rc =? 0) (modify (λ w, set_logs (drop (length data) (logs w)) w))).

(** ** Start-up and the loop *)
(** [sensed]: whether the board has the pins that sense the supply. *)
Definition detect_max_power (sensed glx2 : bool) : M Z :=
  if negb sensed then mret (if glx2 then 450 else 600)
  else
    s0 ← input;
    s1 ← input;
    if (s0 =? 0) && (s1 =? 0) then mret 600
    else if negb (s0 =? 0) && (s1 =? 0) then mret 450
    else if (s0 =? 0) && negb (s1 =? 0) then mret 300
    else s1' ← input; mret (if s1' =? 0 then 150 else 0).
(** The callback is installed between the other two. *)
Definition therm_trip_gpio_setup i : M Z :=
  r1 ← call (ConfigurePin i);
  if negb (r1 =? 0) then mret r1 else r2 ← call (ConfigurePin i); if negb (r2 =? 0) then mret r2 else call (ConfigurePin i).
Definition pgood_gpio_setup i : M Z :=
  r1 ← call (ConfigurePin i);
  if negb (r1 =? 0) then mret r1 else r2 ← call (ConfigurePin i); if negb (r2 =? 0) then mret r2 else call (ConfigurePin i).
(** For each chip, until one of them fails. *)
Fixpoint until_error (l : list nat) (f : nat -> M Z) : M Z :=
  match l with [] => mret 0 | i :: l => r ← f i; if negb (r =? 0) then mret r else until_error l f end.
Definition setup_gpios i : M Z :=
  r ← therm_trip_gpio_setup i; if negb (r =? 0) then mret r else pgood_gpio_setup i.
(** [jtag_bootrom_init] past its pins: PERST may have come before the controller did. *)
Definition jtag_bootrom_init i : M Z :=
  r ← call (ConfigurePin i);
  if negb (r =? 0) then mret r
  else
    active ← input;
    when (active =? 0) (put i (set_trigger_reset true));;
    mret 0.
Definition first_reset i : M Z :=
  r ← jtag_bootrom_init i;
  if negb (r =? 0) then mret r
  else
    bharc_disable_i2cbus i;;
    limit ← atom (λ w, (max_power w, w));
    put i (set_cable_power_limit limit);;
    r ← jtag_bootrom_reset_sequence i false limit;
    bharc_enable_i2cbus i;;
    mret r.
(** [main] up to its loop, after the self test and the confirmation of the image. *)
Definition start (n : nat) (sensed glx2 : bool) : M Z :=
  for_each_chip (λ i, put i (set_fan_speed INITIAL_FAN_SPEED));;
  update_fan_speed false;;
  modify (set_fault_led false);;
  r ← until_error (seq 0 n) setup_gpios;
  if negb (r =? 0) then mret r
  else
    limit ← detect_max_power sensed glx2;
    modify (set_max_power limit);;
    r ← until_error (seq 0 n) first_reset;
    if negb (r =? 0) then mret r
    else
      for_each_chip (λ i, call (SmbusConfigure i);; bh_chip_cancel_bus_transfer_clear i);;
      when assembly_test (modify (set_fault_led true));;
      mret 0.
Definition urgent : M unit := handle_therm_trip;; handle_watchdog_reset;; handle_perst.
Definition on_event (events_ e : Z) (m : M unit) : M unit := when (negb (Z.land events_ (Z.lor e TT_EVENT_WAKE) =? 0)) m.
Definition routine (events_ : Z) : M unit :=
  handle_pgood_change;;
  send_init_data;;
  on_event events_ TT_EVENT_BOARD_POWER_TO_SMC board_power_update;;
  on_event events_ TT_EVENT_FAN_RPM_TO_SMC fan_rpm_feedback;;
  on_event events_ TT_EVENT_CM2DM_POLL handle_cm2dm_messages;;
  on_event events_ TT_EVENT_LOGS_TO_SMC send_logs_to_smc.
Definition tt_event_wait : M Z := atom (λ w, (events w, set_events 0 w)).
End board.

(** * Passes of the loop *)
(** What happens during a pass: interrupts while the urgent handlers run and after, and what drivers
    answer. *)
Record env := { e_urgent : list (list irq); e_routine : list (list irq); e_rcs : list Z; e_inputs : list Z; e_inbox : nat -> list poll }.
Section passes.
Context (straps : list nat) (has_fan assembly_test : bool) (bl_version app_version : Z) (primary : nat).
Definition pass (e : env) w : world :=
  let w := set_inbox (e_inbox e) (set_inputs (e_inputs e) (set_rcs (e_rcs e) (set_sched (e_urgent e) w))) in
  let '(ev, w) := tt_event_wait w in
  let '(_, w) := urgent straps has_fan w in
  let '(_, w) := routine straps has_fan assembly_test bl_version app_version primary ev (set_sched (e_routine e) w) in
  set_sched [] w.
Definition passes (es : list env) w : world := foldl (λ w e, pass e w) w es.
End passes.

(** * Concrete runs *)
(** A board with two chips: the first resets, then the loop. *)
Definition power_on : world := build_world [chip0; chip0] 0 0 false false 0 0 [] [] [] [] (λ _, []) [].
Definition booted : world := (start [] true false 2 false false power_on).2.
Lemma start_works : (start [] true false 2 false false power_on).1 = 0 /\ max_power booted = 600 /\ pwm booted = 90 /\
  map (λ c, (cancelled c, asic_reset c, fan_speed c, cable_power_limit c)) (chips booted) = [(false, false, 35, 600); (false, false, 35, 600)].
Proof. vm_compute. done. Qed.
Definition fan_request (seq id speed : Z) : poll :=
  {| polled := {| rmsg := {| msg_id := id; seq_num := seq; mdata := speed |}; ret := 0; ack_ret := 0 |}; recover_due := false |}.
Definition calm_env : env := {| e_urgent := []; e_routine := []; e_rcs := []; e_inputs := []; e_inbox := λ _, [] |}.
(** What waits to be served, and whether transfers are cancelled. *)
Definition pending_of w : list (bool * bool * bool * bool) :=
  map (λ c, (therm_trip_triggered c, arc_wdog_triggered c, trigger_reset c, cancelled c)) (chips w).
(** * Where the code departs from what it says *)
(** Power-good falls twice within a second: the chip is to be held in reset. PERST releases it. *)
Definition falls (t : Z) : env := {| e_urgent := []; e_routine := [[Pgood 0 false]]; e_rcs := []; e_inputs := [t]; e_inbox := λ _, [] |}.
Definition perst_env : env := {| e_urgent := [[Perst 9]]; e_routine := []; e_rcs := []; e_inputs := []; e_inbox := λ _, [] |}.
Definition fault_of w : list (bool * bool) := map (λ c, (pgood_severe_fault c, asic_reset c)) (chips w).
Lemma severe_fault_released :
  let v := passes [] true false 1 2 0 [falls 5000; falls 5500] booted in
  fault_of v = [(true, true); (false, false)] /\ fault_of (pass [] true false 1 2 0 perst_env v) = [(true, false); (false, false)].
Proof. vm_compute. done. Qed.
(** PERST during a reset that a message asked for: [performing_reset] is not set, so transfers are
    cancelled, and the end of the reset clears [trigger_reset]: nothing is left that would allow them again
    but the recovery of a failing poll. *)
Definition perst_in_reset : env :=
  {| e_urgent := [[Every20ms]]; e_routine := replicate 40 [] ++ [[Perst 9]]; e_rcs := []; e_inputs := [];
     e_inbox := λ i, match i with O => [fan_request 1 (id_num kCm2DmMsgIdResetReq) kCm2DmResetLevelAsic] | _ => [] end |}.
Lemma perst_cancels_for_good :
  let v := pass [] true false 1 2 0 perst_in_reset booted in
  pending_of v = [(false, false, false, true); (false, false, true, true)] /\
  pending_of (pass [] true false 1 2 0 calm_env v) = [(false, false, false, true); (false, false, false, false)].
Proof. vm_compute. done. Qed.
