(* ===== verification/DmcFaults.v ===== *)
(** The faults of the chips and how the board controller (Dmc.v) serves them, whatever interrupts fall
    into its loop: a logic of steps on behalf of one chip, the handlers in it, and passes of the loop. *)
From stdpp Require Import prelude list numbers.
From S2P Require Import Prelude Cm2Dm Dmc.
Open Scope Z_scope.

(** * Reasoning about one chip *)
(** A predicate on a chip, the events posted and the trace. *)
Definition cp : Type := chip -> Z -> list action -> Prop.
(** What an interrupt does to chip [i] and to the events. *)
Definition isr_chip (k : irq) i c : chip :=
  match k with
  | ThermTrip j => if decide (j = i) then set_cancelled true (set_therm_trip_triggered true c) else c
  | Expired j => if decide (j = i) then set_cancelled true (set_arc_wdog_triggered true c) else c
  | Perst _ => let c := set_trigger_reset true (set_perst_seen true c) in if negb (performing_reset c) then set_cancelled true c else c
  | Pgood j l => if decide (j = i) then (if l then set_pgood_rise_triggered true c else set_pgood_fall_triggered true c) else c
  | _ => c
  end.
Definition isr_events (k : irq) : Z :=
  match k with
  | ThermTrip _ => TT_EVENT_THERM_TRIP | Expired _ => TT_EVENT_WATCHDOG_EXPIRED | Perst _ => TT_EVENT_PERST | Pgood _ _ => TT_EVENT_PGOOD
  | Every20ms => Z.lor (Z.lor TT_EVENT_FAN_RPM_TO_SMC TT_EVENT_CM2DM_POLL) TT_EVENT_LOGS_TO_SMC
  | EveryMs => TT_EVENT_BOARD_POWER_TO_SMC | Logs _ => 0
  end.
Lemma alter_lookup {A} (f : A -> A) j i (l : list A) : alter f j l !! i = (λ x, if decide (j = i) then f x else x) <$> l !! i.
Proof.
  destruct (decide (j = i)) as [->|Hn]; [apply list_lookup_alter_eq|]. rewrite list_lookup_alter_ne by done. by destruct (l !! i).
Qed.
Lemma isr_lookup w k i : chips (isr w k) !! i = isr_chip k i <$> chips w !! i.
Proof.
  destruct k as [j|j|t|j l| | |l]; cbn [isr]; try (cbn; by destruct (chips w !! i)).
  - unfold therm_trip_detected, upd. cbn. by rewrite alter_lookup.
  - unfold bh_chip_auto_reset, upd. cbn. by rewrite alter_lookup.
  - unfold gpio_asic_reset_callback. cbn. by rewrite list_lookup_fmap.
  - unfold pgood_change_detected, upd. destruct l; cbn; by rewrite alter_lookup.
Qed.
Lemma isr_rest w k : events (isr w k) = Z.lor (events w) (isr_events k) /\ trace (isr w k) = trace w /\ length (chips (isr w k)) = length (chips w) /\
  sched (isr w k) = sched w /\ rcs (isr w k) = rcs w.
Proof.
  destruct k; cbn; rewrite ?length_alter, ?length_fmap, ?Z.lor_0_r; try done.
Qed.

Section chips.
(** The interrupts there may be; whether calls to drivers always succeed. *)
Context (okirq : irq -> Prop) (works : Prop).
Definition stable i (P : cp) : Prop :=
  (forall k c ev tr, okirq k -> P c ev tr -> P (isr_chip k i c) (Z.lor ev (isr_events k)) tr) /\
  (forall a c ev tr, P c ev tr -> P c ev (tr ++ [a])).
Definition env_ok w : Prop := Forall (Forall okirq) (sched w) /\ (works -> Forall (λ r, r = 0) (rcs w)).
Definition holds (R : nat -> cp) w : Prop := env_ok w /\ forall j c, chips w !! j = Some c -> R j c (events w) (trace w).
Definition at_ i (P : cp) (R : nat -> cp) : nat -> cp := λ j, if decide (j = i) then P else R j.
(** A computation on behalf of chip [i]: whatever is stable of the others is kept. *)
Definition ct {A} i (P : cp) (m : M A) (Q : A -> cp) : Prop :=
  forall (R : nat -> cp) w, (forall j, stable j (R j)) -> (i < length (chips w))%nat -> holds (at_ i P R) w ->
    holds (at_ i (Q (m w).1) R) (m w).2 /\ length (chips (m w).2) = length (chips w).
Lemma at_stable i P R : stable i P -> (forall j, stable j (R j)) -> forall j, stable j (at_ i P R j).
Proof. intros Hp Hr j. unfold at_. destruct (decide (j = i)) as [->|]; done. Qed.
Lemma isr_holds R w k : (forall j, stable j (R j)) -> okirq k -> holds R w -> holds R (isr w k).
Proof.
  intros Hs Hk [[He1 He2] Hr]. destruct (isr_rest w k) as (Ee & Et & _ & Es & Erc). split; [split; [by rewrite Es | by rewrite Erc]|].
  intros j c. rewrite isr_lookup, Ee, Et. destruct (chips w !! j) as [c0|] eqn:E; [|done]. intros [= <-]. apply (Hs j); [done|]. by apply Hr.
Qed.
Lemma deliver_holds R w : (forall j, stable j (R j)) -> holds R w -> holds R (deliver w) /\ length (chips (deliver w)) = length (chips w).
Proof.
  intros Hs Hh. unfold deliver. destruct (sched w) as [|b bs] eqn:E; [done|].
  assert (Hb : Forall okirq b /\ holds R (set_sched bs w)).
  { destruct Hh as [[He1 He2] Hr]. rewrite E in He1. apply list.Forall_cons in He1 as [Hb Hbs]. by repeat split. }
  change (length (chips w)) with (length (chips (set_sched bs w))).
  destruct Hb as [Hb Hw]. clear E Hh. revert Hw. generalize (set_sched bs w). induction b as [|k b IH]; intros w0 Hw0; [done|].
  apply list.Forall_cons in Hb as [Hk Hb]. cbn [foldl]. destruct (IH Hb (isr w0 k)) as [H1 H2]; [by apply isr_holds|]. split; [done|].
  rewrite H2. apply isr_rest.
Qed.
Lemma ct_ret {A} i (x : A) (P : A -> cp) : ct i (P x) (mret x) P.
Proof. intros R w _ _ Hh. done. Qed.
Lemma ct_bind {A B} i P (m : M A) Q (k : A -> M B) S : ct i P m Q -> (forall x, ct i (Q x) (k x) S) -> ct i P (m ≫= k) S.
Proof.
  intros Hm Hk R w Hs Hi Hh. destruct (Hm R w Hs Hi Hh) as [H1 L1]. unfold mbind, M_bind. destruct (m w) as [x w1]. cbn [fst snd] in *.
  destruct (Hk x R w1 Hs ltac:(lia) H1) as [H2 L2]. split; [done|]. by rewrite L2.
Qed.
Lemma ct_weaken {A} i (P P' : cp) (m : M A) (Q Q' : A -> cp) : (forall c ev tr, P c ev tr -> P' c ev tr) -> (forall x c ev tr, Q' x c ev tr -> Q x c ev tr) ->
  ct i P' m Q' -> ct i P m Q.
Proof.
  intros Hp Hq Hm R w Hs Hi Hh. assert (Hi' : forall (X Y : cp) v, (forall c ev tr, X c ev tr -> Y c ev tr) -> holds (at_ i X R) v -> holds (at_ i Y R) v).
  { intros X Y v Hxy [He Hr]. split; [done|]. intros j c Hj. specialize (Hr j c Hj). unfold at_ in *. destruct (decide (j = i)); auto. }
  destruct (Hm R w Hs Hi (Hi' _ _ _ Hp Hh)) as [H1 L1]. split; [|done]. by apply (Hi' _ _ _ (Hq (m w).1)).
Qed.
(** A step: interrupts first, then it acts on the world. *)
Lemma ct_atom {A} i P (f : world -> A * world) Q : stable i P ->
  (forall R w, (forall j, stable j (R j)) -> (i < length (chips w))%nat -> holds (at_ i P R) w ->
    holds (at_ i (Q (f w).1) R) (f w).2 /\ length (chips (f w).2) = length (chips w)) -> ct i P (atom f) Q.
Proof.
  intros Hp Hf R w Hs Hi Hh. destruct (deliver_holds _ w (at_stable i P R Hp Hs) Hh) as [H1 L1]. unfold atom. rewrite <- L1. apply Hf; [done|lia|done].
Qed.
Lemma ct_put i P (f : chip -> chip) (Q : cp) : stable i P -> (forall c ev tr, P c ev tr -> Q (f c) ev tr) -> ct i P (put i f) (λ _, Q).
Proof.
  intros Hp Hf. apply ct_atom; [done|]. intros R w Hs Hi [He Hr]. cbn. rewrite length_alter. split; [|done]. split; [done|].
  intros j c. cbn. rewrite alter_lookup. destruct (chips w !! j) as [c0|] eqn:E; [|done]. intros [= <-]. specialize (Hr j c0 E). unfold at_ in *.
  repeat case_decide; subst; try done. by apply Hf.
Qed.
Lemma chip_of_lookup w i : (i < length (chips w))%nat -> chips w !! i = Some (chip_of w i).
Proof.
  intros Hi. destruct (lookup_lt_is_Some_2 _ _ Hi) as [c Hc]. rewrite Hc. f_equal. symmetry. by apply nth_lookup_Some.
Qed.
Lemma ct_look {A} i P (p : chip -> A) (Q : A -> cp) : stable i P -> (forall c ev tr, P c ev tr -> Q (p c) c ev tr) -> ct i P (look i p) Q.
Proof.
  intros Hp Hq. apply ct_atom; [done|]. intros R w Hs Hi [He Hr]. cbn. split; [|done]. split; [done|]. intros j c Hj. specialize (Hr j c Hj).
  unfold at_ in *. destruct (decide (j = i)) as [->|]; [|done]. pose proof (chip_of_lookup w i Hi) as Hc. rewrite Hj in Hc. injection Hc as ->. by apply Hq.
Qed.
(** Steps that only add to the trace or to what does not matter here. *)
Lemma ct_world {A} i P (f : world -> A * world) (Q : A -> cp) : stable i P -> (forall x c ev tr, P c ev tr -> Q x c ev tr) ->
  (forall w, chips (f w).2 = chips w /\ events (f w).2 = events w /\ trace (f w).2 = trace w /\ sched (f w).2 = sched w /\ rcs (f w).2 = rcs w) ->
  ct i P (atom f) Q.
Proof.
  intros Hp Hq Hf. apply ct_atom; [done|]. intros R w Hs Hi [He Hr]. destruct (Hf w) as (E1 & E2 & E3 & E4 & E5). rewrite E1. split; [|done].
  split; [unfold env_ok; by rewrite E4, E5|]. intros j c. rewrite E1, E2, E3. intros Hj. specialize (Hr j c Hj). unfold at_ in *. case_decide; [by apply Hq|done].
Qed.
Lemma append_holds i (P Q : cp) R w a : (forall j, stable j (R j)) -> (forall c ev tr, P c ev tr -> Q c ev (tr ++ [a])) ->
  holds (at_ i P R) w -> holds (at_ i Q R) (set_trace (trace w ++ [a]) w).
Proof.
  intros Hs Hq [He Hr]. split; [done|]. intros j c Hj. cbn in *. specialize (Hr j c Hj). unfold at_ in *. case_decide; [by apply Hq|]. by apply Hs.
Qed.
Lemma ct_act i P a (Q : cp) : stable i P -> (forall c ev tr, P c ev tr -> Q c ev (tr ++ [a])) -> ct i P (act a) (λ _, Q).
Proof. intros Hp Hq. apply ct_atom; [done|]. intros R w Hs Hi Hh. cbn [fst snd]. split; [by apply (append_holds i P)|done]. Qed.
Lemma ct_call i P a (Q : Z -> cp) : stable i P -> (forall r c ev tr, (works -> r = 0) -> P c ev tr -> Q r c ev (tr ++ [a])) -> ct i P (call a) Q.
Proof.
  intros Hp Hq. apply ct_atom; [done|]. intros R w Hs Hi Hh. cbn. destruct (rcs w) as [|r l] eqn:E; cbn; split; try done.
  - by apply (append_holds i P); [done| |done]; auto.
  - assert (Hw : works -> r = 0 /\ Forall (λ r, r = 0) l) by (intros Hw; destruct Hh as [[_ H2] _]; specialize (H2 Hw); rewrite E in H2; by apply list.Forall_cons in H2).
    destruct (append_holds i P (Q r) R w a Hs ltac:(intros; apply Hq; [by intros Hw1; apply Hw|done]) Hh) as [[H1 H2] H3]. split; [|done].
    split; [done|]. intros Hw1. by apply Hw.
Qed.
Lemma ct_input i P (Q : Z -> cp) : stable i P -> (forall x c ev tr, P c ev tr -> Q x c ev tr) -> ct i P input Q.
Proof. intros Hp Hq. apply ct_world; [done|done|]. intros w. by destruct (inputs w). Qed.
Lemma ct_when i (P Q : cp) b (m : M unit) : (b = true -> ct i P m (λ _, Q)) -> (b = false -> forall c ev tr, P c ev tr -> Q c ev tr) ->
  ct i P (when b m) (λ _, Q).
Proof.
  intros Ht Hf. destruct b; cbn [when]; [by apply Ht|]. apply (ct_weaken i P P _ _ (λ _, P)); [done| |exact (ct_ret i tt (λ _, P))]. intros _. by apply Hf.
Qed.
Lemma ct_for_list i (P : cp) l (f : nat -> M unit) : (forall j, ct i P (f j) (λ _, P)) -> ct i P (for_list l f) (λ _, P).
Proof. intros Hf. induction l as [|j l IH]; cbn [for_list]; [exact (ct_ret i tt (λ _, P))|]. by apply (ct_bind i P _ (λ _, P)). Qed.
(** From all chips to all chips. *)
Lemma for_each_holds (P Q : nat -> cp) (f : nat -> M unit) w : (forall j, stable j (P j)) -> (forall j, stable j (Q j)) ->
  (forall i, ct i (P i) (f i) (λ _, Q i)) -> holds P w -> holds Q (for_each_chip f w).2 /\ length (chips (for_each_chip f w).2) = length (chips w).
Proof.
  intros Hp Hq Hf Hh. unfold for_each_chip. set (R k j := if (j <? k)%nat then Q j else P j).
  assert (Hs : forall k j, stable j (R k j)) by (intros k j; unfold R; by destruct (j <? k)%nat).
  assert (Hmain : forall n k v, (k + n = length (chips v))%nat -> holds (R k) v ->
    holds (R (k + n)%nat) (for_list (seq k n) f v).2 /\ length (chips (for_list (seq k n) f v).2) = length (chips v)).
  { induction n as [|n IH]; intros k v Hk Hv; [by rewrite Nat.add_0_r|]. cbn [seq for_list]. unfold mbind, M_bind.
    destruct (Hf k (R k) v (Hs k) ltac:(lia)) as [H1 L1].
    { destruct Hv as [He Hr]. split; [done|]. intros j c Hj. specialize (Hr j c Hj). unfold at_, R in *. case_decide; [subst|done]. by rewrite Nat.ltb_irrefl in Hr. }
    destruct (f k v) as [[] v1]. cbn [fst snd] in *. replace (k + S n)%nat with (S k + n)%nat by lia. destruct (IH (S k) v1) as [H2 L2]; [lia| |by rewrite L2].
    destruct H1 as [He Hr]. split; [done|]. intros j c Hj. specialize (Hr j c Hj). unfold at_, R in *. destruct (decide (j = k)) as [->|Hn].
    - by rewrite (proj2 (Nat.ltb_lt k (S k))) by lia.
    - destruct (Nat.ltb_spec j k), (Nat.ltb_spec j (S k)); try done; lia. }
  destruct (Hmain (length (chips w)) 0%nat w) as [H1 L1]; [lia| |].
  - destruct Hh as [He Hr]. split; [done|]. intros j c Hj. unfold R. by apply Hr.
  - split; [|done]. destruct H1 as [He Hr]. split; [done|]. intros j c Hj. specialize (Hr j c Hj). unfold R in Hr.
    rewrite (proj2 (Nat.ltb_lt j _)) in Hr; [done|]. apply lookup_lt_Some in Hj. lia.
Qed.
Lemma stable_and i (P Q : cp) : stable i P -> stable i Q -> stable i (λ c ev tr, P c ev tr /\ Q c ev tr).
Proof. intros [P1 P2] [Q1 Q2]. split; [intros k c ev tr Hk [H1 H2] | intros a c ev tr [H1 H2]]; auto. Qed.
Lemma stable_or i (P Q : cp) : stable i P -> stable i Q -> stable i (λ c ev tr, P c ev tr \/ Q c ev tr).
Proof. intros [P1 P2] [Q1 Q2]. split; [intros k c ev tr Hk [H|H] | intros a c ev tr [H|H]]; auto. Qed.
(** The chip is in the one state or in the other. *)
Lemma ct_or {A} i (P1 P2 : cp) (m : M A) (Q1 Q2 : A -> cp) : ct i P1 m Q1 -> ct i P2 m Q2 ->
  ct i (λ c ev tr, P1 c ev tr \/ P2 c ev tr) m (λ x c ev tr, Q1 x c ev tr \/ Q2 x c ev tr).
Proof.
  intros H1 H2 R w Hs Hi [He Hr]. pose proof (chip_of_lookup w i Hi) as Hc.
  assert (Hone : forall (P : cp) (Q : A -> cp), ct i P m Q -> P (chip_of w i) (events w) (trace w) -> (forall x c ev tr, Q x c ev tr -> Q1 x c ev tr \/ Q2 x c ev tr) ->
    holds (at_ i (λ c ev tr, Q1 (m w).1 c ev tr \/ Q2 (m w).1 c ev tr) R) (m w).2 /\ length (chips (m w).2) = length (chips w)).
  { intros P Q Hm HP HQ. apply (ct_weaken i P P m (λ x c ev tr, Q1 x c ev tr \/ Q2 x c ev tr) Q); [done|done|done|done|done|]. split; [done|].
    intros j c Hj. specialize (Hr j c Hj). unfold at_ in *. case_decide; [subst|done]. by simplify_eq. }
  pose proof (Hr i _ Hc) as HP. unfold at_ in HP. rewrite decide_True in HP by done. destruct HP as [HP|HP]; [by apply (Hone P1 Q1); auto | by apply (Hone P2 Q2); auto].
Qed.
(** No interrupts and no failing calls. *)
Definition quiet : Prop := works /\ forall k, ~ okirq k.
Lemma stable_quiet i (P : chip -> list action -> Prop) : (forall a c tr, P c tr -> P c (tr ++ [a])) -> stable i (λ c _ tr, quiet -> P c tr).
Proof. intros Hp. split; [intros k c ev tr Hk _ [_ Hq]; by destruct (Hq k) | intros a c ev tr Hq Hx; auto]. Qed.
Ltac isr_cases k := destruct k; cbn -[Z.testbit Z.lor]; repeat case_decide; repeat case_match; cbn -[Z.testbit Z.lor] in *; subst; auto.
Definition pend c : Prop := trigger_reset c = true \/ therm_trip_triggered c = true \/ arc_wdog_triggered c = true.
(** Transfers are cancelled only while something waits to be served; and, during a reset, only for a trip or the watchdog. *)
Definition cancel_ok c : Prop := cancelled c = true -> pend c.
Definition cancel_fault c : Prop := cancelled c = true -> therm_trip_triggered c = true \/ arc_wdog_triggered c = true.
Lemma st_performing i b : stable i (λ c _ _, performing_reset c = b).
Proof. split; [|done]. intros k c ev tr _ Hp. by isr_cases k. Qed.
Lemma st_cancel_ok i : stable i (λ c _ _, cancel_ok c).
Proof. split; [|done]. unfold cancel_ok, pend. intros k c ev tr _ Hp. isr_cases k; intuition. Qed.
Lemma st_fault_performing i : stable i (λ c _ _, performing_reset c = true /\ cancel_fault c).
Proof. split; [|done]. unfold cancel_fault. intros k c ev tr _ [Hp Hc]. isr_cases k; try (split; intuition; done). rewrite Hp in *. done. Qed.
Lemma st_fault_no_perst i : (forall t, ~ okirq (Perst t)) -> stable i (λ c _ _, cancel_fault c).
Proof.
  intros Hn. split; [|done]. unfold cancel_fault. intros k c ev tr Hk Hc.
  destruct k as [j|j|t|j l| | |l]; cbn; repeat case_decide; repeat case_match; cbn; auto. by destruct (Hn t).
Qed.
Lemma st_trigger i : stable i (λ c _ _, trigger_reset c = true).
Proof. split; [|done]. intros k c ev tr _ Hp. by isr_cases k. Qed.
Definition posted_therm c (ev : Z) : Prop := therm_trip_triggered c = true -> Z.testbit ev 0 = true.
Definition posted_wdog c (ev : Z) : Prop := arc_wdog_triggered c = true -> Z.testbit ev 1 = true.
Definition posted_pgood c (ev : Z) : Prop := pgood_fall_triggered c = true \/ pgood_rise_triggered c = true -> pgood_severe_fault c = true \/ Z.testbit ev 3 = true.
Lemma lor_bit ev e n : Z.testbit ev n = true -> Z.testbit (Z.lor ev e) n = true.
Proof. intros H. by rewrite Z.lor_spec, H. Qed.
Lemma lor_bit_r ev e n : Z.testbit e n = true -> Z.testbit (Z.lor ev e) n = true.
Proof. intros H. by rewrite Z.lor_spec, H, orb_true_r. Qed.
Lemma st_posted_therm i : stable i (λ c ev _, posted_therm c ev).
Proof. split; [|done]. unfold posted_therm. intros k c ev tr _ Hp. isr_cases k; intros; try (by apply lor_bit_r); by apply lor_bit, Hp. Qed.
Lemma st_posted_wdog i : stable i (λ c ev _, posted_wdog c ev).
Proof. split; [|done]. unfold posted_wdog. intros k c ev tr _ Hp. isr_cases k; intros; try (by apply lor_bit_r); by apply lor_bit, Hp. Qed.
Lemma st_posted_pgood i : stable i (λ c ev _, posted_pgood c ev).
Proof.
  split; [|done]. unfold posted_pgood. intros k c ev tr _ Hp. isr_cases k; intros Hf; try (right; by apply lor_bit_r);
  destruct (Hp Hf); auto using lor_bit.
Qed.
(** What has been done since the trace was [T0]. *)
Context (T0 : list action) (was : nat -> Prop).
Definition later (tr : list action) : Prop := T0 `prefix_of` tr.
Definition served i (tr : list action) : Prop := exists tr', tr = T0 ++ tr' /\ SoftReset i ∈ tr'.
Lemma later_app a tr : later tr -> later (tr ++ [a]).
Proof. intros H. by apply prefix_app_r. Qed.
Lemma served_app i a tr : served i tr -> served i (tr ++ [a]).
Proof. intros (tr' & -> & H). exists (tr' ++ [a]). rewrite <- app_assoc. split; [done|]. apply elem_of_app. by left. Qed.
Lemma served_now i tr : later tr -> served i (tr ++ [SoftReset i]).
Proof. intros [tr' ->]. exists (tr' ++ [SoftReset i]). rewrite <- app_assoc. split; [done|]. apply elem_of_app. right. by apply list_elem_of_singleton. Qed.
Definition due i c (tr : list action) : Prop := quiet -> was i -> served i tr \/ pend c.
Lemma st_due i : stable i (λ c _ tr, due i c tr).
Proof. apply (stable_quiet i (λ c tr, was i -> served i tr \/ pend c)). intros a c tr H Hw. destruct (H Hw); auto using served_app. Qed.
Lemma st_later i : stable i (λ _ _ tr, later tr).
Proof. split; [done|]. intros. by apply later_app. Qed.
Lemma st_served i : stable i (λ _ _ tr, quiet -> served i tr).
Proof. apply (stable_quiet i (λ _ tr, served i tr)). intros. by apply served_app. Qed.
Lemma st_flag i (p : chip -> bool) b : stable i (λ c _ _, quiet -> p c = b).
Proof. by apply (stable_quiet i (λ c _, p c = b)). Qed.

(** ** Resets keep what they do not touch *)
Definition pres {A} i (F : cp) (m : M A) : Prop := ct i F m (λ _, F).
Lemma pres_bind {A B} i F (m : M A) (k : A -> M B) : pres i F m -> (forall x, pres i F (k x)) -> pres i F (m ≫= k).
Proof. intros Hm Hk. by apply (ct_bind i F m (λ _, F)). Qed.
Lemma pres_ret {A} i F (x : A) : pres i F (mret x).
Proof. exact (ct_ret i x (λ _, F)). Qed.
Lemma pres_act i F a : stable i F -> pres i F (act a).
Proof. intros Hs. apply ct_act; [done|]. intros. by apply Hs. Qed.
Lemma pres_call i F a : stable i F -> pres i F (call a).
Proof. intros Hs. apply ct_call; [done|]. intros. by apply Hs. Qed.
Lemma pres_input i F : stable i F -> pres i F input.
Proof. intros Hs. by apply ct_input. Qed.
Lemma pres_look {A} i F (p : chip -> A) : stable i F -> pres i F (look i p).
Proof. intros Hs. by apply ct_look. Qed.
Lemma pres_when i F b (m : M unit) : pres i F m -> pres i F (when b m).
Proof. intros Hm. apply ct_when; auto. Qed.
Lemma pres_if {A} i F (b : bool) (m1 m2 : M A) : pres i F m1 -> pres i F m2 -> pres i F (if b then m1 else m2).
Proof. by destruct b. Qed.
(** What a reset writes of a chip. *)
Record reset_keeps (F : cp) : Prop := {
  rk_seq c ev tr : F c ev tr -> F (set_last_cm2dm_seq_num_valid false c) ev tr;
  rk_clear c ev tr : F c ev tr -> F (set_cancelled false c) ev tr;
  rk_asic c ev tr b : F c ev tr -> F (set_asic_reset b c) ev tr;
  rk_spi c ev tr b : F c ev tr -> F (set_spi_reset b c) ev tr;
  rk_patched c ev tr : F c ev tr -> F (set_workaround_applied true c) ev tr;
  rk_perst c ev tr t : F c ev tr -> F (set_perst_seen false (set_dm_init_done t c)) ev tr;
  rk_start c ev tr t : F c ev tr -> F (set_arc_start_time t c) ev tr }.
Section resets.
Context (straps : list nat) (i : nat) (F : cp).
Hypotheses (Hs : stable i F) (Hk : reset_keeps F) (Hlater : forall c ev tr, F c ev tr -> later tr).
Lemma pres_put f : (forall c ev tr, F c ev tr -> F (f c) ev tr) -> pres i F (put i f).
Proof. intros Hf. by apply ct_put. Qed.
Ltac pres_auto :=
  repeat first [ apply pres_bind; [|intros] | apply pres_ret | apply pres_act, Hs | apply pres_call, Hs | apply pres_input, Hs | apply pres_look, Hs | apply pres_when
               | apply pres_put; intros; by eapply Hk | apply pres_if | apply ct_for_list; intros ].
Lemma pres_soft_reset : pres i F (soft_reset_arc i).
Proof. unfold soft_reset_arc. pres_auto. Qed.
Lemma pres_straps b : pres i F (if (b : bool) then bh_chip_set_straps straps i else bh_chip_unset_straps straps i).
Proof. destruct b; unfold bh_chip_set_straps, bh_chip_unset_straps, set_strap, bharc_enable_i2cbus, bharc_disable_i2cbus; pres_auto. Qed.
(** [P] before, [F] from the first action on. *)
Lemma reset_asic_from (P : cp) : stable i P -> (forall c ev tr, P c ev tr -> F c ev (tr ++ [WaitPgood i])) ->
  ct i P (jtag_bootrom_reset_asic straps i) (λ r c ev tr, F c ev tr /\ (works -> r = 0)).
Proof.
  intros HP Hw. unfold jtag_bootrom_reset_asic, bh_chip_assert_asic_reset, bh_chip_assert_spi_reset.
  apply (ct_bind i P _ (λ _, F)); [by apply ct_act|intros _]. apply (ct_bind i F _ (λ _, F)); [pres_auto|intros _].
  apply (ct_bind i F _ (λ _, F)); [pres_auto|intros _].
  apply (ct_bind i F _ (λ r c ev tr, F c ev tr /\ (works -> r = 0))); [apply ct_call; [done|]; intros r c ev tr Hr HF; split; [by apply Hs|done]|].
  intros r. destruct (negb (r =? 0)) eqn:Er; [apply (ct_ret i r (λ r c ev tr, F c ev tr /\ (works -> r = 0)))|].
  apply (ct_weaken i _ F _ _ (λ r c ev tr, F c ev tr /\ (works -> r = 0))); [by intros ??? [? _]|done|].
  apply (ct_bind i F _ (λ _, F)); [apply (pres_straps true)|intros _]. unfold bh_chip_deassert_asic_reset, bh_chip_deassert_spi_reset.
  do 2 (apply (ct_bind i F _ (λ _, F)); [pres_auto|intros _]). do 2 (apply (ct_bind i F _ (λ _, F)); [pres_auto|intros _]).
  apply (ct_bind i F _ (λ _, F)); [apply (pres_straps false)|intros _].
  apply (ct_weaken i _ F _ _ (λ r c ev tr, F c ev tr /\ r = 0)); [done|by intros ???? [? ->]|].
  apply (ct_weaken i _ (λ c ev tr, F c ev tr /\ 0 = 0) _ _ (λ r c ev tr, F c ev tr /\ r = 0)); [done|done|]. apply (ct_ret i 0 (λ r c ev tr, F c ev tr /\ r = 0)).
Qed.
Lemma reset_asic_ct : ct i F (jtag_bootrom_reset_asic straps i) (λ r c ev tr, F c ev tr /\ (works -> r = 0)).
Proof. apply reset_asic_from; [exact Hs|]. intros. by apply Hs. Qed.
Lemma soft_reset_ct : ct i F (soft_reset_arc i) (λ _ c ev tr, F c ev tr /\ (quiet -> served i tr)).
Proof.
  unfold soft_reset_arc. apply (ct_bind i F _ (λ _, F)); [pres_auto|intros seen]. apply (ct_bind i F _ (λ _, F)); [pres_auto|intros _].
  apply (ct_bind i F _ (λ _, F)); [pres_auto|intros t]. apply (ct_bind i F _ (λ _, F)); [pres_auto|intros _].
  apply ct_act; [done|]. intros c ev tr HF. split; [by apply Hs|]. intros _. by apply served_now, (Hlater c ev).
Qed.
End resets.
Definition done_reset i c (tr : list action) : Prop := quiet -> trigger_reset c = false /\ served i tr.
Lemma st_done_reset i : stable i (λ c _ tr, done_reset i c tr).
Proof. apply (stable_quiet i (λ c tr, trigger_reset c = false /\ served i tr)). intros a c tr [? ?]. auto using served_app. Qed.
Section sequence.
Context (straps : list nat) (i : nat) (F : cp).
Hypotheses (Hs : stable i F) (Hk : reset_keeps F) (Hlater : forall c ev tr, F c ev tr -> later tr)
  (Htrig : forall c ev tr b, F c ev tr -> F (set_trigger_reset b c) ev tr).
Definition F_trig : cp := λ c ev tr, F c ev tr /\ trigger_reset c = true.
Lemma F_trig_ok : stable i F_trig /\ reset_keeps F_trig /\ (forall c ev tr, F_trig c ev tr -> later tr).
Proof.
  split; [exact (stable_and i F _ Hs (st_trigger i))|]. split; [|intros c ev tr [HF _]; by apply (Hlater c ev)].
  constructor; intros c ev tr; intros; match goal with H : F_trig _ _ _ |- _ => destruct H end; (split; [by eapply Hk|done]).
Qed.
(** A reset from where transfers are allowed again, with [trigger_reset] set. *)
Lemma tail_ct limit : ct i F_trig
  (ret ← jtag_bootrom_reset_asic straps i;
   if negb (ret =? 0) then mret ret
   else
     act (Patch i);; put i (set_workaround_applied true);; act (CableLimit i limit);;
     triggered ← look i trigger_reset;
     when triggered (soft_reset_arc i;; put i (set_trigger_reset false));;
     jtag_bootrom_teardown i;; mret 0) (λ r c ev tr, F c ev tr /\ done_reset i c tr).
Proof.
  destruct F_trig_ok as (Hs2 & Hk2 & Hl2).
  apply (ct_bind i F_trig _ (λ r c ev tr, F_trig c ev tr /\ (works -> r = 0))); [by apply reset_asic_ct|]. intros r.
  destruct (negb (r =? 0)) eqn:Er.
  { apply (ct_weaken i _ (λ c ev tr, F_trig c ev tr /\ (works -> r = 0)) _ _ (λ r' c ev tr, F_trig c ev tr /\ (works -> r = 0))); [done| |exact (ct_ret i r (λ _ c ev tr, F_trig c ev tr /\ (works -> r = 0)))].
    intros _ c ev tr [[HF _] Hr]. split; [done|]. intros [Hw _]. by rewrite (Hr Hw) in Er. }
  apply (ct_weaken i _ F_trig _ _ (λ r c ev tr, F c ev tr /\ done_reset i c tr)); [by intros ??? [? _]|done|].
  apply (ct_bind i F_trig _ (λ _, F_trig)); [by apply pres_act|intros _].
  apply (ct_bind i F_trig _ (λ _, F_trig)); [apply ct_put; [done|]; intros; by apply Hk2|intros _].
  apply (ct_bind i F_trig _ (λ _, F_trig)); [by apply pres_act|intros _].
  apply (ct_bind i F_trig _ (λ v c ev tr, F_trig c ev tr /\ v = true)); [apply ct_look; [done|]; intros c ev tr HF; split; [done|apply HF]|intros v].
  apply (ct_bind i _ _ (λ _ c ev tr, F c ev tr /\ done_reset i c tr)).
  - apply ct_when; [intros ->|intros -> ??? [_ ?]; done].
    apply (ct_weaken i _ F_trig _ _ (λ _ c ev tr, F c ev tr /\ done_reset i c tr)); [by intros ??? [? _]|done|].
    apply (ct_bind i F_trig _ (λ _ c ev tr, F_trig c ev tr /\ (quiet -> served i tr))); [by apply soft_reset_ct|intros _].
    apply ct_put; [exact (stable_and i F_trig _ Hs2 (st_served i))|]. intros c ev tr [[HF _] Hsv]. split; [by apply Htrig|]. intros Hq. split; [done|auto].
  - intros _. apply (ct_bind i _ _ (λ _ c ev tr, F c ev tr /\ done_reset i c tr)).
    + apply pres_act. exact (stable_and i F _ Hs (st_done_reset i)).
    + intros _. exact (ct_ret i 0 (λ _ c ev tr, F c ev tr /\ done_reset i c tr)).
Qed.
Lemma sequence_ct (P : cp) limit : stable i P -> (forall c ev tr, P c ev tr -> P (set_trigger_reset true c) ev tr) ->
  (forall c ev tr, P c ev tr -> F (set_cancelled false c) ev tr) ->
  ct i P (jtag_bootrom_reset_sequence straps i true limit) (λ _ c ev tr, F c ev tr /\ done_reset i c tr).
Proof.
  intros HsP Hp Hf. unfold jtag_bootrom_reset_sequence. apply (ct_bind i P _ (λ _ c ev tr, P c ev tr /\ trigger_reset c = true)).
  { apply ct_put; [done|]. intros c ev tr HP. split; [by apply Hp|done]. }
  intros _. apply (ct_bind i _ _ (λ _, F_trig)); [|intros _; apply tail_ct].
  apply ct_put; [exact (stable_and i P _ HsP (st_trigger i))|]. intros c ev tr [HP Ht]. split; [by apply Hf|done].
Qed.
(** [P]: before the reset; it is [F] once the transfers are allowed again. *)
Lemma reset_chip_ct (P : cp) : stable i P -> (forall c ev tr, P c ev tr -> P (set_trigger_reset true c) ev tr) ->
  (forall c ev tr, P c ev tr -> P (set_last_cm2dm_seq_num_valid false c) ev tr) -> (forall c ev tr, P c ev tr -> F (set_cancelled false c) ev tr) ->
  ct i P (bh_chip_reset_chip straps i true) (λ _ c ev tr, (P c ev tr \/ F c ev tr) /\ done_reset i c tr).
Proof.
  intros HsP Hp Hq Hf. unfold bh_chip_reset_chip. apply (ct_bind i P _ (λ _, P)); [by apply ct_put|intros _].
  apply (ct_bind i P _ (λ r c ev tr, P c ev tr /\ (works -> r = 0))).
  { apply ct_call; [done|]. intros r c ev tr Hr HP. split; [by apply HsP|done]. }
  intros r. destruct (negb (r =? 0)) eqn:Er.
  { apply (ct_bind i _ _ (λ _ c ev tr, P c ev tr /\ (works -> r = 0))).
    { apply pres_call. apply (stable_and i P (λ _ _ _, works -> r = 0)); [done|]. by split. }
    intros r'. apply (ct_weaken i _ (λ c ev tr, P c ev tr /\ (works -> r = 0)) _ _ (λ _ c ev tr, P c ev tr /\ (works -> r = 0))); [done| |exact (ct_ret i r (λ _ c ev tr, P c ev tr /\ (works -> r = 0)))].
    intros _ c ev tr [HP Hr]. split; [by left|]. intros [Hw _]. by rewrite (Hr Hw) in Er. }
  apply (ct_weaken i _ P _ _ (λ _ c ev tr, F c ev tr /\ done_reset i c tr)); [by intros ??? [? _]|intros _ ??? [? ?]; by split; [right|]|].
  apply (ct_bind i P _ (λ _, P)); [by apply pres_look|intros limit].
  apply (ct_bind i P _ (λ _ c ev tr, F c ev tr /\ done_reset i c tr)); [by apply sequence_ct|intros r2].
  apply (ct_bind i _ _ (λ _ c ev tr, F c ev tr /\ done_reset i c tr)); [apply pres_call; exact (stable_and i F _ Hs (st_done_reset i))|intros r3].
  exact (ct_ret i _ (λ _ c ev tr, F c ev tr /\ done_reset i c tr)).
Qed.
(** A reset with the same state throughout, [P] before its first action. *)
Lemma pres_reset_chip (P : cp) : stable i P -> (forall c ev tr, P c ev tr -> P (set_trigger_reset true c) ev tr) ->
  (forall c ev tr, P c ev tr -> P (set_last_cm2dm_seq_num_valid false c) ev tr) -> (forall c ev tr, P c ev tr -> P (set_cancelled false c) ev tr) ->
  (forall c ev tr, P c ev tr -> F c ev (tr ++ [WaitPgood i])) ->
  ct i P (bh_chip_reset_chip straps i true) (λ _ c ev tr, F c ev tr \/ P c ev tr).
Proof.
  intros HsP Hp Hq Hf Hw. unfold bh_chip_reset_chip, jtag_bootrom_reset_sequence. apply (ct_bind i P _ (λ _, P)); [by apply ct_put|intros _].
  apply (ct_bind i P _ (λ _, P)); [by apply pres_call|intros r]. destruct (negb (r =? 0)).
  { apply (ct_weaken i P P _ _ (λ _, P)); [done|by right|]. apply pres_bind; [by apply pres_call|intros; apply pres_ret]. }
  apply (ct_weaken i P P _ _ (λ _, F)); [done|by left|].
  apply (ct_bind i P _ (λ _, P)); [by apply pres_look|intros limit]. apply (ct_bind i P _ (λ _, F)).
  - apply (ct_bind i P _ (λ _, P)); [by apply ct_put|intros _]. apply (ct_bind i P _ (λ _, P)); [by apply ct_put|intros _].
    apply (ct_bind i P _ (λ r c ev tr, F c ev tr /\ (works -> r = 0))); [by apply reset_asic_from|intros r2].
    apply (ct_weaken i _ F _ _ (λ _, F)); [by intros ??? [? _]|done|]. apply pres_if; [apply pres_ret|].
    apply pres_bind; [by apply pres_act|intros _]. apply pres_bind; [apply ct_put; [done|]; intros; by apply Hk|intros _].
    apply pres_bind; [by apply pres_act|intros _]. apply pres_bind; [by apply pres_look|intros v].
    apply pres_bind; [|intros _; apply pres_bind; [by apply pres_act|intros; apply pres_ret]].
    apply pres_when, pres_bind; [by apply pres_soft_reset|intros _]. apply ct_put; [done|]. intros. by apply Htrig.
  - intros r2. apply pres_bind; [by apply pres_call|intros; apply pres_ret].
Qed.
End sequence.

(** ** The urgent handlers *)
Ltac stab := repeat first [ apply st_fault_performing | apply st_performing | apply st_cancel_ok | apply st_trigger | apply st_posted_therm | apply st_posted_wdog
  | apply st_posted_pgood | apply st_due | apply st_later | apply st_served | apply st_done_reset | apply (st_flag _ therm_trip_triggered)
  | apply (st_flag _ arc_wdog_triggered) | apply (st_flag _ trigger_reset) | apply stable_and ].
Lemma pres_modify i F f : stable i F ->
  (forall w, chips (f w) = chips w /\ events (f w) = events w /\ trace (f w) = trace w /\ sched (f w) = sched w /\ rcs (f w) = rcs w) -> pres i F (modify f).
Proof. intros Hs Hf. by apply ct_world. Qed.
Lemma pres_fan has_fan i F : stable i F -> (forall c ev tr, F c ev tr -> F (set_fan_speed_forced true (set_fan_speed 100 c)) ev tr) -> pres i F (fan_to_full has_fan i).
Proof.
  intros Hs Hf. unfold fan_to_full. apply pres_bind; [by apply ct_put|intros _]. apply pres_when, pres_modify; [done|]. intros w. by destruct (UINT8_MAX <? UINT8_MAX).
Qed.
Definition rest i : cp := λ c ev tr, performing_reset c = false /\ cancel_ok c /\ due i c tr /\ later tr.
Definition therm_done : cp := λ c ev tr, posted_therm c ev /\ (quiet -> therm_trip_triggered c = false).
Definition wdog_done : cp := λ c ev tr, posted_wdog c ev /\ (quiet -> arc_wdog_triggered c = false).
Definition stage1 i : cp := λ c ev tr, rest i c ev tr /\ therm_done c ev tr.
Definition stage2 i : cp := λ c ev tr, stage1 i c ev tr /\ wdog_done c ev tr.
Definition stage3 i : cp := λ c ev tr, stage2 i c ev tr /\ (quiet -> trigger_reset c = false).
Lemma st_stages i : stable i (rest i) /\ stable i (stage1 i) /\ stable i (stage2 i) /\ stable i (stage3 i).
Proof. unfold stage3, stage2, stage1, rest, therm_done, wdog_done. split_and!; stab. Qed.
(** During a reset of chip [i]: [D] is what has been dealt with before. *)
Definition busy (D : cp) : cp := λ c ev tr, (performing_reset c = true /\ cancel_fault c) /\ later tr /\ D c ev tr.
Record dealt i (D : cp) : Prop := {
  d_stable : stable i D;
  d_fields c ev tr : D c ev tr -> D (set_last_cm2dm_seq_num_valid false c) ev tr /\
    (forall b, D (set_cancelled b c) ev tr) /\ (forall b, D (set_asic_reset b c) ev tr) /\ (forall b, D (set_spi_reset b c) ev tr) /\
    D (set_workaround_applied true c) ev tr /\ (forall t, D (set_perst_seen false (set_dm_init_done t c)) ev tr) /\ (forall t, D (set_arc_start_time t c) ev tr) /\
    (forall b, D (set_performing_reset b c) ev tr) /\ (forall n, D (set_therm_trip_count n c) ev tr) /\ (forall n, D (set_arc_hang_pc n c) ev tr) /\
    (forall n, D (set_auto_reset_timeout n c) ev tr) /\ D (set_fan_speed_forced true (set_fan_speed 100 c)) ev tr }.
Ltac all_fields H := repeat (split; [first [exact H | intros ?; exact H]|]); first [exact H | intros ?; exact H].
Lemma dealt_therm i : dealt i therm_done.
Proof. unfold therm_done. split; [stab|]. intros c ev tr H. all_fields H. Qed.
Lemma dealt_both i : dealt i (λ c ev tr, therm_done c ev tr /\ wdog_done c ev tr).
Proof. unfold therm_done, wdog_done. split; [stab|]. intros c ev tr H. all_fields H. Qed.
Lemma dealt_all i : dealt i (λ c ev tr, (therm_done c ev tr /\ wdog_done c ev tr) /\ (quiet -> trigger_reset c = false)).
Proof. unfold therm_done, wdog_done. split; [stab|]. intros c ev tr H. all_fields H. Qed.
Section handlers.
Context (straps : list nat) (has_fan : bool) (i : nat) (D : cp).
Hypothesis HD : dealt i D.
Lemma busy_stable : stable i (busy D).
Proof. unfold busy. repeat first [apply st_fault_performing | apply st_later | apply (d_stable i D HD) | apply stable_and]. Qed.
Lemma busy_keeps : reset_keeps (busy D).
Proof.
  constructor; intros c ev tr; intros; match goal with H : busy D _ _ _ |- _ => destruct H as ([Hp Hc] & Hl & Hd) end;
    apply (d_fields i D HD) in Hd as (H1 & H3 & H4 & H5 & H6 & H7 & H8 & _); (split; [split; done|]; split; [done|]; by auto).
Qed.
(** A reset while [performing_reset] is set. *)
Lemma busy_reset : (forall c ev tr b, D c ev tr -> D (set_trigger_reset b c) ev tr) -> ct i (busy D) (bh_chip_reset_chip straps i true) (λ _ c ev tr, busy D c ev tr /\ done_reset i c tr).
Proof.
  pose proof busy_keeps as Hk. intros HT. assert (Ht : forall c ev tr b, busy D c ev tr -> busy D (set_trigger_reset b c) ev tr) by (intros c ev tr b ([? ?] & ? & ?); split; [split|]; auto).
  apply (ct_weaken i _ (busy D) _ _ (λ _ c ev tr, (busy D c ev tr \/ busy D c ev tr) /\ done_reset i c tr)); [done|intros _ ??? [[?|?] ?]; by split|].
  apply reset_chip_ct; try done; try apply busy_stable; try (by intros; apply Hk); [by intros ??? (_ & ? & _)|by intros; apply Ht].
Qed.
(** The end of a reset: PERST may have come in meanwhile. *)
Definition finished : cp := λ c ev tr, performing_reset c = true /\ cancel_ok c /\ (quiet -> served i tr) /\ later tr /\ D c ev tr.
Lemma finished_stable : stable i finished.
Proof. unfold finished. repeat first [apply st_performing | apply st_cancel_ok | apply st_served | apply st_later | apply (d_stable i D HD) | apply stable_and]. Qed.
Lemma finish_cancel : ct i (λ c ev tr, busy D c ev tr /\ (quiet -> served i tr))
  (triggered ← look i trigger_reset; when triggered (bh_chip_cancel_bus_transfer_set i)) (λ _, finished).
Proof.
  pose proof busy_stable as Hb.
  apply (ct_bind i _ _ (λ v c ev tr, (busy D c ev tr /\ (quiet -> served i tr)) /\ (v = true -> trigger_reset c = true))).
  { apply ct_look; [by apply stable_and; [|apply st_served]|]. intros c ev tr H. by split. }
  intros v. apply ct_when; [intros ->|intros -> c ev tr [[([Hp Hc] & Hl & Hd) Hsv] _]; split_and!; try done; intros Hx; right; by apply Hc].
  apply ct_put.
  - apply stable_and; [by apply stable_and; [|apply st_served]|]. split; [|done]. intros k c ev tr Hk H _. apply (proj1 (st_trigger i) k c ev tr Hk). by apply H.
  - intros c ev tr [[([Hp Hc] & Hl & Hd) Hsv] Ht]. apply (d_fields i D HD) in Hd as (_ & H3 & _). refine (conj Hp (conj _ (conj Hsv (conj Hl (H3 true))))). intros _. left. by apply Ht.
Qed.
Lemma finished_rest : ct i finished (put i (set_performing_reset false)) (λ _ c ev tr, rest i c ev tr /\ D c ev tr).
Proof.
  apply ct_put; [apply finished_stable|]. intros c ev tr (Hp & Hc & Hsv & Hl & Hd). apply (d_fields i D HD) in Hd as (_ & _ & _ & _ & _ & _ & _ & H9 & _).
  split; [|by apply H9]. split_and!; try done. intros Hq _. left. by apply Hsv.
Qed.
End handlers.
(** A handler for one chip, from the flag on. *)
Section one_chip.
Context (straps : list nat) (has_fan : bool) (i : nat).
Lemma clear_busy (D : cp) : dealt i D -> ct i (λ c ev tr, performing_reset c = true /\ later tr /\ D c ev tr) (bh_chip_cancel_bus_transfer_clear i) (λ _, busy D).
Proof.
  intros HD. apply ct_put; [repeat first [apply st_performing | apply st_later | apply (d_stable i D HD) | apply stable_and]|].
  intros c ev tr (Hp & Hl & Hd). apply (d_fields i D HD) in Hd as (_ & H3 & _). split; [split; done|]. split; [done|apply H3].
Qed.
(** Nothing pending is lost: it is served, or still pending. *)
Lemma trigger_rest (D : cp) c ev tr : performing_reset c = false -> later tr -> trigger_reset c = true -> D c ev tr -> rest i c ev tr /\ D c ev tr.
Proof. intros Hp Hl Ht Hd. split; [|done]. split_and!; try done; [intros _; by left|intros _ _; right; by left]. Qed.
Definition idle (D : cp) : cp := λ c ev tr, performing_reset c = false /\ later tr /\ D c ev tr.
Lemma idle_stable D : dealt i D -> stable i (idle D).
Proof. intros HD. unfold idle. repeat first [apply st_performing | apply st_later | apply (d_stable i D HD) | apply stable_and]. Qed.
Lemma start_busy D : dealt i D -> ct i (idle D) (put i (set_performing_reset true)) (λ _ c ev tr, performing_reset c = true /\ later tr /\ D c ev tr).
Proof. intros HD. apply ct_put; [by apply idle_stable|]. intros c ev tr (_ & Hl & Hd). apply (d_fields i D HD) in Hd as (_ & _ & _ & _ & _ & _ & _ & H9 & _). by split_and!. Qed.
Lemma therm_one : ct i (rest i)
  (tripped ← look i therm_trip_triggered;
   when tripped (
     put i (set_therm_trip_triggered false);; modify (set_fault_led true);; fan_to_full has_fan i;;
     triggered ← look i trigger_reset;
     when (negb triggered) (
       put i (set_performing_reset true);; bh_chip_cancel_bus_transfer_clear i;;
       put i (λ c, set_therm_trip_count (u16 (therm_trip_count c + 1)) c);; bh_chip_reset_chip straps i true;;
       triggered ← look i trigger_reset;
       when triggered (bh_chip_cancel_bus_transfer_set i);; put i (set_performing_reset false)))) (λ _, stage1 i).
Proof.
  pose proof (dealt_therm i) as HD. pose proof (idle_stable _ HD) as Hid.
  apply (ct_bind i _ _ (λ v c ev tr, rest i c ev tr /\ (v = false -> therm_done c ev tr))).
  { apply ct_look; [apply st_stages|]. intros c ev tr Hr. split; [done|]. intros Hf. split; [by intros; congruence|done]. }
  intros v. apply ct_when; [intros ->|by intros -> c ev tr [? Ht]; split; [|apply Ht]].
  apply (ct_bind i _ _ (λ _, idle therm_done)).
  { apply ct_put.
    - apply stable_and; [apply st_stages|]. by split.
    - intros c ev tr [(Hp & _ & _ & Hl) _]. by split_and!. }
  intros _. apply (ct_bind i _ _ (λ _, idle therm_done)); [by apply pres_modify|intros _].
  apply (ct_bind i _ _ (λ _, idle therm_done)); [by apply pres_fan|intros _].
  apply (ct_bind i _ _ (λ v c ev tr, idle therm_done c ev tr /\ (v = true -> trigger_reset c = true))); [by apply ct_look|intros v].
  apply ct_when; [intros _|intros ->%negb_false_iff c ev tr [(Hp & Hl & Hd) Ht]; by apply trigger_rest; auto].
  apply (ct_weaken i _ (idle therm_done) _ _ (λ _, stage1 i)); [by intros ??? [? _]|done|].
  apply (ct_bind i _ _ _ _ _ (start_busy _ HD)); intros _. apply (ct_bind i _ _ _ _ _ (clear_busy _ HD)); intros _.
  apply (ct_bind i _ _ (λ _, busy therm_done)).
  { apply ct_put; [by apply busy_stable|]. intros c ev tr ([? ?] & ? & Hd). apply (d_fields i _ HD) in Hd as (_ & _ & _ & _ & _ & _ & _ & _ & H10 & _).
    split; [by split|]. split; [done|apply H10]. }
  intros _. apply (ct_bind i _ _ _ _ _ (busy_reset straps i _ HD ltac:(done))); intros _.
  apply (ct_weaken i _ (λ c ev tr, busy therm_done c ev tr /\ (quiet -> served i tr)) _ _ (λ _, stage1 i)); [intros ??? [? Hq]; split; [done|apply Hq]|done|].
  apply (ct_bind i _ (triggered ← look i trigger_reset; when triggered (bh_chip_cancel_bus_transfer_set i)) _ (λ _, put i (set_performing_reset false)) _ (finish_cancel i _ HD)).
  intros _. by apply finished_rest.
Qed.
Lemma wdog_one : ct i (stage1 i)
  (expired ← look i arc_wdog_triggered;
   when expired (
     put i (set_arc_wdog_triggered false);; bh_chip_cancel_bus_transfer_clear i;;
     ret ← call (JtagSetup i);
     when (ret =? 0) (act (JtagReadPc i);; pc ← input; put i (set_arc_hang_pc pc);; act (JtagTeardown i));;
     put i (set_auto_reset_timeout 0);; fan_to_full has_fan i;; put i (set_performing_reset true);;
     bh_chip_reset_chip straps i true;; bh_chip_cancel_bus_transfer_clear i;; put i (set_performing_reset false))) (λ _, stage2 i).
Proof.
  set (D := λ c ev tr, therm_done c ev tr /\ wdog_done c ev tr). pose proof (dealt_both i : dealt i D) as HD. pose proof (idle_stable _ HD) as Hid.
  assert (Hkeep : forall c ev tr (f : chip -> chip), (D c ev tr -> D (f c) ev tr) -> performing_reset (f c) = performing_reset c -> idle D c ev tr -> idle D (f c) ev tr).
  { intros c ev tr f Hf Hp (H1 & Hl & Hd). split_and!; [by rewrite Hp|done|by apply Hf]. }
  apply (ct_bind i _ _ (λ v c ev tr, stage1 i c ev tr /\ (v = false -> wdog_done c ev tr))).
  { apply ct_look; [apply st_stages|]. intros c ev tr Hr. split; [done|]. intros Hf. split; [by intros; congruence|done]. }
  intros v. apply ct_when; [intros ->|by intros -> c ev tr [? Ht]; split; [|apply Ht]].
  apply (ct_bind i _ _ (λ _, idle D)).
  { apply ct_put.
    - apply stable_and; [apply st_stages|]. by split.
    - intros c ev tr [((Hp & _ & _ & Hl) & Ht) _]. by split_and!. }
  intros _. apply (ct_bind i _ _ (λ _, idle D)); [apply ct_put; [done|]; intros c ev tr; by apply (Hkeep c ev tr)|intros _].
  apply (ct_bind i _ _ (λ _, idle D)); [by apply pres_call|intros r].
  apply (ct_bind i _ _ (λ _, idle D)).
  { apply pres_when. apply pres_bind; [by apply pres_act|intros _]. apply pres_bind; [by apply pres_input|intros pc].
    apply pres_bind; [apply ct_put; [done|]; intros c ev tr; by apply (Hkeep c ev tr)|intros _]. by apply pres_act. }
  intros _. apply (ct_bind i _ _ (λ _, idle D)); [apply ct_put; [done|]; intros c ev tr; by apply (Hkeep c ev tr)|intros _].
  apply (ct_bind i _ _ (λ _, idle D)); [by apply pres_fan|intros _].
  apply (ct_bind i _ _ _ _ _ (start_busy _ HD)); intros _. set (B := λ c (ev : Z) tr, performing_reset c = true /\ later tr /\ D c ev tr).
  assert (HsB : stable i B) by (unfold B; repeat first [apply st_performing | apply st_later | apply (d_stable i D HD) | apply stable_and]).
  apply (ct_bind i _ _ (λ _ c ev tr, B c ev tr /\ done_reset i c tr)).
  { apply (ct_weaken i _ B _ _ (λ _ c ev tr, (B c ev tr \/ B c ev tr) /\ done_reset i c tr)); [done|intros _ ??? [[?|?] ?]; by split|].
    apply reset_chip_ct; try done; try (by intros ??? (_ & ? & _)); constructor; done. }
  intros _. apply (ct_bind i _ _ (λ _, finished i D)); [|intros _].
  - apply ct_put; [exact (stable_and i B _ HsB (st_done_reset i))|]. intros c ev tr [(Hp & Hl & Hd) Hq]. split_and!; try done. intros Hx. by apply Hq.
  - apply (ct_weaken i _ (finished i D) _ _ (λ _ c ev tr, rest i c ev tr /\ D c ev tr)); [done| |by apply finished_rest]. intros _ c ev tr [Hr [Ht Hw]]. exact (conj (conj Hr Ht) Hw).
Qed.
Lemma perst_one : ct i (stage2 i)
  (triggered ← atom (λ w, (trigger_reset (chip_of w i), upd i (set_trigger_reset false) w));
   when triggered (
     put i (set_performing_reset true);; put i (set_last_cm2dm_seq_num_valid false);; bh_chip_cancel_bus_transfer_clear i;; bharc_disable_i2cbus i;;
     ret ← jtag_bootrom_reset_asic straps i;
     when (ret =? 0) (limit ← look i cable_power_limit; act (CableLimit i limit);; soft_reset_arc i;; jtag_bootrom_teardown i);;
     bharc_enable_i2cbus i;;
     triggered ← look i trigger_reset;
     when triggered (bh_chip_cancel_bus_transfer_set i);;
     put i (set_therm_trip_count 0);; put i (set_arc_hang_pc 0);; put i (set_performing_reset false))) (λ _, stage3 i).
Proof.
  set (D := λ c ev tr, (therm_done c ev tr /\ wdog_done c ev tr) /\ (quiet -> trigger_reset c = false)). pose proof (dealt_all i : dealt i D) as HD.
  pose proof (idle_stable _ HD) as Hid. pose proof (busy_stable i _ HD) as Hb. pose proof (busy_keeps i _ HD) as Hk.
  apply (ct_bind i _ _ (λ v : bool, if v then idle D else stage3 i)).
  { apply ct_atom; [apply st_stages|]. intros R w Hs Hi [He Hr]. cbn. rewrite length_alter. split; [|done]. split; [done|].
    pose proof (chip_of_lookup w i Hi) as Hc. intros j c. cbn. rewrite alter_lookup. destruct (chips w !! j) as [c0|] eqn:E; [|done]. intros [= <-]. specialize (Hr j c0 E).
    unfold at_ in *. repeat case_decide; subst; try done. rewrite Hc in E. injection E as <-. destruct Hr as (((Hp & Ho & Hd & Hl) & Ht) & Hw).
    destruct (trigger_reset (chip_of w i)) eqn:Et; [by split_and!|]. split; [|done]. split; [|done]. split; [|done].
    unfold rest, cancel_ok, due, pend in *. cbn. rewrite Et in Ho, Hd. by split_and!. }
  intros v. apply ct_when; [intros ->|by intros ->].
  apply (ct_bind i _ _ _ _ _ (start_busy _ HD)); intros _.
  set (B := λ c (ev : Z) tr, performing_reset c = true /\ later tr /\ D c ev tr).
  assert (HsB : stable i B) by (unfold B; repeat first [apply st_performing | apply st_later | apply (d_stable i D HD) | apply stable_and]).
  apply (ct_bind i _ _ (λ _, B)); [by apply ct_put|intros _].
  apply (ct_bind i _ _ _ _ _ (clear_busy _ HD)); intros _. apply (ct_bind i _ _ (λ _, busy D)); [by apply pres_call|intros _].
  apply (ct_bind i _ _ (λ r c ev tr, busy D c ev tr /\ (works -> r = 0))); [apply reset_asic_ct; try done|intros r].
  apply (ct_bind i _ _ (λ _ c ev tr, busy D c ev tr /\ (quiet -> served i tr))); [|intros _].
  { apply ct_when; [intros _|intros Er c ev tr [Hx Hr]; split; [done|]; intros [Hw _]; by rewrite (Hr Hw) in Er].
    apply (ct_weaken i _ (busy D) _ _ (λ _ c ev tr, busy D c ev tr /\ (quiet -> served i tr))); [by intros ??? [? _]|done|].
    apply (ct_bind i _ _ (λ _, busy D)); [by apply pres_look|intros l]. apply (ct_bind i _ _ (λ _, busy D)); [by apply pres_act|intros _].
    apply (ct_bind i _ _ (λ _ c ev tr, busy D c ev tr /\ (quiet -> served i tr))); [apply soft_reset_ct; try done; by intros ??? (_ & ? & _)|intros _].
    apply pres_act. exact (stable_and i (busy D) _ Hb (st_served i)). }
  apply (ct_bind i _ _ (λ _ c ev tr, busy D c ev tr /\ (quiet -> served i tr))); [apply pres_call; exact (stable_and i (busy D) _ Hb (st_served i))|intros _].
  apply (ct_bind i _ (triggered ← look i trigger_reset; when triggered (bh_chip_cancel_bus_transfer_set i)) _
    (λ _, put i (set_therm_trip_count 0);; put i (set_arc_hang_pc 0);; put i (set_performing_reset false)) _ (finish_cancel i _ HD)). intros _.
  pose proof (finished_stable i _ HD) as Hfs.
  apply (ct_bind i _ _ (λ _, finished i D)); [by apply ct_put|intros _]. apply (ct_bind i _ _ (λ _, finished i D)); [by apply ct_put|intros _].
  apply (ct_weaken i _ (finished i D) _ _ (λ _ c ev tr, rest i c ev tr /\ D c ev tr)); [done| |by apply finished_rest]. intros _ c ev tr [Hr [[Ht Hw] Hq]]. exact (conj (conj (conj Hr Ht) Hw) Hq).
Qed.
End one_chip.
(** All chips: from rest to having dealt with all that was urgent. *)
Lemma urgent_holds straps has_fan w : holds rest w -> holds stage3 (urgent straps has_fan w).2 /\ length (chips (urgent straps has_fan w).2) = length (chips w).
Proof.
  intros Hh. unfold urgent, mbind, M_bind.
  destruct (for_each_holds rest stage1 _ w (λ j, proj1 (st_stages j)) (λ j, proj1 (proj2 (st_stages j))) (λ i, therm_one straps has_fan i) Hh) as [H1 L1].
  fold (handle_therm_trip straps has_fan) in *. destruct (handle_therm_trip straps has_fan w) as [[] w1]. cbn [fst snd] in *.
  destruct (for_each_holds stage1 stage2 _ w1 (λ j, proj1 (proj2 (st_stages j))) (λ j, proj1 (proj2 (proj2 (st_stages j)))) (λ i, wdog_one straps has_fan i) H1) as [H2 L2].
  fold (handle_watchdog_reset straps has_fan) in *. destruct (handle_watchdog_reset straps has_fan w1) as [[] w2]. cbn [fst snd] in *.
  destruct (for_each_holds stage2 stage3 _ w2 (λ j, proj1 (proj2 (proj2 (st_stages j)))) (λ j, proj2 (proj2 (proj2 (st_stages j)))) (λ i, perst_one straps i) H2) as [H3 L3].
  fold (handle_perst straps) in *. split; [done|]. by rewrite L3, L2.
Qed.

Lemma true_or_false (b : bool) : b = true \/ b = false.
Proof. destruct b; auto. Qed.

Definition if_perst (b : bool) : Prop := if b then exists t, okirq (Perst t) else forall t, ~ okirq (Perst t).

(** ** The rest of a pass
    [perst]: whether PERST may come. If it may, the claims are on runs that have made no reset since the
    trace was [T1]. *)
Section second_half.
Context (perst : bool) (T1 : list action).
Hypothesis Hno : if_perst perst.
Definition onward (tr : list action) : Prop := later tr /\ T1 `prefix_of` tr.
Lemma st_onward i : stable i (λ _ _ tr, onward tr).
Proof. split; [done|]. intros a c ev tr [? ?]. split; [by apply later_app|by apply prefix_app_r]. Qed.
Definition reset_made : cp := λ _ _ tr, perst = true /\ later tr /\ exists tr' j, tr = T1 ++ tr' /\ WaitPgood j ∈ tr'.
Lemma st_reset_made i : stable i reset_made.
Proof.
  split; [done|]. intros a c ev tr (Hp & Hl & tr' & j & -> & Hj). split; [done|]. split; [by apply later_app|]. exists (tr' ++ [a]), j.
  rewrite <- app_assoc. split; [done|]. apply elem_of_app. by left.
Qed.
Lemma reset_made_now j c ev tr : perst = true -> onward tr -> reset_made c ev (tr ++ [WaitPgood j]).
Proof.
  intros Hp [Hl [tr' ->]]. split; [done|]. split; [by apply later_app|]. exists (tr' ++ [WaitPgood j]), j. rewrite <- app_assoc.
  split; [done|]. apply elem_of_app. right. by apply list_elem_of_singleton.
Qed.
Lemma reset_made_later c ev tr : reset_made c ev tr -> later tr.
Proof. by intros (_ & ? & _). Qed.
Context (straps : list nat) (has_fan assembly_test : bool) (i : nat).
Definition calm (D : cp) : cp := λ c ev tr, performing_reset c = false /\ cancel_ok c /\ onward tr /\ D c ev tr.
Lemma calm_stable D : dealt i D -> stable i (calm D).
Proof. intros HD. unfold calm. repeat first [apply st_performing | apply st_cancel_ok | apply st_onward | apply (d_stable i D HD) | apply stable_and]. Qed.
Lemma calm_reset D : perst = false -> dealt i D -> (forall c ev tr b, D c ev tr -> D (set_trigger_reset b c) ev tr) ->
  ct i (calm D) (bh_chip_reset_chip straps i true) (λ _ c ev tr, calm D c ev tr /\ done_reset i c tr).
Proof.
  intros Hq HD Ht. assert (Hnp : forall t, ~ okirq (Perst t)) by (pose proof Hno as H; by rewrite Hq in H).
  set (F := λ c (ev : Z) tr, performing_reset c = false /\ cancel_fault c /\ onward tr /\ D c ev tr).
  assert (HsF : stable i F) by (unfold F; repeat first [apply st_performing | apply (st_fault_no_perst i Hnp) | apply st_onward | apply (d_stable i D HD) | apply stable_and]).
  apply (ct_weaken i _ (calm D) _ _ (λ _ c ev tr, (calm D c ev tr \/ F c ev tr) /\ done_reset i c tr)); [done| |].
  { intros _ c ev tr [[HC | (Hp & Hc & Hl & Hd)] Hr]; (split; [|done]); [done|]. split_and!; try done. intros Hx. right. by apply Hc. }
  apply reset_chip_ct; try done; try (by intros ??? (_ & _ & [? _] & _)); try by apply calm_stable.
  - constructor; intros c ev tr; intros; match goal with H : F _ _ _ |- _ => destruct H as (Hp & Hc & Hl & Hd) end;
      apply (d_fields i D HD) in Hd as (H1 & H3 & H4 & H5 & H6 & H7 & H8 & _); (split; [done|]; split; [done|]; split; [done|]; by auto).
  - intros c ev tr b (Hp & Hc & Hl & Hd). split_and!; try done. by apply Ht.
  - intros c ev tr (Hp & Hc & Hl & Hd). split_and!; try done; [intros _; by left|by apply Ht].
  - intros c ev tr (Hp & Hc & Hl & Hd). apply (d_fields i D HD) in Hd as (H1 & _). by split_and!.
  - intros c ev tr (Hp & Hc & Hl & Hd). apply (d_fields i D HD) in Hd as (_ & H3 & _). refine (conj Hp (conj _ (conj Hl (H3 false)))). by intros [=].
Qed.
(** A reset that is made, where that must not be. *)
Lemma pres_reset_made : pres i reset_made (bh_chip_reset_chip straps i true).
Proof.
  apply (ct_weaken i _ reset_made _ _ (λ _ c ev tr, reset_made c ev tr \/ reset_made c ev tr)); [done|by intros _ ??? [?|?]|].
  pose proof (st_reset_made i) as Hs. apply pres_reset_chip; try done. intros c ev tr H. by apply Hs.
Qed.
Definition fall_posted c (ev : Z) : Prop := pgood_fall_triggered c = true -> pgood_severe_fault c = true \/ Z.testbit ev 3 = true.
Definition rise_posted c (ev : Z) : Prop := pgood_rise_triggered c = true -> pgood_severe_fault c = true \/ Z.testbit ev 3 = true.
Lemma st_fall : stable i (λ c ev _, fall_posted c ev).
Proof.
  split; [|done]. unfold fall_posted. intros k c ev tr _ Hp. isr_cases k; intros Hf; try (right; by apply lor_bit_r); destruct (Hp Hf); auto using lor_bit.
Qed.
Lemma st_rise : stable i (λ c ev _, rise_posted c ev).
Proof.
  split; [|done]. unfold rise_posted. intros k c ev tr _ Hp. isr_cases k; intros Hf; try (right; by apply lor_bit_r); destruct (Hp Hf); auto using lor_bit.
Qed.
Lemma st_severe : stable i (λ c _ _, pgood_severe_fault c = true).
Proof. split; [|done]. intros k c ev tr _ Hp. by isr_cases k. Qed.
Definition urgent_done : cp := λ c ev tr, therm_done c ev tr /\ wdog_done c ev tr.
Definition D_fall : cp := λ c ev tr, urgent_done c ev tr /\ fall_posted c ev.
Definition D_all : cp := λ c ev tr, urgent_done c ev tr /\ posted_pgood c ev.
Lemma dealt_fall : dealt i D_fall.
Proof. unfold D_fall. split; [apply stable_and; [apply (dealt_both i)|apply st_fall]|]. intros c ev tr H. all_fields H. Qed.
Lemma dealt_pgood : dealt i D_all.
Proof. unfold D_all. split; [apply stable_and; [apply (dealt_both i)|apply st_posted_pgood]|]. intros c ev tr H. all_fields H. Qed.
(** At rest with nothing that went unnoticed. *)
Definition at_rest (D : cp) : cp := λ c ev tr, calm D c ev tr /\ due i c tr /\ (quiet -> trigger_reset c = false).
Definition settled (D : cp) : cp := λ c ev tr, reset_made c ev tr \/ at_rest D c ev tr.
Lemma at_rest_stable D : dealt i D -> stable i (at_rest D).
Proof. intros HD. unfold at_rest. apply stable_and; [by apply calm_stable|]. apply stable_and; [apply st_due|apply (st_flag _ trigger_reset)]. Qed.
Lemma settled_stable D : dealt i D -> stable i (settled D).
Proof. intros HD. apply stable_or; [apply st_reset_made|by apply at_rest_stable]. Qed.
Lemma stage3_settled c ev tr : T1 `prefix_of` tr -> stage3 i c ev tr -> settled urgent_done c ev tr.
Proof. intros Hp H. right. unfold stage3, stage2, stage1, rest, at_rest, calm, onward, urgent_done in *. tauto. Qed.
Lemma reset_at_rest D : dealt i D -> (forall c ev tr b, D c ev tr -> D (set_trigger_reset b c) ev tr) ->
  ct i (at_rest D) (bh_chip_reset_chip straps i true) (λ _, settled D).
Proof.
  intros HD Ht. pose proof Hno as Hp. destruct (true_or_false perst) as [Ep|Ep]; rewrite Ep in Hp.
  - destruct Hp as [t Hok]. assert (Hnq : ~ quiet) by (intros [_ Hq]; by apply (Hq _ Hok)).
    apply (ct_weaken i _ (calm D) _ _ (λ _ c ev tr, reset_made c ev tr \/ calm D c ev tr)); [by intros ??? [? _]| |].
    { intros _ c ev tr [?|Hc]; [by left|right]. split; [done|]. split; intros Hq; by destruct (Hnq Hq). }
    pose proof (st_reset_made i) as Hs. apply pres_reset_chip; try done; try by apply calm_stable.
    + intros c ev tr (Hp & Ho & Hl & Hd). split_and!; try done; [intros _; by left|by apply Ht].
    + intros c ev tr (Hp & Ho & Hl & Hd). apply (d_fields i D HD) in Hd as (H1 & _). by split_and!.
    + intros c ev tr (Hp & Ho & Hl & Hd). apply (d_fields i D HD) in Hd as (_ & H3 & _). refine (conj Hp (conj _ (conj Hl (H3 false)))). by intros [=].
    + intros c ev tr (_ & _ & Hl & _). by apply reset_made_now.
  - apply (ct_weaken i _ (calm D) _ _ (λ _ c ev tr, calm D c ev tr /\ done_reset i c tr)); [by intros ??? [? _]| |by apply calm_reset].
    intros _ c ev tr [Hc Hq]. right. split; [done|]. split; [intros Hx _; left; by apply Hq|intros Hx; by apply Hq].
Qed.
Lemma settled_reset D : dealt i D -> (forall c ev tr b, D c ev tr -> D (set_trigger_reset b c) ev tr) -> ct i (settled D) (bh_chip_reset_chip straps i true) (λ _, settled D).
Proof.
  intros HD Ht. apply (ct_weaken i _ (settled D) _ _ (λ _ c ev tr, reset_made c ev tr \/ settled D c ev tr)); [done|by intros _ ??? [?|?]; [left|]|].
  apply ct_or; [exact pres_reset_made|by apply reset_at_rest].
Qed.
Lemma pgood_at_rest : ct i (at_rest urgent_done) (handle_pgood_event straps assembly_test i) (λ _, settled D_all).
Proof.
  pose proof (at_rest_stable _ (dealt_both i : dealt i urgent_done)) as S0. pose proof (at_rest_stable _ dealt_fall) as S1. pose proof (settled_stable _ dealt_fall) as S2.
  unfold handle_pgood_event.
  apply (ct_bind i _ _ (λ v c ev tr, at_rest urgent_done c ev tr /\ (v = false -> fall_posted c ev))).
  { apply ct_look; [done|]. intros c ev tr H. split; [done|]. intros Hf Hx. congruence. }
  intros v1. assert (Sf : stable i (λ c ev _, v1 = false -> fall_posted c ev)).
  { split; [intros k c ev tr Hk H Hv; by apply (proj1 st_fall), H|done]. }
  apply (ct_bind i _ _ (λ v c ev tr, (at_rest urgent_done c ev tr /\ (v1 = false -> fall_posted c ev)) /\ (v = true -> pgood_severe_fault c = true))).
  { apply ct_look; [exact (stable_and i _ _ S0 Sf)|]. done. }
  intros v2. apply (ct_bind i _ _ (λ _, at_rest D_fall)).
  { apply ct_when.
    - intros _. apply (ct_weaken i _ (at_rest urgent_done) _ _ (λ _, at_rest D_fall)); [by intros ??? [[? _] _]|done|].
      apply (ct_bind i _ _ (λ _, at_rest urgent_done)); [by apply pres_input|intros now].
      apply (ct_bind i _ _ (λ _, at_rest urgent_done)); [by apply pres_modify|intros _]. unfold bh_chip_assert_asic_reset.
      apply (ct_bind i _ _ (λ _, at_rest urgent_done)); [apply pres_bind; [by apply pres_act|intros _; by apply ct_put]|intros _].
      apply (ct_bind i _ _ (λ _, at_rest urgent_done)); [by apply pres_look|intros last].
      apply (ct_bind i _ _ (λ _, at_rest urgent_done)); [apply pres_when; by apply ct_put|intros _].
      apply (ct_bind i _ _ (λ _, at_rest urgent_done)); [by apply ct_put|intros _].
      apply ct_put; [done|]. intros c ev tr ((Hp & Hc & Hl & Hd) & Hdue & Hq). by split_and!.
    - intros Hv c ev tr [[(Hc & Hdue & Hq) Hf] Hs2]. destruct Hc as (Hp & Ho & Hl & Hd). refine (conj (conj Hp (conj Ho (conj Hl (conj Hd _)))) (conj Hdue Hq)).
      apply andb_false_iff in Hv as [Hv|Hv%negb_false_iff]; [by apply Hf|]. intros _. left. by apply Hs2. }
  intros _. apply (ct_bind i _ _ (λ v c ev tr, at_rest D_fall c ev tr /\ (v = false -> rise_posted c ev))).
  { apply ct_look; [done|]. intros c ev tr H. split; [done|]. intros Hf Hx. congruence. }
  intros v3. assert (Sr : stable i (λ c ev _, v3 = false -> rise_posted c ev)).
  { split; [intros k c ev tr Hk H Hv; by apply (proj1 st_rise), H|done]. }
  apply (ct_bind i _ _ (λ v c ev tr, (at_rest D_fall c ev tr /\ (v3 = false -> rise_posted c ev)) /\ (v = true -> pgood_severe_fault c = true))).
  { apply ct_look; [exact (stable_and i _ _ S1 Sr)|]. done. }
  assert (Hboth : forall c ev tr, at_rest D_fall c ev tr -> rise_posted c ev -> at_rest D_all c ev tr).
  { intros c ev tr ((Hp & Ho & Hl & Hd & Hf) & Hdue & Hq) Hr. refine (conj (conj Hp (conj Ho (conj Hl (conj Hd _)))) (conj Hdue Hq)). intros [Hx|Hx]; [by apply Hf|by apply Hr]. }
  intros v4. apply ct_when.
  - intros _. apply (ct_weaken i _ (at_rest D_fall) _ _ (λ _, settled D_all)); [by intros ??? [[? _] _]|done|].
    apply (ct_bind i _ _ (λ _, settled D_fall)); [apply reset_at_rest; [apply dealt_fall|done]|intros _].
    apply (ct_bind i _ _ (λ _, settled D_fall)); [apply pres_when; by apply pres_modify|intros _].
    apply ct_put; [done|]. intros c ev tr [Hm|Hc]; [by left|right]. by apply Hboth.
  - intros Hv c ev tr [[Hc Hr] Hs2]. right. apply Hboth; [done|]. apply andb_false_iff in Hv as [Hv|Hv%negb_false_iff]; [by apply Hr|]. intros _. left. by apply Hs2.
Qed.
Lemma pgood_one : ct i (settled urgent_done) (handle_pgood_event straps assembly_test i) (λ _, settled D_all).
Proof.
  apply (ct_weaken i _ (settled urgent_done) _ _ (λ _ c ev tr, reset_made c ev tr \/ settled D_all c ev tr)); [done|by intros _ ??? [?|?]; [left|]|].
  apply ct_or; [|apply pgood_at_rest]. change (pres i reset_made (handle_pgood_event straps assembly_test i)). pose proof (st_reset_made i) as Hs. unfold handle_pgood_event, bh_chip_assert_asic_reset.
  repeat first [apply pres_reset_made | apply pres_bind; [|intros] | apply pres_when | by apply pres_act | by apply pres_input | by apply pres_look | by apply pres_modify | by apply ct_put].
Qed.
Lemma pres_for_each F (f : nat -> M unit) : (forall j, pres i F (f j)) -> pres i F (for_each_chip f).
Proof. intros Hf R w. unfold for_each_chip. by apply (ct_for_list i F _ f Hf). Qed.
Lemma pres_update_fan F b : stable i F -> pres i F (update_fan_speed has_fan b).
Proof.
  intros Hs. unfold update_fan_speed. apply pres_when, pres_bind; [by apply ct_world|intros speed]. apply pres_bind.
  - apply pres_modify; [done|]. intros w. by case_match.
  - intros _. apply pres_when, pres_for_each. intros j. apply pres_bind; [by apply pres_call|intros; apply pres_ret].
Qed.
Lemma pres_ping F n msg : stable i F -> pres i F (ping_loop n i msg).
Proof.
  intros Hs. induction n as [|n IH]; cbn [ping_loop]; [apply pres_ret|]. apply pres_bind; [apply pres_if; by apply pres_call|intros r; by apply pres_when].
Qed.
Lemma process_pres id msg p : msg_processors straps has_fan assembly_test id i msg = Some p -> pres i (settled D_all) p.
Proof.
  pose proof (settled_stable _ dealt_pgood) as S0. unfold msg_processors.
  repeat (case_match; [intros [= <-]|]); [..|done].
  - unfold process_reset_req. apply pres_bind; [|intros; apply pres_ret]. case_match.
    + apply pres_bind; [apply ct_put; [done|]; intros c ev tr [Hm|((Hp & Ho & Hl & Hd) & Hdue & Hq)]; [by left|right; by split_and!]|intros _].
      apply pres_bind; [apply settled_reset; [apply dealt_pgood|done]|intros; apply pres_ret].
    + apply pres_if; [by apply pres_act|apply pres_ret].
  - unfold process_ping. apply pres_bind; [by apply pres_ping|intros; apply pres_ret].
  - unfold process_fan_speed_update. apply pres_bind; [by apply ct_put|intros _]. apply pres_bind; [by apply pres_update_fan|intros; apply pres_ret].
  - unfold process_forced_fan_speed_update. apply pres_bind; [by apply ct_put|intros _]. apply pres_bind; [by apply pres_update_fan|intros; apply pres_ret].
  - unfold process_id_ready. apply pres_bind; [by apply ct_put|intros; apply pres_ret].
  - unfold process_auto_reset_timeout_update. apply pres_bind; [by apply ct_put|intros _]. apply pres_bind; [by apply ct_put|intros; apply pres_ret].
  - unfold process_heartbeat_update. apply pres_bind; [by apply pres_look|intros b]. apply pres_bind; [|intros; apply pres_ret]. apply pres_when.
    apply pres_bind; [by apply ct_put|intros _]. apply pres_bind; [by apply pres_look|intros t]. apply pres_when. by apply ct_put.
  - unfold process_led_blink_request. apply pres_bind; [|intros; apply pres_ret]. repeat apply pres_if; try apply pres_ret; try by apply pres_modify.
    apply pres_bind; [by apply pres_modify|intros _; by apply pres_modify].
  - apply pres_ret.
Qed.
Lemma poll_pres n : pres i (settled D_all) (poll_loop straps has_fan assembly_test n i).
Proof.
  pose proof (settled_stable _ dealt_pgood) as S0. induction n as [|n IH]; cbn [poll_loop]; [apply pres_ret|]. apply pres_bind.
  - unfold get_cm2dm_message. apply pres_bind; [apply ct_world; [done|done|]; intros w; by case_match|intros p]. apply pres_bind; [|intros; apply pres_ret].
    apply pres_when, pres_bind; [by apply pres_act|intros _]. apply ct_put; [done|]. intros c ev tr [Hm|((Hp & Ho & Hl & Hd) & Hdue & Hq)]; [by left|right; by split_and!].
  - intros m. apply pres_if; [apply pres_ret|]. apply pres_if; [apply pres_ret|]. apply pres_bind; [by apply pres_look|intros valid]. apply pres_bind; [by apply pres_look|intros last].
    apply pres_if; [done|]. apply pres_bind; [by apply ct_put|intros _]. apply pres_bind; [by apply ct_put|intros _].
    destruct (msg_processors straps has_fan assembly_test (msg_id (rmsg m)) i (mdata (rmsg m))) as [p|] eqn:E; [|done].
    apply pres_bind; [by apply (process_pres _ _ _ E)|intros stop]. apply pres_if; [apply pres_ret|done].
Qed.
Context (bl_version app_version : Z) (primary : nat).
Lemma init_pres : pres i (settled D_all)
  (needs ← look i arc_needs_init_msg;
   when needs (
     r1 ← bh_chip_set_static_info bl_version app_version i;
     when (r1 =? 0) (
       limit ← atom (λ w, (max_power w, w));
       r2 ← bh_chip_set_input_power_lim i limit;
       when (r2 =? 0) (
         count ← look i therm_trip_count;
         r3 ← bh_chip_set_therm_trip_count i count;
         when (r3 =? 0) (put i (set_arc_needs_init_msg false)))))).
Proof.
  pose proof (settled_stable _ dealt_pgood) as S0. apply pres_bind; [by apply pres_look|intros needs]. apply pres_when. unfold bh_chip_set_static_info.
  apply pres_bind; [apply pres_bind; [by apply ct_world|intros; by apply pres_call]|intros r1]. apply pres_when.
  apply pres_bind; [by apply ct_world|intros limit]. apply pres_bind; [by apply pres_call|intros r2]. apply pres_when. apply pres_bind; [by apply pres_look|intros count].
  apply pres_bind; [by apply pres_call|intros r3]. apply pres_when. by apply ct_put.
Qed.
Lemma reports_pres F : stable i F -> pres i F board_power_update /\ pres i F (fan_rpm_feedback has_fan) /\ pres i F (send_logs_to_smc primary).
Proof.
  intros Hs. split_and!.
  - unfold board_power_update. apply pres_bind; [by apply pres_input|intros rc]. apply pres_when, pres_bind; [by apply pres_input|intros v].
    apply pres_for_each. intros j. apply pres_bind; [by apply pres_call|intros; apply pres_ret].
  - unfold fan_rpm_feedback. apply pres_when, pres_bind; [by apply pres_input|intros v]. apply pres_for_each. intros j. apply pres_bind; [by apply pres_call|intros; apply pres_ret].
  - unfold send_logs_to_smc, bh_chip_write_logs. apply pres_bind; [by apply pres_input|intros n]. apply pres_bind; [by apply ct_world|intros data]. apply pres_when.
    apply pres_bind; [apply pres_if; [apply pres_ret|by apply pres_call]|intros rc]. apply pres_when. by apply pres_modify.
Qed.
End second_half.
Lemma holds_impl (P Q : nat -> cp) w : (forall i c ev tr, P i c ev tr -> Q i c ev tr) -> holds P w -> holds Q w.
Proof. intros H [He Hr]. split; [done|]. intros j c Hj. by apply H, Hr. Qed.
Lemma pres_holds {A} (P : nat -> cp) (m : M A) w : (forall i, stable i (P i)) -> pres 0 (P 0%nat) m -> (0 < length (chips w))%nat -> holds P w ->
  holds P (m w).2 /\ length (chips (m w).2) = length (chips w).
Proof.
  intros Hs Hm Hn Hh. assert (E : forall j c ev tr, at_ 0 (P 0%nat) P j c ev tr <-> P j c ev tr) by (intros j c ev tr; unfold at_; by case_decide; subst).
  destruct (Hm P w Hs Hn) as [H1 L1]; [by apply (holds_impl P); [intros; apply E|]|]. split; [|done]. by apply (holds_impl (at_ 0 (P 0%nat) P)); [intros; apply E|].
Qed.
Section whole.
Context (perst : bool) (T1 : list action).
Hypothesis Hno : if_perst perst.
Context (straps : list nat) (has_fan assembly_test : bool) (bl_version app_version : Z) (primary : nat).
Definition stage4 i : cp := settled perst T1 i D_all.
Lemma st_stage4 i : stable i (stage4 i).
Proof. apply settled_stable, dealt_pgood. Qed.
Lemma event_holds (ev e : Z) (m : M unit) w : pres 0 (stage4 0) m -> (0 < length (chips w))%nat -> holds stage4 w ->
  holds stage4 (on_event ev e m w).2 /\ length (chips (on_event ev e m w).2) = length (chips w).
Proof. intros Hm. unfold on_event. apply pres_holds; [apply st_stage4|]. by apply pres_when. Qed.
Lemma messages_holds (ev e : Z) w : holds stage4 w -> holds stage4 (on_event ev e (handle_cm2dm_messages straps has_fan assembly_test) w).2 /\
  length (chips (on_event ev e (handle_cm2dm_messages straps has_fan assembly_test) w).2) = length (chips w).
Proof. intros Hh. unfold on_event, when. case_match; [|done]. apply (for_each_holds stage4 stage4); [apply st_stage4..| |done]. intros j. by apply poll_pres. Qed.
Lemma routine_holds ev w : (0 < length (chips w))%nat -> T1 = trace w -> holds stage3 w ->
  holds stage4 (routine straps has_fan assembly_test bl_version app_version primary ev w).2 /\
  length (chips (routine straps has_fan assembly_test bl_version app_version primary ev w).2) = length (chips w).
Proof.
  intros Hn HT Hh. assert (Hh' : holds (λ i, settled perst T1 i urgent_done) w).
  { destruct Hh as [He Hr]. split; [done|]. intros j c Hj. apply stage3_settled; [by rewrite HT|by apply Hr]. }
  unfold routine, mbind, M_bind.
  destruct (for_each_holds (λ i, settled perst T1 i urgent_done) stage4 (handle_pgood_event straps assembly_test) w) as [H1 L1];
    [intros j; apply settled_stable, (dealt_both j)|apply st_stage4|by intros j; apply pgood_one|done|]. change (for_each_chip _) with (handle_pgood_change straps assembly_test) in H1, L1.
  destruct (handle_pgood_change straps assembly_test w) as [[] w1]. cbn [fst snd] in *.
  destruct (for_each_holds stage4 stage4 _ w1 st_stage4 st_stage4 (λ j, init_pres perst T1 j bl_version app_version) H1) as [H2 L2].
  change (for_each_chip _) with (send_init_data bl_version app_version) in H2, L2. destruct (send_init_data bl_version app_version w1) as [[] w2]. cbn [fst snd] in *.
  destruct (reports_pres has_fan 0 primary (stage4 0) (st_stage4 0)) as (P1 & P2 & P3).
  destruct (event_holds ev TT_EVENT_BOARD_POWER_TO_SMC board_power_update w2 P1 ltac:(lia) H2) as [H3 L3]. destruct (on_event _ _ board_power_update w2) as [[] w3]. cbn [fst snd] in *.
  destruct (event_holds ev TT_EVENT_FAN_RPM_TO_SMC (fan_rpm_feedback has_fan) w3 P2 ltac:(lia) H3) as [H4 L4]. destruct (on_event _ _ (fan_rpm_feedback has_fan) w3) as [[] w4]. cbn [fst snd] in *.
  destruct (messages_holds ev TT_EVENT_CM2DM_POLL w4 H4) as [H5 L5]. destruct (on_event _ _ (handle_cm2dm_messages straps has_fan assembly_test) w4) as [[] w5]. cbn [fst snd] in *.
  destruct (event_holds ev TT_EVENT_LOGS_TO_SMC (send_logs_to_smc primary) w5 P3 ltac:(lia) H5) as [H6 L6]. split; [done|]. lia.
Qed.
End whole.
End chips.

(** * Passes *)
Section pass_proofs.
Context (straps : list nat) (has_fan assembly_test : bool) (bl_version app_version : Z) (primary : nat).
Local Notation run1 := (pass straps has_fan assembly_test bl_version app_version primary).
Local Notation runs := (passes straps has_fan assembly_test bl_version app_version primary).
Lemma stage3_mono ok1 ok2 works T0 was i c ev tr : (quiet ok2 works -> quiet ok1 works) -> stage3 ok1 works T0 was i c ev tr -> stage3 ok2 works T0 was i c ev tr.
Proof. unfold stage3, stage2, stage1, rest, due, therm_done, wdog_done. intros Hq. tauto. Qed.
(** The first half of a pass, up to its urgent handlers. *)
Definition halfway (e : env) w : world :=
  let w := set_inbox (e_inbox e) (set_inputs (e_inputs e) (set_rcs (e_rcs e) (set_sched (e_urgent e) w))) in
  (urgent straps has_fan (tt_event_wait w).2).2.
Lemma pass_stages ok1 ok2 works T0 was perst e w : if_perst ok2 perst -> (quiet ok2 works -> quiet ok1 works) ->
  Forall (Forall ok1) (e_urgent e) -> Forall (Forall ok2) (e_routine e) -> (works -> Forall (λ r, r = 0) (e_rcs e)) -> (0 < length (chips w))%nat ->
  (forall i c, chips w !! i = Some c -> rest ok1 works T0 was i c 0 (trace w)) ->
  (forall i c, chips (run1 e w) !! i = Some c -> stage4 ok2 works T0 was perst (trace (halfway e w)) i c (events (run1 e w)) (trace (run1 e w))) /\
  length (chips (run1 e w)) = length (chips w).
Proof.
  intros Hno Hq Hu Hr Hw Hn Hrest. unfold pass, halfway.
  set (w0 := set_inbox (e_inbox e) (set_inputs (e_inputs e) (set_rcs (e_rcs e) (set_sched (e_urgent e) w)))).
  assert (H0 : holds ok1 works (rest ok1 works T0 was) w0) by (split; [by split|]; exact Hrest).
  destruct (deliver_holds ok1 works _ w0 (λ j, proj1 (st_stages ok1 works T0 was j)) H0) as [[H1 H1'] L1]. unfold tt_event_wait, atom. cbn [fst snd].
  destruct (urgent_holds ok1 works T0 was straps has_fan (set_events 0 (deliver w0))) as [[[_ H2] H2'] L2]; [by split; [exact H1|exact H1']|].
  destruct (urgent straps has_fan (set_events 0 (deliver w0))) as [[] w2]. cbn [fst snd] in *. assert (L : length (chips w2) = length (chips w)) by exact (eq_trans L2 L1).
  destruct (routine_holds ok2 works T0 was perst (trace w2) Hno straps has_fan assembly_test bl_version app_version primary (events (deliver w0)) (set_sched (e_routine e) w2)) as [[_ H3] L3].
  { change (chips (set_sched (e_routine e) w2)) with (chips w2). rewrite L. exact Hn. }
  { done. }
  { split; [by split|]. intros j c Hj. apply (stage3_mono ok1); [done|]. by apply H2'. }
  destruct (routine _ _ _ _ _ _ _ (set_sched (e_routine e) w2)) as [[] w3]. cbn [fst snd] in *. split; [exact H3|]. exact (eq_trans L3 L).
Qed.
(** Between passes: no reset under way; a bus whose transfers are cancelled has something waiting for it;
    and what waits has an event posted, so that the loop goes on. *)
Definition head_ok w : Prop := forall i c, chips w !! i = Some c ->
  performing_reset c = false /\ cancel_ok c /\ posted_therm c (events w) /\ posted_wdog c (events w) /\ posted_pgood c (events w).
(** In a pass whose second half makes resets, for messages or for power-good, PERST does not come in that half. *)
Definition not_perst (k : irq) : Prop := match k with Perst _ => False | _ => True end.
Definition starts_reset (a : action) : bool := match a with WaitPgood _ => true | _ => false end.
Definition makes_no_reset (e : env) w : Prop :=
  existsb starts_reset (drop (length (trace (halfway e w))) (trace (run1 e w))) = false.
Definition env_wf (e : env) w : Prop := Forall (Forall not_perst) (e_routine e) \/ makes_no_reset e w.
Fixpoint envs_wf (es : list env) w : Prop := match es with [] => True | e :: es => env_wf e w /\ envs_wf es (run1 e w) end.
Lemma pass_head e w : (0 < length (chips w))%nat -> env_wf e w -> head_ok w -> head_ok (run1 e w) /\ length (chips (run1 e w)) = length (chips w).
Proof.
  intros Hn He Hh.
  assert (Hrun : forall ok2 perst, if_perst ok2 perst -> Forall (Forall ok2) (e_routine e) -> (perst = true -> makes_no_reset e w) ->
    head_ok (run1 e w) /\ length (chips (run1 e w)) = length (chips w)).
  { intros ok2 perst Hp Hr Hm. destruct (pass_stages (λ _, True) ok2 False (trace w) (λ _, False) perst e w) as [H1 L1]; try done.
    - by intros [[] _].
    - apply list.Forall_forall. intros b _. by apply list.Forall_forall.
    - intros i c Hc. destruct (Hh i c Hc) as (Hp' & Ho & _). split_and!; [done|done|by intros [[] _]|done].
    - split; [|done]. intros i c Hc. destruct (H1 i c Hc) as [(E & _ & tr & j & Et & Hj)|((Hp' & Ho & Hl & ([Ht _] & [Hw _]) & Hg) & _)]; [|done].
      specialize (Hm E). unfold makes_no_reset in Hm. rewrite Et, drop_app_length in Hm.
      assert (existsb starts_reset tr = true) by (apply existsb_exists; exists (WaitPgood j); split; [by apply list_elem_of_In|done]). congruence. }
  destruct He as [He|He].
  - apply (Hrun not_perst false); [by intros t []|done|done].
  - apply (Hrun (λ _, True) true); [by exists 0|apply list.Forall_forall; intros b _; by apply list.Forall_forall|done].
Qed.
Lemma passes_head es : forall w, (0 < length (chips w))%nat -> envs_wf es w -> head_ok w -> head_ok (runs es w) /\ length (chips (runs es w)) = length (chips w).
Proof.
  induction es as [|e es IH]; intros w Hn Hes Hh; [done|]. destruct Hes as [He Hes]. destruct (pass_head e w Hn He Hh) as [H1 L1].
  destruct (IH (run1 e w)) as [H2 L2]; [lia|done|done|]. split; [done|]. etrans; [exact L2|exact L1].
Qed.
(** A pass without further interrupts in which the drivers work. *)
Definition env_quiet (e : env) : Prop := e_urgent e = [] /\ e_routine e = [] /\ Forall (λ r, r = 0) (e_rcs e).
Lemma pass_quiet e w : (0 < length (chips w))%nat -> env_quiet e -> head_ok w ->
  (forall i c, chips (run1 e w) !! i = Some c -> ~ pend c /\ cancelled c = false) /\
  (forall i c, chips w !! i = Some c -> pend c -> exists tr, trace (run1 e w) = trace w ++ tr /\ SoftReset i ∈ tr).
Proof.
  intros Hn (E1 & E2 & Hrc) Hh. set (was i := exists c, chips w !! i = Some c /\ pend c).
  assert (Q : quiet (λ _ : irq, False) True) by (split; [done|]; by intros k []).
  destruct (pass_stages (λ _, False) (λ _, False) True (trace w) was false e w) as [H1 L1]; try done.
  - by intros t [].
  - by rewrite E1.
  - by rewrite E2.
  - intros i c Hc. destruct (Hh i c Hc) as (Hp & Ho & _). split_and!; [done|done| |done]. intros _ (c' & Hc' & Hx). right. by simplify_eq.
  - assert (Hnp : forall i c, chips (run1 e w) !! i = Some c -> ~ pend c).
    { intros i c Hc. destruct (H1 i c Hc) as [[[=] _]|((_ & _ & _ & ([_ Ht] & [_ Hw]) & _) & _ & Htr)]. unfold pend. rewrite (Ht Q), (Hw Q), (Htr Q). naive_solver. }
    split.
    + intros i c Hc. split; [by apply (Hnp i)|]. destruct (H1 i c Hc) as [[[=] _]|((_ & Ho & _) & _)]. destruct (cancelled c) eqn:E; [|done]. destruct (Hnp i c Hc). exact (Ho E).
    + intros i c Hc Hx. destruct (lookup_lt_is_Some_2 (chips (run1 e w)) i) as [c' Hc']; [rewrite L1; by eapply lookup_lt_Some|].
      destruct (H1 i c' Hc') as [[[=] _]|(_ & Hd & _)]. destruct (Hd Q) as [(tr & -> & Htr)|Hp]; [by exists c|by exists tr|]. by destruct (Hnp i c' Hc').
Qed.
End pass_proofs.

(** C14. Interrupts fall into the loop anywhere, and drivers answer anything, but PERST does not come in
    the second half of a pass (power-good, messages, reports) that makes a reset there. Then between
    passes no chip's bus is cancelled unless its PERST, trip or watchdog waits to be served; a waiting trip
    or watchdog, and a waiting change of power-good unless the chip is held for a severe fault, has its
    event posted (a reset that failed, or PERST, waits for the next pass whatever starts that). And a pass
    without further interrupts, in which the drivers work, resets every chip that had a trip, a watchdog
    or a PERST pending, and leaves none of them pending and no bus cancelled. *)
Theorem faults_served (straps : list nat) (has_fan assembly_test : bool) (bl_version app_version : Z) (primary : nat) (es : list env) (w : world) :
  (0 < length (chips w))%nat -> head_ok w -> envs_wf straps has_fan assembly_test bl_version app_version primary es w ->
  let v := passes straps has_fan assembly_test bl_version app_version primary es w in
  head_ok v /\
  forall e, env_quiet e -> let v' := pass straps has_fan assembly_test bl_version app_version primary e v in
    (forall i c, chips v' !! i = Some c -> ~ pend c /\ cancelled c = false) /\
    (forall i c, chips v !! i = Some c -> pend c -> exists tr, trace v' = trace v ++ tr /\ SoftReset i ∈ tr).
Proof.
  intros Hn Hh Hes v. destruct (passes_head straps has_fan assembly_test bl_version app_version primary es w Hn Hes Hh) as [H1 L1]. split; [exact H1|].
  intros e He. apply pass_quiet; [fold v in L1; lia|done|exact H1].
Qed.

(** Chip 1 trips while the first pass reads the flags, PERST comes during its reset, and the chip's bus
    switch fails once; meanwhile chip 0 loses its power-good. PERST comes again while the second pass talks
    to the chips, of which chip 0 asks for a slow fan. *)
Definition stormy : env :=
  {| e_urgent := [[Every20ms]; [ThermTrip 1; Every20ms]; []; []; []; []; []; []; []; [Perst 7]; [Expired 0]]; e_routine := [[Pgood 0 false]]; e_rcs := [-5];
     e_inputs := [5000]; e_inbox := λ _, [] |}.
Definition late_perst : env :=
  {| e_urgent := []; e_routine := replicate 20 [] ++ [[Perst 9]; [ThermTrip 0]]; e_rcs := []; e_inputs := []; e_inbox := λ i, match i with O => [fan_request 1 3 40] | _ => [] end |}.
Lemma booted_head : head_ok booted.
Proof. intros [|[|i]] c Hc; vm_compute in Hc; simplify_eq; vm_compute; intuition congruence. Qed.
Lemma stormy_wf : envs_wf [] true false 1 2 0 [stormy; late_perst] booted.
Proof. split; [left; by repeat constructor|]. split; [|done]. right. vm_compute. reflexivity. Qed.
Lemma faults_served_witness :
  let run := passes [] true false 1 2 0 in let v := run [stormy; late_perst] booted in
  head_ok v /\
  forall e, env_quiet e -> let v' := pass [] true false 1 2 0 e v in
    (forall i c, chips v' !! i = Some c -> ~ pend c /\ cancelled c = false) /\
    (forall i c, chips v !! i = Some c -> pend c -> exists tr, trace v' = trace v ++ tr /\ SoftReset i ∈ tr).
Proof.
  intros run v. apply (faults_served [] true false 1 2 0 [stormy; late_perst] booted).
  - vm_compute. lia.
  - exact booted_head.
  - exact stormy_wf.
Defined.
(** What is pending after the stormy pass and a calm one. *)
Lemma stormy_run :
  let v := passes [] true false 1 2 0 [stormy; late_perst] booted in
  pending_of (pass [] true false 1 2 0 calm_env v) = [(false, false, false, false); (false, false, false, false)] /\ pwm v = 255.
Proof. vm_compute. done. Qed.
