(* ===== verification/DmcFan.v ===== *)
(** The fan of the board, whose speed the board controller (Dmc.v) makes of what its chips ask for and of
    their faults. *)
From stdpp Require Import prelude list numbers.
From S2P Require Import Prelude Cm2Dm Dmc DmcFaults.
Open Scope Z_scope.

(** * The fan *)
Definition full c : Prop := fan_speed c = 100 /\ fan_speed_forced c = true.
Definition duty (speed : Z) : Z := DIV_ROUND_UP (speed * UINT8_MAX) 100.
Definition in_percent c : Prop := 0 <= fan_speed c <= 100.
Lemma requested_range cs : Forall in_percent cs -> 0 <= requested cs <= 100.
Proof. induction 1 as [|c cs Hc _ IH]; cbn [requested foldr]; [lia|]. fold (requested cs). unfold in_percent in Hc. lia. Qed.
Lemma forced_range cs : Forall in_percent cs -> 0 <= forced cs <= 100.
Proof. induction 1 as [|c cs Hc _ IH]; cbn [forced foldr]; [lia|]. fold (forced cs). unfold in_percent in Hc. destruct (fan_speed_forced c); lia. Qed.
Lemma board_range cs : Forall in_percent cs -> 0 <= board_fan_speed cs <= 100.
Proof. intros H. unfold board_fan_speed. pose proof (forced_range cs H). pose proof (requested_range cs H). case_match; lia. Qed.
Lemma forced_ge cs c : c ∈ cs -> full c -> 100 <= forced cs.
Proof.
  intros Hc [Hs Hf]. induction cs as [|c' cs IH]; [by apply not_elem_of_nil in Hc|]. cbn [forced foldr]. fold (forced cs).
  apply elem_of_cons in Hc as [<-|Hc]; [rewrite Hf; lia|]. specialize (IH Hc). lia.
Qed.
Lemma board_full cs c : Forall in_percent cs -> c ∈ cs -> full c -> board_fan_speed cs = 100.
Proof. intros H Hc Hf. unfold board_fan_speed. pose proof (forced_range cs H). pose proof (forced_ge cs c Hc Hf). case_match; zb; lia. Qed.
Lemma duty_range s : 0 <= s <= 100 -> 0 <= duty s <= UINT8_MAX.
Proof. intros H. unfold duty, DIV_ROUND_UP, UINT8_MAX. split; [apply Z.div_pos; lia|]. apply Z.lt_succ_r, Z.div_lt_upper_bound; lia. Qed.
Definition fan_message (p : poll) : bool :=
  (msg_id (rmsg (polled p)) =? id_num kCm2DmMsgIdFanSpeedUpdate) || (msg_id (rmsg (polled p)) =? id_num kCm2DmMsgIdForcedFanSpeedUpdate).
Definition percent_of (p : poll) : Z := FIELD_GET (GENMASK 7 0) (mdata (rmsg (polled p))).
Section fan_proofs.
(** [hold]: the chips that hold the fan at full speed; they are among [mute], those that send no request. *)
Context (n : nat) (hold mute : nat -> Prop).
Definition inbox_ok w : Prop := forall i p, p ∈ inbox w i -> fan_message p = true -> 0 <= percent_of p <= 100 /\ ~ mute i.
Definition chips_ok w : Prop := length (chips w) = n /\ (forall i c, chips w !! i = Some c -> in_percent c /\ (hold i -> full c)) /\ inbox_ok w.
Definition fan_inv w : Prop := chips_ok w /\ pwm w = duty (board_fan_speed (chips w)).
(** What of the world matters to the fan. *)
Definition fan_of c : Z * bool := (fan_speed c, fan_speed_forced c).
Definition same_fan w w' : Prop := map fan_of (chips w') = map fan_of (chips w) /\ pwm w' = pwm w /\ (forall i p, p ∈ inbox w' i -> p ∈ inbox w i).
#[local] Instance same_fan_pre : PreOrder same_fan.
Proof. split; [by intros w|]. intros w1 w2 w3 (A1 & B1 & C1) (A2 & B2 & C2). split_and!; [congruence|congruence|auto]. Qed.
Lemma board_fan_of cs cs' : map fan_of cs' = map fan_of cs -> board_fan_speed cs' = board_fan_speed cs.
Proof.
  intros H. assert (forced cs' = forced cs /\ requested cs' = requested cs) as [Hf Hr]; [|unfold board_fan_speed; by rewrite Hf, Hr].
  revert cs H. induction cs' as [|c' cs' IH]; intros [|c cs] H; try done. injection H as H1 H2 H3. destruct (IH cs H3) as [E1 E2].
  cbn [forced requested foldr]. fold (forced cs) (forced cs') (requested cs) (requested cs'). by rewrite H1, H2, E1, E2.
Qed.
Lemma same_chips_ok w w' : same_fan w w' -> chips_ok w -> chips_ok w'.
Proof.
  intros (A & B & C) (L & H & I). assert (L' : length (chips w') = n) by (apply (f_equal length) in A; by rewrite !length_fmap, L in A). split_and!; [done| |].
  - intros i c Hc. destruct (lookup_lt_is_Some_2 (chips w) i) as [c0 Hc0]; [rewrite L, <- L'; by eapply lookup_lt_Some|].
    assert (E : fan_of c = fan_of c0).
    { apply (f_equal (.!! i)) in A. rewrite !list_lookup_fmap, Hc, Hc0 in A. cbn in A. by apply (inj Some) in A. }
    injection E as E1 E2. destruct (H i c0 Hc0) as [H1 H2]. unfold in_percent, full in *. rewrite E1, E2. done.
  - intros i p Hp. by apply I, C.
Qed.
Lemma same_fan_inv w w' : same_fan w w' -> fan_inv w -> fan_inv w'.
Proof. intros S [H1 H2]. split; [by apply (same_chips_ok w)|]. destruct S as (A & -> & _). by rewrite H2, (board_fan_of _ _ A). Qed.
Lemma alter_fan f i (l : list chip) : (forall c, fan_of (f c) = fan_of c) -> map fan_of (alter f i l) = map fan_of l.
Proof.
  intros Hf. apply list_eq. intros j. rewrite !list_lookup_fmap, alter_lookup. destruct (l !! j); [|done]. cbn. f_equal. case_decide; [apply Hf|done].
Qed.
Lemma upd_same f i w : (forall c, fan_of (f c) = fan_of c) -> same_fan w (upd i f w).
Proof. intros Hf. split_and!; [by apply alter_fan|done|done]. Qed.
Lemma isr_same w k : same_fan w (isr w k).
Proof.
  destruct k as [i|i|t|i l| | |l]; try done; cbn [isr].
  - by apply (upd_same _ i w).
  - by apply (upd_same _ i w).
  - split_and!; try done. cbn. rewrite map_map. apply map_ext. intros c. by case_match.
  - destruct l; by apply (upd_same _ i w).
Qed.
Lemma deliver_same w : same_fan w (deliver w).
Proof.
  unfold deliver. destruct (sched w) as [|b bs]; [done|]. transitivity (set_sched bs w); [done|]. generalize (set_sched bs w).
  induction b as [|k b IH]; intros w0; [done|]. cbn [foldl]. transitivity (isr w0 k); [apply isr_same|apply IH].
Qed.
(** Computations that leave the fan alone. *)
Definition fk {A} (m : M A) : Prop := forall w, same_fan w (m w).2.
Lemma fk_atom {A} (f : world -> A * world) : (forall w, same_fan w (f w).2) -> fk (atom f).
Proof. intros Hf w. unfold atom. transitivity (deliver w); [apply deliver_same|apply Hf]. Qed.
Lemma fk_bind {A B} (m : M A) (k : A -> M B) : fk m -> (forall x, fk (k x)) -> fk (m ≫= k).
Proof. intros Hm Hk w. unfold mbind, M_bind. specialize (Hm w). destruct (m w) as [x w1]. transitivity w1; [done|apply Hk]. Qed.
Lemma fk_ret {A} (x : A) : fk (mret x).
Proof. by intros w. Qed.
Lemma fk_put i f : (forall c, fan_of (f c) = fan_of c) -> fk (put i f).
Proof. intros Hf. apply fk_atom. intros w. by apply upd_same. Qed.
Lemma fk_act a : fk (act a).
Proof. by apply fk_atom. Qed.
Lemma fk_call a : fk (call a).
Proof. apply fk_atom. intros w. cbn. by destruct (rcs w). Qed.
Lemma fk_input : fk input.
Proof. apply fk_atom. intros w. by destruct (inputs w). Qed.
Lemma fk_look {A} i (p : chip -> A) : fk (look i p).
Proof. by apply fk_atom. Qed.
Lemma fk_when b m : fk m -> fk (when b m).
Proof. by destruct b. Qed.
Lemma fk_if {A} (b : bool) (m1 m2 : M A) : fk m1 -> fk m2 -> fk (if b then m1 else m2).
Proof. by destruct b. Qed.
Lemma fk_for l f : (forall j, fk (f j)) -> fk (for_list l f).
Proof. intros Hf. induction l as [|j l IH]; [apply fk_ret|]. by apply fk_bind. Qed.
Lemma fk_each f : (forall j, fk (f j)) -> fk (for_each_chip f).
Proof. intros Hf w. unfold for_each_chip. by apply fk_for. Qed.
End fan_proofs.
Ltac fk_step := first [ simple apply fk_bind; [|intros] | simple apply fk_ret | simple apply fk_act | simple apply fk_call | simple apply fk_input | simple apply fk_look
  | simple apply fk_when | simple apply fk_put; done | simple apply fk_if | simple apply fk_for; intros | simple apply fk_each; intros | simple apply fk_atom; done ].
Ltac fk_auto := repeat fk_step.
Section fan_runs.
Context (straps : list nat) (assembly_test : bool) (n : nat) (hold mute : nat -> Prop).
Hypothesis Hmute : forall i, hold i -> mute i.
Local Notation finv := (fan_inv n hold mute).
Definition inv {A} (m : M A) : Prop := forall w, finv w -> finv (m w).2.
Lemma fk_inv {A} (m : M A) : fk m -> inv m.
Proof. intros Hm w Hw. by apply (same_fan_inv n hold mute w). Qed.
Lemma inv_bind {A B} (m : M A) (k : A -> M B) : inv m -> (forall x, inv (k x)) -> inv (m ≫= k).
Proof. intros Hm Hk w Hw. unfold mbind, M_bind. specialize (Hm w Hw). destruct (m w) as [x w1]. by apply Hk. Qed.
Lemma inv_when b m : (b = true -> inv m) -> inv (when b m).
Proof. destruct b; [auto|]. by intros _ w. Qed.
Lemma inv_each (f : nat -> M unit) : (forall i, (i < n)%nat -> inv (f i)) -> inv (for_each_chip f).
Proof.
  intros Hf w Hw. unfold for_each_chip. assert (Hl : Forall (λ i, (i < n)%nat) (seq 0 (length (chips w)))).
  { apply list.Forall_forall. intros j Hj%elem_of_seq. destruct Hw as [[L _] _]. lia. }
  revert Hl Hw. generalize (seq 0 (length (chips w))). intros l. revert w. induction l as [|j l IH]; intros w Hl Hw; [done|].
  apply list.Forall_cons in Hl as [Hj Hl]. cbn [for_list]. apply (inv_bind (f j)); [by apply Hf|intros _ w' Hw'; by apply IH|done].
Qed.
Lemma fk_set_straps i : fk (bh_chip_set_straps straps i).
Proof. unfold bh_chip_set_straps, set_strap, bharc_enable_i2cbus, bharc_disable_i2cbus; fk_auto. Qed.
Lemma fk_unset_straps i : fk (bh_chip_unset_straps straps i).
Proof. unfold bh_chip_set_straps, bh_chip_unset_straps, set_strap, bharc_enable_i2cbus, bharc_disable_i2cbus; fk_auto. Qed.
Lemma fk_reset_asic i : fk (jtag_bootrom_reset_asic straps i).
Proof.
  unfold jtag_bootrom_reset_asic, bh_chip_assert_asic_reset, bh_chip_assert_spi_reset, bh_chip_deassert_asic_reset, bh_chip_deassert_spi_reset.
  repeat first [simple apply fk_set_straps | simple apply fk_unset_straps | fk_step].
Qed.
Lemma fk_soft_reset i : fk (soft_reset_arc i).
Proof. unfold soft_reset_arc. fk_auto. Qed.
Lemma fk_reset_chip i b : fk (bh_chip_reset_chip straps i b).
Proof.
  unfold bh_chip_reset_chip, jtag_bootrom_reset_sequence, bharc_disable_i2cbus, bharc_enable_i2cbus, bh_chip_cancel_bus_transfer_clear, jtag_bootrom_teardown.
  repeat first [simple apply fk_reset_asic | simple apply fk_soft_reset | fk_step].
Qed.
(** A change of one chip's request. *)
Lemma put_chips_ok i speed b w : 0 <= speed <= 100 -> (hold i -> speed = 100 /\ b = true) -> chips_ok n hold mute w ->
  chips_ok n hold mute (put i (λ c, set_fan_speed_forced b (set_fan_speed speed c)) w).2.
Proof.
  intros Hs Hh Hw. pose proof (same_chips_ok n hold mute _ _ (deliver_same w) Hw) as (L & H & I). split_and!; [cbn; by rewrite length_alter| |exact I].
  intros j c. cbn. rewrite alter_lookup. destruct (chips (deliver w) !! j) as [c0|] eqn:E; [|done]. intros [= <-]. destruct (H j c0 E) as [H1 H2].
  case_decide; [subst|done]. split; [done|]. intros Hx. exact (Hh Hx).
Qed.
Lemma pwm_fan_inv speed w : chips_ok n hold mute w -> speed = board_fan_speed (chips w) -> finv (pwm_set_cycles (duty speed) w).2.
Proof.
  intros Hw ->. unfold pwm_set_cycles, modify, atom. cbn [fst snd]. pose proof (deliver_same w) as Hd. pose proof (same_chips_ok n hold mute _ _ Hd Hw) as Hw'.
  rewrite (proj2 (Z.ltb_ge _ _)).
  - split; [exact Hw'|]. destruct Hd as (A & _ & _). cbn. by rewrite (board_fan_of _ _ A).
  - apply duty_range, board_range, list.Forall_forall. intros c Hc. apply list_elem_of_lookup in Hc as [j Hj]. destruct Hw as (_ & H & _). by destruct (H j c Hj).
Qed.
Lemma full_inv i : (i < n)%nat -> inv (fan_to_full true i).
Proof.
  intros Hi w Hw. unfold fan_to_full, mbind, M_bind. pose proof (put_chips_ok i 100 true w ltac:(lia) ltac:(done) (proj1 Hw)) as H1.
  assert (Hlk : exists c, chips (put i (λ c, set_fan_speed_forced true (set_fan_speed 100 c)) w).2 !! i = Some c /\ full c).
  { cbn. rewrite alter_lookup. destruct (lookup_lt_is_Some_2 (chips (deliver w)) i) as [c Hc].
    - destruct (same_chips_ok n hold mute _ _ (deliver_same w) (proj1 Hw)) as [-> _]. done.
    - rewrite Hc. cbn. rewrite decide_True by done. eexists. split; [reflexivity|done]. }
  destruct (put i _ w) as [[] w1]. cbn [fst snd when] in *. change UINT8_MAX with (duty 100) at 1. apply pwm_fan_inv; [done|]. destruct Hlk as (c & Hc & Hf).
  symmetry. apply (board_full _ c); [|by eapply list_elem_of_lookup_2|done]. apply list.Forall_forall. intros c' Hc'. apply list_elem_of_lookup in Hc' as [j Hj].
  destruct H1 as (_ & H & _). by destruct (H j c' Hj).
Qed.
Lemma fk_notify b speed : fk (when b (for_each_chip (λ i, bharc_smbus_word_data_write i CMFW_SMBUS_FAN_SPEED speed;; mret tt))).
Proof. unfold bharc_smbus_word_data_write. fk_auto. Qed.
Lemma update_fan_inv b w : chips_ok n hold mute w -> finv (update_fan_speed true b w).2.
Proof.
  intros Hw. unfold update_fan_speed. cbn [when]. unfold mbind at 1, M_bind, atom at 1. pose proof (same_chips_ok n hold mute _ _ (deliver_same w) Hw) as Hw'.
  unfold mbind, M_bind. pose proof (pwm_fan_inv _ _ Hw' eq_refl) as H1. unfold duty in H1. destruct (pwm_set_cycles _ (deliver w)) as [[] w1].
  exact (fk_inv _ (fk_notify b _) w1 H1).
Qed.
Lemma fan_update_inv i msg b p w : 0 <= FIELD_GET (GENMASK 7 0) msg <= 100 -> ~ hold i -> finv w ->
  p = (put i (λ c, set_fan_speed_forced b (set_fan_speed (FIELD_GET (GENMASK 7 0) msg) c));; update_fan_speed true true;; mret false) -> finv (p w).2.
Proof.
  intros Hm Hh Hw ->. unfold mbind, M_bind. pose proof (put_chips_ok i _ b w Hm ltac:(done) (proj1 Hw)) as H1.
  destruct (put i _ w) as [[] w1]. pose proof (update_fan_inv true w1 H1) as H2. by destruct (update_fan_speed true true w1).
Qed.
Lemma fk_ping k i msg : fk (ping_loop k i msg).
Proof. induction k as [|k IH]; cbn [ping_loop]; unfold bharc_smbus_word_data_read, bharc_smbus_word_data_write; [apply fk_ret|]. repeat first [simple apply IH | fk_step]. Qed.
Lemma fk_processors id i msg p : msg_processors straps true assembly_test id i msg = Some p ->
  (id =? id_num kCm2DmMsgIdFanSpeedUpdate) || (id =? id_num kCm2DmMsgIdForcedFanSpeedUpdate) = false -> fk p.
Proof.
  unfold msg_processors. intros Hp Hid. apply orb_false_iff in Hid as [E1 E2]. revert Hp. rewrite E1, E2. repeat (case_match; [intros [= <-]|]); [..|done].
  - unfold process_reset_req, bh_chip_cancel_bus_transfer_clear. repeat first [simple apply fk_reset_chip | fk_step].
  - unfold process_ping. apply fk_bind; [apply fk_ping|intros; apply fk_ret].
  - unfold process_id_ready. fk_auto.
  - unfold process_auto_reset_timeout_update. fk_auto.
  - unfold process_heartbeat_update. fk_auto.
  - unfold process_led_blink_request, modify. fk_auto.
  - apply fk_ret.
Qed.
Lemma poll_inv k i : inv (poll_loop straps true assembly_test k i).
Proof.
  induction k as [|k IH]; cbn [poll_loop]; [by intros w|]. intros w Hw. unfold mbind at 1, M_bind.
  assert (Hg : fk (get_cm2dm_message i)).
  { unfold get_cm2dm_message. apply fk_bind; [|intros p; fk_auto]. apply fk_atom. intros v. destruct (inbox v i) as [|p l] eqn:E; [done|]. split_and!; try done.
    intros j q. cbn. case_decide; [subst|done]. rewrite E. intros Hq. by apply elem_of_cons; right. }
  assert (Hm : forall m w', get_cm2dm_message i w = (m, w') -> msg_id (rmsg m) <> 0 ->
    (msg_id (rmsg m) =? id_num kCm2DmMsgIdFanSpeedUpdate) || (msg_id (rmsg m) =? id_num kCm2DmMsgIdForcedFanSpeedUpdate) = true ->
    0 <= FIELD_GET (GENMASK 7 0) (mdata (rmsg m)) <= 100 /\ ~ mute i).
  { intros m w'. unfold get_cm2dm_message, mbind at 1, M_bind, atom. pose proof (same_fan_inv n hold mute _ _ (deliver_same w) Hw) as [(_ & _ & Hin) _].
    destruct (inbox (deliver w) i) as [|p l] eqn:E.
    - unfold mbind, M_bind. destruct (when _ _ _). by intros [= <- <-].
    - unfold mbind, M_bind. destruct (when _ _ _). intros [= <- <-] _ Hf. apply (Hin i p); [rewrite E; by apply elem_of_cons; left|done]. }
  pose proof (same_fan_inv n hold mute _ _ (Hg w) Hw) as H1. specialize (Hm (get_cm2dm_message i w).1 (get_cm2dm_message i w).2 (surjective_pairing _)).
  destruct (get_cm2dm_message i w) as [m w1]. cbn [fst snd] in *. destruct (negb (ret m =? 0)); [done|]. destruct (Z.eqb_spec (msg_id (rmsg m)) 0) as [|Hid]; [done|].
  revert w1 H1. apply inv_bind; [apply fk_inv, fk_look|intros valid]. apply inv_bind; [apply fk_inv, fk_look|intros last]. case_match; [done|].
  apply inv_bind; [apply fk_inv; by apply fk_put|intros _]. apply inv_bind; [apply fk_inv; by apply fk_put|intros _].
  destruct (msg_processors straps true assembly_test (msg_id (rmsg m)) i (mdata (rmsg m))) as [p|] eqn:Ep; [|done].
  apply inv_bind; [|intros stop; destruct stop; [by intros w'|done]].
  destruct ((msg_id (rmsg m) =? id_num kCm2DmMsgIdFanSpeedUpdate) || (msg_id (rmsg m) =? id_num kCm2DmMsgIdForcedFanSpeedUpdate)) eqn:Ef; [|by apply fk_inv, (fk_processors _ _ _ _ Ep)].
  destruct (Hm Hid eq_refl) as [Hr Hh']. assert (Hh : ~ hold i) by auto. intros w' Hw'. revert Ep. unfold msg_processors.
  apply orb_true_iff in Ef as [Ef|Ef]; apply Z.eqb_eq in Ef; rewrite Ef; cbn -[FIELD_GET GENMASK]; intros [= <-]; [apply (fan_update_inv i (mdata (rmsg m)) false _ w' Hr Hh Hw') | apply (fan_update_inv i (mdata (rmsg m)) true _ w' Hr Hh Hw')]; reflexivity.
Qed.
Lemma fk_perst : fk (handle_perst straps).
Proof.
  unfold handle_perst, bh_chip_cancel_bus_transfer_clear, bh_chip_cancel_bus_transfer_set, bharc_enable_i2cbus, bharc_disable_i2cbus, jtag_bootrom_teardown.
    apply fk_each. intros i. apply fk_bind; [apply fk_atom; intros w; by apply upd_same|intros v]. repeat first [simple apply fk_reset_asic | simple apply fk_soft_reset | fk_step].
Qed.
Lemma urgent_inv : inv (urgent straps true).
Proof.
  unfold urgent. apply inv_bind; [|intros _; apply inv_bind; [|intros _]].
  - apply inv_each. intros i Hi. apply inv_bind; [apply fk_inv, fk_look|intros v]. apply inv_when. intros _.
    apply inv_bind; [apply fk_inv; by apply fk_put|intros _]. apply inv_bind; [apply fk_inv; by apply fk_atom|intros _]. apply inv_bind; [by apply full_inv|intros _].
    apply fk_inv. unfold bh_chip_cancel_bus_transfer_clear, bh_chip_cancel_bus_transfer_set. repeat first [simple apply fk_reset_chip | fk_step].
  - apply inv_each. intros i Hi. apply inv_bind; [apply fk_inv, fk_look|intros v]. apply inv_when. intros _. unfold bh_chip_cancel_bus_transfer_clear.
    do 2 (apply inv_bind; [apply fk_inv; by apply fk_put|intros _]). apply inv_bind; [apply fk_inv, fk_call|intros r].
    apply inv_bind; [apply fk_inv; fk_auto|intros _]. apply inv_bind; [apply fk_inv; by apply fk_put|intros _]. apply inv_bind; [by apply full_inv|intros _].
    apply fk_inv. repeat first [simple apply fk_reset_chip | fk_step].
  - apply fk_inv, fk_perst.
Qed.
Context (bl_version app_version : Z) (primary : nat).
Lemma routine_inv ev : inv (routine straps true assembly_test bl_version app_version primary ev).
Proof.
  unfold routine, on_event. apply inv_bind; [apply fk_inv|intros _; apply inv_bind; [apply fk_inv|intros _]].
  - unfold handle_pgood_change, handle_pgood_event, bh_chip_assert_asic_reset, modify. repeat first [simple apply fk_reset_chip | fk_step].
  - unfold send_init_data, bh_chip_set_static_info, bharc_smbus_block_write, bh_chip_set_input_power_lim, bh_chip_set_therm_trip_count, bharc_smbus_word_data_write. fk_auto.
  - apply inv_bind; [apply fk_inv; unfold board_power_update, bh_chip_set_input_power, bharc_smbus_word_data_write; fk_auto|intros _].
    apply inv_bind; [apply fk_inv; unfold fan_rpm_feedback, bh_chip_set_fan_rpm, bharc_smbus_word_data_write; fk_auto|intros _].
    apply inv_bind; [apply inv_when; intros _; apply inv_each; intros i _; apply poll_inv|intros _].
    apply fk_inv. unfold send_logs_to_smc, bh_chip_write_logs, bharc_smbus_block_write, modify. fk_auto.
Qed.
End fan_runs.
(** A fault turns the fan up. *)
Section turned_up.
Context (straps : list nat).
Notation any := (λ _ : irq, True).
Definition kept (p : chip -> Prop) : cp := λ c _ _, p c.
Lemma st_kept i (p : chip -> Prop) : (forall k c, p c -> p (isr_chip k i c)) -> stable any i (kept p).
Proof. intros H. split; [|done]. intros k c ev tr _. apply H. Qed.
Lemma isr_chip_full k i c : full c -> full (isr_chip k i c).
Proof. intros [H1 H2]. destruct k; cbn; repeat case_match; done. Qed.
Lemma st_full i : stable any i (kept full).
Proof. apply st_kept. intros k c. apply isr_chip_full. Qed.
(** What neither a reset nor an interrupt undoes. *)
Record lasting (p : chip -> Prop) : Prop := {
  l_isr k i c : p c -> p (isr_chip k i c);
  l_keeps : reset_keeps (kept p);
  l_other c : p c -> (forall b, p (set_trigger_reset b c)) /\ (forall b, p (set_cancelled b c)) /\ (forall b, p (set_performing_reset b c)) /\
    (forall n, p (set_therm_trip_count n c)) /\ (forall n, p (set_arc_hang_pc n c)) /\ (forall n, p (set_auto_reset_timeout n c)) }.
Definition hot_or_full c : Prop := therm_trip_triggered c = true \/ arc_wdog_triggered c = true \/ full c.
Definition hung_or_full c : Prop := arc_wdog_triggered c = true \/ full c.
Ltac lasting_tac := constructor; [intros k i c; destruct k; cbn; repeat case_match; cbn; tauto | constructor; unfold kept; cbn; tauto | intros c; cbn; tauto].
Lemma last_full (b : Prop) : lasting (λ c, b -> full c).
Proof. unfold full. lasting_tac. Qed.
Lemma last_hot (b : Prop) : lasting (λ c, b -> hot_or_full c).
Proof. unfold hot_or_full, full. lasting_tac. Qed.
Lemma last_hung (b : Prop) : lasting (λ c, b -> hung_or_full c).
Proof. unfold hung_or_full, full. lasting_tac. Qed.
Section kept.
Context (i : nat) (p : chip -> Prop) (Hp : lasting p).
Lemma st_last : stable any i (kept p).
Proof. apply st_kept. intros k c. by apply Hp. Qed.
Lemma last_reset : pres any False i (kept p) (bh_chip_reset_chip straps i true).
Proof.
  apply (ct_weaken any False i _ (kept p) _ _ (λ _ c ev tr, (kept p c ev tr \/ kept p c ev tr) /\ done_reset any False [] i c tr)); [done|by intros _ ??? [[?|?] _]|].
  pose proof st_last as Hs. pose proof (l_keeps p Hp) as Hk.
  apply reset_chip_ct; try done; try (intros; apply prefix_nil); try (by intros; apply Hk); intros c ev tr; intros; by apply (l_other p Hp).
Qed.
Lemma last_put f : (forall c, p c -> p (f c)) -> pres any False i (kept p) (put i f).
Proof. intros Hf. apply ct_put; [apply st_last|]. intros c ev tr. apply Hf. Qed.
End kept.
Ltac last_step Hp :=
  first [ simple apply pres_bind; [|intros] | simple apply pres_ret | simple apply pres_act; by apply st_last | simple apply pres_call; by apply st_last
        | simple apply pres_input; by apply st_last | simple apply pres_look; by apply st_last | simple apply pres_when
        | simple apply last_put; [exact Hp | intros c Hc; exact Hc]
        | simple apply last_reset; done | simple apply pres_if ].
Lemma turn_up i (b : Prop) (P : cp) : stable any i P -> ct any False i P (fan_to_full true i) (λ _, kept (λ c, b -> full c)).
Proof.
  intros Hs. pose proof (st_last i _ (last_full b)) as Hf. unfold fan_to_full. apply (ct_bind any False i _ _ (λ _, kept (λ c, b -> full c))); [by apply ct_put|intros _].
  apply pres_when, pres_modify; [done|]. intros w. by destruct (UINT8_MAX <? UINT8_MAX).
Qed.
Lemma st_true i : stable any i (kept (λ _, True)).
Proof. by apply st_kept. Qed.
Lemma up_therm i (b : Prop) : ct any False i (kept (λ c, b -> hot_or_full c))
  (tripped ← look i therm_trip_triggered;
   when tripped (
     put i (set_therm_trip_triggered false);; modify (set_fault_led true);; fan_to_full true i;;
     triggered ← look i trigger_reset;
     when (negb triggered) (
       put i (set_performing_reset true);; bh_chip_cancel_bus_transfer_clear i;;
       put i (λ c, set_therm_trip_count (u16 (therm_trip_count c + 1)) c);; bh_chip_reset_chip straps i true;;
       triggered ← look i trigger_reset;
       when triggered (bh_chip_cancel_bus_transfer_set i);; put i (set_performing_reset false)))) (λ _, kept (λ c, b -> hung_or_full c)).
Proof.
  pose proof (last_full b) as Hf. apply (ct_bind any False i _ _ (λ v, kept (λ c, v = false -> b -> hung_or_full c))).
  { apply ct_look; [apply st_last, last_hot|]. intros c ev tr H Hv Hb. destruct (H Hb) as [|]; [congruence|done]. }
  intros v. apply ct_when; [intros ->|intros -> c ev tr H; exact (H eq_refl)].
  apply (ct_weaken any False i _ (kept (λ _, True)) _ _ (λ _, kept (λ c, b -> full c))); [done|intros _ c ev tr H Hb; right; by apply H|].
  apply (ct_bind any False i _ _ (λ _, kept (λ _, True))); [apply ct_put; [apply st_true|done]|intros _].
  apply (ct_bind any False i _ _ (λ _, kept (λ _, True))); [apply pres_modify; [apply st_true|done]|intros _].
  apply (ct_bind any False i _ _ (λ _, kept (λ c, b -> full c))); [apply turn_up, st_true|intros _].
  unfold bh_chip_cancel_bus_transfer_clear, bh_chip_cancel_bus_transfer_set. match goal with |- ct ?o ?w ?i ?F ?m _ => change (pres o w i F m) end. repeat last_step Hf.
Qed.
Lemma up_wdog i (b : Prop) : ct any False i (kept (λ c, b -> hung_or_full c))
  (expired ← look i arc_wdog_triggered;
   when expired (
     put i (set_arc_wdog_triggered false);; bh_chip_cancel_bus_transfer_clear i;;
     ret ← call (JtagSetup i);
     when (ret =? 0) (act (JtagReadPc i);; pc ← input; put i (set_arc_hang_pc pc);; act (JtagTeardown i));;
     put i (set_auto_reset_timeout 0);; fan_to_full true i;; put i (set_performing_reset true);;
     bh_chip_reset_chip straps i true;; bh_chip_cancel_bus_transfer_clear i;; put i (set_performing_reset false))) (λ _, kept (λ c, b -> full c)).
Proof.
  pose proof (last_full b) as Hf. apply (ct_bind any False i _ _ (λ v, kept (λ c, v = false -> b -> full c))).
  { apply ct_look; [apply st_last, last_hung|]. intros c ev tr H Hv Hb. destruct (H Hb) as [|]; [congruence|done]. }
  intros v. apply ct_when; [intros ->|intros -> c ev tr H; exact (H eq_refl)].
  apply (ct_weaken any False i _ (kept (λ _, True)) _ _ (λ _, kept (λ c, b -> full c))); [done|done|]. pose proof (st_true i) as Ht. unfold bh_chip_cancel_bus_transfer_clear.
  do 2 (apply (ct_bind any False i _ _ (λ _, kept (λ _, True))); [by apply ct_put|intros _]).
  apply (ct_bind any False i _ _ (λ _, kept (λ _, True))); [by apply pres_call|intros r].
  apply (ct_bind any False i _ _ (λ _, kept (λ _, True))).
  { apply pres_when, pres_bind; [by apply pres_act|intros _]. apply pres_bind; [by apply pres_input|intros pc]. apply pres_bind; [by apply ct_put|intros _]. by apply pres_act. }
  intros _. apply (ct_bind any False i _ _ (λ _, kept (λ _, True))); [by apply ct_put|intros _].
  apply (ct_bind any False i _ _ (λ _, kept (λ c, b -> full c))); [by apply turn_up|intros _]. match goal with |- ct ?o ?w ?i ?F ?m _ => change (pres o w i F m) end. repeat last_step Hf.
Qed.
Lemma same_full w w' i c : same_fan w w' -> chips w !! i = Some c -> full c -> exists c', chips w' !! i = Some c' /\ full c'.
Proof.
  intros (A & _ & _) Hc [H1 H2]. apply (f_equal (.!! i)) in A. rewrite !list_lookup_fmap, Hc in A. destruct (chips w' !! i) as [c'|]; [|done].
  exists c'. split; [done|]. cbn in A. apply (inj Some) in A. injection A as E1 E2. split; congruence.
Qed.
Lemma full_after_faults w i c : chips w !! i = Some c -> hot_or_full c -> exists c', chips (urgent straps true w).2 !! i = Some c' /\ full c'.
Proof.
  intros Hc Hh. assert (H0 : holds any False (λ j, kept (λ c, j = i -> hot_or_full c)) w).
  { split; [split; [apply list.Forall_forall; intros b _; by apply list.Forall_forall|done]|]. intros j c' Hj ->. by simplify_eq. }
  unfold urgent, mbind, M_bind.
  destruct (for_each_holds any False _ (λ j, kept (λ c, j = i -> hung_or_full c)) _ w (λ j, st_last j _ (last_hot (j = i))) (λ j, st_last j _ (last_hung (j = i))) (λ j, up_therm j (j = i)) H0) as [H1 L1].
  change (for_each_chip _) with (handle_therm_trip straps true) in H1, L1. destruct (handle_therm_trip straps true w) as [[] w1]. cbn [fst snd] in *.
  destruct (for_each_holds any False _ (λ j, kept (λ c, j = i -> full c)) _ w1 (λ j, st_last j _ (last_hung (j = i))) (λ j, st_last j _ (last_full (j = i))) (λ j, up_wdog j (j = i)) H1) as [[_ H2] L2].
  change (for_each_chip _) with (handle_watchdog_reset straps true) in H2, L2. destruct (handle_watchdog_reset straps true w1) as [[] w2]. cbn [fst snd] in *.
  destruct (lookup_lt_is_Some_2 (chips w2) i) as [c2 Hc2]; [rewrite L2, L1; by eapply lookup_lt_Some|].
  apply (same_full w2 _ i c2); [apply fk_perst|done|]. by apply (H2 i c2 Hc2).
Qed.
End turned_up.
(** The requests are percentages and the fan runs at the speed they amount to. *)
Definition fan_consistent w : Prop := Forall in_percent (chips w) /\ pwm w = duty (board_fan_speed (chips w)).
Definition requests_ok (e : env) : Prop := forall i p, p ∈ e_inbox e i -> fan_message p = true -> 0 <= percent_of p <= 100.
Definition silent i (e : env) : Prop := forall p, p ∈ e_inbox e i -> fan_message p = false.
Section fan_passes.
Context (straps : list nat) (assembly_test : bool) (bl_version app_version : Z) (primary : nat).
Local Notation run1 := (pass straps true assembly_test bl_version app_version primary).
Local Notation runs := (passes straps true assembly_test bl_version app_version primary).
(** Between passes. *)
Definition fan_state (n : nat) (hold : nat -> Prop) w : Prop :=
  length (chips w) = n /\ (forall i c, chips w !! i = Some c -> in_percent c /\ (hold i -> full c)) /\ pwm w = duty (board_fan_speed (chips w)).
Lemma state_inv n hold mute w : fan_state n hold w -> inbox_ok mute w -> fan_inv n hold mute w.
Proof. intros (L & H & P) I. by split. Qed.
(** [hold]: until the faults of this pass are handled, [mute]: from then on. *)
Lemma run_state n (hold mute : nat -> Prop) e w : fan_state n hold w -> (forall i, hold i -> mute i) ->
  (forall i, mute i -> (i < n)%nat -> hold i \/ exists c, chips w !! i = Some c /\ hot_or_full c) -> requests_ok e -> (forall i, mute i -> silent i e) ->
  fan_state n mute (run1 e w).
Proof.
  intros Hw Hle Hnew Hreq Hsil. unfold pass. set (w0 := set_inbox (e_inbox e) (set_inputs (e_inputs e) (set_rcs (e_rcs e) (set_sched (e_urgent e) w)))).
  assert (Hin : inbox_ok mute w0).
  { intros i p Hp Hm. split; [by apply (Hreq i)|]. intros Hx. pose proof (Hsil i Hx p Hp). congruence. }
  assert (S1 : same_fan w0 (tt_event_wait w0).2) by (apply (fk_atom (λ w, (events w, set_events 0 w))); done).
  pose proof (same_fan_inv n hold mute _ _ S1 (state_inv n hold mute w0 Hw Hin)) as H1.
  assert (Hhot : forall i, mute i -> (i < n)%nat -> hold i \/ exists c, chips (tt_event_wait w0).2 !! i = Some c /\ hot_or_full c).
  { intros i Hi Hn. destruct (Hnew i Hi Hn) as [|(c & Hc & Hh)]; [by left|right]. cbn.
    destruct (deliver_holds (λ _, True) False (λ j, kept (λ c, j = i -> hot_or_full c)) w0 (λ j, st_last j _ (last_hot (j = i)))) as [[_ Hd] L].
    { split; [split; [apply list.Forall_forall; intros b _; by apply list.Forall_forall|done]|]. intros j c' Hj ->. change (chips w0) with (chips w) in Hj. by simplify_eq. }
    destruct (lookup_lt_is_Some_2 (chips (deliver w0)) i) as [c1 Hc1]; [rewrite L; by eapply lookup_lt_Some|]. exists c1. split; [done|]. by apply (Hd i c1 Hc1). }
  destruct (tt_event_wait w0) as [ev w1]. cbn [fst snd] in *. pose proof (urgent_inv straps n hold mute w1 H1) as H2.
  pose proof (full_after_faults straps w1) as Hfa. destruct (urgent straps true w1) as [[] w2]. cbn [fst snd] in *.
  assert (H3 : fan_inv n mute mute (set_sched (e_routine e) w2)).
  { destruct H2 as [(L & Hcs & Hi2) P]. split; [|exact P]. split_and!; [exact L| |exact Hi2]. intros i c Hc. split; [by apply (Hcs i c Hc)|]. intros Hi.
    destruct (Hhot i Hi) as [Hx|(c1 & Hc1 & Hh)]; [rewrite <- L; by eapply lookup_lt_Some|by apply (Hcs i c Hc)|].
    destruct (Hfa i c1 Hc1 Hh) as (c' & Hc' & Hf). change (chips (set_sched (e_routine e) w2)) with (chips w2) in Hc. by simplify_eq. }
  pose proof (routine_inv straps assembly_test n mute mute (λ _ H, H) bl_version app_version primary ev _ H3) as H4.
  destruct (routine _ _ _ _ _ _ ev (set_sched (e_routine e) w2)) as [[] w3]. by destruct H4 as [(L & Hcs & _) P].
Qed.
Lemma runs_state n (mute : nat -> Prop) es : forall w, fan_state n mute w -> Forall requests_ok es -> (forall i, mute i -> Forall (silent i) es) -> fan_state n mute (runs es w).
Proof.
  induction es as [|e es IH]; intros w Hw Hr Hs; [done|]. apply list.Forall_cons in Hr as [Hr1 Hr]. apply IH; [|done|].
  - apply (run_state n mute mute); try done; [by left|]. intros i Hi. by destruct (proj1 (list.Forall_cons _ _ _) (Hs i Hi)).
  - intros i Hi. by destruct (proj1 (list.Forall_cons _ _ _) (Hs i Hi)).
Qed.
Lemma consistent_state w : fan_consistent w <-> fan_state (length (chips w)) (λ _, False) w.
Proof.
  unfold fan_consistent, fan_state. rewrite list.Forall_lookup. split; [intros [H P]; split_and!; try done; intros i c Hc; split; [by apply (H i)|done]|].
  intros (_ & H & P). split; [|done]. intros i c Hc. by apply (H i c Hc).
Qed.
End fan_passes.

(** C15. However interrupts fall into the loop and whatever drivers answer (that of the fan's PWM is taken to
    work: its answer is ignored), and if the chips ask for at most 100 percent: between passes the fan runs at the
    speed that the chips' requests amount to; and once a chip has a thermal trip or its watchdog expires,
    the fan is at full speed after the pass that follows and stays there until that chip sends a request
    again, whatever the other chips ask for. *)
Theorem fan_follows_faults (straps : list nat) (assembly_test : bool) (bl_version app_version : Z) (primary : nat) (es : list env) (w : world) :
  fan_consistent w -> Forall requests_ok es ->
  let v := passes straps true assembly_test bl_version app_version primary es w in
  fan_consistent v /\
  forall i c e es', chips v !! i = Some c -> therm_trip_triggered c = true \/ arc_wdog_triggered c = true ->
    Forall requests_ok (e :: es') -> Forall (silent i) (e :: es') ->
    pwm (passes straps true assembly_test bl_version app_version primary (e :: es') v) = UINT8_MAX.
Proof.
  intros Hw Hes v. rewrite consistent_state in Hw. pose proof (runs_state straps assembly_test bl_version app_version primary _ _ es w Hw Hes ltac:(done)) as Hv. fold v in Hv.
  assert (L : length (chips w) = length (chips v)) by (by destruct Hv). split; [apply consistent_state; by rewrite <- L|].
  intros i c e es' Hc Hf Hr Hs. apply list.Forall_cons in Hr as [Hr1 Hr]. apply list.Forall_cons in Hs as [Hs1 Hs].
  set (v1 := passes straps true assembly_test bl_version app_version primary (e :: es') v).
  assert (H1 : fan_state (length (chips w)) (λ j, j = i) v1).
  { apply (runs_state straps assembly_test bl_version app_version primary _ _ es'); [|done|by intros j ->].
    apply (run_state straps assembly_test bl_version app_version primary _ (λ _, False)); [done|done| |done|by intros j ->].
    intros j -> _. right. exists c. split; [done|]. unfold hot_or_full. tauto. }
  destruct H1 as (L1 & Hcs & ->). destruct (lookup_lt_is_Some_2 (chips v1) i) as [c1 Hc1]; [rewrite L1, L; by eapply lookup_lt_Some|].
  rewrite (board_full _ c1); [done| |by eapply list_elem_of_lookup_2|by apply (Hcs i c1 Hc1)]. apply list.Forall_lookup. intros j c' Hj. by apply (Hcs j c' Hj).
Qed.

(** ** Concrete runs *)
Lemma booted_fan : fan_consistent booted.
Proof. split; [|vm_compute; done]. apply list.Forall_lookup. intros [|[|i]] c Hc; vm_compute in Hc; simplify_eq; unfold in_percent; cbn; lia. Qed.
Definition tripped_env : env :=
  {| e_urgent := []; e_routine := [[]; [ThermTrip 1]]; e_rcs := []; e_inputs := []; e_inbox := λ _, [] |}.
Definition slow_request : env :=
  {| e_urgent := [[Every20ms]]; e_routine := []; e_rcs := []; e_inputs := []; e_inbox := λ i, match i with O => [fan_request 1 3 40] | _ => [] end |}.
Lemma slow_ok : requests_ok slow_request /\ silent 1 slow_request.
Proof.
  split; [intros [|i] p Hp Hm; cbn in Hp|intros p Hp; by apply not_elem_of_nil in Hp].
  - apply list_elem_of_singleton in Hp as ->. vm_compute. split; discriminate.
  - by apply not_elem_of_nil in Hp.
Qed.
Lemma empty_ok e : e_inbox e = (λ _, []) -> requests_ok e /\ forall i, silent i e.
Proof. intros E. split; [intros i p Hp|intros i p Hp]; rewrite E in Hp; by apply not_elem_of_nil in Hp. Qed.
Lemma fan_follows_faults_witness :
  let run := passes [] true false 1 2 0 in let v := run [tripped_env] booted in
  fan_consistent v /\
  forall i c e es', chips v !! i = Some c -> therm_trip_triggered c = true \/ arc_wdog_triggered c = true ->
    Forall requests_ok (e :: es') -> Forall (silent i) (e :: es') -> pwm (run (e :: es') v) = UINT8_MAX.
Proof.
  intros run v. apply (fan_follows_faults [] false 1 2 0 [tripped_env] booted).
  - exact booted_fan.
  - apply Forall_cons_2; [apply empty_ok; reflexivity|apply Forall_nil_2].
Defined.
(** Chip 1 is hot after that pass, and chip 0's request for a slow fan does not slow it down. *)
Lemma tripped_run : let v := passes [] true false 1 2 0 [tripped_env] booted in pwm v = 90 /\ pwm (passes [] true false 1 2 0 [slow_request] v) = 255.
Proof. vm_compute. done. Qed.

